(* ===== verification/_CoqProject ===== *)
-Q . S2P
Prelude.v
Sorting.v
Api.v
Sha256.v
Names.v
GoLib.v
Keys.v
Paths.v
Objects.v
Phases.v
Stages.v
Composer.v
Concurrency.v
Effects.v
Webhooks.v
PodPolicy.v
Ops.v
Workers.v
Expr.v
Resolver.v
Compiler.v
TestController.v
Admission.v
CompilerSpec.v
Verdicts.v
Termination.v
Wrapper.v
WrapperSpec.v
Scraper.v
ScraperSpec.v
Fetcher.v
FetcherSpec.v
Disk.v
Logstream.v
LogstreamSpec.v
Lifecycle.v
Composite.v
CompositeSpec.v
Services.v
Parallel.v
ParallelSpec.v
Reconciler.v
ReconcilerSpec.v
SetupSpec.v
CleanupSpec.v
Dispatcher.v
Scheduler.v
Calendar.v
Durations.v
Urls.v
Retention.v
Store.v
StoreSpec.v
Triggers.v
TriggersSpec.v
ApiRuns.v
ApiServer.v
Routes.v
Client.v
ClientSpec.v
Pools.v
Natural.v
Views.v
YamlView.v
Reports.v
Comparison.v
Access.v
Editor.v
EditorSpec.v
ControlCenter.v
EditorApi.v
UiRoutes.v
LiveLinks.v
ControlCenterSpec.v
EditorApiSpec.v
BulkDeleteSpec.v
ApiListSpec.v
ApiSpec.v
ChunksSpec.v
ArchiveSpec.v
