(* ===== verification/Prelude.v ===== *)
(** * kubetest-alt in Rocq

    A verification development of kubetest-alt, a Kubernetes operator that runs
    tests: a [TestRun] resource names a [Test], and the operator resolves it,
    starts a Job (or services, workers, child runs), watches it and writes the
    verdict into the run's status, run history and bucket.  The Go code is under
    src/; every definition here keeps its Go name where Rocq allows.

    * How the program is put together

    - api/v1alpha1 declares the resources; internal/controller reconciles them.
      One event of a TestRun is one call of [reconcile]
      (testrun_controller.go): it reads the run and either finalizes it, persists
      and expires it, aborts it, sets it up, or hands it to the leaf, composite or
      parallel handler.
    - The handlers act on the outside only through a few clients: the API server
      (cached and live reads, writes), the result reader over object storage, the
      run store, the log-tailer registry, the webhook dispatcher, Prometheus
      metrics and the clock.
    - internal/composer, internal/names, pkg/expr and pkg/storage/keys.go are the
      pure packages they share; internal/resolver, internal/compiler and
      internal/podpolicy turn a Test into what is run.

    * How it is modelled

    A handler is a program ([Effects.prog]) over the operations [Ops.Op], written
    in the order of the Go statements.  Its meaning is the set of its executions
    [exec p tr a]: the trace [tr] of operations with the responses the environment
    gave, and the result [a].  Nothing is assumed of the environment: API calls may
    fail, be lost, or answer anything of their type, at any point, and the caches may
    lie.  A program is an inductive tree, so every handler returns on every sequence
    of responses; loops are over lists and need no fuel.  A mutated run is threaded:
    handlers return the run as they left it.  Properties of all executions are proved
    with monitors ([guards], [always]) or by inverting [exec]; [Effects.run] executes
    a handler against a concrete environment and gives the witnesses.

    Go strings are byte strings; times and durations are integers in nanoseconds
    ([time.Sub] saturates, see Prelude); maps are stdpp's [gmap]; a nil pointer is
    [None].  Errors keep their class (what [apierrors.IsX] and [errors.Is] test) and
    their text.  Libraries the program calls — the cron parser, regular expressions,
    XML, CSV and archive decoding, glob matching, UUID and URL parsing, quantities,
    the JSON and YAML of values, the order a map is ranged over — are classes whose
    methods are parameters; where a proof relies on a documented law of one it is a
    class of its own ([Scheduler.CronLaws], [GoLib.MapOrder]).  Two loops of the
    program need not end, the log tailer and the log stream: a tailer's course is a
    list of what happens to it, a stream has a bound on its rounds that its theorem
    says how to choose.

    Where goroutines or processes run side by side, the steps are those the code's
    locks and calls make: the runs of one Test with a cache that lags and writes that
    come later (Concurrency), schedulers whose requests may be lost (Scheduler), a
    tailer and its clients, who may come between the halves of a publish (Logstream),
    pools of goroutines (Pools), the informers' manager (Triggers).

    ** The files

    - Prelude: results, integers and time, strings, lists, tactics, hints.
      GoLib, Calendar, Durations: the parts of Go's standard library the program
      uses; Sha256: crypto/sha256, for the names; Sorting: stable sorts, keyset
      pages, and what walking a changing listing shows; Paths: facts on clean paths.
    - Api: api/v1alpha1.
    - Names: internal/names.  A generated service name is a DNS-1035 label.
    - Keys: pkg/storage/keys.go.  Runs' subtrees are disjoint; a parsed prefix is one.
    - Phases: phases.go and the pod tests of services.go.  Stages: stages.go; closing
      a run's course.
    - Composer: internal/composer; verdict folds, and the execute-graph walk, which
      ends and accepts exactly the graphs that are acyclic and within the depth limit
      (fuel [MaxDepth + 2] is enough, as the depth test stops every branch).
    - Concurrency: concurrency.go, and the runs of one Test under Forbid as a
      transition system in which setup decides on a listing that may be old and writes
      later, with its invariant (one run under way, in two regimes) and progress.
    - Workers: ParallelWorkers; the workers partition matrix and shards.
    - Expr: Eval, SubstituteWorker (pkg/expr), RenderChildConfig.  Eval is
      tokenisation then rendering: inserted values are never scanned again.  Its fuel
      is the length of the text, every step of which consumes a byte.
    - Resolver: internal/resolver; PodPolicy: internal/podpolicy; Objects, Compiler:
      internal/compiler.  CompilerSpec: what is compiled from an admitted Test and run
      stays within the policy, and the wrapper reads back what was written for it.
      Admission, TestController: the validating webhooks and a Test's Ready condition.
    - Effects, Ops: programs, and the operations of the reconciler.
    - Webhooks: the label values of internal/metrics; a webhook's payload and which
      want it.  Dispatcher: delivering one.
    - Lifecycle: how a run ends ([transitionTerminal], [terminalAndDeleteJob]), run
      history, webhooks, tailers, aborts (testrun_controller.go, latest_run.go,
      status_projection.go, storage_result_reader.go).
    - Composite, CompositeSpec: composite.go.  Decisions are made in order and never
      unmade; children are created within the step's parallelism (retries are not).
    - Services, Parallel, ParallelSpec: services.go, parallel.go.  A worker's Job is
      deleted only after its verdict is written.
    - Reconciler: setup, testdata.go, Jobs, aborts, expiry, deletion, and [reconcile].
      ReconcilerSpec: a leaf run's Job is deleted after its verdict is written and
      created only once; the verdict on every branch.  SetupSpec: what has been
      checked when a run starts.  CleanupSpec: terminal runs are frozen, the finalizer
      stays until the Job is gone, scheduled runs are held; and what composite runs
      leave out.
    - Scheduler: internal/scheduler; what is created for each activation while requests
      are lost and runs removed.  Triggers, TriggersSpec: the
      trigger controller, its gates and its informers.
    - Verdicts, Termination: reports and the result; Wrapper, WrapperSpec: pkg/executor,
      the process in the pod, up to result.json.  Fetcher, FetcherSpec: the fetch of
      a test's code stays, as text, in its directory; Disk: a disk with links: without
      any the fetch stays there in fact, and an example in which an archive leaves it.
    - Logstream, LogstreamSpec: internal/logstream; the chunks are the published
      stream, what a client has of it, every line once over any reconnects.
    - Retention: internal/retention and the partitions of internal/store.  Store,
      StoreSpec: run history's statements and what they mean; a saved run is read
      back, a listing walked page by page misses nothing.
    - ApiRuns, ApiServer: internal/apiserver, every handler and the routes, over the
      cluster, history, the object store and the client.  ApiListSpec: GET /runs, walked
      by cursor over cluster and history, is a walk of one table; ApiSpec: a request
      stays in its namespace, deletions are ordered, a patch leaves the owner's label
      alone, the window of statistics; ChunksSpec: a log read live or from an
      offset is whole; ArchiveSpec: a run reads the same from history.
    - Scraper, ScraperSpec: internal/scraper; what a result lists was stored, once.
      Reports: pkg/report; a parsed report has names of the vocabulary.
    - Urls: base64, and net/url's escaping and queries.  Routes: net/http's choice of a
      route, over the API server's.  Client, ClientSpec: pkg/apiclient; its requests
      arrive at the handlers they are meant for, whatever bytes names and paths have.

    Control Center (internal/controlcenter), the web UI's backend, is a client of
    several clusters' API servers.  Its handlers start goroutines, so many at a time:
    - Pools: a pool of goroutines, as a step relation on what each has left to do, and
      what a complete course shows.
    - Access: the configuration, sign-in, roles and the registry of clusters (config,
      auth, clusters).  Natural, Views: the order of names, and what the handlers compute
      from what they read (view.go and the pure parts of the other files).  Comparison:
      runs side by side, and that their Markdown is one table.  YamlView: yamlview, the
      YAML of a definition; it keeps every scalar and sequence, not every empty mapping.
    - Editor, EditorSpec: editor.go.  A Test the form can show comes back as it was;
      what others lose.
    - ControlCenter, EditorApi: the handlers, as programs whose operations are calls of
      Client, the clock, and running a pool.  UiRoutes: the routes with their roles.
      ControlCenterSpec: who may have what asked; EditorApiSpec: an edit is saved on the
      version it was made from; BulkDeleteSpec: a cleanup, whatever its schedule.
    - LiveLinks: server/live.go, the links to a run's live view, and what one
      reaches besides.

    ** What is not modelled

    Log lines, controller registration and process wiring (cmd/), generated deep copies
    and the OpenAPI documents (constants or generated), SQL beyond the statements'
    meaning, the S3 and GCS clients, subprocesses.  Of run history: the aggregate queries
    (test-case and Test statistics), reading partitions back from the catalogue.
    Of Control Center: the streamed pages and the script they insert, embedded assets,
    and a Test's conditions.  The command line, which calls the API's client and
    prints. *)
From Stdlib Require Export ZArith Lia Ascii.
From Stdlib Require String.
From stdpp Require Export base list gmap strings pretty.

Declare Scope kt_scope.
Delimit Scope kt_scope with kt.

(** ** Automation *)

(** [case_match_in] destructs the scrutinee of one [match] of the goal or of a
    hypothesis, keeping its equation. *)
Ltac case_goal :=
  match goal with
  | |- context [match ?x with _ => _ end] =>
      lazymatch x with context [match _ with _ => _ end] => fail | _ => destruct x eqn:? end
  end.

Ltac case_hyp H :=
  match type of H with
  | context [match ?x with _ => _ end] =>
      lazymatch x with context [match _ with _ => _ end] => fail | _ => destruct x eqn:? end
  end.

(** Boolean tests of the code, read as propositions. *)
Ltac breflect :=
  repeat match goal with
  | H : (_ && _)%bool = true |- _ => apply andb_prop in H as [? ?]
  | H : (_ || _)%bool = false |- _ => apply orb_false_elim in H as [? ?]
  | H : negb _ = true |- _ => apply negb_true_iff in H
  | H : negb _ = false |- _ => apply negb_false_iff in H
  | H : (_ <? _)%Z = true |- _ => apply Z.ltb_lt in H
  | H : (_ <? _)%Z = false |- _ => apply Z.ltb_ge in H
  | H : (_ <=? _)%Z = true |- _ => apply Z.leb_le in H
  | H : (_ <=? _)%Z = false |- _ => apply Z.leb_gt in H
  | H : (_ =? _)%Z = true |- _ => apply Z.eqb_eq in H
  | H : (_ =? _)%Z = false |- _ => apply Z.eqb_neq in H
  | H : (_ =? _)%string = true |- _ => apply String.eqb_eq in H
  | H : (_ =? _)%string = false |- _ => apply String.eqb_neq in H
  | H : (_ =? _)%nat = true |- _ => apply Nat.eqb_eq in H
  | H : (_ =? _)%nat = false |- _ => apply Nat.eqb_neq in H
  | H : (_ <=? _)%nat = true |- _ => apply Nat.leb_le in H
  | H : (_ <=? _)%nat = false |- _ => apply Nat.leb_gt in H
  | H : (_ <? _)%nat = true |- _ => apply Nat.ltb_lt in H
  | H : (_ <? _)%nat = false |- _ => apply Nat.ltb_ge in H
  | H : bool_decide _ = true |- _ => apply bool_decide_eq_true in H
  | H : bool_decide _ = false |- _ => apply bool_decide_eq_false in H
  end.

(** ** Results of fallible Go functions: [(value, error)] with [error] nil or not *)

Inductive result (E A : Type) : Type :=
| Ok (a : A)
| Err (e : E).
Arguments Ok {E A} a.
Arguments Err {E A} e.

#[export] Instance result_ret E : MRet (result E) := fun A a => Ok a.
#[export] Instance result_bind E : MBind (result E) := fun A B f m =>
  match m with Ok a => f a | Err e => Err e end.
#[export] Instance result_fmap E : FMap (result E) := fun A B f m =>
  match m with Ok a => Ok (f a) | Err e => Err e end.

#[export] Instance result_eq_dec E A `{EqDecision E, EqDecision A} : EqDecision (result E A).
Proof. solve_decision. Defined.

Definition is_ok {E A} (r : result E A) : bool := match r with Ok _ => true | Err _ => false end.

Lemma result_bind_ok {E A B} (m : result E A) (f : A → result E B) b :
  (m ≫= f) = Ok b ↔ ∃ a, m = Ok a ∧ f a = Ok b.
Proof. destruct m; cbn; naive_solver. Qed.

Lemma result_bind_err {E A B} (m : result E A) (f : A → result E B) e :
  (m ≫= f) = Err e ↔ m = Err e ∨ ∃ a, m = Ok a ∧ f a = Err e.
Proof. destruct m; cbn; naive_solver. Qed.

(** A [for] loop over a slice whose body may return an error. *)
Fixpoint result_iter {E A} (f : A → result E unit) (xs : list A) : result E unit :=
  match xs with
  | [] => Ok tt
  | x :: xs => match f x with Ok _ => result_iter f xs | Err e => Err e end
  end.

Lemma result_iter_ok {E A} (f : A → result E unit) xs :
  result_iter f xs = Ok tt ↔ Forall (fun x => f x = Ok tt) xs.
Proof.
  induction xs as [|x xs IH]; cbn; [done|].
  rewrite Forall_cons, <- IH. destruct (f x) as [[]|]; naive_solver.
Qed.

Lemma result_iter_err {E A} (f : A → result E unit) xs e :
  result_iter f xs = Err e → ∃ x, x ∈ xs ∧ f x = Err e.
Proof.
  induction xs as [|x xs IH]; cbn; [done|].
  destruct (f x) eqn:Hf; intros H; [|simplify_eq; exists x; set_solver].
  destruct (IH H) as (y & ? & ?). exists y. set_solver.
Qed.

(** ** Go integers: [int64] arithmetic wraps, [time.Time.Sub] saturates *)

Definition int64_min : Z := (-(2 ^ 63))%Z.
Definition int64_max : Z := (2 ^ 63 - 1)%Z.

Definition wrap64 (z : Z) : Z := ((z + 2 ^ 63) mod 2 ^ 64 - 2 ^ 63)%Z.
Definition sat64 (z : Z) : Z := Z.max int64_min (Z.min int64_max z).

Lemma wrap64_small z : (int64_min <= z <= int64_max)%Z → wrap64 z = z.
Proof. unfold wrap64, int64_min, int64_max. intros. rewrite Z.mod_small; lia. Qed.
Lemma wrap64_add_l a b : wrap64 (wrap64 a + b) = wrap64 (a + b).
Proof.
  unfold wrap64. f_equal. replace ((a + 2 ^ 63) mod 2 ^ 64 - 2 ^ 63 + b + 2 ^ 63)%Z with ((a + 2 ^ 63) mod 2 ^ 64 + b)%Z by lia.
  rewrite Zplus_mod_idemp_l. f_equal. lia.
Qed.
Lemma wrap64_add_r a b : wrap64 (a + wrap64 b) = wrap64 (a + b).
Proof. by rewrite Z.add_comm, wrap64_add_l, Z.add_comm. Qed.

Lemma sat64_small z : (int64_min <= z <= int64_max)%Z → sat64 z = z.
Proof. unfold sat64, int64_min, int64_max. lia. Qed.

Lemma sat64_range z : (int64_min <= sat64 z <= int64_max)%Z.
Proof. unfold sat64, int64_min, int64_max. lia. Qed.

(** ** Time: instants are nanoseconds since the Unix epoch, UTC; [zero_time] is
    Go's zero [time.Time] (1 January of year 1). *)

Abbreviation time := Z (only parsing).
Abbreviation duration := Z (only parsing).
Definition nanosecond : duration := 1%Z.
Definition millisecond : duration := 1000000%Z.
Definition second : duration := 1000000000%Z.
Definition minute : duration := (60 * second)%Z.
Definition hour : duration := (60 * minute)%Z.

Definition zero_time : time := (-62135596800 * second)%Z.
Definition time_is_zero (t : time) : bool := (t =? zero_time)%Z.
Definition time_sub (a b : time) : duration := sat64 (a - b).
Definition time_before (a b : time) : bool := (a <? b)%Z.
Definition time_after (a b : time) : bool := (b <? a)%Z.

(** ** Strings *)

(** [strconv.Itoa]. *)
Definition itoa (z : Z) : string := pretty z.

Fixpoint str_take (n : nat) (s : string) : string :=
  match n, s with
  | S n, String c s => String c (str_take n s)
  | _, _ => EmptyString
  end.

Fixpoint str_drop (n : nat) (s : string) : string :=
  match n, s with
  | S n, String _ s => str_drop n s
  | _, _ => s
  end.

(** [strings.Join]. *)
Fixpoint str_join (sep : string) (xs : list string) : string :=
  match xs with
  | [] => ""
  | [x] => x
  | x :: xs => x +:+ sep +:+ str_join sep xs
  end.

Definition str_is_empty (s : string) : bool := match s with EmptyString => true | _ => false end.

Lemma str_app_cons c s t : String c s +:+ t = String c (s +:+ t).
Proof. done. Qed.

Lemma str_app_nil s : "" +:+ s = s.
Proof. done. Qed.

Lemma str_drop_app n a b : str_drop n (a +:+ b) = str_drop n a +:+ str_drop (n - String.length a) b.
Proof. revert n. induction a as [|c a IH]; intros [|n]; cbn [str_drop String.length]; rewrite ?str_app_nil, ?str_app_cons; cbn [str_drop]; done || apply IH. Qed.
Lemma str_drop_all n s : String.length s <= n → str_drop n s = "".
Proof. revert n. induction s as [|c s IH]; intros [|n]; cbn; try done; [lia|]. intros. apply IH. lia. Qed.
Lemma str_take_drop n s : str_take n s +:+ str_drop n s = s.
Proof. revert s. induction n as [|n IH]; intros [|c s]; cbn; [done..|].
  by rewrite str_app_cons, IH.
Qed.

Lemma str_length_app s1 s2 : String.length (s1 +:+ s2) = String.length s1 + String.length s2.
Proof. induction s1 as [|c s1 IH]; [done|]. rewrite str_app_cons. cbn. by rewrite IH. Qed.

Lemma str_length_take n s : String.length (str_take n s) = min n (String.length s).
Proof. revert s. induction n as [|n IH]; intros [|c s]; cbn; [done..|]. f_equal. apply IH. Qed.

Lemma str_length_drop n s : String.length (str_drop n s) = String.length s - n.
Proof. revert s. induction n as [|n IH]; intros [|c s]; cbn; [done..|]. apply IH. Qed.

Lemma str_app_assoc (a b c : string) : (a +:+ b) +:+ c = a +:+ (b +:+ c).
Proof. induction a as [|x a IH]; [done|]. by rewrite ?str_app_cons, IH. Qed.

Lemma str_app_nil_r (a : string) : a +:+ "" = a.
Proof. induction a as [|x a IH]; [done|]. by rewrite ?str_app_cons, IH. Qed.

(** ** Sorting strings ([slices.Sort]): insertion into the byte order *)

Fixpoint str_insert (x : string) (xs : list string) : list string :=
  match xs with
  | [] => [x]
  | y :: ys => if String.ltb x y then x :: xs else y :: str_insert x ys
  end.
Definition str_sort (xs : list string) : list string := foldr str_insert [] xs.

Lemma str_insert_perm x xs : str_insert x xs ≡ₚ x :: xs.
Proof.
  induction xs as [|y ys IH]; cbn; [done|]. destruct (String.ltb x y); [done|]. rewrite IH. constructor.
Qed.

Lemma str_sort_perm xs : str_sort xs ≡ₚ xs.
Proof. induction xs as [|x xs IH]; cbn; [done|]. by rewrite str_insert_perm, IH. Qed.

(** [slices.Sorted(maps.Keys(m))] *)
Definition sorted_keys {A} (m : gmap string A) : list string := str_sort (fst <$> map_to_list m).

Lemma sorted_keys_elem {A} (m : gmap string A) k : k ∈ sorted_keys m ↔ is_Some (m !! k).
Proof.
  unfold sorted_keys. rewrite str_sort_perm, list_elem_of_fmap. split.
  - intros ([k' v] & -> & H). apply elem_of_map_to_list in H. by eexists.
  - intros [v H]. exists (k, v). split; [done|]. by apply elem_of_map_to_list.
Qed.

Lemma sorted_keys_NoDup {A} (m : gmap string A) : NoDup (sorted_keys m).
Proof. unfold sorted_keys. rewrite str_sort_perm. apply NoDup_fst_map_to_list. Qed.

(** ** Lists *)

(** The first element satisfying a boolean test, as the [for ... return] loops do. *)
Definition find_first {A} (f : A → bool) (xs : list A) : option A := List.find f xs.

Lemma find_first_Some {A} (f : A → bool) xs x :
  find_first f xs = Some x → x ∈ xs ∧ f x = true.
Proof. intros H. apply List.find_some in H as [??]. by rewrite list_elem_of_In. Qed.

Lemma find_first_None {A} (f : A → bool) xs :
  find_first f xs = None ↔ Forall (fun x => f x = false) xs.
Proof.
  unfold find_first. induction xs as [|x xs IH]; cbn; [done|].
  rewrite Forall_cons, <- IH. destruct (f x); naive_solver.
Qed.

(** Enumerate a slice with its indices: [for i, x := range xs]. *)
Definition enumerate {A} (xs : list A) : list (nat * A) := imap pair xs.

Lemma lookup_enumerate {A} (xs : list A) i : enumerate xs !! i = pair i <$> xs !! i.
Proof. unfold enumerate. by rewrite list_lookup_imap. Qed.

Definition countb {A} (f : A → bool) (xs : list A) : nat := length (List.filter f xs).

Lemma countb_cons {A} (f : A → bool) x xs : countb f (x :: xs) = (if f x then 1 else 0) + countb f xs.
Proof. unfold countb. cbn. by destruct (f x). Qed.
Lemma countb_ext {A} (f g : A → bool) xs : (∀ x, f x = g x) → countb f xs = countb g xs.
Proof. intros Hfg. unfold countb. f_equal. by apply filter_ext. Qed.
Lemma countb_perm {A} (f : A → bool) xs ys : xs ≡ₚ ys → countb f xs = countb f ys.
Proof. induction 1; rewrite ?countb_cons; lia. Qed.
Lemma countb_enumerate {A} (f : A → bool) xs : countb (fun p => f p.2) (enumerate xs) = countb f xs.
Proof.
  unfold enumerate. change (imap pair xs) with (imap (fun i => pair (0 + i)) xs). generalize 0 as k. induction xs as [|x xs IH]; intros k; [done|].
  cbn [imap]. rewrite !countb_cons. cbn [snd]. f_equal. rewrite <- (IH (S k)). f_equal. apply imap_ext. intros i y _. cbn. f_equal. lia.
Qed.
Lemma countb_app {A} (f : A → bool) xs ys : countb f (xs ++ ys) = countb f xs + countb f ys.
Proof. unfold countb. by rewrite List.filter_app, length_app. Qed.

Lemma countb_zero {A} (f : A → bool) xs : countb f xs = 0 ↔ Forall (fun x => f x = false) xs.
Proof.
  unfold countb. induction xs as [|x xs IH]; cbn; [done|].
  rewrite Forall_cons, <- IH. destruct (f x); cbn; naive_solver lia.
Qed.

Lemma existsb_elem {A} (f : A → bool) xs : existsb f xs = true ↔ ∃ x, x ∈ xs ∧ f x = true.
Proof. rewrite existsb_exists. setoid_rewrite list_elem_of_In. done. Qed.

Lemma existsb_Forall {A} (f : A → bool) xs : existsb f xs = false ↔ Forall (fun x => f x = false) xs.
Proof.
  induction xs as [|x xs IH]; cbn; [done|].
  rewrite Forall_cons, <- IH, orb_false_iff. done.
Qed.

Create HintDb kt discriminated.
#[export] Hint Resolve sat64_range : kt.
#[export] Hint Rewrite str_length_app str_length_take str_length_drop : kt_str.
#[export] Hint Rewrite @lookup_enumerate @countb_app : kt_list.
