(* ===== verification/Sorting.v ===== *)
(** * Sorted listings and keyset pages

    [slices.SortStableFunc] and SQL's ORDER BY as a stable insertion sort, and what
    walking a listing page by page, from the key of the last entry seen, shows of a
    table that changes between the pages. *)
From stdpp Require Import sorting.
From S2P Require Import Prelude.

#[export] Instance filter_perm {A} (f : A → bool) : Proper ((≡ₚ) ==> (≡ₚ)) (List.filter f).
Proof.
  intros xs ys. induction 1 as [|x xs ys _ IH|x y xs|xs ys zs _ IH1 _ IH2]; cbn; [done| | |by etrans].
  - destruct (f x); by rewrite ?IH.
  - destruct (f x), (f y); [apply perm_swap|done..].
Qed.

(** ** Sorting by a comparison *)

Section SortBy.
Context {A : Type} (lt : A → A → bool).

(** An equal element stays after those that came before it. *)
Fixpoint insert_by (x : A) (xs : list A) : list A :=
  match xs with
  | [] => [x]
  | y :: ys => if lt y x then y :: insert_by x ys else x :: xs
  end.
Definition sort_by (xs : list A) : list A := foldr insert_by [] xs.

Lemma insert_by_perm x xs : insert_by x xs ≡ₚ x :: xs.
Proof. induction xs as [|y ys IH]; cbn; [done|]. destruct (lt y x); [|done]. rewrite IH. constructor. Qed.

Lemma sort_by_perm xs : sort_by xs ≡ₚ xs.
Proof. induction xs as [|x xs IH]; cbn; [done|]. by rewrite insert_by_perm, IH. Qed.

Lemma sort_by_elem xs x : x ∈ sort_by xs ↔ x ∈ xs.
Proof. by rewrite sort_by_perm. Qed.

Lemma length_sort_by xs : length (sort_by xs) = length xs.
Proof. apply Permutation_length, sort_by_perm. Qed.

(** The comparison of a listing: a strict weak order. *)
Class WeakOrder : Prop := {
  lt_asym : ∀ x y, lt x y = true → lt y x = false;
  le_trans : ∀ x y z, lt y x = false → lt z y = false → lt z x = false }.

Definition in_order : list A → Prop := StronglySorted (fun x y => lt y x = false).

Lemma sort_by_sorted xs : WeakOrder → in_order (sort_by xs).
Proof.
  intros Hw. induction xs as [|x xs IH]; [constructor|]. change (in_order (insert_by x (sort_by xs))). revert IH. generalize (sort_by xs) as ys. clear xs.
  induction ys as [|y ys IH]; intros Hs; cbn; [repeat constructor|]. apply StronglySorted_inv in Hs as [Hs Hy].
  destruct (lt y x) eqn:E.
  - constructor; [by apply IH|]. rewrite insert_by_perm. constructor; [by apply lt_asym|done].
  - constructor; [by constructor|]. constructor; [done|]. eapply Forall_impl; [exact Hy|]. intros z Hz. by eapply le_trans.
Qed.

Lemma in_order_app xs ys x y : in_order (xs ++ ys) → x ∈ xs → y ∈ ys → lt y x = false.
Proof. apply (StronglySorted_app_1_elem_of (fun a b => lt b a = false)). Qed.
End SortBy.

Lemma insert_by_fmap {A B} (lt : A → A → bool) (lt' : B → B → bool) (f : A → B) x xs :
  (∀ y, y ∈ xs → lt y x = lt' (f y) (f x)) → f <$> insert_by lt x xs = insert_by lt' (f x) (f <$> xs).
Proof.
  induction xs as [|y ys IH]; intros Hf; cbn; [done|]. rewrite <- (Hf y) by apply list_elem_of_here.
  destruct (lt y x); cbn; [|done]. f_equal. apply IH. intros z Hz. by apply Hf, list_elem_of_further.
Qed.
Lemma sort_by_fmap {A B} (lt : A → A → bool) (lt' : B → B → bool) (f : A → B) xs :
  (∀ x y, x ∈ xs → y ∈ xs → lt x y = lt' (f x) (f y)) → f <$> sort_by lt xs = sort_by lt' (f <$> xs).
Proof.
  induction xs as [|x xs IH]; intros Hf; [done|]. change (f <$> insert_by lt x (sort_by lt xs) = insert_by lt' (f x) (sort_by lt' (f <$> xs))).
  rewrite (insert_by_fmap lt lt' f), IH; [done| |].
  - intros a b Ha Hb. apply Hf; by apply list_elem_of_further.
  - intros y Hy. rewrite sort_by_elem in Hy. apply Hf; [by apply list_elem_of_further|apply list_elem_of_here].
Qed.

(** ** Pages *)

(** A strict total order on keys. *)
Class KeyOrder (K : Type) := {
  key_lt : K → K → bool;
  key_lt_irrefl : ∀ k, key_lt k k = false;
  key_lt_trans : ∀ a b c, key_lt a b = true → key_lt b c = true → key_lt a c = true;
  key_lt_total : ∀ a b, key_lt a b = false → key_lt b a = false → a = b }.

Lemma str_ltb_le a b : String.ltb a b = true ↔ String.le a b ∧ a ≠ b.
Proof.
  unfold String.le, String.ltb, String.leb. rewrite Is_true_true.
  destruct (String.compare a b) eqn:E; split; intros H; try done.
  - apply String.compare_eq_iff in E. naive_solver.
  - split; [done|]. intros ->. assert (String.compare b b = Eq) as E'; [|congruence].
    pose proof (String.compare_antisym b b) as Ha. destruct (String.compare b b); done.
  - naive_solver.
Qed.

(** Sorted strings: a sorting does not depend on the order it starts from. *)
Lemma str_sort_sorted xs : StronglySorted String.le (str_sort xs).
Proof.
  induction xs as [|x xs IH]; [constructor|]. change (StronglySorted String.le (str_insert x (str_sort xs))). revert IH. generalize (str_sort xs) as ys. clear xs.
  induction ys as [|y ys IH]; intros Hs; cbn [str_insert]; [repeat constructor|]. apply StronglySorted_inv in Hs as [Hs Hy]. destruct (String.ltb x y) eqn:E.
  - apply str_ltb_le in E as [Hle _]. constructor; [by constructor|]. constructor; [done|]. eapply Forall_impl; [exact Hy|]. intros z Hz. by etrans.
  - constructor; [by apply IH|]. rewrite str_insert_perm. constructor; [|done]. apply not_true_iff_false in E. rewrite str_ltb_le in E.
    destruct (total String.le x y) as [Hxy|Hyx]; [|done]. destruct (decide (x = y)) as [->|Hne]; [done|]. by destruct E.
Qed.
Lemma str_sort_unique xs ys : xs ≡ₚ ys → str_sort xs = str_sort ys.
Proof. intros Hp. apply (StronglySorted_unique String.le); [apply str_sort_sorted..|]. by rewrite !str_sort_perm. Qed.

#[export] Program Instance string_key_order : KeyOrder string := {| key_lt := String.ltb |}.
Next Obligation. intros k. apply not_true_iff_false. rewrite str_ltb_le. naive_solver. Qed.
Next Obligation.
  intros a b c. rewrite !str_ltb_le. intros [Hab Hne] [Hbc Hne']. split; [by etrans|]. intros ->. apply Hne. by apply (anti_symm String.le).
Qed.
Next Obligation.
  intros a b Hab Hba. destruct (decide (a = b)); [done|]. apply not_true_iff_false in Hab, Hba. rewrite str_ltb_le in Hab, Hba.
  destruct (total String.le a b); naive_solver.
Qed.

(** Newest first, then by descending name: the order of a listing of finished runs. *)
Definition newest (a b : time * string) : bool := (b.1 <? a.1)%Z || ((a.1 =? b.1)%Z && String.ltb b.2 a.2).
#[export] Program Instance newest_order : KeyOrder (time * string) := {| key_lt := newest |}.
Next Obligation. intros [t s]. unfold newest. cbn. pose proof (key_lt_irrefl s) as Hs. cbn in Hs. rewrite Z.ltb_irrefl, Z.eqb_refl, Hs. done. Qed.
Next Obligation.
  intros [t1 s1] [t2 s2] [t3 s3]. unfold newest. cbn. rewrite !orb_true_iff, !andb_true_iff, !Z.ltb_lt, !Z.eqb_eq. intros [|[-> H1]] [|[-> H2]]; [left; lia..|].
  right. split; [done|]. exact (@key_lt_trans string _ s3 s2 s1 H2 H1).
Qed.
Next Obligation.
  intros [t1 s1] [t2 s2]. unfold newest. cbn. rewrite !orb_false_iff, !Z.ltb_ge. intros [Hl1 H1] [Hl2 H2]. assert (t1 = t2) as <- by lia.
  rewrite Z.eqb_refl in *. cbn in *. f_equal. exact (@key_lt_total string _ s1 s2 H2 H1).
Qed.

Section Pages.
Context {A K : Type} `{KeyOrder K} (key : A → K).

Definition by_key (x y : A) : bool := key_lt (key x) (key y).

#[export] Instance by_key_order : WeakOrder by_key.
Proof.
  split; unfold by_key.
  - intros x y Hxy. destruct (key_lt (key y) (key x)) eqn:E; [|done]. pose proof (key_lt_trans _ _ _ Hxy E) as Hi. by rewrite key_lt_irrefl in Hi.
  - intros x y z Hyx Hzy. destruct (key_lt (key z) (key x)) eqn:E; [|done].
    destruct (key_lt (key x) (key y)) eqn:E'.
    + pose proof (key_lt_trans _ _ _ E E'). congruence.
    + pose proof (key_lt_total _ _ Hyx E') as He. rewrite He in Hzy. congruence.
Qed.

(** What comes after a cursor. *)
Definition after (c : option K) (x : A) : bool := match c with Some k => key_lt k (key x) | None => true end.

Definition page (limit : nat) (c : option K) (table : list A) : list A := take limit (sort_by by_key (List.filter (after c) table)).

Definition next_cursor (c : option K) (p : list A) : option K := match last p with Some x => Some (key x) | None => c end.

(** Page by page, the table being what it is at each page; a page that is not full is
    the last one. *)
Fixpoint walk (limit : nat) (c : option K) (tables : list (list A)) : list (list A) :=
  match tables with
  | [] => []
  | t :: ts => let p := page limit c t in p :: if (length p <? limit)%nat then [] else walk limit (next_cursor c p) ts
  end.

Lemma page_elem limit c t x : x ∈ page limit c t → x ∈ t ∧ after c x = true.
Proof.
  unfold page. intros Hx. apply elem_of_take in Hx as (i & Hi & _). apply list_elem_of_lookup_2 in Hi.
  rewrite sort_by_elem, list_elem_of_In, List.filter_In, <- list_elem_of_In in Hi. done.
Qed.

Lemma page_after limit c t : Forall (fun y => after c y = true) (page limit c t).
Proof. apply Forall_forall. intros y Hy. by apply page_elem in Hy as [_ ?]. Qed.

Lemma page_order limit c t : in_order by_key (page limit c t).
Proof.
  unfold page. pose proof (sort_by_sorted by_key (List.filter (after c) t) _) as Hs. revert Hs.
  generalize (sort_by by_key (List.filter (after c) t)) as xs. induction limit as [|n IH]; intros [|x xs] Hs; cbn; try constructor.
  - apply StronglySorted_inv in Hs as [Hs _]. by apply IH.
  - apply StronglySorted_inv in Hs as [_ Hx]. by apply Forall_take.
Qed.

Lemma last_is_greatest xs x z : in_order by_key xs → last xs = Some z → x ∈ xs → by_key z x = false.
Proof.
  intros Hs Hl Hx. apply last_Some in Hl as [xs' ->]. apply elem_of_app in Hx as [Hx|Hx%list_elem_of_singleton].
  - eapply in_order_app; [exact Hs|done|set_solver].
  - subst. apply key_lt_irrefl.
Qed.

(** An entry the page leaves out comes after its last one. *)
Lemma on_page_or_after limit c t x :
  NoDup (key <$> t) → x ∈ t → after c x = true → 0 < limit →
  x ∈ page limit c t ∨ length (page limit c t) = limit ∧ after (next_cursor c (page limit c t)) x = true.
Proof.
  intros Hnd Hx Ha Hlim. unfold page in *. set (xs := sort_by by_key (List.filter (after c) t)) in *.
  assert (Hin : x ∈ xs). { unfold xs. rewrite sort_by_elem, list_elem_of_In, List.filter_In, <- list_elem_of_In. done. }
  rewrite <- (take_drop limit xs), elem_of_app in Hin. destruct Hin as [Hin|Hin]; [by left|right].
  assert (Hlen : length (take limit xs) = limit).
  { rewrite length_take. apply Nat.min_l. destruct (decide (limit <= length xs)); [done|]. rewrite drop_ge in Hin by lia. set_solver. }
  split; [done|]. unfold next_cursor. destruct (last (take limit xs)) as [z|] eqn:El.
  2: { apply last_None in El. rewrite El in Hlen. cbn in Hlen. lia. }
  cbn [after]. assert (Hz : z ∈ take limit xs) by (apply last_Some in El as [? ->]; set_solver).
  pose proof (sort_by_sorted by_key (List.filter (after c) t) _) as Hs. fold xs in Hs. rewrite <- (take_drop limit xs) in Hs.
  pose proof (in_order_app _ _ _ _ _ Hs Hz Hin) as Hlt. unfold by_key in Hlt. destruct (key_lt (key z) (key x)) eqn:E; [done|].
  pose proof (key_lt_total _ _ Hlt E) as He.
  assert (Hperm : NoDup (key <$> xs)).
  { unfold xs. rewrite sort_by_perm. clear -Hnd. induction t as [|y t IH]; cbn; [constructor|]. apply NoDup_cons in Hnd as [Hy Hnd].
    destruct (after c y); [|by apply IH]. cbn. constructor; [|by apply IH]. intros (y' & Hk & Hy')%list_elem_of_fmap. apply Hy. rewrite Hk.
    apply list_elem_of_fmap. exists y'. split; [done|]. rewrite list_elem_of_In, List.filter_In, <- list_elem_of_In in Hy'. by destruct Hy'. }
  rewrite <- (take_drop limit xs), fmap_app, NoDup_app in Hperm. destruct Hperm as (_ & Hdis & _). exfalso.
  apply (Hdis (key z)); apply list_elem_of_fmap; [by exists z|]. exists x. done.
Qed.

Lemma next_cursor_after c p x : after (next_cursor c p) x = true → in_order by_key p → Forall (fun y => after c y = true) p →
  after c x = true ∧ Forall (fun y => key_lt (key y) (key x) = true) p.
Proof.
  intros Hx Hp Hc. unfold next_cursor in Hx. destruct (last p) as [z|] eqn:El.
  - cbn in Hx. assert (Hz : z ∈ p) by (apply last_Some in El as [? ->]; set_solver). split.
    + rewrite Forall_forall in Hc. specialize (Hc z Hz). destruct c as [k|]; [|done]. cbn in *. by eapply key_lt_trans.
    + apply Forall_forall. intros y Hy. pose proof (last_is_greatest _ _ _ Hp El Hy) as Hg. unfold by_key in Hg.
      destruct (key_lt (key y) (key z)) eqn:E; [by eapply key_lt_trans|]. pose proof (key_lt_total _ _ Hg E) as <-. done.
  - apply last_None in El as ->. split; [done|constructor].
Qed.

Lemma walk_after limit ts : ∀ c x, x ∈ concat (walk limit c ts) → after c x = true.
Proof.
  induction ts as [|t ts IH]; intros c x; cbn [walk concat]; [set_solver|]. rewrite elem_of_app. intros [Hx|Hx]; [by apply page_elem in Hx as [_ ?]|].
  destruct (_ <? _)%nat; [set_solver|]. apply IH in Hx. apply next_cursor_after in Hx as [Hx _]; [done|apply page_order|apply page_after].
Qed.

Lemma page_strict limit c t : NoDup (key <$> t) → StronglySorted (fun x y => key_lt (key x) (key y) = true) (page limit c t).
Proof.
  intros Hnd. pose proof (page_order limit c t) as Ho.
  assert (Hkeys : NoDup (key <$> page limit c t)).
  { unfold page. rewrite fmap_take. eapply sublist_NoDup; [|apply sublist_take]. rewrite sort_by_perm. clear -Hnd. induction t as [|y t IH]; cbn; [constructor|].
    apply NoDup_cons in Hnd as [Hy Hnd]. destruct (after c y); [|by apply IH]. cbn. constructor; [|by apply IH]. intros (y' & Hk & Hy')%list_elem_of_fmap.
    apply Hy. rewrite Hk. apply list_elem_of_fmap. exists y'. split; [done|]. rewrite list_elem_of_In, List.filter_In, <- list_elem_of_In in Hy'. by destruct Hy'. }
  revert Ho Hkeys. generalize (page limit c t) as p. induction p as [|x p IH]; intros Ho Hk; [constructor|].
  apply StronglySorted_inv in Ho as [Ho Hx]. apply NoDup_cons in Hk as [Hn Hk]. constructor; [by apply IH|].
  apply Forall_forall. intros y Hy. rewrite Forall_forall in Hx. specialize (Hx y Hy). unfold by_key in Hx.
  destruct (key_lt (key x) (key y)) eqn:E; [done|]. exfalso. apply Hn. rewrite (key_lt_total _ _ E Hx). by apply list_elem_of_fmap_2.
Qed.

(** Over all pages the entries come in strictly increasing order: none twice. *)
Lemma walk_strict limit ts : ∀ c, Forall (fun t => NoDup (key <$> t)) ts →
  StronglySorted (fun x y => key_lt (key x) (key y) = true) (concat (walk limit c ts)).
Proof.
  induction ts as [|t ts IH]; intros c Hnd; cbn [walk concat]; [constructor|]. apply Forall_cons in Hnd as [Ht Hts].
  pose proof (page_strict limit c t Ht) as Hp. destruct (_ <? _)%nat; [cbn; by rewrite app_nil_r|].
  apply StronglySorted_app_2; [|done|by apply IH]. intros x y Hx Hy%walk_after.
  apply next_cursor_after in Hy as [_ Hy]; [|apply page_order|apply page_after]. rewrite Forall_forall in Hy. by apply Hy.
Qed.

(** A key that is there at every page is on one of them, once the last page is not
    full. *)
Lemma walk_complete limit ts : ∀ c k, 0 < limit →
  Forall (fun t => NoDup (key <$> t) ∧ k ∈ key <$> t) ts → match c with Some k' => key_lt k' k = true | None => True end →
  (∃ p, last (walk limit c ts) = Some p ∧ length p < limit) →
  k ∈ key <$> concat (walk limit c ts).
Proof.
  induction ts as [|t ts IH]; intros c k Hlim Hts Ha (p & Hl & Hlen); cbn [walk concat] in *; [done|].
  apply Forall_cons in Hts as [[Hnd (x & -> & Hx)%list_elem_of_fmap] Hts].
  assert (Hax : after c x = true) by (destruct c; done). rewrite fmap_app, elem_of_app.
  destruct (on_page_or_after limit c t x Hnd Hx Hax Hlim) as [Hin|[Hfull Hafter]]; [left; by apply list_elem_of_fmap_2|right].
  rewrite Hfull in *. destruct (Nat.ltb_spec limit limit) as [Hlt|_]; [lia|]. apply IH; [done|done|by destruct (next_cursor _ _)|].
  destruct (walk limit (next_cursor c (page limit c t)) ts) as [|q qs]; [|by exists p]. cbn in Hl. injection Hl as <-. lia.
Qed.

(** In a table that does not change the walk ends, within one page more than it has
    entries. *)
Lemma walk_full limit ts : ∀ c, (∀ p, last (walk limit c ts) = Some p → limit <= length p) →
  length ts * limit <= length (concat (walk limit c ts)).
Proof.
  induction ts as [|t ts IH]; intros c Hl; cbn [walk concat length]; [lia|]. cbn [walk] in Hl. rewrite length_app.
  destruct (Nat.ltb_spec (length (page limit c t)) limit) as [Hs|Hs]; [specialize (Hl _ eq_refl); lia|].
  specialize (IH (next_cursor c (page limit c t))). destruct (walk limit (next_cursor c (page limit c t)) ts) as [|q qs] eqn:E.
  - destruct ts; cbn in *; [lia|discriminate].
  - assert (length ts * limit <= length (concat (q :: qs))) by (apply IH; intros p Hp; apply Hl; exact Hp). lia.
Qed.

Lemma walk_ends limit t c : 0 < limit → NoDup (key <$> t) →
  ∃ p, last (walk limit c (replicate (S (length t)) t)) = Some p ∧ length p < limit.
Proof.
  intros Hlim Hnd. destruct (last (walk limit c (replicate (S (length t)) t))) as [p|] eqn:El.
  2: { apply last_None in El. discriminate. }
  exists p. split; [done|]. destruct (decide (length p < limit)) as [|Hge]; [done|exfalso].
  assert (Hfull : length (replicate (S (length t)) t) * limit <= length (concat (walk limit c (replicate (S (length t)) t)))).
  { apply walk_full. intros p' Hp'. rewrite El in Hp'. injection Hp' as <-. lia. }
  rewrite length_replicate in Hfull. set (xs := concat _) in Hfull.
  assert (Hx : NoDup (key <$> xs)).
  { assert (Hs : StronglySorted (fun x y => key_lt (key x) (key y) = true) xs).
    { apply walk_strict. apply Forall_replicate, Hnd. }
    clearbody xs. clear -Hs. induction Hs as [|x xs Hs IH Hx]; cbn; constructor; [|done]. intros (y & Hk & Hy)%list_elem_of_fmap.
    rewrite Forall_forall in Hx. specialize (Hx y Hy). by rewrite Hk, key_lt_irrefl in Hx. }
  assert (Hsub : key <$> xs ⊆ key <$> t).
  { assert (Hin : ∀ ts c', Forall (fun u => u = t) ts → ∀ x, x ∈ concat (walk limit c' ts) → x ∈ t).
    { clear. induction ts as [|u ts IH]; intros c' Hts x; cbn [walk concat]; [set_solver|]. apply Forall_cons in Hts as [-> Hts].
      rewrite elem_of_app. intros [Hx|Hx]; [by apply page_elem in Hx as [? _]|]. destruct (_ <? _)%nat; [set_solver|by eapply IH]. }
    intros k (x & -> & Hxx)%list_elem_of_fmap. apply list_elem_of_fmap_2. eapply Hin; [|exact Hxx]. by apply Forall_replicate. }
  apply NoDup_submseteq in Hsub; [|done]. apply submseteq_length in Hsub. rewrite !length_fmap in Hsub. nia.
Qed.

(** ** A listing that says itself whether there is more

    [T]: what a page is computed from, with the table it is a page of; [more]: the
    listing's claim, which may say yes when nothing is left but not no when something
    is, and yes only with a full page. *)
Section Claimed.
Context {T : Type} (table : T → list A) (limit : nat) (more : option K → T → bool) (good : T → Prop).

(** The pages, and whether the last of them says there is no more. *)
Fixpoint walk_while (c : option K) (ts : list T) : list (list A) * bool :=
  match ts with
  | [] => ([], false)
  | t :: ts =>
      let p := page limit c (table t) in
      if more c t then let '(ps, ended) := walk_while (next_cursor c p) ts in (p :: ps, ended) else ([p], true)
  end.

Class Claims : Prop := {
  claims_keys : ∀ t, good t → NoDup (key <$> table t);
  claims_rest : ∀ c t x, good t → more c t = false → x ∈ table t → after c x = true → x ∈ page limit c (table t);
  claims_full : ∀ c t, good t → more c t = true → length (page limit c (table t)) = limit }.
Context `{Claims}.

Lemma walk_while_after ts : ∀ c x, x ∈ concat (walk_while c ts).1 → after c x = true.
Proof.
  induction ts as [|t ts IH]; intros c x; cbn [walk_while]; [by intros ?%elem_of_nil|].
  destruct (more c t); cbn [concat fst].
  - destruct (walk_while (next_cursor c (page limit c (table t))) ts) as [ps e] eqn:E. cbn [concat fst]. rewrite elem_of_app. intros [Hx|Hx]; [by apply page_elem in Hx as [_ ?]|].
    assert (Hx' : x ∈ concat (walk_while (next_cursor c (page limit c (table t))) ts).1) by (by rewrite E).
    apply IH in Hx'. apply next_cursor_after in Hx' as [? _]; [done|apply page_order|apply page_after].
  - rewrite app_nil_r. by intros [_ ?]%page_elem.
Qed.

Lemma walk_while_strict ts : ∀ c, Forall good ts → StronglySorted (fun x y => key_lt (key x) (key y) = true) (concat (walk_while c ts).1).
Proof.
  induction ts as [|t ts IH]; intros c Hg; cbn [walk_while]; [constructor|]. apply Forall_cons in Hg as [Ht Hts].
  pose proof (page_strict limit c (table t) (claims_keys t Ht)) as Hp. destruct (more c t); [|cbn; by rewrite app_nil_r].
  pose proof (walk_while_after ts (next_cursor c (page limit c (table t)))) as Ha. specialize (IH (next_cursor c (page limit c (table t))) Hts).
  destruct (walk_while _ ts) as [ps e]. cbn [concat fst] in *. apply StronglySorted_app_2; [|done|done].
  intros x y Hx Hy%Ha. apply next_cursor_after in Hy as [_ Hy]; [|apply page_order|apply page_after]. rewrite Forall_forall in Hy. by apply Hy.
Qed.

Lemma walk_while_complete ts : ∀ c k, 0 < limit → Forall (fun t => good t ∧ k ∈ key <$> table t) ts →
  match c with Some k' => key_lt k' k = true | None => True end → (walk_while c ts).2 = true → k ∈ key <$> concat (walk_while c ts).1.
Proof.
  induction ts as [|t ts IH]; intros c k Hlim Hts Ha Hend; cbn [walk_while] in *; [done|].
  apply Forall_cons in Hts as [[Ht (x & -> & Hx)%list_elem_of_fmap] Hts].
  assert (Hax : after c x = true) by (destruct c; done). destruct (more c t) eqn:Em.
  - specialize (IH (next_cursor c (page limit c (table t))) (key x) Hlim Hts). destruct (walk_while _ ts) as [ps e]. cbn [concat fst snd] in *.
    rewrite fmap_app, elem_of_app. destruct (on_page_or_after limit c (table t) x (claims_keys t Ht) Hx Hax Hlim) as [Hin|[_ Hafter]]; [left; by apply list_elem_of_fmap_2|right].
    apply IH; [|done]. by destruct (next_cursor _ _).
  - cbn [concat fst]. rewrite app_nil_r. by apply list_elem_of_fmap_2, claims_rest.
Qed.

Lemma walk_while_length ts : ∀ c, Forall good ts → (walk_while c ts).2 = false → length (concat (walk_while c ts).1) = length ts * limit.
Proof.
  induction ts as [|t ts IH]; intros c Hg; cbn [walk_while]; [done|]. apply Forall_cons in Hg as [Ht Hts]. destruct (more c t) eqn:Em; [|done].
  specialize (IH (next_cursor c (page limit c (table t))) Hts). destruct (walk_while _ ts) as [ps e]. cbn [concat fst snd length] in *. intros He.
  rewrite length_app, IH, claims_full by done. lia.
Qed.

Lemma walk_while_elem ts : ∀ c x, x ∈ concat (walk_while c ts).1 → ∃ t, t ∈ ts ∧ x ∈ table t.
Proof.
  induction ts as [|t ts IH]; intros c x; cbn [walk_while]; [by intros ?%elem_of_nil|]. destruct (more c t).
  - specialize (IH (next_cursor c (page limit c (table t))) x). destruct (walk_while _ ts) as [ps e]. cbn [concat fst] in *.
    rewrite elem_of_app. intros [Hx|Hx]; [apply page_elem in Hx as [? _]; exists t; split; [apply list_elem_of_here|done]|].
    destruct (IH Hx) as (t' & Ht & Hin). exists t'. split; [by apply list_elem_of_further|done].
  - cbn. rewrite app_nil_r. intros [? _]%page_elem. exists t. split; [apply list_elem_of_here|done].
Qed.

(** Over a table that does not change the claim comes, within one page more than the
    table has entries. *)
Lemma walk_while_ends t c : 0 < limit → good t → (walk_while c (replicate (S (length (table t))) t)).2 = true.
Proof.
  intros Hlim Ht. apply not_false_iff_true. intros He. assert (Hg : Forall good (replicate (S (length (table t))) t)) by (by apply Forall_replicate).
  pose proof (walk_while_length _ c Hg He) as Hlen. rewrite length_replicate in Hlen. pose proof (walk_while_strict _ c Hg) as Hs.
  pose proof (walk_while_elem (replicate (S (length (table t))) t) c) as Hin. revert Hlen Hs Hin. generalize (concat (walk_while c (replicate (S (length (table t))) t)).1) as xs.
  intros xs Hlen Hs Hin.
  assert (Hx : NoDup (key <$> xs)).
  { clear -Hs H. induction Hs as [|x xs Hs IH Hx]; cbn; constructor; [|done]. intros (y & Hk & Hy)%list_elem_of_fmap.
    rewrite Forall_forall in Hx. specialize (Hx y Hy). by rewrite Hk, key_lt_irrefl in Hx. }
  assert (Hsub : key <$> xs ⊆ key <$> table t).
  { intros k (x & -> & Hxx)%list_elem_of_fmap. apply list_elem_of_fmap_2. destruct (Hin x Hxx) as (t' & Ht' & Hx'). apply elem_of_replicate in Ht' as [-> _]. done. }
  apply NoDup_submseteq in Hsub; [|done]. apply submseteq_length in Hsub. rewrite !length_fmap in Hsub. nia.
Qed.
End Claimed.

(** Tables with the same entries are listed alike. *)
Lemma sort_by_perm_eq xs ys : NoDup (key <$> xs) → xs ≡ₚ ys → sort_by by_key xs = sort_by by_key ys.
Proof.
  intros Hnd Hp. apply (StronglySorted_unique_strong (fun x y => by_key y x = false)).
  - intros x y Hx Hy Hxy Hyx. rewrite sort_by_elem in Hx, Hy. rewrite <- Hp in Hy. pose proof (key_lt_total _ _ Hyx Hxy) as Hk.
    apply list_elem_of_lookup in Hx as [i Hx], Hy as [j Hy].
    assert (i = j) as ->; [|congruence]. eapply NoDup_lookup; [exact Hnd| |]; rewrite list_lookup_fmap, ?Hx, ?Hy; cbn; by rewrite ?Hk.
  - apply sort_by_sorted, _.
  - apply sort_by_sorted, _.
  - by rewrite !sort_by_perm.
Qed.

(** The first entries of a table are those of a part of it, when each entry left out
    has [limit] entries of the part before it. *)
Lemma take_of_part limit xs rest :
  NoDup (key <$> (xs ++ rest)) →
  (∀ r, r ∈ rest → limit <= length (List.filter (fun x => key_lt (key x) (key r)) xs)) →
  take limit (sort_by by_key (xs ++ rest)) = take limit (sort_by by_key xs).
Proof.
  intros Hnd Hr. set (front := take limit (sort_by by_key xs)). set (back := drop limit (sort_by by_key xs)).
  assert (Hsplit : sort_by by_key xs = front ++ back) by (symmetry; apply take_drop).
  pose proof (sort_by_sorted by_key xs _) as Hxs. rewrite Hsplit in Hxs.
  assert (Hbelow : ∀ a r, a ∈ front → r ∈ rest → by_key r a = false).
  { intros a r Ha Hin. specialize (Hr r Hin). destruct (by_key r a) eqn:E; [|done]. exfalso.
    assert (Hle : length (List.filter (fun x => key_lt (key x) (key r)) xs) < length front).
    { rewrite <- (sort_by_perm by_key xs), Hsplit, List.filter_app, length_app.
      assert (HB : List.filter (fun x => key_lt (key x) (key r)) back = []).
      { apply elem_of_nil_inv. intros b. rewrite list_elem_of_In, List.filter_In, <- list_elem_of_In. intros [Hb Hlt].
        pose proof (in_order_app _ _ _ _ _ Hxs Ha Hb) as Hba. unfold by_key in *. pose proof (key_lt_trans _ _ _ Hlt E). congruence. }
      rewrite HB. cbn. rewrite Nat.add_0_r. apply list_elem_of_split in Ha as (l1 & l2 & Heq). rewrite Heq, List.filter_app, !length_app. cbn [List.filter].
      assert (Hn : key_lt (key a) (key r) = false).
      { destruct (key_lt (key a) (key r)) eqn:E'; [|done]. unfold by_key in E. pose proof (key_lt_trans _ _ _ E E') as Hi. by rewrite key_lt_irrefl in Hi. }
      rewrite Hn. cbn [length]. pose proof (List.filter_length_le (fun x => key_lt (key x) (key r)) l1). pose proof (List.filter_length_le (fun x => key_lt (key x) (key r)) l2). lia. }
    unfold front in Hle. rewrite length_take in Hle. lia. }
  assert (Hall : sort_by by_key (xs ++ rest) = front ++ sort_by by_key (back ++ rest)).
  { apply (StronglySorted_unique_strong (fun x y => by_key y x = false)).
    - intros x y Hx Hy Hxy Hyx. rewrite sort_by_elem in Hx. pose proof (key_lt_total _ _ Hyx Hxy) as Hk.
      assert (Hy' : y ∈ xs ++ rest).
      { rewrite <- (sort_by_perm by_key xs), Hsplit, <- app_assoc. rewrite elem_of_app, sort_by_elem in Hy. by rewrite elem_of_app. }
      apply list_elem_of_lookup in Hx as [i Hx], Hy' as [j Hy'].
      assert (i = j) as ->; [|congruence]. eapply NoDup_lookup; [exact Hnd| |]; rewrite list_lookup_fmap, ?Hx, ?Hy'; cbn; by rewrite ?Hk.
    - apply sort_by_sorted, _.
    - apply StronglySorted_app in Hxs as (Hcross & Hfront & Hback). apply StronglySorted_app_2; [|done|apply sort_by_sorted, _].
      intros x y Hx Hy. rewrite sort_by_elem, elem_of_app in Hy. destruct Hy as [Hy|Hy]; [by apply Hcross|by apply Hbelow].
    - rewrite !sort_by_perm, <- (sort_by_perm by_key xs), Hsplit at 1. by rewrite app_assoc. }
  rewrite Hall. destruct (decide (limit <= length (sort_by by_key xs))) as [Hl|Hl].
  - apply take_app_length'. unfold front. rewrite length_take. lia.
  - assert (Hrest : rest = []).
    { destruct rest as [|r rest]; [done|]. specialize (Hr r (list_elem_of_here _ _)). exfalso.
      pose proof (List.filter_length_le (fun x => key_lt (key x) (key r)) xs). rewrite length_sort_by in Hl. lia. }
    rewrite Hrest, app_nil_r. unfold back. rewrite drop_ge by lia. cbn. rewrite app_nil_r. unfold front. rewrite take_take. f_equal. lia.
Qed.
End Pages.
