(* ===== verification/Api.v ===== *)
(** * The API types (api/v1alpha1)

    The resources the operator reads and writes, field by field.  A Go string
    type with named constants ([Phase], [StepPhase], [StageKind]) is an
    inductive with one constructor per constant; conversions between [Phase]
    and [StepPhase] are casts of the underlying string, so the two share one
    inductive.  A Kubernetes value the code only copies (a toleration, an
    affinity, a probe, ...) is its serialized form, a [k8s_value].  A pointer is
    an [option]; a slice whose nil-ness the code inspects is an [option] of a
    list; other slices and maps are lists and [gmap]s. *)
From S2P Require Import Prelude.

Abbreviation k8s_value := string (only parsing).
Abbreviation strmap := (gmap string string) (only parsing).

(** ** Phases *)

Inductive Phase : Set :=
| PhaseNone | PhaseQueued | PhaseRunning | PhasePaused
| PhasePassed | PhaseFailed | PhaseAborted | PhaseError
| StepPhaseSkipped.

#[export] Instance Phase_eq_dec : EqDecision Phase.
Proof. solve_decision. Defined.

Definition StepPhase : Set := Phase.

Definition phase_eqb (p q : Phase) : bool := bool_decide (p = q).

(** The string a phase constant denotes. *)
Definition phase_string (p : Phase) : string :=
  match p with
  | PhaseNone => "" | PhaseQueued => "queued" | PhaseRunning => "running"
  | PhasePaused => "paused" | PhasePassed => "passed" | PhaseFailed => "failed"
  | PhaseAborted => "aborted" | PhaseError => "error" | StepPhaseSkipped => "skipped"
  end.

Inductive StageKind : Set := StageQueue | StageFetch | StageRun | StageCollect.
#[export] Instance StageKind_eq_dec : EqDecision StageKind.
Proof. solve_decision. Defined.

Record Stage := mkStage {
  sg_Kind : StageKind;
  sg_Name : string;
  sg_Phase : StepPhase;
  sg_StartedAt : option time;
  sg_FinishedAt : option time;
  sg_Message : string;
}.
#[export] Instance Stage_eq_dec : EqDecision Stage.
Proof. solve_decision. Defined.

Record StepResult := mkStepResult {
  sr_Phase : StepPhase;
  sr_QueuedAt : option time;
  sr_StartedAt : option time;
  sr_FinishedAt : option time;
  sr_Message : string;
  sr_Stages : list Stage;
  sr_Params : strmap;
  sr_PodIP : string;
}.
#[export] Instance StepResult_eq_dec : EqDecision StepResult.
Proof. solve_decision. Defined.

(** Go's zero [StepResult{}], what indexing an absent key of the map yields. *)
Definition zeroStepResult : StepResult := mkStepResult PhaseNone None None None "" [] ∅ "".

(** ** Object metadata (metav1) *)

Record OwnerReference := mkOwner { or_Kind : string; or_Name : string; or_UID : string; or_Controller : bool }.
#[export] Instance OwnerReference_eq_dec : EqDecision OwnerReference.
Proof. solve_decision. Defined.

Record ObjectMeta := mkMeta {
  om_Name : string;
  om_Namespace : string;
  om_UID : string;
  om_Labels : strmap;
  om_Annotations : strmap;
  om_CreationTimestamp : time;
  om_DeletionTimestamp : option time;
  om_Finalizers : list string;
  om_OwnerReferences : list OwnerReference;
}.
#[export] Instance ObjectMeta_eq_dec : EqDecision ObjectMeta.
Proof. solve_decision. Defined.

Definition with_Finalizers (fs : list string) (m : ObjectMeta) : ObjectMeta :=
  mkMeta (om_Name m) (om_Namespace m) (om_UID m) (om_Labels m) (om_Annotations m)
    (om_CreationTimestamp m) (om_DeletionTimestamp m) fs (om_OwnerReferences m).

(** [labels[k]]: the empty string when absent. *)
Definition label_of (m : strmap) (k : string) : string := default "" (m !! k).

(** ** Pod and container configuration *)

Record KeyToPath := mkKeyToPath { ktp_Key : string; ktp_Path : string }.
#[export] Instance KeyToPath_eq_dec : EqDecision KeyToPath.
Proof. solve_decision. Defined.

(** A Secret or ConfigMap volume (or projected) source. *)
Record ObjectSource := mkObjSrc { os_Name : string; os_Items : list KeyToPath; os_Optional : option bool }.
#[export] Instance ObjectSource_eq_dec : EqDecision ObjectSource.
Proof. solve_decision. Defined.

Record ProjectedSource := mkProjected { ps_Secret : option ObjectSource; ps_ConfigMap : option ObjectSource }.
#[export] Instance ProjectedSource_eq_dec : EqDecision ProjectedSource.
Proof. solve_decision. Defined.

(** [corev1.VolumeSource]: a struct of pointers; [vs_Other] stands for every
    source the code does not name (nfs, iscsi, rbd, ...). *)
Record VolumeSource := mkVolumeSource {
  vs_EmptyDir : option k8s_value;
  vs_ConfigMap : option ObjectSource;
  vs_Secret : option ObjectSource;
  vs_Projected : option (list ProjectedSource);
  vs_DownwardAPI : option k8s_value;
  vs_PersistentVolumeClaim : option k8s_value;
  vs_Ephemeral : option k8s_value;
  vs_CSI : option k8s_value;
  vs_HostPath : option k8s_value;
  vs_Other : option k8s_value;
}.
#[export] Instance VolumeSource_eq_dec : EqDecision VolumeSource.
Proof. solve_decision. Defined.

Record Volume := mkVolume { vol_Name : string; vol_Source : VolumeSource }.
#[export] Instance Volume_eq_dec : EqDecision Volume.
Proof. solve_decision. Defined.

(** [corev1.SecurityContext] of a container: the two fields the policy reads,
    and the rest. *)
Record SecurityContext := mkSecurityContext {
  sc_Privileged : option bool;
  sc_CapabilitiesAdd : option (list string);
  sc_Rest : k8s_value;
}.
#[export] Instance SecurityContext_eq_dec : EqDecision SecurityContext.
Proof. solve_decision. Defined.

Record PodConfig := mkPodConfig {
  pc_Labels : strmap;
  pc_Annotations : strmap;
  pc_ServiceAccountName : string;
  pc_NodeSelector : option strmap;
  pc_Tolerations : option (list k8s_value);
  pc_Affinity : option k8s_value;
  pc_SecurityContext : option k8s_value;
  pc_Volumes : option (list Volume);
  pc_ImagePullSecrets : option (list k8s_value);
}.
#[export] Instance PodConfig_eq_dec : EqDecision PodConfig.
Proof. solve_decision. Defined.

Record EnvVar := mkEnvVar { ev_Name : string; ev_Value : string; ev_ValueFrom : option k8s_value }.
#[export] Instance EnvVar_eq_dec : EqDecision EnvVar.
Proof. solve_decision. Defined.

Inductive EnvFromSource := FromSecret (name : string) | FromOther (v : k8s_value).
#[export] Instance EnvFromSource_eq_dec : EqDecision EnvFromSource.
Proof. solve_decision. Defined.

Record VolumeMount := mkMount { vm_Name : string; vm_MountPath : string; vm_SubPath : string; vm_ReadOnly : bool; vm_Rest : k8s_value }.
#[export] Instance VolumeMount_eq_dec : EqDecision VolumeMount.
Proof. solve_decision. Defined.

(** Resource quantities by name. *)
Record ResourceRequirements := mkResources { rq_Requests : strmap; rq_Limits : strmap }.
#[export] Instance ResourceRequirements_eq_dec : EqDecision ResourceRequirements.
Proof. solve_decision. Defined.

Record ContainerConfig := mkContainer {
  cc_Image : string;
  cc_ImagePullPolicy : string;
  cc_WorkingDir : string;
  cc_Command : list string;
  cc_Args : list string;
  cc_Env : list EnvVar;
  cc_EnvFrom : list EnvFromSource;
  cc_Requests : strmap;
  cc_Limits : strmap;
  cc_SecurityContext : option SecurityContext;
  cc_VolumeMounts : list VolumeMount;
}.
#[export] Instance ContainerConfig_eq_dec : EqDecision ContainerConfig.
Proof. solve_decision. Defined.

(** ** Content *)

Record FileContent := mkFile {
  fc_Path : string; fc_Content : string; fc_ContentFrom : option k8s_value; fc_Mode : option Z }.
#[export] Instance FileContent_eq_dec : EqDecision FileContent.
Proof. solve_decision. Defined.

Record TestDataItem := mkTestDataItem { tdi_Key : string; tdi_Path : string }.
#[export] Instance TestDataItem_eq_dec : EqDecision TestDataItem.
Proof. solve_decision. Defined.

Record TestDataSource := mkTestData {
  td_ConfigMap : string; td_Secret : string; td_MountPath : string; td_Items : list TestDataItem }.
#[export] Instance TestDataSource_eq_dec : EqDecision TestDataSource.
Proof. solve_decision. Defined.

Record Tarball := mkTarball { tb_URL : string; tb_Path : string; tb_Mount : bool }.
#[export] Instance Tarball_eq_dec : EqDecision Tarball.
Proof. solve_decision. Defined.

Record GitContent := mkGit {
  git_URI : string; git_Revision : string; git_Paths : list string; git_MountPath : string;
  git_AuthType : string; git_UsernameFrom : option k8s_value; git_TokenFrom : option k8s_value;
  git_SSHKeyFrom : option k8s_value }.
#[export] Instance GitContent_eq_dec : EqDecision GitContent.
Proof. solve_decision. Defined.

Record Content := mkContent {
  ct_Git : option GitContent;
  ct_Files : list FileContent;
  ct_Tarball : list Tarball;
  ct_TestData : list TestDataSource;
}.
#[export] Instance Content_eq_dec : EqDecision Content.
Proof. solve_decision. Defined.

(** ** The Test *)

(** [Parameter] (a reserved word of Rocq). *)

Record ConfigParameter := mkParameter {
  pm_Type : string; pm_Default : string; pm_Enum : list string; pm_Pattern : string;
  pm_Description : string; pm_Path : string }.
#[export] Instance ConfigParameter_eq_dec : EqDecision ConfigParameter.
Proof. solve_decision. Defined.

Record ArtifactSpec := mkArtifacts { af_Paths : list string; af_Compress : string; af_Report : string }.
#[export] Instance ArtifactSpec_eq_dec : EqDecision ArtifactSpec.
Proof. solve_decision. Defined.

Record RetryPolicy := mkRetry { rp_Count : Z; rp_Until : string }.
#[export] Instance RetryPolicy_eq_dec : EqDecision RetryPolicy.
Proof. solve_decision. Defined.

Record ServiceSpec := mkService {
  sv_Image : string; sv_Command : list string; sv_Args : list string; sv_Env : list EnvVar;
  sv_Resources : ResourceRequirements; sv_ReadinessProbe : option k8s_value; sv_Timeout : option duration;
  sv_Logs : bool; sv_Count : option Z; sv_MaxCount : option Z;
  sv_Matrix : gmap string (list string); sv_Shards : strmap; sv_RestartPolicy : string }.
#[export] Instance ServiceSpec_eq_dec : EqDecision ServiceSpec.
Proof. solve_decision. Defined.

Record ParallelSpec := mkParallel {
  pl_Count : option Z;
  pl_MaxCount : option Z;
  pl_Matrix : gmap string (list string);
  pl_Shards : gmap string (list string) }.
#[export] Instance ParallelSpec_eq_dec : EqDecision ParallelSpec.
Proof. solve_decision. Defined.

Record StepExecuteTest := mkExecTest { et_Name : string; et_Count : Z; et_Config : strmap }.
#[export] Instance StepExecuteTest_eq_dec : EqDecision StepExecuteTest.
Proof. solve_decision. Defined.

Record StepExecute := mkExecute { se_Parallelism : Z; se_Tests : list StepExecuteTest }.
#[export] Instance StepExecute_eq_dec : EqDecision StepExecute.
Proof. solve_decision. Defined.

Record Step := mkStep {
  s_Name : string;
  s_Condition : string;
  s_Optional : bool;
  s_Negative : bool;
  s_Retry : option RetryPolicy;
  s_Timeout : option duration;
  s_Delay : option duration;
  s_Execute : option StepExecute;
}.
#[export] Instance Step_eq_dec : EqDecision Step.
Proof. solve_decision. Defined.

Record VerdictSpec := mkVerdict { vd_From : string; vd_ErrorRateMax : string }.
#[export] Instance VerdictSpec_eq_dec : EqDecision VerdictSpec.
Proof. solve_decision. Defined.

Record MetricsSpec := mkMetrics { ms_From : string; ms_Path : string }.
#[export] Instance MetricsSpec_eq_dec : EqDecision MetricsSpec.
Proof. solve_decision. Defined.

Record LiveViewSpec := mkLiveView { lv_Port : Z; lv_Path : string }.
#[export] Instance LiveViewSpec_eq_dec : EqDecision LiveViewSpec.
Proof. solve_decision. Defined.

Record TestSpec := mkTestSpec {
  ts_Content : Content;
  ts_Container : ContainerConfig;
  ts_Use : list string;
  ts_Pod : option PodConfig;
  ts_Config : gmap string ConfigParameter;
  ts_Artifacts : option ArtifactSpec;
  ts_Timeout : option duration;
  ts_Retry : option RetryPolicy;
  ts_Schedule : string;
  ts_Services : gmap string ServiceSpec;
  ts_Parallel : option ParallelSpec;
  ts_ConcurrencyPolicy : string;
  ts_Verdict : option VerdictSpec;
  ts_Metrics : option MetricsSpec;
  ts_LiveView : option LiveViewSpec;
  ts_Steps : list Step;
}.
#[export] Instance TestSpec_eq_dec : EqDecision TestSpec.
Proof. solve_decision. Defined.

Definition zeroContainer : ContainerConfig := mkContainer "" "" "" [] [] [] [] ∅ ∅ None [].
Definition zeroTestSpec : TestSpec :=
  mkTestSpec (mkContent None [] [] []) zeroContainer [] None ∅ None None None "" ∅ None "" None None None [].

Record RunReference := mkRunRef { rr_Name : string; rr_Phase : Phase; rr_FinishedAt : option time }.
#[export] Instance RunReference_eq_dec : EqDecision RunReference.
Proof. solve_decision. Defined.

Record Test := mkTest { t_Meta : ObjectMeta; t_Spec : TestSpec; t_LatestRun : option RunReference }.

(** ** Templates (testtemplate_types.go) *)

Record TestTemplateSpec := mkTemplateSpec {
  tms_Content : Content;
  tms_Container : ContainerConfig;
  tms_Pod : option PodConfig;
  tms_Config : gmap string ConfigParameter;
  tms_Artifacts : option ArtifactSpec;
  tms_Timeout : option duration;
  tms_Retry : option RetryPolicy;
  tms_Services : gmap string ServiceSpec;
  tms_Parallel : option ParallelSpec;
  tms_Verdict : option VerdictSpec;
  tms_Metrics : option MetricsSpec;
  tms_LiveView : option LiveViewSpec;
}.

Record TestTemplate := mkTemplate { tm_Meta : ObjectMeta; tm_Spec : TestTemplateSpec }.

(** ** The TestRun *)

Record AbortRequest := mkAbort { ab_Reason : string; ab_Message : string; ab_RequestedBy : string }.
#[export] Instance AbortRequest_eq_dec : EqDecision AbortRequest.
Proof. solve_decision. Defined.

Definition AbortReasonUser : string := "User".
Definition AbortReasonConcurrency : string := "Concurrency".
Definition AbortReasonParent : string := "Parent".

Record TestRunSpec := mkRunSpec {
  rs_TestRef : string;
  rs_Config : strmap;
  rs_Pod : option PodConfig;
  rs_Tags : strmap;
  rs_Source : string;
  rs_Abort : option AbortRequest;
  rs_NotBefore : option time;
}.
#[export] Instance TestRunSpec_eq_dec : EqDecision TestRunSpec.
Proof. solve_decision. Defined.

(** [status.resolvedSpec], as the code observes it: the empty string, a JSON
    text that decodes to a spec, or a text that does not decode.  [json.Marshal]
    of a spec is [SnapshotOf] it. *)
Inductive ResolvedSpec :=
| NoSnapshot
| SnapshotOf (spec : TestSpec)
| BadSnapshot (text : string).
#[export] Instance ResolvedSpec_eq_dec : EqDecision ResolvedSpec.
Proof. solve_decision. Defined.

(** [json.Unmarshal] of the snapshot: an error on the empty string too. *)
Definition unmarshal_spec (r : ResolvedSpec) : option TestSpec :=
  match r with SnapshotOf spec => Some spec | _ => None end.

Definition snapshot_is_empty (r : ResolvedSpec) : bool :=
  match r with NoSnapshot => true | _ => false end.

Record ArtifactRef := mkArtifactRef { ar_Path : string; ar_Key : string; ar_SizeBytes : Z; ar_ContentType : string }.
#[export] Instance ArtifactRef_eq_dec : EqDecision ArtifactRef.
Proof. solve_decision. Defined.

Record ContentStatus := mkContentStatus { cs_GitRevision : string; cs_GitCommit : string }.
#[export] Instance ContentStatus_eq_dec : EqDecision ContentStatus.
Proof. solve_decision. Defined.

Record TestCounts := mkTestCounts { tc_Total : Z; tc_Passed : Z; tc_Failed : Z; tc_Skipped : Z }.
#[export] Instance TestCounts_eq_dec : EqDecision TestCounts.
Proof. solve_decision. Defined.

Record TestRunStatus := mkStatus {
  st_Phase : Phase;
  st_QueuedAt : option time;
  st_StartedAt : option time;
  st_FinishedAt : option time;
  st_DurationMs : Z;
  st_JobName : string;
  st_Tool : string;
  st_ResolvedSpec : ResolvedSpec;
  st_Steps : gmap string StepResult;
  st_Stages : list Stage;
  st_ArtifactRefs : list ArtifactRef;
  st_Metrics : strmap;
  st_TestCounts : option TestCounts;
  st_PodIP : string;
  st_Content : option ContentStatus;
  st_Message : string;
}.
#[export] Instance TestRunStatus_eq_dec : EqDecision TestRunStatus.
Proof. solve_decision. Defined.

Record TestRun := mkTestRun { r_Meta : ObjectMeta; r_Spec : TestRunSpec; r_Status : TestRunStatus }.
#[export] Instance TestRun_eq_dec : EqDecision TestRun.
Proof. solve_decision. Defined.

Definition run_name (r : TestRun) : string := om_Name (r_Meta r).
Definition run_ns (r : TestRun) : string := om_Namespace (r_Meta r).
Definition run_uid (r : TestRun) : string := om_UID (r_Meta r).
Definition run_phase (r : TestRun) : Phase := st_Phase (r_Status r).

Definition zeroStatus : TestRunStatus :=
  mkStatus PhaseNone None None None 0 "" "" NoSnapshot ∅ [] [] ∅ None "" None "".

(** ** Field assignments *)

Definition with_status (st : TestRunStatus) (r : TestRun) : TestRun := mkTestRun (r_Meta r) (r_Spec r) st.
Definition with_meta (m : ObjectMeta) (r : TestRun) : TestRun := mkTestRun m (r_Spec r) (r_Status r).
Definition with_abort (a : AbortRequest) (r : TestRun) : TestRun :=
  let s := r_Spec r in
  mkTestRun (r_Meta r)
    (mkRunSpec (rs_TestRef s) (rs_Config s) (rs_Pod s) (rs_Tags s) (rs_Source s) (Some a) (rs_NotBefore s))
    (r_Status r).

Definition upd_status (f : TestRunStatus → TestRunStatus) (r : TestRun) : TestRun := with_status (f (r_Status r)) r.

Definition set_Phase (v : Phase) (s : TestRunStatus) : TestRunStatus :=
  mkStatus v (st_QueuedAt s) (st_StartedAt s) (st_FinishedAt s) (st_DurationMs s) (st_JobName s) (st_Tool s)
    (st_ResolvedSpec s) (st_Steps s) (st_Stages s) (st_ArtifactRefs s) (st_Metrics s) (st_TestCounts s)
    (st_PodIP s) (st_Content s) (st_Message s).
Definition set_QueuedAt (v : option time) (s : TestRunStatus) : TestRunStatus :=
  mkStatus (st_Phase s) v (st_StartedAt s) (st_FinishedAt s) (st_DurationMs s) (st_JobName s) (st_Tool s)
    (st_ResolvedSpec s) (st_Steps s) (st_Stages s) (st_ArtifactRefs s) (st_Metrics s) (st_TestCounts s)
    (st_PodIP s) (st_Content s) (st_Message s).
Definition set_StartedAt (v : option time) (s : TestRunStatus) : TestRunStatus :=
  mkStatus (st_Phase s) (st_QueuedAt s) v (st_FinishedAt s) (st_DurationMs s) (st_JobName s) (st_Tool s)
    (st_ResolvedSpec s) (st_Steps s) (st_Stages s) (st_ArtifactRefs s) (st_Metrics s) (st_TestCounts s)
    (st_PodIP s) (st_Content s) (st_Message s).
Definition set_FinishedAt (v : option time) (s : TestRunStatus) : TestRunStatus :=
  mkStatus (st_Phase s) (st_QueuedAt s) (st_StartedAt s) v (st_DurationMs s) (st_JobName s) (st_Tool s)
    (st_ResolvedSpec s) (st_Steps s) (st_Stages s) (st_ArtifactRefs s) (st_Metrics s) (st_TestCounts s)
    (st_PodIP s) (st_Content s) (st_Message s).
Definition set_DurationMs (v : Z) (s : TestRunStatus) : TestRunStatus :=
  mkStatus (st_Phase s) (st_QueuedAt s) (st_StartedAt s) (st_FinishedAt s) v (st_JobName s) (st_Tool s)
    (st_ResolvedSpec s) (st_Steps s) (st_Stages s) (st_ArtifactRefs s) (st_Metrics s) (st_TestCounts s)
    (st_PodIP s) (st_Content s) (st_Message s).
Definition set_JobName (v : string) (s : TestRunStatus) : TestRunStatus :=
  mkStatus (st_Phase s) (st_QueuedAt s) (st_StartedAt s) (st_FinishedAt s) (st_DurationMs s) v (st_Tool s)
    (st_ResolvedSpec s) (st_Steps s) (st_Stages s) (st_ArtifactRefs s) (st_Metrics s) (st_TestCounts s)
    (st_PodIP s) (st_Content s) (st_Message s).
Definition set_Tool (v : string) (s : TestRunStatus) : TestRunStatus :=
  mkStatus (st_Phase s) (st_QueuedAt s) (st_StartedAt s) (st_FinishedAt s) (st_DurationMs s) (st_JobName s) v
    (st_ResolvedSpec s) (st_Steps s) (st_Stages s) (st_ArtifactRefs s) (st_Metrics s) (st_TestCounts s)
    (st_PodIP s) (st_Content s) (st_Message s).
Definition set_ResolvedSpec (v : ResolvedSpec) (s : TestRunStatus) : TestRunStatus :=
  mkStatus (st_Phase s) (st_QueuedAt s) (st_StartedAt s) (st_FinishedAt s) (st_DurationMs s) (st_JobName s)
    (st_Tool s) v (st_Steps s) (st_Stages s) (st_ArtifactRefs s) (st_Metrics s) (st_TestCounts s)
    (st_PodIP s) (st_Content s) (st_Message s).
Definition set_Steps (v : gmap string StepResult) (s : TestRunStatus) : TestRunStatus :=
  mkStatus (st_Phase s) (st_QueuedAt s) (st_StartedAt s) (st_FinishedAt s) (st_DurationMs s) (st_JobName s)
    (st_Tool s) (st_ResolvedSpec s) v (st_Stages s) (st_ArtifactRefs s) (st_Metrics s) (st_TestCounts s)
    (st_PodIP s) (st_Content s) (st_Message s).
Definition set_Stages (v : list Stage) (s : TestRunStatus) : TestRunStatus :=
  mkStatus (st_Phase s) (st_QueuedAt s) (st_StartedAt s) (st_FinishedAt s) (st_DurationMs s) (st_JobName s)
    (st_Tool s) (st_ResolvedSpec s) (st_Steps s) v (st_ArtifactRefs s) (st_Metrics s) (st_TestCounts s)
    (st_PodIP s) (st_Content s) (st_Message s).
Definition set_ArtifactRefs (v : list ArtifactRef) (s : TestRunStatus) : TestRunStatus :=
  mkStatus (st_Phase s) (st_QueuedAt s) (st_StartedAt s) (st_FinishedAt s) (st_DurationMs s) (st_JobName s)
    (st_Tool s) (st_ResolvedSpec s) (st_Steps s) (st_Stages s) v (st_Metrics s) (st_TestCounts s)
    (st_PodIP s) (st_Content s) (st_Message s).
Definition set_Metrics (v : strmap) (s : TestRunStatus) : TestRunStatus :=
  mkStatus (st_Phase s) (st_QueuedAt s) (st_StartedAt s) (st_FinishedAt s) (st_DurationMs s) (st_JobName s)
    (st_Tool s) (st_ResolvedSpec s) (st_Steps s) (st_Stages s) (st_ArtifactRefs s) v (st_TestCounts s)
    (st_PodIP s) (st_Content s) (st_Message s).
Definition set_TestCounts (v : option TestCounts) (s : TestRunStatus) : TestRunStatus :=
  mkStatus (st_Phase s) (st_QueuedAt s) (st_StartedAt s) (st_FinishedAt s) (st_DurationMs s) (st_JobName s)
    (st_Tool s) (st_ResolvedSpec s) (st_Steps s) (st_Stages s) (st_ArtifactRefs s) (st_Metrics s) v
    (st_PodIP s) (st_Content s) (st_Message s).
Definition set_PodIP (v : string) (s : TestRunStatus) : TestRunStatus :=
  mkStatus (st_Phase s) (st_QueuedAt s) (st_StartedAt s) (st_FinishedAt s) (st_DurationMs s) (st_JobName s)
    (st_Tool s) (st_ResolvedSpec s) (st_Steps s) (st_Stages s) (st_ArtifactRefs s) (st_Metrics s) (st_TestCounts s)
    v (st_Content s) (st_Message s).
Definition set_Content (v : option ContentStatus) (s : TestRunStatus) : TestRunStatus :=
  mkStatus (st_Phase s) (st_QueuedAt s) (st_StartedAt s) (st_FinishedAt s) (st_DurationMs s) (st_JobName s)
    (st_Tool s) (st_ResolvedSpec s) (st_Steps s) (st_Stages s) (st_ArtifactRefs s) (st_Metrics s) (st_TestCounts s)
    (st_PodIP s) v (st_Message s).
Definition set_Message (v : string) (s : TestRunStatus) : TestRunStatus :=
  mkStatus (st_Phase s) (st_QueuedAt s) (st_StartedAt s) (st_FinishedAt s) (st_DurationMs s) (st_JobName s)
    (st_Tool s) (st_ResolvedSpec s) (st_Steps s) (st_Stages s) (st_ArtifactRefs s) (st_Metrics s) (st_TestCounts s)
    (st_PodIP s) (st_Content s) v.

Definition with_sr_Phase (v : StepPhase) (s : StepResult) : StepResult :=
  mkStepResult v (sr_QueuedAt s) (sr_StartedAt s) (sr_FinishedAt s) (sr_Message s) (sr_Stages s) (sr_Params s) (sr_PodIP s).
Definition with_sr_StartedAt (v : option time) (s : StepResult) : StepResult :=
  mkStepResult (sr_Phase s) (sr_QueuedAt s) v (sr_FinishedAt s) (sr_Message s) (sr_Stages s) (sr_Params s) (sr_PodIP s).
Definition with_sr_FinishedAt (v : option time) (s : StepResult) : StepResult :=
  mkStepResult (sr_Phase s) (sr_QueuedAt s) (sr_StartedAt s) v (sr_Message s) (sr_Stages s) (sr_Params s) (sr_PodIP s).
Definition with_sr_Message (v : string) (s : StepResult) : StepResult :=
  mkStepResult (sr_Phase s) (sr_QueuedAt s) (sr_StartedAt s) (sr_FinishedAt s) v (sr_Stages s) (sr_Params s) (sr_PodIP s).
Definition with_sr_Stages (v : list Stage) (s : StepResult) : StepResult :=
  mkStepResult (sr_Phase s) (sr_QueuedAt s) (sr_StartedAt s) (sr_FinishedAt s) (sr_Message s) v (sr_Params s) (sr_PodIP s).
Definition with_sr_Params (v : strmap) (s : StepResult) : StepResult :=
  mkStepResult (sr_Phase s) (sr_QueuedAt s) (sr_StartedAt s) (sr_FinishedAt s) (sr_Message s) (sr_Stages s) v (sr_PodIP s).
Definition with_sr_PodIP (v : string) (s : StepResult) : StepResult :=
  mkStepResult (sr_Phase s) (sr_QueuedAt s) (sr_StartedAt s) (sr_FinishedAt s) (sr_Message s) (sr_Stages s) (sr_Params s) v.

(** ** Terminal phases (internal/controller/phases.go) *)

Definition IsTerminalPhase (p : Phase) : bool :=
  match p with
  | PhasePassed | PhaseFailed | PhaseError | PhaseAborted => true
  | _ => false
  end.

Lemma phase_eqb_eq p q : phase_eqb p q = true ↔ p = q.
Proof. unfold phase_eqb. apply bool_decide_eq_true. Qed.

Lemma phase_eqb_refl p : phase_eqb p p = true.
Proof. by apply phase_eqb_eq. Qed.

#[export] Hint Rewrite phase_eqb_refl : kt.
