(* ===== verification/Sha256.v ===== *)
(** * crypto/sha256 and encoding/hex, the two standard-library functions
    internal/names uses (FIPS 180-4), on bytes as integers 0..255 *)
From S2P Require Import Prelude.

Module Sha256.
Local Open Scope Z_scope.

Definition w32 (x : Z) : Z := Z.land x 4294967295.
Definition add32 (x y : Z) : Z := w32 (x + y).
Definition rotr (n x : Z) : Z := Z.lor (Z.shiftr x n) (w32 (Z.shiftl x (32 - n))).
Definition ch (x y z : Z) : Z := Z.lxor (Z.land x y) (Z.land (Z.lxor x 4294967295) z).
Definition maj (x y z : Z) : Z := Z.lxor (Z.land x y) (Z.lxor (Z.land x z) (Z.land y z)).
Definition bsig0 (x : Z) : Z := Z.lxor (rotr 2 x) (Z.lxor (rotr 13 x) (rotr 22 x)).
Definition bsig1 (x : Z) : Z := Z.lxor (rotr 6 x) (Z.lxor (rotr 11 x) (rotr 25 x)).
Definition ssig0 (x : Z) : Z := Z.lxor (rotr 7 x) (Z.lxor (rotr 18 x) (Z.shiftr x 3)).
Definition ssig1 (x : Z) : Z := Z.lxor (rotr 17 x) (Z.lxor (rotr 19 x) (Z.shiftr x 10)).

(** The standard's constants: the first 32 bits of the fractional parts of the
    square and cube roots of the first primes. *)
Definition is_prime (n : Z) : bool := forallb (fun d => negb (n mod d =? 0)) (map Z.of_nat (seq 2 (Z.to_nat n - 2))).
Definition primes_below (n : nat) : list Z := List.filter is_prime (map Z.of_nat (seq 2 (n - 2))).

(** The integer cube root of [n], bit by bit from bit [bits - 1]. *)
Fixpoint cube_root (bits : nat) (r n : Z) : Z :=
  match bits with
  | O => r
  | S b => let t := r + 2 ^ Z.of_nat b in cube_root b (if t * t * t <=? n then t else r) n
  end.

Definition initial_hash : list Z := Eval vm_compute in map (fun p => w32 (Z.sqrt (p * 2 ^ 64))) (primes_below 20).
Definition round_constants : list Z := Eval vm_compute in map (fun p => w32 (cube_root 36 0 (p * 2 ^ 96))) (primes_below 312).

(** The message schedule, newest word first. *)
Definition next_word (ws : list Z) : Z :=
  add32 (add32 (ssig1 (nth 1 ws 0)) (nth 6 ws 0)) (add32 (ssig0 (nth 14 ws 0)) (nth 15 ws 0)).

Fixpoint extend (n : nat) (ws : list Z) : list Z :=
  match n with O => ws | S n => extend n (next_word ws :: ws) end.

Definition step (h : list Z) (kw : Z * Z) : list Z :=
  match h with
  | [a; b; c; d; e; f; g; hh] =>
      let t1 := add32 (add32 hh (bsig1 e)) (add32 (ch e f g) (add32 kw.1 kw.2)) in
      let t2 := add32 (bsig0 a) (maj a b c) in
      [add32 t1 t2; a; b; c; add32 d t1; e; f; g]
  | _ => h
  end.

Definition compress (h block : list Z) : list Z :=
  let ws := rev (extend 48 (rev block)) in
  zip_with add32 h (fold_left step (zip round_constants ws) h).

Definition be32 (bs : list Z) : Z := fold_left (fun acc b => 256 * acc + b) bs 0.

Fixpoint words (n : nat) (bs : list Z) : list Z :=
  match n with O => [] | S n => be32 (take 4 bs) :: words n (drop 4 bs) end.

Definition to_be (n : nat) (x : Z) : list Z :=
  map (fun i => Z.land (Z.shiftr x (8 * Z.of_nat i)) 255) (rev (seq 0 n)).

Definition pad (bs : list Z) : list Z :=
  let l := Z.of_nat (length bs) in
  bs ++ [128] ++ replicate (Z.to_nat ((55 - l) mod 64)) 0 ++ to_be 8 (8 * l).

Fixpoint blocks (n : nat) (h bs : list Z) : list Z :=
  match n with
  | O => h
  | S n => blocks n (compress h (words 16 (take 64 bs))) (drop 64 bs)
  end.

(** [sha256.Sum256]. *)
Definition sum256 (bs : list Z) : list Z :=
  let p := pad bs in
  concat (map (to_be 4) (blocks (Nat.div (length p) 64) initial_hash p)).

Definition hex_digit (d : Z) : ascii :=
  ascii_of_N (Z.to_N (if d <? 10 then 48 + d else 87 + d)).

(** [hex.EncodeToString]. *)
Fixpoint hex (bs : list Z) : string :=
  match bs with
  | [] => EmptyString
  | b :: bs => String (hex_digit (Z.shiftr b 4)) (String (hex_digit (Z.land b 15)) (hex bs))
  end.

Definition bytes_of (s : string) : list Z :=
  map (fun c => Z.of_N (N_of_ascii c)) (String.list_ascii_of_string s).

(** [hex.EncodeToString(sha256.Sum256([]byte(s))[:])]. *)
Definition sum_hex (s : string) : string := hex (sum256 (bytes_of s)).

Example sum_abc : sum_hex "abc" = "ba7816bf8f01cfea414140de5dae2223b00361a396177a9cb410ff61f20015ad"%string.
Proof. vm_compute. reflexivity. Qed.
Example sum_empty : sum_hex "" = "e3b0c44298fc1c149afbf4c8996fb92427ae41e4649b934ca495991b7852b855"%string.
Proof. vm_compute. reflexivity. Qed.

(** ** Shape: eight words of four bytes, two hexadecimal digits each *)

Definition is_hex_digit (c : ascii) : bool :=
  let n := N_of_ascii c in
  ((48 <=? n) && (n <=? 57) || (97 <=? n) && (n <=? 102))%N.

Lemma length_hex bs : String.length (hex bs) = (2 * length bs)%nat.
Proof. induction bs as [|b bs IH]; cbn; [done|]. rewrite IH. lia. Qed.

Lemma length_step h kw : length h = 8%nat → length (step h kw) = 8%nat.
Proof. by destruct h as [|a[|b[|c[|d[|e[|f[|g[|i[|]]]]]]]]]. Qed.

Lemma length_compress h b : length h = 8%nat → length (compress h b) = 8%nat.
Proof.
  intros Hh. unfold compress. rewrite length_zip_with, Hh.
  assert (∀ kws h, length h = 8%nat → length (fold_left step kws h) = 8%nat) as Hf.
  { induction kws; cbn; [done|]. intros. apply IHkws. by apply length_step. }
  by rewrite Hf.
Qed.

Lemma length_blocks n h bs : length h = 8%nat → length (blocks n h bs) = 8%nat.
Proof. revert h bs. induction n; cbn; [done|]. intros. apply IHn. by apply length_compress. Qed.

Lemma length_to_be n x : length (to_be n x) = n.
Proof. unfold to_be. by rewrite length_map, length_rev, length_seq. Qed.

Lemma length_sum256 bs : length (sum256 bs) = 32%nat.
Proof.
  unfold sum256. rewrite length_concat, map_map.
  rewrite (map_ext _ (fun _ => 4%nat)) by (intros; apply length_to_be).
  assert (∀ l : list Z, sum_list (map (fun _ => 4%nat) l) = (4 * length l)%nat) as ->.
  { induction l; cbn; lia. }
  by rewrite length_blocks.
Qed.

Lemma length_sum_hex s : String.length (sum_hex s) = 64%nat.
Proof. unfold sum_hex. by rewrite length_hex, length_sum256. Qed.

Definition is_byte (b : Z) : Prop := 0 <= b < 256.

Lemma hex_digit_ok d : 0 <= d < 16 → is_hex_digit (hex_digit d) = true.
Proof.
  intros Hd.
  assert (d ∈ map Z.of_nat (seq 0 16)) as Hin.
  { rewrite list_elem_of_In, in_map_iff. exists (Z.to_nat d). rewrite in_seq. lia. }
  revert Hin. generalize d. apply Forall_forall. vm_compute. repeat constructor.
Qed.

Lemma to_be_bytes n x : Forall is_byte (to_be n x).
Proof.
  apply Forall_forall. intros b. unfold to_be. rewrite list_elem_of_In, in_map_iff.
  intros (i & <- & _). unfold is_byte. change 255 with (Z.ones 8).
  rewrite Z.land_ones by lia. apply Z.mod_pos_bound. lia.
Qed.

Lemma sum256_bytes bs : Forall is_byte (sum256 bs).
Proof.
  unfold sum256. apply Forall_concat, Forall_fmap, Forall_forall. intros. apply to_be_bytes.
Qed.

Lemma hex_digits bs :
  Forall is_byte bs → Forall (fun c => is_hex_digit c = true) (String.list_ascii_of_string (hex bs)).
Proof.
  induction 1 as [|b bs Hb _ IH]; cbn; [done|].
  unfold is_byte in Hb. repeat constructor; [| |done]; apply hex_digit_ok.
  - rewrite Z.shiftr_div_pow2 by lia. split; [apply Z.div_pos; lia|].
    apply Z.div_lt_upper_bound; lia.
  - change 15 with (Z.ones 4). rewrite Z.land_ones by lia. apply Z.mod_pos_bound. lia.
Qed.

Lemma sum_hex_digits s :
  Forall (fun c => is_hex_digit c = true) (String.list_ascii_of_string (sum_hex s)).
Proof. apply hex_digits, sum256_bytes. Qed.

End Sha256.
