(* ===== verification/Names.v ===== *)
(** * internal/names: the names the platform generates

    [Bounded] shortens a TestRun name to a label value; [ServiceName] builds the
    DNS name of a run's service.  Names are Kubernetes object names, so bytes
    are characters and lower-casing is the ASCII one. *)
From S2P Require Import Prelude Sha256.

Module Names.

Definition MaxLen : nat := 63.
Definition hashLen : nat := 8.

(** [strings.TrimRight(s, cutset)]. *)
Fixpoint TrimRight (cut : ascii → bool) (s : string) : string :=
  match s with
  | EmptyString => EmptyString
  | String c s' =>
      match TrimRight cut s' with
      | EmptyString => if cut c then EmptyString else String c EmptyString
      | t => String c t
      end
  end.

Definition is_dash_or_dot (c : ascii) : bool := Ascii.eqb c "-" || Ascii.eqb c ".".

Definition Bounded (name : string) : string :=
  if (String.length name <=? MaxLen)%nat then name
  else
    let prefix := TrimRight is_dash_or_dot (str_take (MaxLen - hashLen - 1) name) in
    prefix +:+ "-" +:+ str_take hashLen (Sha256.sum_hex name).

Definition between (lo hi c : ascii) : bool :=
  ((N_of_ascii lo <=? N_of_ascii c) && (N_of_ascii c <=? N_of_ascii hi))%N.
Definition is_lower (c : ascii) : bool := between "a" "z" c.
Definition is_digit (c : ascii) : bool := between "0" "9" c.

(** [strings.ToLower] on a byte. *)
Definition lower_byte (c : ascii) : ascii :=
  if between "A" "Z" c then ascii_of_N (N_of_ascii c + 32) else c.

Fixpoint str_map (f : ascii → ascii) (s : string) : string :=
  match s with EmptyString => EmptyString | String c s => String (f c) (str_map f s) end.

(** The loop of [ServiceName] over the bytes. *)
Definition service_byte (c : ascii) : ascii :=
  if negb (is_lower c) && negb (is_digit c) && negb (Ascii.eqb c "-") then "-"%char else c.

Definition starts_with_letter (s : string) : bool :=
  match s with String c _ => is_lower c | EmptyString => false end.

Definition ServiceName (runName svc : string) : string :=
  let name := str_map service_byte (str_map lower_byte (runName +:+ "-" +:+ svc)) in
  Bounded (if starts_with_letter name then name else "s-" +:+ name).

Definition ServiceReplicaName (serviceName : string) (i : Z) : string :=
  Bounded (serviceName +:+ "-" +:+ itoa i).

Definition ServiceHost (runName namespace svc : string) : string :=
  ServiceName runName svc +:+ "." +:+ namespace +:+ ".svc".

Example Bounded_short : Bounded "nightly-1700000000" = "nightly-1700000000"%string.
Proof. reflexivity. Qed.
Example ServiceName_dots : ServiceName "42.run" "DB" = "s-42-run-db"%string.
Proof. vm_compute. reflexivity. Qed.

(** ** Lemmas *)

Abbreviation chars := String.list_ascii_of_string.

Lemma chars_app s t : chars (s +:+ t) = chars s ++ chars t.
Proof. induction s as [|c s IH]; [done|]. rewrite str_app_cons. cbn. by rewrite IH. Qed.

Lemma length_chars s : length (chars s) = String.length s.
Proof. induction s; cbn; auto. Qed.

Lemma chars_take n s : chars (str_take n s) = take n (chars s).
Proof. revert s. induction n; intros [|c s]; cbn; f_equal; auto. Qed.

Lemma chars_map f s : chars (str_map f s) = f <$> chars s.
Proof. induction s; cbn; f_equal; auto. Qed.

Lemma TrimRight_prefix cut s : chars (TrimRight cut s) `prefix_of` chars s.
Proof.
  induction s as [|c s IH]; cbn; [done|].
  destruct (TrimRight cut s) as [|d t] eqn:Ht; cbn in *.
  - destruct (cut c); cbn; [apply prefix_nil|]. apply prefix_cons, prefix_nil.
  - apply prefix_cons, IH.
Qed.

Lemma TrimRight_length cut s : String.length (TrimRight cut s) <= String.length s.
Proof. rewrite <- !length_chars. apply prefix_length, TrimRight_prefix. Qed.

Lemma hash_length s : String.length (str_take hashLen (Sha256.sum_hex s)) = 8.
Proof. by rewrite str_length_take, Sha256.length_sum_hex. Qed.

Lemma Bounded_id s : String.length s <= MaxLen → Bounded s = s.
Proof. intros H. unfold Bounded. by rewrite (proj2 (Nat.leb_le _ _) H). Qed.

(** Every generated name fits a label value, whatever the input. *)
Lemma Bounded_length s : String.length (Bounded s) <= MaxLen.
Proof.
  unfold Bounded. destruct (Nat.leb_spec (String.length s) MaxLen); [done|].
  pose proof (TrimRight_length is_dash_or_dot (str_take (MaxLen - hashLen - 1) s)) as Hp.
  rewrite str_length_take in Hp.
  rewrite !str_length_app, hash_length. change (String.length "-") with 1.
  unfold MaxLen, hashLen in *. lia.
Qed.

(** DNS-1035 labels: [a-z0-9-] throughout, a letter first, a letter or digit
    last, 1 to 63 characters. *)
Definition label_char (c : ascii) : bool := is_lower c || is_digit c || Ascii.eqb c "-".
Definition alnum (c : ascii) : bool := is_lower c || is_digit c.
Definition last_char (s : string) : option ascii := last (chars s).
Definition is_dns1035 (s : string) : Prop :=
  Forall (fun c => label_char c = true) (chars s) ∧
  starts_with_letter s = true ∧
  (∃ c, last_char s = Some c ∧ alnum c = true) ∧
  String.length s <= MaxLen.

Lemma service_byte_label c : label_char (service_byte c) = true.
Proof.
  unfold service_byte, label_char.
  destruct (is_lower c) eqn:?, (is_digit c) eqn:?, (Ascii.eqb c "-") eqn:?; cbn;
    try reflexivity; rewrite ?Heqb, ?Heqb0, ?Heqb1; reflexivity.
Qed.

Lemma service_byte_alnum c : alnum c = true → service_byte c = c.
Proof. unfold alnum, service_byte. destruct (is_lower c), (is_digit c); cbn; done. Qed.

Lemma lower_byte_alnum c : alnum c = true → lower_byte c = c.
Proof.
  unfold alnum, lower_byte. destruct c as [[] [] [] [] [] [] [] []]; vm_compute; done.
Qed.

Lemma hex_digit_alnum c : Sha256.is_hex_digit c = true → alnum c = true.
Proof. destruct c as [[] [] [] [] [] [] [] []]; vm_compute; done. Qed.

Lemma alnum_label c : alnum c = true → label_char c = true.
Proof. unfold alnum, label_char. destruct (is_lower c), (is_digit c); done. Qed.

Lemma hash_chars s :
  Forall (fun c => alnum c = true) (chars (str_take hashLen (Sha256.sum_hex s))).
Proof.
  rewrite chars_take. apply Forall_take.
  eapply Forall_impl; [apply Sha256.sum_hex_digits|]. intros. by apply hex_digit_alnum.
Qed.

Lemma last_char_app s t : t ≠ EmptyString → last_char (s +:+ t) = last_char t.
Proof.
  intros Ht. unfold last_char. rewrite chars_app, last_app.
  destruct (last (chars t)) eqn:E; [done|]. apply last_None in E. by destruct t.
Qed.

Lemma trimmed_starts s n :
  starts_with_letter s = true → starts_with_letter (TrimRight is_dash_or_dot (str_take (S n) s)) = true.
Proof.
  destruct s as [|c s]; [done|]. cbn. intros Hc.
  destruct (TrimRight is_dash_or_dot (str_take n s)); cbn; [|done].
  assert (is_dash_or_dot c = false) as ->; [|done].
  revert Hc. destruct c as [[] [] [] [] [] [] [] []]; vm_compute; done.
Qed.

Lemma starts_app s t : starts_with_letter s = true → starts_with_letter (s +:+ t) = true.
Proof. by destruct s. Qed.

Lemma Bounded_dns1035 s c :
  Forall (fun c => label_char c = true) (chars s) → starts_with_letter s = true →
  last_char s = Some c → alnum c = true → is_dns1035 (Bounded s).
Proof.
  intros Hall Hstart Hlast Hc. split_and!; [| | |apply Bounded_length]; unfold Bounded;
    destruct (Nat.leb_spec (String.length s) MaxLen); try done.
  - rewrite !chars_app, !Forall_app. split_and!.
    + destruct (TrimRight_prefix is_dash_or_dot (str_take (MaxLen - hashLen - 1) s)) as [k Hk].
      assert (Forall (fun c => label_char c = true) (chars (str_take (MaxLen - hashLen - 1) s))) as H'.
      { rewrite chars_take. by apply Forall_take. }
      rewrite Hk, Forall_app in H'. apply H'.
    + by repeat constructor.
    + eapply Forall_impl; [apply hash_chars|]. intros. by apply alnum_label.
  - apply starts_app, trimmed_starts, Hstart.
  - exists c. done.
  - set (h := str_take hashLen (Sha256.sum_hex s)).
    assert (String.length h = 8) as Hlen by apply hash_length.
    rewrite !last_char_app; [|by destruct h..].
    destruct (last (chars h)) as [d|] eqn:Hd.
    + exists d. split; [done|]. apply last_Some_elem_of in Hd.
      pose proof (hash_chars s) as Hh. rewrite Forall_forall in Hh. by apply Hh.
    + apply last_None in Hd. by destruct h.
Qed.

(** The DNS name of a run's service is a valid DNS-1035 label: at most 63
    characters, lower-case letters, digits and dashes, starting with a letter and
    ending with a letter or digit, whatever the run's name and for every service
    key that ends with a letter or digit. *)
Theorem ServiceName_dns1035 runName svc c :
  last_char svc = Some c → alnum c = true → is_dns1035 (ServiceName runName svc).
Proof.
  intros Hlast Hc. unfold ServiceName.
  set (name := str_map service_byte (str_map lower_byte (runName +:+ "-" +:+ svc))).
  assert (Hname : chars name = service_byte <$> (lower_byte <$> chars (runName +:+ "-" +:+ svc))).
  { unfold name. by rewrite !chars_map. }
  assert (svc ≠ EmptyString) by (by intros ->).
  assert (Hl : last_char name = Some c).
  { unfold last_char. rewrite Hname, !fmap_last.
    change (last (chars (runName +:+ "-" +:+ svc))) with (last_char (runName +:+ "-" +:+ svc)).
    rewrite !last_char_app, Hlast by (try done; by destruct svc). cbn.
    by rewrite lower_byte_alnum, service_byte_alnum. }
  assert (Hall : Forall (fun c => label_char c = true) (chars name)).
  { rewrite Hname. apply Forall_fmap, Forall_forall. intros. apply service_byte_label. }
  destruct (starts_with_letter name) eqn:Hs.
  - by eapply Bounded_dns1035.
  - apply Bounded_dns1035 with c; [|done| |done].
    + rewrite chars_app. apply Forall_app. split; [by repeat constructor|done].
    + rewrite last_char_app; [done|]. by intros ->.
Qed.

Lemma ServiceName_dns1035_witness : is_dns1035 (ServiceName "1st.Run_with-a-name-that-is-much-longer-than-sixty-three-characters" "db").
Proof. exact (ServiceName_dns1035 _ "db" "b" eq_refl eq_refl). Defined.

(** ** Decimal suffixes *)

Lemma digits_pretty_N_go x s : Forall (fun c => is_digit c = true) (chars s) →
  Forall (fun c => is_digit c = true) (chars (pretty_N_go x s)).
Proof.
  revert s. induction (N.lt_wf_0 x) as [x _ IH]; intros s Hs.
  assert (x = 0 ∨ 0 < x)%N as [->|?] by lia; [by rewrite pretty_N_go_0|].
  rewrite pretty_N_go_step by done. apply IH; [by apply N.div_lt|]. cbn. constructor; [|done].
  unfold pretty_N_char. by repeat case_match.
Qed.

Lemma digits_itoa z : (0 <= z)%Z → Forall (fun c => is_digit c = true) (chars (itoa z)).
Proof.
  destruct z as [|p|p]; intros Hz; [by repeat constructor| |lia].
  change (itoa (Z.pos p)) with (pretty (N.pos p)). unfold pretty, pretty_N. case_decide; [done|].
  by apply digits_pretty_N_go.
Qed.

Lemma chars_inj s t : chars s = chars t → s = t.
Proof.
  intros H. rewrite <- (String.string_of_list_ascii_of_string s), <- (String.string_of_list_ascii_of_string t).
  by rewrite H.
Qed.

Lemma split_last {A} (x : A) l l' d d' :
  x ∉ d → x ∉ d' → l ++ x :: d = l' ++ x :: d' → l = l' ∧ d = d'.
Proof.
  intros Hd Hd'. revert l'. induction l as [|a l IH]; intros [|b l'] H; cbn in H; simplify_eq; [done|..].
  - exfalso. set_solver.
  - exfalso. set_solver.
  - destruct (IH l') as [-> ->]; done.
Qed.

(** A name with a number after a dash gives back both. *)
Lemma dash_number_inj a b u v :
  (0 <= u)%Z → (0 <= v)%Z → a +:+ "-" +:+ itoa u = b +:+ "-" +:+ itoa v → a = b ∧ u = v.
Proof.
  intros Hu Hv H. apply (f_equal chars) in H. rewrite !chars_app in H. cbn [String.list_ascii_of_string app] in H.
  assert (Hd : ∀ z, (0 <= z)%Z → "-"%char ∉ chars (itoa z)).
  { intros z Hz Hin. pose proof (digits_itoa z Hz) as Hf. rewrite Forall_forall in Hf. by specialize (Hf _ Hin). }
  apply split_last in H as [H1 H2]; [|by apply Hd..].
  apply chars_inj in H1, H2. split; [done|]. by apply (inj pretty) in H2.
Qed.

End Names.
