(* ===== verification/GoLib.v ===== *)
(** * The parts of Go's standard library the messages are built with

    [fmt]'s %q ([strconv.Quote]), [time.Duration.String], RFC 3339 timestamps,
    [strings.ToLower], [strings.TrimSpace], [strings.Contains] and
    [strings.Split].  Strings are byte sequences;
    bytes above 127 are taken to be part of printable UTF-8 text, which these
    functions copy. *)
From Stdlib Require Export SpecFloat.
From S2P Require Import Prelude Names.

(** The double-quote character, which a string literal here cannot hold. *)
Definition dquote : ascii := ascii_of_nat 34.
Definition newline : ascii := ascii_of_nat 10.

Definition hex_nibble (n : nat) : ascii :=
  ascii_of_nat (if (n <? 10)%nat then 48 + n else 87 + n).

(** [strconv.Quote]: the escapes of one byte. *)
Definition quote_byte (c : ascii) : string :=
  let n := nat_of_ascii c in
  if Ascii.eqb c dquote then String "\" (String dquote "")
  else if (n =? 92)%nat then "\\"
  else if (n =? 7)%nat then "\a"
  else if (n =? 8)%nat then "\b"
  else if (n =? 12)%nat then "\f"
  else if (n =? 10)%nat then "\n"
  else if (n =? 13)%nat then "\r"
  else if (n =? 9)%nat then "\t"
  else if (n =? 11)%nat then "\v"
  else if (n <? 32)%nat || (n =? 127)%nat then
    "\x" +:+ String (hex_nibble (n / 16)) (String (hex_nibble (n mod 16)) "")
  else String c "".

Fixpoint quote_bytes (s : string) : string :=
  match s with
  | EmptyString => ""
  | String c s => quote_byte c +:+ quote_bytes s
  end.

Definition quote (s : string) : string :=
  String dquote (quote_bytes s +:+ String dquote "").

(** [strings.ToLower] on ASCII. *)
Definition ToLower (s : string) : string := Names.str_map Names.lower_byte s.

Definition is_space (c : ascii) : bool :=
  let n := nat_of_ascii c in (n =? 32)%nat || ((9 <=? n)%nat && (n <=? 13)%nat).

Fixpoint TrimLeft (cut : ascii → bool) (s : string) : string :=
  match s with
  | EmptyString => EmptyString
  | String c s' => if cut c then TrimLeft cut s' else s
  end.

(** [strings.TrimSpace] on ASCII. *)
Definition TrimSpace (s : string) : string := Names.TrimRight is_space (TrimLeft is_space s).
(** No space around it. *)
Definition trimmed (s : string) : bool := (TrimSpace s =? s)%string.

Fixpoint HasPrefix (s prefix : string) {struct prefix} : bool :=
  match prefix, s with
  | EmptyString, _ => true
  | String p prefix, String c s => Ascii.eqb p c && HasPrefix s prefix
  | String _ _, EmptyString => false
  end.

Fixpoint Contains (s sub : string) : bool :=
  HasPrefix s sub || match s with EmptyString => false | String _ s => Contains s sub end.

(** [strings.TrimPrefix]. *)
Definition TrimPrefix (s prefix : string) : string :=
  if HasPrefix s prefix then str_drop (String.length prefix) s else s.

(** [strings.Split] with a one-byte separator. *)
Fixpoint Split (sep : ascii) (s : string) : list string :=
  match s with
  | EmptyString => [""]
  | String c s =>
      if Ascii.eqb c sep then "" :: Split sep s
      else match Split sep s with [] => [String c ""] | x :: xs => String c x :: xs end
  end.

(** Zero-padded decimal ([%0*d] of a non-negative number). *)
Definition pad_zeros (w : nat) (s : string) : string :=
  Nat.iter (w - String.length s) (String "0") s.
Definition itoa_pad (w : nat) (z : Z) : string := pad_zeros w (itoa z).

(** ** [time.Duration.String] *)

(** [fmtFrac]: the fraction of [v/10^prec], trailing zeros left out, before
    what was already written ([buf]); the rest of [v]. *)
Fixpoint fmtFrac (prec : nat) (v : Z) (print : bool) (buf : string) : string * Z * bool :=
  match prec with
  | O => (buf, v, print)
  | S prec =>
      let digit := (v mod 10)%Z in
      let print := print || negb (digit =? 0)%Z in
      fmtFrac prec (v / 10)%Z print (if print then itoa digit +:+ buf else buf)
  end.

Definition fmt_frac (prec : nat) (v : Z) (buf : string) : string * Z :=
  let '(buf, v, print) := fmtFrac prec v false buf in
  ((if print then "." +:+ buf else buf), v).

Definition Duration_String (d : duration) : string :=
  let neg := (d <? 0)%Z in
  let u := Z.abs d in
  let body :=
    if (u <? second)%Z then
      if (u =? 0)%Z then "0s"
      else if (u <? 1000)%Z then itoa u +:+ "ns"
      else if (u <? millisecond)%Z then let '(b, v) := fmt_frac 3 u "µs" in itoa v +:+ b
      else let '(b, v) := fmt_frac 6 u "ms" in itoa v +:+ b
    else
      let '(b, s) := fmt_frac 9 u "s" in
      let b := itoa (s mod 60) +:+ b in
      let m := (s / 60)%Z in
      if (m =? 0)%Z then b
      else
        let b := itoa (m mod 60) +:+ "m" +:+ b in
        let h := (m / 60)%Z in
        if (h =? 0)%Z then b else itoa h +:+ "h" +:+ b in
  if neg then "-" +:+ body else body.

Example Duration_String_5m : Duration_String (5 * minute) = "5m0s".
Proof. vm_compute. reflexivity. Qed.
Example Duration_String_frac : Duration_String (3661500 * millisecond) = "1h1m1.5s".
Proof. vm_compute. reflexivity. Qed.

(** ** RFC 3339 *)

(** The civil date of a day number counted from 1970-01-01. *)
Definition civil_from_days (z : Z) : Z * Z * Z :=
  let z := (z + 719468)%Z in
  let era := (z / 146097)%Z in
  let doe := (z - era * 146097)%Z in
  let yoe := ((doe - doe / 1460 + doe / 36524 - doe / 146096) / 365)%Z in
  let doy := (doe - (365 * yoe + yoe / 4 - yoe / 100))%Z in
  let mp := ((5 * doy + 2) / 153)%Z in
  let d := (doy - (153 * mp + 2) / 5 + 1)%Z in
  let m := (if mp <? 10 then mp + 3 else mp - 9)%Z in
  ((yoe + era * 400 + if (m <=? 2)%Z then 1 else 0)%Z, m, d).

Definition date_part (t : time) : string :=
  let '(y, m, d) := civil_from_days (t / second / 86400) in
  itoa_pad 4 y +:+ "-" +:+ itoa_pad 2 m +:+ "-" +:+ itoa_pad 2 d.

Definition clock_part (t : time) : string :=
  let s := ((t / second) mod 86400)%Z in
  itoa_pad 2 (s / 3600) +:+ ":" +:+ itoa_pad 2 ((s / 60) mod 60) +:+ ":" +:+ itoa_pad 2 (s mod 60).

(** [t.UTC().Format(time.RFC3339)]. *)
Definition RFC3339 (t : time) : string := date_part t +:+ "T" +:+ clock_part t +:+ "Z".

(** [t.UTC().Format("2006-01-02T15:04:05.000Z07:00")]. *)
Definition RFC3339_ms (t : time) : string :=
  date_part t +:+ "T" +:+ clock_part t +:+ "." +:+ itoa_pad 3 ((t / millisecond) mod 1000) +:+ "Z".

Example RFC3339_leap : RFC3339 (1709210096 * second) = "2024-02-29T12:34:56Z".
Proof. vm_compute. reflexivity. Qed.
Example RFC3339_zero : RFC3339 zero_time = "0001-01-01T00:00:00Z".
Proof. vm_compute. reflexivity. Qed.

(** ** Parameters: regexp, floating point, and the order of a map *)

(** [regexp.MatchString]: an error when the pattern does not compile. *)
Class Regexp := MatchString : string → string → result string bool.

(** Whether [strconv.ParseFloat(s, 64)] succeeds. *)
Class FloatSyntax := ParseFloat_ok : string → bool.

(** The order in which [range] visits a map: some order of its entries. *)
Class MapOrder := {
  range : ∀ {A}, gmap string A → list (string * A);
  range_perm : ∀ {A} (m : gmap string A), range m ≡ₚ map_to_list m;
}.

(** The entries as stdpp lists them: one such order. *)
Definition list_order : MapOrder := {| range := fun A m => map_to_list m; range_perm := fun A m => reflexivity _ |}.

Lemma range_elem `{MapOrder} {A} (m : gmap string A) k v : (k, v) ∈ range m ↔ m !! k = Some v.
Proof. by rewrite range_perm, elem_of_map_to_list. Qed.

Lemma range_NoDup `{MapOrder} {A} (m : gmap string A) : NoDup (fst <$> range m).
Proof. rewrite range_perm. apply NoDup_fst_map_to_list. Qed.

(** ** path: slash-separated paths *)

Definition slash : ascii := "/".

Definition IsAbs (p : string) : bool := HasPrefix p "/".

(** [path.Clean]: the elements kept, innermost first. *)
Definition clean_step (rooted : bool) (kept : list string) (elem : string) : list string :=
  if (elem =? "")%string || (elem =? ".")%string then kept
  else if (elem =? "..")%string then
    match kept with
    | [] => if rooted then [] else [".."]
    | top :: rest => if (top =? "..")%string then ".." :: kept else rest
    end
  else elem :: kept.

Definition clean_elems (p : string) : list string := reverse (foldl (clean_step (IsAbs p)) [] (Split slash p)).

Definition Clean (p : string) : string :=
  if IsAbs p then "/" +:+ str_join "/" (clean_elems p)
  else match clean_elems p with [] => "." | elems => str_join "/" elems end.

(** [path.Join] of two elements. *)
Definition Join (a b : string) : string :=
  if (a =? "")%string then (if (b =? "")%string then "" else Clean b)
  else if (b =? "")%string then Clean a
  else Clean (a +:+ "/" +:+ b).

Example Clean_dots : Clean "/data/./a/../b//c/" = "/data/b/c".
Proof. vm_compute. reflexivity. Qed.
Example Clean_rel : Clean "a/../../b" = "../b".
Proof. vm_compute. reflexivity. Qed.
Example Clean_root : (Clean "/../..", Clean "", Clean "a/..") = ("/", ".", ".").
Proof. vm_compute. reflexivity. Qed.

(** ** float64

    IEEE 754 binary64 values and their comparisons ([SpecFloat]); parsing and
    printing them are the library's. *)
Class Floats := {
  ParseFloat : string → result string spec_float;
  fmt_float : spec_float → string;
}.

Definition float_lt (a b : spec_float) : bool := SFltb a b.
Definition float_le (a b : spec_float) : bool := SFleb a b.
Definition float_zero : spec_float := S754_zero false.

(** [float64(n)] and [a / b], round to nearest even. *)
Definition float_of_int (n : Z) : spec_float := binary_normalize 53 1024 n 0 false.
Definition float_div (a b : spec_float) : spec_float := SFdiv 53 1024 a b.
Definition float_add (a b : spec_float) : spec_float := SFadd 53 1024 a b.
Definition float_one : spec_float := float_of_int 1.

(** [int64(f)] of a finite float, [Duration.Seconds]. *)
Definition int64_of_float (f : spec_float) : Z :=
  match f with
  | S754_finite s m e =>
      let a := (if 0 <=? e then Zpos m * 2 ^ e else Z.quot (Zpos m) (2 ^ (- e)))%Z in if s then (- a)%Z else a
  | _ => 0%Z
  end.
Definition Duration_Seconds (d : duration) : spec_float :=
  float_add (float_of_int (Z.quot d second)) (float_div (float_of_int (Z.rem d second)) (float_of_int second)).

Example seconds_of_90500ms : int64_of_float (Duration_Seconds (90500 * millisecond)) = 90%Z.
Proof. vm_compute. reflexivity. Qed.

Example float_third : float_lt (float_div (float_of_int 1) (float_of_int 3)) float_one = true.
Proof. vm_compute. reflexivity. Qed.

(** ** Text without spaces around it *)

Lemma trimmed_eq s : trimmed s = true → TrimSpace s = s.
Proof. by intros ->%String.eqb_eq. Qed.

Lemma TrimLeft_length cut s : String.length (TrimLeft cut s) <= String.length s.
Proof. induction s as [|c s IH]; cbn; [done|]. destruct (cut c); cbn; lia. Qed.
Lemma TrimLeft_head cut c s : cut c = false → TrimLeft cut (String c s) = String c s.
Proof. cbn. by intros ->. Qed.

(** Trimmed: the first byte is no space, and trimming on the right does nothing. *)
Lemma trimmed_iff s : trimmed s = true ↔ match s with EmptyString => True | String c _ => is_space c = false end ∧ Names.TrimRight is_space s = s.
Proof.
  unfold trimmed, TrimSpace. rewrite String.eqb_eq. destruct s as [|c s]; [done|]. destruct (is_space c) eqn:Ec.
  - cbn [TrimLeft]. rewrite Ec. split; [|by intros [? _]]. intros E. exfalso.
    assert (Hl : String.length (Names.TrimRight is_space (TrimLeft is_space s)) <= String.length s) by (etrans; [apply Names.TrimRight_length|apply TrimLeft_length]).
    rewrite E in Hl. cbn in Hl. lia.
  - rewrite TrimLeft_head by done. naive_solver.
Qed.

Lemma TrimRight_app a b : b ≠ "" → Names.TrimRight is_space b = b → Names.TrimRight is_space (a +:+ b) = a +:+ b.
Proof.
  intros Hb Eb. induction a as [|c a IH]; [done|]. rewrite str_app_cons. cbn [Names.TrimRight]. rewrite IH. destruct (a +:+ b) eqn:E; [|done].
  destruct a; [by rewrite str_app_nil in E|done].
Qed.
Lemma trimmed_app a m b : a ≠ "" → trimmed a = true → Names.TrimRight is_space (m +:+ b) = m +:+ b → m +:+ b ≠ "" → trimmed (a +:+ (m +:+ b)) = true.
Proof.
  rewrite !trimmed_iff. intros Ha [Hh _] Er Hne. destruct a as [|c a]; [done|]. rewrite str_app_cons. split; [done|]. rewrite <- str_app_cons. by apply TrimRight_app.
Qed.
Lemma TrimLeft_head_kept cut s : match TrimLeft cut s with EmptyString => True | String c _ => cut c = false end.
Proof. induction s as [|c s IH]; cbn; [done|]. by destruct (cut c) eqn:E. Qed.
Lemma TrimRight_idem cut s : Names.TrimRight cut (Names.TrimRight cut s) = Names.TrimRight cut s.
Proof.
  induction s as [|c s IH]; [done|]. cbn [Names.TrimRight]. destruct (Names.TrimRight cut s) as [|d u] eqn:E.
  - destruct (cut c) eqn:Ec; [done|]. cbn. by rewrite Ec.
  - cbn [Names.TrimRight] in *. by rewrite IH.
Qed.
Lemma TrimSpace_trimmed s : trimmed (TrimSpace s) = true.
Proof.
  apply trimmed_iff. unfold TrimSpace. split; [|apply TrimRight_idem]. pose proof (TrimLeft_head_kept is_space s) as Hh. destruct (TrimLeft is_space s) as [|c u]; [done|].
  cbn [Names.TrimRight]. destruct (Names.TrimRight is_space u); [|done]. by rewrite Hh.
Qed.
