(* ===== verification/Keys.v ===== *)
(** * pkg/storage/keys.go: where a run's objects live in the bucket

    [RunKeys] is the prefix of everything a run stores; [ForRun] builds it,
    [ParseRunKeys] checks one received over the wire. *)
From S2P Require Import Prelude Names GoLib.

Module Keys.

Definition RunKeys : Set := string.

Definition ForRun (namespace uid : string) : RunKeys :=
  if str_is_empty namespace || str_is_empty uid then ""
  else "runs/" +:+ namespace +:+ "/" +:+ uid +:+ "/".

Definition Valid (k : RunKeys) : bool := negb (str_is_empty k).
Definition Prefix (k : RunKeys) : string := k.
Definition Result (k : RunKeys) : string := k +:+ "result.json".
Definition Logs (k : RunKeys) : string := k +:+ "logs/".
Definition LogChunk (k : RunKeys) (seq : Z) : string := Logs k +:+ itoa_pad 8 seq +:+ ".log".
Definition LogCursor (k : RunKeys) : string := k +:+ "logcursor.json".
Definition Stage (k : RunKeys) (name : string) : RunKeys := k +:+ "stages/" +:+ name +:+ "/".
Definition Artifacts (k : RunKeys) : string := k +:+ "artifacts/".
Definition Service (k : RunKeys) (replica : string) : RunKeys := Artifacts k +:+ "services/" +:+ replica +:+ "/".
Definition Worker (k : RunKeys) (i : Z) : RunKeys := Artifacts k +:+ "workers/" +:+ itoa i +:+ "/".
Definition Artifact (k : RunKeys) (relPath : string) : string := Artifacts k +:+ relPath.

(** [strings.Cut]. *)
Fixpoint Cut (s sep : string) : option (string * string) :=
  if HasPrefix s sep then Some ("", str_drop (String.length sep) s)
  else match s with
       | EmptyString => None
       | String c s => match Cut s sep with Some (a, b) => Some (String c a, b) | None => None end
       end.

(** [strconv.Atoi] on a decimal numeral without sign, underscore or overflow. *)
Definition digit_value (c : ascii) : option Z :=
  let n := nat_of_ascii c in
  if (48 <=? n)%nat && (n <=? 57)%nat then Some (Z.of_nat (n - 48)) else None.
Fixpoint atoi_loop (acc : Z) (s : string) : option Z :=
  match s with
  | EmptyString => Some acc
  | String c s => match digit_value c with Some d => atoi_loop (acc * 10 + d)%Z s | None => None end
  end.

(** [strconv.Atoi]: an optional sign, at least one digit, within [int64]. *)
Definition Atoi (s : string) : option Z :=
  let '(neg, digits) :=
    match s with
    | String c rest =>
        if Ascii.eqb c "-" then (true, rest) else if Ascii.eqb c "+" then (false, rest) else (false, s)
    | EmptyString => (false, s)
    end in
  if str_is_empty digits then None
  else match atoi_loop 0 digits with
       | None => None
       | Some z =>
           let z := if neg then (- z)%Z else z in
           if (int64_min <=? z)%Z && (z <=? int64_max)%Z then Some z else None
       end.

Definition slash : ascii := "/"%char.
Fixpoint count_byte (c : ascii) (s : string) : nat :=
  match s with EmptyString => 0 | String d s => (if Ascii.eqb c d then 1 else 0) + count_byte c s end.

Definition TrimSuffixSlash (s : string) : string :=
  let n := String.length s in
  if (str_drop (n - 1) s =? "/")%string then str_take (n - 1) s else s.
Definition HasSuffixSlash (s : string) : bool := (str_drop (String.length s - 1) s =? "/")%string.

(** The part of [ParseRunKeys] after the worker case. *)
Definition parse_base (prefix : string) : result string RunKeys :=
  match Split slash prefix with
  | [a; ns; uid; z] =>
      if (a =? "runs")%string && (z =? "")%string then
        if existsb (fun p => (p =? "")%string || (p =? ".")%string || (p =? "..")%string) [ns; uid] then
          Err ("storage prefix " +:+ quote prefix +:+ ": empty or relative segment")
        else Ok (ForRun ns uid)
      else Err ("storage prefix " +:+ quote prefix +:+ ": want runs/<namespace>/<uid>/")
  | _ => Err ("storage prefix " +:+ quote prefix +:+ ": want runs/<namespace>/<uid>/")
  end.

(** The recursion is on the part before "artifacts/workers/", which is shorter:
    [fuel] is the length of the prefix. *)
Fixpoint parse_run_keys (fuel : nat) (prefix : string) : result string RunKeys :=
  match Cut prefix "artifacts/workers/", fuel with
  | Some (base, idx), S fuel =>
      match parse_run_keys fuel base with
      | Err e => Err e
      | Ok run =>
          let bad := Err ("storage prefix " +:+ quote prefix +:+ ": bad worker index") in
          match Atoi (TrimSuffixSlash idx) with
          | None => bad
          | Some i =>
              if (i <? 0)%Z || negb (HasSuffixSlash idx) || negb (count_byte slash idx =? 1)%nat then bad
              else Ok (Worker run i)
          end
      end
  | _, _ => parse_base prefix
  end.

Definition ParseRunKeys (prefix : string) : result string RunKeys :=
  parse_run_keys (String.length prefix) prefix.

Example ParseRunKeys_worker :
  ParseRunKeys (Worker (ForRun "team-a" "0f3e") 12) = Ok (Worker (ForRun "team-a" "0f3e") 12).
Proof. vm_compute. reflexivity. Qed.
Example ParseRunKeys_escape : is_ok (ParseRunKeys "runs/../x/") = false.
Proof. vm_compute. reflexivity. Qed.

(** ** Segments *)

(** A path segment: not empty, no slash, not relative. *)
Fixpoint no_slash (s : string) : bool :=
  match s with EmptyString => true | String c s => negb (Ascii.eqb c slash) && no_slash s end.
(** [path.Ext], [filepath.Ext]: from the last dot of its last element. *)
Fixpoint ext_from (s : string) : option string :=
  match s with
  | EmptyString => None
  | String c rest =>
      match ext_from rest with
      | Some e => Some e
      | None => if Ascii.eqb c "." && no_slash rest then Some s else None
      end
  end.
Definition Ext (path : string) : string := default "" (ext_from path).
Example Ext_cases : (Ext "a.b/c.XML", Ext "a.b/c", Ext ".profile", Ext "x.tar.gz", Ext "r/junit.xml") = (".XML", "", ".profile", ".gz", ".xml").
Proof. vm_compute. reflexivity. Qed.
Definition segment (s : string) : bool :=
  no_slash s && negb (s =? "")%string && negb (s =? ".")%string && negb (s =? "..")%string.

Lemma segment_no_slash s : segment s = true → no_slash s = true.
Proof. unfold segment. intros. by breflect. Qed.
Lemma segment_not_empty s : segment s = true → str_is_empty s = false.
Proof. unfold segment. destruct s; [done|]. done. Qed.

Lemma Split_segment s rest : no_slash s = true → Split slash (s +:+ "/" +:+ rest) = s :: Split slash rest.
Proof.
  induction s as [|c s IH]; [done|]. cbn [no_slash]. intros H. breflect.
  rewrite str_app_cons. cbn [Split]. destruct (Ascii.eqb c slash); [done|]. by rewrite IH.
Qed.

(** Splitting at the first slash is unambiguous. *)
Lemma app_slash_inj a b x y :
  no_slash a = true → no_slash b = true → a +:+ "/" +:+ x = b +:+ "/" +:+ y → a = b ∧ x = y.
Proof.
  revert b. induction a as [|c a IH]; intros [|d b]; cbn [no_slash]; rewrite ?str_app_nil, ?str_app_cons; intros Ha Hb H.
  - injection H as H. exact (conj eq_refl H).
  - injection H as <- _. by cbn in Hb.
  - injection H as -> _. by cbn in Ha.
  - injection H as -> H. breflect. by destruct (IH b) as [-> ->].
Qed.

Lemma no_slash_app a b : no_slash (a +:+ b) = no_slash a && no_slash b.
Proof. induction a as [|c a IH]; [done|]. rewrite str_app_cons. cbn [no_slash]. by rewrite IH, andb_assoc. Qed.

Lemma no_slash_digit x : no_slash (String (pretty_N_char x) "") = true.
Proof. cbn. unfold pretty_N_char. by repeat case_match. Qed.

Lemma no_slash_pretty_N_go x s : no_slash s = true → no_slash (pretty_N_go x s) = true.
Proof.
  revert s. induction (N.lt_wf_0 x) as [x _ IH]; intros s Hs.
  assert (x = 0 ∨ 0 < x)%N as [->|?] by lia; [by rewrite pretty_N_go_0|].
  rewrite pretty_N_go_step by done. apply IH; [by apply N.div_lt|].
  pose proof (no_slash_digit (x mod 10)) as H'. cbn [no_slash] in *. rewrite Hs. by rewrite andb_true_r in *.
Qed.

Lemma no_slash_pretty_N (x : N) : no_slash (pretty x) = true.
Proof. unfold pretty, pretty_N. case_decide; [done|]. by apply no_slash_pretty_N_go. Qed.

(** A decimal numeral reads back as its number. *)
Lemma digit_value_char x : (x < 10)%N → digit_value (pretty_N_char x) = Some (Z.of_N x).
Proof.
  intros Hx. assert (x ∈ (N.of_nat <$> seq 0 10)) as Hin.
  { apply list_elem_of_fmap. exists (N.to_nat x). split; [lia|]. apply elem_of_seq. lia. }
  revert Hin. cbn. rewrite !elem_of_cons, elem_of_nil. intros Hin. destruct_or!; subst; [reflexivity..|done].
Qed.

Lemma atoi_pretty_N_go x s : atoi_loop 0 (pretty_N_go x s) = atoi_loop (Z.of_N x) s.
Proof.
  revert s. induction (N.lt_wf_0 x) as [x _ IH]; intros s.
  assert (x = 0 ∨ 0 < x)%N as [->|?] by lia; [by rewrite pretty_N_go_0|].
  rewrite pretty_N_go_step by done. rewrite IH by (by apply N.div_lt). cbn [atoi_loop].
  rewrite digit_value_char by (by apply N.mod_lt). f_equal. pose proof (N.div_mod x 10). lia.
Qed.

Lemma atoi_itoa z : (0 <= z)%Z → atoi_loop 0 (itoa z) = Some z.
Proof.
  destruct z as [|p|p]; intros Hz; [done| |lia]. change (itoa (Z.pos p)) with (pretty (N.pos p)). unfold pretty, pretty_N.
  case_decide; [done|]. by rewrite atoi_pretty_N_go.
Qed.

Lemma itoa_pad_inj w a b : (0 <= a)%Z → (0 <= b)%Z → itoa_pad w a = itoa_pad w b → a = b.
Proof.
  intros Ha Hb Hp. assert (Hz : ∀ n s, atoi_loop 0 (Nat.iter n (String "0") s) = atoi_loop 0 s) by (induction n as [|n IH]; intros s; [done|apply IH]).
  apply (f_equal (atoi_loop 0)) in Hp. unfold itoa_pad, pad_zeros in Hp. rewrite !Hz, !atoi_itoa in Hp by done. by injection Hp.
Qed.

(** A number has no slash. *)
Lemma no_slash_itoa z : no_slash (itoa z) = true.
Proof.
  destruct z as [|p|p]; [done| |].
  - change (itoa (Z.pos p)) with (pretty (N.pos p)). apply no_slash_pretty_N.
  - change (itoa (Z.neg p)) with ("-" +:+ pretty (N.pos p)). rewrite no_slash_app. by rewrite no_slash_pretty_N.
Qed.

Lemma ForRun_segments ns uid :
  segment ns = true → segment uid = true → ForRun ns uid = "runs" +:+ "/" +:+ ns +:+ "/" +:+ uid +:+ "/" +:+ "".
Proof. intros H1%segment_not_empty H2%segment_not_empty. unfold ForRun. by rewrite H1, H2. Qed.

Lemma HasPrefix_app s p t : HasPrefix s p = true → HasPrefix (s +:+ t) p = true.
Proof.
  revert s. induction p as [|c p IH]; intros s; [done|]. destruct s as [|d s]; [done|].
  rewrite str_app_cons. cbn [HasPrefix]. intros [-> H]%andb_prop. by apply IH.
Qed.

Lemma HasPrefix_self p s : HasPrefix (p +:+ s) p = true.
Proof. induction p as [|c p IH]; [by rewrite str_app_nil|]. rewrite str_app_cons. cbn [HasPrefix]. by rewrite Ascii.eqb_refl, IH. Qed.
Lemma HasPrefix_refl p : HasPrefix p p = true.
Proof. induction p as [|c p IH]; [done|]. cbn [HasPrefix]. by rewrite Ascii.eqb_refl, IH. Qed.
Lemma HasPrefix_drop s p : HasPrefix s p = true → s = p +:+ str_drop (String.length p) s.
Proof.
  revert s. induction p as [|c p IH]; intros s; [done|]. destruct s as [|d s]; [done|]. cbn [HasPrefix].
  intros [Hc Hp]%andb_prop. apply Ascii.eqb_eq in Hc as ->. cbn [String.length str_drop].
  rewrite str_app_cons. f_equal. by apply IH.
Qed.

Lemma Cut_spec s sep a b : Cut s sep = Some (a, b) → s = a +:+ sep +:+ b.
Proof.
  revert a. induction s as [|c s IH]; intros a; cbn [Cut].
  - destruct (HasPrefix "" sep) eqn:E; [|done]. intros [= <- <-]. by apply HasPrefix_drop in E.
  - destruct (HasPrefix (String c s) sep) eqn:E.
    + intros [= <- <-]. by apply HasPrefix_drop in E.
    + destruct (Cut s sep) as [[a' b']|]; [|done]. intros [= <- <-]. rewrite str_app_cons. f_equal. by apply IH.
Qed.

(** Cutting at the first of a byte. *)
Lemma Cut_char a c b : Forall (fun x => x ≠ c) (Names.chars a) → Cut (a +:+ String c b) (String c "") = Some (a, b).
Proof.
  induction a as [|x a IH]; intros Hf.
  - rewrite str_app_nil. cbn. by rewrite Ascii.eqb_refl.
  - cbn in Hf. apply Forall_cons in Hf as [Hx Hf]. rewrite str_app_cons. cbn [Cut HasPrefix].
    destruct (Ascii.eqb_spec c x) as [->|_]; [done|]. by rewrite (IH Hf).
Qed.

(** What precedes the first separator does not contain it. *)
Lemma Cut_first s sep a b : sep ≠ "" → Cut s sep = Some (a, b) → Cut a sep = None.
Proof.
  intros Hsep. revert a. induction s as [|c s IH]; intros a; cbn [Cut].
  - destruct (HasPrefix "" sep) eqn:E; [|done]. by destruct sep.
  - destruct (HasPrefix (String c s) sep) eqn:E.
    + intros [= <- <-]. destruct sep; [done|]. done.
    + destruct (Cut s sep) as [[a' b']|] eqn:Ec; [|done]. intros [= <- <-].
      cbn [Cut]. rewrite IH; [|done]. destruct (HasPrefix (String c a') sep) eqn:E'; [|done].
      apply Cut_spec in Ec as ->. apply (HasPrefix_app _ _ (sep +:+ b')) in E'.
      rewrite str_app_cons in E'. congruence.
Qed.

Lemma parse_base_sound p k :
  parse_base p = Ok k → ∃ ns uid, segment ns = true ∧ segment uid = true ∧ k = ForRun ns uid ∧ p = k.
Proof.
  unfold parse_base.
  assert (Hsplit : ∀ s, no_slash s = true → Split slash s = [s]).
  { induction s as [|c s IH]; [done|]. cbn. intros H. breflect. destruct (Ascii.eqb c slash); [done|]. by rewrite IH. }
  assert (Hjoin : ∀ s x xs, Split slash s = x :: xs →
    no_slash x = true ∧ (xs = [] ∧ s = x ∨ ∃ r, s = x +:+ "/" +:+ r ∧ Split slash r = xs ∧ xs ≠ [])).
  { induction s as [|c s IH]; intros x xs; cbn.
    - intros [= <- <-]. naive_solver.
    - destruct (Ascii.eqb_spec c slash) as [->|Hc].
      + intros [= <- <-]. split; [done|]. right. exists s. split_and!; [done..|].
        destruct s; cbn; [done|]. repeat case_match; done.
      + destruct (Split slash s) as [|y ys] eqn:Es; [by destruct s; cbn in Es; repeat case_match|].
        intros [= <- <-]. destruct (IH y ys eq_refl) as [Hy H]. split.
        { cbn. apply Ascii.eqb_neq in Hc. by rewrite Hc. }
        destruct H as [[-> ->]|(r & -> & Hr & Hne)]; [by left|]. right. exists r. by rewrite str_app_cons. }
  destruct (Split slash p) as [|a [|ns [|uid [|z [|]]]]] eqn:E; try done.
  destruct ((a =? "runs")%string && (z =? "")%string) eqn:Ea; [|done]. breflect. subst a z.
  destruct (existsb _ _) eqn:Ex; [done|]. intros [= <-].
  apply Hjoin in E as [_ [[? _]|(r1 & -> & E & _)]]; [done|].
  apply Hjoin in E as [Hns [[? _]|(r2 & -> & E & _)]]; [done|].
  apply Hjoin in E as [Huid [[? _]|(r3 & -> & E & _)]]; [done|].
  apply Hjoin in E as [_ [[_ ->]|(r4 & -> & E & Hne)]]; [|done].
  cbn in Ex. rewrite !orb_false_iff in Ex. destruct_and! Ex.
  exists ns, uid. assert (segment ns = true ∧ segment uid = true) as [Hs1 Hs2].
  { unfold segment. rewrite Hns, Huid. breflect.
    split; apply andb_true_intro; split; repeat (apply andb_true_intro; split); try done; by apply negb_true_iff, String.eqb_neq. }
  split_and!; [done..|]. by rewrite ForRun_segments.
Qed.

Lemma relative_false s : segment s = true → ((s =? "") || (s =? ".") || (s =? ".."))%string = false.
Proof.
  unfold segment. destruct (s =? "")%string, (s =? ".")%string, (s =? "..")%string; rewrite ?andb_false_r; done.
Qed.

Lemma parse_base_ForRun ns uid :
  segment ns = true → segment uid = true → parse_base (ForRun ns uid) = Ok (ForRun ns uid).
Proof.
  intros H1 H2. rewrite (ForRun_segments ns uid) at 1 by done.
  unfold parse_base. rewrite (Split_segment "runs") by done. rewrite !Split_segment by by apply segment_no_slash.
  cbn [Split]. unfold existsb. cbn -[String.eqb]. rewrite !relative_false by done. done.
Qed.

(** The prefix of a run parses back, unless its UID spells the worker subtree. *)
Lemma ParseRunKeys_ForRun ns uid :
  segment ns = true → segment uid = true → Cut (ForRun ns uid) "artifacts/workers/" = None →
  ParseRunKeys (ForRun ns uid) = Ok (ForRun ns uid).
Proof.
  intros H1 H2 Hc. unfold ParseRunKeys. destruct (String.length _); cbn [parse_run_keys]; rewrite Hc;
    by apply parse_base_ForRun.
Qed.

(** ** Properties *)

(** No two runs share an object: a key under one run's prefix is a key under
    another's only when namespace and UID are the same. *)
Theorem ForRun_disjoint ns1 uid1 ns2 uid2 rest1 rest2 :
  segment ns1 = true → segment uid1 = true → segment ns2 = true → segment uid2 = true →
  Prefix (ForRun ns1 uid1) +:+ rest1 = Prefix (ForRun ns2 uid2) +:+ rest2 →
  ns1 = ns2 ∧ uid1 = uid2 ∧ rest1 = rest2.
Proof.
  intros Hn1 Hu1 Hn2 Hu2. unfold Prefix. rewrite !ForRun_segments by done. rewrite !str_app_assoc.
  intros H. apply (app_slash_inj "runs" "runs") in H as [_ H]; [|done..].
  apply app_slash_inj in H as [-> H]; [|by apply segment_no_slash..].
  apply app_slash_inj in H as [-> H]; [|by apply segment_no_slash..]. exact (conj eq_refl (conj eq_refl H)).
Qed.

Lemma ForRun_disjoint_witness :
  segment "ns" = true ∧ segment "u1" = true ∧
  Prefix (ForRun "ns" "u1") +:+ "result.json" = Prefix (ForRun "ns" "u1") +:+ "result.json" ∧
  ("ns" = "ns" ∧ "u1" = "u1" ∧ "result.json" = "result.json").
Proof.
  split; [reflexivity|split; [reflexivity|split; [reflexivity|]]].
  exact (ForRun_disjoint "ns" "u1" "ns" "u1" "result.json" "result.json" eq_refl eq_refl eq_refl eq_refl eq_refl).
Defined.

(** A prefix received over the wire is accepted only as the prefix of some run
    (the very text [ForRun] builds), or of one of its parallel workers: nothing
    outside a run's own subtree can be written through it. *)
Theorem ParseRunKeys_sound p k :
  ParseRunKeys p = Ok k →
  ∃ ns uid, segment ns = true ∧ segment uid = true ∧
    (k = ForRun ns uid ∧ p = k ∨
     ∃ i idx, (0 <= i)%Z ∧ k = Worker (ForRun ns uid) i ∧
       p = ForRun ns uid +:+ "artifacts/workers/" +:+ idx).
Proof.
  unfold ParseRunKeys. destruct (Cut p "artifacts/workers/") as [[base idx]|] eqn:Ec.
  - destruct (String.length p) as [|fuel] eqn:El; cbn [parse_run_keys]; rewrite Ec.
    { destruct p; [|done]. by vm_compute in Ec. }
    pose proof (Cut_first p "artifacts/workers/" base idx ltac:(done) Ec) as Hnone.
    apply Cut_spec in Ec. assert (parse_run_keys fuel base = parse_base base) as ->.
    { destruct fuel; cbn [parse_run_keys]; by rewrite Hnone. }
    destruct (parse_base base) as [run|] eqn:Eb; [|done].
    apply parse_base_sound in Eb as (ns & uid & Hns & Huid & -> & ->).
    destruct (Atoi _) as [i|]; [|done]. destruct (i <? 0)%Z eqn:Ei; cbn [orb]; [done|].
    case_match; [done|]. intros [= <-]. breflect. exists ns, uid. split_and!; [done..|]. right. eauto.
  - destruct (String.length p); cbn [parse_run_keys]; rewrite Ec;
      intros (ns & uid & ? & ? & ? & ?)%parse_base_sound; exists ns, uid; auto.
Qed.

Lemma ParseRunKeys_sound_witness :
  ∃ ns uid, segment ns = true ∧ segment uid = true ∧
    ("runs/a/b/artifacts/workers/3/" = ForRun ns uid ∧ "runs/a/b/artifacts/workers/3/" = "runs/a/b/artifacts/workers/3/" ∨
     ∃ i idx, (0 <= i)%Z ∧ "runs/a/b/artifacts/workers/3/" = Worker (ForRun ns uid) i ∧
       "runs/a/b/artifacts/workers/3/" = ForRun ns uid +:+ "artifacts/workers/" +:+ idx).
Proof.
  exact (ParseRunKeys_sound "runs/a/b/artifacts/workers/3/" "runs/a/b/artifacts/workers/3/" ltac:(vm_compute; reflexivity)).
Defined.

End Keys.
