(* ===== verification/Paths.v ===== *)
(** * Lexical facts about slash-separated paths

    [Clean] and [Join] on rooted paths: a cleaned path is its proper segments; it
    cleans to itself; and when a path is below a directory.  Shared by the data
    mounts, the fetcher and the scraper. *)
From S2P Require Import Prelude GoLib Keys.

Module Paths.
Import Keys.

Definition proper (e : string) : Prop := segment e = true.

Lemma proper_iff e : proper e ↔ no_slash e = true ∧ e ≠ "" ∧ e ≠ "." ∧ e ≠ "..".
Proof.
  unfold proper, segment. rewrite !andb_true_iff, !negb_true_iff, !String.eqb_neq. naive_solver.
Qed.

(** The rooted path of some segments. *)
Definition rooted (es : list string) : string := "/" +:+ str_join "/" es.

Lemma Split_no_slash s : Forall (fun e => no_slash e = true) (Split slash s).
Proof.
  induction s as [|c s IH]; cbn [Split]; [by repeat constructor|].
  destruct (Ascii.eqb c slash) eqn:E; [by constructor|].
  destruct (Split slash s) as [|x xs]; [constructor; [by cbn; rewrite E|done]|].
  apply Forall_cons in IH as [Hx Hxs]. constructor; [by cbn; rewrite E|done].
Qed.

Lemma Split_single e : no_slash e = true → Split slash e = [e].
Proof.
  induction e as [|c e IH]; [done|]. cbn [no_slash Split]. intros H. breflect. destruct (Ascii.eqb c slash); [done|].
  by rewrite IH.
Qed.

Lemma Split_join es : Forall (fun e => no_slash e = true) es → es ≠ [] → Split slash (str_join "/" es) = es.
Proof.
  induction es as [|e es IH]; [done|]. intros [He Hes]%Forall_cons _. destruct es as [|e' es]; [by apply Split_single|].
  change (str_join "/" (e :: e' :: es)) with (e +:+ "/" +:+ str_join "/" (e' :: es)).
  rewrite Split_segment by done. by rewrite IH.
Qed.

Lemma clean_step_proper es kept :
  Forall (fun e => no_slash e = true) es → Forall proper kept → Forall proper (foldl (clean_step true) kept es).
Proof.
  revert kept. induction es as [|e es IH]; intros kept; [done|]. intros [He Hes]%Forall_cons Hk. cbn [foldl]. apply IH; [done|].
  unfold clean_step. destruct (String.eqb_spec e ""); [done|]. destruct (String.eqb_spec e "."); [done|]. cbn [orb].
  destruct (String.eqb_spec e "..").
  - destruct kept as [|top rest]; [done|]. apply Forall_cons in Hk as [Ht Hr].
    apply proper_iff in Ht as (_ & _ & _ & Ht). by destruct (String.eqb_spec top "..").
  - constructor; [by apply proper_iff|done].
Qed.

Lemma clean_steps_id r es kept : Forall proper es → foldl (clean_step r) kept es = reverse es ++ kept.
Proof.
  revert kept. induction es as [|e es IH]; intros kept; [done|]. intros [(_ & H1 & H2 & H3)%proper_iff Hes]%Forall_cons.
  cbn [foldl]. rewrite IH, reverse_cons, <- app_assoc by done. f_equal. unfold clean_step.
  by rewrite (proj2 (String.eqb_neq e "") H1), (proj2 (String.eqb_neq e ".") H2), (proj2 (String.eqb_neq e "..") H3).
Qed.

Lemma proper_no_slash es : Forall proper es → Forall (fun e => no_slash e = true) es.
Proof. intros H. eapply Forall_impl; [exact H|]. by intros e [? _]%proper_iff. Qed.

Lemma clean_elems_proper p : IsAbs p = true → Forall proper (clean_elems p).
Proof.
  unfold clean_elems. intros ->. apply Forall_reverse, clean_step_proper; [apply Split_no_slash|constructor].
Qed.

Lemma Split_rooted es : Forall proper es → Split slash (rooted es) = "" :: match es with [] => [""] | _ => es end.
Proof.
  intros Hes. unfold rooted. change ("/" +:+ str_join "/" es) with ("" +:+ "/" +:+ str_join "/" es).
  rewrite Split_segment by done. f_equal. destruct es; [done|]. apply Split_join; [by apply proper_no_slash|done].
Qed.

Lemma clean_elems_rooted es : Forall proper es → clean_elems (rooted es) = es.
Proof.
  intros Hes. unfold clean_elems. rewrite Split_rooted by done. change (IsAbs (rooted es)) with true.
  destruct es as [|e es]; [done|].
  change (foldl (clean_step true) [] ("" :: e :: es)) with (foldl (clean_step true) [] (e :: es)).
  rewrite clean_steps_id, app_nil_r by done. apply reverse_involutive.
Qed.

Lemma Clean_rooted p : IsAbs p = true → Clean p = rooted (clean_elems p).
Proof. unfold Clean. by intros ->. Qed.

Lemma Clean_idem p : IsAbs p = true → Clean (Clean p) = Clean p.
Proof.
  intros Hp. rewrite (Clean_rooted p Hp). rewrite Clean_rooted by done.
  by rewrite clean_elems_rooted by (by apply clean_elems_proper).
Qed.

Lemma Split_not_nil s : Split slash s ≠ [].
Proof. destruct s as [|c s]; [done|]. cbn. repeat case_match; done. Qed.

Lemma Split_app a b : Split slash (a +:+ "/" +:+ b) = Split slash a ++ Split slash b.
Proof.
  induction a as [|c a IH]; [by rewrite str_app_nil|]. rewrite str_app_cons. cbn [Split]. rewrite IH.
  destruct (Ascii.eqb c slash); [reflexivity|]. pose proof (Split_not_nil a). by destruct (Split slash a).
Qed.

(** The elements of a joined path: the second's, walked from the first's. *)
Lemma clean_elems_app a b :
  IsAbs a = true → clean_elems (a +:+ "/" +:+ b) = reverse (foldl (clean_step true) (reverse (clean_elems a)) (Split slash b)).
Proof.
  intros Ha. unfold clean_elems. rewrite reverse_involutive.
  assert (IsAbs (a +:+ "/" +:+ b) = true) as -> by (by apply HasPrefix_app). rewrite Ha. f_equal.
  rewrite <- foldl_app. f_equal.
  apply Split_app.
Qed.

(** ** filepath.Rel *)

Fixpoint strip_common (a b : list string) : list string * list string :=
  match a, b with
  | x :: a', y :: b' => if (x =? y)%string then strip_common a' b' else (a, b)
  | _, _ => (a, b)
  end.

Definition Rel (base targ : string) : result string string :=
  if negb (Bool.eqb (IsAbs base) (IsAbs targ)) then Err ("Rel: can't make " +:+ targ +:+ " relative to " +:+ base)
  else
    match strip_common (clean_elems base) (clean_elems targ) with
    | ([], []) => Ok "."
    | (b, t) =>
        if bool_decide (head b = Some "..") then Err ("Rel: can't make " +:+ targ +:+ " relative to " +:+ base)
        else Ok (str_join "/" (((fun _ => "..") <$> b) ++ t))
    end.

Example Rel_below : Rel "/data" "/data/repo/a.js" = Ok "repo/a.js".
Proof. vm_compute. reflexivity. Qed.
Example Rel_beside : Rel "/data/repo" "/data-evil/x" = Ok "../../data-evil/x".
Proof. vm_compute. reflexivity. Qed.
Example Rel_mixed : Rel "a/b" "../c" = Ok "../../../c" ∧ is_ok (Rel "../a" "b") = false.
Proof. split; vm_compute; reflexivity. Qed.

Lemma strip_common_spec a b :
  ∃ c, a = c ++ (strip_common a b).1 ∧ b = c ++ (strip_common a b).2.
Proof.
  revert b. induction a as [|x a IH]; intros [|y b]; try (by exists []). cbn [strip_common].
  destruct (String.eqb_spec x y) as [->|]; [|by exists []]. destruct (IH b) as (c & Ha & Hb). exists (y :: c).
  cbn. by rewrite <- Ha, <- Hb.
Qed.

Lemma strip_common_prefix a es : strip_common a (a ++ es) = ([], es).
Proof. induction a as [|x a IH]; [by destruct es|]. cbn. by rewrite String.eqb_refl. Qed.

(** Lexically at or below a directory. *)
Definition under (dir p : string) : bool :=
  IsAbs p && bool_decide (clean_elems dir `prefix_of` clean_elems p).

Lemma under_refl p : IsAbs p = true → under p p = true.
Proof. intros Hp. unfold under. rewrite Hp. by rewrite bool_decide_eq_true_2. Qed.

Lemma under_trans a b c : under a b = true → under b c = true → under a c = true.
Proof.
  unfold under. intros [Ha Hab]%andb_prop [Hb Hbc]%andb_prop. apply bool_decide_eq_true in Hab, Hbc.
  rewrite Hb, bool_decide_eq_true_2; [done|by etrans].
Qed.

Lemma clean_elems_Clean p : IsAbs p = true → clean_elems (Clean p) = clean_elems p.
Proof. intros Hp. rewrite (Clean_rooted p Hp). by rewrite clean_elems_rooted by (by apply clean_elems_proper). Qed.

Lemma IsAbs_Clean p : IsAbs p = true → IsAbs (Clean p) = true.
Proof. intros Hp. by rewrite (Clean_rooted p Hp). Qed.

Lemma under_Clean dir p : IsAbs p = true → under dir (Clean p) = under dir p.
Proof. intros Hp. unfold under. by rewrite IsAbs_Clean, clean_elems_Clean, Hp. Qed.
Lemma under_Clean_l dir p : IsAbs dir = true → under (Clean dir) p = under dir p.
Proof. intros Hp. unfold under. by rewrite clean_elems_Clean. Qed.

Lemma IsAbs_Join a b : IsAbs a = true → IsAbs (Join a b) = true.
Proof.
  intros Ha. unfold Join. assert ((a =? "")%string = false) as -> by (by destruct a).
  destruct (b =? "")%string; [by apply IsAbs_Clean|]. apply IsAbs_Clean. by apply HasPrefix_app.
Qed.

Lemma str_join_cons x ys : str_join "/" (x :: ys) = x ∨ ∃ s, str_join "/" (x :: ys) = x +:+ "/" +:+ s.
Proof. destruct ys as [|y ys]; [by left|right; by eexists]. Qed.

(** A target is below its base unless its relative path starts by going up. *)
Lemma Rel_cases base targ rel :
  IsAbs targ = true → Rel base targ = Ok rel → under base targ = true ∨ rel = ".." ∨ HasPrefix rel "../" = true.
Proof.
  intros Ht. unfold Rel. rewrite Ht. destruct (IsAbs base) eqn:Hb; [|done]. cbn [Bool.eqb negb].
  destruct (strip_common_spec (clean_elems base) (clean_elems targ)) as (c & Hc1 & Hc2).
  destruct (strip_common (clean_elems base) (clean_elems targ)) as [b t]. cbn [fst snd] in *.
  destruct b as [|x b].
  { intros _. left. unfold under. rewrite Ht. cbn [andb]. rewrite bool_decide_eq_true, Hc1, Hc2, app_nil_r. by apply prefix_app_r. }
  case_bool_decide; [done|]. intros Heq. right. assert (rel = str_join "/" (".." :: ((fun _ : string => "..") <$> b) ++ t)) as -> by (by injection Heq as <-).
  destruct (str_join_cons ".." (((fun _ : string => "..") <$> b) ++ t)) as [->|[s ->]]; [by left|right].
  by rewrite !str_app_cons, !str_app_nil.
Qed.

Lemma HasPrefix_shorter s p q : HasPrefix s (p +:+ q) = true → HasPrefix s p = true.
Proof.
  revert s. induction p as [|c p IH]; intros [|d s]; [done..|]. rewrite str_app_cons. cbn [HasPrefix].
  intros [Hc Hp]%andb_prop. by rewrite Hc, (IH _ Hp).
Qed.

Lemma Rel_under base targ rel :
  IsAbs targ = true → Rel base targ = Ok rel → rel = "." ∨ HasPrefix rel ".." = false → under base targ = true.
Proof.
  intros Ht Hr Hrel. destruct (Rel_cases _ _ _ Ht Hr) as [?|[->|Hup]]; [done|by destruct Hrel|exfalso].
  destruct Hrel as [->|Hrel]; [done|]. apply (HasPrefix_shorter _ ".." "/") in Hup. congruence.
Qed.

(** ** filepath.Dir *)

Definition Dir (p : string) : string :=
  match removelast (Split slash p) with [] => "." | es => Clean (str_join "/" es +:+ "/") end.

Example Dir_file : (Dir "/data/repo/a.js", Dir "/a", Dir "/", Dir "a") = ("/data/repo", "/", "/", ".").
Proof. vm_compute. reflexivity. Qed.

Lemma Dir_rooted es : Forall proper es → Dir (rooted es) = rooted (removelast es).
Proof.
  intros Hes. unfold Dir. rewrite Split_rooted by done. destruct es as [|e es]; [done|].
  assert (Hpre : Forall proper (removelast (e :: es))).
  { apply (Forall_app _ _ [List.last (e :: es) ""]). by rewrite <- (app_removelast_last (l := e :: es)). }
  change (removelast ("" :: e :: es)) with ("" :: removelast (e :: es)).
  set (pre := removelast (e :: es)) in *. cbn iota.
  assert (Hq : str_join "/" ("" :: pre) +:+ "/" = str_join "/" ("" :: pre) +:+ "/" +:+ "") by done.
  assert (Habs : IsAbs (str_join "/" ("" :: pre) +:+ "/") = true).
  { destruct pre as [|x xs]; [reflexivity|]. change (str_join "/" ("" :: x :: xs)) with ("" +:+ "/" +:+ str_join "/" (x :: xs)).
    rewrite str_app_nil. apply HasPrefix_app, HasPrefix_app. reflexivity. }
  rewrite (Clean_rooted _ Habs). f_equal. unfold clean_elems. rewrite Habs, Hq, Split_app, Split_join; [|constructor; [done|by apply proper_no_slash]|done].
  change (foldl (clean_step true) [] (("" :: pre) ++ Split slash "")) with (foldl (clean_step true) [] (pre ++ [""])).
  rewrite foldl_app, (clean_steps_id true pre) by done. rewrite app_nil_r. apply reverse_involutive.
Qed.

Lemma clean_elems_Dir p : IsAbs p = true → clean_elems (Dir (Clean p)) = removelast (clean_elems p) ∧ IsAbs (Dir (Clean p)) = true.
Proof.
  intros Hp. pose proof (clean_elems_proper p Hp) as Hes. rewrite (Clean_rooted p Hp), Dir_rooted by done. split; [|done].
  apply clean_elems_rooted. destruct (clean_elems p) as [|e es] eqn:E; [done|].
  apply (Forall_app _ _ [List.last (e :: es) ""]). by rewrite <- (app_removelast_last (l := e :: es)).
Qed.

(** The directory of a path below another is below it too, or on the way to it. *)
Lemma under_Dir dir p :
  IsAbs p = true → under dir (Clean p) = true → under dir (Dir (Clean p)) = true ∨ under (Dir (Clean p)) dir = true ∨ IsAbs dir = false.
Proof.
  intros Hp. rewrite under_Clean by done. destruct (clean_elems_Dir p Hp) as [He Ha]. unfold under. rewrite Hp, Ha, He. cbn [andb].
  rewrite !bool_decide_eq_true. intros [k Hk]. destruct (IsAbs dir); [|by right; right]. destruct k as [|x k] using rev_ind.
  - right. left. rewrite Hk, app_nil_r. cbn [andb]. rewrite bool_decide_eq_true.
    destruct (clean_elems dir) as [|e es]; [done|]. rewrite (app_removelast_last (l := e :: es) "") at 2 by done. by apply prefix_app_r.
  - left. rewrite Hk, app_assoc, removelast_last. by apply prefix_app_r.
Qed.

(** A named entry of a directory. *)
Lemma clean_elems_Join a name : IsAbs a = true → proper name → clean_elems (Join a name) = clean_elems a ++ [name].
Proof.
  intros Ha Hn. pose proof Hn as (Hs & H1 & H2 & H3)%proper_iff. unfold Join. assert ((a =? "")%string = false) as -> by (by destruct a).
  rewrite (proj2 (String.eqb_neq name "") H1), clean_elems_Clean, clean_elems_app, Split_single by (done || by apply HasPrefix_app).
  cbn [foldl]. unfold clean_step at 1.
  rewrite (proj2 (String.eqb_neq name "") H1), (proj2 (String.eqb_neq name ".") H2), (proj2 (String.eqb_neq name "..") H3). cbn [orb].
  change (reverse (name :: reverse (clean_elems a)) = clean_elems a ++ [name]). by rewrite reverse_cons, reverse_involutive.
Qed.

Lemma under_Join a name : IsAbs a = true → proper name → under a (Join a name) = true.
Proof.
  intros Ha Hn. unfold under. rewrite IsAbs_Join, clean_elems_Join by done. cbn [andb]. rewrite bool_decide_eq_true. by apply prefix_app_r.
Qed.

End Paths.
