(* ===== verification/Objects.v ===== *)
(** * The objects the compiler builds

    The parts of a Job, a pod, a headless Service and the request ConfigMap the
    compiler fills in, the wire types of pkg/executor the ConfigMap carries (their
    JSON text is not modelled: the ConfigMap holds the values), and the compiler's
    options. *)
From S2P Require Import Prelude Api Keys.

Module Objects.

(** types.NamespacedName *)
Record Key := mkKey { k_Namespace : string; k_Name : string }.
#[export] Instance Key_eq_dec : EqDecision Key.
Proof. solve_decision. Defined.
Definition run_key (run : TestRun) : Key := mkKey (run_ns run) (run_name run).

(** ** Pods *)

Record Container := mkPodContainer {
  co_Name : string;
  co_Image : string;
  co_Command : list string;
  co_Args : list string;
  co_Env : list EnvVar;
  co_EnvFrom : list EnvFromSource;
  co_WorkingDir : string;
  co_ImagePullPolicy : string;
  co_Resources : ResourceRequirements;
  co_SecurityContext : option SecurityContext;
  co_VolumeMounts : list VolumeMount;
  co_ReadinessProbe : option k8s_value;
}.
#[export] Instance Container_eq_dec : EqDecision Container.
Proof. solve_decision. Defined.

Record PodSpec := mkPodSpec {
  po_RestartPolicy : string;
  po_AutomountServiceAccountToken : option bool;
  po_TerminationGracePeriodSeconds : option Z;
  po_ServiceAccountName : string;
  po_NodeSelector : option strmap;
  po_Tolerations : option (list k8s_value);
  po_Affinity : option k8s_value;
  po_SecurityContext : option k8s_value;
  po_ImagePullSecrets : option (list k8s_value);
  po_InitContainers : list Container;
  po_Containers : list Container;
  po_Volumes : list Volume;
  po_Hostname : string;
  po_Subdomain : string;
}.
#[export] Instance PodSpec_eq_dec : EqDecision PodSpec.
Proof. solve_decision. Defined.

Record PodTemplate := mkPodTemplate { pt_Labels : strmap; pt_Annotations : strmap; pt_Spec : PodSpec }.
#[export] Instance PodTemplate_eq_dec : EqDecision PodTemplate.
Proof. solve_decision. Defined.

Record JobSpec := mkJobSpec {
  js_BackoffLimit : option Z;
  js_ActiveDeadlineSeconds : option Z;
  js_TTLSecondsAfterFinished : option Z;
  js_Template : PodTemplate;
}.
#[export] Instance JobSpec_eq_dec : EqDecision JobSpec.
Proof. solve_decision. Defined.

Record JobObject := mkJobObject {
  jo_Key : Key; jo_Labels : strmap; jo_OwnerReferences : list OwnerReference; jo_Spec : JobSpec }.
#[export] Instance JobObject_eq_dec : EqDecision JobObject.
Proof. solve_decision. Defined.

(** ** The request the wrapper reads (pkg/executor/types.go) *)

Record ExecutionRequest := mkRequest {
  er_RunID : string;
  er_StoragePrefix : string;
  er_TestRef : string;
  er_DataDir : string;
  er_WorkingDir : string;
  er_Command : list string;
  er_Args : list string;
  er_Env : strmap;
  er_Config : strmap;
  er_ArtifactPaths : list string;
  er_ArtifactCompress : string;
  er_TimeoutSeconds : Z;
  er_Verdict : VerdictSpec;
  er_Metrics : MetricsSpec;
  er_RetryCount : Z;
}.
#[export] Instance ExecutionRequest_eq_dec : EqDecision ExecutionRequest.
Proof. solve_decision. Defined.

(** pkg/executor/types.go: one case of a JUnit report. *)
Record TestCase := mkTestCase {
  k_Suite : string; k_Class : string; k_CaseName : string; k_Status : string; k_DurationMs : Z;
  k_Message : string; k_Details : string; k_File : string }.
#[export] Instance TestCase_eq_dec : EqDecision TestCase.
Proof. solve_decision. Defined.
Definition MaxTestCases : nat := 5000.

(** internal/compiler/testdata.go: what the content fetcher reads. *)
Record fetcherFile := mkFetcherFile { ff_Path : string; ff_Content : string; ff_Mode : option Z }.
#[export] Instance fetcherFile_eq_dec : EqDecision fetcherFile.
Proof. solve_decision. Defined.
Record emptyMount := mkEmptyMount { em_Name : string; em_Path : string }.
#[export] Instance emptyMount_eq_dec : EqDecision emptyMount.
Proof. solve_decision. Defined.
Record fetcherContent := mkFetcherContent {
  fx_Git : option GitContent; fx_Files : list fetcherFile; fx_Tarball : list Tarball; fx_EmptyMounts : list emptyMount }.
#[export] Instance fetcherContent_eq_dec : EqDecision fetcherContent.
Proof. solve_decision. Defined.

(** ** The other objects *)

Inductive ObjectBody :=
| RequestConfigMap (request : ExecutionRequest) (content : fetcherContent)
| HeadlessService (selector : strmap)
| ServicePod (annotations : strmap) (spec : PodSpec).
#[export] Instance ObjectBody_eq_dec : EqDecision ObjectBody.
Proof. solve_decision. Defined.

Record Object := mkObject {
  ob_Kind : string; ob_Key : Key; ob_Labels : strmap; ob_OwnerReferences : list OwnerReference; ob_Body : ObjectBody }.
#[export] Instance Object_eq_dec : EqDecision Object.
Proof. solve_decision. Defined.

Record ServiceReplica := mkReplica { sp_Service : string; sp_Index : Z; sp_Pod : Object }.
Record CompiledServices := mkCompiled { cp_Services : list Object; cp_Replicas : list ServiceReplica }.

(** ** Options *)

(** pkg/storage/config.go: [Config] without the static S3 credentials. *)
Record StorageConfig := mkStorage {
  sg_Type : string; sg_Bucket : string; sg_S3Endpoint : string; sg_S3UseSSL : bool; sg_S3Region : string; sg_GCSEndpoint : string }.
#[export] Instance StorageConfig_eq_dec : EqDecision StorageConfig.
Proof. solve_decision. Defined.

Record CompilerOptions := mkCompilerOptions {
  cp_ContentFetcherImage : string; cp_ImageRegistry : string; cp_Storage : StorageConfig; cp_StorageSecret : string }.
End Objects.
