(* ===== verification/Phases.v ===== *)
(** * internal/controller/phases.go: what a Job and its pod say about a run

    The cluster objects the reconciler reads (Job, Pod, container statuses) and
    the pure functions that turn them into a verdict: [InspectJob] classifies a
    Job, [AnalyzePod] finds infrastructure failures,
    [FallbackPhaseFromJobFailure] is the verdict of a run whose wrapper left
    none.  The readiness and failure tests of service replicas
    (internal/controller/services.go) are here too. *)
From S2P Require Import Prelude Api GoLib.

Module Phases.

Definition ReasonTestNotFound : string := "TestNotFound".
Definition ReasonInvalidConfig : string := "InvalidConfig".
Definition ReasonCompileError : string := "CompileError".
Definition ReasonOrphanJobMissing : string := "OrphanJobMissing".
Definition ReasonOOMKilled : string := "OOMKilled".
Definition ReasonImagePull : string := "ImagePullBackOff".
Definition ReasonContainerConfig : string := "CreateContainerConfigError".
Definition ReasonJobDeadline : string := "JobActiveDeadlineExceeded".
Definition ReasonContentFetchFailed : string := "ContentFetchFailed".
Definition ReasonResolveFailed : string := "ResolveFailed".
Definition ReasonPolicyDenied : string := "PolicyDenied".
Definition ReasonTestDataMissing : string := "TestDataMissing".
Definition ReasonVolumeSourceMissing : string := "VolumeSourceMissing".
Definition k8sReasonDeadlineExceeded : string := "DeadlineExceeded".
Definition ReasonAborted : string := "AbortedByConcurrency".
Definition ReasonAbortedByUser : string := "AbortedByUser".
Definition ReasonAbortedByParent : string := "AbortedByParent".
Definition ReasonMissingResult : string := "MissingResult".
Definition ReasonMalformedResult : string := "MalformedResult".
Definition ReasonUnschedulable : string := "Unschedulable".
Definition ReasonServiceNotReady : string := "ServiceNotReady".

(** internal/compiler: the labels and container names the reconciler looks for. *)
Definition ContainerWrapper : string := "wrapper".
Definition ContainerContentFetcher : string := "content-fetcher".

(** ** Cluster objects *)

Record JobCondition := mkJobCond { jc_Type : string; jc_Status : string; jc_Reason : string }.
Record Job := mkJob { j_Name : string; j_Namespace : string; j_Labels : strmap; j_Conditions : list JobCondition }.

Definition ConditionTrue : string := "True".
Definition ConditionFalse : string := "False".
Definition JobComplete : string := "Complete".
Definition JobFailed : string := "Failed".

Record Terminated := mkTerminated {
  tm_ExitCode : Z; tm_Reason : string; tm_Message : string; tm_StartedAt : time; tm_FinishedAt : time }.
Record Waiting := mkWaiting { wt_Reason : string; wt_Message : string }.

(** [corev1.ContainerState]: three pointers, at most one set. *)
Record ContainerState := mkState {
  cst_Waiting : option Waiting; cst_Running : option time; cst_Terminated : option Terminated }.
Record ContainerStatus := mkCStatus {
  cs_Name : string; cs_Image : string; cs_State : ContainerState; cs_LastTerminated : option Terminated }.

Record PodCondition := mkPodCond {
  pd_Type : string; pd_Status : string; pd_Reason : string; pd_Message : string; pd_LastTransition : time }.
Record Pod := mkPod {
  p_Name : string;
  p_Namespace : string;
  p_Labels : strmap;
  p_CreationTimestamp : time;
  p_Containers : list (string * string);
  p_Phase : string;
  p_PodIP : string;
  p_Conditions : list PodCondition;
  p_InitContainerStatuses : list ContainerStatus;
  p_ContainerStatuses : list ContainerStatus;
}.

(** ** Classification *)

Inductive JobConclusion := JobStillRunning | JobSucceeded | JobFailedConclusion.
#[export] Instance JobConclusion_eq_dec : EqDecision JobConclusion.
Proof. solve_decision. Defined.

Fixpoint inspect_conditions (cs : list JobCondition) : JobConclusion :=
  match cs with
  | [] => JobStillRunning
  | c :: cs =>
      if negb (jc_Status c =? ConditionTrue)%string then inspect_conditions cs
      else if (jc_Type c =? JobComplete)%string then JobSucceeded
      else if (jc_Type c =? JobFailed)%string then JobFailedConclusion
      else inspect_conditions cs
  end.

Definition InspectJob (job : option Job) : JobConclusion :=
  match job with None => JobStillRunning | Some j => inspect_conditions (j_Conditions j) end.

Record InfraFailure := mkInfra { if_Reason : string; if_Message : string }.
#[export] Instance InfraFailure_eq_dec : EqDecision InfraFailure.
Proof. solve_decision. Defined.
Definition noInfra : InfraFailure := mkInfra "" "".

Definition DefaultUnschedulableTimeout : duration := (5 * minute)%Z.

(** A [for] loop that returns at its first hit. *)
Fixpoint first_some {A B} (f : A → option B) (xs : list A) : option B :=
  match xs with
  | [] => None
  | x :: xs => match f x with Some b => Some b | None => first_some f xs end
  end.

Definition unschedulable (now : time) (unschedulableFor : duration) (c : PodCondition) : option InfraFailure :=
  if (pd_Type c =? "PodScheduled")%string && (pd_Status c =? ConditionFalse)%string
     && (pd_Reason c =? "Unschedulable")%string
     && (unschedulableFor <=? time_sub now (pd_LastTransition c))%Z then
    Some (mkInfra ReasonUnschedulable
            ("infra: pod unschedulable for " +:+ Duration_String unschedulableFor +:+ ": " +:+ pd_Message c))
  else None.

Definition waiting_failure (cs : ContainerStatus) : option InfraFailure :=
  match cst_Waiting (cs_State cs) with
  | None => None
  | Some w =>
      let r := wt_Reason w in
      if (r =? ReasonImagePull)%string || (r =? "ErrImagePull")%string then
        Some (mkInfra ReasonImagePull ("infra: " +:+ r +:+ " " +:+ cs_Image cs))
      else if (r =? ReasonContainerConfig)%string then
        Some (mkInfra ReasonContainerConfig
                ("infra: container " +:+ cs_Name cs +:+ " can't start: " +:+ wt_Message w))
      else None
  end.

Definition is_oom (t : option Terminated) : bool :=
  match t with Some t => (tm_Reason t =? ReasonOOMKilled)%string | None => false end.

Definition oom_failure (cs : ContainerStatus) : option InfraFailure :=
  if is_oom (cst_Terminated (cs_State cs)) || is_oom (cs_LastTerminated cs) then
    Some (mkInfra ReasonOOMKilled "OOMKilled — raise spec.container.resources")
  else None.

Definition fetch_failure (cs : ContainerStatus) : option InfraFailure :=
  match cst_Terminated (cs_State cs) with
  | None => None
  | Some t =>
      if (tm_ExitCode t =? 0)%Z then None
      else Some (mkInfra ReasonContentFetchFailed
                   (if str_is_empty (tm_Message t) then
                      "init container " +:+ quote (cs_Name cs) +:+ " exited with code " +:+ itoa (tm_ExitCode t)
                    else tm_Message t))
  end.

Definition AnalyzePod (pod : option Pod) (now : time) (unschedulableFor : duration) : InfraFailure :=
  match pod with
  | None => noInfra
  | Some pod =>
      match first_some (unschedulable now unschedulableFor) (p_Conditions pod) with
      | Some f => f
      | None =>
          let allStatuses := p_InitContainerStatuses pod ++ p_ContainerStatuses pod in
          match first_some waiting_failure allStatuses with
          | Some f => f
          | None =>
              match first_some oom_failure allStatuses with
              | Some f => f
              | None => default noInfra (first_some fetch_failure (p_InitContainerStatuses pod))
              end
          end
      end
  end.

Definition IsPodRunning (pod : option Pod) : bool :=
  match pod with Some p => (p_Phase p =? "Running")%string | None => false end.

Definition wrapperTerminated (pod : option Pod) : option Terminated :=
  match pod with
  | None => None
  | Some p =>
      match find_first (fun cs => cs_Name cs =? ContainerWrapper)%string (p_ContainerStatuses p) with
      | None => None
      | Some cs =>
          match cst_Terminated (cs_State cs) with Some t => Some t | None => cs_LastTerminated cs end
      end
  end.

Definition deadline_exceeded (c : JobCondition) : bool :=
  (jc_Status c =? ConditionTrue)%string && (jc_Type c =? JobFailed)%string
  && (jc_Reason c =? k8sReasonDeadlineExceeded)%string.

(** Phase, reason and message. *)
Definition FallbackPhaseFromJobFailure (job : option Job) (pod : option Pod) : Phase * string * string :=
  let message :=
    match wrapperTerminated pod with
    | None => "wrapper produced no result; container likely crashed or was SIGKILL'd"
    | Some term =>
        let m := "wrapper produced no result; container exited with code " +:+ itoa (tm_ExitCode term) in
        if negb (str_is_empty (tm_Reason term)) then m +:+ " (" +:+ tm_Reason term +:+ ")" else m
    end in
  let exceeded := match job with Some j => existsb deadline_exceeded (j_Conditions j) | None => false end in
  if exceeded then
    (PhaseError, ReasonJobDeadline,
     "Job exceeded activeDeadlineSeconds; wrapper should have flushed within its own timeout")
  else (PhaseError, ReasonMissingResult, message).

(** ** Service replicas (internal/controller/services.go) *)

Definition DefaultServiceTimeout : duration := (5 * minute)%Z.

Definition crash_looping (cs : ContainerStatus) : bool :=
  match cst_Waiting (cs_State cs) with Some w => (wt_Reason w =? "CrashLoopBackOff")%string | None => false end.

Definition serviceFailure (pod : Pod) (now : time) (unschedulableFor : duration) : string :=
  if (p_Phase pod =? "Failed")%string || (p_Phase pod =? "Succeeded")%string then
    "replica exited (pod " +:+ ToLower (p_Phase pod) +:+ ")"
  else
    let infra := AnalyzePod (Some pod) now unschedulableFor in
    if negb (str_is_empty (if_Reason infra)) then if_Message infra
    else if existsb crash_looping (p_ContainerStatuses pod) then "replica keeps crashing (CrashLoopBackOff)"
    else "".

Definition podReady (pod : Pod) : bool :=
  match find_first (fun c => pd_Type c =? "Ready")%string (p_Conditions pod) with
  | Some c => (pd_Status c =? ConditionTrue)%string
  | None => false
  end.

(** [test.Spec.Services[name]]: the zero service when there is none. *)
Definition serviceTimeout (services : gmap string ServiceSpec) (name : string) : duration :=
  match services !! name with
  | Some s => match sv_Timeout s with Some t => if (0 <? t)%Z then t else DefaultServiceTimeout | None => DefaultServiceTimeout end
  | None => DefaultServiceTimeout
  end.

Definition serviceLogs (services : gmap string ServiceSpec) (name : string) : bool :=
  match services !! name with Some s => sv_Logs s | None => false end.

(** ** Facts *)

Lemma first_some_spec {A B} (f : A → option B) xs b :
  first_some f xs = Some b → ∃ x, x ∈ xs ∧ f x = Some b.
Proof.
  induction xs as [|x xs IH]; cbn; [done|]. destruct (f x) eqn:E.
  - intros [= ->]. exists x. set_solver.
  - intros H. destruct (IH H) as (y & ? & ?). exists y. set_solver.
Qed.

Lemma first_some_None {A B} (f : A → option B) xs :
  first_some f xs = None ↔ Forall (fun x => f x = None) xs.
Proof.
  induction xs as [|x xs IH]; cbn; [done|]. rewrite Forall_cons, <- IH. destruct (f x); naive_solver.
Qed.

(** What makes a pod hopeless. *)
Definition pod_hopeless (pod : Pod) (now : time) (u : duration) : Prop :=
  (∃ c, c ∈ p_Conditions pod ∧ unschedulable now u c ≠ None) ∨
  (∃ cs, cs ∈ p_InitContainerStatuses pod ++ p_ContainerStatuses pod ∧
     (waiting_failure cs ≠ None ∨ oom_failure cs ≠ None)) ∨
  (∃ cs, cs ∈ p_InitContainerStatuses pod ∧ fetch_failure cs ≠ None).

Lemma unschedulable_reason now u c f : unschedulable now u c = Some f → if_Reason f = ReasonUnschedulable.
Proof. unfold unschedulable. case_match; naive_solver. Qed.
Lemma waiting_reason cs f :
  waiting_failure cs = Some f → if_Reason f = ReasonImagePull ∨ if_Reason f = ReasonContainerConfig.
Proof. unfold waiting_failure. repeat case_match; naive_solver. Qed.
Lemma oom_reason cs f : oom_failure cs = Some f → if_Reason f = ReasonOOMKilled.
Proof. unfold oom_failure. case_match; naive_solver. Qed.
Lemma fetch_reason cs f : fetch_failure cs = Some f → if_Reason f = ReasonContentFetchFailed.
Proof. unfold fetch_failure. repeat case_match; naive_solver. Qed.

Lemma hopeless_by {A B} (f : A → option B) xs :
  (∃ x, x ∈ xs ∧ f x ≠ None) ↔ first_some f xs ≠ None.
Proof.
  induction xs as [|x xs IH]; cbn; [set_solver|].
  setoid_rewrite elem_of_cons. destruct (f x) eqn:E; naive_solver.
Qed.

Lemma AnalyzePod_reason pod now u :
  if_Reason (AnalyzePod (Some pod) now u) ≠ "" ↔ pod_hopeless pod now u.
Proof.
  unfold AnalyzePod, pod_hopeless.
  assert (Hw : (∃ cs, cs ∈ p_InitContainerStatuses pod ++ p_ContainerStatuses pod ∧
     (waiting_failure cs ≠ None ∨ oom_failure cs ≠ None)) ↔
     first_some waiting_failure (p_InitContainerStatuses pod ++ p_ContainerStatuses pod) ≠ None ∨
     first_some oom_failure (p_InitContainerStatuses pod ++ p_ContainerStatuses pod) ≠ None).
  { rewrite <- !hopeless_by. naive_solver. }
  rewrite Hw, !hopeless_by.
  destruct (first_some (unschedulable now u) _) eqn:E1.
  { apply first_some_spec in E1 as (? & _ & ->%unschedulable_reason). naive_solver. }
  destruct (first_some waiting_failure _) eqn:E2.
  { apply first_some_spec in E2 as (? & _ & [->| ->]%waiting_reason); naive_solver. }
  destruct (first_some oom_failure _) eqn:E3.
  { apply first_some_spec in E3 as (? & _ & ->%oom_reason). naive_solver. }
  destruct (first_some fetch_failure _) eqn:E4; cbn.
  { apply first_some_spec in E4 as (? & _ & ->%fetch_reason). naive_solver. }
  naive_solver.
Qed.

End Phases.
