(* ===== verification/Stages.v ===== *)
(** * internal/controller/stages.go: the course of a leaf run

    A run's stages (queue, fetch, run, collect) derived from its pod and the
    wrapper's result, and closed when the run ends. *)
From S2P Require Import Prelude Api GoLib Phases.

Module Stages.
Import Phases.

Definition stageQueuedName : string := "Queued".
Definition stageCloneGit : string := "Clone git repository".
Definition stageFetchTar : string := "Fetch tarball".
Definition stageWriteFiles : string := "Write files".
Definition stageMountData : string := "Mount test data".
Definition LabelKubetestTool : string := "kubetest.io/tool".

Record stageInputs := mkInputs {
  in_queuedAt : option time;
  in_pod : option Pod;
  in_fetchName : string;
  in_tool : string;
  in_toolFinishedAt : option time;
  in_toolPhase : Phase;
}.

Definition fetchNameOf (run : TestRun) : string :=
  match unmarshal_spec (st_ResolvedSpec (r_Status run)) with
  | None => ""
  | Some spec =>
      let c := ts_Content spec in
      if bool_decide (is_Some (ct_Git c)) then stageCloneGit
      else if (0 <? length (ct_Tarball c))%nat then stageFetchTar
      else if (0 <? length (ct_Files c))%nat then stageWriteFiles
      else if (0 <? length (ct_TestData c))%nat then stageMountData
      else ""
  end.

Definition toolOf (pod : option Pod) : string :=
  match pod with
  | None => ""
  | Some p =>
      let t := label_of (p_Labels p) LabelKubetestTool in
      if negb (str_is_empty t) then t
      else match find_first (fun c => c.1 =? ContainerWrapper)%string (p_Containers p) with
           | Some c => c.2
           | None => ""
           end
  end.

Definition containerStatus (list : list ContainerStatus) (name : string) : option ContainerStatus :=
  find_first (fun cs => cs_Name cs =? name)%string list.

(** Start, end, exit code, message. *)
Definition startEnd (cs : option ContainerStatus) : option time * option time * Z * string :=
  match cs with
  | None => (None, None, 0%Z, "")
  | Some cs =>
      match cst_Running (cs_State cs) with
      | Some t => (Some t, None, 0%Z, "")
      | None =>
          match cst_Terminated (cs_State cs) with
          | Some t => (Some (tm_StartedAt t), Some (tm_FinishedAt t), tm_ExitCode t, tm_Message t)
          | None => (None, None, 0%Z, "")
          end
      end
  end.

Definition stage (kind : StageKind) (name : string) (start stop : option time) : Stage :=
  mkStage kind name
    (if bool_decide (is_Some stop) then PhasePassed
     else if bool_decide (is_Some start) then PhaseRunning else PhaseQueued)
    start stop "".

Definition with_sg_Phase (p : StepPhase) (s : Stage) : Stage :=
  mkStage (sg_Kind s) (sg_Name s) p (sg_StartedAt s) (sg_FinishedAt s) (sg_Message s).
Definition with_sg_Message (m : string) (s : Stage) : Stage :=
  mkStage (sg_Kind s) (sg_Name s) (sg_Phase s) (sg_StartedAt s) (sg_FinishedAt s) m.

(** [if x == nil { x = &now }] *)
Definition or_now (now : time) (t : option time) : option time := match t with None => Some now | Some _ => t end.

Definition deriveStages (i : stageInputs) : list Stage :=
  let '(fetchStart, fetchEnd, fetchExit, fetchMsg) :=
    match in_pod i with
    | Some p => startEnd (containerStatus (p_InitContainerStatuses p) ContainerContentFetcher)
    | None => startEnd None
    end in
  let '(runStart, runEnd, _, _) :=
    match in_pod i with
    | Some p => startEnd (containerStatus (p_ContainerStatuses p) ContainerWrapper)
    | None => startEnd None
    end in
  let fetches := negb (str_is_empty (in_fetchName i)) in
  let queueEnd := if fetches && bool_decide (is_Some fetchStart) then fetchStart else runStart in
  let queue := stage StageQueue stageQueuedName (in_queuedAt i) queueEnd in
  let fetch :=
    let f := stage StageFetch (in_fetchName i) fetchStart fetchEnd in
    if bool_decide (is_Some fetchEnd) && negb (fetchExit =? 0)%Z
    then with_sg_Message fetchMsg (with_sg_Phase PhaseError f) else f in
  let name := if str_is_empty (in_tool i) then "Run test" else "Run " +:+ in_tool i in
  let toolEnd := match in_toolFinishedAt i with Some t => Some t | None => runEnd end in
  let r := stage StageRun name runStart toolEnd in
  let r := if bool_decide (is_Some toolEnd) && negb (phase_eqb (in_toolPhase i) PhaseNone)
           then with_sg_Phase (in_toolPhase i) r else r in
  let collectStart := match in_toolFinishedAt i with Some t => Some t | None => runEnd end in
  [queue] ++ (if fetches then [fetch] else []) ++ [r] ++ [stage StageCollect "Collect results" collectStart runEnd].

(** The loop of [finishStages]; [stopped] is its flag. *)
Definition stage_open (s : Stage) : bool :=
  phase_eqb (sg_Phase s) PhaseQueued || phase_eqb (sg_Phase s) PhaseRunning.

Definition finish_stage (phase : Phase) (message : string) (now : time) (stopped : bool) (s : Stage) : Stage * bool :=
  let isOpen := stage_open s in
  if stopped then ((if isOpen then with_sg_Phase StepPhaseSkipped s else s), true)
  else if isOpen then
    let s1 := if phase_eqb phase PhasePassed then with_sg_Phase PhasePassed s
              else with_sg_Message message (with_sg_Phase phase s) in
    (mkStage (sg_Kind s1) (sg_Name s1) (sg_Phase s1) (or_now now (sg_StartedAt s1)) (or_now now (sg_FinishedAt s1))
       (sg_Message s1),
     negb (phase_eqb phase PhasePassed))
  else if bool_decide (sg_Kind s = StageFetch) && negb (phase_eqb (sg_Phase s) PhasePassed) then (s, true)
  else if bool_decide (sg_Kind s = StageRun) && negb (phase_eqb (sg_Phase s) PhasePassed)
          && str_is_empty (sg_Message s) then (with_sg_Message message s, false)
  else (s, false).

Fixpoint finish_loop (phase : Phase) (message : string) (now : time) (stopped : bool) (stages : list Stage) : list Stage :=
  match stages with
  | [] => []
  | s :: ss =>
      let '(s', stopped') := finish_stage phase message now stopped s in
      s' :: finish_loop phase message now stopped' ss
  end.

Definition finishStages (stages : list Stage) (phase : Phase) (message : string) (now : time) : list Stage :=
  finish_loop phase message now false stages.

Definition sameStages (a b : list Stage) : bool := bool_decide (a = b).

(** [stagesNow]: [result] is the tool's verdict and when the tool exited. *)
Definition stagesNow (run : TestRun) (pod : option Pod) (result : option (Phase * option time)) : list Stage :=
  let queuedAt := match st_QueuedAt (r_Status run) with
                  | Some t => Some t
                  | None => Some (om_CreationTimestamp (r_Meta run))
                  end in
  deriveStages
    (mkInputs queuedAt pod (fetchNameOf run) (toolOf pod)
       (match result with Some (_, t) => t | None => None end)
       (match result with Some (p, _) => p | None => PhaseNone end)).

Definition waitingStages (queuedAt : option time) (why : string) : list Stage :=
  [mkStage StageQueue stageQueuedName PhaseRunning queuedAt None why].

Definition activePriorNames (prior : list TestRun) (self : TestRun) : list string :=
  str_sort (run_name <$>
    List.filter (fun p => negb (run_uid p =? run_uid self)%string && negb (IsTerminalPhase (run_phase p))) prior).

Definition forbidMessage (names : list string) : string :=
  if (length names =? 0)%nat then
    "waiting: a previous run of this Test is still going (concurrencyPolicy: Forbid)"
  else if (3 <? length names)%nat then
    "waiting for " +:+ str_join ", " (take 3 names) +:+ " and " +:+ itoa (Z.of_nat (length names) - 3)
    +:+ " more to finish (concurrencyPolicy: Forbid)"
  else "waiting for " +:+ str_join ", " names +:+ " to finish (concurrencyPolicy: Forbid)".

(** ** Facts *)

(** What a stage does to the ones after it. *)
Definition stops (phase : Phase) (s : Stage) : bool :=
  if stage_open s then negb (phase_eqb phase PhasePassed)
  else bool_decide (sg_Kind s = StageFetch) && negb (phase_eqb (sg_Phase s) PhasePassed).

Lemma finish_stage_stopped phase message now s : (finish_stage phase message now false s).2 = stops phase s.
Proof. unfold finish_stage, stops. repeat case_match; naive_solver. Qed.

Lemma finish_loop_lookup phase message now stopped stages i :
  finish_loop phase message now stopped stages !! i =
  (fun s => (finish_stage phase message now (stopped || existsb (stops phase) (take i stages)) s).1) <$> stages !! i.
Proof.
  revert stopped i. induction stages as [|s ss IH]; intros stopped [|i]; [done..| |]; cbn [finish_loop].
  - destruct (finish_stage phase message now stopped s) as [s' b] eqn:E. cbn.
    by rewrite orb_false_r, E.
  - destruct (finish_stage phase message now stopped s) as [s' b] eqn:E. cbn. rewrite IH.
    assert (b = stopped || stops phase s) as ->; [|by rewrite orb_assoc].
    destruct stopped; cbn; [by cbn in E; simplify_eq|].
    by rewrite <- (finish_stage_stopped phase message now), E.
Qed.

Lemma finish_stage_closed phase message now stopped s :
  IsTerminalPhase phase = true → stage_open (finish_stage phase message now stopped s).1 = false.
Proof.
  intros Ht. unfold finish_stage. destruct (stage_open s) eqn:Eo; cbn.
  - destruct stopped; cbn; [done|]. destruct (phase_eqb phase PhasePassed); [done|].
    by destruct phase.
  - destruct stopped; cbn; [done|]. repeat case_match; cbn; done.
Qed.

Lemma finish_loop_length phase message now stopped stages :
  length (finish_loop phase message now stopped stages) = length stages.
Proof.
  revert stopped. induction stages as [|s ss IH]; intros stopped; cbn; [done|].
  destruct (finish_stage phase message now stopped s). cbn. by rewrite IH.
Qed.

(** When a run ends, its course is closed: no stage stays queued or running;
    every stage keeps its kind, name and place; a stage already closed keeps
    its phase and times; a stage still open takes the run's verdict (with both
    times set) when nothing before it stopped the course, and is skipped
    otherwise.  What stops it is a fetch that failed on its own, or an earlier
    open stage taking a verdict other than passed. *)
Theorem finishStages_spec stages phase message now :
  IsTerminalPhase phase = true →
  let out := finishStages stages phase message now in
  length out = length stages ∧
  Forall (fun s => stage_open s = false) out ∧
  ∀ i s, stages !! i = Some s → ∃ s', out !! i = Some s' ∧
    sg_Kind s' = sg_Kind s ∧ sg_Name s' = sg_Name s ∧
    (stage_open s = false →
       sg_Phase s' = sg_Phase s ∧ sg_StartedAt s' = sg_StartedAt s ∧ sg_FinishedAt s' = sg_FinishedAt s) ∧
    (stage_open s = true →
       if existsb (stops phase) (take i stages) then sg_Phase s' = StepPhaseSkipped
       else sg_Phase s' = phase ∧ is_Some (sg_StartedAt s') ∧ is_Some (sg_FinishedAt s') ∧
            (phase ≠ PhasePassed → sg_Message s' = message)).
Proof.
  intros Ht out. split_and!.
  - apply finish_loop_length.
  - apply Forall_lookup. intros i s'. unfold out, finishStages. rewrite finish_loop_lookup.
    destruct (stages !! i); [|done]. intros [= <-]. by apply finish_stage_closed.
  - intros i s Hs. unfold out, finishStages. rewrite finish_loop_lookup, Hs. cbn [fmap option_fmap option_map orb].
    eexists. split; [done|]. unfold finish_stage. destruct (existsb _ _), (stage_open s) eqn:Eo; cbn.
    + naive_solver.
    + naive_solver.
    + split_and!; [by case_match..|done|]. intros _.
      destruct (phase_eqb phase PhasePassed) eqn:Ep; cbn; [apply phase_eqb_eq in Ep; subst|];
        split_and!; try done; by destruct (sg_StartedAt s), (sg_FinishedAt s).
    + repeat case_match; cbn; naive_solver.
Qed.

Definition demo_stages : list Stage :=
  [mkStage StageQueue "Queued" PhasePassed (Some 1%Z) (Some 2%Z) "";
   mkStage StageRun "Run k6" PhaseRunning (Some 2%Z) None "";
   mkStage StageCollect "Collect results" PhaseQueued None None ""].

Lemma finishStages_spec_witness :
  IsTerminalPhase PhaseAborted = true ∧
  Forall (fun s => stage_open s = false) (finishStages demo_stages PhaseAborted "why" 9) ∧
  sg_Phase <$> finishStages demo_stages PhaseAborted "why" 9 = [PhasePassed; PhaseAborted; StepPhaseSkipped].
Proof.
  split; [reflexivity|split; [|reflexivity]].
  exact (proj1 (proj2 (finishStages_spec demo_stages PhaseAborted "why" 9 eq_refl))).
Defined.

End Stages.
