(* ===== verification/Composer.v ===== *)
(** * internal/composer: the pure logic of composite runs

    [Aggregate] folds child outcomes into a step verdict, [ParentPhase] folds
    step verdicts into the run's phase, [ResolveGraph] refuses execute graphs
    with a cycle or too deep a nesting. *)
From S2P Require Import Prelude Api.

Module Composer.

Definition ConditionAlways : string := "always".

Record ChildOutcome := mkOutcome { co_Phase : Phase }.

Record StepVerdict := mkVerdict { vd_Phase : Phase; vd_Message : string }.
#[export] Instance StepVerdict_eq_dec : EqDecision StepVerdict.
Proof. solve_decision. Defined.

Record AggregateOpts := mkOpts { ao_Negative : bool }.

(** The [switch] both [Aggregate] and [countPhase] run under [opts.Negative]. *)
Definition invert (negative : bool) (p : Phase) : Phase :=
  if negative then
    match p with PhasePassed => PhaseFailed | PhaseFailed => PhasePassed | _ => p end
  else p.

Definition countPhase (children : list ChildOutcome) (opts : AggregateOpts) (want : Phase) : nat :=
  countb (fun c => phase_eqb (invert (ao_Negative opts) (co_Phase c)) want) children.

(** The loop of [Aggregate] from index [i]: an early verdict, or the index of
    the first failed child seen ([failedIdx], with [haveFailed]). *)
Fixpoint aggregate_loop (opts : AggregateOpts) (i : nat) (failedIdx : option nat)
    (children : list ChildOutcome) : StepVerdict + option nat :=
  match children with
  | [] => inr failedIdx
  | c :: cs =>
      let phase := co_Phase c in
      if phase_eqb phase PhaseAborted then
        inl (mkVerdict PhaseAborted ("aggregate: child[" +:+ itoa (Z.of_nat i) +:+ "] aborted"))
      else if phase_eqb phase PhaseError then
        inl (mkVerdict PhaseError ("aggregate: child[" +:+ itoa (Z.of_nat i) +:+ "] error"))
      else
        let phase := invert (ao_Negative opts) phase in
        aggregate_loop opts (S i)
          (if phase_eqb phase PhaseFailed && negb (bool_decide (is_Some failedIdx)) then Some i else failedIdx) cs
  end.

Definition Aggregate (children : list ChildOutcome) (opts : AggregateOpts) : StepVerdict :=
  match children with
  | [] => mkVerdict PhaseFailed "aggregate: no child outcomes recorded"
  | _ =>
      let n := itoa (Z.of_nat (length children)) in
      match aggregate_loop opts 0 None children with
      | inl v => v
      | inr (Some failedIdx) =>
          mkVerdict PhaseFailed
            ("aggregate: " +:+ itoa (Z.of_nat (countPhase children opts PhaseFailed)) +:+ "/" +:+ n
             +:+ " children failed (first: index " +:+ itoa (Z.of_nat failedIdx) +:+ ")")
      | inr None => mkVerdict PhasePassed ("aggregate: " +:+ n +:+ "/" +:+ n +:+ " children passed")
      end
  end.

Definition ShouldRunNext (priorVerdict : StepVerdict) (priorOptional : bool) (nextCondition : string) : bool :=
  if (nextCondition =? ConditionAlways)%string then true
  else if phase_eqb (vd_Phase priorVerdict) PhasePassed then true
  else if priorOptional && phase_eqb (vd_Phase priorVerdict) PhaseFailed then true
  else false.

(** [optional != nil && i < len(optional) && optional[i]]. *)
Definition is_optional (optional : list bool) (i : nat) : bool := default false (optional !! i).

(** The step verdicts [ParentPhase] looks at, in order: not skipped, not optional. *)
Definition severe (p : Phase) : bool := phase_eqb p PhaseAborted || phase_eqb p PhaseError.

Fixpoint parent_severe (i : nat) (vs : list (option StepVerdict)) (optional : list bool) : option Phase :=
  match vs with
  | [] => None
  | None :: vs => parent_severe (S i) vs optional
  | Some v :: vs =>
      if is_optional optional i then parent_severe (S i) vs optional
      else if phase_eqb (vd_Phase v) PhaseAborted then Some PhaseAborted
      else if phase_eqb (vd_Phase v) PhaseError then Some PhaseError
      else parent_severe (S i) vs optional
  end.

Fixpoint parent_failed (i : nat) (vs : list (option StepVerdict)) (optional : list bool) : bool :=
  match vs with
  | [] => false
  | None :: vs => parent_failed (S i) vs optional
  | Some v :: vs =>
      if is_optional optional i then parent_failed (S i) vs optional
      else if phase_eqb (vd_Phase v) PhaseFailed then true
      else parent_failed (S i) vs optional
  end.

Definition ParentPhase (stepVerdicts : list (option StepVerdict)) (optional : list bool) : Phase :=
  match parent_severe 0 stepVerdicts optional with
  | Some p => p
  | None => if parent_failed 0 stepVerdicts optional then PhaseFailed else PhasePassed
  end.

Definition ChildNeedsRetry (phase : Phase) (negative : bool) : bool :=
  match phase with
  | PhaseError => true
  | PhaseFailed => negb negative
  | PhasePassed => negative
  | _ => false
  end.

(** ** The execute graph *)

Inductive GraphError :=
| ErrCycle (path : list string)
| ErrDepthLimit (name : string) (depth : nat).
#[export] Instance GraphError_eq_dec : EqDecision GraphError.
Proof. solve_decision. Defined.

Definition MaxDepth : nat := 10.

Definition TestLookup : Type := string → option TestSpec.

(** [for _, x := range xs { if err := f(x); err != nil { return err } }] where [f]
    may run out of fuel ([None]). *)
Fixpoint try_each {A} (f : A → option (result GraphError unit)) (xs : list A) : option (result GraphError unit) :=
  match xs with
  | [] => Some (Ok tt)
  | x :: xs => match f x with Some (Ok _) => try_each f xs | r => r end
  end.

(** The recursive closure [walk].  [visiting] and [path] are restored by the
    deferred function before the closure returns, so they are arguments. *)
Fixpoint walk (fuel : nat) (lookup : TestLookup) (visiting : gset string) (path : list string)
    (name : string) (spec : TestSpec) (depth : nat) : option (result GraphError unit) :=
  match fuel with
  | O => None
  | S fuel =>
      if (MaxDepth <? depth)%nat then Some (Err (ErrDepthLimit name depth))
      else if bool_decide (name ∈ visiting) then Some (Err (ErrCycle (path ++ [name])))
      else
        match ts_Steps spec with
        | [] => Some (Ok tt)
        | steps =>
            try_each (fun s =>
              match s_Execute s with
              | None => Some (Ok tt)
              | Some ex =>
                  try_each (fun t =>
                    match lookup (et_Name t) with
                    | None => Some (Ok tt)
                    | Some child =>
                        walk fuel lookup ({[name]} ∪ visiting) (path ++ [name]) (et_Name t) child (S depth)
                    end) (se_Tests ex)
              end) steps
        end
  end.

(** A walk visits at most [MaxDepth + 1] levels before the depth test stops it. *)
Definition graph_fuel : nat := MaxDepth + 2.

Definition ResolveGraph (rootName : string) (rootSpec : TestSpec) (lookup : TestLookup) :
    option (result GraphError unit) :=
  walk graph_fuel lookup ∅ [] rootName rootSpec 0.

(** [validateCompositeGraph] (internal/controller/composite.go): the graph of
    the Test being set up, its own name resolving to the resolved spec and every
    other name to the Test read from the API ([get], [None] on any error). *)
Definition graph_lookup (rootName : string) (spec : TestSpec) (get : TestLookup) : TestLookup :=
  fun name => if (name =? rootName)%string then Some spec else get name.

Definition validateCompositeGraph (rootName : string) (spec : TestSpec) (get : TestLookup) :
    option (result GraphError unit) :=
  ResolveGraph rootName spec (graph_lookup rootName spec get).

Fixpoint joinPath (names : list string) : string :=
  match names with
  | [] => ""
  | [n] => n
  | n :: ns => n +:+ " → " +:+ joinPath ns
  end.

(** ** Lemmas: the folds *)

Lemma invert_involutive b p : invert b (invert b p) = p.
Proof. by destruct b, p. Qed.

Lemma severe_spec p : severe p = true ↔ p = PhaseAborted ∨ p = PhaseError.
Proof. unfold severe. rewrite orb_true_iff, !phase_eqb_eq. done. Qed.

Definition eff_failed (opts : AggregateOpts) (c : ChildOutcome) : bool :=
  phase_eqb (invert (ao_Negative opts) (co_Phase c)) PhaseFailed.

Lemma aggregate_loop_spec opts i f cs :
  match find_first (fun c => severe (co_Phase c)) cs with
  | Some c => ∃ v, aggregate_loop opts i f cs = inl v ∧ vd_Phase v = co_Phase c
  | None =>
      ∃ f', aggregate_loop opts i f cs = inr f' ∧
        (is_Some f' ↔ is_Some f ∨ existsb (eff_failed opts) cs = true)
  end.
Proof.
  revert i f. induction cs as [|c cs IH]; intros i f; cbn.
  { exists f. split; [done|]. naive_solver. }
  unfold severe at 1.
  destruct (phase_eqb (co_Phase c) PhaseAborted) eqn:Ha; cbn.
  { apply phase_eqb_eq in Ha. eexists. split; [done|]. done. }
  destruct (phase_eqb (co_Phase c) PhaseError) eqn:He; cbn.
  { apply phase_eqb_eq in He. eexists. split; [done|]. done. }
  fold (eff_failed opts c).
  set (f1 := if eff_failed opts c && negb (bool_decide (is_Some f)) then Some i else f).
  specialize (IH (S i) f1). unfold find_first in *.
  destruct (List.find _ cs); [exact IH|].
  destruct IH as (f' & -> & Hf'). exists f'. split; [done|]. rewrite Hf'.
  subst f1. rewrite orb_true_iff.
  destruct (eff_failed opts c); cbn; [|naive_solver].
  destruct f; cbn; unfold is_Some; naive_solver.
Qed.

(** The reference verdict: the first aborted or errored child decides; else any
    child that failed (after inversion) fails the step. *)
Definition step_phase_spec (children : list ChildOutcome) (opts : AggregateOpts) : Phase :=
  match find_first (fun c => severe (co_Phase c)) children with
  | Some c => co_Phase c
  | None =>
      if bool_decide (children = []) || existsb (eff_failed opts) children then PhaseFailed else PhasePassed
  end.

(** Aggregation of one step: the phase [Aggregate] returns is the reference
    verdict. *)
Theorem Aggregate_spec children opts :
  vd_Phase (Aggregate children opts) = step_phase_spec children opts.
Proof.
  unfold Aggregate, step_phase_spec. destruct children as [|c cs]; [done|].
  pose proof (aggregate_loop_spec opts 0 None (c :: cs)) as H.
  destruct (find_first _ (c :: cs)).
  - destruct H as (v & -> & ->). done.
  - destruct H as (f' & -> & Hf).
    destruct (existsb (eff_failed opts) (c :: cs)) eqn:Hx;
      destruct f' as [i|]; cbn [vd_Phase]; rewrite ?orb_true_r; try done.
    + exfalso. destruct Hf as [_ Hf]. destruct Hf as [? ?]; [by right|done].
    + exfalso. destruct Hf as [Hf _]. destruct Hf as [[? ?]|?]; [eauto|done..].
Qed.

(** The phases that count towards the parent: steps that ran and are not
    optional, in step order. *)
Fixpoint counted (i : nat) (vs : list (option StepVerdict)) (optional : list bool) : list Phase :=
  match vs with
  | [] => []
  | None :: vs => counted (S i) vs optional
  | Some v :: vs =>
      if is_optional optional i then counted (S i) vs optional
      else vd_Phase v :: counted (S i) vs optional
  end.

Lemma parent_severe_counted i vs optional :
  parent_severe i vs optional = find_first severe (counted i vs optional).
Proof.
  revert i. induction vs as [|[v|] vs IH]; intros i; cbn; [done| |apply IH].
  destruct (is_optional optional i); [apply IH|]. cbn. unfold severe at 1.
  destruct (phase_eqb (vd_Phase v) PhaseAborted) eqn:Ha; cbn.
  { apply phase_eqb_eq in Ha. by rewrite Ha. }
  destruct (phase_eqb (vd_Phase v) PhaseError) eqn:He; cbn; [|apply IH].
  apply phase_eqb_eq in He. by rewrite He.
Qed.

Lemma parent_failed_counted i vs optional :
  parent_failed i vs optional = existsb (phase_eqb PhaseFailed) (counted i vs optional).
Proof.
  revert i. induction vs as [|[v|] vs IH]; intros i; cbn; [done| |apply IH].
  destruct (is_optional optional i); [apply IH|]. cbn. rewrite <- IH.
  destruct (phase_eqb (vd_Phase v) PhaseFailed) eqn:Hf.
  - apply phase_eqb_eq in Hf. by rewrite Hf, phase_eqb_refl.
  - destruct (phase_eqb PhaseFailed (vd_Phase v)) eqn:Hf'; [|done].
    apply phase_eqb_eq in Hf'. by rewrite <- Hf' in Hf.
Qed.

Lemma ParentPhase_counted vs optional :
  ParentPhase vs optional =
    match find_first severe (counted 0 vs optional) with
    | Some p => p
    | None => if existsb (phase_eqb PhaseFailed) (counted 0 vs optional) then PhaseFailed else PhasePassed
    end.
Proof. unfold ParentPhase. by rewrite parent_severe_counted, parent_failed_counted. Qed.

(** A composite run passes exactly when no step that ran and is not optional
    was aborted, errored or failed; otherwise its phase is that of the first
    aborted or errored such step, else failed. *)
Theorem ParentPhase_spec vs optional :
  (ParentPhase vs optional = PhasePassed ↔
     Forall (fun p => p ≠ PhaseAborted ∧ p ≠ PhaseError ∧ p ≠ PhaseFailed) (counted 0 vs optional)) ∧
  (ParentPhase vs optional = PhaseFailed ↔
     Forall (fun p => severe p = false) (counted 0 vs optional) ∧ PhaseFailed ∈ counted 0 vs optional) ∧
  (∀ p, severe p = true →
     (ParentPhase vs optional = p ↔ find_first severe (counted 0 vs optional) = Some p)).
Proof.
  rewrite ParentPhase_counted. set (ps := counted 0 vs optional).
  assert (Hsev : ∀ p, severe p = false ↔ p ≠ PhaseAborted ∧ p ≠ PhaseError).
  { intros p. rewrite <- not_true_iff_false, severe_spec. naive_solver. }
  assert (Hex : existsb (phase_eqb PhaseFailed) ps = true ↔ PhaseFailed ∈ ps).
  { rewrite existsb_elem. split; [|by exists PhaseFailed; rewrite phase_eqb_refl].
    intros (x & Hx & E). apply phase_eqb_eq in E. by subst. }
  destruct (find_first severe ps) as [q|] eqn:Hfind.
  - apply find_first_Some in Hfind as [Hq Hs]. pose proof Hs as Hs'. apply severe_spec in Hs'.
    split_and!.
    + split; [intros ->; naive_solver|]. rewrite Forall_forall. intros H. destruct (H q Hq) as (?&?&?).
      naive_solver.
    + split; [intros ->; naive_solver|]. rewrite Forall_forall. intros [H _].
      specialize (H q Hq). congruence.
    + intros p _. split; congruence.
  - apply find_first_None in Hfind.
    assert (Forall (fun p => p ≠ PhaseAborted ∧ p ≠ PhaseError) ps) as Hno.
    { eapply Forall_impl; [exact Hfind|]. intros p. apply Hsev. }
    destruct (existsb (phase_eqb PhaseFailed) ps) eqn:Hf.
    + pose proof (proj1 Hex eq_refl) as Hin. split_and!; [|done|].
      * split; [done|]. rewrite Forall_forall. intros H. destruct (H _ Hin) as (_&_&?). done.
      * intros p Hp. apply severe_spec in Hp. naive_solver.
    + assert (PhaseFailed ∉ ps) as Hnin by (intros Hin; by apply Hex in Hin). split_and!.
      * split; [intros _|done]. rewrite Forall_forall in *. intros p Hp.
        destruct (Hno p Hp). split_and!; [done..|]. intros ->. done.
      * split; [done|]. intros [_ ?]. done.
      * intros p Hp. apply severe_spec in Hp. naive_solver.
Qed.

(** ** The execute graph: specification *)

Section Graph.
Context (lookup : TestLookup).

(** [edge s n c]: some step of [s] executes the Test named [n], whose spec is [c]. *)
Definition edge (s : TestSpec) (n : string) (c : TestSpec) : Prop :=
  ∃ st ex t, st ∈ ts_Steps s ∧ s_Execute st = Some ex ∧ t ∈ se_Tests ex ∧ et_Name t = n ∧ lookup n = Some c.

(** [reaches s k d]: following [k] execute references from [s] leads to [d]. *)
Inductive reaches : TestSpec → nat → TestSpec → Prop :=
| reaches_refl s : reaches s 0 s
| reaches_step s n c k d : edge s n c → reaches c k d → reaches s (S k) d.

Lemma reaches_trans s k d j e : reaches s k d → reaches d j e → reaches s (k + j) e.
Proof. induction 1; cbn; [done|]. intros. eapply reaches_step; eauto. Qed.

Lemma reaches_snoc s k d n e : reaches s k d → edge d n e → reaches s (S k) e.
Proof.
  intros H He. replace (S k) with (k + 1) by lia. eapply reaches_trans; [done|].
  eapply reaches_step; [done|constructor].
Qed.

Lemma reaches_prefix s k d j : reaches s k d → j ≤ k → ∃ e, reaches s j e.
Proof.
  intros H. revert j. induction H as [s|s n c k d He Hr IH]; intros j Hj.
  - assert (j = 0) as -> by lia. eexists. constructor.
  - destruct j as [|j]; [eexists; constructor|].
    destruct (IH j ltac:(lia)) as [e He']. eexists. by eapply reaches_step.
Qed.

(** A closed walk can be pumped to any length. *)
Lemma reaches_loop s m n : 0 < m → reaches s m s → ∃ d, reaches s n d.
Proof.
  intros Hm Hl. assert (∀ j, reaches s (j * m) s) as Hj.
  { induction j as [|j IH]; cbn; [constructor|]. by eapply reaches_trans. }
  eapply reaches_prefix; [apply (Hj n)|]. nia.
Qed.

Lemma try_each_ok {A} (f : A → option (result GraphError unit)) xs :
  try_each f xs = Some (Ok tt) ↔ ∀ x, x ∈ xs → f x = Some (Ok tt).
Proof.
  rewrite <- Forall_forall. induction xs as [|x xs IH]; cbn; [done|].
  rewrite Forall_cons, <- IH. destruct (f x) as [[[]|]|]; naive_solver.
Qed.

Lemma try_each_err {A} (f : A → option (result GraphError unit)) xs e :
  try_each f xs = Some (Err e) → ∃ x, x ∈ xs ∧ f x = Some (Err e).
Proof.
  induction xs as [|x xs IH]; cbn; [done|].
  destruct (f x) as [[[]|]|] eqn:Hf; intros H; [|simplify_eq; exists x; set_solver|done].
  destruct (IH H) as (y & ? & ?). exists y. set_solver.
Qed.

Lemma try_each_total {A} (f : A → option (result GraphError unit)) xs :
  (∀ x, x ∈ xs → is_Some (f x)) → is_Some (try_each f xs).
Proof.
  induction xs as [|x xs IH]; cbn; [by eexists|]. intros H.
  destruct (H x) as [[[]|] Hx]; [set_solver|rewrite Hx..]; [|by eexists].
  apply IH. set_solver.
Qed.

(** The body of [walk] past its guards, as one loop over the children. *)
Definition children_walk (f : string → TestSpec → option (result GraphError unit)) (steps : list Step) :
    option (result GraphError unit) :=
  try_each (fun s =>
    match s_Execute s with
    | None => Some (Ok tt)
    | Some ex =>
        try_each (fun t => match lookup (et_Name t) with None => Some (Ok tt) | Some c => f (et_Name t) c end)
          (se_Tests ex)
    end) steps.

Lemma children_walk_ok f s n c :
  children_walk f (ts_Steps s) = Some (Ok tt) → edge s n c → f n c = Some (Ok tt).
Proof.
  intros H (st & ex & t & Hst & Hex & Ht & <- & Hl). unfold children_walk in H.
  rewrite try_each_ok in H. specialize (H _ Hst). rewrite Hex, try_each_ok in H.
  specialize (H _ Ht). by rewrite Hl in H.
Qed.

Lemma children_walk_err f s e :
  children_walk f (ts_Steps s) = Some (Err e) → ∃ n c, edge s n c ∧ f n c = Some (Err e).
Proof.
  intros (st & Hst & H)%try_each_err. destruct (s_Execute st) as [ex|] eqn:Hex; [|done].
  apply try_each_err in H as (t & Ht & H). destruct (lookup (et_Name t)) as [c|] eqn:Hl; [|done].
  exists (et_Name t), c. split; [|done]. by exists st, ex, t.
Qed.

Lemma children_walk_total f steps :
  (∀ n c, is_Some (f n c)) → is_Some (children_walk f steps).
Proof.
  intros H. apply try_each_total. intros st _. destruct (s_Execute st); [|by eexists].
  apply try_each_total. intros t _. destruct (lookup (et_Name t)); [done|by eexists].
Qed.

Lemma walk_unfold fuel visiting path name spec depth :
  walk (S fuel) lookup visiting path name spec depth =
    if (MaxDepth <? depth)%nat then Some (Err (ErrDepthLimit name depth))
    else if bool_decide (name ∈ visiting) then Some (Err (ErrCycle (path ++ [name])))
    else children_walk (fun n c => walk fuel lookup ({[name]} ∪ visiting) (path ++ [name]) n c (S depth))
           (ts_Steps spec).
Proof. cbn [walk]. repeat case_match; done. Qed.

Lemma walk_total fuel visiting path name spec depth :
  MaxDepth + 2 ≤ fuel + depth → depth ≤ MaxDepth + 1 →
  is_Some (walk fuel lookup visiting path name spec depth).
Proof.
  revert visiting path name spec depth.
  induction fuel as [|fuel IH]; intros visiting path name spec depth Hf Hd; [lia|].
  rewrite walk_unfold. destruct (Nat.ltb_spec MaxDepth depth); [by eexists|].
  case_bool_decide; [by eexists|]. apply children_walk_total. intros. apply IH; lia.
Qed.

Lemma walk_ok fuel visiting path name spec depth :
  walk fuel lookup visiting path name spec depth = Some (Ok tt) →
  ∀ k d, reaches spec k d → depth + k ≤ MaxDepth.
Proof.
  revert visiting path name spec depth.
  induction fuel as [|fuel IH]; intros visiting path name spec depth; [done|].
  rewrite walk_unfold. destruct (Nat.ltb_spec MaxDepth depth); [done|].
  case_bool_decide; [done|]. intros Hc k d Hr. inversion Hr as [|? n c k' ? He Hr']; subst; [lia|].
  eapply children_walk_ok in Hc; [|done]. specialize (IH _ _ _ _ _ Hc _ _ Hr'). lia.
Qed.

(** What [visiting] and [path] hold while [walk] is at [name]: the composite
    Tests on the way from the root, each reaching the current one. *)
Definition on_the_way (root : TestSpec) (visiting : gset string) (name : string) (spec : TestSpec) (depth : nat) : Prop :=
  reaches root depth spec ∧ lookup name = Some spec ∧
  ∀ v, v ∈ visiting → ∃ sv i j, lookup v = Some sv ∧ reaches root i sv ∧ 0 < j ∧ reaches sv j spec.

Lemma on_the_way_child root visiting name spec depth n c :
  on_the_way root visiting name spec depth → edge spec n c →
  on_the_way root ({[name]} ∪ visiting) n c (S depth).
Proof.
  intros (Hr & Hn & Hv) He. split_and!.
  - by eapply reaches_snoc.
  - by destruct He as (?&?&?&_&_&_&_&?).
  - intros v [->%elem_of_singleton|Hin]%elem_of_union.
    + exists spec, depth, 1. split_and!; [done..|lia|]. eapply reaches_step; [done|constructor].
    + destruct (Hv v Hin) as (sv & i & j & ? & ? & ? & ?).
      exists sv, i, (S j). split_and!; [done..|lia|]. by eapply reaches_snoc.
Qed.

Lemma walk_err root fuel visiting path name spec depth e :
  on_the_way root visiting name spec depth → depth ≤ MaxDepth + 1 →
  walk fuel lookup visiting path name spec depth = Some (Err e) →
  ∃ d, reaches root (S MaxDepth) d.
Proof.
  revert visiting path name spec depth.
  induction fuel as [|fuel IH]; intros visiting path name spec depth Hway Hd; [done|].
  rewrite walk_unfold. destruct (Nat.ltb_spec MaxDepth depth).
  { intros _. exists spec. destruct Hway as (Hr&_). by replace (S MaxDepth) with depth by lia. }
  case_bool_decide as Hin.
  - intros _. destruct Hway as (_ & Hn & Hv).
    destruct (Hv _ Hin) as (sv & i & j & Hl & Hi & Hj & Hsv).
    assert (sv = spec) as -> by congruence.
    destruct (reaches_loop spec j (S MaxDepth) Hj Hsv) as [d Hd'].
    eapply reaches_prefix; [by eapply reaches_trans|]. lia.
  - intros (n & c & He & Hw)%children_walk_err.
    eapply IH; [by eapply on_the_way_child|lia|done].
Qed.

End Graph.

Lemma validateCompositeGraph_total rootName spec get :
  is_Some (validateCompositeGraph rootName spec get).
Proof.
  unfold validateCompositeGraph, ResolveGraph. apply walk_total; [done|lia].
Qed.

(** C14: The composite run is refused exactly when following execute references from
    it can go on for [MaxDepth + 1] = 11 steps: every cycle is refused (it can be
    followed forever), every acyclic graph at most 10 deep is accepted, and the
    resolver always returns. *)
Theorem validateCompositeGraph_accepts rootName spec get :
  is_Some (validateCompositeGraph rootName spec get) ∧
  (validateCompositeGraph rootName spec get = Some (Ok tt) ↔
   ¬ ∃ d, reaches (graph_lookup rootName spec get) spec 11 d).
Proof.
  split; [apply validateCompositeGraph_total|]. set (lk := graph_lookup rootName spec get). split.
  - intros H [d Hd]. pose proof (walk_ok lk _ _ _ _ _ _ H _ _ Hd) as Hle. unfold MaxDepth in Hle. lia.
  - intros Hno. destruct (validateCompositeGraph_total rootName spec get) as [[[]|e] Hw]; [done|].
    exfalso. apply Hno. refine (walk_err lk spec _ _ _ _ _ _ e _ _ Hw); [|lia].
    split_and!; [constructor| |set_solver]. unfold lk, graph_lookup. by rewrite String.eqb_refl.
Qed.

End Composer.
