(* ===== verification/Concurrency.v ===== *)
(** * internal/controller/concurrency.go: concurrencyPolicy

    What a new TestRun does while earlier runs of its Test are active.  The
    decision procedure is modelled as written; the runs of one Test under
    [Forbid] then form a transition system whose steps are the creation of a
    run, the decision of its setup on what a cache shows, the write that follows and
    its end. *)
From stdpp Require Import sorting.
From S2P Require Import Prelude Sorting Api.

Module Concurrency.

Inductive ConcurrencyAction := ConcurrencyProceed | ConcurrencyWait | ConcurrencyReplacePrior.
#[export] Instance ConcurrencyAction_eq_dec : EqDecision ConcurrencyAction.
Proof. solve_decision. Defined.

Definition PolicyAllow : string := "Allow".
Definition PolicyForbid : string := "Forbid".
Definition PolicyReplace : string := "Replace".

(** [self != nil && p.UID == self.UID]. *)
Definition is_self (self : option TestRun) (p : TestRun) : bool :=
  match self with Some s => (run_uid p =? run_uid s)%string | None => false end.

(** The guard shared by [activePriorCount] and [SelectPriorsToAbort]: neither
    the run itself nor terminal. *)
Definition active_prior (self : option TestRun) (p : TestRun) : bool :=
  negb (is_self self p) && negb (IsTerminalPhase (run_phase p)).

Definition activePriorCount (prior : list TestRun) (self : option TestRun) : nat :=
  countb (active_prior self) prior.

Definition queuedBefore (a b : TestRun) : bool :=
  let ta := om_CreationTimestamp (r_Meta a) in
  let tb := om_CreationTimestamp (r_Meta b) in
  if negb (ta =? tb)%Z then time_before ta tb
  else String.ltb (run_name a) (run_name b).

Definition forbidBlocks (p : TestRun) (self : option TestRun) : bool :=
  if IsTerminalPhase (run_phase p) || is_self self p then false
  else
    negb (snapshot_is_empty (st_ResolvedSpec (r_Status p)))
    || match self with None => true | Some s => queuedBefore p s end.

Definition DecideConcurrency (prior : list TestRun) (self : option TestRun) (policy : string) : ConcurrencyAction :=
  if (policy =? PolicyForbid)%string then
    if existsb (fun p => forbidBlocks p self) prior then ConcurrencyWait else ConcurrencyProceed
  else if (activePriorCount prior self =? 0)%nat then ConcurrencyProceed
  else if (policy =? PolicyReplace)%string then ConcurrencyReplacePrior
  else ConcurrencyProceed.

Definition SelectPriorsToAbort (prior : list TestRun) (self : option TestRun) : list TestRun :=
  List.filter (active_prior self) prior.

(** internal/controller/testrun_controller.go: a run not set up yet whose
    notBefore is in the future. *)
Definition waitingForSchedule (run : TestRun) (now : time) : bool :=
  snapshot_is_empty (st_ResolvedSpec (r_Status run)) &&
  match rs_NotBefore (r_Spec run) with Some t => time_before now t | None => false end.

(** [setup] (lines 494-502): the decision it takes, on the runs of the Test it
    listed, scheduled ones removed. *)
Definition setup_decision (listed : list TestRun) (run : TestRun) (policy : string) (now : time) : ConcurrencyAction :=
  DecideConcurrency (List.filter (fun p => negb (waitingForSchedule p now)) listed) (Some run) policy.

(** ** The queue order *)

Lemma queuedBefore_irrefl a : queuedBefore a a = false.
Proof.
  unfold queuedBefore. rewrite Z.eqb_refl. cbn. apply not_true_iff_false. rewrite str_ltb_le. naive_solver.
Qed.

Lemma queuedBefore_trans a b c : queuedBefore a b = true → queuedBefore b c = true → queuedBefore a c = true.
Proof.
  unfold queuedBefore, time_before.
  set (ta := om_CreationTimestamp _). set (tb := om_CreationTimestamp _). set (tc := om_CreationTimestamp _).
  destruct (Z.eqb_spec ta tb) as [E1|E1], (Z.eqb_spec tb tc) as [E2|E2], (Z.eqb_spec ta tc) as [E3|E3];
    cbn; rewrite ?str_ltb_le, ?Z.ltb_lt; try lia.
  intros [? ?] [? ?]. split; [by etrans|]. intros E. rewrite E in *.
  by apply (anti_symm String.le) in H.
Qed.

Lemma queuedBefore_total a b :
  run_name a ≠ run_name b → queuedBefore a b = true ∨ queuedBefore b a = true.
Proof.
  intros Hn. unfold queuedBefore, time_before. rewrite (Z.eqb_sym (om_CreationTimestamp (r_Meta b))).
  destruct (Z.eqb_spec (om_CreationTimestamp (r_Meta a)) (om_CreationTimestamp (r_Meta b))); cbn.
  - rewrite !str_ltb_le. destruct (total String.le (run_name a) (run_name b)); naive_solver.
  - rewrite !Z.ltb_lt. lia.
Qed.

(** A non-empty list has an element no other element is queued before. *)
Lemma oldest_exists (rs : list TestRun) :
  rs ≠ [] → ∃ o, o ∈ rs ∧ ∀ r, r ∈ rs → queuedBefore r o = false.
Proof.
  induction rs as [|r rs IH]; [done|]. intros _.
  destruct rs as [|r' rs].
  { exists r. split; [set_solver|]. intros x ->%list_elem_of_singleton. apply queuedBefore_irrefl. }
  destruct IH as (o & Ho & Hmin); [done|].
  destruct (queuedBefore r o) eqn:E.
  - exists r. split; [set_solver|]. intros x [->|Hx]%elem_of_cons; [apply queuedBefore_irrefl|].
    apply not_true_iff_false. intros Hc. specialize (Hmin x Hx).
    rewrite (queuedBefore_trans _ _ _ Hc E) in Hmin. done.
  - exists o. split; [set_solver|]. intros x [->|Hx]%elem_of_cons; auto.
Qed.

(** ** States of a run under Forbid *)

Definition terminal (r : TestRun) : Prop := IsTerminalPhase (run_phase r) = true.
Definition started (r : TestRun) : Prop := snapshot_is_empty (st_ResolvedSpec (r_Status r)) = false.

(** Running its course: set up and not finished. *)
Definition holding (r : TestRun) : Prop := ¬ terminal r ∧ started r.
(** Waiting its turn: neither set up nor finished. *)
Definition waiting (r : TestRun) : Prop := ¬ terminal r ∧ ¬ started r.

#[export] Instance terminal_dec r : Decision (terminal r).
Proof. unfold terminal. apply _. Defined.
#[export] Instance started_dec r : Decision (started r).
Proof. unfold started. apply _. Defined.

Lemma forbidBlocks_spec p s :
  forbidBlocks p (Some s) = true ↔
  ¬ terminal p ∧ run_uid p ≠ run_uid s ∧ (started p ∨ queuedBefore p s = true).
Proof.
  unfold forbidBlocks, terminal, started, is_self.
  destruct (IsTerminalPhase (run_phase p)); cbn; [naive_solver|].
  destruct (String.eqb_spec (run_uid p) (run_uid s)) as [E|E]; [naive_solver|].
  destruct (snapshot_is_empty _); cbn; naive_solver.
Qed.

Lemma Forbid_proceeds prior s :
  DecideConcurrency prior (Some s) PolicyForbid = ConcurrencyProceed ↔
  ∀ p, p ∈ prior → ¬ terminal p → run_uid p ≠ run_uid s → ¬ started p ∧ queuedBefore p s = false.
Proof.
  unfold DecideConcurrency. cbn. destruct (existsb _ prior) eqn:E.
  - apply existsb_elem in E as (p & Hp & (Ht & Hu & Hb)%forbidBlocks_spec).
    split; [done|]. intros H. destruct (H p Hp Ht Hu) as [H1 H2]. destruct Hb; congruence.
  - split; [intros _|done]. apply existsb_Forall in E. rewrite Forall_forall in E.
    intros p Hp Ht Hu. specialize (E p Hp). apply not_true_iff_false in E.
    rewrite forbidBlocks_spec in E. rewrite <- not_true_iff_false. naive_solver.
Qed.

(** Under Forbid the queue never blocks itself: while some run of the Test
    waits and none is running, exactly one waiting run may start, and it is the
    oldest. *)
Theorem Forbid_queue_progress (runs : list TestRun) (w : TestRun) :
  (∀ a b, a ∈ runs → b ∈ runs → run_uid a = run_uid b → a = b) →
  (∀ a b, a ∈ runs → b ∈ runs → run_name a = run_name b → a = b) →
  w ∈ runs → waiting w → (∀ r, r ∈ runs → ¬ holding r) →
  ∃ o, o ∈ runs ∧ waiting o ∧ (∀ r, r ∈ runs → waiting r → queuedBefore r o = false) ∧
    ∀ r, r ∈ runs → waiting r →
      (DecideConcurrency runs (Some r) PolicyForbid = ConcurrencyProceed ↔ r = o).
Proof.
  intros Huid Hname Hw Hww Hnone.
  set (ws := base.filter (fun r => ¬ terminal r ∧ ¬ started r) runs).
  assert (Hws : ∀ r, r ∈ ws ↔ r ∈ runs ∧ waiting r).
  { intros r. unfold ws, waiting. rewrite list_elem_of_filter. naive_solver. }
  destruct (oldest_exists ws) as (o & Ho & Hmin).
  { intros E. assert (w ∈ ws) by by apply Hws. rewrite E in *. set_solver. }
  apply Hws in Ho as [Ho Hwo]. exists o. split_and!; [done..| |].
  { intros r Hr Hwr. apply Hmin, Hws. done. }
  intros r Hr Hwr. rewrite Forbid_proceeds. split.
  - intros H. destruct (decide (run_uid o = run_uid r)) as [E|E]; [symmetry; auto|].
    destruct (H o Ho) as [_ Hq]; [apply Hwo|done|].
    destruct (decide (run_name r = run_name o)) as [En|En]; [auto|].
    destruct (queuedBefore_total _ _ En) as [Hc|Hc]; [|congruence].
    specialize (Hmin r). rewrite Hws in Hmin. rewrite Hmin in Hc; done.
  - intros -> p Hp Ht Hu. assert (¬ started p) as Hs.
    { intros Hs. by apply (Hnone p Hp). }
    split; [done|]. apply Hmin, Hws. done.
Qed.

(** ** The transition system of one Test's runs under Forbid

    [setup] does not see the cluster: it reads the run and then the list of
    runs from the informer cache, which shows some earlier state, and writes
    the run's status in a later call, which the API server accepts only when
    the run is still as it was read (its resource version).  A state keeps
    the runs as the API server has them, every earlier state a cache may still
    show, latest first, and the setups that have decided to proceed and not
    written yet. *)
Record forbid_state := mkForbid {
  fb_runs : list TestRun;
  fb_past : list (list TestRun);
  fb_deciding : list TestRun;
  fb_now : time;
}.

Definition resolve_run (spec : TestSpec) (r : TestRun) : TestRun :=
  upd_status (fun s => set_Phase PhaseQueued (set_ResolvedSpec (SnapshotOf spec) s)) r.

Definition set_phase_of (p : Phase) (r : TestRun) : TestRun := upd_status (set_Phase p) r.

(** Every state of the runs so far, latest first. *)
Definition history (s : forbid_state) : list (list TestRun) := fb_runs s :: fb_past s.

(** A run is created: the API server gives it a UID no run has had, its status
    is empty. *)
Definition fresh_run (s : forbid_state) (r : TestRun) : Prop :=
  (∀ v x, v ∈ history s → x ∈ v → run_uid x ≠ run_uid r) ∧ r_Status r = zeroStatus.

(** It joins the end of the queue: every run before it has an earlier second
    or a smaller name, and it is not scheduled for later. *)
Definition queues_last (s : forbid_state) (r : TestRun) : Prop :=
  rs_NotBefore (r_Spec r) = None ∧ ∀ v x, v ∈ history s → x ∈ v → queuedBefore x r = true.

(** The listing shows every start written by then. *)
Definition shows_starts (view runs : list TestRun) : Prop :=
  ∀ a, a ∈ runs → started a → ∃ a', a' ∈ view ∧ run_uid a' = run_uid a ∧ started a' ∧ (terminal a' → terminal a).

Definition moved (s : forbid_state) (runs : list TestRun) (deciding : list TestRun) : forbid_state :=
  mkForbid runs (history s) deciding (fb_now s).

(** The two regimes in which runs are handled: with [caught_up], one setup at
    a time and on a listing that shows every start already written, whatever
    the order the runs were created in; without, any number of setups at once
    and on listings as old as they may be, the runs joining the queue in its
    order. *)
Inductive forbid_step (caught_up : bool) (s : forbid_state) : forbid_state → Prop :=
| fs_create r :
    fresh_run s r → (caught_up = false → queues_last s r) →
    forbid_step caught_up s (moved s (fb_runs s ++ [r]) (fb_deciding s))
| fs_decide newer view older read r :
    history s = newer ++ view :: older → read ∈ view :: older → r ∈ read →
    waiting r → waitingForSchedule r (fb_now s) = false →
    (caught_up = true → fb_deciding s = [] ∧ shows_starts view (fb_runs s)) →
    setup_decision view r PolicyForbid (fb_now s) = ConcurrencyProceed →
    forbid_step caught_up s (mkForbid (fb_runs s) (fb_past s) (r :: fb_deciding s) (fb_now s))
| fs_write d1 d2 c1 c2 r spec :
    fb_deciding s = d1 ++ r :: d2 → fb_runs s = c1 ++ r :: c2 →
    forbid_step caught_up s (moved s (c1 ++ resolve_run spec r :: c2) (d1 ++ d2))
| fs_give_up d1 d2 r :
    fb_deciding s = d1 ++ r :: d2 →
    forbid_step caught_up s (mkForbid (fb_runs s) (fb_past s) (d1 ++ d2) (fb_now s))
| fs_phase c1 c2 r p :
    fb_runs s = c1 ++ r :: c2 → IsTerminalPhase (run_phase r) = false →
    forbid_step caught_up s (moved s (c1 ++ set_phase_of p r :: c2) (fb_deciding s))
| fs_delete c1 c2 r :
    fb_runs s = c1 ++ r :: c2 → forbid_step caught_up s (moved s (c1 ++ c2) (fb_deciding s))
| fs_tick now' :
    (fb_now s <= now')%Z → forbid_step caught_up s (mkForbid (fb_runs s) (fb_past s) (fb_deciding s) now').

Inductive forbid_reachable (caught_up : bool) : forbid_state → Prop :=
| fr_init now : forbid_reachable caught_up (mkForbid [] [] [] now)
| fr_step s s' : forbid_reachable caught_up s → forbid_step caught_up s s' → forbid_reachable caught_up s'.

#[local] Hint Constructors forbid_step forbid_reachable : core.

(** *** What a step does to the runs *)

(** The places of one element of a list. *)
Lemma elem_of_middle {A} (c1 c2 : list A) x y : y ∈ c1 ++ x :: c2 → y = x ∨ y ∈ c1 ++ c2.
Proof. rewrite !elem_of_app, elem_of_cons. tauto. Qed.

Lemma elem_of_others {A} (c1 c2 : list A) x y : y ∈ c1 ++ c2 → y ∈ c1 ++ x :: c2.
Proof. rewrite !elem_of_app, elem_of_cons. tauto. Qed.

Lemma elem_of_here {A} (c1 c2 : list A) x : x ∈ c1 ++ x :: c2.
Proof. rewrite elem_of_app, elem_of_cons. tauto. Qed.

(** The same run, later. *)
Definition evolves (x y : TestRun) : Prop :=
  r_Meta y = r_Meta x ∧ r_Spec y = r_Spec x ∧ (terminal x → terminal y).

Lemma evolves_refl x : evolves x x.
Proof. done. Qed.

Lemma evolves_trans x y z : evolves x y → evolves y z → evolves x z.
Proof. intros (? & ? & ?) (? & ? & ?). split_and!; [congruence..|auto]. Qed.

Lemma evolves_uid x y : evolves x y → run_uid y = run_uid x.
Proof. intros (H & _). unfold run_uid. by rewrite H. Qed.

Lemma queuedBefore_meta a a' b b' :
  r_Meta a' = r_Meta a → r_Meta b' = r_Meta b → queuedBefore a' b' = queuedBefore a b.
Proof. intros Ha Hb. unfold queuedBefore, run_name. by rewrite Ha, Hb. Qed.

Definition uids_distinct (c : list TestRun) : Prop := NoDup (run_uid <$> c).

Lemma uids_distinct_inj c a b : uids_distinct c → a ∈ c → b ∈ c → run_uid a = run_uid b → a = b.
Proof.
  intros Hd Ha Hb E. apply list_elem_of_lookup in Ha as [i Hi], Hb as [j Hj].
  assert (i = j) as ->; [|congruence].
  eapply NoDup_lookup; [exact Hd|by rewrite list_lookup_fmap, Hi|by rewrite list_lookup_fmap, Hj, E].
Qed.

(** Where a run of the next state comes from. *)
Definition comes_from (caught_up : bool) (s : forbid_state) (y : TestRun) : Prop :=
  (∃ x, x ∈ fb_runs s ∧ evolves x y ∧ (holding y → holding x ∨ x ∈ fb_deciding s)) ∨
  (fresh_run s y ∧ (caught_up = false → queues_last s y)).

Lemma comes_from_same caught_up s y : y ∈ fb_runs s → comes_from caught_up s y.
Proof. intros H. left. exists y. auto using evolves_refl. Qed.

Lemma fresh_not_holding s r : fresh_run s r → ¬ holding r.
Proof. intros [_ Hs] [_ H]. unfold started in H. by rewrite Hs in H. Qed.

Definition deciding_known (s : forbid_state) : Prop :=
  ∀ r, r ∈ fb_deciding s → waiting r ∧ ∃ v, v ∈ history s ∧ r ∈ v.

Lemma queue_step_runs caught_up s s' : forbid_step caught_up s s' → deciding_known s →
  (fb_runs s' = fb_runs s ∧ history s' = history s) ∨
  (history s' = fb_runs s' :: history s ∧ ∀ y, y ∈ fb_runs s' → comes_from caught_up s y).
Proof.
  intros Hstep Hk.
  destruct Hstep as [r Hf Hq|newer view older read r Hh Hread Hr Hw Hn Hc Hd|d1 d2 c1 c2 r spec Hd Hc|d1 d2 r Hd|c1 c2 r p Hc Ht|c1 c2 r Hc|];
    [right|by left|right|by left|right|right|by left]; (split; [done|]); cbn; intros y Hy.
  - apply elem_of_app in Hy as [Hy| ->%list_elem_of_singleton]; [by apply comes_from_same|by right].
  - destruct (Hk r) as [[Hnt _] _]; [rewrite Hd; apply elem_of_here|].
    apply elem_of_middle in Hy as [->|Hy]; [|apply comes_from_same; rewrite Hc; by apply elem_of_others].
    left. exists r. split_and!; [rewrite Hc; apply elem_of_here|by repeat split|intros _; right; rewrite Hd; apply elem_of_here].
  - apply elem_of_middle in Hy as [->|Hy]; [|apply comes_from_same; rewrite Hc; by apply elem_of_others].
    left. exists r. unfold evolves, holding, terminal. rewrite Ht. split_and!; [rewrite Hc; apply elem_of_here|done..|]. intros [_ Hs]. left. split; [done|exact Hs].
  - apply comes_from_same. rewrite Hc. by apply elem_of_others.
Qed.

Lemma step_uids caught_up s s' : forbid_step caught_up s s' → uids_distinct (fb_runs s) → uids_distinct (fb_runs s').
Proof.
  unfold uids_distinct. intros Hstep Hd.
  destruct Hstep as [r [Hf _] _| |d1 d2 c1 c2 r spec _ Hc| |c1 c2 r p Hc _|c1 c2 r Hc|]; cbn; try exact Hd.
  - rewrite fmap_app. apply NoDup_app. split_and!; [done| |apply NoDup_singleton].
    intros u (x & -> & Hx)%list_elem_of_fmap. specialize (Hf (fb_runs s) x (list_elem_of_here _ _) Hx). by intros E%list_elem_of_singleton.
  - rewrite Hc in Hd. by rewrite fmap_app, fmap_cons in *.
  - rewrite Hc in Hd. by rewrite fmap_app, fmap_cons in *.
  - rewrite Hc, fmap_app, fmap_cons in Hd. rewrite fmap_app. eapply sublist_NoDup; [exact Hd|].
    apply sublist_app; [reflexivity|by apply sublist_cons].
Qed.

Lemma step_known caught_up s s' : forbid_step caught_up s s' → deciding_known s → deciding_known s'.
Proof.
  intros Hstep Hk. assert (Hsub : ∀ t, (∀ r, r ∈ fb_deciding t → r ∈ fb_deciding s) → (∀ v, v ∈ history s → v ∈ history t) → deciding_known t).
  { intros t Hdec Hhist r Hr. destruct (Hk r (Hdec r Hr)) as [Hw (v & Hv & Hin)]. split; [done|]. exists v. auto. }
  destruct Hstep as [r Hf Hq|newer view older read r Hh Hread Hr Hw Hn Hc Hd|d1 d2 c1 c2 r spec Hd Hc|d1 d2 r Hd|c1 c2 r p Hc Ht|c1 c2 r Hc|];
    try (apply Hsub; [intros r' Hr'; exact Hr'|intros v Hv; first [exact Hv|by right]]).
  2-3: apply Hsub; [cbn; rewrite Hd; by intros ?; apply elem_of_others|intros v Hv; first [exact Hv|by right]].
  intros r' [->|Hr']%elem_of_cons; [|by apply Hk]. split; [done|]. exists read. split; [|done].
  change (history _) with (history s). rewrite Hh. apply elem_of_app. by right.
Qed.

(** *** Listings that show every start *)

Definition one_holder (c : list TestRun) : Prop :=
  ∀ a b, a ∈ c → b ∈ c → holding a → holding b → run_uid a = run_uid b.

Record caught_up_inv (s : forbid_state) : Prop := {
  ci_holder : one_holder (fb_runs s);
  ci_single : length (fb_deciding s) <= 1;
  ci_clear : ∀ r a, r ∈ fb_deciding s → a ∈ fb_runs s → holding a → run_uid a = run_uid r;
}.

Lemma shown_start_blocks view runs r now a :
  shows_starts view runs → setup_decision view r PolicyForbid now = ConcurrencyProceed →
  a ∈ runs → holding a → run_uid a = run_uid r.
Proof.
  intros Hs Hd Ha [Hnt Hst]. destruct (Hs a Ha Hst) as (a' & Ha' & Hu & Hst' & Ht').
  destruct (decide (run_uid a = run_uid r)) as [|Hne]; [done|exfalso].
  unfold setup_decision in Hd. rewrite Forbid_proceeds in Hd.
  destruct (Hd a') as [H _]; [|by auto|by rewrite Hu|by apply H].
  rewrite list_elem_of_In, filter_In, <- list_elem_of_In. split; [done|].
  unfold waitingForSchedule. unfold started in Hst'. by rewrite Hst'.
Qed.

Lemma caught_up_step s s' : forbid_step true s s' → deciding_known s → uids_distinct (fb_runs s) → caught_up_inv s → caught_up_inv s'.
Proof.
  intros Hstep Hk Hu [Hone Hlen Hclear].
  assert (Hkeep : ∀ t, (∀ y, y ∈ fb_runs t → holding y → ∃ x, x ∈ fb_runs s ∧ holding x ∧ run_uid x = run_uid y) →
    (fb_deciding t = fb_deciding s ∨ fb_deciding t = []) → caught_up_inv t).
  { intros t Hfrom Hdec. split.
    - intros a b Ha Hb Hha Hhb. destruct (Hfrom a Ha Hha) as (x & ? & ? & <-), (Hfrom b Hb Hhb) as (y & ? & ? & <-). auto.
    - destruct Hdec as [-> | ->]; [done|cbn; lia].
    - intros r a Hr Ha Hha. destruct Hdec as [Hdec|Hdec]; rewrite Hdec in Hr; [|inversion Hr].
      destruct (Hfrom a Ha Hha) as (x & ? & ? & <-). auto. }
  assert (Hsame : ∀ y : TestRun, y ∈ fb_runs s → holding y → ∃ x, x ∈ fb_runs s ∧ holding x ∧ run_uid x = run_uid y) by eauto.
  destruct Hstep as [r Hf Hq|newer view older read r Hh Hread Hr Hw Hn Hc Hd|d1 d2 c1 c2 r spec Hd Hc|d1 d2 r Hd|c1 c2 r p Hc Ht|c1 c2 r Hc|].
  - apply Hkeep; [|by left]. intros y [Hy| ->%list_elem_of_singleton]%elem_of_app Hhy; [eauto|]. by destruct (fresh_not_holding _ _ Hf).
  - destruct (Hc eq_refl) as [Hnil Hshow]. split; cbn; [done|by rewrite Hnil|].
    intros r' a [->|Hr']%elem_of_cons Ha Hha; [|rewrite Hnil in Hr'; inversion Hr']. by eapply shown_start_blocks.
  - rewrite Hd, length_app in Hlen. cbn in Hlen. assert (d1 = [] ∧ d2 = []) as [-> ->] by (destruct d1, d2; cbn in *; first [done|lia]).
    split; cbn; [|lia|intros ? ? H; inversion H].
    assert (Hx : ∀ x, x ∈ c1 ++ resolve_run spec r :: c2 → holding x → run_uid x = run_uid r).
    { intros x Hx Hhx. apply elem_of_middle in Hx as [->|Hx]; [done|]. eapply Hclear; [rewrite Hd; apply elem_of_here|rewrite Hc; by apply elem_of_others|done]. }
    intros a b Ha Hb Hha Hhb. by rewrite (Hx a), (Hx b).
  - rewrite Hd, length_app in Hlen. cbn in Hlen. apply Hkeep; [done|right]. cbn. destruct d1, d2; cbn in *; first [done|lia].
  - apply Hkeep; [|by left]. intros y Hy Hhy. apply elem_of_middle in Hy as [->|Hy]; [|apply Hsame; [rewrite Hc; by apply elem_of_others|done]].
    exists r. split_and!; [rewrite Hc; apply elem_of_here| |done]. split; [unfold terminal; by rewrite Ht|apply Hhy].
  - apply Hkeep; [|by left]. intros y Hy Hhy. apply Hsame; [rewrite Hc; by apply elem_of_others|done].
  - by apply Hkeep; [|left].
Qed.

(** *** Runs created in the order of the queue *)

(** What [queuedBefore] compares. *)
Definition queue_key (r : TestRun) : time * string := (om_CreationTimestamp (r_Meta r), run_name r).
Definition key_before (a b : time * string) : Prop :=
  (if negb (a.1 =? b.1)%Z then time_before a.1 b.1 else String.ltb a.2 b.2) = true.

Definition in_line (c : list TestRun) : Prop := StronglySorted key_before (queue_key <$> c).

Lemma in_line_before c a b : in_line c → a ∈ c → b ∈ c → run_uid a ≠ run_uid b → queuedBefore a b = true ∨ queuedBefore b a = true.
Proof.
  unfold in_line. intros Hl Ha Hb Hne. apply list_elem_of_split in Ha as (c1 & c2 & ->).
  rewrite fmap_app, fmap_cons in Hl. apply elem_of_app in Hb as [Hb|[->|Hb]%elem_of_cons]; [right|done|left].
  - eapply (StronglySorted_app_1_elem_of key_before _ _ (queue_key b) (queue_key a)) in Hl; [exact Hl|by apply list_elem_of_fmap_2|left].
  - apply StronglySorted_app_1_r in Hl. apply StronglySorted_inv in Hl as [_ Hl]. rewrite Forall_forall in Hl.
    by apply (Hl (queue_key b)), list_elem_of_fmap_2.
Qed.

Lemma step_line s s' : forbid_step false s s' → in_line (fb_runs s) → in_line (fb_runs s').
Proof.
  unfold in_line. intros Hstep Hd.
  destruct Hstep as [r _ Hq| |d1 d2 c1 c2 r spec _ Hc| |c1 c2 r p Hc _|c1 c2 r Hc|]; cbn; try exact Hd.
  - rewrite fmap_app. apply StronglySorted_app_2; [|done|by repeat constructor].
    intros k k' (x & -> & Hx)%list_elem_of_fmap ->%list_elem_of_singleton.
    destruct (Hq eq_refl) as [_ H]. by apply (H (fb_runs s) x); [left|].
  - rewrite Hc in Hd. by rewrite fmap_app, fmap_cons in *.
  - rewrite Hc in Hd. by rewrite fmap_app, fmap_cons in *.
  - rewrite Hc, fmap_app, fmap_cons, StronglySorted_app in Hd. rewrite fmap_app, StronglySorted_app.
    destruct Hd as (Hx & ? & [? _]%StronglySorted_inv). split_and!; [|done..]. intros k k' ??. apply Hx; [done|by right].
Qed.

Record in_order_inv (s : forbid_state) : Prop := {
  oi_evolves : ∀ v x y, v ∈ history s → x ∈ v → y ∈ fb_runs s → run_uid x = run_uid y → evolves x y;
  oi_shown : ∀ newer v older u x y, history s = newer ++ v :: older → u ∈ v :: older → x ∈ u → y ∈ fb_runs s →
    queuedBefore y x = true → ∃ y', y' ∈ v ∧ run_uid y' = run_uid y;
  oi_now : ∀ v x, v ∈ history s → x ∈ v → rs_NotBefore (r_Spec x) = None;
  oi_line : in_line (fb_runs s);
  oi_clear : ∀ r a, r ∈ fb_deciding s → a ∈ fb_runs s → queuedBefore a r = true → terminal a;
  oi_holder : ∀ b a, b ∈ fb_runs s → holding b → a ∈ fb_runs s → queuedBefore a b = true → terminal a;
}.

(** A run queued before the one deciding, and not finished, keeps it waiting
    however old the listing is. *)
Lemma older_run_blocks s newer view older read r a :
  in_order_inv s → history s = newer ++ view :: older → read ∈ view :: older → r ∈ read →
  setup_decision view r PolicyForbid (fb_now s) = ConcurrencyProceed →
  a ∈ fb_runs s → queuedBefore a r = true → terminal a.
Proof.
  intros Hi Hh Hread Hr Hd Ha Hq. destruct (decide (terminal a)) as [|Hnt]; [done|exfalso].
  destruct (oi_shown s Hi newer view older read r a) as (a' & Ha' & Hu); [done..|].
  assert (Hv : view ∈ history s) by (rewrite Hh; apply elem_of_app; right; by first [done|left]).
  destruct (oi_evolves s Hi view a' a Hv Ha' Ha Hu) as (Hm & _ & Ht).
  assert (Hq' : queuedBefore a' r = true) by (rewrite <- Hq; by apply queuedBefore_meta).
  unfold setup_decision in Hd. rewrite Forbid_proceeds in Hd.
  destruct (Hd a') as [_ Hb]; [|by auto| |congruence].
  - rewrite list_elem_of_In, filter_In, <- list_elem_of_In. split; [done|].
    unfold waitingForSchedule. rewrite (oi_now s Hi view a' Hv Ha'). by rewrite andb_false_r.
  - intros E. assert (Hr' : run_uid r = run_uid a) by congruence.
    destruct (oi_evolves s Hi read r a) as (Hm' & _); [rewrite Hh; set_solver|done..|].
    rewrite (queuedBefore_meta r a r r) in Hq by done. by rewrite queuedBefore_irrefl in Hq.
Qed.

Section InOrderStep.
Context (s s' : forbid_state) (Hi : in_order_inv s) (Hnew : history s' = fb_runs s' :: history s)
  (Hfrom : ∀ y, y ∈ fb_runs s' → comes_from false s y) (Hdist : uids_distinct (fb_runs s')).

Lemma runs_in_history : fb_runs s ∈ history s.
Proof. left. Qed.

Lemma in_order_evolves v x y : v ∈ history s' → x ∈ v → y ∈ fb_runs s' → run_uid x = run_uid y → evolves x y.
Proof.
  rewrite Hnew. intros [->|Hv]%elem_of_cons Hx Hy E.
  { by rewrite (uids_distinct_inj _ _ _ Hdist Hx Hy E). }
  destruct (Hfrom y Hy) as [(y0 & Hy0 & He & _)|[[Hf _] _]]; [|by destruct (Hf v x Hv Hx)].
  eapply evolves_trans; [|exact He]. eapply (oi_evolves s Hi); [done..|]. by rewrite E, (evolves_uid _ _ He).
Qed.

Lemma in_order_shown newer v older u x y : history s' = newer ++ v :: older → u ∈ v :: older → x ∈ u → y ∈ fb_runs s' →
  queuedBefore y x = true → ∃ y', y' ∈ v ∧ run_uid y' = run_uid y.
Proof.
  rewrite Hnew. intros Hh Hu Hx Hy Hq. destruct newer as [|n newer]; [by injection Hh as <- _; exists y|]. apply (f_equal tail) in Hh. cbn [tail app] in Hh.
  assert (Hin : u ∈ history s) by (rewrite Hh; apply elem_of_app; right; by first [done|left]).
  destruct (Hfrom y Hy) as [(y0 & Hy0 & He & _)|[_ Hlast]].
  - rewrite (evolves_uid _ _ He). eapply (oi_shown s Hi); [done..|]. rewrite <- Hq. symmetry. by apply queuedBefore_meta; [apply He|].
  - destruct (Hlast eq_refl) as [_ Hl]. pose proof (queuedBefore_trans _ _ _ Hq (Hl u x Hin Hx)) as Hc.
    by rewrite queuedBefore_irrefl in Hc.
Qed.

Lemma in_order_now v x : v ∈ history s' → x ∈ v → rs_NotBefore (r_Spec x) = None.
Proof.
  rewrite Hnew. intros [->|Hv]%elem_of_cons Hx; [|by eapply (oi_now s Hi)].
  destruct (Hfrom x Hx) as [(y0 & Hy0 & (_ & Hs & _) & _)|[_ Hlast]].
  - rewrite Hs. eapply (oi_now s Hi); [apply runs_in_history|done].
  - by apply Hlast.
Qed.

End InOrderStep.

Lemma in_order_clear s r a : in_order_inv s → comes_from false s a →
  deciding_known s → r ∈ fb_deciding s → queuedBefore a r = true → terminal a.
Proof.
  intros Hi Ha Hk Hr Hq. destruct Ha as [(a0 & Ha0 & He & _)|[_ Hlast]].
  - apply He. eapply (oi_clear s Hi); [done..|]. rewrite <- Hq. symmetry. by apply queuedBefore_meta; [apply He|].
  - destruct (Hk r Hr) as [_ (v & Hv & Hin)]. destruct (Hlast eq_refl) as [_ Hl].
    pose proof (queuedBefore_trans _ _ _ Hq (Hl v r Hv Hin)) as Hc. by rewrite queuedBefore_irrefl in Hc.
Qed.

Lemma in_order_holder s b a : in_order_inv s → deciding_known s → comes_from false s b → comes_from false s a →
  holding b → queuedBefore a b = true → terminal a.
Proof.
  intros Hi Hk Hb Ha Hh Hq. destruct Hb as [(b0 & Hb0 & Heb & Hor)|[Hf _]]; [|by destruct (fresh_not_holding _ _ Hf)].
  rewrite (queuedBefore_meta a a b0 b) in Hq by first [done|apply Heb].
  destruct (Hor Hh) as [Hold|Hdec]; [|by eapply in_order_clear].
  destruct Ha as [(a0 & Ha0 & He & _)|[_ Hlast]].
  - apply He. eapply (oi_holder s Hi b0); [done..|]. rewrite <- Hq. symmetry. by apply queuedBefore_meta; [apply He|].
  - destruct (Hlast eq_refl) as [_ Hl]. pose proof (queuedBefore_trans _ _ _ Hq (Hl _ b0 (runs_in_history s) Hb0)) as Hc.
    by rewrite queuedBefore_irrefl in Hc.
Qed.

Lemma step_deciding caught_up s s' r : forbid_step caught_up s s' → r ∈ fb_deciding s' →
  r ∈ fb_deciding s ∨ (fb_runs s' = fb_runs s ∧ ∃ newer view older read,
    history s = newer ++ view :: older ∧ read ∈ view :: older ∧ r ∈ read ∧
    setup_decision view r PolicyForbid (fb_now s) = ConcurrencyProceed).
Proof.
  intros Hstep. destruct Hstep as [|newer view older read r' Hh Hread Hr Hw Hn Hc Hd|d1 d2 c1 c2 r' spec Hd _|d1 d2 r' Hd| | |]; cbn;
    try by left.
  - intros [->|Hr']%elem_of_cons; [|by left]. right. split; [done|]. by exists newer, view, older, read.
  - rewrite Hd. left. by apply elem_of_others.
  - rewrite Hd. left. by apply elem_of_others.
Qed.

Lemma in_order_step s s' : forbid_step false s s' → deciding_known s → uids_distinct (fb_runs s') → in_order_inv s → in_order_inv s'.
Proof.
  intros Hstep Hk Hdist Hi. pose proof (step_line s s' Hstep (oi_line s Hi)) as Hline.
  destruct (queue_step_runs false s s' Hstep Hk) as [[Hr Hh]|[Hnew Hfrom]].
  - split; rewrite ?Hh, ?Hr; [exact (oi_evolves s Hi)|exact (oi_shown s Hi)|exact (oi_now s Hi)|exact (oi_line s Hi)| |exact (oi_holder s Hi)].
    intros r a Hdec Ha Hq. destruct (step_deciding _ _ _ _ Hstep Hdec) as [Hd|(_ & newer & view & older & read & H1 & H2 & H3 & H4)].
    + by eapply (oi_clear s Hi).
    + by eapply older_run_blocks.
  - split; [by apply (in_order_evolves s s')|by apply (in_order_shown s s')|by apply (in_order_now s s')|done| |].
    + intros r a Hdec Ha Hq. destruct (step_deciding _ _ _ _ Hstep Hdec) as [Hd|(Hr & newer & view & older & read & H1 & H2 & H3 & H4)].
      * by eapply in_order_clear; [..|exact Hk|exact Hd|]; [done|apply Hfrom|].
      * rewrite Hr in Ha. by eapply older_run_blocks.
    + intros b a Hb Hh Ha Hq. by eapply (in_order_holder s b a); auto.
Qed.

(** *** The invariant of both regimes *)

Definition forbid_inv (caught_up : bool) (s : forbid_state) : Prop :=
  uids_distinct (fb_runs s) ∧ deciding_known s ∧ if caught_up then caught_up_inv s else in_order_inv s.

Lemma forbid_invariant caught_up s : forbid_reachable caught_up s → forbid_inv caught_up s.
Proof.
  induction 1 as [now|s s' Hr (Hd & Hk & Hi) Hstep].
  - split; [apply NoDup_nil_2|]. split; [intros r Hr; inversion Hr|].
    assert (Hno : ∀ x, x ∈ fb_runs (mkForbid [] [] [] now) → False) by (intros x Hx; inversion Hx).
    assert (Hnone : ∀ v x, v ∈ history (mkForbid [] [] [] now) → x ∈ v → False) by (intros v x ->%list_elem_of_singleton Hx; inversion Hx).
    destruct caught_up.
    + split; [intros a b Ha; by destruct (Hno a)|cbn; lia|intros r a _ Ha; by destruct (Hno a)].
    + split; [intros v x y Hv Hx; by destruct (Hnone v x)|intros newer v older u x y _ _ _ Hy; by destruct (Hno y)
        |intros v x Hv Hx; by destruct (Hnone v x)|constructor|intros r a _ Ha; by destruct (Hno a)|intros b a Hb; by destruct (Hno b)].
  - split; [by eapply step_uids|]. split; [by eapply step_known|].
    destruct caught_up; [by eapply caught_up_step|]. eapply in_order_step; [done..| |done]. by eapply step_uids.
Qed.

(** C3: Under concurrencyPolicy Forbid at most one run of a Test is ever under way,
    although setup reads the runs from a cache and writes in a later call: in
    every state reachable by creating runs, deciding, writing (or failing to),
    advancing, ending and deleting them, two runs that are set up and not
    finished are the same run.  This holds in two regimes: one setup at a time
    on listings that show every start already written, for runs created in any
    order and scheduled at will; and any number of setups at once on listings
    as old as they may be, for runs created in the order of the queue and not
    scheduled for later. *)
Theorem Forbid_mutual_exclusion caught_up s a b :
  forbid_reachable caught_up s → a ∈ fb_runs s → b ∈ fb_runs s → holding a → holding b → run_uid a = run_uid b.
Proof.
  intros Hr Ha Hb Hha Hhb. destruct (forbid_invariant _ _ Hr) as (Hd & _ & Hi). destruct caught_up; [by apply (ci_holder s Hi)|].
  destruct (decide (run_uid a = run_uid b)) as [|Hne]; [done|exfalso].
  destruct (in_line_before _ _ _ (oi_line s Hi) Ha Hb Hne) as [Hq|Hq].
  - by apply Hha, (oi_holder s Hi b a).
  - by apply Hhb, (oi_holder s Hi a b).
Qed.

(** ** Concrete runs *)

Definition demo_run (name uid : string) (created : time) : TestRun :=
  mkTestRun (mkMeta name "ns" uid ∅ ∅ created None [] []) (mkRunSpec "smoke" ∅ None ∅ "api" None None) zeroStatus.
Definition demo_first : TestRun := demo_run "smoke-1" "u1" 1.
Definition demo_second : TestRun := demo_run "smoke-2" "u2" 2.
Definition demo_started : TestRun := resolve_run zeroTestSpec demo_first.

Definition demo_states : list forbid_state :=
  let s0 := mkForbid [] [] [] 5 in
  let s1 := moved s0 [demo_first] [] in
  let s2 := moved s1 [demo_first; demo_second] [] in
  let s3 := mkForbid (fb_runs s2) (fb_past s2) [demo_first] 5 in
  [s1; s2; s3; moved s3 [demo_started; demo_second] []].
Definition demo_state : forbid_state := default (mkForbid [] [] [] 5) (last demo_states).

(** The first run decides on a listing that does not show the second yet. *)
Lemma demo_reachable : forbid_reachable false demo_state.
Proof.
  refine (fr_step _ _ _ _ (fs_write _ (mkForbid [demo_first; demo_second] [[demo_first]; []] [demo_first] 5) [] [] [] [demo_second] demo_first zeroTestSpec eq_refl eq_refl)).
  refine (fr_step _ (mkForbid [demo_first; demo_second] [[demo_first]; []] [] 5) _ _
    (fs_decide _ (mkForbid [demo_first; demo_second] [[demo_first]; []] [] 5) [[demo_first; demo_second]] [demo_first] [[]] [demo_first] demo_first eq_refl _ _ _ eq_refl _ eq_refl)); [|left|left|split; intros H; discriminate H|discriminate].
  refine (fr_step _ (mkForbid [demo_first] [[]] [] 5) _ _ (fs_create _ (mkForbid [demo_first] [[]] [] 5) demo_second _ _)).
  - refine (fr_step _ (mkForbid [] [] [] 5) _ (fr_init _ 5) (fs_create _ (mkForbid [] [] [] 5) demo_first _ _)).
    + split; [|reflexivity]. intros v x ->%list_elem_of_singleton Hx. inversion Hx.
    + intros _. split; [reflexivity|]. intros v x ->%list_elem_of_singleton Hx. inversion Hx.
  - split; [|reflexivity]. intros v x [->|Hv%list_elem_of_singleton]%elem_of_cons Hx; [|subst; inversion Hx].
    apply list_elem_of_singleton in Hx as ->. discriminate.
  - intros _. split; [reflexivity|]. intros v x [->|Hv%list_elem_of_singleton]%elem_of_cons Hx; [|subst; inversion Hx].
    by apply list_elem_of_singleton in Hx as ->.
Qed.

Lemma Forbid_mutual_exclusion_witness : run_uid demo_started = run_uid demo_started.
Proof.
  refine (Forbid_mutual_exclusion false demo_state demo_started demo_started demo_reachable _ _ _ _).
  - left.
  - left.
  - split; [intros H; discriminate H|reflexivity].
  - split; [intros H; discriminate H|reflexivity].
Defined.

(** Neither regime: two runs of one second, created against the order of their names.
    The second starts before the cache shows the first; the first decides on a listing
    that shows the second but not its start: both proceed. *)
Example stale_listing_starts_two :
  let a := demo_run "smoke-1" "u1" 7 in let b := demo_run "smoke-2" "u2" 7 in
  setup_decision [b] b PolicyForbid 8 = ConcurrencyProceed ∧ setup_decision [b; a] a PolicyForbid 8 = ConcurrencyProceed.
Proof. split; reflexivity. Qed.

Lemma Forbid_queue_progress_witness :
  ∃ o, o ∈ [demo_second; demo_first] ∧ waiting o ∧
    (∀ r, r ∈ [demo_second; demo_first] → waiting r → queuedBefore r o = false) ∧
    ∀ r, r ∈ [demo_second; demo_first] → waiting r →
      (DecideConcurrency [demo_second; demo_first] (Some r) PolicyForbid = ConcurrencyProceed ↔ r = o).
Proof.
  refine (Forbid_queue_progress [demo_second; demo_first] demo_first _ _ _ _ _).
  - intros a b [->|[->|Ha]%elem_of_cons]%elem_of_cons [->|[->|Hb]%elem_of_cons]%elem_of_cons H;
      first [reflexivity|discriminate H|inversion Ha|inversion Hb].
  - intros a b [->|[->|Ha]%elem_of_cons]%elem_of_cons [->|[->|Hb]%elem_of_cons]%elem_of_cons H;
      first [reflexivity|discriminate H|inversion Ha|inversion Hb].
  - right. left.
  - split; intros H; discriminate H.
  - intros r [->|[->|Hr]%elem_of_cons]%elem_of_cons [_ H]; [discriminate H|discriminate H|inversion Hr].
Defined.

End Concurrency.
