(* ===== verification/Effects.v ===== *)
(** * Programs with effects

    A handler of the operator is a program over the operations it performs on
    the outside (API server, stores, log tailers, metrics): an inductive tree
    whose nodes are operations and whose branches are the responses.  Nothing is
    assumed of the environment: [exec] relates a program to every trace some
    environment can produce, [run] executes it against a concrete one, and
    [guards] is the predicate transformer used to prove that every trace is
    accepted by a monitor automaton. *)
From S2P Require Import Prelude.

Inductive prog (Op : Type → Type) (A : Type) : Type :=
| Ret (a : A)
| Do {R : Type} (o : Op R) (k : R → prog Op A).
Arguments Ret {Op A} a.
Arguments Do {Op A R} o k.

Fixpoint prog_bind {Op A B} (f : A → prog Op B) (p : prog Op A) : prog Op B :=
  match p with
  | Ret a => f a
  | Do o k => Do o (fun r => prog_bind f (k r))
  end.

#[export] Instance prog_mret Op : MRet (prog Op) := fun A => Ret.
#[export] Instance prog_mbind Op : MBind (prog Op) := fun A B => prog_bind.

(** Perform one operation. *)
Definition perform {Op : Type → Type} {R} (o : Op R) : prog Op R := Do o Ret.

(** [for _, x := range xs { body(x) }]. *)
Fixpoint for_each {Op A} (xs : list A) (body : A → prog Op unit) : prog Op unit :=
  match xs with
  | [] => Ret tt
  | x :: xs => body x ≫= fun _ => for_each xs body
  end.

(** A loop that ends the surrounding function with [inl] when the body does. *)
Fixpoint for_state {Op A S E} (xs : list A) (s : S) (body : A → S → prog Op (E + S)) : prog Op (E + S) :=
  match xs with
  | [] => Ret (inr s)
  | x :: xs => body x s ≫= fun r => match r with inl e => Ret (inl e) | inr s => for_state xs s body end
  end.

Section Traces.
Context {Op : Type → Type}.

(** One performed operation with the response it got. *)
Inductive event : Type :=
| Ev {R : Type} (o : Op R) (r : R).

Inductive exec {A} : prog Op A → list event → A → Prop :=
| exec_ret a : exec (Ret a) [] a
| exec_do {R} (o : Op R) k r tr a : exec (k r) tr a → exec (Do o k) (Ev o r :: tr) a.

(** A monitor: from a state, an operation is refused ([None]) or accepted with
    the next state as a function of the response. *)
Definition monitor (S : Type) : Type := ∀ R, S → Op R → option (R → S).

Fixpoint watch {S} (δ : monitor S) (s : S) (tr : list event) : option S :=
  match tr with
  | [] => Some s
  | Ev o r :: tr => match δ _ s o with Some f => watch δ (f r) tr | None => None end
  end.

Fixpoint guards {S A} (δ : monitor S) (s : S) (p : prog Op A) (Q : A → S → Prop) : Prop :=
  match p with
  | Ret a => Q a s
  | Do o k => match δ _ s o with Some f => ∀ r, guards δ (f r) (k r) Q | None => False end
  end.

Lemma guards_bind {S A B} (δ : monitor S) s (p : prog Op A) (f : A → prog Op B) Q :
  guards δ s p (fun a s' => guards δ s' (f a) Q) → guards δ s (p ≫= f) Q.
Proof.
  revert s. induction p as [a|R o k IH]; intros s; cbn; [done|].
  destruct (δ R s o); [|done]. intros H r. by apply IH.
Qed.

Lemma guards_mono {S A} (δ : monitor S) s (p : prog Op A) (Q Q' : A → S → Prop) :
  guards δ s p Q → (∀ a s', Q a s' → Q' a s') → guards δ s p Q'.
Proof.
  revert s. induction p as [a|R o k IH]; intros s; cbn; [auto|].
  destruct (δ R s o); [|done]. intros H HQ r. by apply IH.
Qed.

(** Sequencing with a lemma about the first program. *)
Lemma guards_seq {S A B} (δ : monitor S) s (p : prog Op A) (f : A → prog Op B) P Q :
  guards δ s p P → (∀ a s', P a s' → guards δ s' (f a) Q) → guards δ s (p ≫= f) Q.
Proof. intros H HQ. apply guards_bind. by eapply guards_mono. Qed.

Lemma guards_perform {S R} (δ : monitor S) s (o : Op R) (Q : R → S → Prop) f :
  δ _ s o = Some f → (∀ r, Q r (f r)) → guards δ s (perform o) Q.
Proof. intros H HQ. cbn. by rewrite H. Qed.

Lemma guards_for_each {S A} (δ : monitor S) (I : S → Prop) (xs : list A) body s :
  I s → (∀ x s, x ∈ xs → I s → guards δ s (body x) (fun _ s' => I s')) →
  guards δ s (for_each xs body) (fun _ s' => I s').
Proof.
  revert s. induction xs as [|x xs IH]; intros s Hs Hb; cbn; [done|].
  eapply guards_seq; [apply Hb; [set_solver|done]|]. intros ? s' Hs'. cbn beta in Hs'. apply IH; [done|].
  intros. apply Hb; set_solver.
Qed.

Lemma guards_for_state {S A T E} (δ : monitor S) (I : T → S → Prop) (X : E → S → Prop)
    (xs : list A) body (t : T) s :
  I t s →
  (∀ x t s, x ∈ xs → I t s →
     guards δ s (body x t) (fun r s' => match r with inl e => X e s' | inr t' => I t' s' end)) →
  guards δ s (for_state xs t body) (fun r s' => match r with inl e => X e s' | inr t' => I t' s' end).
Proof.
  revert t s. induction xs as [|x xs IH]; intros t s Hs Hb; cbn; [done|].
  eapply guards_seq; [apply Hb; [set_solver|done]|]. intros [e|t'] s' Hs'; [done|].
  apply IH; [done|]. intros. apply Hb; [set_solver|done].
Qed.

(** The same loop with the position in the invariant. *)
Lemma guards_for_state_at {S A T E} (δ : monitor S) (I : nat → T → S → Prop) (X : E → S → Prop)
    (xs : list A) body (t : T) s n :
  I n t s →
  (∀ k x t s, xs !! k = Some x → I (n + k) t s →
     guards δ s (body x t) (fun r s' => match r with inl e => X e s' | inr t' => I (n + k + 1) t' s' end)) →
  guards δ s (for_state xs t body)
    (fun r s' => match r with inl e => X e s' | inr t' => I (n + length xs) t' s' end).
Proof.
  revert t s n. induction xs as [|x xs IH]; intros t s n Hs Hb; cbn [for_state length].
  { by rewrite Nat.add_0_r. }
  eapply guards_seq; [apply (Hb 0); [done|by rewrite Nat.add_0_r]|].
  intros [e|t'] s' Hs'; [done|]. rewrite <- Nat.add_succ_comm. apply IH.
  - by replace (n + 0 + 1) with (Datatypes.S n) in Hs' by lia.
  - intros k y u v Hk Hi. replace (Datatypes.S n + k) with (n + Datatypes.S k) in * by lia. by apply Hb.
Qed.

(** Soundness: every trace of the program is accepted, and its result and final
    monitor state satisfy the postcondition. *)
Lemma guards_sound {S A} (δ : monitor S) s (p : prog Op A) Q tr a :
  guards δ s p Q → exec p tr a → ∃ s', watch δ s tr = Some s' ∧ Q a s'.
Proof.
  intros Hg He. revert s Hg. induction He as [a|R o k r tr a He IH]; intros s; cbn; [by eauto|].
  destruct (δ R s o); [|done]. intros H. by apply IH.
Qed.

(** What holds of the result of every execution may be used after a program. *)
Lemma guards_exec {S A} (δ : monitor S) s (p : prog Op A) (Q : A → S → Prop) (P : A → Prop) :
  (∀ tr a, exec p tr a → P a) → guards δ s p Q → guards δ s p (fun a s' => P a ∧ Q a s').
Proof.
  revert s. induction p as [a|R o k IH]; intros s HP; cbn.
  - intros HQ. split; [by eapply HP, exec_ret|done].
  - destruct (δ R s o); [|done]. intros HQ r. apply IH; [|done]. intros tr a Hex. eapply HP. by constructor.
Qed.

(** A stateless monitor is a predicate every event of the trace satisfies. *)
Definition only (P : ∀ R, Op R → bool) : monitor unit := fun R s o => if P R o then Some (fun _ => s) else None.

Definition event_ok (P : ∀ R, Op R → bool) (e : event) : Prop := match e with Ev o _ => P _ o = true end.

Lemma only_sound {A} P (p : prog Op A) Q tr a :
  guards (only P) tt p (fun a _ => Q a) → exec p tr a → Forall (event_ok P) tr ∧ Q a.
Proof.
  intros Hg He. revert Hg. induction He as [a|R o k r tr a He IH]; cbn; [done|].
  unfold only at 1. destruct (P R o) eqn:E; [|done]. intros H. destruct (IH (H r)). split; [|done].
  by constructor.
Qed.

(** A monitor that lets the operations of [P] pass without changing its state
    accepts every program made of them. *)
Lemma guards_lift {S A} (P : ∀ R, Op R → bool) (δ : monitor S) s (p : prog Op A) Q :
  (∀ R (o : Op R), P R o = true → δ R s o = Some (fun _ => s)) →
  guards (only P) tt p (fun a _ => Q a) → guards δ s p (fun a s' => s' = s ∧ Q a).
Proof.
  intros Hδ. induction p as [a|R o k IH]; cbn; [done|]. unfold only at 1.
  destruct (P R o) eqn:E; [|done]. rewrite (Hδ _ _ E). intros H r. by apply IH.
Qed.

Lemma guards_perform_bind {S R A} (δ : monitor S) s (o : Op R) (k : R → prog Op A) f Q :
  δ _ s o = Some f → (∀ r, guards δ (f r) (k r) Q) → guards δ s (perform o ≫= k) Q.
Proof. intros H HQ. cbn. by rewrite H. Qed.

Lemma guards_ret_bind {S A B} (δ : monitor S) s (a : A) (k : A → prog Op B) Q :
  guards δ s (k a) Q → guards δ s (Ret a ≫= k) Q.
Proof. done. Qed.

(** A condition on every operation performed, and a postcondition. *)
Fixpoint always {A} (P : ∀ R, Op R → Prop) (p : prog Op A) (Q : A → Prop) : Prop :=
  match p with
  | Ret a => Q a
  | Do o k => P _ o ∧ ∀ r, always P (k r) Q
  end.

Definition event_sat (P : ∀ R, Op R → Prop) (e : event) : Prop := match e with Ev o _ => P _ o end.

Lemma always_sound {A} P (p : prog Op A) Q tr a :
  always P p Q → exec p tr a → Forall (event_sat P) tr ∧ Q a.
Proof.
  intros Hp He. revert Hp. induction He as [a|R o k r tr a He IH]; cbn; [done|].
  intros [Ho H]. destruct (IH (H r)). split; [by constructor|done].
Qed.

Lemma always_seq {A B} P (p : prog Op A) (f : A → prog Op B) Q Q' :
  always P p Q' → (∀ a, Q' a → always P (f a) Q) → always P (p ≫= f) Q.
Proof.
  intros Hp Hf. revert Hp. induction p as [a|R o k IH]; cbn; [apply Hf|].
  intros [Ho H]. split; [done|]. intros r. by apply IH.
Qed.

Lemma always_mono {A} P (p : prog Op A) (Q Q' : A → Prop) :
  always P p Q → (∀ a, Q a → Q' a) → always P p Q'.
Proof. induction p as [a|R o k IH]; cbn; [auto|]. intros [Ho H] HQ. split; [done|]. intros r. by apply IH. Qed.

Lemma always_weaken {A} (P P' : ∀ R, Op R → Prop) (p : prog Op A) Q : always P p Q → (∀ R (o : Op R), P R o → P' R o) → always P' p Q.
Proof. intros Hp HP. revert Hp. induction p as [a|R o k IH]; cbn; [done|]. intros [Ho Hk]. split; [by apply HP|]. intros r. by apply IH. Qed.

Lemma always_perform {R A} P (o : Op R) (f : R → prog Op A) Q :
  P _ o → (∀ r, always P (f r) Q) → always P (perform o ≫= f) Q.
Proof. by cbn. Qed.

Lemma always_for_each {A} P (xs : list A) body :
  (∀ x, x ∈ xs → always P (body x) (fun _ => True)) → always P (for_each xs body) (fun _ => True).
Proof.
  induction xs as [|x xs IH]; cbn; [done|]. intros H. eapply always_seq; [apply H; set_solver|].
  intros _ _. apply IH. intros. apply H. set_solver.
Qed.

Lemma always_for_state {A T E} P (I : nat → T → Prop) (X : E → Prop) (xs : list A) body (t : T) n :
  I n t →
  (∀ k x t, xs !! k = Some x → I (n + k) t →
     always P (body x t) (fun r => match r with inl e => X e | inr t' => I (S (n + k)) t' end)) →
  always P (for_state xs t body) (fun r => match r with inl e => X e | inr t' => I (n + length xs) t' end).
Proof.
  revert t n. induction xs as [|x xs IH]; intros t n Ht Hb; cbn [for_state length].
  { by rewrite Nat.add_0_r. }
  eapply always_seq; [apply (Hb 0); [done|by rewrite Nat.add_0_r]|].
  intros [e|t'] H; [done|]. rewrite Nat.add_0_r in H. rewrite <- Nat.add_succ_comm. apply IH; [done|].
  intros k y u Hk Hi. replace (S n + k) with (n + S k) in * by lia. by apply Hb.
Qed.

Lemma always_only {A} (P : ∀ R, Op R → bool) (P' : ∀ R, Op R → Prop) (p : prog Op A) Q :
  (∀ R (o : Op R), P R o = true → P' R o) → guards (only P) tt p (fun a _ => Q a) → always P' p Q.
Proof.
  intros HP. induction p as [a|R o k IH]; cbn; [done|]. unfold only at 1.
  destruct (P R o) eqn:E; [|done]. intros H. split; [by apply HP|]. intros r. by apply IH.
Qed.

Lemma only_always {A} (P : ∀ R, Op R → bool) (p : prog Op A) Q :
  always (fun R o => P R o = true) p Q → guards (only P) tt p (fun a _ => Q a).
Proof.
  induction p as [a|R o k IH]; cbn; [done|]. unfold only at 1. intros [-> Hk]. intros r. by apply IH.
Qed.

(** ** Executions, inverted *)

Lemma exec_ret_inv {A} (a b : A) tr : exec (Ret a : prog Op A) tr b → tr = [] ∧ b = a.
Proof. by inversion 1. Qed.

Lemma exec_bind_inv {A B} (p : prog Op A) (f : A → prog Op B) tr b :
  exec (p ≫= f) tr b → ∃ tr1 tr2 a, tr = tr1 ++ tr2 ∧ exec p tr1 a ∧ exec (f a) tr2 b.
Proof.
  revert tr. induction p as [a|R o k IH]; intros tr.
  - intros H. exists [], tr, a. split; [done|]. split; [constructor|done].
  - remember (Do o k ≫= f) as q eqn:Eq. intros Hex. destruct Hex as [a|R' o' k' r tr a Hex]; cbn in Eq; [discriminate|].
    assert (∃ r', Ev o' r = Ev o r' ∧ exec (prog_bind f (k r')) tr a) as (r' & -> & Hex').
    { exact (match Eq in _ = q return
               match q with Do o k => ∃ r', Ev o' r = Ev o r' ∧ exec (k r') tr a | Ret _ => True end
             with eq_refl => ex_intro _ r (conj eq_refl Hex) end). }
    apply IH in Hex' as (tr1 & tr2 & x & -> & H1 & H2).
    exists (Ev o r' :: tr1), tr2, x. split; [done|]. split; [by constructor|done].
Qed.

Lemma exec_perform_inv {R} (o : Op R) tr (r : R) : exec (perform o) tr r → tr = [Ev o r].
Proof.
  unfold perform. remember (Do o Ret) as q eqn:Eq. intros Hex. destruct Hex as [a|R' o' k r0 tr a Hex]; [discriminate|].
  assert (∃ r', Ev o' r0 = Ev o r' ∧ exec (Ret r') tr a) as (r' & -> & Hex').
  { exact (match Eq in _ = q return
             match q with Do o k => ∃ r', Ev o' r0 = Ev o r' ∧ exec (k r') tr a | Ret _ => True end
           with eq_refl => ex_intro _ r0 (conj eq_refl Hex) end). }
  by apply exec_ret_inv in Hex' as [-> ->].
Qed.

Lemma exec_perform_bind_inv {R A} (o : Op R) (f : R → prog Op A) tr b :
  exec (perform o ≫= f) tr b → ∃ r tr', tr = Ev o r :: tr' ∧ exec (f r) tr' b.
Proof. intros (tr1 & tr2 & r & -> & ->%exec_perform_inv & H)%exec_bind_inv. by exists r, tr2. Qed.

(** A concrete environment: answers each operation from its state. *)
Fixpoint run {W A} (h : ∀ R, Op R → W → R * W) (p : prog Op A) (w : W) : A * W * list event :=
  match p with
  | Ret a => (a, w, [])
  | Do o k =>
      let '(r, w') := h _ o w in
      let '(a, w'', tr) := run h (k r) w' in (a, w'', Ev o r :: tr)
  end.

Lemma run_bind {W A B} (h : ∀ R, Op R → W → R * W) (p : prog Op A) (f : A → prog Op B) (w : W) :
  (run h (p ≫= f) w).1 = (run h (f (run h p w).1.1) (run h p w).1.2).1.
Proof.
  revert w. induction p as [a|R o k IH]; intros w; [done|]. cbn. destruct (h R o w) as [r w']. specialize (IH r w').
  change (prog_bind f (k r)) with (k r ≫= f). destruct (run h (k r ≫= f) w') as [[b w1] tr1], (run h (k r) w') as [[a w2] tr2]. cbn in *.
  rewrite IH. done.
Qed.

(** Every execution against an environment is one of the traces of [exec], so a
    program always returns. *)
Lemma run_exec {W A} (h : ∀ R, Op R → W → R * W) (p : prog Op A) (w : W) :
  exec p (run h p w).2 (run h p w).1.1.
Proof.
  revert w. induction p as [a|R o k IH]; intros w; cbn; [constructor|].
  destruct (h R o w) as [r w'] eqn:Eh. specialize (IH r w').
  destruct (run h (k r) w') as [[a w''] tr] eqn:Er. cbn in *. by constructor.
Qed.

End Traces.
Arguments event : clear implicits.
Arguments monitor : clear implicits.

(** ** Programs over other operations *)

Section Translation.
Context {Op Op' : Type → Type} (f : ∀ R, Op R → Op' R).

Fixpoint translate {A} (p : prog Op A) : prog Op' A :=
  match p with
  | Ret a => Ret a
  | Do o k => Do (f _ o) (fun r => translate (k r))
  end.
Definition translate_event (e : event Op) : event Op' := match e with Ev o r => Ev (f _ o) r end.

Lemma exec_do_inv {Op0 : Type → Type} {R A} (o : Op0 R) (k : R → prog Op0 A) tr b : exec (Do o k) tr b → ∃ r tr', tr = Ev o r :: tr' ∧ exec (k r) tr' b.
Proof. exact (exec_perform_bind_inv o k tr b). Qed.

Lemma exec_translate {A} (p : prog Op A) tr a : exec (translate p) tr a → ∃ tr0, tr = translate_event <$> tr0 ∧ exec p tr0 a.
Proof.
  revert tr. induction p as [b|R o k IH]; intros tr.
  - intros [-> ->]%exec_ret_inv. exists []. split; [done|constructor].
  - cbn [translate]. intros (r & tr' & -> & (tr0 & -> & H)%IH)%exec_do_inv. exists (Ev o r :: tr0). split; [done|by constructor].
Qed.

Lemma always_translate {A} (P : ∀ R, Op' R → Prop) (p : prog Op A) Q : always (fun R o => P R (f R o)) p Q → always P (translate p) Q.
Proof. induction p as [a|R o k IH]; cbn; [done|]. intros [Ho Hk]. split; [done|]. intros r. by apply IH. Qed.
End Translation.

(** ** What a trace shows *)

Section Views.
Context {Op : Type → Type}.

(** What each operation and its response show, and all of it in order. *)
Definition view (A : Type) : Type := ∀ R, Op R → R → list A.
Definition seen {A} (f : view A) (tr : list (event Op)) : list A := flat_map (fun e => match e with Ev o r => f _ o r end) tr.

Lemma seen_app {A} (f : view A) tr1 tr2 : seen f (tr1 ++ tr2) = seen f tr1 ++ seen f tr2.
Proof. apply flat_map_app. Qed.
Lemma seen_cons {A} (f : view A) {R} (o : Op R) r tr : seen f (Ev o r :: tr) = f R o r ++ seen f tr.
Proof. done. Qed.
Lemma elem_of_seen {A} (f : view A) tr x : x ∈ seen f tr ↔ ∃ R (o : Op R) r, Ev o r ∈ tr ∧ x ∈ f R o r.
Proof.
  unfold seen. rewrite list_elem_of_In, in_flat_map. split.
  - intros ([R o r] & He & Hx). exists R, o, r. by rewrite !list_elem_of_In.
  - intros (R & o & r & He & Hx). exists (Ev o r). by rewrite <- !list_elem_of_In.
Qed.

(** The executions of a loop: an invariant of the elements it went through, the
    trace so far and the state. *)
Lemma exec_for_state {A T E} (I : list A → list (event Op) → T → Prop) (X : list (event Op) → E → Prop) (xs : list A) body (t : T) tr r :
  I [] [] t →
  (∀ pre x rest tr t tr' r, xs = pre ++ x :: rest → I pre tr t → exec (body x t) tr' r →
     match r with inl e => X (tr ++ tr') e | inr t' => I (pre ++ [x]) (tr ++ tr') t' end) →
  exec (for_state xs t body) tr r → match r with inl e => X tr e | inr t' => I xs tr t' end.
Proof.
  intros H0 Hb.
  cut (∀ ys pre tr0 t tr r, xs = pre ++ ys → I pre tr0 t → exec (for_state ys t body) tr r →
         match r with inl e => X (tr0 ++ tr) e | inr t' => I xs (tr0 ++ tr) t' end).
  { intros Hc. by apply (Hc xs [] []). }
  clear t tr r H0. induction ys as [|y ys IH]; intros pre tr0 t tr r Hxs HI; cbn [for_state].
  { intros [-> ->]%exec_ret_inv. rewrite app_nil_r in Hxs |- *. by subst pre. }
  intros (tr1 & tr2 & [e|t'] & -> & Hex & Hr)%exec_bind_inv; pose proof (Hb _ _ _ _ _ _ _ Hxs HI Hex) as Hx; cbn beta iota in Hx.
  - apply exec_ret_inv in Hr as [-> ->]. by rewrite app_nil_r.
  - rewrite app_assoc. apply (IH (pre ++ [y]) _ t'); [by rewrite <- app_assoc|done|done].
Qed.

End Views.
Arguments view : clear implicits.

(** One step of a [guards] proof: an operation the monitor accepts by
    computation, a pure return, a branch, a sequence. *)
Ltac gstep :=
  lazymatch goal with
  | |- guards _ _ (Ret _) _ => cbn [guards]
  | |- guards _ _ (mbind _ (Ret _)) _ => apply guards_ret_bind
  | |- guards _ _ (mbind _ (perform _)) _ => eapply guards_perform_bind; [reflexivity|intros ?; cbn beta]
  | |- guards _ _ (mbind _ (match ?x with _ => _ end)) _ => destruct x eqn:?
  | |- guards _ _ (match ?x with _ => _ end) _ => destruct x eqn:?
  | |- guards _ _ (perform _) _ => eapply guards_perform; [reflexivity|intros ?; cbn beta]
  | |- guards _ _ (mbind _ (mbind _ _)) _ => apply guards_bind
  | |- guards _ _ (mbind _ (for_each _ _)) _ => apply guards_bind
  | |- guards _ _ (for_each _ _) _ =>
      eapply guards_mono; [apply (guards_for_each _ (fun _ => True)); [done|intros]|]
  end.

(** One step of an inversion of [exec] in a hypothesis. *)
Ltac exec_step :=
  lazymatch goal with
  | H : exec (Ret _) _ _ |- _ => apply exec_ret_inv in H as [? ?]; simplify_eq
  | H : exec (mbind _ (Ret _)) _ _ |- _ => cbn [mbind prog_mbind prog_bind] in H
  | H : exec (mbind _ (perform _)) _ _ |- _ =>
      let r := fresh "r" in let tr := fresh "tr" in
      apply exec_perform_bind_inv in H as (r & tr & ? & H); simplify_eq
  | H : exec (mbind _ (match ?x with _ => _ end)) _ _ |- _ => destruct x eqn:?
  | H : exec (mbind _ _) _ _ |- _ =>
      let tr1 := fresh "tr" in let tr2 := fresh "tr" in let a := fresh "a" in let H' := fresh "Hex" in
      apply exec_bind_inv in H as (tr1 & tr2 & a & ? & H' & H); simplify_eq
  | H : exec (match ?x with _ => _ end) _ _ |- _ => destruct x eqn:?
  end.
