(* ===== verification/Webhooks.v ===== *)
(** * What the operator tells others: metrics' labels, webhooks' payloads

    Metrics: the bounded label values of internal/metrics.  Webhooks: what an outbound
    webhook says about a run and which webhooks want it (webhookdelivery/payload.go and the
    Webhook resource). *)
From S2P Require Import Prelude Api GoLib.

Module Metrics.

Definition ToolOther : string := "other".
Definition KnownTools : list string :=
  ["k6"; "cypress"; "newman"; "jmeter"; "locust"; "playwright"; "pytest"; "gatling"; "gradle"; "maven";
   "artillery"; "soapui"; "zap-baseline"; "cucumber"; "kubepug"; "curl"; "composite"].
Definition SourceValues : list string := ["api"; "ui"; "cli"; "cron"; "trigger"; "gitops"].

Definition normalize (known : list string) (raw : string) : string :=
  let s := ToLower (TrimSpace raw) in
  if str_is_empty s then ToolOther
  else if existsb (String.eqb s) known then s else ToolOther.

Definition NormalizeTool (raw : string) : string := normalize KnownTools raw.
Definition NormalizeSource (raw : string) : string := normalize SourceValues raw.

Definition CodeClass (code : Z) : string :=
  (if code =? 0 then "err"
   else if (200 <=? code) && (code <? 300) then "2xx"
   else if (300 <=? code) && (code <? 400) then "3xx"
   else if (400 <=? code) && (code <? 500) then "4xx"
   else if (500 <=? code) && (code <? 600) then "5xx"
   else "err")%Z.

(** The labels stay within a fixed set whatever the input: a user cannot grow
    the metric's cardinality. *)
Lemma normalize_bounded known raw : normalize known raw ∈ ToolOther :: known.
Proof.
  unfold normalize. destruct (str_is_empty _); [set_solver|].
  destruct (existsb _ _) eqn:E; [|set_solver].
  apply existsb_elem in E as (x & Hx & ->%String.eqb_eq). set_solver.
Qed.

End Metrics.

Module Webhooks.

(** [valueFrom.secretKeyRef], the one source the dispatcher reads. *)
Record WebhookHeader := mkHeader { wh_Name : string; wh_Value : string; wh_SecretRef : option (string * string) }.

Record WebhookSpec := mkWebhookSpec {
  ws_URL : string;
  ws_Events : list string;
  ws_Headers : list WebhookHeader;
  ws_TimeoutSeconds : Z;
  ws_MaxRetries : Z;
}.
Record Webhook := mkWebhook { wk_Name : string; wk_Namespace : string; wk_Spec : WebhookSpec }.

Record Payload := mkPayload {
  py_Event : string;
  py_RunName : string;
  py_RunNamespace : string;
  py_RunUID : string;
  py_TestRef : string;
  py_Source : string;
  py_Tool : string;
  py_Phase : string;
  py_Message : string;
  py_QueuedAt : string;
  py_StartedAt : string;
  py_FinishedAt : string;
  py_DurationMs : Z;
  py_Metrics : strmap;
  py_TestCounts : option TestCounts;
  py_ArtifactRefs : list ArtifactRef;
  py_Timestamp : string;
}.

Definition format_opt (t : option time) : string :=
  match t with Some t => RFC3339_ms t | None => "" end.

Definition BuildPayload (event : string) (run : TestRun) (tool : string) (now : time) : Payload :=
  let st := r_Status run in
  mkPayload event (run_name run) (run_ns run) (run_uid run) (rs_TestRef (r_Spec run)) (rs_Source (r_Spec run))
    tool (phase_string (st_Phase st)) (st_Message st) (format_opt (st_QueuedAt st)) (format_opt (st_StartedAt st))
    (format_opt (st_FinishedAt st)) (st_DurationMs st) (st_Metrics st) (st_TestCounts st) (st_ArtifactRefs st)
    (RFC3339_ms now).

Definition EventMatches (events : list string) (event : string) : bool :=
  if (length events =? 0)%nat then true else existsb (fun e => (e =? event)%string) events.

(** One queued delivery ([webhookdelivery.Job]). *)
Record Delivery := mkDelivery {
  dl_Key : string * string;
  dl_Spec : WebhookSpec;
  dl_Namespace : string;
  dl_Payload : Payload;
  dl_QueuedAt : time;
}.

End Webhooks.
