(* ===== verification/PodPolicy.v ===== *)
(** * internal/podpolicy: what a test pod may ask for

    [Policy.Check] with the texts of the violations it reports, in order;
    [errors.Join] prints them one per line.  A capability is its string. *)
From S2P Require Import Prelude Api GoLib.

Module PodPolicy.

Record Policy := mkPolicy { po_ServiceAccounts : list string; po_AllowHostPath : bool }.

Definition defaultSA : string := "default".

Definition baselineCapabilities : list string :=
  ["AUDIT_WRITE"; "CHOWN"; "DAC_OVERRIDE"; "FOWNER"; "FSETID"; "KILL"; "MKNOD";
   "NET_BIND_SERVICE"; "SETFCAP"; "SETGID"; "SETPCAP"; "SETUID"; "SYS_CHROOT"].

Definition slices_Contains (xs : list string) (x : string) : bool := existsb (String.eqb x) xs.

Definition kindEmptyDir := "emptyDir".
Definition kindConfigMap := "configMap".
Definition kindSecret := "secret".
Definition kindProjected := "projected".
Definition kindDownwardAPI := "downwardAPI".
Definition kindPersistentVolumeClaim := "persistentVolumeClaim".
Definition kindEphemeral := "ephemeral".
Definition kindCsi := "csi".
Definition kindHostPath := "hostPath".

Definition allowedVolumes : list string :=
  [kindEmptyDir; kindConfigMap; kindSecret; kindProjected; kindDownwardAPI;
   kindPersistentVolumeClaim; kindEphemeral; kindCsi].

Definition present {A} (o : option A) : bool := match o with Some _ => true | None => false end.

Definition volumeKind (s : VolumeSource) : string :=
  if present (vs_EmptyDir s) then kindEmptyDir
  else if present (vs_ConfigMap s) then kindConfigMap
  else if present (vs_Secret s) then kindSecret
  else if present (vs_Projected s) then kindProjected
  else if present (vs_DownwardAPI s) then kindDownwardAPI
  else if present (vs_PersistentVolumeClaim s) then kindPersistentVolumeClaim
  else if present (vs_Ephemeral s) then kindEphemeral
  else if present (vs_CSI s) then kindCsi
  else if present (vs_HostPath s) then kindHostPath
  else "this kind of".

Definition volumeAllowed (p : Policy) (kind : string) : bool :=
  slices_Contains allowedVolumes kind || ((kind =? kindHostPath)%string && po_AllowHostPath p).

Definition allowedSAs (p : Policy) : string := str_join ", " (defaultSA :: po_ServiceAccounts p).

Definition sa_forbidden (p : Policy) (sa : string) : bool :=
  negb (sa =? "")%string && negb (sa =? defaultSA)%string && negb (slices_Contains (po_ServiceAccounts p) sa).

Definition checkPod (p : Policy) (at_ : string) (pod : option PodConfig) : list string :=
  match pod with
  | None => []
  | Some pod =>
      let sa := pc_ServiceAccountName pod in
      (if sa_forbidden p sa then
         [at_ +:+ ".serviceAccountName " +:+ quote sa +:+ " is not allowed for test pods (allowed: "
            +:+ allowedSAs p +:+ ") — "
            +:+ "ask the platform admins to add it to testPods.allowedServiceAccounts"]
       else [])
      ++ flat_map (fun v =>
           let kind := volumeKind (vol_Source v) in
           if negb (volumeAllowed p kind) then
             [at_ +:+ ".volumes[" +:+ vol_Name v +:+ "]: " +:+ kind +:+ " volumes are not allowed for test pods"]
           else []) (default [] (pc_Volumes pod))
  end.

Definition checkContainer (at_ : string) (sc : option SecurityContext) : list string :=
  match sc with
  | None => []
  | Some sc =>
      (match sc_Privileged sc with
       | Some true => [at_ +:+ ".securityContext.privileged is not allowed for test pods"]
       | _ => []
       end)
      ++ match sc_CapabilitiesAdd sc with
         | None => []
         | Some add =>
             flat_map (fun c =>
               if negb (slices_Contains baselineCapabilities c) then
                 [at_ +:+ ".securityContext.capabilities.add " +:+ quote c +:+ " is not allowed for test pods"]
               else []) add
         end
  end.

(** [errors.Join]: nil when there is nothing to join. *)
Definition errors_Join (errs : list string) : option string :=
  match errs with [] => None | _ => Some (str_join (String newline "") errs) end.

Definition violations (p : Policy) (spec : TestSpec) (runPod : option PodConfig) : list string :=
  checkPod p "spec.pod" (ts_Pod spec) ++ checkPod p "spec.pod (TestRun)" runPod
    ++ checkContainer "spec.container" (cc_SecurityContext (ts_Container spec)).

Definition Policy_Check (p : Policy) (spec : option TestSpec) (runPod : option PodConfig) : option string :=
  match spec with
  | None => None
  | Some spec => errors_Join (violations p spec runPod)
  end.

(** ** What the policy promises *)

(** A volume stays within the pod, or is one of the API's own kinds: it names an
    allowed source, or a hostPath on a platform that admits it. *)
Definition source_contained (allowHostPath : bool) (s : VolumeSource) : Prop :=
  is_Some (vs_EmptyDir s) ∨ is_Some (vs_ConfigMap s) ∨ is_Some (vs_Secret s) ∨ is_Some (vs_Projected s)
  ∨ is_Some (vs_DownwardAPI s) ∨ is_Some (vs_PersistentVolumeClaim s) ∨ is_Some (vs_Ephemeral s)
  ∨ is_Some (vs_CSI s) ∨ (is_Some (vs_HostPath s) ∧ allowHostPath = true).

Record pod_permitted (p : Policy) (pod : PodConfig) : Prop := {
  pp_account : pc_ServiceAccountName pod ∈ "" :: defaultSA :: po_ServiceAccounts p;
  pp_volumes : ∀ vs v, pc_Volumes pod = Some vs → v ∈ vs → source_contained (po_AllowHostPath p) (vol_Source v);
}.

Record container_permitted (sc : SecurityContext) : Prop := {
  cp_privileged : sc_Privileged sc ≠ Some true;
  cp_capabilities : ∀ add c, sc_CapabilitiesAdd sc = Some add → c ∈ add → c ∈ baselineCapabilities;
}.

(** [hostPath] beside an allowed source is that source to the policy, but a
    volume with two sources is not one the API server stores. *)
Definition one_source (s : VolumeSource) : Prop :=
  (length (List.filter id
    [present (vs_EmptyDir s); present (vs_ConfigMap s); present (vs_Secret s); present (vs_Projected s);
     present (vs_DownwardAPI s); present (vs_PersistentVolumeClaim s); present (vs_Ephemeral s);
     present (vs_CSI s); present (vs_HostPath s); present (vs_Other s)]) ≤ 1)%nat.

Lemma slices_Contains_elem xs x : slices_Contains xs x = true ↔ x ∈ xs.
Proof.
  unfold slices_Contains. rewrite existsb_exists. setoid_rewrite <- list_elem_of_In.
  split; [intros (y & ? & ->%String.eqb_eq); done|intros; exists x; split; [done|apply String.eqb_refl]].
Qed.

Lemma flat_map_nil {A B} (f : A → list B) xs : flat_map f xs = [] ↔ ∀ x, x ∈ xs → f x = [].
Proof.
  induction xs as [|x xs IH]; cbn; [split; [intros _ x; by rewrite elem_of_nil|done]|].
  rewrite app_nil, IH. set_solver.
Qed.

Lemma present_is_Some {A} (o : option A) : present o = true ↔ is_Some o.
Proof. destruct o; cbn; split; intros ?; [by eexists|done|done|by destruct H]. Qed.

Lemma volumeAllowed_contained p s :
  volumeAllowed p (volumeKind s) = true ↔ source_contained (po_AllowHostPath p) s.
Proof.
  unfold source_contained. rewrite <- !present_is_Some. unfold volumeKind.
  destruct (present (vs_EmptyDir s)); [cbn; tauto|].
  destruct (present (vs_ConfigMap s)); [cbn; tauto|].
  destruct (present (vs_Secret s)); [cbn; tauto|].
  destruct (present (vs_Projected s)); [cbn; tauto|].
  destruct (present (vs_DownwardAPI s)); [cbn; tauto|].
  destruct (present (vs_PersistentVolumeClaim s)); [cbn; tauto|].
  destruct (present (vs_Ephemeral s)); [cbn; tauto|].
  destruct (present (vs_CSI s)); [cbn; tauto|].
  destruct (present (vs_HostPath s)), (po_AllowHostPath p) eqn:E; unfold volumeAllowed; rewrite E; cbn; intuition congruence.
Qed.

Lemma sa_forbidden_false p sa : sa_forbidden p sa = false ↔ sa ∈ "" :: defaultSA :: po_ServiceAccounts p.
Proof.
  unfold sa_forbidden. rewrite !elem_of_cons, <- slices_Contains_elem.
  case_eq (slices_Contains (po_ServiceAccounts p) sa); intros E;
    destruct (String.eqb_spec sa "") as [e1|e1]; destruct (String.eqb_spec sa defaultSA) as [e2|e2]; simpl;
    split; intros HH; try done; auto; destruct HH as [?|[?|?]]; done.
Qed.

Lemma checkPod_nil p at_ pod : checkPod p at_ pod = [] ↔ ∀ q, pod = Some q → pod_permitted p q.
Proof.
  destruct pod as [pod|]; [|naive_solver]. unfold checkPod.
  rewrite app_nil, flat_map_nil. split.
  - intros [Hsa Hvol] q [= <-]. split.
    + apply sa_forbidden_false. by destruct (sa_forbidden _ _).
    + intros vs v Hvs Hv. apply volumeAllowed_contained. rewrite Hvs in Hvol. specialize (Hvol v Hv).
      by destruct (volumeAllowed _ _).
  - intros Hp. destruct (Hp pod eq_refl) as [Hsa Hvol]. split.
    + apply sa_forbidden_false in Hsa. by rewrite Hsa.
    + intros v Hv. destruct (pc_Volumes pod) as [vs|]; cbn in *; [|set_solver].
      specialize (Hvol vs v eq_refl Hv). apply volumeAllowed_contained in Hvol. by rewrite Hvol.
Qed.

Lemma checkContainer_nil at_ sc : checkContainer at_ sc = [] ↔ ∀ c, sc = Some c → container_permitted c.
Proof.
  destruct sc as [sc|]; [|naive_solver]. unfold checkContainer. rewrite app_nil. split.
  - intros [Hp Hc] c [= <-]. split.
    + intros E. by rewrite E in Hp.
    + intros add x E Hx. rewrite E, flat_map_nil in Hc. specialize (Hc x Hx).
      apply slices_Contains_elem. revert Hc. by destruct (slices_Contains baselineCapabilities x).
  - intros Hsc. destruct (Hsc sc eq_refl) as [Hp Hc]. split.
    + by destruct (sc_Privileged sc) as [[]|].
    + destruct (sc_CapabilitiesAdd sc) as [add|]; [|done]. apply flat_map_nil. intros x Hx.
      specialize (Hc add x eq_refl Hx). apply slices_Contains_elem in Hc. by rewrite Hc.
Qed.

Lemma errors_Join_None errs : errors_Join errs = None ↔ errs = [].
Proof. by destruct errs. Qed.

Lemma Check_admits_iff p spec runPod :
  Policy_Check p (Some spec) runPod = None ↔
    (∀ pod, ts_Pod spec = Some pod → pod_permitted p pod)
    ∧ (∀ pod, runPod = Some pod → pod_permitted p pod)
    ∧ (∀ sc, cc_SecurityContext (ts_Container spec) = Some sc → container_permitted sc).
Proof.
  cbn. rewrite errors_Join_None. unfold violations.
  by rewrite !app_nil, !checkPod_nil, checkContainer_nil.
Qed.

(** The policy admits a Test and a run's pod override exactly when both pods use
    an allowed service account and only contained volumes, and the container is not
    privileged and adds baseline capabilities only. *)
Theorem Check_admits p spec runPod :
  Policy_Check p (Some spec) runPod = None ↔
    (∀ pod, ts_Pod spec = Some pod → pod_permitted p pod)
    ∧ (∀ pod, runPod = Some pod → pod_permitted p pod)
    ∧ (∀ sc, cc_SecurityContext (ts_Container spec) = Some sc → container_permitted sc).
Proof. apply Check_admits_iff. Qed.

Lemma one_source_hostPath s :
  one_source s → is_Some (vs_HostPath s) → volumeKind s = kindHostPath.
Proof.
  unfold one_source, volumeKind. rewrite <- present_is_Some. intros H1 H2. rewrite H2 in *.
  repeat match goal with |- context [if ?b then _ else _] => destruct b; [cbn in H1; repeat case_match; cbn in H1; lia|] end.
  done.
Qed.

(** On a platform that does not admit hostPath, no admitted pod mounts the
    node's filesystem, for volumes with the one source the API server requires. *)
Theorem no_hostPath p spec runPod pod vs v :
  po_AllowHostPath p = false →
  Policy_Check p (Some spec) runPod = None →
  ts_Pod spec = Some pod ∨ runPod = Some pod →
  pc_Volumes pod = Some vs → v ∈ vs → one_source (vol_Source v) →
  vs_HostPath (vol_Source v) = None.
Proof.
  intros Hp HC Hpod Hvs Hv Hone.
  assert (pod_permitted p pod) as [_ Hvol].
  { apply Check_admits_iff in HC as (H1 & H2 & _). destruct Hpod; auto. }
  specialize (Hvol vs v Hvs Hv). apply volumeAllowed_contained in Hvol.
  destruct (vs_HostPath (vol_Source v)) eqn:E; [|done].
  rewrite one_source_hostPath in Hvol; [|done|by rewrite E].
  unfold volumeAllowed in Hvol. by rewrite Hp in Hvol.
Qed.

End PodPolicy.
