(* ===== verification/Ops.v ===== *)
(** * What the TestRun reconciler does to the outside

    The operations of its Kubernetes clients (cached and live), the result
    reader, the run-history store, the log registry, the webhook dispatcher, the
    Prometheus metrics, the clock and the two in-process sets.  A response is
    whatever the environment answers.  Log lines are not operations.  The other
    packages the reconciler calls are pure; they are the methods of the class
    [Components]. *)
From S2P Require Import Prelude Api GoLib Objects Phases Webhooks PodPolicy.

Module Ops.
Export Objects Phases.

(** ** Errors: the classes the code tests with [apierrors.IsX] and [errors.Is],
    and the text *)

Inductive ErrKind :=
| ENotFound | EConflict | EAlreadyExists | EInvalid
| EBadRequest | ERowNotFound | EObjectNotFound
| EUnknownConfigKey | EResultNotFound | EResultMalformed | ETestDataKey | EVolumeSource
| EOther.
#[export] Instance ErrKind_eq_dec : EqDecision ErrKind.
Proof. solve_decision. Defined.

Record error := mkError { e_Kind : ErrKind; e_Text : string }.
#[export] Instance error_eq_dec : EqDecision error.
Proof. solve_decision. Defined.

Definition is_kind (k : ErrKind) (e : error) : bool := bool_decide (e_Kind e = k).

(** [fmt.Errorf("prefix: %w", err)] *)
Definition wrapf (prefix : string) (e : error) : error := mkError (e_Kind e) (prefix +:+ ": " +:+ e_Text e).

(** [client.IgnoreNotFound]. *)
Definition IgnoreNotFound (e : option error) : option error :=
  match e with Some e => if is_kind ENotFound e then None else Some e | None => None end.

Definition job_key (j : Job) : Key := mkKey (j_Namespace j) (j_Name j).

(** internal/compiler/parallel.go: [Worker]. *)
Record Worker := mkWorker { w_Index : Z; w_Count : Z; w_Matrix : strmap; w_Shard : strmap }.

(** A float64 is its shortest decimal rendering, what
    [strconv.FormatFloat(v, 'f', -1, 64)] prints. *)
Abbreviation float64 := string (only parsing).
Definition FormatFloat (v : float64) : string := v.

Record AttemptResult := mkAttempt { at_Phase : Phase; at_ErrorMessage : string }.

(** internal/controller/result_reader.go *)
Record RunResult := mkRunResult {
  res_Phase : Phase;
  res_ErrorMessage : string;
  res_Metrics : gmap string float64;
  res_TestCounts : option TestCounts;
  res_Content : option ContentStatus;
  res_Attempts : list AttemptResult;
  res_TestCases : list TestCase;
  res_Artifacts : list ArtifactRef;
  res_ToolFinishedAt : option time;
}.

(** [&RunResult{Phase: phase, ErrorMessage: msg}] *)
Definition plain_result (phase : Phase) (msg : string) : RunResult :=
  mkRunResult phase msg ∅ None None [] [] [] None.

(** ** Operations *)

Inductive Op : Type → Type :=
| Now : Op time
(* TestRuns *)
| GetRun (k : Key) : Op (result error TestRun)
| ListRuns (ns : string) : Op (result error (list TestRun))
| ListChildren (live : bool) (ns parent : string) : Op (result error (list TestRun))
| CreateRun (run : TestRun) : Op (option error)
| UpdateRun (run : TestRun) : Op (option error)
| UpdateStatus (run : TestRun) : Op (option error)
| PatchAbort (run : TestRun) (req : AbortRequest) : Op (option error)
| DeleteRun (run : TestRun) : Op (option error)
(* Tests *)
| GetTest (k : Key) : Op (result error Test)
| ReadTests (ns : string) : Op (string → option TestSpec)
| PatchLatestRun (k : Key) (next : RunReference) : Op (option error)
| ExistsTestLive (k : Key) : Op (result error bool)
| GetTemplate (k : Key) : Op (result error TestTemplate)
(* Jobs, pods, services, other objects *)
| GetJob (live : bool) (k : Key) : Op (result error Job)
| CreateJob (job : JobObject) : Op (option error)
| DeleteJob (k : Key) : Op (option error)
| GetPod (k : Key) : Op (result error Pod)
| ListPods (ns : string) (selector : strmap) : Op (result error (list Pod))
| CreateObject (o : Object) : Op (option error)
| DeleteObject (kind : string) (k : Key) : Op (option error)
| GetDataKeys (kind : string) (live : bool) (k : Key) : Op (result error (list string))
(* The wrapper's result.json, downloaded and decoded (a result or an error, never
   neither), and run history *)
| ReadResult (run : TestRun) : Op (result error RunResult)
| ReadWorkerResult (run : TestRun) (i : Z) : Op (result error RunResult)
| SaveFinished (run : TestRun) : Op (option error)
| SaveTestCases (run : TestRun) (cases : list TestCase) : Op (option error)
| PersistedLoad (k : Key) : Op bool
| PersistedStore (k : Key) : Op unit
| PersistedDelete (k : Key) : Op unit
(* Webhooks *)
| DispatchedLoad (dedup : string) : Op bool
| DispatchedStore (dedup : string) : Op unit
| ListWebhooks (ns : string) : Op (result error (list Webhooks.Webhook))
| Enqueue (d : Webhooks.Delivery) : Op unit
(* Log tailers *)
| EnsureTailer (id keys ns pod : string) : Op (option error)
| EnsureContainerTailer (id keys ns pod container : string) : Op (option error)
| StopTailer (id : string) : Op unit
(* Metrics *)
| RunsTotalInc (tool phase source : string) : Op unit
| ActiveRunsInc (tool : string) : Op unit
| ActiveRunsDec (tool : string) : Op unit
| ObserveDurationMs (tool : string) (ms : Z) : Op unit.

(** ** The reconciler's fields: which optional collaborators are wired, and the
    intervals *)

Record Config := mkConfig {
  cf_LogRegistry : bool;
  cf_RunStore : bool;
  cf_TestCaseSaver : bool;
  cf_WorkerResultReader : bool;
  cf_WebhookDispatcher : bool;
  cf_APIReader : bool;
  cf_FinishedRunTTL : duration;
  cf_FallbackRequeue : duration;
  cf_ConcurrencyWaitInterval : duration;
  cf_UnschedulableTimeout : duration;
  cf_PodPolicy : PodPolicy.Policy;
  cf_TemplateStore : bool;
  cf_ResolverEnv : strmap;
  cf_CompilerOpts : CompilerOptions;
}.

(** ctrl.Result *)
Record Result := mkResult { rq_RequeueAfter : duration }.
#[export] Instance Result_eq_dec : EqDecision Result.
Proof. solve_decision. Defined.
Definition no_requeue : Result := mkResult 0%Z.
Definition requeue_after (d : duration) : Result := mkResult d.

(** ** The packages the reconciler calls, and what of Go's library they rest on *)

Class Components := {
  Components_order :: MapOrder;
  Components_floats :: FloatSyntax;
  Components_regexp :: Regexp;
  (** the text of the error [json.Unmarshal] gives for a snapshot that does not decode *)
  unmarshalError : ResolvedSpec → string;
  (** the text of [apierrors.NewNotFound] for a kind and a name *)
  newNotFound : string → string → string;
  (** [json.Unmarshal] of an executor.ExecutionResult, then projectRunResult *)
  decodeResult : string → option RunResult;
}.

End Ops.
