(* ===== verification/Workers.v ===== *)
(** * internal/compiler/parallel.go: the workers of a parallel run

    [ParallelWorkers] expands [spec.parallel] into its workers: the matrix
    combinations and, within each, contiguous near-equal parts of the shard
    lists. *)
From S2P Require Import Prelude Api Names Ops.

Module Workers.
Import Ops.

Definition LabelWorker : string := "kubetest.io/worker".

(** One round of the matrix loop: every combination so far, with every value. *)
Definition extend_combos (values : list string) (key : string) (combos : list strmap) : list strmap :=
  combos ≫= fun c => (fun v => <[key := v]> c) <$> values.

Definition matrix_combos (m : gmap string (list string)) (keys : list string) (combos : list strmap) : list strmap :=
  foldl (fun combos key => extend_combos (default [] (m !! key)) key combos) combos keys.

Definition longest (shards : gmap string (list string)) : Z :=
  foldr (fun kv acc => Z.max acc (Z.of_nat (length kv.2))) 0%Z (map_to_list shards).

Definition workers_per_combo (p : ParallelSpec) : Z :=
  match pl_Count p with
  | Some n => n
  | None =>
      if bool_decide (pl_Shards p = ∅) then 1%Z
      else
        let per := longest (pl_Shards p) in
        let per := match pl_MaxCount p with Some m => Z.min per m | None => per end in
        Z.max per 1
  end.

(** [values[j*len(values)/per : (j+1)*len(values)/per]] *)
Definition shard_slice (per j : nat) (values : list string) : list string :=
  let n := length values in
  let lo := j * n / per in
  let hi := (j + 1) * n / per in
  take (hi - lo) (drop lo values).

Definition shard_of (p : ParallelSpec) (per j : nat) : strmap :=
  (fun values => str_join "," (shard_slice per j values)) <$> pl_Shards p.

Definition ParallelWorkers (p : option ParallelSpec) : list Worker :=
  match p with
  | None => []
  | Some p =>
      let combos := matrix_combos (pl_Matrix p) (sorted_keys (pl_Matrix p)) [∅] in
      let per := workers_per_combo p in
      let total := (Z.of_nat (length combos) * per)%Z in
      imap (fun i cj => mkWorker (Z.of_nat i) total cj.1 (shard_of p (Z.to_nat per) cj.2))
        (combos ≫= fun c => (fun j => (c, j)) <$> seq 0 (Z.to_nat per))
  end.

Definition WorkerJobName (run : TestRun) (i : Z) : string :=
  Names.Bounded (run_name run +:+ "-w" +:+ itoa i).

(** ** Shards *)

Lemma shard_slice_next per j values :
  take ((j + 1) * length values / per) values =
  take (j * length values / per) values ++ shard_slice per j values.
Proof.
  unfold shard_slice. set (n := length values).
  assert (j * n / per ≤ (j + 1) * n / per) by (apply Nat.Div0.div_le_mono; lia).
  rewrite <- (take_drop (j * n / per) (take ((j + 1) * n / per) values)).
  rewrite take_take, skipn_firstn_comm. f_equal; f_equal; lia.
Qed.

Lemma shard_slices_concat per values j :
  concat ((fun j => shard_slice per j values) <$> seq 0 j) = take (j * length values / per) values.
Proof.
  induction j as [|j IH]; [by rewrite Nat.Div0.div_0_l|].
  rewrite seq_S, fmap_app, concat_app, IH. cbn [fmap list_fmap concat].
  rewrite app_nil_r, Nat.add_0_l, <- shard_slice_next. by rewrite Nat.add_1_r.
Qed.

Lemma shard_slice_length per j values :
  0 < per → j < per →
  length values / per ≤ length (shard_slice per j values) ≤ length values / per + 1.
Proof.
  intros Hp Hj. unfold shard_slice. set (n := length values).
  assert (Hhi : (j + 1) * n / per ≤ n).
  { apply Nat.Div0.div_le_upper_bound. nia. }
  rewrite length_take, length_drop. fold n.
  pose proof (Nat.div_mod_eq (j * n) per). pose proof (Nat.mod_upper_bound (j * n) per).
  pose proof (Nat.div_mod_eq ((j + 1) * n) per). pose proof (Nat.mod_upper_bound ((j + 1) * n) per).
  pose proof (Nat.div_mod_eq n per). pose proof (Nat.mod_upper_bound n per).
  set (a := j * n / per) in *. set (b := (j + 1) * n / per) in *. set (c := n / per) in *. nia.
Qed.

(** ** Matrix combinations *)

Definition combo_of (m : gmap string (list string)) (keys : list string) (c : strmap) : Prop :=
  (∀ k, is_Some (c !! k) ↔ k ∈ keys) ∧ ∀ k v, c !! k = Some v → v ∈ default [] (m !! k).

Lemma matrix_combos_snoc m keys k combos :
  matrix_combos m (keys ++ [k]) combos = extend_combos (default [] (m !! k)) k (matrix_combos m keys combos).
Proof. unfold matrix_combos. by rewrite foldl_app. Qed.

Lemma matrix_combos_spec m keys :
  NoDup keys → ∀ c, c ∈ matrix_combos m keys [∅] ↔ combo_of m keys c.
Proof.
  induction keys as [|k keys IH] using rev_ind; intros Hnd c.
  - cbn. rewrite list_elem_of_singleton. unfold combo_of. split.
    + intros ->. split; [|intros ? ?; by rewrite lookup_empty].
      intros k. rewrite lookup_empty. split; [intros [? ?]; done|set_solver].
    + intros [H _]. apply map_eq. intros k. rewrite lookup_empty.
      destruct (c !! k) eqn:E; [|done]. exfalso. assert (k ∈ []) by (apply H; eauto). set_solver.
  - rewrite matrix_combos_snoc. unfold extend_combos.
    apply NoDup_app in Hnd as (Hnd & Hk & _).
    assert (Hk' : k ∉ keys) by (intros ?; eapply Hk; [done|set_solver]).
    rewrite list_elem_of_bind. setoid_rewrite list_elem_of_fmap. split.
    + intros (c0 & (v & -> & Hv) & [Hd Hin]%IH); [|done]. split.
      * intros k'. rewrite elem_of_app, list_elem_of_singleton, <- Hd.
        destruct (decide (k = k')) as [->|]; [rewrite lookup_insert_eq; naive_solver eauto|].
        rewrite lookup_insert_ne by done. naive_solver.
      * intros k' v'. destruct (decide (k = k')) as [->|]; [rewrite lookup_insert_eq; naive_solver|].
        rewrite lookup_insert_ne by done. apply Hin.
    + intros [Hd Hin]. destruct (c !! k) as [v|] eqn:Ek.
      2: { exfalso. assert (is_Some (c !! k)) as [? ?] by (apply Hd; set_solver). congruence. }
      exists (delete k c). split.
      * exists v. split; [by rewrite insert_delete_id|]. by apply Hin.
      * apply IH; [done|]. split.
        -- intros k'. destruct (decide (k = k')) as [<-|Hne].
           ++ rewrite lookup_delete_eq. split; [intros [? ?]; done|done].
           ++ rewrite lookup_delete_ne by done. rewrite Hd. set_solver.
        -- intros k' v' [_ H]%lookup_delete_Some. by apply Hin.
Qed.

Lemma grid_lookup {A} (combos : list A) (per i : nat) x :
  (combos ≫= fun c => (fun j => (c, j)) <$> seq 0 per) !! i = Some x →
  combos !! (i / per) = Some x.1 ∧ x.2 = i mod per ∧ 0 < per.
Proof.
  revert i. induction combos as [|c cs IH]; intros i; [done|]. cbn [mbind list_bind].
  destruct (decide (i < per)) as [Hi|Hi].
  - rewrite lookup_app_l by (rewrite length_fmap, length_seq; lia).
    rewrite list_lookup_fmap, lookup_seq_lt by done. intros [= <-]. cbn.
    rewrite Nat.div_small, Nat.mod_small by done. split_and!; [done..|lia].
  - rewrite lookup_app_r by (rewrite length_fmap, length_seq; lia).
    rewrite length_fmap, length_seq. intros (H1 & H2 & Hp)%IH. split_and!; [| |done].
    + replace i with ((i - per) + 1 * per) by lia. rewrite Nat.div_add by lia.
      by rewrite Nat.add_1_r.
    + rewrite H2. replace i with ((i - per) + 1 * per) at 2 by lia. by rewrite Nat.Div0.mod_add.
Qed.

Lemma grid_length {A} (combos : list A) (per : nat) :
  length (combos ≫= fun c => (fun j => (c, j)) <$> seq 0 per) = length combos * per.
Proof.
  induction combos as [|c cs IH]; [done|]. cbn [mbind list_bind].
  rewrite length_app, length_fmap, length_seq. cbn. f_equal. exact IH.
Qed.

Lemma grid_lookup_at {A} (combos : list A) (per i j : nat) c :
  combos !! i = Some c → j < per →
  (combos ≫= fun c => (fun j => (c, j)) <$> seq 0 per) !! (i * per + j) = Some (c, j).
Proof.
  revert i. induction combos as [|c' cs IH]; intros i; [done|]. cbn [mbind list_bind]. destruct i as [|i].
  - intros [= ->] Hj. rewrite lookup_app_l by (rewrite length_fmap, length_seq; lia).
    rewrite list_lookup_fmap. cbn. by rewrite lookup_seq_lt.
  - cbn [lookup list_lookup]. intros Hc Hj. rewrite lookup_app_r by (rewrite length_fmap, length_seq; lia).
    rewrite length_fmap, length_seq. rewrite <- (IH i) by done. f_equal. lia.
Qed.

Definition worker_group (p : ParallelSpec) : nat := Z.to_nat (workers_per_combo p).

Lemma ParallelWorkers_lookup p i w :
  ParallelWorkers (Some p) !! i = Some w →
  ∃ c, matrix_combos (pl_Matrix p) (sorted_keys (pl_Matrix p)) [∅] !! (i / worker_group p) = Some c ∧
    w = mkWorker (Z.of_nat i)
          (Z.of_nat (length (matrix_combos (pl_Matrix p) (sorted_keys (pl_Matrix p)) [∅])) * workers_per_combo p)%Z
          c (shard_of p (worker_group p) (i mod worker_group p)).
Proof.
  unfold ParallelWorkers. fold (worker_group p). rewrite list_lookup_imap. intros (x & Hx & ->)%fmap_Some_1.
  apply grid_lookup in Hx as (Hc & Hj & _). exists x.1. by rewrite Hj.
Qed.

Lemma ParallelWorkers_length p :
  length (ParallelWorkers (Some p)) =
  length (matrix_combos (pl_Matrix p) (sorted_keys (pl_Matrix p)) [∅]) * worker_group p.
Proof. unfold ParallelWorkers. fold (worker_group p). by rewrite length_imap, grid_length. Qed.

(** The workers of a parallel run: worker number [i] carries index [i] and the
    total; the workers come in one contiguous group per combination of matrix
    values, every combination has its group, and within a group worker [j]
    gets the [j]-th slice of each shard list, the slices of a list being
    contiguous, in order, together exactly the list, and of lengths that differ
    by at most one. *)
Theorem ParallelWorkers_partition p :
  (0 < workers_per_combo p)%Z →
  let ws := ParallelWorkers (Some p) in
  let per := Z.to_nat (workers_per_combo p) in
  (∀ i w, ws !! i = Some w → w_Index w = Z.of_nat i ∧ w_Count w = Z.of_nat (length ws) ∧
     combo_of (pl_Matrix p) (sorted_keys (pl_Matrix p)) (w_Matrix w)) ∧
  (∀ c, combo_of (pl_Matrix p) (sorted_keys (pl_Matrix p)) c →
     ∃ g, ∀ j, j < per → ∃ w, ws !! (g * per + j) = Some w ∧ w_Matrix w = c ∧
       ∀ key values, pl_Shards p !! key = Some values →
         w_Shard w !! key = Some (str_join "," (shard_slice per j values))) ∧
  (∀ values, concat ((fun j => shard_slice per j values) <$> seq 0 per) = values) ∧
  (∀ values j, j < per →
     length values / per ≤ length (shard_slice per j values) ≤ length values / per + 1).
Proof.
  intros Hpos ws per. assert (Hper : 0 < per) by (unfold per; lia).
  split_and!.
  - intros i w Hw. unfold ws in *. rewrite ParallelWorkers_length.
    apply ParallelWorkers_lookup in Hw as (c & Hc & ->). cbn. split_and!; [done|unfold worker_group; lia|].
    apply matrix_combos_spec; [apply sorted_keys_NoDup|]. by eapply list_elem_of_lookup_2.
  - intros c Hc. apply matrix_combos_spec in Hc; [|apply sorted_keys_NoDup].
    apply list_elem_of_lookup_1 in Hc as [g Hg]. exists g. intros j Hj.
    unfold ws, ParallelWorkers. rewrite list_lookup_imap, (grid_lookup_at _ _ _ _ c) by done.
    eexists. split; [done|]. split; [done|]. intros key values Hk. cbn. unfold shard_of. by rewrite lookup_fmap, Hk.
  - intros values. rewrite shard_slices_concat, Nat.mul_comm, Nat.div_mul by lia. apply firstn_all.
  - intros values j Hj. by apply shard_slice_length.
Qed.

Definition demo_parallel : ParallelSpec :=
  mkParallel (Some 2%Z) None {[ "browser" := ["chrome"; "firefox"] ]} {[ "spec" := ["a"; "b"; "c"; "d"; "e"] ]}.

Example demo_workers :
  (fun w => (w_Index w, w_Matrix w !! "browser", w_Shard w !! "spec")) <$> ParallelWorkers (Some demo_parallel) =
  [(0%Z, Some "chrome", Some "a,b"); (1%Z, Some "chrome", Some "c,d,e");
   (2%Z, Some "firefox", Some "a,b"); (3%Z, Some "firefox", Some "c,d,e")].
Proof. vm_compute. reflexivity. Qed.

Lemma ParallelWorkers_partition_witness :
  (0 < workers_per_combo demo_parallel)%Z ∧
  concat ((fun j => shard_slice 2 j ["a"; "b"; "c"; "d"; "e"]) <$> seq 0 2) = ["a"; "b"; "c"; "d"; "e"].
Proof.
  split; [reflexivity|].
  exact (proj1 (proj2 (proj2 (ParallelWorkers_partition demo_parallel eq_refl))) ["a"; "b"; "c"; "d"; "e"]).
Defined.

End Workers.
