(* ===== verification/Expr.v ===== *)
(** * pkg/expr and internal/composer/render.go: the template language

    [Eval] fills `{{ config.x }}`-style references in one pass;
    [SubstituteWorker] fills the worker references a parallel Test's evaluation
    left in place; [RenderChildConfig] fills a composite child's index and
    count.  Text is UTF-8. *)
From S2P Require Import Prelude Api GoLib Keys Ops.

Module Expr.
Import Ops.

Record ParallelKeys := mkParallelKeys { pk_Matrix : gset string; pk_Shard : gset string }.

Record Scope := mkScope {
  sco_Config : strmap;
  sco_Env : strmap;
  sco_RunID : string;
  sco_TestName : string;
  sco_Services : strmap;
  sco_Parallel : option ParallelKeys;
}.

Record Error := mkExprError { xe_Line : Z; xe_Col : Z; xe_Ref : string; xe_Message : string }.

Definition Error_Error (e : Error) : string :=
  if str_is_empty (xe_Ref e) then
    "expr: " +:+ xe_Message e +:+ " at line " +:+ itoa (xe_Line e) +:+ ", col " +:+ itoa (xe_Col e)
  else
    "expr: " +:+ xe_Message e +:+ " (ref " +:+ quote (xe_Ref e) +:+ " at line " +:+ itoa (xe_Line e)
    +:+ ", col " +:+ itoa (xe_Col e) +:+ ")".

(** [identRe]: [A-Za-z_][A-Za-z0-9_]*. *)
Definition ident_start (c : ascii) : bool :=
  let n := nat_of_ascii c in
  ((65 <=? n) && (n <=? 90) || (97 <=? n) && (n <=? 122) || (n =? 95))%nat.
Definition ident_byte (c : ascii) : bool :=
  let n := nat_of_ascii c in (ident_start c || (48 <=? n) && (n <=? 57))%nat.
Fixpoint str_forall (f : ascii → bool) (s : string) : bool :=
  match s with EmptyString => true | String c s => f c && str_forall f s end.
Definition is_ident (s : string) : bool :=
  match s with EmptyString => false | String c s => ident_start c && str_forall ident_byte s end.

Definition escOpen : string := "{{" +:+ String dquote "{{" +:+ String dquote "}}".
Definition escClose : string := "{{" +:+ String dquote "}}" +:+ String dquote "}}".

(** [advancePos] ranges over runes: the bytes that do not continue one. *)
Definition continuation (c : ascii) : bool :=
  let n := nat_of_ascii c in ((128 <=? n) && (n <=? 191))%nat.
Fixpoint advancePos (chunk : string) (line col : Z) : Z * Z :=
  match chunk with
  | EmptyString => (line, col)
  | String c chunk =>
      if Ascii.eqb c newline then advancePos chunk (line + 1) 1
      else if continuation c then advancePos chunk line col
      else advancePos chunk line (col + 1)
  end.

Definition defaultLeafFor (ns : string) : string := if (ns =? "run")%string then "id" else "name".

Definition deferWorkerRef (ns key raw : string) (scope : Scope) (line col : Z) : result Error string :=
  let fail msg := Err (mkExprError line col raw msg) in
  match sco_Parallel scope with
  | None => fail (ns +:+ ".* is only available in a Test with spec.parallel")
  | Some p =>
      let deferred := Ok ("{{ " +:+ ns +:+ "." +:+ key +:+ " }}") in
      if (ns =? "worker")%string then
        if negb (key =? "index")%string && negb (key =? "count")%string then
          fail ("unknown worker field " +:+ quote key +:+ " (worker.index, worker.count)")
        else deferred
      else if (ns =? "matrix")%string then
        if bool_decide (key ∈ pk_Matrix p) then deferred
        else fail ("unknown matrix key " +:+ quote key +:+ " (declare it in spec.parallel.matrix)")
      else if (ns =? "shard")%string then
        if bool_decide (key ∈ pk_Shard p) then deferred
        else fail ("unknown shard key " +:+ quote key +:+ " (declare it in spec.parallel.shards)")
      else deferred
  end.

Definition resolveRef (raw : string) (scope : Scope) (line col : Z) : result Error string :=
  let fail msg := Err (mkExprError line col raw msg) in
  if str_is_empty raw then fail "empty expression `{{ }}`"
  else if (raw =? "run.id")%string then Ok (sco_RunID scope)
  else if (raw =? "test.name")%string then Ok (sco_TestName scope)
  else
    match Keys.Cut raw "." with
    | None =>
        fail ("reference " +:+ quote raw
              +:+ " has no namespace (expected e.g. `config.x`, `env.FOO`, `run.id`, `test.name`)")
    | Some (ns, key) =>
        if Contains key "." then
          fail ("reference " +:+ quote raw +:+ " has nested key (only top-level keys supported per namespace)")
        else if negb (is_ident key) then
          fail ("reference " +:+ quote raw +:+ " has invalid key " +:+ quote key
                +:+ " (must match [A-Za-z_][A-Za-z0-9_]*)")
        else if (ns =? "config")%string then
          match sco_Config scope !! key with
          | Some v => Ok v
          | None =>
              fail ("unknown config key " +:+ quote key
                    +:+ " (declare it in Test.spec.config or provide it in TestRun.spec.config)")
          end
        else if (ns =? "env")%string then
          match sco_Env scope !! key with
          | Some v => Ok v
          | None =>
              fail ("unknown env var " +:+ quote key +:+ " (env namespace exposes only the operator-curated set)")
          end
        else if (ns =? "worker")%string || (ns =? "matrix")%string || (ns =? "shard")%string then
          deferWorkerRef ns key raw scope line col
        else if (ns =? "services")%string then
          match sco_Services scope !! key with
          | Some v => Ok v
          | None => fail ("unknown service " +:+ quote key +:+ " (declare it in spec.services)")
          end
        else if (ns =? "run")%string || (ns =? "test")%string then
          fail ("unknown " +:+ ns +:+ " field " +:+ quote key +:+ " (only " +:+ ns +:+ "."
                +:+ defaultLeafFor ns +:+ " is exposed)")
        else
          fail ("unknown namespace " +:+ quote ns
                +:+ " (allowed: config, env, run, test, services, worker, matrix, shard)")
    end.

(** The loop of [Eval] on the rest of the input; every turn consumes a byte, so
    the length of the input is enough fuel. *)
Fixpoint eval_loop (fuel : nat) (scope : Scope) (s : string) (line col : Z) : result Error string :=
  match fuel, s with
  | _, EmptyString => Ok ""
  | O, _ => Ok ""
  | S fuel, String c rest =>
      if Ascii.eqb c newline then String newline <$> eval_loop fuel scope rest (line + 1) 1
      else if HasPrefix s "{{" then
        if HasPrefix s escOpen then
          let '(l, k) := advancePos escOpen line col in
          (fun out => "{{" +:+ out) <$> eval_loop fuel scope (str_drop (String.length escOpen) s) l k
        else if HasPrefix s escClose then
          let '(l, k) := advancePos escClose line col in
          (fun out => "}}" +:+ out) <$> eval_loop fuel scope (str_drop (String.length escClose) s) l k
        else
          match Keys.Cut s "}}" with
          | None => Err (mkExprError line col "" "unterminated `{{` (no matching `}}`)")
          | Some (opened, after) =>
              let raw := TrimSpace (str_drop 2 opened) in
              match resolveRef raw scope line col with
              | Err e => Err e
              | Ok val =>
                  let '(l, k) := advancePos (opened +:+ "}}") line col in
                  (fun out => val +:+ out) <$> eval_loop fuel scope after l k
              end
          end
      else String c <$> eval_loop fuel scope rest line (col + 1)
  end.

Definition Eval (s : string) (scope : Scope) : result Error string :=
  eval_loop (String.length s) scope s 1 1.

(** ** Regexp replacement

    [ReplaceAllStringFunc] for a matcher anchored at the current byte: the
    replacement and the text after the match. *)
Definition re_space (c : ascii) : bool :=
  let n := nat_of_ascii c in ((n =? 9) || (n =? 10) || (n =? 12) || (n =? 13) || (n =? 32))%nat.

Fixpoint replace_all (fuel : nat) (m : string → option (string * string)) (s : string) : string :=
  match fuel, s with
  | _, EmptyString => ""
  | O, _ => s
  | S fuel, String c rest =>
      match m s with
      | Some (repl, after) => repl +:+ replace_all fuel m after
      | None => String c (replace_all fuel m rest)
      end
  end.

(** The longest prefix of identifier bytes, and the rest. *)
Fixpoint span_ident (s : string) : string * string :=
  match s with
  | String c s' => if ident_byte c then let '(a, b) := span_ident s' in (String c a, b) else ("", s)
  | EmptyString => ("", "")
  end.

(** `\{\{\s*` ... `\s*\}\}` *)
Definition open_braces (s : string) : option string :=
  if HasPrefix s "{{" then Some (TrimLeft re_space (str_drop 2 s)) else None.
Definition close_braces (s : string) : option string :=
  let s := TrimLeft re_space s in if HasPrefix s "}}" then Some (str_drop 2 s) else None.

(** [workerRefRE]: the namespace, the key, the rest. *)
Definition worker_ref (s : string) : option (string * string * string) :=
  s ← open_braces s;
  ns ← (if HasPrefix s "worker." then Some "worker"
        else if HasPrefix s "matrix." then Some "matrix"
        else if HasPrefix s "shard." then Some "shard" else None);
  let '(key, s) := span_ident (str_drop (S (String.length ns)) s) in
  if is_ident key then after ← close_braces s; Some (ns, key, after) else None.

Definition worker_value (w : Worker) (ns key : string) : string :=
  if (ns =? "worker")%string then
    if (key =? "index")%string then itoa (w_Index w) else itoa (w_Count w)
  else if (ns =? "matrix")%string then label_of (w_Matrix w) key
  else label_of (w_Shard w) key.

Definition SubstituteWorker (s : string) (w : Worker) : string :=
  if negb (Contains s "{{") then s
  else replace_all (String.length s)
         (fun s => '(ns, key, after) ← worker_ref s; Some (worker_value w ns key, after)) s.

(** [reIndex], [reCount]: `\{\{\s*name\s*\}\}`. *)
Definition name_ref (name : string) (value : string) (s : string) : option (string * string) :=
  s ← open_braces s;
  if HasPrefix s name then after ← close_braces (str_drop (String.length name) s); Some (value, after)
  else None.

Definition render_value (index count : Z) (v : string) : string :=
  let v := replace_all (String.length v) (name_ref "index" (itoa index)) v in
  replace_all (String.length v) (name_ref "count" (itoa count)) v.

Definition RenderChildConfig (raw : strmap) (index count : Z) : strmap := render_value index count <$> raw.

(** ** Slices, maps, parameters *)

Fixpoint eval_slice (i : Z) (xs : list string) (scope : Scope) : result string (list string) :=
  match xs with
  | [] => Ok []
  | x :: xs =>
      match Eval x scope with
      | Err e => Err ("index " +:+ itoa i +:+ ": " +:+ Error_Error e)
      | Ok v => vs ← eval_slice (i + 1) xs scope; Ok (v :: vs)
      end
  end.
Definition EvalSlice (xs : list string) (scope : Scope) : result string (list string) := eval_slice 0 xs scope.

Fixpoint eval_entries (kvs : list (string * string)) (scope : Scope) : result string strmap :=
  match kvs with
  | [] => Ok ∅
  | (k, v) :: kvs =>
      match Eval v scope with
      | Err e => Err ("key " +:+ quote k +:+ ": " +:+ Error_Error e)
      | Ok v => m ← eval_entries kvs scope; Ok (<[k := v]> m)
      end
  end.
Definition EvalMap `{MapOrder} (m : strmap) (scope : Scope) : result string strmap := eval_entries (range m) scope.

(** [fmt]'s %v of a []string. *)
Definition fmt_slice (xs : list string) : string := "[" +:+ str_join " " xs +:+ "]".

(** The value as the type spells it. *)
Definition coerce_type `{FloatSyntax} (name value typ : string) : result string string :=
  let t := if (typ =? "")%string then "string" else typ in
  let not_a what := Err ("config " +:+ quote name +:+ ": " +:+ quote value +:+ what) in
  if (t =? "string")%string then Ok value
  else if (t =? "integer")%string then
    match Keys.Atoi value with Some _ => Ok value | None => not_a " is not an integer" end
  else if (t =? "number")%string then
    if ParseFloat_ok value then Ok value else not_a " is not a number"
  else if (t =? "boolean")%string then
    let v := ToLower value in
    if (v =? "true")%string || (v =? "1")%string then Ok "true"
    else if (v =? "false")%string || (v =? "0")%string then Ok "false"
    else not_a " is not a boolean (accepted: true, false, 1, 0)"
  else Err ("config " +:+ quote name +:+ ": unknown Parameter.Type " +:+ quote t).

Definition check_enum (name value : string) (enum : list string) : result string unit :=
  if (0 <? length enum)%nat && negb (existsb (String.eqb value) enum) then
    Err ("config " +:+ quote name +:+ ": " +:+ quote value +:+ " not in enum " +:+ fmt_slice enum)
  else Ok tt.

Definition check_pattern `{Regexp} (name value pattern : string) : result string unit :=
  if (pattern =? "")%string then Ok tt
  else match MatchString pattern value with
       | Err e => Err ("config " +:+ quote name +:+ ": invalid pattern " +:+ quote pattern +:+ ": " +:+ e)
       | Ok false => Err ("config " +:+ quote name +:+ ": " +:+ quote value +:+ " does not match pattern " +:+ quote pattern)
       | Ok true => Ok tt
       end.

Definition CoerceParam `{FloatSyntax, Regexp} (name value : string) (p : ConfigParameter) : result string string :=
  v ← coerce_type name value (pm_Type p);
  _ ← check_enum name v (pm_Enum p);
  _ ← check_pattern name v (pm_Pattern p);
  Ok v.

(** ** The reference semantics: a template is text and references

    What a template is made of does not depend on the values; evaluating it puts
    the values in. *)
Inductive token :=
| TText (t : string)
| TRef (raw : string) (line col : Z).

Definition cons_token (t : token) (r : list token * option Error) : list token * option Error := (t :: r.1, r.2).

(** The tokens, and the error that ends an unterminated template. *)
Fixpoint tokenize (fuel : nat) (s : string) (line col : Z) : list token * option Error :=
  match fuel, s with
  | _, EmptyString | O, _ => ([], None)
  | S fuel, String c rest =>
      if Ascii.eqb c newline then cons_token (TText (String c "")) (tokenize fuel rest (line + 1) 1)
      else if negb (HasPrefix s "{{") then cons_token (TText (String c "")) (tokenize fuel rest line (col + 1))
      else if HasPrefix s escOpen then
        let p := advancePos escOpen line col in
        cons_token (TText "{{") (tokenize fuel (str_drop (String.length escOpen) s) p.1 p.2)
      else if HasPrefix s escClose then
        let p := advancePos escClose line col in
        cons_token (TText "}}") (tokenize fuel (str_drop (String.length escClose) s) p.1 p.2)
      else
        match Keys.Cut s "}}" with
        | None => ([], Some (mkExprError line col "" "unterminated `{{` (no matching `}}`)"))
        | Some (opened, after) =>
            let p := advancePos (opened +:+ "}}") line col in
            cons_token (TRef (TrimSpace (str_drop 2 opened)) line col) (tokenize fuel after p.1 p.2)
        end
  end.

Definition template (s : string) : list token * option Error := tokenize (String.length s) s 1 1.

Fixpoint render (scope : Scope) (toks : list token) (stop : option Error) : result Error string :=
  match toks with
  | [] => match stop with None => Ok "" | Some e => Err e end
  | TText t :: toks => (fun out => t +:+ out) <$> render scope toks stop
  | TRef raw line col :: toks =>
      v ← resolveRef raw scope line col; (fun out => v +:+ out) <$> render scope toks stop
  end.

Lemma eval_loop_render fuel scope s line col :
  eval_loop fuel scope s line col = render scope (tokenize fuel s line col).1 (tokenize fuel s line col).2.
Proof.
  revert s line col. induction fuel as [|fuel IH]; intros [|c s] line col; [done..|].
  cbn [eval_loop tokenize]. destruct (Ascii.eqb_spec c newline) as [->|_]; cbn [cons_token render fst snd].
  { by rewrite IH. }
  destruct (HasPrefix (String c s) "{{"); cbn [negb cons_token render fst snd]; [|by rewrite IH].
  destruct (HasPrefix (String c s) escOpen).
  { destruct (advancePos escOpen line col). cbn [cons_token render fst snd]. by rewrite IH. }
  destruct (HasPrefix (String c s) escClose).
  { destruct (advancePos escClose line col). cbn [cons_token render fst snd]. by rewrite IH. }
  destruct (Keys.Cut (String c s) "}}") as [[opened after]|]; cbn [cons_token render fst snd]; [|done].
  destruct (resolveRef _ scope line col); [|done]. destruct (advancePos (opened +:+ "}}") line col).
  cbn. by rewrite IH.
Qed.

Lemma str_drop_shorter n s : 0 < n → s ≠ "" → String.length (str_drop n s) < String.length s.
Proof. intros Hn Hs. rewrite str_length_drop. destruct s; [done|]. cbn. lia. Qed.

Lemma eval_loop_fuel fuel fuel' scope s line col :
  String.length s ≤ fuel → String.length s ≤ fuel' →
  eval_loop fuel scope s line col = eval_loop fuel' scope s line col.
Proof.
  revert fuel' s line col.
  induction fuel as [|fuel IH]; intros [|fuel'] [|c s] line col; cbn [String.length]; try done; try lia.
  intros Hf Hf'. cbn [eval_loop].
  destruct (Ascii.eqb c newline); [by rewrite (IH fuel') by lia|].
  destruct (HasPrefix (String c s) "{{"); [|by rewrite (IH fuel') by lia].
  assert (Hd : ∀ n, 0 < n → String.length (str_drop n (String c s)) ≤ String.length s).
  { intros n Hn. pose proof (str_drop_shorter n (String c s) Hn ltac:(done)) as H. cbn in H. lia. }
  destruct (HasPrefix (String c s) escOpen).
  { destruct (advancePos escOpen line col). pose proof (Hd (String.length escOpen) ltac:(vm_compute; lia)) as Hl.
    rewrite (IH fuel') by lia. done. }
  destruct (HasPrefix (String c s) escClose).
  { destruct (advancePos escClose line col). pose proof (Hd (String.length escClose) ltac:(vm_compute; lia)) as Hl.
    rewrite (IH fuel') by lia. done. }
  destruct (Keys.Cut (String c s) "}}") as [[opened after]|] eqn:Ec; [|done].
  destruct (resolveRef _ scope line col); [|done]. destruct (advancePos (opened +:+ "}}") line col).
  apply Keys.Cut_spec in Ec. apply (f_equal String.length) in Ec.
  rewrite !str_length_app in Ec. cbn in Ec. rewrite (IH fuel') by lia. done.
Qed.

(** What reaches the output. *)
Definition sourced (scope : Scope) (v : string) : Prop :=
  v = sco_RunID scope ∨ v = sco_TestName scope ∨
  (∃ k, sco_Config scope !! k = Some v) ∨ (∃ k, sco_Env scope !! k = Some v) ∨
  (∃ k, sco_Services scope !! k = Some v) ∨
  (is_Some (sco_Parallel scope) ∧ ∃ ns key, v = "{{ " +:+ ns +:+ "." +:+ key +:+ " }}").

Lemma resolveRef_sourced raw scope line col v : resolveRef raw scope line col = Ok v → sourced scope v.
Proof.
  unfold resolveRef, sourced. intros H.
  destruct (str_is_empty raw); [done|]. destruct (raw =? "run.id")%string; [naive_solver|].
  destruct (raw =? "test.name")%string; [naive_solver|].
  destruct (Keys.Cut raw ".") as [[ns key]|]; [|done].
  destruct (Contains key "."); [done|]. destruct (negb (is_ident key)); [done|].
  destruct (ns =? "config")%string; [destruct (sco_Config scope !! key) eqn:E; naive_solver|].
  destruct (ns =? "env")%string; [destruct (sco_Env scope !! key) eqn:E; naive_solver|].
  destruct (_ || _)%bool.
  { unfold deferWorkerRef in H. destruct (sco_Parallel scope); [|done].
    do 5 right. split; [by eexists|]. repeat case_match; naive_solver. }
  destruct (ns =? "services")%string; [destruct (sco_Services scope !! key) eqn:E; naive_solver|].
  by destruct (_ || _)%bool.
Qed.

(** Evaluation is single-pass: whatever the scope, [Eval s] renders the same
    tokens of [s], each reference replaced by what it resolves to; a value put
    in is never scanned again, and every value put in is one of the scope's (or a
    worker reference left in place for a parallel Test).  The loop always reaches
    the end of [s]: more fuel changes nothing. *)
Theorem Eval_single_pass s scope :
  (∀ fuel, String.length s ≤ fuel → eval_loop fuel scope s 1 1 = Eval s scope) ∧
  Eval s scope = render scope (template s).1 (template s).2 ∧
  ∀ raw line col v, TRef raw line col ∈ (template s).1 → resolveRef raw scope line col = Ok v → sourced scope v.
Proof.
  split; [intros fuel Hf; by apply eval_loop_fuel|].
  split; [apply eval_loop_render|]. intros raw line col v _. apply resolveRef_sourced.
Qed.

Definition demo_scope (x : string) : Scope :=
  mkScope {[ "x" := x ]} ∅ "run-1" "smoke" ∅ (Some (mkParallelKeys ∅ {[ "spec" ]})).

Example Eval_injection_safe :
  Eval "v={{ config.x }} {{ run.id }}" (demo_scope "{{ env.SECRET }}") = Ok "v={{ env.SECRET }} run-1".
Proof. vm_compute. reflexivity. Qed.
Example Eval_escape : Eval (escOpen +:+ " x " +:+ escClose) (demo_scope "") = Ok "{{ x }}".
Proof. vm_compute. reflexivity. Qed.
Example Eval_position :
  Eval (String newline "ab{{ confg.x }}") (demo_scope "") =
  Err (mkExprError 2 3 "confg.x"
    ("unknown namespace " +:+ quote "confg" +:+ " (allowed: config, env, run, test, services, worker, matrix, shard)")).
Proof. vm_compute. reflexivity. Qed.
Example RenderChildConfig_index : render_value 3 8 "user-{{index}} of {{  count }}, {{ config.x }}" = "user-3 of 8, {{ config.x }}".
Proof. vm_compute. reflexivity. Qed.

(** The worker substitution of a parallel Test runs on the output of [Eval], so
    there a config value is not safe from being read again: a value that spells a
    worker reference is replaced by the worker's own value. *)
Theorem SubstituteWorker_rescans_values :
  let w := mkWorker 1 2 ∅ {[ "spec" := "login,cart" ]} in
  Eval "{{ config.x }}" (demo_scope "{{ shard.spec }}") = Ok "{{ shard.spec }}" ∧
  SubstituteWorker "{{ shard.spec }}" w = "login,cart".
Proof. split; vm_compute; reflexivity. Qed.

(** ** Parameters: what coercion promises *)

(** A value of its type: canonical for booleans. *)
Definition well_typed `{FloatSyntax} (typ v : string) : Prop :=
  typ = "" ∨ typ = "string" ∨ (typ = "integer" ∧ is_Some (Keys.Atoi v)) ∨ (typ = "number" ∧ ParseFloat_ok v = true)
  ∨ (typ = "boolean" ∧ (v = "true" ∨ v = "false")).

Lemma coerce_type_ok `{FloatSyntax} name value typ v :
  coerce_type name value typ = Ok v → well_typed typ v ∧ (typ ≠ "boolean" → v = value) ∧ coerce_type name v typ = Ok v.
Proof.
  unfold coerce_type, well_typed. intros Hc.
  destruct (String.eqb_spec typ "") as [->|]; [cbn in *; naive_solver|].
  destruct (String.eqb_spec typ "string") as [->|]; [naive_solver|].
  destruct (String.eqb_spec typ "integer") as [->|].
  { destruct (Keys.Atoi value) eqn:E; [|done]. injection Hc as <-. rewrite E. naive_solver. }
  destruct (String.eqb_spec typ "number") as [->|].
  { destruct (ParseFloat_ok value) eqn:E; [|done]. injection Hc as <-. rewrite E. naive_solver. }
  destruct (String.eqb_spec typ "boolean") as [->|]; [|done].
  assert (Hv : v = "true" ∨ v = "false") by (repeat case_match; naive_solver).
  split_and!; [by auto 10|done|]. by destruct Hv as [->| ->].
Qed.

(** C21: An accepted parameter value is of its type, in the enumeration and matched by the
    pattern where there are any; it is the value given except for booleans, which
    come out as [true] or [false]; and coercing it again changes nothing. *)
Theorem CoerceParam_sound `{FloatSyntax, Regexp} name value p v :
  CoerceParam name value p = Ok v →
  well_typed (pm_Type p) v ∧ (pm_Type p ≠ "boolean" → v = value) ∧
  (pm_Enum p ≠ [] → v ∈ pm_Enum p) ∧ (pm_Pattern p ≠ "" → MatchString (pm_Pattern p) v = Ok true) ∧
  CoerceParam name v p = Ok v.
Proof.
  unfold CoerceParam. intros (v' & Ht & ([] & He & ([] & Hp & [= ->])%result_bind_ok)%result_bind_ok)%result_bind_ok.
  apply coerce_type_ok in Ht as (H1 & H2 & H3). split_and!; [done|done| | |by rewrite H3; cbn; rewrite He; cbn; rewrite Hp].
  - intros Hne. unfold check_enum in He. destruct (pm_Enum p) as [|x xs]; [done|]. cbn [length Nat.ltb Nat.leb andb] in He.
    destruct (existsb (String.eqb v) (x :: xs)) eqn:E; [|done].
    apply existsb_exists in E as (y & Hy & ->%String.eqb_eq). by apply list_elem_of_In.
  - intros Hne. unfold check_pattern in Hp. rewrite (proj2 (String.eqb_neq _ _) Hne) in Hp. by destruct (MatchString _ _) as [[]|].
Qed.

Definition demo_floats : FloatSyntax := fun s => (s =? "0.5")%string.
Definition demo_regexp : Regexp := fun _ _ => Ok true.

Lemma CoerceParam_sound_witness : CoerceParam (H := demo_floats) (H0 := demo_regexp) "flag" "true" (mkParameter "boolean" "" [] "" "" "") = Ok "true".
Proof.
  exact (proj2 (proj2 (proj2 (proj2 (CoerceParam_sound (H := demo_floats) (H0 := demo_regexp) "flag" "TRUE"
    (mkParameter "boolean" "" [] "" "" "") "true" eq_refl))))).
Defined.

End Expr.
