(* ===== verification/Resolver.v ===== *)
(** * internal/resolver: the spec a run is started with

    Templates merged under the Test, configuration resolved and coerced, then one
    pass of expressions over the fields that take them.  The template store is a
    program parameter; [testrun_controller.go: resolveSpec] and [toolFor] call
    this component.  Go's deep copies are values here. *)
From S2P Require Import Prelude Api Names GoLib Effects PodPolicy Ops Expr.

Module Resolver.
Import Ops Expr.

(** ** mainpath.go *)

Definition RepoDir : string := "/data/repo".
Definition TestDataDir : string := "/data/testdata".
Definition legacyRepoPrefix : string := "repo/".
Definition PathFile : string := "file".
Definition PathDirectory : string := "directory".
Definition LabelTool : string := "kubetest.io/tool".

Definition ErrInlineProject : string :=
  "this tool runs a project — put it in git (content.git); inline files are for single-file tools".

(** The first key, in order, whose parameter is a main path; its kind. *)
Definition MainPathParam (config : gmap string ConfigParameter) : string * string :=
  let path k := from_option pm_Path "" (config !! k) in
  match find_first (fun k => negb (path k =? "")%string) (sorted_keys config) with
  | Some k => (k, path k)
  | None => ("", "")
  end.

Definition InlineFilePath (p : string) : string := TrimPrefix p legacyRepoPrefix.

Definition inlineCode (spec : TestSpec) : bool :=
  bool_decide (ct_Git (ts_Content spec) = None) && (0 <? length (ct_Files (ts_Content spec)))%nat.

Definition with_Config (config : gmap string ConfigParameter) (s : TestSpec) : TestSpec :=
  mkTestSpec (ts_Content s) (ts_Container s) (ts_Use s) (ts_Pod s) config (ts_Artifacts s) (ts_Timeout s) (ts_Retry s)
    (ts_Schedule s) (ts_Services s) (ts_Parallel s) (ts_ConcurrencyPolicy s) (ts_Verdict s) (ts_Metrics s) (ts_LiveView s)
    (ts_Steps s).

Definition with_Default (d : string) (p : ConfigParameter) : ConfigParameter :=
  mkParameter (pm_Type p) d (pm_Enum p) (pm_Pattern p) (pm_Description p) (pm_Path p).

Definition bindInlineMainFile (spec : TestSpec) : TestSpec :=
  let '(name, kind) := MainPathParam (ts_Config spec) in
  if negb (kind =? PathFile)%string || negb (inlineCode spec) then spec
  else
    match ts_Config spec !! name, ct_Files (ts_Content spec) with
    | Some p, f :: _ =>
        if negb (pm_Default p =? "")%string then spec
        else with_Config (<[name := with_Default (InlineFilePath (fc_Path f)) p]> (ts_Config spec)) spec
    | _, _ => spec
    end.

Definition other (text : string) : error := mkError EOther text.

Definition CheckContent (spec : TestSpec) : option error :=
  let c := ts_Content spec in
  let sources := countb id [bool_decide (is_Some (ct_Git c)); (0 <? length (ct_Files c))%nat; (0 <? length (ct_Tarball c))%nat] in
  if (1 <? sources)%nat then
    Some (other ("the code comes from more than one source (git, inline files, tarball) — "
                 +:+ "a Test and its templates must use one"))
  else if ((MainPathParam (ts_Config spec)).2 =? PathDirectory)%string && inlineCode spec then Some (other ErrInlineProject)
  else None.

Definition MissingMainPath (spec : TestSpec) : string :=
  let name := (MainPathParam (ts_Config spec)).1 in
  if negb (name =? "")%string && (from_option pm_Default "" (ts_Config spec !! name) =? "")%string then name else "".

Definition MainPathMessage (spec : TestSpec) (name : string) : string :=
  let d := from_option pm_Description "" (ts_Config spec !! name) in
  if negb (d =? "")%string then "set spec.config." +:+ name +:+ ": " +:+ d
  else "set spec.config." +:+ name +:+ " — where the Test's files are".

(** ** Merging *)

(** [cmp.Or] of two strings; the first set pointer; the first non-empty slice or
    map; [append] to a slice that may be nil; filling a map that may be nil. *)
Definition Or (a b : string) : string := if (a =? "")%string then b else a.
Definition or_some {A} (a b : option A) : option A := match a with Some _ => a | None => b end.
Definition or_list {A} (a b : list A) : list A := match a with [] => b | _ => a end.
Definition or_map {A} (a b : gmap string A) : gmap string A := if bool_decide (a = ∅) then b else a.
Definition append {A} (a b : option (list A)) : option (list A) :=
  match b with None | Some [] => a | Some b => Some (default [] a ++ b) end.
Definition replace_slice {A} (a b : option (list A)) : option (list A) :=
  match b with None | Some [] => a | Some b => Some b end.
Definition fill_map (a b : option strmap) : option strmap :=
  match b with None => a | Some b => if bool_decide (b = ∅) then a else Some (default ∅ a ∪ b) end.
Definition copy_map (a b : option strmap) : option strmap :=
  match b with None => a | Some b => if bool_decide (b = ∅) then a else Some (b ∪ default ∅ a) end.

(** A template contributes where the merged container is unset. *)
Definition mergeContainerInto (dst src : ContainerConfig) : ContainerConfig :=
  mkContainer
    (Or (cc_Image dst) (cc_Image src)) (Or (cc_ImagePullPolicy dst) (cc_ImagePullPolicy src))
    (Or (cc_WorkingDir dst) (cc_WorkingDir src)) (or_list (cc_Command dst) (cc_Command src))
    (or_list (cc_Args dst) (cc_Args src)) (cc_Env dst ++ cc_Env src) (cc_EnvFrom dst ++ cc_EnvFrom src)
    (or_map (cc_Requests dst) (cc_Requests src)) (or_map (cc_Limits dst) (cc_Limits src))
    (or_some (cc_SecurityContext dst) (cc_SecurityContext src)) (cc_VolumeMounts dst ++ cc_VolumeMounts src).

(** The Test wins where it is set; its environment comes last. *)
Definition overrideContainerFromTest (dst src : ContainerConfig) : ContainerConfig :=
  mkContainer
    (Or (cc_Image src) (cc_Image dst)) (Or (cc_ImagePullPolicy src) (cc_ImagePullPolicy dst))
    (Or (cc_WorkingDir src) (cc_WorkingDir dst)) (or_list (cc_Command src) (cc_Command dst))
    (or_list (cc_Args src) (cc_Args dst)) (cc_Env dst ++ cc_Env src) (cc_EnvFrom dst ++ cc_EnvFrom src)
    (or_map (cc_Requests src) (cc_Requests dst)) (or_map (cc_Limits src) (cc_Limits dst))
    (or_some (cc_SecurityContext src) (cc_SecurityContext dst)) (cc_VolumeMounts dst ++ cc_VolumeMounts src).

Definition mergePod (dst src : option PodConfig) : option PodConfig :=
  match src, dst with
  | None, _ => dst
  | Some src, None => Some src
  | Some src, Some out =>
      Some (mkPodConfig (pc_Labels out ∪ pc_Labels src) (pc_Annotations out ∪ pc_Annotations src)
        (Or (pc_ServiceAccountName out) (pc_ServiceAccountName src)) (fill_map (pc_NodeSelector out) (pc_NodeSelector src))
        (append (pc_Tolerations out) (pc_Tolerations src)) (or_some (pc_Affinity out) (pc_Affinity src))
        (or_some (pc_SecurityContext out) (pc_SecurityContext src)) (append (pc_Volumes out) (pc_Volumes src))
        (append (pc_ImagePullSecrets out) (pc_ImagePullSecrets src)))
  end.

Definition mergePodTestWins (dst src : option PodConfig) : option PodConfig :=
  match src, dst with
  | None, _ => dst
  | Some src, None => Some src
  | Some src, Some out =>
      Some (mkPodConfig (pc_Labels src ∪ pc_Labels out) (pc_Annotations src ∪ pc_Annotations out)
        (Or (pc_ServiceAccountName src) (pc_ServiceAccountName out)) (copy_map (pc_NodeSelector out) (pc_NodeSelector src))
        (replace_slice (pc_Tolerations out) (pc_Tolerations src)) (or_some (pc_Affinity src) (pc_Affinity out))
        (or_some (pc_SecurityContext src) (pc_SecurityContext out)) (replace_slice (pc_Volumes out) (pc_Volumes src))
        (replace_slice (pc_ImagePullSecrets out) (pc_ImagePullSecrets src)))
  end.

Definition mergeTemplateInto (dst : TestSpec) (tmpl : TestTemplateSpec) : TestSpec :=
  let c := ts_Content dst in let tc := tms_Content tmpl in
  mkTestSpec
    (mkContent (or_some (ct_Git tc) (ct_Git c)) (ct_Files c ++ ct_Files tc) (ct_Tarball c ++ ct_Tarball tc)
       (ct_TestData c ++ ct_TestData tc))
    (mergeContainerInto (ts_Container dst) (tms_Container tmpl))
    (ts_Use dst)
    (mergePod (ts_Pod dst) (tms_Pod tmpl))
    (ts_Config dst ∪ tms_Config tmpl)
    (or_some (ts_Artifacts dst) (tms_Artifacts tmpl))
    (or_some (ts_Timeout dst) (tms_Timeout tmpl))
    (or_some (ts_Retry dst) (tms_Retry tmpl))
    (ts_Schedule dst)
    (or_map (ts_Services dst) (tms_Services tmpl))
    (or_some (ts_Parallel dst) (tms_Parallel tmpl))
    (ts_ConcurrencyPolicy dst)
    (or_some (ts_Verdict dst) (tms_Verdict tmpl))
    (or_some (ts_Metrics dst) (tms_Metrics tmpl))
    (or_some (ts_LiveView dst) (tms_LiveView tmpl))
    (ts_Steps dst).

(** The Test's declaration, with the template's main path and description when it
    has none. *)
Definition carry (base v : ConfigParameter) : ConfigParameter :=
  mkParameter (pm_Type v) (pm_Default v) (pm_Enum v) (pm_Pattern v)
    (Or (pm_Description v) (pm_Description base)) (Or (pm_Path v) (pm_Path base)).
Definition declare (dst : gmap string ConfigParameter) (k : string) (v : ConfigParameter) : ConfigParameter :=
  match dst !! k with Some base => carry base v | None => v end.
Definition mergeConfig (dst config : gmap string ConfigParameter) : gmap string ConfigParameter :=
  map_imap (fun k v => Some (declare dst k v)) config ∪ dst.

Definition mergeTestInto (dst test : TestSpec) : TestSpec :=
  let c := ts_Content dst in let tc := ts_Content test in
  mkTestSpec
    (mkContent (or_some (ct_Git tc) (ct_Git c)) (or_list (ct_Files tc) (ct_Files c)) (or_list (ct_Tarball tc) (ct_Tarball c))
       (ct_TestData c ++ ct_TestData tc))
    (overrideContainerFromTest (ts_Container dst) (ts_Container test))
    (or_list (ts_Use test) (ts_Use dst))
    (mergePodTestWins (ts_Pod dst) (ts_Pod test))
    (mergeConfig (ts_Config dst) (ts_Config test))
    (or_some (ts_Artifacts test) (ts_Artifacts dst))
    (or_some (ts_Timeout test) (ts_Timeout dst))
    (or_some (ts_Retry test) (ts_Retry dst))
    (Or (ts_Schedule test) (ts_Schedule dst))
    (or_map (ts_Services test) (ts_Services dst))
    (or_some (ts_Parallel test) (ts_Parallel dst))
    (Or (ts_ConcurrencyPolicy test) (ts_ConcurrencyPolicy dst))
    (or_some (ts_Verdict test) (ts_Verdict dst))
    (or_some (ts_Metrics test) (ts_Metrics dst))
    (or_some (ts_LiveView test) (ts_LiveView dst))
    (or_list (ts_Steps test) (ts_Steps dst)).

(** The end of [MergeTemplates]: the Test on top of the merged templates. *)
Definition merge_test (merged : TestSpec) (tool : string) (test : Test) : TestSpec * string :=
  (bindInlineMainFile (mergeTestInto merged (t_Spec test)), Or (label_of (om_Labels (t_Meta test)) LabelTool) tool).

(** The loop over [spec.use]. *)
Definition merge_template (acc : TestSpec * string) (tmpl : TestTemplate) : TestSpec * string :=
  (mergeTemplateInto acc.1 (tm_Spec tmpl), Or (label_of (om_Labels (tm_Meta tmpl)) LabelTool) acc.2).

(** A store answers with the template, or [None] for [ErrTemplateNotFound], or
    another error. *)
Definition TemplateStore (Op : Type → Type) := string → string → prog Op (result error (option TestTemplate)).

Fixpoint merge_uses {Op} (store : TemplateStore Op) (ns : string) (uses : list string) (acc : TestSpec * string) :
    prog Op (result error (TestSpec * string)) :=
  match uses with
  | [] => Ret (Ok acc)
  | name :: uses =>
      t ← store ns name;
      match t with
      | Ok (Some tmpl) => merge_uses store ns uses (merge_template acc tmpl)
      | Ok None => Ret (Err (other ("template " +:+ quote name +:+ " not found in namespace " +:+ quote ns)))
      | Err e => Ret (Err (wrapf ("fetch template " +:+ quote name) e))
      end
  end.

Definition MergeTemplates {Op} (store : TemplateStore Op) (test : Test) : prog Op (result error (TestSpec * string)) :=
  m ← merge_uses store (om_Namespace (t_Meta test)) (ts_Use (t_Spec test)) (zeroTestSpec, "");
  Ret (match m with Ok (merged, tool) => Ok (merge_test merged tool test) | Err e => Err e end).

(** [MapStore]: templates by namespace and name. *)
Definition MapStore_Get {Op} (m : gmap string TestTemplate) : TemplateStore Op := fun ns name =>
  Ret (Ok (m !! (ns +:+ "/" +:+ name))).

(** What the store is asked, and what a successful merge was made of. *)
Lemma always_MergeTemplates {Op} (P : ∀ R, Op R → Prop) (store : TemplateStore Op) test :
  (∀ ns name, always P (store ns name) (fun _ => True)) → always P (MergeTemplates store test) (fun _ => True).
Proof.
  intros Hs. unfold MergeTemplates. eapply (always_seq _ _ _ _ (fun _ => True)); [|by intros [[]|] _].
  generalize (zeroTestSpec, ""). induction (ts_Use (t_Spec test)) as [|name uses IH]; intros acc; cbn [merge_uses]; [done|].
  eapply always_seq; [apply Hs|]. intros [[tmpl|]|e] _; [apply IH|done|done].
Qed.

Lemma merge_uses_fetched {Op} (store : TemplateStore Op) ns uses acc tr r :
  exec (merge_uses store ns uses acc) tr (Ok r) →
  ∃ tmpls, Forall2 (fun name tmpl => ∃ tr', tr' ⊆ tr ∧ exec (store ns name) tr' (Ok (Some tmpl))) uses tmpls ∧
           r = foldl merge_template acc tmpls.
Proof.
  revert acc tr. induction uses as [|name uses IH]; intros acc tr; cbn [merge_uses].
  { intros [_ [= <-]]%exec_ret_inv. exists []. split; [constructor|done]. }
  intros (t1 & t2 & [[tmpl|]|e] & -> & Hget & Hex)%exec_bind_inv; [|by apply exec_ret_inv in Hex as [_ ?]..].
  apply IH in Hex as (tmpls & Hall & ->). exists (tmpl :: tmpls). split; [|done]. constructor.
  - exists t1. split; [set_solver|done].
  - eapply Forall2_impl; [exact Hall|]. intros n t (tr' & Hsub & H). exists tr'. split; [set_solver|done].
Qed.

(** ** Configuration and expressions *)

Section Resolve.
Context `{MapOrder, FloatSyntax, Regexp}.

Definition undeclared (declared : gmap string ConfigParameter) (kv : string * string) : bool :=
  bool_decide (declared !! kv.1 = None).

(** The value a parameter takes: the run's, or the default when that is not empty. *)
Definition param_value (overrides : strmap) (name : string) (p : ConfigParameter) : option string :=
  match overrides !! name with
  | Some v => Some v
  | None => if (pm_Default p =? "")%string then None else Some (pm_Default p)
  end.

Definition resolve_param (overrides : strmap) (name : string) (p : ConfigParameter) : result error string :=
  match param_value overrides name p with
  | None => Err (other ("required config key " +:+ quote name +:+ " has no default and no TestRun override"))
  | Some value => match CoerceParam name value p with Ok v => Ok v | Err text => Err (other text) end
  end.

Fixpoint resolve_params (overrides : strmap) (ps : list (string * ConfigParameter)) (out : strmap) : result error strmap :=
  match ps with
  | [] => Ok out
  | (name, p) :: ps =>
      match resolve_param overrides name p with
      | Ok v => resolve_params overrides ps (<[name := v]> out)
      | Err e => Err e
      end
  end.

Definition ResolveConfig (declared : gmap string ConfigParameter) (runOverrides : strmap) : result error strmap :=
  match find_first (undeclared declared) (range runOverrides) with
  | Some (k, _) =>
      Err (mkError EUnknownConfigKey ("config key not declared: " +:+ quote k +:+ " not in resolved Test.spec.config"))
  | None => resolve_params runOverrides (range declared) ∅
  end.

(** [fmt.Errorf(field + ": %w", err)]. *)
Definition at_field {A} (field : string) (r : result string A) : result error A :=
  match r with Ok a => Ok a | Err text => Err (other (field +:+ ": " +:+ text)) end.
Definition eval_string (s : string) (scope : Scope) : result string string :=
  match Eval s scope with Ok v => Ok v | Err e => Err (Error_Error e) end.

(** The values of an environment, empty ones left alone. *)
Fixpoint eval_env (prefix : string) (i : Z) (env : list EnvVar) (scope : Scope) : result string (list EnvVar) :=
  match env with
  | [] => Ok []
  | e :: env =>
      if (ev_Value e =? "")%string then cons e <$> eval_env prefix (i + 1) env scope
      else
        match eval_string (ev_Value e) scope with
        | Ok v => cons (mkEnvVar (ev_Name e) v (ev_ValueFrom e)) <$> eval_env prefix (i + 1) env scope
        | Err text => Err (prefix +:+ "[" +:+ itoa i +:+ "].value: " +:+ text)
        end
  end.

Definition evalService (svc : ServiceSpec) (scope : Scope) : result string ServiceSpec :=
  let in_ field (r : result string (list string)) : result string (list string) :=
    match r with Ok a => Ok a | Err text => Err (field +:+ ": " +:+ text) end in
  command ← in_ "command" (EvalSlice (sv_Command svc) scope);
  args ← in_ "args" (EvalSlice (sv_Args svc) scope);
  env ← eval_env "env" 0 (sv_Env svc) scope;
  Ok (mkService (sv_Image svc) command args env (sv_Resources svc) (sv_ReadinessProbe svc) (sv_Timeout svc) (sv_Logs svc)
        (sv_Count svc) (sv_MaxCount svc) (sv_Matrix svc) (sv_Shards svc) (sv_RestartPolicy svc)).

Fixpoint eval_services (svcs : list (string * ServiceSpec)) (scope : Scope) (out : gmap string ServiceSpec) :
    result error (gmap string ServiceSpec) :=
  match svcs with
  | [] => Ok out
  | (name, svc) :: svcs =>
      svc ← at_field ("resolve spec.services." +:+ name) (evalService svc scope);
      eval_services svcs scope (<[name := svc]> out)
  end.

Definition eval_container (c : ContainerConfig) (scope : Scope) : result error ContainerConfig :=
  command ← at_field "resolve spec.container.command" (EvalSlice (cc_Command c) scope);
  args ← at_field "resolve spec.container.args" (EvalSlice (cc_Args c) scope);
  dir ← (if negb (cc_WorkingDir c =? "")%string then
           at_field "resolve spec.container.workingDir" (eval_string (cc_WorkingDir c) scope)
         else Ok (cc_WorkingDir c));
  env ← match eval_env "resolve spec.container.env" 0 (cc_Env c) scope with Ok e => Ok e | Err text => Err (other text) end;
  Ok (mkContainer (cc_Image c) (cc_ImagePullPolicy c) dir command args env (cc_EnvFrom c) (cc_Requests c) (cc_Limits c)
        (cc_SecurityContext c) (cc_VolumeMounts c)).

Definition eval_pod (pod : option PodConfig) (scope : Scope) : result error (option PodConfig) :=
  match pod with
  | None => Ok None
  | Some p =>
      labels ← at_field "resolve spec.pod.labels" (EvalMap (pc_Labels p) scope);
      annotations ← at_field "resolve spec.pod.annotations" (EvalMap (pc_Annotations p) scope);
      Ok (Some (mkPodConfig labels annotations (pc_ServiceAccountName p) (pc_NodeSelector p) (pc_Tolerations p)
                  (pc_Affinity p) (pc_SecurityContext p) (pc_Volumes p) (pc_ImagePullSecrets p)))
  end.

Definition eval_artifacts (a : option ArtifactSpec) (scope : Scope) : result error (option ArtifactSpec) :=
  match a with
  | None => Ok None
  | Some a =>
      paths ← at_field "resolve spec.artifacts.paths" (EvalSlice (af_Paths a) scope);
      report ← at_field "resolve spec.artifacts.report" (eval_string (af_Report a) scope);
      Ok (Some (mkArtifacts paths (af_Compress a) report))
  end.

Definition evalStringsInSpec (s : TestSpec) (scope : Scope) : result error TestSpec :=
  container ← eval_container (ts_Container s) scope;
  pod ← eval_pod (ts_Pod s) scope;
  artifacts ← eval_artifacts (ts_Artifacts s) scope;
  services ← eval_services (range (ts_Services s)) scope (ts_Services s);
  Ok (mkTestSpec (ts_Content s) container (ts_Use s) pod (ts_Config s) artifacts (ts_Timeout s) (ts_Retry s)
        (ts_Schedule s) services (ts_Parallel s) (ts_ConcurrencyPolicy s) (ts_Verdict s) (ts_Metrics s) (ts_LiveView s)
        (ts_Steps s)).

Record Options := mkOptions { op_Env : strmap; op_RunID : string }.

(** The scope of steps 4: the service hosts, the worker references of a parallel
    Test. *)
Definition run_scope (merged : TestSpec) (config : strmap) (test : Test) (run : TestRun) (opts : Options) : Scope :=
  mkScope config (op_Env opts) (Or (op_RunID opts) (run_name run)) (om_Name (t_Meta test))
    (map_imap (fun name _ => Some (Names.ServiceHost (run_name run) (run_ns run) name)) (ts_Services merged))
    ((fun p => mkParallelKeys (dom (pl_Matrix p)) (dom (pl_Shards p))) <$> ts_Parallel merged).

(** [Resolve] after the merge. *)
Definition resolve_merged (merged : TestSpec) (test : Test) (run : TestRun) (opts : Options) : result error TestSpec :=
  match CheckContent merged with
  | Some e => Err e
  | None =>
      config ← ResolveConfig (ts_Config merged) (rs_Config (r_Spec run));
      evalStringsInSpec merged (run_scope merged config test run opts)
  end.

Definition Resolve {Op} (test : Test) (run : TestRun) (store : TemplateStore Op) (opts : Options) :
    prog Op (result error TestSpec) :=
  m ← MergeTemplates store test;
  Ret (match m with Ok (merged, _) => resolve_merged merged test run opts | Err e => Err e end).

Definition ValidateResolved (spec : TestSpec) : option error :=
  if (0 <? length (ts_Steps spec))%nat then None
  else if (cc_Image (ts_Container spec) =? "")%string then
    Some (other ("resolved spec.container.image is empty "
                 +:+ "(Test declares neither image nor a template supplying one)"))
  else if (length (cc_Command (ts_Container spec)) =? 0)%nat && (length (cc_Args (ts_Container spec)) =? 0)%nat then
    Some (other ("resolved spec.container: at least one of command or args is required "
                 +:+ "(neither Test nor any template supplied one)"))
  else None.

(** ** Configuration *)

Lemma resolve_params_ok overrides ps out0 out :
  NoDup (fst <$> ps) →
  resolve_params overrides ps out0 = Ok out ↔
  ∃ vs, Forall2 (fun p v => resolve_param overrides p.1 p.2 = Ok v) ps vs ∧ out = list_to_map (zip (fst <$> ps) vs) ∪ out0.
Proof.
  revert out0. induction ps as [|[name p] ps IH]; intros out0 Hnd; cbn [resolve_params].
  { split; [intros [= <-]; exists []; split; [apply Forall2_nil_2|cbn; by rewrite (left_id_L ∅ (∪))]|].
    intros (vs & ->%Forall2_nil_inv_l & ->). cbn. by rewrite (left_id_L ∅ (∪)). }
  cbn in Hnd. apply NoDup_cons in Hnd as [Hn Hnd].
  assert (Hout : ∀ v vs, length vs = length ps → list_to_map (zip (fst <$> ps) vs) ∪ <[name:=v]> out0
            = list_to_map (zip (name :: (fst <$> ps)) (v :: vs)) ∪ out0).
  { intros v vs Hlen. cbn. rewrite <- insert_union_l, <- insert_union_r; [done|].
    apply not_elem_of_list_to_map_1. rewrite fst_zip; [done|]. rewrite length_fmap. lia. }
  destruct (resolve_param overrides name p) as [v|e] eqn:Ev.
  - rewrite IH by done. split.
    + intros (vs & Hvs & ->). exists (v :: vs). split; [by apply Forall2_cons|]. symmetry. rewrite <- Hout; [done|].
      symmetry. by eapply Forall2_length.
    + intros (vs' & Hvs & ->). apply Forall2_cons_inv_l in Hvs as (v' & vs & Hv & Hvs & ->). cbn in Hv.
      rewrite Ev in Hv. injection Hv as <-. exists vs. split; [done|]. symmetry. apply Hout. symmetry. by eapply Forall2_length.
  - split; [done|]. intros (vs' & Hvs & _). apply Forall2_cons_inv_l in Hvs as (v' & vs & Hv & _). cbn in Hv. congruence.
Qed.

(** Every parameter declared has a value: the run's or its default, coerced. *)
Definition configured (declared : gmap string ConfigParameter) (overrides out : strmap) : Prop :=
  dom out = dom declared ∧
  ∀ name p, declared !! name = Some p →
    ∃ given v, param_value overrides name p = Some given ∧ CoerceParam name given p = Ok v ∧ out !! name = Some v.

Lemma resolve_param_ok overrides name p v :
  resolve_param overrides name p = Ok v ↔
  ∃ given, param_value overrides name p = Some given ∧ CoerceParam name given p = Ok v.
Proof.
  unfold resolve_param. destruct (param_value _ _ _) as [given|].
  - split.
    + destruct (CoerceParam _ _ _) eqn:E; [|done]. intros [= <-]. by exists given.
    + intros (g & [= <-] & E). by rewrite E.
  - split; [done|]. by intros (g & ? & _).
Qed.

Lemma resolve_param_err overrides name p e : resolve_param overrides name p = Err e → is_kind EUnknownConfigKey e = false.
Proof. unfold resolve_param. by repeat case_match; intros [= <-]. Qed.

Lemma find_undeclared declared overrides :
  find_first (undeclared declared) (range overrides) = None ↔ dom overrides ⊆ dom declared.
Proof.
  rewrite find_first_None, Forall_forall. split.
  - intros Hall k [v Hv]%elem_of_dom. apply range_elem in Hv. specialize (Hall _ Hv). cbn in Hall.
    apply bool_decide_eq_false in Hall. cbn in Hall. apply elem_of_dom. destruct (declared !! k); [by eexists|done].
  - intros Hsub [k v] Hin%range_elem. apply bool_decide_eq_false. cbn.
    apply elem_of_dom_2 in Hin. assert (Hk : k ∈ dom declared) by set_solver. apply elem_of_dom in Hk as [p Hp]. by rewrite Hp.
Qed.

Lemma configured_of_values declared overrides vs :
  Forall2 (fun p v => resolve_param overrides p.1 p.2 = Ok v) (range declared) vs →
  configured declared overrides (list_to_map (zip (fst <$> range declared) vs)).
Proof.
  intros Hvs. pose proof (Forall2_length _ _ _ Hvs) as Hlen.
  assert (Hfst : (zip (fst <$> range declared) vs).*1 = fst <$> range declared) by (apply fst_zip; rewrite length_fmap; lia).
  split.
  - rewrite dom_list_to_map_L, Hfst. apply set_eq. intros k. rewrite elem_of_list_to_set, list_elem_of_fmap, elem_of_dom.
    split; [intros ([k' p] & -> & Hin%range_elem); by eexists|intros [p Hp]; exists (k, p); split; [done|by apply range_elem]].
  - intros name p Hp. apply range_elem, list_elem_of_lookup in Hp as [i Hi].
    destruct (Forall2_lookup_l _ _ _ _ _ Hvs Hi) as (v & Hv & (given & Hg & Hc)%resolve_param_ok). exists given, v.
    split; [done|]. split; [done|]. apply elem_of_list_to_map; [rewrite Hfst; apply range_NoDup|].
    apply list_elem_of_lookup. exists i. rewrite lookup_zip_with, list_lookup_fmap, Hi. cbn. by rewrite Hv.
Qed.

Lemma values_of_configured declared overrides out :
  configured declared overrides out →
  ∃ vs, Forall2 (fun p v => resolve_param overrides p.1 p.2 = Ok v) (range declared) vs ∧
        out = list_to_map (zip (fst <$> range declared) vs).
Proof.
  intros [Hdom Hc].
  assert (∃ vs, Forall2 (fun p v => resolve_param overrides p.1 p.2 = Ok v ∧ out !! p.1 = Some v) (range declared) vs) as [vs Hvs].
  { assert (Hall : ∀ p, p ∈ range declared → ∃ v, resolve_param overrides p.1 p.2 = Ok v ∧ out !! p.1 = Some v).
    { intros [name p] Hin%range_elem. destruct (Hc _ _ Hin) as (given & v & Hg & Hv & Hout). exists v. split; [|done].
      apply resolve_param_ok. by exists given. }
    induction (range declared) as [|p ps IH]; [by exists []|]. destruct (Hall p) as [v Hv]; [left|].
    destruct IH as [vs Hvs]; [intros q Hq; apply Hall; by right|]. exists (v :: vs). by constructor. }
  exists vs. assert (Hvs' : Forall2 (fun p v => resolve_param overrides p.1 p.2 = Ok v) (range declared) vs).
  { eapply Forall2_impl; [exact Hvs|]. naive_solver. }
  split; [done|]. destruct (configured_of_values _ _ _ Hvs') as [Hd Hv]. apply map_eq. intros k.
  destruct (declared !! k) as [p|] eqn:Ek.
  - destruct (Hc _ _ Ek) as (g1 & v1 & Hg1 & Hc1 & ->), (Hv _ _ Ek) as (g2 & v2 & Hg2 & Hc2 & ->). congruence.
  - apply not_elem_of_dom in Ek. transitivity (@None string); [|symmetry]; apply not_elem_of_dom; congruence.
Qed.

(** Resolution succeeds exactly when every key the run gives is declared and every
    declared parameter has a value (the run's, else a non-empty default) that its
    type, enumeration and pattern accept; the result is that value for each
    parameter, whatever the order the maps are visited in.  An undeclared key, and
    nothing else, is the error the controller reports as the user's. *)
Theorem ResolveConfig_spec declared overrides :
  (∀ out, ResolveConfig declared overrides = Ok out ↔ dom overrides ⊆ dom declared ∧ configured declared overrides out) ∧
  ((∃ e, ResolveConfig declared overrides = Err e ∧ is_kind EUnknownConfigKey e = true) ↔ ¬ dom overrides ⊆ dom declared).
Proof.
  unfold ResolveConfig. pose proof (find_undeclared declared overrides) as Hf. destruct (find_first _ _) as [[k v]|].
  { assert (Hsub : ¬ dom overrides ⊆ dom declared) by (intros Hs; by apply Hf in Hs). split; [by intros out; split; [|intros [? _]]|].
    split; [done|]. intros _. eexists. split; [done|]. by apply bool_decide_eq_true. }
  assert (Hsub : dom overrides ⊆ dom declared) by by apply Hf. split.
  - intros out. rewrite resolve_params_ok by apply range_NoDup. setoid_rewrite (right_id_L ∅ (∪)).
    split; [intros (vs & Hvs & ->); split; [done|]|intros [_ Hc]].
    + by apply configured_of_values.
    + by apply values_of_configured.
  - split; [|intros Hn; by destruct (Hn Hsub)]. intros (e & He & Hk). exfalso. revert He. generalize (∅ : strmap).
    induction (range declared) as [|[name p] ps IH]; intros out; cbn; [done|].
    destruct (resolve_param _ _ _) eqn:Ep; [apply IH|]. intros [= ->].
    apply resolve_param_err in Ep. congruence.
Qed.

(** ** The expression pass *)

Lemma at_field_ok {A} field (r : result string A) a : at_field field r = Ok a ↔ r = Ok a.
Proof. destruct r; cbn; split; intros [=]; by subst. Qed.

(** What a service keeps, whatever the values. *)
Definition same_service (a b : ServiceSpec) : Prop :=
  sv_Image b = sv_Image a ∧ sv_Resources b = sv_Resources a ∧ sv_ReadinessProbe b = sv_ReadinessProbe a ∧
  sv_Timeout b = sv_Timeout a ∧ sv_Count b = sv_Count a ∧ ev_Name <$> sv_Env b = ev_Name <$> sv_Env a ∧
  ev_ValueFrom <$> sv_Env b = ev_ValueFrom <$> sv_Env a.

Lemma eval_env_names prefix i env scope env' :
  eval_env prefix i env scope = Ok env' →
  ev_Name <$> env' = ev_Name <$> env ∧ ev_ValueFrom <$> env' = ev_ValueFrom <$> env.
Proof.
  revert i env'. induction env as [|e env IH]; intros i env'; cbn [eval_env]; [by intros [= <-]|].
  destruct (ev_Value e =? "")%string.
  - destruct (eval_env _ _ _ _) as [rest|] eqn:E; [|done]. intros [= <-]. destruct (IH _ _ E) as [H1' H2']. cbn. by rewrite H1', H2'.
  - destruct (eval_string _ _) as [v|]; [|done]. destruct (eval_env _ _ _ _) as [rest|] eqn:E; [|done].
    intros [= <-]. destruct (IH _ _ E) as [H1' H2']. cbn. by rewrite H1', H2'.
Qed.

Lemma evalService_same svc scope svc' : evalService svc scope = Ok svc' → same_service svc svc'.
Proof.
  unfold evalService. intros (c & _ & (a & _ & (e & He & [= <-])%result_bind_ok)%result_bind_ok)%result_bind_ok.
  apply eval_env_names in He as [? ?]. by repeat split.
Qed.

Lemma eval_services_same svcs scope out out' :
  eval_services svcs scope out = Ok out' →
  (∀ name svc, (name, svc) ∈ svcs → ∃ s, out !! name = Some s ∧ same_service svc s) →
  dom out' = dom out ∧ ∀ name s, out !! name = Some s → ∃ s', out' !! name = Some s' ∧ same_service s s'.
Proof.
  assert (Hrefl : ∀ s, same_service s s) by by repeat split.
  assert (Htrans : ∀ a b c, same_service a b → same_service b c → same_service a c).
  { unfold same_service. intros a b c Ha Hb. destruct_and!. repeat split; congruence. }
  revert out. induction svcs as [|[name svc] svcs IH]; intros out; cbn [eval_services].
  { intros [= <-] _. split; [done|]. intros name s Hs. exists s. by split. }
  intros (svc' & Hsvc%at_field_ok%evalService_same & Hrest)%result_bind_ok Hin.
  destruct (Hin name svc) as (s0 & Hs0 & Hsame0); [left|].
  assert (Hkeep : ∀ n s, out !! n = Some s → ∃ s', <[name := svc']> out !! n = Some s' ∧ same_service s s').
  { intros n s Hs. destruct (decide (n = name)) as [->|Hne].
    - exists svc'. split; [by rewrite lookup_insert_eq|]. assert (s = s0) as -> by congruence.
      apply (Htrans _ svc); [|done]. unfold same_service in *. destruct_and!. by repeat split.
    - exists s. split; [by rewrite lookup_insert_ne|done]. }
  apply IH in Hrest as [Hd Hl].
  - split; [rewrite Hd, dom_insert_L; apply elem_of_dom_2 in Hs0; set_solver|].
    intros n s Hs. destruct (Hkeep n s Hs) as (s1 & Hs1 & Ha). destruct (Hl n s1 Hs1) as (s2 & Hs2 & Hb).
    exists s2. split; [done|by apply (Htrans _ s1)].
  - intros n s Hns. destruct (Hin n s) as (s1 & Hs1 & Ha); [by right|]. destruct (Hkeep n s1 Hs1) as (s2 & Hs2 & Hb).
    exists s2. split; [done|by apply (Htrans _ s1)].
Qed.

Lemma eval_pod_checked pol at_ pod scope pod' : eval_pod pod scope = Ok pod' → PodPolicy.checkPod pol at_ pod' = PodPolicy.checkPod pol at_ pod.
Proof.
  destruct pod as [p|]; cbn [eval_pod]; [|by intros [= <-]].
  by intros (l & _ & (a & _ & [= <-])%result_bind_ok)%result_bind_ok.
Qed.

Lemma eval_slice_length i xs scope ys : eval_slice i xs scope = Ok ys → length ys = length xs.
Proof.
  revert i ys. induction xs as [|x xs IH]; intros i ys; cbn [eval_slice]; [by intros [= <-]|].
  destruct (Eval x scope); [|done]. intros (zs & Hzs & [= <-])%result_bind_ok. cbn. f_equal. by eapply IH.
Qed.

(** What [ValidateResolved] reads of a resolved spec is the merged spec's. *)
Lemma resolve_merged_shape merged test run opts spec :
  resolve_merged merged test run opts = Ok spec →
  cc_Image (ts_Container spec) = cc_Image (ts_Container merged) ∧
  length (cc_Command (ts_Container spec)) = length (cc_Command (ts_Container merged)) ∧
  length (cc_Args (ts_Container spec)) = length (cc_Args (ts_Container merged)) ∧ ts_Steps spec = ts_Steps merged.
Proof.
  unfold resolve_merged. destruct (CheckContent merged); [done|].
  intros (config & _ & (cc & Hcc & (pod & _ & (art & _ & (svcs & _ & [= <-])%result_bind_ok)%result_bind_ok)
    %result_bind_ok)%result_bind_ok)%result_bind_ok.
  unfold eval_container in Hcc.
  apply result_bind_ok in Hcc as (cmd & Hcmd%at_field_ok & (args & Hargs%at_field_ok & (dir & _ & (env & _ & [= <-])
    %result_bind_ok)%result_bind_ok)%result_bind_ok).
  cbn. split_and!; [done|by eapply eval_slice_length..|done].
Qed.

(** C22: The values a run gives cannot reach what decides how its pod may be run: with
    the merged spec fixed, and whatever the run's configuration, its name and the
    exposed environment, the resolved spec has the merged image, security context,
    resources, content, steps and policies, its services differ from the merged ones
    in their command, arguments and environment values only, and the pod policy
    gives it the verdict it gives the merged spec.  Command and arguments are the
    merged ones evaluated, word for word. *)
Theorem resolved_is_policed merged test run opts spec :
  resolve_merged merged test run opts = Ok spec →
  let c := ts_Container merged in let c' := ts_Container spec in
  (∀ pol pod, PodPolicy.Policy_Check pol (Some spec) pod = PodPolicy.Policy_Check pol (Some merged) pod) ∧
  (cc_Image c' = cc_Image c ∧ cc_SecurityContext c' = cc_SecurityContext c ∧ cc_Requests c' = cc_Requests c ∧
   cc_Limits c' = cc_Limits c ∧ cc_EnvFrom c' = cc_EnvFrom c ∧ ev_ValueFrom <$> cc_Env c' = ev_ValueFrom <$> cc_Env c) ∧
  (ts_Content spec = ts_Content merged ∧ ts_Steps spec = ts_Steps merged ∧ ts_Timeout spec = ts_Timeout merged ∧
   ts_ConcurrencyPolicy spec = ts_ConcurrencyPolicy merged ∧ ts_Parallel spec = ts_Parallel merged) ∧
  (dom (ts_Services spec) = dom (ts_Services merged) ∧
   ∀ name s, ts_Services merged !! name = Some s → ∃ s', ts_Services spec !! name = Some s' ∧ same_service s s') ∧
  ∃ config, ResolveConfig (ts_Config merged) (rs_Config (r_Spec run)) = Ok config ∧
    EvalSlice (cc_Command c) (run_scope merged config test run opts) = Ok (cc_Command c') ∧
    EvalSlice (cc_Args c) (run_scope merged config test run opts) = Ok (cc_Args c').
Proof.
  unfold resolve_merged. destruct (CheckContent merged); [done|].
  intros (config & Hconfig & (cc & Hcc & (pod & Hpod & (art & _ & (svcs & Hsvcs & [= <-])%result_bind_ok)%result_bind_ok)
    %result_bind_ok)%result_bind_ok)%result_bind_ok. cbn zeta.
  unfold eval_container in Hcc.
  apply result_bind_ok in Hcc as (cmd & Hcmd%at_field_ok & (args & Hargs%at_field_ok & (dir & _ & (env & Henv & [= <-])
    %result_bind_ok)%result_bind_ok)%result_bind_ok).
  cbn [ts_Container ts_Content ts_Steps ts_Timeout ts_ConcurrencyPolicy ts_Parallel ts_Services
       cc_Image cc_SecurityContext cc_Requests cc_Limits cc_EnvFrom cc_Env cc_Command cc_Args].
  split; [|split; [|split; [done|split]]].
  - intros pol rp. unfold PodPolicy.Policy_Check, PodPolicy.violations. cbn [ts_Pod ts_Container cc_SecurityContext].
    by rewrite (eval_pod_checked _ _ _ _ _ Hpod).
  - destruct (eval_env _ _ _ _) as [env'|] eqn:E; [|done]. injection Henv as <-. apply eval_env_names in E as [_ E]. by rewrite E.
  - apply eval_services_same in Hsvcs; [done|]. intros name svc Hin%range_elem. exists svc. by repeat split.
  - exists config. by repeat split.
Qed.
End Resolve.

(** ** Precedence: the reference reading of the merge

    What each field of the merged spec is, given the Test and its templates: the
    first that sets it, going down from the Test; every contribution, templates
    first; or, for the git source and the tool, the last template's. *)
Definition merge_all (tmpls : list TestTemplate) (test : Test) : TestSpec * string :=
  let '(merged, tool) := foldl merge_template (zeroTestSpec, "") tmpls in merge_test merged tool test.

Section Fold.
Context {A : Type} (op : A → A → A) (e : A).
Context `{!Assoc (=) op, !LeftId (=) e op, !RightId (=) e op}.

Lemma foldl_append {T} (f : T → A) a ts : foldl (fun a t => op a (f t)) a ts = op a (foldr op e (f <$> ts)).
Proof.
  revert a. induction ts as [|t ts IH]; intros a; cbn; [by rewrite (right_id e op)|]. by rewrite IH, (assoc op).
Qed.

Lemma foldr_snoc xs x : foldr op e (xs ++ [x]) = op (foldr op e xs) x.
Proof. induction xs as [|y xs IH]; cbn; [by rewrite (left_id e op), (right_id e op)|]. by rewrite IH, (assoc op). Qed.

Lemma foldl_prepend {T} (f : T → A) a ts : foldl (fun a t => op (f t) a) a ts = op (foldr op e (reverse (f <$> ts))) a.
Proof.
  revert a. induction ts as [|t ts IH]; intros a; cbn [foldl]; [by rewrite (left_id e op)|].
  by rewrite IH, fmap_cons, reverse_cons, foldr_snoc, (assoc op).
Qed.
End Fold.

#[global] Instance Or_assoc : Assoc (=) Or.
Proof. intros a b c. unfold Or. destruct (a =? "")%string eqn:E; by rewrite ?E. Qed.
#[global] Instance Or_left_id : LeftId (=) "" Or.
Proof. done. Qed.
#[global] Instance Or_right_id : RightId (=) "" Or.
Proof. intros a. unfold Or. by destruct (String.eqb_spec a "") as [->|]. Qed.
#[global] Instance or_some_assoc {A} : Assoc (=) (@or_some A).
Proof. by intros [] [] []. Qed.
#[global] Instance or_some_left_id {A} : LeftId (=) None (@or_some A).
Proof. by intros []. Qed.
#[global] Instance or_some_right_id {A} : RightId (=) None (@or_some A).
Proof. by intros []. Qed.
#[global] Instance or_list_assoc {A} : Assoc (=) (@or_list A).
Proof. by intros [] [] []. Qed.
#[global] Instance or_list_left_id {A} : LeftId (=) [] (@or_list A).
Proof. by intros []. Qed.
#[global] Instance or_list_right_id {A} : RightId (=) [] (@or_list A).
Proof. by intros []. Qed.
#[global] Instance or_map_left_id {A} : LeftId (=) ∅ (@or_map A).
Proof. intros m. unfold or_map. by rewrite bool_decide_true. Qed.
#[global] Instance or_map_right_id {A} : RightId (=) ∅ (@or_map A).
Proof. intros m. unfold or_map. by case_bool_decide. Qed.
#[global] Instance or_map_assoc {A} : Assoc (=) (@or_map A).
Proof. intros a b c. unfold or_map. repeat case_bool_decide; congruence. Qed.

(** A field of the fold depends on that field of the accumulator only. *)
Lemma foldl_field {S T A} (f : S → T → S) (π : S → A) (g : A → T → A) s ts :
  (∀ s t, π (f s t) = g (π s) t) → π (foldl f s ts) = foldl g (π s) ts.
Proof. intros Hg. revert s. induction ts as [|t ts IH]; intros s; cbn; [done|]. by rewrite IH, Hg. Qed.

Section Fields.
Context (tmpls : list TestTemplate).
Local Abbreviation folded := (foldl merge_template (zeroTestSpec, "") tmpls).

Lemma folded_first {A} (op : A → A → A) (e : A) `{!Assoc (=) op, !LeftId (=) e op, !RightId (=) e op}
    (π : TestSpec * string → A) (f : TestTemplate → A) :
  π (zeroTestSpec, "") = e → (∀ s t, π (merge_template s t) = op (π s) (f t)) → π folded = foldr op e (f <$> tmpls).
Proof.
  intros Hz Hs. rewrite (foldl_field _ π (fun a t => op a (f t))) by done.
  by rewrite (foldl_append op e), Hz, (left_id e op).
Qed.

Lemma folded_last {A} (op : A → A → A) (e : A) `{!Assoc (=) op, !LeftId (=) e op, !RightId (=) e op}
    (π : TestSpec * string → A) (f : TestTemplate → A) :
  π (zeroTestSpec, "") = e → (∀ s t, π (merge_template s t) = op (f t) (π s)) → π folded = foldr op e (reverse (f <$> tmpls)).
Proof.
  intros Hz Hs. rewrite (foldl_field _ π (fun a t => op (f t) a)) by done.
  by rewrite (foldl_prepend op e), Hz, (right_id e op).
Qed.

Lemma folded_config k : ts_Config folded.1 !! k = foldr or_some None ((fun t => tms_Config (tm_Spec t) !! k) <$> tmpls).
Proof.
  apply (folded_first or_some None (fun s => ts_Config s.1 !! k) (fun t => tms_Config (tm_Spec t) !! k)); [done|].
  intros s t. cbn. rewrite lookup_union. by destruct (ts_Config s.1 !! k), (tms_Config (tm_Spec t) !! k).
Qed.
End Fields.

Lemma mergeConfig_lookup dst config k :
  mergeConfig dst config !! k = match config !! k with Some v => Some (declare dst k v) | None => dst !! k end.
Proof.
  unfold mergeConfig. rewrite lookup_union, map_lookup_imap. destruct (config !! k); cbn; by destruct (dst !! k).
Qed.

(** What binding the main file leaves as it was: everything but one default. *)
Lemma bindInlineMainFile_fields spec :
  (∀ k, pm_Type <$> ts_Config (bindInlineMainFile spec) !! k = pm_Type <$> ts_Config spec !! k ∧
        pm_Enum <$> ts_Config (bindInlineMainFile spec) !! k = pm_Enum <$> ts_Config spec !! k ∧
        pm_Path <$> ts_Config (bindInlineMainFile spec) !! k = pm_Path <$> ts_Config spec !! k) ∧
  with_Config (ts_Config spec) (bindInlineMainFile spec) = spec.
Proof.
  assert (Hid : with_Config (ts_Config spec) spec = spec) by by destruct spec.
  unfold bindInlineMainFile. destruct (MainPathParam _) as [name kind]. destruct (_ || _)%bool; [done|].
  destruct (ts_Config spec !! name) as [p|] eqn:Ep; [|done]. destruct (ct_Files (ts_Content spec)) as [|f fs]; [done|].
  destruct (negb _); [done|]. split; [|by destruct spec]. intros k. cbn [ts_Config with_Config].
  destruct (decide (k = name)) as [->|]; [rewrite lookup_insert_eq, Ep; done|by rewrite lookup_insert_ne].
Qed.

Lemma bindInlineMainFile_field {A} (π : TestSpec → A) spec :
  (∀ c s, π (with_Config c s) = π s) → π (bindInlineMainFile spec) = π spec.
Proof. intros Hπ. rewrite <- (Hπ (ts_Config spec)). f_equal. apply bindInlineMainFile_fields. Qed.

Definition contributions {A} (f : TestTemplateSpec → A) (tmpls : list TestTemplate) : list A :=
  (fun t => f (tm_Spec t)) <$> tmpls.

Lemma merge_all_eq tmpls test :
  merge_all tmpls test = let r := foldl merge_template (zeroTestSpec, "") tmpls in merge_test r.1 r.2 test.
Proof. unfold merge_all. by destruct (foldl _ _ _). Qed.

Section Precedence.
Context {A : Type} (op : A → A → A) (e : A) `{!Assoc (=) op, !LeftId (=) e op, !RightId (=) e op}.
Context (π : TestSpec → A) (f : TestTemplateSpec → A).
Hypothesis π_config : ∀ c s, π (with_Config c s) = π s.
Hypothesis π_zero : π zeroTestSpec = e.

(** The first to set the field, from the Test down. *)
Lemma merged_first tmpls test :
  (∀ s t, π (mergeTemplateInto s t) = op (π s) (f t)) → (∀ s u, π (mergeTestInto s u) = op (π u) (π s)) →
  π (merge_all tmpls test).1 = foldr op e (π (t_Spec test) :: contributions f tmpls).
Proof.
  intros Ht Hu. rewrite merge_all_eq. cbn. rewrite bindInlineMainFile_field, Hu by done. f_equal.
  apply (folded_first tmpls op e (fun s => π s.1) (fun t => f (tm_Spec t))); [done|]. intros. apply Ht.
Qed.

Lemma merged_last tmpls test :
  (∀ s t, π (mergeTemplateInto s t) = op (f t) (π s)) → (∀ s u, π (mergeTestInto s u) = op (π u) (π s)) →
  π (merge_all tmpls test).1 = foldr op e (π (t_Spec test) :: reverse (contributions f tmpls)).
Proof.
  intros Ht Hu. rewrite merge_all_eq. cbn. rewrite bindInlineMainFile_field, Hu by done. f_equal.
  apply (folded_last tmpls op e (fun s => π s.1) (fun t => f (tm_Spec t))); [done|]. intros. apply Ht.
Qed.

(** Every contribution, the Test's combined with them by [g]. *)
Lemma merged_all g tmpls test :
  (∀ s t, π (mergeTemplateInto s t) = op (π s) (f t)) → (∀ s u, π (mergeTestInto s u) = g (π u) (π s)) →
  π (merge_all tmpls test).1 = g (π (t_Spec test)) (foldr op e (contributions f tmpls)).
Proof.
  intros Ht Hu. rewrite merge_all_eq. cbn. rewrite bindInlineMainFile_field, Hu by done. f_equal.
  apply (folded_first tmpls op e (fun s => π s.1) (fun t => f (tm_Spec t))); [done|]. intros. apply Ht.
Qed.
End Precedence.

Lemma merged_tool tmpls test :
  (merge_all tmpls test).2 = foldr Or "" (label_of (om_Labels (t_Meta test)) LabelTool
     :: reverse ((fun t => label_of (om_Labels (tm_Meta t)) LabelTool) <$> tmpls)).
Proof. rewrite merge_all_eq. cbn. f_equal. by apply (folded_last tmpls Or "" snd). Qed.

Lemma merged_config tmpls test k :
  let spec := mergeTestInto (foldl merge_template (zeroTestSpec, "") tmpls).1 (t_Spec test) in
  let base := foldr or_some None (contributions (fun t => tms_Config t !! k) tmpls) in
  let own := ts_Config (t_Spec test) !! k in
  ts_Config spec !! k = match own with Some v => Some (from_option (fun b => carry b v) v base) | None => base end.
Proof.
  cbn. rewrite mergeConfig_lookup. unfold declare. rewrite folded_config. unfold contributions.
  destruct (ts_Config (t_Spec test) !! k); [|done]. by destruct (foldr _ _ _).
Qed.

(** Who wins, field by field.  The image, the command, the security context, the
    services, the verdict and the like are the first set, the Test before its
    templates and an earlier template before a later one; the git source and the
    tool are the Test's, else the LAST template's; files are the Test's, else every
    template's; environment and test data are every template's, then the Test's.  A
    parameter is declared when anyone declares it, with the first one's type and
    enumeration; which parameter is the main path is kept from the first template
    declaring it when the Test does not say. *)
Theorem merge_precedence tmpls test :
  let spec := (merge_all tmpls test).1 in
  let own := t_Spec test in
  let all {A} (f : TestTemplateSpec → A) := contributions f tmpls in
  (cc_Image (ts_Container spec) = foldr Or "" (cc_Image (ts_Container own) :: all (fun t => cc_Image (tms_Container t))) ∧
   cc_Command (ts_Container spec) = foldr or_list [] (cc_Command (ts_Container own) :: all (fun t => cc_Command (tms_Container t))) ∧
   cc_Limits (ts_Container spec) = foldr or_map ∅ (cc_Limits (ts_Container own) :: all (fun t => cc_Limits (tms_Container t))) ∧
   cc_SecurityContext (ts_Container spec) =
     foldr or_some None (cc_SecurityContext (ts_Container own) :: all (fun t => cc_SecurityContext (tms_Container t))) ∧
   cc_Env (ts_Container spec) = concat (all (fun t => cc_Env (tms_Container t))) ++ cc_Env (ts_Container own)) ∧
  (ts_Services spec = foldr or_map ∅ (ts_Services own :: all tms_Services) ∧
   ts_Timeout spec = foldr or_some None (ts_Timeout own :: all tms_Timeout) ∧
   ts_Parallel spec = foldr or_some None (ts_Parallel own :: all tms_Parallel) ∧
   ts_Verdict spec = foldr or_some None (ts_Verdict own :: all tms_Verdict)) ∧
  (ct_Git (ts_Content spec) = foldr or_some None (ct_Git (ts_Content own) :: reverse (all (fun t => ct_Git (tms_Content t)))) ∧
   ct_Files (ts_Content spec) = or_list (ct_Files (ts_Content own)) (concat (all (fun t => ct_Files (tms_Content t)))) ∧
   ct_TestData (ts_Content spec) = concat (all (fun t => ct_TestData (tms_Content t))) ++ ct_TestData (ts_Content own) ∧
   (merge_all tmpls test).2 = foldr Or "" (label_of (om_Labels (t_Meta test)) LabelTool
     :: reverse ((fun t => label_of (om_Labels (tm_Meta t)) LabelTool) <$> tmpls))) ∧
  ∀ k, let base := foldr or_some None (all (fun t => tms_Config t !! k)) in
       let param := ts_Config spec !! k in
       pm_Type <$> param = pm_Type <$> or_some (ts_Config own !! k) base ∧
       pm_Enum <$> param = pm_Enum <$> or_some (ts_Config own !! k) base ∧
       from_option pm_Path "" param = Or (from_option pm_Path "" (ts_Config own !! k)) (from_option pm_Path "" base).
Proof.
  cbn zeta beta. split; [split_and!|split; [split_and!|split; [split_and!|]]].
  - by apply (merged_first Or "" (fun s => cc_Image (ts_Container s))).
  - by apply (merged_first or_list [] (fun s => cc_Command (ts_Container s)) (fun t => cc_Command (tms_Container t))).
  - by apply (merged_first or_map ∅ (fun s => cc_Limits (ts_Container s)) (fun t => cc_Limits (tms_Container t))).
  - by apply (merged_first or_some None (fun s => cc_SecurityContext (ts_Container s)) (fun t => cc_SecurityContext (tms_Container t))).
  - by apply (merged_all app [] (fun s => cc_Env (ts_Container s)) (fun t => cc_Env (tms_Container t))) with (g := fun a b => b ++ a).
  - by apply (merged_first or_map ∅ ts_Services).
  - by apply (merged_first or_some None ts_Timeout).
  - by apply (merged_first or_some None ts_Parallel).
  - by apply (merged_first or_some None ts_Verdict).
  - by apply (merged_last or_some None (fun s => ct_Git (ts_Content s)) (fun t => ct_Git (tms_Content t))).
  - by apply (merged_all app [] (fun s => ct_Files (ts_Content s)) (fun t => ct_Files (tms_Content t))) with (g := or_list).
  - by apply (merged_all app [] (fun s => ct_TestData (ts_Content s)) (fun t => ct_TestData (tms_Content t))) with (g := fun a b => b ++ a).
  - apply merged_tool.
  - intros k. rewrite merge_all_eq. cbn [merge_test fst snd].
    destruct (bindInlineMainFile_fields (mergeTestInto (foldl merge_template (zeroTestSpec, "") tmpls).1 (t_Spec test)))
      as [Hb _]. destruct (Hb k) as (Hty & Hen & Hpa). rewrite Hty, Hen. cbn zeta beta.
    assert (Hpath : ∀ o o' : option ConfigParameter, pm_Path <$> o = pm_Path <$> o' → from_option pm_Path "" o = from_option pm_Path "" o')
      by (intros [] []; by intros [=]).
    rewrite (Hpath _ _ Hpa). rewrite !merged_config.
    destruct (ts_Config (t_Spec test) !! k) as [v|]; destruct (foldr or_some _ _) as [b|]; cbn; try done.
    by rewrite (right_id "" Or).
Qed.

(** ** A concrete resolution *)

Definition demo_floats : FloatSyntax := fun _ => false.
Definition demo_regexp : Regexp := fun _ _ => Ok true.

Definition demo_test : Test :=
  mkTest (mkMeta "smoke" "ns" "t1" ∅ ∅ 0 None [] [])
    (mkTestSpec (mkContent None [mkFile "repo/load.js" "" None None] [] [])
       (mkContainer "" "" "" [] ["--vus={{ config.vus }}"; "{{ config.script }}"] [mkEnvVar "RUN" "{{ run.id }}" None] [] ∅ ∅ None [])
       ["k6"] None {[ "vus" := mkParameter "integer" "1" [] "" "" "" ]} None None None "" ∅ None "" None None None []) None.
Definition demo_template : TestTemplate :=
  mkTemplate (mkMeta "k6" "ns" "m1" {[ LabelTool := "k6" ]} ∅ 0 None [] [])
    (mkTemplateSpec (mkContent None [] [] []) (mkContainer "grafana/k6" "" "" ["k6"; "run"] [] [] [] ∅ ∅ None [])
       None {[ "script" := mkParameter "string" "" [] "" "the script" PathFile ]} None None None ∅ None None None None).
Definition demo_run (vus : string) : TestRun :=
  mkTestRun (mkMeta "smoke-1" "ns" "u1" ∅ ∅ 1 None [] []) (mkRunSpec "smoke" {[ "vus" := vus ]} None ∅ "api" None None) zeroStatus.

Definition demo_resolve (vus : string) : result error TestSpec :=
  resolve_merged (H := list_order) (H0 := demo_floats) (H1 := demo_regexp)
    (merge_all [demo_template] demo_test).1 demo_test (demo_run vus) (mkOptions ∅ "").

(** The inline file is the main path; the run's value is put in, and coerced. *)
Example demo_resolve_args :
  (fun s => (cc_Image (ts_Container s), cc_Args (ts_Container s), ev_Value <$> cc_Env (ts_Container s))) <$> demo_resolve "50"
  = Ok ("grafana/k6", ["--vus=50"; "load.js"], ["smoke-1"]).
Proof. vm_compute. reflexivity. Qed.
Example demo_resolve_text : demo_resolve "many" = Err (other ("config " +:+ quote "vus" +:+ ": " +:+ quote "many" +:+ " is not an integer")).
Proof. vm_compute. reflexivity. Qed.

Lemma resolved_is_policed_witness : ∃ spec, demo_resolve "50" = Ok spec ∧ cc_Image (ts_Container spec) = "grafana/k6".
Proof.
  destruct (demo_resolve "50") as [spec|] eqn:E; [|exact (False_ind _ ltac:(vm_compute in E; discriminate E))].
  exists spec. split; [reflexivity|].
  exact (eq_trans (proj1 (proj1 (proj2 (resolved_is_policed _ _ _ _ _ E)))) (eq_refl : _ = "grafana/k6")).
Defined.

End Resolver.
