(* ===== verification/Compiler.v ===== *)
(** * internal/compiler: from a resolved Test and a run to a Job

    [Compile], [CompileWorker] and [CompileServices], with the pod merge of
    podmerge.go, the test-data mounts of testdata.go and the replicas of
    services.go.  Nil Tests and runs are not values here. *)
From S2P Require Import Prelude Api Names GoLib Keys Objects Phases Stages PodPolicy Ops Workers Expr Resolver.

Module Compiler.
Import Ops Stages Workers.

(** ** Constants *)

Definition DataDirPath : string := "/data".
Definition RequestMountDir : string := "/etc/kubetest".
Definition RequestFileName : string := "request.json".
Definition ContentFileName : string := "content.json".
Definition ResultDirPath : string := "/etc/kubetest/result".
Definition VolumeData : string := "data".
Definition VolumeRequest : string := "request".
Definition VolumeResult : string := "result".
Definition VolumeKubetestBin : string := "kubetest-bin".
Definition KubetestBinMountPath : string := "/kubetest-bin".
Definition KubetestBinEntry : string := KubetestBinMountPath +:+ "/entry".
Definition ContentFetcherEntrySrc : string := "/entry".
Definition ContainerKubetestBinInstall : string := "kubetest-bin-install".
Definition kindTestRun : string := "TestRun".
Definition DefaultTimeout : duration := (30 * minute)%Z.
Definition ADSBufferSeconds : Z := 60.
Definition TTLSecondsAfterFinished : Z := 3600.
Definition TerminationGracePeriodMarginSeconds : Z := 15.
Definition ScrapeGracePeriodSeconds : Z := 30.
Definition terminationGracePeriodSeconds : Z := ScrapeGracePeriodSeconds + TerminationGracePeriodMarginSeconds.

Definition LabelRunID : string := "kubetest.io/run-id".
Definition LabelManagedBy : string := "app.kubernetes.io/managed-by".
Definition ManagedByValue : string := "kubetest-alt".
Definition ReservedLabelPrefix : string := "kubetest.io/".
Definition LabelServiceOf : string := "kubetest.io/service-of".
Definition LabelService : string := "kubetest.io/service".
Definition LabelServiceIndex : string := "kubetest.io/service-index".
Definition ContainerService : string := "service".

Definition EntryCommand : string := "/entry".
Definition EnvResultDir : string := "KUBETEST_RESULTDIR".
Definition EnvDataDir : string := "KUBETEST_DATADIR".
Definition EnvRunID : string := "KUBETEST_RUN_ID".
Definition EnvTestRef : string := "KUBETEST_TEST_REF".
Definition EnvGitUsername : string := "KUBETEST_GIT_USERNAME".
Definition EnvGitToken : string := "KUBETEST_GIT_TOKEN".
Definition EnvGitSSHKeyPath : string := "KUBETEST_GIT_SSH_KEY_PATH".
Definition EnvTestDataDir : string := "KUBETEST_TESTDATA_DIR".
Definition EnvServiceIndex : string := "KUBETEST_SERVICE_INDEX".
Definition EnvMatrixPrefix : string := "KUBETEST_MATRIX_".
Definition EnvWorkerIndex : string := "KUBETEST_WORKER_INDEX".
Definition EnvWorkerCount : string := "KUBETEST_WORKER_COUNT".
Definition EnvShardPrefix : string := "KUBETEST_SHARD_".

(** ** pkg/storage/config.go *)

Definition TypeS3 : string := "s3".
Definition TypeGCS : string := "gcs".
Definition EnvType : string := "KUBETEST_STORAGE_TYPE".
Definition EnvBucket : string := "KUBETEST_STORAGE_BUCKET".
Definition EnvS3Endpoint : string := "KUBETEST_S3_ENDPOINT".
Definition EnvS3UseSSL : string := "KUBETEST_S3_USE_SSL".
Definition EnvS3Region : string := "KUBETEST_S3_REGION".
Definition EnvGCSEndpoint : string := "KUBETEST_GCS_ENDPOINT".

Definition Enabled (c : StorageConfig) : bool := negb (sg_Type c =? "")%string.
Definition add_env (name value : string) : list (string * string) := if (value =? "")%string then [] else [(name, value)].
Definition Storage_Env (c : StorageConfig) : list (string * string) :=
  if negb (Enabled c) then []
  else
    [(EnvType, sg_Type c); (EnvBucket, sg_Bucket c)]
    ++ (if (sg_Type c =? TypeS3)%string then
          add_env EnvS3Endpoint (sg_S3Endpoint c) ++ (if sg_S3UseSSL c then [(EnvS3UseSSL, "true")] else [])
          ++ add_env EnvS3Region (sg_S3Region c)
        else if (sg_Type c =? TypeGCS)%string then add_env EnvGCSEndpoint (sg_GCSEndpoint c)
        else []).

(** [strconv.ParseBool] of the environment: false when it is none of its words. *)
Definition ParseBool (s : string) : bool := existsb (String.eqb s) ["1"; "t"; "T"; "TRUE"; "true"; "True"].
Definition FromEnv (getenv : string → string) : StorageConfig :=
  mkStorage (getenv EnvType) (getenv EnvBucket) (getenv EnvS3Endpoint) (ParseBool (getenv EnvS3UseSSL)) (getenv EnvS3Region)
    (getenv EnvGCSEndpoint).

(** ** podmerge.go *)

Definition isReservedLabelKey (k : string) : bool := (k =? LabelManagedBy)%string || HasPrefix k ReservedLabelPrefix.

Definition pod_annotations (p : option PodConfig) : strmap := from_option pc_Annotations ∅ p.
Definition pod_labels (p : option PodConfig) : strmap := from_option pc_Labels ∅ p.

Definition mergeAnnotations (testPod runPod : option PodConfig) : strmap := pod_annotations runPod ∪ pod_annotations testPod.

Definition user_labels (p : option PodConfig) : strmap := filter (fun kv => isReservedLabelKey kv.1 = false) (pod_labels p).
Definition mergeLabels (testPod runPod : option PodConfig) (runID : string) : strmap :=
  <[LabelManagedBy := ManagedByValue]> (<[LabelRunID := runID]> (user_labels runPod ∪ user_labels testPod)).

Definition zeroPodConfig : PodConfig := mkPodConfig ∅ ∅ "" None None None None None None.

Definition over {A} (a b : option A) : option A := match b with Some _ => b | None => a end.
Definition mergePodConfig (testPod runPod : option PodConfig) : PodConfig :=
  let m := default zeroPodConfig testPod in
  match runPod with
  | None => m
  | Some r =>
      mkPodConfig (pc_Labels m) (pc_Annotations m)
        (if (pc_ServiceAccountName r =? "")%string then pc_ServiceAccountName m else pc_ServiceAccountName r)
        (over (pc_NodeSelector m) (pc_NodeSelector r)) (over (pc_Tolerations m) (pc_Tolerations r))
        (over (pc_Affinity m) (pc_Affinity r)) (over (pc_SecurityContext m) (pc_SecurityContext r))
        (over (pc_Volumes m) (pc_Volumes r)) (over (pc_ImagePullSecrets m) (pc_ImagePullSecrets r))
  end.

(** ** testdata.go and git_auth.go *)

Definition repoRelDir : string := TrimPrefix Resolver.RepoDir (DataDirPath +:+ "/").
Definition ErrContentFrom : string :=
  "content.files[].contentFrom isn't supported — mount the ConfigMap or Secret with content.testData".

Definition testDataName (d : TestDataSource) : string := if (td_Secret d =? "")%string then td_ConfigMap d else td_Secret d.

Definition empty_mount (d : TestDataSource) : list emptyMount :=
  if negb (td_MountPath d =? "")%string && HasPrefix (Clean (td_MountPath d) +:+ "/") (DataDirPath +:+ "/") then
    [mkEmptyMount (testDataName d) (Clean (td_MountPath d))]
  else [].

Definition toFetcherContent (c : Content) : result error fetcherContent :=
  if existsb (fun f => bool_decide (is_Some (fc_ContentFrom f))) (ct_Files c) then Err (mkError EOther ErrContentFrom)
  else
    Ok (mkFetcherContent (ct_Git c)
          ((fun f => mkFetcherFile (Join repoRelDir (Resolver.InlineFilePath (fc_Path f))) (fc_Content f) (fc_Mode f)) <$> ct_Files c)
          (ct_Tarball c) (ct_TestData c ≫= empty_mount)).

Definition no_source : VolumeSource := mkVolumeSource None None None None None None None None None None.
Definition from_ConfigMap (name : string) (items : list KeyToPath) : VolumeSource :=
  mkVolumeSource None (Some (mkObjSrc name items None)) None None None None None None None None.
Definition from_Secret (name : string) : VolumeSource :=
  mkVolumeSource None None (Some (mkObjSrc name [] None)) None None None None None None None.
Definition from_EmptyDir : VolumeSource := mkVolumeSource (Some "{}") None None None None None None None None None.

Definition data_source (i : Z) (d : TestDataSource) : result error VolumeSource :=
  if negb (td_ConfigMap d =? "")%string && (td_Secret d =? "")%string then Ok (from_ConfigMap (td_ConfigMap d) [])
  else if negb (td_Secret d =? "")%string && (td_ConfigMap d =? "")%string then Ok (from_Secret (td_Secret d))
  else Err (mkError EOther ("content.testData[" +:+ itoa i +:+ "]: set exactly one of configMap or secret")).

Definition data_mounts (name : string) (d : TestDataSource) : list VolumeMount :=
  match td_Items d with
  | [] =>
      [mkMount name (if (td_MountPath d =? "")%string then Join Resolver.TestDataDir (testDataName d) else td_MountPath d) "" true ""]
  | items => (fun it => mkMount name (tdi_Path it) (tdi_Key it) true "") <$> items
  end.

Fixpoint testdata_loop (i : Z) (entries : list TestDataSource) : result error (list Volume * list VolumeMount) :=
  match entries with
  | [] => Ok ([], [])
  | d :: entries =>
      src ← data_source i d;
      '(vols, mounts) ← testdata_loop (i + 1) entries;
      let name := "testdata-" +:+ itoa i in
      Ok (mkVolume name src :: vols, data_mounts name d ++ mounts)
  end.
Definition testDataVolumes (entries : list TestDataSource) : result error (list Volume * list VolumeMount) := testdata_loop 0 entries.

Definition value_from (name : string) (ref : option k8s_value) : list EnvVar :=
  match ref with Some _ => [mkEnvVar name "" ref] | None => [] end.
Definition initContainerEnv (git : option GitContent) : list EnvVar :=
  mkEnvVar EnvDataDir DataDirPath None
  :: match git with
     | None => []
     | Some g =>
         value_from EnvGitUsername (git_UsernameFrom g) ++ value_from EnvGitToken (git_TokenFrom g)
         ++ value_from EnvGitSSHKeyPath (git_SSHKeyFrom g)
     end.

(** ** compiler.go *)

Definition ownerRefForTestRun (run : TestRun) : list OwnerReference := [mkOwner kindTestRun (run_name run) (run_uid run) true].

Definition envSliceToMap (env : list EnvVar) : strmap :=
  foldl (fun out e => match ev_ValueFrom e with None => <[ev_Name e := ev_Value e]> out | Some _ => out end) ∅ env.

Definition buildRequest (test : Test) (run : TestRun) (keys : Keys.RunKeys) (timeoutSec : Z) : ExecutionRequest :=
  let s := t_Spec test in
  mkRequest (run_name run) (Keys.Prefix keys) (rs_TestRef (r_Spec run)) DataDirPath (cc_WorkingDir (ts_Container s))
    (cc_Command (ts_Container s)) (cc_Args (ts_Container s)) (envSliceToMap (cc_Env (ts_Container s))) (rs_Config (r_Spec run))
    (from_option af_Paths [] (ts_Artifacts s)) (from_option af_Compress "" (ts_Artifacts s)) timeoutSec
    (default (mkVerdict "" "") (ts_Verdict s)) (default (mkMetrics "" "") (ts_Metrics s)) (from_option rp_Count 0%Z (ts_Retry s)).

Record jobTarget := mkTarget { jt_Name : string; jt_Keys : Keys.RunKeys; jt_Labels : strmap; jt_Env : list EnvVar }.

(** strings.ReplaceAll(name, "-", "_"), upper-cased. *)
Definition upper_byte (c : ascii) : ascii := if Names.between "a" "z" c then ascii_of_N (N_of_ascii c - 32) else c.
Definition ToUpper (s : string) : string := Names.str_map upper_byte s.
Definition ServiceHostEnv (name : string) : string :=
  "KUBETEST_SERVICE_" +:+ ToUpper (Names.str_map (fun c => if Ascii.eqb c "-" then "_"%char else c) name) +:+ "_HOST".

Definition literal (name value : string) : EnvVar := mkEnvVar name value None.

Definition base_volumes (cmName : string) : list Volume :=
  [mkVolume VolumeData from_EmptyDir; mkVolume VolumeResult from_EmptyDir; mkVolume VolumeKubetestBin from_EmptyDir;
   mkVolume VolumeRequest
     (from_ConfigMap cmName [mkKeyToPath RequestFileName RequestFileName; mkKeyToPath ContentFileName ContentFileName])].

Definition no_resources : ResourceRequirements := mkResources ∅ ∅.
Definition mount (name path : string) (readOnly : bool) : VolumeMount := mkMount name path "" readOnly "".

Definition init_containers (fetcherImage : string) (git : option GitContent) : list Container :=
  [mkPodContainer ContainerKubetestBinInstall fetcherImage
     ["sh"; "-c"; "cp " +:+ ContentFetcherEntrySrc +:+ " " +:+ KubetestBinMountPath +:+ "/entry"] [] [] [] "" "" no_resources None
     [mount VolumeKubetestBin KubetestBinMountPath false] None;
   mkPodContainer Phases.ContainerContentFetcher fetcherImage [EntryCommand; "fetch"] [] (initContainerEnv git) [] "" "" no_resources None
     [mount VolumeData DataDirPath false; mount VolumeRequest RequestMountDir true] None].

Definition wrapper_env (test : Test) (run : TestRun) (opts : CompilerOptions) (target : jobTarget) : list EnvVar :=
  [literal EnvDataDir DataDirPath; literal EnvResultDir ResultDirPath; literal EnvRunID (run_name run);
   literal EnvTestRef (rs_TestRef (r_Spec run))]
  ++ ((fun kv => literal kv.1 kv.2) <$> Storage_Env (cp_Storage opts))
  ++ ((fun name => literal (ServiceHostEnv name) (Names.ServiceHost (run_name run) (run_ns run) name))
        <$> sorted_keys (ts_Services (t_Spec test)))
  ++ [literal EnvTestDataDir Resolver.TestDataDir] ++ jt_Env target ++ cc_Env (ts_Container (t_Spec test)).

Definition wrapper_env_from (test : Test) (opts : CompilerOptions) : list EnvFromSource :=
  (if (sg_Type (cp_Storage opts) =? TypeS3)%string && negb (cp_StorageSecret opts =? "")%string then
     [FromSecret (cp_StorageSecret opts)] else [])
  ++ cc_EnvFrom (ts_Container (t_Spec test)).

Definition wrapper_container (test : Test) (run : TestRun) (opts : CompilerOptions) (target : jobTarget)
    (dataMounts : list VolumeMount) : Container :=
  let c := ts_Container (t_Spec test) in
  mkPodContainer Phases.ContainerWrapper (cc_Image c) [KubetestBinEntry] (cc_Command c ++ cc_Args c)
    (wrapper_env test run opts target) (wrapper_env_from test opts) (cc_WorkingDir c) (cc_ImagePullPolicy c)
    (mkResources (cc_Requests c) (cc_Limits c)) (cc_SecurityContext c)
    ([mount VolumeData DataDirPath false; mount VolumeRequest RequestMountDir true; mount VolumeResult ResultDirPath false;
      mount VolumeKubetestBin KubetestBinMountPath false] ++ cc_VolumeMounts c ++ dataMounts)
    None.

Definition timeout_seconds (test : Test) : Z := int64_of_float (Duration_Seconds (default DefaultTimeout (ts_Timeout (t_Spec test)))).

(** The tool label of the Test, when it has one. *)
Definition tool_label (test : Test) : strmap :=
  let tool := label_of (om_Labels (t_Meta test)) LabelKubetestTool in
  if (tool =? "")%string then ∅ else {[ LabelKubetestTool := tool ]}.

Definition job_labels (test : Test) (run : TestRun) (target : jobTarget) : strmap :=
  tool_label test ∪ (jt_Labels target ∪ {[ LabelRunID := run_name run; LabelManagedBy := ManagedByValue ]}).
Definition template_labels (test : Test) (run : TestRun) (target : jobTarget) : strmap :=
  tool_label test ∪ (jt_Labels target ∪ mergeLabels (ts_Pod (t_Spec test)) (rs_Pod (r_Spec run)) (run_name run)).

Definition job_pod (test : Test) (run : TestRun) (opts : CompilerOptions) (target : jobTarget)
    (dataVolumes : list Volume) (dataMounts : list VolumeMount) : PodSpec :=
  let pod := mergePodConfig (ts_Pod (t_Spec test)) (rs_Pod (r_Spec run)) in
  let image := cp_ContentFetcherImage opts in
  let fetcherImage := if (cp_ImageRegistry opts =? "")%string then image else cp_ImageRegistry opts +:+ "/" +:+ image in
  mkPodSpec "Never" (Some false) (Some terminationGracePeriodSeconds) (pc_ServiceAccountName pod) (pc_NodeSelector pod)
    (pc_Tolerations pod) (pc_Affinity pod) (pc_SecurityContext pod) (pc_ImagePullSecrets pod)
    (init_containers fetcherImage (ct_Git (ts_Content (t_Spec test)))) [wrapper_container test run opts target dataMounts]
    (base_volumes (jt_Name target +:+ "-request") ++ default [] (pc_Volumes pod) ++ dataVolumes) "" "".

Definition ErrMissingContentFetcherImage : string := "compiler: Options.ContentFetcherImage is required".

Definition compile (test : Test) (run : TestRun) (opts : CompilerOptions) (target : jobTarget) :
    result error (JobObject * list Object) :=
  if (cp_ContentFetcherImage opts =? "")%string then Err (mkError EOther ErrMissingContentFetcherImage)
  else
    let timeoutSec := timeout_seconds test in
    content ← toFetcherContent (ts_Content (t_Spec test));
    '(dataVolumes, dataMounts) ← testDataVolumes (ct_TestData (ts_Content (t_Spec test)));
    let cm := mkObject "ConfigMap" (mkKey (run_ns run) (jt_Name target +:+ "-request"))
                {[ LabelRunID := run_name run; LabelManagedBy := ManagedByValue ]} (ownerRefForTestRun run)
                (RequestConfigMap (buildRequest test run (jt_Keys target) timeoutSec) content) in
    let job := mkJobObject (mkKey (run_ns run) (jt_Name target)) (job_labels test run target) (ownerRefForTestRun run)
                 (mkJobSpec (Some 0%Z) (Some (wrap64 (timeoutSec + ADSBufferSeconds))) (Some TTLSecondsAfterFinished)
                    (mkPodTemplate (template_labels test run target)
                       (mergeAnnotations (ts_Pod (t_Spec test)) (rs_Pod (r_Spec run)))
                       (job_pod test run opts target dataVolumes dataMounts))) in
    Ok (job, [cm]).

Definition Compile (test : Test) (run : TestRun) (opts : CompilerOptions) : result error (JobObject * list Object) :=
  compile test run opts (mkTarget (run_name run) (Keys.ForRun (run_ns run) (run_uid run)) ∅ []).

(** ** parallel.go *)

Definition sub_env (w : Worker) (e : EnvVar) : EnvVar := mkEnvVar (ev_Name e) (Expr.SubstituteWorker (ev_Value e) w) (ev_ValueFrom e).

Definition substituteWorker (s : TestSpec) (w : Worker) : TestSpec :=
  let sub x := Expr.SubstituteWorker x w in
  let c := ts_Container s in
  mkTestSpec (ts_Content s)
    (mkContainer (cc_Image c) (cc_ImagePullPolicy c) (sub (cc_WorkingDir c)) (sub <$> cc_Command c) (sub <$> cc_Args c)
       (sub_env w <$> cc_Env c) (cc_EnvFrom c) (cc_Requests c) (cc_Limits c) (cc_SecurityContext c) (cc_VolumeMounts c))
    (ts_Use s)
    ((fun p => mkPodConfig (sub <$> pc_Labels p) (sub <$> pc_Annotations p) (pc_ServiceAccountName p) (pc_NodeSelector p)
                 (pc_Tolerations p) (pc_Affinity p) (pc_SecurityContext p) (pc_Volumes p) (pc_ImagePullSecrets p)) <$> ts_Pod s)
    (ts_Config s)
    ((fun a => mkArtifacts (sub <$> af_Paths a) (af_Compress a) (af_Report a)) <$> ts_Artifacts s)
    (ts_Timeout s) (ts_Retry s) (ts_Schedule s) (ts_Services s) (ts_Parallel s) (ts_ConcurrencyPolicy s) (ts_Verdict s)
    (ts_Metrics s) (ts_LiveView s) (ts_Steps s).

Definition keyed_env (prefix : string) (m : strmap) : list EnvVar :=
  (fun k => literal (prefix +:+ ToUpper k) (default "" (m !! k))) <$> sorted_keys m.

Definition worker_env (w : Worker) : list EnvVar :=
  [literal EnvWorkerIndex (itoa (w_Index w)); literal EnvWorkerCount (itoa (w_Count w))]
  ++ keyed_env EnvMatrixPrefix (w_Matrix w) ++ keyed_env EnvShardPrefix (w_Shard w).

Definition CompileWorker (test : Test) (run : TestRun) (opts : CompilerOptions) (w : Worker) :
    result error (JobObject * list Object) :=
  compile (mkTest (t_Meta test) (substituteWorker (t_Spec test) w) (t_LatestRun test)) run opts
    (mkTarget (WorkerJobName run (w_Index w)) (Keys.Worker (Keys.ForRun (run_ns run) (run_uid run)) (w_Index w))
       {[ LabelWorker := itoa (w_Index w) ]} (worker_env w)).

(** ** services.go *)

Definition extend_env (values : list string) (key : string) (combos : list (list EnvVar)) : list (list EnvVar) :=
  combos ≫= fun c => (fun v => c ++ [literal (EnvMatrixPrefix +:+ ToUpper key) v]) <$> values.

Definition replicaEnvs (svc : ServiceSpec) : list (list EnvVar) :=
  let combos := foldl (fun combos key => extend_env (default [] (sv_Matrix svc !! key)) key combos) [[]] (sorted_keys (sv_Matrix svc)) in
  let count := match sv_Count svc with Some n => if (0 <? n)%Z then Z.to_nat n else 1 | None => 1 end in
  combos ≫= fun c => replicate count c.

Definition service_selector (run : TestRun) (name : string) : strmap := {[ LabelServiceOf := run_name run; LabelService := name ]}.

Definition service_object (run : TestRun) (name : string) : Object :=
  mkObject "Service" (mkKey (run_ns run) (Names.ServiceName (run_name run) name))
    (<[LabelManagedBy := ManagedByValue]> (service_selector run name)) (ownerRefForTestRun run)
    (HeadlessService (service_selector run name)).

Definition replica_labels (test : Test) (run : TestRun) (name : string) (i : Z) : strmap :=
  <[LabelManagedBy := ManagedByValue]> (<[LabelServiceIndex := itoa i]>
    (service_selector run name ∪ delete LabelRunID (mergeLabels (ts_Pod (t_Spec test)) (rs_Pod (r_Spec run)) (run_name run)))).

Definition replica_pod (test : Test) (run : TestRun) (name : string) (svc : ServiceSpec) (i : Z) (combo : list EnvVar) : Object :=
  let pod := mergePodConfig (ts_Pod (t_Spec test)) (rs_Pod (r_Spec run)) in
  let svcName := Names.ServiceName (run_name run) name in
  let podName := Names.ServiceReplicaName svcName i in
  mkObject "Pod" (mkKey (run_ns run) podName) (replica_labels test run name i) (ownerRefForTestRun run)
    (ServicePod (mergeAnnotations (ts_Pod (t_Spec test)) (rs_Pod (r_Spec run)))
       (mkPodSpec (if (sv_RestartPolicy svc =? "")%string then "Always" else sv_RestartPolicy svc) (Some false) None
          (pc_ServiceAccountName pod) (pc_NodeSelector pod) (pc_Tolerations pod) (pc_Affinity pod) (pc_SecurityContext pod)
          (pc_ImagePullSecrets pod) []
          [mkPodContainer ContainerService (sv_Image svc) (sv_Command svc) (sv_Args svc)
             (literal EnvServiceIndex (itoa i) :: combo ++ sv_Env svc) [] "" "" (sv_Resources svc) None [] (sv_ReadinessProbe svc)]
          [] podName svcName)).

Definition service_replicas (test : Test) (run : TestRun) (name : string) (svc : ServiceSpec) : list ServiceReplica :=
  imap (fun i combo => mkReplica name (Z.of_nat i) (replica_pod test run name svc (Z.of_nat i) combo)) (replicaEnvs svc).

Definition CompileServices (test : Test) (run : TestRun) : result error CompiledServices :=
  let names := sorted_keys (ts_Services (t_Spec test)) in
  Ok (mkCompiled (service_object run <$> names)
        (names ≫= fun name => match ts_Services (t_Spec test) !! name with
                              | Some svc => service_replicas test run name svc
                              | None => []
                              end)).

End Compiler.
