(* ===== verification/TestController.v ===== *)
(** * internal/controller/test_controller.go: the Ready condition of a Test

    [readiness] over any template store, and [Reconcile] over the operations of
    its client.  [meta.SetStatusCondition] on the patched Test is part of the
    patch operation. *)
From S2P Require Import Prelude Api GoLib Effects Ops Expr Resolver.

Module TestController.
Import Ops Resolver.

Definition ConditionReady : string := "Ready".
Definition ReasonResolved : string := "Resolved".
Definition ReasonParameterMissing : string := "ParameterMissing".
Definition ReasonTemplateMissing : string := "TemplateMissing".
Definition ReasonInlineNotSupported : string := "InlineNotSupported".
Definition ReasonContentConflict : string := "ContentConflict".

(** metav1.Condition, without its transition time. *)
Record Condition := mkCondition {
  cd_Type : string; cd_Status : bool; cd_Reason : string; cd_Message : string; cd_ObservedGeneration : Z }.
#[export] Instance Condition_eq_dec : EqDecision Condition.
Proof. solve_decision. Defined.

Definition notReady (reason msg : string) : Condition := mkCondition ConditionReady false reason msg 0.
Definition ready : Condition := mkCondition ConditionReady true ReasonResolved "" 0.

Definition with_ObservedGeneration (g : Z) (c : Condition) : Condition :=
  mkCondition (cd_Type c) (cd_Status c) (cd_Reason c) (cd_Message c) g.

Section Readiness.
Context {Op : Type → Type} (store : TemplateStore Op).

(** The first loop: what the names in [spec.use] lead to, [None] to go on. *)
Fixpoint check_uses (ns : string) (uses : list string) : prog Op (option (result error Condition)) :=
  match uses with
  | [] => Ret None
  | name :: uses =>
      t ← store ns name;
      match t with
      | Ok (Some _) => check_uses ns uses
      | Ok None =>
          Ret (Some (Ok (notReady ReasonTemplateMissing
            ("template " +:+ quote name +:+ " in spec.use doesn't exist in namespace " +:+ ns))))
      | Err e => Ret (Some (Err e))
      end
  end.

Definition judge (merged : TestSpec) : Condition :=
  match CheckContent merged with
  | Some e =>
      if (e_Text e =? ErrInlineProject)%string then notReady ReasonInlineNotSupported (e_Text e)
      else notReady ReasonContentConflict (e_Text e)
  | None =>
      let p := MissingMainPath merged in
      if negb (p =? "")%string then notReady ReasonParameterMissing (MainPathMessage merged p) else ready
  end.

Definition readiness (test : Test) : prog Op (result error Condition) :=
  c ← check_uses (om_Namespace (t_Meta test)) (ts_Use (t_Spec test));
  match c with
  | Some r => Ret r
  | None =>
      m ← MergeTemplates store test;
      Ret (match m with Ok (merged, _) => Ok (judge merged) | Err e => Err e end)
  end.
End Readiness.

(** A Test as the reconciler reads it. *)
Record TestObject := mkTestObject { to_Test : Test; to_Generation : Z; to_Conditions : list Condition }.

Inductive TestOp : Type → Type :=
| ReadTest (k : Key) : TestOp (result error TestObject)
| ReadTemplate (k : Key) : TestOp (result error TestTemplate)
| PatchCondition (k : Key) (c : Condition) : TestOp (option error)
| ListTests (ns : string) : TestOp (result error (list Test)).

Definition template_store : TemplateStore TestOp := fun ns name =>
  t ← perform (ReadTemplate (mkKey ns name));
  Ret (match t with
       | Ok tmpl => Ok (Some tmpl)
       | Err e => if is_kind ENotFound e then Ok None else Err e
       end).

Definition FindStatusCondition (cs : list Condition) (type : string) : option Condition :=
  find_first (fun c => (cd_Type c =? type)%string) cs.

Definition Reconcile (k : Key) : prog TestOp (option error) :=
  t ← perform (ReadTest k);
  match t with
  | Err e => Ret (IgnoreNotFound (Some e))
  | Ok obj =>
      c ← readiness template_store (to_Test obj);
      match c with
      | Err e => Ret (Some e)
      | Ok cond =>
          let cond := with_ObservedGeneration (to_Generation obj) cond in
          if bool_decide (FindStatusCondition (to_Conditions obj) ConditionReady = Some cond) then Ret None
          else e ← perform (PatchCondition k cond); Ret (IgnoreNotFound e)
      end
  end.

Definition testsUsing (ns name : string) : prog TestOp (list Key) :=
  l ← perform (ListTests ns);
  Ret match l with
      | Err _ => []
      | Ok tests =>
          (fun t => mkKey (om_Namespace (t_Meta t)) (om_Name (t_Meta t)))
            <$> List.filter (fun t => existsb (String.eqb name) (ts_Use (t_Spec t))) tests
      end.

(** ** What the condition says of the runs *)

(** The templates a store of fixed templates has for the names. *)
Definition templates_of (m : gmap string TestTemplate) (ns : string) (uses : list string) : option (list TestTemplate) :=
  mapM (fun name => m !! (ns +:+ "/" +:+ name)) uses.

Lemma merge_uses_map {Op} m ns uses acc :
  match templates_of m ns uses with
  | Some tmpls => merge_uses (Op := Op) (MapStore_Get m) ns uses acc = Ret (Ok (foldl merge_template acc tmpls))
  | None => ∃ e, merge_uses (Op := Op) (MapStore_Get m) ns uses acc = Ret (Err e)
  end.
Proof.
  revert acc. induction uses as [|name uses IH]; intros acc; [done|].
  unfold templates_of in *. cbn -[String.append]. destruct (m !! _) as [tmpl|]; cbn -[String.append]; [|by eexists].
  specialize (IH (merge_template acc tmpl)). by destruct (mapM _ uses).
Qed.

Lemma check_uses_map {Op} m ns uses :
  match templates_of m ns uses with
  | Some _ => check_uses (Op := Op) (MapStore_Get m) ns uses = Ret None
  | None => ∃ msg, check_uses (Op := Op) (MapStore_Get m) ns uses = Ret (Some (Ok (notReady ReasonTemplateMissing msg)))
  end.
Proof.
  induction uses as [|name uses IH]; [done|]. unfold templates_of in *. cbn -[String.append].
  destruct (m !! _) as [tmpl|]; cbn -[String.append]; [|by eexists]. by destruct (mapM _ uses).
Qed.

Section Runs.
Context `{MapOrder, FloatSyntax, Regexp}.

(** The parameter the condition asks for has no value of its own: a run must give it. *)
Lemma missing_main_path_required spec overrides :
  MissingMainPath spec ≠ "" → overrides !! MissingMainPath spec = None → is_ok (ResolveConfig (ts_Config spec) overrides) = false.
Proof.
  unfold MissingMainPath, MainPathParam. cbn zeta. destruct (find_first _ _) as [k|] eqn:Ef; cbn [fst snd]; [|done].
  intros Hm Hov. destruct (negb _ && _)%bool eqn:E; [|done]. breflect.
  apply find_first_Some in Ef as [[p Hp]%sorted_keys_elem _]. rewrite Hp in H3. cbn in H3.
  destruct (ResolveConfig _ _) as [out|] eqn:Er; [|done]. exfalso.
  apply ResolveConfig_spec in Er as [_ [_ Hc]]. destruct (Hc _ _ Hp) as (given & v & Hg & _).
  unfold param_value in Hg. rewrite Hov, H3 in Hg. done.
Qed.

(** Over any fixed set of templates, the condition foretells the runs: a Test that
    is not Ready cannot be resolved, whatever the run, unless what it lacks is the
    main path and the run gives that parameter; a run of a Ready Test has its
    templates and one source of code the tool can run, and can fail to resolve only
    on a configuration value or an expression. *)
Theorem readiness_foretells (m : gmap string TestTemplate) (test : Test) (cond : Condition) {Op} :
  readiness (Op := Op) (MapStore_Get m) test = Ret (Ok cond) →
  (cd_Status cond = false → ∀ run opts,
     (∃ e, Resolve (Op := Op) test run (MapStore_Get m) opts = Ret (Err e)) ∨
     ∃ spec tool param, MergeTemplates (Op := Op) (MapStore_Get m) test = Ret (Ok (spec, tool)) ∧
       param = MissingMainPath spec ∧ cd_Reason cond = ReasonParameterMissing ∧ cd_Message cond = MainPathMessage spec param ∧
       is_Some (rs_Config (r_Spec run) !! param)) ∧
  (cd_Status cond = true → ∃ spec tool,
     MergeTemplates (Op := Op) (MapStore_Get m) test = Ret (Ok (spec, tool)) ∧ CheckContent spec = None ∧ MissingMainPath spec = "" ∧
     ∀ run opts, Resolve (Op := Op) test run (MapStore_Get m) opts =
       Ret (config ← ResolveConfig (ts_Config spec) (rs_Config (r_Spec run)); evalStringsInSpec spec (run_scope spec config test run opts))).
Proof.
  unfold readiness, Resolve, MergeTemplates.
  pose proof (check_uses_map (Op := Op) m (om_Namespace (t_Meta test)) (ts_Use (t_Spec test))) as Hc.
  pose proof (merge_uses_map (Op := Op) m (om_Namespace (t_Meta test)) (ts_Use (t_Spec test)) (zeroTestSpec, "")) as Hm.
  destruct (templates_of _ _ _) as [tmpls|].
  2: { destruct Hc as [msg ->], Hm as [e ->]. cbn. intros [= <-]. split; [|done]. intros _ run opts. left. by eexists. }
  rewrite Hc, Hm. cbn. destruct (foldl _ _ _) as [merged tool]. cbn. intros [= <-].
  unfold judge, resolve_merged. destruct (CheckContent _) as [e|] eqn:Ec.
  { split; [|by case_match]. intros _ run opts. left. by eexists. }
  destruct (MissingMainPath _ =? "")%string eqn:Ep; cbn.
  - apply String.eqb_eq in Ep. split; [done|]. intros _. eexists _, _. by split_and!.
  - apply String.eqb_neq in Ep. split; [|done]. intros _ run opts.
    destruct (rs_Config (r_Spec run) !! MissingMainPath (bindInlineMainFile (mergeTestInto merged (t_Spec test)))) eqn:Eo.
    + right. eexists _, _, _. split_and!; [done..|by rewrite Eo].
    + left. pose proof (missing_main_path_required _ _ Ep Eo) as Hr. destruct (ResolveConfig _ _) as [|e]; [done|]. by exists e.
Qed.

End Runs.

(** ** A concrete Test *)

Definition demo_store : gmap string TestTemplate := {[ "ns/k6" := demo_template ]}.
Definition demo_unset : Test :=
  mkTest (mkMeta "smoke" "ns" "t1" ∅ ∅ 0 None [] []) (mkTestSpec (mkContent None [] [] []) zeroContainer ["k6"] None ∅ None None None
    "" ∅ None "" None None None []) None.

Lemma readiness_foretells_witness :
  ∃ e, Resolve (H := list_order) (H0 := demo_floats) (H1 := demo_regexp) (Op := TestOp) demo_unset
         (mkTestRun (mkMeta "smoke-1" "ns" "u1" ∅ ∅ 1 None [] []) (mkRunSpec "smoke" ∅ None ∅ "api" None None) zeroStatus)
         (MapStore_Get demo_store) (mkOptions ∅ "") = Ret (Err e).
Proof.
  destruct (proj1 (readiness_foretells (H := list_order) (H0 := demo_floats) (H1 := demo_regexp) (Op := TestOp) demo_store demo_unset
    (notReady ReasonParameterMissing "set spec.config.script: the script") ltac:(vm_compute; reflexivity)) eq_refl
    (mkTestRun (mkMeta "smoke-1" "ns" "u1" ∅ ∅ 1 None [] []) (mkRunSpec "smoke" ∅ None ∅ "api" None None) zeroStatus) (mkOptions ∅ ""))
    as [He|(spec & tool & param & _ & _ & _ & _ & [v Hv])]; [exact He|].
  exact (False_ind _ ltac:(cbn in Hv; rewrite lookup_empty in Hv; discriminate Hv)).
Defined.

End TestController.
