(* ===== verification/Admission.v ===== *)
(** * internal/webhook/v1alpha1: admission of Tests and TestRuns

    The defaulters and the validators, with the text of the error they refuse
    with.  An [error] is an [option string].  The cron parser, the glob syntax and
    the DNS-1123 check are the class [Lib]. *)
From S2P Require Import Prelude Api Names GoLib PodPolicy Ops Workers Expr Resolver.

Module Admission.

Class Lib := {
  cron_error : string → option string;
  ValidatePattern : string → bool;
  IsDNS1123Subdomain : string → list string;
}.

(** The first error of checks made in order, each only after the ones before. *)
Definition in_order (checks : list (option string)) : option string :=
  foldr (fun c rest => match c with Some e => Some e | None => rest end) None checks.
Definition refuse_if (b : bool) (msg : string) : option string := if b then Some msg else None.

Lemma in_order_ok checks : in_order checks = None ↔ Forall (fun c => c = None) checks.
Proof. induction checks as [|[e|] checks IH]; cbn; [done| |]; rewrite Forall_cons; naive_solver. Qed.

Lemma refuse_if_ok b msg : refuse_if b msg = None ↔ b = false.
Proof. by destruct b. Qed.

Definition set_ {A} (o : option A) : bool := match o with Some _ => true | None => false end.
Definition some_of {A} (xs : list A) : bool := (0 <? length xs)%nat.
Definition unset_str (s : string) : bool := (s =? "")%string.

(** ** Constants *)

Definition ConcurrencyAllow : string := "Allow".
Definition ConcurrencyForbid : string := "Forbid".
Definition ConcurrencyReplace : string := "Replace".
Definition DefaultConcurrencyPolicy : string := ConcurrencyAllow.
Definition MaxInlineContentBytes : Z := 512 * 1024.
Definition VerdictFromExitCode : string := "exitCode".
Definition VerdictFromJUnit : string := "junit".
Definition VerdictFromJTL : string := "jtl".
Definition allowedConcurrencyPolicies : list string := [""; ConcurrencyAllow; ConcurrencyForbid; ConcurrencyReplace].
Definition allowedVerdictFrom : list string := [""; VerdictFromExitCode; VerdictFromJUnit; VerdictFromJTL].
Definition MaxServiceReplicas : Z := 20.
Definition MaxParallelWorkers : Z := 50.
Definition conditionPassed : string := "passed".
Definition repoDir : string := "/data/repo".
Definition testDataDir : string := "/data/testdata".
Definition platformDirs : list string := ["/kubetest-bin"; "/etc/kubetest"].
Definition DefaultSource : string := "api".

Definition one_of (allowed : list string) (s : string) : bool := existsb (String.eqb s) allowed.

(** ** Defaulting *)

Definition Default_policy (policy : string) : string := if unset_str policy then DefaultConcurrencyPolicy else policy.
Definition Default_source (source : string) : string := if unset_str source then DefaultSource else source.

(** ** The rules of a leaf Test *)

Definition validateRetry (field : string) (r : option RetryPolicy) : option string :=
  match r with
  | None => None
  | Some r =>
      in_order
        [refuse_if (rp_Count r <? 1)%Z (field +:+ ".count must be >= 1 when set");
         refuse_if (negb (unset_str (rp_Until r)) && negb (rp_Until r =? conditionPassed)%string)
           (field +:+ ".until " +:+ quote (rp_Until r) +:+ " is not supported (only " +:+ quote "passed" +:+ ", the default)")]
  end.

Definition validateVerdict `{Floats} (v : option VerdictSpec) : option string :=
  match v with
  | None => None
  | Some v =>
      if negb (one_of allowedVerdictFrom (vd_From v)) then
        Some ("spec.verdict.from " +:+ quote (vd_From v) +:+ " is not one of [exitCode junit jtl]")
      else
        let from := if unset_str (vd_From v) then VerdictFromExitCode else vd_From v in
        if unset_str (vd_ErrorRateMax v) then None
        else if negb (from =? VerdictFromJTL)%string then
          Some ("spec.verdict.errorRateMax is only valid when spec.verdict.from=jtl (got from=" +:+ quote from +:+ ")")
        else
          match ParseFloat (vd_ErrorRateMax v) with
          | Err e => Some ("spec.verdict.errorRateMax " +:+ quote (vd_ErrorRateMax v) +:+ " is not a valid float: " +:+ e)
          | Ok f =>
              refuse_if (float_lt f float_zero || float_lt float_one f)
                ("spec.verdict.errorRateMax " +:+ fmt_float f +:+ " out of range [0,1]")
          end
  end.

Definition inlineContentSize (files : list FileContent) : Z :=
  foldl (fun total f => wrap64 (total + Z.of_nat (String.length (fc_Content f)))) 0%Z files.

Definition validateRelativeGlob `{Lib} (field p : string) : option string :=
  in_order
    [refuse_if (HasPrefix p "/") (field +:+ " " +:+ quote p +:+ " must be relative to the working directory");
     refuse_if (existsb (String.eqb "..") (Split slash p)) (field +:+ " " +:+ quote p +:+ " must not contain '..'");
     refuse_if (negb (ValidatePattern p)) (field +:+ " " +:+ quote p +:+ " is not a valid glob pattern")].

Definition validateMetrics `{Lib} (m : option MetricsSpec) : option string :=
  match m with None => None | Some m => validateRelativeGlob "spec.metrics.path" (ms_Path m) end.

Definition validateArtifacts `{Lib} (a : option ArtifactSpec) : option string :=
  match a with
  | Some a => if unset_str (af_Report a) then None else validateRelativeGlob "spec.artifacts.report" (af_Report a)
  | None => None
  end.

Definition validate_liveView (lv : option LiveViewSpec) : option string :=
  match lv with
  | Some lv =>
      refuse_if (negb (unset_str (lv_Path lv)) && (negb (HasPrefix (lv_Path lv) "/") || HasPrefix (lv_Path lv) "//"))
        ("spec.liveView.path " +:+ quote (lv_Path lv) +:+ " must start with a single /")
  | None => None
  end.

Definition validate_schedule `{Lib} (schedule : string) : option string :=
  if unset_str schedule then None
  else match cron_error schedule with
       | Some e => Some ("spec.schedule " +:+ quote schedule +:+ " is not a valid cron expression: " +:+ e)
       | None => None
       end.

Definition validate_policy (policy : string) : option string :=
  refuse_if (negb (one_of allowedConcurrencyPolicies policy))
    ("spec.concurrencyPolicy " +:+ quote policy +:+ " is not one of [Allow Forbid Replace]").

(** *** Services *)

(** [serviceNameRE]: ^[a-z]([-a-z0-9]{0,30}[a-z0-9])?$ *)
Definition lower_letter (c : ascii) : bool := let n := nat_of_ascii c in (97 <=? n)%nat && (n <=? 122)%nat.
Definition lower_alnum (c : ascii) : bool :=
  let n := nat_of_ascii c in lower_letter c || (48 <=? n)%nat && (n <=? 57)%nat.
Definition name_tail_byte (c : ascii) : bool := lower_alnum c || Ascii.eqb c "-".
Fixpoint ends_alnum (s : string) : bool :=
  match s with EmptyString => true | String c EmptyString => lower_alnum c | String _ s => ends_alnum s end.
Definition service_name_ok (s : string) : bool :=
  match s with
  | EmptyString => false
  | String c tail => lower_letter c && Expr.str_forall name_tail_byte tail && ends_alnum tail && (String.length tail <=? 31)%nat
  end.

Definition bad_key (at_ key : string) : string :=
  at_ +:+ " key " +:+ quote key +:+ " must be an identifier ([A-Za-z_][A-Za-z0-9_]*)".

Fixpoint service_matrix (at_ : string) (entries : list (string * list string)) (replicas : Z) : result string Z :=
  match entries with
  | [] => Ok replicas
  | (key, values) :: entries =>
      if negb (Expr.is_ident key) then Err (bad_key (at_ +:+ ".matrix") key)
      else if negb (some_of values) then Err (at_ +:+ ".matrix." +:+ key +:+ " needs at least one value")
      else service_matrix at_ entries (wrap64 (replicas * Z.of_nat (length values)))
  end.

Definition service_shape (at_ name : string) (svc : ServiceSpec) : option string :=
  in_order
    [refuse_if (negb (service_name_ok name))
       (at_ +:+ ": service name must be a DNS label of at most 32 characters (lowercase letters, digits, '-'), starting with a letter");
     refuse_if (unset_str (sv_Image svc)) (at_ +:+ ".image is required");
     refuse_if (set_ (sv_MaxCount svc)) (at_ +:+ ".maxCount is not supported for services — use count");
     refuse_if (negb (bool_decide (sv_Shards svc = ∅))) (at_ +:+ ".shards is not supported for services — use matrix or count");
     refuse_if (match sv_Count svc with Some n => (n <? 1)%Z | None => false end) (at_ +:+ ".count must be >= 1")].

Definition service_replicas `{MapOrder} (at_ : string) (svc : ServiceSpec) : result string Z :=
  service_matrix at_ (range (sv_Matrix svc)) (default 1%Z (sv_Count svc)).

Definition validate_service `{MapOrder} (name : string) (svc : ServiceSpec) (total : Z) : result string Z :=
  let at_ := "spec.services." +:+ name in
  match service_shape at_ name svc with
  | Some e => Err e
  | None =>
      match service_replicas at_ svc with
      | Err e => Err e
      | Ok replicas =>
          if match sv_Timeout svc with Some d => (d <? 0)%Z | None => false end then Err (at_ +:+ ".timeout must not be negative")
          else
            let total := wrap64 (total + replicas) in
            if (MaxServiceReplicas <? total)%Z then
              Err ("spec.services start " +:+ itoa total +:+ "+ replicas; at most " +:+ itoa MaxServiceReplicas +:+ " per run")
            else Ok total
      end
  end.

Fixpoint services_loop `{MapOrder} (services : gmap string ServiceSpec) (names : list string) (total : Z) : option string :=
  match names with
  | [] => None
  | name :: names =>
      match services !! name with
      | None => services_loop services names total
      | Some svc =>
          match validate_service name svc total with
          | Err e => Some e
          | Ok total => services_loop services names total
          end
      end
  end.

Definition validateServices `{MapOrder} (services : gmap string ServiceSpec) : option string :=
  services_loop services (sorted_keys services) 0.

(** *** Parallel *)

(** The entries of one field; the product of the lengths, for the matrix. *)
Fixpoint parallel_field (name : string) (entries : list (string * list string)) (combos : Z) : result string Z :=
  match entries with
  | [] => Ok combos
  | (key, values) :: entries =>
      if negb (Expr.is_ident key) then Err (bad_key ("spec.parallel." +:+ name) key)
      else if negb (some_of values) then Err ("spec.parallel." +:+ name +:+ "." +:+ key +:+ " needs at least one value")
      else parallel_field name entries
             (if (name =? "matrix")%string then wrap64 (combos * Z.of_nat (length values)) else combos)
  end.

Definition workers_per (p : ParallelSpec) : Z :=
  match pl_Count p with
  | Some n => n
  | None =>
      if bool_decide (pl_Shards p = ∅) then 1%Z
      else
        let per := Workers.longest (pl_Shards p) in
        match pl_MaxCount p with Some m => Z.min per m | None => per end
  end.

Definition validateParallel `{MapOrder} (p : option ParallelSpec) : option string :=
  match p with
  | None => None
  | Some p =>
      if set_ (pl_MaxCount p) && set_ (pl_Count p) then
        Some "spec.parallel: set count (workers per combination) or maxCount (cap when shards decide), not both"
      else if set_ (pl_MaxCount p) && bool_decide (pl_Shards p = ∅) then
        Some "spec.parallel.maxCount only applies with shards"
      else
        match parallel_field "matrix" (range (pl_Matrix p)) 1 with
        | Err e => Some e
        | Ok combos =>
            match parallel_field "shards" (range (pl_Shards p)) combos with
            | Err e => Some e
            | Ok combos =>
                let total := wrap64 (combos * workers_per p) in
                refuse_if (MaxParallelWorkers <? total)%Z
                  ("spec.parallel starts " +:+ itoa total +:+ " workers; at most " +:+ itoa MaxParallelWorkers +:+ " per run")
            end
        end
  end.

(** *** Content *)

Definition sources_of (c : Content) : nat := countb id [set_ (ct_Git c); some_of (ct_Files c); some_of (ct_Tarball c)].

Definition relativePath (field p : string) : option string :=
  refuse_if (unset_str p || IsAbs p || existsb (String.eqb "..") (Split slash (Clean p)))
    (field +:+ " " +:+ quote p +:+ " must be relative to " +:+ repoDir +:+ ", without .. segments").

Definition validate_file (i : Z) (f : FileContent) : option string :=
  let field := "spec.content.files[" +:+ itoa i +:+ "]" in
  in_order
    [refuse_if (set_ (fc_ContentFrom f))
       (field +:+ ".contentFrom isn't supported — mount the ConfigMap or Secret with spec.content.testData "
        +:+ "(- configMap: <name>, or items: [{key: <key>, path: " +:+ repoDir +:+ "/" +:+ TrimPrefix (fc_Path f) "repo/" +:+ "}])");
     refuse_if (HasPrefix (fc_Path f) "repo/")
       (field +:+ ".path " +:+ quote (fc_Path f) +:+ ": inline paths are relative to " +:+ repoDir +:+ " now — write "
        +:+ quote (TrimPrefix (fc_Path f) "repo/"));
     relativePath (field +:+ ".path") (fc_Path f)].

Definition platform_dir (clean : string) : option string :=
  find_first (fun dir => (clean =? dir)%string || HasPrefix clean (dir +:+ "/")) platformDirs.

Definition dataPath (field p : string) : option string :=
  let clean := Clean p in
  in_order
    [refuse_if (negb (IsAbs p) || Contains p "..") (field +:+ " " +:+ quote p +:+ " must be an absolute path without .. segments");
     refuse_if (one_of ["/"; "/data"; repoDir] clean)
       (field +:+ " " +:+ quote p +:+ " would cover the whole " +:+ clean +:+ " — pick a directory below it");
     match platform_dir clean with
     | Some dir => Some (field +:+ " " +:+ quote p +:+ " is the platform's directory " +:+ dir)
     | None => None
     end].

(** Where a path was claimed already. *)
Definition claim (seen : strmap) (p what : string) : result string strmap :=
  match seen !! p with
  | Some earlier => Err (what +:+ " and " +:+ earlier +:+ " both land on " +:+ p)
  | None => Ok (<[p := what]> seen)
  end.

Fixpoint claim_items (field : string) (j : Z) (items : list TestDataItem) (seen : strmap) : result string strmap :=
  match items with
  | [] => Ok seen
  | it :: items =>
      let f := field +:+ ".items[" +:+ itoa j +:+ "]" in
      match in_order [refuse_if (unset_str (tdi_Key it)) (f +:+ ".key is required"); dataPath (f +:+ ".path") (tdi_Path it)] with
      | Some e => Err e
      | None => seen ← claim seen (Clean (tdi_Path it)) f; claim_items field (j + 1) items seen
      end
  end.

Definition data_name (d : TestDataSource) : string := td_ConfigMap d +:+ td_Secret d.

Section Rules.
Context `{L : Lib}.

Definition data_source (field : string) (d : TestDataSource) : option string :=
  in_order
    [refuse_if (Bool.eqb (unset_str (td_ConfigMap d)) (unset_str (td_Secret d))) (field +:+ ": set exactly one of configMap or secret");
     match IsDNS1123Subdomain (data_name d) with
     | [] => None
     | errs => Some (field +:+ ": " +:+ quote (data_name d) +:+ " is not a valid name: " +:+ str_join "; " errs)
     end].

Definition validate_data (i : Z) (d : TestDataSource) (seen : strmap) : result string strmap :=
  let field := "spec.content.testData[" +:+ itoa i +:+ "]" in
  match data_source field d with
  | Some e => Err e
  | None =>
      if negb (unset_str (td_MountPath d)) && some_of (td_Items d) then
        Err (field +:+ ": mountPath (all keys in a directory) or items (keys at exact paths) — not both")
      else if some_of (td_Items d) then claim_items field 0 (td_Items d) seen
      else if negb (unset_str (td_MountPath d)) then
        match dataPath (field +:+ ".mountPath") (td_MountPath d) with
        | Some e => Err e
        | None => claim seen (Clean (td_MountPath d)) field
        end
      else claim seen (Join testDataDir (data_name d)) field
  end.

Fixpoint data_loop (i : Z) (ds : list TestDataSource) (seen : strmap) : option string :=
  match ds with
  | [] => None
  | d :: ds => match validate_data i d seen with Err e => Some e | Ok seen => data_loop (i + 1) ds seen end
  end.

Fixpoint files_loop (i : Z) (fs : list FileContent) : option string :=
  match fs with
  | [] => None
  | f :: fs => match validate_file i f with Some e => Some e | None => files_loop (i + 1) fs end
  end.

Definition validateContent (c : Content) : option string :=
  in_order
    [refuse_if (1 <? sources_of c)%nat
       ("spec.content: a Test's code comes from git, inline files or a tarball — one of them, not several; "
        +:+ "data from ConfigMaps and Secrets goes in spec.content.testData");
     files_loop 0 (ct_Files c);
     data_loop 0 (ct_TestData c) ∅].

(** ** The rules of a composite Test *)

Definition validate_exec_test (at_ : string) (t : StepExecuteTest) : option string :=
  in_order
    [refuse_if (unset_str (et_Name t)) (at_ +:+ ".name is required");
     refuse_if (et_Count t <? 0)%Z (at_ +:+ ".count must be >= 1 (0/unset means default 1)")].

Definition validateStep (idx : Z) (s : Step) : option string :=
  let at_ := "spec.steps[" +:+ itoa idx +:+ "]" in
  match s_Execute s with
  | None => Some (at_ +:+ ".execute is required (step 17 supports execute-only steps)")
  | Some ex =>
      in_order
        ([refuse_if (negb (some_of (se_Tests ex))) (at_ +:+ ".execute.tests must have at least one entry");
          refuse_if (se_Parallelism ex <? 0)%Z (at_ +:+ ".execute.parallelism must be >= 0");
          refuse_if (negb (one_of [""; conditionPassed; "always"] (s_Condition s)))
            (at_ +:+ ".condition " +:+ quote (s_Condition s) +:+ " is not one of [passed always]")]
         ++ imap (fun j t => validate_exec_test (at_ +:+ ".execute.tests[" +:+ itoa (Z.of_nat j) +:+ "]") t) (se_Tests ex)
         ++ [validateRetry (at_ +:+ ".retry") (s_Retry s)])
  end.

Definition validateCompositeShape (spec : TestSpec) : option string :=
  let c := ts_Container spec in
  let ct := ts_Content spec in
  in_order
    ([refuse_if (negb (unset_str (cc_Image c)) || some_of (cc_Command c) || some_of (cc_Args c))
        "spec.steps and spec.container are mutually exclusive";
      refuse_if (some_of (ts_Use spec)) "spec.steps and spec.use are mutually exclusive (composite composes children, not templates)";
      refuse_if (set_ (ct_Git ct) || some_of (ct_Files ct) || some_of (ct_Tarball ct) || some_of (ct_TestData ct))
        "spec.steps and spec.content are mutually exclusive (children carry their own content)";
      refuse_if (set_ (ts_Verdict spec)) "spec.steps and spec.verdict are mutually exclusive (composite verdict comes from step aggregation)";
      refuse_if (set_ (ts_Metrics spec)) "spec.steps and spec.metrics are mutually exclusive (each child reports its own metrics)";
      refuse_if (negb (bool_decide (ts_Services spec = ∅))) "spec.steps and spec.services are mutually exclusive";
      refuse_if (set_ (ts_Parallel spec)) "spec.steps and spec.parallel are mutually exclusive";
      refuse_if (set_ (ts_Retry spec)) "spec.retry does not apply to a composite Test — set retry on the steps (spec.steps[].retry)";
      validate_policy (ts_ConcurrencyPolicy spec);
      validate_schedule (ts_Schedule spec)]
     ++ imap (fun i s => validateStep (Z.of_nat i) s) (ts_Steps spec)).

Definition validateTest `{Floats, MapOrder} (spec : TestSpec) : option string :=
  if some_of (ts_Steps spec) then validateCompositeShape spec
  else
    let c := ts_Container spec in
    let requiresLocalContainer := negb (some_of (ts_Use spec)) in
    in_order
      [refuse_if (requiresLocalContainer && unset_str (cc_Image c))
         ("spec.container.image is required (workflows model: no built-in tool images) — "
          +:+ "or reference a template via spec.use[] that supplies it");
       refuse_if (requiresLocalContainer && negb (some_of (cc_Command c)) && negb (some_of (cc_Args c)))
         ("spec.container: at least one of command or args is required — "
          +:+ "or reference a template via spec.use[] that supplies one");
       validate_policy (ts_ConcurrencyPolicy spec);
       validateVerdict (ts_Verdict spec);
       validateMetrics (ts_Metrics spec);
       validateArtifacts (ts_Artifacts spec);
       validate_liveView (ts_LiveView spec);
       validateRetry "spec.retry" (ts_Retry spec);
       validateServices (ts_Services spec);
       validateParallel (ts_Parallel spec);
       match ct_Git (ts_Content spec) with
       | Some git => refuse_if (unset_str (git_URI git)) "spec.content.git.uri is required when spec.content.git is set"
       | None => None
       end;
       validateContent (ts_Content spec);
       refuse_if (MaxInlineContentBytes <? inlineContentSize (ct_Files (ts_Content spec)))%Z
         ("inline content exceeds " +:+ itoa MaxInlineContentBytes +:+ " bytes (found "
          +:+ itoa (inlineContentSize (ct_Files (ts_Content spec))) +:+ ") — use git/tarball source instead");
       validate_schedule (ts_Schedule spec)].

(** [ValidateCreate] and [ValidateUpdate] of a Test. *)
Definition admit_Test `{Floats, MapOrder} (policy : PodPolicy.Policy) (spec : TestSpec) : option string :=
  match validateTest spec with
  | Some e => Some e
  | None => PodPolicy.Policy_Check policy (Some spec) None
  end.
End Rules.

(** ** TestRuns *)

Definition validateRunName (name : string) : option string :=
  refuse_if (Names.MaxLen <? String.length name)%nat
    ("metadata.name " +:+ quote name +:+ " is " +:+ itoa (Z.of_nat (String.length name)) +:+ " characters; a TestRun name must be at most "
     +:+ itoa (Z.of_nat Names.MaxLen) +:+ " (it becomes the Job name)").

Definition validateTestRun (spec : TestRunSpec) : option string := refuse_if (unset_str (rs_TestRef spec)) "spec.testRef is required".

Definition validateAbortTransition (oldAbort newAbort : option AbortRequest) : option string :=
  match oldAbort with
  | None => None
  | Some o =>
      match newAbort with
      | None => Some "spec.abort cannot be cleared once set — an aborted run stays aborted"
      | Some n => refuse_if (negb (bool_decide (o = n))) "spec.abort cannot be changed once set"
      end
  end.

Definition admit_TestRun_create (policy : PodPolicy.Policy) (run : TestRun) : option string :=
  in_order [validateRunName (run_name run); validateTestRun (r_Spec run);
            PodPolicy.Policy_Check policy (Some zeroTestSpec) (rs_Pod (r_Spec run))].

Definition admit_TestRun_update (policy : PodPolicy.Policy) (old new : TestRun) : option string :=
  in_order [validateTestRun (r_Spec new); PodPolicy.Policy_Check policy (Some zeroTestSpec) (rs_Pod (r_Spec new));
            validateAbortTransition (rs_Abort (r_Spec old)) (rs_Abort (r_Spec new))].

(** ** How many workers an admitted Test starts *)

Definition product (lens : list Z) : Z := foldr Z.mul 1%Z lens.
#[local] Instance product_perm : Proper ((≡ₚ) ==> (=)) product.
Proof. unfold product. induction 1; cbn in *; [done|by f_equal|lia|congruence]. Qed.

Definition len {A} (xs : list A) : Z := Z.of_nat (length xs).

(** The combinations of a matrix. *)
Definition matrix_size (m : gmap string (list string)) : Z := product ((fun kv => len kv.2) <$> map_to_list m).

Lemma extend_combos_length values key combos :
  len (Workers.extend_combos values key combos) = (len combos * len values)%Z.
Proof.
  unfold len, Workers.extend_combos. induction combos as [|c cs IH]; [done|]. cbn [mbind list_bind].
  rewrite length_app, length_fmap. cbn [length]. lia.
Qed.

Lemma matrix_combos_length m keys combos :
  len (Workers.matrix_combos m keys combos) = (len combos * product ((fun k => len (default [] (m !! k))) <$> keys))%Z.
Proof.
  revert combos. induction keys as [|k keys IH]; intros combos; [unfold Workers.matrix_combos; cbn [foldl fmap list_fmap product foldr]; lia|].
  change (Workers.matrix_combos m (k :: keys) combos)
    with (Workers.matrix_combos m keys (Workers.extend_combos (default [] (m !! k)) k combos)).
  rewrite IH, extend_combos_length. unfold product. cbn [fmap list_fmap foldr]. lia.
Qed.

Lemma matrix_size_keys m : product ((fun k => len (default [] (m !! k))) <$> sorted_keys m) = matrix_size m.
Proof.
  unfold matrix_size, sorted_keys. rewrite str_sort_perm, <- list_fmap_compose. f_equal. apply list_fmap_ext.
  intros i [k v] Hi. cbn. assert (m !! k = Some v) as -> by (apply elem_of_map_to_list; by eapply list_elem_of_lookup_2). done.
Qed.

Lemma ParallelWorkers_count p :
  (0 <= Workers.workers_per_combo p)%Z →
  len (Workers.ParallelWorkers (Some p)) = (matrix_size (pl_Matrix p) * Workers.workers_per_combo p)%Z.
Proof.
  intros Hp. unfold len. rewrite Workers.ParallelWorkers_length. unfold Workers.worker_group.
  rewrite Nat2Z.inj_mul, Z2Nat.id by done. fold (len (Workers.matrix_combos (pl_Matrix p) (sorted_keys (pl_Matrix p)) [∅])).
  rewrite matrix_combos_length, matrix_size_keys. unfold len. cbn [length]. lia.
Qed.

Lemma wrap64_mul_l a b : wrap64 (wrap64 a * b) = wrap64 (a * b).
Proof.
  unfold wrap64. f_equal. set (x := ((a + 2 ^ 63) mod 2 ^ 64)%Z).
  rewrite Z.mul_sub_distr_r. replace (x * b - 2 ^ 63 * b + 2 ^ 63)%Z with (x * b + (2 ^ 63 - 2 ^ 63 * b))%Z by lia.
  rewrite <- Zplus_mod_idemp_l. unfold x. rewrite Zmult_mod_idemp_l, Zplus_mod_idemp_l. f_equal. lia.
Qed.

Lemma wrap64_idem a : wrap64 (wrap64 a) = wrap64 a.
Proof. transitivity (wrap64 (wrap64 a * 1)); [by rewrite Z.mul_1_r|]. by rewrite wrap64_mul_l, Z.mul_1_r. Qed.

Lemma parallel_matrix entries combos out :
  parallel_field "matrix" entries combos = Ok out → wrap64 combos = combos →
  out = wrap64 (combos * product ((fun kv => len kv.2) <$> entries)).
Proof.
  revert combos. induction entries as [|[key values] entries IH]; intros combos; cbn [parallel_field fmap list_fmap product foldr].
  { intros [= <-] Hw. by rewrite Z.mul_1_r. }
  destruct (negb (Expr.is_ident key)); [done|]. destruct (negb (some_of values)); [done|].
  cbn. intros H%IH _; [|apply wrap64_idem].
  rewrite H, wrap64_mul_l. unfold product, len. f_equal. lia.
Qed.

Lemma parallel_shards entries combos out : parallel_field "shards" entries combos = Ok out → out = combos.
Proof.
  induction entries as [|[key values] entries IH]; cbn [parallel_field]; [by intros [= <-]|].
  destruct (negb (Expr.is_ident key)); [done|]. by destruct (negb (some_of values)).
Qed.

(** What the API server's schema promises of the counts. *)
Definition schema_counts (p : ParallelSpec) : Prop :=
  (∀ n, pl_Count p = Some n → 1 <= n)%Z ∧ (∀ n, pl_MaxCount p = Some n → 1 <= n)%Z.

Lemma longest_nonneg shards : (0 <= Workers.longest shards)%Z.
Proof. unfold Workers.longest. induction (map_to_list shards) as [|kv l IH]; cbn; lia. Qed.

Lemma workers_per_le p : schema_counts p → (workers_per p <= Workers.workers_per_combo p)%Z ∧ (1 <= Workers.workers_per_combo p)%Z.
Proof.
  intros [Hc Hm]. unfold workers_per, Workers.workers_per_combo. destruct (pl_Count p) as [n|]; [specialize (Hc n eq_refl); lia|].
  case_bool_decide; [lia|]. cbn zeta. destruct (pl_MaxCount p); lia.
Qed.

Section Workers.
Context `{MapOrder}.

(** Shard lists are not empty once checked, so there each combination has a worker. *)
Lemma longest_pos name shards combos out :
  parallel_field name (range shards) combos = Ok out → shards ≠ ∅ → (1 <= Workers.longest shards)%Z.
Proof.
  intros Hok Hne. apply map_choose in Hne as (key & values & Hk).
  assert (Hall : ∀ kv, kv ∈ range shards → kv.2 ≠ []).
  { revert combos Hok. induction (range shards) as [|[k v] entries IH]; cbn [parallel_field]; intros combos Hok kv; [set_solver|].
    destruct (negb (Expr.is_ident k)); [done|]. destruct v as [|x v]; cbn [some_of length negb Nat.ltb Nat.leb] in Hok; [done|].
    intros [->|Hin]%elem_of_cons; [done|]. by apply (IH _ Hok). }
  assert (Hv : values ≠ []) by (apply (Hall (key, values)); by apply range_elem).
  unfold Workers.longest. apply elem_of_map_to_list in Hk. induction (map_to_list shards) as [|kv l IH]; [set_solver|].
  cbn. apply elem_of_cons in Hk as [<-|Hk]; [destruct values; cbn; [done|lia]|]. specialize (IH Hk). lia.
Qed.

(** The worker limit holds modulo 2^64: an admitted spec starts at most
    [MaxParallelWorkers] workers when their number fits a signed 64-bit integer;
    otherwise what is at most the limit is the number wrapped around. *)
Theorem admitted_workers p :
  schema_counts p → validateParallel (Some p) = None →
  (wrap64 (len (Workers.ParallelWorkers (Some p))) <= MaxParallelWorkers)%Z ∧
  ((len (Workers.ParallelWorkers (Some p)) <= int64_max)%Z → (len (Workers.ParallelWorkers (Some p)) <= MaxParallelWorkers)%Z).
Proof.
  intros Hs Hv. assert (Hw : (wrap64 (len (Workers.ParallelWorkers (Some p))) <= MaxParallelWorkers)%Z).
  2: { split; [done|]. intros Hle. rewrite wrap64_small in Hw; [done|]. unfold len, int64_min in *. lia. }
  destruct (workers_per_le p Hs) as [_ H1]. rewrite ParallelWorkers_count by lia.
  unfold validateParallel in Hv. destruct (_ && _)%bool; [done|]. destruct (_ && _)%bool; [done|].
  destruct (parallel_field "matrix" _ _) as [combos|] eqn:Em; [|done].
  destruct (parallel_field "shards" _ _) as [combos'|] eqn:Es; [|done].
  apply refuse_if_ok in Hv. apply Z.ltb_ge in Hv. pose proof (parallel_shards _ _ _ Es) as ->.
  apply parallel_matrix in Em; [|done]. rewrite Em, Z.mul_1_l, wrap64_mul_l in Hv.
  assert (Hsize : product ((fun kv => len kv.2) <$> range (pl_Matrix p)) = matrix_size (pl_Matrix p)) by by rewrite range_perm.
  rewrite Hsize in Hv. replace (Workers.workers_per_combo p) with (workers_per p); [done|].
  unfold workers_per, Workers.workers_per_combo. destruct (pl_Count p); [done|]. case_bool_decide as Hsh; [done|]. cbn zeta.
  pose proof (longest_pos _ _ _ _ Es Hsh). destruct Hs as [_ Hm]. destruct (pl_MaxCount p) as [n|]; [specialize (Hm n eq_refl)|]; lia.
Qed.
End Workers.

(** Eight keys of 256 values: 2^64 combinations. *)
Definition wide_values : list string := replicate 256 "v".
Definition wide_matrix : gmap string (list string) :=
  list_to_map ((fun k => (k, wide_values)) <$> ["a"; "b"; "c"; "d"; "e"; "f"; "g"; "h"]).
Definition wide_parallel : ParallelSpec := mkParallel None None wide_matrix ∅.

(** And the limit can be passed: this spec, of 2,048 short strings, is admitted and
    asks for 2^64 workers. *)
Theorem too_many_workers_admitted :
  validateParallel (H := list_order) (Some wide_parallel) = None ∧
  len (Workers.ParallelWorkers (Some wide_parallel)) = (2 ^ 64)%Z.
Proof.
  split; [vm_compute; reflexivity|]. rewrite ParallelWorkers_count by (vm_compute; discriminate).
  vm_compute. reflexivity.
Qed.

Definition demo_grid : ParallelSpec := mkParallel (Some 2%Z) None {[ "browser" := ["chrome"; "firefox"] ]} ∅.

Lemma admitted_workers_witness :
  (len (Workers.ParallelWorkers (Some demo_grid)) <= MaxParallelWorkers)%Z.
Proof.
  apply (admitted_workers (H := list_order) demo_grid).
  - split; intros n; cbn; intros Hn; [injection Hn as <-; discriminate|discriminate Hn].
  - vm_compute. reflexivity.
  - vm_compute. discriminate.
Defined.

(** ** Where an admitted Test's files and data land *)

(** The absolute path of a data mount: not the data directory or the code, not in
    a directory of the platform. *)
Definition mountable (p : string) : Prop :=
  IsAbs p = true ∧ Contains p ".." = false ∧ Clean p ∉ ["/"; "/data"; repoDir] ∧
  ∀ dir, dir ∈ platformDirs → Clean p ≠ dir ∧ HasPrefix (Clean p) (dir +:+ "/") = false.

Definition file_ok (f : FileContent) : Prop :=
  fc_ContentFrom f = None ∧ HasPrefix (fc_Path f) "repo/" = false ∧ fc_Path f ≠ "" ∧ IsAbs (fc_Path f) = false ∧
  ".." ∉ Split slash (Clean (fc_Path f)).

(** The paths a data entry takes. *)
Definition targets (d : TestDataSource) : list string :=
  match td_Items d with
  | [] => [if unset_str (td_MountPath d) then Join testDataDir (data_name d) else Clean (td_MountPath d)]
  | items => (fun it => Clean (tdi_Path it)) <$> items
  end.

Definition data_ok `{Lib} (d : TestDataSource) : Prop :=
  (td_ConfigMap d = "" ↔ td_Secret d ≠ "") ∧ IsDNS1123Subdomain (data_name d) = [] ∧
  (td_MountPath d = "" ∨ td_Items d = []) ∧ (td_MountPath d ≠ "" → mountable (td_MountPath d)) ∧
  ∀ it, it ∈ td_Items d → tdi_Key it ≠ "" ∧ mountable (tdi_Path it).

Lemma unset_str_eq s : unset_str s = true ↔ s = "".
Proof. apply String.eqb_eq. Qed.
Lemma unset_str_neq s : unset_str s = false ↔ s ≠ "".
Proof. apply String.eqb_neq. Qed.

Lemma one_of_elem allowed s : one_of allowed s = true ↔ s ∈ allowed.
Proof. unfold one_of. rewrite existsb_elem. setoid_rewrite String.eqb_eq. naive_solver. Qed.
Lemma one_of_not allowed s : one_of allowed s = false ↔ s ∉ allowed.
Proof. rewrite <- one_of_elem. by destruct (one_of allowed s). Qed.

Lemma platform_dir_None clean :
  platform_dir clean = None ↔ ∀ dir, dir ∈ platformDirs → clean ≠ dir ∧ HasPrefix clean (dir +:+ "/") = false.
Proof.
  unfold platform_dir. rewrite find_first_None, Forall_forall. apply forall_proper. intros dir.
  rewrite orb_false_iff, String.eqb_neq. done.
Qed.

Lemma dataPath_ok field p : dataPath field p = None ↔ mountable p.
Proof.
  unfold dataPath, mountable. cbn zeta. rewrite in_order_ok, !Forall_cons, Forall_nil, !refuse_if_ok.
  rewrite orb_false_iff, negb_false_iff, one_of_not, <- platform_dir_None. destruct (platform_dir _); naive_solver.
Qed.

Lemma validate_file_ok i f : validate_file i f = None ↔ file_ok f.
Proof.
  unfold validate_file, relativePath, file_ok. cbn zeta.
  rewrite in_order_ok, !Forall_cons, Forall_nil, !refuse_if_ok, !orb_false_iff, unset_str_neq.
  assert (Hin : existsb (String.eqb "..") (Split slash (Clean (fc_Path f))) = false ↔ ".." ∉ Split slash (Clean (fc_Path f))).
  { apply one_of_not. }
  rewrite Hin. unfold set_. destruct (fc_ContentFrom f); naive_solver.
Qed.

Lemma files_loop_ok `{Lib} i fs : files_loop i fs = None ↔ Forall file_ok fs.
Proof.
  revert i. induction fs as [|f fs IH]; intros i; cbn [files_loop]; [done|].
  rewrite Forall_cons, <- (validate_file_ok i), <- (IH (i + 1)%Z). destruct (validate_file i f); naive_solver.
Qed.

Lemma claim_ok seen p what seen' : claim seen p what = Ok seen' ↔ seen !! p = None ∧ seen' = <[p := what]> seen.
Proof. unfold claim. destruct (seen !! p); naive_solver. Qed.

Definition item_ok (it : TestDataItem) : Prop := tdi_Key it ≠ "" ∧ mountable (tdi_Path it).
Definition fresh (seen : strmap) (ps : list string) : Prop := NoDup ps ∧ ∀ p, p ∈ ps → seen !! p = None.

Lemma fresh_cons seen p ps what : fresh seen (p :: ps) ↔ seen !! p = None ∧ fresh (<[p := what]> seen) ps.
Proof.
  unfold fresh. rewrite NoDup_cons. split.
  - intros [[Hn Hnd] Hs]. split; [apply Hs; left|]. split; [done|]. intros q Hq.
    rewrite lookup_insert_ne by (intros ->; done). apply Hs. by right.
  - intros [Hp [Hnd Hs]]. split; [split; [|done]|].
    + intros Hin. specialize (Hs p Hin). rewrite lookup_insert_eq in Hs. done.
    + intros q [->|Hq]%elem_of_cons; [done|]. specialize (Hs q Hq).
      destruct (decide (p = q)) as [->|]; [done|]. by rewrite lookup_insert_ne in Hs.
Qed.

(** What was claimed afterwards. *)
Definition claims (seen seen' : strmap) (ps : list string) : Prop := ∀ q, seen' !! q = None ↔ seen !! q = None ∧ q ∉ ps.

Lemma claims_cons seen seen' p ps what : claims (<[p := what]> seen) seen' ps → claims seen seen' (p :: ps).
Proof.
  unfold claims. intros Hc q. rewrite Hc, not_elem_of_cons. destruct (decide (q = p)) as [->|].
  - rewrite lookup_insert_eq. naive_solver.
  - rewrite lookup_insert_ne by done. naive_solver.
Qed.

Lemma claim_items_ok field j items seen :
  (∃ seen', claim_items field j items seen = Ok seen' ∧ claims seen seen' ((fun it => Clean (tdi_Path it)) <$> items)) ∧
    Forall item_ok items ∧ fresh seen ((fun it => Clean (tdi_Path it)) <$> items)
  ∨ is_ok (claim_items field j items seen) = false ∧ ¬ (Forall item_ok items ∧ fresh seen ((fun it => Clean (tdi_Path it)) <$> items)).
Proof.
  revert j seen. induction items as [|it items IH]; intros j seen; cbn [claim_items].
  { left. split; [exists seen; split; [done|intros q; set_solver]|]. split; [constructor|split; [constructor|intros q; set_solver]]. }
  cbn zeta. rewrite fmap_cons, Forall_cons.
  destruct (in_order _) as [e|] eqn:Ec.
  { right. split; [done|]. intros [[[Hk Hm] _] _].
    match type of Ec with in_order ?cs = _ => assert (Hn : in_order cs = None) end; [|congruence].
    apply in_order_ok. rewrite !Forall_cons, Forall_nil. by rewrite refuse_if_ok, unset_str_neq, dataPath_ok. }
  apply in_order_ok in Ec. rewrite !Forall_cons in Ec. destruct Ec as (Hk & Hm & _).
  apply refuse_if_ok, unset_str_neq in Hk. apply dataPath_ok in Hm.
  destruct (seen !! Clean (tdi_Path it)) as [w|] eqn:Es.
  { right. unfold claim. rewrite Es. split; [done|]. intros [_ [_ Hf]]. rewrite Hf in Es; [done|left]. }
  unfold claim. rewrite Es. cbn [mbind result_bind].
  rewrite (fresh_cons _ _ _ (field +:+ ".items[" +:+ itoa j +:+ "]")).
  destruct (IH (j + 1)%Z (<[Clean (tdi_Path it) := field +:+ ".items[" +:+ itoa j +:+ "]"]> seen)) as [[(seen' & Hok & Hcl) Hf]|[He Hf]].
  - left. split; [exists seen'; split; [done|by eapply claims_cons]|]. unfold item_ok. naive_solver.
  - right. split; [done|]. naive_solver.
Qed.

Lemma fresh_app seen seen' ps qs : claims seen seen' ps → fresh seen (ps ++ qs) ↔ fresh seen ps ∧ fresh seen' qs.
Proof.
  unfold claims, fresh. intros Hc. rewrite NoDup_app. split.
  - intros [(Hp & Hd & Hq) Hs]. split; [split; [done|intros p Hin; apply Hs; set_solver]|].
    split; [done|]. intros q Hin. apply Hc. split; [apply Hs; set_solver|]. intros Hin'. by apply (Hd q).
  - intros [[Hp Hs] [Hq Hs']]. split; [split_and!; [done| |done]|].
    + intros x Hx Hx'. by apply Hs', Hc in Hx' as [_ ?].
    + intros x [Hx|Hx]%elem_of_app; [by apply Hs|by apply Hs', Hc in Hx as [? _]].
Qed.

Lemma fresh_one seen p what :
  match claim seen p what with Ok seen' => claims seen seen' [p] ∧ fresh seen [p] | Err _ => ¬ fresh seen [p] end.
Proof.
  unfold claim. destruct (seen !! p) as [w|] eqn:E.
  - intros [_ Hs]. specialize (Hs p). rewrite E in Hs. by discriminate Hs; left.
  - split; [|split; [apply NoDup_singleton|set_solver]]. intros q. rewrite list_elem_of_singleton.
    destruct (decide (q = p)) as [->|]; [rewrite lookup_insert_eq; naive_solver|rewrite lookup_insert_ne by done; naive_solver].
Qed.

Section Content.
Context `{Lib}.

Lemma data_source_ok field d :
  data_source field d = None ↔ (td_ConfigMap d = "" ↔ td_Secret d ≠ "") ∧ IsDNS1123Subdomain (data_name d) = [].
Proof.
  unfold data_source. rewrite in_order_ok, !Forall_cons, Forall_nil, refuse_if_ok, eqb_false_iff.
  destruct (IsDNS1123Subdomain (data_name d)); unfold unset_str;
    destruct (String.eqb_spec (td_ConfigMap d) ""), (String.eqb_spec (td_Secret d) ""); naive_solver.
Qed.

(** An entry is accepted exactly when it is good and its paths are free; they are
    then taken. *)
Lemma validate_data_ok i d seen :
  match validate_data i d seen with
  | Ok seen' => claims seen seen' (targets d) ∧ data_ok d ∧ fresh seen (targets d)
  | Err _ => ¬ (data_ok d ∧ fresh seen (targets d))
  end.
Proof.
  unfold validate_data, data_ok. cbn zeta.
  destruct (data_source _ d) as [e|] eqn:Es.
  { intros [(H1 & H2 & _) _]. rewrite (proj2 (data_source_ok _ d)) in Es; done. }
  apply data_source_ok in Es as [Hsrc Hdns].
  unfold targets, some_of, unset_str. destruct (td_Items d) as [|it its] eqn:Ei; cbn [length Nat.ltb Nat.leb andb].
  - rewrite andb_false_r. destruct (String.eqb_spec (td_MountPath d) "") as [Em|Em]; cbn [negb].
    + pose proof (fresh_one seen (Join testDataDir (data_name d)) ("spec.content.testData[" +:+ itoa i +:+ "]")) as Hf.
      destruct (claim _ _ _) as [seen'|e]; [|naive_solver]. destruct Hf as [Hcl Hf]. split; [done|]. split; [|done].
      split_and!; [done..|by left|done|set_solver].
    + destruct (dataPath _ _) as [e|] eqn:Ed.
      { intros [(_ & _ & _ & Hm & _) _]. rewrite (proj2 (dataPath_ok _ _)) in Ed; [done|by apply Hm]. }
      apply dataPath_ok in Ed.
      pose proof (fresh_one seen (Clean (td_MountPath d)) ("spec.content.testData[" +:+ itoa i +:+ "]")) as Hf.
      destruct (claim _ _ _) as [seen'|e]; [|naive_solver]. destruct Hf as [Hcl Hf]. split; [done|]. split; [|done].
      split_and!; [done..|by right|done|set_solver].
  - rewrite andb_true_r. destruct (String.eqb_spec (td_MountPath d) "") as [Em|Em]; cbn [negb].
    2: { intros [(_ & _ & [?|?] & _) _]; done. }
    destruct (claim_items_ok ("spec.content.testData[" +:+ itoa i +:+ "]") 0 (it :: its) seen)
      as [[(seen' & Hok & Hcl) [Hall Hf]]|[He Hf]].
    + rewrite Hok. split; [done|]. split; [|done]. rewrite Forall_forall in Hall. split_and!; [done..|by left|done|exact Hall].
    + destruct (claim_items _ _ _ _); [done|]. intros [(_ & _ & _ & _ & Hall) Hf']. apply Hf. split; [|done].
      apply Forall_forall. exact Hall.
Qed.

Lemma data_loop_ok i ds seen : data_loop i ds seen = None ↔ Forall data_ok ds ∧ fresh seen (concat (targets <$> ds)).
Proof.
  revert i seen. induction ds as [|d ds IH]; intros i seen; cbn [data_loop].
  { split; [|done]. intros _. split; [constructor|split; [constructor|set_solver]]. }
  rewrite Forall_cons, fmap_cons. cbn [concat]. pose proof (validate_data_ok i d seen) as Hv.
  destruct (validate_data i d seen) as [seen'|e].
  - destruct Hv as (Hcl & Hd & Hf). rewrite (fresh_app _ _ _ _ Hcl), IH. naive_solver.
  - split; [done|]. intros [[Hd _] [Hnd Hs]]. exfalso. apply Hv. split; [done|]. apply NoDup_app in Hnd as [Hnd _].
    split; [done|]. intros p Hp. apply Hs. set_solver.
Qed.

Lemma validateContent_iff (c : Content) :
  validateContent c = None ↔
  (sources_of c ≤ 1 ∧ Forall file_ok (ct_Files c)) ∧ Forall data_ok (ct_TestData c) ∧ NoDup (concat (targets <$> ct_TestData c)).
Proof.
  unfold validateContent. rewrite in_order_ok, !Forall_cons, Forall_nil, refuse_if_ok, Nat.ltb_ge, files_loop_ok, data_loop_ok.
  unfold fresh. assert (∀ p, (∅ : strmap) !! p = None) by (intros; apply lookup_empty). naive_solver.
Qed.

(** Content is admitted exactly when its code comes from one source at most; every
    inline file is a path below the code's directory; every data entry names one
    ConfigMap or Secret and goes to absolute paths outside the code, the data
    directory itself and the platform's directories; and no two entries (default
    directories included) land on the same path. *)
Theorem validateContent_admits (c : Content) :
  validateContent c = None ↔
  (sources_of c ≤ 1 ∧ Forall file_ok (ct_Files c)) ∧ Forall data_ok (ct_TestData c) ∧ NoDup (concat (targets <$> ct_TestData c)).
Proof. apply validateContent_iff. Qed.

End Content.

(** ** Aborts only go one way *)

Definition admitted (policy : PodPolicy.Policy) (old new : TestRun) : Prop := admit_TestRun_update policy old new = None.

Lemma admitted_abort policy old new a :
  admitted policy old new → rs_Abort (r_Spec old) = Some a → rs_Abort (r_Spec new) = Some a.
Proof.
  unfold admitted, admit_TestRun_update. rewrite in_order_ok, !Forall_cons. intros (_ & _ & Ha & _) Ho.
  unfold validateAbortTransition in Ha. rewrite Ho in Ha. destruct (rs_Abort (r_Spec new)) as [n|]; [|done].
  apply refuse_if_ok, negb_false_iff, bool_decide_eq_true in Ha. by subst.
Qed.

(** Through any number of admitted updates, a run that was asked to abort stays so,
    with the same reason, message and requester; it keeps naming a Test, and its own
    pod settings never break the platform's policy. *)
Theorem abort_is_one_way policy old new a :
  tc (admitted policy) old new → rs_Abort (r_Spec old) = Some a →
  rs_Abort (r_Spec new) = Some a ∧ rs_TestRef (r_Spec new) ≠ "" ∧
  PodPolicy.Policy_Check policy (Some zeroTestSpec) (rs_Pod (r_Spec new)) = None.
Proof.
  intros Htc. assert (Hlast : ∀ o n, admitted policy o n → rs_TestRef (r_Spec n) ≠ "" ∧
    PodPolicy.Policy_Check policy (Some zeroTestSpec) (rs_Pod (r_Spec n)) = None).
  { unfold admitted, admit_TestRun_update, validateTestRun. intros o n. rewrite in_order_ok, !Forall_cons.
    intros (Hr & Hp & _). split; [by apply unset_str_neq, (refuse_if_ok _ "spec.testRef is required")|done]. }
  induction Htc as [old new Had|old mid new Had Htc IH]; intros Ho.
  - split; [by eapply admitted_abort|by eapply Hlast].
  - by apply IH, (admitted_abort policy old).
Qed.

Definition demo_aborting : TestRun := mkTestRun (mkMeta "smoke-1" "ns" "u1" ∅ ∅ 1 None [] [])
  (mkRunSpec "smoke" ∅ None ∅ "api" (Some (mkAbort AbortReasonUser "stop" "ann")) None) zeroStatus.

Lemma abort_is_one_way_witness : rs_Abort (r_Spec demo_aborting) = Some (mkAbort AbortReasonUser "stop" "ann").
Proof.
  exact (proj1 (abort_is_one_way (PodPolicy.mkPolicy [] false) demo_aborting demo_aborting (mkAbort AbortReasonUser "stop" "ann")
    (tc_once _ _ _ (eq_refl : admitted (PodPolicy.mkPolicy [] false) demo_aborting demo_aborting)) eq_refl)).
Defined.

(** ** An admitted Test can be run *)

(** An admitted leaf Test that uses no template, once resolved for any run, has the
    image and the command its pod needs: nothing is left for the check after
    resolution to refuse. *)
Theorem admitted_leaf_is_runnable `{Lib, Floats, MapOrder, FloatSyntax, Regexp} test run opts spec :
  validateTest (t_Spec test) = None → ts_Use (t_Spec test) = [] → ts_Steps (t_Spec test) = [] →
  Resolver.resolve_merged (Resolver.merge_all [] test).1 test run opts = Ok spec → Resolver.ValidateResolved spec = None.
Proof.
  intros Hv Huse Hsteps (Himg & Hcmd & Hargs & Hst)%Resolver.resolve_merged_shape. unfold validateTest in Hv.
  rewrite Hsteps, Huse in Hv. cbn [some_of length Nat.ltb Nat.leb negb andb] in Hv.
  apply in_order_ok in Hv. rewrite !Forall_cons, !refuse_if_ok in Hv. destruct Hv as (Hi & Hc & _).
  rewrite (Resolver.merged_first Resolver.Or "" (fun s => cc_Image (ts_Container s)) (fun t => cc_Image (tms_Container t))) in Himg by done.
  rewrite (Resolver.merged_first Resolver.or_list [] (fun s => cc_Command (ts_Container s)) (fun t => cc_Command (tms_Container t))) in Hcmd by done.
  rewrite (Resolver.merged_first Resolver.or_list [] (fun s => cc_Args (ts_Container s)) (fun t => cc_Args (tms_Container t))) in Hargs by done.
  rewrite Resolver.merge_all_eq in Hst. cbn zeta in Hst. unfold Resolver.merge_test in Hst. cbn [fst] in Hst.
  rewrite (Resolver.bindInlineMainFile_field ts_Steps) in Hst by done.
  cbn in Himg, Hcmd, Hargs, Hst. rewrite Hsteps in Hst. cbn in Hst.
  unfold Resolver.ValidateResolved. rewrite Hst. cbn [length Nat.ltb Nat.leb].
  unfold unset_str in Hi. unfold Resolver.Or in Himg. rewrite Hi in Himg. rewrite Himg, Hi.
  destruct (cc_Command (ts_Container (t_Spec test))) as [|c cs], (cc_Args (ts_Container (t_Spec test))) as [|a args];
    cbn in Hc, Hcmd, Hargs; try done; by rewrite Hcmd, ?Hargs.
Qed.

(** ** A concrete Test *)

Definition demo_lib : Lib := {| cron_error _ := None; ValidatePattern _ := true; IsDNS1123Subdomain _ := [] |}.
Definition demo_float : Floats := {| ParseFloat s := if (s =? "NaN")%string then Ok S754_nan else Ok float_zero; fmt_float _ := "0" |}.

Definition demo_leaf : Test :=
  mkTest (mkMeta "smoke" "ns" "t1" ∅ ∅ 0 None [] [])
    (mkTestSpec (mkContent None [mkFile "load.js" "" None None] [] [mkTestData "users" "" "" [mkTestDataItem "u" "/data/repo/u.csv"]])
       (mkContainer "grafana/k6" "" "" ["k6"] ["run"; "load.js"] [] [] ∅ ∅ None []) [] None ∅ None None None "" ∅
       (Some demo_grid) "" None None None []) None.

Example demo_leaf_admitted : validateTest (L := demo_lib) (H := demo_float) (H0 := list_order) (t_Spec demo_leaf) = None.
Proof. vm_compute. reflexivity. Qed.

Example platform_data_refused :
  dataPath "spec.content.testData[0].mountPath" "/etc//kubetest/x" =
  Some ("spec.content.testData[0].mountPath " +:+ quote "/etc//kubetest/x" +:+ " is the platform's directory /etc/kubetest").
Proof. vm_compute. reflexivity. Qed.

Definition demo_leaf_spec : TestSpec :=
  match Resolver.resolve_merged (H := list_order) (H0 := Resolver.demo_floats) (H1 := Resolver.demo_regexp)
    (Resolver.merge_all [] demo_leaf).1 demo_leaf demo_aborting (Resolver.mkOptions ∅ "") with
  | Ok spec => spec
  | Err _ => zeroTestSpec
  end.

Lemma admitted_leaf_is_runnable_witness : Resolver.ValidateResolved demo_leaf_spec = None.
Proof.
  apply (admitted_leaf_is_runnable (H := demo_lib) (H0 := demo_float) (H1 := list_order) (H2 := Resolver.demo_floats)
    (H3 := Resolver.demo_regexp) demo_leaf demo_aborting (Resolver.mkOptions ∅ "") demo_leaf_spec); vm_compute; reflexivity.
Defined.

(** A threshold that is not a number passes the range check, in which every
    comparison with it is false. *)
Theorem NaN_threshold_admitted `{Floats} :
  ParseFloat "NaN" = Ok S754_nan → validateVerdict (Some (mkVerdict VerdictFromJTL "NaN")) = None.
Proof. intros Hp. unfold validateVerdict. cbn. by rewrite Hp. Qed.

Lemma NaN_threshold_admitted_witness : validateVerdict (H := demo_float) (Some (mkVerdict VerdictFromJTL "NaN")) = None.
Proof. apply (NaN_threshold_admitted (H := demo_float)). vm_compute. reflexivity. Defined.

End Admission.
