(* ===== verification/CompilerSpec.v ===== *)
(** * What the compiler promises

    Every pod the compiler makes of a Test and a run — the run's own Job, a
    worker's, a service replica — stays within the pod policy that admitted them,
    keeps the operator's labels to the operator, and tells the wrapper which
    object store to use.  A Test whose content was admitted compiles, and its data
    lands where it was admitted to. *)
From S2P Require Import Prelude Api GoLib Names Keys Paths Objects Phases Stages PodPolicy Ops Workers Expr Resolver Compiler Admission.

Module CompilerSpec.
Import Objects Ops Stages Compiler Workers.

(** ** The pods of a run *)

Inductive made (test : Test) (run : TestRun) (opts : CompilerOptions) : strmap → PodSpec → Prop :=
| made_job job aux :
    Compile test run opts = Ok (job, aux) →
    made test run opts (pt_Labels (js_Template (jo_Spec job))) (pt_Spec (js_Template (jo_Spec job)))
| made_worker w job aux :
    CompileWorker test run opts w = Ok (job, aux) →
    made test run opts (pt_Labels (js_Template (jo_Spec job))) (pt_Spec (js_Template (jo_Spec job)))
| made_replica cs r ann spec :
    CompileServices test run = Ok cs → r ∈ cp_Replicas cs → ob_Body (sp_Pod r) = ServicePod ann spec →
    made test run opts (ob_Labels (sp_Pod r)) spec.

(** What the policy asked of a Test and its run, asked of a whole pod. *)
Record pod_safe (pol : PodPolicy.Policy) (p : PodSpec) : Prop := {
  ps_account : po_ServiceAccountName p ∈ "" :: PodPolicy.defaultSA :: PodPolicy.po_ServiceAccounts pol;
  ps_token : po_AutomountServiceAccountToken p = Some false;
  ps_volumes : ∀ v, v ∈ po_Volumes p → PodPolicy.source_contained (PodPolicy.po_AllowHostPath pol) (vol_Source v);
  ps_containers : ∀ c sc, c ∈ po_InitContainers p ++ po_Containers p → co_SecurityContext c = Some sc → PodPolicy.container_permitted sc;
}.

Lemma compile_ok test run opts target job aux :
  compile test run opts target = Ok (job, aux) ↔
  cp_ContentFetcherImage opts ≠ "" ∧
  ∃ content vols mounts, toFetcherContent (ts_Content (t_Spec test)) = Ok content ∧
    testDataVolumes (ct_TestData (ts_Content (t_Spec test))) = Ok (vols, mounts) ∧
    job = mkJobObject (mkKey (run_ns run) (jt_Name target)) (job_labels test run target) (ownerRefForTestRun run)
            (mkJobSpec (Some 0%Z) (Some (wrap64 (timeout_seconds test + ADSBufferSeconds))) (Some TTLSecondsAfterFinished)
               (mkPodTemplate (template_labels test run target) (mergeAnnotations (ts_Pod (t_Spec test)) (rs_Pod (r_Spec run)))
                  (job_pod test run opts target vols mounts))) ∧
    aux = [mkObject "ConfigMap" (mkKey (run_ns run) (jt_Name target +:+ "-request"))
             {[ LabelRunID := run_name run; LabelManagedBy := ManagedByValue ]} (ownerRefForTestRun run)
             (RequestConfigMap (buildRequest test run (jt_Keys target) (timeout_seconds test)) content)].
Proof.
  unfold compile. destruct (String.eqb_spec (cp_ContentFetcherImage opts) "") as [E|E]; [split; [done|intros [? _]; done]|].
  cbn zeta. destruct (toFetcherContent _) as [content|e]; cbn; [|split; [done|intros (_ & ? & ? & ? & [=] & _)]].
  destruct (testDataVolumes _) as [[vols mounts]|e]; cbn; [|split; [done|intros (_ & ? & ? & ? & _ & [=] & _)]].
  split; [intros [= <- <-]; split; [done|]; by exists content, vols, mounts|].
  by intros (_ & ? & ? & ? & [= <-] & [= <- <-] & -> & ->).
Qed.

(** ** The policy *)

Section Permitted.
Context (pol : PodPolicy.Policy).

Lemma merge_permitted testPod runPod :
  (∀ p, testPod = Some p → PodPolicy.pod_permitted pol p) → (∀ p, runPod = Some p → PodPolicy.pod_permitted pol p) →
  PodPolicy.pod_permitted pol (mergePodConfig testPod runPod).
Proof.
  intros Ht Hr. assert (Hm : PodPolicy.pod_permitted pol (default zeroPodConfig testPod)).
  { destruct testPod as [p|]; [by apply Ht|]. split; [left|done]. }
  unfold mergePodConfig. destruct runPod as [r|]; [|done]. destruct (Hr r eq_refl) as [Hsa Hv], Hm as [Hsa' Hv'].
  split; cbn [pc_ServiceAccountName pc_Volumes].
  - by destruct (_ =? _)%string.
  - intros vs v. unfold over. destruct (pc_Volumes r) as [vs'|] eqn:E; [intros [= <-]; by apply Hv|by apply Hv'].
Qed.

Lemma testdata_contained i entries vols mounts v :
  testdata_loop i entries = Ok (vols, mounts) → v ∈ vols → PodPolicy.source_contained (PodPolicy.po_AllowHostPath pol) (vol_Source v).
Proof.
  revert i vols mounts. induction entries as [|d entries IH]; intros i vols mounts; cbn [testdata_loop].
  { intros [= <- <-]. by intros ?%elem_of_nil. }
  intros (src & Hsrc & ([vs ms] & Hloop & [= <- <-])%result_bind_ok)%result_bind_ok [->|Hin]%elem_of_cons; [|by eapply IH].
  unfold data_source in Hsrc. unfold PodPolicy.source_contained. cbn [vol_Source].
  destruct (_ && _); [injection Hsrc as <-; cbn; right; left; by eexists|].
  destruct (_ && _); [injection Hsrc as <-; cbn; right; right; left; by eexists|done].
Qed.

Lemma job_pod_safe test run opts target vols mounts :
  PodPolicy.Policy_Check pol (Some (t_Spec test)) (rs_Pod (r_Spec run)) = None →
  testDataVolumes (ct_TestData (ts_Content (t_Spec test))) = Ok (vols, mounts) →
  pod_safe pol (job_pod test run opts target vols mounts).
Proof.
  intros (Ht & Hr & Hc)%PodPolicy.Check_admits_iff Hdata. destruct (merge_permitted _ _ Ht Hr) as [Hsa Hv].
  split; [done|done| |].
  - intros v. cbn [job_pod po_Volumes]. rewrite !elem_of_app. intros [Hin|[Hin|Hin]].
    + unfold base_volumes, PodPolicy.source_contained in *. set_unfold in Hin.
      destruct Hin as [->|[->|[->|[->|[]]]]]; cbn; [left; by eexists..|right; left; by eexists].
    + destruct (pc_Volumes (mergePodConfig _ _)) as [vs|] eqn:E; [by eapply Hv|by apply elem_of_nil in Hin].
    + by eapply testdata_contained.
  - intros c sc. cbn [job_pod po_InitContainers po_Containers init_containers app]. set_unfold.
    intros [->|[->|[->|[]]]]; cbn; [done..|apply Hc].
Qed.

Lemma substituted_policy s w pod :
  PodPolicy.Policy_Check pol (Some (substituteWorker s w)) pod = PodPolicy.Policy_Check pol (Some s) pod.
Proof. cbn. unfold PodPolicy.violations. cbn [substituteWorker ts_Pod ts_Container cc_SecurityContext]. by destruct (ts_Pod s). Qed.

Lemma replica_of test run cs r :
  CompileServices test run = Ok cs → r ∈ cp_Replicas cs →
  ∃ name svc i combo, ts_Services (t_Spec test) !! name = Some svc ∧ combo ∈ replicaEnvs svc ∧
    r = mkReplica name i (replica_pod test run name svc i combo).
Proof.
  unfold CompileServices. intros [= <-]. cbn [cp_Replicas]. intros (name & Hin & _)%list_elem_of_bind.
  destruct (ts_Services (t_Spec test) !! name) as [svc|] eqn:E; [|by apply elem_of_nil in Hin].
  apply elem_of_lookup_imap in Hin as (i & combo & -> & Hi). exists name, svc, (Z.of_nat i), combo.
  split_and!; [done|by eapply list_elem_of_lookup_2|done].
Qed.
End Permitted.

(** C23: Whatever of a Test and a run the pod policy admits, no pod made of them exceeds it:
    the run's Job, each worker's Job and each service replica uses an allowed service
    account without a mounted token, has only contained volumes — the platform's own,
    the user's and the data volumes — and runs no container, the platform's included,
    that is privileged or adds more than baseline capabilities. *)
Theorem made_pods_permitted pol test run opts labels p :
  PodPolicy.Policy_Check pol (Some (t_Spec test)) (rs_Pod (r_Spec run)) = None →
  made test run opts labels p → pod_safe pol p.
Proof.
  intros HC [job aux Hj|w job aux Hj|cs r ann spec Hcs Hr Hb].
  - apply compile_ok in Hj as (_ & content & vols & mounts & _ & Hd & -> & _). by apply job_pod_safe.
  - apply compile_ok in Hj as (_ & content & vols & mounts & _ & Hd & -> & _). apply job_pod_safe; [|done].
    cbn [t_Spec]. by rewrite substituted_policy.
  - destruct (replica_of _ _ _ _ Hcs Hr) as (name & svc & i & combo & _ & _ & ->). injection Hb as _ <-.
    apply PodPolicy.Check_admits_iff in HC as (Ht & Hrun & _). destruct (merge_permitted pol _ _ Ht Hrun) as [Hsa _].
    split; cbn; [done|done|by intros v ?%elem_of_nil|by intros c sc ->%list_elem_of_singleton].
Qed.

(** ** Labels *)

Lemma user_labels_reserved p k : isReservedLabelKey k = true → user_labels p !! k = None.
Proof.
  intros Hk. unfold user_labels. apply map_lookup_filter_None. right. intros x _. cbn. by rewrite Hk.
Qed.

Lemma mergeLabels_reserved testPod runPod id k :
  isReservedLabelKey k = true → k ≠ LabelRunID → k ≠ LabelManagedBy → mergeLabels testPod runPod id !! k = None.
Proof.
  intros Hk H1 H2. unfold mergeLabels. rewrite !lookup_insert_ne by done. apply lookup_union_None.
  split; by apply user_labels_reserved.
Qed.

Lemma mergeLabels_run testPod runPod id : mergeLabels testPod runPod id !! LabelRunID = Some id.
Proof. unfold mergeLabels. by rewrite lookup_insert_ne, lookup_insert_eq. Qed.
Lemma mergeLabels_managed testPod runPod id : mergeLabels testPod runPod id !! LabelManagedBy = Some ManagedByValue.
Proof. apply lookup_insert_eq. Qed.

Lemma tool_label_lookup test k v : tool_label test !! k = Some v → k = LabelKubetestTool ∧ om_Labels (t_Meta test) !! k = Some v.
Proof.
  unfold tool_label, label_of. destruct (om_Labels (t_Meta test) !! LabelKubetestTool) as [t|] eqn:E; cbn; [|done].
  destruct (_ =? _)%string; [done|]. intros [<- <-]%lookup_singleton_Some. done.
Qed.

(** What the operator writes under the label keys it reserves. *)
Inductive operator_label (test : Test) (run : TestRun) : string → string → Prop :=
| ol_run : operator_label test run LabelRunID (run_name run)
| ol_managed : operator_label test run LabelManagedBy ManagedByValue
| ol_worker i : operator_label test run LabelWorker (itoa i)
| ol_tool v : om_Labels (t_Meta test) !! LabelKubetestTool = Some v → operator_label test run LabelKubetestTool v
| ol_service_of : operator_label test run LabelServiceOf (run_name run)
| ol_service name : name ∈ dom (ts_Services (t_Spec test)) → operator_label test run LabelService name
| ol_index i : operator_label test run LabelServiceIndex (itoa i).

Lemma mergeLabels_operator test testPod runPod run k v :
  isReservedLabelKey k = true → mergeLabels testPod runPod (run_name run) !! k = Some v → operator_label test run k v.
Proof.
  intros Hk. destruct (decide (k = LabelManagedBy)) as [->|Hm].
  { rewrite mergeLabels_managed. intros [= <-]. constructor. }
  destruct (decide (k = LabelRunID)) as [->|Hr].
  { rewrite mergeLabels_run. intros [= <-]. constructor. }
  by rewrite mergeLabels_reserved.
Qed.

(** Which of the two kinds of pod a pod is, by its labels. *)
Definition own_pod (run : TestRun) (labels : strmap) : Prop :=
  labels !! LabelRunID = Some (run_name run) ∧ labels !! LabelServiceOf = None.
Definition service_pod (run : TestRun) (labels : strmap) : Prop :=
  labels !! LabelRunID = None ∧ labels !! LabelServiceOf = Some (run_name run).

Lemma template_labels_operator test spec run target k v :
  (∀ k v, jt_Labels target !! k = Some v → operator_label test run k v) →
  isReservedLabelKey k = true →
  template_labels (mkTest (t_Meta test) spec (t_LatestRun test)) run target !! k = Some v → operator_label test run k v.
Proof.
  intros Ht Hk. unfold template_labels. rewrite !lookup_union_Some_raw.
  intros [Htool|[_ [Hj|[_ Hm]]]]; [|by apply Ht|by eapply mergeLabels_operator].
  apply tool_label_lookup in Htool as [-> Htool]. by constructor.
Qed.

Lemma template_labels_own test run target :
  jt_Labels target !! LabelRunID = None → jt_Labels target !! LabelServiceOf = None → own_pod run (template_labels test run target).
Proof.
  intros H1 H2. unfold own_pod, template_labels.
  assert (Htool : ∀ k, k ≠ LabelKubetestTool → tool_label test !! k = None).
  { intros k Hk. destruct (tool_label test !! k) eqn:E; [|done]. by apply tool_label_lookup in E as [-> _]. }
  rewrite !lookup_union_r by (try apply Htool; done).
  split; [apply mergeLabels_run|by apply mergeLabels_reserved].
Qed.

Lemma replica_labels_own test run name i :
  name ∈ dom (ts_Services (t_Spec test)) →
  service_pod run (replica_labels test run name i) ∧
  ∀ k v, isReservedLabelKey k = true → replica_labels test run name i !! k = Some v → operator_label test run k v.
Proof.
  intros Hn. unfold replica_labels, service_selector. split.
  - split; rewrite !lookup_insert_ne by done; [rewrite lookup_union_r by done; apply lookup_delete_eq|by apply lookup_union_Some_l].
  - intros k v Hk. rewrite lookup_insert_Some. intros [[<- <-]|[_ Hi]]; [constructor|].
    rewrite lookup_insert_Some in Hi. destruct Hi as [[<- <-]|[_ Hi]]; [constructor|].
    rewrite lookup_union_Some_raw, lookup_insert_Some, lookup_singleton_Some in Hi.
    destruct Hi as [[[<- <-]|[_ [<- <-]]]|[_ [_ Hi]%lookup_delete_Some]]; [by constructor..|by eapply mergeLabels_operator].
Qed.

(** No user label reaches the keys the operator decides by: whatever a Test's and a
    run's pod labels are, every reserved label of a made pod has the value the
    operator gives it; and the run's own and workers' pods carry the run-id and no
    service-of, service replicas service-of and no run-id, so the controller never
    takes a replica for the pod of a test. *)
Theorem made_labels_owned test run opts labels p :
  made test run opts labels p →
  (∀ k v, isReservedLabelKey k = true → labels !! k = Some v → operator_label test run k v) ∧
  (own_pod run labels ∨ service_pod run labels).
Proof.
  intros [job aux Hj|w job aux Hj|cs r ann spec Hcs Hr Hb].
  - apply compile_ok in Hj as (_ & content & vols & mounts & _ & _ & -> & _). cbn [jo_Spec js_Template pt_Labels]. split.
    + intros k v. destruct test. by apply (template_labels_operator (mkTest _ _ _)).
    + left. by apply template_labels_own.
  - apply compile_ok in Hj as (_ & content & vols & mounts & _ & _ & -> & _). cbn [jo_Spec js_Template pt_Labels]. split.
    + intros k v. apply template_labels_operator. cbn [jt_Labels]. intros k' v' [<- <-]%lookup_singleton_Some. constructor.
    + left. by apply template_labels_own.
  - destruct (replica_of _ _ _ _ Hcs Hr) as (name & svc & i & combo & Hs & _ & ->). cbn [sp_Pod replica_pod ob_Labels].
    destruct (replica_labels_own test run name i) as [? ?]; [by eapply elem_of_dom_2|]. split; [done|by right].
Qed.

(** ** The content a Test was admitted with *)

Definition platform_mounts : list string := [DataDirPath; RequestMountDir; ResultDirPath; KubetestBinMountPath].
Definition lands (m : VolumeMount) : string := Clean (vm_MountPath m).

(** A DNS-1123 subdomain is letters, digits, dashes and dots between letters and
    digits: in particular one segment of a path. *)
Definition dns_law `{L : Admission.Lib} : Prop := ∀ n, Admission.IsDNS1123Subdomain n = [] → Paths.proper n.

Section Accepted.
Context `{L : Admission.Lib}.

Lemma one_name d : (td_ConfigMap d = "" ↔ td_Secret d ≠ "") → testDataName d = Admission.data_name d.
Proof.
  unfold testDataName, Admission.data_name. intros Hs.
  destruct (String.eqb_spec (td_Secret d) "") as [E|E]; [by rewrite E, str_app_nil_r|].
  assert (td_ConfigMap d = "") as -> by (by apply Hs). done.
Qed.

Lemma data_source_admitted i d : Admission.data_ok d → is_ok (data_source i d) = true.
Proof.
  intros (Hs & _). unfold data_source.
  destruct (String.eqb_spec (td_ConfigMap d) ""), (String.eqb_spec (td_Secret d) ""); cbn; try done; exfalso; tauto.
Qed.

Lemma data_mounts_land name d : Admission.data_ok d → lands <$> data_mounts name d = Admission.targets d.
Proof.
  intros (Hs & _). unfold data_mounts, Admission.targets, Admission.unset_str. destruct (td_Items d) as [|it its].
  - cbn [fmap list_fmap]. f_equal. unfold lands. cbn [vm_MountPath].
    destruct (_ =? _)%string; [|done]. rewrite one_name by done.
    change Admission.testDataDir with Resolver.TestDataDir.
    unfold Join at 1 2. change (Resolver.TestDataDir =? "")%string with false. cbv iota.
    destruct (_ =? _)%string; apply Paths.Clean_idem; reflexivity.
  - rewrite <- list_fmap_compose. done.
Qed.

Lemma testdata_admitted i ds :
  Forall Admission.data_ok ds →
  ∃ vols mounts, testdata_loop i ds = Ok (vols, mounts) ∧ lands <$> mounts = concat (Admission.targets <$> ds).
Proof.
  revert i. induction ds as [|d ds IH]; intros i; [intros _; by exists [], []|].
  intros [Hd Hds]%Forall_cons. cbn [testdata_loop]. pose proof (data_source_admitted i d Hd) as Hs.
  destruct (data_source i d) as [src|e]; [|done]. destruct (IH (i + 1)%Z Hds) as (vols & mounts & -> & Hm).
  eexists _, _. split; [reflexivity|]. rewrite fmap_app, data_mounts_land, Hm by done. done.
Qed.

Lemma content_admitted c :
  Forall Admission.file_ok (ct_Files c) → ∃ content, toFetcherContent c = Ok content.
Proof.
  intros Hf. unfold toFetcherContent. destruct (existsb _ _) eqn:E; [|by eexists].
  apply existsb_exists in E as (f & Hin%list_elem_of_In & [x Hx]%bool_decide_eq_true).
  rewrite Forall_forall in Hf. destruct (Hf f Hin) as [Hn _]. congruence.
Qed.

Lemma mountable_free p : Admission.mountable p → Clean p ∉ platform_mounts.
Proof.
  intros (_ & _ & Hroot & Hdirs). unfold platform_mounts.
  assert (Hk : "/kubetest-bin" ∈ Admission.platformDirs) by (left).
  assert (He : "/etc/kubetest" ∈ Admission.platformDirs) by (right; left).
  apply Hdirs in Hk as [Hk _], He as [He1 He2]. intros Hin. set_unfold in Hin.
  destruct Hin as [E|[E|[E|[E|[]]]]]; rewrite E in *; [|done..].
  apply Hroot. right. left.
Qed.

Lemma targets_free d t : dns_law → Admission.data_ok d → t ∈ Admission.targets d → t ∉ platform_mounts.
Proof.
  intros Hlaw (_ & Hdns & _ & Hm & Hit). unfold Admission.targets, Admission.unset_str.
  destruct (td_Items d) as [|it its].
  - intros ->%list_elem_of_singleton. destruct (String.eqb_spec (td_MountPath d) ""); [|by apply mountable_free, Hm].
    apply Hlaw in Hdns. pose proof (proj1 (Paths.proper_iff _) Hdns) as (_ & Hne & _).
    unfold Join. apply String.eqb_neq in Hne as ->. cbv iota.
    change (Admission.testDataDir =? "")%string with false. cbv iota.
    rewrite Paths.Clean_rooted, Paths.clean_elems_app by reflexivity.
    rewrite Paths.Split_single by (by apply Keys.segment_no_slash). cbn [foldl].
    change (reverse (clean_elems Admission.testDataDir)) with ["testdata"; "data"].
    pose proof (Paths.clean_steps_id true [Admission.data_name d] ["testdata"; "data"]) as Hs. cbn [foldl] in Hs.
    rewrite Hs by (by constructor). cbn. unfold platform_mounts. set_unfold. intros Hin. destruct_or! Hin; discriminate Hin.
  - intros (it' & -> & Hin)%list_elem_of_fmap. by apply mountable_free, Hit.
Qed.
End Accepted.

(** A Test whose content was admitted compiles, whatever the run, into its Job and
    one request ConfigMap, both of the run; and the test container's mounts land on
    the platform's directories, the user's own mounts, and then exactly the paths
    the admission checked, which are distinct from each other and from the
    platform's. *)
Theorem admitted_content_mounted `{L : Admission.Lib} test run opts :
  dns_law → Admission.validateContent (ts_Content (t_Spec test)) = None → cp_ContentFetcherImage opts ≠ "" →
  ∃ job cm c, Compile test run opts = Ok (job, [cm]) ∧
    jo_OwnerReferences job = ownerRefForTestRun run ∧ ob_OwnerReferences cm = ownerRefForTestRun run ∧
    po_Containers (pt_Spec (js_Template (jo_Spec job))) = [c] ∧
    let data := concat (Admission.targets <$> ct_TestData (ts_Content (t_Spec test))) in
    lands <$> co_VolumeMounts c = platform_mounts ++ (lands <$> cc_VolumeMounts (ts_Container (t_Spec test))) ++ data ∧
    NoDup (platform_mounts ++ data).
Proof.
  intros Hlaw Hadm Himg. apply Admission.validateContent_iff in Hadm as ([_ Hf] & Hd & Hnd).
  destruct (content_admitted _ Hf) as [content Hc].
  destruct (testdata_admitted 0 _ Hd) as (vols & mounts & Ht & Hl).
  eexists _, _, _. split; [apply compile_ok; split; [done|]; eexists _, _, _; split_and!; [exact Hc|exact Ht|done..]|].
  cbn [jo_OwnerReferences ob_OwnerReferences jo_Spec js_Template pt_Spec job_pod po_Containers wrapper_container co_VolumeMounts].
  split_and!; [done..| |].
  - unfold wrapper_container. cbn [co_VolumeMounts]. rewrite !fmap_app, Hl. done.
  - apply NoDup_app. split_and!; [by apply (bool_decide_unpack _); vm_compute| |done].
    intros p Hp (l & (d & -> & Hdin)%list_elem_of_In%list_elem_of_fmap & Hin%list_elem_of_In)%list_elem_of_In%in_concat. revert Hp.
    apply (targets_free d); [done| |done]. by eapply Forall_forall in Hd.
Qed.

(** ** The object store the wrapper is told of *)

(** The value a container's environment gives a name: of several entries the last. *)
Definition getenv_from (acc : string) (env : list EnvVar) (name : string) : string :=
  foldl (fun acc e => if (ev_Name e =? name)%string then ev_Value e else acc) acc env.
Definition getenv (env : list EnvVar) (name : string) : string := getenv_from "" env name.

Lemma getenv_app acc a b name : getenv_from acc (a ++ b) name = getenv_from (getenv_from acc a name) b name.
Proof. apply foldl_app. Qed.

Lemma getenv_absent acc env name : (∀ e, e ∈ env → ev_Name e ≠ name) → getenv_from acc env name = acc.
Proof.
  revert acc. induction env as [|e env IH]; intros acc He; [done|]. cbn [getenv_from foldl].
  rewrite (proj2 (String.eqb_neq _ _) (He e ltac:(left))). apply IH. intros e' Hin. apply He. by right.
Qed.

Definition storage_names : list string := [EnvType; EnvBucket; EnvS3Endpoint; EnvS3UseSSL; EnvS3Region; EnvGCSEndpoint].

(** The part of a configuration its type uses. *)
Definition effective (c : StorageConfig) : StorageConfig :=
  let s3 := (sg_Type c =? TypeS3)%string in
  let when {A} (b : bool) (x zero : A) := if b then x else zero in
  mkStorage (sg_Type c) (when (Enabled c) (sg_Bucket c) "") (when s3 (sg_S3Endpoint c) "") (when s3 (sg_S3UseSSL c) false)
    (when s3 (sg_S3Region c) "") (when (sg_Type c =? TypeGCS)%string (sg_GCSEndpoint c) "").

Lemma FromEnv_ext f g : (∀ n, n ∈ storage_names → f n = g n) → FromEnv f = FromEnv g.
Proof. intros Hfg. unfold FromEnv. rewrite !(Hfg _) by (unfold storage_names; set_solver). done. Qed.

Lemma FromEnv_Env c :
  FromEnv (getenv ((fun kv => literal kv.1 kv.2) <$> Storage_Env c)) = effective c.
Proof.
  destruct c as [ty bucket ep ssl region gcs]. unfold Storage_Env, effective, Enabled.
  cbn [sg_Type sg_Bucket sg_S3Endpoint sg_S3UseSSL sg_S3Region sg_GCSEndpoint].
  destruct (String.eqb_spec ty "") as [->|Hty]; [done|]. cbn [negb].
  destruct (String.eqb_spec ty TypeS3) as [->|H3]; [|destruct (String.eqb_spec ty TypeGCS) as [->|Hg]; [|done]].
  - unfold add_env. destruct ssl, (String.eqb_spec ep "") as [->|], (String.eqb_spec region "") as [->|]; reflexivity.
  - unfold add_env. destruct (String.eqb_spec gcs "") as [->|]; reflexivity.
Qed.

(** A name with the prefix of another family of variables is none of the store's. *)
Lemma other_family p s : forallb (fun n => negb (HasPrefix n p)) storage_names = true → p +:+ s ∉ storage_names.
Proof.
  intros Hp Hin%list_elem_of_In. rewrite forallb_forall in Hp. apply Hp in Hin. by rewrite Keys.HasPrefix_self in Hin.
Qed.

Definition silent (env : list EnvVar) : Prop := ∀ e, e ∈ env → ev_Name e ∉ storage_names.

Lemma silent_names env ns :
  ev_Name <$> env = ns → forallb (fun n => negb (existsb (String.eqb n) storage_names)) ns = true → silent env.
Proof.
  intros <- Hall e He Hin. rewrite forallb_forall in Hall. specialize (Hall (ev_Name e)).
  rewrite negb_true_iff in Hall. apply not_true_iff_false in Hall.
  - apply Hall, existsb_exists. exists (ev_Name e). by rewrite String.eqb_refl, <- list_elem_of_In.
  - apply list_elem_of_In. by apply list_elem_of_fmap_2.
Qed.

Lemma getenv_silent acc env n : silent env → n ∈ storage_names → getenv_from acc env n = acc.
Proof. intros Hs Hn. apply getenv_absent. intros e He E. apply (Hs e He). by rewrite E. Qed.

Lemma keyed_env_silent prefix m :
  forallb (fun n => negb (HasPrefix n prefix)) storage_names = true → silent (keyed_env prefix m).
Proof. intros Hp e (k & -> & _)%list_elem_of_fmap. by apply other_family. Qed.

Lemma wrapper_env_storage test run opts target :
  silent (jt_Env target) → silent (cc_Env (ts_Container (t_Spec test))) →
  FromEnv (getenv (wrapper_env test run opts target)) = effective (cp_Storage opts).
Proof.
  intros Ht Hu. rewrite <- FromEnv_Env. apply FromEnv_ext. intros n Hn. unfold getenv, wrapper_env.
  assert (Hfixed : silent [literal EnvDataDir DataDirPath; literal EnvResultDir ResultDirPath; literal EnvRunID (run_name run);
                           literal EnvTestRef (rs_TestRef (r_Spec run))]).
  { by eapply silent_names. }
  rewrite !getenv_app, (getenv_silent _ _ n Hu Hn), (getenv_silent _ _ n Ht Hn).
  rewrite (getenv_silent _ [literal EnvTestDataDir _] n); [|by eapply silent_names|done].
  rewrite (getenv_silent _ ((fun name => literal (ServiceHostEnv name) _) <$> _) n); [|intros e (k & -> & _)%list_elem_of_fmap|done].
  2: { unfold ServiceHostEnv. cbn [literal ev_Name]. by apply other_family. }
  by rewrite (getenv_silent _ _ n Hfixed Hn).
Qed.

(** The wrapper reads back the object store the operator was given: in the run's Job
    and every worker's Job, whatever services, matrix and shards the Test has, what
    [FromEnv] makes of the test container's environment is the operator's
    configuration, less what its type does not use — unless the Test's own
    environment names a variable of the store. *)
Theorem storage_roundtrip test run opts job aux c :
  (Compile test run opts = Ok (job, aux) ∨ ∃ w, CompileWorker test run opts w = Ok (job, aux)) →
  silent (cc_Env (ts_Container (t_Spec test))) →
  c ∈ po_Containers (pt_Spec (js_Template (jo_Spec job))) → FromEnv (getenv (co_Env c)) = effective (cp_Storage opts).
Proof.
  intros [Hj|[w Hj]] Hs; apply compile_ok in Hj as (_ & ? & ? & ? & _ & _ & -> & _); intros ->%list_elem_of_singleton.
  - apply wrapper_env_storage; [|done]. by intros e ?%elem_of_nil.
  - apply wrapper_env_storage.
    + cbn [jt_Env]. unfold worker_env. intros e. rewrite !elem_of_app. intros [He|[He|He]].
      * revert e He. by eapply silent_names.
      * by eapply (keyed_env_silent EnvMatrixPrefix).
      * by eapply (keyed_env_silent EnvShardPrefix).
    + cbn. intros e (e' & -> & He)%list_elem_of_fmap. exact (Hs e' He).
Qed.

(** ** Replicas *)

Lemma extend_env_length values key combos : length (extend_env values key combos) = (length values * length combos)%nat.
Proof.
  unfold extend_env. induction combos as [|c combos IH]; cbn [mbind list_bind app length]; [lia|].
  rewrite length_app, length_fmap, IH. lia.
Qed.

Lemma replica_combos (m : gmap string (list string)) keys combos :
  length (foldl (fun combos key => extend_env (default [] (m !! key)) key combos) combos keys)
  = foldl (fun n key => length (default [] (m !! key)) * n)%nat (length combos) keys.
Proof. revert combos. induction keys as [|k keys IH]; intros combos; cbn [foldl]; [done|]. by rewrite IH, extend_env_length. Qed.

(** ** One Job name, two runs *)

Definition collide (uid name : string) : TestRun :=
  mkTestRun (mkMeta name "ns" uid ∅ ∅ 1 None [] []) (mkRunSpec "smoke" ∅ None ∅ "api" None None) zeroStatus.
Definition demo_options : CompilerOptions :=
  mkCompilerOptions "content-fetcher" "" (mkStorage TypeS3 "bucket" "minio:9000" false "" "unused") "s3-keys".

Definition job_of {E A} (r : result E (JobObject * A)) : option JobObject := match r with Ok (j, _) => Some j | Err _ => None end.

(** Worker 1 of a run "load" and a run that is itself called "load-w1" have one Job
    name: both are compiled to the same key with different owners, so each
    reconciler finds whichever Job was created first. *)
Theorem worker_job_name_collides test opts j1 j2 :
  job_of (CompileWorker test (collide "u1" "load") opts (mkWorker 1 2 ∅ ∅)) = Some j1 →
  job_of (Compile test (collide "u2" "load-w1") opts) = Some j2 →
  jo_Key j1 = jo_Key j2 ∧ jo_OwnerReferences j1 ≠ jo_OwnerReferences j2.
Proof.
  unfold job_of, CompileWorker, Compile. intros H1 H2.
  destruct (compile _ _ _ _) as [[j1' a1]|] eqn:E1 in H1; [|done]. injection H1 as ->.
  destruct (compile _ _ _ _) as [[j2' a2]|] eqn:E2 in H2; [|done]. injection H2 as ->.
  apply compile_ok in E1 as (_ & ? & ? & ? & _ & _ & -> & _). apply compile_ok in E2 as (_ & ? & ? & ? & _ & _ & -> & _).
  split; [vm_compute; reflexivity|discriminate].
Qed.

(** ** A Test with a service and data *)

Definition demo_service : ServiceSpec := mkService "postgres" [] [] [mkEnvVar "PGUSER" "u" None] no_resources None None false (Some 2%Z) None
  {[ "v" := ["14"; "15"] ]} ∅ "".
Definition demo_test : Test :=
  mkTest (mkMeta "smoke" "ns" "t1" {[ LabelKubetestTool := "k6" ]} ∅ 0 None [] [])
    (mkTestSpec (ts_Content (t_Spec Admission.demo_leaf)) (ts_Container (t_Spec Admission.demo_leaf)) []
       (Some (mkPodConfig {[ LabelRunID := "forged"; "team" := "a" ]} ∅ "runner" None None None None
          (Some [mkVolume "cache" from_EmptyDir]) None))
       ∅ None None None "" {[ "db" := demo_service ]} None "" None None None []) None.
Definition demo_run : TestRun := collide "u1" "load".
Definition demo_policy : PodPolicy.Policy := PodPolicy.mkPolicy ["runner"] false.
Definition demo_law : Admission.Lib :=
  {| Admission.cron_error _ := None; Admission.ValidatePattern _ := true;
     Admission.IsDNS1123Subdomain n := if Keys.segment n then [] else ["not a subdomain"] |}.

Definition demo_job : JobObject :=
  default (mkJobObject (mkKey "" "") ∅ [] (mkJobSpec None None None (mkPodTemplate ∅ ∅ (job_pod demo_test demo_run demo_options (mkTarget "" "" ∅ []) [] []))))
    (job_of (Compile demo_test demo_run demo_options)).
Definition demo_aux : list Object := match Compile demo_test demo_run demo_options with Ok (_, aux) => aux | Err _ => [] end.
Lemma demo_compiled : Compile demo_test demo_run demo_options = Ok (demo_job, demo_aux).
Proof. vm_compute. reflexivity. Qed.
Definition demo_template : PodTemplate := js_Template (jo_Spec demo_job).

Example demo_replicas :
  (fun cs => (fun r => (k_Name (ob_Key (sp_Pod r)), sp_Index r)) <$> cp_Replicas cs) <$> CompileServices demo_test demo_run
  = Ok [("load-db-0", 0%Z); ("load-db-1", 1%Z); ("load-db-2", 2%Z); ("load-db-3", 3%Z)].
Proof. vm_compute. reflexivity. Qed.

(** A worker reference in a service, which no worker owns, is accepted when the
    Test is resolved and reaches the replica's container as it was written. *)
Definition sharded : Test :=
  mkTest (t_Meta demo_test)
    (mkTestSpec (mkContent None [] [] []) (ts_Container (t_Spec demo_test)) [] None ∅ None None None ""
       {[ "db" := mkService "postgres" [] [] [mkEnvVar "SHARD" "{{ worker.index }}" None] no_resources None None false None None ∅ ∅ "" ]}
       (Some (mkParallel (Some 2%Z) None ∅ ∅)) "" None None None []) None.
Example worker_reference_unfilled :
  (fun spec => (fun cs => (fun r => match ob_Body (sp_Pod r) with ServicePod _ p => co_Env <$> po_Containers p | _ => [] end) <$> cp_Replicas cs)
    <$> CompileServices (mkTest (t_Meta sharded) spec None) demo_run)
    <$> Resolver.resolve_merged (H := list_order) (H0 := Resolver.demo_floats) (H1 := Resolver.demo_regexp)
          (t_Spec sharded) sharded demo_run (Resolver.mkOptions ∅ "")
  = Ok (Ok [[[mkEnvVar EnvServiceIndex "0" None; mkEnvVar "SHARD" "{{ worker.index }}" None]]]).
Proof. vm_compute. reflexivity. Qed.

Lemma made_pods_permitted_witness : pod_safe demo_policy (pt_Spec demo_template).
Proof. exact (made_pods_permitted demo_policy demo_test demo_run demo_options _ _ eq_refl (made_job _ _ _ _ _ demo_compiled)). Defined.

Lemma made_labels_owned_witness : pt_Labels demo_template !! LabelRunID = Some "load".
Proof.
  destruct (made_labels_owned demo_test demo_run demo_options _ _ (made_job _ _ _ _ _ demo_compiled)) as [_ [[Hl _]|[Hl _]]]; [exact Hl|].
  vm_compute in Hl. discriminate Hl.
Defined.

Lemma admitted_content_mounted_witness : ∃ job cm, Compile demo_test demo_run demo_options = Ok (job, [cm]).
Proof.
  destruct (admitted_content_mounted (L := demo_law) demo_test demo_run demo_options) as (job & cm & c & Hc & _).
  - intros n. cbn. unfold Paths.proper. destruct (Keys.segment n); [reflexivity|discriminate 1].
  - vm_compute. reflexivity.
  - discriminate.
  - exists job, cm. exact Hc.
Defined.

Lemma storage_roundtrip_witness :
  FromEnv (getenv (wrapper_env demo_test demo_run demo_options (mkTarget "load" (Keys.ForRun "ns" "u1") ∅ [])))
  = mkStorage TypeS3 "bucket" "minio:9000" false "" "".
Proof.
  refine (storage_roundtrip demo_test demo_run demo_options _ _
    (wrapper_container demo_test demo_run demo_options (mkTarget "load" (Keys.ForRun "ns" "u1") ∅ []) _) (or_introl demo_compiled) _ _).
  - intros e He. vm_compute in He. inversion He.
  - left.
Defined.

Lemma worker_job_name_collides_witness :
  ∃ j1 j2, job_of (CompileWorker demo_test (collide "u1" "load") demo_options (mkWorker 1 2 ∅ ∅)) = Some j1 ∧
    job_of (Compile demo_test (collide "u2" "load-w1") demo_options) = Some j2 ∧ jo_Key j1 = jo_Key j2.
Proof.
  destruct (job_of (CompileWorker demo_test (collide "u1" "load") demo_options (mkWorker 1 2 ∅ ∅))) as [j1|] eqn:E1;
    [|vm_compute in E1; discriminate E1].
  destruct (job_of (Compile demo_test (collide "u2" "load-w1") demo_options)) as [j2|] eqn:E2; [|vm_compute in E2; discriminate E2].
  exists j1, j2. split; [reflexivity|]. split; [reflexivity|].
  exact (proj1 (worker_job_name_collides demo_test demo_options j1 j2 E1 E2)).
Defined.

End CompilerSpec.
