(* ===== verification/Verdicts.v ===== *)
(** * Verdicts from reports: internal/scraper/junit.go, pkg/verdict

    Counting a JUnit report and listing its test cases, the JUnit verdict over a
    working directory ([Scan]), and the JMeter log ([Jtl_Parse], [ErrorRate]).
    Reading and decoding XML and CSV, and matching globs, are the libraries'. *)
From S2P Require Import Prelude Api GoLib Names Keys Objects.

Module Verdicts.
Import Keys Objects.

(** ** UTF-8 *)

(** utf8.RuneStart: not a continuation byte. *)
Definition RuneStart (c : ascii) : bool := negb (N.land (N_of_ascii c) 192 =? 128)%N.

(** The bytes of "…". *)
Definition ellipsis : string := String (ascii_of_N 226) (String (ascii_of_N 128) (String (ascii_of_N 166) "")).

(** The cut moved back to the start of a rune. *)
Fixpoint rune_cut (s : string) (cut : nat) : nat :=
  match cut with
  | O => O
  | S n => match String.get cut s with Some c => if RuneStart c then cut else rune_cut s n | None => cut end
  end.

Definition truncate (s : string) (max : nat) : string :=
  if (String.length s <=? max)%nat then s else str_take (rune_cut s (max - String.length ellipsis)) s +:+ ellipsis.

(** strings.EqualFold with ASCII text: besides the ASCII letters, the long s (U+017F)
    and the Kelvin sign (U+212A) fold to ASCII. *)
Fixpoint fold_text (s : string) : string :=
  match s with
  | EmptyString => EmptyString
  | String c rest =>
      let n := N_of_ascii c in
      match rest with
      | String d rest' =>
          if (n =? 197)%N && (N_of_ascii d =? 191)%N then String "s" (fold_text rest')
          else match rest' with
               | String e rest'' =>
                   if (n =? 226)%N && (N_of_ascii d =? 132)%N && (N_of_ascii e =? 170)%N then String "k" (fold_text rest'')
                   else String (Names.lower_byte c) (fold_text rest)
               | EmptyString => String (Names.lower_byte c) (fold_text rest)
               end
      | EmptyString => String (Names.lower_byte c) (fold_text rest)
      end
  end.
Definition EqualFold (s ascii_text : string) : bool := (fold_text s =? ToLower ascii_text)%string.

(** ** The JUnit document *)

Record junitResult := mkResult { jr_Message : string; jr_Type : string; jr_Text : string }.
Record junitCase := mkCase {
  jc_Name : string; jc_Classname : string; jc_Time : string; jc_File : string;
  jc_Skipped : option junitResult; jc_Failure : option junitResult; jc_Errored : option junitResult }.
Inductive junitSuite := mkSuite {
  js_Name : string; js_Tests : Z; js_Failures : Z; js_Errors : Z; js_Skipped : Z;
  js_Cases : list junitCase; js_Nested : list junitSuite }.
Record junitSuites := mkSuites { jss_Suites : list junitSuite; jss_Cases : list junitCase }.

(** Induction over suites and what is nested in them. *)
Lemma suite_ind (P : junitSuite → Prop) :
  (∀ n t f e s cs nested, Forall P nested → P (mkSuite n t f e s cs nested)) → ∀ s, P s.
Proof.
  intros IH. fix go 1. intros [n t f e s cs nested]. apply IH.
  induction nested as [|x xs IHn]; constructor; [apply go|exact IHn].
Qed.

(** ** Counting *)

Definition zeroCounts : TestCounts := mkTestCounts 0 0 0 0.

Definition incr (x : Z) : Z := wrap64 (x + 1).
Definition count_case (t : TestCounts) (c : junitCase) : TestCounts :=
  let t := mkTestCounts (incr (tc_Total t)) (tc_Passed t) (tc_Failed t) (tc_Skipped t) in
  match jc_Failure c, jc_Errored c, jc_Skipped c with
  | Some _, _, _ | None, Some _, _ => mkTestCounts (tc_Total t) (tc_Passed t) (incr (tc_Failed t)) (tc_Skipped t)
  | None, None, Some _ => mkTestCounts (tc_Total t) (tc_Passed t) (tc_Failed t) (incr (tc_Skipped t))
  | None, None, None => mkTestCounts (tc_Total t) (incr (tc_Passed t)) (tc_Failed t) (tc_Skipped t)
  end.
Definition countCases (cases : list junitCase) (t : TestCounts) : TestCounts := foldl count_case t cases.

Definition has_summary (s : junitSuite) : bool :=
  (0 <? js_Tests s)%Z || (0 <? js_Failures s)%Z || (0 <? js_Errors s)%Z || (0 <? js_Skipped s)%Z.

Definition add_summary (s : junitSuite) (t : TestCounts) : TestCounts :=
  mkTestCounts (wrap64 (tc_Total t + js_Tests s))
    (wrap64 (tc_Passed t + wrap64 (js_Tests s - js_Failures s - js_Errors s - js_Skipped s)))
    (wrap64 (tc_Failed t + wrap64 (js_Failures s + js_Errors s)))
    (wrap64 (tc_Skipped t + js_Skipped s)).

Fixpoint countSuite (s : junitSuite) (t : TestCounts) : TestCounts :=
  let t := if has_summary s then add_summary s t else countCases (js_Cases s) t in
  foldl (fun t n => countSuite n t) t (js_Nested s).

Definition aggregate (suites : list junitSuite) (topLevel : list junitCase) : TestCounts :=
  foldl (fun t s => countSuite s t) (countCases topLevel zeroCounts) suites.

(** ** Test cases *)

Definition CasePassed : string := "passed".
Definition CaseFailed : string := "failed".
Definition CaseError : string := "error".
Definition CaseSkipped : string := "skipped".
Definition MaxCaseMessageLen : nat := 1024.
Definition MaxCaseDetailsLen : nat := 4096.

Definition CaseKey (c : TestCase) : string :=
  let group := if (k_Class c =? "")%string then k_Suite c else k_Class c in
  if (group =? "")%string then k_CaseName c else group +:+ " › " +:+ k_CaseName c.

Definition case_result (c : junitCase) : string * option junitResult :=
  match jc_Failure c, jc_Errored c, jc_Skipped c with
  | Some r, _, _ => (CaseFailed, Some r)
  | None, Some r, _ => (CaseError, Some r)
  | None, None, Some r => (CaseSkipped, Some r)
  | None, None, None => (CasePassed, None)
  end.

(** The report's libraries: decoding XML into the two shapes, and a time attribute
    in milliseconds, rounded, when it is a positive number. *)
Class ReportLib := {
  Unmarshal_suites : string → option junitSuites;
  Unmarshal_suite : string → option junitSuite;
  duration_ms : string → option Z;
}.

Section Junit.
Context `{ReportLib}.

Definition toTestCase (suite : string) (c : junitCase) : TestCase :=
  let '(status, res) := case_result c in
  let message := match res with
                 | None => ""
                 | Some r =>
                     let msg := TrimSpace (jr_Message r) in
                     truncate (if (msg =? "")%string then TrimSpace (jr_Type r) else msg) MaxCaseMessageLen
                 end in
  let details := match res with None => "" | Some r => truncate (TrimSpace (jr_Text r)) MaxCaseDetailsLen end in
  mkTestCase (TrimSpace suite) (TrimSpace (jc_Classname c)) (TrimSpace (jc_Name c)) status
    (default 0%Z (duration_ms (jc_Time c))) message details (jc_File c).

Fixpoint suite_cases (s : junitSuite) : list TestCase :=
  (toTestCase (js_Name s) <$> js_Cases s) ++ flat_map suite_cases (js_Nested s).

Definition collectCases (suites : list junitSuite) (topLevel : list junitCase) : list TestCase :=
  (toTestCase "" <$> topLevel) ++ flat_map suite_cases suites.

End Junit.

(** ** Parsing a report *)

Definition MaxJUnitFileBytes : Z := 10 * 1024 * 1024.

(** strings.Index: of the first occurrence. *)
Definition Index (s sub : string) : option nat := match Cut s sub with Some (a, _) => Some (String.length a) | None => None end.

Definition skip_declaration (s : string) : string :=
  if HasPrefix s "<?xml" then
    match Index s "?>" with
    | Some n => if (0 <? n)%nat then TrimSpace (str_drop (n + 2) s) else s
    | None => s
    end
  else s.

Definition IsProbablyJUnit (head : string) : bool :=
  let s := skip_declaration (TrimSpace head) in HasPrefix s "<testsuites" || HasPrefix s "<testsuite".

(** io.LimitReader. *)
Definition limited (data : string) : string :=
  if (Z.of_nat (String.length data) <=? MaxJUnitFileBytes)%Z then data else str_take (Z.to_nat MaxJUnitFileBytes) data.

Definition errNotJUnit : string := "scraper: not a JUnit document".

(** The bytes of a report, or the error of reading them. *)
Definition ParseJUnitReport `{ReportLib} (r : result string string) : result string (TestCounts * list TestCase) :=
  match r with
  | Err e => Err ("read: " +:+ e)
  | Ok data =>
      let data := limited data in
      if str_is_empty data then Err "empty file"
      else if negb (IsProbablyJUnit (str_take 512 data)) then Err errNotJUnit
      else
        match Unmarshal_suites data with
        | Some (mkSuites (_ :: _ as suites) cases) | Some (mkSuites suites (_ :: _ as cases)) =>
            Ok (aggregate suites cases, collectCases suites cases)
        | _ =>
            match Unmarshal_suite data with
            | Some single => Ok (aggregate [single] [], collectCases [single] [])
            | None => Err "parse: not a valid JUnit XML document"
            end
        end
  end.

(** The error of opening the file is returned as it is. *)
Definition ParseJUnitReportFile `{ReportLib} (f : result string (result string string)) : result string (TestCounts * list TestCase) :=
  match f with Err e => Err e | Ok r => ParseJUnitReport r end.
Definition ParseJUnitFile `{ReportLib} (f : result string (result string string)) : result string TestCounts :=
  match ParseJUnitReportFile f with Ok (c, _) => Ok c | Err e => Err e end.

(** ** pkg/verdict/junit: the verdict over a working directory *)

Inductive ScanError :=
| NoWorkingDir
| BadGlob (glob reason : string)
| ErrNoReportFound (lastParseError : option string)
| ErrEmptyReport.

Definition scan_text (e : ScanError) : string :=
  match e with
  | NoWorkingDir => "junit: Scan requires workingDir"
  | BadGlob glob reason => "junit: bad glob " +:+ quote glob +:+ ": " +:+ reason
  | ErrNoReportFound None => "junit: no parseable report found"
  | ErrNoReportFound (Some e) => "junit: no parseable report found (last parse error: " +:+ e +:+ ")"
  | ErrEmptyReport => "junit: no tests found in JUnit report"
  end.

Definition DefaultGlobs : list string :=
  ["**/junit*.xml"; "**/*junit*.xml"; "**/results.xml"; "**/newman-*.xml"; "**/TEST-*.xml"; "**/test-results/**/*.xml"].

(** The file system the scan sees: what a pattern matches, whether a path is a file,
    and what the report parser makes of it. *)
Record Tree := mkTree {
  FilepathGlob : string → result string (list string);
  is_file : string → bool;
  parse_file : string → result string TestCounts;
}.

Definition add_counts (a b : TestCounts) : TestCounts :=
  mkTestCounts (wrap64 (tc_Total a + tc_Total b)) (wrap64 (tc_Passed a + tc_Passed b)) (wrap64 (tc_Failed a + tc_Failed b))
    (wrap64 (tc_Skipped a + tc_Skipped b)).

Record ScanState := mkScan { sn_Seen : gset string; sn_Agg : TestCounts; sn_Found : bool; sn_Last : option string }.

Definition scan_path (fs : Tree) (st : ScanState) (path : string) : ScanState :=
  if bool_decide (path ∈ sn_Seen st) then st
  else
    let seen := {[ path ]} ∪ sn_Seen st in
    if negb (is_file fs path) then mkScan seen (sn_Agg st) (sn_Found st) (sn_Last st)
    else match parse_file fs path with
         | Err e => mkScan seen (sn_Agg st) (sn_Found st) (Some e)
         | Ok counts => mkScan seen (add_counts (sn_Agg st) counts) true (sn_Last st)
         end.

Fixpoint scan_globs (fs : Tree) (workingDir : string) (globs : list string) (st : ScanState) : result ScanError ScanState :=
  match globs with
  | [] => Ok st
  | glob :: globs =>
      match FilepathGlob fs (Join workingDir glob) with
      | Err e => Err (BadGlob glob e)
      | Ok matches => scan_globs fs workingDir globs (foldl (scan_path fs) st matches)
      end
  end.

Definition Scan (fs : Tree) (workingDir : string) (globs : list string) : result ScanError TestCounts :=
  if (workingDir =? "")%string then Err NoWorkingDir
  else
    let globs := match globs with [] => DefaultGlobs | _ => globs end in
    match scan_globs fs workingDir globs (mkScan ∅ zeroCounts false None) with
    | Err e => Err e
    | Ok st =>
        if negb (sn_Found st) then Err (ErrNoReportFound (sn_Last st))
        else if (tc_Total (sn_Agg st) =? 0)%Z then Err ErrEmptyReport
        else Ok (sn_Agg st)
    end.

(** ** pkg/verdict/jtl: the JMeter log *)

Record Aggregate := mkAggregate { ag_SamplesTotal : Z; ag_SamplesFailed : Z; ag_ElapsedAvgMs : spec_float }.

Definition ErrorRate (a : Aggregate) : spec_float :=
  if (ag_SamplesTotal a =? 0)%Z then float_zero else float_div (float_of_int (ag_SamplesFailed a)) (float_of_int (ag_SamplesTotal a)).

Definition index_step (cols : option nat * option nat) (ih : nat * string) : option nat * option nat :=
  let name := ToLower (TrimSpace ih.2) in
  if (name =? "success")%string then (Some ih.1, cols.2)
  else if (name =? "elapsed")%string then (cols.1, Some ih.1)
  else cols.
Definition indexColumns (header : list string) : option nat * option nat := foldl index_step (None, None) (enumerate header).

(** The value strconv.ParseFloat returns, its error ignored. *)
Class Atof := parse_value : string → spec_float.
Definition atof `{Atof} (s : string) : spec_float := parse_value (TrimSpace s).

Definition jtl_row `{Atof} (successCol : nat) (elapsedCol : option nat) (acc : Z * Z * spec_float) (row : list string) : Z * Z * spec_float :=
  let '(total, failed, elapsed) := acc in
  match row !! successCol with
  | None => acc
  | Some success =>
      let failed := if EqualFold (TrimSpace success) "false" then incr failed else failed in
      let elapsed := match elapsedCol ≫= (row !!.) with Some v => float_add elapsed (atof v) | None => elapsed end in
      (incr total, failed, elapsed)
  end.

(** What csv.Reader gives: the rows in order, up to its end or an error. *)
Inductive csv_error := CsvError (msg : string).
Fixpoint jtl_rows `{Atof} (successCol : nat) (elapsedCol : option nat) (acc : Z * Z * spec_float) (rows : list (result csv_error (list string))) :
    result string (Z * Z * spec_float) :=
  match rows with
  | [] => Ok acc
  | Err (CsvError e) :: _ => Err ("jtl: read row: " +:+ e)
  | Ok row :: rows => jtl_rows successCol elapsedCol (jtl_row successCol elapsedCol acc row) rows
  end.

Definition Jtl_Parse `{Atof} (rows : list (result csv_error (list string))) : result string Aggregate :=
  match rows with
  | [] => Err "jtl: empty file"
  | Err (CsvError e) :: _ => Err ("jtl: read header: " +:+ e)
  | Ok header :: rows =>
      match indexColumns header with
      | (None, _) => Err "jtl: header missing required `success` column"
      | (Some successCol, elapsedCol) =>
          '(total, failed, elapsed) ← jtl_rows successCol elapsedCol (0%Z, 0%Z, float_zero) rows;
          Ok (mkAggregate total failed (if (0 <? total)%Z then float_div elapsed (float_of_int total) else float_zero))
      end
  end.

(** ** The counts and the cases agree *)

(** A suite whose counts are those of its cases: no summary attributes on it or below. *)
Fixpoint plain_suite (s : junitSuite) : bool := negb (has_summary s) && forallb plain_suite (js_Nested s).

(** How many cases have one of some statuses. *)
Definition with_status (statuses : list string) (cases : list TestCase) : Z :=
  wrap64 (Z.of_nat (length (filter (fun c => k_Status c ∈ statuses) cases))).
Definition tally (cases : list TestCase) : TestCounts :=
  mkTestCounts (wrap64 (Z.of_nat (length cases))) (with_status [CasePassed] cases) (with_status [CaseFailed; CaseError] cases)
    (with_status [CaseSkipped] cases).

Definition tally_case (t : TestCounts) (c : TestCase) : TestCounts :=
  let add (statuses : list string) (n : Z) := if decide (k_Status c ∈ statuses) then incr n else n in
  mkTestCounts (incr (tc_Total t)) (add [CasePassed] (tc_Passed t)) (add [CaseFailed; CaseError] (tc_Failed t))
    (add [CaseSkipped] (tc_Skipped t)).

Section Counts.
Context `{ReportLib}.

Lemma count_case_tally name t c : count_case t c = tally_case t (toTestCase name c).
Proof.
  unfold count_case, tally_case, toTestCase, case_result.
  destruct (jc_Failure c), (jc_Errored c), (jc_Skipped c); reflexivity.
Qed.

Lemma countCases_tally name cases t : countCases cases t = foldl tally_case t (toTestCase name <$> cases).
Proof.
  unfold countCases. revert t. induction cases as [|c cases IH]; intros t; cbn [foldl fmap list_fmap]; [done|].
  by rewrite (count_case_tally name), IH.
Qed.

Lemma countSuite_tally s : plain_suite s = true → ∀ t, countSuite s t = foldl tally_case t (suite_cases s).
Proof.
  induction s as [name tests fails errs skip cases nested IH] using suite_ind. cbn [plain_suite js_Nested]. intros Hp t. breflect.
  cbn [countSuite suite_cases js_Nested js_Cases js_Name]. rewrite foldl_app, <- countCases_tally.
  destruct (has_summary _); [done|]. generalize (countCases cases t). clear t.
  induction nested as [|n nested IHn]; intros t; cbn [foldl flat_map]; [done|]. apply Forall_cons in IH as [Hn Hns].
  cbn [forallb] in *. breflect. rewrite foldl_app, <- Hn by done. by apply IHn.
Qed.

Lemma tally_from cases t :
  let u := foldl tally_case t cases in
  let add n statuses := wrap64 (n + Z.of_nat (length (filter (fun c => k_Status c ∈ statuses) cases))) in
  wrap64 (tc_Total u) = wrap64 (tc_Total t + Z.of_nat (length cases)) ∧ wrap64 (tc_Passed u) = add (tc_Passed t) [CasePassed] ∧
  wrap64 (tc_Failed u) = add (tc_Failed t) [CaseFailed; CaseError] ∧ wrap64 (tc_Skipped u) = add (tc_Skipped t) [CaseSkipped].
Proof.
  revert t. induction cases as [|c cases IH]; intros t; cbn [foldl]; [by rewrite !Z.add_0_r|].
  destruct (IH (tally_case t c)) as (-> & -> & -> & ->). unfold tally_case. cbn [tc_Total tc_Passed tc_Failed tc_Skipped length].
  rewrite !filter_cons. unfold incr.
  assert (Hadd : ∀ n m, wrap64 (wrap64 (n + 1) + Z.of_nat m) = wrap64 (n + Z.of_nat (S m))).
  { intros. rewrite wrap64_add_l. f_equal. lia. }
  split; [apply Hadd|]. split_and!; (case_decide; [cbn [length]; apply Hadd|done]).
Qed.

Lemma tally_wrapped cases t :
  wrap64 (tc_Total t) = tc_Total t → wrap64 (tc_Passed t) = tc_Passed t → wrap64 (tc_Failed t) = tc_Failed t →
  wrap64 (tc_Skipped t) = tc_Skipped t →
  let u := foldl tally_case t cases in
  wrap64 (tc_Total u) = tc_Total u ∧ wrap64 (tc_Passed u) = tc_Passed u ∧ wrap64 (tc_Failed u) = tc_Failed u ∧
  wrap64 (tc_Skipped u) = tc_Skipped u.
Proof.
  revert t. induction cases as [|c cases IH]; intros t H1 H2 H3 H4; cbn [foldl]; [done|].
  assert (Hi : ∀ n, wrap64 (incr n) = incr n) by (intros n; unfold incr; pose proof (wrap64_add_l (n + 1) 0) as E; rewrite !Z.add_0_r in E; exact E).
  apply IH; cbn; [apply Hi|..]; case_decide; try apply Hi; done.
Qed.

(** The counts of a report and the cases it lists agree: in a report without summary
    attributes, however its suites are nested, the total is the number of cases
    listed, and passed, failed and skipped are those with that status, an errored
    case being a failed one. *)
Theorem aggregate_counts_cases suites topLevel :
  forallb plain_suite suites = true → aggregate suites topLevel = tally (collectCases suites topLevel).
Proof.
  intros Hp. assert (E : aggregate suites topLevel = foldl tally_case zeroCounts (collectCases suites topLevel)).
  { unfold aggregate, collectCases. rewrite foldl_app, <- countCases_tally. generalize (countCases topLevel zeroCounts).
    induction suites as [|s suites IH]; intros t; cbn [foldl flat_map]; [done|]. cbn [forallb] in Hp. breflect.
    rewrite foldl_app, <- countSuite_tally by done. by apply IH. }
  rewrite E. destruct (tally_from (collectCases suites topLevel) zeroCounts) as (H1 & H2 & H3 & H4).
  destruct (tally_wrapped (collectCases suites topLevel) zeroCounts) as (W1 & W2 & W3 & W4); [done..|].
  unfold tally, with_status. cbn [zeroCounts tc_Total tc_Passed tc_Failed tc_Skipped] in H1, H2, H3, H4.
  rewrite Z.add_0_l in H1, H2, H3, H4. rewrite W1 in H1. rewrite W2 in H2. rewrite W3 in H3. rewrite W4 in H4.
  rewrite <- H1, <- H2, <- H3, <- H4. by destruct (foldl _ _ _).
Qed.
End Counts.

(** ** What the JUnit verdict stands on *)

Definition sum_counts (fs : Tree) (paths : list string) : TestCounts :=
  foldr (fun p t => match parse_file fs p with Ok c => add_counts t c | Err _ => t end) zeroCounts paths.

Lemma add_counts_swap t a b : add_counts (add_counts t a) b = add_counts (add_counts t b) a.
Proof. unfold add_counts. cbn. f_equal; rewrite !wrap64_add_l; f_equal; lia. Qed.

#[local] Instance sum_counts_perm fs : Proper ((≡ₚ) ==> (=)) (sum_counts fs).
Proof.
  intros ps qs. unfold sum_counts. induction 1 as [|p ps qs _ IH|p q ps|ps qs rs _ IH1 _ IH2]; cbn; [done|by rewrite IH| |congruence].
  destruct (parse_file fs p), (parse_file fs q); try done. apply add_counts_swap.
Qed.

(** A report of the working directory: a file that some pattern matches and the
    parser reads. *)
Definition matched (fs : Tree) (workingDir : string) (globs : list string) (p : string) : Prop :=
  ∃ glob ms, glob ∈ globs ∧ FilepathGlob fs (Join workingDir glob) = Ok ms ∧ p ∈ ms.
Definition report_file (fs : Tree) (p : string) : Prop := is_file fs p = true ∧ is_ok (parse_file fs p) = true.

(** What the walk knows after some paths: those it has seen, and the sum of the
    reports among them. *)
Record scanned (fs : Tree) (paths : list string) (st : ScanState) : Prop := {
  sc_seen : ∀ p, p ∈ sn_Seen st ↔ p ∈ paths;
  sc_reports : ∃ reports, NoDup reports ∧ (∀ p, p ∈ reports ↔ p ∈ paths ∧ report_file fs p) ∧
    sn_Agg st = sum_counts fs reports ∧ (sn_Found st = true ↔ reports ≠ []);
}.

Lemma scanned_same fs paths paths' st : (∀ p, p ∈ paths ↔ p ∈ paths') → scanned fs paths st → scanned fs paths' st.
Proof.
  intros He [Hs (rs & Hnd & Hin & Hagg & Hf)]. split; [intros p; by rewrite Hs, He|].
  exists rs. split_and!; [done| |done..]. intros p. by rewrite Hin, He.
Qed.

Lemma scan_path_scanned fs paths st p : scanned fs paths st → scanned fs (p :: paths) (scan_path fs st p).
Proof.
  intros Hsc. unfold scan_path. destruct (bool_decide _) eqn:Es; breflect.
  { eapply scanned_same; [|exact Hsc]. intros q. rewrite elem_of_cons. destruct Hsc as [Hs _]. rewrite Hs in Es. naive_solver. }
  destruct Hsc as [Hs (rs & Hnd & Hin & Hagg & Hf)]. cbn zeta.
  assert (Hnew : p ∉ paths) by (by rewrite <- Hs).
  assert (Hskip : ¬ report_file fs p → ∀ agg found last, agg = sn_Agg st → found = sn_Found st →
    scanned fs (p :: paths) (mkScan ({[p]} ∪ sn_Seen st) agg found last)).
  { intros Hno agg found last -> ->. split; cbn; [intros q; rewrite elem_of_union, elem_of_singleton, Hs, elem_of_cons; done|].
    exists rs. split_and!; [done| |done..]. intros q. rewrite Hin, elem_of_cons. split; [naive_solver|].
    intros [[->|?] ?]; [by destruct Hno|done]. }
  destruct (is_file fs p) eqn:Ef; cbn [negb]; [|apply Hskip; [by intros [? _]; congruence|done..]].
  destruct (parse_file fs p) as [c|e] eqn:Ep; [|apply Hskip; [intros [_ Hp]; by rewrite Ep in Hp|done..]].
  split; cbn; [intros q; rewrite elem_of_union, elem_of_singleton, Hs, elem_of_cons; done|].
  exists (p :: rs). split_and!; [|intros q|by cbn; rewrite Ep, Hagg|done].
  - constructor; [by rewrite Hin; intros [? _]|done].
  - rewrite !elem_of_cons, Hin. unfold report_file. split; [|naive_solver]. intros [->|[? ?]]; [|naive_solver].
    split; [by left|]. by rewrite Ef, Ep.
Qed.

Lemma scan_paths_scanned fs ms : ∀ paths st, scanned fs paths st → scanned fs (ms ++ paths) (foldl (scan_path fs) st ms).
Proof.
  induction ms as [|p ms IH]; intros paths st Hsc; cbn [foldl app]; [done|].
  eapply scanned_same; [|apply IH, scan_path_scanned, Hsc]. intros q. set_solver.
Qed.

Lemma scan_globs_ok fs wd globs : ∀ paths st st',
  scanned fs paths st → scan_globs fs wd globs st = Ok st' →
  Forall (fun g => is_ok (FilepathGlob fs (Join wd g)) = true) globs ∧
  ∃ paths', scanned fs paths' st' ∧ ∀ p, p ∈ paths' ↔ p ∈ paths ∨ matched fs wd globs p.
Proof.
  induction globs as [|g globs IH]; intros paths st st' Hsc; cbn [scan_globs].
  { intros [= <-]. split; [constructor|]. exists paths. split; [done|]. intros p. split; [by left|]. intros [?|(? & ? & ?%elem_of_nil & _)]; done. }
  destruct (FilepathGlob fs (Join wd g)) as [ms|e] eqn:Eg; [|done]. intros Hrest.
  destruct (IH _ _ _ (scan_paths_scanned fs ms _ _ Hsc) Hrest) as (Hall & paths' & Hsc' & Hin).
  split; [constructor; [by rewrite Eg|done]|]. exists paths'. split; [done|]. intros p. rewrite Hin, elem_of_app.
  unfold matched. split.
  - intros [[?|?]|(g' & ms' & ? & ? & ?)]; [right; exists g, ms; split_and!; [by left|done..]|by left|].
    right. exists g', ms'. split_and!; [by right|done..].
  - intros [?|(g' & ms' & [->|Hg]%elem_of_cons & Hm & ?)]; [by left; right| |right; by exists g', ms'].
    left. left. congruence.
Qed.

Lemma scan_globs_total fs wd globs : ∀ st,
  Forall (fun g => is_ok (FilepathGlob fs (Join wd g)) = true) globs → is_ok (scan_globs fs wd globs st) = true.
Proof.
  induction globs as [|g globs IH]; intros st; cbn [scan_globs]; [done|]. intros [Hg Hgs]%Forall_cons.
  destruct (FilepathGlob _ _); [by apply IH|done].
Qed.

Definition or_default (globs : list string) : list string := match globs with [] => DefaultGlobs | _ => globs end.

(** The JUnit verdict has counts exactly when every pattern is well formed and some
    file they match is a report with a test in it: the counts are then the sum over
    the distinct reports, each counted once however many patterns match it.  No
    report, or reports without a test, are errors — never counts that pass. *)
Theorem Scan_spec fs workingDir globs counts :
  Scan fs workingDir globs = Ok counts ↔
  workingDir ≠ "" ∧ Forall (fun g => is_ok (FilepathGlob fs (Join workingDir g)) = true) (or_default globs) ∧
  ∃ reports, NoDup reports ∧ (∀ p, p ∈ reports ↔ matched fs workingDir (or_default globs) p ∧ report_file fs p) ∧
    reports ≠ [] ∧ counts = sum_counts fs reports ∧ tc_Total counts ≠ 0%Z.
Proof.
  unfold Scan. destruct (String.eqb_spec workingDir "") as [->|Hwd]; [split; [done|intros [? _]; done]|].
  cbn zeta. fold (or_default globs).
  assert (H0 : scanned fs [] (mkScan ∅ zeroCounts false None)).
  { split; cbn; [set_solver|]. exists []. split_and!; [constructor|set_solver|done|done]. }
  split.
  - destruct (scan_globs _ _ _ _) as [st|e] eqn:Es; [|done].
    destruct (scan_globs_ok _ _ _ _ _ _ H0 Es) as (Hall & paths & [_ (rs & Hnd & Hin & Hagg & Hf)] & Hp).
    destruct (sn_Found st); [|done]. cbn [negb]. destruct (Z.eqb_spec (tc_Total (sn_Agg st)) 0); [done|]. intros [= <-].
    split_and!; [done..|]. exists rs. split_and!; [done| |by apply Hf|done|done].
    intros p. rewrite Hin, Hp. split; [|naive_solver]. intros [[?%elem_of_nil|?] ?]; done.
  - intros (_ & Hall & rs & Hnd & Hin & Hne & -> & Htot).
    pose proof (scan_globs_total fs workingDir (or_default globs) (mkScan ∅ zeroCounts false None) Hall) as Hok.
    destruct (scan_globs _ _ _ _) as [st|e] eqn:Es; [|done].
    destruct (scan_globs_ok _ _ _ _ _ _ H0 Es) as (_ & paths & [_ (rs' & Hnd' & Hin' & Hagg & Hf)] & Hp).
    assert (Hperm : rs ≡ₚ rs').
    { apply NoDup_Permutation; [done..|]. intros p. rewrite Hin, Hin', Hp. split; [naive_solver|].
      intros [[Hn|?] ?]; [by apply elem_of_nil in Hn|done]. }
    assert (sn_Found st = true) as ->. { apply Hf. intros ->. by apply Permutation_nil_r in Hperm. }
    cbn [negb]. rewrite Hagg, (sum_counts_perm fs _ _ (symmetry Hperm)). by apply Z.eqb_neq in Htot as ->.
Qed.

(** ** Two reports *)

(** A suite's summary is believed over its cases: one that declares its tests but
    not its failures counts none, though a case failed. *)
Definition failing_case : junitCase := mkCase "checkout" "shop" "0.1" "" None (Some (mkResult "boom" "" "")) None.
Definition undeclared_failure : junitSuite := mkSuite "shop" 1 0 0 0 [failing_case] [].
Definition demo_report_lib : ReportLib :=
  {| Unmarshal_suites _ := None; Unmarshal_suite _ := Some undeclared_failure; duration_ms _ := None |}.
Definition failing_xml : string := "<testsuite tests='1'><testcase name='checkout'><failure/></testcase></testsuite>".

(** A failure the summary does not declare is lost: the report of one failed case
    whose suite says how many tests it has, and nothing of failures, counts as one
    passed test, while the case it lists is failed. *)
Theorem undeclared_failure_passes `{ReportLib} :
  Unmarshal_suites failing_xml = None → Unmarshal_suite failing_xml = Some undeclared_failure →
  ∃ counts case, ParseJUnitReport (Ok failing_xml) = Ok (counts, [case]) ∧
    tc_Failed counts = 0%Z ∧ tc_Passed counts = 1%Z ∧ k_Status case = CaseFailed.
Proof.
  intros H1 H2. unfold ParseJUnitReport. change (limited failing_xml) with failing_xml.
  change (str_is_empty failing_xml) with false. change (IsProbablyJUnit (str_take 512 failing_xml)) with true.
  cbn [negb]. rewrite H1, H2. eexists _, _. split; [reflexivity|]. done.
Qed.

Lemma undeclared_failure_passes_witness : ∃ counts cases, ParseJUnitReport (H := demo_report_lib) (Ok failing_xml) = Ok (counts, cases).
Proof.
  destruct (undeclared_failure_passes (H := demo_report_lib) eq_refl eq_refl) as (counts & c & E & _). exists counts, [c]. exact E.
Defined.

(** A suite that repeats the counts of the suites in it is counted twice. *)
Example nested_summaries_double :
  aggregate [mkSuite "all" 2 1 0 0 [] [mkSuite "a" 2 1 0 0 [] []]] [] = mkTestCounts 4 2 2 0.
Proof. vm_compute. reflexivity. Qed.

Lemma aggregate_counts_cases_witness :
  aggregate [mkSuite "all" 0 0 0 0 [] [mkSuite "a" 0 0 0 0 [failing_case] []]] [failing_case] = mkTestCounts 2 0 2 0.
Proof.
  exact (aggregate_counts_cases (H := demo_report_lib) [mkSuite "all" 0 0 0 0 [] [mkSuite "a" 0 0 0 0 [failing_case] []]]
    [failing_case] eq_refl).
Defined.

End Verdicts.
