(* ===== verification/Termination.v ===== *)
(** * The wrapper's result and its termination message

    pkg/executor/types.go ([ExecutionResult]) and termination.go: the compact copy of
    a verdict Kubernetes keeps in the pod status, as the JSON text encoding/json
    writes.  The digits of a float are the library's. *)
From S2P Require Import Prelude Api GoLib Names Objects Verdicts.

Module Termination.
Import Objects Verdicts.

(** A try of a retried run. *)
Record AttemptResult := mkAttempt { ta_Phase : Phase; ta_ErrorMessage : string; ta_ToolExitCode : option Z }.

#[export] Instance AttemptResult_eq_dec : EqDecision AttemptResult.
Proof. solve_decision. Defined.

Record ContentInfo := mkContentInfo { ci_GitRevision : string; ci_GitCommit : string }.

#[export] Instance ContentInfo_eq_dec : EqDecision ContentInfo.
Proof. solve_decision. Defined.
#[export] Instance spec_float_eq_dec : EqDecision spec_float.
Proof. solve_decision. Defined.

(** [ExecutionResult] without [Steps], which the wrapper never sets. *)
Record ExecutionResult := mkExecution {
  xr_Phase : Phase;
  xr_ErrorMessage : string;
  xr_Metrics : gmap string spec_float;
  xr_TestCounts : option TestCounts;
  xr_Content : option ContentInfo;
  xr_TestCases : list TestCase;
  xr_ToolFinishedAt : option time;
  xr_Attempts : list AttemptResult;
  xr_Artifacts : list ArtifactRef;
  xr_ScrapeError : string;
  xr_MetricsError : string;
  xr_ToolExitCode : option Z;
}.

#[export] Instance ExecutionResult_eq_dec : EqDecision ExecutionResult.
Proof. solve_decision. Defined.

(** [ExecutionResult{Phase: phase, ErrorMessage: msg, ToolExitCode: code}] *)
Definition plain (phase : Phase) (msg : string) (code : option Z) : ExecutionResult :=
  mkExecution phase msg ∅ None None [] None [] [] "" "" code.

(** ** encoding/json *)

Class FloatText := {
  fixed : nat → spec_float → string;
  json_float : spec_float → string;
}.

Definition byte_in (lo hi : N) (c : ascii) : bool := (lo <=? N_of_ascii c)%N && (N_of_ascii c <=? hi)%N.
Definition continuation (c : ascii) : bool := byte_in 128 191 c.

(** The length of the UTF-8 encoded rune a string starts with; none when its first
    bytes are not one. *)
Definition rune_len (s : string) : option nat :=
  match s with
  | EmptyString => None
  | String a s =>
      if byte_in 0 127 a then Some 1%nat
      else
        match s with
        | EmptyString => None
        | String b s =>
            if byte_in 194 223 a then (if continuation b then Some 2%nat else None)
            else
              match s with
              | EmptyString => None
              | String c s =>
                  if byte_in 224 239 a then
                    let lo := if (N_of_ascii a =? 224)%N then 160%N else 128%N in
                    let hi := if (N_of_ascii a =? 237)%N then 159%N else 191%N in
                    if byte_in lo hi b && continuation c then Some 3%nat else None
                  else
                    match s with
                    | EmptyString => None
                    | String d _ =>
                        let lo := if (N_of_ascii a =? 240)%N then 144%N else 128%N in
                        let hi := if (N_of_ascii a =? 244)%N then 143%N else 191%N in
                        if byte_in 240 244 a && byte_in lo hi b && continuation c && continuation d then Some 4%nat else None
                    end
              end
        end
  end.

Definition hex_escape (n : N) : string :=
  "\u00" +:+ String (hex_nibble (N.to_nat (n / 16))) (String (hex_nibble (N.to_nat (n mod 16))) "").

(** One ASCII byte of a JSON string: the control characters, the quote, the
    backslash and what HTML would read are escaped. *)
Definition json_ascii (c : ascii) : string :=
  let n := N_of_ascii c in
  if (n =? 34)%N then String "\" (String dquote "")
  else if (n =? 92)%N then "\\"
  else if (n =? 8)%N then "\b"
  else if (n =? 12)%N then "\f"
  else if (n =? 10)%N then "\n"
  else if (n =? 13)%N then "\r"
  else if (n =? 9)%N then "\t"
  else if (n <? 32)%N || (n =? 60)%N || (n =? 62)%N || (n =? 38)%N then hex_escape n
  else String c "".

Definition line_separator (s : string) : option string :=
  if (s =? String (ascii_of_N 226) (String (ascii_of_N 128) (String (ascii_of_N 168) "")))%string then Some "\u2028"
  else if (s =? String (ascii_of_N 226) (String (ascii_of_N 128) (String (ascii_of_N 169) "")))%string then Some "\u2029"
  else None.

(** The runes of a string; a byte that starts none is replaced. *)
Fixpoint json_runes (fuel : nat) (s : string) : string :=
  match fuel with
  | O => ""
  | S fuel =>
      match s with
      | EmptyString => ""
      | String c rest =>
          match rune_len s with
          | None => "\ufffd" +:+ json_runes fuel rest
          | Some 1%nat => json_ascii c +:+ json_runes fuel rest
          | Some n => default (str_take n s) (line_separator (str_take n s)) +:+ json_runes fuel (str_drop n s)
          end
      end
  end.
Definition json_string (s : string) : string := String dquote (json_runes (String.length s) s +:+ String dquote "").

Definition json_field (name value : string) : string := json_string name +:+ ":" +:+ value.
Definition json_object (fields : list string) : string := "{" +:+ str_join "," fields +:+ "}".
(** [omitempty] of a string. *)
Definition json_text (name value : string) : list string := if (value =? "")%string then [] else [json_field name (json_string value)].

Definition finite (f : spec_float) : bool := match f with S754_infinity _ | S754_nan => false | _ => true end.
Definition finite_metrics (m : gmap string spec_float) : bool := bool_decide (map_Forall (fun _ f => finite f = true) m).

Section Summary.
Context `{FloatText}.

Definition json_counts (c : TestCounts) : string :=
  json_object [json_field "total" (itoa (tc_Total c)); json_field "passed" (itoa (tc_Passed c));
               json_field "failed" (itoa (tc_Failed c)); json_field "skipped" (itoa (tc_Skipped c))].
Definition json_content (c : ContentInfo) : string :=
  json_object (json_text "gitRevision" (ci_GitRevision c) ++ json_text "gitCommit" (ci_GitCommit c)).
Definition json_metrics (m : gmap string spec_float) : string :=
  json_object ((fun k => json_field k (json_float (default float_zero (m !! k)))) <$> sorted_keys m).
Definition json_metrics_field (m : gmap string spec_float) : list string :=
  if bool_decide (m = ∅) then [] else [json_field "metrics" (json_metrics m)].

(** json.Marshal of a summary: an error when a metric is not a finite number. *)
Definition Marshal (phase : Phase) (msg : string) (metrics : gmap string spec_float) (counts : option TestCounts)
    (content : option ContentInfo) : option string :=
  if negb (finite_metrics metrics) then None
  else
    Some (json_object
      ([json_field "phase" (json_string (phase_string phase))] ++ json_text "errorMessage" msg ++ json_metrics_field metrics
       ++ match counts with Some c => [json_field "testCounts" (json_counts c)] | None => [] end
       ++ match content with Some c => [json_field "content" (json_content c)] | None => [] end)).

Definition maxTerminationMessageBytes : nat := 4096.
Definition maxSummaryErrorBytes : nat := 1024.
Definition truncateUTF8 (s : string) (max : nat) : string := truncate s max.

Definition TerminationSummary (r : ExecutionResult) : string :=
  let msg := truncateUTF8 (xr_ErrorMessage r) maxSummaryErrorBytes in
  match Marshal (xr_Phase r) msg (xr_Metrics r) (xr_TestCounts r) (xr_Content r) with
  | Some b =>
      if (maxTerminationMessageBytes <? String.length b)%nat then
        default "" (Marshal (xr_Phase r) msg ∅ (xr_TestCounts r) (xr_Content r))
      else b
  | None => default "" (Marshal (xr_Phase r) msg ∅ (xr_TestCounts r) (xr_Content r))
  end.
End Summary.

(** ** Truncation *)

(** Well-formed UTF-8: runes up to the end. *)
Inductive utf8 : string → Prop :=
| utf8_nil : utf8 ""
| utf8_rune s n : rune_len s = Some n → utf8 (str_drop n s) → utf8 s.

Lemma rune_len_app s t n : rune_len s = Some n → rune_len (s +:+ t) = Some n.
Proof.
  destruct s as [|a [|b [|c [|d s]]]]; rewrite ?str_app_cons; cbn; try done; repeat case_match; try done.
Qed.

Lemma rune_len_le s n : rune_len s = Some n → (1 <= n <= String.length s)%nat.
Proof.
  destruct s as [|a [|b [|c [|d s]]]]; cbn [rune_len]; try done; repeat case_match; intros [=]; subst; cbn; lia.
Qed.

Lemma str_get_drop n s : String.get n s = String.get 0 (str_drop n s).
Proof. revert s. induction n as [|n IH]; intros [|c s]; cbn; auto. Qed.

Lemma continuation_inner c : continuation c = true → RuneStart c = false.
Proof. destruct c as [[] [] [] [] [] [] [] []]; vm_compute; congruence. Qed.

(** Within a rune no byte starts one. *)
Lemma rune_inner s n i c : rune_len s = Some n → (0 < i < n)%nat → String.get i s = Some c → RuneStart c = false.
Proof.
  assert (Hc : ∀ c lo hi, (128 <=? lo)%N = true → (hi <=? 191)%N = true → byte_in lo hi c = true → RuneStart c = false).
  { intros c0 lo hi Hlo Hhi [H1 H2]%andb_prop. apply continuation_inner. unfold continuation, byte_in.
    apply N.leb_le in Hlo, Hhi, H1, H2. apply andb_true_iff. rewrite !N.leb_le. lia. }
  destruct s as [|a [|b [|c1 [|d s]]]]; cbn [rune_len]; try done.
  all: repeat case_match; intros [= <-] Hi Hg; breflect.
  all: destruct i as [|[|[|[|i]]]]; cbn in Hg; try lia; injection Hg as <-.
  all: first [by eapply (Hc _ 128%N 191%N)|eapply Hc; [| |eassumption]; repeat case_match; done].
Qed.

Lemma rune_len_take s n k : rune_len s = Some n → (n <= k)%nat → rune_len (str_take k s) = Some n.
Proof.
  destruct s as [|a [|b [|c [|d s]]]], k as [|[|[|[|k]]]]; cbn; try done; repeat case_match; intros [= <-] ?; try done; lia.
Qed.

Lemma str_drop_take k n s : str_drop n (str_take k s) = str_take (k - n) (str_drop n s).
Proof.
  revert k s. induction n as [|n IH]; intros k s; [by rewrite Nat.sub_0_r|].
  destruct k as [|k], s as [|c s]; cbn; [done..|by destruct (k - n)%nat|apply IH].
Qed.

Lemma get_drop i n s : String.get (i + n) s = String.get i (str_drop n s).
Proof.
  revert s. induction n as [|n IH]; intros s; [by rewrite Nat.add_0_r; destruct s|].
  rewrite Nat.add_succ_r. destruct s as [|c s]; cbn; [by destruct i|apply IH].
Qed.

(** A cut at the start of a rune, or before it. *)
Lemma utf8_take s cut :
  utf8 s → (∀ c, String.get cut s = Some c → RuneStart c = true) → utf8 (str_take cut s).
Proof.
  intros Hs. revert cut. induction Hs as [|s n Hn Hs IH]; intros cut Hcut; [by destruct cut; constructor|].
  pose proof (rune_len_le s n Hn) as Hle. destruct (decide (cut = 0)%nat) as [->|H0]; [destruct s; constructor|].
  destruct (decide (cut < n)%nat) as [Hlt|Hge].
  - destruct (String.get cut s) as [c|] eqn:Hg.
    + specialize (Hcut c eq_refl). by rewrite (rune_inner s n cut c) in Hcut by (done || lia).
    + exfalso. assert (Hlen : ∀ i t, (i < String.length t)%nat → String.get i t ≠ None).
      { clear. intros i t. revert i. induction t as [|c t IHt]; intros [|i]; cbn; try lia; [done|]. intros ?. apply IHt. lia. }
      apply (Hlen cut s); [lia|done].
  - eapply utf8_rune; [apply rune_len_take; [exact Hn|lia]|]. rewrite str_drop_take. apply IH.
    intros c Hg. apply Hcut. replace cut with ((cut - n) + n)%nat by lia. by rewrite get_drop.
Qed.

Lemma utf8_app s t : utf8 s → utf8 t → utf8 (s +:+ t).
Proof.
  intros Hs Ht. induction Hs as [|s n Hn Hs IH]; [by rewrite str_app_nil|].
  eapply utf8_rune; [by apply rune_len_app|]. pose proof (rune_len_le s n Hn) as Hle.
  assert (E : ∀ k u, (k <= String.length u)%nat → str_drop k (u +:+ t) = str_drop k u +:+ t).
  { induction k as [|k IHk]; intros [|c u] Hu; cbn in Hu; try done; [lia|]. rewrite str_app_cons. cbn. apply IHk. lia. }
  by rewrite E by lia.
Qed.

Lemma rune_cut_spec s cut :
  (cut < String.length s)%nat → (rune_cut s cut <= cut)%nat ∧ ∀ c, String.get (rune_cut s cut) s = Some c →
    rune_cut s cut = 0%nat ∨ RuneStart c = true.
Proof.
  induction cut as [|cut IH]; intros Hlt; cbn [rune_cut]; [split; [lia|by left]|].
  destruct (String.get (S cut) s) as [c|] eqn:Hg; [|split; [lia|congruence]].
  destruct (RuneStart c) eqn:Hr; [split; [lia|]; intros c'; rewrite Hg; intros [= <-]; by right|].
  destruct IH as [IH1 IH2]; [lia|]. split; [lia|done].
Qed.

(** The error message of a summary is cut without breaking it: well-formed text stays
    well formed, at most [max] bytes, unchanged when it fits and otherwise a prefix
    of it that ends with a mark. *)
Theorem truncateUTF8_spec s max :
  utf8 s → (3 <= max)%nat →
  utf8 (truncateUTF8 s max) ∧ (String.length (truncateUTF8 s max) <= max)%nat ∧
  ((String.length s <= max)%nat ∧ truncateUTF8 s max = s ∨
   (max < String.length s)%nat ∧ ∃ n, truncateUTF8 s max = str_take n s +:+ ellipsis).
Proof.
  intros Hs Hmax. unfold truncateUTF8, truncate. destruct (Nat.leb_spec (String.length s) max) as [Hle|Hgt].
  { split_and!; [done|done|by left]. }
  change (String.length ellipsis) with 3%nat.
  destruct (rune_cut_spec s (max - 3)) as [Hcut Hstart]; [lia|]. split_and!.
  - apply utf8_app; [|by apply (utf8_rune _ 3); [|constructor]].
    destruct (decide (rune_cut s (max - 3) = 0)%nat) as [->|H0]; [destruct s; constructor|].
    apply utf8_take; [done|]. intros c Hg. by destruct (Hstart c Hg).
  - rewrite str_length_app, str_length_take. change (String.length ellipsis) with 3%nat. lia.
  - right. split; [lia|]. by eexists.
Qed.

Fixpoint repeat_byte (n : nat) (c : ascii) : string := match n with O => "" | S n => String c (repeat_byte n c) end.

Lemma truncateUTF8_spec_witness : (String.length (truncateUTF8 (repeat_byte 2000 "x") 1024) <= 1024)%nat.
Proof.
  refine (proj1 (proj2 (truncateUTF8_spec (repeat_byte 2000 "x") 1024 _ _))); [|apply (bool_decide_unpack _); vm_compute; constructor].
  generalize 2000%nat. intros n. induction n as [|n IH]; [constructor|]. by apply (utf8_rune _ 1).
Defined.

(** ** The limit the summary does not keep *)

Lemma str_join_length sep xs x : x ∈ xs → (String.length x <= String.length (str_join sep xs))%nat.
Proof.
  induction xs as [|y xs IH]; [by intros ?%elem_of_nil|]. destruct xs as [|z xs].
  { intros ->%list_elem_of_singleton. done. }
  change (str_join sep (y :: z :: xs)) with (y +:+ sep +:+ str_join sep (z :: xs)). rewrite !str_length_app.
  intros [->|Hin]%elem_of_cons; [lia|]. apply IH in Hin. lia.
Qed.

Lemma json_runes_angle n fuel : (n <= fuel)%nat → String.length (json_runes fuel (repeat_byte n "<")) = (6 * n)%nat.
Proof.
  revert fuel. induction n as [|n IH]; intros [|fuel] Hf; cbn [repeat_byte json_runes]; try done; [lia|].
  change (rune_len (String "<" (repeat_byte n "<"))) with (Some 1%nat). cbv iota.
  rewrite str_length_app, IH by lia. change (String.length (json_ascii "<")) with 6%nat. lia.
Qed.

Lemma length_repeat_byte n c : String.length (repeat_byte n c) = n.
Proof. induction n; cbn; congruence. Qed.

Lemma json_string_angle n : (6 * n <= String.length (json_string (repeat_byte n "<")))%nat.
Proof.
  unfold json_string. rewrite length_repeat_byte. change (String.length (String ?c ?s)) with (S (String.length s)).
  rewrite str_length_app, json_runes_angle by lia. lia.
Qed.

Lemma Marshal_message_length `{FloatText} phase n metrics counts content b :
  (0 < n)%nat → Marshal phase (repeat_byte n "<") metrics counts content = Some b → (6 * n <= String.length b)%nat.
Proof.
  intros Hn. unfold Marshal. destruct (negb _); [done|]. intros [= <-]. unfold json_object. rewrite !str_length_app.
  unfold json_text. destruct n as [|n]; [lia|]. cbn [repeat_byte String.eqb].
  change (String "<" (repeat_byte n "<")) with (repeat_byte (S n) "<").
  set (field := json_field "errorMessage" (json_string (repeat_byte (S n) "<"))).
  match goal with |- context [str_join "," ?fs] => assert (Hl : (String.length field <= String.length (str_join "," fs))%nat) end.
  { apply str_join_length. right. left. }
  assert (6 * S n <= String.length field)%nat.
  { unfold field, json_field. rewrite !str_length_app. pose proof (json_string_angle (S n)). lia. }
  lia.
Qed.

(** The bound on the message does not bound the summary: encoding escapes six bytes
    for each angle bracket, so a message of angle brackets within the message's
    limit, with nothing else to report, gives a summary over the kubelet's limit,
    whose text Kubernetes cuts. *)
Theorem summary_exceeds_limit `{FloatText} r n :
  (683 <= n <= maxSummaryErrorBytes)%nat → xr_ErrorMessage r = repeat_byte n "<" →
  (maxTerminationMessageBytes < String.length (TerminationSummary r))%nat.
Proof.
  unfold maxSummaryErrorBytes. intros Hn Hmsg. unfold TerminationSummary. rewrite Hmsg.
  assert (truncateUTF8 (repeat_byte n "<") maxSummaryErrorBytes = repeat_byte n "<") as ->.
  { unfold truncateUTF8, truncate. rewrite length_repeat_byte. by rewrite (proj2 (Nat.leb_le n maxSummaryErrorBytes)) by (unfold maxSummaryErrorBytes; lia). }
  assert (Hlong : ∀ m b, Marshal (xr_Phase r) (repeat_byte n "<") m (xr_TestCounts r) (xr_Content r) = Some b →
    (maxTerminationMessageBytes < String.length b)%nat).
  { intros m b Hb. apply Marshal_message_length in Hb; [|lia]. unfold maxTerminationMessageBytes. lia. }
  assert (Hempty : (maxTerminationMessageBytes < String.length (default "" (Marshal (xr_Phase r) (repeat_byte n "<") ∅ (xr_TestCounts r) (xr_Content r))))%nat).
  { destruct (Marshal (xr_Phase r) (repeat_byte n "<") ∅ _ _) as [b|] eqn:Eb; [by eapply Hlong|]. unfold Marshal in Eb.
    by rewrite (bool_decide_eq_true_2 _ (map_Forall_empty _) : finite_metrics ∅ = true) in Eb. }
  destruct (Marshal (xr_Phase r) (repeat_byte n "<") (xr_Metrics r) _ _) as [b|] eqn:Eb; [|done].
  case_match; [done|]. by eapply Hlong.
Qed.

Definition demo_text : FloatText := {| fixed _ _ := "0"; json_float _ := "0" |}.
Lemma summary_exceeds_limit_witness :
  (maxTerminationMessageBytes < String.length (TerminationSummary (H := demo_text) (plain PhaseError (repeat_byte 700 "<") None)))%nat.
Proof.
  apply (summary_exceeds_limit (H := demo_text) (plain PhaseError (repeat_byte 700 "<") None) 700); [|reflexivity].
  split; apply (bool_decide_unpack _); vm_compute; constructor.
Defined.

Example summary_of_counts :
  TerminationSummary (H := demo_text) (mkExecution PhaseFailed "a<b" ∅ (Some (mkTestCounts 3 2 1 0)) (Some (mkContentInfo "main" "")) [] None [] [] "" "" (Some 1%Z))
  = String.concat (String dquote "") ["{"; "phase"; ":"; "failed"; ","; "errorMessage"; ":"; "a\u003cb"; ","; "testCounts"; ":{"; "total"; ":3,"; "passed"; ":2,"; "failed"; ":1,"; "skipped"; ":0},"; "content"; ":{"; "gitRevision"; ":"; "main"; "}}"].
Proof. vm_compute. reflexivity. Qed.

End Termination.
