(* ===== verification/Wrapper.v ===== *)
(** * pkg/executor: the process that runs a test

    [Execute] — read the request, run the tool with retries, take the verdict from
    its exit code, a JUnit report or a JMeter log, collect, and write the result —
    as a program over what it does outside: processes, files, uploads, the clock,
    the log.  A context is only its state when it is asked ([CtxErr]) and which one
    a call is given.  The JTL lookup of cmd/entry is here too. *)
From S2P Require Import Prelude Api GoLib Names Keys Objects Effects Verdicts Termination.

Module Wrapper.
Import Objects Verdicts Termination.

(** ** What the wrapper calls *)

Inductive ctx_err := Live | DeadlineExceeded | Canceled.

(** The run's context, or a fresh one with the scrape's grace period. *)
Inductive Context := RunContext | GraceContext.

(** How [cmd.Run] failed: the tool exited with a code, or did not run. *)
Inductive run_error := ExitError (code : Z) (text : string) | OtherError (text : string).

Record JTLProcessorResult := mkJTL {
  jp_SamplesTotal : Z; jp_SamplesFailed : Z; jp_ErrorRate : spec_float; jp_Threshold : spec_float; jp_Passed : bool }.

Record ScrapeResult := mkScrape {
  sr_Artifacts : list ArtifactRef; sr_TestCounts : option TestCounts; sr_TestCases : list TestCase; sr_ScrapeError : string }.

Inductive Op : Type → Type :=
| ReadRequest : Op (result string ExecutionRequest)
| WithTimeout (d : duration) : Op unit
| CtxErr : Op ctx_err
| Now : Op time
| MkdirAll (path : string) : Op (option string)
| RunProcess (binary : string) (argv : list string) (dir : string) (env : strmap) : Op (option run_error)
| JUnitProcess (workingDir : string) (globs : list string) : Op (result string TestCounts)
| JTLProcess (workingDir : string) (errorRateMax : spec_float) : Op (result string JTLProcessorResult)
| ParseReport (from workingDir path : string) : Op (result string (gmap string spec_float * string))
| Scrape (ctx : Context) (workingDir prefix : string) (paths : list string) : Op (result string ScrapeResult)
| ReadContentInfo (dataDir : string) : Op (option ContentInfo)
| WriteTermination (path text : string) : Op (option string)
| CreateTemp (dir : string) : Op (result string string)
| WriteTemp (name : string) (r : ExecutionResult) : Op (option string)
| SyncTemp (name : string) : Op (option string)
| CloseTemp (name : string) : Op (option string)
| Remove (name : string) : Op (option string)
| Rename (from to_ : string) : Op (option string)
| UploadResult (ctx : Context) (prefix : string) (r : ExecutionResult) : Op (option string)
| Say (line : string) : Op unit
| Log (line : string) : Op unit.

(** Entry: the processors and the scraper that are wired, and its paths. *)
Record Entry := mkEntry {
  en_JUnitProcessor : bool; en_JTLProcessor : bool; en_Scraper : bool;
  en_ResultDir : string; en_WorkingDir : string; en_TerminationMessagePath : string }.

(** The text of a path match and of a float scan. *)
Class WrapperLib := {
  WrapperLib_text :: FloatText;
  (** doublestar.SplitPattern: the part of a pattern before its first glob *)
  SplitPattern : string → string;
  (** fmt.Sscanf with %f *)
  Sscanf_float : string → option spec_float;
  (** the error of encoding a metric that is not a finite number *)
  unsupported_value : gmap string spec_float → string;
}.

Definition CollectMarker : string := "--- kubetest: collecting results ---".
Definition ResultFileName : string := "result.json".
Definition VerdictFromJUnit : string := "junit".
Definition VerdictFromJTL : string := "jtl".

(** The keys of the metrics (pkg/report/names.go). *)
Definition Requests : string := "requests".
Definition Errors : string := "errors".
Definition ErrorRateKey : string := "error_rate".

(** ** The invocation *)

Definition splitInvocation (req : ExecutionRequest) : string * list string :=
  match er_Command req with
  | binary :: rest => (binary, rest ++ er_Args req)
  | [] => match er_Args req with binary :: rest => (binary, rest) | [] => ("", []) end
  end.

Definition workingDir (req : ExecutionRequest) : string :=
  if negb (er_WorkingDir req =? "")%string then er_WorkingDir req
  else if negb (er_DataDir req =? "")%string then er_DataDir req
  else ".".

(** ** Verdicts *)

Definition baseVerdict (runErr : option run_error) : ExecutionResult :=
  match runErr with
  | None => plain PhasePassed "" (Some 0%Z)
  | Some (OtherError text) => plain PhaseError ("exec failed: " +:+ text) None
  | Some (ExitError code _) => plain PhaseFailed ("exit code " +:+ itoa code) (Some code)
  end.

Definition with_metrics (metrics : gmap string spec_float) (counts : option TestCounts) (r : ExecutionResult) : ExecutionResult :=
  mkExecution (xr_Phase r) (xr_ErrorMessage r) metrics counts (xr_Content r) (xr_TestCases r) (xr_ToolFinishedAt r) (xr_Attempts r)
    (xr_Artifacts r) (xr_ScrapeError r) (xr_MetricsError r) (xr_ToolExitCode r).

Definition junit_metrics (tc : TestCounts) : gmap string spec_float :=
  {[ "tests_total" := float_of_int (tc_Total tc);
     "tests_passed" := float_of_int (wrap64 (tc_Total tc - tc_Failed tc - tc_Skipped tc));
     "tests_failed" := float_of_int (tc_Failed tc); "tests_skipped" := float_of_int (tc_Skipped tc) ]}.

(** What the JUnit processor found, as the verdict. *)
Definition junit_verdict (counts : result string TestCounts) (code : option Z) : ExecutionResult :=
  match counts with
  | Err e => plain PhaseError ("verdictFrom=junit: " +:+ e) code
  | Ok tc =>
      with_metrics (junit_metrics tc) (Some tc)
        (if (0 <? tc_Failed tc)%Z then
           plain PhaseFailed ("verdictFrom=junit: " +:+ itoa (tc_Failed tc) +:+ " of " +:+ itoa (tc_Total tc) +:+ " test(s) failed") code
         else plain PhasePassed "" code)
  end.

Section Verdict.
Context `{WrapperLib}.

Definition parseErrorRateMax (s : string) : result string spec_float :=
  if (s =? "")%string then Ok float_zero
  else match Sscanf_float s with
       | None => Err ("errorRateMax " +:+ quote s +:+ " not a valid float")
       | Some f =>
           if float_lt f float_zero || float_lt float_one f then Err ("errorRateMax " +:+ fixed 6 f +:+ " out of range [0,1]")
           else Ok f
       end.

Definition jtl_metrics (res : JTLProcessorResult) : gmap string spec_float :=
  {[ Requests := float_of_int (jp_SamplesTotal res); Errors := float_of_int (jp_SamplesFailed res); ErrorRateKey := jp_ErrorRate res ]}.

Definition jtl_verdict (res : result string JTLProcessorResult) (code : option Z) : ExecutionResult :=
  match res with
  | Err e => plain PhaseError ("verdictFrom=jtl: " +:+ e) code
  | Ok res =>
      with_metrics (jtl_metrics res) None
        (if negb (jp_Passed res) then
           plain PhaseFailed
             ("verdictFrom=jtl: error rate " +:+ fixed 4 (jp_ErrorRate res) +:+ " exceeds threshold " +:+ fixed 4 (jp_Threshold res)
              +:+ " (" +:+ itoa (jp_SamplesFailed res) +:+ "/" +:+ itoa (jp_SamplesTotal res) +:+ " samples failed)") code
         else plain PhasePassed "" code)
  end.
End Verdict.

(** cmd/entry: the JTL files below a working directory, and the verdict of the one
    to read. *)
Record JTLTree := mkJTLTree {
  jt_out : result string bool;  (** os.Stat of out.jtl: there, not there, or another error *)
  jt_walk : list string;  (** the files the walk visits, in order *)
  jt_load : string → result string Aggregate;
}.

Definition ErrJTLNotFound : string := "jtl: file not found".

(** strings.HasSuffix. *)
Definition HasSuffix (s suffix : string) : bool :=
  (String.length suffix <=? String.length s)%nat && (str_drop (String.length s - String.length suffix) s =? suffix)%string.

Definition base_name (p : string) : string := List.last (Split slash p) "".
Definition findJTL (fs : JTLTree) (workingDir : string) : result string string :=
  match jt_out fs with
  | Ok true => Ok (Join workingDir "out.jtl")
  | Err e => Err e
  | Ok false =>
      match List.filter (fun p => HasSuffix (ToLower (base_name p)) ".jtl") (jt_walk fs) with
      | [] => Err ErrJTLNotFound
      | [p] => Ok p
      | matches => Err ("multiple JTL files found under " +:+ workingDir +:+ " ([" +:+ str_join " " matches +:+ "])"
                        +:+ " — set the tool to write exactly one, or -l /data/repo/out.jtl")
      end
  end.

Definition jtlProcessorFromDir (fs : JTLTree) (workingDir : string) (threshold : spec_float) : result string JTLProcessorResult :=
  path ← findJTL fs workingDir;
  agg ← jt_load fs path;
  let rate := ErrorRate agg in
  Ok (mkJTL (ag_SamplesTotal agg) (ag_SamplesFailed agg) rate threshold (float_le rate threshold)).

(** ** Output directories and report globs *)

Definition IsAbsPath (p : string) : bool := HasPrefix p "/".
Definition staticDir `{WrapperLib} (pattern : string) : string :=
  if (pattern =? "")%string || IsAbsPath pattern then ""
  else
    let base := Clean (SplitPattern pattern) in
    if (base =? ".")%string || (base =? "..")%string || HasPrefix base "../" then "" else base.

Definition junitGlobs (req : ExecutionRequest) : list string :=
  List.filter (fun p => HasSuffix (ToLower p) ".xml") (er_ArtifactPaths req).

(** ** Text of the collect log *)

(** time.Duration.Round to a positive unit, of a duration that is not negative. *)
Definition Round (d m : duration) : duration :=
  let r := Z.rem d m in if (r + r <? m)%Z then (d - r)%Z else (d + m - r)%Z.
Definition took (d : duration) : string :=
  if (d <? second)%Z then itoa (Z.quot d millisecond) +:+ "ms" else Duration_String (Round d (100 * millisecond)).

Definition orDefault (s d : string) : string := if (s =? "")%string then d else s.
Definition pluralWord (n : Z) (one : string) : string := if (n =? 1)%Z then one else one +:+ "s".

Definition humanBytes `{WrapperLib} (n : Z) : string :=
  let k := 1000%Z in
  let ratio m := float_div (float_of_int n) (float_of_int m) in
  if (n <? k)%Z then itoa n +:+ " B"
  else if (n <? k * k)%Z then fixed 1 (ratio k) +:+ " kB"
  else if (n <? k * k * k)%Z then fixed 1 (ratio (k * k)%Z) +:+ " MB"
  else fixed 1 (ratio (k * k * k)%Z) +:+ " GB".

(** ** Programs *)

Abbreviation M := (prog Op).
Definition say (line : string) : M unit := perform (Say line).

Definition attemptOf (r : ExecutionResult) : AttemptResult := mkAttempt (xr_Phase r) (xr_ErrorMessage r) (xr_ToolExitCode r).
Definition retryable (r : ExecutionResult) : bool :=
  bool_decide (xr_Phase r = PhaseFailed) || (bool_decide (xr_Phase r = PhaseError) && bool_decide (is_Some (xr_ToolExitCode r))).

Definition set_Attempts (attempts : list AttemptResult) (r : ExecutionResult) : ExecutionResult :=
  mkExecution (xr_Phase r) (xr_ErrorMessage r) (xr_Metrics r) (xr_TestCounts r) (xr_Content r) (xr_TestCases r) (xr_ToolFinishedAt r)
    attempts (xr_Artifacts r) (xr_ScrapeError r) (xr_MetricsError r) (xr_ToolExitCode r).
Definition set_verdict (phase : Phase) (msg : string) (r : ExecutionResult) : ExecutionResult :=
  mkExecution phase msg (xr_Metrics r) (xr_TestCounts r) (xr_Content r) (xr_TestCases r) (xr_ToolFinishedAt r)
    (xr_Attempts r) (xr_Artifacts r) (xr_ScrapeError r) (xr_MetricsError r) (xr_ToolExitCode r).
Definition set_ToolFinishedAt (t : time) (r : ExecutionResult) : ExecutionResult :=
  mkExecution (xr_Phase r) (xr_ErrorMessage r) (xr_Metrics r) (xr_TestCounts r) (xr_Content r) (xr_TestCases r) (Some t)
    (xr_Attempts r) (xr_Artifacts r) (xr_ScrapeError r) (xr_MetricsError r) (xr_ToolExitCode r).
Definition set_MetricsError (msg : string) (r : ExecutionResult) : ExecutionResult :=
  mkExecution (xr_Phase r) (xr_ErrorMessage r) (xr_Metrics r) (xr_TestCounts r) (xr_Content r) (xr_TestCases r) (xr_ToolFinishedAt r)
    (xr_Attempts r) (xr_Artifacts r) (xr_ScrapeError r) msg (xr_ToolExitCode r).
Definition set_ContentInfo (c : option ContentInfo) (r : ExecutionResult) : ExecutionResult :=
  mkExecution (xr_Phase r) (xr_ErrorMessage r) (xr_Metrics r) (xr_TestCounts r) c (xr_TestCases r) (xr_ToolFinishedAt r)
    (xr_Attempts r) (xr_Artifacts r) (xr_ScrapeError r) (xr_MetricsError r) (xr_ToolExitCode r).

Section Run.
Context `{WrapperLib} (e : Entry).

Definition work_dir (req : ExecutionRequest) : string := if (en_WorkingDir e =? "")%string then workingDir req else en_WorkingDir e.

Definition applyJUnitVerdict (wd : string) (globs : list string) (base : ExecutionResult) : M ExecutionResult :=
  if negb (en_JUnitProcessor e) then
    Ret (plain PhaseError "verdictFrom=junit but no JUnit processor wired (wrapper misconfig)" (xr_ToolExitCode base))
  else counts ← perform (JUnitProcess wd globs); Ret (junit_verdict counts (xr_ToolExitCode base)).

Definition applyJTLVerdict (wd errorRateMax : string) (base : ExecutionResult) : M ExecutionResult :=
  if negb (en_JTLProcessor e) then
    Ret (plain PhaseError "verdictFrom=jtl but no JTL processor wired (wrapper misconfig)" (xr_ToolExitCode base))
  else
    match parseErrorRateMax errorRateMax with
    | Err msg => Ret (plain PhaseError ("verdictFrom=jtl: " +:+ msg) (xr_ToolExitCode base))
    | Ok max => res ← perform (JTLProcess wd max); Ret (jtl_verdict res (xr_ToolExitCode base))
    end.

Definition runTool (req : ExecutionRequest) : M ExecutionResult :=
  let '(binary, argv) := splitInvocation req in
  runErr ← perform (RunProcess binary argv (workingDir req) (er_Env req));
  let base := baseVerdict runErr in
  let from := vd_From (er_Verdict req) in
  if (from =? VerdictFromJUnit)%string then applyJUnitVerdict (work_dir req) (junitGlobs req) base
  else if (from =? VerdictFromJTL)%string then applyJTLVerdict (work_dir req) (vd_ErrorRateMax (er_Verdict req)) base
  else Ret base.

Definition retry_line (try total : Z) (r : ExecutionResult) : string :=
  String newline "--- kubetest: try " +:+ itoa try +:+ "/" +:+ itoa total +:+ " " +:+ phase_string (xr_Phase r) +:+ " ("
  +:+ xr_ErrorMessage r +:+ "), retrying ---" +:+ String newline "".

(** The tries after the first, at most [remaining] of them. *)
Fixpoint retry_loop (req : ExecutionRequest) (total : Z) (remaining : nat) (try : Z) (attempts : list AttemptResult) (result : ExecutionResult) :
    M (ExecutionResult * list AttemptResult) :=
  match remaining with
  | O => Ret (result, attempts)
  | S remaining =>
      if negb (retryable result) then Ret (result, attempts)
      else
        ctx ← perform CtxErr;
        match ctx with
        | Live =>
            _ ← say (retry_line try total result);
            result' ← runTool req;
            retry_loop req total remaining (try + 1) (attempts ++ [attemptOf result]) result'
        | _ => Ret (result, attempts)
        end
  end.

Definition runWithRetry (req : ExecutionRequest) : M ExecutionResult :=
  result ← runTool req;
  if (er_RetryCount req <=? 0)%Z then Ret result
  else
    '(result, attempts) ← retry_loop req (er_RetryCount req + 1) (Z.to_nat (er_RetryCount req)) 1 [] result;
    Ret (match attempts with [] => result | _ => set_Attempts (attempts ++ [attemptOf result]) result end).

(** *** The collect log *)

Definition sayTool (req : ExecutionRequest) (r : ExecutionResult) (d : duration) : M unit :=
  c1 ← perform CtxErr;
  _ ← match c1 with
      | DeadlineExceeded => say ("Tool stopped: the timeout (" +:+ itoa (er_TimeoutSeconds req) +:+ "s) ran out after " +:+ took d)
      | _ =>
          c2 ← perform CtxErr;
          match c2, xr_ToolExitCode r with
          | Canceled, _ => say ("Tool stopped: the run was aborted after " +:+ took d)
          | _, None => say ("Tool did not start: " +:+ xr_ErrorMessage r)
          | _, Some code => say ("Tool exited with code " +:+ itoa code +:+ " after " +:+ took d)
          end
      end;
  if (1 <? length (xr_Attempts r))%nat then
    say ("Tries: " +:+ itoa (Z.of_nat (length (xr_Attempts r))) +:+ " ("
         +:+ str_join ", " ((fun a => phase_string (ta_Phase a)) <$> xr_Attempts r) +:+ ")")
  else Ret tt.

Definition verdict_from (req : ExecutionRequest) : string :=
  let from := vd_From (er_Verdict req) in
  if (from =? VerdictFromJUnit)%string then "the JUnit report (the exit code doesn't count)"
  else if (from =? VerdictFromJTL)%string then "the JMeter results (error rate at most " +:+ orDefault (vd_ErrorRateMax (er_Verdict req)) "0" +:+ ")"
  else "the exit code".
Definition sayVerdict (req : ExecutionRequest) (r : ExecutionResult) : M unit :=
  say ("Verdict: " +:+ phase_string (xr_Phase r) +:+ ", from " +:+ verdict_from req
       +:+ (if (xr_ErrorMessage r =? "")%string then "" else " — " +:+ xr_ErrorMessage r)).

Definition say_artifact (n : Z) (ia : nat * ArtifactRef) : M unit :=
  say (if (ia.1 =? 10)%nat then "  … and " +:+ itoa (n - 10) +:+ " more"
       else "  " +:+ ar_Path ia.2 +:+ " (" +:+ humanBytes (ar_SizeBytes ia.2) +:+ ")").

Definition sayArtifacts (req : ExecutionRequest) (r : ExecutionResult) : M unit :=
  if negb (en_Scraper e) then say "Artifacts: not kept (no object storage)"
  else
    let n := Z.of_nat (length (xr_Artifacts r)) in
    _ ← match er_ArtifactPaths req, xr_Artifacts r with
        | [], _ => say "Artifacts: none asked for (spec.artifacts.paths is empty)"
        | paths, [] => say ("Artifacts: nothing matched " +:+ str_join ", " paths)
        | paths, arts =>
            let size := foldl (fun s a => wrap64 (s + ar_SizeBytes a)) 0%Z arts in
            _ ← say ("Artifacts: " +:+ itoa n +:+ " " +:+ pluralWord n "file" +:+ " (" +:+ humanBytes size +:+ ") matched "
                     +:+ str_join ", " paths +:+ " — uploaded");
            for_each (take 11 (enumerate arts)) (say_artifact n)
        end;
    _ ← match xr_TestCounts r with
        | Some tc => say ("Tests: " +:+ itoa (tc_Total tc) +:+ " (" +:+ itoa (tc_Passed tc) +:+ " passed, " +:+ itoa (tc_Failed tc)
                          +:+ " failed, " +:+ itoa (tc_Skipped tc) +:+ " skipped)")
        | None => Ret tt
        end;
    _ ← match xr_TestCases r, xr_TestCounts r with
        | _ :: _, Some _ => say ("Test cases: " +:+ itoa (Z.of_nat (length (xr_TestCases r))) +:+ " from JUnit reports, kept in run history")
        | _, _ => Ret tt
        end;
    if (xr_ScrapeError r =? "")%string then Ret tt else say ("Artifacts: " +:+ xr_ScrapeError r).

(** *** Metrics and scrape *)

Definition parseMetrics (req : ExecutionRequest) (r : ExecutionResult) : M ExecutionResult :=
  let from := ms_From (er_Metrics req) in
  let path := ms_Path (er_Metrics req) in
  if (from =? "")%string then Ret r
  else
    res ← perform (ParseReport from (work_dir req) path);
    match res with
    | Err err =>
        let r := set_MetricsError ("metrics (" +:+ from +:+ ", " +:+ path +:+ "): " +:+ err) r in
        _ ← say ("Metrics: " +:+ xr_MetricsError r); Ret r
    | Ok (m, rel) =>
        _ ← say ("Metrics: " +:+ itoa (Z.of_nat (size m)) +:+ " values from " +:+ rel);
        Ret (with_metrics (m ∪ xr_Metrics r) (xr_TestCounts r) r)
    end.

Definition scrape_dir (req : ExecutionRequest) : string :=
  let wd := if (en_WorkingDir e =? "")%string then er_WorkingDir req else en_WorkingDir e in
  if (wd =? "")%string then er_DataDir req else wd.

(** What a scrape adds to a result; it never changes the verdict. *)
Definition merge_scrape (sr : result string ScrapeResult) (r : ExecutionResult) : ExecutionResult :=
  match sr with
  | Err err =>
      mkExecution (xr_Phase r) (xr_ErrorMessage r) (xr_Metrics r) (xr_TestCounts r) (xr_Content r) (xr_TestCases r) (xr_ToolFinishedAt r)
        (xr_Attempts r) (xr_Artifacts r) (orDefault (xr_ScrapeError r) err) (xr_MetricsError r) (xr_ToolExitCode r)
  | Ok sr =>
      mkExecution (xr_Phase r) (xr_ErrorMessage r) (xr_Metrics r)
        (match xr_TestCounts r with Some tc => Some tc | None => sr_TestCounts sr end) (xr_Content r) (sr_TestCases sr)
        (xr_ToolFinishedAt r) (xr_Attempts r) (sr_Artifacts sr) (orDefault (sr_ScrapeError sr) (xr_ScrapeError r)) (xr_MetricsError r)
        (xr_ToolExitCode r)
  end.

Definition runScrape (req : ExecutionRequest) (r : ExecutionResult) : M ExecutionResult :=
  if negb (en_Scraper e) || (scrape_dir req =? "")%string then Ret r
  else
    ctx ← perform CtxErr;
    sr ← perform (Scrape (match ctx with Live => RunContext | _ => GraceContext end) (scrape_dir req) (er_StoragePrefix req) (er_ArtifactPaths req));
    Ret (merge_scrape sr r).

(** *** Writing the result (result.go) *)

Definition WriteResultAtomic (dir : string) (r : ExecutionResult) : M (option string) :=
  if negb (finite_metrics (xr_Metrics r)) then Ret (Some ("marshal result: " +:+ unsupported_value (xr_Metrics r)))
  else
    tmp ← perform (CreateTemp dir);
    match tmp with
    | Err err => Ret (Some ("create temp in " +:+ dir +:+ ": " +:+ err))
    | Ok name =>
        w ← perform (WriteTemp name r);
        match w with
        | Some err => _ ← perform (CloseTemp name); _ ← perform (Remove name); Ret (Some ("write temp: " +:+ err))
        | None =>
            s ← perform (SyncTemp name);
            match s with
            | Some err => _ ← perform (CloseTemp name); _ ← perform (Remove name); Ret (Some ("sync temp: " +:+ err))
            | None =>
                c ← perform (CloseTemp name);
                match c with
                | Some err => _ ← perform (Remove name); Ret (Some ("close temp: " +:+ err))
                | None =>
                    let final := Join dir ResultFileName in
                    m ← perform (Rename name final);
                    match m with
                    | Some err => _ ← perform (Remove name); Ret (Some ("rename to " +:+ final +:+ ": " +:+ err))
                    | None => Ret None
                    end
                end
            end
        end
    end.

Definition writeTermination (r : ExecutionResult) : M unit :=
  if (en_TerminationMessagePath e =? "")%string then Ret tt
  else
    err ← perform (WriteTermination (en_TerminationMessagePath e) (TerminationSummary r));
    match err with Some err => perform (Log ("write termination message: " +:+ err)) | None => Ret tt end.

Definition writeErrorResult (msg : string) : M (option string) :=
  _ ← perform (Log msg);
  let r := plain PhaseError msg None in
  _ ← writeTermination r;
  err ← WriteResultAtomic (en_ResultDir e) r;
  match err with
  | Some err => _ ← perform (Log ("write error result: " +:+ err)); Ret (Some err)
  | None => Ret None
  end.

Definition prepareOutputDirs (req : ExecutionRequest) : M unit :=
  let patterns := er_ArtifactPaths req ++ (if (ms_Path (er_Metrics req) =? "")%string then [] else [ms_Path (er_Metrics req)]) in
  for_each patterns (fun p =>
    let dir := staticDir p in
    if (dir =? "")%string then Ret tt
    else
      err ← perform (MkdirAll (Join (work_dir req) dir));
      match err with Some err => perform (Log ("prepare output dir " +:+ dir +:+ ": " +:+ err)) | None => Ret tt end).

(** The context's end wins over any verdict. *)
Definition reclassify (req : ExecutionRequest) (r : ExecutionResult) : M ExecutionResult :=
  c1 ← perform CtxErr;
  match c1 with
  | DeadlineExceeded =>
      Ret (set_verdict PhaseError
             (if (xr_ErrorMessage r =? "")%string then "timeout: wrapper exceeded TimeoutSeconds=" +:+ itoa (er_TimeoutSeconds req)
              else "timeout: " +:+ xr_ErrorMessage r) r)
  | _ =>
      c2 ← perform CtxErr;
      match c2 with
      | Canceled => Ret (set_verdict PhaseAborted (orDefault (xr_ErrorMessage r) "aborted by signal") r)
      | _ => Ret r
      end
  end.

(** The last try's final verdict. *)
Definition close_attempts (r : ExecutionResult) : ExecutionResult :=
  match xr_Attempts r with [] => r | attempts => set_Attempts (removelast attempts ++ [attemptOf r]) r end.

Definition upload (req : ExecutionRequest) (r : ExecutionResult) : M unit :=
  if negb (en_Scraper e) || (er_StoragePrefix req =? "")%string then
    say "Result: written for the operator (no object storage: it reads the pod's termination message)"
  else
    err ← perform (UploadResult RunContext (er_StoragePrefix req) r);
    match err with
    | Some err => say ("Result: uploading result.json failed: " +:+ err)
    | None => say ("Result: result.json uploaded (" +:+ phase_string (xr_Phase r) +:+ ")")
    end.

(** What follows the tool. *)
Definition collect (req : ExecutionRequest) (toolEnd : time) (r : ExecutionResult) : M (option string) :=
  r ← parseMetrics req r;
  r ← runScrape req r;
  _ ← sayArtifacts req r;
  info ← (if (er_DataDir req =? "")%string then Ret None else perform (ReadContentInfo (er_DataDir req)));
  let r := set_ContentInfo info r in
  _ ← writeTermination r;
  err ← WriteResultAtomic (en_ResultDir e) r;
  match err with
  | Some err => _ ← perform (Log ("write result: " +:+ err)); Ret (Some err)
  | None =>
      _ ← upload req r;
      now ← perform Now;
      _ ← say ("Collected in " +:+ took (sat64 (now - toolEnd)));
      Ret None
  end.

(** A request that names something to run. *)
Definition run_request (req : ExecutionRequest) : M (option string) :=
  _ ← prepareOutputDirs req;
  toolStart ← perform Now;
  r ← runWithRetry req;
  toolEnd ← perform Now;
  let r := set_ToolFinishedAt toolEnd r in
  _ ← say (String newline CollectMarker);
  _ ← sayTool req r (sat64 (toolEnd - toolStart));
  r ← reclassify req r;
  let r := close_attempts r in
  _ ← sayVerdict req r;
  collect req toolEnd r.

Definition Execute : M (option string) :=
  req ← perform ReadRequest;
  match req with
  | Err err => writeErrorResult ("load request: " +:+ err)
  | Ok req =>
      _ ← (if (0 <? er_TimeoutSeconds req)%Z then perform (WithTimeout (wrap64 (er_TimeoutSeconds req * second))) else Ret tt);
      match er_Command req, er_Args req with
      | [], [] => writeErrorResult "request has no command and no args — nothing to run"
      | _, _ => run_request req
      end
  end.
End Run.

End Wrapper.
