(* ===== verification/WrapperSpec.v ===== *)
(** * What the wrapper promises

    The tries of a run: how many, which follow which, and what the result says of
    them.  The result itself: what every written result satisfies, that
    result.json appears whole or not at all, and that only what is in place is
    uploaded.  And two ways a result is lost: an upload after the context's end,
    and a metric that is not a number. *)
From S2P Require Import Prelude Api GoLib Keys Objects Ops Workers Effects Verdicts Termination Compiler CompilerSpec Wrapper.

Module WrapperSpec.
Import Objects Verdicts Termination Compiler Wrapper.

(** ** Kinds of events *)

(** Everything that neither runs the tool, reads its metrics, nor touches the result
    file or the bucket. *)
Definition calm_op R (o : Op R) : bool :=
  match o with
  | RunProcess _ _ _ _ | ParseReport _ _ _ | CreateTemp _ | WriteTemp _ _ | SyncTemp _ | CloseTemp _ | Remove _ | Rename _ _
  | UploadResult _ _ _ => false
  | _ => true
  end.
Definition running_op R (o : Op R) : bool := calm_op R o || match o with RunProcess _ _ _ _ => true | _ => false end.
Definition reading_op R (o : Op R) : bool := calm_op R o || match o with ParseReport _ _ _ => true | _ => false end.
Definition writing_op R (o : Op R) : bool :=
  match o with CreateTemp _ | WriteTemp _ _ | SyncTemp _ | CloseTemp _ | Remove _ | Rename _ _ => true | _ => false end.

(** A program whose operations a monitor ignores, and what its result satisfies. *)
Lemma guards_ignored {A S} (P : ∀ R, Op R → bool) (δ : monitor Op S) s (p : prog Op A) (Q : A → Prop) :
  (∀ R (o : Op R), P R o = true → δ R s o = Some (fun _ => s)) →
  guards (only P) tt p (fun _ _ => True) → (∀ tr a, exec p tr a → Q a) → guards δ s p (fun a s' => Q a ∧ s' = s).
Proof.
  intros HP Hg HQ. apply guards_exec; [done|]. eapply guards_mono; [apply (guards_lift P δ s p (fun _ => True)); done|]. by intros a s' [? _].
Qed.

Lemma only_mono {A} (P P' : ∀ R, Op R → bool) (p : prog Op A) Q :
  (∀ R (o : Op R), P R o = true → P' R o = true) → guards (only P) tt p Q → guards (only P') tt p Q.
Proof.
  intros HP. induction p as [a|R o k IH]; cbn; [done|]. unfold only at 1 3. destruct (P R o) eqn:E; [|done].
  rewrite (HP _ _ E). intros Hk r. by apply IH.
Qed.

Definition is_run (ev : event Op) : bool := match ev with Ev (RunProcess _ _ _ _) _ => true | _ => false end.
Definition ended (tr : list (event Op)) : Prop := ∃ c, c ≠ Live ∧ Ev CtxErr c ∈ tr.

Lemma ended_app_l tr1 tr2 : ended tr1 → ended (tr1 ++ tr2).
Proof. intros (c & ? & ?). exists c. split; [done|]. apply elem_of_app. by left. Qed.
Lemma ended_app_r tr1 tr2 : ended tr2 → ended (tr1 ++ tr2).
Proof. intros (c & ? & ?). exists c. split; [done|]. apply elem_of_app. by right. Qed.

(** ** Verdicts *)

(** A verdict of one try: final, silent when passed, about this try only. *)
Definition verdict (r : ExecutionResult) : Prop :=
  xr_Phase r ∈ [PhasePassed; PhaseFailed; PhaseError] ∧ (xr_Phase r = PhasePassed → xr_ErrorMessage r = "") ∧ xr_Attempts r = [].

Lemma plain_verdict phase msg code :
  phase ∈ [PhaseFailed; PhaseError] ∨ phase = PhasePassed ∧ msg = "" → verdict (plain phase msg code).
Proof. unfold verdict. cbn. intros [Hp|[-> ->]]; [|set_solver].
  split_and!; [|intros ->; by apply elem_of_cons in Hp as [?|[?|?%elem_of_nil]%elem_of_cons]|done].
  right. exact Hp. Qed.

Lemma with_metrics_verdict m c r : verdict r → verdict (with_metrics m c r).
Proof. done. Qed.

Lemma baseVerdict_verdict e : verdict (baseVerdict e).
Proof. destruct e as [[code t|t]|]; apply plain_verdict; set_solver. Qed.
Lemma junit_verdict_verdict counts code : verdict (junit_verdict counts code).
Proof.
  destruct counts as [tc|err]; [|apply plain_verdict; set_solver]. apply with_metrics_verdict.
  destruct (0 <? tc_Failed tc)%Z; apply plain_verdict; set_solver.
Qed.
Lemma jtl_verdict_verdict `{WrapperLib} res code : verdict (jtl_verdict res code).
Proof.
  destruct res as [res|err]; [|apply plain_verdict; set_solver]. apply with_metrics_verdict.
  destruct (negb (jp_Passed res)); apply plain_verdict; set_solver.
Qed.
#[export] Hint Resolve baseVerdict_verdict junit_verdict_verdict jtl_verdict_verdict : core.

Section Tries.
Context `{WrapperLib} (e : Entry).

(** One try runs the tool once, first. *)
Lemma runTool_once req tr r :
  exec (runTool e req) tr r →
  verdict r ∧ ∃ runErr tr', tr = Ev (RunProcess (splitInvocation req).1 (splitInvocation req).2 (workingDir req) (er_Env req)) runErr :: tr' ∧
    countb is_run tr' = 0.
Proof.
  unfold runTool. destruct (splitInvocation req) as [binary argv]. intros (runErr & tr' & -> & Hex)%exec_perform_bind_inv.
  assert (Hv : verdict r ∧ countb is_run tr' = 0).
  { destruct (_ =? _)%string; [|destruct (_ =? _)%string].
    - unfold applyJUnitVerdict in Hex. destruct (negb _).
      + apply exec_ret_inv in Hex as [-> ->]. split; [apply plain_verdict; set_solver|done].
      + repeat exec_step. done.
    - unfold applyJTLVerdict in Hex. destruct (negb _); [|destruct (parseErrorRateMax _)].
      + apply exec_ret_inv in Hex as [-> ->]. split; [apply plain_verdict; set_solver|done].
      + repeat exec_step. done.
      + apply exec_ret_inv in Hex as [-> ->]. split; [apply plain_verdict; set_solver|done].
    - apply exec_ret_inv in Hex as [-> ->]. done. }
  destruct Hv. split; [done|]. by eexists _, _.
Qed.

Lemma retry_loop_course req total remaining : ∀ try attempts result tr r atts,
  verdict result → exec (retry_loop e req total remaining try attempts result) tr (r, atts) →
  ∃ failed, head (failed ++ [r]) = Some result ∧ atts = attempts ++ (attemptOf <$> failed) ∧ length failed <= remaining ∧
    Forall (fun t => retryable t = true) failed ∧ Forall verdict (failed ++ [r]) ∧ countb is_run tr = length failed ∧
    (length failed = remaining ∨ retryable r = false ∨ ended tr).
Proof.
  induction remaining as [|remaining IH]; intros try attempts result tr r atts Hv; cbn [retry_loop].
  { intros [-> [= <- <-]]%exec_ret_inv. exists []. rewrite app_nil_r. split_and!; [done|done|cbn; lia|done|by apply Forall_singleton|done|by left]. }
  assert (Hstop : ∀ tr', tr' = tr → (retryable result = false ∨ ended tr) → countb is_run tr = 0 → (r, atts) = (result, attempts) →
    ∃ failed, head (failed ++ [r]) = Some result ∧ atts = attempts ++ (attemptOf <$> failed) ∧ length failed <= S remaining ∧
      Forall (fun t => retryable t = true) failed ∧ Forall verdict (failed ++ [r]) ∧ countb is_run tr = length failed ∧
      (length failed = S remaining ∨ retryable r = false ∨ ended tr)).
  { intros _ _ Hend Hc [= -> ->]. exists []. rewrite app_nil_r.
    split_and!; [done|done|cbn; lia|done|by apply Forall_singleton|done|by right]. }
  destruct (retryable result) eqn:Er; cbn [negb].
  2: { intros [-> Eq]%exec_ret_inv. by eapply Hstop; [reflexivity|left| |]. }
  intros ([] & tr' & -> & Hex)%exec_perform_bind_inv.
  2,3: apply exec_ret_inv in Hex as [-> Eq]; eapply Hstop; [reflexivity|right; eexists; split; [|left]; done|done|done].
  apply exec_perform_bind_inv in Hex as ([] & tr'' & -> & Hex).
  apply exec_bind_inv in Hex as (tr1 & tr2 & result' & -> & Ht & Hex).
  apply runTool_once in Ht as (Hv' & runErr & tr1' & -> & Hone).
  apply IH in Hex as (failed & Hh & -> & Hlen & Hall & Hvs & Hc & Hend); [|done].
  exists (result :: failed). cbn [app fmap list_fmap length]. split_and!; try done.
  - by rewrite <- app_assoc.
  - lia.
  - by constructor.
  - by constructor.
  - rewrite !countb_cons, countb_app, Hone, Hc. done.
  - destruct Hend as [->|[?|Hend]]; [by left|by right; left|]. right. right.
    apply (ended_app_r [_; _]), (ended_app_r (_ :: _)), Hend.
Qed.

(** C25: The tries of a run, in every execution: the tool runs once per try, at least
    once and at most [retry.count] times again; every try but the last was not
    passed though the tool ran; the tries end when none is left, when the last one
    needs no retry, or when the context has ended; the verdict is the last try's,
    and the result lists all tries exactly when there were several. *)
Theorem runWithRetry_course req tr r :
  exec (runWithRetry e req) tr r →
  ∃ failed last, let tries := failed ++ [last] in
    countb is_run tr = length tries ∧ length tries <= S (Z.to_nat (er_RetryCount req)) ∧
    Forall (fun t => retryable t = true) failed ∧ Forall verdict tries ∧
    (length tries = S (Z.to_nat (er_RetryCount req)) ∨ retryable last = false ∨ ended tr) ∧
    r = match failed with [] => last | _ => set_Attempts (attemptOf <$> tries) last end.
Proof.
  unfold runWithRetry. intros (tr1 & tr2 & first & -> & Ht & Hex)%exec_bind_inv.
  apply runTool_once in Ht as (Hv & runErr & tr1' & -> & Hone).
  destruct (Z.leb_spec (er_RetryCount req) 0) as [Hle|Hgt].
  - apply exec_ret_inv in Hex as [-> ->]. exists [], first. cbn [app length]. rewrite app_nil_r, countb_cons, Hone.
    split_and!; [done|lia|done|by apply Forall_singleton|left; lia|done].
  - apply exec_bind_inv in Hex as (tr2' & tr3 & [last atts] & -> & Hl & [-> ->]%exec_ret_inv).
    apply retry_loop_course in Hl as (failed & Hh & Ha & Hlen & Hall & Hvs & Hc & Hend); [|done].
    exists failed, last. cbn zeta. rewrite length_app. cbn [length]. rewrite app_nil_r, countb_app, countb_cons, Hone, Hc.
    split_and!; [cbn; lia|lia|done|done| |].
    + destruct Hend as [->|[?|Hend]]; [left; lia|by right; left|]. right. right. by apply ended_app_r.
    + cbn [app] in Ha. subst atts. rewrite fmap_app. by destruct failed.
Qed.
End Tries.

Definition demo_lib : WrapperLib :=
  {| WrapperLib_text := demo_text; SplitPattern p := p; Sscanf_float _ := None; unsupported_value _ := "json: unsupported value: NaN" |}.
Definition demo_entry : Entry := mkEntry true true true "/etc/kubetest/result" "" "/dev/termination-log".
Definition demo_request : ExecutionRequest :=
  mkRequest "smoke-1" "runs/ns/u1/" "smoke" "/data" "/data/repo" ["k6"] ["run"; "load.js"] ∅ ∅ ["results/*.json"] "" 1800
    (mkVerdict "" "") (mkMetrics "" "") 2.

(** A tool that fails until its context, asked a number of times, has ended. *)
Definition flaky (R : Type) (o : Op R) (asked : nat) : R * nat :=
  match o in Op R return R * nat with
  | ReadRequest => (Ok demo_request, asked)
  | CtxErr => (if (asked <? 1)%nat then Live else Canceled, S asked)
  | RunProcess _ _ _ _ => (Some (ExitError 99 "exit status 99"), asked)
  | Now => (0%Z, asked)
  | JUnitProcess _ _ => (Err "none", asked)
  | JTLProcess _ _ => (Err "none", asked)
  | ParseReport _ _ _ => (Err "none", asked)
  | Scrape _ _ _ _ => (Ok (mkScrape [] None [] ""), asked)
  | ReadContentInfo _ => (None, asked)
  | CreateTemp _ => (Ok ".result.json.1", asked)
  | UploadResult _ _ _ => (if (asked <? 1)%nat then None else Some "context canceled", asked)
  | WithTimeout _ | Say _ | Log _ => (tt, asked)
  | MkdirAll _ | WriteTermination _ _ | WriteTemp _ _ | SyncTemp _ | CloseTemp _ | Remove _ | Rename _ _ => (None, asked)
  end.
Definition demo_tries : ExecutionResult * nat * list (event Op) :=
  run flaky (runWithRetry (H := demo_lib) demo_entry demo_request) 0.

Lemma runWithRetry_course_witness : xr_Phase demo_tries.1.1 = PhaseFailed ∧ ∃ (failed : list ExecutionResult) (last : ExecutionResult), countb is_run demo_tries.2 = length (failed ++ [last]).
Proof.
  split; [vm_compute; reflexivity|].
  destruct (runWithRetry_course (H := demo_lib) demo_entry demo_request demo_tries.2 demo_tries.1.1 (run_exec flaky _ 0))
    as (failed & last & Hc & _). exists failed, last. exact Hc.
Defined.

(** ** The result that is written *)

(** A final phase; no message when passed; the last try is the verdict. *)
Definition honest (r : ExecutionResult) : bool :=
  bool_decide (xr_Phase r ∈ [PhasePassed; PhaseFailed; PhaseError; PhaseAborted])
  && (negb (bool_decide (xr_Phase r = PhasePassed)) || str_is_empty (xr_ErrorMessage r))
  && match xr_Attempts r with [] => true | atts => bool_decide (last atts = Some (attemptOf r)) end.

(** Where a result file is: [Filled] has its content, [Closed] is safe on disk; the
    removal of one that is [Left] failed. *)
Inductive file := NoFile | Created (name : string) | Filled (name : string) (r : ExecutionResult)
  | Synced (name : string) (r : ExecutionResult) | Closed (name : string) (r : ExecutionResult) | Left (name : string).

(** The writing of a result: a temporary file in the result directory receives an
    honest result, is synced and closed, and only then renamed to result.json; no
    temporary file is opened twice; what is uploaded is what is in place. *)
Definition writing (dir : string) : monitor Op (file * option ExecutionResult) := fun R s o =>
  let '(f, placed) := s in
  match o in Op R return option (R → file * option ExecutionResult) with
  | CreateTemp d =>
      match f with
      | NoFile => if (d =? dir)%string then Some (fun r => match r with Ok n => (Created n, placed) | Err _ => s end) else None
      | _ => None
      end
  | WriteTemp n r =>
      match f with
      | Created n' => if (n =? n')%string && honest r then Some (fun e => match e with None => (Filled n r, placed) | Some _ => s end) else None
      | _ => None
      end
  | SyncTemp n =>
      match f with
      | Filled n' r => if (n =? n')%string then Some (fun e => match e with None => (Synced n r, placed) | Some _ => s end) else None
      | _ => None
      end
  | CloseTemp n =>
      match f with
      | Synced n' r => if (n =? n')%string then Some (fun e => match e with None => (Closed n r, placed) | Some _ => s end) else None
      | Created n' | Filled n' _ => if (n =? n')%string then Some (fun _ => s) else None
      | _ => None
      end
  | Remove n =>
      match f with
      | Created n' | Filled n' _ | Synced n' _ | Closed n' _ => if (n =? n')%string then Some (fun e => match e with None => (NoFile, placed) | Some _ => (Left n, placed) end) else None
      | NoFile | Left _ => None
      end
  | Rename n d =>
      match f with
      | Closed n' r => if (n =? n')%string && (d =? Join dir ResultFileName)%string
                       then Some (fun e => match e with None => (NoFile, Some r) | Some _ => s end) else None
      | _ => None
      end
  | UploadResult _ _ r => match placed with Some r' => if decide (r = r') then Some (fun _ => s) else None | None => None end
  | _ => Some (fun _ => s)
  end.

(** No temporary file, or one whose removal failed. *)
Definition settled_file (f : file) : Prop := f = NoFile ∨ ∃ n, f = Left n.

Lemma left_means dir tr : ∀ s n placed, watch (writing dir) s tr = Some (Left n, placed) → s.1 = Left n ∨ ∃ err, Ev (Remove n) (Some err) ∈ tr.
Proof.
  induction tr as [|[R o r] tr IH]; intros [f p] n placed; cbn [watch]; [intros [= -> _]; by left|].
  destruct (writing dir R (f, p) o) as [g|] eqn:Eg; [|done]. intros Hw. apply IH in Hw as [Hg|[err Herr]]; [|right; exists err; by right].
  destruct o; cbn in Eg; try (injection Eg as <-; cbn in Hg; by left).
  all: repeat case_match; simplify_eq; cbn in Hg |- *; repeat case_match; cbn in Hg; simplify_eq; try (by left); right; eexists; left.
Qed.

Section Written.
Context `{WrapperLib} (e : Entry).

Lemma running_accepted dir s R (o : Op R) : running_op R o = true → writing dir R s o = Some (fun _ => s).
Proof. destruct s as [f placed], o; cbn; done. Qed.
Lemma calm_running R (o : Op R) : calm_op R o = true → running_op R o = true.
Proof. unfold running_op. by intros ->. Qed.
Lemma calm_accepted dir s R (o : Op R) : calm_op R o = true → writing dir R s o = Some (fun _ => s).
Proof. intros Hc. by apply running_accepted, calm_running. Qed.
Lemma reading_accepted dir s R (o : Op R) : reading_op R o = true → writing dir R s o = Some (fun _ => s).
Proof. destruct s as [f placed], o; cbn; done. Qed.

(** The verdict part of a result, which collecting never changes. *)
Definition same_verdict (r r' : ExecutionResult) : Prop :=
  xr_Phase r' = xr_Phase r ∧ xr_ErrorMessage r' = xr_ErrorMessage r ∧ xr_Attempts r' = xr_Attempts r ∧ xr_ToolExitCode r' = xr_ToolExitCode r.
Lemma same_verdict_honest r r' : same_verdict r r' → honest r' = honest r.
Proof. intros (E1 & E2 & E3 & E4). unfold honest, attemptOf. by rewrite E1, E2, E3, E4. Qed.

Lemma merge_scrape_verdict sr r : same_verdict r (merge_scrape sr r).
Proof. by destruct sr. Qed.

Lemma parseMetrics_verdict req r tr r' : exec (parseMetrics e req r) tr r' → same_verdict r r'.
Proof.
  unfold parseMetrics. destruct (_ =? _)%string; [by intros [-> ->]%exec_ret_inv|].
  intros ([[m rel]|err] & tr' & -> & Hex)%exec_perform_bind_inv; cbn zeta in Hex; unfold say in Hex; repeat exec_step; done.
Qed.

Lemma runScrape_verdict req r tr r' : exec (runScrape e req r) tr r' → same_verdict r r'.
Proof.
  unfold runScrape. destruct (_ || _); [by intros [-> ->]%exec_ret_inv|].
  intros (c & tr1 & -> & (sr & tr2 & -> & [-> ->]%exec_ret_inv)%exec_perform_bind_inv)%exec_perform_bind_inv.
  apply merge_scrape_verdict.
Qed.

(** A verdict that may still be overruled. *)
Definition settled (r : ExecutionResult) : Prop :=
  xr_Phase r ∈ [PhasePassed; PhaseFailed; PhaseError; PhaseAborted] ∧ (xr_Phase r = PhasePassed → xr_ErrorMessage r = "").

Lemma close_attempts_honest r : settled r → honest (close_attempts r) = true.
Proof.
  intros [Hp Hm]. unfold honest, close_attempts.
  assert (Hpm : ∀ r', xr_Phase r' = xr_Phase r → xr_ErrorMessage r' = xr_ErrorMessage r →
    bool_decide (xr_Phase r' ∈ [PhasePassed; PhaseFailed; PhaseError; PhaseAborted])
    && (negb (bool_decide (xr_Phase r' = PhasePassed)) || str_is_empty (xr_ErrorMessage r')) = true).
  { intros r' -> ->. rewrite bool_decide_eq_true_2 by done. destruct (bool_decide_reflect (xr_Phase r = PhasePassed)) as [E|E]; [|done].
    by rewrite Hm. }
  destruct (xr_Attempts r) as [|a atts] eqn:Ea; [by rewrite Hpm, Ea|].
  rewrite Hpm by done. cbn [set_Attempts xr_Attempts andb].
  destruct (removelast (a :: atts) ++ [attemptOf r]) as [|x xs] eqn:El; [done|]. rewrite <- El, last_snoc.
  by rewrite bool_decide_eq_true_2.
Qed.

Lemma runWithRetry_settled req tr r : exec (runWithRetry e req) tr r → settled r.
Proof.
  intros Hex. unfold runWithRetry in Hex. apply exec_bind_inv in Hex as (tr1 & tr2 & first & -> & Ht & Hex).
  apply runTool_once in Ht as [Hv _].
  assert (Hset : ∀ t atts, verdict t → settled t ∧ settled (set_Attempts atts t)).
  { intros t atts (Hp & Hm & _). unfold settled. cbn. rewrite !elem_of_cons in *. intuition. }
  destruct (_ <=? _)%Z; [apply exec_ret_inv in Hex as [-> ->]; exact (proj1 (Hset first [] Hv))|].
  apply exec_bind_inv in Hex as (tr3 & tr4 & [last atts] & -> & Hl & [-> ->]%exec_ret_inv).
  apply retry_loop_course in Hl as (failed & _ & _ & _ & _ & Hvs & _); [|done].
  apply Forall_app in Hvs as [_ [Hl _]%Forall_cons]. destruct atts; [exact (proj1 (Hset last [] Hl))|exact (proj2 (Hset last _ Hl))].
Qed.

Lemma reclassify_settled req r tr r' : settled r → exec (reclassify req r) tr r' → settled r'.
Proof.
  intros Hs. unfold reclassify. intros (c1 & tr1 & -> & Hex)%exec_perform_bind_inv.
  assert (Hover : ∀ phase msg, phase = PhaseError ∨ phase = PhaseAborted → settled (set_verdict phase msg r)).
  { intros phase msg [->| ->]; split; cbn; try done; set_solver. }
  destruct c1; [|apply exec_ret_inv in Hex as [-> ->]; by apply Hover; left|].
  all: apply exec_perform_bind_inv in Hex as (c2 & tr2 & -> & Hex); destruct c2; apply exec_ret_inv in Hex as [-> ->]; auto.
Qed.

(** Writing a result: in place when it succeeds, and no file left behind. *)
Lemma WriteResultAtomic_guarded dir r placed :
  honest r = true →
  guards (writing dir) (NoFile, placed) (WriteResultAtomic dir r)
    (fun out s => match out with None => s = (NoFile, Some r) | Some _ => settled_file s.1 ∧ s.2 = placed end).
Proof.
  intros Hr. unfold WriteResultAtomic. destruct (negb _); [by split; [left|]|].
  assert (Hrem : ∀ name f (out : option string), match f with Created n | Filled n _ | Synced n _ | Closed n _ => n = name | _ => False end → out ≠ None →
    guards (writing dir) (f, placed) (_ ← perform (Remove name); Ret out)
      (fun out s => match out with None => s = (NoFile, Some r) | Some _ => settled_file s.1 ∧ s.2 = placed end)).
  { intros name f out Hf Ho. destruct out as [err|]; [|done].
    eapply guards_perform_bind; [destruct f; cbn; try done; subst; by rewrite String.eqb_refl|].
    intros [e'|]; cbn; (split; [|done]); [right; by exists name|by left]. }
  eapply guards_perform_bind; [cbn; by rewrite String.eqb_refl|]. intros [name|err]; [|by split; [left|]].
  eapply guards_perform_bind; [cbn; by rewrite String.eqb_refl, Hr|]. intros [err|].
  { eapply guards_perform_bind; [cbn; by rewrite String.eqb_refl|intros ?]. by apply Hrem. }
  eapply guards_perform_bind; [cbn; by rewrite String.eqb_refl|]. intros [err|].
  { eapply guards_perform_bind; [cbn; by rewrite String.eqb_refl|intros ?]. by apply Hrem. }
  eapply guards_perform_bind; [cbn; by rewrite String.eqb_refl|]. intros [err|]; [by apply Hrem|].
  cbn zeta. eapply guards_perform_bind; [cbn; by rewrite !String.eqb_refl|]. intros [err|]; [|done].
  by apply Hrem.
Qed.

(** *** What leaves the files alone *)

Lemma runTool_running req : guards (only running_op) tt (runTool e req) (fun _ _ => True).
Proof.
  unfold runTool. destruct (splitInvocation req). gstep. unfold applyJUnitVerdict, applyJTLVerdict. repeat (gstep; try done).
Qed.
Lemma retry_loop_running req total remaining : ∀ try attempts r,
  guards (only running_op) tt (retry_loop e req total remaining try attempts r) (fun _ _ => True).
Proof.
  induction remaining as [|n IH]; intros try attempts r; cbn [retry_loop]; [done|]. destruct (negb _); [done|].
  gstep. gstep; [|done..]. unfold say. gstep. eapply guards_seq; [apply runTool_running|]. intros r' [] _. apply IH.
Qed.
Lemma runWithRetry_running req : guards (only running_op) tt (runWithRetry e req) (fun _ _ => True).
Proof.
  unfold runWithRetry. eapply guards_seq; [apply runTool_running|]. intros r [] _. gstep; [done|].
  eapply guards_seq; [apply retry_loop_running|]. by intros [? ?] [] _.
Qed.
Lemma prepareOutputDirs_calm req : guards (only calm_op) tt (prepareOutputDirs e req) (fun _ _ => True).
Proof. unfold prepareOutputDirs. gstep; [|done]. cbn zeta. repeat (gstep; try done). all: by destruct s. Qed.
Lemma writeTermination_calm r : guards (only calm_op) tt (writeTermination e r) (fun _ _ => True).
Proof. unfold writeTermination. repeat (gstep; try done). Qed.
Lemma sayTool_calm req r d : guards (only calm_op) tt (sayTool req r d) (fun _ _ => True).
Proof. unfold sayTool, say. gstep. apply guards_bind. repeat (gstep; try done). Qed.
Lemma reclassify_calm req r : guards (only calm_op) tt (reclassify req r) (fun _ _ => True).
Proof. unfold reclassify. repeat (gstep; try done). Qed.
Lemma parseMetrics_reading req r : guards (only reading_op) tt (parseMetrics e req r) (fun _ _ => True).
Proof. unfold parseMetrics, say. repeat (gstep; try done). Qed.
Lemma runScrape_calm req r : guards (only calm_op) tt (runScrape e req r) (fun _ _ => True).
Proof. unfold runScrape. repeat (gstep; try done). Qed.
Lemma sayArtifacts_calm req r : guards (only calm_op) tt (sayArtifacts e req r) (fun _ _ => True).
Proof.
  unfold sayArtifacts, say. gstep; [done|]. cbn zeta. apply guards_bind.
  assert (Hrest : ∀ s : unit, guards (only calm_op) s (_ ← match xr_TestCounts r with
      | Some tc => perform (Say ("Tests: " +:+ itoa (tc_Total tc) +:+ " (" +:+ itoa (tc_Passed tc) +:+ " passed, " +:+ itoa (tc_Failed tc)
                          +:+ " failed, " +:+ itoa (tc_Skipped tc) +:+ " skipped)"))
      | None => Ret tt end;
      _ ← match xr_TestCases r, xr_TestCounts r with
        | _ :: _, Some _ => perform (Say ("Test cases: " +:+ itoa (Z.of_nat (length (xr_TestCases r))) +:+ " from JUnit reports, kept in run history"))
        | _, _ => Ret tt end;
      if (xr_ScrapeError r =? "")%string then Ret tt else perform (Say ("Artifacts: " +:+ xr_ScrapeError r))) (fun _ _ => True)).
  { intros s. repeat (gstep; try done). }
  destruct (er_ArtifactPaths req); [|destruct (xr_Artifacts r)].
  - gstep. apply Hrest.
  - gstep. apply Hrest.
  - gstep. eapply guards_mono; [apply (guards_for_each _ (fun _ => True)); [done|]|].
    + intros x s0 _ _. unfold say_artifact, say. by gstep.
    + intros _ s' _. apply Hrest.
Qed.
(** *** The whole run *)

Definition in_place (out : option string) (s : file * option ExecutionResult) : Prop :=
  settled_file s.1 ∧ (out = None → s.1 = NoFile ∧ is_Some s.2).

Lemma upload_guarded dir req r :
  guards (writing dir) (NoFile, Some r) (upload e req r) (fun _ s => s = (NoFile, Some r)).
Proof.
  unfold upload, say. destruct (_ || _); [by eapply guards_perform; [done|]|].
  eapply guards_perform_bind; [cbn; by rewrite decide_True|]. intros [err|]; by eapply guards_perform; [done|].
Qed.

Lemma writeErrorResult_guarded msg :
  guards (writing (en_ResultDir e)) (NoFile, None) (writeErrorResult e msg) in_place.
Proof.
  unfold writeErrorResult. eapply guards_perform_bind; [done|]. intros []. cbn zeta.
  eapply guards_seq; [apply (guards_ignored calm_op _ _ _ (fun _ => True)); [apply calm_accepted|apply writeTermination_calm|done]|]. intros [] s [_ ->].
  eapply guards_seq; [by apply WriteResultAtomic_guarded|]. intros [err|] s Hs; [|subst s; by split; [left|split; [|eexists]]].
  destruct s as [f placed], Hs as [Hs _]. by eapply guards_perform_bind; [done|].
Qed.

Lemma collect_guarded req toolEnd r :
  honest r = true → guards (writing (en_ResultDir e)) (NoFile, None) (collect e req toolEnd r) in_place.
Proof.
  intros Hr. unfold collect.
  eapply guards_seq; [apply (guards_ignored reading_op _ _ _ (same_verdict r)); [apply reading_accepted|apply parseMetrics_reading|apply parseMetrics_verdict]|].
  intros r1 s [Hv1 ->]. rewrite <- (same_verdict_honest _ _ Hv1) in Hr.
  eapply guards_seq; [apply (guards_ignored calm_op _ _ _ (same_verdict r1)); [apply calm_accepted|apply runScrape_calm|apply runScrape_verdict]|].
  intros r2 s [Hv2 ->]. rewrite <- (same_verdict_honest _ _ Hv2) in Hr.
  eapply guards_seq; [apply (guards_ignored calm_op _ _ _ (fun _ => True)); [apply calm_accepted|apply sayArtifacts_calm|done]|]. intros [] s [_ ->].
  eapply guards_seq; [apply (guards_ignored calm_op _ _ _ (fun _ => True)); [apply calm_accepted|repeat (gstep; try done)|done]|]. intros info s [_ ->]. cbn zeta.
  eapply guards_seq; [apply (guards_ignored calm_op _ _ _ (fun _ => True)); [apply calm_accepted|apply writeTermination_calm|done]|]. intros [] s [_ ->].
  eapply guards_seq; [by apply WriteResultAtomic_guarded|]. intros [err|] s Hs.
  { destruct s as [f placed], Hs as [Hs _]. by eapply guards_perform_bind; [done|]. }
  subst s.
  eapply guards_seq; [apply upload_guarded|]. intros [] s ->. unfold say.
  eapply guards_perform_bind; [done|]. intros now. eapply guards_perform_bind; [done|]. intros []. by split; [left|split; [|eexists]].
Qed.

(** C26: How a result is written, whatever fails: every written result has a final phase,
    no message when it passed, and the last try's verdict as its own; result.json
    in the result directory is only ever replaced by a complete, synced and closed
    file; no temporary file stays behind, unless it was to be removed and that failed;
    what is uploaded is what is in place; and when the wrapper reports success a result
    is in place and no temporary file is left. *)
Theorem result_written_whole tr out :
  exec (Execute e) tr out →
  ∃ f placed, watch (writing (en_ResultDir e)) (NoFile, None) tr = Some (f, placed) ∧
    (f = NoFile ∨ ∃ n err, f = Left n ∧ Ev (Remove n) (Some err) ∈ tr) ∧
    (out = None → f = NoFile ∧ is_Some placed).
Proof.
  intros Hex. assert (Hg : guards (writing (en_ResultDir e)) (NoFile, None) (Execute e) in_place).
  2: { destruct (guards_sound _ _ _ _ _ _ Hg Hex) as ([f placed] & Hw & [Hf Ho]). cbn in Hf, Ho. exists f, placed. split_and!; [done| |done].
       destruct Hf as [->|[n ->]]; [by left|right]. exists n. apply left_means in Hw as [[=]|[err Herr]]. by exists err. }
  unfold Execute. eapply guards_perform_bind; [done|]. intros [req|err]; [|apply writeErrorResult_guarded].
  eapply guards_seq; [apply (guards_ignored calm_op _ _ _ (fun _ => True)); [apply calm_accepted|repeat (gstep; try done)|done]|]. intros [] s [_ ->].
  assert (Hrun : guards (writing (en_ResultDir e)) (NoFile, None) (run_request e req) in_place).
  2: { destruct (er_Command req), (er_Args req); try exact Hrun. apply writeErrorResult_guarded. }
  unfold run_request. eapply guards_seq; [apply (guards_ignored calm_op _ _ _ (fun _ => True)); [apply calm_accepted|apply prepareOutputDirs_calm|done]|]. intros [] s [_ ->].
  eapply guards_perform_bind; [done|]. intros toolStart.
  eapply guards_seq; [apply (guards_ignored running_op _ _ _ settled); [apply running_accepted|apply runWithRetry_running|apply runWithRetry_settled]|]. intros r s [Hs ->].
  eapply guards_perform_bind; [done|]. intros toolEnd. cbn zeta. unfold say.
  eapply guards_perform_bind; [done|]. intros [].
  eapply guards_seq; [apply (guards_ignored calm_op _ _ _ (fun _ => True)); [apply calm_accepted|apply sayTool_calm|done]|]. intros [] s [_ ->].
  eapply guards_seq; [apply (guards_ignored calm_op _ _ _ settled); [apply calm_accepted|apply reclassify_calm|intros ? ?; by apply reclassify_settled]|]. intros r' s [Hs' ->].
  unfold sayVerdict, say. eapply guards_perform_bind; [done|]. intros []. by apply collect_guarded, close_attempts_honest.
Qed.
End Written.

(** ** What is run *)

Section Invocation.
Context `{WrapperLib} (e : Entry).

(** The tool as the request names it, at most a number of times. *)
Definition budget (req : ExecutionRequest) : monitor Op nat := fun R s o =>
  match o in Op R return option (R → nat) with
  | RunProcess binary argv dir env =>
      if decide ((binary, argv) = splitInvocation req ∧ dir = workingDir req ∧ env = er_Env req)
      then match s with S n => Some (fun _ => n) | O => None end else None
  | _ => Some (fun _ => s)
  end.

Lemma budget_watch req s tr s' :
  watch (budget req) s tr = Some s' →
  countb is_run tr + s' = s ∧
  ∀ binary argv dir env x, Ev (RunProcess binary argv dir env) x ∈ tr →
    (binary, argv) = splitInvocation req ∧ dir = workingDir req ∧ env = er_Env req.
Proof.
  revert s. induction tr as [|[R o r] tr IH]; intros s; cbn [watch].
  { intros [= ->]. split; [done|]. by intros * ?%elem_of_nil. }
  rewrite countb_cons. destruct o; cbn [budget].
  all: try (intros Hw; apply IH in Hw as [Hc Hin]; split; [done|];
            intros * Hev; apply elem_of_cons in Hev as [Hev|Hev]; [discriminate Hev|by eapply Hin]).
  case_decide as Hd; [|done]. destruct s as [|n]; [done|]. intros Hw. apply IH in Hw as [Hc Hin].
  split; [cbn; lia|]. intros b a d v x Hev. apply elem_of_cons in Hev as [Hev|Hev]; [|by eapply Hin].
  injection Hev as -> -> -> -> _. done.
Qed.

Lemma writing_budget req s R (o : Op R) : (calm_op R o || reading_op R o || writing_op R o) = true → budget req R s o = Some (fun _ => s).
Proof. by destruct o. Qed.

Lemma runTool_budget req n : guards (budget req) (S n) (runTool e req) (fun _ s => s = n).
Proof.
  unfold runTool. destruct (splitInvocation req) as [b a] eqn:Es.
  eapply guards_perform_bind; [cbn; rewrite Es; by rewrite decide_True|]. intros runErr. cbn zeta.
  unfold applyJUnitVerdict, applyJTLVerdict. repeat (gstep; try done).
Qed.

Lemma retry_loop_budget req total remaining : ∀ try attempts r,
  guards (budget req) remaining (retry_loop e req total remaining try attempts r) (fun _ _ => True).
Proof.
  induction remaining as [|n IH]; intros try attempts r; cbn [retry_loop]; [done|]. destruct (negb _); [done|].
  gstep. gstep; [|done..]. unfold say. gstep. eapply guards_seq; [apply runTool_budget|]. intros r' s' ->. apply IH.
Qed.

Lemma runWithRetry_budget req :
  guards (budget req) (S (Z.to_nat (er_RetryCount req))) (runWithRetry e req) (fun _ _ => True).
Proof.
  unfold runWithRetry. eapply guards_seq; [apply runTool_budget|]. intros r s ->. gstep; [done|].
  eapply guards_seq; [apply retry_loop_budget|]. by intros [? ?] s _.
Qed.

Lemma writing_only {A} (p : prog Op A) req s :
  guards (only writing_op) tt p (fun _ _ => True) → guards (budget req) s p (fun _ _ => True).
Proof.
  intros Hp. eapply guards_mono; [apply (guards_ignored writing_op _ _ _ (fun _ => True)); [|exact Hp|done]|done].
  intros R o Ho. apply writing_budget. by rewrite Ho, orb_true_r.
Qed.

Lemma WriteResultAtomic_writing dir r : guards (only writing_op) tt (WriteResultAtomic dir r) (fun _ _ => True).
Proof. unfold WriteResultAtomic. repeat (gstep; try done). Qed.

Lemma calm_budget {A} (p : prog Op A) req s :
  guards (only calm_op) tt p (fun _ _ => True) → guards (budget req) s p (fun _ _ => True).
Proof.
  intros Hp. eapply guards_mono; [apply (guards_ignored calm_op _ _ _ (fun _ => True)); [|exact Hp|done]|done].
  intros R o Ho. apply writing_budget. by rewrite Ho.
Qed.

Lemma writeErrorResult_budget msg req s : guards (budget req) s (writeErrorResult e msg) (fun _ _ => True).
Proof.
  unfold writeErrorResult. gstep. cbn zeta. eapply guards_seq; [apply calm_budget, writeTermination_calm|]. intros [] s1 _.
  eapply guards_seq; [apply writing_only, WriteResultAtomic_writing|]. intros [err|] s2 _; [by gstep|done].
Qed.

Lemma upload_budget req req' r s : guards (budget req) s (upload e req' r) (fun _ _ => True).
Proof. unfold upload, say. repeat (gstep; try done). Qed.

Lemma collect_budget req req' toolEnd r s : guards (budget req) s (collect e req' toolEnd r) (fun _ _ => True).
Proof.
  unfold collect. eapply guards_seq.
  { apply (guards_ignored reading_op _ _ _ (fun _ => True)); [|apply parseMetrics_reading|done].
    intros R o Ho. apply writing_budget. by rewrite Ho, orb_true_r. }
  intros r1 s1 _. eapply guards_seq; [apply calm_budget, runScrape_calm|]. intros r2 s2 _.
  eapply guards_seq; [apply calm_budget, sayArtifacts_calm|]. intros [] s3 _.
  eapply guards_seq; [apply (calm_budget _ req s3); repeat (gstep; try done)|]. intros info s4 _. cbn zeta.
  eapply guards_seq; [apply calm_budget, writeTermination_calm|]. intros [] s5 _.
  eapply guards_seq; [apply writing_only, WriteResultAtomic_writing|]. intros [err|] s6 _; [by gstep|].
  eapply guards_seq; [apply (upload_budget req req')|]. intros [] s7 _. unfold say. gstep. by gstep.
Qed.

(** The request an event read. *)
Definition request_read (ev : event Op) : option (result string ExecutionRequest) :=
  match ev with Ev o r => match o in Op R return R → _ with ReadRequest => Some | _ => fun _ => None end r end.

Lemma Execute_budget tr req out :
  exec (Execute e) (Ev ReadRequest (Ok req) :: tr) out →
  countb is_run tr <= S (Z.to_nat (er_RetryCount req)) ∧
  ∀ binary argv dir env x, Ev (RunProcess binary argv dir env) x ∈ tr →
    (binary, argv) = splitInvocation req ∧ dir = workingDir req ∧ env = er_Env req.
Proof.
  unfold Execute. intros (r & tr2 & Heq & Hex)%exec_perform_bind_inv.
  pose proof (f_equal (head ∘ fmap request_read) Heq) as Hr. apply (f_equal tail) in Heq. cbn in Hr, Heq. injection Hr as <-. subst tr2.
  match type of Hex with exec ?p _ _ => assert (Hg : guards (budget req) (S (Z.to_nat (er_RetryCount req))) p (fun _ _ => True)) end.
  2: { destruct (guards_sound _ _ _ _ _ _ Hg Hex) as (s' & Hw & _). apply budget_watch in Hw as [Hc Hin]. split; [lia|done]. }
  eapply guards_seq; [apply (guards_ignored calm_op _ _ _ (fun _ => True)); [|repeat (gstep; try done)|done]|].
  { intros R o Ho. apply writing_budget. by rewrite Ho. }
  intros [] s [_ ->].
  assert (Hrun : guards (budget req) (S (Z.to_nat (er_RetryCount req))) (run_request e req) (fun _ _ => True)).
  2: { destruct (er_Command req), (er_Args req); try exact Hrun. apply writeErrorResult_budget. }
  unfold run_request. eapply guards_seq; [apply (guards_ignored calm_op _ _ _ (fun _ => True)); [|apply prepareOutputDirs_calm|done]|].
  { intros R o Ho. apply writing_budget. by rewrite Ho. }
  intros [] s [_ ->]. gstep. eapply guards_seq; [apply runWithRetry_budget|]. intros r0 s0 _. gstep. cbn zeta. unfold say. gstep.
  eapply guards_seq; [apply calm_budget, sayTool_calm|]. intros [] s1 _.
  eapply guards_seq; [apply calm_budget, reclassify_calm|]. intros rv s2 _. unfold sayVerdict, say. gstep. apply collect_budget.
Qed.

Lemma splitInvocation_words req :
  (er_Command req ++ er_Args req ≠ [] → (splitInvocation req).1 :: (splitInvocation req).2 = er_Command req ++ er_Args req).
Proof. unfold splitInvocation. by destruct (er_Command req), (er_Args req). Qed.

(** C24: From the resolved Test to the process: given the request the compiler wrote, in
    every execution of the wrapper every process it starts is the Test's command
    followed by its arguments, word for word, in the Test's working directory or
    else the data directory, with the Test's literal environment; and there are at
    most as many as the Test's retries allow. *)
Theorem compiled_command_runs test run keys timeoutSec tr out :
  let c := ts_Container (t_Spec test) in
  let req := buildRequest test run keys timeoutSec in
  cc_Command c ++ cc_Args c ≠ [] →
  exec (Execute e) (Ev ReadRequest (Ok req) :: tr) out →
  countb is_run tr <= S (Z.to_nat (from_option rp_Count 0%Z (ts_Retry (t_Spec test)))) ∧
  ∀ binary argv dir env x, Ev (RunProcess binary argv dir env) x ∈ tr →
    binary :: argv = cc_Command c ++ cc_Args c ∧ dir = orDefault (cc_WorkingDir c) DataDirPath ∧ env = envSliceToMap (cc_Env c).
Proof.
  intros c req Hne Hex. destruct (Execute_budget _ _ _ Hex) as [Hc Hin]. split; [exact Hc|].
  intros binary argv dir env x Hev. destruct (Hin _ _ _ _ _ Hev) as (Hs & -> & ->).
  pose proof (splitInvocation_words req Hne) as Hw. rewrite <- Hs in Hw. split_and!; [exact Hw| |done].
  unfold workingDir, orDefault, req. cbn. by destruct (_ =? _)%string.
Qed.
End Invocation.

(** ** Results that are lost *)

(** The upload gets the run's own context, and the context is not asked again after
    it. *)
Definition uploading : monitor Op bool := fun R uploaded o =>
  match o in Op R return option (R → bool) with
  | CtxErr => if uploaded then None else Some (fun _ => false)
  | UploadResult RunContext _ _ => Some (fun _ => true)
  | UploadResult GraceContext _ _ => None
  | _ => Some (fun _ => uploaded)
  end.

(** What an object store's client does with a context that has ended: the upload
    fails. *)
Definition uploads_need_live_context (tr : list (event Op)) : Prop :=
  ∀ tr1 tr2 prefix r, tr = tr1 ++ Ev (UploadResult RunContext prefix r) None :: tr2 → ¬ ended tr1.

Lemma uploading_watch s tr s' :
  watch uploading s tr = Some s' →
  (s = true → ∀ c, Ev CtxErr c ∉ tr) ∧
  ∀ tr1 ctx prefix r x tr2, tr = tr1 ++ Ev (UploadResult ctx prefix r) x :: tr2 →
    ctx = RunContext ∧ ∀ c, Ev CtxErr c ∉ tr2.
Proof.
  revert s. induction tr as [|[R o y] tr IH]; intros s Hw.
  { split; [intros _ c ?%elem_of_nil; done|]. intros [|??] **; discriminate. }
  cbn [watch] in Hw. destruct (uploading R s o) as [k|] eqn:Ek; [|done]. destruct (IH _ Hw) as [Hq Hu].
  assert (Hk : (s = true → k y = true ∧ ∀ c, Ev o y ≠ Ev CtxErr c) ∧
               ∀ ctx prefix r x, Ev o y = Ev (UploadResult ctx prefix r) x → ctx = RunContext ∧ k y = true).
  { clear -Ek. split.
    - intros ->. destruct o as [| | | | | | | | | | | | | | | | | | [] | |]; try discriminate Ek; injection Ek as <-; by split; [|intros c Heq].
    - intros ctx prefix r x Heq.
      pose proof (f_equal (fun ev => match ev with Ev (UploadResult c _ _) _ => Some c | _ => None end) Heq) as Hc.
      destruct o as [| | | | | | | | | | | | | | | | | | [] | |]; try discriminate Hc; try discriminate Ek.
      injection Ek as <-. injection Hc as <-. by split. }
  destruct Hk as [Hk1 Hk2]. split.
  - intros Hs c [Hev|Hin]%elem_of_cons; destruct (Hk1 Hs) as [Hk Hne]; [by eapply Hne|by eapply Hq].
  - intros [|ev tr1] ctx prefix r x tr2 Heq.
    + pose proof (f_equal (hd (Ev o y)) Heq) as Hev. apply (f_equal tail) in Heq. cbn in Heq, Hev. subst tr2.
      destruct (Hk2 _ _ _ _ Hev) as [Hc Hk]. split; [exact Hc|]. by apply Hq.
    + apply (f_equal tail) in Heq. cbn in Heq. exact (Hu _ _ _ _ _ _ Heq).
Qed.

(** A report with a value that is not finite, and the events that place a result. *)
Definition bad_report (ev : event Op) : bool :=
  match ev with
  | Ev o r => match o in Op R return R → bool with
              | ParseReport _ _ _ => fun r => match r with Ok (m, _) => negb (finite_metrics m) | Err _ => false end
              | _ => fun _ => false
              end r
  end.
Definition places_op R (o : Op R) : bool := match o with Rename _ _ | UploadResult _ _ _ => true | _ => false end.
Definition places (ev : event Op) : bool := match ev with @Ev _ R o _ => places_op R o end.

Inductive taint := Untouched | Tainted | Written.
#[export] Instance taint_eq_dec : EqDecision taint.
Proof. solve_decision. Defined.
Definition tainting : monitor Op taint := fun R s o =>
  if places_op R o then match s with Tainted => None | _ => Some (fun _ => Written) end
  else match o with
       | ParseReport _ _ _ =>
           match s with
           | Written => None
           | _ => Some (fun r => if bad_report (Ev o r) then Tainted else s)
           end
       | _ => Some (fun _ => s)
       end.

Lemma tainting_step s R (o : Op R) (r : R) k :
  tainting R s o = Some k →
  (bad_report (Ev o r) = true → s ≠ Written ∧ k r = Tainted ∧ places (Ev o r) = false) ∧
  (s = Tainted → k r = Tainted ∧ places (Ev o r) = false) ∧ (s = Written → k r = Written ∧ bad_report (Ev o r) = false).
Proof.
  intros Hk. destruct o; cbn [places places_op bad_report] in *; try (injection Hk as <-; done).
  - unfold tainting in Hk. cbn [places_op] in Hk. destruct s; [| |done]; injection Hk as <-; cbn [bad_report].
    + split_and!; [intros ->; done|done|done].
    + split_and!; [intros ->; done|intros _; by destruct (match r with Ok _ => _ | Err _ => _ end)|done].
  - cbn in Hk. destruct s; [|done|]; injection Hk as <-; done.
  - cbn in Hk. destruct s; [|done|]; injection Hk as <-; done.
Qed.

Lemma tainting_watch s tr s' :
  watch tainting s tr = Some s' →
  (s = Tainted ∨ ∃ ev, ev ∈ tr ∧ bad_report ev = true) → s ≠ Written ∧ s' = Tainted ∧ ∀ ev, ev ∈ tr → places ev = false.
Proof.
  revert s. induction tr as [|[R o r] tr IH]; intros s Hw Hbad.
  { injection Hw as <-. destruct Hbad as [->|(ev & ?%elem_of_nil & _)]; [|done]. split_and!; [done..|]. by intros ev ?%elem_of_nil. }
  cbn [watch] in Hw. destruct (tainting R s o) as [k|] eqn:Ek; [|done]. destruct (tainting_step s R o r k Ek) as (Hb & Ht & Hwr).
  assert (Hhere : (s = Tainted ∨ bad_report (Ev o r) = true) → s ≠ Written ∧ s' = Tainted ∧ ∀ ev, ev ∈ Ev o r :: tr → places ev = false).
  { intros Hhere. assert (s ≠ Written ∧ k r = Tainted ∧ places (Ev o r) = false) as (? & Hk & Hp)
      by (destruct Hhere as [->|Hh]; [destruct (Ht eq_refl); done|by apply Hb]).
    destruct (IH _ Hw (or_introl Hk)) as (_ & ? & Hall). split_and!; [done..|]. intros ev [-> |?]%elem_of_cons; auto. }
  destruct Hbad as [->|(ev & [-> |Hin]%elem_of_cons & Hev)]; [by apply Hhere; left|by apply Hhere; right|].
  destruct (IH _ Hw (or_intror (ex_intro _ ev (conj Hin Hev)))) as (Hnw & ? & Hall).
  assert (s ≠ Written) by (intros Hs; by destruct (Hwr Hs)). split_and!; [done..|].
  intros ev' [-> |?]%elem_of_cons; [|by apply Hall]. destruct (places (Ev o r)) eqn:Hp; [|done]. exfalso.
  apply Hnw. cbn in Hp. unfold tainting in Ek. rewrite Hp in Ek. destruct s; by simplify_eq.
Qed.

Section Lost.
Context `{WrapperLib} (e : Entry).

(** A part of the run before the upload. *)
Lemma before_upload {A} (P : ∀ R, Op R → bool) (p : prog Op A) :
  (∀ R (o : Op R), P R o = true → calm_op R o || running_op R o || reading_op R o || writing_op R o = true) →
  guards (only P) tt p (fun _ _ => True) → guards uploading false p (fun _ s => s = false).
Proof.
  intros HP Hg. eapply guards_mono; [apply (guards_ignored P _ _ _ (fun _ => True)); [|exact Hg|done]|by intros a s [_ ->]].
  intros R o Ho. apply HP in Ho. by destruct o.
Qed.

Lemma calm_before {A} (p : prog Op A) :
  guards (only calm_op) tt p (fun _ _ => True) → guards uploading false p (fun _ s => s = false).
Proof. apply before_upload. by intros R o ->. Qed.
Lemma running_before {A} (p : prog Op A) :
  guards (only running_op) tt p (fun _ _ => True) → guards uploading false p (fun _ s => s = false).
Proof. apply before_upload. intros R o ->. by rewrite orb_true_r. Qed.

Lemma writeErrorResult_uploading msg : guards uploading false (writeErrorResult e msg) (fun _ _ => True).
Proof.
  unfold writeErrorResult. gstep. cbn zeta. eapply guards_seq; [apply calm_before, writeTermination_calm|]. intros [] s1 ->.
  eapply guards_seq; [eapply before_upload; [|apply WriteResultAtomic_writing]; intros R o ->; by rewrite !orb_true_r|].
  intros [err|] s2 ->; [by gstep|done].
Qed.

Lemma collect_uploading req toolEnd r : guards uploading false (collect e req toolEnd r) (fun _ _ => True).
Proof.
  unfold collect. eapply guards_seq; [eapply before_upload; [|apply parseMetrics_reading]; intros R o ->; by rewrite !orb_true_r|].
  intros r1 s ->. eapply guards_seq; [apply calm_before, runScrape_calm|]. intros r2 s ->.
  eapply guards_seq; [apply calm_before, sayArtifacts_calm|]. intros [] s ->.
  eapply guards_seq; [apply calm_before; repeat (gstep; try done)|]. intros info s ->. cbn zeta.
  eapply guards_seq; [apply calm_before, writeTermination_calm|]. intros [] s ->.
  eapply guards_seq; [eapply before_upload; [|apply WriteResultAtomic_writing]; intros R o ->; by rewrite !orb_true_r|].
  intros [err|] s ->; [by gstep|]. unfold upload, say.
  apply guards_bind. gstep; repeat (gstep; try done).
Qed.

Lemma Execute_uploading : guards uploading false (Execute e) (fun _ _ => True).
Proof.
  unfold Execute. gstep. gstep; [|apply writeErrorResult_uploading].
  eapply guards_seq; [apply calm_before; repeat (gstep; try done)|]. intros [] s ->.
  assert (Hrun : ∀ req, guards uploading false (run_request e req) (fun _ _ => True)).
  2: { match goal with a : ExecutionRequest |- _ => destruct (er_Command a), (er_Args a) end; try apply Hrun. apply writeErrorResult_uploading. }
  intros req. unfold run_request. eapply guards_seq; [apply calm_before, prepareOutputDirs_calm|]. intros [] s ->. gstep.
  eapply guards_seq; [apply running_before, runWithRetry_running|]. intros rt s ->. gstep. cbn zeta. unfold say. gstep.
  eapply guards_seq; [apply calm_before, sayTool_calm|]. intros [] s ->.
  eapply guards_seq; [apply calm_before, reclassify_calm|]. intros rv s ->. unfold sayVerdict, say. gstep. apply collect_uploading.
Qed.

(** An aborted run's result never reaches the bucket: the upload of result.json is
    given the run's context even after that context has ended (only the scrape of
    artifacts gets a fresh one), so with a client that refuses an ended context no
    execution in which the run timed out or was aborted uploads a result. *)
Theorem ended_run_uploads_nothing tr out :
  exec (Execute e) tr out → uploads_need_live_context tr → ended tr →
  ∀ ctx prefix r, Ev (UploadResult ctx prefix r) None ∉ tr.
Proof.
  intros Hex Hlaw (c & Hc & Hin) ctx prefix r (tr1 & tr2 & Heq)%list_elem_of_split.
  destruct (guards_sound _ _ _ _ _ _ Execute_uploading Hex) as (s' & Hw & _).
  destruct (proj2 (uploading_watch _ _ _ Hw) _ _ _ _ _ _ Heq) as [-> Hnone]. apply (Hlaw _ _ _ _ Heq).
  exists c. split; [done|]. rewrite Heq in Hin. apply elem_of_app in Hin as [?|[Hev|Hin]%elem_of_cons]; [done| |by apply Hnone in Hin].
  by apply (f_equal (fun ev => match ev with Ev CtxErr _ => true | _ => false end)) in Hev.
Qed.
(** A bad metric stays with the result, whatever else it gets. *)
Lemma finite_metrics_union m m' : finite_metrics m = false → finite_metrics (m ∪ m') = false.
Proof.
  unfold finite_metrics. rewrite !bool_decide_eq_false. intros Hm Hu. apply Hm. intros k f Hk. eapply Hu. by apply lookup_union_Some_l.
Qed.

Definition carries (r : ExecutionResult) (s : taint) : Prop := s = Untouched ∨ s = Tainted ∧ finite_metrics (xr_Metrics r) = false.

Lemma parseMetrics_tainting req r : guards tainting Untouched (parseMetrics e req r) carries.
Proof.
  unfold parseMetrics, say. destruct (_ =? _)%string; [by left|].
  eapply guards_perform_bind; [reflexivity|]. intros [[m rel]|err]; cbn [bad_report].
  - eapply guards_perform_bind; [reflexivity|]. intros []. destruct (finite_metrics m) eqn:Em; cbn [negb guards]; [by left|right].
    split; [done|]. by apply finite_metrics_union.
  - eapply guards_perform_bind; [reflexivity|]. intros []. by left.
Qed.

Lemma calm_tainting {A} (p : prog Op A) s Q :
  guards (only calm_op) tt p (fun _ _ => True) → (∀ tr a, exec p tr a → Q a) → guards tainting s p (fun a s' => Q a ∧ s' = s).
Proof. intros. apply (guards_ignored calm_op); [|done..]. intros R o Ho. by destruct o. Qed.

Lemma running_tainting {A} (p : prog Op A) s :
  guards (only running_op) tt p (fun _ _ => True) → guards tainting s p (fun _ s' => s' = s).
Proof.
  intros Hg. eapply guards_mono; [apply (guards_ignored running_op _ _ _ (fun _ => True)); [|exact Hg|done]|by intros a s' [_ ->]].
  intros R o Ho. by destruct o.
Qed.

Lemma WriteResultAtomic_tainting dir r s :
  carries r s → guards tainting s (WriteResultAtomic dir r) (fun out s' => (s = Tainted → s' = Tainted ∧ out ≠ None) ∧ (s ≠ Tainted → s' ≠ Tainted)).
Proof.
  unfold WriteResultAtomic. intros [-> |[-> ->]]; [|by split]. repeat (gstep; try done).
Qed.

Definition lossy (out : option string) (s : taint) : Prop := s = Tainted → out ≠ None.

Lemma writeErrorResult_tainting msg : guards tainting Untouched (writeErrorResult e msg) lossy.
Proof.
  unfold writeErrorResult. gstep. cbn zeta.
  eapply guards_seq; [apply (calm_tainting _ _ (fun _ => True)); [apply writeTermination_calm|done]|]. intros [] s1 [_ ->].
  eapply guards_seq; [apply WriteResultAtomic_tainting; by left|]. intros [err|] s2 [_ Hs]; [by gstep|]. intros ->. by destruct Hs.
Qed.

Lemma merge_scrape_metrics sr r : xr_Metrics (merge_scrape sr r) = xr_Metrics r.
Proof. by destruct sr. Qed.

Lemma collect_tainting req toolEnd r : guards tainting Untouched (collect e req toolEnd r) lossy.
Proof.
  unfold collect. eapply guards_seq; [apply parseMetrics_tainting|]. intros r1 s Hc.
  eapply guards_seq; [apply (calm_tainting _ _ (fun r2 => xr_Metrics r2 = xr_Metrics r1)); [apply runScrape_calm|]|].
  { intros tr r2. unfold runScrape. destruct (_ || _); [by intros [-> ->]%exec_ret_inv|].
    intros (c & tr1 & -> & (sr & tr2 & -> & [-> ->]%exec_ret_inv)%exec_perform_bind_inv)%exec_perform_bind_inv.
    apply merge_scrape_metrics. }
  intros r2 ? [Em ->]. eapply guards_seq; [apply (calm_tainting _ _ (fun _ => True)); [apply sayArtifacts_calm|done]|]. intros [] ? [_ ->].
  eapply guards_seq; [apply (calm_tainting _ _ (fun _ => True)); [repeat (gstep; try done)|done]|]. intros info ? [_ ->]. cbn zeta.
  eapply guards_seq; [apply (calm_tainting _ _ (fun _ => True)); [apply writeTermination_calm|done]|]. intros [] ? [_ ->].
  eapply guards_seq; [apply WriteResultAtomic_tainting; unfold carries in *; cbn; by rewrite Em|].
  intros [err|] s2 [Hs Hs']; [by gstep|].
  assert (Hq : ∀ s', s' ≠ Tainted → lossy None s') by (intros ? Hne ->; done).
  unfold upload, say. destruct Hc as [->|[Hc _]]; [|by destruct (Hs Hc)]. destruct s2; [| by destruct Hs' |].
  all: apply guards_bind; gstep; repeat (gstep; try (by apply Hq)).
Qed.

Lemma Execute_tainting : guards tainting Untouched (Execute e) lossy.
Proof.
  unfold Execute. gstep. gstep; [|apply writeErrorResult_tainting].
  eapply guards_seq; [apply (calm_tainting _ _ (fun _ => True)); [repeat (gstep; try done)|done]|]. intros [] ? [_ ->].
  assert (Hrun : ∀ req, guards tainting Untouched (run_request e req) lossy).
  2: { match goal with a : ExecutionRequest |- _ => destruct (er_Command a), (er_Args a) end; try apply Hrun. apply writeErrorResult_tainting. }
  intros req. unfold run_request. eapply guards_seq; [apply (calm_tainting _ _ (fun _ => True)); [apply prepareOutputDirs_calm|done]|].
  intros [] ? [_ ->]. gstep. eapply guards_seq; [apply running_tainting, runWithRetry_running|]. intros rt ? ->. gstep. cbn zeta. unfold say. gstep.
  eapply guards_seq; [apply (calm_tainting _ _ (fun _ => True)); [apply sayTool_calm|done]|]. intros [] ? [_ ->].
  eapply guards_seq; [apply (calm_tainting _ _ (fun _ => True)); [apply reclassify_calm|done]|]. intros rv ? [_ ->].
  unfold sayVerdict, say. gstep. apply collect_tainting.
Qed.

(** C28: A metric that is not a finite number costs the run its result: when the report's
    parser answers with one, the wrapper fails, and neither puts a result.json in
    place nor uploads one. *)
Theorem bad_metric_loses_result tr out from wd path m rel :
  exec (Execute e) tr out → Ev (ParseReport from wd path) (Ok (m, rel)) ∈ tr → finite_metrics m = false →
  out ≠ None ∧ ∀ ev, ev ∈ tr → places ev = false.
Proof.
  intros Hex Hin Hm. destruct (guards_sound _ _ _ _ _ _ Execute_tainting Hex) as (s' & Hw & Hl).
  destruct (tainting_watch _ _ _ Hw) as (_ & -> & Hall).
  { right. eexists. split; [exact Hin|]. cbn. by rewrite Hm. }
  split; [by apply Hl|exact Hall].
Qed.
End Lost.


(** ** Runs *)

(** The flaky tool, for a request and with a report. *)
Definition answering (req : ExecutionRequest) (report : result string (gmap string spec_float * string)) (R : Type) (o : Op R) (asked : nat) : R * nat :=
  match o in Op R return R * nat with
  | ReadRequest => (Ok req, asked)
  | ParseReport _ _ _ => (report, asked)
  | o' => flaky _ o' asked
  end.
Definition demo_whole (req : ExecutionRequest) (report : result string (gmap string spec_float * string)) : option string * nat * list (event Op) :=
  run (answering req report) (Execute (H := demo_lib) demo_entry) 0.
Lemma demo_whole_exec req report :
  exec (Execute (H := demo_lib) demo_entry) (demo_whole req report).2 (demo_whole req report).1.1.
Proof. apply run_exec. Qed.
Lemma compiled_exec req report tr :
  (demo_whole req report).2 = Ev ReadRequest (Ok req) :: tr →
  exec (Execute (H := demo_lib) demo_entry) (Ev ReadRequest (Ok req) :: tr) (demo_whole req report).1.1.
Proof. intros <-. apply demo_whole_exec. Qed.

Lemma result_written_whole_witness :
  (demo_whole demo_request (Err "none")).1.1 = None ∧
  ∃ placed, watch (writing "/etc/kubetest/result") (NoFile, None) (demo_whole demo_request (Err "none")).2 = Some (NoFile, placed) ∧ is_Some placed.
Proof.
  assert (Hout : (demo_whole demo_request (Err "none")).1.1 = None) by (vm_compute; reflexivity).
  split; [exact Hout|].
  destruct (result_written_whole (H := demo_lib) demo_entry _ _ (demo_whole_exec demo_request (Err "none"))) as (f & placed & Hw & _ & Hp).
  destruct (Hp Hout) as [Hf Hpl]. exists placed. split; [subst f; exact Hw|exact Hpl].
Defined.

(** A Test with a retry, and the request compiled from it. *)
Definition demo_tool : Test :=
  mkTest (t_Meta CompilerSpec.demo_test)
    (mkTestSpec (ts_Content (t_Spec CompilerSpec.demo_test))
       (mkContainer "grafana/k6" "" "/data/repo" ["k6"] ["run"; "load.js"] [mkEnvVar "VUS" "3" None] [] ∅ ∅ None []) [] None ∅ None None (Some (mkRetry 1 "")) "" ∅
       None "" None None None []) None.
Definition compiled_request : ExecutionRequest :=
  buildRequest demo_tool CompilerSpec.demo_run (Keys.ForRun "ns" "u1") 60.
Definition compiled_trace : list (event Op) := tail (demo_whole compiled_request (Err "none")).2.
Lemma compiled_trace_whole : (demo_whole compiled_request (Err "none")).2 = Ev ReadRequest (Ok compiled_request) :: compiled_trace.
Proof. vm_compute. reflexivity. Qed.

Lemma compiled_command_runs_witness :
  countb is_run compiled_trace = 2 ∧
  ∀ binary argv dir env x, Ev (RunProcess binary argv dir env) x ∈ compiled_trace → binary :: argv = ["k6"; "run"; "load.js"].
Proof.
  split; [vm_compute; reflexivity|]. intros binary argv dir env x Hin.
  assert (Hne : cc_Command (ts_Container (t_Spec demo_tool)) ++ cc_Args (ts_Container (t_Spec demo_tool)) ≠ []) by (cbn; discriminate).
  exact (proj1 (proj2 (compiled_command_runs (H := demo_lib) demo_entry demo_tool CompilerSpec.demo_run (Keys.ForRun "ns" "u1") 60
    compiled_trace (demo_whole compiled_request (Err "none")).1.1 Hne (compiled_exec _ _ _ compiled_trace_whole)) _ _ _ _ _ Hin)).
Defined.

Definition is_uploaded (ev : event Op) : bool :=
  match ev with
  | Ev o r => match o in Op R return R → bool with
              | UploadResult _ _ _ => fun r => negb (bool_decide (is_Some r))
              | _ => fun _ => false
              end r
  end.

Lemma ended_run_uploads_nothing_witness :
  ended (demo_whole demo_request (Err "none")).2 ∧
  ∀ ctx prefix r, Ev (UploadResult ctx prefix r) None ∉ (demo_whole demo_request (Err "none")).2.
Proof.
  assert (Hended : ended (demo_whole demo_request (Err "none")).2).
  { exists Canceled. split; [discriminate|]. apply (list_elem_of_lookup_2 _ 8). vm_compute. reflexivity. }
  split; [exact Hended|]. apply (ended_run_uploads_nothing (H := demo_lib) demo_entry _ _ (demo_whole_exec demo_request (Err "none"))); [|exact Hended].
  intros tr1 tr2 prefix r Heq. exfalso.
  assert (Hnone : countb is_uploaded (tr1 ++ Ev (UploadResult RunContext prefix r) None :: tr2) = 0) by (rewrite <- Heq; vm_compute; reflexivity).
  apply countb_zero, Forall_app in Hnone as [_ [Hu _]%Forall_cons]. discriminate Hu.
Defined.

Definition metered : ExecutionRequest :=
  mkRequest "smoke-1" "runs/ns/u1/" "smoke" "/data" "/data/repo" ["locust"] [] ∅ ∅ ["results/*.json"] "" 1800
    (mkVerdict "" "") (mkMetrics "locustCsv" "out_stats.csv") 0.
Definition not_a_number : gmap string spec_float := {[ "latency_p95_ms" := S754_nan ]}.

Lemma bad_metric_loses_result_witness :
  let whole := demo_whole metered (Ok (not_a_number, "out_stats.csv")) in
  whole.1.1 ≠ None ∧ ∀ ev, ev ∈ whole.2 → places ev = false.
Proof.
  cbn zeta.
  apply (bad_metric_loses_result (H := demo_lib) demo_entry _ _ "locustCsv" "/data/repo" "out_stats.csv" not_a_number "out_stats.csv"
           (demo_whole_exec metered (Ok (not_a_number, "out_stats.csv")))).
  - apply (list_elem_of_lookup_2 _ 14). vm_compute. reflexivity.
  - vm_compute. reflexivity.
Defined.

End WrapperSpec.
