(* ===== verification/Scraper.v ===== *)
(** * internal/scraper: what a run leaves behind

    glob.go and scraper.go: the files the artifact patterns match, their upload to
    the run's prefix with retries, the counts and cases of the JUnit reports among
    them, and the result document.  A program over the file system, the bucket and
    the state of the context; doublestar's matching and the table of MIME types are
    the environment's. *)
From S2P Require Import Prelude Api GoLib Sorting Names Keys Paths Objects Effects Verdicts Termination Wrapper.

Module Scraper.
Import Keys Paths Objects Verdicts Wrapper.

(** An open file. *)
Definition File : Set := nat.

Inductive Op : Type → Type :=
| FSGlob (workingDir pattern : string) : Op (result string (list string))
| FStat (path : string) : Op (result string bool)
| CtxState : Op ctx_err
| Open (path : string) : Op (result string File)
| Size (f : File) : Op (result string Z)
| ReadHead (f : File) (n : nat) : Op string
| SeekStart (f : File) : Op (option string)
| Put (bucket key : string) (f : File) (size : Z) (contentType : string) : Op (option string)
| AddBytes (size : Z) : Op unit
| After (d : duration) : Op bool
| Close (f : File) : Op unit
| ReadReport (path : string) : Op (result string (result string string))
| PutBytes (bucket key payload : string) (size : Z) (contentType : string) : Op (option string).

Abbreviation M := (prog Op).

(** ** glob.go *)

Definition MaxMatchedFiles : nat := Z.to_nat 10000.

Record GlobMatch := mkMatch { gm_AbsPath : string; gm_RelPath : string }.

Inductive glob_error := ErrTooManyMatches | GlobFailed (text : string).

Definition by_RelPath : GlobMatch → GlobMatch → bool := by_key gm_RelPath.
Definition capMatches (ms : list GlobMatch) : list GlobMatch := sort_by by_RelPath ms.

(** The paths seen and the matches so far; a full list ends the expansion. *)
Definition Expanding : Type := gset string * list GlobMatch.
Definition Expanded : Type := list GlobMatch * option glob_error.

Definition expand_match (workingDir m : string) (st : Expanding) : M (Expanded + Expanding) :=
  let '(seen, out) := st in
  let abs := Join workingDir m in
  if bool_decide (abs ∈ seen) then Ret (inr st)
  else
    info ← perform (FStat abs);
    match info with
    | Err _ | Ok true => Ret (inr st)
    | Ok false =>
        let out := out ++ [mkMatch abs m] in
        if (MaxMatchedFiles <=? length out)%nat then Ret (inl (capMatches out, Some ErrTooManyMatches))
        else Ret (inr ({[ abs ]} ∪ seen, out))
    end.

Definition expand_pattern (workingDir pat : string) (st : Expanding) : M (Expanded + Expanding) :=
  if IsAbs pat then Ret (inl ([], Some (GlobFailed ("scraper: absolute glob pattern " +:+ quote pat +:+ " rejected"))))
  else
    matches ← perform (FSGlob workingDir pat);
    match matches with
    | Err e => Ret (inl ([], Some (GlobFailed ("scraper: glob " +:+ quote pat +:+ ": " +:+ e))))
    | Ok matches => for_state matches st (expand_match workingDir)
    end.

Definition ExpandGlobs (workingDir : string) (patterns : list string) : M Expanded :=
  match patterns with
  | [] => Ret ([], None)
  | _ =>
      r ← for_state patterns (∅, []) (expand_pattern (Clean workingDir));
      match r with
      | inl e => Ret e
      | inr (_, out) => Ret (sort_by by_RelPath out, None)
      end
  end.

(** ** scraper.go *)

Definition MaxUploadAttempts : nat := 3.
Definition UploadBackoffBase : duration := (100 * millisecond)%Z.
Definition UploadBackoffMultiplier : Z := 2.

(** The MIME types of the machine. *)
Class MimeTypes := TypeByExtension : string → string.

Definition printable_byte (c : ascii) : bool :=
  let n := nat_of_ascii c in
  (n =? 10)%nat || (n =? 13)%nat || (n =? 9)%nat || ((32 <=? n)%nat && (n <? 127)%nat).

Fixpoint printable_bytes (s : string) : nat :=
  match s with EmptyString => 0 | String c s => (if printable_byte c then 1 else 0) + printable_bytes s end.

Definition octetStream : string := "application/octet-stream".

Section Scraping.
Context `{MimeTypes, ReportLib}.

Definition detectContentType (path : string) (f : File) : M string :=
  let ct := TypeByExtension (Ext path) in
  if negb (ct =? "")%string then Ret ct
  else
    buf ← perform (ReadHead f 512);
    let n := String.length buf in
    if (n =? 0)%nat then Ret octetStream
    else if (n * 9 / 10 <? printable_bytes buf)%nat then Ret "text/plain; charset=utf-8"
    else Ret octetStream.

(** The loop over the attempts: [left_] of them remain, [attempt] is the next. *)
Fixpoint put_attempts (bucket key : string) (ref : ArtifactRef) (f : File) (left_ attempt : nat) (backoff : duration)
    (lastErr : string) : M (result string ArtifactRef) :=
  let failed e := Ret (Err ("after " +:+ itoa (Z.of_nat MaxUploadAttempts) +:+ " attempts: " +:+ e)) in
  match left_ with
  | O => failed lastErr
  | S left_ =>
      seek ← perform (SeekStart f);
      match seek with
      | Some e => Ret (Err e)
      | None =>
          err ← perform (Put bucket key f (ar_SizeBytes ref) (ar_ContentType ref));
          match err with
          | None =>
              _ ← perform (AddBytes (ar_SizeBytes ref));
              Ret (Ok ref)
          | Some e =>
              if (attempt =? MaxUploadAttempts)%nat then failed e
              else
                ctx ← perform CtxState;
                match ctx with
                | Live =>
                    elapsed ← perform (After backoff);
                    put_attempts bucket key ref f left_ (S attempt)
                      (if elapsed : bool then (backoff * UploadBackoffMultiplier)%Z else backoff) e
                | _ => failed e
                end
          end
      end
  end.

Definition upload_open (bucket : string) (keys : RunKeys) (m : GlobMatch) (f : File) : M (result string ArtifactRef) :=
  stat ← perform (Size f);
  match stat with
  | Err e => Ret (Err e)
  | Ok size =>
      ct ← detectContentType (gm_RelPath m) f;
      let key := Artifact keys (gm_RelPath m) in
      put_attempts bucket key (mkArtifactRef (gm_RelPath m) key size ct) f MaxUploadAttempts 1 UploadBackoffBase ""
  end.

Definition uploadOne (bucket : string) (keys : RunKeys) (m : GlobMatch) : M (result string ArtifactRef) :=
  f ← perform (Open (gm_AbsPath m));
  match f with
  | Err e => Ret (Err e)
  | Ok f =>
      r ← upload_open bucket keys m f;
      _ ← perform (Close f);
      Ret r
  end.

Definition appendMsg (existing add : string) : string :=
  if (existing =? "")%string then add else existing +:+ "; " +:+ add.

(** What the loop over the matches has built: the result, the counts and the
    errors of the uploads that failed. *)
Record Scraped := mkScraped {
  sd_Artifacts : list ArtifactRef; sd_Cases : list TestCase; sd_Error : string;
  sd_Counts : option TestCounts; sd_UploadErrs : list string }.

Definition mergeReport (st : Scraped) (path : string) : M Scraped :=
  r ← perform (ReadReport path);
  match ParseJUnitReportFile r with
  | Err _ => Ret st
  | Ok (c, cases) =>
      let room := (MaxTestCases - length (sd_Cases st))%nat in
      let kept := if (0 <? room)%nat then sd_Cases st ++ take (min room (length cases)) cases else sd_Cases st in
      Ret (mkScraped (sd_Artifacts st) kept (sd_Error st)
             (Some (match sd_Counts st with None => c | Some acc => add_counts acc c end)) (sd_UploadErrs st))
  end.

(** The text of the context's error. *)
Definition ctx_text (c : ctx_err) : string :=
  match c with Live => "" | DeadlineExceeded => "context deadline exceeded" | Canceled => "context canceled" end.

Definition scrape_match (bucket : string) (keys : RunKeys) (m : GlobMatch) (st : Scraped) : M (Scraped + Scraped) :=
  ctx ← perform CtxState;
  match ctx with
  | Live =>
      r ← uploadOne bucket keys m;
      match r with
      | Err e =>
          Ret (inr (mkScraped (sd_Artifacts st) (sd_Cases st) (sd_Error st) (sd_Counts st)
                     (sd_UploadErrs st ++ [gm_RelPath m +:+ ": " +:+ e])))
      | Ok ref =>
          let st := mkScraped (sd_Artifacts st ++ [ref]) (sd_Cases st) (sd_Error st) (sd_Counts st) (sd_UploadErrs st) in
          if EqualFold (Ext (gm_RelPath m)) ".xml" then st ← mergeReport st (gm_AbsPath m); Ret (inr st)
          else Ret (inr st)
      end
  | _ =>
      ctx ← perform CtxState;
      Ret (inl (mkScraped (sd_Artifacts st) (sd_Cases st) (appendMsg (sd_Error st) ("scrape cancelled: " +:+ ctx_text ctx))
                 (sd_Counts st) (sd_UploadErrs st)))
  end.

Definition scrape_result (st : Scraped) : ScrapeResult :=
  let errs := sd_UploadErrs st in
  mkScrape (sd_Artifacts st) (sd_Counts st) (sd_Cases st)
    (if (0 <? length errs)%nat then
       appendMsg (sd_Error st) ("upload failed for " +:+ itoa (Z.of_nat (length errs)) +:+ " files: " +:+ str_join "; " errs)
     else sd_Error st).

(** The Scraper's configuration: whether it has an uploader, and the bucket. *)
Record Scraper := mkScraper { sc_Uploader : bool; sc_Bucket : string }.

Definition upload_matches (bucket : string) (keys : RunKeys) (matches : list GlobMatch) (scrapeError : string) : M ScrapeResult :=
  r ← for_state matches (mkScraped [] [] scrapeError None []) (scrape_match bucket keys);
  match r with inl st | inr st => Ret (scrape_result st) end.

Definition Scrape (s : Scraper) (workingDir prefix : string) (paths : list string) : M (result string ScrapeResult) :=
  if negb (sc_Uploader s) then Ret (Err "scraper: nil Uploader")
  else if (sc_Bucket s =? "")%string then Ret (Err "scraper: empty Bucket")
  else match ParseRunKeys prefix with
       | Err e => Ret (Err ("scraper: " +:+ e))
       | Ok keys =>
           '(matches, err) ← ExpandGlobs workingDir paths;
           match err with
           | Some ErrTooManyMatches =>
               r ← upload_matches (sc_Bucket s) keys matches
                     ("scraper: " +:+ itoa (Z.of_nat (length matches)) +:+ " files exceeded cap; uploading first " +:+
                      itoa (Z.of_nat MaxMatchedFiles));
               Ret (Ok r)
           | Some (GlobFailed e) => Ret (Ok (mkScrape [] None [] e))
           | None => r ← upload_matches (sc_Bucket s) keys matches ""; Ret (Ok r)
           end
       end.

Definition UploadResult (s : Scraper) (storagePrefix payload : string) : M (option string) :=
  if negb (sc_Uploader s) then Ret (Some "scraper: nil Uploader")
  else match ParseRunKeys storagePrefix with
       | Err e => Ret (Some ("scraper: " +:+ e))
       | Ok keys => perform (PutBytes (sc_Bucket s) (Result keys) payload (Z.of_nat (String.length payload)) "application/json")
       end.

End Scraping.

End Scraper.
