(* ===== verification/ScraperSpec.v ===== *)
(** * What the scraper promises

    Every artifact a result lists was stored under its run's prefix, once and in the
    order of the paths, and a result without an error lists every file the patterns
    matched; the counts and cases are those of the JUnit reports among them; and
    nothing outside the working directory is named. *)
From stdpp Require Import sorting.
From S2P Require Import Prelude Api GoLib Sorting Names Keys Paths Objects Effects Verdicts Termination Wrapper Scraper.

Module ScraperSpec.
Import Keys Paths Objects Verdicts Wrapper Scraper.

(** ** What a trace shows *)

Abbreviation view := (Effects.view Scraper.Op).

(** The names the patterns matched. *)
Definition matched : view string := fun R o =>
  match o in Scraper.Op R return R → list string with FSGlob _ _ => fun r => match r with Ok ms => ms | Err _ => [] end | _ => fun _ => [] end.
(** The patterns that were matched. *)
Definition patterns_matched : view string := fun R o =>
  match o in Scraper.Op R return R → list string with FSGlob _ p => fun r => match r with Ok _ => [p] | Err _ => [] end | _ => fun _ => [] end.
(** What was looked at: the path, and whether it was a file. *)
Definition looked : view (string * bool) := fun R o =>
  match o in Scraper.Op R return R → list (string * bool) with
  | FStat p => fun r => [(p, match r with Ok isDir => negb isDir | Err _ => false end)]
  | _ => fun _ => []
  end.
(** The keys of the uploads tried. *)
Definition tried : view string := fun R o => match o in Scraper.Op R return R → list string with Put _ k _ _ _ => fun _ => [k] | _ => fun _ => [] end.
(** The objects stored: bucket, key, size, content type. *)
Definition stored : view (string * string * Z * string) := fun R o =>
  match o in Scraper.Op R return R → list (string * string * Z * string) with
  | Put b k _ size ct => fun r => match r with None => [(b, k, size, ct)] | Some _ => [] end
  | _ => fun _ => []
  end.
(** The files named, to be opened, looked at or parsed. *)
Definition named : view string := fun R o =>
  match o in Scraper.Op R return R → list string with
  | FStat p | Open p | ReadReport p => fun _ => [p]
  | _ => fun _ => []
  end.
(** The reports read, and what they were. *)
Definition reports : view (string * result string (result string string)) := fun R o =>
  match o in Scraper.Op R return R → list (string * result string (result string string)) with ReadReport p => fun r => [(p, r)] | _ => fun _ => [] end.

Definition object_of (bucket : string) (a : ArtifactRef) : string * string * Z * string :=
  (bucket, ar_Key a, ar_SizeBytes a, ar_ContentType a).

(** How often a key is there. *)
Definition times (k : string) (ks : list string) : nat := length (List.filter (String.eqb k) ks).
Lemma times_cons k x xs : times k (x :: xs) = (if (k =? x)%string then 1 else 0) + times k xs.
Proof. unfold times. cbn [List.filter]. by destruct (k =? x)%string. Qed.
Lemma times_app k xs ys : times k (xs ++ ys) = times k xs + times k ys.
Proof. unfold times. by rewrite List.filter_app, length_app. Qed.
Lemma times_absent k xs : k ∉ xs → times k xs = 0.
Proof.
  induction xs as [|x xs IH]; [done|]. intros [Hne Hx]%not_elem_of_cons. rewrite times_cons, IH by done.
  by rewrite (proj2 (String.eqb_neq k x)).
Qed.
Lemma times_present k xs : k ∈ xs → 0 < times k xs.
Proof. induction 1 as [x xs|x y xs _ IH]; rewrite times_cons; [rewrite String.eqb_refl|]; lia. Qed.
Lemma times_NoDup k xs : NoDup xs → times k xs ≤ 1.
Proof.
  induction 1 as [|x xs Hx Hnd IH]; [unfold times; cbn; lia|]. rewrite times_cons. destruct (String.eqb_spec k x) as [->|]; [|lia].
  by rewrite times_absent.
Qed.
Lemma times_same k k' ks : Forall (eq k') ks → times k ks ≤ length ks * times k [k'].
Proof.
  induction 1 as [|x xs <- Hf IH]; [unfold times; cbn; lia|]. rewrite times_cons in IH |- *. rewrite times_cons. cbn [length]. lia.
Qed.

(** A parsed report, when it is one. *)
Definition parsed `{ReportLib} (pr : string * result string (result string string)) : list (TestCounts * list TestCase) :=
  match ParseJUnitReportFile pr.2 with Ok x => [x] | Err _ => [] end.
(** The counts of the reports together; none when there was no report. *)
Definition counted (rs : list (TestCounts * list TestCase)) : option TestCounts :=
  match rs with [] => None | (c, _) :: rs => Some (foldl add_counts c rs.*1) end.

Lemma counted_snoc rs c cases : counted (rs ++ [(c, cases)]) = Some (match counted rs with None => c | Some acc => add_counts acc c end).
Proof. destruct rs as [|[c0 cs0] rs]; [done|]. cbn. by rewrite fmap_app, foldl_app. Qed.

Lemma take_snoc {A} n (xs ys : list A) : take n (take n xs ++ take (n - length (take n xs)) ys) = take n (xs ++ ys).
Proof.
  rewrite take_app, take_take, Nat.min_id, take_take, Nat.min_id. rewrite take_app, !length_take. f_equal.
  destruct (decide (n ≤ length xs)); [|by rewrite Nat.min_r by lia]. rewrite Nat.min_l by done. by replace (n - n) with 0 by lia; replace (n - length xs) with 0 by lia.
Qed.

(** ** One upload *)

Section Uploads.
Context `{MimeTypes, ReportLib}.

(** No pattern is matched. *)
Definition no_globs (tr : list (event Scraper.Op)) : Prop := seen matched tr = [] ∧ seen patterns_matched tr = [].

Lemma no_globs_app tr tr' : no_globs tr → no_globs tr' → no_globs (tr ++ tr').
Proof. intros [H1 H2] [G1 G2]. split; by rewrite seen_app, ?H1, ?H2. Qed.
Lemma no_globs_cons {R} (o : Scraper.Op R) r tr : match o with FSGlob _ _ => False | _ => True end → no_globs tr → no_globs (Ev o r :: tr).
Proof. intros Ho [H1 H2]. split; rewrite seen_cons, ?H1, ?H2; by destruct o. Qed.

Ltac quiet := solve [repeat first [assumption|by split|apply no_globs_app|apply no_globs_cons; [exact I|]]].

(** What the upload of a file shows, up to the file's own opening. *)
Definition upload_course (bucket key : string) (path : string) (tr : list (event Scraper.Op)) (r : result string ArtifactRef) : Prop :=
  match r with
  | Ok ref => ar_Path ref = path ∧ ar_Key ref = key ∧ seen stored tr = [object_of bucket ref]
  | Err _ => seen stored tr = []
  end ∧ Forall (eq key) (seen tried tr) ∧ length (seen tried tr) ≤ MaxUploadAttempts ∧ seen reports tr = [] ∧ no_globs tr.

Ltac shown := unfold MaxUploadAttempts in *; split_and!; cbn; first [done|lia|by split|repeat constructor].

Lemma put_attempts_course bucket ref f n attempt backoff e tr r :
  exec (put_attempts bucket (ar_Key ref) ref f n attempt backoff e) tr r → n ≤ MaxUploadAttempts →
  upload_course bucket (ar_Key ref) (ar_Path ref) tr r ∧ length (seen tried tr) ≤ n ∧ seen named tr = [].
Proof.
  unfold upload_course. revert attempt backoff e tr r. induction n as [|n IH]; intros attempt backoff e tr r Hex Hn; cbn [put_attempts] in Hex.
  { exec_step. shown. }
  exec_step. destruct r0 as [err|]; [exec_step; shown|].
  exec_step. destruct r0 as [err|].
  - destruct (attempt =? MaxUploadAttempts)%nat; [exec_step; shown|].
    exec_step. destruct r0; [|exec_step; shown..].
    exec_step. apply IH in Hex as ((Hr & Hf & Hl & Hrep & Hg) & Hl' & Hnm); [|lia].
    repeat match goal with |- context [seen ?f (Ev ?o ?r :: ?tr)] => rewrite (seen_cons f o r tr); cbn [stored tried named reports app] end.
    split_and!; [done|by constructor|cbn; lia|done|exact Hg|cbn; lia|done].
  - exec_step. exec_step. shown.
Qed.

Lemma detectContentType_quiet path f tr ct : exec (detectContentType path f) tr ct →
  seen stored tr = [] ∧ seen tried tr = [] ∧ seen named tr = [] ∧ seen reports tr = [] ∧ no_globs tr.
Proof. unfold detectContentType. intros Hex. cbn zeta in Hex. repeat exec_step; done. Qed.

Lemma uploadOne_course bucket keys m tr r : exec (uploadOne bucket keys m) tr r →
  upload_course bucket (Artifact keys (gm_RelPath m)) (gm_RelPath m) tr r ∧ seen named tr = [gm_AbsPath m].
Proof.
  unfold uploadOne, upload_open. intros Hex. exec_step. destruct r0 as [f|e]; [|exec_step; shown].
  apply exec_bind_inv in Hex as (tr1 & tr2 & r1 & -> & Hup & Hex). exec_step. exec_step.
  apply exec_perform_bind_inv in Hup as (stat & tr0 & -> & Hup). destruct stat as [size|e]; [|apply exec_ret_inv in Hup as [-> ->]; shown].
  apply exec_bind_inv in Hup as (tr1 & tr3 & ct & -> & (Hs & Ht & Hnm & Hrp & Hq)%detectContentType_quiet & Hup).
  cbn zeta in Hup. apply (put_attempts_course _ (mkArtifactRef (gm_RelPath m) (Artifact keys (gm_RelPath m)) size ct)) in Hup as ((Hr & Hf & Hl & Hrep & Hg) & _ & Hnm'); [|done].
  unfold upload_course. cbn [app]. rewrite !seen_cons, !seen_app, Hs, Ht, Hnm, Hrp, Hrep, Hnm'. cbn. rewrite !app_nil_r. split_and!; done || quiet.
Qed.

(** ** The uploads of a scrape *)

Definition is_xml (path : string) : bool := EqualFold (Ext path) ".xml".

Record Progress (bucket : string) (keys : RunKeys) (workingDir e0 : string) (ms : list GlobMatch) (tr : list (event Scraper.Op)) (st : Scraped) : Prop := {
  pg_stored : seen stored tr = object_of bucket <$> sd_Artifacts st;
  pg_keys : Forall (fun a => ar_Key a = Artifact keys (ar_Path a)) (sd_Artifacts st);
  pg_paths : ar_Path <$> sd_Artifacts st `sublist_of` gm_RelPath <$> ms;
  pg_all : length (sd_Artifacts st) + length (sd_UploadErrs st) = length ms;
  pg_times : ∀ k, times k (seen tried tr) ≤ MaxUploadAttempts * times k ((fun m => Artifact keys (gm_RelPath m)) <$> ms);
  pg_named : Forall (fun p => p ∈ gm_AbsPath <$> ms) (seen named tr);
  pg_reports : (seen reports tr).*1 = Join workingDir <$> List.filter is_xml (ar_Path <$> sd_Artifacts st);
  pg_counts : sd_Counts st = counted (flat_map parsed (seen reports tr));
  pg_cases : sd_Cases st = take MaxTestCases (flat_map snd (flat_map parsed (seen reports tr)));
  pg_error : sd_Error st = e0;
  pg_globs : no_globs tr }.

Lemma mergeReport_parsed st path tr st' : exec (mergeReport st path) tr st' →
  ∃ r, tr = [Ev (ReadReport path) r] ∧
  sd_Artifacts st' = sd_Artifacts st ∧ sd_UploadErrs st' = sd_UploadErrs st ∧ sd_Error st' = sd_Error st ∧
  (∀ rs, sd_Counts st = counted rs → sd_Counts st' = counted (rs ++ parsed (path, r))) ∧
  (∀ rs, sd_Cases st = take MaxTestCases (flat_map snd rs) → sd_Cases st' = take MaxTestCases (flat_map snd (rs ++ parsed (path, r)))).
Proof.
  unfold mergeReport, parsed. intros Hex. exec_step. exists r. cbn [snd]. destruct (ParseJUnitReportFile r) as [[c cases]|e].
  - apply exec_ret_inv in Hex as [-> ->]. cbn [sd_Artifacts sd_UploadErrs sd_Error sd_Counts sd_Cases]. split_and!; [done..| |].
    + intros rs ->. by rewrite counted_snoc.
    + intros rs ->. rewrite flat_map_app. cbn [flat_map snd]. rewrite app_nil_r, <- take_snoc.
      set (xs := take MaxTestCases (flat_map snd rs)). assert (length xs ≤ MaxTestCases) by (unfold xs; rewrite length_take; lia).
      rewrite (take_ge (xs ++ _)) by (rewrite length_app, length_take; lia).
      destruct (Nat.ltb_spec 0 (MaxTestCases - length xs)) as [Hl|Hl]; [|by replace (MaxTestCases - length xs) with 0 by lia; rewrite app_nil_r].
      f_equal. destruct (decide (MaxTestCases - length xs ≤ length cases)); [by rewrite Nat.min_l|].
      rewrite Nat.min_r by lia. by rewrite !take_ge by lia.
  - apply exec_ret_inv in Hex as [-> ->]. split_and!; [done..| |]; intros rs E; by rewrite app_nil_r.
Qed.

Lemma Progress_start bucket keys workingDir e0 : Progress bucket keys workingDir e0 [] [] (mkScraped [] [] e0 None []).
Proof. split; done || (intros k; cbn; lia) || constructor. Qed.

Lemma scrape_match_stops bucket keys m st tr st' : exec (scrape_match bucket keys m st) tr (inl st') →
  ∃ c c' msg, tr = [Ev CtxState c; Ev CtxState c'] ∧ msg ≠ "" ∧
    st' = mkScraped (sd_Artifacts st) (sd_Cases st) (appendMsg (sd_Error st) msg) (sd_Counts st) (sd_UploadErrs st).
Proof.
  unfold scrape_match. intros Hex. exec_step. destruct r; [|(exec_step; apply exec_ret_inv in Hex as [-> [= ->]]; eexists _, _, _; split; [reflexivity|]; split; [|reflexivity]; discriminate)..].
  apply exec_bind_inv in Hex as (tr1 & tr2 & [ref|e] & -> & _ & Hex); [|by apply exec_ret_inv in Hex as [_ ?]].
  cbn zeta in Hex. destruct (EqualFold _ _); [|by apply exec_ret_inv in Hex as [_ ?]].
  apply exec_bind_inv in Hex as (tr3 & tr4 & st1 & -> & _ & Hex). by apply exec_ret_inv in Hex as [_ ?].
Qed.

(** The part of the invariant the outcome of one upload decides. *)
Lemma scrape_match_goes bucket keys m st tr st' : exec (scrape_match bucket keys m st) tr (inr st') →
  ∃ c up r rest, tr = Ev CtxState c :: up ++ rest ∧ exec (uploadOne bucket keys m) up r ∧
  match r with
  | Err e => rest = [] ∧ st' = mkScraped (sd_Artifacts st) (sd_Cases st) (sd_Error st) (sd_Counts st) (sd_UploadErrs st ++ [gm_RelPath m +:+ ": " +:+ e])
  | Ok ref =>
      let st1 := mkScraped (sd_Artifacts st ++ [ref]) (sd_Cases st) (sd_Error st) (sd_Counts st) (sd_UploadErrs st) in
      if is_xml (gm_RelPath m) then exec (mergeReport st1 (gm_AbsPath m)) rest st' else rest = [] ∧ st' = st1
  end.
Proof.
  unfold scrape_match. intros Hex. exec_step. destruct r; [|exec_step; exec_step..].
  apply exec_bind_inv in Hex as (tr1 & tr2 & r & -> & Hup & Hex). exists Live, tr1, r. destruct r as [ref|e].
  - cbn zeta in Hex |- *. unfold is_xml. destruct (EqualFold _ _).
    + apply exec_bind_inv in Hex as (tr3 & tr4 & st1 & -> & Hm & Hex). apply exec_ret_inv in Hex as [-> [= ->]].
      exists tr3. by rewrite app_nil_r.
    + apply exec_ret_inv in Hex as [-> [= ->]]. by exists [].
  - apply exec_ret_inv in Hex as [-> [= ->]]. by exists [].
Qed.

Lemma Progress_match bucket keys workingDir e0 ms m tr st tr' st' :
  gm_AbsPath m = Join workingDir (gm_RelPath m) →
  Progress bucket keys workingDir e0 ms tr st → exec (scrape_match bucket keys m st) tr' (inr st') →
  Progress bucket keys workingDir e0 (ms ++ [m]) (tr ++ tr') st'.
Proof.
  intros Habs [P1 P2 P3 P4 P5 P6 P7 P8 P9 P10 P11] (c & up & r & rest & -> & ((Hr & Hf & Hl & Hrep & Hg) & Hnm)%uploadOne_course & Hst)%scrape_match_goes.
  assert (Htimes : ∀ k, times k (seen tried tr ++ seen tried up) ≤ MaxUploadAttempts * times k ((fun m => Artifact keys (gm_RelPath m)) <$> ms ++ [m])).
  { intros k. rewrite times_app, fmap_app, times_app. pose proof (P5 k). pose proof (times_same k _ _ Hf). cbn [fmap list_fmap]. nia. }
  assert (Hin : ∀ p, p ∈ gm_AbsPath <$> ms ∨ p = gm_AbsPath m → p ∈ gm_AbsPath <$> ms ++ [m]) by (intros p; rewrite fmap_app; set_solver).
  assert (Hnamed : Forall (fun p => p ∈ gm_AbsPath <$> ms ++ [m]) (seen named tr ++ seen named up)).
  { rewrite Hnm. apply Forall_app. split; [eapply Forall_impl; [exact P6|]; naive_solver|]. constructor; [naive_solver|constructor]. }
  destruct r as [ref|e].
  - destruct Hr as (Hp & Hk & Hs). cbn zeta in Hst.
    assert (Hpaths : ar_Path <$> sd_Artifacts st ++ [ref] `sublist_of` gm_RelPath <$> ms ++ [m]).
    { rewrite !fmap_app. apply sublist_app; [done|]. cbn [fmap list_fmap]. by rewrite Hp. }
    assert (Hkeys : Forall (fun a => ar_Key a = Artifact keys (ar_Path a)) (sd_Artifacts st ++ [ref])).
    { apply Forall_app. split; [done|]. constructor; [by rewrite Hk, Hp|constructor]. }
    assert (Hlen : length (sd_Artifacts st ++ [ref]) + length (sd_UploadErrs st) = length (ms ++ [m])) by (rewrite !length_app; cbn; lia).
    assert (Hstored : seen stored tr ++ seen stored up = object_of bucket <$> sd_Artifacts st ++ [ref]) by (by rewrite P1, Hs, fmap_app).
    destruct (is_xml (gm_RelPath m)) eqn:Ex.
    + apply mergeReport_parsed in Hst as (r & -> & E1 & E2 & E3 & E4 & E5). cbn [sd_Artifacts sd_UploadErrs sd_Error sd_Counts sd_Cases] in *.
      split; rewrite ?E1, ?E2, ?E3, ?seen_app, ?seen_cons, ?seen_app, ?seen_cons; cbn [stored tried named reports seen flat_map app]; rewrite ?app_nil_r; try done; try quiet.
      * apply Forall_app. split; [by apply Forall_app in Hnamed as [? _]|]. rewrite Hnm. constructor; [naive_solver|]. constructor; [naive_solver|constructor].
      * rewrite Hrep, !fmap_app, P7, List.filter_app, fmap_app. cbn [fmap list_fmap List.filter]. by rewrite Hp, Ex, Habs.
      * rewrite Hrep, flat_map_app. cbn [app flat_map]. rewrite app_nil_r. by apply E4.
      * rewrite Hrep, !(flat_map_app parsed). cbn [app flat_map]. rewrite app_nil_r. by apply E5.
    + destruct Hst as [-> ->]. split; rewrite ?app_nil_r, ?seen_app, ?seen_cons; cbn [sd_Artifacts sd_UploadErrs sd_Error sd_Counts sd_Cases stored tried named reports app]; rewrite ?Hrep, ?app_nil_r; try done; try quiet.
      rewrite P7, fmap_app, List.filter_app. cbn [fmap list_fmap List.filter]. by rewrite Hp, Ex, app_nil_r.
  - destruct Hst as [-> ->]. split; rewrite ?app_nil_r, ?seen_app, ?seen_cons; cbn [sd_Artifacts sd_UploadErrs sd_Error sd_Counts sd_Cases stored tried named reports app]; rewrite ?Hrep, ?Hr, ?app_nil_r; try done; try quiet.
    + rewrite fmap_app. by apply sublist_inserts_r.
    + rewrite !length_app. cbn. lia.
Qed.

Lemma upload_matches_progress bucket keys workingDir e0 ms tr r :
  Forall (fun m => gm_AbsPath m = Join workingDir (gm_RelPath m)) ms →
  exec (upload_matches bucket keys ms e0) tr r →
  ∃ st, r = scrape_result st ∧
    (Progress bucket keys workingDir e0 ms tr st ∨
     ∃ pre msg, pre `prefix_of` ms ∧ msg ≠ "" ∧ Progress bucket keys workingDir (appendMsg e0 msg) pre tr st).
Proof.
  intros Habs. unfold upload_matches. intros (tr1 & tr2 & res & -> & Hex & Hr)%exec_bind_inv.
  assert (tr2 = [] ∧ r = scrape_result (match res with inl st | inr st => st end)) as [-> ->] by (by destruct res; apply exec_ret_inv in Hr as [-> ->]).
  rewrite app_nil_r. eexists. split; [reflexivity|].
  cut (match res with
       | inl st => ∃ pre msg, pre `prefix_of` ms ∧ msg ≠ "" ∧ Progress bucket keys workingDir (appendMsg e0 msg) pre tr1 st
       | inr st => Progress bucket keys workingDir e0 ms tr1 st
       end); [by destruct res; [right|left]|].
  eapply (exec_for_state (fun pre tr st => Progress bucket keys workingDir e0 pre tr st)
    (fun tr st => ∃ pre msg, pre `prefix_of` ms ∧ msg ≠ "" ∧ Progress bucket keys workingDir (appendMsg e0 msg) pre tr st)); [apply Progress_start| |exact Hex].
  clear Hex. intros pre m rest tr t tr' [st'|st'] -> HI Hex.
  - apply scrape_match_stops in Hex as (c & c' & msg & -> & Hmsg & ->). exists pre, msg. split; [by apply prefix_app_r|]. split; [done|].
    destruct HI as [P1 P2 P3 P4 P5 P6 P7 P8 P9 P10 P11]. split; rewrite ?seen_app, ?seen_cons; cbn [sd_Artifacts sd_UploadErrs sd_Error sd_Counts sd_Cases stored tried named reports app seen flat_map]; rewrite ?app_nil_r; try done; try quiet. by rewrite P10.
  - rewrite Forall_app, Forall_cons in Habs. destruct Habs as (_ & Hm & _). by eapply Progress_match.
Qed.

(** ** The matches *)

Record Gathered (workingDir : string) (names : list string) (tr : list (event Scraper.Op)) (seen_ : gset string) (out : list GlobMatch) : Prop := {
  ga_seen : ∀ p, p ∈ seen_ ↔ p ∈ gm_AbsPath <$> out;
  ga_abs : Forall (fun m => gm_AbsPath m = Join workingDir (gm_RelPath m)) out;
  ga_once : NoDup (gm_RelPath <$> out);
  ga_from : Forall (fun m => gm_RelPath m ∈ seen matched tr ∧ (gm_AbsPath m, true) ∈ seen looked tr) out;
  ga_all : ∀ n, n ∈ names → Join workingDir n ∈ gm_AbsPath <$> out ∨ (Join workingDir n, false) ∈ seen looked tr }.

(** Nothing is stored or parsed while the patterns are matched, and only what they
    matched is looked at. *)
Record Looking (workingDir : string) (tr : list (event Scraper.Op)) : Prop := {
  lk_stored : seen stored tr = [];
  lk_tried : seen tried tr = [];
  lk_reports : seen reports tr = [];
  lk_named : Forall (fun p => p ∈ Join workingDir <$> seen matched tr) (seen named tr) }.

Lemma Looking_nil wd : Looking wd [].
Proof. split; try done; constructor. Qed.

Lemma Looking_app wd tr tr' : Looking wd tr → Looking wd tr' → Looking wd (tr ++ tr').
Proof.
  intros [H1 H2 H3 H4] [G1 G2 G3 G4]. split; rewrite seen_app, ?H1, ?H2, ?H3; try done. rewrite seen_app, fmap_app.
  apply Forall_app. split; (eapply Forall_impl; [eassumption|]); intros p Hp; cbn beta in Hp |- *; rewrite elem_of_app; tauto.
Qed.

Lemma Gathered_more wd names tr tr' s out : Gathered wd names tr s out → Gathered wd names (tr ++ tr') s out.
Proof.
  intros [H1 H2 H3 H4 H5]. split; [done..| |].
  - eapply Forall_impl; [exact H4|]. intros m [??]. rewrite !seen_app, !elem_of_app. tauto.
  - intros n Hn. rewrite seen_app, elem_of_app. destruct (H5 n Hn); tauto.
Qed.

Lemma Gathered_fewer wd names tr s out : Gathered wd names tr s out → Gathered wd [] tr s out.
Proof. intros [H1 H2 H3 H4 H5]. split; try done. by intros n ?%elem_of_nil. Qed.

(** What ends an expansion early. *)
Definition stops (wd : string) (tr : list (event Scraper.Op)) (e : Expanded) : Prop :=
  match e.2 with
  | Some (GlobFailed text) => e.1 = [] ∧ text ≠ ""
  | Some ErrTooManyMatches => ∃ out seen_, e.1 = sort_by by_RelPath out ∧ length out = MaxMatchedFiles ∧ Gathered wd [] tr seen_ out
  | None => False
  end.

Lemma expand_match_step wd names n tr seen_ out tr' r :
  n ∈ seen matched tr → length out < MaxMatchedFiles → Gathered wd names tr seen_ out → exec (expand_match wd n (seen_, out)) tr' r →
  seen matched tr' = [] ∧ seen patterns_matched tr' = [] ∧ seen stored tr' = [] ∧ seen tried tr' = [] ∧ seen reports tr' = [] ∧
  Forall (eq (Join wd n)) (seen named tr') ∧
  match r with
  | inl e => stops wd (tr ++ tr') e
  | inr st' => Gathered wd (names ++ [n]) (tr ++ tr') st'.1 st'.2 ∧ length st'.2 < MaxMatchedFiles
  end.
Proof.
  intros Hn Hlen HG Hex. unfold expand_match in Hex. cbn zeta in Hex. case_bool_decide as Hin.
  { apply exec_ret_inv in Hex as [-> ->]. split_and!; [done..|constructor| |done]. rewrite app_nil_r. destruct HG as [H1 H2 H3 H4 H5]. split; [done..|].
    intros n' [Hn'| ->%list_elem_of_singleton]%elem_of_app; [by apply H5|]. left. by apply H1. }
  assert (Hskip : ∀ info, looked _ (FStat (Join wd n)) info = [(Join wd n, false)] →
    Gathered wd (names ++ [n]) (tr ++ [Ev (FStat (Join wd n)) info]) seen_ out).
  { intros info Hi. pose proof (Gathered_more wd names tr [Ev (FStat (Join wd n)) info] _ _ HG) as [H1 H2 H3 H4 H5]. split; [done..|].
    intros n' [Hn'| ->%list_elem_of_singleton]%elem_of_app; [by eapply H5|]. right. rewrite seen_app, elem_of_app, seen_cons, Hi. right. apply list_elem_of_here. }
  exec_step. destruct r0 as [[]|e]; [apply exec_ret_inv in Hex as [-> ->]; split_and!; [done..|by repeat constructor|by apply Hskip|done]| |
    apply exec_ret_inv in Hex as [-> ->]; split_and!; [done..|by repeat constructor|by apply Hskip|done]].
  assert (HG' : Gathered wd (names ++ [n]) (tr ++ [Ev (FStat (Join wd n)) (Ok false)]) ({[Join wd n]} ∪ seen_) (out ++ [mkMatch (Join wd n) n])).
  { apply (Gathered_more _ _ _ [Ev (FStat (Join wd n)) (Ok false)]) in HG as HG'. destruct HG' as [H1 H2 H3 H4 H5]. split.
    - intros p. rewrite fmap_app, elem_of_app. cbn [fmap list_fmap gm_AbsPath].
      rewrite list_elem_of_singleton, elem_of_union, elem_of_singleton, H1. tauto.
    - apply Forall_app. split; [done|]. by repeat constructor.
    - rewrite fmap_app. apply NoDup_app. split; [done|]. split; [|apply NoDup_singleton]. intros x Hx Hxn%list_elem_of_singleton.
      cbn [gm_RelPath] in Hxn. subst x. apply list_elem_of_fmap in Hx as (m & Hm & Hin'). rewrite Forall_forall in H2.
      apply Hin, H1. rewrite Hm, <- (H2 m Hin'). by apply list_elem_of_fmap_2.
    - apply Forall_app. split; [done|]. constructor; [|constructor]. rewrite !seen_app, !elem_of_app. cbn [gm_RelPath gm_AbsPath].
      split; [by left|right; apply list_elem_of_here].
    - intros n' Hn'. rewrite fmap_app, elem_of_app. apply elem_of_app in Hn' as [Hn'| ->%list_elem_of_singleton]; [destruct (H5 n' Hn'); tauto|].
      left. right. apply list_elem_of_here. }
  destruct (Nat.leb_spec MaxMatchedFiles (length (out ++ [mkMatch (Join wd n) n]))) as [Hl|Hl]; apply exec_ret_inv in Hex as [-> ->];
    (do 5 (split; [done|]); split; [by repeat constructor|]).
  - eexists _, _. split; [reflexivity|]. rewrite length_app in Hl |- *. cbn [length] in *. split; [lia|]. by apply (Gathered_fewer wd (names ++ [n])).
  - split; [exact HG'|done].
Qed.

(** What the loop over one pattern's matches shows. *)
Record Matching (wd : string) (ms : list string) (tr : list (event Scraper.Op)) : Prop := {
  mt_matched : seen matched tr = [];
  mt_patterns : seen patterns_matched tr = [];
  mt_stored : seen stored tr = [];
  mt_tried : seen tried tr = [];
  mt_reports : seen reports tr = [];
  mt_named : Forall (fun p => p ∈ Join wd <$> ms) (seen named tr) }.

Lemma expand_matches wd names ms tr st tr' r :
  (∀ n, n ∈ ms → n ∈ seen matched tr) → Gathered wd names tr st.1 st.2 → length st.2 < MaxMatchedFiles →
  exec (for_state ms st (expand_match wd)) tr' r →
  Matching wd ms tr' ∧
  match r with
  | inl e => stops wd (tr ++ tr') e
  | inr st' => Gathered wd (names ++ ms) (tr ++ tr') st'.1 st'.2 ∧ length st'.2 < MaxMatchedFiles
  end.
Proof.
  intros Hms HG Hlen Hex.
  cut (match r with
       | inl e => Matching wd ms tr' ∧ stops wd (tr ++ tr') e
       | inr st' => Matching wd ms tr' ∧ Gathered wd (names ++ ms) (tr ++ tr') st'.1 st'.2 ∧ length st'.2 < MaxMatchedFiles
       end); [by destruct r|].
  eapply (exec_for_state (fun pre t st => Matching wd ms t ∧ Gathered wd (names ++ pre) (tr ++ t) st.1 st.2 ∧ length st.2 < MaxMatchedFiles)
    (fun t e => Matching wd ms t ∧ stops wd (tr ++ t) e)); [| |exact Hex].
  { split; [by split|]. by rewrite !app_nil_r. }
  clear Hex Hlen HG. intros pre n rest t [s out] t' r' Hms' ([M1 M2 M3 M4 M5 M6] & HG & Hlen) Hex.
  assert (Hn : n ∈ ms) by (rewrite Hms', elem_of_app; right; apply list_elem_of_here).
  apply (expand_match_step wd (names ++ pre) n (tr ++ t)) in Hex as (E1 & E2 & E3 & E4 & E5 & E6 & Hr); [|rewrite seen_app, elem_of_app; left; by apply Hms|done..].
  assert (Matching wd ms (t ++ t')).
  { split; rewrite seen_app, ?M1, ?M2, ?M3, ?M4, ?M5; try done. apply Forall_app. split; [done|].
    eapply Forall_impl; [exact E6|]. intros p <-. by apply list_elem_of_fmap_2. }
  rewrite <- !app_assoc in Hr. destruct r'; done.
Qed.

Definition expanding (wd : string) (pats : list string) (tr : list (event Scraper.Op)) (st : Expanding) : Prop :=
  Gathered wd (seen matched tr) tr st.1 st.2 ∧ length st.2 < MaxMatchedFiles ∧ Looking wd tr ∧ seen patterns_matched tr = pats.

Lemma expand_pattern_step wd pat pats tr st tr' r :
  expanding wd pats tr st → exec (expand_pattern wd pat st) tr' r →
  match r with
  | inl e => stops wd (tr ++ tr') e ∧ Looking wd (tr ++ tr')
  | inr st' => expanding wd (pats ++ [pat]) (tr ++ tr') st'
  end.
Proof.
  intros (HG & Hlen & HL & Hp) Hex. unfold expand_pattern in Hex. destruct (IsAbs pat).
  { apply exec_ret_inv in Hex as [-> ->]. rewrite app_nil_r. split; [|done]. split; [done|]. discriminate. }
  apply exec_perform_bind_inv in Hex as ([ms|e] & t & -> & Hex); cycle 1.
  { apply exec_ret_inv in Hex as [-> ->]. split; [split; [done|]; discriminate|]. apply Looking_app; [done|]. split; done || constructor. }
  change (Ev (FSGlob wd pat) (Ok ms) :: t) with ([Ev (FSGlob wd pat) (Ok ms)] ++ t). rewrite app_assoc.
  apply (expand_matches wd (seen matched tr) ms (tr ++ [Ev (FSGlob wd pat) (Ok ms)])) in Hex as ([M1 M2 M3 M4 M5 M6] & Hr);
    [|intros n Hn; rewrite seen_app, elem_of_app; right; cbn; by rewrite app_nil_r|by apply Gathered_more|done].
  assert (HL' : Looking wd ((tr ++ [Ev (FSGlob wd pat) (Ok ms)]) ++ t)).
  { rewrite <- app_assoc. apply Looking_app; [done|]. split; rewrite !seen_app, ?M1, ?M3, ?M4, ?M5; try done. cbn. by rewrite !app_nil_r. }
  destruct r as [e|st']; [done|]. destruct Hr as [Hg Hl]. split; [|split; [done|split; [done|]]].
  - rewrite !seen_app, M1, app_nil_r. cbn. by rewrite app_nil_r.
  - by rewrite !seen_app, M2, Hp, app_nil_r.
Qed.

(** What the expansion of the patterns gives. *)
Record Expansion (wd : string) (patterns : list string) (tr : list (event Scraper.Op)) (ms : list GlobMatch) (err : option glob_error) : Prop := {
  ex_looking : Looking wd tr;
  ex_abs : Forall (fun m => gm_AbsPath m = Join wd (gm_RelPath m)) ms;
  ex_once : NoDup (gm_RelPath <$> ms);
  ex_sorted : StronglySorted (fun a b => String.ltb b a = false) (gm_RelPath <$> ms);
  ex_files : Forall (fun m => gm_RelPath m ∈ seen matched tr ∧ (gm_AbsPath m, true) ∈ seen looked tr) ms;
  ex_end : match err with
           | None =>
               seen patterns_matched tr = patterns ∧ length ms < MaxMatchedFiles ∧
               ∀ n, n ∈ seen matched tr → Join wd n ∈ gm_AbsPath <$> ms ∨ (Join wd n, false) ∈ seen looked tr
           | Some ErrTooManyMatches => length ms = MaxMatchedFiles
           | Some (GlobFailed e) => ms = [] ∧ e ≠ ""
           end }.

Lemma Gathered_sorted wd names tr s out :
  Gathered wd names tr s out →
  Forall (fun m => gm_AbsPath m = Join wd (gm_RelPath m)) (sort_by by_RelPath out) ∧ NoDup (gm_RelPath <$> sort_by by_RelPath out) ∧
  StronglySorted (fun a b => String.ltb b a = false) (gm_RelPath <$> sort_by by_RelPath out) ∧
  Forall (fun m => gm_RelPath m ∈ seen matched tr ∧ (gm_AbsPath m, true) ∈ seen looked tr) (sort_by by_RelPath out).
Proof.
  intros [H1 H2 H3 H4 H5]. split_and!; [by rewrite sort_by_perm|by rewrite sort_by_perm| |by rewrite sort_by_perm].
  pose proof (sort_by_sorted by_RelPath out (by_key_order gm_RelPath)) as Hs. unfold in_order in Hs.
  induction Hs as [|x xs Hs IH Hx]; [constructor|]. constructor; [done|]. by apply Forall_fmap.
Qed.

Lemma ExpandGlobs_expansion wd patterns tr ms err :
  exec (ExpandGlobs wd patterns) tr (ms, err) → Expansion (Clean wd) patterns tr ms err.
Proof.
  unfold ExpandGlobs. intros Hex. destruct patterns as [|p0 patterns'].
  { apply exec_ret_inv in Hex as [-> [= -> ->]]. split; [apply Looking_nil|constructor..|]. cbn. unfold MaxMatchedFiles. split_and!; [done|lia|]. by intros n ?%elem_of_nil. }
  set (patterns := p0 :: patterns') in *.
  apply exec_bind_inv in Hex as (t & tr2 & r & -> & Hfor & Hex).
  eapply (exec_for_state (fun pre t st => expanding (Clean wd) pre t st) (fun t e => stops (Clean wd) t e ∧ Looking (Clean wd) t)) in Hfor.
  2: { split; [|unfold MaxMatchedFiles; split_and!; [cbn; lia|apply Looking_nil|done]]. split; try constructor; cbn; try set_solver. }
  2: { intros. by eapply expand_pattern_step. }
  destruct r as [[ms' err']|[s out]]; apply exec_ret_inv in Hex as [-> [= -> ->]]; rewrite app_nil_r in *.
  - destruct Hfor as [Hstop HL]. unfold stops in Hstop. cbn [fst snd] in Hstop. destruct err' as [[|e]|]; [| |done].
    + destruct Hstop as (out & s & -> & Hl & HG). destruct (Gathered_sorted _ _ _ _ _ HG) as (?&?&?&?). split; try done. by rewrite length_sort_by.
    + destruct Hstop as [-> He]. split; [done|apply Forall_nil_2|apply NoDup_nil_2|constructor|apply Forall_nil_2|done].
  - destruct Hfor as (HG & Hl & HL & Hp). cbn [fst snd] in *. destruct (Gathered_sorted _ _ _ _ _ HG) as (?&?&?&?). split; try done.
    rewrite length_sort_by. split_and!; [done|done|]. intros n Hn. rewrite sort_by_perm. destruct HG as [_ _ _ _ H5]. auto.
Qed.

(** ** A scrape *)

Lemma StronglySorted_sublist {A} (R : A → A → Prop) xs ys : xs `sublist_of` ys → StronglySorted R ys → StronglySorted R xs.
Proof.
  induction 1 as [|x xs ys Hs IH|x xs ys Hs IH]; intros HS; [done| |]; apply StronglySorted_inv in HS as [HS Hx]; [|by apply IH].
  constructor; [by apply IH|]. rewrite Forall_forall in Hx |- *. intros y Hy. apply Hx. by eapply elem_of_sublist.
Qed.

Lemma sublist_whole {A} (xs ys : list A) : xs `sublist_of` ys → length ys ≤ length xs → xs = ys.
Proof.
  induction 1 as [|x xs ys Hs IH|x xs ys Hs IH]; cbn; [done| |]; intros Hl; [f_equal; apply IH; lia|].
  apply sublist_length in Hs. lia.
Qed.

Lemma appendMsg_empty a b : appendMsg a b = "" → b = "".
Proof. unfold appendMsg. destruct (String.eqb_spec a ""); [done|]. by destruct a. Qed.

Lemma scrape_result_clean st : sr_ScrapeError (scrape_result st) = "" → sd_UploadErrs st = [] ∧ sd_Error st = "".
Proof. unfold scrape_result. cbn. destruct (sd_UploadErrs st); [done|]. cbn [length Nat.ltb Nat.leb]. intros Hr%appendMsg_empty. discriminate Hr. Qed.

Lemma Artifact_inj keys a b : Artifact keys a = Artifact keys b → a = b.
Proof. unfold Artifact. induction (Artifacts keys) as [|c s IH]; [done|]. rewrite !str_app_cons. intros [= E]. by apply IH. Qed.

(** What a scrape did: the expansion, then the uploads of some first matches — of
    all of them unless it says otherwise. *)
Lemma Scrape_course s workingDir prefix paths tr r :
  exec (Scrape s workingDir prefix paths) tr (Ok r) →
  ∃ keys tr1 tr2 ms err, ParseRunKeys prefix = Ok keys ∧ tr = tr1 ++ tr2 ∧ Expansion (Clean workingDir) paths tr1 ms err ∧
  ∃ st pre e0, r = scrape_result st ∧ pre `prefix_of` ms ∧ Progress (sc_Bucket s) keys (Clean workingDir) e0 pre tr2 st ∧
    (e0 = "" → pre = ms ∧ err = None).
Proof.
  unfold Scrape. destruct (negb (sc_Uploader s)); [by intros [_ ?]%exec_ret_inv|].
  destruct (sc_Bucket s =? "")%string; [by intros [_ ?]%exec_ret_inv|]. destruct (ParseRunKeys prefix) as [keys|e]; [|by intros [_ ?]%exec_ret_inv].
  intros (tr1 & tr2 & [ms err] & -> & HE%ExpandGlobs_expansion & Hex)%exec_bind_inv. cbn beta iota in Hex.
  assert (Hup : ∀ e0 tr' x, exec (r ← upload_matches (sc_Bucket s) keys ms e0; Ret (Ok r)) tr' (@Ok string _ x) → (err = None ∧ e0 = "" ∨ e0 ≠ "") →
    ∃ st pre e1, x = scrape_result st ∧ pre `prefix_of` ms ∧ Progress (sc_Bucket s) keys (Clean workingDir) e1 pre tr' st ∧ (e1 = "" → pre = ms ∧ err = None)).
  { intros e0 tr' x (t1 & t2 & y & -> & Hm & Hr)%exec_bind_inv He. apply exec_ret_inv in Hr as [-> [= ->]]. rewrite app_nil_r.
    apply (upload_matches_progress _ _ (Clean workingDir)) in Hm as (st & -> & [HP|(pre & msg & Hpre & Hmsg & HP)]); [| |apply HE].
    - exists st, ms, e0. split_and!; [done|done|done|]. intros ->. by destruct He as [[-> _]|He].
    - exists st, pre, (appendMsg e0 msg). split_and!; [done..|]. by intros ?%appendMsg_empty. }
  exists keys, tr1, tr2, ms, err. split; [done|]. split; [done|]. split; [done|].
  destruct err as [[|e]|].
  - eapply Hup; [exact Hex|]. right. discriminate.
  - apply exec_ret_inv in Hex as [-> [= ->]]. destruct HE as [_ _ _ _ _ [-> He]].
    exists (mkScraped [] [] e None []), [], e. split; [done|]. split; [done|]. split; [apply Progress_start|done].
  - eapply Hup; [exact Hex|]. by left.
Qed.

(** C27: every artifact the result of a scrape lists was stored, with its size and type, under
    its run's prefix, once and in the order of the paths, after at most three tries each;
    nothing else was; the reports read are the XML files among them, and the counts and
    cases are theirs, the cases up to their limit; and when the result has no error, every
    pattern was matched and every file matched is listed. *)
Theorem scrape_stores s workingDir prefix paths tr r :
  exec (Scrape s workingDir prefix paths) tr (Ok r) →
  ∃ keys, ParseRunKeys prefix = Ok keys ∧
    seen stored tr = object_of (sc_Bucket s) <$> sr_Artifacts r ∧
    Forall (fun a => ar_Key a = Artifact keys (ar_Path a) ∧ ar_Path a ∈ seen matched tr) (sr_Artifacts r) ∧
    NoDup (ar_Path <$> sr_Artifacts r) ∧ StronglySorted (fun a b => String.ltb b a = false) (ar_Path <$> sr_Artifacts r) ∧
    (∀ k, times k (seen tried tr) ≤ MaxUploadAttempts) ∧
    (seen reports tr).*1 = Join (Clean workingDir) <$> List.filter is_xml (ar_Path <$> sr_Artifacts r) ∧
    sr_TestCounts r = counted (flat_map parsed (seen reports tr)) ∧
    sr_TestCases r = take MaxTestCases (flat_map snd (flat_map parsed (seen reports tr))) ∧
    (sr_ScrapeError r = "" → seen patterns_matched tr = paths ∧
       ∀ n, n ∈ seen matched tr →
         Join (Clean workingDir) n ∈ Join (Clean workingDir) <$> (ar_Path <$> sr_Artifacts r) ∨ (Join (Clean workingDir) n, false) ∈ seen looked tr).
Proof.
  intros (keys & tr1 & tr2 & ms & err & Hk & -> & [[L1 L2 L3 L4] E1 E2 E3 E4 E5] & st & pre & e0 & -> & Hpre & [P1 P2 P3 P4 P5 P6 P7 P8 P9 P10 P11] & Hclean)%Scrape_course.
  exists keys. split; [done|]. rewrite !seen_app, L1, L2, L3. cbn [app scrape_result sr_Artifacts sr_TestCounts sr_TestCases].
  assert (Hsub : ar_Path <$> sd_Artifacts st `sublist_of` gm_RelPath <$> ms).
  { etrans; [exact P3|]. destruct Hpre as [k ->]. rewrite fmap_app. by apply sublist_inserts_r. }
  split; [done|]. split.
  { apply Forall_and. split; [done|]. apply Forall_forall. intros a Ha. rewrite elem_of_app. left.
    assert (ar_Path a ∈ gm_RelPath <$> ms) as (m & -> & Hm)%list_elem_of_fmap by (eapply elem_of_sublist; [|exact Hsub]; by apply list_elem_of_fmap_2).
    rewrite Forall_forall in E4. by apply E4. }
  split; [by eapply sublist_NoDup|]. split; [by eapply StronglySorted_sublist|]. split.
  { intros k. rewrite (P5 k). assert (times k ((fun m => Artifact keys (gm_RelPath m)) <$> pre) ≤ 1); [|unfold MaxUploadAttempts; lia].
    apply times_NoDup. destruct Hpre as [l ->]. rewrite fmap_app in E2. apply NoDup_app in E2 as [E2 _].
    rewrite (list_fmap_compose gm_RelPath (Artifact keys)). apply NoDup_fmap_2; [|done]. intros a b. apply Artifact_inj. }
  split; [done|]. split; [done|]. split; [done|]. intros [Hu He]%scrape_result_clean.
  rewrite P10 in He. destruct (Hclean He) as [-> ->]. destruct E5 as (Hp & _ & Hall).
  assert (ar_Path <$> sd_Artifacts st = gm_RelPath <$> ms) as Eq.
  { apply sublist_whole; [done|]. rewrite Hu in P4. rewrite !length_fmap. cbn in P4. lia. }
  assert (Eabs : gm_AbsPath <$> ms = Join (Clean workingDir) <$> (gm_RelPath <$> ms)).
  { rewrite <- list_fmap_compose. apply list_fmap_ext. intros i m Hm. rewrite Forall_lookup in E1. exact (E1 i m Hm). }
  destruct P11 as [G1 G2]. rewrite G1, G2, !app_nil_r, Eq, <- Eabs. split; [done|]. intros n Hn. rewrite elem_of_app. destruct (Hall n Hn); tauto.
Qed.

(** io/fs.ValidPath: the names a file system rooted at a directory has. *)
Definition ValidPath (p : string) : Prop := p = "." ∨ Forall proper (Split slash p).

Lemma under_Join_valid dir p : IsAbs dir = true → ValidPath p → under dir (Join dir p) = true.
Proof.
  intros Ha Hp. unfold under. rewrite IsAbs_Join by done. cbn [andb]. rewrite bool_decide_eq_true. unfold Join.
  assert ((dir =? "")%string = false) as -> by (by destruct dir).
  assert ((p =? "")%string = false) as ->.
  { destruct Hp as [->|Hp]; [done|]. destruct p; [|done]. by apply Forall_cons in Hp as [(_ & ? & _)%proper_iff _]. }
  rewrite clean_elems_Clean, clean_elems_app by (done || by apply HasPrefix_app). destruct Hp as [->|Hp].
  - change (foldl (clean_step true) (reverse (clean_elems dir)) (Split slash ".")) with (reverse (clean_elems dir)). by rewrite reverse_involutive.
  - rewrite clean_steps_id by done. rewrite reverse_app, !reverse_involutive. by apply prefix_app_r.
Qed.

(** when the patterns match only names a rooted file system has, every file a scrape
    names lies, as a path, in the working directory, and every object it tries to store is
    one of its run's artifacts, named by such a path. *)
Theorem scrape_confined s workingDir prefix paths tr r :
  IsAbs workingDir = true → Forall ValidPath (seen matched tr) → exec (Scrape s workingDir prefix paths) tr (Ok r) →
  Forall (fun p => under workingDir p = true) (seen named tr) ∧
  Forall (fun k => ∃ keys rel, ParseRunKeys prefix = Ok keys ∧ k = Artifact keys rel ∧ ValidPath rel) (seen tried tr).
Proof.
  intros Ha Hv (keys & tr1 & tr2 & ms & err & Hk & -> & [[L1 L2 L3 L4] E1 E2 E3 E4 E5] & st & pre & e0 & -> & Hpre & [P1 P2 P3 P4 P5 P6 P7 P8 P9 P10 [G1 G2]] & _)%Scrape_course.
  rewrite seen_app, G1, app_nil_r in Hv. rewrite Forall_forall in Hv.
  assert (Hu : ∀ n, n ∈ seen matched tr1 → under workingDir (Join (Clean workingDir) n) = true).
  { intros n Hn. rewrite <- under_Clean_l by done. apply under_Join_valid; [by apply IsAbs_Clean|by apply Hv]. }
  assert (Hms : ∀ m, m ∈ pre → gm_RelPath m ∈ seen matched tr1 ∧ gm_AbsPath m = Join (Clean workingDir) (gm_RelPath m)).
  { intros m Hm. assert (m ∈ ms) as Hm' by (destruct Hpre as [l ->]; rewrite elem_of_app; by left). rewrite Forall_forall in E1, E4. naive_solver. }
  rewrite !seen_app, L2, app_nil_l. split.
  - apply Forall_app. split.
    + eapply Forall_impl; [exact L4|]. intros p (n & -> & Hn)%list_elem_of_fmap. by apply Hu.
    + eapply Forall_impl; [exact P6|]. intros p (m & -> & Hm)%list_elem_of_fmap. destruct (Hms m Hm) as [Hin ->]. by apply Hu.
  - apply Forall_forall. intros k Hin. destruct (decide (k ∈ (fun m => Artifact keys (gm_RelPath m)) <$> pre)) as [(m & -> & Hm)%list_elem_of_fmap|Hno].
    + exists keys, (gm_RelPath m). split; [done|]. split; [done|]. by apply Hv, Hms.
    + exfalso. pose proof (P5 k) as Ht. rewrite (times_absent _ _ Hno) in Ht. by apply times_present in Hin; lia.
Qed.

End Uploads.

(** ** A run of it *)

Definition demo_mime : MimeTypes := fun ext => if (ext =? ".xml")%string then "text/xml; charset=utf-8" else "".

(** A working directory with a report and a log; the first [busy] uploads fail, and the
    context is over once [cancelled] of them did. *)
Definition demo_dir (busy cancelled : nat) : ∀ R, Scraper.Op R → nat → R * nat := fun R o =>
  match o in Scraper.Op R return nat → R * nat with
  | FSGlob _ pat => fun n => (Ok (if (pat =? "reports/*.xml")%string then ["reports/junit.xml"] else ["reports"; "reports/junit.xml"; "out.log"]), n)
  | FStat p => fun n => (Ok (p =? "/data/repo/reports")%string, n)
  | CtxState => fun n => ((if (cancelled <=? n)%nat then Canceled else Live), n)
  | Open _ => fun n => (Ok 3, n)
  | Size _ => fun n => (Ok 81%Z, n)
  | ReadHead _ _ => fun n => ("all passed", n)
  | SeekStart _ => fun n => (None, n)
  | Put _ _ _ _ _ => fun n => ((if (n <? busy)%nat then Some "503" else None), S n)
  | AddBytes _ | Close _ => fun n => (tt, n)
  | After _ => fun n => (true, n)
  | ReadReport _ => fun n => (Ok (Ok failing_xml), n)
  | PutBytes _ _ _ _ _ => fun n => (None, n)
  end.

Definition demo_program : M (result string ScrapeResult) :=
  Scrape (H := demo_mime) (H0 := demo_report_lib) (mkScraper true "kubetest") "/data/repo" (ForRun "team-a" "0f3e") ["reports/*.xml"; "**"].
Definition demo_scrape (busy cancelled : nat) : result string ScrapeResult * nat * list (event Scraper.Op) :=
  run (demo_dir busy cancelled) demo_program 0.

Definition demo_scraped : ScrapeResult :=
  mkScrape [mkArtifactRef "out.log" "runs/team-a/0f3e/artifacts/out.log" 81 "text/plain; charset=utf-8";
            mkArtifactRef "reports/junit.xml" "runs/team-a/0f3e/artifacts/reports/junit.xml" 81 "text/xml; charset=utf-8"]
    (Some (mkTestCounts 1 1 0 0)) [toTestCase (H := demo_report_lib) "shop" failing_case] "".

Example demo_scrape_result : (demo_scrape 2 100).1.1 = Ok demo_scraped.
Proof. vm_compute. reflexivity. Qed.
Lemma demo_scrape_exec : exec demo_program (demo_scrape 2 100).2 (Ok demo_scraped).
Proof. rewrite <- demo_scrape_result. apply run_exec. Qed.

Lemma scrape_stores_witness :
  ∃ tr, exec demo_program tr (Ok demo_scraped) ∧ seen stored tr = object_of "kubetest" <$> sr_Artifacts demo_scraped.
Proof.
  exists (demo_scrape 2 100).2. split; [exact demo_scrape_exec|].
  destruct (scrape_stores _ _ _ _ _ _ demo_scrape_exec) as (keys & _ & Hs & _). exact Hs.
Defined.

Lemma scrape_confined_witness : Forall (fun p => under "/data/repo" p = true) (seen named (demo_scrape 2 100).2).
Proof.
  refine (proj1 (scrape_confined _ "/data/repo" _ _ _ _ eq_refl _ demo_scrape_exec)).
  assert (seen matched (demo_scrape 2 100).2 = ["reports/junit.xml"; "reports"; "reports/junit.xml"; "out.log"]) as -> by (vm_compute; reflexivity).
  repeat constructor; right; repeat constructor.
Defined.

(** An upload given up after one try, as the run is over, is still said to have
    been tried three times. *)
Example cancelled_upload_says_three :
  option_map sr_ScrapeError (match (demo_scrape 9 1).1.1 with Ok r => Some r | Err _ => None end) =
    Some "scrape cancelled: context canceled; upload failed for 1 files: out.log: after 3 attempts: 503" ∧
  seen tried (demo_scrape 9 1).2 = ["runs/team-a/0f3e/artifacts/out.log"].
Proof. vm_compute. split; reflexivity. Qed.

End ScraperSpec.
