(* ===== verification/Fetcher.v ===== *)
(** * pkg/executor/fetcher: the init container that fetches a test's code

    [Fetch] — git, then the inline files, then the tarballs, then the check of the
    data mounts and the hand-over to any user — as a program over the file system,
    git, HTTP, the environment and the log.  Every path it computes is computed
    here; what a path means on disk is the environment's. *)
From S2P Require Import Prelude Api GoLib Names Keys Paths Objects Effects Compiler Verdicts Termination Wrapper.

Module Fetcher.
Import Objects Paths Compiler Termination Wrapper.

(** ** The content (types.go) *)

Record Git := mkGitSpec { fg_URI : string; fg_Revision : string; fg_Paths : list string; fg_MountPath : string; fg_AuthType : string }.
Record File := mkFile { ff_Path : string; ff_Content : string; ff_ContentFrom : string; ff_Mode : option Z }.
Record EmptyMount := mkEmptyMount { em_Name : string; em_Path : string }.
Record Content := mkContent { fc_Git : option Git; fc_Files : list File; fc_Tarball : list Tarball; fc_EmptyMounts : list EmptyMount }.

Definition AuthTypeBasic : string := "basic".
Definition AuthTypeHeader : string := "header".
Definition AuthTypeSSH : string := "ssh".
Definition EnvFetchTimeoutSeconds : string := "KUBETEST_FETCH_TIMEOUT_SECONDS".
Definition DefaultFetchTimeoutSeconds : Z := 300.
Definition DefaultDataDir : string := "/data".
Definition DefaultGitMount : string := "repo".
Definition ContentInfoFile : string := ".kubetest-content.json".
Definition FetchErrorPrefix : string := "FETCH_ERROR:".

(** What the fetcher decodes from the content the compiler encodes: the fields
    whose JSON names the two share. *)
Definition decoded (c : fetcherContent) : Content :=
  mkContent
    ((fun g => mkGitSpec (git_URI g) (git_Revision g) (git_Paths g) (git_MountPath g) (git_AuthType g)) <$> fx_Git c)
    ((fun f => mkFile (Objects.ff_Path f) (Objects.ff_Content f) "" (Objects.ff_Mode f)) <$> fx_Files c)
    (fx_Tarball c)
    ((fun m => mkEmptyMount (Objects.em_Name m) (Objects.em_Path m)) <$> fx_EmptyMounts c).

(** ** What the fetcher does outside

    File modes are decimal here: 493 is 0755, 420 is 0644, 511 is 0777, 438 is 0666
    and 73 is 0111. *)

(** A directory tree as a walk sees it: a file with whether its information could
    be read, its mode and size; a directory, and why it could not be listed. *)
Inductive kind := Regular | Symbolic | Special.
Inductive tree :=
| Entry_ (name : string) (k : kind) (info : result string (Z * Z))
| Dir_ (name : string) (children : list tree) (unreadable : option string).

Inductive tar_type := TypeDir | TypeReg | TypeSymlink | TypeLink | TypeOther.
Record tar_header := mkHeader { th_Name : string; th_Type : tar_type; th_Mode : Z; th_Linkname : string }.

Inductive FOp : Type → Type :=
| ReadContent (path : string) : FOp (result string Content)
| FetchTimeout (d : duration) : FOp unit
| TimedOut : FOp bool
| FNow : FOp time
| Getwd : FOp (result string string)
| LookupEnv (key : string) : FOp (option string)
| FMkdirAll (path : string) (mode : Z) : FOp (option string)
| WriteFile (path payload : string) (mode : Z) : FOp (option string)
| StatPath (path : string) : FOp (result string (bool * Z))
| WalkTree (path : string) : FOp (result string tree)
| OpenRoot (path : string) : FOp (option string)
| Chmod (root path : string) (mode : Z) : FOp (option string)
| RunGit (dir : string) (env args : list string) : FOp (option string)
| GitOutput (dir : string) (args : list string) : FOp (result string string)
| NewRequest (url : string) : FOp (option string)
| HttpGet (url : string) : FOp (result string Z)
| OpenArchive (url : string) : FOp (result string (list (result string tar_header)))
| OpenFile (path : string) (mode : Z) : FOp (option string)
| CopyEntry (path : string) : FOp (option string)
| CloseFile (path : string) : FOp (option string)
| MakeSymlink (old new : string) : FOp (option string)
| FSay (line : string) : FOp unit
| FTermination (path text : string) : FOp unit.

Class FetcherLib := {
  FetcherLib_text :: WrapperLib;
  (** net/url: a URL without its user info, when it has one *)
  WithoutUser : string → option string;
  (** encoding/base64 *)
  Base64 : string → string;
}.

Abbreviation M := (prog FOp).
Definition fsay (line : string) : M unit := perform (FSay line).

(** [if err := p; err != nil { return wrap(err) }] *)
Definition ensure (p : M (option string)) (wrap : string → string) (k : M (option string)) : M (option string) :=
  err ← p; match err with Some e => Ret (Some (wrap e)) | None => k end.
Definition plainly (e : string) : string := e.

(** [for _, x := range xs { if err := body(x); err != nil { return err } }; return nil] *)
Fixpoint each_ok {A} (xs : list A) (body : A → M (option string)) : M (option string) :=
  match xs with [] => Ret None | x :: xs => ensure (body x) plainly (each_ok xs body) end.

(** filepath.Abs. *)
Definition Abs (p : string) (k : result string string → M (option string)) : M (option string) :=
  if IsAbs p then k (Ok (Clean p))
  else wd ← perform Getwd; k (match wd with Ok wd => Ok (Join wd p) | Err e => Err e end).


(** ** Confinement (files.go) *)

Definition isUnder (target base : string) : bool :=
  match Rel base target with
  | Err _ => false
  | Ok rel => if (rel =? ".")%string then true else negb (HasPrefix rel "..") && negb (HasPrefix rel "/")
  end.

Definition payload_of (f : File) (k : string → M (option string)) : M (option string) :=
  if negb (ff_Content f =? "")%string then k (ff_Content f)
  else if negb (ff_ContentFrom f =? "")%string then
    v ← perform (LookupEnv (ff_ContentFrom f));
    match v with Some v => k v | None => Ret (Some ("contentFrom env " +:+ quote (ff_ContentFrom f) +:+ " not set")) end
  else k "".

Definition writeOneFile (dstAbs : string) (f : File) : M (option string) :=
  if (ff_Path f =? "")%string then Ret (Some "empty path")
  else if IsAbs (ff_Path f) then Ret (Some "absolute path forbidden")
  else
    let target := Join dstAbs (ff_Path f) in
    if negb (isUnder target dstAbs) then Ret (Some "path escapes datadir")
    else
      ensure (perform (FMkdirAll (Dir target) 493)) (fun e => "mkdir: " +:+ e)
        (payload_of f (fun payload =>
           ensure (perform (WriteFile target payload (default 420%Z (ff_Mode f)))) (fun e => "write: " +:+ e) (Ret None))).

Definition writeFiles (dstDir : string) (files : list File) : M (option string) :=
  Abs dstDir (fun dst =>
    match dst with
    | Err e => Ret (Some ("resolve dst: " +:+ e))
    | Ok dstAbs => each_ok files (fun f => ensure (writeOneFile dstAbs f) (fun e => "file " +:+ quote (ff_Path f) +:+ ": " +:+ e) (Ret None))
    end).

(** ** Tarballs (tarball.go) *)

Definition extractOneEntry (rootAbs : string) (hdr : tar_header) : M (option string) :=
  if IsAbs (th_Name hdr) then Ret (Some ("zip-slip: absolute entry " +:+ quote (th_Name hdr)))
  else
    let target := Join rootAbs (th_Name hdr) in
    if negb (isUnder target rootAbs) then Ret (Some ("zip-slip: entry " +:+ quote (th_Name hdr) +:+ " escapes root"))
    else
      let mode := Z.land (th_Mode hdr) 511 in
      match th_Type hdr with
      | TypeDir => perform (FMkdirAll target mode)
      | TypeReg =>
          ensure (perform (FMkdirAll (Dir target) 493)) (fun e => "mkdir parent: " +:+ e)
            (ensure (perform (OpenFile target mode)) (fun e => "open " +:+ target +:+ ": " +:+ e)
               (copied ← perform (CopyEntry target);
                match copied with
                | Some e => _ ← perform (CloseFile target); Ret (Some ("write " +:+ target +:+ ": " +:+ e))
                | None => ensure (perform (CloseFile target)) (fun e => "close " +:+ target +:+ ": " +:+ e) (Ret None)
                end))
      | TypeSymlink | TypeLink =>
          let linkTarget := if IsAbs (th_Linkname hdr) then th_Linkname hdr else Join (Dir target) (th_Linkname hdr) in
          if negb (isUnder linkTarget rootAbs) then
            Ret (Some ("zip-slip: symlink " +:+ quote (th_Name hdr) +:+ " -> " +:+ quote (th_Linkname hdr) +:+ " escapes root"))
          else
            ensure (perform (FMkdirAll (Dir target) 493)) (fun e => "mkdir parent: " +:+ e)
              (ensure (perform (MakeSymlink (th_Linkname hdr) target)) (fun e => "symlink " +:+ target +:+ ": " +:+ e) (Ret None))
      | TypeOther => Ret None
      end.

(** The entries the archive's reader gives before it ends, or its error. *)
Fixpoint extract_entries (rootAbs : string) (entries : list (result string tar_header)) : M (option string) :=
  match entries with
  | [] => Ret None
  | Err e :: _ => Ret (Some ("tar next: " +:+ e))
  | Ok hdr :: entries => ensure (extractOneEntry rootAbs hdr) plainly (extract_entries rootAbs entries)
  end.

Definition extractTarGz (url root : string) : M (option string) :=
  archive ← perform (OpenArchive url);
  match archive with
  | Err e => Ret (Some ("gzip: " +:+ e))
  | Ok entries =>
      Abs root (fun r => match r with Err e => Ret (Some ("resolve root: " +:+ e)) | Ok rootAbs => extract_entries rootAbs entries end)
  end.

Definition fetchOneTarball (dstAbs : string) (t : Tarball) : M (option string) :=
  let sub := Join dstAbs (tb_Path t) in
  if negb (isUnder sub dstAbs) then Ret (Some ("tarball path " +:+ quote (tb_Path t) +:+ " escapes datadir"))
  else
    ensure (perform (NewRequest (tb_URL t))) (fun e => "new request: " +:+ e)
      (resp ← perform (HttpGet (tb_URL t));
       match resp with
       | Err e => Ret (Some ("download: " +:+ e))
       | Ok status =>
           if (400 <=? status)%Z then Ret (Some ("download: HTTP " +:+ itoa status))
           else ensure (perform (FMkdirAll sub 493)) (fun e => "mkdir: " +:+ e) (extractTarGz (tb_URL t) sub)
       end).

Definition fetchTarballs (dstDir : string) (tarballs : list Tarball) : M (option string) :=
  Abs dstDir (fun dst =>
    match dst with
    | Err e => Ret (Some ("resolve dst: " +:+ e))
    | Ok dstAbs => each_ok tarballs (fun t => ensure (fetchOneTarball dstAbs t) (fun e => "tarball " +:+ tb_URL t +:+ ": " +:+ e) (Ret None))
    end).

(** ** git (git.go) *)

Definition gitConfigEnv (key value : string) : list string :=
  ["GIT_CONFIG_COUNT=1"; "GIT_CONFIG_KEY_0=" +:+ key; "GIT_CONFIG_VALUE_0=" +:+ value].

(** An environment variable that is set and not empty. *)
Definition env_value (key : string) : M (option string) :=
  v ← perform (LookupEnv key); Ret (match v with Some v => if (v =? "")%string then None else Some v | None => None end).

Section Fetching.
Context `{FetcherLib}.

Definition buildAuthEnv (g : Git) : M (result string (list string)) :=
  let auth := ToLower (fg_AuthType g) in
  if (auth =? "")%string then Ret (Ok [])
  else if (auth =? AuthTypeBasic)%string then
    user ← perform (LookupEnv EnvGitUsername);
    token ← env_value EnvGitToken;
    match token with
    | None => Ret (Err ("basic auth: env " +:+ EnvGitToken +:+ " is empty"))
    | Some token =>
        Ret (Ok (gitConfigEnv "http.extraHeader"
                   ("Authorization: Basic " +:+ Base64 (Wrapper.orDefault (default "" user) "x-access-token" +:+ ":" +:+ token))))
    end
  else if (auth =? AuthTypeHeader)%string then
    token ← env_value EnvGitToken;
    match token with
    | None => Ret (Err ("header auth: env " +:+ EnvGitToken +:+ " is empty"))
    | Some token => Ret (Ok (gitConfigEnv "http.extraHeader" ("Authorization: " +:+ token)))
    end
  else if (auth =? AuthTypeSSH)%string then
    key ← env_value EnvGitSSHKeyPath;
    match key with
    | None => Ret (Err ("ssh auth: env " +:+ EnvGitSSHKeyPath +:+ " is empty"))
    | Some key => Ret (Ok ["GIT_SSH_COMMAND=ssh -i " +:+ key +:+ " -o StrictHostKeyChecking=no -o UserKnownHostsFile=/dev/null"])
    end
  else Ret (Err ("unknown authType " +:+ quote (fg_AuthType g) +:+ " (expected basic/header/ssh)")).

Definition revision (g : Git) : string := Wrapper.orDefault (fg_Revision g) "HEAD".

Definition check_sparse (dstDir p : string) : M (option string) :=
  st ← perform (StatPath (dstDir +:+ "/" +:+ p));
  Ret (match st with Ok _ => None | Err _ => Some ("sparse-checkout path " +:+ quote p +:+ " not present after fetch") end).

Definition clone (g : Git) (dstDir : string) : M (option string) :=
  if (fg_URI g =? "")%string then Ret (Some "empty git.uri")
  else
    auth ← buildAuthEnv g;
    match auth with
    | Err e => Ret (Some e)
    | Ok authEnv =>
        let git args := perform (RunGit dstDir ("GIT_TERMINAL_PROMPT=0" :: authEnv) args) in
        ensure (git ["init"; "--quiet"]) (fun e => "git init: " +:+ e)
          (ensure (git ["remote"; "add"; "origin"; fg_URI g]) (fun e => "git remote add: " +:+ e)
             (let fetch :=
                ensure (git ["fetch"; "--depth=1"; "origin"; revision g]) (fun e => "git fetch: " +:+ e)
                  (ensure (git ["checkout"; "--quiet"; "FETCH_HEAD"]) (fun e => "git checkout: " +:+ e)
                     (each_ok (fg_Paths g) (check_sparse dstDir))) in
              match fg_Paths g with
              | [] => fetch
              | paths =>
                  ensure (git ["sparse-checkout"; "init"; "--cone"]) (fun e => "git sparse-checkout init: " +:+ e)
                    (ensure (git ("sparse-checkout" :: "set" :: paths)) (fun e => "git sparse-checkout set: " +:+ e) fetch)
              end))
    end.

Definition headCommit (dir : string) : M string :=
  out ← perform (GitOutput dir ["rev-parse"; "HEAD"]);
  Ret (match out with
       | Err _ => ""
       | Ok out =>
           let sha := TrimSpace out in
           if (String.length sha <? 7)%nat || Contains sha " " || Contains sha (String newline "") then "" else sha
       end).

(** ** The fetch log (report.go) *)

Definition safeURL (u : string) : string := default u (WithoutUser u).
Definition authOf (g : Git) : M string :=
  if (fg_AuthType g =? AuthTypeSSH)%string then Ret "SSH key from a Secret"
  else if (fg_AuthType g =? AuthTypeHeader)%string then Ret "token from a Secret, as a header"
  else
    token ← env_value EnvGitToken;
    match token with
    | None => Ret "public, no credentials"
    | Some _ =>
        user ← env_value EnvGitUsername;
        Ret (match user with Some _ => "username and token from a Secret" | None => "token from a Secret" end)
    end.

(** Regular files and their bytes, without .git. *)
Fixpoint tally_tree (t : tree) : Z * Z :=
  match t with
  | Entry_ _ Regular (Ok (_, size)) => (1, size)%Z
  | Entry_ _ _ _ => (0, 0)%Z
  | Dir_ name children _ =>
      if (name =? ".git")%string then (0, 0)%Z
      else foldl (fun acc c => let n := tally_tree c in (wrap64 (acc.1 + n.1), wrap64 (acc.2 + n.2))%Z) (0, 0)%Z children
  end.
Definition tally (dir : string) : M (Z * Z) :=
  t ← perform (WalkTree dir); Ret (match t with Ok t => tally_tree t | Err _ => (0, 0)%Z end).

Definition bytesOf (n : Z) : string := Wrapper.humanBytes n.
Definition plural (n : Z) (one : string) : string := if (n =? 1)%Z then "1 " +:+ one else itoa n +:+ " " +:+ one +:+ "s".
Definition since (start : time) : M string := now ← perform FNow; Ret (Wrapper.took (sat64 (now - start))).
Definition shortCommit (sha : string) : string := if (String.length sha <? 7)%nat then "an unknown commit" else str_take 7 sha.

Definition listFiles (files : list (File * Z)) (max : nat) : string :=
  str_join ", "
    (((fun fs => ff_Path fs.1 +:+ " (" +:+ bytesOf fs.2 +:+ ")") <$> take max files)
     ++ (if (max <? length files)%nat then ["and " +:+ itoa (Z.of_nat (length files - max)) +:+ " more"] else [])).

(** ** The fetch (fetcher.go) *)

Definition gitMountDir (dataDir mountPath : string) : result string string :=
  let mountPath' := Wrapper.orDefault mountPath DefaultGitMount in
  let target := Clean (if IsAbs mountPath' then mountPath' else Join dataDir mountPath') in
  match Rel (Clean dataDir) target with
  | Ok rel =>
      if (rel =? "..")%string || HasPrefix rel "../" then
        Err ("content.git.mountPath " +:+ quote mountPath' +:+ " must be inside " +:+ dataDir)
      else Ok target
  | Err _ => Err ("content.git.mountPath " +:+ quote mountPath' +:+ " must be inside " +:+ dataDir)
  end.

(** Everything in a tree that is not a directory. *)
Fixpoint count_files (t : tree) : Z :=
  match t with Entry_ _ _ _ => 1 | Dir_ _ children _ => foldl (fun n c => wrap64 (n + count_files c)) 0 children end%Z.

Definition check_mount (dstDir : string) (m : EmptyMount) : M (option string) :=
  match Rel DefaultDataDir (Clean (em_Path m)) with
  | Err _ => Ret None
  | Ok rel =>
      if (rel =? ".")%string || HasPrefix rel ".." then Ret None
      else
        let target := Join dstDir rel in
        st ← perform (StatPath target);
        match st with
        | Err _ => Ret None
        | Ok (false, _) =>
            Ret (Some ("testData " +:+ em_Name m +:+ ": mountPath " +:+ em_Path m +:+ " is a file of the code — mount single files with items"))
        | Ok (true, _) =>
            t ← perform (WalkTree target);
            let n := match t with Ok t => count_files t | Err _ => 0%Z end in
            Ret (if (0 <? n)%Z then
                   Some ("testData " +:+ em_Name m +:+ ": mountPath " +:+ em_Path m +:+ " would hide " +:+ itoa n +:+ " "
                         +:+ (if (n =? 1)%Z then "file" else "files") +:+ " of the code — "
                         +:+ "mount single files with items, or pick an empty directory")
                 else None)
        end
  end.
Definition checkEmptyMounts (dstDir : string) (mounts : list EmptyMount) : M (option string) := each_ok mounts (check_mount dstDir).

Definition writeContentInfo (dataDir : string) (info : ContentInfo) : M (option string) :=
  perform (WriteFile (Join dataDir ContentInfoFile) (json_content info) 420).

(** A directory is opened to all before it is listed; a file keeps its execute
    bits; a symbolic link is left alone. *)
Fixpoint share_tree (root path : string) (t : tree) : M (option string) :=
  match t with
  | Entry_ _ Symbolic _ => Ret None
  | Entry_ _ _ (Err e) => Ret (Some e)
  | Entry_ _ _ (Ok (mode, _)) =>
      let perm := Z.land mode 511 in
      let shared := Z.lor perm 438 in
      perform (Chmod root path (if (Z.land perm 73 =? 0)%Z then shared else Z.lor shared 73))
  | Dir_ _ children unreadable =>
      ensure (perform (Chmod root path 511)) plainly
        (match unreadable with
         | Some e => Ret (Some e)
         | None =>
             (fix go cs := match cs with
                           | [] => Ret None
                           | c :: cs =>
                               ensure (share_tree root (Join path (match c with Entry_ n _ _ | Dir_ n _ _ => n end)) c) plainly (go cs)
                           end) children
         end)
  end.
Definition shareWithAnyUID (dstDir : string) : M (option string) :=
  ensure (perform (OpenRoot dstDir)) plainly
    (t ← perform (WalkTree dstDir); match t with Err e => Ret (Some e) | Ok t => share_tree dstDir "." t end).

Definition fetch_git (dstDir : string) (start : time) (g : Git) : M (option string) :=
  match gitMountDir dstDir (fg_MountPath g) with
  | Err e => Ret (Some e)
  | Ok repoDir =>
      ensure (perform (FMkdirAll repoDir 493)) plainly
        (let rev := revision g in
         auth ← authOf g;
         _ ← fsay ("Git: " +:+ safeURL (fg_URI g) +:+ " @ " +:+ rev +:+ " — " +:+ auth);
         _ ← fsay ("Into: " +:+ repoDir);
         _ ← fsay (match fg_Paths g with
                   | [] => "Whole repository (no sparse checkout)"
                   | paths => "Sparse checkout: " +:+ str_join ", " paths
                   end);
         _ ← fsay ("Fetching " +:+ rev +:+ " (shallow, depth 1)…");
         cloned ← clone g repoDir;
         match cloned with
         | Some e => took ← since start; _ ← fsay ("Clone failed after " +:+ took +:+ ": " +:+ e); Ret (Some e)
         | None =>
             commit ← headCommit repoDir;
             '(n, size) ← tally repoDir;
             _ ← fsay ("Checked out " +:+ shortCommit commit +:+ " — " +:+ plural n "file" +:+ ", " +:+ bytesOf size);
             writeContentInfo dstDir (mkContentInfo rev commit)
         end)
  end.

Fixpoint file_sizes (dstDir : string) (files : list File) : M (list Z) :=
  match files with
  | [] => Ret []
  | f :: files =>
      st ← perform (StatPath (Join dstDir (ff_Path f)));
      sizes ← file_sizes dstDir files;
      Ret (match st with Ok (_, size) => size | Err _ => 0%Z end :: sizes)
  end.

Definition fetch_files (dstDir : string) (files : list File) : M (option string) :=
  err ← writeFiles dstDir files;
  match err with
  | Some e => _ ← fsay ("Writing the inline files failed: " +:+ e); Ret (Some e)
  | None =>
      sizes ← file_sizes dstDir files;
      _ ← fsay ("Wrote " +:+ plural (Z.of_nat (length files)) "inline file" +:+ " into " +:+ dstDir +:+ ": "
                +:+ listFiles (zip files sizes) 10);
      Ret None
  end.

Definition fetch_tarballs (dstDir : string) (tarballs : list Tarball) : M (option string) :=
  err ← fetchTarballs dstDir tarballs;
  match err with
  | Some e => _ ← fsay ("Fetching the tarballs failed: " +:+ e); Ret (Some e)
  | None =>
      '(n, size) ← tally dstDir;
      _ ← fsay ("Unpacked — the content holds " +:+ plural n "file" +:+ ", " +:+ bytesOf size);
      Ret None
  end.

Definition fetch_mounts (dstDir : string) (mounts : list EmptyMount) : M (option string) :=
  err ← checkEmptyMounts dstDir mounts;
  match err with
  | Some e => _ ← fsay e; Ret (Some e)
  | None =>
      _ ← for_each mounts (fun m => fsay ("Test data mounts at " +:+ em_Path m +:+ " (by Kubernetes, from a ConfigMap or Secret)"));
      Ret None
  end.

Definition Fetch (c : Content) (dstDir : string) : M (option string) :=
  ensure (perform (FMkdirAll dstDir 493)) plainly
    (start ← perform FNow;
     ensure (match fc_Git c with Some g => fetch_git dstDir start g | None => Ret None end) plainly
       (ensure (match fc_Files c with [] => Ret None | files => fetch_files dstDir files end) plainly
          (_ ← for_each (fc_Tarball c) (fun t => fsay ("Tarball: " +:+ safeURL (tb_URL t) +:+ " → " +:+ Join dstDir (tb_Path t)));
           ensure (match fc_Tarball c with [] => Ret None | tarballs => fetch_tarballs dstDir tarballs end) plainly
             (ensure (fetch_mounts dstDir (fc_EmptyMounts c)) plainly
                (ensure (shareWithAnyUID dstDir) plainly
                   (ready ← since start; _ ← fsay ("Content ready in " +:+ ready); Ret None)))))).

(** ** The entry (entry.go) *)

Record EntryConfig := mkEntryConfig { ec_ContentPath : string; ec_DataDir : string; ec_TimeoutSeconds : Z; ec_TerminationMessagePath : string }.

Definition DefaultConfig : M EntryConfig :=
  dataDir ← env_value EnvDataDir;
  timeout ← env_value EnvFetchTimeoutSeconds;
  Ret (mkEntryConfig (Join "/etc/kubetest" ContentFileName) (default DefaultDataDir dataDir)
         (match timeout ≫= Keys.Atoi with Some n => if (0 <? n)%Z then n else DefaultFetchTimeoutSeconds | None => DefaultFetchTimeoutSeconds end)
         "/dev/termination-log").

Definition emitFetchError (cfg : EntryConfig) (reason : string) : M (option string) :=
  let line := FetchErrorPrefix +:+ " " +:+ reason in
  _ ← fsay line;
  _ ← (if (ec_TerminationMessagePath cfg =? "")%string then Ret tt else perform (FTermination (ec_TerminationMessagePath cfg) line));
  Ret (Some reason).

Definition RunEntry (cfg : EntryConfig) : M (option string) :=
  _ ← (if (0 <? ec_TimeoutSeconds cfg)%Z then perform (FetchTimeout (wrap64 (ec_TimeoutSeconds cfg * second))) else Ret tt);
  content ← perform (ReadContent (ec_ContentPath cfg));
  match content with
  | Err e => emitFetchError cfg ("load " +:+ ec_ContentPath cfg +:+ ": " +:+ e)
  | Ok content =>
      err ← Fetch content (ec_DataDir cfg);
      match err with
      | None => Ret None
      | Some e =>
          late ← perform TimedOut;
          emitFetchError cfg (if (late : bool) then "timeout after " +:+ itoa (ec_TimeoutSeconds cfg) +:+ "s: " +:+ e else e)
      end
  end.
End Fetching.

End Fetcher.
