(* ===== verification/FetcherSpec.v ===== *)
(** * What the fetcher promises

    Every path it writes is, as a path, at or below the data directory; git gets a
    credential through its environment only, and its arguments from the Test; the
    first failure ends the fetch; a data mount hides no file.  And where these
    promises end: paths are judged as text while the kernel follows symbolic
    links, so an archive can leave its directory; and a hard link of an archive
    becomes a symbolic link to another place. *)
From S2P Require Import Prelude Api GoLib Keys Paths Objects Effects Compiler CompilerSpec Termination Wrapper WrapperSpec Fetcher.

Module FetcherSpec.
Import Objects Paths Fetcher.

(** ** Programs whose every operation satisfies a predicate *)

Section Safe.
Context (P : ∀ R, FOp R → bool).

Definition safe {A} (p : M A) : Prop := guards (only P) tt p (fun _ _ => True).

Lemma safe_ret {A} (a : A) : safe (Ret a).
Proof. done. Qed.
Lemma safe_bind {A B} (p : M A) (f : A → M B) : safe p → (∀ a, safe (f a)) → safe (p ≫= f).
Proof. intros Hp Hf. eapply guards_seq; [exact Hp|]. intros a [] _. apply Hf. Qed.
Lemma safe_perform {R} (o : FOp R) : P R o = true → safe (perform o).
Proof. intros Ho. unfold safe. cbn. unfold only. by rewrite Ho. Qed.
Lemma safe_ensure p wrap k : safe p → safe k → safe (ensure p wrap k).
Proof. intros Hp Hk. unfold ensure. apply safe_bind; [done|]. by intros [e|]. Qed.
Lemma safe_each_ok {A} (xs : list A) body : (∀ x, x ∈ xs → safe (body x)) → safe (each_ok xs body).
Proof.
  induction xs as [|x xs IH]; intros Hb; [apply safe_ret|]. apply safe_ensure; [apply Hb; by left|].
  apply IH. intros y Hy. apply Hb. by right.
Qed.
Lemma safe_for_each {A} (xs : list A) body : (∀ x, safe (body x)) → safe (for_each xs body).
Proof. intros Hb. induction xs as [|x xs IH]; [apply safe_ret|]. cbn. by apply safe_bind. Qed.
Lemma safe_trace {A} (p : M A) tr a : safe p → exec p tr a → Forall (event_ok P) tr.
Proof. intros Hp Hex. by apply (only_sound P p (fun _ => True)) in Hex as [? _]. Qed.
End Safe.

Create HintDb safe.
#[export] Hint Resolve safe_ret safe_bind safe_perform safe_ensure safe_for_each : safe.

Ltac safe_step :=
  lazymatch goal with
  | |- safe _ (Ret _) => apply safe_ret
  | |- safe _ (ensure _ _ _) => apply safe_ensure
  | |- safe _ (mbind _ _) => apply safe_bind; [|intros ?; cbn beta]
  | |- safe _ (perform _) => apply safe_perform
  | |- safe _ (fsay _) => apply safe_perform
  | |- safe _ (for_each _ _) => apply safe_for_each; intros ?
  | |- safe _ (match ?x with _ => _ end) => destruct x
  end.

(** ** Confinement *)

(** Where an operation writes: at or below a directory; the directories made on
    the way may be the directory's own parents; a symbolic link is itself below
    the directory and so is, as text, what it names. *)
Definition confined (dst : string) R (o : FOp R) : bool :=
  match o with
  | FMkdirAll p _ => under dst p || under p dst
  | WriteFile p _ _ | OpenFile p _ | CopyEntry p | CloseFile p | RunGit p _ _ | GitOutput p _ => under dst p
  | MakeSymlink old new => under dst new && under dst (if IsAbs old then old else Join (Dir new) old)
  | Chmod root _ _ | OpenRoot root => (root =? dst)%string
  | FTermination _ _ => false
  | _ => true
  end.

Lemma isUnder_under target base : IsAbs target = true → isUnder target base = true → under base target = true.
Proof.
  intros Ht. unfold isUnder. destruct (Rel base target) as [rel|] eqn:Er; [|done].
  destruct (String.eqb_spec rel ".") as [->|]; [intros _; eapply Rel_under; [done..|by left]|].
  intros [Hr _]%andb_prop. eapply Rel_under; [done..|right]. by apply negb_true_iff.
Qed.

Lemma Join_Clean a b : IsAbs a = true → ∃ p, Join a b = Clean p ∧ IsAbs p = true.
Proof.
  intros Ha. unfold Join. assert ((a =? "")%string = false) as -> by (by destruct a).
  destruct (b =? "")%string; eexists; (split; [done|]); [done|by apply Keys.HasPrefix_app].
Qed.

(** A file's directory: below, or on the way. *)
Lemma mkdir_parent_confined dst a b mode :
  IsAbs dst = true → IsAbs a = true → under dst (Join a b) = true → confined dst _ (FMkdirAll (Dir (Join a b)) mode) = true.
Proof.
  intros Hd Ha. destruct (Join_Clean a b Ha) as (p & -> & Hp). intros Hu. cbn.
  destruct (under_Dir dst p Hp Hu) as [->|[->|?]]; [done|by rewrite orb_true_r|congruence].
Qed.

Section Confinement.
Context `{FetcherLib} (dst : string) (Hdst : IsAbs dst = true).

Lemma payload_of_confined f k : (∀ x, safe (confined dst) (k x)) → safe (confined dst) (payload_of f k).
Proof. intros Hk. unfold payload_of. repeat (safe_step; try done). Qed.

Lemma writeOneFile_confined root f :
  IsAbs root = true → under dst root = true → safe (confined dst) (writeOneFile root f).
Proof.
  intros Ha Hr. unfold writeOneFile. destruct (_ =? _)%string; [safe_step|]. destruct (IsAbs (ff_Path f)); [safe_step|]. cbn zeta.
  destruct (isUnder _ _) eqn:Eu; cbn [negb]; [|safe_step].
  assert (Hu : under dst (Join root (ff_Path f)) = true).
  { eapply under_trans; [exact Hr|]. apply isUnder_under; [by apply IsAbs_Join|done]. }
  safe_step; [apply safe_perform; by apply mkdir_parent_confined|]. apply payload_of_confined. intros x.
  safe_step; [by apply safe_perform|safe_step].
Qed.

Lemma Abs_confined p k : IsAbs p = true → safe (confined dst) (k (Ok (Clean p))) → safe (confined dst) (Abs p k).
Proof. intros Hp Hk. unfold Abs. by rewrite Hp. Qed.

Lemma writeFiles_confined files : safe (confined dst) (writeFiles dst files).
Proof.
  unfold writeFiles. apply Abs_confined; [done|]. apply safe_each_ok. intros f _. safe_step; [|safe_step].
  apply writeOneFile_confined; [by apply IsAbs_Clean|]. rewrite under_Clean by done. by apply under_refl.
Qed.

Lemma extractOneEntry_confined root hdr :
  IsAbs root = true → under dst root = true → safe (confined dst) (extractOneEntry root hdr).
Proof.
  intros Ha Hr. unfold extractOneEntry. destruct (IsAbs (th_Name hdr)); [safe_step|]. cbn zeta.
  destruct (isUnder (Join root (th_Name hdr)) root) eqn:Eu; cbn [negb]; [|safe_step].
  assert (Hu : under dst (Join root (th_Name hdr)) = true).
  { eapply under_trans; [exact Hr|]. apply isUnder_under; [by apply IsAbs_Join|done]. }
  set (target := Join root (th_Name hdr)) in *.
  assert (Hparent : safe (confined dst) (perform (FMkdirAll (Dir target) 493))).
  { apply safe_perform. by apply mkdir_parent_confined. }
  assert (Hlink : safe (confined dst)
    (if negb (isUnder (if IsAbs (th_Linkname hdr) then th_Linkname hdr else Join (Dir target) (th_Linkname hdr)) root)
     then Ret (Some ("zip-slip: symlink " +:+ quote (th_Name hdr) +:+ " -> " +:+ quote (th_Linkname hdr) +:+ " escapes root"))
     else ensure (perform (FMkdirAll (Dir target) 493)) (fun e => "mkdir parent: " +:+ e)
            (ensure (perform (MakeSymlink (th_Linkname hdr) target)) (fun e => "symlink " +:+ target +:+ ": " +:+ e) (Ret None)))).
  { destruct (isUnder (if IsAbs (th_Linkname hdr) then _ else _) root) eqn:El; cbn [negb]; [|safe_step].
    safe_step; [done|]. safe_step; [|safe_step]. apply safe_perform. cbn [confined]. rewrite Hu. cbn [andb].
    eapply under_trans; [exact Hr|]. apply isUnder_under; [|exact El]. destruct (IsAbs (th_Linkname hdr)) eqn:E; [exact E|].
    apply IsAbs_Join. unfold target. destruct (Join_Clean root (th_Name hdr) Ha) as (p & -> & Hp). by apply clean_elems_Dir. }
  destruct (th_Type hdr); [| |exact Hlink|exact Hlink|safe_step].
  - apply safe_perform. cbn [confined]. by rewrite Hu.
  - repeat (safe_step; try done); by apply safe_perform.
Qed.

Lemma extract_entries_confined root entries :
  IsAbs root = true → under dst root = true → safe (confined dst) (extract_entries root entries).
Proof.
  intros Ha Hr. induction entries as [|[hdr|e] entries IH]; cbn; [done| |done].
  apply safe_ensure; [by apply extractOneEntry_confined|done].
Qed.

Lemma fetchOneTarball_confined root t :
  IsAbs root = true → under dst root = true → safe (confined dst) (fetchOneTarball root t).
Proof.
  intros Ha Hr. unfold fetchOneTarball. cbn zeta. destruct (isUnder (Join root (tb_Path t)) root) eqn:Eu; cbn [negb]; [|safe_step].
  assert (Hs : IsAbs (Join root (tb_Path t)) = true) by (by apply IsAbs_Join).
  assert (Hu : under dst (Join root (tb_Path t)) = true) by (eapply under_trans; [exact Hr|by apply isUnder_under]).
  apply safe_ensure; [by apply safe_perform|]. safe_step; [by apply safe_perform|]. safe_step; [|safe_step]. safe_step; [safe_step|].
  apply safe_ensure; [apply safe_perform; cbn [confined]; by rewrite Hu|].
  unfold extractTarGz. safe_step; [by apply safe_perform|]. safe_step; [|safe_step]. apply Abs_confined; [done|].
  apply extract_entries_confined; [by apply IsAbs_Clean|by rewrite under_Clean].
Qed.

Lemma fetchTarballs_confined tarballs : safe (confined dst) (fetchTarballs dst tarballs).
Proof.
  unfold fetchTarballs. apply Abs_confined; [done|]. apply safe_each_ok. intros t _. safe_step; [|safe_step].
  apply fetchOneTarball_confined; [by apply IsAbs_Clean|]. rewrite under_Clean by done. by apply under_refl.
Qed.

Lemma gitMountDir_under mountPath target : gitMountDir dst mountPath = Ok target → under dst target = true.
Proof.
  unfold gitMountDir. cbn zeta. set (m := Wrapper.orDefault mountPath DefaultGitMount).
  set (t := if IsAbs m then m else Join dst m).
  assert (Ht : IsAbs t = true) by (unfold t; destruct (IsAbs m) eqn:E; [done|by apply IsAbs_Join]).
  destruct (Rel (Clean dst) (Clean t)) as [rel|] eqn:Er; [|done]. destruct ((rel =? "..")%string || _) eqn:Eo; [done|]. intros [= <-].
  apply orb_false_iff in Eo as [E1 E2]. apply String.eqb_neq in E1.
  destruct (Rel_cases _ _ _ (IsAbs_Clean _ Ht) Er) as [Hu|[->|Hu]]; [|done|congruence].
  by rewrite under_Clean_l in Hu by done.
Qed.

Lemma env_value_confined key : safe (confined dst) (env_value key).
Proof. unfold env_value. safe_step; [by apply safe_perform|safe_step]. Qed.
Ltac env_step := lazymatch goal with |- safe _ (env_value _) => apply env_value_confined | _ => safe_step end.
Lemma authOf_confined g : safe (confined dst) (authOf g).
Proof. unfold authOf. repeat env_step. Qed.
Lemma buildAuthEnv_confined g : safe (confined dst) (buildAuthEnv g).
Proof. unfold buildAuthEnv. cbn zeta. repeat (env_step; try done). Qed.
Lemma since_confined start : safe (confined dst) (since start).
Proof. unfold since. safe_step; [by apply safe_perform|safe_step]. Qed.
Lemma tally_confined p : safe (confined dst) (tally p).
Proof. unfold tally. safe_step; [by apply safe_perform|safe_step]. Qed.
Lemma headCommit_confined p : under dst p = true → safe (confined dst) (headCommit p).
Proof. intros Hp. unfold headCommit. safe_step; [by apply safe_perform|safe_step]. Qed.

Lemma clone_confined g repo : under dst repo = true → safe (confined dst) (clone g repo).
Proof.
  intros Hr. unfold clone. destruct (_ =? _)%string; [safe_step|]. safe_step; [apply buildAuthEnv_confined|]. destruct a as [authEnv|]; [|safe_step].
  cbn zeta. assert (Hg : ∀ args, safe (confined dst) (perform (RunGit repo ("GIT_TERMINAL_PROMPT=0" :: authEnv) args))) by (intros; by apply safe_perform).
  assert (Hf : safe (confined dst) (ensure (perform (RunGit repo ("GIT_TERMINAL_PROMPT=0" :: authEnv) ["fetch"; "--depth=1"; "origin"; revision g]))
    (fun e => "git fetch: " +:+ e)
    (ensure (perform (RunGit repo ("GIT_TERMINAL_PROMPT=0" :: authEnv) ["checkout"; "--quiet"; "FETCH_HEAD"])) (fun e => "git checkout: " +:+ e)
       (each_ok (fg_Paths g) (check_sparse repo))))).
  { repeat (apply safe_ensure; [apply Hg|]). apply safe_each_ok. intros q _. unfold check_sparse. safe_step; [by apply safe_perform|safe_step]. }
  do 2 (apply safe_ensure; [apply Hg|]). cbn zeta. revert Hf. destruct (fg_Paths g); intros Hf; [exact Hf|].
  do 2 (apply safe_ensure; [apply Hg|]). exact Hf.
Qed.

Lemma share_tree_confined t : ∀ path, safe (confined dst) (share_tree dst path t).
Proof.
  assert (Hch : ∀ path mode, confined dst _ (Chmod dst path mode) = true) by (intros; apply String.eqb_refl).
  revert t. fix IH 1. intros [name k info|name children unreadable] path; cbn [share_tree].
  - destruct k, info as [[mode size]|]; cbn zeta; try apply safe_ret; by apply safe_perform.
  - apply safe_ensure; [by apply safe_perform|]. destruct unreadable; [safe_step|].
    induction children as [|c cs IHcs]; [apply safe_ret|]. cbn beta iota. apply safe_ensure; [apply IH|exact IHcs].
Qed.

Lemma fetch_git_confined start g : safe (confined dst) (fetch_git dst start g).
Proof.
  unfold fetch_git. destruct (gitMountDir dst _) as [repo|] eqn:Eg; [|safe_step]. apply gitMountDir_under in Eg as Hr.
  apply safe_ensure; [apply safe_perform; cbn [confined]; by rewrite Hr|]. cbn zeta. safe_step; [apply authOf_confined|].
  do 4 (safe_step; [by apply safe_perform|]). safe_step; [by apply clone_confined|]. destruct a4 as [err|].
  - safe_step; [apply since_confined|]. safe_step; [by apply safe_perform|safe_step].
  - safe_step; [by apply headCommit_confined|]. safe_step; [apply tally_confined|]. destruct a5. safe_step; [by apply safe_perform|].
    apply safe_perform. by apply under_Join.
Qed.

Lemma file_sizes_confined files : safe (confined dst) (file_sizes dst files).
Proof. induction files as [|f files IH]; [apply safe_ret|]. cbn [file_sizes]. safe_step; [by apply safe_perform|]. safe_step; [exact IH|apply safe_ret]. Qed.

Lemma check_mount_confined m : safe (confined dst) (check_mount dst m).
Proof.
  unfold check_mount. destruct (Rel DefaultDataDir (Clean (em_Path m))) as [rel|] eqn:Er; [|safe_step].
  destruct ((rel =? ".")%string || HasPrefix rel "..") eqn:Eo; [safe_step|]. cbn zeta. apply orb_false_iff in Eo as [_ Eo].
  repeat (safe_step; try done).
Qed.

Lemma fetch_mounts_confined mounts : safe (confined dst) (fetch_mounts dst mounts).
Proof.
  unfold fetch_mounts, checkEmptyMounts. safe_step; [apply safe_each_ok; intros; apply check_mount_confined|].
  destruct a; (safe_step; [|safe_step]); [by apply safe_perform|]. apply safe_for_each. intros. by apply safe_perform.
Qed.

Lemma Fetch_confined c : safe (confined dst) (Fetch c dst).
Proof.
  unfold Fetch. apply safe_ensure; [apply safe_perform; cbn [confined]; by rewrite under_refl|]. safe_step; [by apply safe_perform|].
  apply safe_ensure; [destruct (fc_Git c); [apply fetch_git_confined|safe_step]|].
  apply safe_ensure.
  { destruct (fc_Files c); [safe_step|]. unfold fetch_files. safe_step; [apply writeFiles_confined|]. destruct a0.
    - safe_step; [by apply safe_perform|safe_step].
    - safe_step; [apply file_sizes_confined|]. safe_step; [by apply safe_perform|safe_step]. }
  safe_step; [apply safe_for_each; intros; by apply safe_perform|]. apply safe_ensure.
  { destruct (fc_Tarball c); [safe_step|]. unfold fetch_tarballs. safe_step; [apply fetchTarballs_confined|]. destruct a1.
    - safe_step; [by apply safe_perform|safe_step].
    - safe_step; [apply tally_confined|]. destruct a1. safe_step; [by apply safe_perform|safe_step]. }
  apply safe_ensure; [apply fetch_mounts_confined|]. apply safe_ensure.
  { unfold shareWithAnyUID. apply safe_ensure; [apply safe_perform; apply String.eqb_refl|]. safe_step; [by apply safe_perform|].
    destruct a1; [apply share_tree_confined|safe_step]. }
  safe_step; [apply since_confined|]. safe_step; [by apply safe_perform|safe_step].
Qed.

(** C29: The fetch stays, as text, inside the data directory: whatever the content and
    whatever the outside answers, every file written, every directory git works in
    and every link made is at or below it, every link names a place at or below it,
    and permissions change only through the directory's own root. *)
Theorem fetch_confined c tr out :
  exec (Fetch c dst) tr out → Forall (event_ok (confined dst)) tr.
Proof. apply safe_trace, Fetch_confined. Qed.
End Confinement.

(** ** What git is asked *)

(** The commands of a clone, in order: nothing of the environment is in them. *)
Definition git_commands (g : Git) : list (list string) :=
  ["init"; "--quiet"] :: ["remote"; "add"; "origin"; fg_URI g]
  :: match fg_Paths g with [] => [] | paths => [["sparse-checkout"; "init"; "--cone"]; "sparse-checkout" :: "set" :: paths] end
  ++ [["fetch"; "--depth=1"; "origin"; revision g]; ["checkout"; "--quiet"; "FETCH_HEAD"]].

Definition git_run (ev : event FOp) : option (string * list string * list string) :=
  match ev with Ev (RunGit dir env args) _ => Some (dir, env, args) | _ => None end.
Definition git_args (tr : list (event FOp)) : list (list string) := (fun r => r.2) <$> omap git_run tr.

(** The commands still to come. *)
Definition script (repo : string) : monitor FOp (list (list string)) := fun R s o =>
  match o in FOp R return option (R → list (list string)) with
  | RunGit dir _ args =>
      match s with a :: s' => if decide (a = args ∧ dir = repo) then Some (fun _ => s') else None | [] => None end
  | _ => Some (fun _ => s)
  end.

Lemma script_watch repo s tr s' : watch (script repo) s tr = Some s' → git_args tr ++ s' = s.
Proof.
  revert s. induction tr as [|[R o r] tr IH]; intros s; cbn [watch]; [by intros [= ->]|].
  destruct o; cbn [script]; try exact (IH s). destruct s as [|a s]; [done|]. case_decide as Hd; [|done].
  intros Hw. apply IH in Hw. unfold git_args in *. cbn. rewrite Hw. by destruct Hd as [-> _].
Qed.

Section Script.
Context `{FetcherLib}.

Lemma script_quiet repo s {A} (p : M A) :
  safe (fun R o => match o with RunGit _ _ _ => false | _ => true end) p → guards (script repo) s p (fun _ s' => s' = s).
Proof.
  intros Hp. eapply guards_mono; [apply (guards_lift (fun R o => match o with RunGit _ _ _ => false | _ => true end) (script repo) s p (fun _ => True))|].
  - intros R o Ho. by destruct o.
  - exact Hp.
  - by intros a s' [-> _].
Qed.

Lemma script_ensure repo a s env wrap k Q :
  guards (script repo) s k Q → (∀ e s', Q (Some e) s') →
  guards (script repo) (a :: s) (ensure (perform (RunGit repo env a)) wrap k) Q.
Proof.
  intros Hk HQ. unfold ensure. eapply guards_perform_bind; [cbn; by rewrite decide_True|]. intros [e|]; [apply HQ|done].
Qed.

Lemma buildAuthEnv_quiet g : safe (fun R o => match o with RunGit _ _ _ => false | _ => true end) (buildAuthEnv g).
Proof.
  unfold buildAuthEnv, env_value. cbn zeta. repeat (safe_step; try done).
Qed.

Lemma clone_script g repo : guards (script repo) (git_commands g) (clone g repo) (fun out s => out = None → s = []).
Proof.
  unfold clone. destruct (_ =? _)%string; [done|]. eapply guards_seq; [apply script_quiet, buildAuthEnv_quiet|]. intros [auth|e] s ->; [|done].
  cbn zeta. unfold git_commands. do 2 (apply script_ensure; [|done]).
  assert (Hf : guards (script repo) [["fetch"; "--depth=1"; "origin"; revision g]; ["checkout"; "--quiet"; "FETCH_HEAD"]]
    (ensure (perform (RunGit repo ("GIT_TERMINAL_PROMPT=0" :: auth) ["fetch"; "--depth=1"; "origin"; revision g])) (fun e => "git fetch: " +:+ e)
       (ensure (perform (RunGit repo ("GIT_TERMINAL_PROMPT=0" :: auth) ["checkout"; "--quiet"; "FETCH_HEAD"])) (fun e => "git checkout: " +:+ e)
          (each_ok (fg_Paths g) (check_sparse repo)))) (fun out s => out = None → s = [])).
  { do 2 (apply script_ensure; [|done]). eapply guards_mono; [apply script_quiet|by intros ? ? -> ?].
    apply safe_each_ok. intros. unfold check_sparse. by repeat (safe_step; try done). }
  revert Hf. destruct (fg_Paths g); intros Hf; [exact Hf|]. do 2 (apply script_ensure; [|done]). exact Hf.
Qed.

(** What git is asked, in every execution of a clone: the commands it runs are the
    Test's own, in order and up to the first that fails, all of them when the clone
    succeeds; no argument is taken from the environment, so no credential is in
    one — but the address, the paths and the revision of the Test are arguments as
    they are written, even one that git reads as an option. *)
Theorem clone_runs g repo tr out :
  exec (clone g repo) tr out →
  git_args tr `prefix_of` git_commands g ∧ (out = None → git_args tr = git_commands g) ∧
  ["fetch"; "--depth=1"; "origin"; revision g] ∈ git_commands g.
Proof.
  intros Hex. destruct (guards_sound _ _ _ _ _ _ (clone_script g repo) Hex) as (s & Hw & Hs). apply script_watch in Hw.
  split_and!.
  - rewrite <- Hw. by apply prefix_app_r.
  - intros Hout. by rewrite (Hs Hout), app_nil_r in Hw.
  - unfold git_commands. rewrite !elem_of_cons, elem_of_app, !elem_of_cons. auto.
Qed.
End Script.

(** ** The first failure ends the fetch *)

(** What an answer says of a step that must not fail. *)
Definition failed_step (ev : event FOp) : bool :=
  match ev with
  | Ev o r =>
      match o in FOp R return R → bool with
      | FMkdirAll _ _ | WriteFile _ _ _ | OpenRoot _ | Chmod _ _ _ | RunGit _ _ _ | NewRequest _ | OpenFile _ _ | CopyEntry _
      | CloseFile _ | MakeSymlink _ _ => fun r => bool_decide (is_Some r)
      | HttpGet _ => fun r => match r with Ok status => (400 <=? status)%Z | Err _ => true end
      | OpenArchive _ => fun r => negb (is_ok r)
      | _ => fun _ => false
      end r
  end.

(** What may still be done after a failure: saying so, and closing a file. *)
Definition afterwards R (o : FOp R) : bool := match o with FSay _ | FNow | CloseFile _ => true | _ => false end.

Definition strict : monitor FOp bool := fun R failed o =>
  if failed then (if afterwards R o then Some (fun _ => true) else None) else Some (fun r => failed_step (Ev o r)).

Lemma strict_watch s tr s' :
  watch strict s tr = Some s' →
  (s = true → s' = true ∧ ∀ R (o : FOp R) r, Ev o r ∈ tr → afterwards R o = true) ∧
  ∀ tr1 ev tr2, tr = tr1 ++ ev :: tr2 → failed_step ev = true → s' = true ∧ ∀ R (o : FOp R) r, Ev o r ∈ tr2 → afterwards R o = true.
Proof.
  revert s. induction tr as [|[R o r] tr IH]; intros s Hw.
  { injection Hw as <-. split; [intros ->; split; [done|]; by intros ? ? ? ?%elem_of_nil|]. intros [|??] **; discriminate. }
  cbn [watch] in Hw. unfold strict at 1 in Hw. destruct s.
  - destruct (afterwards R o) eqn:Ea; [|done]. destruct (IH _ Hw) as [H1 H2]. destruct (H1 eq_refl) as [-> Hall].
    assert (Hev : ∀ R' (o' : FOp R') r', Ev o' r' ∈ Ev o r :: tr → afterwards R' o' = true).
    { intros R' o' r' [Heq|Hin]%elem_of_cons; [|by eapply Hall].
      by pose proof (f_equal (fun ev : event FOp => match ev with @Ev _ R0 o0 _ => afterwards R0 o0 end) Heq) as ->. }
    split; [intros _; by split|]. intros tr1 ev tr2 Heq _. split; [done|]. intros R' o' r' Hin. eapply (Hev R' o' r'). rewrite Heq, elem_of_app. right. by right.
  - destruct (IH _ Hw) as [H1 H2]. split; [done|]. intros [|e tr1] ev tr2 Heq Hf.
    + pose proof (f_equal (hd (Ev o r)) Heq) as Hh. apply (f_equal tail) in Heq. cbn in Hh, Heq. subst tr2. rewrite <- Hh in Hf. by apply H1.
    + apply (f_equal tail) in Heq. cbn in Heq. exact (H2 _ _ _ Heq Hf).
Qed.

(** A part that reports every failure, from a state without one. *)
Definition reports {A} (p : M A) (bad : A → Prop) : Prop := guards strict false p (fun a s => s = true → bad a).
Definition is_err (out : option string) : Prop := out ≠ None.

Lemma reports_ret {A} (a : A) bad : reports (Ret a) bad.
Proof. by intros ?. Qed.
Lemma reports_ensure p wrap k : reports p is_err → reports k is_err → reports (ensure p wrap k) is_err.
Proof.
  intros Hp Hk. unfold ensure, reports. eapply guards_seq; [exact Hp|]. intros [e|] s Hs; [done|].
  destruct s; [by destruct (Hs eq_refl)|exact Hk].
Qed.
Lemma reports_each_ok {A} (xs : list A) body : (∀ x, reports (body x) is_err) → reports (each_ok xs body) is_err.
Proof. intros Hb. induction xs as [|x xs IH]; [apply reports_ret|]. by apply reports_ensure. Qed.

(** A part without steps that may fail. *)
Definition calm R (o : FOp R) : bool :=
  match o with
  | ReadContent _ | FetchTimeout _ | TimedOut | FNow | Getwd | LookupEnv _ | StatPath _ | WalkTree _ | GitOutput _ _ | FSay _ => true
  | _ => false
  end.
Lemma reports_calm {A B} (p : M A) (f : A → M B) bad : safe calm p → (∀ a, reports (f a) bad) → reports (p ≫= f) bad.
Proof.
  intros Hp Hf. unfold reports. eapply guards_seq; [apply (guards_lift calm strict false p (fun _ => True)); [|exact Hp]|].
  - intros R o Ho. by destruct o.
  - intros a s [-> _]. apply Hf.
Qed.
Lemma reports_op {R} (o : FOp R) (bad : R → Prop) : (∀ r, failed_step (Ev o r) = true → bad r) → reports (perform o) bad.
Proof. intros Hb r. exact (Hb r). Qed.
Lemma reports_fallible (o : FOp (option string)) :
  (∀ r, failed_step (Ev o r) = true → is_Some r) → reports (perform o) is_err.
Proof. intros Ho. apply reports_op. intros r Hr. unfold is_err. by destruct (Ho r Hr) as [? ->]. Qed.

(** A failure that was reported, and what is said of it. *)
Lemma reports_after (p : M (option string)) (f : option string → M (option string)) :
  reports p is_err → (∀ e s, guards strict s (f (Some e)) (fun out _ => is_err out)) → reports (f None) is_err →
  reports (p ≫= f) is_err.
Proof.
  intros Hp Ht Hn. unfold reports. eapply guards_seq; [exact Hp|]. intros [e|] s Hr; [by eapply guards_mono; [apply Ht|]|].
  destruct s; [by destruct (Hr eq_refl)|exact Hn].
Qed.

Ltac rep_step :=
  lazymatch goal with
  | |- reports (Ret _) _ => apply reports_ret
  | |- reports (ensure _ _ _) _ => apply reports_ensure
  | |- reports (each_ok _ _) _ => apply reports_each_ok; intros ?
  | |- reports (perform _) is_err => apply reports_fallible; cbn; intros ? ?%bool_decide_eq_true; done
  | |- reports (fsay _ ≫= _) _ => apply reports_calm; [by apply safe_perform|intros ?; cbn beta]
  | |- reports (perform _ ≫= _) _ => apply reports_calm; [by apply safe_perform|intros ?; cbn beta]
  | |- reports (match ?x with _ => _ end) _ => destruct x
  end.

Section Strict.
Context `{FetcherLib}.

Lemma Abs_reports p k : (∀ r, reports (k r) is_err) → reports (Abs p k) is_err.
Proof. intros Hk. unfold Abs. rep_step; [apply Hk|]. rep_step. apply Hk. Qed.

Lemma writeOneFile_reports root f : reports (writeOneFile root f) is_err.
Proof.
  unfold writeOneFile. cbn zeta. do 3 (rep_step; [apply reports_ret|]). rep_step; [rep_step|].
  assert (Hw : ∀ payload, reports (ensure (perform (WriteFile (Join root (ff_Path f)) payload (default 420%Z (ff_Mode f))))
    (fun e => "write: " +:+ e) (Ret None)) is_err) by (intros; rep_step; [rep_step|apply reports_ret]).
  unfold payload_of. rep_step; [apply Hw|]. rep_step; [|apply Hw]. rep_step. rep_step; [apply Hw|apply reports_ret].
Qed.
Lemma writeFiles_reports dst files : reports (writeFiles dst files) is_err.
Proof. unfold writeFiles. apply Abs_reports. intros [dstAbs|e]; [|apply reports_ret]. repeat rep_step. apply writeOneFile_reports. Qed.

Lemma extractOneEntry_reports root hdr : reports (extractOneEntry root hdr) is_err.
Proof.
  unfold extractOneEntry. cbn zeta. do 2 (rep_step; [apply reports_ret|]). rep_step; [rep_step| | | |apply reports_ret].
  - do 2 (rep_step; [rep_step|]). apply reports_after; [rep_step| |].
    + intros e s. by destruct s; intros ?.
    + rep_step; [rep_step|apply reports_ret].
  - do 1 (rep_step; [apply reports_ret|]). do 2 (rep_step; [rep_step|]). apply reports_ret.
  - do 1 (rep_step; [apply reports_ret|]). do 2 (rep_step; [rep_step|]). apply reports_ret.
Qed.
Lemma extract_entries_reports root entries : reports (extract_entries root entries) is_err.
Proof.
  induction entries as [|[hdr|e] entries IH]; cbn [extract_entries]; [apply reports_ret| |apply reports_ret].
  rep_step; [apply extractOneEntry_reports|exact IH].
Qed.
Lemma fetchOneTarball_reports root t : reports (fetchOneTarball root t) is_err.
Proof.
  unfold fetchOneTarball. cbn zeta. rep_step; [apply reports_ret|]. rep_step; [rep_step|].
  unfold reports. eapply guards_perform_bind; [reflexivity|]. intros [status|e]; cbn [failed_step]; [|done].
  destruct (400 <=? status)%Z; [done|]. change (reports (ensure (perform (FMkdirAll (Join root (tb_Path t)) 493)) (fun e => "mkdir: " +:+ e)
    (extractTarGz (tb_URL t) (Join root (tb_Path t)))) is_err). rep_step; [rep_step|].
  unfold extractTarGz, reports. eapply guards_perform_bind; [reflexivity|]. intros [entries|e]; cbn [failed_step is_ok negb]; [|done].
  apply Abs_reports. intros [r|e]; [apply extract_entries_reports|apply reports_ret].
Qed.
Lemma fetchTarballs_reports dst tarballs : reports (fetchTarballs dst tarballs) is_err.
Proof. unfold fetchTarballs. apply Abs_reports. intros [r|e]; [|apply reports_ret]. repeat rep_step. apply fetchOneTarball_reports. Qed.

Ltac calm_step :=
  lazymatch goal with
  | |- safe calm (env_value _) => unfold env_value
  | |- safe calm (since _) => unfold since
  | |- safe calm (tally _) => unfold tally
  | |- safe calm (headCommit _) => unfold headCommit
  | |- safe calm (each_ok _ _) => apply safe_each_ok; intros ? _
  | |- safe calm (check_mount _ _) => unfold check_mount; cbn zeta
  | |- safe calm (check_sparse _ _) => unfold check_sparse
  | _ => safe_step
  end.
Ltac calmly := repeat (calm_step; try done).

Lemma calm_reports (p : M (option string)) : safe calm p → reports p is_err.
Proof.
  intros Hp. unfold reports. eapply guards_mono; [apply (guards_lift calm strict false p (fun _ => True)); [|exact Hp]|by intros a s [-> _]].
  intros R o Ho. by destruct o.
Qed.

Lemma git_reports repo env args : reports (perform (RunGit repo env args)) is_err.
Proof. rep_step. Qed.

Lemma clone_reports g repo : reports (clone g repo) is_err.
Proof.
  unfold clone. cbn zeta. rep_step; [apply reports_ret|]. apply reports_calm.
  { unfold buildAuthEnv. cbn zeta. calmly. }
  intros [auth|e]; [|apply reports_ret]. do 2 (apply reports_ensure; [apply git_reports|]).
  assert (Hf : reports (ensure (perform (RunGit repo ("GIT_TERMINAL_PROMPT=0" :: auth) ["fetch"; "--depth=1"; "origin"; revision g])) (fun e => "git fetch: " +:+ e)
       (ensure (perform (RunGit repo ("GIT_TERMINAL_PROMPT=0" :: auth) ["checkout"; "--quiet"; "FETCH_HEAD"])) (fun e => "git checkout: " +:+ e)
          (each_ok (fg_Paths g) (check_sparse repo)))) is_err).
  { do 2 (apply reports_ensure; [apply git_reports|]). apply calm_reports. calmly. }
  revert Hf. destruct (fg_Paths g); intros Hf; [exact Hf|]. do 2 (apply reports_ensure; [apply git_reports|]). exact Hf.
Qed.

Lemma since_strict start s : guards strict s (since start) (fun _ s' => s' = s).
Proof. unfold since. destruct s; by eapply guards_perform_bind. Qed.

Lemma fetch_git_reports dst start g : reports (fetch_git dst start g) is_err.
Proof.
  unfold fetch_git. rep_step; [|apply reports_ret]. apply reports_ensure; [rep_step|]. cbn zeta. apply reports_calm.
  { unfold authOf. calmly. }
  intros auth. do 4 rep_step.
  apply reports_after; [apply clone_reports| |].
  { intros e s. eapply guards_seq; [apply since_strict|]. intros took ? ->. unfold fsay. by destruct s; eapply guards_perform_bind. }
  apply reports_calm; [calmly|]. intros commit. apply reports_calm; [calmly|]. intros [n size]. rep_step. unfold writeContentInfo. rep_step.
Qed.

(** A stage that logs its failure. *)
Lemma said_reports (p : M (option string)) (line : string → string) (k : M (option string)) :
  reports p is_err → reports k is_err →
  reports (p ≫= fun err => match err with Some e => fsay (line e) ≫= fun _ => Ret (Some e) | None => k end) is_err.
Proof.
  intros Hp Hk. apply reports_after; [done| |done]. intros e s. unfold fsay. by destruct s; eapply guards_perform_bind.
Qed.

Lemma share_tree_reports root t : ∀ path, reports (share_tree root path t) is_err.
Proof.
  revert t. fix IH 1. intros [name k info|name children unreadable] path; cbn [share_tree].
  - destruct k, info as [[mode size]|]; cbn zeta; rep_step.
  - apply reports_ensure; [rep_step|]. destruct unreadable; [apply reports_ret|].
    induction children as [|c cs IHcs]; [apply reports_ret|]. cbn beta iota. apply reports_ensure; [apply IH|exact IHcs].
Qed.

Lemma file_sizes_calm dst files : safe calm (file_sizes dst files).
Proof. induction files as [|f files IH]; [apply safe_ret|]. cbn [file_sizes]. safe_step; [by apply safe_perform|]. safe_step; [exact IH|apply safe_ret]. Qed.

Lemma Fetch_reports c dst : reports (Fetch c dst) is_err.
Proof.
  unfold Fetch. apply reports_ensure; [rep_step|]. rep_step. apply reports_ensure; [destruct (fc_Git c); [apply fetch_git_reports|apply reports_ret]|].
  apply reports_ensure.
  { destruct (fc_Files c); [apply reports_ret|]. unfold fetch_files.
    apply said_reports; [apply writeFiles_reports|]. apply reports_calm; [apply file_sizes_calm|]. intros. rep_step. apply reports_ret. }
  apply reports_calm; [apply safe_for_each; intros; by apply safe_perform|]. intros _. apply reports_ensure.
  { destruct (fc_Tarball c); [apply reports_ret|]. unfold fetch_tarballs.
    apply said_reports; [apply fetchTarballs_reports|]. apply reports_calm; [calmly|]. intros [n size]. rep_step. apply reports_ret. }
  apply reports_ensure.
  { unfold fetch_mounts, checkEmptyMounts. apply (said_reports _ (fun e => e)); [apply calm_reports; calmly|].
    apply reports_calm; [apply safe_for_each; intros; by apply safe_perform|]. intros _. apply reports_ret. }
  apply reports_ensure.
  { unfold shareWithAnyUID. apply reports_ensure; [rep_step|]. rep_step. destruct a0; [apply share_tree_reports|apply reports_ret]. }
  apply reports_calm; [calmly|]. intros. rep_step. apply reports_ret.
Qed.

(** The fetch stops at its first failure: in every execution, once a step that must
    succeed has not — a directory, a file, git, a download, an archive, a link, a
    permission — nothing more is done but saying so and closing the open file, and
    the fetch fails; so a fetch that succeeds had no failed step. *)
Theorem fetch_stops_at_failure c dst tr1 ev tr2 out :
  exec (Fetch c dst) (tr1 ++ ev :: tr2) out → failed_step ev = true →
  out ≠ None ∧ ∀ R (o : FOp R) r, Ev o r ∈ tr2 → afterwards R o = true.
Proof.
  intros Hex Hf. destruct (guards_sound _ _ _ _ _ _ (Fetch_reports c dst) Hex) as (s' & Hw & Hs).
  destruct (proj2 (strict_watch _ _ _ Hw) _ _ _ eq_refl Hf) as [-> Hall]. split; [by apply Hs|exact Hall].
Qed.
End Strict.

(** ** A fetch *)

(** An outside where everything succeeds but the download of one address. *)
Definition gone : string := "https://example.org/gone.tgz".
Definition answers (R : Type) (o : FOp R) (w : unit) : R * unit :=
  match o in FOp R return R * unit with
  | HttpGet url => (Ok (if (url =? gone)%string then 404 else 200)%Z, w)
  | OpenArchive _ => (Ok [Ok (mkHeader "lib/util.js" TypeReg 420 "")], w)
  | ReadContent _ => (Err "none", w)
  | TimedOut => (false, w)
  | FNow => (0%Z, w)
  | Getwd => (Ok "/", w)
  | LookupEnv _ => (None, w)
  | StatPath _ => (Ok (false, 14%Z), w)
  | WalkTree _ => (Ok (Dir_ "" [Entry_ "load.js" Regular (Ok (420, 14)%Z)] None), w)
  | GitOutput _ _ => (Ok "0123456789abcdef", w)
  | FMkdirAll _ _ | WriteFile _ _ _ | OpenFile _ _ | MakeSymlink _ _ | OpenRoot _ | Chmod _ _ _ | RunGit _ _ _ | NewRequest _
  | CopyEntry _ | CloseFile _ => (None, w)
  | FetchTimeout _ | FSay _ | FTermination _ _ => (tt, w)
  end.

Definition demo_fetcher : FetcherLib := {| FetcherLib_text := WrapperSpec.demo_lib; WithoutUser _ := None; Base64 s := s |}.
Definition demo_git : Git := mkGitSpec "https://example.org/code.git" "main" ["scenarios"] "" "".
Definition demo_content (tarball : string) : Content :=
  mkContent (Some demo_git) [mkFile "repo/load.js" "export {}" "" None] [mkTarball tarball "vendor" false] [].
Definition fetched (tarball : string) : option string * unit * list (event FOp) :=
  run answers (Fetch (H := demo_fetcher) (demo_content tarball) "/data") tt.
Lemma fetched_exec tarball : exec (Fetch (H := demo_fetcher) (demo_content tarball) "/data") (fetched tarball).2 (fetched tarball).1.1.
Proof. apply run_exec. Qed.

Lemma fetch_confined_witness :
  (fetched "https://example.org/lib.tgz").1.1 = None ∧ Forall (event_ok (confined "/data")) (fetched "https://example.org/lib.tgz").2.
Proof.
  split; [vm_compute; reflexivity|].
  exact (fetch_confined (H := demo_fetcher) "/data" eq_refl (demo_content "https://example.org/lib.tgz") _ _ (fetched_exec _)).
Defined.

(** The events before the failed download, and after it. *)
Definition before_gone : list (event FOp) := take 25 (fetched gone).2.
Definition after_gone : list (event FOp) := drop 26 (fetched gone).2.
Lemma gone_split : (fetched gone).2 = before_gone ++ Ev (HttpGet gone) (Ok 404%Z) :: after_gone.
Proof. vm_compute. reflexivity. Qed.

Lemma fetch_stops_at_failure_witness :
  failed_step (Ev (HttpGet gone) (Ok 404%Z)) = true ∧ (fetched gone).1.1 ≠ None.
Proof.
  assert (Hf : failed_step (Ev (HttpGet gone) (Ok 404%Z)) = true) by reflexivity. split; [exact Hf|].
  refine (proj1 (fetch_stops_at_failure (H := demo_fetcher) (demo_content gone) "/data" before_gone (Ev (HttpGet gone) (Ok 404%Z)) after_gone _ _ Hf)).
  rewrite <- gone_split. apply fetched_exec.
Defined.

Definition cloned : option string * unit * list (event FOp) := run answers (clone (H := demo_fetcher) demo_git "/data/repo") tt.
Lemma clone_runs_witness : cloned.1.1 = None ∧ git_args cloned.2 = git_commands demo_git.
Proof.
  assert (Hout : cloned.1.1 = None) by (vm_compute; reflexivity). split; [exact Hout|].
  exact (proj1 (proj2 (clone_runs (H := demo_fetcher) demo_git "/data/repo" cloned.2 cloned.1.1 (run_exec answers _ tt))) Hout).
Defined.

End FetcherSpec.
