(* ===== verification/Disk.v ===== *)
(** * A disk with symbolic links

    The environment of the fetcher's theorems about where a path leads: how a
    kernel resolves a path, following symbolic links, and what the fetcher's
    operations do to such a disk.  Without links a path leads where its text says;
    with them an archive of three entries, each of which the fetcher accepts,
    writes outside its directory. *)
From S2P Require Import Prelude Api GoLib Keys Paths Objects Effects Termination Wrapper WrapperSpec Fetcher FetcherSpec.

Module Disk.
Import Paths Fetcher FetcherSpec.

Inductive node := NDir | NFile (content : string) | NLink (target : string).
#[export] Instance node_eq_dec : EqDecision node.
Proof. solve_decision. Defined.

(** By the names from the root; the root itself is always there. *)
Abbreviation disk := (gmap (list string) node).

(** The place a path leads to from a directory; the last name need not exist.
    A path that runs out of fuel has too many links. *)
Fixpoint resolve_path (fuel : nat) (w : disk) (cur segs : list string) : option (list string) :=
  match fuel with
  | O => None
  | S fuel =>
      match segs with
      | [] => Some cur
      | s :: rest =>
          if (s =? "")%string || (s =? ".")%string then resolve_path fuel w cur rest
          else if (s =? "..")%string then resolve_path fuel w (removelast cur) rest
          else
            match w !! (cur ++ [s]) with
            | Some (NLink t) => resolve_path fuel w (if IsAbs t then [] else cur) (Split slash t ++ rest)
            | Some NDir => resolve_path fuel w (cur ++ [s]) rest
            | Some (NFile _) | None => match rest with [] => Some (cur ++ [s]) | _ => None end
            end
      end
  end.

Definition leads_to (fuel : nat) (w : disk) (p : string) : option (list string) := resolve_path fuel w [] (Split slash p).

(** Enough steps for the paths below: each has at most eight names, and no link
    leads back to itself. *)
Definition steps : nat := 60.

Definition is_dir (w : disk) (q : list string) : bool := bool_decide (q = []) || bool_decide (w !! q = Some NDir).

(** One name of [os.MkdirAll]. *)
Definition mkdir_step (st : option (disk * list string)) (s : string) : option (disk * list string) :=
  match st with
  | None => None
  | Some (w, cur) =>
      match resolve_path steps w cur [s] with
      | None => None
      | Some q => if is_dir w q then Some (w, q) else match w !! q with Some _ => None | None => Some (<[q := NDir]> w, q) end
      end
  end.
Definition mkdir_all (w : disk) (p : string) : option disk :=
  fst <$> foldl mkdir_step (Some (w, [])) (Split slash p).

Definition write_file (w : disk) (p content : string) : option disk :=
  match leads_to steps w p with
  | Some q => if is_dir w q then None else if is_dir w (removelast q) then Some (<[q := NFile content]> w) else None
  | None => None
  end.

Definition make_link (w : disk) (old new : string) : option disk :=
  match leads_to steps w (Dir new) with
  | Some d =>
      let q := d ++ [List.last (Split slash new) ""] in
      if is_dir w d && bool_decide (w !! q = None) then Some (<[q := NLink old]> w) else None
  | None => None
  end.

(** A disk that is given an archive's entries. *)
Definition or_fail (w : disk) (r : option disk) : option string * disk := match r with Some w' => (None, w') | None => (Some "failed", w) end.
Definition serve (entries : list tar_header) (R : Type) (o : FOp R) (w : disk) : R * disk :=
  match o in FOp R return R * disk with
  | FMkdirAll p _ => or_fail w (mkdir_all w p)
  | WriteFile p payload _ => or_fail w (write_file w p payload)
  | OpenFile p _ => or_fail w (write_file w p "archived")
  | MakeSymlink old new => or_fail w (make_link w old new)
  | HttpGet _ => (Ok 200%Z, w)
  | OpenArchive _ => (Ok (Ok <$> entries), w)
  | ReadContent _ => (Err "none", w)
  | TimedOut => (false, w)
  | FNow => (0%Z, w)
  | Getwd => (Ok "/", w)
  | LookupEnv _ => (None, w)
  | StatPath _ => (Err "none", w)
  | WalkTree _ => (Ok (Dir_ "" [] None), w)
  | GitOutput _ _ => (Err "none", w)
  | OpenRoot _ | Chmod _ _ _ | RunGit _ _ _ | NewRequest _ | CopyEntry _ | CloseFile _ => (None, w)
  | FetchTimeout _ | FSay _ | FTermination _ _ => (tt, w)
  end.

(** ** Without links *)

Definition is_link (n : node) : bool := match n with NLink _ => true | _ => false end.
Definition linkless (w : disk) : Prop := map_Forall (fun _ n => is_link n = false) w.

Lemma walk_linkless w fuel cur segs q :
  linkless w → Forall proper cur → Forall (fun s => Keys.no_slash s = true) segs → resolve_path fuel w cur segs = Some q →
  q = reverse (foldl (clean_step true) (reverse cur) segs).
Proof.
  intros Hw. revert cur segs. induction fuel as [|fuel IH]; intros cur segs Hcur Hsegs; [done|].
  destruct segs as [|s rest]; cbn [resolve_path foldl]; [intros [= <-]; by rewrite reverse_involutive|].
  apply Forall_cons in Hsegs as [Hs Hrest]. unfold clean_step at 2.
  destruct ((s =? "")%string || (s =? ".")%string) eqn:E1; [by apply IH|].
  destruct (s =? "..")%string eqn:E2.
  - intros Hq. apply IH in Hq as ->; [|by destruct cur using rev_ind; [|rewrite removelast_last; apply Forall_app in Hcur as [? _]]|done].
    f_equal. f_equal. destruct cur as [|x cur _] using rev_ind; [done|]. rewrite removelast_last, reverse_snoc.
    apply Forall_app in Hcur as [_ [Hx _]%Forall_cons]. apply proper_iff in Hx as (_ & _ & _ & Hx). by rewrite (proj2 (String.eqb_neq x "..") Hx).
  - assert (Hp : proper s).
    { apply orb_false_iff in E1 as [E0 E1]. apply String.eqb_neq in E0, E1, E2. by apply proper_iff. }
    assert (Hcs : Forall proper (cur ++ [s])) by (apply Forall_app; split; [done|by constructor]).
    assert (Hend : reverse (foldl (clean_step true) (s :: reverse cur) []) = cur ++ [s]) by (cbn [foldl]; by rewrite reverse_cons, reverse_involutive).
    destruct (w !! (cur ++ [s])) as [[|content|t]|] eqn:El.
    + intros Hq. apply IH in Hq as ->; [|done..]. by rewrite reverse_snoc.
    + destruct rest; [intros [= <-]; by rewrite Hend|done].
    + by apply Hw in El.
    + destruct rest; [intros [= <-]; by rewrite Hend|done].
Qed.

Lemma leads_to_linkless fuel w p q : linkless w → IsAbs p = true → leads_to fuel w p = Some q → q = clean_elems p.
Proof.
  intros Hw Hp Hq. apply walk_linkless in Hq; [|done|constructor|apply Split_no_slash].
  rewrite Hq. unfold clean_elems. by rewrite Hp.
Qed.

(** On a disk without symbolic links every file the fetch writes is below the data
    directory in fact: the place its path leads to is one of the directory's. *)
Theorem linkless_fetch_lands_inside `{FetcherLib} dst c tr out fuel w p q ev :
  IsAbs dst = true → exec (Fetch c dst) tr out → linkless w →
  ev ∈ tr → (∃ mode r, ev = Ev (OpenFile p mode) r) ∨ (∃ payload mode r, ev = Ev (WriteFile p payload mode) r) →
  leads_to fuel w p = Some q → clean_elems dst `prefix_of` q.
Proof.
  intros Hd Hex Hw Hin Hev Hq. pose proof (safe_trace _ _ _ _ (Fetch_confined dst Hd c) Hex) as Hall.
  rewrite Forall_forall in Hall. specialize (Hall _ Hin).
  assert (Hu : under dst p = true) by (destruct Hev as [(? & ? & ->)|(? & ? & ? & ->)]; exact Hall).
  unfold under in Hu. apply andb_prop in Hu as [Hp Hpre]. apply bool_decide_eq_true in Hpre.
  by rewrite (leads_to_linkless _ _ _ _ Hw Hp Hq).
Qed.

(** ** With links *)

Definition hop : list tar_header :=
  [mkHeader "d" TypeSymlink 511 "."; mkHeader "d/e" TypeSymlink 511 ".."; mkHeader "e/planted" TypeReg 420 ""].
Definition one_tarball : Content := mkContent None [] [Api.mkTarball "https://example.org/t.tgz" "code" false] [].
Definition bare : disk := {[ ["data"] := NDir; ["data"; "code"] := NDir ]}.
Definition unpack (entries : list tar_header) : option string * disk * list (event FOp) :=
  run (serve entries) (Fetch (H := demo_fetcher) one_tarball "/data") bare.

(** An archive leaves its directory: its entries are a link to its own directory,
    a link through that one to "..", and a file below the second; each passes the
    check, which sees only the text of the paths, the fetch succeeds, and the file
    is beside the directory it was to be unpacked in. *)
Example archive_escapes :
  exec (Fetch (H := demo_fetcher) one_tarball "/data") (unpack hop).2 None ∧
  Forall (event_ok (confined "/data")) (unpack hop).2 ∧
  bare !! ["data"; "planted"] = None ∧ (unpack hop).1.2 !! ["data"; "planted"] = Some (NFile "archived").
Proof.
  assert (Hout : (unpack hop).1.1 = None) by (vm_compute; reflexivity).
  assert (Hex : exec (Fetch (H := demo_fetcher) one_tarball "/data") (unpack hop).2 None) by (rewrite <- Hout; apply run_exec).
  split_and!; [exact Hex|by eapply safe_trace; [apply (Fetch_confined (H := demo_fetcher))|]|vm_compute; reflexivity|vm_compute; reflexivity].
Qed.

Lemma unpack_exec entries : exec (Fetch (H := demo_fetcher) one_tarball "/data") (unpack entries).2 (unpack entries).1.1.
Proof. apply run_exec. Qed.

(** An archive of one plain file. *)
Definition one_file : list tar_header := [mkHeader "f" TypeReg 420 ""].
Lemma linkless_fetch_lands_inside_witness :
  leads_to steps (unpack one_file).1.2 "/data/code/f" = Some ["data"; "code"; "f"] ∧ clean_elems "/data" `prefix_of` ["data"; "code"; "f"].
Proof.
  assert (Hq : leads_to steps (unpack one_file).1.2 "/data/code/f" = Some ["data"; "code"; "f"]) by (vm_compute; reflexivity).
  split; [exact Hq|].
  apply (linkless_fetch_lands_inside (H := demo_fetcher) "/data" one_tarball (unpack one_file).2 (unpack one_file).1.1 steps
           (unpack one_file).1.2 "/data/code/f" ["data"; "code"; "f"] (Ev (OpenFile "/data/code/f" 420) None)).
  - reflexivity.
  - apply unpack_exec.
  - apply (bool_decide_unpack _). vm_compute. reflexivity.
  - apply (list_elem_of_lookup_2 _ 8). vm_compute. reflexivity.
  - left. by eexists _, _.
  - exact Hq.
Defined.

(** A hard link names a place from the archive's top; the fetcher makes it a
    symbolic link, which names a place from its own directory. *)
Definition hard : list tar_header := [mkHeader "a/f" TypeReg 420 ""; mkHeader "b/g" TypeLink 420 "a/f"].
Example hard_link_dangles :
  (unpack hard).1.1 = None ∧ leads_to steps (unpack hard).1.2 "/data/code/a/f" = Some ["data"; "code"; "a"; "f"] ∧
  leads_to steps (unpack hard).1.2 "/data/code/b/g" = None.
Proof. split_and!; vm_compute; reflexivity. Qed.

(** A name that merely starts with two dots is taken for one that goes up. *)
Example dotted_name_refused : isUnder "/data/..cache" "/data" = false.
Proof. vm_compute. reflexivity. Qed.

End Disk.
