(* ===== verification/Logstream.v ===== *)
(** * internal/logstream: tailing a pod's log

    The ring buffer, the position in the log and its filter, the line scanner, the
    subscribers' bounded queues, the chunks and the cursor, and the run loop as a
    function from what happens to it — a stream opened or not, bytes, the stream's
    end or failure, the flush timer, a cancelled context, a client — to its next
    state.  Publishing is in two halves, and clients may come between them.  The select of the loop picks any of them that is ready, so every
    sequence of happenings is a possible course.  Registry: the tailers by id. *)
From S2P Require Import Prelude GoLib Keys.

Module Logstream.

Abbreviation bytes := (list ascii).

(** uint64 arithmetic. *)
Definition wrapu64 (z : Z) : Z := z mod 2 ^ 64.

(** ** ring.go *)

Record ringBuffer := mkRing {
  rg_capacity : nat; rg_buf : bytes; rg_tail : nat; rg_full : bool; rg_totalWritten : Z; rg_overflowed : bool }.

Definition newRingBuffer (capacity : Z) : ringBuffer := mkRing (Z.to_nat (if (capacity <=? 0)%Z then 1 else capacity)) [] 0 false 0 false.

Definition appendByte (r : ringBuffer) (b : ascii) : ringBuffer :=
  if negb (rg_full r) then
    let buf := rg_buf r ++ [b] in
    if (length buf =? rg_capacity r)%nat then mkRing (rg_capacity r) buf 0 true (rg_totalWritten r) (rg_overflowed r)
    else mkRing (rg_capacity r) buf (rg_tail r) false (rg_totalWritten r) (rg_overflowed r)
  else
    mkRing (rg_capacity r) (<[rg_tail r := b]> (rg_buf r)) ((rg_tail r + 1) mod rg_capacity r) true (rg_totalWritten r) true.

Definition Append (r : ringBuffer) (p : bytes) : ringBuffer :=
  let r := foldl appendByte r p in
  mkRing (rg_capacity r) (rg_buf r) (rg_tail r) (rg_full r) (wrap64 (rg_totalWritten r + Z.of_nat (length p))) (rg_overflowed r).

Definition Snapshot (r : ringBuffer) : bytes * Z * bool :=
  let n := length (rg_buf r) in
  if (n =? 0)%nat then ([], rg_totalWritten r, rg_overflowed r)
  else
    ((if negb (rg_full r) then rg_buf r else drop (rg_tail r) (rg_buf r) ++ take (rg_tail r) (rg_buf r)),
     wrap64 (rg_totalWritten r - Z.of_nat n), rg_overflowed r).

(** ** position.go *)

Record Position := mkPosition { ps_Last : time; ps_AtLast : Z }.
#[export] Instance Position_eq_dec : EqDecision Position.
Proof. solve_decision. Defined.
Definition advance (p : Position) (ts : time) : Position :=
  if (ts =? ps_Last p)%Z then mkPosition (ps_Last p) (wrap64 (ps_AtLast p + 1)) else mkPosition ts 1.

Record Cursor := mkCursor { cu_NextSeq : Z; cu_Position : Position }.
#[export] Instance Cursor_eq_dec : EqDecision Cursor.
Proof. solve_decision. Defined.

Record replayFilter := mkFilter { rf_upTo : Position; rf_seen : Z }.
Definition keep (f : replayFilter) (ts : time) : bool * replayFilter :=
  if (ts <? ps_Last (rf_upTo f))%Z then (false, f)
  else if (ts =? ps_Last (rf_upTo f))%Z then
    let seen := wrap64 (rf_seen f + 1) in ((ps_AtLast (rf_upTo f) <? seen)%Z, mkFilter (rf_upTo f) seen)
  else (true, f).

(** ** The line scanner (tailer.go) *)

(** time.Parse with RFC3339Nano. *)
Class TimeText := ParseRFC3339Nano : bytes → option time.

Inductive line_state := lineHeader | lineKeep | lineDrop.
#[export] Instance line_state_eq_dec : EqDecision line_state.
Proof. solve_decision. Defined.

Record lines := mkLines { ln_line : line_state; ln_hdr : bytes; ln_pos : Position; ln_filter : replayFilter }.

Definition maxTimestampLen : nat := 35.
Definition isTimestampByte (c : ascii) : bool :=
  ((48 <=? N_of_ascii c)%N && (N_of_ascii c <=? 57)%N)
  || Ascii.eqb c "-" || Ascii.eqb c ":" || Ascii.eqb c "." || Ascii.eqb c "T" || Ascii.eqb c "Z" || Ascii.eqb c "+".

(** bytes.IndexByte. *)
Fixpoint IndexByte (s : bytes) (c : ascii) : option nat :=
  match s with [] => None | d :: s => if Ascii.eqb d c then Some 0%nat else S <$> IndexByte s c end.

Section Scan.
Context `{TimeText}.

(** A line's timestamp has been read: is the line new? *)
Definition stamped (l : lines) (ts : time) : lines :=
  let '(new, filter) := keep (ln_filter l) ts in
  if new then mkLines lineKeep [] (advance (ln_pos l) ts) filter else mkLines lineDrop [] (ln_pos l) filter.

(** The rest of a line, up to its end or the data's. *)
Definition scan_rest (l : lines) (data out : bytes) : lines * bytes * bytes :=
  let '(end_, eol) := match IndexByte data newline with Some i => (S i, true) | None => (length data, false) end in
  let out := match ln_line l with lineKeep => out ++ take end_ data | _ => out end in
  (if eol then mkLines lineHeader (ln_hdr l) (ln_pos l) (ln_filter l) else l, drop end_ data, out).

(** One turn of consume's loop. *)
Definition scan_step (l : lines) (data out : bytes) : lines * bytes * bytes :=
  match ln_line l, data with
  | lineHeader, c :: rest =>
      match (if Ascii.eqb c " " && negb (length (ln_hdr l) =? 0)%nat then ParseRFC3339Nano (ln_hdr l) else None) with
      | Some ts => (stamped l ts, rest, out)
      | None =>
          if isTimestampByte c && (length (ln_hdr l) <? maxTimestampLen)%nat then
            (mkLines lineHeader (ln_hdr l ++ [c]) (ln_pos l) (ln_filter l), rest, out)
          else scan_rest (mkLines lineKeep [] (ln_pos l) (ln_filter l)) data (out ++ ln_hdr l)
      end
  | _, _ => scan_rest l data out
  end.

(** Every turn takes a byte at least, so the data's length is enough turns. *)
Fixpoint scan_loop (fuel : nat) (l : lines) (data out : bytes) : lines * bytes :=
  match fuel, data with
  | S fuel, _ :: _ => let '(l, data, out) := scan_step l data out in scan_loop fuel l data out
  | _, _ => (l, out)
  end.
Definition scan (l : lines) (data : bytes) : lines * bytes := scan_loop (length data) l data [].
End Scan.

(** ** The tailer *)

Record Frame := mkFrame { fr_Data : bytes; fr_Marker : string }.
Definition MarkerReplayTruncated : string := "replay-truncated".
Definition ReasonEOF : string := "eof".
Definition ReasonOverflow : string := "overflow".
Definition ReasonUnsubscribed : string := "unsubscribed".

(** A subscription: the frames its client has received, those in its channel, and
    why the channel is closed ("" while it is open). *)
Record Subscription := mkSub { sb_received : list Frame; sb_frames : list Frame; sb_reason : string }.

Definition DefaultRingBytes : Z := 64 * 1024.
Definition DefaultChunkBytes : Z := 512 * 1024.
Definition DefaultFlushInterval : duration := 5 * second.
Definition DefaultSubscriberQueue : Z := 32.
Definition DefaultReadBufferBytes : Z := 4 * 1024.
Definition DefaultReopenMaxAttempts : Z := 5.
Definition DefaultReopenBackoff : duration := 200 * millisecond.

Record Config := mkConfig {
  lc_Keys : Keys.RunKeys; lc_Resume : option Cursor; lc_Uploader : bool; lc_Bucket : string;
  lc_RingBytes : Z; lc_ChunkBytes : Z; lc_FlushInterval : duration; lc_SubscriberQueue : Z; lc_ReadBufferBytes : Z;
  lc_ReopenMaxAttempts : Z; lc_ReopenBackoff : duration }.

Definition or_default (z d : Z) : Z := if (z =? 0)%Z then d else z.
Definition applyDefaults (c : Config) : Config :=
  mkConfig (lc_Keys c) (lc_Resume c) (lc_Uploader c) (lc_Bucket c) (or_default (lc_RingBytes c) DefaultRingBytes)
    (or_default (lc_ChunkBytes c) DefaultChunkBytes) (or_default (lc_FlushInterval c) DefaultFlushInterval)
    (or_default (lc_SubscriberQueue c) DefaultSubscriberQueue) (or_default (lc_ReadBufferBytes c) DefaultReadBufferBytes)
    (or_default (lc_ReopenMaxAttempts c) DefaultReopenMaxAttempts) (or_default (lc_ReopenBackoff c) DefaultReopenBackoff).

(** [tl_subs]: the registered ids; [tl_all]: every subscription there ever was. *)
Record Tailer := mkTailer {
  tl_cfg : Config; tl_ring : ringBuffer; tl_subs : gset Z; tl_all : gmap Z Subscription; tl_nextSubID : Z; tl_stopped : bool;
  tl_pending : bytes; tl_chunkSeq : Z; tl_lines : lines }.

Definition New (cfg : Config) : Tailer :=
  let cfg := applyDefaults cfg in
  let pos := match lc_Resume cfg with Some c => cu_Position c | None => mkPosition zero_time 0 end in
  mkTailer cfg (newRingBuffer (lc_RingBytes cfg)) ∅ ∅ 0 false []
    (match lc_Resume cfg with Some c => cu_NextSeq c | None => 0%Z end)
    (mkLines lineHeader [] pos (mkFilter (mkPosition zero_time 0) 0)).

Definition with_subs (t : Tailer) (subs : gset Z) (all : gmap Z Subscription) : Tailer :=
  mkTailer (tl_cfg t) (tl_ring t) subs all (tl_nextSubID t) (tl_stopped t) (tl_pending t) (tl_chunkSeq t) (tl_lines t).
Definition with_lines (t : Tailer) (l : lines) : Tailer :=
  mkTailer (tl_cfg t) (tl_ring t) (tl_subs t) (tl_all t) (tl_nextSubID t) (tl_stopped t) (tl_pending t) (tl_chunkSeq t) l.

(** Subscription.close: the first reason stays. *)
Definition close (reason : string) (s : Subscription) : Subscription :=
  if (sb_reason s =? "")%string then mkSub (sb_received s) (sb_frames s) reason else s.

Definition Subscribe (t : Tailer) : Tailer * Z :=
  let id := tl_nextSubID t in
  let '(snap, _, overflowed) := Snapshot (tl_ring t) in
  let first := if (length snap =? 0)%nat then [] else [mkFrame snap (if (overflowed : bool) then MarkerReplayTruncated else "")] in
  let sub := if tl_stopped t then mkSub [] [] ReasonEOF else mkSub [] first "" in
  (mkTailer (tl_cfg t) (tl_ring t) (if tl_stopped t then tl_subs t else {[ id ]} ∪ tl_subs t) (<[id := sub]> (tl_all t)) (id + 1)
     (tl_stopped t) (tl_pending t) (tl_chunkSeq t) (tl_lines t), id).

Definition Unsubscribe (t : Tailer) (id : Z) : Tailer :=
  if decide (id ∈ tl_subs t) then with_subs t (tl_subs t ∖ {[ id ]}) (alter (close ReasonUnsubscribed) id (tl_all t)) else t.

(** A client takes the next frame of its channel. *)
Definition receive_frame (s : Subscription) : Subscription :=
  match sb_frames s with f :: fs => mkSub (sb_received s ++ [f]) fs (sb_reason s) | [] => s end.
Definition Receive (t : Tailer) (id : Z) : Tailer := with_subs t (tl_subs t) (alter receive_frame id (tl_all t)).

(** A send that does not block: a full channel costs the subscription. *)
Definition has_room (t : Tailer) (id : Z) : bool :=
  match tl_all t !! id with Some s => (Z.of_nat (length (sb_frames s)) <? lc_SubscriberQueue (tl_cfg t))%Z | None => false end.
Definition offer (t : Tailer) (frame : Frame) (id : Z) (s : Subscription) : Subscription :=
  if decide (id ∈ tl_subs t) then
    if (Z.of_nat (length (sb_frames s)) <? lc_SubscriberQueue (tl_cfg t))%Z then mkSub (sb_received s) (sb_frames s ++ [frame]) (sb_reason s)
    else close ReasonOverflow s
  else s.

(** What a client does to the tailer, from a goroutine of its own. *)
Inductive client_act := Subscribes | Unsubscribes (id : Z) | Takes (id : Z).
Definition client (t : Tailer) (a : client_act) : Tailer :=
  match a with Subscribes => (Subscribe t).1 | Unsubscribes id => Unsubscribe t id | Takes id => Receive t id end.

(** The first half of [publish], outside the subscribers' lock: the ring and the
    bytes that wait to be a chunk. *)
Definition record (t : Tailer) (data : bytes) : Tailer :=
  mkTailer (tl_cfg t) (Append (tl_ring t) data) (tl_subs t) (tl_all t) (tl_nextSubID t) (tl_stopped t) (tl_pending t ++ data)
    (tl_chunkSeq t) (tl_lines t).
(** The second half, under the lock: every registered client is offered the bytes.
    A client that is dropped is closed right after; nobody else closes it. *)
Definition fan_out (t : Tailer) (data : bytes) : Tailer :=
  with_subs t (filter (fun id => has_room t id = true) (tl_subs t)) (map_imap (fun id s => Some (offer t (mkFrame data "") id s)) (tl_all t)).

(** [between]: what clients do after the first half and before the second. *)
Definition publish (t : Tailer) (data : bytes) (between : list client_act) : Tailer :=
  if (length data =? 0)%nat then foldl client t between else fan_out (foldl client (record t data) between) data.

Definition consume `{TimeText} (t : Tailer) (data : bytes) (between : list client_act) : Tailer :=
  let '(l, out) := scan (tl_lines t) data in publish (with_lines t l) out between.

Definition with_hdr (l : lines) (hdr : bytes) : lines := mkLines (ln_line l) hdr (ln_pos l) (ln_filter l).
Definition flushPartialLine (t : Tailer) (between : list client_act) : Tailer :=
  if (length (ln_hdr (tl_lines t)) =? 0)%nat then foldl client t between
  else let t' := publish t (ln_hdr (tl_lines t)) between in with_lines t' (with_hdr (tl_lines t') []).

(** What the tailer stores and counts. *)
Inductive put := PutChunk (key : string) (body : bytes) (stored : bool) | CountBytes (n : Z) | PutCursor (key : string) (c : Cursor).

Definition saveCursor (t : Tailer) : list put :=
  if (ps_Last (ln_pos (tl_lines t)) =? zero_time)%Z then []
  else [PutCursor (Keys.LogCursor (lc_Keys (tl_cfg t))) (mkCursor (tl_chunkSeq t) (ln_pos (tl_lines t)))].

(** [stored]: whether the store takes the chunk. *)
Definition flushPending (t : Tailer) (stored : bool) : Tailer * list put :=
  if (length (tl_pending t) =? 0)%nat || negb (lc_Uploader (tl_cfg t)) then (t, [])
  else
    let t' := mkTailer (tl_cfg t) (tl_ring t) (tl_subs t) (tl_all t) (tl_nextSubID t) (tl_stopped t) [] (wrapu64 (tl_chunkSeq t + 1)) (tl_lines t) in
    (t', PutChunk (Keys.LogChunk (lc_Keys (tl_cfg t)) (tl_chunkSeq t)) (tl_pending t) stored
         :: if stored then CountBytes (Z.of_nat (length (tl_pending t))) :: saveCursor t' else []).

Definition finalize (t : Tailer) (stored : bool) : Tailer * list put :=
  let '(t, puts) := flushPending t stored in
  (mkTailer (tl_cfg t) (tl_ring t) ∅
     (map_imap (fun id s => Some (if decide (id ∈ tl_subs t) then close ReasonEOF s else s)) (tl_all t))
     (tl_nextSubID t) true (tl_pending t) (tl_chunkSeq t) (tl_lines t), puts).

(** ** The run loop *)

(** Opening a stream, after a number of failures in a row; reading one; gone. *)
Inductive phase := Opening | Reading | Exited.
#[export] Instance phase_eq_dec : EqDecision phase.
Proof. solve_decision. Defined.

Record loop := mkLoop { lp_phase : phase; lp_attempts : Z; lp_tailer : Tailer }.

(** What happens to the loop.  A read or a timer may flush, so it says whether the
    store takes a chunk; what publishes says what clients do meanwhile; [Failed]: the
    stream failed and may be opened again. *)
Inductive happening :=
| OpenedStream
| OpenFailed (stored : bool)
| Data (data : bytes) (between : list client_act) (stored : bool)
| EndOfStream (between : list client_act) (stored : bool)
| Failed (stored : bool)
| Tick (stored : bool)
| Cancelled (between : list client_act) (stored : bool)
| Client (a : client_act).

(** A new stream starts at a line start, filtered up to the position. *)
Definition start_stream (t : Tailer) : Tailer :=
  let pos := ln_pos (tl_lines t) in with_lines t (mkLines lineHeader [] pos (mkFilter pos 0)).

Definition exit_loop (attempts : Z) (t : Tailer) (stored : bool) : loop * list put :=
  let '(t, puts) := finalize t stored in (mkLoop Exited attempts t, puts).

Section Loop.
Context `{TimeText}.

Definition retry_or_exit (attempts : Z) (t : Tailer) (stored : bool) : loop * list put :=
  if (lc_ReopenMaxAttempts (tl_cfg t) <=? attempts)%Z then exit_loop attempts t stored
  else (mkLoop Opening attempts (start_stream t), []).

Definition handle (s : loop) (h : happening) : loop * list put :=
  let t := lp_tailer s in
  match h, lp_phase s with
  | Client a, _ => (mkLoop (lp_phase s) (lp_attempts s) (client t a), [])
  | OpenedStream, Opening => (mkLoop Reading (lp_attempts s) (start_stream t), [])
  | OpenFailed stored, Opening => retry_or_exit (lp_attempts s + 1) t stored
  | Cancelled between stored, Opening => exit_loop (lp_attempts s) (foldl client t between) stored
  | Data data between stored, Reading =>
      if (length data =? 0)%nat then (mkLoop Reading (lp_attempts s) (foldl client t between), [])
      else
        let t := consume t data between in
        if (lc_ChunkBytes (tl_cfg t) <=? Z.of_nat (length (tl_pending t)))%Z then
          let '(t, puts) := flushPending t stored in (mkLoop Reading 0 t, puts)
        else (mkLoop Reading 0 t, [])
  | EndOfStream between stored, Reading => exit_loop (lp_attempts s) (flushPartialLine t between) stored
  | Failed stored, Reading => retry_or_exit (lp_attempts s + 1) t stored
  | Tick stored, Reading => let '(t, puts) := flushPending t stored in (mkLoop Reading (lp_attempts s) t, puts)
  | Cancelled between stored, Reading => exit_loop (lp_attempts s) (flushPartialLine t between) stored
  | _, _ => (s, [])
  end.

(** The course of a tailer from its start. *)
Definition course (cfg : Config) (hs : list happening) : loop * list put :=
  foldl (fun s h => let '(l, puts) := handle s.1 h in (l, s.2 ++ puts)) (mkLoop Opening 0 (New cfg), []) hs.
End Loop.

(** ** registry.go *)

Definition StageFlushInterval : duration := second.
Definition ErrRegistryClosed : string := "logstream: registry closed".

(** A started tailer: how it was configured and what its source opens. *)
Record started := mkStarted { sd_Config : Config; sd_Namespace : string; sd_Pod : string; sd_Container : string }.

(** [rs_tailers]: [None] once the registry is shut down. *)
Record Registry := mkRegistry {
  rs_tailers : option (gmap string started); rs_uploader : bool; rs_remover : bool; rs_cursors : bool; rs_bucket : string; rs_TailerConfig : Config }.

(** What the store answers for a cursor: not there, not readable or not a cursor,
    or one. *)
Inductive cursor_object := NoCursor | BadCursor (why : string) | StoredCursor (c : Cursor).
Definition loadCursor (r : Registry) (found : cursor_object) : option Cursor :=
  if rs_cursors r then match found with StoredCursor c => Some c | _ => None end else None.

(** What starting a tailer does to the store: reading the cursor, wiping a prefix. *)
Inductive store_op := GetCursor (key : string) | RemovePrefix (prefix : string).

Definition EnsureContainerTailer (r : Registry) (id : string) (keys : Keys.RunKeys) (namespace podName container : string)
    (found : cursor_object) : Registry * option string * list store_op :=
  if negb (Keys.Valid keys) then (r, Some "logstream: invalid storage keys", [])
  else
    match rs_tailers r with
    | None => (r, Some ErrRegistryClosed, [])
    | Some tailers =>
        match tailers !! id with
        | Some _ => (r, None, [])
        | None =>
            let resume := loadCursor r found in
            let wipe := bool_decide (resume = None) && rs_remover r && rs_uploader r in
            let cfg := rs_TailerConfig r in
            let flush := if negb (container =? "")%string && ((lc_FlushInterval cfg =? 0)%Z || (StageFlushInterval <? lc_FlushInterval cfg)%Z)
                         then StageFlushInterval else lc_FlushInterval cfg in
            let cfg := mkConfig keys resume (rs_uploader r) (if (lc_Bucket cfg =? "")%string then rs_bucket r else lc_Bucket cfg)
                         (lc_RingBytes cfg) (lc_ChunkBytes cfg) flush (lc_SubscriberQueue cfg) (lc_ReadBufferBytes cfg)
                         (lc_ReopenMaxAttempts cfg) (lc_ReopenBackoff cfg) in
            (mkRegistry (Some (<[id := mkStarted cfg namespace podName container]> tailers)) (rs_uploader r) (rs_remover r) (rs_cursors r)
               (rs_bucket r) (rs_TailerConfig r), None,
             (if rs_cursors r then [GetCursor (Keys.LogCursor keys)] else []) ++ (if wipe then [RemovePrefix (Keys.Logs keys)] else []))
        end
    end.
Definition EnsureTailer (r : Registry) (id : string) (keys : Keys.RunKeys) (namespace podName : string) (found : cursor_object) :=
  EnsureContainerTailer r id keys namespace podName "" found.

Definition with_tailers (r : Registry) (ts : option (gmap string started)) : Registry :=
  mkRegistry ts (rs_uploader r) (rs_remover r) (rs_cursors r) (rs_bucket r) (rs_TailerConfig r).
Definition Get (r : Registry) (id : string) : option started := rs_tailers r ≫= lookup id.
(** The tailer that is stopped, if there is one. *)
Definition StopTailer (r : Registry) (id : string) : Registry * option started := (with_tailers r (delete id <$> rs_tailers r), Get r id).
Definition Shutdown (r : Registry) : Registry * list started := (with_tailers r None, from_option (fun ts => snd <$> map_to_list ts) [] (rs_tailers r)).

End Logstream.
