(* ===== verification/LogstreamSpec.v ===== *)
(** * What the log stream promises

    The ring holds the last bytes written; how the stream is cut into reads does not
    matter; across any reconnects every line is published once, in order; a
    subscriber sees a stretch of the published stream without a gap; and the
    chunks, in the order of their numbers, are the published stream. *)
From S2P Require Import Prelude GoLib Keys Logstream.

Module LogstreamSpec.
Import Logstream.

(** ** The ring: the last bytes written *)

(** The last [n] of a list. *)
Definition lastn {A} (n : nat) (l : list A) : list A := drop (length l - n) l.

Lemma lastn_all {A} n (l : list A) : length l <= n → lastn n l = l.
Proof. intros Hl. unfold lastn. by replace (length l - n) with 0 by lia. Qed.
Lemma lastn_length {A} n (l : list A) : length (lastn n l) = n `min` length l.
Proof. unfold lastn. rewrite length_drop. lia. Qed.
Lemma lastn_app_one {A} n (l : list A) x : n <= length l → 0 < n → lastn n (l ++ [x]) = tail (lastn n l) ++ [x].
Proof.
  intros Hl Hn. unfold lastn. rewrite length_app. cbn [length].
  rewrite drop_app_le by lia. f_equal. replace (length l + 1 - n) with (S (length l - n)) by lia.
  destruct (drop (length l - n) l) as [|y ys] eqn:Ed; [apply (f_equal length) in Ed; rewrite length_drop in Ed; cbn in Ed; lia|].
  rewrite <- (Nat.add_1_r (length l - n)), <- drop_drop, Ed. done.
Qed.

(** What the ring holds, oldest first. *)
Definition contents (r : ringBuffer) : bytes := drop (rg_tail r) (rg_buf r) ++ take (rg_tail r) (rg_buf r).

Definition ring_of (r : ringBuffer) (w : bytes) : Prop :=
  0 < rg_capacity r ∧ contents r = lastn (rg_capacity r) w ∧
  rg_full r = bool_decide (rg_capacity r <= length w) ∧ rg_overflowed r = bool_decide (rg_capacity r < length w) ∧
  length (rg_buf r) = rg_capacity r `min` length w ∧ (rg_full r = false → rg_tail r = 0) ∧ rg_tail r < rg_capacity r.

Lemma ring_of_new c : ring_of (newRingBuffer c) [].
Proof.
  unfold ring_of, newRingBuffer. cbn. assert (0 < Z.to_nat (if (c <=? 0)%Z then 1 else c)) by (destruct (Z.leb_spec c 0); lia).
  split_and!; [done|done|by rewrite bool_decide_eq_false_2 by lia|by rewrite bool_decide_eq_false_2 by lia|lia|done|done].
Qed.

Lemma ring_of_byte r w b : ring_of r w → ring_of (appendByte r b) (w ++ [b]) ∧ rg_totalWritten (appendByte r b) = rg_totalWritten r
  ∧ rg_capacity (appendByte r b) = rg_capacity r.
Proof.
  intros (Hc & Hcont & Hfull & Hover & Hlen & Htail & Hlt). unfold appendByte. destruct (rg_full r) eqn:Ef; cbn [negb].
  - symmetry in Hfull. apply bool_decide_eq_true in Hfull. split; [|done].
    assert (Hl : length (rg_buf r) = rg_capacity r) by lia. unfold ring_of, contents in *. cbn [rg_capacity rg_buf rg_tail rg_full rg_overflowed].
    assert (Hk : rg_tail r < length (rg_buf r)) by lia.
    destruct (lookup_lt_is_Some_2 _ _ Hk) as [x Hx]. destruct (list_elem_of_split_length _ _ _ Hx) as (l1 & l2 & Hb & Hl1).
    revert Hcont Hl Hlt Htail Hfull. rewrite Hl1, Hb. clear Hx Hk. generalize (rg_capacity r) as n. intros n Hcont Hl Hlt Htail Hfull.
    rewrite length_app in Hl. cbn [length] in Hl.
    assert (Hins : <[length l1 := b]> (l1 ++ x :: l2) = l1 ++ b :: l2) by (rewrite <- (Nat.add_0_r (length l1)), insert_app_r; reflexivity).
    rewrite Hins. rewrite drop_app_length, take_app_length in Hcont.
    assert (Hnew : lastn n (w ++ [b]) = l2 ++ l1 ++ [b]).
    { rewrite lastn_app_one by lia. rewrite <- Hcont. cbn. by rewrite <- app_assoc. }
    split_and!.
    + lia.
    + rewrite Hnew. destruct (decide (length l1 + 1 = n)) as [E|E].
      * rewrite E, Nat.Div0.mod_same. assert (l2 = []) as -> by (destruct l2; [done|cbn in *; lia]). cbn. by rewrite app_nil_r.
      * rewrite Nat.mod_small by lia. rewrite Nat.add_comm. change (l1 ++ b :: l2) with (l1 ++ [b] ++ l2). rewrite app_assoc.
        rewrite drop_app_length', take_app_length' by (rewrite length_app; cbn; lia). done.
    + symmetry. apply bool_decide_eq_true. rewrite length_app. lia.
    + symmetry. apply bool_decide_eq_true. rewrite length_app. cbn. lia.
    + rewrite !length_app. cbn. lia.
    + done.
    + apply Nat.mod_upper_bound. lia.
  - symmetry in Hfull. apply bool_decide_eq_false in Hfull. rewrite bool_decide_eq_false_2 in Hover by lia.
    assert (Hl : length (rg_buf r) = length w) by lia. rewrite (Htail eq_refl) in *.
    assert (Hb : rg_buf r = w).
    { unfold contents in Hcont. rewrite (Htail eq_refl) in Hcont. cbn [drop take] in Hcont. rewrite app_nil_r, lastn_all in Hcont by lia. exact Hcont. }
    rewrite Hb. cbn zeta. destruct (Nat.eqb_spec (length (w ++ [b])) (rg_capacity r)) as [E|E]; (split; [|done]);
      unfold ring_of, contents; cbn [rg_capacity rg_buf rg_tail rg_full rg_overflowed drop take]; rewrite length_app in E; cbn [length] in E.
    + rewrite app_nil_r, lastn_all by (rewrite length_app; cbn; lia). rewrite !length_app. cbn [length].
      rewrite bool_decide_eq_true_2, Hover, bool_decide_eq_false_2 by lia. split_and!; [done..|lia|done|lia].
    + rewrite app_nil_r, lastn_all by (rewrite length_app; cbn; lia). rewrite !length_app. cbn [length].
      rewrite bool_decide_eq_false_2, Hover, bool_decide_eq_false_2 by lia. split_and!; [done..|lia|done|lia].
Qed.

Lemma ring_of_bytes p : ∀ r w, ring_of r w → ring_of (foldl appendByte r p) (w ++ p) ∧ rg_totalWritten (foldl appendByte r p) = rg_totalWritten r
  ∧ rg_capacity (foldl appendByte r p) = rg_capacity r.
Proof.
  induction p as [|b p IH]; intros r w Hr; cbn [foldl]; [by rewrite app_nil_r|].
  destruct (ring_of_byte r w b Hr) as (H1 & H2 & H3). destruct (IH _ _ H1) as (H4 & H5 & H6). rewrite <- app_assoc in H4. split_and!; [exact H4|congruence..].
Qed.

Lemma ring_of_Append r w p : ring_of r w → ring_of (Append r p) (w ++ p).
Proof. intros Hr. destruct (ring_of_bytes p r w Hr) as (H1 & _ & _). exact H1. Qed.

Lemma Append_fields r w p : ring_of r w → rg_totalWritten (Append r p) = wrap64 (rg_totalWritten r + Z.of_nat (length p)) ∧ rg_capacity (Append r p) = rg_capacity r.
Proof. intros Hr. destruct (ring_of_bytes p r w Hr) as (_ & H2 & H3). cbn. by rewrite H2, H3. Qed.

Lemma Append_all c ps :
  let r := foldl Append (newRingBuffer c) ps in
  ring_of r (concat ps) ∧ rg_totalWritten r = wrap64 (Z.of_nat (length (concat ps))) ∧ rg_capacity r = rg_capacity (newRingBuffer c).
Proof.
  cbn zeta. induction ps as [|p ps IH] using rev_ind; [split_and!; [apply ring_of_new|done..]|].
  destruct IH as (IH1 & IH2 & IH3). rewrite foldl_app, concat_app. cbn [foldl concat]. rewrite app_nil_r.
  destruct (Append_fields _ _ p IH1) as [H1 H2]. split_and!; [by apply ring_of_Append| |congruence].
  by rewrite H1, IH2, length_app, wrap64_add_l, Nat2Z.inj_add.
Qed.

(** The ring after any writes: its snapshot is the last bytes written, as many as it
    has room for, oldest first; it is said to have overflowed exactly when more
    were written; and it starts at the offset that many bytes before the end. *)
Theorem ring_snapshot c ps :
  let w := concat ps in
  let cap := Z.to_nat (Z.max 1 c) in
  Snapshot (foldl Append (newRingBuffer c) ps) =
    (lastn cap w, wrap64 (Z.of_nat (length w) - Z.of_nat (cap `min` length w)), bool_decide (cap < length w)).
Proof.
  cbn zeta. destruct (Append_all c ps) as ((Hc & Hcont & Hfull & Hover & Hlen & Htail & Hlt) & Htot & Hcap).
  set (r := foldl Append (newRingBuffer c) ps) in *. set (w := concat ps) in *.
  assert (Hcap' : rg_capacity r = Z.to_nat (Z.max 1 c)).
  { rewrite Hcap. unfold newRingBuffer. cbn. destruct (Z.leb_spec c 0); f_equal; lia. }
  rewrite Hcap' in *. unfold Snapshot. rewrite Hlen, Hover, Htot.
  assert (Hsub : wrap64 (wrap64 (Z.of_nat (length w)) - Z.of_nat (Z.to_nat (Z.max 1 c) `min` length w))
    = wrap64 (Z.of_nat (length w) - Z.of_nat (Z.to_nat (Z.max 1 c) `min` length w))).
  { by rewrite <- !Z.add_opp_r, wrap64_add_l. }
  destruct (Nat.eqb_spec (Z.to_nat (Z.max 1 c) `min` length w) 0) as [E|E].
  - assert (length w = 0) as Hw by lia. apply length_zero_iff_nil in Hw. rewrite Hw. unfold lastn. cbn [length]. rewrite Nat.min_0_r.
    rewrite bool_decide_eq_false_2 by lia. done.
  - rewrite Hsub. f_equal. f_equal. rewrite <- Hcont. unfold contents. destruct (rg_full r); cbn [negb]; [done|].
    rewrite (Htail eq_refl). cbn. by rewrite app_nil_r.
Qed.

(** ** The scanner, byte by byte *)

Section Scan.
Context `{TimeText}.

(** A byte of a line that is published or dropped. *)
Definition emit (l : lines) (out : bytes) (c : ascii) : lines * bytes :=
  (if Ascii.eqb c newline then mkLines lineHeader (ln_hdr l) (ln_pos l) (ln_filter l) else l,
   match ln_line l with lineKeep => out ++ [c] | _ => out end).

Definition feed (st : lines * bytes) (c : ascii) : lines * bytes :=
  let '(l, out) := st in
  match ln_line l with
  | lineHeader =>
      match (if Ascii.eqb c " " && negb (length (ln_hdr l) =? 0)%nat then ParseRFC3339Nano (ln_hdr l) else None) with
      | Some ts => (stamped l ts, out)
      | None =>
          if isTimestampByte c && (length (ln_hdr l) <? maxTimestampLen)%nat then
            (mkLines lineHeader (ln_hdr l ++ [c]) (ln_pos l) (ln_filter l), out)
          else emit (mkLines lineKeep [] (ln_pos l) (ln_filter l)) (out ++ ln_hdr l) c
      end
  | _ => emit l out c
  end.

Lemma scan_rest_cons l c d out :
  ln_line l ≠ lineHeader → Ascii.eqb c newline = false →
  scan_rest l (c :: d) out = scan_rest l d (match ln_line l with lineKeep => out ++ [c] | _ => out end).
Proof.
  intros Hl Hc. unfold scan_rest. cbn [IndexByte]. rewrite Hc. destruct (IndexByte d newline) as [i|]; cbn [fmap option_fmap option_map].
  - destruct (ln_line l); [done| |]; cbn [take drop]; by rewrite <- ?app_assoc.
  - destruct (ln_line l); [done| |]; cbn [take drop length]; by rewrite <- ?app_assoc.
Qed.

Lemma scan_rest_feed l d out :
  ln_line l ≠ lineHeader →
  foldl feed (l, out) d = foldl feed ((scan_rest l d out).1.1, (scan_rest l d out).2) (scan_rest l d out).1.2.
Proof.
  intros Hl. revert out. induction d as [|c d IH]; intros out.
  - unfold scan_rest. cbn. destruct (ln_line l) eqn:E; [done| |]; by rewrite ?app_nil_r.
  - destruct (Ascii.eqb c newline) eqn:Ec.
    + unfold scan_rest. cbn [IndexByte]. rewrite Ec. cbn [fst snd take drop foldl feed]. unfold emit. rewrite Ec. rewrite drop_0, take_0.
      by destruct (ln_line l).
    + rewrite scan_rest_cons by done. rewrite <- IH. cbn [foldl feed]. unfold emit. rewrite Ec. by destruct (ln_line l).
Qed.

Lemma scan_rest_length l d out : d ≠ [] → length (scan_rest l d out).1.2 < length d.
Proof.
  intros Hd. unfold scan_rest. destruct (IndexByte d newline) as [i|] eqn:Ei; cbn [fst snd]; rewrite length_drop; [|destruct d; [done|cbn; lia]].
  destruct d; [done|cbn; lia].
Qed.

Lemma scan_step_feed l c d out :
  foldl feed (l, out) (c :: d) = foldl feed ((scan_step l (c :: d) out).1.1, (scan_step l (c :: d) out).2) (scan_step l (c :: d) out).1.2
  ∧ length (scan_step l (c :: d) out).1.2 <= length d.
Proof.
  unfold scan_step. destruct (ln_line l) eqn:El.
  - cbn [foldl]. destruct (if Ascii.eqb c " " && _ then _ else None) as [ts|] eqn:Et.
    + cbn [feed]. rewrite El, Et. done.
    + destruct (isTimestampByte c && _) eqn:Eb.
      * cbn [feed]. rewrite El, Et, Eb. done.
      * set (l' := mkLines lineKeep [] (ln_pos l) (ln_filter l)). split; [|pose proof (scan_rest_length l' (c :: d) (out ++ ln_hdr l) ltac:(done)); cbn [length] in *; lia].
        rewrite <- scan_rest_feed by done. cbn [foldl feed]. rewrite El, Et, Eb. done.
  - split; [apply scan_rest_feed; congruence|]. pose proof (scan_rest_length l (c :: d) out ltac:(done)). cbn [length] in *. lia.
  - split; [apply scan_rest_feed; congruence|]. pose proof (scan_rest_length l (c :: d) out ltac:(done)). cbn [length] in *. lia.
Qed.

Lemma scan_loop_feed fuel : ∀ l d out, length d <= fuel → scan_loop fuel l d out = foldl feed (l, out) d.
Proof.
  induction fuel as [|fuel IH]; intros l d out Hf; [by destruct d; [|cbn in *; lia]|]. destruct d as [|c d]; [done|].
  cbn [scan_loop]. destruct (scan_step_feed l c d out) as [-> Hlen]. destruct (scan_step l (c :: d) out) as [[l' d'] out']. cbn [fst snd] in *.
  apply IH. cbn in Hf. lia.
Qed.

Lemma feed_out l out d : foldl feed (l, out) d = ((foldl feed (l, []) d).1, out ++ (foldl feed (l, []) d).2).
Proof.
  revert l out. induction d as [|c d IH]; intros l out; cbn [foldl]; [by rewrite app_nil_r|].
  assert (Hc : feed (l, out) c = ((feed (l, []) c).1, out ++ (feed (l, []) c).2)).
  { cbn [feed]. destruct (ln_line l) eqn:El; unfold emit; rewrite ?El; [|by rewrite ?app_nil_r..].
    destruct (if Ascii.eqb c " " && _ then _ else None); [by rewrite app_nil_r|]. destruct (isTimestampByte c && _); [by rewrite app_nil_r|].
    cbn. by rewrite app_assoc. }
  rewrite Hc. rewrite IH. destruct (feed (l, []) c) as [l' o']. cbn [fst snd]. rewrite (IH l' o'). cbn [fst snd]. by rewrite app_assoc.
Qed.

Lemma scan_feed l d : scan l d = foldl feed (l, []) d.
Proof. by apply scan_loop_feed. Qed.

(** How the stream is cut into reads does not matter: scanning two pieces one after
    the other publishes the bytes, and leaves the scanner in the state, of scanning
    them as one — wherever the cut is, inside a timestamp too. *)
Theorem scan_any_cut l a b :
  scan l (a ++ b) = ((scan (scan l a).1 b).1, (scan l a).2 ++ (scan (scan l a).1 b).2).
Proof.
  rewrite !scan_feed, foldl_app. destruct (foldl feed (l, []) a) as [l' o'] eqn:E. cbn [fst snd]. by rewrite feed_out.
Qed.
End Scan.

(** ** Lines, and what reconnecting does to them *)

(** A line of the kubelet's stream: its instant, that instant as text, its text. *)
Record log_line := mkLogLine { ll_time : time; ll_stamp : bytes; ll_body : bytes }.
Definition line_text (x : log_line) : bytes := ll_body x ++ [newline].
Definition encode (x : log_line) : bytes := ll_stamp x ++ " "%char :: line_text x.

(** The lines of a stream that pass the filter, and where they lead. *)
Fixpoint follow (pos : Position) (f : replayFilter) (xs : list log_line) : list log_line * Position * replayFilter :=
  match xs with
  | [] => ([], pos, f)
  | x :: xs =>
      let '(new, f) := keep f (ll_time x) in
      let '(ks, p, g) := follow (if new then advance pos (ll_time x) else pos) f xs in
      (if new then x :: ks else ks, p, g)
  end.

Section Lines.
Context `{TimeText}.

Definition well_formed (x : log_line) : Prop :=
  ParseRFC3339Nano (ll_stamp x) = Some (ll_time x) ∧ Forall (fun c => isTimestampByte c = true) (ll_stamp x) ∧
  0 < length (ll_stamp x) <= maxTimestampLen ∧ Forall (fun c => Ascii.eqb c newline = false) (ll_body x).

Lemma feed_stamp pos f s : ∀ h out,
  Forall (fun c => isTimestampByte c = true) s → length h + length s <= maxTimestampLen →
  foldl feed (mkLines lineHeader h pos f, out) s = (mkLines lineHeader (h ++ s) pos f, out).
Proof.
  induction s as [|c s IH]; intros h out Hs Hl; cbn [foldl]; [by rewrite app_nil_r|]. apply Forall_cons in Hs as [Hc Hs]. cbn [length] in Hl.
  assert (Hsp : Ascii.eqb c " " = false) by (destruct (Ascii.eqb_spec c " ") as [->|]; done).
  cbn [feed ln_line ln_hdr]. rewrite Hsp, Hc. cbn [andb]. rewrite (proj2 (Nat.ltb_lt _ _)) by lia. cbn [ln_pos ln_filter].
  rewrite IH; [by rewrite <- app_assoc|done|rewrite length_app; cbn; lia].
Qed.

Lemma feed_body l out b :
  ln_line l ≠ lineHeader → Forall (fun c => Ascii.eqb c newline = false) b →
  foldl feed (l, out) (b ++ [newline]) =
    (mkLines lineHeader (ln_hdr l) (ln_pos l) (ln_filter l), match ln_line l with lineKeep => out ++ b ++ [newline] | _ => out end).
Proof.
  intros Hl. revert out. induction b as [|c b IH]; intros out Hb; cbn [app foldl].
  - cbn [feed]. unfold emit. by destruct (ln_line l).
  - apply Forall_cons in Hb as [Hc Hb]. assert (Hf : feed (l, out) c = (l, match ln_line l with lineKeep => out ++ [c] | _ => out end)).
    { cbn [feed]. unfold emit. rewrite Hc. by destruct (ln_line l). }
    rewrite Hf, IH by done. f_equal. destruct (ln_line l); [done| |done]. by rewrite <- app_assoc.
Qed.

Lemma feed_line pos f out x :
  well_formed x →
  foldl feed (mkLines lineHeader [] pos f, out) (encode x) =
    (mkLines lineHeader [] (if (keep f (ll_time x)).1 then advance pos (ll_time x) else pos) (keep f (ll_time x)).2,
     if (keep f (ll_time x)).1 then out ++ line_text x else out).
Proof.
  intros (Hp & Hs & Hl & Hb). unfold encode, line_text. rewrite foldl_app, feed_stamp by (done || cbn; lia). cbn [app foldl].
  assert (Hsp : feed (mkLines lineHeader (ll_stamp x) pos f, out) " " = (stamped (mkLines lineHeader (ll_stamp x) pos f) (ll_time x), out)).
  { cbn [feed ln_line ln_hdr]. rewrite (proj2 (Nat.eqb_neq _ _)) by lia. cbn [Ascii.eqb negb andb]. change (Ascii.eqb " " " ") with true.
    cbn [andb]. by rewrite Hp. }
  rewrite Hsp. unfold stamped. cbn [ln_filter ln_pos]. destruct (keep f (ll_time x)) as [[] g]; cbn [fst snd]; by rewrite feed_body.
Qed.

Lemma feed_lines pos f out xs :
  Forall well_formed xs →
  foldl feed (mkLines lineHeader [] pos f, out) (concat (encode <$> xs)) =
    let '(ks, p, g) := follow pos f xs in (mkLines lineHeader [] p g, out ++ concat (line_text <$> ks)).
Proof.
  revert pos f out. induction xs as [|x xs IH]; intros pos f out Hw; cbn [fmap list_fmap concat follow]; [by rewrite app_nil_r|].
  apply Forall_cons in Hw as [Hx Hxs]. rewrite foldl_app, feed_line by done. rewrite IH by done.
  destruct (keep f (ll_time x)) as [[] g]; cbn [fst snd]; destruct (follow _ g xs) as [[ks p] h]; [|done]. cbn. by rewrite app_assoc.
Qed.
End Lines.

(** *** Positions *)

Definition at_time (ts : time) (xs : list log_line) : nat := countb (fun x => (ll_time x =? ts)%Z) xs.

(** A position after some lines. *)
Definition pos_of (p : Position) (pre : list log_line) : Prop :=
  Forall (fun x => (ll_time x <= ps_Last p)%Z) pre ∧ ps_AtLast p = Z.of_nat (at_time (ps_Last p) pre) ∧
  (ps_Last p = zero_time ∨ Exists (fun x => ll_time x = ps_Last p) pre).

Definition in_order (L : list log_line) : Prop :=
  (∀ i j x y, i <= j → L !! i = Some x → L !! j = Some y → (ll_time x <= ll_time y)%Z) ∧
  Forall (fun x => (zero_time <= ll_time x)%Z) L ∧ (Z.of_nat (length L) < 2 ^ 63)%Z.

Lemma in_order_prefix L n : in_order L → in_order (take n L).
Proof.
  intros (Hs & Hz & Hl). split_and!.
  - intros i j x y Hij [Hx _]%lookup_take_Some [Hy _]%lookup_take_Some. by eapply (Hs i j).
  - by apply Forall_take.
  - rewrite length_take. lia.
Qed.

Lemma in_order_after pre post p : in_order (pre ++ post) → pos_of p pre → Forall (fun x => (ps_Last p <= ll_time x)%Z) post.
Proof.
  intros (Hs & Hz & _) (_ & _ & Hp). apply Forall_forall. intros y [j Hj]%list_elem_of_lookup.
  assert (Hy : (pre ++ post) !! (length pre + j) = Some y) by (by rewrite lookup_app_r, Nat.add_comm, Nat.add_sub by lia).
  destruct Hp as [->|(x & Hx & <-)%Exists_exists]; [rewrite Forall_lookup in Hz; by eapply Hz|].
  apply list_elem_of_lookup in Hx as [i Hi]. eapply (Hs i (length pre + j)); [apply lookup_lt_Some in Hi; lia| |exact Hy].
  by apply lookup_app_l_Some.
Qed.

Lemma at_time_app ts xs ys : at_time ts (xs ++ ys) = at_time ts xs + at_time ts ys.
Proof. apply countb_app. Qed.
Lemma at_time_none ts xs : Forall (fun x => ll_time x ≠ ts) xs → at_time ts xs = 0.
Proof. intros Hx. apply countb_zero. eapply Forall_impl; [exact Hx|]. intros x Hn. by apply Z.eqb_neq. Qed.
Lemma at_time_le ts xs : at_time ts xs <= length xs.
Proof. unfold at_time, countb. apply List.filter_length_le. Qed.

Lemma pos_of_advance p pre x :
  pos_of p pre → (ps_Last p <= ll_time x)%Z → (Z.of_nat (length pre) < 2 ^ 63 - 1)%Z → pos_of (advance p (ll_time x)) (pre ++ [x]).
Proof.
  intros (Hle & Hat & _) Hx Hlen. pose proof (at_time_le (ps_Last p) pre). unfold advance. destruct (Z.eqb_spec (ll_time x) (ps_Last p)) as [E|E].
  - split_and!; cbn [ps_Last ps_AtLast].
    + apply Forall_app. split; [done|]. constructor; [lia|done].
    + assert (Hone : at_time (ps_Last p) [x] = 1) by (unfold at_time, countb; cbn; by rewrite E, Z.eqb_refl).
      rewrite at_time_app, Hone, Hat, wrap64_small by (unfold int64_min, int64_max; lia). lia.
    + right. apply Exists_app. right. by constructor.
  - split_and!; cbn [ps_Last ps_AtLast].
    + apply Forall_app. split; [|constructor; [lia|done]]. eapply Forall_impl; [exact Hle|]. intros y Hy. cbn in Hy. lia.
    + rewrite at_time_app, at_time_none; [unfold at_time, countb; cbn; by rewrite Z.eqb_refl|].
      eapply Forall_impl; [exact Hle|]. intros y Hy. cbn in Hy. lia.
    + right. apply Exists_app. right. by constructor.
Qed.

Lemma pos_of_start : pos_of (mkPosition zero_time 0) [].
Proof. split_and!; [constructor|done|by left]. Qed.

(** Lines up to the position are dropped, as long as those at its very instant are
    not more than were published. *)
Lemma follow_replayed p pos xs : ∀ seen,
  Forall (fun x => (ll_time x <= ps_Last p)%Z) xs → (0 <= seen)%Z → (seen + Z.of_nat (at_time (ps_Last p) xs) <= ps_AtLast p)%Z →
  (ps_AtLast p < 2 ^ 63)%Z →
  follow pos (mkFilter p seen) xs = ([], pos, mkFilter p (seen + Z.of_nat (at_time (ps_Last p) xs))).
Proof.
  induction xs as [|x xs IH]; intros seen Hle H0 Hat Hmax; cbn [follow]; [by rewrite Z.add_0_r|].
  apply Forall_cons in Hle as [Hx Hxs]. change (x :: xs) with ([x] ++ xs) in Hat |- *. rewrite at_time_app in Hat |- *. unfold keep. cbn [rf_upTo rf_seen].
  destruct (Z.ltb_spec (ll_time x) (ps_Last p)) as [Hlt|Hge].
  - assert (Hz : at_time (ps_Last p) [x] = 0) by (apply at_time_none; constructor; [lia|done]). rewrite Hz in *. by rewrite IH by (done || lia).
  - assert (E : ll_time x = ps_Last p) by lia. assert (Hone : at_time (ps_Last p) [x] = 1) by (unfold at_time, countb; cbn; by rewrite E, Z.eqb_refl).
    rewrite Hone in *. rewrite E, Z.eqb_refl. cbn zeta. rewrite wrap64_small by (unfold int64_min, int64_max; lia).
    assert (Hno : (ps_AtLast p <? seen + 1)%Z = false) by (apply Z.ltb_ge; lia). rewrite Hno. cbn iota. rewrite IH by (done || lia).
    do 2 f_equal. lia.
Qed.

(** Lines past the position are new. *)
Lemma follow_new p xs : ∀ pos seen,
  Forall (fun x => (ps_Last p <= ll_time x)%Z) xs → (ps_AtLast p <= seen)%Z → (0 <= seen)%Z → (seen + Z.of_nat (length xs) < 2 ^ 63)%Z →
  (follow pos (mkFilter p seen) xs).1 = (xs, foldl (fun q x => advance q (ll_time x)) pos xs).
Proof.
  induction xs as [|x xs IH]; intros pos seen Hle Hat H0 Hmax; cbn [follow foldl]; [done|].
  apply Forall_cons in Hle as [Hx Hxs]. cbn [length] in Hmax. unfold keep. cbn [rf_upTo rf_seen].
  rewrite (proj2 (Z.ltb_ge _ _)) by lia. destruct (Z.eqb_spec (ll_time x) (ps_Last p)) as [E|E].
  - cbn zeta. rewrite wrap64_small by (unfold int64_min, int64_max; lia).
    assert (Hno : (ps_AtLast p <? seen + 1)%Z = true) by (apply Z.ltb_lt; lia). rewrite Hno. cbn iota.
    specialize (IH (advance pos (ll_time x)) (seen + 1)%Z Hxs).
    destruct (follow (advance pos (ll_time x)) (mkFilter p (seen + 1)) xs) as [[ks q] g]. cbn [fst] in *. specialize (IH ltac:(lia) ltac:(lia) ltac:(lia)). by injection IH as -> ->.
  - cbn iota. specialize (IH (advance pos (ll_time x)) seen Hxs). destruct (follow (advance pos (ll_time x)) (mkFilter p seen) xs) as [[ks q] g].
    cbn [fst] in *. specialize (IH ltac:(lia) ltac:(lia) ltac:(lia)). by injection IH as -> ->.
Qed.

Lemma follow_app pos f xs ys :
  follow pos f (xs ++ ys) =
    let '(ks, p, g) := follow pos f xs in let '(ks', p', g') := follow p g ys in (ks ++ ks', p', g').
Proof.
  revert pos f. induction xs as [|x xs IH]; intros pos f; cbn [app follow]; [by destruct (follow pos f ys) as [[? ?] ?]|].
  destruct (keep f (ll_time x)) as [[] g]; rewrite IH; destruct (follow _ g xs) as [[ks p] h]; by destruct (follow p h ys) as [[? ?] ?].
Qed.

Lemma advance_all p pre post :
  in_order (pre ++ post) → pos_of p pre → pos_of (foldl (fun q x => advance q (ll_time x)) p post) (pre ++ post).
Proof.
  revert p pre. induction post as [|x post IH]; intros p pre Ho Hp; cbn [foldl]; [by rewrite app_nil_r|].
  pose proof (in_order_after _ _ _ Ho Hp) as [Hx _]%Forall_cons. change (x :: post) with ([x] ++ post) in *. rewrite app_assoc in *.
  apply IH; [done|]. apply pos_of_advance; [done..|]. destruct Ho as (_ & _ & Hl). rewrite !length_app in Hl. cbn in Hl. lia.
Qed.

(** A stream opened again at the position publishes exactly what is new. *)
Lemma follow_reopened p pre post j :
  in_order (pre ++ post) → pos_of p pre → Forall (fun x => (ll_time x < ps_Last p)%Z) (take j (pre ++ post)) →
  (follow p (mkFilter p 0) (drop j (pre ++ post))).1 = (post, foldl (fun q x => advance q (ll_time x)) p post).
Proof.
  intros Ho Hp Hj. pose proof (in_order_after _ _ _ Ho Hp) as Hpost. destruct Ho as (_ & _ & Hl). rewrite length_app in Hl.
  assert (Hjl : drop j (pre ++ post) = drop j pre ++ post).
  { destruct (decide (j <= length pre)) as [Hle|Hgt]; [by rewrite drop_app_le|]. destruct post as [|y post]; [by rewrite !app_nil_r|].
    exfalso. rewrite take_app_ge in Hj by lia. apply Forall_app in Hj as [_ Hj].
    destruct (j - length pre) as [|k] eqn:Ek; [lia|]. cbn in Hj. apply Forall_cons in Hj as [Hy _]. apply Forall_cons in Hpost as [Hy' _]. lia. }
  rewrite Hjl, follow_app. destruct Hp as (Hle & Hat & _).
  assert (Hcount : at_time (ps_Last p) (drop j pre) = at_time (ps_Last p) pre).
  { rewrite <- (take_drop j pre) at 2. rewrite at_time_app, (at_time_none _ (take j pre)); [done|].
    apply Forall_forall. intros x Hx. rewrite Forall_forall in Hj. apply Z.lt_neq, Hj.
    apply elem_of_take in Hx as (i & Hi & Hij). apply elem_of_take. exists i. split; [by apply lookup_app_l_Some|done]. }
  pose proof (at_time_le (ps_Last p) pre).
  rewrite follow_replayed; [|by apply Forall_drop|done|rewrite Hcount; lia|lia]. cbn [app].
  pose proof (follow_new p post p (0 + Z.of_nat (at_time (ps_Last p) (drop j pre))) Hpost) as Hnew.
  destruct (follow p (mkFilter p _) post) as [[ks q] g]. cbn [fst] in *. apply Hnew; rewrite ?Hcount; lia.
Qed.

(** *** Connections *)

Section Connections.
Context `{TimeText} (L : list log_line).

(** One connection: the stream from line [j] on, for [m] lines. *)
Definition connect (l : lines) (j m : nat) : lines * bytes :=
  scan (mkLines lineHeader [] (ln_pos l) (mkFilter (ln_pos l) 0)) (concat (encode <$> take m (drop j L))).

Fixpoint connections (l : lines) (cs : list (nat * nat)) : lines * bytes :=
  match cs with
  | [] => (l, [])
  | (j, m) :: cs => let '(l1, o1) := connect l j m in let '(l2, o2) := connections l1 cs in (l2, o1 ++ o2)
  end.

(** What the log's source promises: a stream from an instant on leaves out only
    older lines. *)
Fixpoint served (l : lines) (cs : list (nat * nat)) : Prop :=
  match cs with
  | [] => True
  | (j, m) :: cs => Forall (fun x => (ll_time x < ps_Last (ln_pos l))%Z) (take j L) ∧ served (connect l j m).1 cs
  end.

(** The furthest line any connection came to. *)
Definition reach (cs : list (nat * nat)) : nat := foldr (fun jm k => Nat.max (jm.1 + jm.2) k) 0 cs.

Lemma connect_spec l k j m :
  in_order L → Forall well_formed L → k <= length L → pos_of (ln_pos l) (take k L) →
  Forall (fun x => (ll_time x < ps_Last (ln_pos l))%Z) (take j L) →
  let k' := Nat.max k (Nat.min (length L) (j + m)) in
  (connect l j m).2 = concat (line_text <$> drop k (take k' L)) ∧ pos_of (ln_pos (connect l j m).1) (take k' L).
Proof.
  intros Ho Hw Hk Hp Hj. cbn zeta. unfold connect. rewrite scan_feed, feed_lines by (by apply Forall_take, Forall_drop).
  assert (Hseg : take m (drop j L) = drop j (take (j + m) L)) by (by rewrite skipn_firstn_comm, Nat.add_comm, Nat.add_sub).
  rewrite Hseg. destruct (decide (j + m <= k)) as [Hle|Hgt].
  - replace (Nat.max k (Nat.min (length L) (j + m))) with k by lia. destruct Hp as (H1 & H2 & H3).
    assert (Hsub : take (j + m) L = take (j + m) (take k L)) by (rewrite take_take; f_equal; lia).
    assert (Hcount : at_time (ps_Last (ln_pos l)) (drop j (take (j + m) L)) <= at_time (ps_Last (ln_pos l)) (take k L)).
    { rewrite Hsub. rewrite <- (take_drop (j + m) (take k L)) at 2. rewrite at_time_app.
      rewrite <- (take_drop j (take (j + m) (take k L))) at 2. rewrite at_time_app. lia. }
    pose proof (at_time_le (ps_Last (ln_pos l)) (take k L)). rewrite length_take in *. destruct Ho as (_ & _ & Hlen).
    rewrite follow_replayed; [|rewrite Hsub; by apply Forall_drop, Forall_take|done|lia|lia]. cbn [app fmap list_fmap concat fst snd ln_pos].
    split; [|done]. rewrite drop_ge; [done|rewrite length_take; lia].
  - replace (Nat.max k (Nat.min (length L) (j + m))) with (Nat.min (length L) (j + m)) by lia.
    assert (Htk : take (Nat.min (length L) (j + m)) L = take (j + m) L).
    { rewrite Nat.min_comm, <- take_take. by rewrite (take_ge L (length L)) by lia. }
    rewrite Htk. set (L' := take (j + m) L).
    assert (Hsplit : L' = take k L ++ drop k L').
    { rewrite <- (take_drop k L') at 1. f_equal. unfold L'. rewrite take_take. f_equal. lia. }
    pose proof (in_order_prefix L (j + m) Ho) as Ho'. fold L' in Ho'. rewrite Hsplit in Ho'.
    pose proof (follow_reopened (ln_pos l) (take k L) (drop k L') j Ho' Hp) as Hf. rewrite <- Hsplit in Hf.
    assert (Hj' : Forall (fun x => (ll_time x < ps_Last (ln_pos l))%Z) (take j L')).
    { unfold L'. rewrite take_take. by replace (Nat.min j (j + m)) with j by lia. }
    specialize (Hf Hj'). destruct (follow (ln_pos l) (mkFilter (ln_pos l) 0) (drop j L')) as [[ks p] g]. injection Hf as -> ->.
    cbn [fst snd ln_pos app]. split; [done|]. pose proof (advance_all _ _ _ Ho' Hp) as Ha. by rewrite <- Hsplit in Ha.
Qed.

Lemma connections_spec cs : ∀ l k,
  in_order L → Forall well_formed L → k <= length L → pos_of (ln_pos l) (take k L) → served l cs →
  (connections l cs).2 = concat (line_text <$> drop k (take (Nat.max k (Nat.min (length L) (reach cs))) L)).
Proof.
  induction cs as [|[j m] cs IH]; intros l k Ho Hw Hk Hp Hs; cbn [connections].
  { cbn. rewrite Nat.min_0_r, Nat.max_0_r, drop_ge; [done|]. rewrite length_take. lia. }
  destruct Hs as [Hj Hs]. destruct (connect_spec l k j m Ho Hw Hk Hp Hj) as [Hout Hpos].
  destruct (connect l j m) as [l1 o1]. cbn [fst snd] in *. set (k1 := Nat.max k (Nat.min (length L) (j + m))) in *.
  specialize (IH l1 k1 Ho Hw ltac:(lia) Hpos Hs). destruct (connections l1 cs) as [l2 o2]. cbn [fst snd] in *. subst o1 o2.
  rewrite <- concat_app, <- fmap_app. do 2 f_equal. change (reach ((j, m) :: cs)) with (Nat.max (j + m) (reach cs)).
  replace (Nat.max k (Nat.min (length L) (Nat.max (j + m) (reach cs)))) with (Nat.max k1 (Nat.min (length L) (reach cs))) by lia.
  set (K := Nat.max k1 (Nat.min (length L) (reach cs))). rewrite <- (take_drop k1 (take K L)) at 2. rewrite take_take.
  replace (Nat.min k1 K) with k1 by lia. rewrite drop_app_le; [done|]. rewrite length_take. lia.
Qed.

(** C33: However often the connection is lost between two lines, every line is published once, in order:
    for a log whose lines' instants do not go back, and connections each of which
    leaves out only lines older than the position it was opened at, what a fresh
    tailer publishes over all of them is the log's lines, without their timestamps,
    up to the furthest line any connection came to. *)
Theorem reconnects_exactly_once cs :
  in_order L → Forall well_formed L →
  let l := mkLines lineHeader [] (mkPosition zero_time 0) (mkFilter (mkPosition zero_time 0) 0) in
  served l cs →
  (connections l cs).2 = concat (line_text <$> take (reach cs) L).
Proof.
  intros Ho Hw l Hs. rewrite (connections_spec cs l 0 Ho Hw); [|lia|apply pos_of_start|done]. rewrite drop_0.
  do 2 f_equal. cbn [Nat.max]. rewrite Nat.min_comm, <- take_take. by rewrite (take_ge L (length L)).
Qed.
End Connections.

(** A clock of one-digit instants, for the examples. *)
#[local] Instance digit_time : TimeText :=
  fun s => match s with [c] => if isTimestampByte c then Some (Z.of_N (N_of_ascii c) - 48)%Z else None | _ => None end.
Definition at_digit (c : ascii) (body : string) : log_line := mkLogLine (Z.of_N (N_of_ascii c) - 48) [c] (String.list_ascii_of_string body).
Definition demo_log : list log_line := [at_digit "1" "boot"; at_digit "2" "first"; at_digit "2" "second"; at_digit "3" "end"].

Lemma demo_log_in_order : in_order demo_log ∧ Forall well_formed demo_log.
Proof.
  split; [split_and!|].
  - intros [|[|[|[|i]]]] [|[|[|[|j]]]] x y Hij; cbn; intros [= <-] [= <-]; cbn; lia.
  - repeat constructor; cbn; done.
  - cbn. lia.
  - unfold demo_log. repeat (apply Forall_cons_2; [unfold well_formed; split_and!; [reflexivity|repeat constructor|cbn; lia|unfold maxTimestampLen; cbn; lia|repeat constructor]|]). constructor.
Qed.

(** Three connections; the second and the third replay lines already published. *)
Lemma reconnects_exactly_once_witness :
  (connections demo_log (mkLines lineHeader [] (mkPosition zero_time 0) (mkFilter (mkPosition zero_time 0) 0)) [(0, 2); (1, 2); (1, 3)]).2
  = String.list_ascii_of_string "boot" ++ newline :: String.list_ascii_of_string "first" ++ newline :: String.list_ascii_of_string "second" ++ newline
    :: String.list_ascii_of_string "end" ++ [newline].
Proof.
  rewrite (reconnects_exactly_once demo_log [(0, 2); (1, 2); (1, 3)] (proj1 demo_log_in_order) (proj2 demo_log_in_order)).
  - vm_compute. reflexivity.
  - cbn [served]. split_and!; [constructor|vm_compute; repeat constructor..].
Defined.

Definition published (l : lines) (cs : list bytes) : bytes :=
  (foldl (fun '(l, out) data => let '(l, o) := scan (mkLines lineHeader [] (ln_pos l) (mkFilter (ln_pos l) 0)) data in (l, out ++ o)) (l, []) cs).2.
Definition fresh : lines := mkLines lineHeader [] (mkPosition zero_time 0) (mkFilter (mkPosition zero_time 0) 0).

(** Lines are counted at the last instant, so when rotation has taken one of two lines
    with that instant, a new line with the same instant passes for the lost one: it is
    skipped. *)
Example rotated_instant_skips_a_new_line :
  published fresh [concat (encode <$> [at_digit "2" "a"; at_digit "2" "b"]); concat (encode <$> [at_digit "2" "b"; at_digit "2" "new"])]
  = concat (line_text <$> [at_digit "2" "a"; at_digit "2" "b"]).
Proof. vm_compute. reflexivity. Qed.

(** A line cut by the disconnect counts as published: the rest of it is not. *)
Example cut_line_loses_its_rest :
  published fresh [String.list_ascii_of_string "1 hel"; encode (at_digit "1" "hello") ++ encode (at_digit "2" "next")]
  = String.list_ascii_of_string "hel" ++ line_text (at_digit "2" "next").
Proof. vm_compute. reflexivity. Qed.

(** ** Chunks and subscribers *)

Definition chunk_of (p : put) : option (string * bytes) := match p with PutChunk key body _ => Some (key, body) | _ => None end.
Definition chunks (puts : list put) : list (string * bytes) := omap chunk_of puts.

(** Everything the tailer has published: its chunks, and what waits to be one. *)
Definition stream (t : Tailer) (puts : list put) : bytes := concat (snd <$> chunks puts) ++ tl_pending t.

(** What a client has of it: the frames it took, and those in its channel. *)
Definition frames (s : Subscription) : list Frame := sb_received s ++ sb_frames s.
Definition bytes_of (fs : list Frame) : bytes := concat (fr_Data <$> fs).

(** Frames that hold everything from some byte on. *)
Definition tail_of (w : bytes) (fs : list Frame) : Prop := ∃ a, w = a ++ bytes_of fs.
(** So do a client's; but one that came while bytes were being published may have them
    twice, in its first frame, the snapshot, and as its second: without either of the
    two its frames are gapless. *)
Definition has_tail (w : bytes) (fs : list Frame) : Prop :=
  tail_of w fs ∨ ∃ f g rest, fs = f :: g :: rest ∧ tail_of w (f :: rest) ∧ tail_of w (g :: rest).

Definition first_chunk (cfg : Config) : Z := from_option cu_NextSeq 0%Z (lc_Resume cfg).

(** [R]: what a registered client has of the stream. *)
Record sound_as (R : bytes → list Frame → Prop) (cfg : Config) (t : Tailer) (puts : list put) : Prop := {
  so_cfg : tl_cfg t = applyDefaults cfg;
  so_ring : ring_of (tl_ring t) (stream t puts);
  so_keys : fst <$> chunks puts = (fun i => Keys.LogChunk (lc_Keys cfg) (wrapu64 (first_chunk cfg + Z.of_nat i))) <$> seq 0 (length (chunks puts));
  so_seq : tl_chunkSeq t = wrapu64 (first_chunk cfg + Z.of_nat (length (chunks puts)));
  so_registered : ∀ id, id ∈ tl_subs t → ∃ s, tl_all t !! id = Some s ∧ sb_reason s = "" ∧ R (stream t puts) (frames s);
  so_all : ∀ id s, tl_all t !! id = Some s → (id < tl_nextSubID t)%Z ∧ (∃ w b, stream t puts = w ++ b ∧ has_tail w (frames s)) ∧
             length (sb_frames s) <= Z.to_nat (Z.max 1 (lc_SubscriberQueue (applyDefaults cfg)));
  so_gone : ∀ id s, tl_all t !! id = Some s → id ∉ tl_subs t → sb_reason s ≠ "";
}.
Abbreviation sound := (sound_as has_tail).

(** Between the halves of a publish of [d]: a client that was there before has
    everything but [d], one that came since has at most a snapshot, with [d]. *)
Definition meanwhile (d w : bytes) (fs : list Frame) : Prop :=
  (∃ w0, w = w0 ++ d ∧ has_tail w0 fs) ∨ (length fs <= 1 ∧ tail_of w fs).

Definition takes_new (R : bytes → list Frame → Prop) : Prop := ∀ w fs, length fs <= 1 → tail_of w fs → R w fs.
Lemma has_tail_new : takes_new has_tail.
Proof. intros w fs _ Ht. by left. Qed.
Lemma meanwhile_new d : takes_new (meanwhile d).
Proof. intros w fs Hl Ht. by right. Qed.

Lemma tail_of_nil w : tail_of w [].
Proof. exists w. cbn. by rewrite app_nil_r. Qed.
Lemma tail_of_frame w d m : tail_of (w ++ d) [mkFrame d m].
Proof. exists w. cbn. by rewrite app_nil_r. Qed.
Lemma tail_of_more w d m fs : tail_of w fs → tail_of (w ++ d) (fs ++ [mkFrame d m]).
Proof. intros [a ->]. exists a. unfold bytes_of. rewrite fmap_app, concat_app. cbn. by rewrite app_nil_r, <- app_assoc. Qed.
Lemma has_tail_more w d m fs : has_tail w fs → has_tail (w ++ d) (fs ++ [mkFrame d m]).
Proof.
  intros [Ht|(f & g & rest & -> & Hf & Hg)]; [left; by apply tail_of_more|]. right. exists f, g, (rest ++ [mkFrame d m]).
  split; [done|]. by apply (tail_of_more _ d m) in Hf, Hg.
Qed.
(** The frame a client is offered: it follows on what the client has, or repeats its snapshot. *)
Lemma has_tail_offered w0 d m fs : meanwhile d (w0 ++ d) fs → has_tail (w0 ++ d) (fs ++ [mkFrame d m]).
Proof.
  intros [(w1 & Hw & Ht)|[Hl Ht]]; [apply app_inj_2 in Hw as [-> _]; [by apply has_tail_more|done]|].
  destruct fs as [|f [|? ?]]; cbn in Hl; [left; apply tail_of_frame| |lia].
  right. exists f, (mkFrame d m), []. split_and!; [done|done|apply tail_of_frame].
Qed.

Lemma chunks_app p q : chunks (p ++ q) = chunks p ++ chunks q.
Proof. apply omap_app. Qed.

Lemma frames_close r s : frames (close r s) = frames s ∧ sb_frames (close r s) = sb_frames s.
Proof. unfold close. by destruct (_ =? _)%string. Qed.
Lemma close_closed r s : r ≠ "" → sb_reason (close r s) ≠ "".
Proof. intros Hr. unfold close. by destruct (String.eqb_spec (sb_reason s) ""). Qed.
Lemma frames_receive s : frames (receive_frame s) = frames s ∧ sb_reason (receive_frame s) = sb_reason s ∧ length (sb_frames (receive_frame s)) <= length (sb_frames s).
Proof.
  unfold receive_frame, frames. destruct (sb_frames s) as [|f fs] eqn:E; [by rewrite E|]. cbn. rewrite <- app_assoc. split_and!; [done|done|lia].
Qed.

Lemma sound_new cfg : (0 <= first_chunk cfg < 2 ^ 64)%Z → sound cfg (New cfg) [].
Proof.
  intros Hs. unfold New. split; cbn; try done.
  - apply ring_of_new.
  - unfold wrapu64, first_chunk in *. rewrite Z.add_0_r, Z.mod_small by done. by destruct (lc_Resume cfg).
Qed.

(** The scanner's state plays no part. *)
Lemma sound_with_lines cfg t puts l : sound cfg t puts → sound cfg (with_lines t l) puts.
Proof. intros []. by split. Qed.

(** The first half of a publish. *)
Lemma sound_record cfg t puts d : sound cfg t puts → sound_as (meanwhile d) cfg (record t d) puts.
Proof.
  intros [Hc Hr Hk Hq Hreg Hall Hgone]. assert (Hstream : stream (record t d) puts = stream t puts ++ d) by (unfold stream; cbn; by rewrite app_assoc).
  split; [done| |done|done| | |done].
  - rewrite Hstream. by apply ring_of_Append.
  - intros id Hin. destruct (Hreg id Hin) as (s & Hs & Ho & Ht). exists s. split_and!; [done|done|]. rewrite Hstream. left. by exists (stream t puts).
  - intros id s Hs. destruct (Hall id s Hs) as (H1 & (w & b & Hw & Ht) & H3). split_and!; [done| |done].
    exists w, (b ++ d). by rewrite Hstream, Hw, app_assoc.
Qed.

(** The second half. *)
Lemma sound_fan_out cfg t puts d w0 : stream t puts = w0 ++ d → sound_as (meanwhile d) cfg t puts → sound cfg (fan_out t d) puts.
Proof.
  intros Hw0 [Hc Hr Hk Hq Hreg Hall Hgone]. unfold fan_out. set (t' := with_subs _ _ _). assert (Hstream : stream t' puts = stream t puts) by done.
  split; [done|by rewrite Hstream|done|done| | |].
  - intros id. cbn [tl_subs t' with_subs]. rewrite elem_of_filter. intros [Hroom Hin]. destruct (Hreg id Hin) as (s & Hs & Hopen & Ha).
    unfold has_room in Hroom. rewrite Hs in Hroom. eexists. cbn [tl_all t' with_subs]. rewrite map_lookup_imap, Hs. split; [reflexivity|].
    unfold offer. rewrite decide_True by done. rewrite Hroom. split; [done|]. rewrite Hstream. unfold frames. cbn. rewrite app_assoc, Hw0 in *. by apply has_tail_offered.
  - intros id s. cbn [tl_all t' with_subs]. rewrite map_lookup_imap. destruct (tl_all t !! id) as [s0|] eqn:Es; [|done]. intros Hs0; cbn in Hs0; injection Hs0 as <-.
    destruct (Hall id s0 Es) as (Hid & Hstretch & Hlen). split; [done|]. unfold offer. rewrite Hstream.
    destruct (decide (id ∈ tl_subs t)) as [Hin|Hout]; [|done].
    destruct (Z.ltb_spec (Z.of_nat (length (sb_frames s0))) (lc_SubscriberQueue (tl_cfg t))) as [Hlt|Hge].
    + destruct (Hreg id Hin) as (s1 & Hs1 & _ & Ha1). rewrite Es in Hs1. injection Hs1 as <-. split.
      * exists (stream t puts), []. rewrite app_nil_r. split; [done|]. unfold frames. cbn. rewrite app_assoc, Hw0 in *. by apply has_tail_offered.
      * cbn [sb_frames]. rewrite length_app. cbn [length]. rewrite Hc in Hlt. lia.
    + destruct (frames_close ReasonOverflow s0) as [-> ->]. done.
  - intros id s. cbn [tl_all tl_subs t' with_subs]. rewrite map_lookup_imap, elem_of_filter. unfold has_room. destruct (tl_all t !! id) as [s0|] eqn:Es; [|done].
    intros Hs0 Hno; cbn in Hs0; injection Hs0 as <-. unfold offer. destruct (decide (id ∈ tl_subs t)) as [Hin|Hout]; [|by apply (Hgone id s0)].
    destruct (_ <? _)%Z; [by destruct Hno|by apply close_closed].
Qed.

Lemma sound_flush cfg t puts b : sound cfg t puts → sound cfg (flushPending t b).1 (puts ++ (flushPending t b).2).
Proof.
  intros [Hc Hr Hk Hq Hreg Hall Hgone]. unfold flushPending. destruct (_ || _); [cbn; rewrite app_nil_r; by split|]. cbn zeta.
  set (t' := mkTailer _ _ _ _ _ _ _ _ _). set (ps := PutChunk _ _ _ :: _). cbn [fst snd].
  assert (Hps : chunks ps = [(Keys.LogChunk (lc_Keys (tl_cfg t)) (tl_chunkSeq t), tl_pending t)]).
  { unfold ps. destruct b; [|done]. unfold chunks. cbn. unfold saveCursor. by destruct (_ =? _)%Z. }
  assert (Hstream : stream t' (puts ++ ps) = stream t puts).
  { unfold stream. rewrite chunks_app, Hps, fmap_app, concat_app. cbn. by rewrite !app_nil_r. }
  split; [done| | | | | |exact Hgone].
  - by rewrite Hstream.
  - rewrite chunks_app, Hps, fmap_app, length_app, Hk. cbn [length fmap list_fmap fst]. rewrite seq_app, fmap_app. f_equal. cbn.
    rewrite Hq, Hc. done.
  - rewrite chunks_app, Hps, length_app. cbn [length tl_chunkSeq t']. rewrite Hq. unfold wrapu64. rewrite Zplus_mod_idemp_l. f_equal. lia.
  - intros id Hin. rewrite Hstream. by apply Hreg.
  - intros id s Hs. rewrite Hstream. by apply Hall.
Qed.

(** A client's snapshot holds everything from some byte on. *)
Lemma snapshot_tail t puts snap off over : ring_of (tl_ring t) (stream t puts) → Snapshot (tl_ring t) = (snap, off, over) → ∃ a, stream t puts = a ++ snap.
Proof.
  intros (_ & Hcont & _ & _ & _ & Htail & _) Esnap. unfold Snapshot in Esnap.
  destruct (length (rg_buf (tl_ring t)) =? 0)%nat; [injection Esnap as <- _ _; exists (stream t puts); by rewrite app_nil_r|].
  injection Esnap as <- _ _. assert (Hcs : (if negb (rg_full (tl_ring t)) then rg_buf (tl_ring t) else contents (tl_ring t)) = contents (tl_ring t)).
  { destruct (rg_full (tl_ring t)); [done|]. unfold contents. rewrite (Htail eq_refl). cbn. by rewrite app_nil_r. }
  fold (contents (tl_ring t)). rewrite Hcs, Hcont. unfold lastn. eexists. symmetry. apply take_drop.
Qed.

Lemma sound_subscribe R cfg t puts : takes_new R → sound_as R cfg t puts → sound_as R cfg (Subscribe t).1 puts.
Proof.
  intros HR [Hc Hr Hk Hq Hreg Hall Hgone]. unfold Subscribe. destruct (Snapshot (tl_ring t)) as [[snap off] over] eqn:Esnap. cbn [fst].
  set (t' := mkTailer _ _ _ _ _ _ _ _ _). set (id := tl_nextSubID t) in *. set (first := if (length snap =? 0)%nat then _ else _) in *.
  assert (Hnew : ∀ id', id' ≠ id → tl_all t' !! id' = tl_all t !! id') by (intros; cbn; by rewrite lookup_insert_ne).
  destruct (snapshot_tail t puts snap off over Hr Esnap) as [a Ha].
  assert (Hfirst : length first <= 1 ∧ tail_of (stream t puts) first).
  { unfold first. destruct (length snap =? 0)%nat; cbn [length]; (split; [lia|]); [apply tail_of_nil|]. rewrite Ha. apply tail_of_frame. }
  split; [done|exact Hr|done|done| | |].
  - intros id' Hin. cbn [tl_subs t'] in Hin. change (stream t' puts) with (stream t puts). destruct (tl_stopped t) eqn:Est.
    + destruct (Hreg id' Hin) as (s & Hs & Hrest). exists s. rewrite Hnew; [done|]. intros ->. destruct (Hall id s Hs) as [Hlt _]. unfold id in Hlt. lia.
    + apply elem_of_union in Hin as [->%elem_of_singleton|Hin].
      * eexists. cbn [tl_all t']. rewrite lookup_insert_eq. split; [reflexivity|]. split; [done|]. apply HR; apply Hfirst.
      * destruct (Hreg id' Hin) as (s & Hs & Hrest). exists s. rewrite Hnew; [done|]. intros ->. destruct (Hall id s Hs) as [Hlt _]. unfold id in Hlt. lia.
  - intros id' s. destruct (decide (id' = id)) as [->|Hne].
    + cbn [tl_all t' tl_nextSubID]. rewrite lookup_insert_eq. intros [= <-]. split; [lia|]. change (stream t' puts) with (stream t puts).
      destruct Hfirst as [Hl Ht]. split.
      * exists (stream t puts), []. rewrite app_nil_r. split; [done|]. left. destruct (tl_stopped t); [apply tail_of_nil|exact Ht].
      * destruct (tl_stopped t); cbn [sb_frames length]; lia.
    + rewrite Hnew by done. intros Hs. destruct (Hall id' s Hs) as (Hlt & Hrest). split; [cbn [tl_nextSubID t']; unfold id; lia|done].
  - intros id' s. destruct (decide (id' = id)) as [->|Hne].
    + cbn [tl_all t' tl_subs]. rewrite lookup_insert_eq. intros [= <-]. destruct (tl_stopped t); [done|set_solver].
    + rewrite Hnew by done. intros Hs Hno. apply (Hgone id' s Hs). cbn [tl_subs t'] in Hno. destruct (tl_stopped t); set_solver.
Qed.

(** A change of one subscription that keeps what its client has. *)
Lemma sound_alter R cfg t puts subs id (f : Subscription → Subscription) :
  sound_as R cfg t puts → subs ⊆ tl_subs t →
  (∀ s, frames (f s) = frames s ∧ length (sb_frames (f s)) <= length (sb_frames s)) →
  (id ∈ subs → ∀ s, sb_reason (f s) = sb_reason s) →
  (∀ id' s, id' ∉ subs → tl_all t !! id' = Some s → sb_reason (if decide (id' = id) then f s else s) ≠ "") →
  sound_as R cfg (with_subs t subs (alter f id (tl_all t))) puts.
Proof.
  intros [Hc Hr Hk Hq Hreg Hall Hgone] Hsub Hf Hopen Hclosed. split; [done..| | |].
  - intros id' Hin. destruct (Hreg id' (Hsub _ Hin)) as (s & Hs & Ho & Ha). cbn [tl_all with_subs]. destruct (decide (id' = id)) as [->|Hne].
    + exists (f s). rewrite lookup_alter_eq, Hs. split; [done|]. rewrite (Hopen Hin), (proj1 (Hf s)). done.
    + exists s. by rewrite lookup_alter_ne.
  - intros id' s Hs. cbn [tl_all with_subs] in Hs. destruct (decide (id' = id)) as [->|Hne].
    + rewrite lookup_alter_eq in Hs. destruct (tl_all t !! id) as [s0|] eqn:Es; [|done]. injection Hs as <-.
      destruct (Hall id s0 Es) as (H1 & H2 & H3). destruct (Hf s0) as [-> Hl]. split_and!; [done|done|lia].
    + rewrite lookup_alter_ne in Hs by done. by apply Hall.
  - intros id' s Hs Hno. cbn [tl_all tl_subs with_subs] in Hs, Hno. destruct (decide (id' = id)) as [->|Hne].
    + rewrite lookup_alter_eq in Hs. destruct (tl_all t !! id) as [s0|] eqn:Es; [|done]. injection Hs as <-.
      specialize (Hclosed id s0 Hno Es). by rewrite decide_True in Hclosed.
    + rewrite lookup_alter_ne in Hs by done. specialize (Hclosed id' s Hno Hs). by rewrite decide_False in Hclosed.
Qed.

Lemma sound_unsubscribe R cfg t puts id : sound_as R cfg t puts → sound_as R cfg (Unsubscribe t id) puts.
Proof.
  intros Hs. unfold Unsubscribe. destruct (decide _); [|done]. apply sound_alter; [done|set_solver| |set_solver|].
  - intros s. destruct (frames_close ReasonUnsubscribed s) as [-> ->]. split; [done|lia].
  - intros id' s Hno Ha. destruct (decide _) as [->|Hne]; [by apply close_closed|]. apply (so_gone _ _ _ _ Hs id' s Ha). set_solver.
Qed.
Lemma sound_receive R cfg t puts id : sound_as R cfg t puts → sound_as R cfg (Receive t id) puts.
Proof.
  intros Hs. unfold Receive. apply sound_alter; [done|done| | |].
  - intros s. destruct (frames_receive s) as (-> & _ & ?). by split.
  - intros _ s. apply frames_receive.
  - intros id' s Hno Ha. destruct (decide _) as [->|Hne]; [|by apply (so_gone _ _ _ _ Hs id' s)]. destruct (frames_receive s) as (_ & -> & _). by apply (so_gone _ _ _ _ Hs id s).
Qed.

(** Clients publish nothing and store nothing. *)
Lemma client_stream t a puts : stream (client t a) puts = stream t puts.
Proof.
  destruct a as [|id|id]; [|cbn|done].
  - cbn [client]. unfold Subscribe. by destruct (Snapshot _) as [[? ?] ?].
  - unfold Unsubscribe. by case_decide.
Qed.
Lemma sound_clients R cfg puts acts t : takes_new R → sound_as R cfg t puts →
  sound_as R cfg (foldl client t acts) puts ∧ stream (foldl client t acts) puts = stream t puts.
Proof.
  intros HR. revert t. induction acts as [|a acts IH]; intros t Hs; [done|]. cbn [foldl]. rewrite <- (client_stream t a puts). apply IH.
  destruct a as [|id|id]; [by apply sound_subscribe|by apply sound_unsubscribe|by apply sound_receive].
Qed.
Lemma sound_client cfg puts acts t : sound cfg t puts → sound cfg (foldl client t acts) puts.
Proof. intros Hs. by apply (sound_clients _ _ _ _ _ has_tail_new). Qed.

Lemma sound_publish cfg t puts d acts : sound cfg t puts → sound cfg (publish t d acts) puts.
Proof.
  intros Hs. unfold publish. destruct (length d =? 0)%nat; [by apply sound_client|].
  apply (sound_record _ _ _ d) in Hs. destruct (sound_clients _ _ _ acts _ (meanwhile_new d) Hs) as [Hm Hst].
  apply (sound_fan_out _ _ _ _ (stream t puts)); [|done]. rewrite Hst. unfold stream. cbn. by rewrite app_assoc.
Qed.

Lemma sound_consume `{TimeText} cfg t puts d acts : sound cfg t puts → sound cfg (consume t d acts) puts.
Proof. intros Hs. unfold consume. destruct (scan (tl_lines t) d) as [l out]. by apply sound_publish, sound_with_lines. Qed.

Lemma sound_partial cfg t puts acts : sound cfg t puts → sound cfg (flushPartialLine t acts) puts.
Proof. intros Hs. unfold flushPartialLine. destruct (_ =? _)%nat; [by apply sound_client|]. by apply sound_with_lines, sound_publish. Qed.

Lemma sound_finalize cfg t puts b : sound cfg t puts → sound cfg (finalize t b).1 (puts ++ (finalize t b).2) ∧ tl_subs (finalize t b).1 = ∅.
Proof.
  intros Hs. apply (sound_flush _ _ _ b) in Hs. unfold finalize. destruct (flushPending t b) as [t1 ps]. cbn [fst snd] in *.
  split; [|done]. destruct Hs as [Hc Hr Hk Hq Hreg Hall Hgone]. split; [done..| | |].
  - intros id Hin. by apply elem_of_empty in Hin.
  - intros id s. cbn [tl_all]. rewrite map_lookup_imap. destruct (tl_all t1 !! id) as [s0|] eqn:Es; [|done]. intros Hs0; cbn in Hs0; injection Hs0 as <-.
    destruct (Hall id s0 Es) as (H1 & H2 & H3). split; [done|]. destruct (decide (id ∈ tl_subs t1)); [|done].
    destruct (frames_close ReasonEOF s0) as [-> ->]. done.
  - intros id s. cbn [tl_all tl_subs]. rewrite map_lookup_imap. destruct (tl_all t1 !! id) as [s0|] eqn:Es; [|done]. intros Hs0 _; cbn in Hs0; injection Hs0 as <-.
    destruct (decide (id ∈ tl_subs t1)); [by apply close_closed|by apply (Hgone id s0)].
Qed.

Lemma sound_handle `{TimeText} cfg s puts h :
  sound cfg (lp_tailer s) puts → sound cfg (lp_tailer (handle s h).1) (puts ++ (handle s h).2).
Proof.
  intros Hs. set (t := lp_tailer s) in *.
  assert (Hexit : ∀ t' n b, sound cfg t' puts → sound cfg (lp_tailer (exit_loop n t' b).1) (puts ++ (exit_loop n t' b).2)).
  { intros t' n b Ht. pose proof (sound_finalize cfg t' puts b Ht) as [Hf _]. unfold exit_loop. by destruct (finalize t' b). }
  assert (Hretry : ∀ n b, sound cfg (lp_tailer (retry_or_exit n t b).1) (puts ++ (retry_or_exit n t b).2)).
  { intros n b. unfold retry_or_exit. destruct (_ <=? _)%Z; [by apply Hexit|]. cbn. rewrite app_nil_r. by apply sound_with_lines. }
  assert (Hsame : sound cfg t (puts ++ [])) by (by rewrite app_nil_r).
  assert (Hflush : ∀ t' n, sound cfg t' puts → ∀ b, sound cfg (lp_tailer (let '(t2, ps) := flushPending t' b in (mkLoop Reading n t2, ps)).1)
                                           (puts ++ (let '(t2, ps) := flushPending t' b in (mkLoop Reading n t2, ps)).2)).
  { intros t' n Ht b. pose proof (sound_flush cfg t' puts b Ht). by destruct (flushPending t' b). }
  destruct h as [|b|data acts b|acts b|b|b|acts b|a]; unfold handle; fold t; destruct (lp_phase s); try exact Hsame; try apply Hretry;
    try (by apply Hexit, sound_client); try (by apply Hexit, sound_partial); try (by apply Hflush); cbn [fst snd lp_tailer]; rewrite ?app_nil_r;
    try (by apply sound_with_lines); try (by apply (sound_client cfg puts [a])).
  destruct (length data =? 0)%nat; [cbn; rewrite app_nil_r; by apply sound_client|]. cbn zeta. destruct (_ <=? _)%Z.
  - by apply Hflush, sound_consume.
  - cbn. rewrite app_nil_r. by apply sound_consume.
Qed.

(** Only a loop that has exited has stopped its tailer, and it has no clients left. *)
Definition stopped_right (s : loop) : Prop :=
  match lp_phase s with Exited => tl_stopped (lp_tailer s) = true ∧ tl_subs (lp_tailer s) = ∅ | _ => tl_stopped (lp_tailer s) = false end.

Lemma flush_stopped t b : tl_stopped (flushPending t b).1 = tl_stopped t.
Proof. unfold flushPending. by destruct (_ || _). Qed.
Lemma unsubscribe_stopped t id : tl_stopped (Unsubscribe t id) = tl_stopped t ∧ (tl_subs t = ∅ → tl_subs (Unsubscribe t id) = ∅).
Proof. unfold Unsubscribe. case_decide; [|done]. split; [done|]. cbn. set_solver. Qed.
Lemma subscribe_stopped t : tl_stopped (Subscribe t).1 = tl_stopped t ∧ (tl_stopped t = true → tl_subs (Subscribe t).1 = tl_subs t).
Proof. unfold Subscribe. destruct (Snapshot _) as [[? ?] ?]. split; [done|]. cbn. by intros ->. Qed.
Lemma client_stopped t a : tl_stopped (client t a) = tl_stopped t ∧ (tl_stopped t = true → tl_subs t = ∅ → tl_subs (client t a) = ∅).
Proof.
  destruct a as [|id|id]; [|destruct (unsubscribe_stopped t id); naive_solver|done].
  destruct (subscribe_stopped t) as [H1 H2]. split; [exact H1|]. intros Hst He. cbn [client]. by rewrite H2.
Qed.
Lemma clients_stopped acts t : tl_stopped (foldl client t acts) = tl_stopped t.
Proof. revert t. induction acts as [|a acts IH]; intros t; [done|]. cbn [foldl]. by rewrite IH, (proj1 (client_stopped t a)). Qed.
Lemma publish_stopped t d acts : tl_stopped (publish t d acts) = tl_stopped t.
Proof. unfold publish. destruct (_ =? _)%nat; [apply clients_stopped|]. exact (clients_stopped acts (record t d)). Qed.
Lemma consume_stopped `{TimeText} t d acts : tl_stopped (consume t d acts) = tl_stopped t.
Proof. unfold consume. destruct (scan _ _) as [l out]. by rewrite publish_stopped. Qed.
Lemma finalize_stopped t b : tl_stopped (finalize t b).1 = true ∧ tl_subs (finalize t b).1 = ∅.
Proof. unfold finalize. by destruct (flushPending t b). Qed.

Lemma stopped_handle `{TimeText} s h : stopped_right s → stopped_right (handle s h).1.
Proof.
  assert (Hexit : ∀ t' n b, stopped_right (exit_loop n t' b).1).
  { intros t' n b. pose proof (finalize_stopped t' b). unfold exit_loop. by destruct (finalize t' b). }
  unfold stopped_right at 1. intros Hs. destruct h as [|b|data acts b|acts b|b|b|acts b|a]; unfold handle; destruct (lp_phase s) eqn:Ep;
    try (unfold stopped_right; cbn [fst]; rewrite Ep; exact Hs); try apply Hexit; try exact Hs.
  all: try (unfold retry_or_exit; destruct (_ <=? _)%Z; [apply Hexit|exact Hs]).
  all: try (pose proof (flush_stopped (lp_tailer s) b) as Hf; destruct (flushPending (lp_tailer s) b); cbn in *; congruence).
  all: try (unfold stopped_right; cbn [fst lp_phase lp_tailer]; destruct (client_stopped (lp_tailer s) a) as [-> Hc]; first [exact Hs|destruct Hs; by auto]).
  destruct (length data =? 0)%nat; [unfold stopped_right; cbn [fst lp_phase lp_tailer]; by rewrite clients_stopped|]. cbn zeta.
  pose proof (consume_stopped (lp_tailer s) data acts) as Hc. destruct (_ <=? _)%Z.
  - pose proof (flush_stopped (consume (lp_tailer s) data acts) b) as Hf. destruct (flushPending _ b). cbn in *. congruence.
  - cbn. congruence.
Qed.

Lemma course_sound `{TimeText} cfg hs : (0 <= first_chunk cfg < 2 ^ 64)%Z →
  sound cfg (lp_tailer (course cfg hs).1) (course cfg hs).2 ∧ stopped_right (course cfg hs).1.
Proof.
  intros Hf. unfold course. set (step := fun s h => _).
  assert (Hstep : ∀ hs s puts, sound cfg (lp_tailer s) puts → stopped_right s →
    sound cfg (lp_tailer (foldl step (s, puts) hs).1) (foldl step (s, puts) hs).2 ∧ stopped_right (foldl step (s, puts) hs).1).
  { clear hs. induction hs as [|h hs IH]; intros s puts Hs Hr; cbn [foldl]; [done|]. unfold step at 2 4 6. cbn [fst snd].
    pose proof (sound_handle cfg s puts h Hs) as Hs'. pose proof (stopped_handle s h Hr) as Hr'. destruct (handle s h) as [s' ps]. by apply IH. }
  apply Hstep; [by apply sound_new|done].
Qed.

(** C32: Whatever happens to a tailer, in whatever order — streams that open, fail, end or
    are cut, flushes the store takes or refuses, clients that come, read slowly or
    leave, also while bytes are being published — what it has published is what its
    chunks hold, in order, and what waits to be one; the chunks are numbered from the
    first on without a gap; a client on the list has an open channel and everything
    published since its first byte, save that one which came between the two halves of
    a publish has those bytes both in its first frame and as its second; any other
    client's channel is closed, with a reason, and what it got is such a stretch of the
    stream; no channel holds more frames than its capacity; the ring's snapshot is the
    last bytes published; and once the loop has exited no client is left on the list. *)
Theorem course_delivers `{TimeText} cfg hs :
  (0 <= first_chunk cfg < 2 ^ 64)%Z →
  let '(s, puts) := course cfg hs in
  let t := lp_tailer s in
  let w := stream t puts in
  fst <$> chunks puts = (fun i => Keys.LogChunk (lc_Keys cfg) (wrapu64 (first_chunk cfg + Z.of_nat i))) <$> seq 0 (length (chunks puts)) ∧
  contents (tl_ring t) = lastn (rg_capacity (tl_ring t)) w ∧
  (∀ id c, tl_all t !! id = Some c →
     length (sb_frames c) <= Z.to_nat (Z.max 1 (lc_SubscriberQueue (applyDefaults cfg))) ∧
     (if decide (id ∈ tl_subs t) then sb_reason c = "" ∧ has_tail w (frames c)
      else sb_reason c ≠ "" ∧ ∃ w0 b, w = w0 ++ b ∧ has_tail w0 (frames c))) ∧
  (lp_phase s = Exited → tl_subs t = ∅).
Proof.
  intros Hf. pose proof (course_sound cfg hs Hf) as [[Hc Hr Hk Hq Hreg Hall Hgone] Hst]. destruct (course cfg hs) as [s puts]. cbn [fst snd] in *.
  split_and!; [done|apply Hr| |].
  - intros id c Hid. destruct (Hall id c Hid) as (_ & Hstretch & Hlen). split; [done|]. case_decide as Hin.
    + destruct (Hreg id Hin) as (c' & Hc' & Ho & Ha). rewrite Hid in Hc'. by injection Hc' as <-.
    + split; [by apply (Hgone id)|done].
  - intros He. unfold stopped_right in Hst. rewrite He in Hst. apply Hst.
Qed.

Definition demo_keys : Keys.RunKeys := Keys.ForRun "ns" "u1".
Definition demo_config : Config := mkConfig demo_keys (Some (mkCursor 7 (mkPosition 1 1))) true "bucket" 4 3 0 1 0 2 0.
(** A resumed tailer: the second client reads nothing and is cut off; the store refuses
    the second chunk; the stream fails for good. *)
Definition demo_happenings : list happening :=
  [OpenedStream; Client Subscribes; Client Subscribes; Data (encode (at_digit "2" "one")) [] true; Client (Takes 0);
   Data (encode (at_digit "3" "two")) [] false; Client (Takes 0); OpenFailed true; Failed true; OpenFailed true; Client Subscribes].

Lemma course_delivers_witness :
  tl_subs (lp_tailer (course demo_config demo_happenings).1) = ∅ ∧
  fst <$> chunks (course demo_config demo_happenings).2 = ["runs/ns/u1/logs/00000007.log"; "runs/ns/u1/logs/00000008.log"].
Proof.
  assert (Hf : (0 <= first_chunk demo_config < 2 ^ 64)%Z) by (split; vm_compute; congruence).
  pose proof (course_delivers demo_config demo_happenings Hf) as Hc. rewrite (surjective_pairing (course _ _)) in Hc.
  destruct Hc as (Hk & _ & _ & He). split; [apply He; vm_compute; reflexivity|rewrite Hk; vm_compute; reflexivity].
Defined.

(** A client that comes while a line is published has the line twice. *)
Example joined_meanwhile_sees_twice :
  let t := lp_tailer (course (mkConfig demo_keys None true "bucket" 0 0 0 0 0 0 0)
    [OpenedStream; Data (encode (at_digit "1" "boot")) [Subscribes] true]).1 in
  (fun c => fr_Data <$> frames c) <$> tl_all t !! 0%Z = Some [line_text (at_digit "1" "boot"); line_text (at_digit "1" "boot")].
Proof. vm_compute. reflexivity. Qed.

(** ** The registry *)

Definition demo_registry : Registry := mkRegistry (Some ∅) true true true "bucket" (mkConfig "" None false "" 0 0 0 0 0 0 0).

(** The second call for a tailer does nothing, also when its loop has given up. *)
Example ensured_once :
  let '(r, e, ops) := EnsureTailer demo_registry "ns/run" demo_keys "ns" "pod" (StoredCursor (mkCursor 7 (mkPosition 1 1))) in
  e = None ∧ ops = [GetCursor "runs/ns/u1/logcursor.json"] ∧
  (lc_Resume ∘ sd_Config <$> Get r "ns/run") = Some (Some (mkCursor 7 (mkPosition 1 1))) ∧
  EnsureTailer r "ns/run" demo_keys "ns" "pod" NoCursor = (r, None, []).
Proof. vm_compute. split_and!; reflexivity. Qed.

(** A tailer stopped and ensured again within one lifetime is started again, and without
    a cursor its own chunks are wiped. *)
Example stopped_and_recreated :
  let r1 := (EnsureTailer demo_registry "ns/run" demo_keys "ns" "pod" NoCursor).1.1 in
  let r2 := (StopTailer r1 "ns/run").1 in
  let '(r3, e, ops) := EnsureTailer r2 "ns/run" demo_keys "ns" "pod" NoCursor in
  e = None ∧ is_Some (Get r3 "ns/run") ∧ ops = [GetCursor "runs/ns/u1/logcursor.json"; RemovePrefix "runs/ns/u1/logs/"].
Proof. vm_compute. split_and!; [reflexivity|by eexists|reflexivity]. Qed.

End LogstreamSpec.
