(* ===== verification/Lifecycle.v ===== *)
(** * How a TestRun ends (internal/controller/testrun_controller.go, latest_run.go)

    The part of the reconciler every kind of run shares: the terminal
    transition with its metrics and timestamps, persisting to run history,
    webhooks, log tailers, tearing down services and worker Jobs, and asking
    another run to abort. *)
From S2P Require Import Prelude PodPolicy Api GoLib Keys Phases Stages Effects Webhooks Ops Workers Objects Compiler.

Module Lifecycle.
Export Phases Stages Ops Workers.
Import Metrics Webhooks.

Abbreviation LabelRunID := Compiler.LabelRunID.
Definition LabelParentRun : string := "kubetest.io/parent-run".

(** ** Snapshot helpers *)

Definition resolvedSpecOf (run : TestRun) : option TestSpec := unmarshal_spec (st_ResolvedSpec (r_Status run)).

Definition isCompositeRun (run : TestRun) : bool :=
  match resolvedSpecOf run with Some snap => (0 <? length (ts_Steps snap))%nat | None => false end.

Definition isParallelRun (run : TestRun) : bool :=
  match resolvedSpecOf run with Some spec => bool_decide (is_Some (ts_Parallel spec)) | None => false end.

Definition tailerID (run : TestRun) : string := run_ns run +:+ "/" +:+ run_name run.
Definition fetchTailerID (run : TestRun) : string := tailerID run +:+ "/fetch".
Definition workerTailerID (run : TestRun) (i : Z) : string := tailerID run +:+ "/workers/" +:+ itoa i.
Definition workerFetchTailerID (run : TestRun) (i : Z) : string := workerTailerID run i +:+ "/fetch".
Definition serviceTailerID (run : TestRun) (pod : string) : string := tailerID run +:+ "/services/" +:+ pod.

Definition runTool (run : TestRun) : string :=
  if negb (str_is_empty (st_Tool (r_Status run))) then st_Tool (r_Status run)
  else label_of (om_Labels (r_Meta run)) LabelKubetestTool.

Definition zeroMeta : ObjectMeta := mkMeta "" "" "" ∅ ∅ zero_time None [] [].

(** [testForCompile]: the Test rebuilt from the run's resolved spec. *)
Definition testForCompile (run : TestRun) (spec : TestSpec) : Test :=
  let tool := runTool run in
  mkTest
    (mkMeta (rs_TestRef (r_Spec run)) (run_ns run) ""
       (if str_is_empty tool then ∅ else {[ LabelKubetestTool := tool ]}) ∅ zero_time None [] [])
    spec None.

Definition webhookDedupKey (run : TestRun) : string :=
  run_ns run +:+ "/" +:+ run_name run +:+ "#" +:+ phase_string (run_phase run).

(** [slices.SortStableFunc] by name. *)
Fixpoint run_insert (x : TestRun) (xs : list TestRun) : list TestRun :=
  match xs with
  | [] => [x]
  | y :: ys => if String.ltb (run_name y) (run_name x) then y :: run_insert x ys else x :: xs
  end.
Definition sort_by_name (xs : list TestRun) : list TestRun := foldr run_insert [] xs.

Section Reconciler.
Context `{!Components} (cfg : Config).

Abbreviation M := (prog Op).

Definition when (b : bool) (p : M unit) : M unit := if b then p else Ret tt.

(** ** Test.status.latestRun *)

(** [*cur == *next]: the structs hold [FinishedAt] by pointer, and the two
    pointers are distinct unless both are nil. *)
Definition same_reference (a b : RunReference) : bool :=
  (rr_Name a =? rr_Name b)%string && phase_eqb (rr_Phase a) (rr_Phase b) &&
  match rr_FinishedAt a, rr_FinishedAt b with None, None => true | _, _ => false end.

Definition recordLatestRun (run : TestRun) (started : bool) : M unit :=
  let key := mkKey (run_ns run) (rs_TestRef (r_Spec run)) in
  t ← perform (GetTest key);
  match t with
  | Err _ => Ret tt
  | Ok test =>
      let cur := t_LatestRun test in
      if negb started && match cur with Some c => negb (rr_Name c =? run_name run)%string | None => false end then Ret tt
      else
        let next := mkRunRef (run_name run) (run_phase run) (st_FinishedAt (r_Status run)) in
        if match cur with Some c => same_reference c next | None => false end then Ret tt
        else _ ← perform (PatchLatestRun key next); Ret tt
  end.

(** ** Services and Jobs *)

Definition teardownServices (run : TestRun) : M unit :=
  match resolvedSpecOf run with
  | None => Ret tt
  | Some spec =>
      if bool_decide (ts_Services spec = ∅) then Ret tt
      else match Compiler.CompileServices (mkTest zeroMeta spec None) run with
           | Err _ => Ret tt
           | Ok compiled =>
               _ ← for_each (cp_Replicas compiled) (fun rep =>
                     _ ← when (cf_LogRegistry cfg)
                           (perform (StopTailer (serviceTailerID run (k_Name (ob_Key (sp_Pod rep))))));
                     _ ← perform (DeleteObject "Pod" (ob_Key (sp_Pod rep)));
                     Ret tt);
               for_each (cp_Services compiled) (fun svc =>
                 _ ← perform (DeleteObject "Service" (ob_Key svc)); Ret tt)
           end
  end.

(** Background propagation; a Job already gone is fine. *)
Definition deleteJobBackground (job : Job) : M (option error) :=
  e ← perform (DeleteJob (job_key job)); Ret (IgnoreNotFound e).

Definition stop_worker_tailers (run : TestRun) (i : Z) : M unit :=
  when (cf_LogRegistry cfg)
    (_ ← perform (StopTailer (workerTailerID run i)); perform (StopTailer (workerFetchTailerID run i))).

Definition stopWorkers (run : TestRun) : M unit :=
  match resolvedSpecOf run with
  | Some spec =>
      match ts_Parallel spec with
      | None => Ret tt
      | Some _ =>
          for_each (ParallelWorkers (ts_Parallel spec)) (fun w =>
            _ ← stop_worker_tailers run (w_Index w);
            j ← perform (GetJob false (mkKey (run_ns run) (WorkerJobName run (w_Index w))));
            match j with
            | Ok job => _ ← deleteJobBackground job; Ret tt
            | Err _ => Ret tt
            end)
      end
  | None => Ret tt
  end.

(** ** The terminal transition *)

Definition terminal_message (reason message old : string) : string :=
  if negb (str_is_empty reason) && negb (str_is_empty message) then reason +:+ ": " +:+ message
  else if negb (str_is_empty message) then message
  else if negb (str_is_empty reason) then reason
  else old.

(** The run [transitionTerminal] writes. *)
Definition finish_run (phase : Phase) (reason message : string) (now : time) (run : TestRun) : TestRun :=
  let st := r_Status run in
  let msg := terminal_message reason message (st_Message st) in
  let stages := if (0 <? length (st_Stages st))%nat then finishStages (st_Stages st) phase msg now else st_Stages st in
  let started := match st_StartedAt st with Some t => t | None => now end in
  let dur := Z.quot (time_sub now started) millisecond in
  upd_status (fun s =>
    set_DurationMs dur (set_FinishedAt (Some now) (set_StartedAt (Some started)
      (set_Stages stages (set_Message msg (set_Phase phase s)))))) run.

Definition transitionTerminal (run : TestRun) (phase : Phase) (reason message : string) :
    M (TestRun * result error Result) :=
  if negb (IsTerminalPhase phase) then
    Ret (run, Err (mkError EOther ("transitionTerminal called with non-terminal phase " +:+ quote (phase_string phase))))
  else if phase_eqb (run_phase run) phase then Ret (run, Ok no_requeue)
  else
    let tool := NormalizeTool (runTool run) in
    let source := NormalizeSource (rs_Source (r_Spec run)) in
    _ ← perform (RunsTotalInc tool (phase_string phase) source);
    _ ← when (bool_decide (is_Some (st_StartedAt (r_Status run))) && phase_eqb (run_phase run) PhaseRunning)
          (perform (ActiveRunsDec tool));
    now ← perform Now;
    let run := finish_run phase reason message now run in
    _ ← perform (ObserveDurationMs tool (st_DurationMs (r_Status run)));
    e ← perform (UpdateStatus run);
    match e with
    | Some e => Ret (run, Err e)
    | None =>
        _ ← recordLatestRun run false;
        _ ← teardownServices run;
        Ret (run, Ok no_requeue)
    end.

(** ** Run history and webhooks *)

(** [StorageResultReader.readKeys] (storage_result_reader.go) past the download:
    a result whose phase is not final is malformed. *)
Definition check_final (key : string) (r : result error RunResult) : result error RunResult :=
  match r with
  | Ok rr =>
      if IsTerminalPhase (res_Phase rr) then Ok rr
      else Err (mkError EResultMalformed ("result: malformed: " +:+ key +:+ ": phase "
                  +:+ quote (phase_string (res_Phase rr)) +:+ " is not a final phase"))
  | Err e => Err e
  end.

Definition result_keys (run : TestRun) : Keys.RunKeys := Keys.ForRun (run_ns run) (run_uid run).

Definition Read (run : TestRun) : M (result error RunResult) :=
  r ← perform (ReadResult run); Ret (check_final (Keys.Result (result_keys run)) r).
Definition ReadWorker (run : TestRun) (i : Z) : M (result error RunResult) :=
  r ← perform (ReadWorkerResult run i); Ret (check_final (Keys.Result (Keys.Worker (result_keys run) i)) r).

(** executor.ParseTerminationSummary (pkg/executor/termination.go). *)
Definition ParseTerminationSummary (msg : string) : option RunResult :=
  let msg := TrimSpace msg in
  if negb (HasPrefix msg "{") then None
  else match decodeResult msg with
       | None => None
       | Some r => if IsTerminalPhase (res_Phase r) then Some r else None
       end.

(** [ResultFromTermination] (phases.go). *)
Definition ResultFromTermination (pod : option Pod) : option RunResult :=
  match wrapperTerminated pod with
  | None => None
  | Some term => ParseTerminationSummary (tm_Message term)
  end.

(** The worker loop of [persistTestCases]: [inl] is an error to return. *)
Definition worker_cases (run : TestRun) (workers : list Worker) : M (option error + list TestCase) :=
  for_state workers [] (fun w cases =>
    res ← ReadWorker run (w_Index w);
    match res with
    | Ok r => Ret (inr (cases ++ res_TestCases r))
    | Err e =>
        if is_kind EResultNotFound e || is_kind EResultMalformed e then Ret (inr cases)
        else Ret (inl (Some e))
    end).

Definition save_cases (run : TestRun) (cases : list TestCase) : M (option error) :=
  if (length cases =? 0)%nat then Ret None else perform (SaveTestCases run cases).

Definition persistTestCases (run : TestRun) : M (option error) :=
  if negb (cf_TestCaseSaver cfg) || isCompositeRun run then Ret None
  else if isParallelRun run then
    if negb (cf_WorkerResultReader cfg) then Ret None
    else
      r ← worker_cases run (ParallelWorkers (resolvedSpecOf run ≫= ts_Parallel));
      match r with
      | inl e => Ret e
      | inr cases => save_cases run (take Objects.MaxTestCases cases)
      end
  else
    res ← Read run;
    match res with
    | Ok r => save_cases run (res_TestCases r)
    | Err e => if is_kind EResultNotFound e || is_kind EResultMalformed e then Ret None else Ret (Some e)
    end.

Definition persistFinished (run : TestRun) : M unit :=
  if negb (cf_RunStore cfg) || str_is_empty (run_uid run) then Ret tt
  else
    done ← perform (PersistedLoad (run_key run));
    if (done : bool) then Ret tt
    else
      e ← perform (SaveFinished run);
      match e with
      | Some _ => Ret tt
      | None =>
          e ← persistTestCases run;
          match e with
          | Some _ => Ret tt
          | None => perform (PersistedStore (run_key run))
          end
      end.

Definition dispatchWebhooks (run : TestRun) : M unit :=
  if negb (cf_WebhookDispatcher cfg) then Ret tt
  else
    let dedupKey := webhookDedupKey run in
    done ← perform (DispatchedLoad dedupKey);
    if (done : bool) then Ret tt
    else
      hooks ← perform (ListWebhooks (run_ns run));
      match hooks with
      | Err _ => Ret tt
      | Ok hooks =>
          let event := phase_string (run_phase run) in
          let tool := runTool run in
          now ← perform Now;
          let payload := BuildPayload event run tool now in
          _ ← for_each hooks (fun hook =>
                if EventMatches (ws_Events (wk_Spec hook)) event then
                  t ← perform Now;
                  perform (Enqueue (mkDelivery (wk_Namespace hook, wk_Name hook) (wk_Spec hook)
                                      (wk_Namespace hook) payload t))
                else Ret tt);
          perform (DispatchedStore dedupKey)
      end.

Definition terminalAndDeleteJob (run : TestRun) (phase : Phase) (reason message : string) (job : option Job) :
    M (TestRun * result error Result) :=
  '(run, r) ← transitionTerminal run phase reason message;
  match r with
  | Err e => Ret (run, Err e)
  | Ok _ =>
      _ ← persistFinished run;
      _ ← dispatchWebhooks run;
      _ ← when (cf_LogRegistry cfg)
            (_ ← perform (StopTailer (tailerID run)); perform (StopTailer (fetchTailerID run)));
      _ ← match job with Some j => _ ← deleteJobBackground j; Ret tt | None => Ret tt end;
      Ret (run, Ok no_requeue)
  end.

(** ** Aborting another run *)

(** [requestAbort]: one-way, and never on a finished run. *)
Definition requestAbort (run : TestRun) (req : AbortRequest) : M (option error) :=
  if bool_decide (is_Some (rs_Abort (r_Spec run))) || IsTerminalPhase (run_phase run) then Ret None
  else e ← perform (PatchAbort run req); Ret (IgnoreNotFound e).

Definition abortStatus (req : AbortRequest) : string * string :=
  let reason :=
    if (ab_Reason req =? AbortReasonConcurrency)%string then ReasonAborted
    else if (ab_Reason req =? AbortReasonParent)%string then ReasonAbortedByParent
    else ReasonAbortedByUser in
  let message :=
    if negb (str_is_empty (ab_RequestedBy req)) then
      ab_Message req +:+ (if str_is_empty (ab_Message req) then "" else " ")
      +:+ "(requested by " +:+ ab_RequestedBy req +:+ ")"
    else ab_Message req in
  (reason, message).

(** ** Reads *)

Definition listChildRuns (run : TestRun) : M (result error (list TestRun)) :=
  r ← perform (ListChildren (cf_APIReader cfg) (run_ns run) (run_name run));
  Ret (match r with Ok runs => Ok (sort_by_name runs) | Err e => Err e end).

Definition newest_pod (p0 : Pod) (pods : list Pod) : Pod :=
  foldl (fun newest p => if time_after (p_CreationTimestamp p) (p_CreationTimestamp newest) then p else newest) p0 pods.

(** [findPodForJob]; every caller drops its error, and then has no pod. *)
Definition findPodForJob (job : Job) : M (option Pod) :=
  match j_Labels job !! LabelRunID with
  | None => Ret None
  | Some runID =>
      let selector : strmap := {[ LabelRunID := runID ]} in
      let selector := match j_Labels job !! LabelWorker with Some w => <[LabelWorker := w]> selector | None => selector end in
      pods ← perform (ListPods (j_Namespace job) selector);
      match pods with
      | Err _ | Ok [] => Ret None
      | Ok (p :: ps) => Ret (Some (newest_pod p (p :: ps)))
      end
  end.

Definition unschedulableTimeout : duration :=
  if (0 <? cf_UnschedulableTimeout cfg)%Z then cf_UnschedulableTimeout cfg else DefaultUnschedulableTimeout.

Definition ensureFetchTailer (run : TestRun) (pod : option Pod) (id : string) (keys : Keys.RunKeys) : M unit :=
  match pod with
  | Some p =>
      if negb (cf_LogRegistry cfg) || str_is_empty (fetchNameOf run) then Ret tt
      else
        let '(start, _, _, _) := startEnd (containerStatus (p_InitContainerStatuses p) ContainerContentFetcher) in
        match start with
        | None => Ret tt
        | Some _ =>
            _ ← perform (EnsureContainerTailer id keys (p_Namespace p) (p_Name p) ContainerContentFetcher); Ret tt
        end
  | None => Ret tt
  end.

(** [applyRunResultToStatus] (status_projection.go). *)
Definition AttemptStepKey (n : Z) : string := "attempt-" +:+ itoa n.

Definition record_attempts (attempts : list AttemptResult) (steps : gmap string StepResult) : gmap string StepResult :=
  foldl (fun steps ia =>
      <[AttemptStepKey (Z.of_nat ia.1 + 1) :=
          with_sr_Message (at_ErrorMessage ia.2) (with_sr_Phase (at_Phase ia.2) zeroStepResult)]> steps)
    steps (enumerate attempts).

Definition applyRunResultToStatus (r : RunResult) (run : TestRun) : TestRun :=
  upd_status (fun s =>
    let s := if bool_decide (res_Metrics r = ∅) then s else set_Metrics (FormatFloat <$> res_Metrics r) s in
    let s := match res_TestCounts r with Some c => set_TestCounts (Some c) s | None => s end in
    let s := match res_Content r with Some c => set_Content (Some c) s | None => s end in
    let s := if (0 <? length (res_Artifacts r))%nat then set_ArtifactRefs (res_Artifacts r) s else s in
    set_Steps (record_attempts (res_Attempts r) (st_Steps s)) s) run.

(** ** Which operations the shared helpers perform *)

(** Neither a write to a TestRun or a Job, nor an increment of the active-runs gauge, nor a read of a Job. *)
Definition quiet (R : Type) (o : Op R) : bool :=
  match o with
  | CreateRun _ | UpdateRun _ | UpdateStatus _ | PatchAbort _ _ | DeleteRun _ | CreateJob _ | DeleteJob _ => false
  | ActiveRunsInc _ | GetJob _ _ => false
  | _ => true
  end.

Definition ignores_quiet {S} (δ : monitor Op S) : Prop :=
  ∀ R (o : Op R) s, quiet R o = true → δ R s o = Some (fun _ => s).

Ltac quiet_steps := repeat (gstep; try done).

Lemma when_quiet b p : guards (only quiet) tt p (fun _ _ => True) → guards (only quiet) tt (when b p) (fun _ _ => True).
Proof. by destruct b. Qed.

Lemma recordLatestRun_quiet run started : guards (only quiet) tt (recordLatestRun run started) (fun _ _ => True).
Proof. unfold recordLatestRun. quiet_steps. Qed.

Lemma teardownServices_quiet run : guards (only quiet) tt (teardownServices run) (fun _ _ => True).
Proof.
  unfold teardownServices. destruct (resolvedSpecOf run); [|done]. case_match; [done|]. case_match; [|done].
  eapply guards_seq; [apply (guards_for_each _ (fun _ => True)); [done|intros x [] _ _]|intros _ [] _].
  - unfold when. destruct (cf_LogRegistry cfg); quiet_steps.
  - quiet_steps.
Qed.

Lemma worker_cases_quiet run ws : guards (only quiet) tt (worker_cases run ws) (fun _ _ => True).
Proof.
  unfold worker_cases. eapply guards_mono.
  - apply (guards_for_state (only quiet) (fun _ _ => True) (fun _ _ => True)); [done|]. intros. unfold ReadWorker. quiet_steps.
  - done.
Qed.

Lemma persistTestCases_quiet run : guards (only quiet) tt (persistTestCases run) (fun _ _ => True).
Proof.
  unfold persistTestCases, save_cases, Read. case_match; [done|]. case_match.
  - case_match; [done|]. eapply guards_seq; [apply worker_cases_quiet|]. intros [e|cases] [] _; quiet_steps.
  - quiet_steps.
Qed.

Lemma persistFinished_quiet run : guards (only quiet) tt (persistFinished run) (fun _ _ => True).
Proof.
  unfold persistFinished. case_match; [done|]. gstep. case_match; [done|]. gstep. case_match; [done|].
  eapply guards_seq; [apply persistTestCases_quiet|]. intros [e|] [] _; quiet_steps.
Qed.

Lemma dispatchWebhooks_quiet run : guards (only quiet) tt (dispatchWebhooks run) (fun _ _ => True).
Proof.
  unfold dispatchWebhooks. case_match; [done|]. gstep. case_match; [done|]. gstep. case_match; [|done].
  gstep. eapply guards_seq; [apply (guards_for_each _ (fun _ => True)); [done|intros x [] _ _]|intros _ [] _]; quiet_steps.
Qed.

Lemma findPodForJob_quiet job : guards (only quiet) tt (findPodForJob job) (fun _ _ => True).
Proof. unfold findPodForJob. quiet_steps. Qed.

Lemma listChildRuns_quiet run : guards (only quiet) tt (listChildRuns run) (fun _ _ => True).
Proof. unfold listChildRuns. quiet_steps. Qed.

Lemma ensureFetchTailer_quiet run pod id keys :
  guards (only quiet) tt (ensureFetchTailer run pod id keys) (fun _ _ => True).
Proof.
  unfold ensureFetchTailer. case_match; [|done]. case_match; [done|].
  destruct (startEnd _) as [[[[]]]]; quiet_steps.
Qed.

Lemma stop_tailers_quiet a b :
  guards (only quiet) tt (when (cf_LogRegistry cfg) (_ ← perform (StopTailer a); perform (StopTailer b))) (fun _ _ => True).
Proof. apply when_quiet. quiet_steps. Qed.

(** A helper made of quiet operations, in front of a program. *)
Lemma guards_quiet_seq {S A B} (δ : monitor Op S) s (p : M A) (f : A → M B) Q :
  ignores_quiet δ → guards (only quiet) tt p (fun _ _ => True) →
  (∀ a, guards δ s (f a) Q) → guards δ s (p ≫= f) Q.
Proof.
  intros Hδ Hp Hf. eapply guards_seq.
  - eapply (guards_lift quiet δ s p (fun _ => True)); [|exact Hp]. intros. by apply Hδ.
  - intros a s' [-> _]. apply Hf.
Qed.

Lemma guards_quiet_perform {S R A} (δ : monitor Op S) s (o : Op R) (f : R → M A) Q :
  ignores_quiet δ → quiet R o = true → (∀ r, guards δ s (f r) Q) → guards δ s (perform o ≫= f) Q.
Proof. intros Hδ Ho Hf. eapply guards_perform_bind; [by apply Hδ|done]. Qed.

(** The terminal transition for any monitor that only watches writes: all that
    matters is the one status write, of [finish_run]. *)
Lemma transitionTerminal_guards {S} (δ : monitor Op S) s run phase reason message (Q : _ → S → Prop) :
  ignores_quiet δ → IsTerminalPhase phase = true → run_phase run ≠ phase →
  (∀ now, let run' := finish_run phase reason message now run in
     ∃ f, δ _ s (UpdateStatus run') = Some f ∧
       (∀ e, Q (run', Err e) (f (Some e))) ∧ Q (run', Ok no_requeue) (f None)) →
  guards δ s (transitionTerminal run phase reason message) Q.
Proof.
  intros Hδ Ht Hne Hw. unfold transitionTerminal. rewrite Ht. cbn [negb].
  destruct (phase_eqb (run_phase run) phase) eqn:E; [by apply phase_eqb_eq in E|].
  apply guards_quiet_perform; [done..|intros _].
  apply guards_quiet_seq; [done|by apply when_quiet|intros _].
  apply guards_quiet_perform; [done..|intros now].
  apply guards_quiet_perform; [done..|intros _].
  destruct (Hw now) as (f & Hf & Herr & Hok). eapply guards_perform_bind; [exact Hf|].
  intros [e|]; [apply Herr|].
  apply guards_quiet_seq; [done|apply recordLatestRun_quiet|intros _].
  apply guards_quiet_seq; [done|apply teardownServices_quiet|intros _]. done.
Qed.

(** A transition to the phase the run already has, or to one that is not
    terminal, does nothing. *)
Lemma transitionTerminal_noop {S} (δ : monitor Op S) s run phase reason message (Q : _ → S → Prop) :
  IsTerminalPhase phase = false ∨ run_phase run = phase →
  (∀ r, Q (run, r) s) → guards δ s (transitionTerminal run phase reason message) Q.
Proof.
  intros Hno HQ. unfold transitionTerminal. destruct (IsTerminalPhase phase) eqn:Et; cbn [negb]; [|apply HQ].
  destruct Hno as [?|<-]; [done|]. rewrite phase_eqb_refl. apply HQ.
Qed.

(** The same two facts for a condition on every operation. *)
Lemma always_quiet_seq {A B} (P : ∀ R, Op R → Prop) (p : M A) (f : A → M B) Q :
  (∀ R (o : Op R), quiet R o = true → P R o) → guards (only quiet) tt p (fun _ _ => True) →
  (∀ a, always P (f a) Q) → always P (p ≫= f) Q.
Proof.
  intros HP Hp Hf. eapply always_seq; [exact (always_only quiet P p (fun _ => True) HP Hp)|]. intros a _. apply Hf.
Qed.

Lemma transitionTerminal_always (P : ∀ R, Op R → Prop) run phase reason message (Q : _ → Prop) :
  (∀ R (o : Op R), quiet R o = true → P R o) → IsTerminalPhase phase = true → run_phase run ≠ phase →
  (∀ now, P _ (UpdateStatus (finish_run phase reason message now run))) →
  (∀ x, Q x) → always P (transitionTerminal run phase reason message) Q.
Proof.
  intros HP Ht Hne Hw HQ. unfold transitionTerminal. rewrite Ht. cbn [negb].
  destruct (phase_eqb (run_phase run) phase) eqn:E; [by apply phase_eqb_eq in E|].
  apply always_perform; [by apply HP|intros _].
  apply always_quiet_seq; [done|by apply when_quiet|intros _].
  apply always_perform; [by apply HP|intros now].
  apply always_perform; [by apply HP|intros _].
  apply always_perform; [apply Hw|]. intros [e|]; [apply HQ|].
  apply always_quiet_seq; [done|apply recordLatestRun_quiet|intros _].
  apply always_quiet_seq; [done|apply teardownServices_quiet|intros _]. apply HQ.
Qed.

(** Ending a run with [terminalAndDeleteJob]: the Job goes only after the status
    write succeeded. *)
Lemma terminalAndDeleteJob_guards {S} (δ : monitor Op S) s run phase reason message job (Q : _ → S → Prop) :
  ignores_quiet δ → IsTerminalPhase phase = true → run_phase run ≠ phase →
  (∀ now, let run' := finish_run phase reason message now run in
     ∃ f, δ _ s (UpdateStatus run') = Some f ∧
       (∀ e, Q (run', Err e) (f (Some e))) ∧
       match job with
       | None => Q (run', Ok no_requeue) (f None)
       | Some j => ∃ g, δ _ (f None) (DeleteJob (job_key j)) = Some g ∧ ∀ e, Q (run', Ok no_requeue) (g e)
       end) →
  guards δ s (terminalAndDeleteJob run phase reason message job) Q.
Proof.
  intros Hδ Ht Hne Hw. unfold terminalAndDeleteJob. apply guards_bind.
  apply transitionTerminal_guards; [done..|]. intros now run'.
  destruct (Hw now) as (f & Hf & Herr & Hok). exists f. split; [done|]. split; [done|].
  apply guards_quiet_seq; [done|apply persistFinished_quiet|intros _].
  apply guards_quiet_seq; [done|apply dispatchWebhooks_quiet|intros _].
  apply guards_quiet_seq; [done|apply stop_tailers_quiet|intros _].
  destruct job as [j|]; [|done]. destruct Hok as (g & Hg & Hok).
  unfold deleteJobBackground. apply guards_bind, guards_bind.
  eapply guards_perform_bind; [exact Hg|]. done.
Qed.

(** ** Status writes of a trace *)

Definition status_write (e : event Op) : list (TestRun * option error) :=
  match e with
  | Ev o r => match o in Op R return R → list (TestRun * option error) with
              | UpdateStatus run => fun resp => [(run, resp)]
              | _ => fun _ => []
              end r
  end.
Definition status_writes (tr : list (event Op)) : list (TestRun * option error) := tr ≫= status_write.

(** The monitor that records them. *)
Definition record_writes : monitor Op (list (TestRun * option error)) := fun R s o =>
  Some (fun r => s ++ status_write (Ev o r)).

Lemma record_writes_quiet : ignores_quiet record_writes.
Proof.
  intros R o s Ho. unfold record_writes. destruct o; cbn in *; try discriminate Ho; by rewrite app_nil_r.
Qed.

Lemma watch_record_writes s tr : watch record_writes s tr = Some (s ++ status_writes tr).
Proof.
  revert s. induction tr as [|[R o r] tr IH]; intros s; cbn [watch]; [by rewrite app_nil_r|].
  unfold record_writes at 1. rewrite IH. unfold status_writes. cbn [mbind list_bind]. by rewrite app_assoc.
Qed.
End Reconciler.

(** ** Properties of the terminal transition *)

(** The first transition of a run to a terminal phase writes its status once,
    and returns the outcome of that write.  What it writes: the phase; the finish
    time; a start time, the old one when there was one; the time between them in
    milliseconds, not negative when the clock has not gone back; a course with no
    open stage.  The snapshot, the Job name and the step results stay. *)
Theorem transitionTerminal_spec `{!Components} cfg run phase reason message tr run' res :
  IsTerminalPhase phase = true → run_phase run ≠ phase →
  exec (transitionTerminal cfg run phase reason message) tr (run', res) →
  ∃ now e,
    status_writes tr = [(run', e)] ∧
    res = match e with None => Ok no_requeue | Some err => Err err end ∧
    run_phase run' = phase ∧
    st_FinishedAt (r_Status run') = Some now ∧
    (∃ started, st_StartedAt (r_Status run') = Some started ∧
       started = default now (st_StartedAt (r_Status run)) ∧
       ((started <= now)%Z → (0 <= st_DurationMs (r_Status run'))%Z)) ∧
    Forall (fun s => stage_open s = false) (st_Stages (r_Status run')) ∧
    st_ResolvedSpec (r_Status run') = st_ResolvedSpec (r_Status run) ∧
    st_JobName (r_Status run') = st_JobName (r_Status run) ∧
    st_Steps (r_Status run') = st_Steps (r_Status run) ∧ r_Meta run' = r_Meta run ∧ r_Spec run' = r_Spec run.
Proof.
  intros Ht Hne Hex.
  eapply (guards_sound record_writes [] _ (fun x s => ∃ now e, s = [(x.1, e)] ∧
    x.1 = finish_run phase reason message now run ∧
    x.2 = match e with None => Ok no_requeue | Some err => Err err end)) in Hex as (s & Hs & now & e & -> & Hrun & Hres).
  2: { apply transitionTerminal_guards; [apply record_writes_quiet|done..|]. intros now. eexists. split; [done|].
       split; [intros err; exists now, (Some err)|exists now, None]; done. }
  rewrite watch_record_writes in Hs. injection Hs as Hs. cbn in *. subst. exists now, e.
  split_and!; try done.
  - eexists. split; [done|]. split; [by destruct (st_StartedAt (r_Status run))|].
    intros Hle. apply Z.quot_pos; [|done]. unfold time_sub, sat64, int64_min, int64_max. lia.
  - unfold finish_run. cbn. destruct (st_Stages (r_Status run)) as [|s0 ss] eqn:Es; cbn [length Nat.ltb Nat.leb]; [done|].
    unfold finishStages. apply Forall_lookup. intros i s'. rewrite finish_loop_lookup.
    destruct ((s0 :: ss) !! i); [|done]. intros [= <-]. by apply finish_stage_closed.
Qed.

(** ** A concrete environment, for the witnesses *)

#[local] Instance demo_components : Components := {
  Components_order := list_order;
  Components_floats := fun s => (s =? "0.5")%string;
  Components_regexp := fun _ _ => Ok true;
  unmarshalError _ := "unexpected end of JSON input";
  newNotFound kind name := kind +:+ " " +:+ quote name +:+ " not found";
  decodeResult _ := None;
}.

Definition demo_compiler : CompilerOptions := mkCompilerOptions "content-fetcher" "" (mkStorage "" "" "" false "" "") "".

Definition demo_config : Config := mkConfig false false false false false false 0 (30 * second) (10 * second) 0 (PodPolicy.mkPolicy [] false) true ∅ demo_compiler.

(** Answers with success; status writes are answered [upd]. *)
Definition answer (upd : option error) : ∀ R, Op R → unit → R * unit := fun R o w =>
  (match o in Op R return R with
   | Now => 1000%Z
   | GetRun _ => Err (mkError ENotFound "not found")
   | ListRuns _ | ListChildren _ _ _ => Ok []
   | CreateRun _ | UpdateRun _ | PatchAbort _ _ | DeleteRun _ => None
   | UpdateStatus _ => upd
   | GetTest _ => Err (mkError ENotFound "not found")
   | ReadTests _ => fun _ => None
   | PatchLatestRun _ _ => None
   | ExistsTestLive _ => Ok false
   | GetTemplate _ => Err (mkError ENotFound "not found")
   | GetJob _ _ => Err (mkError ENotFound "not found")
   | CreateJob _ | DeleteJob _ | CreateObject _ | DeleteObject _ _ => None
   | GetPod _ => Err (mkError ENotFound "not found")
   | ListPods _ _ => Ok []
   | GetDataKeys _ _ _ => Ok []
   | ReadResult _ | ReadWorkerResult _ _ => Err (mkError EResultNotFound "result: not found")
   | SaveFinished _ | SaveTestCases _ _ => None
   | PersistedLoad _ | DispatchedLoad _ => false
   | PersistedStore _ | PersistedDelete _ | DispatchedStore _ => tt
   | ListWebhooks _ => Ok []
   | Enqueue _ => tt
   | EnsureTailer _ _ _ _ | EnsureContainerTailer _ _ _ _ _ => None
   | StopTailer _ => tt
   | RunsTotalInc _ _ _ | ActiveRunsInc _ | ActiveRunsDec _ | ObserveDurationMs _ _ => tt
   end, w).

Definition demo_running : TestRun :=
  mkTestRun (mkMeta "smoke-1" "ns" "u1" ∅ ∅ 1 None ["kubetest.io/testrun-finalizer"] [])
    (mkRunSpec "smoke" ∅ None ∅ "api" None None)
    (set_StartedAt (Some 500%Z) (set_Phase PhaseRunning (set_ResolvedSpec (SnapshotOf zeroTestSpec) zeroStatus))).

Definition demo_exec : TestRun * result error Result * unit * list (event Op) :=
  Effects.run (answer None) (transitionTerminal demo_config demo_running PhasePassed "" "ok") tt.

Lemma demo_exec_ok :
  exec (transitionTerminal demo_config demo_running PhasePassed "" "ok") demo_exec.2 (demo_exec.1.1.1, demo_exec.1.1.2).
Proof. rewrite <- surjective_pairing. apply run_exec. Qed.

Lemma transitionTerminal_spec_witness :
  ∃ now e, status_writes demo_exec.2 = [(demo_exec.1.1.1, e)] ∧ st_FinishedAt (r_Status demo_exec.1.1.1) = Some now.
Proof.
  destruct (transitionTerminal_spec demo_config demo_running PhasePassed "" "ok" demo_exec.2 demo_exec.1.1.1
    demo_exec.1.1.2 eq_refl (fun H => match H with eq_refl => I end) demo_exec_ok) as (now & e & Hw & _ & _ & Hf & _).
  exists now, e. split; [exact Hw|exact Hf].
Defined.

(** ** The metrics are emitted before the write *)

Definition is_runs_total (e : event Op) : bool := match e with Ev (RunsTotalInc _ _ _) _ => true | _ => false end.
Definition is_active_dec (e : event Op) : bool := match e with Ev (ActiveRunsDec _) _ => true | _ => false end.

Definition conflict : error := mkError EConflict "the object has been modified".

(** A run that loses one write race and then ends is counted twice: the first
    attempt increments runs_total and decrements the active-runs gauge before its
    write fails, and the retry (which reads the unchanged run again) does both
    again, for one successful terminal write. *)
Theorem lost_write_counts_twice :
  let attempt upd := Effects.run (answer upd) (transitionTerminal demo_config demo_running PhasePassed "" "ok") tt in
  let tr := (attempt (Some conflict)).2 ++ (attempt None).2 in
  (attempt (Some conflict)).1.1.2 = Err conflict ∧
  countb (fun w => bool_decide (w.2 = None)) (status_writes tr) = 1 ∧
  countb is_runs_total tr = 2 ∧ countb is_active_dec tr = 2.
Proof. vm_compute. done. Qed.

End Lifecycle.
