(* ===== verification/Composite.v ===== *)
(** * internal/controller/composite.go: composite runs

    A composite run has no Job: its steps run other Tests as child TestRuns.
    One reconcile walks the steps in order, creates the children a step lacks,
    retries failed ones, aggregates a finished step and ends the run when every
    step is decided. *)
From S2P Require Import Prelude Api GoLib Names Composer Phases Stages Effects Ops Expr Lifecycle.

Module Composite.
Export Lifecycle.
Import Composer Expr.

Definition LabelStep : string := "kubetest.io/step".
Definition LabelExecIndex : string := "kubetest.io/exec-index".
Definition LabelAttempt : string := "kubetest.io/attempt".
Definition compositeRequeue : duration := (3 * second)%Z.

(** A nil dereference; controller-runtime turns the panic into an error. *)
Definition nil_panic : error := mkError EOther "panic: runtime error: invalid memory address or nil pointer dereference [recovered]".

Record expectedChild := mkExpected {
  ec_Key : string;
  ec_Name : string;
  ec_StepIdx : nat;
  ec_TestRef : string;
  ec_Index : Z;
  ec_Count : Z;
  ec_Config : strmap;
}.

Definition itoa_nat (n : nat) : string := itoa (Z.of_nat n).
Definition step_key (i : nat) : string := "s" +:+ itoa_nat i.

Definition childName (parent : TestRun) (stepIdx : nat) (testRef : string) (index : Z) : string :=
  Names.Bounded (run_name parent +:+ "-s" +:+ itoa_nat stepIdx +:+ "-" +:+ testRef +:+ "-" +:+ itoa index).

Definition expected_of_ref (parent : TestRun) (stepIdx : nat) (ref : StepExecuteTest) : list expectedChild :=
  let count := if (et_Count ref =? 0)%Z then 1%Z else et_Count ref in
  (fun i =>
     let i := Z.of_nat i in
     mkExpected (step_key stepIdx +:+ "/" +:+ et_Name ref +:+ "[" +:+ itoa i +:+ "]")
       (childName parent stepIdx (et_Name ref) i) stepIdx (et_Name ref) i count
       (RenderChildConfig (et_Config ref) i count)) <$> seq 0 (Z.to_nat count).

Definition expectedChildren (parent : TestRun) (step : Step) (stepIdx : nat) : list expectedChild :=
  match s_Execute step with
  | None => []
  | Some ex => se_Tests ex ≫= expected_of_ref parent stepIdx
  end.

Definition kidsForStep (all : list TestRun) (stepIdx : nat) : list TestRun :=
  List.filter (fun r => label_of (om_Labels (r_Meta r)) LabelStep =? itoa_nat stepIdx)%string all.

Definition findChild (kids : list TestRun) (name : string) : option TestRun :=
  find_first (fun k => run_name k =? name)%string kids.

Definition stepRetries (step : Step) : Z := match s_Retry step with None => 0%Z | Some r => rp_Count r end.

Definition attemptName (e : expectedChild) (n : Z) : string :=
  if (n =? 0)%Z then ec_Name e else Names.Bounded (ec_Name e +:+ "-r" +:+ itoa n).

(** [for n := retries; n >= 0; n--] *)
Fixpoint latest_from (kids : list TestRun) (e : expectedChild) (m : nat) : option (TestRun * Z) :=
  match m with
  | O => None
  | S n =>
      match findChild kids (attemptName e (Z.of_nat n)) with
      | Some c => Some (c, Z.of_nat n)
      | None => latest_from kids e n
      end
  end.

Definition latestAttempt (kids : list TestRun) (e : expectedChild) (retries : Z) : option (TestRun * Z) :=
  latest_from kids e (Z.to_nat (retries + 1)).

Record childRetry := mkChildRetry { cr_child : expectedChild; cr_attempt : Z }.

(** What one expected child contributes: its outcome, a wait, or a retry. *)
Inductive ChildState := ChildPending | ChildAgain (rt : childRetry) | ChildDone (o : ChildOutcome).

Definition child_state (kids : list TestRun) (retries : Z) (negative : bool) (e : expectedChild) : ChildState :=
  match latestAttempt kids e retries with
  | None => ChildPending
  | Some (child, n) =>
      if negb (IsTerminalPhase (run_phase child)) then ChildPending
      else if (n <? retries)%Z && ChildNeedsRetry (run_phase child) negative then
        ChildAgain (mkChildRetry e (n + 1))
      else ChildDone (mkOutcome (run_phase child))
  end.

(** The loop of [gatherOutcomes]: outcomes, done, again. *)
Fixpoint gather_loop (kids : list TestRun) (retries : Z) (negative : bool) (expected : list expectedChild)
    (outcomes : list ChildOutcome) (done : bool) (again : list childRetry) :
    list ChildOutcome * bool * list childRetry :=
  match expected with
  | [] => (outcomes, done, again)
  | e :: es =>
      match child_state kids retries negative e with
      | ChildPending => gather_loop kids retries negative es outcomes false again
      | ChildAgain rt => gather_loop kids retries negative es outcomes false (again ++ [rt])
      | ChildDone o => gather_loop kids retries negative es (outcomes ++ [o]) done again
      end
  end.

Definition gatherOutcomes (kids : list TestRun) (expected : list expectedChild) (retries : Z) (negative : bool) :
    list ChildOutcome * bool * list childRetry :=
  let '(outcomes, done, again) := gather_loop kids retries negative expected [] true [] in
  if done then (outcomes, true, []) else ([], false, again).

(** ** Step results *)

Definition get_step (run : TestRun) (key : string) : StepResult :=
  default zeroStepResult (st_Steps (r_Status run) !! key).
Definition set_step (key : string) (sr : StepResult) (run : TestRun) : TestRun :=
  upd_status (fun s => set_Steps (<[key := sr]> (st_Steps s)) s) run.

Definition recordedStepVerdict (sr : StepResult) : option StepVerdict :=
  match sr_Phase sr with
  | PhasePassed | PhaseFailed | PhaseAborted | PhaseError => Some (mkVerdict (sr_Phase sr) (sr_Message sr))
  | _ => None
  end.

(** Whether verdict [v] of an earlier step stops the steps after it. *)
Definition blocks_next (step : Step) (v : option StepVerdict) : bool :=
  match v with
  | None => false
  | Some v =>
      if s_Optional step && phase_eqb (vd_Phase v) PhaseFailed then false
      else match vd_Phase v with PhaseFailed | PhaseAborted | PhaseError => true | _ => false end
  end.

(** [prior] holds the verdicts of the steps before [currIdx]. *)
Definition shouldSkip (prior : list (option StepVerdict)) (steps : list Step) (currIdx : nat) : bool :=
  match steps !! currIdx with
  | None => false
  | Some curr =>
      if (s_Condition curr =? ConditionAlways)%string then false
      else existsb (fun sv => blocks_next sv.1 sv.2) (zip (take currIdx steps) prior)
  end.

(** passed, failed, skipped *)
Fixpoint count_verdicts (verdicts : list (option StepVerdict)) (optional : list bool) (i : nat) (p f s : Z) : Z * Z * Z :=
  match verdicts with
  | [] => (p, f, s)
  | None :: vs => count_verdicts vs optional (S i) p f (s + 1)
  | Some v :: vs =>
      if phase_eqb (vd_Phase v) PhasePassed then count_verdicts vs optional (S i) (p + 1) f s
      else if is_optional optional i && phase_eqb (vd_Phase v) PhaseFailed then count_verdicts vs optional (S i) (p + 1) f s
      else count_verdicts vs optional (S i) p (f + 1) s
  end.

Definition parentMessage (verdicts : list (option StepVerdict)) (optional : list bool) : string :=
  let '(p, f, s) := count_verdicts verdicts optional 0 0 0 0 in
  "composite: " +:+ itoa p +:+ " passed, " +:+ itoa f +:+ " failed, " +:+ itoa s +:+ " skipped".

Definition child_result (e : expectedChild) (retries : Z) (child : TestRun) (n : Z) : StepResult :=
  let st := r_Status child in
  mkStepResult (st_Phase st) (st_QueuedAt st) (st_StartedAt st) (st_FinishedAt st)
    (if (0 <? n)%Z then "try " +:+ itoa (n + 1) +:+ " of " +:+ itoa (retries + 1) +:+ " (" +:+ run_name child +:+ ")" else "")
    [] ∅ "".

Definition updatePerChildStepResults (run : TestRun) (kids : list TestRun) (expected : list expectedChild) (retries : Z) : TestRun :=
  foldl (fun run e =>
    match latestAttempt kids e retries with
    | None => run
    | Some (child, n) => set_step (ec_Key e) (child_result e retries child n) run
    end) run expected.

Section Reconciler.
Context `{!Components} (cfg : Config).
Abbreviation M := (prog Op).

(** The child TestRun [createChild] creates. *)
Definition child_object (parent : TestRun) (stepIdx : nat) (e : expectedChild) (attempt : Z) : TestRun :=
  mkTestRun
    (mkMeta (attemptName e attempt) (run_ns parent) ""
       {[ LabelParentRun := run_name parent; LabelStep := itoa_nat stepIdx;
          LabelExecIndex := itoa (ec_Index e); LabelAttempt := itoa attempt ]}
       ∅ zero_time None [] [mkOwner "TestRun" (run_name parent) (run_uid parent) true])
    (mkRunSpec (ec_TestRef e) (ec_Config e) None ∅ (rs_Source (r_Spec parent)) None None)
    zeroStatus.

Definition createChild (parent : TestRun) (stepIdx : nat) (e : expectedChild) (attempt : Z) : M (option error) :=
  r ← perform (CreateRun (child_object parent stepIdx e attempt));
  match r with
  | None => Ret None
  | Some err =>
      if is_kind EAlreadyExists err then Ret None
      else Ret (Some (wrapf ("create child " +:+ attemptName e attempt) err))
  end.

(** The creation loop of [ensureStepChildren]. *)
Fixpoint ensure_loop (parent : TestRun) (stepIdx : nat) (kids : list TestRun) (retries : Z) (cap : Z)
    (inFlight : Z) (expected : list expectedChild) : M (option error) :=
  match expected with
  | [] => Ret None
  | e :: es =>
      if (cap <=? inFlight)%Z then Ret None
      else match latestAttempt kids e retries with
           | Some _ => ensure_loop parent stepIdx kids retries cap inFlight es
           | None =>
               r ← createChild parent stepIdx e 0;
               match r with
               | Some err => Ret (Some err)
               | None => ensure_loop parent stepIdx kids retries cap (inFlight + 1) es
               end
           end
  end.

Definition in_flight (kids : list TestRun) : Z :=
  Z.of_nat (countb (fun k => negb (IsTerminalPhase (run_phase k))) kids).

(** What [step.execute.parallelism] allows at once. *)
Definition step_cap (ex : StepExecute) (expected : list expectedChild) : Z :=
  if (se_Parallelism ex =? 0)%Z then Z.of_nat (length expected) else se_Parallelism ex.

Definition ensure_children (parent : TestRun) (stepIdx : nat) (step : Step) (kids : list TestRun)
    (expected : list expectedChild) : M (option error) :=
  match s_Execute step with
  | None => Ret (Some nil_panic)
  | Some ex => ensure_loop parent stepIdx kids (stepRetries step) (step_cap ex expected) (in_flight kids) expected
  end.

Definition ensureStepChildren (parent : TestRun) (stepIdx : nat) (step : Step) (kids : list TestRun)
    (expected : list expectedChild) : M (option error) :=
  match s_Delay step, st_StartedAt (r_Status parent) with
  | Some d, Some started =>
      if (0 <? d)%Z then
        now ← perform Now;
        if (time_sub now started <? d)%Z then Ret None
        else ensure_children parent stepIdx step kids expected
      else ensure_children parent stepIdx step kids expected
  | _, _ => ensure_children parent stepIdx step kids expected
  end.

Fixpoint create_retries (run : TestRun) (i : nat) (retries : list childRetry) : M (option error) :=
  match retries with
  | [] => Ret None
  | rt :: rts =>
      r ← createChild run i (cr_child rt) (cr_attempt rt);
      match r with Some e => Ret (Some e) | None => create_retries run i rts end
  end.

Fixpoint abortStepChildren (parent : TestRun) (kids : list TestRun) (why : string) : M (option error) :=
  match kids with
  | [] => Ret None
  | k :: ks =>
      r ← requestAbort k (mkAbort AbortReasonParent why (run_name parent));
      match r with
      | Some e => Ret (Some (wrapf ("abort child " +:+ run_name k) e))
      | None => abortStepChildren parent ks why
      end
  end.

Definition recordStepAggregate (run : TestRun) (stepIdx : nat) (v : StepVerdict) : M TestRun :=
  let key := step_key stepIdx in
  let sr := with_sr_Phase (vd_Phase v) (get_step run key) in
  sr ← match sr_StartedAt sr with
       | None => now ← perform Now; Ret (with_sr_StartedAt (Some now) sr)
       | Some _ => Ret sr
       end;
  now ← perform Now;
  Ret (set_step key (with_sr_Message (vd_Message v) (with_sr_FinishedAt (Some now) sr)) run).

(** ** One reconcile *)

(** The state of the walk: the run being written, the children listed last, the
    verdicts of the steps passed. *)
Record Walk := mkWalk { wk_run : TestRun; wk_kids : list TestRun; wk_verdicts : list (option StepVerdict) }.
Definition Exit : Type := TestRun * result error Result.

Definition push_verdict (v : option StepVerdict) (run : TestRun) (w : Walk) : Walk :=
  mkWalk run (wk_kids w) (wk_verdicts w ++ [v]).

(** The step is still in flight: progress is written, a timeout ends it. *)
Definition step_in_flight (i : nat) (step : Step) (existing : StepResult) (stepKids : list TestRun)
    (expected : list expectedChild) (w : Walk) : M (Exit + Walk) :=
  let run := wk_run w in
  run ← (if phase_eqb (sr_Phase existing) PhaseNone then
           now ← perform Now;
           Ret (set_step (step_key i) (with_sr_StartedAt (Some now) (with_sr_Phase PhaseRunning zeroStepResult)) run)
         else Ret run);
  let run := updatePerChildStepResults run stepKids expected (stepRetries step) in
  e ← perform (UpdateStatus run);
  match e with
  | Some e => Ret (inl (run, Err e))
  | None =>
      match s_Timeout step, sr_StartedAt existing with
      | Some timeout, Some started =>
          if (0 <? timeout)%Z then
            now ← perform Now;
            if (timeout <? time_sub now started)%Z then
              a ← abortStepChildren run stepKids "step timeout exceeded";
              match a with
              | Some e => Ret (inl (run, Err e))
              | None =>
                  let v := mkVerdict PhaseFailed "step timeout exceeded" in
                  run ← recordStepAggregate run i v;
                  Ret (inr (push_verdict (Some v) run w))
              end
            else Ret (inl (run, Ok (requeue_after compositeRequeue)))
          else Ret (inl (run, Ok (requeue_after compositeRequeue)))
      | _, _ => Ret (inl (run, Ok (requeue_after compositeRequeue)))
      end
  end.

(** A step that is not skipped and has no recorded verdict. *)
Definition step_open (i : nat) (step : Step) (existing : StepResult) (w : Walk) : M (Exit + Walk) :=
  let run := wk_run w in
  let stepKids := kidsForStep (wk_kids w) i in
  let expected := expectedChildren run step i in
  e ← ensureStepChildren run i step stepKids expected;
  match e with
  | Some e => Ret (inl (run, Err e))
  | None =>
      k ← (if (length stepKids <? length expected)%nat then listChildRuns cfg run else Ret (Ok (wk_kids w)));
      match k with
      | Err e => Ret (inl (run, Err e))
      | Ok kids =>
          let w := mkWalk run kids (wk_verdicts w) in
          let stepKids := kidsForStep kids i in
          let '(outcomes, allDone, retries) := gatherOutcomes stepKids expected (stepRetries step) (s_Negative step) in
          e ← create_retries run i retries;
          match e with
          | Some e => Ret (inl (run, Err e))
          | None =>
              if negb allDone then step_in_flight i step existing stepKids expected w
              else
                let v := Aggregate outcomes (mkOpts (s_Negative step)) in
                run ← recordStepAggregate run i v;
                let run := updatePerChildStepResults run stepKids expected (stepRetries step) in
                Ret (inr (push_verdict (Some v) run w))
          end
      end
  end.

Definition reconcile_step (steps : list Step) (istep : nat * Step) (w : Walk) : M (Exit + Walk) :=
  let '(i, step) := istep in
  let run := wk_run w in
  let existing := get_step run (step_key i) in
  if shouldSkip (wk_verdicts w) steps i then
    run ← (if phase_eqb (sr_Phase existing) StepPhaseSkipped then Ret run
           else
             now ← perform Now;
             Ret (set_step (step_key i)
                    (with_sr_FinishedAt (Some now) (with_sr_StartedAt (Some now)
                       (with_sr_Phase StepPhaseSkipped zeroStepResult))) run));
    Ret (inr (push_verdict None run w))
  else
    match recordedStepVerdict existing with
    | Some v => Ret (inr (push_verdict (Some v) run w))
    | None => step_open i step existing w
    end.

Definition promote_running (run : TestRun) : M (result error TestRun) :=
  if phase_eqb (run_phase run) PhaseRunning then Ret (Ok run)
  else
    let run := upd_status (set_Phase PhaseRunning) run in
    run ← match st_StartedAt (r_Status run) with
          | None => now ← perform Now; Ret (upd_status (set_StartedAt (Some now)) run)
          | Some _ => Ret run
          end;
    e ← perform (UpdateStatus run);
    match e with Some e => Ret (Err e) | None => Ret (Ok run) end.

Definition reconcileComposite (run : TestRun) : M (TestRun * result error Result) :=
  match resolvedSpecOf run with
  | None =>
      transitionTerminal cfg run PhaseError ReasonCompileError 
        ("composite resolvedSpec unmarshal: " +:+ unmarshalError (st_ResolvedSpec (r_Status run)))
  | Some snap =>
      p ← promote_running run;
      match p with
      | Err e => Ret (run, Err e)
      | Ok run =>
          kids ← listChildRuns cfg run;
          match kids with
          | Err e => Ret (run, Err e)
          | Ok kids =>
              r ← for_state (enumerate (ts_Steps snap)) (mkWalk run kids [])
                    (reconcile_step (ts_Steps snap));
              match r with
              | inl out => Ret out
              | inr w =>
                  let optional := s_Optional <$> ts_Steps snap in
                  let parent := ParentPhase (wk_verdicts w) optional in
                  transitionTerminal cfg (wk_run w) parent "" (parentMessage (wk_verdicts w) optional)
              end
          end
      end
  end.

End Reconciler.
End Composite.
