(* ===== verification/CompositeSpec.v ===== *)
(** * Composite runs: what one reconcile may change

    The steps of a composite run are decided in order: a state is [coherent] when
    some prefix of the steps is decided, each by its recorded verdict or by
    being skipped exactly when [shouldSkip] says so, and nothing after the prefix is.
    Every status the reconciler writes is coherent and extends the decisions
    already made. *)
From S2P Require Import Prelude Api GoLib Keys Names Composer Phases Stages Effects Ops Expr Lifecycle Composite.

Module CompositeSpec.
Import Composer Composite.

(** ** Keys of status.steps *)

Lemma step_key_inj i j : step_key i = step_key j → i = j.
Proof.
  unfold step_key. rewrite !str_app_cons, !str_app_nil. intros [= H%(inj pretty)]. lia.
Qed.

Lemma child_key_not_step e j parent step i :
  e ∈ expectedChildren parent step i → ec_Key e ≠ step_key j.
Proof.
  unfold expectedChildren. destruct (s_Execute step) as [ex|]; [|set_solver].
  intros (ref & He & _)%list_elem_of_bind. unfold expected_of_ref in He.
  apply list_elem_of_fmap in He as (n & -> & _). cbn. intros H. apply (f_equal Keys.no_slash) in H.
  revert H. unfold step_key. rewrite !Keys.no_slash_app. rewrite Keys.no_slash_itoa. cbn.
  rewrite ?andb_false_r. unfold itoa_nat. by rewrite Keys.no_slash_itoa.
Qed.

Lemma get_set_step run key sr : get_step (set_step key sr run) key = sr.
Proof. unfold get_step, set_step. cbn. by rewrite lookup_insert_eq. Qed.

Lemma get_set_step_ne run key key' sr : key ≠ key' → get_step (set_step key sr run) key' = get_step run key'.
Proof. intros H. unfold get_step, set_step. cbn. by rewrite lookup_insert_ne. Qed.

Lemma updatePer_get run kids expected retries key :
  (∀ e, e ∈ expected → ec_Key e ≠ key) →
  get_step (updatePerChildStepResults run kids expected retries) key = get_step run key.
Proof.
  unfold updatePerChildStepResults. revert run. induction expected as [|e es IH]; intros run H; [done|]. cbn [foldl].
  rewrite IH by (intros; apply H; set_solver). destruct (latestAttempt kids e retries) as [[c n]|]; [|done].
  apply get_set_step_ne. apply H. set_solver.
Qed.

(** Everything but [status.steps]. *)
Definition same_but_steps (a b : TestRun) : Prop :=
  r_Meta a = r_Meta b ∧ r_Spec a = r_Spec b ∧ run_phase a = run_phase b ∧
  st_ResolvedSpec (r_Status a) = st_ResolvedSpec (r_Status b).

Lemma same_but_steps_set key sr run : same_but_steps (set_step key sr run) run.
Proof. done. Qed.

Lemma updatePer_same run kids expected retries :
  same_but_steps (updatePerChildStepResults run kids expected retries) run.
Proof.
  unfold updatePerChildStepResults. revert run. induction expected as [|e es IH]; intros run; [done|]. cbn [foldl].
  destruct (latestAttempt kids e retries) as [[c n]|]; [|apply IH].
  destruct (IH (set_step (ec_Key e) (child_result e retries c n) run)) as (? & ? & ? & ?).
  by split_and!.
Qed.

Lemma Aggregate_terminal children opts : IsTerminalPhase (vd_Phase (Aggregate children opts)) = true.
Proof.
  assert (H : ∀ i f cs v, aggregate_loop opts i f cs = inl v → IsTerminalPhase (vd_Phase v) = true).
  { intros i f cs. revert i f. induction cs as [|c cs IH]; intros i f v; cbn; [done|].
    destruct (phase_eqb (co_Phase c) PhaseAborted); [by intros [= <-]|].
    destruct (phase_eqb (co_Phase c) PhaseError); [by intros [= <-]|]. apply IH. }
  unfold Aggregate. destruct children as [|c cs]; [done|].
  destruct (aggregate_loop opts 0 None (c :: cs)) as [v|[i|]] eqn:E; [by eapply H|done..].
Qed.

Lemma recorded_of sr v :
  IsTerminalPhase (vd_Phase v) = true → sr_Phase sr = vd_Phase v → sr_Message sr = vd_Message v →
  recordedStepVerdict sr = Some v.
Proof. destruct v as [p m]. cbn. intros Ht Hp Hm. unfold recordedStepVerdict. rewrite Hp, Hm. by destruct p. Qed.

(** ** Coherent states *)

Section Steps.
Context (steps : list Step).

Definition verdict_at (run : TestRun) (i : nat) : option StepVerdict := recordedStepVerdict (get_step run (step_key i)).
Definition verdicts (run : TestRun) (m : nat) : list (option StepVerdict) := verdict_at run <$> seq 0 m.

(** Step [i] is decided: skipped exactly when the steps before it say so, else
    with a recorded verdict. *)
Definition decided_at (run : TestRun) (i : nat) : Prop :=
  if shouldSkip (verdicts run i) steps i
  then sr_Phase (get_step run (step_key i)) = StepPhaseSkipped
  else is_Some (verdict_at run i).

Definition undecided_at (run : TestRun) (i : nat) : Prop :=
  verdict_at run i = None ∧ sr_Phase (get_step run (step_key i)) ≠ StepPhaseSkipped.

(** The first [m] steps are decided, the others are not. *)
Definition decided_upto (run : TestRun) (m : nat) : Prop :=
  m ≤ length steps ∧ (∀ i, i < m → decided_at run i) ∧ (∀ i, m ≤ i < length steps → undecided_at run i).

Definition coherent (run : TestRun) : Prop := ∃ m, decided_upto run m.

(** [r] agrees with [run] on the first [m] steps. *)
Definition agrees (m : nat) (run r : TestRun) : Prop :=
  ∀ i, i < m → get_step r (step_key i) = get_step run (step_key i).

Lemma verdicts_agrees m run r : agrees m run r → verdicts r m = verdicts run m.
Proof.
  intros H. unfold verdicts. apply list_fmap_ext. intros i x Hx. apply lookup_seq in Hx as [-> Hi].
  unfold verdict_at. by rewrite H by lia.
Qed.

Lemma agrees_le m m' run r : m ≤ m' → agrees m' run r → agrees m run r.
Proof. intros Hle H i Hi. apply H. lia. Qed.

Lemma decided_agrees run r i : agrees (S i) run r → decided_at run i → decided_at r i.
Proof.
  intros H. unfold decided_at, verdict_at.
  rewrite (verdicts_agrees i run r) by (by eapply agrees_le; [|exact H]; lia).
  by rewrite (H i) by lia.
Qed.

Lemma agrees_refl m run : agrees m run run.
Proof. by intros i _. Qed.

Lemma agrees_trans m a b c : agrees m a b → agrees m b c → agrees m a c.
Proof. intros H1 H2 i Hi. by rewrite H2, H1. Qed.

Lemma verdicts_S run m : verdicts run (S m) = verdicts run m ++ [verdict_at run m].
Proof. unfold verdicts. rewrite seq_S, fmap_app. done. Qed.

Lemma verdict_skipped run i : sr_Phase (get_step run (step_key i)) = StepPhaseSkipped → verdict_at run i = None.
Proof. unfold verdict_at, recordedStepVerdict. by intros ->. Qed.

(** Deciding the first undecided step. *)
Lemma decide_step run r k :
  k < length steps → decided_upto run k → agrees k run r → decided_at r k →
  (∀ i, k < i → get_step r (step_key i) = get_step run (step_key i)) → decided_upto r (S k).
Proof.
  intros Hk (_ & Hd & Hu) Ha Hdk Hrest. split; [lia|]. split.
  - intros i Hi. destruct (decide (i = k)) as [->|]; [done|].
    apply decided_agrees with run; [|apply Hd; lia]. eapply agrees_le; [|done]. lia.
  - intros i Hi. destruct (Hu i) as [H1 H2]; [lia|]. unfold undecided_at, verdict_at. rewrite Hrest by lia. done.
Qed.

(** Changing an undecided step without deciding it. *)
Lemma keep_undecided run r k :
  decided_upto run k → agrees k run r → undecided_at r k →
  (∀ i, k < i → get_step r (step_key i) = get_step run (step_key i)) → decided_upto r k.
Proof.
  intros (Hk & Hd & Hu) Ha Huk Hrest. split; [done|]. split.
  - intros i Hi. apply decided_agrees with run; [|by apply Hd]. eapply agrees_le; [|done]. lia.
  - intros i Hi. destruct (decide (i = k)) as [->|]; [done|].
    destruct (Hu i) as [H1 H2]; [lia|]. unfold undecided_at, verdict_at. rewrite Hrest by lia. done.
Qed.

End Steps.

(** ** One reconcile *)

Section Walk.
Context `{!Components} (cfg : Config) (run0 : TestRun) (steps : list Step) (m0 : nat).

(** What the reconciler may do when the first [m0] steps of [run0] are decided. *)
Definition of_open_step (r : TestRun) : Prop :=
  ∃ i, m0 ≤ i < length steps ∧ label_of (om_Labels (r_Meta r)) LabelStep = itoa_nat i.

Definition allowed (R : Type) (o : Op R) : Prop :=
  match o with
  | UpdateStatus r =>
      ∃ m, m0 ≤ m ∧ decided_upto steps r m ∧ agrees m0 run0 r ∧
        (IsTerminalPhase (run_phase r) = true →
           m = length steps ∧ run_phase r = ParentPhase (verdicts r m) (s_Optional <$> steps))
  | CreateRun c => of_open_step c
  | PatchAbort k _ => of_open_step k
  | UpdateRun _ | DeleteRun _ | CreateJob _ | DeleteJob _ | ActiveRunsInc _ => False
  | _ => True
  end.

Lemma quiet_allowed R (o : Op R) : quiet R o = true → allowed R o.
Proof. destruct o; cbn; try done; naive_solver. Qed.

(** The walk before step [k]. *)
Definition walking (k : nat) (w : Walk) : Prop :=
  wk_verdicts w = verdicts (wk_run w) k ∧ agrees m0 run0 (wk_run w) ∧
  decided_upto steps (wk_run w) (max k m0) ∧ run_phase (wk_run w) = PhaseRunning.

Lemma createChild_allowed parent i e a :
  m0 ≤ i < length steps → always allowed (createChild parent i e a) (fun _ => True).
Proof.
  intros Hi. apply always_perform; [exists i; split; [done|reflexivity]|].
  intros [err|]; [|done]. by case_match.
Qed.

Lemma ensure_loop_allowed parent i kids retries cap inFlight expected :
  m0 ≤ i < length steps →
  always allowed (ensure_loop parent i kids retries cap inFlight expected) (fun _ => True).
Proof.
  intros Hi. revert inFlight. induction expected as [|e es IH]; intros inFlight; cbn [ensure_loop]; [done|].
  case_match; [done|]. case_match; [apply IH|].
  eapply always_seq; [by apply createChild_allowed|]. intros [err|] _; [done|apply IH].
Qed.

Lemma ensureStepChildren_allowed parent i step kids expected :
  m0 ≤ i < length steps → always allowed (ensureStepChildren parent i step kids expected) (fun _ => True).
Proof.
  intros Hi. assert (Hc : always allowed (ensure_children parent i step kids expected) (fun _ => True)).
  { unfold ensure_children. case_match; [by apply ensure_loop_allowed|done]. }
  unfold ensureStepChildren. repeat case_match; try done.
  apply always_perform; [done|intros now]. by case_match.
Qed.

Lemma create_retries_allowed run i rts :
  m0 ≤ i < length steps → always allowed (create_retries run i rts) (fun _ => True).
Proof.
  intros Hi. induction rts as [|rt rts IH]; cbn [create_retries]; [done|].
  eapply always_seq; [by apply createChild_allowed|]. intros [err|] _; [done|apply IH].
Qed.

Lemma abortStepChildren_allowed parent kids why i :
  m0 ≤ i < length steps →
  (∀ k, k ∈ kids → label_of (om_Labels (r_Meta k)) LabelStep = itoa_nat i) →
  always allowed (abortStepChildren parent kids why) (fun _ => True).
Proof.
  intros Hi. induction kids as [|k ks IH]; intros Hk; cbn [abortStepChildren]; [done|].
  eapply (always_seq _ _ _ _ (fun _ => True)).
  - unfold requestAbort. case_match; [done|]. apply always_perform; [|done].
    exists i. split; [done|]. apply Hk. set_solver.
  - intros [err|] _; [done|]. apply IH. intros. apply Hk. set_solver.
Qed.

Lemma kidsForStep_label kids i k :
  k ∈ kidsForStep kids i → label_of (om_Labels (r_Meta k)) LabelStep = itoa_nat i.
Proof. unfold kidsForStep. intros Hk. apply list_elem_of_In, filter_In in Hk as [_ Hk]. by apply String.eqb_eq. Qed.

Lemma recordStepAggregate_allowed run i v :
  always allowed (recordStepAggregate run i v)
    (fun run' => ∃ sr, run' = set_step (step_key i) sr run ∧ sr_Phase sr = vd_Phase v ∧ sr_Message sr = vd_Message v).
Proof.
  unfold recordStepAggregate.
  eapply (always_seq _ _ _ _ (fun sr => sr_Phase sr = vd_Phase v)).
  - case_match; [done|]. apply always_perform; done.
  - intros sr Hsr. apply always_perform; [done|intros now]. cbn. eexists. done.
Qed.

(** Writing a verdict for the first undecided step. *)
Lemma walking_decide k w run sr v kids :
  k < length steps → m0 ≤ k → wk_verdicts w = verdicts run k → agrees m0 run0 run → decided_upto steps run k →
  run_phase run = PhaseRunning → shouldSkip (verdicts run k) steps k = false →
  IsTerminalPhase (vd_Phase v) = true → sr_Phase sr = vd_Phase v → sr_Message sr = vd_Message v →
  ∀ run', same_but_steps run' run →
    (∀ i, get_step run' (step_key i) = get_step (set_step (step_key k) sr run) (step_key i)) →
    walking (S k) (mkWalk run' kids (wk_verdicts w ++ [Some v])).
Proof.
  intros Hk Hm Hv Ha Hd Hp Hs Ht Hsp Hsm run' (_ & _ & Hph & _) Hget.
  assert (Hne : ∀ i, i ≠ k → get_step run' (step_key i) = get_step run (step_key i)).
  { intros i Hi. rewrite Hget, get_set_step_ne; [done|]. intros E%step_key_inj. congruence. }
  assert (Hva : verdict_at run' k = Some v).
  { unfold verdict_at. rewrite Hget, get_set_step. by apply recorded_of. }
  assert (Hag : agrees k run run') by (intros i Hi; apply Hne; lia).
  unfold walking. cbn [wk_verdicts wk_run]. split_and!.
  - rewrite verdicts_S, Hva, Hv. f_equal. symmetry. by apply verdicts_agrees.
  - eapply agrees_trans; [exact Ha|]. by eapply agrees_le; [|exact Hag].
  - rewrite Nat.max_l by lia. eapply decide_step; [done|exact Hd|done| |intros; apply Hne; lia].
    unfold decided_at. rewrite (verdicts_agrees k run run') by done. rewrite Hs. by rewrite Hva.
  - by rewrite Hph.
Qed.

Lemma updatePer_steps run parent step i kids retries j :
  get_step (updatePerChildStepResults run kids (expectedChildren parent step i) retries) (step_key j) =
  get_step run (step_key j).
Proof. apply updatePer_get. intros e He. by eapply child_key_not_step. Qed.

(** The status written while step [k] is in flight. *)
Lemma in_flight_write k w run r :
  k < length steps → m0 ≤ k → agrees m0 run0 (wk_run w) → decided_upto steps (wk_run w) k →
  run_phase (wk_run w) = PhaseRunning →
  (run = wk_run w ∨ run = set_step (step_key k) (with_sr_StartedAt (Some r) (with_sr_Phase PhaseRunning zeroStepResult)) (wk_run w)) →
  agrees k (wk_run w) run ∧ decided_upto steps run k ∧ run_phase run = PhaseRunning.
Proof.
  intros Hk Hm Ha Hd Hp [->| ->]; [split_and!; [apply agrees_refl|done..]|].
  assert (Hag : agrees k (wk_run w) (set_step (step_key k)
    (with_sr_StartedAt (Some r) (with_sr_Phase PhaseRunning zeroStepResult)) (wk_run w))).
  { intros i Hi. apply get_set_step_ne. intros E%step_key_inj. lia. }
  split_and!; [done| |done].
  apply keep_undecided with (wk_run w); [done|done| |].
  - unfold undecided_at, verdict_at. by rewrite get_set_step.
  - intros i Hi. apply get_set_step_ne. intros E%step_key_inj. lia.
Qed.

Lemma step_in_flight_ok k step kids w :
  steps !! k = Some step → m0 ≤ k → wk_verdicts w = verdicts (wk_run w) k → agrees m0 run0 (wk_run w) →
  decided_upto steps (wk_run w) k → run_phase (wk_run w) = PhaseRunning →
  shouldSkip (verdicts (wk_run w) k) steps k = false →
  always allowed
    (step_in_flight k step (get_step (wk_run w) (step_key k)) (kidsForStep kids k)
       (expectedChildren (wk_run w) step k) w)
    (fun r => match r with inl _ => True | inr w' => walking (S k) w' end).
Proof.
  intros Hstep Hm Hv Ha Hd Hp Hs. assert (Hk : k < length steps) by (by apply lookup_lt_Some in Hstep).
  unfold step_in_flight.
  eapply (always_seq _ _ _ _ (fun run => agrees k (wk_run w) run ∧ decided_upto steps run k ∧ run_phase run = PhaseRunning)).
  { case_match.
    - apply always_perform; [done|intros now]. cbn. eapply (in_flight_write k w); eauto.
    - cbn. eapply (in_flight_write k w _ 0); eauto. }
  intros run (Hag & Hd1 & Hp1).
  set (r := updatePerChildStepResults run _ _ _).
  assert (Hget : ∀ j, get_step r (step_key j) = get_step run (step_key j)) by (intros; apply updatePer_steps).
  assert (Hsame : same_but_steps r run) by apply updatePer_same.
  assert (Hagr : agrees k (wk_run w) r) by (intros i Hi; rewrite Hget; by apply Hag).
  assert (Hdr : decided_upto steps r k).
  { apply keep_undecided with run; [done|intros i Hi; by rewrite Hget| |intros i Hi; by rewrite Hget].
    destruct Hd1 as (_ & _ & Hu). destruct (Hu k) as [Hu1 Hu2]; [lia|]. unfold undecided_at, verdict_at. by rewrite Hget. }
  assert (Hpr : run_phase r = PhaseRunning) by (destruct Hsame as (_ & _ & -> & _); done).
  apply always_perform.
  { exists k. split_and!; [done|done|eapply agrees_trans; [exact Ha|by eapply agrees_le; [|exact Hagr]]|by rewrite Hpr]. }
  intros [e|]; [done|]. destruct (s_Timeout step) as [timeout|]; [|done].
  destruct (sr_StartedAt _) as [started|]; [|done]. case_match; [|done].
  apply always_perform; [done|intros now]. case_match; [|done].
  eapply always_seq; [apply (abortStepChildren_allowed _ _ _ k); [lia|intros; by eapply kidsForStep_label]|].
  intros [e|] _; [done|].
  eapply always_seq; [apply recordStepAggregate_allowed|]. intros run' (sr & -> & Hsp & Hsm). cbn [always].
  eapply (walking_decide k w r sr); try done.
  - rewrite Hv. symmetry. by apply verdicts_agrees.
  - eapply agrees_trans; [exact Ha|]. by eapply agrees_le; [|exact Hagr].
  - by rewrite (verdicts_agrees k (wk_run w) r).
Qed.

Lemma step_open_ok k step w :
  steps !! k = Some step → walking k w → shouldSkip (verdicts (wk_run w) k) steps k = false →
  verdict_at (wk_run w) k = None →
  always allowed (step_open cfg k step (get_step (wk_run w) (step_key k)) w)
    (fun r => match r with inl _ => True | inr w' => walking (S k) w' end).
Proof.
  intros Hstep (Hv & Ha & Hd & Hp) Hs Hnone. assert (Hk : k < length steps) by (by apply lookup_lt_Some in Hstep).
  assert (Hm : m0 ≤ k).
  { destruct (decide (m0 ≤ k)); [done|]. destruct Hd as (_ & Hd & _). specialize (Hd k).
    unfold decided_at in Hd. rewrite Hs, Hnone in Hd. destruct Hd; [lia|done]. }
  rewrite Nat.max_l in Hd by lia. unfold step_open.
  eapply always_seq; [by apply ensureStepChildren_allowed|]. intros [e|] _; [done|].
  eapply (always_seq _ _ _ _ (fun _ => True)).
  { case_match; [|done]. eapply always_only; [apply quiet_allowed|apply listChildRuns_quiet]. }
  intros [kids|e] _; [|done].
  destruct (gatherOutcomes _ _ _ _) as [[outcomes allDone] rts] eqn:Eg.
  eapply always_seq; [by apply create_retries_allowed|]. intros [e|] _; [done|].
  destruct allDone; cbn [negb].
  - eapply always_seq; [apply recordStepAggregate_allowed|]. intros run' (sr & -> & Hsp & Hsm). cbn [always].
    eapply (walking_decide k w (wk_run w) sr); try done.
    + apply Aggregate_terminal.
    + exact (updatePer_same (set_step (step_key k) sr (wk_run w)) _ _ _).
    + intros i. apply updatePer_steps.
  - by apply (step_in_flight_ok k step kids (mkWalk (wk_run w) kids (wk_verdicts w))).
Qed.

Lemma reconcile_step_ok k step w :
  steps !! k = Some step → walking k w →
  always allowed (reconcile_step cfg steps (k, step) w)
    (fun r => match r with inl _ => True | inr w' => walking (S k) w' end).
Proof.
  intros Hstep Hw. pose proof Hw as (Hv & Ha & Hd & Hp).
  assert (Hk : k < length steps) by (by apply lookup_lt_Some in Hstep).
  unfold reconcile_step. rewrite Hv. destruct (shouldSkip _ steps k) eqn:Hs.
  - destruct (decide (k < m0)) as [Hlt|Hge].
    + assert (Hsk : sr_Phase (get_step (wk_run w) (step_key k)) = StepPhaseSkipped).
      { destruct Hd as (_ & Hd & _). specialize (Hd k ltac:(lia)). unfold decided_at in Hd. by rewrite Hs in Hd. }
      rewrite Hsk, phase_eqb_refl. cbn [mbind prog_mbind prog_bind always]. unfold walking. cbn [wk_verdicts wk_run push_verdict]. split_and!; [|done| |done].
      * by rewrite verdicts_S, verdict_skipped, <- Hv.
      * by rewrite Nat.max_r in * by lia.
    + rewrite Nat.max_l in Hd by lia. destruct (phase_eqb _ StepPhaseSkipped) eqn:E.
      { apply phase_eqb_eq in E. destruct Hd as (_ & _ & Hu). by destruct (Hu k). }
      apply always_perform; [done|intros now]. cbn [mbind prog_mbind prog_bind always].
      set (sr := with_sr_FinishedAt _ _). set (r := set_step _ sr _).
      assert (Hne : ∀ i, i ≠ k → get_step r (step_key i) = get_step (wk_run w) (step_key i)).
      { intros i Hi. apply get_set_step_ne. intros E'%step_key_inj. congruence. }
      assert (Hag : agrees k (wk_run w) r) by (intros i Hi; apply Hne; lia).
      assert (Hsk : sr_Phase (get_step r (step_key k)) = StepPhaseSkipped) by (unfold r; by rewrite get_set_step).
      unfold walking. cbn [wk_verdicts wk_run push_verdict]. split_and!; [| | |done].
      * rewrite verdicts_S, verdict_skipped by done. rewrite Hv. f_equal. symmetry. by apply verdicts_agrees.
      * eapply agrees_trans; [exact Ha|]. eapply agrees_le; [|exact Hag]. lia.
      * rewrite Nat.max_l by lia. eapply decide_step; [done|exact Hd|done| |intros; apply Hne; lia].
        unfold decided_at. rewrite (verdicts_agrees k (wk_run w) r) by done. by rewrite Hs.
  - destruct (recordedStepVerdict _) as [v|] eqn:Ev; [|by apply step_open_ok].
    assert (Hm : k < m0).
    { destruct (decide (k < m0)); [done|]. destruct Hd as (_ & _ & Hu).
      destruct (Hu k) as [Hu1 _]; [lia|]. unfold verdict_at in Hu1. congruence. }
    cbn [always]. unfold walking. cbn [wk_verdicts wk_run push_verdict]. split_and!; [|done| |done].
    + rewrite verdicts_S, Hv. f_equal. f_equal. unfold verdict_at. done.
    + by rewrite Nat.max_r in * by lia.
Qed.

Lemma composite_walk_ok run kids :
  decided_upto steps run0 m0 → agrees (length steps) run0 run → run_phase run = PhaseRunning →
  always allowed (for_state (enumerate steps) (mkWalk run kids []) (reconcile_step cfg steps))
    (fun r => match r with inl _ => True | inr w => walking (length steps) w end).
Proof.
  intros Hd Ha Hp. pose proof Hd as (Hm & _ & _).
  eapply always_mono.
  - apply (always_for_state allowed walking (fun _ => True) _ _ _ 0).
    + unfold walking. cbn. split_and!; [done| | |done].
      * by eapply agrees_le.
      * destruct Hd as (_ & Hd & Hu). split; [done|]. split.
        -- intros i Hi. apply decided_agrees with run0; [|by apply Hd]. eapply agrees_le; [|done]. lia.
        -- intros i Hi. destruct (Hu i) as [H1 H2]; [lia|]. unfold undecided_at, verdict_at. rewrite Ha by lia. done.
    + intros k [i step] w Hk Hw. rewrite lookup_enumerate in Hk.
      destruct (steps !! k) as [step'|] eqn:Es; [|done]. injection Hk as <- <-. by apply reconcile_step_ok.
  - intros [e|w]; [done|]. unfold enumerate. by rewrite length_imap.
Qed.

End Walk.

(** C4: A composite run's steps are decided in order and for good.  Take a run whose
    steps are coherent (a prefix decided, as a run with no step result is).  Then
    whatever the environment answers, one reconcile only ever writes statuses that
    are coherent again and keep the result of every step already decided; it
    creates and aborts children only of steps not decided yet; it touches no Job
    and deletes nothing; and a terminal status it writes has every step decided and
    the phase that [ParentPhase] gives for the verdicts recorded in that very
    status. *)
Theorem reconcileComposite_decisions `{!Components} cfg run0 snap m0 tr out :
  resolvedSpecOf run0 = Some snap → decided_upto (ts_Steps snap) run0 m0 →
  IsTerminalPhase (run_phase run0) = false →
  exec (reconcileComposite cfg run0) tr out →
  Forall (event_sat (allowed run0 (ts_Steps snap) m0)) tr.
Proof.
  intros Hsnap Hd Hnt Hex. set (steps := ts_Steps snap) in *.
  refine (proj1 (always_sound (allowed run0 steps m0) _ (fun _ => True) tr out _ Hex)). clear Hex.
  unfold reconcileComposite. rewrite Hsnap.
  eapply (always_seq _ _ _ _ (fun p => match p with Err _ => True | Ok run =>
    agrees (length steps) run0 run ∧ run_phase run = PhaseRunning end)).
  { unfold promote_running. destruct (phase_eqb (run_phase run0) PhaseRunning) eqn:E.
    { apply phase_eqb_eq in E. cbn. split; [apply agrees_refl|done]. }
    eapply (always_seq _ _ _ _ (fun run => agrees (length steps) run0 run ∧ run_phase run = PhaseRunning)).
    { case_match; [done|]. apply always_perform; done. }
    intros run [Ha Hp]. apply always_perform; [|intros [e|]; done].
    exists m0. pose proof Hd as (Hm & Hd1 & Hu). split_and!; [done| | |by rewrite Hp].
    - split; [done|]. split.
      + intros i Hi. apply decided_agrees with run0; [|by apply Hd1]. eapply agrees_le; [|done]. lia.
      + intros i Hi. destruct (Hu i) as [H1 H2]; [lia|]. unfold undecided_at, verdict_at. rewrite Ha by lia. done.
    - by eapply agrees_le. }
  intros [run|e]; [|done]. intros [Ha Hp].
  apply always_quiet_seq; [apply quiet_allowed|apply listChildRuns_quiet|]. intros [kids|e]; [|done].
  eapply always_seq; [by apply composite_walk_ok|]. intros [e|w]; [done|]. intros (Hv & Haw & Hdw & Hpw).
  pose proof Hdw as (Hm & _ & _). assert (Hmax : max (length steps) m0 = length steps) by (destruct Hd; lia).
  change (decided_upto steps (wk_run w) (max (length steps) m0)) in Hdw. rewrite Hmax in Hdw.
  assert (IsTerminalPhase (ParentPhase (wk_verdicts w) (s_Optional <$> steps)) = true) as Ht.
  { rewrite ParentPhase_counted. destruct (find_first severe _) as [p|] eqn:Ef; [|by case_match].
    apply find_first_Some in Ef as [_ Hs]. apply severe_spec in Hs as [->| ->]; done. }
  apply (transitionTerminal_always cfg _ _ _ _ _ (fun _ => True)); [apply quiet_allowed|done| | |done].
  { rewrite Hpw. intros E. change (PhaseRunning = ParentPhase (wk_verdicts w) (s_Optional <$> steps)) in E.
    by rewrite <- E in Ht. }
  intros now. exists (length steps). cbn in Hd. split_and!; [by destruct Hd| | |].
  - split; [done|]. destruct Hdw as (_ & H1 & H2). split; [exact H1|exact H2].
  - exact Haw.
  - intros _. split; [done|]. rewrite Hv. done.
Qed.

(** A new composite run is coherent. *)
Lemma fresh_coherent steps run : st_Steps (r_Status run) = ∅ → decided_upto steps run 0.
Proof.
  intros H. split; [lia|]. split; [lia|]. intros i _. unfold undecided_at, verdict_at, get_step. by rewrite H.
Qed.

Definition demo_step : Step := mkStep "load" "" false false None None None (Some (mkExecute 0 [mkExecTest "api" 2 ∅])).
Definition demo_spec : TestSpec :=
  mkTestSpec (mkContent None [] [] []) zeroContainer [] None ∅ None None None "" ∅ None "" None None None [demo_step; demo_step].
Definition demo_composite : TestRun :=
  mkTestRun (mkMeta "nightly-1" "ns" "u1" ∅ ∅ 1 None ["kubetest.io/testrun-finalizer"] [])
    (mkRunSpec "nightly" ∅ None ∅ "api" None None)
    (set_Phase PhaseQueued (set_ResolvedSpec (SnapshotOf demo_spec) zeroStatus)).

Lemma reconcileComposite_decisions_witness :
  Forall (event_sat (allowed demo_composite [demo_step; demo_step] 0))
    (Effects.run (answer None) (reconcileComposite (H := demo_components) demo_config demo_composite) tt).2.
Proof.
  exact (reconcileComposite_decisions demo_config demo_composite demo_spec 0 _ _ eq_refl
    (fresh_coherent [demo_step; demo_step] demo_composite eq_refl) eq_refl
    (run_exec (answer None) (reconcileComposite (H := demo_components) demo_config demo_composite) tt)).
Defined.

(** ** Outcomes of a step *)

Lemma gather_loop_spec kids retries negative expected outcomes done again :
  let st := child_state kids retries negative in
  gather_loop kids retries negative expected outcomes done again =
    (outcomes ++ omap (fun e => match st e with ChildDone o => Some o | _ => None end) expected,
     done && forallb (fun e => match st e with ChildDone _ => true | _ => false end) expected,
     again ++ omap (fun e => match st e with ChildAgain rt => Some rt | _ => None end) expected).
Proof.
  revert outcomes done again. induction expected as [|e es IH]; intros outcomes done again; cbn -[child_state].
  { by rewrite !app_nil_r, andb_true_r. }
  destruct (child_state kids retries negative e) eqn:E; rewrite IH; cbn -[child_state]; rewrite ?E, ?andb_false_r, <- ?app_assoc; done.
Qed.

(** A step is done exactly when every expected child's latest try is terminal
    and needs no retry, and then the outcomes are those of the latest tries in
    the order of the expected children.  Otherwise the children to try again are
    those whose latest try ended, is not the last one allowed and calls for a
    retry, each with the next number. *)
Theorem gatherOutcomes_spec kids expected retries negative :
  let st := child_state kids retries negative in
  let '(outcomes, done, again) := gatherOutcomes kids expected retries negative in
  (done = true ↔ ∀ e, e ∈ expected → ∃ o, st e = ChildDone o) ∧
  (done = true → again = [] ∧ ChildDone <$> outcomes = st <$> expected) ∧
  (done = false → outcomes = [] ∧ ∀ rt, rt ∈ again ↔ ∃ e, e ∈ expected ∧ st e = ChildAgain rt) ∧
  (∀ e rt, st e = ChildAgain rt →
     cr_child rt = e ∧ (cr_attempt rt <= retries)%Z ∧
     ∃ child, latestAttempt kids e retries = Some (child, (cr_attempt rt - 1)%Z) ∧
       IsTerminalPhase (run_phase child) = true ∧ ChildNeedsRetry (run_phase child) negative = true).
Proof.
  intros st. unfold gatherOutcomes. rewrite gather_loop_spec. fold st. cbn [app andb].
  assert (Hall : forallb (fun e => match st e with ChildDone _ => true | _ => false end) expected = true ↔
    ∀ e, e ∈ expected → ∃ o, st e = ChildDone o).
  { rewrite forallb_forall. setoid_rewrite <- list_elem_of_In.
    split; intros H e He; specialize (H e He); destruct (st e); naive_solver. }
  assert (Hagain : ∀ e rt, st e = ChildAgain rt →
     cr_child rt = e ∧ (cr_attempt rt <= retries)%Z ∧
     ∃ child, latestAttempt kids e retries = Some (child, (cr_attempt rt - 1)%Z) ∧
       IsTerminalPhase (run_phase child) = true ∧ ChildNeedsRetry (run_phase child) negative = true).
  { intros e rt. unfold st, child_state. destruct (latestAttempt kids e retries) as [[c n]|]; [|done].
    destruct (IsTerminalPhase (run_phase c)) eqn:Et; cbn [negb]; [|done].
    destruct (n <? retries)%Z eqn:En; cbn [andb]; [|done].
    destruct (ChildNeedsRetry (run_phase c) negative) eqn:Er; [|done]. intros [= <-]. cbn. breflect.
    split_and!; [done|lia|]. exists c. split_and!; [|done..]. do 2 f_equal. lia. }
  destruct (forallb _ expected) eqn:Ef.
  - split_and!; [done| |done|done]. intros _. split; [done|]. pose proof (proj1 Hall eq_refl) as H. clear -H.
    induction expected as [|e es IH]; [done|]. cbn. destruct (H e) as [o Ho]; [set_solver|]. rewrite Ho. cbn.
    f_equal. apply IH. intros. apply H. set_solver.
  - split_and!; [|done| |done].
    + split; [done|]. intros H. by apply Hall in H.
    + intros _. split; [done|]. intros rt. rewrite list_elem_of_omap. split; intros (e & He & Hst); exists e; split; try done.
      * destruct (st e); naive_solver.
      * by rewrite Hst.
Qed.

(** ** The parallelism cap *)

Definition is_create_run (e : event Op) : bool := match e with Ev (CreateRun _) _ => true | _ => false end.

(** Creations left. *)
Definition budget : monitor Op Z := fun R left o =>
  match o with
  | CreateRun _ => if (0 <? left)%Z then Some (fun _ => left - 1)%Z else None
  | _ => Some (fun _ => left)
  end.

Lemma watch_budget left tr left' :
  (0 <= left)%Z → watch budget left tr = Some left' → (Z.of_nat (countb is_create_run tr) = left - left' ∧ 0 <= left')%Z.
Proof.
  revert left. induction tr as [|[R o r] tr IH]; intros left Hl; cbn [watch].
  { intros [= <-]. cbn. lia. }
  unfold countb. cbn [List.filter]. fold (countb is_create_run tr).
  destruct o; cbn [budget is_create_run];
    try (intros H; apply IH in H; [unfold countb in *; lia|done]).
  destruct (Z.ltb_spec 0 left); [|done]. intros Hw. apply IH in Hw; [|lia]. cbn [length]. unfold countb in *. lia.
Qed.

Section Cap.
Context `{!Components} (cfg : Config).

Lemma ensure_loop_budget parent i kids retries cap inFlight expected :
  guards budget (Z.max 0 (cap - inFlight)) (ensure_loop parent i kids retries cap inFlight expected) (fun _ _ => True).
Proof.
  revert inFlight. induction expected as [|e es IH]; intros inFlight; cbn [ensure_loop]; [done|].
  destruct (Z.leb_spec cap inFlight); [done|]. destruct (latestAttempt kids e retries); [apply IH|].
  unfold createChild. apply guards_bind. eapply guards_perform_bind.
  { cbn [budget]. destruct (Z.ltb_spec 0 (Z.max 0 (cap - inFlight))); [done|lia]. }
  specialize (IH (inFlight + 1)%Z).
  replace (Z.max 0 (cap - inFlight) - 1)%Z with (Z.max 0 (cap - (inFlight + 1)))%Z by lia.
  intros [err|]; [|exact IH]. case_match; [exact IH|done].
Qed.

(** [execute.parallelism]: creating a step's children never takes the number in
    flight above the cap (all of them when it is 0): whatever the environment
    answers, at most cap minus in-flight children are created. *)
Theorem ensureStepChildren_cap parent i step kids expected ex tr r :
  s_Execute step = Some ex →
  exec (ensureStepChildren parent i step kids expected) tr r →
  (Z.of_nat (countb is_create_run tr) <= Z.max 0 (step_cap ex expected - in_flight kids))%Z.
Proof.
  intros Hex He. set (b := Z.max 0 (step_cap ex expected - in_flight kids)).
  assert (Hc : guards budget b (ensure_children parent i step kids expected) (fun _ _ => True)).
  { unfold ensure_children. rewrite Hex. apply ensure_loop_budget. }
  assert (Hg : guards budget b (ensureStepChildren parent i step kids expected) (fun _ _ => True)).
  { unfold ensureStepChildren. destruct (s_Delay step) as [d|]; [|done].
    destruct (st_StartedAt _); [|done]. destruct (0 <? d)%Z; [|done].
    eapply guards_perform_bind; [done|intros now]. by case_match. }
  destruct (guards_sound _ _ _ _ _ _ Hg He) as (left' & Hw & _). apply watch_budget in Hw; lia.
Qed.

End Cap.

Definition demo_capped : StepExecute := mkExecute 1 [mkExecTest "api" 2 ∅].
Definition demo_retry_step : Step := mkStep "load" "" false false (Some (mkRetry 1 "")) None None (Some demo_capped).

Lemma ensureStepChildren_cap_witness :
  s_Execute demo_retry_step = Some demo_capped ∧
  (Z.of_nat (countb is_create_run (Effects.run (answer None) (ensureStepChildren demo_composite 0 demo_retry_step []
     (expectedChildren demo_composite demo_retry_step 0)) tt).2) <= 1)%Z.
Proof.
  split; [reflexivity|].
  exact (ensureStepChildren_cap demo_composite 0 demo_retry_step [] _ demo_capped _ _ eq_refl
    (run_exec (answer None) (ensureStepChildren demo_composite 0 demo_retry_step []
       (expectedChildren demo_composite demo_retry_step 0)) tt)).
Defined.

Definition failed_child (e : expectedChild) : TestRun :=
  upd_status (set_Phase PhaseFailed) (child_object demo_composite 0 e 0).

Definition demo_retry_run : TestRun :=
  upd_status (set_ResolvedSpec (SnapshotOf
    (mkTestSpec (mkContent None [] [] []) zeroContainer [] None ∅ None None None "" ∅ None "" None None None
       [demo_retry_step]))) demo_composite.

Definition answer_kids (kids : list TestRun) : ∀ R, Op R → unit → R * unit := fun R o w =>
  match o in Op R return R * unit with
  | ListChildren _ _ _ => (Ok kids, w)
  | o => answer None _ o w
  end.

(** The retries of failed children are not held to the cap: a step with
    parallelism 1 whose two children failed gets both next tries at once. *)
Theorem retries_exceed_parallelism :
  let kids := failed_child <$> expectedChildren demo_retry_run demo_retry_step 0 in
  let tr := (Effects.run (answer_kids kids) (reconcileComposite (H := demo_components) demo_config demo_retry_run) tt).2 in
  se_Parallelism demo_capped = 1%Z ∧ countb is_create_run tr = 2.
Proof. vm_compute. done. Qed.

End CompositeSpec.
