(* ===== verification/Services.v ===== *)
(** * internal/controller/services.go: the services of a run

    Before the test's Job, the run's [spec.services] are started and waited
    for. *)
From S2P Require Import Prelude Api GoLib Keys Phases Effects Ops Compiler Lifecycle.

Module Services.
Export Lifecycle.

Definition servicePoll : duration := (2 * second)%Z.

(** [slices.Compact]: equal neighbours once. *)
Fixpoint Compact (xs : list string) : list string :=
  match xs with
  | x :: (y :: _) as tl => if (x =? y)%string then Compact tl else x :: Compact tl
  | _ => xs
  end.

Definition waiting_message (waiting : list string) : string :=
  "waiting for services: " +:+ str_join ", " (Compact (str_sort waiting)).

Section Reconciler.
Context `{!Components} (cfg : Config).
Abbreviation M := (prog Op).

Definition tailServiceLogs (run : TestRun) (services : gmap string ServiceSpec) (service : string) (pod : Pod) : M unit :=
  if negb (cf_LogRegistry cfg) || negb (serviceLogs services service) || negb (p_Phase pod =? "Running")%string then Ret tt
  else
    _ ← perform (EnsureTailer (serviceTailerID run (p_Name pod))
                   (Keys.Service (Keys.ForRun (run_ns run) (run_uid run)) (p_Name pod)) (p_Namespace pod) (p_Name pod));
    Ret tt.

(** A result to return as is. *)
Definition Stop : Type := TestRun * result error Result.

Fixpoint create_services (run : TestRun) (svcs : list Object) : M (option error) :=
  match svcs with
  | [] => Ret None
  | svc :: svcs =>
      e ← perform (CreateObject svc);
      match e with
      | Some e =>
          if is_kind EAlreadyExists e then create_services run svcs
          else Ret (Some (wrapf ("create service " +:+ k_Name (ob_Key svc)) e))
      | None => create_services run svcs
      end
  end.

(** One replica: created, failed, waited for, or ready.  The state is the list
    of services still waited for. *)
Definition check_replica (run : TestRun) (services : gmap string ServiceSpec) (now : time) (rep : ServiceReplica)
    (waiting : list string) : M (Stop + list string) :=
  p ← perform (GetPod (ob_Key (sp_Pod rep)));
  match p with
  | Err e =>
      if is_kind ENotFound e then
        c ← perform (CreateObject (sp_Pod rep));
        match c with
        | Some e =>
            if is_kind EAlreadyExists e then Ret (inr (waiting ++ [sp_Service rep]))
            else Ret (inl (run, Err (wrapf ("create service pod " +:+ k_Name (ob_Key (sp_Pod rep))) e)))
        | None => Ret (inr (waiting ++ [sp_Service rep]))
        end
      else Ret (inl (run, Err e))
  | Ok pod =>
      let msg := serviceFailure pod now (unschedulableTimeout cfg) in
      if negb (str_is_empty msg) then
        r ← transitionTerminal cfg run PhaseError ReasonServiceNotReady
              ("service " +:+ sp_Service rep +:+ " (" +:+ p_Name pod +:+ "): " +:+ msg);
        Ret (inl r)
      else
        _ ← tailServiceLogs run services (sp_Service rep) pod;
        if podReady pod then Ret (inr waiting)
        else
          let timeout := serviceTimeout services (sp_Service rep) in
          if (timeout <? time_sub now (p_CreationTimestamp pod))%Z then
            r ← transitionTerminal cfg run PhaseError ReasonServiceNotReady
                  ("service " +:+ sp_Service rep +:+ ": replica " +:+ p_Name pod +:+ " not ready after "
                   +:+ Duration_String timeout);
            Ret (inl r)
          else Ret (inr (waiting ++ [sp_Service rep]))
  end.

(** [inl]: return this (the code's done=true); [inr]: every replica is ready. *)
Definition ensureServices (run : TestRun) (test : Test) : M (Stop + unit) :=
  match Compiler.CompileServices test run with
  | Err e => r ← transitionTerminal cfg run PhaseError ReasonCompileError (e_Text e); Ret (inl r)
  | Ok compiled =>
      e ← create_services run (cp_Services compiled);
      match e with
      | Some e => Ret (inl (run, Err e))
      | None =>
          now ← perform Now;
          w ← for_state (cp_Replicas compiled) [] (check_replica run (ts_Services (t_Spec test)) now);
          match w with
          | inl r => Ret (inl r)
          | inr [] => Ret (inr tt)
          | inr waiting =>
              let msg := waiting_message waiting in
              if negb (st_Message (r_Status run) =? msg)%string then
                let run := upd_status (set_Message msg) run in
                e ← perform (UpdateStatus run);
                match e with
                | Some e => Ret (inl (run, Err e))
                | None => Ret (inl (run, Ok (requeue_after servicePoll)))
                end
              else Ret (inl (run, Ok (requeue_after servicePoll)))
          end
      end
  end.

End Reconciler.
End Services.
