(* ===== verification/Parallel.v ===== *)
(** * internal/controller/parallel.go: parallel runs

    A parallel run has one Job per worker.  Each worker's verdict is kept in
    status.steps["worker-<i>"]; the run ends with their aggregate.  A finished
    worker's Job is deleted only once its verdict is persisted. *)
From S2P Require Import Prelude Api GoLib Keys Phases Stages Workers Effects Ops Compiler Lifecycle Services Composite.

Module Parallel.
Export Lifecycle.
Import Services Composite.

Definition parallelPoll : duration := (5 * second)%Z.
Definition WorkerStepKey (i : Z) : string := "worker-" +:+ itoa i.

(** ** [statusEqual]: the JSON texts are the same; times are written to the second *)

Definition json_time (t : option time) : option time := (fun t => t / second)%Z <$> t.
Definition json_stage (s : Stage) : Stage :=
  mkStage (sg_Kind s) (sg_Name s) (sg_Phase s) (json_time (sg_StartedAt s)) (json_time (sg_FinishedAt s)) (sg_Message s).
Definition json_step (s : StepResult) : StepResult :=
  mkStepResult (sr_Phase s) (json_time (sr_QueuedAt s)) (json_time (sr_StartedAt s)) (json_time (sr_FinishedAt s))
    (sr_Message s) (json_stage <$> sr_Stages s) (sr_Params s) (sr_PodIP s).
Definition json_status (s : TestRunStatus) : TestRunStatus :=
  set_QueuedAt (json_time (st_QueuedAt s)) (set_StartedAt (json_time (st_StartedAt s))
    (set_FinishedAt (json_time (st_FinishedAt s)) (set_Stages (json_stage <$> st_Stages s)
      (set_Steps (json_step <$> st_Steps s) s)))).
Definition statusEqual (a b : TestRunStatus) : bool := bool_decide (json_status a = json_status b).

(** ** A worker's verdict *)

Definition add_counts (a b : TestCounts) : TestCounts :=
  mkTestCounts (tc_Total a + tc_Total b) (tc_Passed a + tc_Passed b) (tc_Failed a + tc_Failed b) (tc_Skipped a + tc_Skipped b).
Definition zeroCounts : TestCounts := mkTestCounts 0 0 0 0.

Definition worker_artifact (i : Z) (a : ArtifactRef) : ArtifactRef :=
  mkArtifactRef ("workers/" +:+ itoa i +:+ "/artifacts/" +:+ ar_Path a) (ar_Key a) (ar_SizeBytes a) (ar_ContentType a).

(** [finishWorker] at time [now]. *)
Definition finish_worker (run : TestRun) (i : Z) (res : RunResult) (now : time) : TestRun :=
  let key := WorkerStepKey i in
  let step := get_step run key in
  let stages := if (0 <? length (sr_Stages step))%nat
                then finishStages (sr_Stages step) (res_Phase res) (res_ErrorMessage res) now
                else sr_Stages step in
  let started := match sr_StartedAt step with None => Some now | t => t end in
  let step := mkStepResult (res_Phase res) (sr_QueuedAt step) started (Some now) (res_ErrorMessage res) stages
                (sr_Params step) "" in
  upd_status (fun s =>
    let s := match st_Content s with None => set_Content (res_Content res) s | Some _ => s end in
    let s := match res_TestCounts res with
             | Some tc => set_TestCounts (Some (add_counts (default zeroCounts (st_TestCounts s)) tc)) s
             | None => s
             end in
    set_ArtifactRefs (st_ArtifactRefs s ++ (worker_artifact i <$> res_Artifacts res)) s)
    (set_step key step run).

Definition count_phase (run : TestRun) (n : nat) (f : Phase → bool) : Z :=
  Z.of_nat (countb (fun i => f (sr_Phase (get_step run (WorkerStepKey (Z.of_nat i))))) (seq 0 n)).

Definition aggregateWorkers (run : TestRun) (n : nat) : Phase * string :=
  let errs := count_phase run n (fun p => phase_eqb p PhaseError) in
  let fails := count_phase run n (fun p => phase_eqb p PhaseFailed || phase_eqb p PhaseAborted) in
  let total := itoa (Z.of_nat n) in
  if (0 <? errs)%Z then
    (PhaseError, itoa errs +:+ " of " +:+ total +:+ " workers errored, " +:+ itoa fails +:+ " failed")
  else if (0 <? fails)%Z then (PhaseFailed, itoa fails +:+ " of " +:+ total +:+ " workers failed")
  else (PhasePassed, "all " +:+ total +:+ " workers passed").

(** [workerStages] *)
Definition workerStages (run : TestRun) (step : StepResult) (pod : option Pod) (result : option RunResult) : list Stage :=
  deriveStages
    (mkInputs (sr_QueuedAt step) pod (fetchNameOf run) (toolOf pod)
       (result ≫= res_ToolFinishedAt) (match result with Some r => res_Phase r | None => PhaseNone end)).

Section Reconciler.
Context `{!Components} (cfg : Config).
Abbreviation M := (prog Op).

Definition finishWorker (run : TestRun) (i : Z) (res : RunResult) : M TestRun :=
  now ← perform Now; Ret (finish_worker run i res now).

Definition endWorker (run : TestRun) (i : Z) (res : RunResult) : M TestRun :=
  run' ← finishWorker run i res;
  _ ← stop_worker_tailers cfg run i;
  Ret run'.

(** Result, or the transient error to return. *)
Definition workerResult (run : TestRun) (i : Z) (job : Job) (pod : option Pod) : M (result error RunResult) :=
  r ← (if cf_WorkerResultReader cfg then ReadWorker run i
       else Ret (Err (mkError EResultNotFound "result: not found")));
  match r with
  | Ok result => Ret (Ok result)
  | Err e =>
      if is_kind EResultMalformed e then Ret (Ok (plain_result PhaseError (ReasonMalformedResult +:+ ": " +:+ e_Text e)))
      else if is_kind EResultNotFound e then
        match ResultFromTermination pod with
        | Some res => Ret (Ok res)
        | None =>
            let '(phase, reason, msg) := FallbackPhaseFromJobFailure (Some job) pod in
            Ret (Ok (plain_result phase (reason +:+ ": " +:+ msg)))
        end
      else Ret (Err e)
  end.

Fixpoint create_objects (prefix : Object → string) (objs : list Object) : M (option error) :=
  match objs with
  | [] => Ret None
  | o :: os =>
      e ← perform (CreateObject o);
      match e with
      | Some e => if is_kind EAlreadyExists e then create_objects prefix os else Ret (Some (wrapf (prefix o) e))
      | None => create_objects prefix os
      end
  end.

(** What a created worker's step starts as. *)
Definition created_step (run : TestRun) (w : Worker) (now : time) : StepResult :=
  let params := w_Shard w ∪ w_Matrix w in
  let step := mkStepResult PhaseQueued (Some now) None None "" [] params "" in
  with_sr_Stages (workerStages run step None None) step.

Definition createWorker (run : TestRun) (test : Test) (w : Worker) : M (result error TestRun) :=
  match Compiler.CompileWorker test run (cf_CompilerOpts cfg) w with
  | Err e => run ← finishWorker run (w_Index w) (plain_result PhaseError (ReasonCompileError +:+ ": " +:+ e_Text e)); Ret (Ok run)
  | Ok (job, aux) =>
      a ← create_objects (fun o => "create worker " +:+ itoa (w_Index w) +:+ " aux *v1." +:+ ob_Kind o) aux;
      match a with
      | Some e => Ret (Err e)
      | None =>
          c ← perform (CreateJob job);
          match c with
          | Some e =>
              if is_kind EAlreadyExists e then
                now ← perform Now;
                Ret (Ok (set_step (WorkerStepKey (w_Index w)) (created_step run w now) run))
              else if is_kind EInvalid e then
                run ← finishWorker run (w_Index w)
                        (plain_result PhaseError (ReasonCompileError +:+ ": Job rejected by the API server: " +:+ e_Text e));
                Ret (Ok run)
              else Ret (Err (wrapf ("create worker " +:+ itoa (w_Index w) +:+ " Job") e))
          | None =>
              now ← perform Now;
              Ret (Ok (set_step (WorkerStepKey (w_Index w)) (created_step run w now) run))
          end
      end
  end.

(** The outcome of [reconcileWorker]: the run, finished, the Job to delete once
    the verdict is persisted. *)
Definition WorkerOutcome : Type := TestRun * bool * option Job.

(** The pod runs: its log is tailed and its start and address recorded. *)
Definition worker_running (run : TestRun) (i : Z) (step : StepResult) (pod : Pod) : M TestRun :=
  _ ← when (cf_LogRegistry cfg)
        (_ ← perform (EnsureTailer (workerTailerID run i)
                        (Keys.Worker (Keys.ForRun (run_ns run) (run_uid run)) i) (p_Namespace pod) (p_Name pod));
         Ret tt);
  sr ← (if negb (phase_eqb (sr_Phase step) PhaseRunning) then
          now ← perform Now;
          let step := with_sr_StartedAt (Some now) (with_sr_Phase PhaseRunning step) in
          Ret (step, set_step (WorkerStepKey i) step run)
        else Ret (step, run));
  let '(step, run) := sr in
  if negb (str_is_empty (p_PodIP pod)) && negb (p_PodIP pod =? sr_PodIP step)%string then
    Ret (set_step (WorkerStepKey i) (with_sr_PodIP (p_PodIP pod) step) run)
  else Ret run.

(** The worker's Job exists. *)
Definition observe_worker (run : TestRun) (w : Worker) (step : StepResult) (job : Job) : M (result error WorkerOutcome) :=
  let key := WorkerStepKey (w_Index w) in
  pod ← findPodForJob job;
  _ ← ensureFetchTailer cfg run pod (workerFetchTailerID run (w_Index w))
        (Keys.Stage (Keys.Worker (Keys.ForRun (run_ns run) (run_uid run)) (w_Index w)) "fetch");
  let '(step, run) :=
    match pod with
    | Some _ =>
        let stages := workerStages run step pod None in
        if negb (sameStages stages (sr_Stages step)) then
          let step := with_sr_Stages stages step in (step, set_step key step run)
        else (step, run)
    | None => (step, run)
    end in
  now ← perform Now;
  let infra := AnalyzePod pod now (unschedulableTimeout cfg) in
  if negb (str_is_empty (if_Reason infra)) then
    run ← endWorker run (w_Index w) (plain_result PhaseError (if_Reason infra +:+ ": " +:+ if_Message infra));
    Ret (Ok (run, true, Some job))
  else
    match InspectJob (Some job) with
    | JobSucceeded | JobFailedConclusion =>
        r ← workerResult run (w_Index w) job pod;
        match r with
        | Err e => Ret (Err e)
        | Ok result =>
            let step := with_sr_Stages (workerStages run step pod (Some result)) step in
            run ← endWorker (set_step key step run) (w_Index w) result;
            Ret (Ok (run, true, Some job))
        end
    | JobStillRunning =>
        if IsPodRunning pod then
          match pod with
          | Some p => run ← worker_running run (w_Index w) step p; Ret (Ok (run, false, None))
          | None => Ret (Ok (run, false, None))
          end
        else Ret (Ok (run, false, None))
    end.

Definition reconcileWorker (run : TestRun) (test : Test) (w : Worker) : M (result error WorkerOutcome) :=
  let step := get_step run (WorkerStepKey (w_Index w)) in
  if IsTerminalPhase (sr_Phase step) then Ret (Ok (run, true, None))
  else
    let key := mkKey (run_ns run) (WorkerJobName run (w_Index w)) in
    j ← perform (GetJob false key);
    match j with
    | Ok job => observe_worker run w step job
    | Err e =>
        if is_kind ENotFound e then
          if negb (phase_eqb (sr_Phase step) PhaseNone) then
            lag ← (if cf_APIReader cfg then live ← perform (GetJob true key); Ret (is_ok live) else Ret false);
            if (lag : bool) then Ret (Ok (run, false, None))
            else
              run ← finishWorker run (w_Index w)
                      (plain_result PhaseError (ReasonOrphanJobMissing +:+ ": worker Job was deleted before it finished"));
              Ret (Ok (run, true, None))
          else
            c ← createWorker run test w;
            match c with Ok run => Ret (Ok (run, false, None)) | Err e => Ret (Err e) end
        else Ret (Err e)
    end.

Definition deleteWorkerJobs (jobs : list Job) : M unit :=
  for_each jobs (fun job => _ ← deleteJobBackground job; Ret tt).

(** The loop over the workers: run, finished workers, Jobs to delete. *)
Definition Round : Type := TestRun * nat * list Job.

Definition worker_round (test : Test) (w : Worker) (st : Round) : M ((TestRun * error) + Round) :=
  let '(run, done, jobs) := st in
  r ← reconcileWorker run test w;
  match r with
  | Err e => Ret (inl (run, e))
  | Ok (run, finished, job) =>
      Ret (inr (run, if (finished : bool) then S done else done, jobs ++ option_list job))
  end.

(** Past the services: the workers, then the run's own status. *)
Definition run_workers (run : TestRun) (spec : TestSpec) (test : Test) : M (TestRun * result error Result) :=
  let before := r_Status run in
  let workers := ParallelWorkers (ts_Parallel spec) in
  r ← for_state workers (run, 0, []) (worker_round test);
  match r with
  | inl (run, e) => Ret (run, Err e)
  | inr (run, done, finishedJobs) =>
      run ← (if phase_eqb (run_phase run) PhaseRunning then Ret run
             else
               let run := upd_status (fun s => set_Message "" (set_Phase PhaseRunning s)) run in
               match st_StartedAt (r_Status run) with
               | None => now ← perform Now; Ret (upd_status (set_StartedAt (Some now)) run)
               | Some _ => Ret run
               end);
      if (done <? length workers)%nat then
        e ← (if statusEqual before (r_Status run) then Ret None else perform (UpdateStatus run));
        match e with
        | Some e => Ret (run, Err e)
        | None =>
            _ ← deleteWorkerJobs finishedJobs;
            Ret (run, Ok (requeue_after parallelPoll))
        end
      else
        let '(phase, msg) := aggregateWorkers run (length workers) in
        '(run, res) ← terminalAndDeleteJob cfg run phase "" msg None;
        _ ← deleteWorkerJobs (if is_ok res then finishedJobs else []);
        Ret (run, res)
  end.

Definition reconcileParallel (run : TestRun) : M (TestRun * result error Result) :=
  match resolvedSpecOf run with
  | None =>
      transitionTerminal cfg run PhaseError ReasonCompileError
        ("resolvedSpec unmarshal: " +:+ unmarshalError (st_ResolvedSpec (r_Status run)))
  | Some spec =>
      let test := testForCompile run spec in
      if bool_decide (ts_Services spec = ∅) then run_workers run spec test
      else
        s ← ensureServices cfg run test;
        match s with
        | inl r => Ret r
        | inr tt => run_workers run spec test
        end
  end.

End Reconciler.
End Parallel.
