(* ===== verification/ParallelSpec.v ===== *)
(** * Parallel runs: verdicts before Jobs

    The aggregate of the workers' verdicts, and the rule that a worker's Job is
    deleted only once a status with that worker's final verdict has been
    written. *)
From S2P Require Import Prelude Api GoLib Keys Names Phases Stages Workers Effects Ops Compiler Lifecycle Services Composite CompositeSpec Parallel.

Module ParallelSpec.
Import Parallel Services Composite CompositeSpec.

(** ** The aggregate *)

Definition worker_phase (run : TestRun) (i : nat) : Phase := sr_Phase (get_step run (WorkerStepKey (Z.of_nat i))).

Lemma count_phase_pos run n f :
  (0 < count_phase run n f)%Z ↔ ∃ i, i < n ∧ f (worker_phase run i) = true.
Proof.
  unfold count_phase. set (g := fun i => f (sr_Phase (get_step run (WorkerStepKey (Z.of_nat i))))).
  destruct (decide (countb g (seq 0 n) = 0)) as [E|E].
  - split; [lia|]. intros (i & Hi & Hf). apply countb_zero in E. rewrite Forall_forall in E.
    specialize (E i). rewrite elem_of_seq in E. unfold g in E. unfold worker_phase in Hf. rewrite Hf in E. lia.
  - split; [intros _|lia]. rewrite countb_zero in E. apply not_Forall_Exists in E; [|intros; apply _].
    apply Exists_exists in E as (i & Hi%elem_of_seq & Hf). exists i. split; [lia|].
    by apply not_false_iff_true in Hf.
Qed.

(** A parallel run ends errored when some worker errored; failed when none
    errored and some failed or was aborted; passed when every worker is free of
    error, failure and abort. *)
Theorem aggregateWorkers_spec run n :
  ((aggregateWorkers run n).1 = PhaseError ↔ ∃ i, i < n ∧ worker_phase run i = PhaseError) ∧
  ((aggregateWorkers run n).1 = PhaseFailed ↔
     (∀ i, i < n → worker_phase run i ≠ PhaseError) ∧
     ∃ i, i < n ∧ (worker_phase run i = PhaseFailed ∨ worker_phase run i = PhaseAborted)) ∧
  ((aggregateWorkers run n).1 = PhasePassed ↔
     ∀ i, i < n → worker_phase run i ≠ PhaseError ∧ worker_phase run i ≠ PhaseFailed ∧ worker_phase run i ≠ PhaseAborted).
Proof.
  unfold aggregateWorkers.
  set (ferr := fun p => phase_eqb p PhaseError). set (ffail := fun p => phase_eqb p PhaseFailed || phase_eqb p PhaseAborted).
  assert (Herr : ∀ i, ferr (worker_phase run i) = true ↔ worker_phase run i = PhaseError) by (intros; apply phase_eqb_eq).
  assert (Hfail : ∀ i, ffail (worker_phase run i) = true ↔ worker_phase run i = PhaseFailed ∨ worker_phase run i = PhaseAborted).
  { intros. unfold ffail. by rewrite orb_true_iff, !phase_eqb_eq. }
  pose proof (count_phase_pos run n ferr) as He. pose proof (count_phase_pos run n ffail) as Hf.
  setoid_rewrite Herr in He. setoid_rewrite Hfail in Hf.
  destruct (Z.ltb_spec 0 (count_phase run n ferr)) as [Hpos|Hno]; cbn [fst].
  - apply He in Hpos as (i & Hi & Hp). split_and!; [split; [eauto|done]| |].
    + split; [done|]. intros [H _]. by destruct (H i Hi).
    + split; [done|]. intros H. by destruct (H i Hi).
  - assert (Hn : ∀ i, i < n → worker_phase run i ≠ PhaseError).
    { intros i Hi Hp. assert (0 < count_phase run n ferr)%Z by (apply He; eauto). lia. }
    destruct (Z.ltb_spec 0 (count_phase run n ffail)) as [Hpos|Hno']; cbn [fst].
    + apply Hf in Hpos as (i & Hi & Hp). split_and!.
      * split; [done|]. intros (j & Hj & Hpj). by destruct (Hn j Hj).
      * split; [|done]. intros _. eauto.
      * split; [done|]. intros H. destruct (H i Hi) as (_ & ? & ?). naive_solver.
    + assert (Hn' : ∀ i, i < n → worker_phase run i ≠ PhaseFailed ∧ worker_phase run i ≠ PhaseAborted).
      { intros i Hi. split; intros Hp; assert (0 < count_phase run n ffail)%Z by (apply Hf; eauto); lia. }
      split_and!.
      * split; [done|]. intros (j & Hj & Hpj). by destruct (Hn j Hj).
      * split; [done|]. intros (_ & j & Hj & Hpj). destruct (Hn' j Hj). naive_solver.
      * split; [|done]. intros _ i Hi. split; [by apply Hn|by apply Hn'].
Qed.

(** ** What one worker's turn changes *)

Lemma WorkerStepKey_inj i j : WorkerStepKey i = WorkerStepKey j → i = j.
Proof. unfold WorkerStepKey. rewrite !str_app_cons, !str_app_nil. intros [= H]. by apply (inj pretty) in H. Qed.

(** [r] is [run] except for the step of worker [i]. *)
Definition only_worker (i : Z) (run r : TestRun) : Prop :=
  r_Meta r = r_Meta run ∧ ∀ j, j ≠ i → get_step r (WorkerStepKey j) = get_step run (WorkerStepKey j).

Lemma only_worker_refl i run : only_worker i run run.
Proof. done. Qed.

Lemma only_worker_set i run r sr : only_worker i run r → only_worker i run (set_step (WorkerStepKey i) sr r).
Proof.
  intros [Hm H]. split; [done|]. intros j Hj. rewrite get_set_step_ne; [by apply H|].
  intros E%WorkerStepKey_inj. congruence.
Qed.

Lemma only_worker_finish i run r res now : only_worker i run r → only_worker i run (finish_worker r i res now).
Proof.
  intros H. apply (only_worker_set i run r) with (sr := mkStepResult (res_Phase res)
    (sr_QueuedAt (get_step r (WorkerStepKey i)))
    (match sr_StartedAt (get_step r (WorkerStepKey i)) with None => Some now | t => t end) (Some now) (res_ErrorMessage res)
    (if (0 <? length (sr_Stages (get_step r (WorkerStepKey i))))%nat
     then finishStages (sr_Stages (get_step r (WorkerStepKey i))) (res_Phase res) (res_ErrorMessage res) now
     else sr_Stages (get_step r (WorkerStepKey i))) (sr_Params (get_step r (WorkerStepKey i))) "") in H.
  destruct H as [Hm Hs]. split; [exact Hm|]. intros j Hj. rewrite <- Hs by done.
  unfold finish_worker, get_step, set_step. cbn. repeat case_match; done.
Qed.

Lemma finish_worker_phase r i res now : sr_Phase (get_step (finish_worker r i res now) (WorkerStepKey i)) = res_Phase res.
Proof.
  unfold finish_worker, get_step, set_step. cbn.
  destruct (st_Content (r_Status r)), (res_TestCounts res); cbn; by rewrite lookup_insert_eq.
Qed.

Section Turn.
Context `{!Components} (cfg : Config) (run0 : TestRun) (n : nat).

Definition worker_key (i : nat) : Key := mkKey (run_ns run0) (WorkerJobName run0 (Z.of_nat i)).

(** Final verdicts are in [r] for the worker whose Job is [k]. *)
Definition verdict_in (r : TestRun) (k : Key) : bool :=
  existsb (fun i => bool_decide (k = worker_key i) && IsTerminalPhase (worker_phase r i)) (seq 0 n).

(** The last status written, unless the API server answered a read of a Job with
    another Job. *)
Inductive Ledger := Off | Written (r : option TestRun).

Definition ledger : monitor Op Ledger := fun R s o =>
  match s with
  | Off => Some (fun _ => Off)
  | Written p =>
      match o in Op R return option (R → Ledger) with
      | UpdateStatus r => Some (fun e => match e with None => Written (Some r) | Some _ => Written p end)
      | GetJob _ k => Some (fun resp => match resp with
                                        | Ok j => if bool_decide (job_key j = k) then Written p else Off
                                        | Err _ => Written p
                                        end)
      | DeleteJob k =>
          if match p with Some r => verdict_in r k | None => false end then Some (fun _ => Written p) else None
      | _ => Some (fun _ => Written p)
      end
  end.

Lemma ledger_quiet : ignores_quiet ledger.
Proof. intros R o [|p] Ho; [done|]. destruct o; cbn in *; try discriminate Ho; done. Qed.

Lemma ledger_off {A} (p : prog Op A) (Q : A → Ledger → Prop) : (∀ a, Q a Off) → guards ledger Off p Q.
Proof. intros HQ. induction p as [a|R o k IH]; cbn; [apply HQ|]. intros r. apply IH. Qed.

(** After a worker's turn: nothing was written; only that worker's step changed;
    a Job handed back is the worker's, whose verdict is now final. *)
Definition turn (i : nat) (run : TestRun) (p : option TestRun) (out : result error WorkerOutcome) (s : Ledger) : Prop :=
  s = Off ∨ s = Written p ∧
  match out with
  | Err _ => True
  | Ok (r, finished, job) =>
      only_worker (Z.of_nat i) run r ∧
      (∀ j, job = Some j → job_key j = worker_key i ∧ IsTerminalPhase (worker_phase r i) = true)
  end.

Lemma guards_ledger_quiet {A B} p (x : prog Op A) (f : A → prog Op B) Q :
  guards (only quiet) tt x (fun _ _ => True) → (∀ a, guards ledger (Written p) (f a) Q) →
  guards ledger (Written p) (x ≫= f) Q.
Proof. intros. by apply guards_quiet_seq; [apply ledger_quiet|..]. Qed.

Lemma create_objects_quiet prefix os : guards (only quiet) tt (create_objects prefix os) (fun _ _ => True).
Proof.
  induction os as [|o os IH]; cbn [create_objects]; [done|]. gstep. repeat case_match; done.
Qed.

Lemma createWorker_turn run test w i p :
  w_Index w = Z.of_nat i →
  guards ledger (Written p) (createWorker cfg run test w)
    (fun r s => s = Written p ∧ match r with Ok r => only_worker (Z.of_nat i) run r | Err _ => True end).
Proof.
  intros Hi. unfold createWorker, finishWorker. rewrite Hi.
  destruct (Compiler.CompileWorker test run (cf_CompilerOpts cfg) w) as [[job aux]|e].
  2: { apply guards_bind, guards_bind. gstep. cbn. split; [done|]. by apply only_worker_finish. }
  apply guards_ledger_quiet; [apply create_objects_quiet|]. intros [e|]; [done|].
  gstep. destruct r as [e|].
  - case_match; [gstep; cbn; split; [done|by apply only_worker_set]|].
    case_match; [|done]. apply guards_bind, guards_bind. gstep. cbn. split; [done|]. by apply only_worker_finish.
  - gstep. cbn. split; [done|]. by apply only_worker_set.
Qed.

Lemma endWorker_turn run r i res p :
  only_worker (Z.of_nat i) run r → IsTerminalPhase (res_Phase res) = true →
  guards ledger (Written p) (endWorker cfg r (Z.of_nat i) res)
    (fun r' s => s = Written p ∧ only_worker (Z.of_nat i) run r' ∧ IsTerminalPhase (worker_phase r' i) = true).
Proof.
  intros Ho Ht. unfold endWorker, finishWorker. apply guards_bind, guards_bind. gstep. cbn [guards].
  apply guards_ledger_quiet; [apply stop_tailers_quiet|intros _]. cbn [guards].
  split_and!; [done|by apply only_worker_finish|]. unfold worker_phase. by rewrite finish_worker_phase.
Qed.

Lemma workerResult_final run i job pod p :
  guards ledger (Written p) (workerResult cfg run i job pod)
    (fun r s => s = Written p ∧ match r with Ok res => IsTerminalPhase (res_Phase res) = true | Err _ => True end).
Proof.
  unfold workerResult.
  eapply guards_seq with (P := fun r s => s = Written p ∧ match r with Ok res => IsTerminalPhase (res_Phase res) = true | Err _ => True end).
  - destruct (cf_WorkerResultReader cfg); [|done]. unfold ReadWorker. gstep. cbn. split; [done|].
    unfold check_final. destruct r as [rr|]; [|done]. by destruct (IsTerminalPhase (res_Phase rr)) eqn:E.
  - intros [res|e] s [-> Hres]; [done|]. case_match; [done|]. case_match; [|done].
    destruct (ResultFromTermination pod) as [res|] eqn:E; cbn.
    + split; [done|]. unfold ResultFromTermination, ParseTerminationSummary in E. repeat case_match; naive_solver.
    + destruct (FallbackPhaseFromJobFailure (Some job) pod) as [[phase reason] msg] eqn:Ef. cbn. split; [done|].
      unfold FallbackPhaseFromJobFailure in Ef. destruct (existsb _ _); by simplify_eq.
Qed.

Lemma worker_running_turn run r i step pod p :
  only_worker (Z.of_nat i) run r →
  guards ledger (Written p) (worker_running cfg r (Z.of_nat i) step pod)
    (fun r' s => s = Written p ∧ only_worker (Z.of_nat i) run r').
Proof.
  intros Ho. unfold worker_running. apply guards_ledger_quiet; [apply when_quiet; repeat (gstep; try done)|intros _].
  apply guards_bind. destruct (negb (phase_eqb _ _)).
  - gstep. cbn [mbind prog_mbind prog_bind guards]. case_match; cbn; split; try done; repeat apply only_worker_set; done.
  - cbn [mbind prog_mbind prog_bind guards]. case_match; cbn; split; try done; by apply only_worker_set.
Qed.

Lemma observe_worker_turn run w i step job p :
  w_Index w = Z.of_nat i → job_key job = worker_key i →
  guards ledger (Written p) (observe_worker cfg run w step job) (turn i run p).
Proof.
  intros Hi Hj. unfold observe_worker. rewrite Hi.
  apply guards_ledger_quiet; [apply findPodForJob_quiet|intros pod].
  apply guards_ledger_quiet; [apply ensureFetchTailer_quiet|intros _].
  set (sr := match pod with Some _ => _ | None => _ end).
  assert (Hsr : only_worker (Z.of_nat i) run sr.2).
  { unfold sr. destruct pod; [case_match|]; cbn; [by apply only_worker_set|done..]. }
  destruct sr as [step' r]. cbn in Hsr. gstep.
  assert (Hend : ∀ r1 res, only_worker (Z.of_nat i) run r1 → IsTerminalPhase (res_Phase res) = true →
    guards ledger (Written p) (run ← endWorker cfg r1 (Z.of_nat i) res; Ret (Ok (run, true, Some job))) (turn i run p)).
  { intros r1 res Ho Ht. eapply guards_seq; [by apply (endWorker_turn run)|]. intros r' s (-> & Ho' & Ht'). cbn.
    right. split; [done|]. split; [done|]. by intros j [= <-]. }
  case_match; [by apply Hend|]. destruct (InspectJob (Some job)).
  - assert (Hno : ∀ r1, only_worker (Z.of_nat i) run r1 → turn i run p (Ok (r1, false, None)) (Written p)).
    { intros r1 Ho. right. split; [done|]. by split. }
    destruct (IsPodRunning pod); [|by apply Hno]. destruct pod as [pd|]; [|by apply Hno].
    eapply guards_seq; [by apply (worker_running_turn run)|]. intros r' s [-> Ho]. by apply Hno.
  - eapply guards_seq; [apply workerResult_final|]. intros [res|e] s [-> Ht]; [|by right].
    apply Hend; [by apply only_worker_set|done].
  - eapply guards_seq; [apply workerResult_final|]. intros [res|e] s [-> Ht]; [|by right].
    apply Hend; [by apply only_worker_set|done].
Qed.

Lemma reconcileWorker_turn run test w i p :
  r_Meta run = r_Meta run0 → w_Index w = Z.of_nat i →
  guards ledger (Written p) (reconcileWorker cfg run test w)
    (fun out s => turn i run p out s ∧
       (IsTerminalPhase (worker_phase run i) = true → match out with Ok (_, _, Some _) => False | _ => True end)).
Proof.
  intros Hm Hi. unfold reconcileWorker. rewrite Hi. fold (worker_phase run i).
  destruct (IsTerminalPhase (worker_phase run i)) eqn:Et; [split; [right; by split|done]|].
  eapply guards_mono with (Q := turn i run p); [|by intros ? ? ?; split].
  assert (Hkey : mkKey (run_ns run) (WorkerJobName run (Z.of_nat i)) = worker_key i).
  { unfold worker_key, run_ns, WorkerJobName, run_name. by rewrite Hm. }
  rewrite Hkey. eapply guards_perform_bind; [reflexivity|]. intros [job|e].
  - case_bool_decide as Hjk; [|apply ledger_off; by left]. by apply observe_worker_turn.
  - case_match; [|by right]. case_match.
    + apply guards_bind. destruct (cf_APIReader cfg).
      * eapply guards_perform_bind; [reflexivity|]. intros live.
        assert (Hlive : ∀ s, s = Written p ∨ s = Off → guards ledger s
          (if is_ok live then Ret (Ok (run, false, None)) else
           run ← finishWorker run (Z.of_nat i) (plain_result PhaseError (ReasonOrphanJobMissing +:+ ": worker Job was deleted before it finished"));
           Ret (Ok (run, true, None))) (turn i run p)).
        { intros s [->| ->]; [|apply ledger_off; by left]. destruct (is_ok live); [right; by split|].
          unfold finishWorker. apply guards_bind. gstep. cbn. right. split; [done|]. split; [by apply only_worker_finish|done]. }
        apply Hlive. destruct live as [j|]; [|by left]. case_bool_decide; [by left|by right].
      * cbn [mbind prog_mbind prog_bind]. unfold finishWorker. eapply guards_perform_bind; [reflexivity|].
        intros now. cbn. right. split; [done|]. split; [by apply only_worker_finish|done].
    + eapply guards_seq; [by apply createWorker_turn|]. intros [r|e'] s [-> Ho]; cbn; right; [|done].
      split; [done|]. by split.
Qed.

(** ** The round over the workers *)

(** Before worker [k]: nothing written; the steps from [k] on are as they were; the
    Jobs to delete are of workers that got their final verdict in this round. *)
Definition pending (k : nat) (run : TestRun) (jobs : list Job) : Prop :=
  Forall (fun j => ∃ i, i < k ∧ job_key j = worker_key i ∧
    IsTerminalPhase (worker_phase run i) = true ∧ IsTerminalPhase (worker_phase run0 i) = false) jobs.

Definition in_round (k : nat) (st : Round) (s : Ledger) : Prop :=
  s = Off ∨ s = Written None ∧
  let '(run, _, jobs) := st in
  r_Meta run = r_Meta run0 ∧
  (∀ i, k ≤ i → get_step run (WorkerStepKey (Z.of_nat i)) = get_step run0 (WorkerStepKey (Z.of_nat i))) ∧
  pending k run jobs.

Lemma pending_only i run r jobs :
  only_worker (Z.of_nat i) run r → pending i run jobs → pending (S i) r jobs.
Proof.
  intros [_ Ho] Hp. eapply Forall_impl; [exact Hp|]. intros j (i' & Hi & Hj & Ht & Hn).
  exists i'. split_and!; [lia|done| |done]. unfold worker_phase. rewrite Ho by lia. exact Ht.
Qed.

Lemma worker_round_ok test w k st s :
  w_Index w = Z.of_nat k → in_round k st s →
  guards ledger s (worker_round cfg test w st)
    (fun r s' => match r with inl _ => True | inr st' => in_round (S k) st' s' end).
Proof.
  destruct st as [[run done] jobs]. intros Hw [->|(-> & Hm & Hrest & Hp)].
  { apply ledger_off. intros [|st]; [done|by left]. }
  cbn [worker_round]. eapply guards_seq; [by apply (reconcileWorker_turn run test w k)|].
  intros out s [[->|[-> Hout]] Hnew]; [apply ledger_off; intros [|st]; [done|by left]|].
  destruct out as [[[r finished] job]|e]; [|done]. destruct Hout as [Ho Hj]. cbn [guards].
  right. split; [done|]. split_and!.
  - destruct Ho as [-> _]. done.
  - intros i Hi. destruct Ho as [_ Ho]. rewrite Ho by lia. apply Hrest. lia.
  - apply Forall_app. split; [by eapply pending_only|].
    destruct job as [j|]; cbn; [|constructor]. constructor; [|constructor].
    destruct (Hj j eq_refl) as [Hkey Ht]. exists k. split_and!; [lia|done..|].
    destruct (IsTerminalPhase (worker_phase run0 k)) eqn:E; [|done]. exfalso. apply Hnew.
    unfold worker_phase in *. by rewrite Hrest.
Qed.

Lemma rounds_ok test workers :
  (∀ k w, workers !! k = Some w → w_Index w = Z.of_nat k) →
  guards ledger (Written None) (for_state workers (run0, 0, []) (worker_round cfg test))
    (fun r s => match r with inl _ => True | inr st => in_round (length workers) st s end).
Proof.
  intros Hw. apply (guards_for_state_at ledger in_round (fun _ _ => True) workers _ _ _ 0).
  - right. split; [done|]. split_and!; [done|done|constructor].
  - intros k w st s Hk Hin. cbn [Nat.add] in *. rewrite Nat.add_1_r. apply worker_round_ok; [by apply Hw|done].
Qed.

Lemma deleteWorkerJobs_ok r jobs :
  Forall (fun j => verdict_in r (job_key j) = true) jobs →
  guards ledger (Written (Some r)) (deleteWorkerJobs jobs) (fun _ _ => True).
Proof.
  intros Hj. eapply guards_mono.
  - apply (guards_for_each ledger (fun s => s = Written (Some r))); [done|].
    intros j s Hin ->. unfold deleteJobBackground. apply guards_bind, guards_bind.
    eapply guards_perform_bind; [|done]. cbn. rewrite Forall_forall in Hj. by rewrite Hj.
  - done.
Qed.

Lemma pending_verdicts k run r jobs :
  k ≤ n → pending k run jobs → st_Steps (r_Status r) = st_Steps (r_Status run) →
  Forall (fun j => verdict_in r (job_key j) = true) jobs.
Proof.
  intros Hk Hp Hs. eapply Forall_impl; [exact Hp|]. intros j (i & Hi & -> & Ht & _).
  unfold verdict_in. apply existsb_elem. exists i. split; [apply elem_of_seq; lia|].
  rewrite bool_decide_eq_true_2 by done. unfold worker_phase, get_step in *. by rewrite Hs.
Qed.

(** A round that finished a worker changed the status. *)
Lemma json_steps s : st_Steps (json_status s) = json_step <$> st_Steps s.
Proof. reflexivity. Qed.

Lemma json_step_phase (a b : option StepResult) :
  json_step <$> a = json_step <$> b → sr_Phase (default zeroStepResult a) = sr_Phase (default zeroStepResult b).
Proof. destruct a, b; cbn; intros E; try done. by injection E. Qed.

Lemma statusEqual_steps a b i :
  statusEqual a b = true →
  sr_Phase (default zeroStepResult (st_Steps a !! i)) = sr_Phase (default zeroStepResult (st_Steps b !! i)).
Proof.
  unfold statusEqual. intros Heq%bool_decide_eq_true. apply json_step_phase. rewrite <- !lookup_fmap, <- !json_steps.
  by rewrite Heq.
Qed.

Lemma statusEqual_pending k run r jobs :
  pending k run jobs → st_Steps (r_Status r) = st_Steps (r_Status run) →
  statusEqual (r_Status run0) (r_Status r) = true → jobs = [].
Proof.
  intros Hp Hs Heq. destruct jobs as [|j jobs]; [done|].
  apply Forall_cons in Hp as [(i & _ & _ & Ht & Hn) _]. exfalso.
  apply (statusEqual_steps _ _ (WorkerStepKey (Z.of_nat i))) in Heq. rewrite Hs in Heq.
  unfold worker_phase, get_step in Ht, Hn. rewrite <- Heq in Ht. rewrite Ht in Hn. discriminate Hn.
Qed.

Lemma run_workers_ok spec test :
  n = length (ParallelWorkers (ts_Parallel spec)) →
  guards ledger (Written None) (run_workers cfg run0 spec test) (fun _ _ => True).
Proof.
  intros Hn. unfold run_workers. rewrite <- Hn. set (workers := ParallelWorkers (ts_Parallel spec)) in *.
  eapply guards_seq; [apply rounds_ok|].
  { unfold workers. intros k w Hk. destruct (ts_Parallel spec) as [p|]; [|done].
    apply ParallelWorkers_lookup in Hk as (c & _ & ->). done. }
  intros [[run e]|[[run nfin] jobs]] s; [done|]. rewrite <- Hn. intros [->|(-> & Hm & _ & Hp)]; [by apply ledger_off|].
  eapply (guards_seq _ _ _ _ (fun r s => s = Written None ∧ run_phase r = PhaseRunning ∧
    st_Steps (r_Status r) = st_Steps (r_Status run))).
  { destruct (phase_eqb (run_phase run) PhaseRunning) eqn:Ep; [by apply phase_eqb_eq in Ep|].
    case_match; [done|]. gstep. done. }
  intros r s (-> & Hph & Hs). pose proof (pending_verdicts n run r jobs (le_n n) Hp Hs) as Hv.
  destruct (nfin <? n)%nat.
  - destruct (statusEqual (r_Status run0) (r_Status r)) eqn:Eq; cbn [mbind prog_mbind].
    + rewrite (statusEqual_pending n run r jobs Hp Hs Eq). cbn. done.
    + eapply guards_perform_bind; [reflexivity|]. intros [e|]; [done|].
      eapply guards_seq; [by apply deleteWorkerJobs_ok|]. done.
  - destruct (aggregateWorkers r n) as [phase msg] eqn:Ea.
    assert (Ht : IsTerminalPhase phase = true).
    { unfold aggregateWorkers in Ea. repeat case_match; by simplify_eq. }
    eapply (guards_seq _ _ _ _ (fun x s => s = Off ∨ match x.2 with
      | Ok _ => ∃ r', s = Written (Some r') ∧ st_Steps (r_Status r') = st_Steps (r_Status run)
      | Err _ => True end)).
    + apply terminalAndDeleteJob_guards; [apply ledger_quiet|done|rewrite Hph; by intros <-|].
      intros now r'. eexists. split; [reflexivity|]. split; [by right|]. right. cbn. by exists r'.
    + intros [r' res] s [->|Hres]; [by apply ledger_off|]. cbn in Hres. destruct res as [res|e]; cbn [is_ok].
      * destruct Hres as (r'' & -> & Hs'). eapply guards_seq; [apply deleteWorkerJobs_ok|done].
        by eapply pending_verdicts.
      * cbn. done.
Qed.

Lemma transitionTerminal_ledger p run phase reason message :
  guards ledger (Written p) (transitionTerminal cfg run phase reason message) (fun _ _ => True).
Proof.
  destruct (IsTerminalPhase phase) eqn:Et; [|apply transitionTerminal_noop; auto].
  destruct (decide (run_phase run = phase)); [apply transitionTerminal_noop; auto|].
  apply transitionTerminal_guards; [apply ledger_quiet|done..|]. intros now. eexists. done.
Qed.

Lemma check_replica_ok run services now rep waiting :
  guards ledger (Written None) (check_replica cfg run services now rep waiting)
    (fun r s => match r with inl _ => True | inr _ => s = Written None end).
Proof.
  unfold check_replica. gstep. destruct r as [pod|e].
  - case_match.
    + eapply guards_seq; [apply transitionTerminal_ledger|done].
    + eapply (guards_ledger_quiet None).
      { unfold tailServiceLogs. case_match; [done|]. repeat (gstep; try done). }
      intros _. case_match; [done|]. case_match; [|done]. eapply guards_seq; [apply transitionTerminal_ledger|done].
  - case_match; [|done]. gstep. repeat case_match; done.
Qed.

Lemma ensureServices_ok run test :
  guards ledger (Written None) (ensureServices cfg run test)
    (fun r s => match r with inl _ => True | inr _ => s = Written None end).
Proof.
  unfold ensureServices. destruct (Compiler.CompileServices test run) as [compiled|e].
  2: { eapply guards_seq; [apply transitionTerminal_ledger|done]. }
  eapply (guards_ledger_quiet None).
  { induction (cp_Services compiled) as [|svc svcs IH]; cbn [create_services]; [done|]. gstep. repeat case_match; done. }
  intros [e|]; [done|]. gstep.
  eapply guards_seq; [apply (guards_for_state _ (fun _ s => s = Written None) (fun _ _ => True)); [done|]|].
  { intros rep waiting s _ ->. apply check_replica_ok. }
  intros [x|[|w ws]] s; [done|by intros ->|]. intros ->. case_match; [|done]. gstep. by case_match.
Qed.

End Turn.

(** ** The ledger in terms of the trace *)

Definition note_write (p : option TestRun) (e : event Op) : option TestRun :=
  match status_write e with [(r, None)] => Some r | _ => p end.

(** The last status written successfully. *)
Definition last_write (tr : list (event Op)) : option TestRun := foldl note_write None tr.

(** A read of a Job answers with that Job. *)
Definition honest (e : event Op) : Prop :=
  match e with
  | Ev o r => match o in Op R return R → Prop with
              | GetJob _ k => fun resp => match resp with Ok j => job_key j = k | Err _ => True end
              | _ => fun _ => True
              end r
  end.

Lemma watch_ledger run0 n p tr s :
  Forall honest tr → watch (ledger run0 n) (Written p) tr = Some s → s = Written (foldl note_write p tr).
Proof.
  intros Hh. revert p. induction Hh as [|[R o r] tr He _ IH]; intros p; cbn [watch foldl]; [congruence|].
  destruct o; cbn [ledger]; try (intros H; apply IH in H; exact H).
  - destruct r; intros H; apply IH in H; exact H.
  - destruct r as [j|e]; [|intros H; apply IH in H; exact H]. cbn in He. rewrite bool_decide_eq_true_2 by done.
    intros H; apply IH in H; exact H.
  - destruct (match p with Some r0 => verdict_in run0 n r0 k | None => false end); [|done].
    intros H; apply IH in H; exact H.
Qed.

Lemma watch_app {S} (δ : monitor Op S) s tr1 tr2 s' :
  watch δ s (tr1 ++ tr2) = Some s' → ∃ s1, watch δ s tr1 = Some s1 ∧ watch δ s1 tr2 = Some s'.
Proof.
  revert s. induction tr1 as [|[R o r] tr1 IH]; intros s; cbn; [eauto|]. destruct (δ R s o); [apply IH|done].
Qed.

(** In a parallel run no worker's verdict is lost with its Job: whatever the
    environment answers, whenever one reconcile deletes a Job, the last status it
    had successfully written by then holds a final verdict for the worker that Job
    belongs to (given that reads of Jobs answer with the Job asked for). *)
Theorem worker_Job_deleted_after_verdict `{!Components} cfg run0 spec tr out tr1 k e tr2 :
  resolvedSpecOf run0 = Some spec →
  exec (reconcileParallel cfg run0) tr out →
  tr = tr1 ++ Ev (DeleteJob k) e :: tr2 → Forall honest tr1 →
  ∃ r, last_write tr1 = Some r ∧
    ∃ i, i < length (ParallelWorkers (ts_Parallel spec)) ∧ k = worker_key run0 i ∧
      IsTerminalPhase (worker_phase r i) = true.
Proof.
  intros Hspec Hex -> Hh. set (n := length (ParallelWorkers (ts_Parallel spec))).
  assert (Hg : guards (ledger run0 n) (Written None) (reconcileParallel cfg run0) (fun _ _ => True)).
  { unfold reconcileParallel. rewrite Hspec. case_match; [by apply run_workers_ok|].
    eapply guards_seq; [apply ensureServices_ok|]. intros [x|[]] s; [done|]. intros ->. by apply run_workers_ok. }
  destruct (guards_sound _ _ _ _ _ _ Hg Hex) as (s' & Hw & _).
  apply watch_app in Hw as (s1 & H1 & H2). apply watch_ledger in H1 as ->; [|done].
  cbn [watch ledger] in H2. fold (last_write tr1) in H2. destruct (last_write tr1) as [r|]; [|done].
  destruct (verdict_in run0 n r k) eqn:Ev; [|done]. exists r. split; [done|].
  apply existsb_elem in Ev as (i & Hi%elem_of_seq & Hc). apply andb_prop in Hc as [Hk Ht].
  apply bool_decide_eq_true in Hk. exists i. split_and!; [lia|done..].
Qed.

(** ** A concrete round *)

Definition demo_parallel_spec : TestSpec :=
  mkTestSpec (mkContent None [] [] []) zeroContainer [] None ∅ None None None "" ∅
    (Some (mkParallel (Some 1%Z) None ∅ ∅)) "" None None None [].
Definition demo_parallel_run : TestRun :=
  mkTestRun (mkMeta "load-1" "ns" "u1" ∅ ∅ 1 None ["kubetest.io/testrun-finalizer"] [])
    (mkRunSpec "load" ∅ None ∅ "api" None None)
    (set_Steps {[ "worker-0" := with_sr_Phase PhaseRunning zeroStepResult ]}
       (set_Phase PhaseRunning (set_ResolvedSpec (SnapshotOf demo_parallel_spec) zeroStatus))).

(** Every Job read is complete. *)
Definition answer_complete : ∀ R, Op R → unit → R * unit := fun R o w =>
  match o in Op R return R * unit with
  | GetJob _ k => (Ok (mkJob (k_Name k) (k_Namespace k) ∅ [mkJobCond JobComplete ConditionTrue ""]), w)
  | o => answer None _ o w
  end.

Definition demo_round : TestRun * result error Result * unit * list (event Op) :=
  Effects.run answer_complete (reconcileParallel (H := demo_components) demo_config demo_parallel_run) tt.
Definition demo_before : list (event Op) := take (length demo_round.2 - 1) demo_round.2.

Lemma demo_round_split :
  demo_round.2 = demo_before ++ Ev (DeleteJob (worker_key demo_parallel_run 0)) None :: [].
Proof. vm_compute. reflexivity. Qed.

Lemma demo_before_honest : Forall honest demo_before.
Proof.
  vm_compute. repeat first [apply Forall_nil_2 | apply Forall_cons_2; [first [exact I|reflexivity]|]].
Qed.

Lemma worker_Job_deleted_after_verdict_witness :
  ∃ r, last_write demo_before = Some r ∧
    ∃ i, i < 1 ∧ worker_key demo_parallel_run 0 = worker_key demo_parallel_run i ∧ IsTerminalPhase (worker_phase r i) = true.
Proof.
  exact (worker_Job_deleted_after_verdict demo_config demo_parallel_run demo_parallel_spec demo_round.2 demo_round.1.1
    demo_before (worker_key demo_parallel_run 0) None [] eq_refl (run_exec answer_complete _ tt)
    demo_round_split demo_before_honest).
Defined.

End ParallelSpec.
