(* ===== verification/Reconciler.v ===== *)
(** * internal/controller/testrun_controller.go and testdata.go: the TestRun reconciler

    [reconcile] drives a TestRun through its state machine: finalizer, setup
    (resolution, policy, data checks, concurrency, snapshot), Job creation and
    observation, abort, expiry and deletion.  Composite and parallel runs are
    handed to their own files.  Every handler returns the run as it left it and
    its result; [reconcile] is what one event does. *)
From S2P Require Import Prelude PodPolicy Api GoLib Keys Composer Concurrency Phases Stages Effects Ops Resolver Compiler Lifecycle Services Composite Parallel Webhooks.

Module Reconciler.
Export Lifecycle.
Import Concurrency Services Composite Parallel.

Definition FinalizerName : string := "kubetest.io/testrun-finalizer".
Abbreviation LabelServiceOf := Compiler.LabelServiceOf.
Definition conflictRequeue : duration := (200 * millisecond)%Z.
Definition cacheLagRequeue : duration := (500 * millisecond)%Z.
Definition expireRetry : duration := minute.
Definition kindSecret : string := "Secret".
Definition kindConfigMap : string := "ConfigMap".

(** What every handler below returns. *)
Definition Out : Type := TestRun * result error Result.

(** ** Events *)

Definition hasRunIDLabelPredicate (labels : strmap) : bool :=
  bool_decide (is_Some (labels !! LabelRunID)) || bool_decide (is_Some (labels !! LabelServiceOf)).

(** Of a pod's namespace and labels. *)
Definition mapPodToTestRun (ns : string) (labels : strmap) : list Key :=
  let runID := label_of labels LabelRunID in
  let runID := if str_is_empty runID then label_of labels LabelServiceOf else runID in
  if str_is_empty runID then [] else [mkKey ns runID].

Definition requeueOnConflict (r : result error Result) : result error Result :=
  match r with
  | Err e => if is_kind EConflict e then Ok (requeue_after conflictRequeue) else Err e
  | Ok res => Ok res
  end.

(** ** Test data and volumes (testdata.go) *)

Record volumeRef := mkVolumeRef { vr_volume : string; vr_kind : string; vr_name : string; vr_keys : list string }.

Definition required (optional : option bool) : bool := match optional with Some b => negb b | None => true end.

(** A Secret or ConfigMap source that is set and not optional. *)
Definition required_source (s : option ObjectSource) : option ObjectSource :=
  s ≫= fun s => if required (os_Optional s) then Some s else None.

Definition source_ref (volume kind : string) (s : ObjectSource) : volumeRef :=
  mkVolumeRef volume kind (os_Name s) (ktp_Key <$> os_Items s).

Definition refs_of (volume kind : string) (s : option ObjectSource) : list volumeRef :=
  match required_source s with Some s => [source_ref volume kind s] | None => [] end.

Definition volume_refs (v : Volume) : list volumeRef :=
  let s := vol_Source v in
  match required_source (vs_Secret s), required_source (vs_ConfigMap s), vs_Projected s with
  | Some sec, _, _ => [source_ref (vol_Name v) kindSecret sec]
  | None, Some cm, _ => [source_ref (vol_Name v) kindConfigMap cm]
  | None, None, Some sources =>
      sources ≫= fun src =>
        refs_of (vol_Name v) kindSecret (ps_Secret src) ++ refs_of (vol_Name v) kindConfigMap (ps_ConfigMap src)
  | None, None, None => []
  end.

Definition volumeRefs (vols : list Volume) : list volumeRef := vols ≫= volume_refs.

Definition podVolumes (p : option PodConfig) : list Volume :=
  match p with Some p => default [] (pc_Volumes p) | None => [] end.

(** The volumes the pod will have: the TestRun's replace the Test's. *)
Definition setup_volumes (spec : TestSpec) (run : TestRun) : list Volume :=
  match rs_Pod (r_Spec run) ≫= pc_Volumes with
  | Some vols => vols
  | None => podVolumes (ts_Pod spec)
  end.

Definition at_index (i : nat) : string := "content.testData[" +:+ itoa (Z.of_nat i) +:+ "]".

Definition missing_key (keys wanted : list string) : option string :=
  find_first (fun k => negb (bool_decide (k ∈ keys))) wanted.

Section Reconciler.
Context `{!Components} (cfg : Config).
Abbreviation M := (prog Op).

Definition testDataErr (i : nat) (kind name ns : string) (e : error) : error :=
  if is_kind ENotFound e then
    mkError ENotFound (newNotFound kind
      (name +:+ " (" +:+ at_index i +:+ ": no " +:+ kind +:+ " " +:+ name +:+ " in namespace " +:+ ns +:+ ")"))
  else e.

Definition check_data_entry (ns : string) (id : nat * TestDataSource) : M (option error) :=
  let '(i, d) := id in
  let kind := if str_is_empty (td_Secret d) then kindConfigMap else kindSecret in
  let name := td_ConfigMap d +:+ td_Secret d in
  keys ← perform (GetDataKeys kind (cf_APIReader cfg) (mkKey ns name));
  Ret match keys with
      | Err e => Some (testDataErr i kind name ns e)
      | Ok keys =>
          match missing_key keys (tdi_Key <$> td_Items d) with
          | Some k => Some (mkError ETestDataKey (at_index i +:+ ": " +:+ kind +:+ " " +:+ name +:+ " has no key "
                              +:+ quote k +:+ ": key not found"))
          | None => None
          end
      end.

(** [for ... { if err := body(x); err != nil { return err } }; return nil] *)
Definition each_or_error {A} (xs : list A) (body : A → M (option error)) : M (option error) :=
  r ← for_state xs tt (fun x _ => e ← body x; Ret (match e with Some e => inl e | None => inr tt end));
  Ret (match r with inl e => Some e | inr _ => None end).

Definition checkTestData (ns : string) (entries : list TestDataSource) : M (option error) :=
  each_or_error (enumerate entries) (check_data_entry ns).

Definition check_volume (ns : string) (ref : volumeRef) : M (option error) :=
  keys ← perform (GetDataKeys (vr_kind ref) (cf_APIReader cfg) (mkKey ns (vr_name ref)));
  let prefix := "pod volume " +:+ vr_volume ref +:+ ": " in
  Ret match keys with
      | Err e =>
          if is_kind ENotFound e then
            Some (mkError EVolumeSource (prefix +:+ "no " +:+ vr_kind ref +:+ " " +:+ vr_name ref +:+ " in namespace "
                    +:+ ns +:+ ": volume source missing"))
          else Some e
      | Ok keys =>
          match missing_key keys (vr_keys ref) with
          | Some k => Some (mkError EVolumeSource (prefix +:+ vr_kind ref +:+ " " +:+ vr_name ref +:+ " has no key "
                              +:+ quote k +:+ ": volume source missing"))
          | None => None
          end
      end.

Definition checkPodVolumes (ns : string) (vols : list Volume) : M (option error) :=
  each_or_error (volumeRefs vols) (check_volume ns).

(** ** Setup *)

Definition write_status (run : TestRun) (res : Result) : M Out :=
  e ← perform (UpdateStatus run);
  Ret (run, match e with Some e => Err e | None => Ok res end).

(** [if run.Status.QueuedAt == nil { now := r.Now(); run.Status.QueuedAt = &now }] *)
Definition stamp_queued (run : TestRun) : M TestRun :=
  match st_QueuedAt (r_Status run) with
  | None => now ← perform Now; Ret (upd_status (set_QueuedAt (Some now)) run)
  | Some _ => Ret run
  end.

(** The queued status of a run that waits, saying why. *)
Definition queued_waiting (msg : string) (run : TestRun) : TestRun :=
  upd_status (fun s => set_Stages (waitingStages (st_QueuedAt s) msg) (set_Message msg (set_Phase PhaseQueued s))) run.

(** [inr tt]: the time has come, or none was set. *)
Definition waitForNotBefore (run : TestRun) : M (Out + unit) :=
  now ← perform Now;
  match rs_NotBefore (r_Spec run) with
  | Some notBefore =>
      if negb (waitingForSchedule run now) then Ret (inr tt)
      else
        let msg := "scheduled: starts at " +:+ RFC3339 notBefore in
        let res := requeue_after (time_sub notBefore now) in
        if negb (phase_eqb (run_phase run) PhaseQueued) || negb (st_Message (r_Status run) =? msg)%string
           || bool_decide (st_QueuedAt (r_Status run) = None) then
          let run := match st_QueuedAt (r_Status run) with
                     | None => upd_status (set_QueuedAt (Some now)) run
                     | Some _ => run
                     end in
          out ← write_status (queued_waiting msg run) res; Ret (inl out)
        else Ret (inl (run, Ok res))
  | None => Ret (inr tt)
  end.

Definition existsLive_test (k : Key) : M (result error bool) :=
  if cf_APIReader cfg then perform (ExistsTestLive k) else Ret (Ok false).

Definition existsLive_job (k : Key) : M (result error bool) :=
  if cf_APIReader cfg then
    j ← perform (GetJob true k);
    Ret (match j with
         | Ok _ => Ok true
         | Err e => if is_kind ENotFound e then Ok false else Err e
         end)
  else Ret (Ok false).

Definition graph_error_text (e : Composer.GraphError) : string :=
  "composition graph: " +:+
  match e with
  | Composer.ErrCycle path => "composition cycle: " +:+ Composer.joinPath path
  | Composer.ErrDepthLimit name depth =>
      "composition depth limit exceeded: " +:+ name +:+ " reached depth " +:+ itoa (Z.of_nat depth)
  end.

(** composite.go: [validateCompositeGraph]; the message of its error. *)
Definition validateCompositeGraph (root : Test) (spec : TestSpec) : M (option string) :=
  get ← perform (ReadTests (om_Namespace (t_Meta root)));
  Ret match Composer.validateCompositeGraph (om_Name (t_Meta root)) spec get with
      | Some (Err e) => Some (graph_error_text e)
      | _ => None
      end.

Definition listPriorRuns (run : TestRun) : M (result error (list TestRun)) :=
  l ← perform (ListRuns (run_ns run));
  Ret match l with
      | Ok runs => Ok (List.filter (fun p => (rs_TestRef (r_Spec p) =? rs_TestRef (r_Spec run))%string) runs)
      | Err e => Err e
      end.

Definition abortRun (prior by_ : TestRun) : M (option error) :=
  requestAbort prior (mkAbort AbortReasonConcurrency "superseded by a Replace-policy run" (run_name by_)).

Definition waitForPriors (run : TestRun) (priors : list TestRun) : M Out :=
  let msg := forbidMessage (activePriorNames priors run) in
  let res := requeue_after (cf_ConcurrencyWaitInterval cfg) in
  if negb (phase_eqb (run_phase run) PhaseQueued) || negb (st_Message (r_Status run) =? msg)%string
     || (length (st_Stages (r_Status run)) =? 0)%nat then
    run ← stamp_queued run;
    write_status (queued_waiting msg run) res
  else Ret (run, Ok res).

(** template_store.go *)
Definition ClientTemplateStore_Get : Resolver.TemplateStore Op := fun ns name =>
  t ← perform (GetTemplate (mkKey ns name));
  Ret (match t with
       | Ok tmpl => Ok (Some tmpl)
       | Err e => if is_kind ENotFound e then Ok None else Err e
       end).

(** The store wired in, or an empty one. *)
Definition template_store : Resolver.TemplateStore Op :=
  if cf_TemplateStore cfg then ClientTemplateStore_Get else Resolver.MapStore_Get ∅.

Definition resolveSpec (test : Test) (run : TestRun) : M (result error TestSpec) :=
  s ← Resolver.Resolve test run template_store (Resolver.mkOptions (cf_ResolverEnv cfg) "");
  Ret match s with
      | Ok spec => match Resolver.ValidateResolved spec with Some e => Err e | None => Ok spec end
      | Err e => Err e
      end.

Definition toolFor (test : Test) : M string :=
  m ← Resolver.MergeTemplates template_store test;
  Ret match m with
      | Ok (_, tool) => tool
      | Err _ => label_of (om_Labels (t_Meta test)) Resolver.LabelTool
      end.

(** [setup] up to the concurrency check: the Test and its resolved spec, or what
    [setup] returns. *)
Definition setup_spec (run : TestRun) : M (Out + Test * TestSpec) :=
  let testKey := mkKey (run_ns run) (rs_TestRef (r_Spec run)) in
  let fail reason msg : M (Out + Test * TestSpec) :=
    r ← transitionTerminal cfg run PhaseError reason msg; Ret (inl r) in
  t ← perform (GetTest testKey);
  match t with
  | Err e =>
      if is_kind ENotFound e then
        l ← existsLive_test testKey;
        match l with
        | Err e => Ret (inl (run, Err e))
        | Ok true => Ret (inl (run, Ok (requeue_after cacheLagRequeue)))
        | Ok false =>
            fail ReasonTestNotFound
              ("Test " +:+ quote (rs_TestRef (r_Spec run)) +:+ " not found in namespace " +:+ quote (run_ns run))
        end
      else Ret (inl (run, Err e))
  | Ok test =>
      s ← resolveSpec test run;
      match s with
      | Err e => fail (if is_kind EUnknownConfigKey e then ReasonInvalidConfig else ReasonResolveFailed) (e_Text e)
      | Ok spec =>
          match PodPolicy.Policy_Check (cf_PodPolicy cfg) (Some spec) (rs_Pod (r_Spec run)) with
          | Some msg => fail ReasonPolicyDenied msg
          | None =>
              e ← checkTestData (run_ns run) (ct_TestData (ts_Content spec));
              match e with
              | Some e =>
                  if is_kind ENotFound e || is_kind ETestDataKey e then fail ReasonTestDataMissing (e_Text e)
                  else Ret (inl (run, Err e))
              | None =>
                  e ← checkPodVolumes (run_ns run) (setup_volumes spec run);
                  match e with
                  | Some e =>
                      if is_kind EVolumeSource e then fail ReasonVolumeSourceMissing (e_Text e)
                      else Ret (inl (run, Err e))
                  | None =>
                      g ← (if (0 <? length (ts_Steps spec))%nat then validateCompositeGraph test spec else Ret None);
                      match g with
                      | Some msg => fail ReasonResolveFailed msg
                      | None => Ret (inr (test, spec))
                      end
                  end
              end
          end
      end
  end.

(** The end of [setup]: the snapshot. *)
Definition snapshot (run : TestRun) (test : Test) (spec : TestSpec) : M Out :=
  tool ← toolFor test;
  let run := upd_status (fun s =>
    set_Message "" (set_Phase PhaseQueued (set_Tool tool (set_ResolvedSpec (SnapshotOf spec) s)))) run in
  run ← stamp_queued run;
  e ← perform (UpdateStatus run);
  match e with
  | Some e => Ret (run, Err e)
  | None => _ ← recordLatestRun run true; Ret (run, Ok no_requeue)
  end.

Definition setup (run : TestRun) : M Out :=
  s ← setup_spec run;
  match s with
  | inl out => Ret out
  | inr (test, spec) =>
      p ← listPriorRuns run;
      match p with
      | Err e => Ret (run, Err e)
      | Ok priors =>
          now ← perform Now;
          let priors := List.filter (fun p => negb (waitingForSchedule p now)) priors in
          match DecideConcurrency priors (Some run) (ts_ConcurrencyPolicy spec) with
          | ConcurrencyWait => waitForPriors run priors
          | ConcurrencyReplacePrior =>
              e ← each_or_error (SelectPriorsToAbort priors (Some run)) (fun prior => abortRun prior run);
              match e with
              | Some e => Ret (run, Err e)
              | None => snapshot run test spec
              end
          | ConcurrencyProceed => snapshot run test spec
          end
      end
  end.

(** ** The Job of a leaf run *)

(** Auxiliary objects, then the Job, then its name in the status. *)
Definition create_compiled (run : TestRun) (job : JobObject) (aux : list Object) : M Out :=
  e ← create_objects (fun o => "create aux *" +:+ ob_Kind o) aux;
  match e with
  | Some e => Ret (run, Err e)
  | None =>
      c ← perform (CreateJob job);
      let failed := match c with
                    | Some e => if is_kind EAlreadyExists e then None else Some e
                    | None => None
                    end in
      match failed with
      | Some e =>
          if is_kind EInvalid e then
            transitionTerminal cfg run PhaseError ReasonCompileError ("Job rejected by the API server: " +:+ e_Text e)
          else Ret (run, Err (wrapf "create Job" e))
      | None =>
          if negb (st_JobName (r_Status run) =? k_Name (jo_Key job))%string then
            write_status (upd_status (set_JobName (k_Name (jo_Key job))) run) no_requeue
          else Ret (run, Ok no_requeue)
      end
  end.

Definition compile_job (run : TestRun) (test : Test) : M Out :=
  match Compiler.Compile test run (cf_CompilerOpts cfg) with
  | Err e => transitionTerminal cfg run PhaseError ReasonCompileError (e_Text e)
  | Ok (job, aux) => create_compiled run job aux
  end.

Definition createJob (run : TestRun) : M Out :=
  match resolvedSpecOf run with
  | None =>
      transitionTerminal cfg run PhaseError ReasonCompileError
        ("resolvedSpec unmarshal: " +:+ unmarshalError (st_ResolvedSpec (r_Status run)))
  | Some spec =>
      let test := testForCompile run spec in
      if bool_decide (ts_Services spec = ∅) then compile_job run test
      else
        s ← ensureServices cfg run test;
        match s with
        | inl out => Ret out
        | inr tt => compile_job run test
        end
  end.

Definition result_stage (r : RunResult) : Phase * option time := (res_Phase r, res_ToolFinishedAt r).

(** A Job that ended: the verdict from result.json, else from the pod, else from
    how the Job ended. *)
Definition job_ended (run : TestRun) (job : Job) (pod : option Pod) : M Out :=
  let finish (r : RunResult) : M Out :=
    let run := applyRunResultToStatus r run in
    let run := upd_status (set_Stages (stagesNow run pod (Some (result_stage r)))) run in
    terminalAndDeleteJob cfg run (res_Phase r) "" (res_ErrorMessage r) (Some job) in
  res ← Read run;
  match res with
  | Ok r => finish r
  | Err e =>
      if is_kind EResultMalformed e then
        terminalAndDeleteJob cfg run PhaseError ReasonMalformedResult (e_Text e) (Some job)
      else if is_kind EResultNotFound e then
        match ResultFromTermination pod with
        | Some r => finish r
        | None =>
            let '(phase, reason, msg) := FallbackPhaseFromJobFailure (Some job) pod in
            terminalAndDeleteJob cfg run phase reason msg (Some job)
        end
      else Ret (run, Err e)
  end.

(** The pod is running: log tail, phase, start time, pod IP. *)
Definition pod_running (run : TestRun) (pod : Pod) : M Out :=
  _ ← when (cf_LogRegistry cfg)
        (_ ← perform (EnsureTailer (tailerID run) (Keys.ForRun (run_ns run) (run_uid run)) (p_Namespace pod) (p_Name pod));
         Ret tt);
  let started := negb (phase_eqb (run_phase run) PhaseRunning) in
  let newIP := negb (str_is_empty (p_PodIP pod)) && negb (p_PodIP pod =? st_PodIP (r_Status run))%string in
  w ← (if started || newIP then
         let run := upd_status (set_Phase PhaseRunning) run in
         run ← match st_StartedAt (r_Status run) with
               | None => now ← perform Now; Ret (upd_status (set_StartedAt (Some now)) run)
               | Some _ => Ret run
               end;
         let run := if str_is_empty (p_PodIP pod) then run else upd_status (set_PodIP (p_PodIP pod)) run in
         write_status run no_requeue
       else Ret (run, Ok no_requeue));
  match w with
  | (run, Err e) => Ret (run, Err e)
  | (run, Ok _) =>
      _ ← when started (perform (ActiveRunsInc (Metrics.NormalizeTool (runTool run))));
      Ret (run, Ok (requeue_after (cf_FallbackRequeue cfg)))
  end.

Definition job_running (run : TestRun) (pod : option Pod) : M Out :=
  let stages := stagesNow run pod None in
  w ← (if bool_decide (is_Some pod) && negb (sameStages stages (st_Stages (r_Status run))) then
         write_status (upd_status (set_Stages stages) run) no_requeue
       else Ret (run, Ok no_requeue));
  match w with
  | (run, Err e) => Ret (run, Err e)
  | (run, Ok _) =>
      match pod with
      | Some p => if IsPodRunning pod then pod_running run p
                  else Ret (run, Ok (requeue_after (cf_FallbackRequeue cfg)))
      | None => Ret (run, Ok (requeue_after (cf_FallbackRequeue cfg)))
      end
  end.

Definition inspectJob (run : TestRun) (job : Job) : M Out :=
  pod ← findPodForJob job;
  _ ← ensureFetchTailer cfg run pod (fetchTailerID run)
        (Keys.Stage (Keys.ForRun (run_ns run) (run_uid run)) "fetch");
  now ← perform Now;
  let infra := AnalyzePod pod now (unschedulableTimeout cfg) in
  if negb (str_is_empty (if_Reason infra)) then
    let run := upd_status (set_Stages (stagesNow run pod None)) run in
    terminalAndDeleteJob cfg run PhaseError (if_Reason infra) (if_Message infra) (Some job)
  else
    match InspectJob (Some job) with
    | JobSucceeded | JobFailedConclusion => job_ended run job pod
    | JobStillRunning => job_running run pod
    end.

Definition observeOrCreateJob (run : TestRun) : M Out :=
  let jobKey := mkKey (run_ns run) (run_name run) in
  j ← perform (GetJob false jobKey);
  match j with
  | Ok job => inspectJob run job
  | Err e =>
      if is_kind ENotFound e then
        if negb (str_is_empty (st_JobName (r_Status run))) then
          l ← existsLive_job jobKey;
          match l with
          | Err e => Ret (run, Err e)
          | Ok true => Ret (run, Ok (requeue_after cacheLagRequeue))
          | Ok false =>
              transitionTerminal cfg run PhaseError ReasonOrphanJobMissing
                "Job was deleted before status persisted; run cannot continue"
          end
        else createJob run
      else Ret (run, Err e)
  end.

(** ** Abort, expiry, deletion *)

Definition reconcileAbort (run : TestRun) (req : AbortRequest) : M Out :=
  let '(reason, msg) := abortStatus req in
  if isCompositeRun run then
    k ← listChildRuns cfg run;
    match k with
    | Err e => Ret (run, Err e)
    | Ok kids =>
        e ← abortStepChildren run kids "parent run aborted";
        match e with
        | Some e => Ret (run, Err e)
        | None => terminalAndDeleteJob cfg run PhaseAborted reason msg None
        end
    end
  else if isParallelRun run then
    _ ← stopWorkers cfg run;
    terminalAndDeleteJob cfg run PhaseAborted reason msg None
  else
    j ← perform (GetJob false (mkKey (run_ns run) (run_name run)));
    match j with
    | Ok job => terminalAndDeleteJob cfg run PhaseAborted reason msg (Some job)
    | Err e => if is_kind ENotFound e then terminalAndDeleteJob cfg run PhaseAborted reason msg None
               else Ret (run, Err e)
    end.

Definition isPersisted (run : TestRun) : M bool := perform (PersistedLoad (run_key run)).

(** Some child not terminal, or not in run history. *)
Fixpoint children_pending (kids : list TestRun) : M bool :=
  match kids with
  | [] => Ret false
  | k :: kids =>
      if negb (IsTerminalPhase (run_phase k)) then Ret true
      else
        p ← isPersisted k;
        if negb p then Ret true else children_pending kids
  end.

Definition delete_expired (run : TestRun) : M Out :=
  e ← perform (DeleteRun run);
  Ret (run, match IgnoreNotFound e with Some e => Err e | None => Ok no_requeue end).

Definition expireFinished (run : TestRun) : M Out :=
  match st_FinishedAt (r_Status run) with
  | None => Ret (run, Ok no_requeue)
  | Some finished =>
      if (cf_FinishedRunTTL cfg <=? 0)%Z || negb (cf_RunStore cfg)
         || negb (str_is_empty (label_of (om_Labels (r_Meta run)) LabelParentRun)) then Ret (run, Ok no_requeue)
      else
        p ← isPersisted run;
        if negb p then Ret (run, Ok (requeue_after expireRetry))
        else
          now ← perform Now;
          let left := time_sub (finished + cf_FinishedRunTTL cfg)%Z now in
          if (0 <? left)%Z then Ret (run, Ok (requeue_after left))
          else if isCompositeRun run then
            k ← listChildRuns cfg run;
            match k with
            | Err e => Ret (run, Err e)
            | Ok kids =>
                pending ← children_pending kids;
                if (pending : bool) then Ret (run, Ok (requeue_after expireRetry)) else delete_expired run
            end
          else delete_expired run
  end.

(** [controllerutil]'s finalizer helpers. *)
Definition ContainsFinalizer (run : TestRun) : bool := bool_decide (FinalizerName ∈ om_Finalizers (r_Meta run)).
Definition AddFinalizer (run : TestRun) : TestRun :=
  if ContainsFinalizer run then run
  else with_meta (with_Finalizers (om_Finalizers (r_Meta run) ++ [FinalizerName]) (r_Meta run)) run.
Definition RemoveFinalizer (run : TestRun) : TestRun :=
  with_meta (with_Finalizers (List.filter (fun f => negb (f =? FinalizerName)%string) (om_Finalizers (r_Meta run)))
               (r_Meta run)) run.

Definition update_run (run : TestRun) : M Out :=
  e ← perform (UpdateRun run);
  Ret (run, match e with Some e => Err e | None => Ok no_requeue end).

Definition finalize (run : TestRun) : M Out :=
  if negb (ContainsFinalizer run) then Ret (run, Ok no_requeue)
  else
    _ ← when (cf_LogRegistry cfg)
          (_ ← perform (StopTailer (tailerID run)); perform (StopTailer (fetchTailerID run)));
    _ ← perform (PersistedDelete (run_key run));
    _ ← stopWorkers cfg run;
    j ← perform (GetJob false (mkKey (run_ns run) (run_name run)));
    match j with
    | Ok job =>
        e ← deleteJobBackground job;
        match e with
        | Some e => Ret (run, Err e)
        | None => update_run (RemoveFinalizer run)
        end
    | Err e => if is_kind ENotFound e then update_run (RemoveFinalizer run) else Ret (run, Err e)
    end.

(** ** One event *)

Definition reconcile_run (run : TestRun) : M Out :=
  if bool_decide (is_Some (om_DeletionTimestamp (r_Meta run))) then finalize run
  else if negb (ContainsFinalizer run) then update_run (AddFinalizer run)
  else if IsTerminalPhase (run_phase run) then _ ← persistFinished cfg run; expireFinished run
  else
    match rs_Abort (r_Spec run) with
    | Some req => reconcileAbort run req
    | None =>
        if snapshot_is_empty (st_ResolvedSpec (r_Status run)) then
          w ← waitForNotBefore run;
          match w with
          | inl out => Ret out
          | inr tt => setup run
          end
        else if isCompositeRun run then reconcileComposite cfg run
        else if isParallelRun run then reconcileParallel cfg run
        else observeOrCreateJob run
    end.

Definition reconcile (req : Key) : M (result error Result) :=
  g ← perform (GetRun req);
  match g with
  | Err e =>
      if is_kind ENotFound e then _ ← perform (PersistedDelete req); Ret (Ok no_requeue) else Ret (Err e)
  | Ok run => out ← reconcile_run run; Ret out.2
  end.

Definition Reconcile (req : Key) : M (result error Result) :=
  r ← reconcile req; Ret (requeueOnConflict r).

End Reconciler.
End Reconciler.
