(* ===== verification/ReconcilerSpec.v ===== *)
(** * The TestRun reconciler: what one event may do

    Properties of whole executions of [reconcile_run]: when a Job is created and
    deleted, what ends a run and with which verdict, when a run is started, when a
    finished one is removed and when the finalizer goes. *)
From S2P Require Import Prelude Api GoLib Keys Composer Concurrency Phases Stages Effects Ops Resolver Compiler Lifecycle Services Composite Parallel ParallelSpec Reconciler Webhooks.

Module ReconcilerSpec.
Import Concurrency Services Composite Parallel ParallelSpec Reconciler.

(** ** Programs that do not touch Jobs *)

Definition no_job (R : Type) (o : Op R) : bool :=
  match o with GetJob _ _ | CreateJob _ | DeleteJob _ => false | _ => true end.

(** Whether the last status written successfully is terminal; a Job is deleted
    only when it is. *)
Definition delete_after_terminal : monitor Op (option TestRun) := fun R s o =>
  match o in Op R return option (R → option TestRun) with
  | UpdateStatus r => Some (fun e => match e with None => Some r | Some _ => s end)
  | DeleteJob _ => if match s with Some r => IsTerminalPhase (run_phase r) | None => false end then Some (fun _ => s) else None
  | _ => Some (fun _ => s)
  end.

Lemma delete_after_terminal_quiet : ignores_quiet delete_after_terminal.
Proof. intros R o s Ho. destruct o; cbn in *; try discriminate Ho; done. Qed.

Lemma no_job_quiet : ignores_quiet (only no_job).
Proof. intros R o [] Ho. destruct o; cbn in *; try discriminate Ho; done. Qed.

Lemma no_job_ok {A} s (p : prog Op A) :
  guards (only no_job) tt p (fun _ _ => True) → guards delete_after_terminal s p (fun _ _ => True).
Proof.
  revert s. induction p as [a|R o k IH]; intros s; [done|]. cbn [guards]. unfold only at 1.
  destruct o; cbn; try (intros H r; by apply IH); done.
Qed.

Lemma no_job_before {A B} s (p : prog Op A) (f : A → prog Op B) :
  guards (only no_job) tt p (fun _ _ => True) →
  (∀ a s, guards delete_after_terminal s (f a) (fun _ _ => True)) →
  guards delete_after_terminal s (p ≫= f) (fun _ _ => True).
Proof. intros Hp Hf. eapply guards_seq; [by apply no_job_ok|]. intros a s' _. apply Hf. Qed.

Section Leaf.
Context `{!Components} (cfg : Config).

Lemma transitionTerminal_no_job run phase reason message :
  guards (only no_job) tt (transitionTerminal cfg run phase reason message) (fun _ _ => True).
Proof.
  destruct (IsTerminalPhase phase) eqn:Et; [|apply transitionTerminal_noop; auto].
  destruct (decide (run_phase run = phase)); [apply transitionTerminal_noop; auto|].
  apply transitionTerminal_guards; [apply no_job_quiet|done..|]. intros now. by eexists.
Qed.

(** Ending a run that is not terminal deletes its Job after the terminal write. *)
Lemma terminalAndDeleteJob_ok s run phase reason message job :
  IsTerminalPhase (run_phase run) = false →
  guards delete_after_terminal s (terminalAndDeleteJob cfg run phase reason message job) (fun _ _ => True).
Proof.
  intros Hrun. destruct (IsTerminalPhase phase) eqn:Et.
  - apply terminalAndDeleteJob_guards; [apply delete_after_terminal_quiet|done|congruence|].
    intros now run'. eexists. split; [done|]. split; [done|]. destruct job as [j|]; [|done].
    eexists. split; [|done]. cbn [delete_after_terminal]. replace (run_phase run') with phase by done. by rewrite Et.
  - unfold terminalAndDeleteJob, transitionTerminal. by rewrite Et.
Qed.

Lemma quiet_no_job {A} (p : prog Op A) :
  guards (only quiet) tt p (fun _ _ => True) → guards (only no_job) tt p (fun _ _ => True).
Proof.
  intros Hp. eapply guards_mono; [|done].
  eapply (guards_lift quiet (only no_job) tt p (fun _ => True)); [|exact Hp]. intros. by apply no_job_quiet.
Qed.

Lemma when_no_job b (p : prog Op unit) :
  guards (only no_job) tt p (fun _ _ => True) → guards (only no_job) tt (when b p) (fun _ _ => True).
Proof. by destruct b. Qed.

Lemma each_or_error_no_job {A} (xs : list A) body :
  (∀ x, guards (only no_job) tt (body x) (fun _ _ => True)) →
  guards (only no_job) tt (each_or_error xs body) (fun _ _ => True).
Proof.
  intros Hb. unfold each_or_error. eapply guards_seq.
  - apply (guards_for_state _ (fun _ _ => True) (fun _ _ => True)); [done|]. intros x [] [] _ _.
    eapply guards_seq; [apply Hb|]. by intros [e|] [] _.
  - by intros [e|[]] [] _.
Qed.

Ltac nd :=
  repeat (first
    [ done
    | apply transitionTerminal_no_job
    | apply quiet_no_job; first [apply recordLatestRun_quiet | apply findPodForJob_quiet | apply persistFinished_quiet
                                   | apply ensureFetchTailer_quiet | apply listChildRuns_quiet]
    | apply when_no_job
    | apply each_or_error_no_job; intros ?
    | gstep ]).

Lemma requestAbort_no_job r req : guards (only no_job) tt (requestAbort r req) (fun _ _ => True).
Proof. unfold requestAbort. nd. Qed.

Lemma waitForNotBefore_no_job run : guards (only no_job) tt (waitForNotBefore run) (fun _ _ => True).
Proof. unfold waitForNotBefore, write_status. nd. Qed.

Lemma checks_no_job ns entries vols :
  guards (only no_job) tt (checkTestData cfg ns entries) (fun _ _ => True) ∧
  guards (only no_job) tt (checkPodVolumes cfg ns vols) (fun _ _ => True).
Proof.
  split; apply each_or_error_no_job; [intros [i d]; unfold check_data_entry|intros ref; unfold check_volume]; nd.
Qed.

(** A step of a program that deletes no Job, past one that does not either. *)
Lemma no_job_seq {A B} (p : prog Op A) (f : A → prog Op B) :
  guards (only no_job) tt p (fun _ _ => True) → (∀ a, guards (only no_job) tt (f a) (fun _ _ => True)) →
  guards (only no_job) tt (p ≫= f) (fun _ _ => True).
Proof. intros Hp Hf. eapply guards_seq; [exact Hp|]. intros a [] _. apply Hf. Qed.

Lemma fail_no_job {A} run reason msg (f : Out → A) :
  guards (only no_job) tt (r ← transitionTerminal cfg run PhaseError reason msg; Ret (f r)) (fun _ _ => True).
Proof. apply no_job_seq; [apply transitionTerminal_no_job|done]. Qed.

Lemma template_store_always (P : ∀ R, Op R → Prop) ns name :
  (∀ k, P _ (GetTemplate k)) → always P (template_store cfg ns name) (fun _ => True).
Proof. intros HP. unfold template_store. case_match; [|done]. by apply always_perform. Qed.

Lemma resolve_always (P : ∀ R, Op R → Prop) test run :
  (∀ k, P _ (GetTemplate k)) →
  always P (resolveSpec cfg test run) (fun _ => True) ∧ always P (toolFor cfg test) (fun _ => True).
Proof.
  intros HP. assert (Hm : always P (Resolver.MergeTemplates (template_store cfg) test) (fun _ => True)).
  { apply Resolver.always_MergeTemplates. intros. by apply template_store_always. }
  split.
  - unfold resolveSpec, Resolver.Resolve. eapply (always_seq _ _ _ _ (fun _ => True)); [|by intros]. by eapply always_seq.
  - by eapply always_seq.
Qed.

Lemma resolve_no_job test run :
  guards (only no_job) tt (resolveSpec cfg test run) (fun _ _ => True) ∧
  guards (only no_job) tt (toolFor cfg test) (fun _ _ => True).
Proof.
  destruct (resolve_always (fun R o => no_job R o = true) test run) as [H1 H2]; [done|].
  by split; apply only_always.
Qed.

Lemma setup_spec_no_job run : guards (only no_job) tt (setup_spec cfg run) (fun _ _ => True).
Proof.
  unfold setup_spec. gstep. destruct r as [test|e].
  - apply no_job_seq; [apply resolve_no_job|]. intros [spec|e]; [|apply fail_no_job]. case_match; [apply fail_no_job|].
    apply no_job_seq; [apply (proj1 (checks_no_job _ _ []))|]. intros [e|].
    { case_match; [apply fail_no_job|done]. }
    apply no_job_seq; [apply (proj2 (checks_no_job _ [] _))|]. intros [e|].
    { case_match; [apply fail_no_job|done]. }
    apply no_job_seq; [unfold validateCompositeGraph; nd|]. intros [msg|]; [apply fail_no_job|done].
  - case_match; [|done]. apply no_job_seq; [unfold existsLive_test; nd|].
    intros [[]|e']; [done|apply fail_no_job|done].
Qed.

Lemma snapshot_no_job run test spec : guards (only no_job) tt (snapshot cfg run test spec) (fun _ _ => True).
Proof.
  unfold snapshot, stamp_queued. apply no_job_seq; [apply (resolve_no_job _ run)|intros tool].
  apply no_job_seq; [nd|intros run']. gstep. case_match; [done|].
  apply no_job_seq; [nd|done].
Qed.

Lemma setup_no_job run : guards (only no_job) tt (setup cfg run) (fun _ _ => True).
Proof.
  unfold setup. apply no_job_seq; [apply setup_spec_no_job|]. intros [out|[test spec]]; [done|].
  apply no_job_seq; [unfold listPriorRuns; nd|]. intros [priors|e]; [|done]. gstep. case_match.
  - apply snapshot_no_job.
  - unfold waitForPriors, stamp_queued, write_status. case_match; [|done]. apply no_job_seq; [nd|intros; nd].
  - apply no_job_seq; [apply each_or_error_no_job; intros; apply requestAbort_no_job|].
    intros [e|]; [done|apply snapshot_no_job].
Qed.

Lemma create_services_no_job run svcs : guards (only no_job) tt (create_services run svcs) (fun _ _ => True).
Proof. induction svcs as [|svc svcs IH]; cbn [create_services]; nd. Qed.

Lemma create_objects_no_job prefix objs : guards (only no_job) tt (create_objects prefix objs) (fun _ _ => True).
Proof. induction objs as [|o objs IH]; cbn [create_objects]; nd. Qed.

Lemma check_replica_no_job run services now rep waiting :
  guards (only no_job) tt (check_replica cfg run services now rep waiting) (fun _ _ => True).
Proof.
  unfold check_replica. gstep. destruct r as [pod|e]; [|nd]. case_match; [apply fail_no_job|].
  apply no_job_seq; [unfold tailServiceLogs; nd|intros _]. case_match; [done|].
  case_match; [apply fail_no_job|done].
Qed.

Lemma ensureServices_no_job run test : guards (only no_job) tt (ensureServices cfg run test) (fun _ _ => True).
Proof.
  unfold ensureServices. case_match; [|apply fail_no_job].
  apply no_job_seq; [apply create_services_no_job|]. intros [e|]; [done|]. gstep.
  apply no_job_seq.
  { eapply guards_mono; [apply (guards_for_state _ (fun _ _ => True) (fun _ _ => True)); [done|]|done].
    intros rep waiting [] _ _. eapply guards_mono; [apply check_replica_no_job|by intros [?|?]]. }
  intros [x|[|w ws]]; nd.
Qed.

(** Creating the Job. *)
Lemma compile_job_ok s run test : guards delete_after_terminal s (compile_job cfg run test) (fun _ _ => True).
Proof.
  unfold compile_job, create_compiled, write_status. destruct (Compiler.Compile test run (cf_CompilerOpts cfg)) as [[job aux]|e].
  2: apply no_job_ok, transitionTerminal_no_job.
  apply no_job_before; [apply create_objects_no_job|]. intros [e|] s'; [done|]. gstep. apply no_job_ok. nd.
Qed.

Lemma createJob_ok s run : guards delete_after_terminal s (createJob cfg run) (fun _ _ => True).
Proof.
  unfold createJob. case_match; [|apply no_job_ok, transitionTerminal_no_job].
  case_match; [apply compile_job_ok|].
  apply no_job_before; [apply ensureServices_no_job|]. intros [out|[]] s'; [done|apply compile_job_ok].
Qed.

Lemma job_running_no_job run pod : guards (only no_job) tt (job_running cfg run pod) (fun _ _ => True).
Proof.
  unfold job_running, write_status. apply no_job_seq; [nd|]. intros [run' [res|e]]; [|done].
  destruct pod as [p|]; [|done]. case_match; [|done]. unfold pod_running, write_status.
  apply no_job_seq; [nd|intros _].
  apply no_job_seq; [case_match; [|done]; apply no_job_seq; [nd|intros; nd]|].
  intros [run'' [res'|e]]; [|done]. apply no_job_seq; [nd|done].
Qed.

(** *** The leaf run's handlers *)

Lemma finish_phase run (r : RunResult) stages :
  run_phase (upd_status (set_Stages stages) (applyRunResultToStatus r run)) = run_phase run.
Proof. unfold applyRunResultToStatus, run_phase. cbn. repeat case_match; done. Qed.

Lemma job_ended_ok s run job pod :
  IsTerminalPhase (run_phase run) = false →
  guards delete_after_terminal s (job_ended cfg run job pod) (fun _ _ => True).
Proof.
  intros Hrun. unfold job_ended, Read. gstep. gstep. gstep.
  destruct (check_final _ r) as [rr|e].
  { apply terminalAndDeleteJob_ok. by rewrite finish_phase. }
  case_match; [by apply terminalAndDeleteJob_ok|]. case_match; [|done]. destruct (ResultFromTermination pod) as [rr|].
  { apply terminalAndDeleteJob_ok. by rewrite finish_phase. }
  destruct (FallbackPhaseFromJobFailure _ _) as [[phase reason] msg]. by apply terminalAndDeleteJob_ok.
Qed.

Lemma inspectJob_ok s run job :
  IsTerminalPhase (run_phase run) = false →
  guards delete_after_terminal s (inspectJob cfg run job) (fun _ _ => True).
Proof.
  intros Hrun. unfold inspectJob.
  apply guards_quiet_seq; [apply delete_after_terminal_quiet|apply findPodForJob_quiet|intros pod].
  apply guards_quiet_seq; [apply delete_after_terminal_quiet|apply ensureFetchTailer_quiet|intros _].
  gstep. case_match; [by apply terminalAndDeleteJob_ok|].
  case_match; [apply no_job_ok, job_running_no_job|by apply job_ended_ok..].
Qed.

Lemma observeOrCreateJob_ok s run :
  IsTerminalPhase (run_phase run) = false →
  guards delete_after_terminal s (observeOrCreateJob cfg run) (fun _ _ => True).
Proof.
  intros Hrun. unfold observeOrCreateJob. gstep. destruct r as [job|e]; [by apply inspectJob_ok|].
  case_match; [|done]. case_match; [|apply createJob_ok]. unfold existsLive_job.
  apply guards_bind. case_match.
  - gstep. destruct r as [job|e']; [done|]. cbn [guards]. destruct (is_kind ENotFound e'); [|done].
    apply no_job_ok, transitionTerminal_no_job.
  - apply no_job_ok, transitionTerminal_no_job.
Qed.

Lemma reconcileAbort_ok s run req :
  isCompositeRun run = false → isParallelRun run = false → IsTerminalPhase (run_phase run) = false →
  guards delete_after_terminal s (reconcileAbort cfg run req) (fun _ _ => True).
Proof.
  intros Hc Hp Hrun. unfold reconcileAbort. destruct (abortStatus req) as [reason msg]. rewrite Hc, Hp.
  gstep. destruct r as [job|e]; [by apply terminalAndDeleteJob_ok|]. case_match; [by apply terminalAndDeleteJob_ok|done].
Qed.

Lemma children_pending_no_job kids : guards (only no_job) tt (children_pending kids) (fun _ _ => True).
Proof. induction kids as [|k kids IH]; cbn [children_pending]; [done|]. unfold isPersisted. case_match; [done|]. gstep. by case_match. Qed.

Lemma expireFinished_no_job run : guards (only no_job) tt (expireFinished cfg run) (fun _ _ => True).
Proof.
  unfold expireFinished, isPersisted, delete_expired. case_match; [|done]. case_match; [done|]. gstep. case_match; [done|].
  gstep. case_match; [done|]. case_match; [|nd].
  apply no_job_seq; [apply quiet_no_job, listChildRuns_quiet|]. intros [kids|e]; [|done].
  apply no_job_seq; [apply children_pending_no_job|]. intros []; nd.
Qed.

Lemma reconcile_run_leaf s run :
  om_DeletionTimestamp (r_Meta run) = None → isCompositeRun run = false → isParallelRun run = false →
  guards delete_after_terminal s (reconcile_run cfg run) (fun _ _ => True).
Proof.
  intros Hdel Hc Hp. unfold reconcile_run. rewrite Hdel.
  rewrite bool_decide_eq_false_2 by (by intros []). case_match; [apply no_job_ok; unfold update_run; nd|].
  case_match eqn:Ht.
  { apply no_job_ok, no_job_seq; [apply quiet_no_job, persistFinished_quiet|intros _].
    apply expireFinished_no_job. }
  destruct (rs_Abort (r_Spec run)) as [req|]; [by apply reconcileAbort_ok|]. case_match.
  - apply no_job_ok, no_job_seq; [apply waitForNotBefore_no_job|]. intros [out|[]]; [done|apply setup_no_job].
  - rewrite Hc, Hp. by apply observeOrCreateJob_ok.
Qed.
End Leaf.

Lemma watch_delete_after_terminal p tr s :
  watch delete_after_terminal p tr = Some s → s = foldl note_write p tr.
Proof.
  revert p. induction tr as [|[R o r] tr IH]; intros p; cbn [watch foldl]; [congruence|].
  destruct o; cbn [delete_after_terminal]; try (intros H; apply IH in H; exact H).
  destruct (match p with Some r0 => IsTerminalPhase (run_phase r0) | None => false end); [|done].
  intros H; apply IH in H; exact H.
Qed.

(** C1: A leaf run's verdict is never lost with its Job: whatever the environment
    answers, whenever the handling of one event of a run that is not being deleted
    deletes a Job, the last status it had successfully written by then is terminal.
    (A run that is being deleted is finalized instead: its Job goes, without a verdict.) *)
Theorem leaf_Job_deleted_after_verdict `{!Components} cfg run tr out tr1 k e tr2 :
  om_DeletionTimestamp (r_Meta run) = None → isCompositeRun run = false → isParallelRun run = false →
  exec (reconcile_run cfg run) tr out → tr = tr1 ++ Ev (DeleteJob k) e :: tr2 →
  ∃ r, last_write tr1 = Some r ∧ IsTerminalPhase (run_phase r) = true.
Proof.
  intros Hd Hc Hp Hex ->. pose proof (reconcile_run_leaf cfg None run Hd Hc Hp) as Hg.
  destruct (guards_sound _ _ _ _ _ _ Hg Hex) as (s' & Hw & _).
  apply watch_app in Hw as (s1 & ->%watch_delete_after_terminal & H2). cbn [watch delete_after_terminal] in H2.
  fold (last_write tr1) in H2. destruct (last_write tr1) as [r|]; [|done].
  destruct (IsTerminalPhase (run_phase r)) eqn:Et; [by exists r|done].
Qed.

(** *** Concrete events of one run *)

Definition demo_leaf : TestRun := with_meta (with_Finalizers [FinalizerName] (r_Meta demo_running)) demo_running.

(** The Job has failed and the wrapper left no result. *)
Definition answer_failed : ∀ R, Op R → unit → R * unit := fun R o w =>
  match o in Op R return R * unit with
  | GetJob _ k => (Ok (mkJob (k_Name k) (k_Namespace k) ∅ [mkJobCond JobFailed ConditionTrue ""]), w)
  | o => answer None _ o w
  end.

Definition demo_event : Out * unit * list (event Op) :=
  Effects.run answer_failed (reconcile_run (H := demo_components) demo_config demo_leaf) tt.
Definition demo_before_delete : list (event Op) := take (length demo_event.2 - 1) demo_event.2.

Lemma demo_event_split :
  demo_event.2 = demo_before_delete ++ Ev (DeleteJob (mkKey "ns" "smoke-1")) None :: [].
Proof. vm_compute. reflexivity. Qed.

Lemma leaf_Job_deleted_after_verdict_witness :
  ∃ r, last_write demo_before_delete = Some r ∧ IsTerminalPhase (run_phase r) = true.
Proof.
  exact (leaf_Job_deleted_after_verdict demo_config demo_leaf demo_event.2 demo_event.1.1 demo_before_delete
    (mkKey "ns" "smoke-1") None [] eq_refl eq_refl eq_refl (run_exec answer_failed _ tt) demo_event_split).
Defined.


(** ** The verdict of a leaf run *)

Definition deleted_key (e : event Op) : list Key := match e with Ev (DeleteJob k) _ => [k] | _ => [] end.
Definition deleted_Jobs (tr : list (event Op)) : list Key := tr ≫= deleted_key.

(** The status writes and the Job deletions of a trace. *)
Definition record_ends : monitor Op (list (TestRun * option error) * list Key) := fun R s o =>
  Some (fun r => (s.1 ++ status_write (Ev o r), s.2 ++ deleted_key (Ev o r))).

Lemma record_ends_quiet : ignores_quiet record_ends.
Proof.
  intros R o [ws ks] Ho. unfold record_ends. destruct o; cbn in *; try discriminate Ho; by rewrite !app_nil_r.
Qed.

Lemma watch_record_ends s tr : watch record_ends s tr = Some (s.1 ++ status_writes tr, s.2 ++ deleted_Jobs tr).
Proof.
  revert s. induction tr as [|[R o r] tr IH]; intros [ws ks]; cbn [watch]; [by rewrite !app_nil_r|].
  unfold record_ends at 1. rewrite IH. unfold status_writes, deleted_Jobs. cbn [mbind list_bind fst snd].
  by rewrite !app_assoc.
Qed.

Lemma quiet_records {A} (p : prog Op A) tr a :
  guards (only quiet) tt p (fun _ _ => True) → exec p tr a → status_writes tr = [] ∧ deleted_Jobs tr = [].
Proof.
  intros Hq Hex. destruct (only_sound quiet p (fun _ => True) tr a Hq Hex) as [Hall _].
  clear -Hall. induction Hall as [|[R o r] tr Ho _ [IHw IHd]]; [done|].
  unfold status_writes, deleted_Jobs in *. cbn [mbind list_bind]. rewrite IHw, IHd.
  destruct o; try discriminate Ho; done.
Qed.

(** What ending a run with its Job writes and deletes. *)
Definition ended (job : Job) (run : TestRun) (phase : Phase) (reason msg : string)
    (tr : list (event Op)) (run' : TestRun) (res : result error Result) : Prop :=
  ∃ now, run' = finish_run phase reason msg now run ∧
    ((status_writes tr = [(run', None)] ∧ deleted_Jobs tr = [job_key job] ∧ res = Ok no_requeue) ∨
     (∃ e, status_writes tr = [(run', Some e)] ∧ deleted_Jobs tr = [] ∧ res = Err e)).

Lemma terminalAndDeleteJob_ended `{!Components} cfg job run phase reason msg tr run' res :
  IsTerminalPhase (run_phase run) = false → IsTerminalPhase phase = true →
  exec (terminalAndDeleteJob cfg run phase reason msg (Some job)) tr (run', res) →
  ended job run phase reason msg tr run' res.
Proof.
  intros Hrun Ht Hex.
  eapply (guards_sound record_ends ([], []) _ (fun x s => ∃ now, x.1 = finish_run phase reason msg now run ∧
    ((s = ([(x.1, None)], [job_key job]) ∧ x.2 = Ok no_requeue) ∨ (∃ e, s = ([(x.1, Some e)], []) ∧ x.2 = Err e))))
    in Hex as (s & Hs & now & Hnow & Hcase).
  2: { apply terminalAndDeleteJob_guards; [apply record_ends_quiet|done|congruence|]. intros now. eexists. split; [done|].
       split; [intros e; exists now; eauto|]. eexists. split; [done|]. intros e. exists now. eauto. }
  rewrite watch_record_ends in Hs. injection Hs as Hs. cbn in *. exists now. split; [done|].
  destruct Hcase as [[-> ->]|(e & -> & ->)]; injection Hs as -> ->; [left|right; exists e]; done.
Qed.

Lemma ended_quiet_before job run phase reason msg tr1 tr2 run' res :
  status_writes tr1 = [] → deleted_Jobs tr1 = [] →
  ended job run phase reason msg tr2 run' res → ended job run phase reason msg (tr1 ++ tr2) run' res.
Proof.
  intros Hw Hd (now & Hrun & H). exists now. split; [done|]. unfold status_writes, deleted_Jobs in *.
  rewrite !bind_app, Hw, Hd. exact H.
Qed.

(** The verdict of a Job that ended, from what the result store and the pod
    say: phase, reason, message and the run with the result's data. *)
Definition leaf_verdict `{!Components} (run : TestRun) (job : Job) (pod : option Pod) (read : result error RunResult) :
    result error (Phase * string * string * TestRun) :=
  let with_result r :=
    let run := applyRunResultToStatus r run in
    upd_status (set_Stages (stagesNow run pod (Some (result_stage r)))) run in
  match check_final (Keys.Result (result_keys run)) read with
  | Ok r => Ok (res_Phase r, "", res_ErrorMessage r, with_result r)
  | Err e =>
      if is_kind EResultMalformed e then Ok (PhaseError, ReasonMalformedResult, e_Text e, run)
      else if is_kind EResultNotFound e then
        match ResultFromTermination pod with
        | Some r => Ok (res_Phase r, "", res_ErrorMessage r, with_result r)
        | None => let '(phase, reason, msg) := FallbackPhaseFromJobFailure (Some job) pod in Ok (phase, reason, msg, run)
        end
      else Err e
  end.

Lemma ResultFromTermination_final `{!Components} pod r :
  ResultFromTermination pod = Some r → IsTerminalPhase (res_Phase r) = true.
Proof.
  unfold ResultFromTermination, ParseTerminationSummary. intros. repeat case_match; simplify_eq; done.
Qed.

Lemma leaf_verdict_final `{!Components} run job pod read phase reason msg run1 :
  leaf_verdict run job pod read = Ok (phase, reason, msg, run1) →
  IsTerminalPhase phase = true ∧ run_phase run1 = run_phase run.
Proof.
  unfold leaf_verdict. destruct (check_final _ read) as [r|e] eqn:Ec.
  - intros [= <- <- <- <-]. split; [|by rewrite finish_phase]. unfold check_final in Ec. repeat case_match; by simplify_eq.
  - case_match; [intros [= <- <- <- <-]; done|]. case_match; [|done].
    destruct (ResultFromTermination pod) as [r|] eqn:Er.
    + intros [= <- <- <- <-]. split; [by eapply ResultFromTermination_final|by rewrite finish_phase].
    + unfold FallbackPhaseFromJobFailure. intros. repeat case_match; simplify_eq; done.
Qed.

Lemma job_ended_inv `{!Components} cfg run job pod tr run' res :
  exec (job_ended cfg run job pod) tr (run', res) →
  ∃ read tr', tr = Ev (ReadResult run) read :: tr' ∧
    match leaf_verdict run job pod read with
    | Ok (phase, reason, msg, run1) => exec (terminalAndDeleteJob cfg run1 phase reason msg (Some job)) tr' (run', res)
    | Err e => tr' = [] ∧ run' = run ∧ res = Err e
    end.
Proof.
  intros Hex. unfold job_ended in Hex. apply exec_bind_inv in Hex as (tr1 & tr2 & r & -> & Hread & Hex).
  unfold Read in Hread. apply exec_perform_bind_inv in Hread as (read & tr1' & -> & Hread).
  apply exec_ret_inv in Hread as [-> ->]. exists read, tr2. split; [done|]. unfold leaf_verdict.
  revert Hex. destruct (check_final _ read) as [r|e]; [done|].
  destruct (is_kind EResultMalformed e); [done|]. destruct (is_kind EResultNotFound e).
  - destruct (ResultFromTermination pod); [done|]. by destruct (FallbackPhaseFromJobFailure _ _) as [[]].
  - by intros [-> [= -> ->]]%exec_ret_inv.
Qed.

(** C2: A leaf run whose Job has ended, seen by one event: an infrastructure failure
    of the pod comes first; else the result store's verdict, else the pod's, else
    how the Job ended.  The status is written once with that verdict, the Job is
    deleted if and only if the write succeeded; when the result cannot be read for now,
    nothing is written or deleted and the error is returned. *)
Theorem inspectJob_verdict `{!Components} cfg run job tr run' res :
  IsTerminalPhase (run_phase run) = false → InspectJob (Some job) ≠ JobStillRunning →
  exec (inspectJob cfg run job) tr (run', res) →
  ∃ tr1 pod tr2 now tr3, tr = tr1 ++ tr2 ++ Ev Now now :: tr3 ∧ exec (findPodForJob job) tr1 pod ∧
    let infra := AnalyzePod pod now (unschedulableTimeout cfg) in
    if str_is_empty (if_Reason infra) then
      ∃ read, Ev (ReadResult run) read ∈ tr3 ∧
        match leaf_verdict run job pod read with
        | Ok (phase, reason, msg, run1) => ended job run1 phase reason msg tr run' res
        | Err e => status_writes tr = [] ∧ deleted_Jobs tr = [] ∧ run' = run ∧ res = Err e
        end
    else ended job (upd_status (set_Stages (stagesNow run pod None)) run) PhaseError (if_Reason infra)
           (if_Message infra) tr run' res.
Proof.
  intros Hrun Hjob Hex. unfold inspectJob in Hex.
  apply exec_bind_inv in Hex as (tr1 & tr' & pod & -> & Hfind & Hex).
  apply exec_bind_inv in Hex as (tr2 & tr'' & [] & -> & Htail & Hex).
  apply exec_perform_bind_inv in Hex as (now & tr3 & -> & Hex).
  exists tr1, pod, tr2, now, tr3. split_and!; [done..|].
  destruct (quiet_records _ _ _ (findPodForJob_quiet job) Hfind) as [Hw1 Hd1].
  destruct (quiet_records _ _ _ (ensureFetchTailer_quiet cfg run pod _ _) Htail) as [Hw2 Hd2].
  cbn zeta. destruct (str_is_empty (if_Reason _)) eqn:Einf; cbn [negb] in Hex.
  2: { do 2 (apply ended_quiet_before; [done..|]). apply (ended_quiet_before _ _ _ _ _ [Ev Now now]); [done..|].
       by apply (terminalAndDeleteJob_ended cfg). }
  assert (Hje : exec (job_ended cfg run job pod) tr3 (run', res)) by (by destruct (InspectJob (Some job))).
  apply job_ended_inv in Hje as (read & tr4 & -> & Hv). exists read. split; [left|].
  destruct (leaf_verdict run job pod read) as [[[[phase reason] msg] run1]|e] eqn:Everd.
  - destruct (leaf_verdict_final _ _ _ _ _ _ _ _ Everd) as [Ht Hp].
    do 2 (apply ended_quiet_before; [done..|]).
    apply (ended_quiet_before _ _ _ _ _ [Effects.Ev Now now; Effects.Ev (ReadResult run) read]); [done..|].
    apply (terminalAndDeleteJob_ended cfg); [by rewrite Hp|done..].
  - destruct Hv as (-> & -> & ->). unfold status_writes, deleted_Jobs in *. rewrite !bind_app, Hw1, Hw2, Hd1, Hd2. done.
Qed.

Definition demo_failed_job : Job := mkJob "smoke-1" "ns" ∅ [mkJobCond JobFailed ConditionTrue ""].

Lemma demo_ended_exec :
  let x := Effects.run answer_failed (inspectJob (H := demo_components) demo_config demo_leaf
             demo_failed_job) tt in
  exec (inspectJob (H := demo_components) demo_config demo_leaf demo_failed_job)
    x.2 (x.1.1.1, x.1.1.2).
Proof. cbv zeta. rewrite <- surjective_pairing. apply run_exec. Qed.

Lemma inspectJob_verdict_witness :
  let x := Effects.run answer_failed (inspectJob (H := demo_components) demo_config demo_leaf
             demo_failed_job) tt in
  ∃ tr1 pod tr2 now tr3, x.2 = tr1 ++ tr2 ++ Ev Now now :: tr3 ∧ exec (findPodForJob demo_failed_job) tr1 pod.
Proof.
  destruct (inspectJob_verdict demo_config demo_leaf demo_failed_job
    _ _ _ eq_refl (fun H => match H with eq_refl => I end) demo_ended_exec)
    as (tr1 & pod & tr2 & now & tr3 & Htr & Hf & _).
  exists tr1, pod, tr2, now, tr3. split; [exact Htr|exact Hf].
Defined.

(** ** When a Job is created *)

Definition no_create (R : Type) (o : Op R) : bool := match o with CreateJob _ => false | _ => true end.

(** Whether the run's Job was missing when last read; a Job is created only when
    it was and the run has recorded none. *)
Definition create_when_missing (run : TestRun) : monitor Op bool := fun R s o =>
  match o in Op R return option (R → bool) with
  | GetJob _ k => Some (fun r => match r with
                                 | Ok _ => false
                                 | Err e => is_kind ENotFound e && bool_decide (k = run_key run)
                                 end)
  | CreateJob _ => if s && str_is_empty (st_JobName (r_Status run)) then Some (fun _ => s) else None
  | _ => Some (fun _ => s)
  end.

Lemma no_create_ok run {A} s (p : prog Op A) :
  guards (only no_create) tt p (fun _ _ => True) → guards (create_when_missing run) s p (fun _ _ => True).
Proof.
  revert s. induction p as [a|R o k IH]; intros s; [done|]. cbn [guards]. unfold only at 1.
  destruct o; cbn; try (intros H r; by apply IH); done.
Qed.

Lemma no_create_of_no_job {A} (p : prog Op A) :
  guards (only no_job) tt p (fun _ _ => True) → guards (only no_create) tt p (fun _ _ => True).
Proof.
  intros Hp. eapply guards_mono; [|done].
  eapply (guards_lift no_job (only no_create) tt p (fun _ => True)); [|exact Hp]. intros R o Ho. by destruct o.
Qed.

Lemma no_job_keeps run {A B} s (p : prog Op A) (f : A → prog Op B) :
  guards (only no_job) tt p (fun _ _ => True) →
  (∀ a, guards (create_when_missing run) s (f a) (fun _ _ => True)) →
  guards (create_when_missing run) s (p ≫= f) (fun _ _ => True).
Proof.
  intros Hp Hf. eapply guards_seq.
  - eapply (guards_lift no_job _ s p (fun _ => True)); [|exact Hp]. intros R o Ho. by destruct o.
  - intros a s' [-> _]. apply Hf.
Qed.

Section Creation.
Context `{!Components} (cfg : Config).

Lemma terminalAndDeleteJob_no_create run phase reason message job :
  guards (only no_create) tt (terminalAndDeleteJob cfg run phase reason message job) (fun _ _ => True).
Proof.
  assert (Hq : ignores_quiet (only no_create)).
  { intros R o [] Ho. destruct o; cbn in *; try discriminate Ho; done. }
  unfold terminalAndDeleteJob. eapply guards_seq; [apply no_create_of_no_job, transitionTerminal_no_job|].
  intros [run' [res|e]] [] _; [|done].
  apply guards_quiet_seq; [done|apply persistFinished_quiet|intros _].
  apply guards_quiet_seq; [done|apply dispatchWebhooks_quiet|intros _].
  apply guards_quiet_seq; [done|apply stop_tailers_quiet|intros _].
  destruct job as [j|]; [|done]. unfold deleteJobBackground. apply guards_bind, guards_bind. by gstep.
Qed.

Lemma inspectJob_no_create run job : guards (only no_create) tt (inspectJob cfg run job) (fun _ _ => True).
Proof.
  unfold inspectJob. eapply guards_seq; [apply no_create_of_no_job, quiet_no_job, findPodForJob_quiet|intros pod [] _].
  eapply guards_seq; [apply no_create_of_no_job, quiet_no_job, ensureFetchTailer_quiet|intros _ [] _].
  gstep. case_match; [apply terminalAndDeleteJob_no_create|].
  assert (guards (only no_create) tt (job_ended cfg run job pod) (fun _ _ => True)).
  { unfold job_ended, Read. do 3 gstep. destruct (check_final _ _); [apply terminalAndDeleteJob_no_create|].
    case_match; [apply terminalAndDeleteJob_no_create|]. case_match; [|done]. destruct (ResultFromTermination pod).
    - apply terminalAndDeleteJob_no_create.
    - destruct (FallbackPhaseFromJobFailure _ _) as [[]]. apply terminalAndDeleteJob_no_create. }
  case_match; [apply no_create_of_no_job, job_running_no_job|done..].
Qed.

Lemma compile_job_creates run test :
  str_is_empty (st_JobName (r_Status run)) = true →
  guards (create_when_missing run) true (compile_job cfg run test) (fun _ _ => True).
Proof.
  intros Hn. unfold compile_job, create_compiled, write_status. destruct (Compiler.Compile test run (cf_CompilerOpts cfg)) as [[job aux]|e].
  2: apply no_create_ok, no_create_of_no_job, transitionTerminal_no_job.
  apply no_job_keeps; [apply create_objects_no_job|]. intros [e|]; [done|].
  eapply guards_perform_bind; [cbn; by rewrite Hn|]. intros r. apply no_create_ok, no_create_of_no_job.
  repeat (first [done|apply transitionTerminal_no_job|gstep]).
Qed.

Lemma createJob_creates run :
  str_is_empty (st_JobName (r_Status run)) = true →
  guards (create_when_missing run) true (createJob cfg run) (fun _ _ => True).
Proof.
  intros Hn. unfold createJob. case_match; [|apply no_create_ok, no_create_of_no_job, transitionTerminal_no_job].
  case_match; [by apply compile_job_creates|].
  apply no_job_keeps; [apply ensureServices_no_job|]. intros [out|[]]; [done|by apply compile_job_creates].
Qed.

Lemma reconcile_run_creates run :
  om_DeletionTimestamp (r_Meta run) = None → isCompositeRun run = false → isParallelRun run = false →
  guards (create_when_missing run) false (reconcile_run cfg run) (fun _ _ => True).
Proof.
  intros Hdel Hc Hp. unfold reconcile_run. rewrite Hdel. rewrite bool_decide_eq_false_2 by (by intros []).
  case_match; [unfold update_run; by gstep|]. case_match.
  { apply no_create_ok, no_create_of_no_job, no_job_seq; [apply quiet_no_job, persistFinished_quiet|intros _].
    apply expireFinished_no_job. }
  destruct (rs_Abort (r_Spec run)) as [req|].
  { unfold reconcileAbort. destruct (abortStatus req) as [reason msg]. rewrite Hc, Hp. gstep.
    destruct r as [job|e]; [apply no_create_ok, terminalAndDeleteJob_no_create|].
    case_match; [apply no_create_ok, terminalAndDeleteJob_no_create|done]. }
  case_match.
  { apply no_create_ok, no_create_of_no_job, no_job_seq; [apply waitForNotBefore_no_job|].
    intros [out|[]]; [done|apply setup_no_job]. }
  rewrite Hc, Hp. unfold observeOrCreateJob. gstep. destruct r as [job|e]; [apply no_create_ok, inspectJob_no_create|].
  destruct (is_kind ENotFound e) eqn:Ek; [|done]. destruct (str_is_empty _) eqn:En; cbn [negb].
  - cbn. rewrite bool_decide_eq_true_2 by done. by apply createJob_creates.
  - apply no_create_ok. unfold existsLive_job. apply guards_bind. case_match.
    + gstep. destruct r as [job|e']; [done|]. cbn [guards]. destruct (is_kind ENotFound e'); [|done].
      apply no_create_of_no_job, transitionTerminal_no_job.
    + apply no_create_of_no_job, transitionTerminal_no_job.
Qed.
End Creation.

(** The run's Job, read from the cache, was not found in the trace. *)
Definition Job_missing (run : TestRun) (tr : list (event Op)) : Prop :=
  ∃ live e, Ev (GetJob live (run_key run)) (Err e) ∈ tr ∧ e_Kind e = ENotFound.

Lemma watch_create_when_missing run s tr :
  watch (create_when_missing run) s tr = Some true → s = true ∨ Job_missing run tr.
Proof.
  revert s. induction tr as [|[R o r] tr IH]; intros s; cbn [watch]; [intros [= ->]; by left|].
  assert (Htl : ∀ s', watch (create_when_missing run) s' tr = Some true → s' = s → s = true ∨ Job_missing run (Ev o r :: tr)).
  { intros s' H ->. apply IH in H as [?|(l & e & Hin & ?)]; [by left|right]. exists l, e. split; [by right|done]. }
  destruct o; cbn [create_when_missing]; try (intros H; by apply Htl in H).
  - intros H. apply IH in H as [H|(l & e & Hin & ?)]; right; [|exists l, e; split; [by right|done]].
    destruct r as [|e]; [done|]. apply andb_prop in H as [Hk ->%bool_decide_eq_true].
    exists live, e. split; [by left|by apply bool_decide_eq_true in Hk].
  - destruct (s && _); [|done]. intros H. by apply Htl in H.
Qed.

(** A leaf run's Job is created at most once: an event creates a Job only when the
    run has recorded none in its status and its Job was looked up and not found
    before.  (A recorded Job that is gone ends the run instead: a test is never
    run twice.) *)
Theorem Job_created_only_when_unrecorded `{!Components} cfg run tr out tr1 j e tr2 :
  om_DeletionTimestamp (r_Meta run) = None → isCompositeRun run = false → isParallelRun run = false →
  exec (reconcile_run cfg run) tr out → tr = tr1 ++ Ev (CreateJob j) e :: tr2 →
  st_JobName (r_Status run) = "" ∧ Job_missing run tr1.
Proof.
  intros Hd Hc Hp Hex ->. pose proof (reconcile_run_creates cfg run Hd Hc Hp) as Hg.
  destruct (guards_sound _ _ _ _ _ _ Hg Hex) as (s' & Hw & _).
  apply watch_app in Hw as (s1 & H1 & H2). cbn [watch create_when_missing] in H2.
  destruct s1; [|done]. destruct (str_is_empty (st_JobName (r_Status run))) eqn:En; [|done].
  apply watch_create_when_missing in H1 as [?|H1]; [done|]. split; [by destruct (st_JobName (r_Status run))|done].
Qed.

Definition demo_queued : TestRun := upd_status (set_Phase PhaseQueued) demo_leaf.
Definition demo_creation : Out * unit * list (event Op) :=
  Effects.run (answer None) (reconcile_run (H := demo_components) demo_config demo_queued) tt.

(** The Job the compiler makes of the demonstration run. *)
Definition created {R} (o : Op R) : option JobObject := match o with CreateJob j => Some j | _ => None end.
Definition demo_created : option JobObject := last (omap (fun ev => match ev with Ev o _ => created o end) demo_creation.2).

Lemma demo_creation_split :
  match demo_created with
  | Some j => demo_creation.2 = take 2 demo_creation.2 ++ Ev (CreateJob j) None :: drop 3 demo_creation.2
  | None => False
  end.
Proof. vm_compute. reflexivity. Qed.

Lemma Job_created_only_when_unrecorded_witness : Job_missing demo_queued (take 2 demo_creation.2).
Proof.
  pose proof demo_creation_split as E. destruct demo_created as [j|]; [|destruct E].
  exact (proj2 (Job_created_only_when_unrecorded demo_config demo_queued demo_creation.2 demo_creation.1.1
    (take 2 demo_creation.2) j None _ eq_refl eq_refl eq_refl (run_exec (answer None) _ tt) E)).
Defined.

End ReconcilerSpec.
