(* ===== verification/SetupSpec.v ===== *)
(** * Setup: when a run starts

    A run is started by the status write that stores its snapshot.  What must
    have been checked before it: the spec resolved, the pod policy, the test data
    and volume sources, the composite graph and the concurrency policy. *)
From S2P Require Import Prelude PodPolicy Api GoLib Keys Composer Concurrency Phases Stages Effects Ops Resolver Lifecycle Reconciler ReconcilerSpec.

Module SetupSpec.
Import Concurrency Reconciler ReconcilerSpec.

(** ** Writes that do not start a run *)

Definition unstarted (r : TestRun) : Prop := snapshot_is_empty (st_ResolvedSpec (r_Status r)) = true.

Definition starts_nothing (R : Type) (o : Op R) : Prop :=
  match o with UpdateStatus r => unstarted r | _ => True end.

Lemma quiet_starts_nothing R (o : Op R) : quiet R o = true → starts_nothing R o.
Proof. by destruct o. Qed.

Lemma starts_nothing_writes tr w : Forall (event_sat starts_nothing) tr → w ∈ status_writes tr → unstarted w.1.
Proof.
  induction 1 as [|[R o r] tr Ho _ IH]; unfold status_writes in *; cbn [mbind list_bind]; [set_solver|].
  rewrite elem_of_app. intros [Hin|Hin]; [|by apply IH]. destruct o; cbn in Hin, Ho; set_solver.
Qed.

Section Setup.
Context `{!Components} (cfg : Config).

Lemma transitionTerminal_unstarted run phase reason msg Q :
  unstarted run → (∀ x, Q x) → always starts_nothing (transitionTerminal cfg run phase reason msg) Q.
Proof.
  intros Hrun HQ. destruct (IsTerminalPhase phase) eqn:Et.
  - destruct (decide (run_phase run = phase)) as [<-|Hne].
    + unfold transitionTerminal. rewrite Et, phase_eqb_refl. apply HQ.
    + apply transitionTerminal_always; [apply quiet_starts_nothing|done..].
  - unfold transitionTerminal. rewrite Et. apply HQ.
Qed.

Lemma each_or_error_always {A} (P : ∀ R, Op R → Prop) (xs : list A) body (Q : _ → Prop) :
  (∀ x, always P (body x) (fun _ => True)) → (∀ e, Q e) → always P (each_or_error xs body) Q.
Proof.
  intros Hb HQ. unfold each_or_error. eapply always_seq.
  - apply (always_for_state _ (fun _ _ => True) (fun _ => True) _ _ _ 0); [done|]. intros k x [] _ _.
    eapply always_seq; [apply Hb|]. by intros [e|] _.
  - intros [e|[]] _; apply HQ.
Qed.

Lemma fail_unstarted {A} run reason msg (f : Out → A) :
  unstarted run →
  always starts_nothing (r ← transitionTerminal cfg run PhaseError reason msg; Ret (f r)) (fun _ => True).
Proof. intros Hrun. eapply always_seq; [apply (transitionTerminal_unstarted _ _ _ _ (fun _ => True)); done|done]. Qed.

Lemma setup_spec_unstarted run : unstarted run → always starts_nothing (setup_spec cfg run) (fun _ => True).
Proof.
  intros Hrun. unfold setup_spec. apply always_perform; [done|]. intros [test|e].
  - eapply always_seq; [by apply resolve_always|]. intros [spec|e] _; [|by apply fail_unstarted]. case_match; [by apply fail_unstarted|].
    eapply always_seq; [by apply (each_or_error_always _ _ _ (fun _ => True)); [intros [i d]|]|]. intros [e|] _.
    { case_match; [by apply fail_unstarted|done]. }
    eapply always_seq; [by apply (each_or_error_always _ _ _ (fun _ => True))|]. intros [e|] _.
    { case_match; [by apply fail_unstarted|done]. }
    eapply (always_seq _ _ _ _ (fun _ => True)); [by case_match|]. intros [msg|] _; [by apply fail_unstarted|done].
  - case_match; [|done]. eapply (always_seq _ _ _ _ (fun _ => True)); [unfold existsLive_test; by case_match|].
    intros [[]|e'] _; [done|by apply fail_unstarted|done].
Qed.

Lemma waitForPriors_unstarted run priors : unstarted run → always starts_nothing (waitForPriors cfg run priors) (fun _ => True).
Proof.
  intros Hrun. unfold waitForPriors. case_match; [|done].
  eapply (always_seq _ _ _ _ unstarted); [unfold stamp_queued; by case_match|]. intros r Hr. by split.
Qed.

(** ** The checks *)

Lemma each_or_error_passed {A} (xs : list A) body tr :
  exec (each_or_error xs body) tr None →
  ∀ x, x ∈ xs → ∃ trx, trx ⊆ tr ∧ exec (body x) trx None.
Proof.
  unfold each_or_error. intros (tr1 & tr2 & r & -> & Hex & Hret)%exec_bind_inv.
  destruct r as [e|[]]; [by apply exec_ret_inv in Hret as [? ?]|]. clear Hret. revert tr1 Hex.
  induction xs as [|x xs IH]; intros tr1; cbn [for_state]; [set_solver|].
  intros (ta & tb & ra & -> & Ha & Hb)%exec_bind_inv.
  apply exec_bind_inv in Ha as (tc & td & [e|] & -> & Hx & [-> ->]%exec_ret_inv).
  { by apply exec_ret_inv in Hb as [_ ?]. }
  intros y [->|Hy]%elem_of_cons.
  - exists tc. split; [set_solver|done].
  - destruct (IH _ Hb y Hy) as (trx & Hsub & Hy'). exists trx. split; [set_solver|done].
Qed.

Lemma missing_key_None keys wanted : missing_key keys wanted = None → Forall (fun k => k ∈ keys) wanted.
Proof.
  intros Hm%find_first_None. eapply Forall_impl; [exact Hm|]. intros k Hk. cbn in Hk.
  apply negb_false_iff, bool_decide_eq_true in Hk. done.
Qed.

(** The object was read and has the keys. *)
Definition present (tr : list (event Op)) (kind ns name : string) (wanted : list string) : Prop :=
  ∃ keys, Ev (GetDataKeys kind (cf_APIReader cfg) (mkKey ns name)) (Ok keys) ∈ tr ∧ Forall (fun k => k ∈ keys) wanted.

Lemma present_mono tr tr' kind ns name wanted : tr ⊆ tr' → present tr kind ns name wanted → present tr' kind ns name wanted.
Proof. intros Hs (keys & Hin & Hk). exists keys. split; [by apply Hs|done]. Qed.

Definition data_present (tr : list (event Op)) (ns : string) (d : TestDataSource) : Prop :=
  present tr (if str_is_empty (td_Secret d) then kindConfigMap else kindSecret) ns (td_ConfigMap d +:+ td_Secret d)
    (tdi_Key <$> td_Items d).

Definition source_present (tr : list (event Op)) (ns : string) (ref : volumeRef) : Prop :=
  present tr (vr_kind ref) ns (vr_name ref) (vr_keys ref).

Lemma checkTestData_passed ns entries tr :
  exec (checkTestData cfg ns entries) tr None → Forall (data_present tr ns) entries.
Proof.
  intros Hex. apply Forall_forall. intros d Hd. apply list_elem_of_lookup in Hd as [i Hi].
  assert (Hin : (i, d) ∈ enumerate entries).
  { apply list_elem_of_lookup. exists i. by rewrite lookup_enumerate, Hi. }
  destruct (each_or_error_passed _ _ _ Hex _ Hin) as (trx & Hsub & Hx). apply (present_mono trx); [done|].
  unfold check_data_entry in Hx. apply exec_perform_bind_inv in Hx as (keys & tr' & -> & [_ Hr]%exec_ret_inv).
  destruct keys as [keys|e]; [|done]. exists keys. split; [left|]. apply missing_key_None. by case_match.
Qed.

Lemma checkPodVolumes_passed ns vols tr :
  exec (checkPodVolumes cfg ns vols) tr None → Forall (source_present tr ns) (volumeRefs vols).
Proof.
  intros Hex. apply Forall_forall. intros ref Hin.
  destruct (each_or_error_passed _ _ _ Hex _ Hin) as (trx & Hsub & Hx). apply (present_mono trx); [done|].
  unfold check_volume in Hx. apply exec_perform_bind_inv in Hx as (keys & tr' & -> & [_ Hr]%exec_ret_inv).
  destruct keys as [keys|e]; [|by case_match]. exists keys. split; [left|]. apply missing_key_None. by case_match.
Qed.

(** The spec is the Test's, on top of the templates read for each name it uses,
    resolved with the run's values, and it can be run. *)
Definition resolved_from (tr : list (event Op)) (test : Test) (run : TestRun) (spec : TestSpec) : Prop :=
  ∃ tmpls, Forall2 (fun name tmpl => Ev (GetTemplate (mkKey (om_Namespace (t_Meta test)) name)) (Ok tmpl) ∈ tr)
             (ts_Use (t_Spec test)) tmpls ∧
    Resolver.resolve_merged (Resolver.merge_all tmpls test).1 test run (Resolver.mkOptions (cf_ResolverEnv cfg) "") = Ok spec ∧
    Resolver.ValidateResolved spec = None.

Lemma store_answers ns name tr tmpl :
  exec (template_store cfg ns name) tr (Ok (Some tmpl)) → Ev (GetTemplate (mkKey ns name)) (Ok tmpl) ∈ tr.
Proof.
  unfold template_store. case_match.
  - unfold ClientTemplateStore_Get. intros ([t|e] & tr' & -> & [_ Hr]%exec_ret_inv)%exec_perform_bind_inv.
    + injection Hr as ->. left.
    + by case_match.
  - by intros [_ ?]%exec_ret_inv.
Qed.

Lemma resolveSpec_ok test run tr spec : exec (resolveSpec cfg test run) tr (Ok spec) → resolved_from tr test run spec.
Proof.
  unfold resolveSpec, Resolver.Resolve, Resolver.MergeTemplates.
  intros (t1 & t2 & s & -> & Hex & [-> Hs]%exec_ret_inv)%exec_bind_inv. rewrite app_nil_r.
  destruct s as [spec'|e]; [|done]. destruct (Resolver.ValidateResolved spec') eqn:Ev; [done|]. injection Hs as ->.
  apply exec_bind_inv in Hex as (t3 & t4 & m & -> & Hex & [-> Hm]%exec_ret_inv). rewrite app_nil_r.
  destruct m as [[merged tool]|e]; [|done].
  apply exec_bind_inv in Hex as (t5 & t6 & m' & -> & Hex & [-> Hm']%exec_ret_inv). rewrite app_nil_r.
  destruct m' as [[merged' tool']|e]; [|done]. injection Hm' as -> _.
  apply Resolver.merge_uses_fetched in Hex as (tmpls & Hall & Hf). exists tmpls. split; [|split; [|done]].
  - eapply Forall2_impl; [exact Hall|]. intros n t (tr' & Hsub & Hget%store_answers). by apply Hsub.
  - unfold Resolver.merge_all. rewrite <- Hf. done.
Qed.

Lemma resolved_from_mono tr tr' test run spec : tr ⊆ tr' → resolved_from tr test run spec → resolved_from tr' test run spec.
Proof.
  intros Hs (tmpls & Hall & Hr). exists tmpls. split; [|done]. eapply Forall2_impl; [exact Hall|]. intros n t Hin. by apply Hs.
Qed.

(** ** The run is started *)

Lemma setup_spec_passed run tr test spec :
  exec (setup_spec cfg run) tr (inr (test, spec)) →
  Ev (GetTest (mkKey (run_ns run) (rs_TestRef (r_Spec run)))) (Ok test) ∈ tr ∧ resolved_from tr test run spec ∧
  PodPolicy.Policy_Check (cf_PodPolicy cfg) (Some spec) (rs_Pod (r_Spec run)) = None ∧
  Forall (data_present tr (run_ns run)) (ct_TestData (ts_Content spec)) ∧
  Forall (source_present tr (run_ns run)) (volumeRefs (setup_volumes spec run)).
Proof.
  assert (Hfail : ∀ reason msg tr, ¬ exec (r ← transitionTerminal cfg run PhaseError reason msg; Ret (inl r)) tr
                                       (inr (test, spec) : Out + Test * TestSpec)).
  { intros reason msg tr' (t1 & t2 & a & -> & _ & Hr)%exec_bind_inv. by apply exec_ret_inv in Hr as [_ ?]. }
  unfold setup_spec. intros (t & tr1 & -> & Hex)%exec_perform_bind_inv. destruct t as [test'|e].
  2: { destruct (is_kind ENotFound e); [|by apply exec_ret_inv in Hex as [_ ?]].
       apply exec_bind_inv in Hex as (t1 & t2 & [[]|] & -> & _ & Hex); try by apply exec_ret_inv in Hex as [_ ?].
       by apply Hfail in Hex. }
  apply exec_bind_inv in Hex as (t0 & tr2 & s & -> & Hspec & Hex). destruct s as [spec'|e]; [|by apply Hfail in Hex].
  destruct (PodPolicy.Policy_Check _ (Some spec') _) eqn:Epol; [by apply Hfail in Hex|].
  apply exec_bind_inv in Hex as (t1 & t2 & e & -> & Hdata & Hex). destruct e as [e|].
  { destruct (_ || _); [by apply Hfail in Hex|by apply exec_ret_inv in Hex as [_ ?]]. }
  apply exec_bind_inv in Hex as (t3 & t4 & e & -> & Hvol & Hex). destruct e as [e|].
  { destruct (is_kind _ _); [by apply Hfail in Hex|by apply exec_ret_inv in Hex as [_ ?]]. }
  apply exec_bind_inv in Hex as (t5 & t6 & g & -> & _ & Hex). destruct g as [msg|]; [by apply Hfail in Hex|].
  apply exec_ret_inv in Hex as [-> [= -> ->]].
  split_and!; [left|eapply resolved_from_mono; [|by apply resolveSpec_ok]; set_solver|done|..].
  - eapply Forall_impl; [by apply checkTestData_passed|]. intros d. apply present_mono. set_solver.
  - eapply Forall_impl; [by apply checkPodVolumes_passed|]. intros ref. apply present_mono. set_solver.
Qed.

(** The runs [setup] lets the concurrency policy see, of those it listed. *)
Definition same_test (run : TestRun) (listed : list TestRun) : list TestRun :=
  List.filter (fun p => (rs_TestRef (r_Spec p) =? rs_TestRef (r_Spec run))%string) listed.

Lemma status_writes_app tr1 tr2 : status_writes (tr1 ++ tr2) = status_writes tr1 ++ status_writes tr2.
Proof. apply bind_app. Qed.

Lemma status_writes_cons e tr : status_writes (e :: tr) = status_write e ++ status_writes tr.
Proof. done. Qed.

(** What the snapshot writes. *)
Lemma snapshot_writes run test spec tr out w :
  exec (snapshot cfg run test spec) tr out → w ∈ status_writes tr →
  st_ResolvedSpec (r_Status w.1) = SnapshotOf spec ∧ run_phase w.1 = PhaseQueued ∧ st_Message (r_Status w.1) = "".
Proof.
  unfold snapshot. intros (t0 & tr1 & tool & -> & Htool & Hex)%exec_bind_inv Hw.
  assert (Ht0 : status_writes t0 = []).
  { apply (quiet_records (toolFor cfg test) t0 tool); [|done]. apply only_always, (resolve_always cfg _ test run). done. }
  apply exec_bind_inv in Hex as (t1 & t2 & run1 & -> & Hq & Hex).
  assert (Hrun1 : (st_ResolvedSpec (r_Status run1) = SnapshotOf spec ∧ run_phase run1 = PhaseQueued ∧ st_Message (r_Status run1) = "")
            ∧ status_writes t1 = []).
  { unfold stamp_queued in Hq. destruct (st_QueuedAt _).
    - by apply exec_ret_inv in Hq as [-> ->].
    - by apply exec_perform_bind_inv in Hq as (now & t3 & -> & [-> ->]%exec_ret_inv). }
  destruct Hrun1 as [Hrun1 Ht1].
  apply exec_perform_bind_inv in Hex as (e & t3 & -> & Hex).
  assert (Ht3 : status_writes t3 = []).
  { destruct e as [e|]; [by apply exec_ret_inv in Hex as [-> _]|].
    apply exec_bind_inv in Hex as (t4 & t5 & [] & -> & Hrec & [-> _]%exec_ret_inv).
    rewrite app_nil_r. by apply (quiet_records _ t4 tt (recordLatestRun_quiet run1 true)). }
  rewrite !status_writes_app, status_writes_cons, Ht0, Ht1, Ht3 in Hw. cbn in Hw.
  apply list_elem_of_singleton in Hw as ->. exact Hrun1.
Qed.

Lemma unstarted_writes {A} (p : prog Op A) tr a w :
  always starts_nothing p (fun _ => True) → exec p tr a → w ∈ status_writes tr → unstarted w.1.
Proof. intros Hp Hex. destruct (always_sound _ _ _ _ _ Hp Hex) as [Hall _]. by apply starts_nothing_writes. Qed.

Lemma abort_unstarted prior run : always starts_nothing (abortRun prior run) (fun _ => True).
Proof. unfold abortRun, requestAbort. by case_match. Qed.

End Setup.

(** C5: A run is started (its snapshot written) only when, in the same event, its
    Test was read and resolved, over the templates read for it, to that snapshot; the pod policy accepted it; every test-data object
    and every required volume source was read and had the keys picked from it; the
    runs of the Test were listed and the concurrency policy, scheduled runs left
    out, did not make it wait; and under Replace every active run was asked to
    abort (unless it already had been).  The run is then queued with no message. *)
Theorem setup_starts_when_checked `{!Components} cfg run tr out w :
  snapshot_is_empty (st_ResolvedSpec (r_Status run)) = true →
  exec (setup cfg run) tr out → w ∈ status_writes tr →
  snapshot_is_empty (st_ResolvedSpec (r_Status w.1)) = false →
  ∃ test spec listed now,
    st_ResolvedSpec (r_Status w.1) = SnapshotOf spec ∧ run_phase w.1 = PhaseQueued ∧ st_Message (r_Status w.1) = "" ∧
    Ev (GetTest (mkKey (run_ns run) (rs_TestRef (r_Spec run)))) (Ok test) ∈ tr ∧ resolved_from cfg tr test run spec ∧
    PodPolicy.Policy_Check (cf_PodPolicy cfg) (Some spec) (rs_Pod (r_Spec run)) = None ∧
    Forall (data_present cfg tr (run_ns run)) (ct_TestData (ts_Content spec)) ∧
    Forall (source_present cfg tr (run_ns run)) (volumeRefs (setup_volumes spec run)) ∧
    Ev (ListRuns (run_ns run)) (Ok listed) ∈ tr ∧ Ev Now now ∈ tr ∧
    setup_decision (same_test run listed) run (ts_ConcurrencyPolicy spec) now ≠ ConcurrencyWait ∧
    (setup_decision (same_test run listed) run (ts_ConcurrencyPolicy spec) now = ConcurrencyReplacePrior →
     Forall (fun prior => is_Some (rs_Abort (r_Spec prior)) ∨
               ∃ resp, Ev (PatchAbort prior (mkAbort AbortReasonConcurrency "superseded by a Replace-policy run" (run_name run))) resp ∈ tr)
       (SelectPriorsToAbort (List.filter (fun p => negb (waitingForSchedule p now)) (same_test run listed)) (Some run))).
Proof.
  intros Hrun Hex Hw Hst. unfold setup in Hex.
  apply exec_bind_inv in Hex as (t1 & t2 & s & -> & Hspec & Hex).
  assert (Hw1 : w ∉ status_writes t1).
  { intros Hin. apply (unstarted_writes _ _ _ _ (setup_spec_unstarted cfg run Hrun) Hspec) in Hin.
    unfold unstarted in Hin. congruence. }
  rewrite status_writes_app in Hw. apply elem_of_app in Hw as [?|Hw]; [done|].
  destruct s as [o|[test spec]]; [by apply exec_ret_inv in Hex as [-> _]; apply not_elem_of_nil in Hw|].
  apply setup_spec_passed in Hspec as (Htest & Hres & Hpol & Hdata & Hvols).
  unfold listPriorRuns in Hex. apply exec_bind_inv in Hex as (t3 & t4 & p & -> & Hp & Hex).
  apply exec_perform_bind_inv in Hp as (l & t3' & -> & [-> ->]%exec_ret_inv).
  destruct l as [listed|e]; [|by apply exec_ret_inv in Hex as [-> _]; apply not_elem_of_nil in Hw].
  fold (same_test run listed) in Hex. apply exec_perform_bind_inv in Hex as (now & t5 & -> & Hex).
  change (w ∈ status_writes t5) in Hw.
  exists test, spec, listed, now. unfold setup_decision.
  destruct (DecideConcurrency _ _ _) eqn:Edec.
  - apply (snapshot_writes cfg _ _ _ _ _ w) in Hex as (? & ? & ?); [|done].
    split_and!; [done..|set_solver|apply (resolved_from_mono cfg t1); [set_solver|done]|done
                |eapply Forall_impl; [exact Hdata|intros d; apply present_mono; set_solver]
                |eapply Forall_impl; [exact Hvols|intros d; apply present_mono; set_solver]|set_solver|set_solver|done|done].
  - exfalso. apply (unstarted_writes _ _ _ _ (waitForPriors_unstarted cfg run _ Hrun) Hex) in Hw.
    unfold unstarted in Hw. congruence.
  - apply exec_bind_inv in Hex as (t6 & t7 & e & -> & Hab & Hex).
    rewrite status_writes_app in Hw. apply elem_of_app in Hw as [Hw|Hw].
    { exfalso. eapply (unstarted_writes _ _ _ _) in Hab; [|by apply (each_or_error_always _ _ _ (fun _ => True)); [intros; apply abort_unstarted|]|exact Hw].
      unfold unstarted in Hab. congruence. }
    destruct e as [e|]; [by apply exec_ret_inv in Hex as [-> _]; apply not_elem_of_nil in Hw|].
    apply (snapshot_writes cfg _ _ _ _ _ w) in Hex as (? & ? & ?); [|done].
    split_and!; [done..|set_solver|apply (resolved_from_mono cfg t1); [set_solver|done]|done
                |eapply Forall_impl; [exact Hdata|intros d; apply present_mono; set_solver]
                |eapply Forall_impl; [exact Hvols|intros d; apply present_mono; set_solver]|set_solver|set_solver|done|].
    intros _. apply Forall_forall. intros prior Hin.
    destruct (each_or_error_passed _ _ _ Hab _ Hin) as (trx & Hsub & Hx).
    unfold abortRun, requestAbort in Hx.
    apply list_elem_of_In, filter_In in Hin as [_ Hact]. unfold active_prior in Hact.
    apply andb_prop in Hact as [_ Hact%negb_true_iff]. rewrite Hact, orb_false_r in Hx.
    destruct (bool_decide (is_Some _)) eqn:Eb; [left; by apply bool_decide_eq_true in Eb|right].
    apply exec_perform_bind_inv in Hx as (resp & t8 & -> & _). exists resp. set_solver.
Qed.

(** ** A concrete setup *)

Definition demo_fresh : TestRun :=
  mkTestRun (mkMeta "smoke-1" "ns" "u1" ∅ ∅ 1 None [FinalizerName] [])
    (mkRunSpec "smoke" ∅ None ∅ "api" None None) zeroStatus.

(** The Test exists, takes its image from a template and has test data; the
    ConfigMap has the key. *)
Definition demo_test_spec : TestSpec :=
  mkTestSpec (mkContent None [] [] [mkTestData "users" "" "/data" [mkTestDataItem "users.csv" "u.csv"]])
    (mkContainer "" "" "" [] ["{{ run.id }}"] [] [] ∅ ∅ None []) ["k6"] None ∅ None None None "" ∅ None PolicyForbid None None None [].
Definition demo_template : TestTemplate :=
  mkTemplate (mkMeta "k6" "ns" "m1" {[ Resolver.LabelTool := "k6" ]} ∅ 0 None [] [])
    (mkTemplateSpec (mkContent None [] [] []) (mkContainer "grafana/k6" "" "" ["k6"; "run"] [] [] [] ∅ ∅ None [])
       None ∅ None None None ∅ None None None None).
Definition demo_data_spec : TestSpec :=
  mkTestSpec (mkContent None [] [] [mkTestData "users" "" "/data" [mkTestDataItem "users.csv" "u.csv"]])
    (mkContainer "grafana/k6" "" "" ["k6"; "run"] ["smoke-1"] [] [] ∅ ∅ None []) ["k6"] None ∅ None None None "" ∅ None
    PolicyForbid None None None [].
Definition answer_setup : ∀ R, Op R → unit → R * unit := fun R o w =>
  match o in Op R return R * unit with
  | GetTest _ => (Ok (mkTest (mkMeta "smoke" "ns" "t1" ∅ ∅ 0 None [] []) demo_test_spec None), w)
  | GetTemplate _ => (Ok demo_template, w)
  | GetDataKeys _ _ _ => (Ok ["users.csv"], w)
  | ListRuns _ => (Ok [demo_fresh], w)
  | o => answer None _ o w
  end.

Definition demo_setup : Out * unit * list (event Op) :=
  Effects.run answer_setup (setup (H := demo_components) demo_config demo_fresh) tt.
Definition demo_written : TestRun :=
  upd_status (fun s => set_QueuedAt (Some 1000%Z) (set_Phase PhaseQueued (set_Tool "k6"
    (set_ResolvedSpec (SnapshotOf demo_data_spec) s)))) demo_fresh.

Lemma demo_setup_writes : status_writes demo_setup.2 = [(demo_written, None)].
Proof. vm_compute. reflexivity. Qed.

Lemma setup_starts_when_checked_witness :
  ∃ spec, st_ResolvedSpec (r_Status demo_written) = SnapshotOf spec ∧
    Forall (data_present demo_config demo_setup.2 "ns") (ct_TestData (ts_Content spec)).
Proof.
  destruct (setup_starts_when_checked demo_config demo_fresh demo_setup.2 demo_setup.1.1 (demo_written, None)
    eq_refl (run_exec answer_setup _ tt)
    (eq_ind_r (fun ws => (demo_written, None) ∈ ws) (proj2 (list_elem_of_singleton _ _) eq_refl) demo_setup_writes) eq_refl)
    as (test & spec & listed & now & H1 & _ & _ & _ & _ & _ & H2 & _).
  exists spec. split; [exact H1|exact H2].
Defined.

End SetupSpec.
