(* ===== verification/CleanupSpec.v ===== *)
(** * Finished and deleted runs, and what composite runs leave out

    A terminal run is frozen: it is persisted, and in the end removed, never
    changed.  A run being deleted keeps its finalizer until its Job is gone. *)
From S2P Require Import Prelude PodPolicy Api GoLib Keys Composer Concurrency Phases Stages Effects Ops Lifecycle Services Composite Parallel ParallelSpec Reconciler ReconcilerSpec SetupSpec Webhooks.

Module CleanupSpec.
Import Services Composite Parallel Reconciler ReconcilerSpec SetupSpec.

(** ** Finished runs *)

(** What may be done for a finished run without changing an object: reads, the
    copy of this run as it is, and of its test cases, in history, and the
    in-process note that it is there. *)
Definition keeps (run : TestRun) (R : Type) (o : Op R) : bool :=
  match o with
  | Now | PersistedLoad _ | ListChildren _ _ _ => true
  | ReadResult r | SaveFinished r | ReadWorkerResult r _ | SaveTestCases r _ => bool_decide (r = run)
  | PersistedStore k => bool_decide (k = run_key run)
  | _ => false
  end.

Definition quiet_event (run : TestRun) (e : event Op) : Prop := match e with Ev o _ => keeps run _ o = true end.

Lemma keeps_trace {A} run (p : prog Op A) tr a :
  guards (only (keeps run)) tt p (fun _ _ => True) → exec p tr a → Forall (quiet_event run) tr.
Proof. intros Hq Hex. by destruct (only_sound (keeps run) p (fun _ => True) tr a Hq Hex) as [Hall _]. Qed.

#[local] Ltac kept_op := unfold only, keeps; rewrite ?bool_decide_eq_true_2 by reflexivity; reflexivity.
#[local] Ltac kept := repeat (first
  [ eapply guards_perform_bind; [kept_op|intros ?; cbn beta]
  | eapply guards_perform; [kept_op|intros ?; cbn beta]
  | gstep ]; try done).

Section Persist.
Context (cfg : Config) (run : TestRun).

Lemma worker_cases_kept `{!Components} ws : guards (only (keeps run)) tt (worker_cases run ws) (fun _ _ => True).
Proof.
  unfold worker_cases. eapply guards_mono.
  - apply (guards_for_state (only (keeps run)) (fun _ _ => True) (fun _ _ => True)); [done|]. intros. unfold ReadWorker. kept.
  - done.
Qed.

Lemma persistTestCases_kept `{!Components} : guards (only (keeps run)) tt (persistTestCases cfg run) (fun _ _ => True).
Proof.
  unfold persistTestCases, save_cases, Read. case_match; [done|]. case_match; [|kept].
  case_match; [done|]. eapply guards_seq; [apply worker_cases_kept|]. intros [e|cases] [] _; kept.
Qed.

Lemma persistFinished_kept `{!Components} : guards (only (keeps run)) tt (persistFinished cfg run) (fun _ _ => True).
Proof.
  unfold persistFinished. case_match; [done|]. kept.
  eapply guards_seq; [apply persistTestCases_kept|]. intros [e|] [] _; kept.
Qed.
End Persist.

Lemma children_pending_trace run kids tr b :
  exec (children_pending kids) tr b →
  Forall (quiet_event run) tr ∧
  (b = false → Forall (fun k => IsTerminalPhase (run_phase k) = true ∧ Ev (PersistedLoad (run_key k)) true ∈ tr) kids).
Proof.
  revert tr. induction kids as [|k kids IH]; intros tr; cbn [children_pending].
  { intros [-> ->]%exec_ret_inv. done. }
  destruct (IsTerminalPhase (run_phase k)) eqn:Et; cbn [negb].
  2: { intros [-> ->]%exec_ret_inv. done. }
  unfold isPersisted. intros (p & tr' & -> & Hex)%exec_perform_bind_inv. destruct p; cbn [negb] in Hex.
  - apply IH in Hex as [Hq Hk]. split; [by constructor|]. intros Hb. constructor; [split; [done|left]|].
    eapply Forall_impl; [by apply Hk|]. intros x [? ?]. split; [done|by right].
  - apply exec_ret_inv in Hex as [-> ->]. split; [by constructor|done].
Qed.

(** When the removal of [run] is due. *)
Definition expired (cfg : Config) (run : TestRun) (tr : list (event Op)) : Prop :=
  cf_RunStore cfg = true ∧ (0 < cf_FinishedRunTTL cfg)%Z ∧ label_of (om_Labels (r_Meta run)) LabelParentRun = "" ∧
  Ev (PersistedLoad (run_key run)) true ∈ tr ∧
  (∃ finished now, st_FinishedAt (r_Status run) = Some finished ∧ Ev Now now ∈ tr ∧
     (time_sub (finished + cf_FinishedRunTTL cfg) now <= 0)%Z) ∧
  (isCompositeRun run = true → ∃ kids,
     Ev (ListChildren (cf_APIReader cfg) (run_ns run) (run_name run)) (Ok kids) ∈ tr ∧
     Forall (fun k => IsTerminalPhase (run_phase k) = true ∧ Ev (PersistedLoad (run_key k)) true ∈ tr) kids).

Definition frozen_event (run : TestRun) (e : event Op) : Prop :=
  quiet_event run e ∨ ∃ r, e = Ev (DeleteRun run) r.

Definition deletes (run : TestRun) (tr : list (event Op)) : Prop := ∃ r, Ev (DeleteRun run) r ∈ tr.

Lemma quiet_frozen run tr : Forall (quiet_event run) tr → Forall (frozen_event run) tr.
Proof. intros H. eapply Forall_impl; [exact H|]. by left. Qed.

Lemma quiet_no_deletes run tr : Forall (quiet_event run) tr → ¬ deletes run tr.
Proof. intros Hq [r Hin]. rewrite Forall_forall in Hq. by apply Hq in Hin. Qed.

Lemma run_insert_elem x y xs : x ∈ run_insert y xs ↔ x = y ∨ x ∈ xs.
Proof. induction xs as [|z zs IH]; cbn; [set_solver|]. case_match; set_solver. Qed.

Lemma sort_by_name_elem x xs : x ∈ sort_by_name xs ↔ x ∈ xs.
Proof. induction xs as [|y ys IH]; cbn; [done|]. rewrite run_insert_elem, IH. set_solver. Qed.

Section Cleanup.
Context `{!Components} (cfg : Config).

Lemma delete_expired_trace run tr out : exec (delete_expired run) tr out → ∃ r, tr = [Ev (DeleteRun run) r].
Proof. unfold delete_expired. intros (r & tr' & -> & [-> _]%exec_ret_inv)%exec_perform_bind_inv. by exists r. Qed.

(** A part of the trace that removes nothing. *)
Lemma frozen_quiet run tr (out : Out) : Forall (quiet_event run) tr → out.1 = run →
  Forall (frozen_event run) tr ∧ out.1 = run ∧ (deletes run tr → expired cfg run tr).
Proof.
  intros Hq Ho. split_and!; [by apply quiet_frozen|done|]. intros Hd. by apply quiet_no_deletes in Hd.
Qed.

Lemma listChildRuns_inv run tr res :
  exec (listChildRuns cfg run) tr res →
  Forall (quiet_event run) tr ∧
  ∀ kids, res = Ok kids → ∃ listed, Ev (ListChildren (cf_APIReader cfg) (run_ns run) (run_name run)) (Ok listed) ∈ tr ∧
    ∀ k, k ∈ listed ↔ k ∈ kids.
Proof.
  intros (l & tr' & -> & [-> ->]%exec_ret_inv)%exec_perform_bind_inv. split; [by repeat constructor|].
  intros kids Hl. destruct l as [listed|e]; [|done]. injection Hl as <-. exists listed. split; [left|].
  intros k. by rewrite sort_by_name_elem.
Qed.

Lemma expireFinished_trace run tr out :
  exec (expireFinished cfg run) tr out →
  Forall (frozen_event run) tr ∧ out.1 = run ∧ (deletes run tr → expired cfg run tr).
Proof.
  unfold expireFinished. destruct (st_FinishedAt (r_Status run)) as [finished|] eqn:Ef.
  2: { intros [-> ->]%exec_ret_inv. by apply frozen_quiet. }
  destruct (_ || _) eqn:Eg; [intros [-> ->]%exec_ret_inv; by apply frozen_quiet|].
  apply orb_false_iff in Eg as [[Ettl Estore]%orb_false_iff Eparent].
  apply Z.leb_gt in Ettl. apply negb_false_iff in Estore, Eparent.
  unfold isPersisted. intros (p & tr1 & -> & Hex)%exec_perform_bind_inv. destruct p; cbn [negb] in Hex.
  2: { apply exec_ret_inv in Hex as [-> ->]. apply frozen_quiet; [by repeat constructor|done]. }
  apply exec_perform_bind_inv in Hex as (now & tr2 & -> & Hex). cbv zeta in Hex.
  destruct (0 <? _)%Z eqn:Eleft.
  { apply exec_ret_inv in Hex as [-> ->]. apply frozen_quiet; [by repeat constructor|done]. }
  apply Z.ltb_ge in Eleft.
  assert (Hdel : ∀ pre tr3, Forall (quiet_event run) pre → exec (delete_expired run) tr3 out →
            (isCompositeRun run = true → ∃ kids,
               Ev (ListChildren (cf_APIReader cfg) (run_ns run) (run_name run)) (Ok kids) ∈ pre ∧
               Forall (fun k => IsTerminalPhase (run_phase k) = true ∧ Ev (PersistedLoad (run_key k)) true ∈ pre) kids) →
            let tr := Ev (PersistedLoad (run_key run)) true :: Ev Now now :: pre ++ tr3 in
            Forall (frozen_event run) tr ∧ out.1 = run ∧ (deletes run tr → expired cfg run tr)).
  { intros pre tr3 Hq (r & t4 & -> & [-> ->]%exec_ret_inv)%exec_perform_bind_inv Hkids. cbv zeta. split_and!.
    - do 2 (constructor; [by left|]). apply Forall_app. split; [by apply quiet_frozen|].
      constructor; [right; by exists r|constructor].
    - done.
    - intros _. split_and!; [done|done|by destruct (label_of _ _)|left|exists finished, now; split_and!; [done|right; left|done]|].
      intros Hc. destruct (Hkids Hc) as (kids & Hin & Hall). exists kids. split; [set_solver|].
      eapply Forall_impl; [exact Hall|]. intros k [? ?]. split; [done|set_solver]. }
  destruct (isCompositeRun run) eqn:Ec.
  2: { change tr2 with ([] ++ tr2). apply Hdel; [done|exact Hex|done]. }
  apply exec_bind_inv in Hex as (t1 & t2 & res & -> & Hl & Hex).
  apply listChildRuns_inv in Hl as [Hq1 Hkids]. destruct res as [kids|e].
  2: { apply exec_ret_inv in Hex as [-> ->]. apply frozen_quiet; [|done].
       do 2 (constructor; [done|]). rewrite app_nil_r. done. }
  apply exec_bind_inv in Hex as (t3 & t4 & b & -> & Hp & Hex). apply (children_pending_trace run) in Hp as [Hq3 Hall].
  destruct b.
  { apply exec_ret_inv in Hex as [-> ->]. apply frozen_quiet; [|done].
    do 2 (constructor; [done|]). rewrite app_nil_r. by apply Forall_app. }
  rewrite app_assoc. apply Hdel; [by apply Forall_app|exact Hex|]. intros _.
  destruct (Hkids kids eq_refl) as (listed & Hin & Hsame). exists listed. split; [set_solver|].
  apply Forall_forall. intros k Hk%Hsame. specialize (Hall eq_refl). rewrite Forall_forall in Hall.
  apply Hall in Hk as [? ?]. split; [done|set_solver].
Qed.
End Cleanup.

(** C6: A terminal run is frozen: an event of one that is not being deleted, with its
    finalizer, writes no object.  It reads, saves this run as it is and its test cases
    in history, notes that it is there, and, as the one change, removes this run.  It
    removes it only when the retention of finished runs is on with a run store, the
    run is not a composite's child, it is in run history, its TTL has passed, and, for
    a composite, all its children are finished and in history too. *)
Theorem terminal_run_frozen `{!Components} cfg run tr out :
  om_DeletionTimestamp (r_Meta run) = None → ContainsFinalizer run = true → IsTerminalPhase (run_phase run) = true →
  exec (reconcile_run cfg run) tr out →
  Forall (frozen_event run) tr ∧ out.1 = run ∧ (deletes run tr → expired cfg run tr).
Proof.
  intros Hdel Hfin Ht Hex. unfold reconcile_run in Hex. rewrite Hdel, Hfin, Ht in Hex. cbn [negb] in Hex.
  rewrite bool_decide_eq_false_2 in Hex by (by intros []).
  apply exec_bind_inv in Hex as (t1 & t2 & [] & -> & Hp & Hex).
  apply (keeps_trace _ _ _ _ (persistFinished_kept cfg run)) in Hp as Hq.
  apply expireFinished_trace in Hex as (Hf & Ho & Hd). split_and!; [|done|].
  - apply Forall_app. split; [by apply quiet_frozen|done].
  - intros [r Hin]. apply elem_of_app in Hin as [Hin|Hin]; [exfalso; eapply quiet_no_deletes; [exact Hq|by exists r]|].
    destruct (Hd (ex_intro _ r Hin)) as (? & ? & ? & ? & (f & now & ? & ? & ?) & Hkids).
    split_and!; [done..|set_solver|exists f, now; split_and!; [done|set_solver|done]|].
    intros Hc. destruct (Hkids Hc) as (kids & ? & Hall). exists kids. split; [set_solver|].
    eapply Forall_impl; [exact Hall|]. intros k [? ?]. split; [done|set_solver].
Qed.

(** *** A concrete expiry *)

Definition demo_expiring : TestRun := upd_status (fun s => set_FinishedAt (Some 600%Z) (set_Phase PhasePassed s)) demo_leaf.
Definition demo_ttl_config : Config := mkConfig false true false false false false 300 (30 * second) (10 * second) 0 (PodPolicy.mkPolicy [] false) true ∅ demo_compiler.
Definition answer_persisted : ∀ R, Op R → unit → R * unit := fun R o w =>
  match o in Op R return R * unit with
  | PersistedLoad _ => (true, w)
  | o => answer None _ o w
  end.
Definition demo_expiry : Out * unit * list (event Op) :=
  Effects.run answer_persisted (reconcile_run (H := demo_components) demo_ttl_config demo_expiring) tt.

Lemma demo_expiry_deletes : deletes demo_expiring demo_expiry.2.
Proof. exists None. vm_compute. repeat first [left | right]. Qed.

Lemma terminal_run_frozen_witness : expired demo_ttl_config demo_expiring demo_expiry.2.
Proof.
  exact (proj2 (proj2 (terminal_run_frozen demo_ttl_config demo_expiring demo_expiry.2 demo_expiry.1.1
    eq_refl eq_refl eq_refl (run_exec answer_persisted _ tt))) demo_expiry_deletes).
Defined.

(** ** Deleted runs *)

(** The run's own Job is gone: it was not found, or its deletion was accepted. *)
Definition Job_gone (run : TestRun) (tr : list (event Op)) : Prop :=
  (∃ e, Ev (GetJob false (run_key run)) (Err e) ∈ tr ∧ e_Kind e = ENotFound) ∨
  (∃ job resp, Ev (GetJob false (run_key run)) (Ok job) ∈ tr ∧ Ev (DeleteJob (job_key job)) resp ∈ tr ∧ IgnoreNotFound resp = None).

(** Operations other than updates of a TestRun. *)
Definition no_update (R : Type) (o : Op R) : bool := match o with UpdateRun _ => false | _ => true end.

Lemma no_update_events {A} (p : prog Op A) tr a r e :
  guards (only no_update) tt p (fun _ _ => True) → exec p tr a → Ev (UpdateRun r) e ∉ tr.
Proof.
  intros Hq Hex Hin. destruct (only_sound no_update p (fun _ => True) tr a Hq Hex) as [Hall _].
  rewrite Forall_forall in Hall. by apply Hall in Hin.
Qed.

Lemma stopWorkers_no_update `{!Components} cfg run : guards (only no_update) tt (stopWorkers cfg run) (fun _ _ => True).
Proof.
  unfold stopWorkers. case_match; [|done]. case_match; [|done].
  apply (guards_for_each _ (fun _ => True)); [done|]. intros w [] _ _.
  unfold stop_worker_tailers, when. apply guards_bind. case_match.
  - do 3 gstep. destruct r1; [|done]. unfold deleteJobBackground. apply guards_bind, guards_bind. by gstep.
  - gstep. gstep. destruct r; [|done]. unfold deleteJobBackground. apply guards_bind, guards_bind. by gstep.
Qed.

Lemma tailers_no_update (cfg : Config) a b :
  guards (only no_update) tt (when (cf_LogRegistry cfg) (_ ← perform (StopTailer a); perform (StopTailer b))) (fun _ _ => True).
Proof. unfold when. by case_match. Qed.

Lemma split_update {A} (p : prog Op A) tra trb a tr1 r e tr2 :
  guards (only no_update) tt p (fun _ _ => True) → exec p tra a →
  tra ++ trb = tr1 ++ Ev (UpdateRun r) e :: tr2 → ∃ tr1', tr1 = tra ++ tr1' ∧ trb = tr1' ++ Ev (UpdateRun r) e :: tr2.
Proof.
  intros Hp Hex Heq. pose proof (no_update_events _ _ _ r e Hp Hex) as Hno.
  apply app_eq_inv in Heq as [(k & Ha & Hb)|(k & -> & ->)]; [|by exists k].
  destruct k as [|x k].
  - rewrite app_nil_r in Ha. subst. exists []. by rewrite app_nil_r.
  - exfalso. injection Hb as <- _. apply Hno. subst. set_solver.
Qed.

Definition updated_run (e : event Op) : option TestRun := match e with Ev (UpdateRun r) _ => Some r | _ => None end.

Lemma update_run_inv run pre r e tr2 out :
  exec (update_run run) (pre ++ Ev (UpdateRun r) e :: tr2) out → pre = [] ∧ r = run.
Proof.
  intros (resp & t4 & Ht & [-> _]%exec_ret_inv)%exec_perform_bind_inv. destruct pre as [|z [|? ?]]; [|discriminate..].
  split; [done|]. apply (f_equal (fun tr => head tr ≫= updated_run)) in Ht. by injection Ht.
Qed.

(** A run being deleted gives up its finalizer only when its Job is gone; what is
    written then is the run without the finalizer, and it has been forgotten by the
    set of persisted runs. *)
Theorem finalizer_kept_until_Job_gone `{!Components} cfg run tr out tr1 r e tr2 :
  is_Some (om_DeletionTimestamp (r_Meta run)) → ContainsFinalizer run = true →
  exec (reconcile_run cfg run) tr out → tr = tr1 ++ Ev (UpdateRun r) e :: tr2 →
  Job_gone run tr1 ∧ r = RemoveFinalizer run ∧ ContainsFinalizer r = false ∧ Ev (PersistedDelete (run_key run)) tt ∈ tr1.
Proof.
  intros Hdel Hfin Hex ->. unfold reconcile_run in Hex. rewrite bool_decide_eq_true_2 in Hex by done.
  unfold finalize in Hex. rewrite Hfin in Hex. cbn [negb] in Hex.
  assert (Hgone : ContainsFinalizer (RemoveFinalizer run) = false).
  { apply bool_decide_eq_false. intros Hin. cbn in Hin. apply list_elem_of_In, filter_In in Hin as [_ Hf]. done. }
  apply exec_bind_inv in Hex as (ta & tb & [] & Heq & Ht & Hex).
  symmetry in Heq. apply (split_update _ _ _ _ _ _ _ _ (tailers_no_update cfg _ _) Ht) in Heq as (t1 & -> & ->).
  apply exec_perform_bind_inv in Hex as ([] & tc & Heq & Hex). destruct t1 as [|x t1]; [discriminate|]. injection Heq as -> Heq.
  apply exec_bind_inv in Hex as (td & te & [] & -> & Hs & Hex). symmetry in Heq.
  apply (split_update _ _ _ _ _ _ _ _ (stopWorkers_no_update cfg run) Hs) in Heq as (t2 & -> & ->).
  apply exec_perform_bind_inv in Hex as (j & tf & Heq & Hex). destruct t2 as [|y t2]; [discriminate|]. injection Heq as -> Heq.
  assert (Hpd : ∀ t3, Ev (PersistedDelete (run_key run)) tt ∈ ta ++ Ev (PersistedDelete (run_key run)) tt :: td ++ t3).
  { intros t3. set_solver. }
  destruct j as [job|err].
  - unfold deleteJobBackground in Hex. apply exec_bind_inv in Hex as (tg & th & res & -> & Hd & Hex).
    apply exec_perform_bind_inv in Hd as (resp & ti & -> & [-> ->]%exec_ret_inv).
    destruct t2 as [|z t2]; [discriminate|]. injection Heq as -> Heq.
    destruct (IgnoreNotFound resp) eqn:Eresp; [apply exec_ret_inv in Hex as [-> _]; by destruct t2|].
    cbn [app] in Heq. rewrite <- Heq in Hex. apply update_run_inv in Hex as [-> ->]. split_and!; [|done|done|apply Hpd].
    right. exists job, resp. split_and!; [set_solver|set_solver|done].
  - destruct (is_kind ENotFound err) eqn:Ek; [|apply exec_ret_inv in Hex as [-> _]; by destruct t2].
    rewrite <- Heq in Hex. apply update_run_inv in Hex as [-> ->]. split_and!; [|done|done|apply Hpd].
    left. exists err. split; [set_solver|by apply bool_decide_eq_true in Ek].
Qed.

Definition demo_deleted : TestRun :=
  with_meta (mkMeta "smoke-1" "ns" "u1" ∅ ∅ 1 (Some 900%Z) [FinalizerName; "other"] []) demo_leaf.
Definition demo_deletion : Out * unit * list (event Op) :=
  Effects.run answer_failed (reconcile_run (H := demo_components) demo_config demo_deleted) tt.
Definition demo_before_update : list (event Op) := take (length demo_deletion.2 - 1) demo_deletion.2.

Lemma demo_deletion_split :
  demo_deletion.2 = demo_before_update ++ Ev (UpdateRun (RemoveFinalizer demo_deleted)) None :: [].
Proof. vm_compute. reflexivity. Qed.

Lemma finalizer_kept_until_Job_gone_witness : Job_gone demo_deleted demo_before_update.
Proof.
  exact (proj1 (finalizer_kept_until_Job_gone demo_config demo_deleted demo_deletion.2 demo_deletion.1.1
    demo_before_update _ _ _ (ex_intro _ 900%Z eq_refl) eq_refl (run_exec answer_failed _ tt) demo_deletion_split)).
Defined.

(** ** Scheduled runs *)

(** A run scheduled for later is held: until its start time an event of it writes
    at most its queued status (never a snapshot), and returns to it after exactly
    the time that is left; from the start time on nothing holds it. *)
Theorem scheduled_run_is_held run notBefore tr r :
  snapshot_is_empty (st_ResolvedSpec (r_Status run)) = true → rs_NotBefore (r_Spec run) = Some notBefore →
  exec (waitForNotBefore run) tr r →
  ∃ now tr', tr = Ev Now now :: tr' ∧
    if (now <? notBefore)%Z then
      ∃ run' res, r = inl (run', res) ∧
        Forall (fun w => w.1 = run' ∧ run_phase run' = PhaseQueued ∧ unstarted run' ∧ is_Some (st_QueuedAt (r_Status run')))
          (status_writes tr') ∧
        length tr' ≤ 1 ∧
        (Forall (fun w => w.2 = None) (status_writes tr') → res = Ok (requeue_after (time_sub notBefore now)))
    else tr' = [] ∧ r = inr tt.
Proof.
  intros Hun Hnb. unfold waitForNotBefore. intros (now & tr' & -> & Hex)%exec_perform_bind_inv.
  exists now, tr'. split; [done|]. rewrite Hnb in Hex. unfold Concurrency.waitingForSchedule in Hex. rewrite Hun, Hnb in Hex.
  cbn [andb] in Hex. unfold time_before in Hex. destruct (now <? notBefore)%Z; cbn [negb] in Hex.
  2: by apply exec_ret_inv in Hex.
  destruct (_ || _ || _) eqn:Ew.
  - unfold write_status in Hex. apply exec_bind_inv in Hex as (t1 & t2 & o & -> & Hw & [-> ->]%exec_ret_inv).
    apply exec_perform_bind_inv in Hw as (e & t3 & -> & [-> ->]%exec_ret_inv). cbn [app].
    eexists _, _. split; [done|]. split_and!.
    + unfold status_writes. cbn. constructor; [|constructor]. split_and!; [done|done| |].
      * unfold unstarted. by destruct (st_QueuedAt _).
      * unfold queued_waiting. destruct (st_QueuedAt (r_Status run)) eqn:Eq; cbn; [by rewrite Eq|done].
    + done.
    + intros Hall. apply Forall_cons in Hall as [Hn _]. cbn in Hn. by rewrite Hn.
  - apply exec_ret_inv in Hex as [-> ->]. eexists _, _. split; [done|]. split_and!; [constructor|cbn; lia|done].
Qed.

Definition demo_scheduled : TestRun :=
  mkTestRun (r_Meta demo_fresh) (mkRunSpec "smoke" ∅ None ∅ "api" None (Some 5000%Z)) zeroStatus.

Lemma scheduled_run_is_held_witness :
  ∃ now tr', (Effects.run (answer None) (waitForNotBefore demo_scheduled) tt).2 = Ev Now now :: tr'.
Proof.
  destruct (scheduled_run_is_held demo_scheduled 5000%Z _ _ eq_refl eq_refl
    (run_exec (answer None) (waitForNotBefore demo_scheduled) tt)) as (now & tr' & Htr & _).
  exists now, tr'. exact Htr.
Defined.

(** ** What composite runs leave out *)

(** Neither a delivery enqueued for a webhook nor an increment of the active-runs gauge. *)
Definition silent (R : Type) (o : Op R) : bool := match o with Enqueue _ | ActiveRunsInc _ => false | _ => true end.

Section Composite.
Context `{!Components} (cfg : Config).

Lemma silent_seq {A B} (p : prog Op A) (f : A → prog Op B) :
  guards (only silent) tt p (fun _ _ => True) → (∀ a, guards (only silent) tt (f a) (fun _ _ => True)) →
  guards (only silent) tt (p ≫= f) (fun _ _ => True).
Proof. intros Hp Hf. eapply guards_seq; [exact Hp|]. intros a [] _. apply Hf. Qed.

Lemma transitionTerminal_silent run phase reason msg :
  guards (only silent) tt (transitionTerminal cfg run phase reason msg) (fun _ _ => True).
Proof.
  unfold transitionTerminal. case_match; [done|]. case_match; [done|]. gstep.
  apply silent_seq; [unfold when; by case_match|intros _]. do 3 gstep. case_match; [done|].
  apply silent_seq; [unfold recordLatestRun; repeat (gstep; try done)|intros _].
  apply silent_seq; [|done]. unfold teardownServices. case_match; [|done]. case_match; [done|]. case_match; [|done].
  apply silent_seq; [|intros _].
  - apply (guards_for_each _ (fun _ => True)); [done|]. intros x [] _ _. unfold when. case_match; repeat (gstep; try done).
  - apply (guards_for_each _ (fun _ => True)); [done|]. intros x [] _ _. repeat (gstep; try done).
Qed.

Lemma createChild_silent parent i e a : guards (only silent) tt (createChild parent i e a) (fun _ _ => True).
Proof. unfold createChild. repeat (gstep; try done). Qed.

Lemma ensureStepChildren_silent parent i step kids expected :
  guards (only silent) tt (ensureStepChildren parent i step kids expected) (fun _ _ => True).
Proof.
  assert (Hl : ∀ retries cap inFlight es, guards (only silent) tt (ensure_loop parent i kids retries cap inFlight es) (fun _ _ => True)).
  { intros retries cap inFlight es. revert inFlight. induction es as [|e es IH]; intros n; cbn [ensure_loop]; [done|].
    case_match; [done|]. case_match; [apply IH|]. apply silent_seq; [apply createChild_silent|]. intros [?|]; [done|apply IH]. }
  assert (Hc : guards (only silent) tt (ensure_children parent i step kids expected) (fun _ _ => True)).
  { unfold ensure_children. by case_match. }
  unfold ensureStepChildren. repeat case_match; try done. gstep. by case_match.
Qed.

Lemma create_retries_silent run i rts : guards (only silent) tt (create_retries run i rts) (fun _ _ => True).
Proof.
  induction rts as [|rt rts IH]; cbn [create_retries]; [done|].
  apply silent_seq; [apply createChild_silent|]. by intros [?|].
Qed.

Lemma abortStepChildren_silent parent kids why : guards (only silent) tt (abortStepChildren parent kids why) (fun _ _ => True).
Proof.
  induction kids as [|k ks IH]; cbn [abortStepChildren]; [done|].
  apply silent_seq; [unfold requestAbort; repeat (gstep; try done)|]. by intros [?|].
Qed.

Lemma recordStepAggregate_silent run i v : guards (only silent) tt (recordStepAggregate run i v) (fun _ _ => True).
Proof. unfold recordStepAggregate. apply silent_seq; [by case_match|]. intros sr. by gstep. Qed.

Lemma step_open_silent i step existing w : guards (only silent) tt (step_open cfg i step existing w) (fun _ _ => True).
Proof.
  unfold step_open. apply silent_seq; [apply ensureStepChildren_silent|]. intros [e|]; [done|].
  apply silent_seq; [case_match; [unfold listChildRuns; by gstep|done]|]. intros [kids|e]; [|done].
  destruct (gatherOutcomes _ _ _ _) as [[outcomes allDone] retries].
  apply silent_seq; [apply create_retries_silent|]. intros [e|]; [done|]. case_match.
  - unfold step_in_flight. apply silent_seq; [by case_match|]. intros run. gstep. case_match; [done|].
    case_match; [|done]. case_match; [|done]. case_match; [|done]. gstep. case_match; [|done].
    apply silent_seq; [apply abortStepChildren_silent|]. intros [e|]; [done|].
    apply silent_seq; [apply recordStepAggregate_silent|done].
  - apply silent_seq; [apply recordStepAggregate_silent|done].
Qed.

Lemma reconcileComposite_silent run : guards (only silent) tt (reconcileComposite cfg run) (fun _ _ => True).
Proof.
  unfold reconcileComposite. case_match; [|apply transitionTerminal_silent].
  apply silent_seq; [unfold promote_running; case_match; [done|]; apply silent_seq; [by case_match|intros; gstep; by case_match]|].
  intros [run1|e]; [|done]. apply silent_seq; [unfold listChildRuns; by gstep|]. intros [kids|e]; [|done].
  apply silent_seq.
  - eapply guards_mono; [apply (guards_for_state _ (fun _ _ => True) (fun _ _ => True)); [done|]|done].
    intros [i step] w [] _ _. unfold reconcile_step.
    assert (Hs : guards (only silent) tt (step_open cfg i step (get_step (wk_run w) (step_key i)) w) (fun _ _ => True))
      by apply step_open_silent.
    case_match.
    + eapply guards_seq; [instantiate (1 := fun _ _ => True); by case_match|done].
    + case_match; [done|]. eapply guards_mono; [exact Hs|by intros [?|?]].
  - intros [o|w]; [done|apply transitionTerminal_silent].
Qed.
End Composite.

Definition demo_step1 : Step := mkStep "load" "" false false None None None (Some (mkExecute 0 [mkExecTest "api" 1 ∅])).
Definition demo_spec1 : TestSpec :=
  mkTestSpec (mkContent None [] [] []) zeroContainer [] None ∅ None None None "" ∅ None "" None None None [demo_step1].
Definition demo_composite1 : TestRun :=
  mkTestRun (mkMeta "nightly-1" "ns" "u1" ∅ ∅ 1 None [FinalizerName] []) (mkRunSpec "nightly" ∅ None ∅ "api" None None)
    (set_Phase PhaseQueued (set_ResolvedSpec (SnapshotOf demo_spec1) zeroStatus)).

(** The step's child has passed. *)
Definition answer_child : ∀ R, Op R → unit → R * unit := fun R o w =>
  match o in Op R return R * unit with
  | ListChildren _ _ _ =>
      (Ok ((fun e => upd_status (set_Phase PhasePassed) (child_object demo_composite1 0 e 0)) <$> expectedChildren demo_composite1 demo_step1 0), w)
  | o => answer None _ o w
  end.

(** A composite run is never counted in by the active-runs gauge and its end is
    never announced: whatever the environment answers, an event of it enqueues no
    webhook delivery and does not increment the gauge.  Yet its end decrements the
    gauge: in two events a composite run goes from queued through running to passed
    with no increment, one decrement and no delivery. *)
Theorem composite_run_drifts_and_is_silent :
  (∀ (C : Components) cfg run tr out,
     exec (reconcileComposite (H := C) cfg run) tr out → Forall (event_ok silent) tr) ∧
  let first := Effects.run (answer None) (reconcile_run (H := demo_components) demo_config demo_composite1) tt in
  let second := Effects.run answer_child (reconcile_run (H := demo_components) demo_config first.1.1.1) tt in
  run_phase first.1.1.1 = PhaseRunning ∧ run_phase second.1.1.1 = PhasePassed ∧
  countb is_active_dec (first.2 ++ second.2) = 1.
Proof.
  split; [|vm_compute; done]. intros C cfg run tr out Hex.
  by destruct (only_sound silent _ (fun _ => True) tr out (reconcileComposite_silent cfg run) Hex).
Qed.

Lemma composite_run_drifts_and_is_silent_witness :
  Forall (event_ok silent) (Effects.run (answer None) (reconcileComposite (H := demo_components) demo_config demo_composite1) tt).2.
Proof.
  exact (proj1 composite_run_drifts_and_is_silent demo_components demo_config demo_composite1 _ _
    (run_exec (answer None) (reconcileComposite (H := demo_components) demo_config demo_composite1) tt)).
Defined.

End CleanupSpec.
