(* ===== verification/Dispatcher.v ===== *)
(** * internal/webhookdelivery/dispatcher.go: delivering a webhook

    [deliver] (with [resolveHeaders] and [backoffWait]) is a program over what one
    delivery does: encoding the payload, reading Secrets, building and sending a
    request, counting it, waiting.  [Enqueue] is a program over the non-blocking
    operations of the job channel.  Log lines are left out.  [redactHeaders] has no
    caller but its test. *)
From S2P Require Import Prelude Api GoLib Webhooks Effects.

Module Dispatcher.
Import Webhooks.

Definition DefaultTimeoutSeconds : Z := 10.
Definition DefaultMaxRetries : Z := 5.
Definition DefaultBackoffBase : duration := (250 * millisecond)%Z.
Definition DefaultBackoffMax : duration := (30 * second)%Z.
Definition DefaultQueueBuffer : Z := 512.
Definition DefaultWorkerCount : Z := 4.
Definition RedactedHeaderPlaceholder : string := "<redacted:secret>".

Inductive OutcomeKind :=
| OutcomeSuccess | OutcomeFailedRetry | OutcomeNoRetry4xx | OutcomeTimeout | OutcomeSecretMissing.

Record Outcome := mkOutcome {
  oc_Kind : OutcomeKind; oc_StatusCode : Z; oc_Attempts : Z; oc_Err : option string }.

(** The dispatcher's knobs; [ds_Secrets] says whether a resolver is wired. *)
Record Knobs := mkKnobs {
  ds_Secrets : bool;
  ds_QueueBuffer : Z; ds_WorkerCount : Z;
  ds_BackoffBase : duration; ds_BackoffMax : duration }.

Definition or_default (v d : Z) : Z := if (v =? 0)%Z then d else v.

Definition applyDefaults (d : Knobs) : Knobs :=
  mkKnobs (ds_Secrets d) (or_default (ds_QueueBuffer d) DefaultQueueBuffer)
    (or_default (ds_WorkerCount d) DefaultWorkerCount)
    (or_default (ds_BackoffBase d) DefaultBackoffBase) (or_default (ds_BackoffMax d) DefaultBackoffMax).

Record resolvedHeader := mkResolved { rh_name : string; rh_value : string; rh_secret : bool }.

(** A request: the context's timeout, where, what, and the calls of
    [req.Header.Set] in order. *)
Record Request := mkRequest {
  rq_Timeout : duration; rq_URL : string; rq_Body : string; rq_Headers : list (string * string) }.

(** What [Client.Do] fails with: whether [errors.Is(err, DeadlineExceeded)]. *)
Record SendError := mkSendError { se_Deadline : bool; se_Text : string }.

Inductive DOp : Type → Type :=
| Marshal (p : Payload) : DOp (result string string)
| Secrets (ns name key : string) : DOp (result string string)
| NewRequest (url : string) : DOp (option string)
| Send (rq : Request) : DOp (result SendError Z)
| DeliveriesInc (class : string) : DOp unit
| Sleep (d : duration) : DOp unit.

Section Deliver.
Context (d : Knobs) (j : Delivery).

Definition resolve_header (h : WebhookHeader) : prog DOp (result string resolvedHeader) :=
  match wh_SecretRef h with
  | Some (name, key) =>
      if negb (ds_Secrets d) then
        Ret (Err ("webhook " +:+ (dl_Key j).1 +:+ "/" +:+ (dl_Key j).2 +:+ " header " +:+ quote (wh_Name h)
                  +:+ " references a Secret but no SecretResolver is wired"))
      else
        v ← perform (Secrets (dl_Namespace j) name key);
        match v with
        | Err e => Ret (Err ("resolve secret header " +:+ quote (wh_Name h) +:+ ": " +:+ e))
        | Ok val => Ret (Ok (mkResolved (wh_Name h) val true))
        end
  | None => Ret (Ok (mkResolved (wh_Name h) (wh_Value h) false))
  end.

Fixpoint resolve_headers (hs : list WebhookHeader) : prog DOp (result string (list resolvedHeader)) :=
  match hs with
  | [] => Ret (Ok [])
  | h :: hs =>
      r ← resolve_header h;
      match r with
      | Err e => Ret (Err e)
      | Ok x =>
          rest ← resolve_headers hs;
          match rest with Err e => Ret (Err e) | Ok xs => Ret (Ok (x :: xs)) end
      end
  end.

Definition resolveHeaders : prog DOp (result string (list resolvedHeader)) := resolve_headers (ws_Headers (dl_Spec j)).

(** [*current *= 2], capped. *)
Definition next_backoff (current : duration) : duration :=
  let c := wrap64 (current * 2) in
  if (ds_BackoffMax d <? c)%Z then ds_BackoffMax d else c.

Definition backoffWait (current : duration) : prog DOp duration :=
  _ ← perform (Sleep current); Ret (next_backoff current).

Definition timeout : duration :=
  let t := wrap64 (ws_TimeoutSeconds (dl_Spec j) * second) in
  if (t <=? 0)%Z then (DefaultTimeoutSeconds * second)%Z else t.

Definition maxRetries : Z :=
  let m := ws_MaxRetries (dl_Spec j) in if (m <? 0)%Z then DefaultMaxRetries else m.

Definition is_2xx (code : Z) : bool := ((200 <=? code) && (code <? 300))%Z.
Definition is_4xx (code : Z) : bool := ((400 <=? code) && (code <? 500))%Z.

(** The retry loop with [n] iterations left: [attempt] runs to [maxRetries+1]. *)
Fixpoint attempts (rq : Request) (n : nat) (attempt : Z) (backoff : duration)
    (lastStatus : Z) (lastErr : option string) : prog DOp Outcome :=
  match n with
  | O => Ret (mkOutcome OutcomeFailedRetry lastStatus (maxRetries + 1) lastErr)
  | S n =>
      e ← perform (NewRequest (rq_URL rq));
      match e with
      | Some e => Ret (mkOutcome OutcomeFailedRetry 0 attempt (Some e))
      | None =>
          r ← perform (Send rq);
          match r with
          | Err e =>
              _ ← perform (DeliveriesInc (Metrics.CodeClass 0));
              if se_Deadline e && (maxRetries <? attempt)%Z then
                Ret (mkOutcome OutcomeTimeout 0 attempt (Some (se_Text e)))
              else if (maxRetries <? attempt)%Z then
                Ret (mkOutcome OutcomeFailedRetry 0 attempt (Some (se_Text e)))
              else
                b ← backoffWait backoff;
                attempts rq n (attempt + 1) b lastStatus (Some (se_Text e))
          | Ok code =>
              _ ← perform (DeliveriesInc (Metrics.CodeClass code));
              if is_2xx code then Ret (mkOutcome OutcomeSuccess code attempt None)
              else if is_4xx code then Ret (mkOutcome OutcomeNoRetry4xx code attempt None)
              else if (maxRetries <? attempt)%Z then Ret (mkOutcome OutcomeFailedRetry code attempt None)
              else
                b ← backoffWait backoff;
                attempts rq n (attempt + 1) b code lastErr
          end
      end
  end.

Definition request (body : string) (headers : list resolvedHeader) : Request :=
  mkRequest timeout (ws_URL (dl_Spec j)) body
    (("Content-Type", "application/json") :: ((fun h => (rh_name h, rh_value h)) <$> headers)).

Definition deliver : prog DOp Outcome :=
  b ← perform (Marshal (dl_Payload j));
  match b with
  | Err e => Ret (mkOutcome OutcomeFailedRetry 0 1 (Some ("marshal payload: " +:+ e)))
  | Ok body =>
      h ← resolveHeaders;
      match h with
      | Err e => Ret (mkOutcome OutcomeSecretMissing 0 0 (Some e))
      | Ok headers => attempts (request body headers) (Z.to_nat (maxRetries + 1)) 1 (ds_BackoffBase d) 0 None
      end
  end.

End Deliver.

Definition redactHeaders (headers : list resolvedHeader) : list resolvedHeader :=
  (fun h => if rh_secret h then mkResolved (rh_name h) RedactedHeaderPlaceholder true else h) <$> headers.

(** ** The queue *)

(** The [select]s on the job channel: a send or a receive that does not wait. *)
Inductive ChanOp : Type → Type :=
| TrySend (j : Delivery) : ChanOp bool
| TryReceive : ChanOp (option Delivery).

(** [started]: [d.jobs] is not nil. *)
Definition Enqueue (started : bool) (j : Delivery) : prog ChanOp unit :=
  if negb started then Ret tt
  else
    sent ← perform (TrySend j);
    if sent : bool then Ret tt
    else
      _ ← perform TryReceive;
      _ ← perform (TrySend j);
      Ret tt.

(** A buffered channel of capacity [cap] nobody else uses meanwhile. *)
Definition chan_env (cap : nat) : ∀ R, ChanOp R → list Delivery → R * list Delivery := fun R o q =>
  match o in ChanOp R return R * list Delivery with
  | TrySend j => if (length q <? cap)%nat then (true, q ++ [j]) else (false, q)
  | TryReceive => match q with [] => (None, []) | x :: q => (Some x, q) end
  end.

(** ** What a delivery does *)

Section DeliverSpec.
Context (d : Knobs) (j : Delivery).

Abbreviation reply := (result SendError Z).

Definition class_of (r : reply) : string := Metrics.CodeClass (match r with Ok c => c | Err _ => 0%Z end).

(** A reply after which the endpoint may be tried again. *)
Definition retryable (r : reply) : bool :=
  match r with Ok c => negb (is_2xx c) && negb (is_4xx c) | Err _ => true end.

(** What the last reply makes of the delivery. *)
Definition verdict (attempt : Z) (r : reply) : Outcome :=
  match r with
  | Ok c =>
      mkOutcome (if is_2xx c then OutcomeSuccess else if is_4xx c then OutcomeNoRetry4xx else OutcomeFailedRetry)
        c attempt None
  | Err e => mkOutcome (if se_Deadline e then OutcomeTimeout else OutcomeFailedRetry) 0 attempt (Some (se_Text e))
  end.

Definition tried (rq : Request) (r : reply) : list (event DOp) :=
  [Ev (NewRequest (rq_URL rq)) None; Ev (Send rq) r; Ev (DeliveriesInc (class_of r)) tt].

(** Attempts that were followed by a wait, the first one of [backoff]. *)
Fixpoint retried (rq : Request) (backoff : duration) (rs : list reply) : list (event DOp) :=
  match rs with
  | [] => []
  | r :: rs => tried rq r ++ Ev (Sleep backoff) tt :: retried rq (next_backoff d backoff) rs
  end.

(** The course of the attempts [k], [k+1], ... with [n] left: retryable replies,
    then one that is not or is the last; or a request that cannot be built. *)
Definition course (rq : Request) (n : nat) (k : Z) (backoff : duration) (tr : list (event DOp)) (out : Outcome) : Prop :=
  ∃ rs, Forall (fun r => retryable r = true) rs ∧ (length rs < n)%nat ∧
    ((∃ r, tr = retried rq backoff rs ++ tried rq r ∧ (retryable r = true → S (length rs) = n)
           ∧ out = verdict (k + Z.of_nat (length rs)) r)
     ∨ (∃ e, tr = retried rq backoff rs ++ [Ev (NewRequest (rq_URL rq)) (Some e)]
             ∧ out = mkOutcome OutcomeFailedRetry 0 (k + Z.of_nat (length rs)) (Some e))).

Lemma course_here rq n k b r :
  (retryable r = true → n = 1%nat) → (0 < n)%nat → course rq n k b (tried rq r) (verdict k r).
Proof.
  intros Hr Hn. exists []. split; [constructor|]. split; [cbn; lia|]. left. exists r. split; [done|].
  split; [intros; cbn; by rewrite Hr|]. by rewrite Z.add_0_r.
Qed.

Lemma course_next rq n k b r tr out :
  retryable r = true → course rq n (k + 1) (next_backoff d b) tr out →
  course rq (S n) k b (tried rq r ++ Ev (Sleep b) tt :: tr) out.
Proof.
  intros Hr (rs & Hrs & Hlen & H). exists (r :: rs).
  assert (Hk : (k + Z.of_nat (length (r :: rs)) = k + 1 + Z.of_nat (length rs))%Z) by (cbn; lia).
  split; [by constructor|]. split; [cbn; lia|]. rewrite Hk.
  destruct H as [(r' & -> & Hlast & ->)|(e & -> & ->)]; [left; exists r'|right; exists e]; cbn;
    (split; [done|]); [|done].
  split; [|done]. intros Hr'. f_equal. by apply Hlast.
Qed.

Lemma attempts_course rq n k b ls le tr out :
  (0 < n)%nat → (k + Z.of_nat n = maxRetries j + 2)%Z →
  exec (attempts d j rq n k b ls le) tr out → course rq n k b tr out.
Proof.
  revert k b ls le tr. induction n as [|n IH]; intros k b ls le tr Hn Hk Hex; [lia|].
  assert (Hlast : (maxRetries j <? k)%Z = true → S n = 1%nat) by (intros ?%Z.ltb_lt; lia).
  assert (Hmore : (maxRetries j <? k)%Z = false → (0 < n)%nat) by (intros ?%Z.ltb_ge; lia).
  cbn [attempts] in Hex. apply exec_perform_bind_inv in Hex as ([e|] & tr1 & -> & Hex).
  { apply exec_ret_inv in Hex as [-> ->]. exists []. split; [constructor|]. split; [cbn; lia|].
    right. exists e. by rewrite Z.add_0_r. }
  apply exec_perform_bind_inv in Hex as (r & tr2 & -> & Hex).
  assert (Hnext : ∀ ls' le' tr3, retryable r = true → (maxRetries j <? k)%Z = false →
      exec (b' ← backoffWait d b; attempts d j rq n (k + 1) b' ls' le') tr3 out →
      course rq (S n) k b (tried rq r ++ tr3) out).
  { intros ls' le' tr3 Hr Hm Hex'. unfold backoffWait in Hex'.
    apply exec_perform_bind_inv in Hex' as ([] & tr4 & -> & Hex'). apply course_next; [done|].
    eapply IH; [by apply Hmore|lia|exact Hex']. }
  destruct r as [code|e]; apply exec_perform_bind_inv in Hex as ([] & tr3 & -> & Hex).
  - pose proof (course_here rq (S n) k b (Ok code)) as Hh. unfold verdict in Hh.
    assert (Hr : retryable (Ok code) = negb (is_2xx code) && negb (is_4xx code)) by done.
    destruct (is_2xx code); [|destruct (is_4xx code); [|destruct (maxRetries j <? k)%Z eqn:Em]];
      try (apply exec_ret_inv in Hex as [-> ->]; apply Hh; [rewrite Hr; cbn; first [done|auto]|lia]).
    by eapply (Hnext _ _ tr3).
  - pose proof (course_here rq (S n) k b (Err e)) as Hh. unfold verdict in Hh.
    destruct (maxRetries j <? k)%Z eqn:Em; [|rewrite andb_false_r in Hex; by eapply (Hnext _ _ tr3)].
    destruct (se_Deadline e); apply exec_ret_inv in Hex as [-> ->]; (apply Hh; [by intros _; auto|lia]).
Qed.

Definition secret_read (e : event DOp) : Prop :=
  ∃ ns name key r, e = Ev (Secrets ns name key) r.

(** A header as the spec has it: inline, or what its Secret was read as. *)
Definition header_resolved (tr : list (event DOp)) (h : WebhookHeader) (x : resolvedHeader) : Prop :=
  rh_name x = wh_Name h ∧
  match wh_SecretRef h with
  | None => rh_value x = wh_Value h ∧ rh_secret x = false
  | Some (name, key) => Ev (Secrets (dl_Namespace j) name key) (Ok (rh_value x)) ∈ tr ∧ rh_secret x = true
  end.

Lemma header_resolved_mono tr tr' h x : tr ⊆ tr' → header_resolved tr h x → header_resolved tr' h x.
Proof. unfold header_resolved. destruct (wh_SecretRef h) as [[name key]|]; set_solver. Qed.

Lemma resolve_header_inv h tr r :
  exec (resolve_header d j h) tr r →
  Forall secret_read tr ∧ match r with Ok x => header_resolved tr h x | Err _ => True end.
Proof.
  unfold resolve_header, header_resolved. destruct (wh_SecretRef h) as [[name key]|].
  2: { by intros [-> ->]%exec_ret_inv. }
  destruct (negb _); [by intros [-> ->]%exec_ret_inv|].
  intros (v & tr' & -> & Hex)%exec_perform_bind_inv.
  destruct v as [v|e]; apply exec_ret_inv in Hex as [-> ->]; (split; [constructor; [by eexists _, _, _, _|done]|]).
  - cbn. split_and!; [done|set_solver|done].
  - done.
Qed.

Lemma resolve_headers_inv hs tr r :
  exec (resolve_headers d j hs) tr r →
  Forall secret_read tr ∧ match r with Ok xs => Forall2 (header_resolved tr) hs xs | Err _ => True end.
Proof.
  revert tr r. induction hs as [|h hs IH]; intros tr r Hex; cbn [resolve_headers] in Hex.
  { apply exec_ret_inv in Hex as [-> ->]. by split. }
  apply exec_bind_inv in Hex as (t1 & t2 & x & -> & [H1 Hx]%resolve_header_inv & Hex).
  destruct x as [x|e]; [|by apply exec_ret_inv in Hex as [-> ->]; rewrite app_nil_r].
  apply exec_bind_inv in Hex as (t3 & t4 & xs & -> & [H3 Hxs]%IH & Hex).
  destruct xs as [xs|e]; apply exec_ret_inv in Hex as [-> ->]; rewrite app_nil_r;
    (split; [by apply Forall_app|]); [|done].
  constructor; [eapply header_resolved_mono, Hx; set_solver|].
  eapply Forall2_impl; [exact Hxs|]. intros. eapply header_resolved_mono; [|done]. set_solver.
Qed.

Lemma maxRetries_nonneg : (0 <= maxRetries j)%Z.
Proof. unfold maxRetries, DefaultMaxRetries. destruct (Z.ltb_spec (ws_MaxRetries (dl_Spec j)) 0); lia. Qed.

End DeliverSpec.


(** ** An endpoint, for the witness *)

(** Answers each request with the next code; the Secret [hook/token] is [s3cret]. *)
Definition endpoint : ∀ R, DOp R → list Z → R * list Z := fun R o codes =>
  match o in DOp R return R * list Z with
  | Marshal p => (Ok (py_RunName p), codes)
  | Secrets _ name key => (if (name =? "hook")%string then Ok "s3cret" else Err "not found", codes)
  | NewRequest _ => (None, codes)
  | Send _ => match codes with c :: codes => (Ok c, codes) | [] => (Err (mkSendError true "deadline"), []) end
  | DeliveriesInc _ => (tt, codes)
  | Sleep _ => (tt, codes)
  end.

Definition demo_delivery (secret : string) : Delivery :=
  mkDelivery ("ns", "hook")
    (mkWebhookSpec "http://x" [] [mkHeader "Authorization" "" (Some (secret, "token"))] 0 2) "ns"
    (mkPayload "end-testrun-success" "run" "ns" "uid" "t" "api" "k6" "passed" "" "" "" "" 0 ∅ None [] "") 0.

Definition demo_knobs : Knobs := applyDefaults (mkKnobs true 0 0 0 0).

Example deliver_retries_then_succeeds :
  (run endpoint (deliver demo_knobs (demo_delivery "hook")) [503; 204]%Z).1.1 = mkOutcome OutcomeSuccess 204 2 None.
Proof. reflexivity. Qed.
Example deliver_times_out :
  (run endpoint (deliver demo_knobs (demo_delivery "hook")) [503]%Z).1.1 = mkOutcome OutcomeTimeout 0 3 (Some "deadline").
Proof. reflexivity. Qed.
Example deliver_secret_missing :
  oc_Kind (run endpoint (deliver demo_knobs (demo_delivery "other")) []).1.1 = OutcomeSecretMissing.
Proof. reflexivity. Qed.


(** ** Backoff *)

(** The wait after attempt [i+1] is the base doubled [i] times, capped: no overflow
    and never beyond the cap, for a cap of up to 146 years. *)
Theorem backoff_doubles d i :
  (0 < ds_BackoffBase d)%Z → (ds_BackoffBase d <= ds_BackoffMax d)%Z → (ds_BackoffMax d <= 2 ^ 62 - 1)%Z →
  Nat.iter i (next_backoff d) (ds_BackoffBase d) = Z.min (ds_BackoffBase d * 2 ^ Z.of_nat i) (ds_BackoffMax d).
Proof.
  intros Hpos Hle Hmax. induction i as [|i IH]; [rewrite Z.pow_0_r; cbn; lia|].
  rewrite Nat.iter_succ, IH. rewrite Nat2Z.inj_succ, Z.pow_succ_r by lia.
  set (x := (ds_BackoffBase d * 2 ^ Z.of_nat i)%Z).
  assert (Hx : (0 < x)%Z) by (unfold x; pose proof (Z.pow_pos_nonneg 2 (Z.of_nat i)); nia).
  replace (ds_BackoffBase d * (2 * 2 ^ Z.of_nat i))%Z with (2 * x)%Z by (unfold x; ring).
  unfold next_backoff. rewrite wrap64_small by (unfold int64_min, int64_max; lia).
  destruct (Z.ltb_spec (ds_BackoffMax d) (Z.min x (ds_BackoffMax d) * 2)); lia.
Qed.

Lemma backoff_doubles_witness :
  Nat.iter 7 (next_backoff demo_knobs) (ds_BackoffBase demo_knobs) = (30 * second)%Z.
Proof. rewrite (backoff_doubles demo_knobs 7); [reflexivity|done..]. Defined.

(** The waits of a course: the base, then doubled each time. *)
Lemma retried_waits d rq b rs i r :
  rs !! i = Some r → Ev (Sleep (Nat.iter i (next_backoff d) b)) tt ∈ retried d rq b rs.
Proof.
  revert b i. induction rs as [|r' rs IH]; intros b [|i] Hi; cbn in Hi |- *; [done|done|set_solver|].
  specialize (IH (next_backoff d b) i Hi). rewrite <- Nat.iter_succ_r in IH. set_solver.
Qed.

(** The timeout of an attempt is the spec's, in seconds, or ten seconds: an [int32]
    of seconds does not overflow. *)
Lemma timeout_seconds j :
  (- 2 ^ 31 <= ws_TimeoutSeconds (dl_Spec j) < 2 ^ 31)%Z →
  timeout j = (if ws_TimeoutSeconds (dl_Spec j) <=? 0 then 10 * second else ws_TimeoutSeconds (dl_Spec j) * second)%Z.
Proof.
  intros Hr. unfold timeout. rewrite wrap64_small by (unfold int64_min, int64_max, second; lia).
  unfold second. do 2 case_match; breflect; try reflexivity; lia.
Qed.

(** ** The queue *)

(** [Enqueue] on a queue nobody else is using: the queue keeps the newest jobs, in
    order, within its capacity, and the newest is always accepted. *)
Theorem Enqueue_keeps_newest cap j q :
  (0 < cap)%nat → (length q ≤ cap)%nat →
  let q' := (run (chan_env cap) (Enqueue true j) q).1.2 in
  q' = drop (length q + 1 - cap) (q ++ [j]) ∧ (length q' ≤ cap)%nat ∧ last q' = Some j.
Proof.
  intros Hcap Hlen. cbn -[Nat.ltb drop app last]. destruct (Nat.ltb_spec (length q) cap) as [Hlt|Hge]; cbn -[Nat.ltb drop app last].
  - replace (length q + 1 - cap)%nat with 0%nat by lia. split; [done|]. rewrite length_app, last_snoc. cbn. split; [lia|done].
  - replace (length q + 1 - cap)%nat with 1%nat by lia.
    destruct q as [|x q]; cbn -[Nat.ltb drop app last] in *; [lia|].
    destruct (Nat.ltb_spec (length q) cap); [|lia]. cbn [fst snd]. split; [done|]. rewrite length_app, last_snoc. cbn. split; [lia|done].
Qed.

Lemma Enqueue_keeps_newest_witness :
  let a := demo_delivery "a" in let b := demo_delivery "b" in let c := demo_delivery "c" in
  (run (chan_env 2) (Enqueue true c) [a; b]).1.2 = [b; c].
Proof.
  intros a b c. destruct (Enqueue_keeps_newest 2 c [a; b]) as [H _]; [lia|cbn; lia|]. exact H.
Defined.

(** Whatever other goroutines do to the queue, [Enqueue] makes at most three
    attempts on it, none of which waits. *)
Lemma Enqueue_bounded started j tr : exec (Enqueue started j) tr tt → (length tr ≤ 3)%nat.
Proof.
  unfold Enqueue. destruct (negb started); [by intros [-> _]%exec_ret_inv; cbn; lia|].
  intros (sent & tr1 & -> & Hex)%exec_perform_bind_inv. destruct sent; [apply exec_ret_inv in Hex as [-> _]; cbn; lia|].
  repeat exec_step. cbn. lia.
Qed.

(** ** Redaction *)

(** What is printed of the headers does not depend on the Secrets' values. *)
Lemma redactHeaders_noninterference hs hs' :
  Forall2 (fun h h' => rh_name h = rh_name h' ∧ rh_secret h = rh_secret h' ∧ (rh_secret h = false → rh_value h = rh_value h')) hs hs' →
  redactHeaders hs = redactHeaders hs'.
Proof.
  unfold redactHeaders. induction 1 as [|[n v s] [n' v' s'] hs hs' (? & ? & Hv) _ IH]; cbn in *; [done|]. subst.
  f_equal; [|done]. destruct s'; [done|]. by rewrite Hv.
Qed.

End Dispatcher.
