(* ===== verification/Scheduler.v ===== *)
(** * internal/scheduler: runs on a cron schedule

    [Tick] and [evaluate] as programs over listing the Tests, creating a run and
    counting a fire.  The cron library is the parameter [Cron]: parsing an
    expression and the next activation after an instant; [CronLaws] is what its
    documentation says of them.  [start] is the ticker loop around [Tick], left
    out. *)
From S2P Require Import Prelude Api GoLib Names Ops Effects Lifecycle Reconciler PodPolicy.

Module Scheduler.
Import Ops.

Definition SourceCron : string := "cron".
Definition MinMissedFireWindow : duration := (60 * second)%Z.
Definition prevScheduleLookback : duration := (48 * hour)%Z.
Definition safetyBound : Z := (4 * 24 * 60 * 60)%Z.
Definition LabelScheduledForTest : string := "kubetest.io/scheduled-for-test".
Definition AnnotationScheduledAt : string := "kubetest.io/scheduled-at".

(** github.com/robfig/cron/v3: [Parser.Parse] and [Schedule.Next]. *)
Class Cron := {
  Schedule : Type;
  Parse : string → option Schedule;
  Next : Schedule → time → time;
}.

(** [Next] is "the next activation time, later than the given time", the zero time
    when there is none; activations are whole seconds apart. *)
Class CronLaws (C : Cron) := {
  activates : Schedule → time → Prop;
  Next_later : ∀ s t, Next s t ≠ zero_time → (t < Next s t)%Z ∧ activates s (Next s t);
  Next_first : ∀ s t u, activates s u → (t < u)%Z → Next s t ≠ zero_time ∧ (Next s t <= u)%Z;
  activates_apart : ∀ s u v, activates s u → activates s v → (u < v)%Z → (u + second <= v)%Z;
}.

Inductive SchedOp : Type → Type :=
| ListTests : SchedOp (result string (list Test))
| Create (run : TestRun) : SchedOp (option error)
| SchedulerFiresInc : SchedOp unit.

Section Sched.
Context `{C : Cron}.

(** The loop of [prevSchedule], [n] iterations left. *)
Fixpoint prev_walk (sched : Schedule) (now : time) (n : nat) (t prev : time) : time :=
  match n with
  | O => prev
  | S n =>
      let next := Next sched t in
      if time_after next now then prev else prev_walk sched now n next next
  end.

Definition prevSchedule (sched : Schedule) (now : time) : time :=
  let start := (now - prevScheduleLookback)%Z in
  prev_walk sched now (Z.to_nat safetyBound) start zero_time.

Definition time_Unix (t : time) : Z := (t / second)%Z.

Definition scheduledRun (t : Test) (prev : time) : TestRun :=
  mkTestRun
    (mkMeta (Names.Bounded (om_Name (t_Meta t) +:+ "-" +:+ itoa (time_Unix prev))) (om_Namespace (t_Meta t)) ""
       {[ LabelScheduledForTest := om_Name (t_Meta t) ]} {[ AnnotationScheduledAt := RFC3339 prev ]}
       zero_time None [] [])
    (mkRunSpec (om_Name (t_Meta t)) ∅ None ∅ SourceCron None None)
    zeroStatus.

(** The instant [evaluate] would fire, if any. *)
Definition due (t : Test) (now : time) : option time :=
  if (ts_Schedule (t_Spec t) =? "")%string then None
  else match Parse (ts_Schedule (t_Spec t)) with
       | None => None
       | Some sched =>
           let prev := prevSchedule sched now in
           if time_is_zero prev then None
           else if negb (time_is_zero (om_CreationTimestamp (t_Meta t)))
                   && time_before prev (om_CreationTimestamp (t_Meta t)) then None
           else
             let interval := time_sub (Next sched prev) prev in
             let window := Z.max (wrap64 (2 * interval)) MinMissedFireWindow in
             if (window <? time_sub now prev)%Z then None else Some prev
       end.

Definition evaluate (t : Test) (now : time) : prog SchedOp (option string) :=
  match due t now with
  | None => Ret None
  | Some prev =>
      let run := scheduledRun t prev in
      e ← perform (Create run);
      match e with
      | Some e =>
          if is_kind EAlreadyExists e then Ret None
          else Ret (Some ("create TestRun " +:+ quote (run_name run) +:+ ": " +:+ e_Text e))
      | None => _ ← perform SchedulerFiresInc; Ret None
      end
  end.

Fixpoint evaluate_all (ts : list Test) (now : time) : prog SchedOp (list string) :=
  match ts with
  | [] => Ret []
  | t :: ts =>
      e ← evaluate t now;
      errs ← evaluate_all ts now;
      Ret (match e with Some e => e :: errs | None => errs end)
  end.

(** [errors.Join] of the errors is their list. *)
Definition Tick (now : time) : prog SchedOp (list string) :=
  l ← perform ListTests;
  match l with
  | Err e => Ret ["list Tests: " +:+ e]
  | Ok ts => evaluate_all ts now
  end.

(** ** The previous activation *)

Context `{L : !CronLaws C}.

(** The last activation up to [now]. *)
Definition last_activation (s : Schedule) (now p : time) : Prop :=
  activates s p ∧ (p <= now)%Z ∧ ∀ u, activates s u → (u <= now)%Z → (u <= p)%Z.

Lemma Next_zero_none s t u : Next s t = zero_time → activates s u → (u <= t)%Z.
Proof.
  intros Hz Hu. destruct (Z.le_gt_cases u t) as [|Hlt]; [done|]. by destruct (Next_first s t u Hu).
Qed.

Lemma Next_after_now s t now :
  Next s t ≠ zero_time → (now < Next s t)%Z → ∀ u, activates s u → (u <= now)%Z → (u <= t)%Z.
Proof.
  intros Hz Hn u Hu Hle. destruct (Z.le_gt_cases u t) as [|Hlt]; [done|].
  destruct (Next_first s t u Hu Hlt). lia.
Qed.

(** A schedule that goes on: it has an activation after every instant. *)
Definition goes_on (s : Schedule) : Prop := ∀ t, Next s t ≠ zero_time.

Lemma prev_walk_last s now n t :
  goes_on s → activates s t → (t <= now)%Z → (now - t < Z.of_nat n * second)%Z →
  last_activation s now (prev_walk s now n t t).
Proof.
  intros Hgo. revert t. induction n as [|n IH]; intros t Ht Hle Hn; cbn [prev_walk]; [unfold second in *; lia|].
  destruct (Next_later s t (Hgo t)) as [Hlt Hact]. unfold time_after.
  destruct (Z.ltb_spec now (Next s t)) as [Hafter|Hbefore].
  - split; [done|]. split; [done|]. by apply Next_after_now.
  - pose proof (activates_apart s t (Next s t) Ht Hact Hlt). apply IH; [done..|]. unfold second in *. lia.
Qed.

Lemma prevSchedule_cases s now :
  goes_on s → (zero_time < now - prevScheduleLookback)%Z →
  (prevSchedule s now = zero_time ∧ ∀ u, activates s u → (u <= now)%Z → (u <= now - prevScheduleLookback)%Z)
  ∨ ((now - prevScheduleLookback < prevSchedule s now)%Z ∧ last_activation s now (prevSchedule s now)).
Proof.
  intros Hgo Hz. unfold prevSchedule. set (start := (now - prevScheduleLookback)%Z) in *.
  assert (Hn : ∃ n, Z.to_nat safetyBound = S n ∧ (48 * 3600 < Z.of_nat n)%Z).
  { exists (Z.to_nat 345599). unfold safetyBound. split; lia. }
  destruct Hn as (n & -> & Hn). cbn [prev_walk]. unfold time_after.
  destruct (Next_later s start (Hgo start)) as [Hlt Hact].
  destruct (Z.ltb_spec now (Next s start)) as [Hafter|Hbefore].
  - left. split; [done|]. by apply Next_after_now.
  - right. assert (Hlast : last_activation s now (prev_walk s now n (Next s start) (Next s start))).
    { apply prev_walk_last; [done..|]. unfold start, prevScheduleLookback, hour, minute, second in *. lia. }
    split; [|done]. destruct Hlast as (_ & _ & Hmax). specialize (Hmax _ Hact Hbefore). lia.
Qed.

Lemma last_activation_unique s now p q : last_activation s now p → last_activation s now q → p = q.
Proof. intros (Hp & Hpn & Hpm) (Hq & Hqn & Hqm). pose proof (Hpm _ Hq Hqn). pose proof (Hqm _ Hp Hpn). lia. Qed.

End Sched.

(** ** When a Test fires *)

(** A Test fires at an instant exactly when the instant is the last activation of its
    schedule, within the last two days, not older than the Test, and missed by no more
    than twice the interval that follows it (at least a minute). *)
Theorem due_spec `{C : Cron, !CronLaws C} t now sched p :
  ts_Schedule (t_Spec t) ≠ "" → Parse (ts_Schedule (t_Spec t)) = Some sched →
  goes_on sched → (zero_time < now - prevScheduleLookback)%Z →
  (Next sched p - p < 2 ^ 62)%Z →
  due t now = Some p ↔
    last_activation sched now p ∧ (now - prevScheduleLookback < p)%Z ∧
    (om_CreationTimestamp (t_Meta t) = zero_time ∨ (om_CreationTimestamp (t_Meta t) <= p)%Z) ∧
    (now - p <= Z.max (2 * (Next sched p - p)) (60 * second))%Z.
Proof.
  intros Hne Hparse Hgo Hz Hint. unfold due.
  rewrite (proj2 (String.eqb_neq _ _) Hne), Hparse.
  destruct (prevSchedule_cases sched now Hgo Hz) as [[Hp Hnone]|[Hlo Hlast]].
  { rewrite Hp. cbn. split; [done|]. intros ((Ha & Hpn & _) & Hlo & _). specialize (Hnone _ Ha Hpn). lia. }
  assert (Hlaw := Hlast). destruct Hlaw as (Hact & Hle & _).
  assert (Hz' : time_is_zero (prevSchedule sched now) = false) by (unfold time_is_zero; apply Z.eqb_neq; lia).
  rewrite Hz'.
  assert (Hsame : ∀ q, last_activation sched now q → q = prevSchedule sched now)
    by (intros q Hq; by eapply last_activation_unique).
  set (q := prevSchedule sched now) in *.
  destruct (Z.eq_dec p q) as [->|Hpq].
  2: { split; [|intros (Hq & _); by apply Hsame in Hq].
       destruct (_ && _); [done|]. destruct (_ <? _)%Z; [done|]. intros [= ?]. congruence. }
  assert (Hsub : time_sub now q = (now - q)%Z).
  { apply sat64_small. unfold int64_min, int64_max, prevScheduleLookback, hour, minute, second in *. lia. }
  destruct (Next_later sched q (Hgo q)) as [Hnext _].
  assert (Hiv : wrap64 (2 * time_sub (Next sched q) q) = (2 * (Next sched q - q))%Z).
  { unfold time_sub. rewrite sat64_small, wrap64_small; unfold int64_min, int64_max; lia. }
  rewrite Hsub, Hiv. unfold time_is_zero, time_before, MinMissedFireWindow.
  destruct (Z.eqb_spec (om_CreationTimestamp (t_Meta t)) zero_time) as [Hc|Hc];
    destruct (Z.ltb_spec q (om_CreationTimestamp (t_Meta t))); cbn;
    try (destruct (Z.ltb_spec (Z.max (2 * (Next sched q - q)) (60 * second)) (now - q)));
    (split; [intros [=]|intros (_ & _ & Hcr & Hwin)]); try done; try lia;
    (split; [done|]); (split; [lia|]); (split; [|lia]); auto.
Qed.

(** ** A cluster the replicas of the scheduler share *)

Record Server := mkServer { sv_tests : list Test; sv_runs : list TestRun; sv_fires : Z }.

Definition has_key (k : Key) (runs : list TestRun) : bool := existsb (fun r => bool_decide (run_key r = k)) runs.

(** The API server: names are unique in their namespace. *)
Definition api : ∀ R, SchedOp R → Server → R * Server := fun R o w =>
  match o in SchedOp R return R * Server with
  | ListTests => (Ok (sv_tests w), w)
  | Create run =>
      if has_key (run_key run) (sv_runs w) then (Some (mkError EAlreadyExists "already exists"), w)
      else (None, mkServer (sv_tests w) (run :: sv_runs w) (sv_fires w))
  | SchedulerFiresInc => (tt, mkServer (sv_tests w) (sv_runs w) (sv_fires w + 1)%Z)
  end.

Lemma has_key_elem k runs : has_key k runs = true ↔ k ∈ run_key <$> runs.
Proof.
  unfold has_key. rewrite existsb_exists. setoid_rewrite <- list_elem_of_In. rewrite list_elem_of_fmap.
  setoid_rewrite bool_decide_eq_true. split; intros (r & H1 & H2); exists r; done.
Qed.

(** What becomes of a request to create a run: it is answered, it is lost, or it
    is carried out and its answer is lost. *)
Inductive fate := Answered | Lost (e : error) | AnswerLost (e : error).

Definition api_fate (f : fate) : ∀ R, SchedOp R → Server → R * Server := fun R o w =>
  match o in SchedOp R return R * Server with
  | Create run =>
      match f with
      | Answered => api _ (Create run) w
      | Lost e => (Some e, w)
      | AnswerLost e => (Some e, (api _ (Create run) w).2)
      end
  | o => api _ o w
  end.

(** What may happen to the cluster: some replica evaluates a Test at an instant, a run
    is removed, and someone else creates a run. *)
Inductive incident :=
| Evaluated (t : Test) (now : time) (f : fate)
| Removed (k : Key)
| Made (r : TestRun).

Definition drop_key (k : Key) (w : Server) : Server :=
  mkServer (sv_tests w) (List.filter (fun r => negb (bool_decide (run_key r = k))) (sv_runs w)) (sv_fires w).

Definition step `{C : Cron} (w : Server) (h : incident) : Server :=
  match h with
  | Evaluated t now f => (run (api_fate f) (evaluate t now) w).1.2
  | Removed k => drop_key k w
  | Made r => (api _ (Create r) w).2
  end.

(** The runs an incident adds by the scheduler's hand. *)
Definition created_by `{C : Cron} (w : Server) (h : incident) : list TestRun :=
  match h with
  | Evaluated t now f =>
      match due t now, f with
      | Some p, (Answered | AnswerLost _) =>
          if has_key (run_key (scheduledRun t p)) (sv_runs w) then [] else [scheduledRun t p]
      | _, _ => []
      end
  | _ => []
  end.

Fixpoint created `{C : Cron} (w : Server) (hs : list incident) : list TestRun :=
  match hs with [] => [] | h :: hs => created_by w h ++ created (step w h) hs end.

Lemma step_runs `{C : Cron} w t now f : sv_runs (step w (Evaluated t now f)) = created_by w (Evaluated t now f) ++ sv_runs w.
Proof.
  unfold step, evaluate, created_by. destruct (due t now) as [p|]; [|done].
  destruct f as [|e|e]; cbn.
  - by destruct (has_key _ _).
  - by destruct (is_kind _ _).
  - destruct (has_key _ _); by destruct (is_kind _ _).
Qed.

(** A run whose creation is not answered is reported as an error, unless the error
    says that it is there. *)
Lemma lost_is_reported `{C : Cron} w t now f p e :
  due t now = Some p → f = Lost e ∨ f = AnswerLost e → is_kind EAlreadyExists e = false →
  (run (api_fate f) (evaluate t now) w).1.1 = Some ("create TestRun " +:+ quote (run_name (scheduledRun t p)) +:+ ": " +:+ e_Text e).
Proof. intros Hd Hf He. unfold evaluate. rewrite Hd. destruct Hf as [-> | ->]; cbn; by rewrite He. Qed.

(** Names that [Bounded] leaves as they are. *)
Definition short_name (t : Test) (p : time) : Prop :=
  (String.length (om_Name (t_Meta t) +:+ "-" +:+ itoa (time_Unix p)) <= Names.MaxLen)%nat.

Lemma scheduledRun_key_inj `{C : Cron} t u p q :
  short_name t p → short_name u q → (0 <= p)%Z → (0 <= q)%Z →
  run_key (scheduledRun t p) = run_key (scheduledRun u q) →
  om_Name (t_Meta t) = om_Name (t_Meta u) ∧ om_Namespace (t_Meta t) = om_Namespace (t_Meta u) ∧ time_Unix p = time_Unix q.
Proof.
  intros Ht Hu Hp Hq H. unfold run_key, run_ns, run_name, scheduledRun in H. cbn in H.
  rewrite !Names.Bounded_id in H by done.
  injection H as Hns Hn. apply Names.dash_number_inj in Hn as [? ?]; [done|apply Z.div_pos; done..].
Qed.

Section Once.
Context `{C : Cron}.

Definition key_of (k : Key) (r : TestRun) : bool := bool_decide (run_key r = k).
(** How often the scheduler created a run under a name, and how often one was removed. *)
Definition creations (k : Key) (w : Server) (hs : list incident) : nat := countb (key_of k) (created w hs).
Definition removals (k : Key) (hs : list incident) : nat :=
  countb (fun h => match h with Removed k' => bool_decide (k' = k) | _ => false end) hs.
Definition there (k : Key) (w : Server) : nat := if has_key k (sv_runs w) then 1 else 0.

Lemma step_distinct w h : NoDup (run_key <$> sv_runs w) → NoDup (run_key <$> sv_runs (step w h)).
Proof.
  intros Hd. assert (Hadd : ∀ r, NoDup (run_key <$> sv_runs (api _ (Create r) w).2)).
  { intros r. cbn. destruct (has_key _ _) eqn:E; [done|]. cbn. constructor; [|done]. rewrite <- has_key_elem. congruence. }
  destruct h as [t now f|k|r]; [|cbn|apply Hadd].
  - rewrite step_runs. cbn. destruct (due t now) as [p|]; [|done]. specialize (Hadd (scheduledRun t p)). revert Hadd. cbn.
    destruct f; by destruct (has_key _ _).
  - clear Hadd. induction (sv_runs w) as [|x xs IH]; [constructor|]. cbn in Hd |- *. apply NoDup_cons in Hd as [Hx Hd].
    case_bool_decide; cbn; [by apply IH|]. constructor; [|by apply IH]. intros (y & Hy & Hin)%list_elem_of_fmap. apply Hx.
    apply list_elem_of_fmap. exists y. rewrite list_elem_of_In in *. by apply filter_In in Hin as [? _].
Qed.

Lemma has_key_drop k k' w : k' ≠ k → has_key k (sv_runs (drop_key k' w)) = has_key k (sv_runs w).
Proof.
  intros Hne. apply eq_true_iff_eq. rewrite !has_key_elem, !list_elem_of_fmap. cbn.
  split; intros (r & -> & Hr); exists r; (split; [done|]); rewrite list_elem_of_In, ?filter_In in *; [by destruct Hr|].
  split; [done|]. by rewrite bool_decide_eq_false_2.
Qed.

Lemma there_cons k r w : there k (mkServer (sv_tests w) (r :: sv_runs w) (sv_fires w)) = if key_of k r then 1 else there k w.
Proof. unfold there, key_of, has_key. cbn. by case_bool_decide. Qed.

Lemma there_runs k w w' : sv_runs w' = sv_runs w → there k w' = there k w.
Proof. intros E. unfold there. by rewrite E. Qed.

(** What an incident does to one name, when it neither removes the run of that name
    nor is another's creation of it. *)
Lemma there_step k w h : h ≠ Removed k → (∀ r, h = Made r → run_key r ≠ k) →
  there k (step w h) = countb (key_of k) (created_by w h) + there k w.
Proof.
  intros Hr Hm. destruct h as [t now f|k'|r].
  - unfold there. rewrite step_runs. unfold created_by. destruct (due t now) as [p|]; [|done].
    assert (Hcase : ∀ r, (if has_key k ((if has_key (run_key r) (sv_runs w) then [] else [r]) ++ sv_runs w) then 1 else 0) =
      countb (key_of k) (if has_key (run_key r) (sv_runs w) then [] else [r]) + if has_key k (sv_runs w) then 1 else 0).
    { intros r. destruct (has_key (run_key r) (sv_runs w)) eqn:E; [done|]. unfold countb, key_of. cbn.
      case_bool_decide as Hk; cbn; [|done]. subst k. by rewrite E. }
    destruct f as [|e|e]; [apply Hcase|done|apply Hcase].
  - unfold there. cbn [step]. rewrite has_key_drop by congruence. done.
  - cbn [step api]. destruct (has_key (run_key r) (sv_runs w)) eqn:E; [done|]. cbn [snd]. rewrite there_cons. unfold key_of.
    rewrite bool_decide_eq_false_2; [done|by apply Hm].
Qed.

Lemma there_le k w : there k w <= 1.
Proof. unfold there. case_match; lia. Qed.

Lemma balance_step k w h : countb (key_of k) (created_by w h) + there k w <= there k (step w h) + removals k [h].
Proof.
  destruct h as [t now f|k'|r].
  - rewrite there_step; [lia|discriminate|discriminate].
  - destruct (decide (k' = k)) as [->|Hne].
    + unfold removals. rewrite countb_cons, bool_decide_eq_true_2 by done. cbn [created_by]. unfold countb. cbn. pose proof (there_le k w). lia.
    + rewrite there_step; [lia|congruence|discriminate].
  - destruct (decide (run_key r = k)) as [Hk|Hne].
    + cbn [step api created_by]. destruct (has_key (run_key r) (sv_runs w)) eqn:E; cbn [snd]; [unfold countb; cbn; lia|].
      rewrite there_cons. unfold key_of, countb. rewrite bool_decide_eq_true_2 by done. pose proof (there_le k w). cbn. lia.
    + rewrite there_step; [lia|discriminate|]. by intros r' [= ->].
Qed.

Lemma removals_cons k h hs : removals k (h :: hs) = removals k [h] + removals k hs.
Proof. unfold removals. by rewrite <- countb_app. Qed.
Lemma creations_cons k w h hs : creations k w (h :: hs) = countb (key_of k) (created_by w h) + creations k (step w h) hs.
Proof. unfold creations. cbn [created]. by rewrite countb_app. Qed.

(** The account of one name. *)
Lemma balance k w hs : creations k w hs + there k w <= there k (foldl step w hs) + removals k hs.
Proof.
  revert w. induction hs as [|h hs IH]; intros w; [cbn; lia|].
  rewrite creations_cons, removals_cons. cbn [foldl]. specialize (IH (step w h)). pose proof (balance_step k w h). lia.
Qed.

Definition undisturbed (k : Key) (hs : list incident) : Prop := Removed k ∉ hs ∧ ∀ r, Made r ∈ hs → run_key r ≠ k.

Definition is_evaluation (h : incident) : Prop := match h with Evaluated _ _ _ => True | _ => False end.

Lemma only_evaluations k hs : Forall is_evaluation hs → undisturbed k hs.
Proof. intros H. rewrite Forall_forall in H. split; [by intros Hin%H|by intros r Hin%H]. Qed.

Lemma undisturbed_account k w hs : undisturbed k hs → there k (foldl step w hs) = creations k w hs + there k w.
Proof.
  revert w. induction hs as [|h hs IH]; intros w [Hr Hm]; [done|]. rewrite creations_cons. cbn [foldl].
  rewrite IH by (split; [set_solver|intros r Hin; apply Hm; by right]).
  rewrite there_step; [lia|intros ->; apply Hr; left|intros r ->; apply Hm; left].
Qed.

Lemma undisturbed_removals k hs : Removed k ∉ hs → removals k hs = 0.
Proof.
  induction hs as [|h hs IH]; intros Hr; [done|]. rewrite removals_cons, IH by set_solver.
  destruct h as [t now f|k'|r]; [done| |done]. unfold removals. rewrite countb_cons, bool_decide_eq_false_2; [done|].
  intros ->. apply Hr. left.
Qed.

Lemma undisturbed_there k w h hs : undisturbed k hs → h ∈ hs → (∀ w', there k (step w' h) = 1) → there k (foldl step w hs) = 1.
Proof.
  intros [Hr _] Hin H1. apply list_elem_of_split in Hin as (h1 & h2 & ->). rewrite foldl_app. cbn [foldl].
  pose proof (balance k (step (foldl step w h1) h) h2) as Hb. rewrite H1, undisturbed_removals in Hb by set_solver.
  pose proof (there_le k (foldl step (step (foldl step w h1) h) h2)). lia.
Qed.

Lemma created_due w hs r : r ∈ created w hs → ∃ t now p f, Evaluated t now f ∈ hs ∧ due t now = Some p ∧ r = scheduledRun t p.
Proof.
  revert w. induction hs as [|h hs IH]; intros w Hr; [inversion Hr|].
  cbn [created] in Hr. apply elem_of_app in Hr as [Hr|Hr].
  - destruct h as [t now f|k|x]; [|inversion Hr..]. unfold created_by in Hr. destruct (due t now) as [p|] eqn:Hd; [|inversion Hr].
    exists t, now, p, f. split; [left|]. split; [done|].
    destruct f; [|inversion Hr|]; (destruct (has_key _ _); [inversion Hr|by apply list_elem_of_singleton in Hr]).
  - destruct (IH _ Hr) as (t & now & p & f & Hin & Hd). exists t, now, p, f. split; [by right|done].
Qed.

Lemma evaluated_there w t now f p : due t now = Some p → (∀ e, f ≠ Lost e) → there (run_key (scheduledRun t p)) (step w (Evaluated t now f)) = 1.
Proof.
  intros Hd Hf. unfold there. rewrite step_runs. unfold created_by. rewrite Hd.
  destruct f as [|e|e]; [|by destruct (Hf e)|]; (destruct (has_key _ (sv_runs w)) eqn:E; cbn [app]; [by rewrite E|]);
    unfold has_key; cbn; by rewrite bool_decide_eq_true_2.
Qed.
End Once.

(** C19: Scheduled runs, whoever else works on the cluster: any schedulers evaluate
    any Tests at any instants, their requests answered, lost or carried out without an
    answer, while runs are removed and others are created by hand.  Names stay
    distinct; a scheduler creates only runs of instants that are due; under one name
    the creations, with the run that was there, are at most the run that is there in
    the end and the removals, so an activation has at most one run until it is
    removed; a due evaluation whose request was not lost leaves the run in place, and
    it was created exactly once if it was not there, nobody removed it and nobody else
    took its name; and a name that was not shortened says the Test and the second. *)
Theorem scheduled_exactly_once `{C : Cron} hs w :
  NoDup (run_key <$> sv_runs w) →
  let final := foldl step w hs in
  NoDup (run_key <$> sv_runs final) ∧
  (∀ r, r ∈ created w hs → ∃ t now p f, Evaluated t now f ∈ hs ∧ due t now = Some p ∧ r = scheduledRun t p) ∧
  (∀ k, creations k w hs + there k w <= there k final + removals k hs) ∧
  (∀ t now f p, Evaluated t now f ∈ hs → due t now = Some p → (∀ e, f ≠ Lost e) →
     let k := run_key (scheduledRun t p) in undisturbed k hs → there k final = 1 ∧ creations k w hs + there k w = 1) ∧
  (∀ t u p q, short_name t p → short_name u q → (0 <= p)%Z → (0 <= q)%Z → run_key (scheduledRun t p) = run_key (scheduledRun u q) →
     om_Name (t_Meta t) = om_Name (t_Meta u) ∧ om_Namespace (t_Meta t) = om_Namespace (t_Meta u) ∧ time_Unix p = time_Unix q).
Proof.
  intros Hd final. split_and!.
  - unfold final. clear -Hd. revert w Hd. induction hs as [|h hs IH]; intros w Hd; [done|]. by apply IH, step_distinct.
  - apply created_due.
  - intros k. apply balance.
  - intros t now f p Hin Hdue Hf k Hu. assert (H1 : there k final = 1).
    { apply undisturbed_there with (Evaluated t now f); [done..|]. intros w'. by apply evaluated_there. }
    split; [done|]. by rewrite <- (undisturbed_account k w hs Hu).
  - intros t u p q. apply scheduledRun_key_inj.
Qed.

(** ** A daily Test, for the witnesses *)

(** One expression, six every morning. *)
Definition day : duration := (24 * hour)%Z.
Definition six : duration := (6 * hour)%Z.
#[local] Instance daily : Cron := {
  Schedule := unit;
  Parse s := if (s =? "0 6 * * *")%string then Some tt else None;
  Next _ t := (((t - six) / day + 1) * day + six)%Z;
}.

(** Six in the morning of day 20000, and instants after it. *)
Definition demo_six : time := (20000 * day + six)%Z.

(** Linear arithmetic over days. *)
#[local] Ltac days :=
  unfold demo_six in *;
  change day with 86400000000000%Z in *; change six with 21600000000000%Z in *; change second with 1000000000%Z in *; lia.

Lemma daily_Next_eq t : ∃ k, Next (Cron := daily) tt t = (k * day + six)%Z ∧ (t < k * day + six <= t + day)%Z.
Proof.
  exists ((t - six) / day + 1)%Z. split; [done|].
  assert (Hd : (0 < day)%Z) by done. pose proof (Z.div_mod (t - six) day). pose proof (Z.mod_pos_bound (t - six) day Hd). days.
Qed.

Lemma daily_goes_on : goes_on (C := daily) tt.
Proof.
  intros t. destruct (daily_Next_eq t) as (k & -> & _). intros H.
  apply (f_equal (fun z => (z mod day)%Z)) in H. rewrite Z.add_comm, Z_mod_plus_full in H. done.
Qed.

#[local] Instance daily_laws : CronLaws daily.
Proof.
  refine (Build_CronLaws daily (fun _ t => (t mod day = six)%Z) _ _ _).
  - intros [] t _. destruct (daily_Next_eq t) as (k & -> & Ht). split; [lia|].
    by rewrite Z.add_comm, Z_mod_plus_full.
  - intros [] t u Hu Hlt. split; [apply daily_goes_on|]. destruct (daily_Next_eq t) as (k & -> & Ht).
    pose proof (Z.div_mod u day) as Hd. rewrite Hu in Hd. specialize (Hd ltac:(done)). days.
  - intros _ u v Hu Hv Hlt. pose proof (Z.div_mod u day ltac:(done)) as Hdu. pose proof (Z.div_mod v day ltac:(done)) as Hdv.
    rewrite Hu in Hdu. rewrite Hv in Hdv. days.
Defined.

Definition demo_test : Test :=
  mkTest (mkMeta "smoke" "ns" "t1" ∅ ∅ (hour) None [] [])
    (mkTestSpec (mkContent None [] [] []) zeroContainer [] None ∅ None None None "0 6 * * *" ∅ None "" None None None []) None.

Lemma due_spec_witness : due demo_test (demo_six + 90 * second)%Z = Some demo_six.
Proof.
  apply (due_spec (C := daily) demo_test (demo_six + 90 * second) tt demo_six); [done|done|exact daily_goes_on|done|done|].
  split; [|split; [done|split; [right; done|done]]].
  split; [done|]. split; [done|]. intros u Hu Hle. destruct (Z.le_gt_cases u demo_six) as [|Hgt]; [done|exfalso].
  pose proof (Z.div_mod u day ltac:(done)) as Hd. change (u mod day = six)%Z in Hu. rewrite Hu in Hd. days.
Defined.

(** The first tick's request is lost, the next tick's carried out without an answer,
    a third one finds the run, and the next morning's is created. *)
Definition demo_lost : error := mkError EOther "connection refused".
Definition demo_day : list incident :=
  [Evaluated demo_test (demo_six + 30 * second)%Z (Lost demo_lost); Evaluated demo_test (demo_six + 60 * second)%Z (AnswerLost demo_lost);
   Evaluated demo_test (demo_six + 90 * second)%Z Answered; Evaluated demo_test (demo_six + day + 5 * second)%Z Answered].

Lemma demo_due : due demo_test (demo_six + 90 * second)%Z = Some demo_six.
Proof. vm_compute. reflexivity. Qed.

Lemma scheduled_exactly_once_witness :
  let k := run_key (scheduledRun demo_test demo_six) in
  creations k (mkServer [] [] 0) demo_day = 1 ∧ length (sv_runs (foldl step (mkServer [] [] 0) demo_day)) = 2.
Proof.
  intros k. split; [|vm_compute; reflexivity].
  destruct (scheduled_exactly_once (C := daily) demo_day (mkServer [] [] 0) NoDup_nil_2) as (_ & _ & _ & H & _).
  destruct (H demo_test (demo_six + 90 * second)%Z Answered demo_six) as [_ Hc].
  - right. right. left.
  - exact demo_due.
  - discriminate.
  - apply only_evaluations. repeat constructor.
  - rewrite <- Hc. symmetry. apply Nat.add_0_r.
Defined.

(** ** Finished runs that are removed *)

(** The environment of the reconciler at [now]: the run is in run history. *)
Definition at_time (now : time) : ∀ R, Ops.Op R → unit → R * unit := fun R o w =>
  match o in Ops.Op R return R * unit with
  | Now => (now, w)
  | PersistedLoad _ => (true, w)
  | o => Lifecycle.answer None _ o w
  end.

(** The default of an hour. *)
Definition hour_ttl : Config :=
  mkConfig false true false false false false hour (30 * second) (10 * second) 0 (PodPolicy.mkPolicy [] false) true ∅ Lifecycle.demo_compiler.

(** The run as it ends at [finished]. *)
Definition ended_run (r : TestRun) (finished : time) : TestRun :=
  with_meta (with_Finalizers [Reconciler.FinalizerName] (r_Meta r))
    (upd_status (fun s => set_FinishedAt (Some finished) (set_Phase PhasePassed s)) r).

(** A scheduled run that is removed while its instant is within the missed-fire window
    is created again: a Test scheduled once a day runs at six; its run, finished at
    five past and an hour old in the run store, is deleted by the reconciler at seven;
    and the scheduler's next tick, the same morning, creates it again. *)
Theorem removed_run_fires_again :
  let w1 := step (mkServer [] [] 0) (Evaluated demo_test (demo_six + 30 * second)%Z Answered) in
  let r := scheduledRun demo_test demo_six in
  let expiry := Effects.run (at_time (demo_six + 66 * minute)%Z)
                  (Reconciler.reconcile_run (H := Lifecycle.demo_components) hour_ttl (ended_run r (demo_six + 5 * minute)%Z)) tt in
  let w2 := step (step w1 (Removed (run_key r))) (Evaluated demo_test (demo_six + 67 * minute)%Z Answered) in
  sv_runs w1 = [r] ∧
  Ev (DeleteRun (ended_run r (demo_six + 5 * minute)%Z)) None ∈ expiry.2 ∧
  sv_runs w2 = [r] ∧ sv_fires w2 = 2%Z.
Proof.
  split_and!; [by vm_compute| |by vm_compute|by vm_compute].
  vm_compute. repeat first [left | right].
Qed.

End Scheduler.
