(* ===== verification/Calendar.v ===== *)
(** * The civil calendar of package time

    The day number of a date ([time.Date]) as the inverse of
    [GoLib.civil_from_days], and the months as half-open intervals of days. *)
From S2P Require Import Prelude GoLib.

Module Calendar.
#[local] Open Scope Z_scope.

(** The day number of a date, counted from 1970-01-01. *)
Definition days_from_civil (y m d : Z) : Z :=
  let y' := if m <=? 2 then y - 1 else y in
  let era := y' / 400 in
  let yoe := y' mod 400 in
  let mp := if 2 <? m then m - 3 else m + 9 in
  let doy := (153 * mp + 2) / 5 + d - 1 in
  era * 146097 + (yoe * 365 + yoe / 4 - yoe / 100 + doy) - 719468.

(** [AddDate(0, 1, 0)] of the first of a month. *)
Definition next_month (ym : Z * Z) : Z * Z := if ym.2 =? 12 then (ym.1 + 1, 1) else (ym.1, ym.2 + 1).

Definition first_day (ym : Z * Z) : Z := days_from_civil ym.1 ym.2 1.

Definition month_of_day (z : Z) : Z * Z := let '(y, m, _) := civil_from_days z in (y, m).

Definition valid_month (ym : Z * Z) : Prop := 1 <= ym.2 <= 12.

(** ** Years of an era (March first) *)

Definition year_start (yoe : Z) : Z := 365 * yoe + yoe / 4 - yoe / 100.
Definition days_less_leaps (doe : Z) : Z := doe - doe / 1460 + doe / 36524 - doe / 146096.
Definition year_of (doe : Z) : Z := days_less_leaps doe / 365.
(** The first day of the year after, the end of the era for the last one. *)
Definition year_end (yoe : Z) : Z := if yoe =? 399 then 146097 else year_start (yoe + 1).

Lemma div_succ x k : 0 < k → x / k <= (x + 1) / k <= x / k + 1.
Proof.
  intros Hk. split; [apply Z.div_le_mono; lia|].
  replace (x / k + 1) with ((x + 1 * k) / k) by (rewrite Z.div_add; lia). apply Z.div_le_mono; lia.
Qed.

Lemma days_less_leaps_succ x : 0 <= x < 146096 → days_less_leaps x <= days_less_leaps (x + 1).
Proof.
  intros Hx. unfold days_less_leaps. destruct (Z.eq_dec x 146095) as [->|Hne]; [done|].
  rewrite (Z.div_small x 146096), (Z.div_small (x + 1) 146096) by lia.
  pose proof (div_succ x 1460 ltac:(lia)). pose proof (div_succ x 36524 ltac:(lia)). lia.
Qed.

Lemma days_less_leaps_mono a b : 0 <= a <= b → b < 146097 → days_less_leaps a <= days_less_leaps b.
Proof.
  intros Ha Hb. replace b with (a + Z.of_nat (Z.to_nat (b - a))) in * by lia.
  generalize dependent (Z.to_nat (b - a)). intros n. induction n as [|n IH]; intros Hn1 Hn2; [by rewrite Z.add_0_r|].
  etransitivity; [apply IH; lia|]. replace (a + Z.of_nat (S n)) with (a + Z.of_nat n + 1) by lia.
  apply days_less_leaps_succ. lia.
Qed.

Lemma year_bounds_check :
  forallb (fun y => let y := Z.of_nat y in
     (year_of (year_start y) =? y) && (year_of (year_end y - 1) =? y) && (0 <=? year_start y) && (year_end y <=? 146097)
     && (year_start y + 365 <=? year_end y) && (year_end y <=? year_start y + 366))
    (seq 0 400) = true.
Proof. vm_compute. reflexivity. Qed.

Lemma year_bounds y : 0 <= y < 400 →
  year_of (year_start y) = y ∧ year_of (year_end y - 1) = y ∧ 0 <= year_start y ∧ year_end y <= 146097
  ∧ year_start y + 365 <= year_end y <= year_start y + 366.
Proof.
  intros Hy. pose proof year_bounds_check as H. rewrite forallb_forall in H.
  specialize (H (Z.to_nat y)). rewrite Z2Nat.id in H by lia. cbn zeta in H.
  assert (Hin : In (Z.to_nat y) (seq 0 400)) by (apply in_seq; lia). specialize (H Hin). breflect. lia.
Qed.

(** A day of the era lies in the year [year_of] gives it. *)
Lemma year_of_bounds doe : 0 <= doe < 146097 →
  0 <= year_of doe < 400 ∧ year_start (year_of doe) <= doe < year_end (year_of doe).
Proof.
  intros Hd. assert (Hy : 0 <= year_of doe < 400).
  { pose proof (days_less_leaps_mono 0 doe ltac:(lia) ltac:(lia)) as H1.
    pose proof (days_less_leaps_mono doe 146096 ltac:(lia) ltac:(lia)) as H2.
    change (days_less_leaps 0) with 0 in H1. change (days_less_leaps 146096) with 145999 in H2. unfold year_of.
    split; [apply Z.div_pos; lia|]. apply Z.div_lt_upper_bound; lia. }
  split; [done|].
  assert (Hmono : ∀ a b, 0 <= a <= b → b < 146097 → year_of a <= year_of b).
  { intros a b ? ?. apply Z.div_le_mono; [lia|]. by apply days_less_leaps_mono. }
  set (y := year_of doe) in *. destruct (year_bounds y Hy) as (Hs & He & Hs0 & He1 & Hlen). split.
  - destruct (Z.le_gt_cases (year_start y) doe) as [|Hlt]; [done|exfalso].
    assert (Hy0 : 0 < y) by (destruct (Z.eq_dec y 0) as [E|]; [rewrite E in Hlt; change (year_start 0) with 0 in Hlt; lia|lia]).
    destruct (year_bounds (y - 1) ltac:(lia)) as (_ & He' & _).
    assert (Hend : year_end (y - 1) = year_start y).
    { unfold year_end. destruct (Z.eqb_spec (y - 1) 399); [lia|]. f_equal. lia. }
    rewrite Hend in He'. pose proof (Hmono doe (year_start y - 1) ltac:(lia) ltac:(lia)). lia.
  - destruct (Z.le_gt_cases (year_end y) doe) as [Hge|]; [exfalso|done].
    assert (Hend : year_end y = year_start (y + 1) ∧ y + 1 < 400).
    { unfold year_end in *. destruct (Z.eqb_spec y 399); [lia|]. split; [done|lia]. }
    destruct Hend as [Hend Hy1]. destruct (year_bounds (y + 1) ltac:(lia)) as (Hs' & _ & Hs1 & _).
    rewrite Hend in Hge. pose proof (Hmono (year_start (y + 1)) doe ltac:(lia) ltac:(lia)). lia.
Qed.

(** ** Months *)

(** Days of a March-based year before month [mp] (0 is March). *)
Definition month_start (mp : Z) : Z := (153 * mp + 2) / 5.

Lemma month_start_check :
  forallb (fun doy => let doy := Z.of_nat doy in let mp := (5 * doy + 2) / 153 in
     (0 <=? mp) && (mp <=? 11) && (month_start mp <=? doy) && (doy <? month_start (mp + 1))) (seq 0 366) = true.
Proof. vm_compute. reflexivity. Qed.

Lemma month_of_doy doy : 0 <= doy < 366 →
  let mp := (5 * doy + 2) / 153 in 0 <= mp <= 11 ∧ month_start mp <= doy < month_start (mp + 1).
Proof.
  intros Hd mp. pose proof month_start_check as H. rewrite forallb_forall in H.
  specialize (H (Z.to_nat doy)). rewrite Z2Nat.id in H by lia. cbn zeta in H.
  assert (Hin : In (Z.to_nat doy) (seq 0 366)) by (apply in_seq; lia). specialize (H Hin). breflect. unfold mp. lia.
Qed.

(** The March-based year and month of a month. *)
Definition march_year (ym : Z * Z) : Z := if ym.2 <=? 2 then ym.1 - 1 else ym.1.
Definition march_month (ym : Z * Z) : Z := if 2 <? ym.2 then ym.2 - 3 else ym.2 + 9.
(** The day number of the first of March of a March-based year. *)
Definition march_first (y : Z) : Z := y / 400 * 146097 + year_start (y mod 400) - 719468.

Lemma first_day_march ym : first_day ym = march_first (march_year ym) + month_start (march_month ym).
Proof.
  unfold first_day, days_from_civil, march_first, march_year, march_month, month_start, year_start. cbv zeta.
  lia.
Qed.

(** The next March-based year starts where this one ends. *)
Lemma march_first_succ y : march_first (y + 1) = y / 400 * 146097 + year_end (y mod 400) - 719468.
Proof.
  unfold march_first, year_end. pose proof (Z.div_mod y 400 ltac:(lia)). pose proof (Z.mod_pos_bound y 400 ltac:(lia)).
  destruct (Z.eqb_spec (y mod 400) 399) as [E|E].
  - rewrite <- (Z.div_unique (y + 1) 400 (y / 400 + 1) 0), <- (Z.mod_unique (y + 1) 400 (y / 400 + 1) 0) by lia.
    change (year_start 0) with 0. lia.
  - rewrite <- (Z.div_unique (y + 1) 400 (y / 400) (y mod 400 + 1)), <- (Z.mod_unique (y + 1) 400 (y / 400) (y mod 400 + 1)) by lia.
    done.
Qed.

Lemma march_first_length y : march_first y + 365 <= march_first (y + 1) <= march_first y + 366.
Proof.
  rewrite march_first_succ. unfold march_first. pose proof (Z.mod_pos_bound y 400 ltac:(lia)) as Hm.
  destruct (year_bounds (y mod 400) Hm) as (_ & _ & _ & _ & ?). lia.
Qed.

(** The month after, in the same March-based year or at the start of the next. *)
Lemma next_month_march ym : valid_month ym →
  (march_month ym < 11 ∧ march_year (next_month ym) = march_year ym ∧ march_month (next_month ym) = march_month ym + 1)
  ∨ (march_month ym = 11 ∧ march_year (next_month ym) = march_year ym + 1 ∧ march_month (next_month ym) = 0).
Proof.
  destruct ym as [y m]. unfold valid_month, next_month, march_year, march_month. cbn [fst snd]. intros Hm.
  destruct (Z.eqb_spec m 12) as [->|]; cbn [fst snd]; [left; cbn; lia|].
  destruct (Z.leb_spec m 2), (Z.ltb_spec 2 m), (Z.leb_spec (m + 1) 2), (Z.ltb_spec 2 (m + 1)); lia.
Qed.

Lemma march_month_range ym : valid_month ym → 0 <= march_month ym <= 11.
Proof. unfold valid_month, march_month. intros. case_match; breflect; lia. Qed.

(** Months have 28 to 31 days. *)
Lemma month_length ym : valid_month ym → first_day ym + 28 <= first_day (next_month ym) <= first_day ym + 31.
Proof.
  intros Hv. rewrite !first_day_march. pose proof (march_month_range ym Hv) as Hr.
  destruct (next_month_march ym Hv) as [(Hlt & -> & ->)|(-> & -> & ->)].
  - unfold month_start. set (mp := march_month ym) in *.
    assert (mp = 0 ∨ mp = 1 ∨ mp = 2 ∨ mp = 3 ∨ mp = 4 ∨ mp = 5 ∨ mp = 6 ∨ mp = 7 ∨ mp = 8 ∨ mp = 9 ∨ mp = 10) as Hc by lia.
    clearbody mp. set (d := march_first _). clearbody d. destruct_or! Hc; subst mp;
      repeat match goal with |- context [?a / 5] => let v := eval vm_compute in (a / 5) in change (a / 5) with v end; lia.
  - pose proof (march_first_length (march_year ym)). change (month_start 11) with 337. change (month_start 0) with 0. lia.
Qed.

(** A day lies in the month its civil date names, as its day. *)
Lemma month_of_day_spec z :
  valid_month (month_of_day z) ∧ first_day (month_of_day z) <= z < first_day (next_month (month_of_day z)) ∧
  (civil_from_days z).2 = z - first_day (month_of_day z) + 1.
Proof.
  set (era := (z + 719468) / 146097). set (doe := (z + 719468) mod 146097).
  pose proof (Z.div_mod (z + 719468) 146097 ltac:(lia)) as Hdm. fold era doe in Hdm.
  pose proof (Z.mod_pos_bound (z + 719468) 146097 ltac:(lia)) as Hdoe. fold doe in Hdoe.
  destruct (year_of_bounds doe Hdoe) as [Hy Hdoy]. set (yoe := year_of doe) in *.
  destruct (year_bounds yoe Hy) as (_ & _ & _ & _ & Hlen).
  destruct (month_of_doy (doe - year_start yoe)) as [Hmp Hms]; [lia|]. cbv zeta in Hms.
  set (mp := (5 * (doe - year_start yoe) + 2) / 153) in *.
  assert (Hm : month_of_day z = (yoe + era * 400 + (if (if mp <? 10 then mp + 3 else mp - 9) <=? 2 then 1 else 0),
                                 if mp <? 10 then mp + 3 else mp - 9)).
  { unfold month_of_day, civil_from_days. cbv zeta. fold era.
    replace (z + 719468 - era * 146097) with doe by lia. reflexivity. }
  assert (Hv : valid_month (month_of_day z)).
  { rewrite Hm. unfold valid_month. cbn [snd]. destruct (Z.ltb_spec mp 10); lia. }
  assert (HM : march_year (month_of_day z) = era * 400 + yoe ∧ march_month (month_of_day z) = mp).
  { rewrite Hm. unfold march_year, march_month. cbn [fst snd]. destruct (Z.ltb_spec mp 10);
      [destruct (Z.leb_spec (mp + 3) 2), (Z.ltb_spec 2 (mp + 3))|destruct (Z.leb_spec (mp - 9) 2), (Z.ltb_spec 2 (mp - 9))]; lia. }
  destruct HM as [HM1 HM2].
  assert (Hfirst : march_first (era * 400 + yoe) = era * 146097 + year_start yoe - 719468
                   ∧ march_first (era * 400 + yoe + 1) = era * 146097 + year_end yoe - 719468).
  { rewrite march_first_succ. unfold march_first.
    rewrite (Z.add_comm (era * 400) yoe), Z.div_add, Z.mod_add, Z.div_small, Z.mod_small by lia. done. }
  destruct Hfirst as [Hf1 Hf2]. split; [done|]. rewrite !first_day_march.
  assert (Hd : (civil_from_days z).2 = doe - year_start yoe - month_start mp + 1).
  { unfold civil_from_days. cbv zeta. fold era. replace (z + 719468 - era * 146097) with doe by lia. reflexivity. }
  rewrite Hd. destruct (next_month_march _ Hv) as [(Hlt & HN1 & HN2)|(Heq & HN1 & HN2)]; rewrite HN1, HN2, HM1, HM2 in *.
  - rewrite Hf1. lia.
  - rewrite Hf1, Hf2, Heq. change (month_start 0) with 0. rewrite Heq in Hms. lia.
Qed.
Lemma month_of_day_bounds z :
  valid_month (month_of_day z) ∧ first_day (month_of_day z) <= z < first_day (next_month (month_of_day z)).
Proof. by destruct (month_of_day_spec z) as (? & ? & _). Qed.

(** ** The order of months *)

Definition month_index (ym : Z * Z) : Z := ym.1 * 12 + ym.2 - 1.

Lemma next_month_valid ym : valid_month ym → valid_month (next_month ym).
Proof. unfold valid_month, next_month. intros. case_match; breflect; cbn; lia. Qed.

Lemma next_month_index ym : valid_month ym → month_index (next_month ym) = month_index ym + 1.
Proof. unfold valid_month, next_month, month_index. intros. case_match; breflect; cbn; lia. Qed.

Lemma month_index_inj a b : valid_month a → valid_month b → month_index a = month_index b → a = b.
Proof. destruct a as [y m], b as [y' m']. unfold valid_month, month_index. cbn. intros. f_equal; lia. Qed.

(** The month [n] months later. *)
Definition months_later (n : nat) (ym : Z * Z) : Z * Z := Nat.iter n next_month ym.

Lemma months_later_spec n ym : valid_month ym →
  valid_month (months_later n ym) ∧ month_index (months_later n ym) = month_index ym + Z.of_nat n
  ∧ first_day ym + 28 * Z.of_nat n <= first_day (months_later n ym).
Proof.
  intros Hv. unfold months_later. induction n as [|n (IH1 & IH2 & IH3)]; [cbn; split_and!; [done|lia|lia]|].
  rewrite Nat.iter_succ. pose proof (month_length _ IH1). split_and!; [by apply next_month_valid|..|lia].
  rewrite next_month_index by done. lia.
Qed.

Lemma months_between a b : valid_month a → valid_month b → month_index a <= month_index b →
  b = months_later (Z.to_nat (month_index b - month_index a)) a.
Proof.
  intros Ha Hb Hle. destruct (months_later_spec (Z.to_nat (month_index b - month_index a)) a Ha) as (Hv & Hi & _).
  apply month_index_inj; [done..|]. lia.
Qed.

Lemma first_day_lt a b : valid_month a → valid_month b → (first_day a < first_day b ↔ month_index a < month_index b).
Proof.
  intros Ha Hb. split; intros H.
  - destruct (Z.lt_ge_cases (month_index a) (month_index b)) as [|Hge]; [done|exfalso].
    destruct (months_later_spec (Z.to_nat (month_index a - month_index b)) b Hb) as (_ & _ & Hd).
    rewrite <- months_between in Hd by (done || lia). lia.
  - destruct (months_later_spec (Z.to_nat (month_index b - month_index a)) a Ha) as (_ & _ & Hd).
    rewrite <- months_between in Hd by (done || lia). lia.
Qed.

(** The month of a day is the only one that contains it. *)
Lemma month_of_day_unique z ym :
  valid_month ym → first_day ym <= z < first_day (next_month ym) → ym = month_of_day z.
Proof.
  intros Hv Hz. destruct (month_of_day_bounds z) as [Hv' Hz'].
  pose proof (next_month_valid _ Hv) as Hn. pose proof (next_month_valid _ Hv') as Hn'.
  assert (H1 : first_day ym < first_day (next_month (month_of_day z))) by lia.
  assert (H2 : first_day (month_of_day z) < first_day (next_month ym)) by lia.
  apply first_day_lt in H1, H2; [|done..]. rewrite next_month_index in H1, H2 by done.
  apply month_index_inj; [done..|]. lia.
Qed.

Lemma month_of_day_mono z w : z <= w → month_index (month_of_day z) <= month_index (month_of_day w).
Proof.
  intros Hle. destruct (month_of_day_bounds z) as [Hv Hz], (month_of_day_bounds w) as [Hv' Hw].
  assert (H : first_day (month_of_day z) < first_day (next_month (month_of_day w))) by lia.
  apply first_day_lt in H; [|done|by apply next_month_valid]. rewrite next_month_index in H by done. lia.
Qed.


(** ** [time.Parse(time.RFC3339, s)] *)

Definition digit (c : ascii) : option Z :=
  let n := Z.of_nat (nat_of_ascii c) in if (48 <=? n) && (n <=? 57) then Some (n - 48) else None.

(** Exactly [n] digits. *)
Fixpoint take_digits (n : nat) (acc : Z) (s : string) : option (Z * string) :=
  match n, s with
  | O, _ => Some (acc, s)
  | S n, String c s => d ← digit c; take_digits n (acc * 10 + d) s
  | S _, EmptyString => None
  end.

(** [getnum(s, false)]: one digit or two. *)
Definition one_or_two (s : string) : option (Z * string) :=
  match take_digits 2 0 s with Some r => Some r | None => take_digits 1 0 s end.

Definition expect (c : ascii) (s : string) : option string :=
  match s with String c' s => if Ascii.eqb c c' then Some s else None | EmptyString => None end.

(** The digits at the front, at most nine of them counted, as nanoseconds. *)
Fixpoint fraction (scale acc : Z) (s : string) : Z * string :=
  match s with
  | String c s' => match digit c with Some d => fraction (scale / 10) (acc + d * scale) s' | None => (acc, s) end
  | EmptyString => (acc, s)
  end.

(** A fraction is read though the layout has none, after a dot or a comma. *)
Definition opt_fraction (s : string) : Z * string :=
  match s with
  | String p (String d _ as s') =>
      if (Ascii.eqb p "." || Ascii.eqb p ",") && (match digit d with Some _ => true | None => false end)
      then fraction 100000000 0 s' else (0, s)
  | _ => (0, s)
  end.

(** The zone, as seconds east of UTC. *)
Definition zone (s : string) : option (Z * string) :=
  match s with
  | String c s' =>
      if Ascii.eqb c "Z" then Some (0, s')
      else
        sign ← (if Ascii.eqb c "+" then Some 1 else if Ascii.eqb c "-" then Some (-1) else None);
        '(hr, s') ← take_digits 2 0 s';
        s' ← expect ":" s';
        '(mm, s') ← take_digits 2 0 s';
        if (24 <? hr) || (60 <? mm) then None else Some (sign * ((hr * 60 + mm) * 60), s')
  | EmptyString => None
  end.

Definition days_in (y m : Z) : Z := first_day (next_month (y, m)) - first_day (y, m).

Definition ParseRFC3339 (s : string) : option time :=
  '(y, s) ← take_digits 4 0 s; s ← expect "-" s;
  '(m, s) ← take_digits 2 0 s; s ← expect "-" s;
  '(d, s) ← take_digits 2 0 s; s ← expect "T" s;
  '(hh, s) ← one_or_two s; s ← expect ":" s;
  '(mm, s) ← take_digits 2 0 s; s ← expect ":" s;
  '(ss, s) ← take_digits 2 0 s;
  let '(frac, s) := opt_fraction s in
  '(off, s) ← zone s;
  if negb (str_is_empty s) then None
  else if (m <? 1) || (12 <? m) || (d <? 1) || (days_in y m <? d) || (24 <=? hh) || (60 <=? mm) || (60 <=? ss) then None
  else Some ((days_from_civil y m d * 86400 + hh * 3600 + mm * 60 + ss - off) * second + frac).

Example ParseRFC3339_z : ParseRFC3339 "2024-02-29T12:34:56Z" = Some (1709210096 * second).
Proof. vm_compute. reflexivity. Qed.
Example ParseRFC3339_zone : ParseRFC3339 "2024-02-29T14:34:56.5+02:00" = Some (1709210096 * second + 500 * millisecond).
Proof. vm_compute. reflexivity. Qed.
Example ParseRFC3339_no_day : ParseRFC3339 "2023-02-29T12:34:56Z" = None.
Proof. vm_compute. reflexivity. Qed.

(** ** [t.UTC().Format(time.RFC3339Nano)] *)

Definition digit_char (d : Z) : ascii := ascii_of_nat (48 + Z.to_nat d).

(** [v] as a fraction of [n] digits, without its trailing zeros. *)
Fixpoint fraction_text (n : nat) (v : Z) : string :=
  match n with
  | O => ""
  | S n => if v =? 0 then "" else String (digit_char (v / 10 ^ Z.of_nat n)) (fraction_text n (v mod 10 ^ Z.of_nat n))
  end.
Definition RFC3339Nano (t : time) : string :=
  let ns := t mod second in
  date_part t +:+ "T" +:+ clock_part t +:+ (if ns =? 0 then "" else "." +:+ fraction_text 9 ns) +:+ "Z".

Example RFC3339Nano_frac : RFC3339Nano (1709210096 * second + 1500) = "2024-02-29T12:34:56.0000015Z".
Proof. vm_compute. reflexivity. Qed.

Lemma take_digits_app n : ∀ acc s v s', take_digits n acc s = Some (v, "") → take_digits n acc (s +:+ s') = Some (v, s').
Proof.
  induction n as [|n IH]; intros acc s v s'; cbn; [by intros [= -> ->]|]. destruct s as [|c s]; [done|].
  rewrite str_app_cons. destruct (digit c); [|done]. cbn. apply IH.
Qed.

Lemma digits_check :
  forallb (fun n => let z := Z.of_nat n in bool_decide (take_digits 2 0 (itoa_pad 2 z) = Some (z, ""))) (seq 0 100) = true ∧
  forallb (fun n => let z := Z.of_nat n in bool_decide (take_digits 4 0 (itoa_pad 4 z) = Some (z, ""))) (seq 0 (Z.to_nat 10000)) = true.
Proof. split; vm_compute; reflexivity. Qed.
Lemma take_two z s : 0 <= z < 100 → take_digits 2 0 (itoa_pad 2 z +:+ s) = Some (z, s).
Proof.
  intros Hz. apply take_digits_app. destruct digits_check as [H _]. rewrite forallb_forall in H. specialize (H (Z.to_nat z)). cbn zeta in H.
  rewrite Z2Nat.id in H by lia. apply bool_decide_eq_true in H; [done|]. apply in_seq. lia.
Qed.
Lemma take_four z s : 0 <= z < 10000 → take_digits 4 0 (itoa_pad 4 z +:+ s) = Some (z, s).
Proof.
  intros Hz. apply take_digits_app. destruct digits_check as [_ H]. rewrite forallb_forall in H. specialize (H (Z.to_nat z)). cbn zeta in H.
  rewrite Z2Nat.id in H by lia. apply bool_decide_eq_true in H; [done|]. apply in_seq. lia.
Qed.

Lemma digit_of_char d : 0 <= d < 10 → digit (digit_char d) = Some d.
Proof.
  intros Hd. assert (d = 0 ∨ d = 1 ∨ d = 2 ∨ d = 3 ∨ d = 4 ∨ d = 5 ∨ d = 6 ∨ d = 7 ∨ d = 8 ∨ d = 9) as Hc by lia. by destruct_or! Hc; subst.
Qed.

Lemma fraction_text_read n : ∀ v acc s, 0 <= v < 10 ^ Z.of_nat n → (match s with String c _ => digit c = None | _ => True end) →
  fraction (10 ^ Z.of_nat n / 10) acc (fraction_text n v +:+ s) = (acc + v, s).
Proof.
  induction n as [|n IH]; intros v acc s Hv Hs.
  - cbn [fraction_text]. change (10 ^ Z.of_nat 0) with 1 in Hv. assert (v = 0) as -> by lia. change (""%string +:+ s) with s.
    rewrite Z.add_0_r. destruct s as [|c s]; cbn; [done|]. by rewrite Hs.
  - cbn [fraction_text]. set (p := 10 ^ Z.of_nat n) in *. assert (Hp : 10 ^ Z.of_nat (S n) = 10 * p) by (unfold p; rewrite Nat2Z.inj_succ, Z.pow_succ_r; lia).
    assert (0 < p) by (unfold p; apply Z.pow_pos_nonneg; lia). rewrite Hp in *. rewrite (Z.mul_comm 10 p), Z.div_mul by lia.
    destruct (Z.eqb_spec v 0) as [->|Hne].
    + rewrite Z.add_0_r. change (""%string +:+ s) with s. destruct s as [|c s]; cbn; [done|]. by rewrite Hs.
    + rewrite str_app_cons. cbn [fraction]. pose proof (Z.mod_pos_bound v p ltac:(lia)). pose proof (Z.div_mod v p ltac:(lia)).
      rewrite digit_of_char by (split; [apply Z.div_pos; lia|apply Z.div_lt_upper_bound; lia]). rewrite IH by done. f_equal. lia.
Qed.

(** The years a four-digit year can name. *)
Definition formattable (t : time) : Prop := 0 <= (month_of_day (t / second / 86400)).1 < 10000.

Lemma expect_char c s : expect c (String c s) = Some s.
Proof. cbn. by rewrite Ascii.eqb_refl. Qed.
Lemma one_or_two_pad z s : 0 <= z < 100 → one_or_two (itoa_pad 2 z +:+ s) = Some (z, s).
Proof. intros Hz. unfold one_or_two. by rewrite take_two. Qed.

Lemma opt_fraction_read ns : 0 <= ns < second →
  opt_fraction ((if ns =? 0 then "" else "." +:+ fraction_text 9 ns) +:+ "Z") = (ns, "Z"%string).
Proof.
  intros Hns. pose proof (fraction_text_read 9 ns 0 "Z" Hns eq_refl) as Hr. destruct (Z.eqb_spec ns 0) as [->|Hne]; [done|].
  rewrite !str_app_cons, str_app_nil. change (10 ^ Z.of_nat 9 / 10) with 100000000 in Hr. cbn [fraction_text] in *.
  destruct (Z.eqb_spec ns 0) as [|_]; [done|]. rewrite str_app_cons in *. unfold opt_fraction. rewrite digit_of_char; [by rewrite Hr|].
  split; [apply Z.div_pos; lia|apply Z.div_lt_upper_bound; unfold second in Hns; lia].
Qed.

Lemma RFC3339Nano_read t : formattable t → ParseRFC3339 (RFC3339Nano t) = Some t.
Proof.
  intros Hy. unfold RFC3339Nano, date_part, clock_part. set (day := t / second / 86400). fold day in Hy.
  destruct (month_of_day_spec day) as (Hv & Hb & Hd). assert (Hym : month_of_day day = (civil_from_days day).1) by (unfold month_of_day; by destruct (civil_from_days day) as [[]]).
  rewrite Hym in *. destruct (civil_from_days day) as [[y m] d]. cbn [fst snd] in *. unfold valid_month in Hv. cbn [snd] in Hv.
  set (secs := (t / second) mod 86400). pose proof (Z.mod_pos_bound (t / second) 86400 ltac:(lia)) as Hs. fold secs in Hs.
  pose proof (Z.mod_pos_bound t second ltac:(done)) as Hns. pose proof (month_length (y, m) Hv) as Hlen.
  unfold ParseRFC3339. rewrite !str_app_assoc.
  rewrite take_four by (unfold formattable in Hy; fold day in Hy; rewrite Hym in Hy; exact Hy).
  cbn [mbind option_bind]. rewrite !str_app_cons, !str_app_nil, expect_char. cbn [mbind option_bind].
  rewrite take_two by (clear -Hv; lia). cbn [mbind option_bind]. rewrite expect_char. cbn [mbind option_bind].
  rewrite take_two by (clear -Hb Hd Hlen; lia). cbn [mbind option_bind]. rewrite expect_char. cbn [mbind option_bind].
  rewrite one_or_two_pad by (clear -Hs; clearbody secs; Z.to_euclidean_division_equations; lia). cbn [mbind option_bind]. rewrite expect_char. cbn [mbind option_bind].
  rewrite take_two by (clear -Hs; clearbody secs; Z.to_euclidean_division_equations; lia). cbn [mbind option_bind]. rewrite expect_char. cbn [mbind option_bind].
  rewrite take_two by (clear -Hs; clearbody secs; Z.to_euclidean_division_equations; lia). cbn [mbind option_bind].
  rewrite opt_fraction_read by done. cbn [mbind option_bind zone Ascii.eqb negb str_is_empty]. unfold days_in.
  assert (Hok : (m <? 1) || (12 <? m) || (d <? 1) || (first_day (next_month (y, m)) - first_day (y, m) <? d)
     || (24 <=? secs / 3600) || (60 <=? secs / 60 mod 60) || (60 <=? secs mod 60) = false).
  { clear -Hv Hb Hd Hlen Hs. clearbody secs. rewrite !orb_false_iff, !Z.ltb_ge, !Z.leb_gt. Z.to_euclidean_division_equations. lia. }
  cbn [Bool.eqb]. rewrite Hok. f_equal. assert (Hday : days_from_civil y m d = day).
  { unfold first_day, days_from_civil in Hd. cbn [fst snd] in Hd. unfold days_from_civil. lia. }
  rewrite Hday. unfold day, secs. pose proof (Z.div_mod t second ltac:(done)). pose proof (Z.div_mod (t / second) 86400 ltac:(lia)).
  set (ts := t / second) in *. assert (ts mod 86400 / 3600 * 3600 + ts mod 86400 / 60 mod 60 * 60 + (ts mod 86400) mod 60 = ts mod 86400).
  { clearbody ts. clear. Z.to_euclidean_division_equations. lia. }
  cbn [mbind option_bind negb str_is_empty]. f_equal. unfold second in *. lia.
Qed.
End Calendar.
