(* ===== verification/Durations.v ===== *)
(** * Durations as text

    time.ParseDuration: the durations of requests, in the decimal fractions and units
    of Go. *)
From S2P Require Import Prelude GoLib Keys.

Module Durations.

(** The digits in front. *)
Fixpoint digits (s : string) : list Z * string :=
  match s with
  | String c rest => match Keys.digit_value c with Some d => let '(ds, r) := digits rest in (d :: ds, r) | None => ([], s) end
  | EmptyString => ([], EmptyString)
  end.

(** Their value, while it fits; a fraction's digits that do not are dropped: the value
    of the others and how many they are. *)
Fixpoint leadingInt (ds : list Z) (x : Z) : option Z :=
  match ds with
  | [] => Some x
  | d :: ds => if (2 ^ 63 / 10 <? x)%Z then None else let y := (x * 10 + d)%Z in if (2 ^ 63 <? y)%Z then None else leadingInt ds y
  end.
Fixpoint leadingFraction (ds : list Z) (x : Z) (n : nat) : Z * nat :=
  match ds with
  | [] => (x, n)
  | d :: ds => if ((2 ^ 63 - 1) / 10 <? x)%Z then (x, n) else let y := (x * 10 + d)%Z in if (2 ^ 63 <? y)%Z then (x, n) else leadingFraction ds y (S n)
  end.

(** A unit goes up to the next number. *)
Definition in_number (c : ascii) : bool := Ascii.eqb c "." || negb (bool_decide (Keys.digit_value c = None)).
Fixpoint unit_part (s : string) : string * string :=
  match s with
  | String c rest => if in_number c then ("", s) else let '(u, r) := unit_part rest in (String c u, r)
  | EmptyString => ("", "")
  end.
Definition unitMap (u : string) : option duration :=
  if (u =? "ns")%string then Some 1%Z
  else if existsb (String.eqb u) ["us"; "µs"; "μs"] then Some 1000%Z
  else if (u =? "ms")%string then Some millisecond
  else if (u =? "s")%string then Some second
  else if (u =? "m")%string then Some minute
  else if (u =? "h")%string then Some hour
  else None.

Definition float_mul (a b : spec_float) : spec_float := SFmul 53 1024 a b.

(** [v] units and a fraction of one, in nanoseconds. *)
Definition term_value (v : Z) (fraction : list Z) (unit : duration) : option Z :=
  if (2 ^ 63 / unit <? v)%Z then None
  else
    let '(f, n) := leadingFraction fraction 0 0 in
    let v := (v * unit)%Z in
    if (f =? 0)%Z then Some v
    else
      let v := (v + int64_of_float (float_mul (float_of_int f) (float_div (float_of_int unit) (float_of_int (10 ^ Z.of_nat n)))))%Z in
      if (2 ^ 63 <? v)%Z then None else Some v.

(** Terms to the end; a term takes a byte at least. *)
Fixpoint parse_terms (fuel : nat) (s : string) (d : Z) : option Z :=
  match fuel, s with
  | _, EmptyString => Some d
  | O, _ => None
  | S fuel, _ =>
      let '(whole, rest) := digits s in
      let '(fraction, rest) := match rest with String "." r => digits r | _ => ([], rest) end in
      let '(u, rest) := unit_part rest in
      if (length whole =? 0)%nat && (length fraction =? 0)%nat then None
      else
        match leadingInt whole 0, unitMap u with
        | Some v, Some unit =>
            match term_value v fraction unit with
            | Some v => let d := ((d + v) mod 2 ^ 64)%Z in if (2 ^ 63 <? d)%Z then None else parse_terms fuel rest d
            | None => None
            end
        | _, _ => None
        end
  end.

Definition ParseDuration (s : string) : option duration :=
  let '(neg, s) :=
    match s with
    | String c rest => if Ascii.eqb c "-" then (true, rest) else if Ascii.eqb c "+" then (false, rest) else (false, s)
    | EmptyString => (false, s)
    end in
  if (s =? "0")%string then Some 0%Z
  else if (s =? "")%string then None
  else
    match parse_terms (String.length s) s 0 with
    | None => None
    | Some d => if (neg : bool) then Some (wrap64 (- d)) else if (int64_max <? d)%Z then None else Some d
    end.

Example durations_read :
  List.map ParseDuration ["1h30m"; "1.5h"; "-2s"; ".5s"; "90"; "1h 2m"; "1us"; "1µs"; "9223372036854775807ns"; "2562048h"; "0"; "+"]
  = [Some (90 * minute); Some (90 * minute); Some (-2 * second); Some (500 * millisecond); None; None; Some 1000; Some 1000; Some int64_max; None; Some 0; None]%Z.
Proof. vm_compute. reflexivity. Qed.

(** What is read fits. *)
Lemma parse_terms_range fuel : ∀ s d v, (0 <= d <= 2 ^ 63)%Z → parse_terms fuel s d = Some v → (0 <= v <= 2 ^ 63)%Z.
Proof.
  induction fuel as [|fuel IH]; intros s d v Hd; [destruct s; [by intros [= <-]|done]|].
  destruct s as [|c s]; [by intros [= <-]|]. cbn [parse_terms]. destruct (digits _) as [whole rest]. destruct (match rest with String "." r => digits r | _ => ([], rest) end) as [fraction rest'].
  destruct (unit_part rest') as [u rest'']. destruct (_ && _); [done|]. destruct (leadingInt whole 0) as [w|]; [|done]. destruct (unitMap u) as [un|]; [|done].
  destruct (term_value w fraction un) as [t|]; [|done]. cbn zeta. destruct (Z.ltb_spec (2 ^ 63) ((d + t) mod 2 ^ 64)); [done|]. apply IH. split; [apply Z.mod_pos_bound; lia|done].
Qed.
Lemma ParseDuration_range s d : ParseDuration s = Some d → (int64_min <= d <= int64_max)%Z.
Proof.
  unfold ParseDuration. destruct (match s with String _ _ => _ | EmptyString => _ end) as [neg s']. destruct (s' =? "0")%string; [by intros [= <-]|]. destruct (s' =? "")%string; [done|].
  destruct (parse_terms _ _ _) as [v|] eqn:E; [|done]. apply parse_terms_range in E; [|done]. destruct neg.
  - intros [= <-]. rewrite wrap64_small; unfold int64_min, int64_max; lia.
  - destruct (Z.ltb_spec int64_max v); [done|]. intros [= <-]. unfold int64_min. lia.
Qed.
End Durations.
