(* ===== verification/Urls.v ===== *)
(** * Text in URLs: encoding/base64 and net/url

    Base64: the URL alphabet without padding (RawURLEncoding): three bytes are four
    letters, the last one or two bytes two or three.  Decoding skips line breaks and takes
    any bits left over, as the library does.

    Urls: a string is escaped byte by byte, as a path segment, a path or a query component;
    a query string is the escaped pairs in the order of their keys.  What was escaped
    is read back. *)
From S2P Require Import Prelude Names GoLib Keys.

Module Base64.
#[local] Open Scope Z_scope.

Definition alphabet : string := "ABCDEFGHIJKLMNOPQRSTUVWXYZabcdefghijklmnopqrstuvwxyz0123456789-_".
Definition letter (v : Z) : ascii := default "A"%char (String.get (Z.to_nat v) alphabet).
Fixpoint index_of (c : ascii) (s : string) (i : Z) : option Z :=
  match s with EmptyString => None | String d s => if Ascii.eqb c d then Some i else index_of c s (i + 1) end.
Definition value (c : ascii) : option Z := index_of c alphabet 0.

Definition byte_val (c : ascii) : Z := Z.of_nat (nat_of_ascii c).
Definition to_byte (z : Z) : ascii := ascii_of_nat (Z.to_nat (z mod 256)).

Fixpoint EncodeToString (s : string) : string :=
  match s with
  | EmptyString => ""
  | String a EmptyString => String (letter (byte_val a / 4)) (String (letter (byte_val a mod 4 * 16)) "")
  | String a (String b EmptyString) =>
      String (letter (byte_val a / 4)) (String (letter (byte_val a mod 4 * 16 + byte_val b / 16)) (String (letter (byte_val b mod 16 * 4)) ""))
  | String a (String b (String c s)) =>
      String (letter (byte_val a / 4)) (String (letter (byte_val a mod 4 * 16 + byte_val b / 16))
        (String (letter (byte_val b mod 16 * 4 + byte_val c / 64)) (String (letter (byte_val c mod 64)) (EncodeToString s))))
  end.

Fixpoint skip_breaks (s : string) : string :=
  match s with
  | EmptyString => ""
  | String c s => if Ascii.eqb c "010" || Ascii.eqb c "013" then skip_breaks s else String c (skip_breaks s)
  end.

Fixpoint decode (s : string) : option string :=
  match s with
  | EmptyString => Some ""
  | String _ EmptyString => None
  | String a (String b EmptyString) => va ← value a; vb ← value b; Some (String (to_byte (va * 4 + vb / 16)) "")
  | String a (String b (String c EmptyString)) =>
      va ← value a; vb ← value b; vc ← value c; Some (String (to_byte (va * 4 + vb / 16)) (String (to_byte (vb * 16 + vc / 4)) ""))
  | String a (String b (String c (String d s))) =>
      va ← value a; vb ← value b; vc ← value c; vd ← value d; rest ← decode s;
      Some (String (to_byte (va * 4 + vb / 16)) (String (to_byte (vb * 16 + vc / 4)) (String (to_byte (vc * 64 + vd)) rest)))
  end.
Definition DecodeString (s : string) : option string := decode (skip_breaks s).

Example encode_man : EncodeToString "Many hands?" = "TWFueSBoYW5kcz8".
Proof. reflexivity. Qed.
Example decode_lenient : DecodeString "TQ" = Some "M" ∧ DecodeString "TR" = Some "M" ∧ DecodeString "T" = None.
Proof. split_and!; reflexivity. Qed.

(** ** Decoding what was encoded *)

Lemma letters_check : forallb (fun n => let v := Z.of_nat n in bool_decide (value (letter v) = Some v) && negb (Ascii.eqb (letter v) "010" || Ascii.eqb (letter v) "013")) (seq 0 64) = true.
Proof. vm_compute. reflexivity. Qed.
Lemma letter_spec v : 0 <= v < 64 → value (letter v) = Some v ∧ (Ascii.eqb (letter v) "010" || Ascii.eqb (letter v) "013") = false.
Proof.
  intros Hv. pose proof letters_check as H. rewrite forallb_forall in H. specialize (H (Z.to_nat v)). cbn zeta in H.
  rewrite Z2Nat.id, andb_true_iff, negb_true_iff, bool_decide_eq_true in H by lia. apply H, in_seq. lia.
Qed.

Lemma byte_bound c : 0 <= byte_val c < 256.
Proof. unfold byte_val. pose proof (nat_ascii_bounded c). lia. Qed.
Lemma to_byte_val c z : z mod 256 = byte_val c → to_byte z = c.
Proof. unfold to_byte, byte_val. intros ->. by rewrite Nat2Z.id, ascii_nat_embedding. Qed.


Lemma skip_letter v s : 0 <= v < 64 → skip_breaks (String (letter v) s) = String (letter v) (skip_breaks s).
Proof. intros Hv. cbn [skip_breaks]. by destruct (letter_spec v Hv) as [_ ->]. Qed.

Lemma sextet_bounds a b c :
  let x := byte_val a in let y := byte_val b in let z := byte_val c in
  (0 <= x / 4 < 64) ∧ (0 <= x mod 4 * 16 < 64) ∧ (0 <= x mod 4 * 16 + y / 16 < 64) ∧ (0 <= y mod 16 * 4 < 64) ∧ (0 <= y mod 16 * 4 + z / 64 < 64) ∧ (0 <= z mod 64 < 64).
Proof.
  cbv zeta. pose proof (byte_bound a). pose proof (byte_bound b). pose proof (byte_bound c).
  generalize dependent (byte_val a). generalize dependent (byte_val b). generalize dependent (byte_val c). intros. Z.to_euclidean_division_equations. lia.
Qed.

Lemma bytes_back a b c :
  let x := byte_val a in let y := byte_val b in let z := byte_val c in
  to_byte (x / 4 * 4 + x mod 4 * 16 / 16) = a ∧ to_byte (x / 4 * 4 + (x mod 4 * 16 + y / 16) / 16) = a ∧
  to_byte ((x mod 4 * 16 + y / 16) * 16 + y mod 16 * 4 / 4) = b ∧ to_byte ((x mod 4 * 16 + y / 16) * 16 + (y mod 16 * 4 + z / 64) / 4) = b ∧
  to_byte ((y mod 16 * 4 + z / 64) * 64 + z mod 64) = c.
Proof.
  cbv zeta. pose proof (byte_bound a). pose proof (byte_bound b). pose proof (byte_bound c).
  split_and!; apply to_byte_val; generalize dependent (byte_val a); generalize dependent (byte_val b); generalize dependent (byte_val c); intros;
    Z.to_euclidean_division_equations; lia.
Qed.

Lemma decode_encode_upto n : ∀ s, (String.length s <= n)%nat → DecodeString (EncodeToString s) = Some s.
Proof.
  unfold DecodeString. induction n as [|n IH]; intros s Hn.
  - by destruct s; [|cbn in Hn; lia].
  - destruct s as [|a [|b [|c s]]]; [done|..]; cbn [EncodeToString].
    + destruct (sextet_bounds a a a) as (H1 & H2 & _), (bytes_back a a a) as (Ha & _).
      rewrite !skip_letter by done. cbn [skip_breaks decode]. rewrite (proj1 (letter_spec _ H1)), (proj1 (letter_spec _ H2)). cbn [mbind option_bind]. by rewrite Ha.
    + destruct (sextet_bounds a b a) as (H1 & _ & H2 & H3 & _), (bytes_back a b a) as (_ & Ha & Hb & _).
      rewrite !skip_letter by done. cbn [skip_breaks decode].
      rewrite (proj1 (letter_spec _ H1)), (proj1 (letter_spec _ H2)), (proj1 (letter_spec _ H3)). cbn [mbind option_bind]. by rewrite Ha, Hb.
    + destruct (sextet_bounds a b c) as (H1 & _ & H2 & _ & H3 & H4), (bytes_back a b c) as (_ & Ha & _ & Hb & Hc).
      rewrite !skip_letter by done. cbn [decode].
      rewrite (proj1 (letter_spec _ H1)), (proj1 (letter_spec _ H2)), (proj1 (letter_spec _ H3)), (proj1 (letter_spec _ H4)). cbn [mbind option_bind].
      rewrite IH by (cbn in Hn; lia). cbn [mbind option_bind]. by rewrite Ha, Hb, Hc.
Qed.
Lemma decode_encode s : DecodeString (EncodeToString s) = Some s.
Proof. by eapply decode_encode_upto. Qed.

(** What holds of the letters holds of an encoding's. *)
Lemma encoded_letters (P : ascii → bool) s : forallb P (Names.chars alphabet) = true → Forall (fun c => P c = true) (Names.chars (EncodeToString s)).
Proof.
  intros HP. assert (Hl : ∀ v, P (letter v) = true).
  { intros v. unfold letter. rewrite forallb_forall in HP. assert (Hget : ∀ t n c, String.get n t = Some c → In c (Names.chars t)).
    { induction t as [|d t IH]; intros [|n] c; cbn; [done..|intros [= ->]; by left|]. intros Hc. right. by eapply IH. }
    destruct (String.get (Z.to_nat v) alphabet) as [c|] eqn:E; cbn; [by eapply HP, Hget|]. apply HP. by left. }
  assert (Hn : ∀ n s, (String.length s <= n)%nat → Forall (fun c => P c = true) (Names.chars (EncodeToString s))); [|by eapply Hn].
  clear s. intros n. induction n as [|n IH]; intros [|a [|b [|c s]]] Hn; cbn [String.length] in Hn; try lia; cbn [EncodeToString Names.chars];
    repeat (apply Forall_cons_2; [apply Hl|]); [apply Forall_nil_2..|]. apply IH. lia.
Qed.

End Base64.

Module Urls.
Import Keys.

(** ** Escaping *)

Inductive encoding := encodePath | encodePathSegment | encodeQueryComponent.

Definition is_alnum (c : ascii) : bool :=
  let n := nat_of_ascii c in
  ((97 <=? n)%nat && (n <=? 122)%nat) || ((65 <=? n)%nat && (n <=? 90)%nat) || ((48 <=? n)%nat && (n <=? 57)%nat).
Fixpoint among (s : string) (c : ascii) : bool :=
  match s with EmptyString => false | String d s => Ascii.eqb c d || among s c end.

Definition shouldEscape (c : ascii) (mode : encoding) : bool :=
  if is_alnum c || among "-_.~" c then false
  else if among "$&+,/:;=?@" c then
    match mode with
    | encodePath => Ascii.eqb c "?"
    | encodePathSegment => among "/;,?" c
    | encodeQueryComponent => true
    end
  else true.

Definition upper_nibble (n : nat) : ascii := ascii_of_nat (if (n <? 10)%nat then 48 + n else 55 + n).
Definition unhex (c : ascii) : option nat :=
  let n := nat_of_ascii c in
  if (48 <=? n)%nat && (n <=? 57)%nat then Some (n - 48)
  else if (97 <=? n)%nat && (n <=? 102)%nat then Some (n - 87)
  else if (65 <=? n)%nat && (n <=? 70)%nat then Some (n - 55)
  else None.

Definition is_query (mode : encoding) : bool := match mode with encodeQueryComponent => true | _ => false end.

(** One byte, escaped. *)
Definition escape_byte (mode : encoding) (c : ascii) : string :=
  if shouldEscape c mode then
    if is_query mode && Ascii.eqb c " " then "+"
    else String "%" (String (upper_nibble (nat_of_ascii c / 16)) (String (upper_nibble (nat_of_ascii c mod 16)) ""))
  else String c "".
Fixpoint escape (s : string) (mode : encoding) : string :=
  match s with EmptyString => "" | String c s => escape_byte mode c +:+ escape s mode end.

(** A percent sign must be followed by two hexadecimal digits; the text of the error
    is of what is there. *)
Fixpoint unescape (s : string) (mode : encoding) : result string string :=
  match s with
  | EmptyString => Ok ""
  | String c rest =>
      if Ascii.eqb c "%" then
        match rest with
        | String a (String b rest') =>
            match unhex a, unhex b with
            | Some x, Some y => r ← unescape rest' mode; Ok (String (ascii_of_nat (x * 16 + y)) r)
            | _, _ => Err ("invalid URL escape " +:+ quote (str_take 3 s))
            end
        | _ => Err ("invalid URL escape " +:+ quote s)
        end
      else r ← unescape rest mode; Ok (String (if Ascii.eqb c "+" && is_query mode then " "%char else c) r)
  end.

Definition PathEscape (s : string) : string := escape s encodePathSegment.
Definition PathUnescape (s : string) : result string string := unescape s encodePathSegment.
Definition QueryEscape (s : string) : string := escape s encodeQueryComponent.
Definition QueryUnescape (s : string) : result string string := unescape s encodeQueryComponent.

(** Whether an encoded path may be sent as it is. *)
Fixpoint validEncoded (s : string) : bool :=
  match s with
  | EmptyString => true
  | String c s => (among "!$&'()*+,;=:@[]%" c || negb (shouldEscape c encodePath)) && validEncoded s
  end.

(** URL.EscapedPath, of RawPath and Path. *)
Definition EscapedPath (rawPath path : string) : string :=
  if negb (rawPath =? "")%string && validEncoded rawPath && bool_decide (unescape rawPath encodePath = Ok path) then rawPath
  else if (path =? "*")%string then "*"
  else escape path encodePath.

(** ** Query strings *)

Abbreviation Values := (gmap string (list string)).
Definition Set_ (k v : string) (q : Values) : Values := <[k := [v]]> q.
Definition Get (q : Values) (k : string) : string := match q !! k with Some (v :: _) => v | _ => "" end.

Definition encode_pair (kv : string * string) : string := QueryEscape kv.1 +:+ "=" +:+ QueryEscape kv.2.
(** The pairs, by key, the values of a key in their order. *)
Definition pairs (q : Values) : list (string * string) :=
  flat_map (fun k => pair k <$> default [] (q !! k)) (sorted_keys q).
Definition Encode (q : Values) : string := str_join "&" (encode_pair <$> pairs q).

Definition amp : ascii := "&"%char.

Definition add_value (q : Values) (kv : string * string) : Values := <[kv.1 := default [] (q !! kv.1) ++ [kv.2]]> q.

(** One piece of a query string: its pair, once it is unescaped. *)
Definition parse_pair (piece : string) : result string (string * string) :=
  let '(k, v) := default (piece, "") (Cut piece "=") in
  k ← QueryUnescape k; v ← QueryUnescape v; Ok (k, v).
Definition parse_step (acc : Values * option string) (piece : string) : Values * option string :=
  if among piece ";" then (acc.1, Some "invalid semicolon separator in query")
  else if (piece =? "")%string then acc
  else match parse_pair piece with
       | Ok kv => (add_value acc.1 kv, acc.2)
       | Err e => (acc.1, Some (default e acc.2))
       end.
(** The values, and an error there was. *)
Definition ParseQuery (query : string) : Values * option string := foldl parse_step (∅, None) (Split amp query).

Example PathEscape_name : PathEscape "a/b c?100%~d+e" = "a%2Fb%20c%3F100%25~d+e".
Proof. vm_compute. reflexivity. Qed.
Example Encode_query : Encode (Set_ "test" "a&b=c d" (Set_ "namespace" "x" ∅)) = "namespace=x&test=a%26b%3Dc+d".
Proof. vm_compute. reflexivity. Qed.
Example ParseQuery_lenient : Get (ParseQuery "a=1&&b=%zz&a=2&c").1 "a" = "1" ∧ is_Some (ParseQuery "b=%zz").2.
Proof. vm_compute. split; [reflexivity|by eexists]. Qed.

(** ** What was escaped is read back *)

Lemma ascii_check (P : ascii → bool) : forallb (fun n => P (ascii_of_nat n)) (seq 0 256) = true → ∀ c, P c = true.
Proof.
  intros Hc c. rewrite forallb_forall in Hc. rewrite <- (ascii_nat_embedding c). apply Hc. apply in_seq. pose proof (nat_ascii_bounded c). lia.
Qed.

(** Two hexadecimal digits name their byte. *)
Definition option_nat_eqb (x : option nat) (n : nat) : bool := match x with Some m => (m =? n)%nat | None => false end.
Lemma option_nat_eqb_ok x n : option_nat_eqb x n = true ↔ x = Some n.
Proof. destruct x as [m|]; cbn; [|done]. rewrite Nat.eqb_eq. naive_solver. Qed.
Definition hex_ok (c : ascii) : bool :=
  let h := nat_of_ascii c / 16 in let l := nat_of_ascii c mod 16 in
  option_nat_eqb (unhex (upper_nibble h)) h && option_nat_eqb (unhex (upper_nibble l)) l && Ascii.eqb (ascii_of_nat (h * 16 + l)) c &&
  is_alnum (upper_nibble h) && is_alnum (upper_nibble l).

Lemma escape_byte_shape mode c :
  escape_byte mode c = String c "" ∧ shouldEscape c mode = false ∨
  is_query mode = true ∧ c = " "%char ∧ escape_byte mode c = "+" ∨
  ∃ a b x y, escape_byte mode c = String "%" (String a (String b "")) ∧ unhex a = Some x ∧ unhex b = Some y ∧ ascii_of_nat (x * 16 + y) = c ∧
    is_alnum a = true ∧ is_alnum b = true.
Proof.
  unfold escape_byte. destruct (shouldEscape c mode) eqn:E; [|by left]. right.
  destruct (is_query mode && Ascii.eqb c " ") eqn:Es; [left|right].
  { apply andb_true_iff in Es as [Hq ->%Ascii.eqb_eq]. done. }
  pose proof (ascii_check hex_ok ltac:(vm_compute; reflexivity) c) as Hc. unfold hex_ok in Hc.
  rewrite !andb_true_iff, !option_nat_eqb_ok, Ascii.eqb_eq in Hc. destruct Hc as ((((H1 & H2) & H3) & H4) & H5).
  exact (ex_intro _ _ (ex_intro _ _ (ex_intro _ _ (ex_intro _ _ (conj eq_refl (conj H1 (conj H2 (conj H3 (conj H4 H5))))))))).
Qed.

Lemma unescape_plain c s mode : Ascii.eqb c "%" = false → Ascii.eqb c "+" && is_query mode = false →
  unescape (String c s) mode = (r ← unescape s mode; Ok (String c r)).
Proof. intros Hp Hq. cbn [unescape]. by rewrite Hp, Hq. Qed.

Theorem unescape_escape s mode : unescape (escape s mode) mode = Ok s.
Proof.
  induction s as [|c s IH]; [done|]. cbn [escape].
  destruct (escape_byte_shape mode c) as [[-> Hc]|[(Hq & -> & ->)|(a & b & x & y & -> & Ha & Hb & Hxy & _)]]; rewrite !str_app_cons, str_app_nil.
  - assert (Ascii.eqb c "%" = false) as Hp by (destruct (Ascii.eqb_spec c "%") as [->|]; [by destruct mode|done]).
    assert (Ascii.eqb c "+" && is_query mode = false) as Hs by (destruct (Ascii.eqb_spec c "+") as [->|]; [by destruct mode|done]).
    by rewrite unescape_plain, IH by done.
  - cbn [unescape]. rewrite Hq, IH. done.
  - cbn [unescape]. rewrite Ha, Hb, IH. cbn. by rewrite Hxy.
Qed.

(** ** The bytes of an escaped string *)

Fixpoint all_bytes (P : ascii → bool) (s : string) : bool := match s with EmptyString => true | String c s => P c && all_bytes P s end.
Lemma all_bytes_app P a b : all_bytes P (a +:+ b) = all_bytes P a && all_bytes P b.
Proof. induction a as [|c a IH]; [done|]. rewrite str_app_cons. cbn. by rewrite IH, andb_assoc. Qed.

Lemma TrimLeft_bytes P cut s : all_bytes P s = true → all_bytes P (TrimLeft cut s) = true.
Proof. induction s as [|c s IH]; [done|]. cbn. intros [Hc Hs]%andb_true_iff. destruct (cut c); [by apply IH|]. cbn. by rewrite Hc. Qed.
Lemma TrimRight_bytes P cut s : all_bytes P s = true → all_bytes P (Names.TrimRight cut s) = true.
Proof.
  induction s as [|c s IH]; [done|]. cbn. intros [Hc Hs]%andb_true_iff. specialize (IH Hs). destruct (Names.TrimRight cut s); cbn in *; [destruct (cut c); cbn; [done|by rewrite Hc]|].
  by rewrite Hc.
Qed.

Lemma escape_bytes (P : ascii → bool) mode s :
  forallb (fun n => let c := ascii_of_nat n in (shouldEscape c mode || P c) && (negb (is_alnum c) || P c)) (seq 0 256) = true →
  P "%"%char = true → P "+"%char = true → all_bytes P (escape s mode) = true.
Proof.
  intros Hc Hp Hq. pose proof (ascii_check (fun c => (shouldEscape c mode || P c) && (negb (is_alnum c) || P c)) Hc) as Hall. cbn beta in Hall. clear Hc.
  induction s as [|c s IH]; [done|]. cbn [escape]. rewrite all_bytes_app, IH, andb_true_r.
  assert (Hal : ∀ d, is_alnum d = true → P d = true) by (intros d Hd; specialize (Hall d); rewrite Hd in Hall; by apply andb_true_iff in Hall as [_ ?]).
  destruct (escape_byte_shape mode c) as [[-> Hn]|[(_ & _ & ->)|(a & b & x & y & -> & _ & _ & _ & Ha & Hb)]]; cbn [all_bytes].
  - specialize (Hall c). rewrite Hn in Hall. apply andb_true_iff in Hall as [Hall _]. cbn in Hall. by rewrite Hall.
  - by rewrite Hq.
  - by rewrite Hp, !Hal.
Qed.

Lemma escape_nil s mode : escape s mode = "" → s = "".
Proof.
  destruct s as [|c s]; [done|]. cbn [escape]. intros E.
  destruct (escape_byte_shape mode c) as [[Hs _]|[(_ & _ & Hs)|(a & b & x & y & Hs & _)]]; rewrite Hs in E; discriminate E.
Qed.

Lemma no_slash_bytes s : no_slash s = all_bytes (fun c => negb (Ascii.eqb c slash)) s.
Proof. induction s as [|c s IH]; [done|]. cbn. by rewrite IH. Qed.

Lemma PathEscape_no_slash s : no_slash (PathEscape s) = true.
Proof. rewrite no_slash_bytes. by apply escape_bytes. Qed.

(** ** A query string is read back *)

Lemma Split_without c s : all_bytes (fun d => negb (Ascii.eqb d c)) s = true → Split c s = [s].
Proof.
  induction s as [|d s IH]; [done|]. cbn [all_bytes Split]. intros [Hd Hs]%andb_true_iff. apply negb_true_iff in Hd. by rewrite Hd, IH.
Qed.
Lemma Split_first c s rest : all_bytes (fun d => negb (Ascii.eqb d c)) s = true → Split c (s +:+ String c rest) = s :: Split c rest.
Proof.
  induction s as [|d s IH]; cbn [all_bytes].
  - intros _. rewrite str_app_nil. cbn [Split]. by rewrite Ascii.eqb_refl.
  - intros [Hd Hs]%andb_true_iff. apply negb_true_iff in Hd. rewrite str_app_cons. cbn [Split]. by rewrite Hd, IH.
Qed.
Lemma Split_joined c ps : ps ≠ [] → Forall (fun s => all_bytes (fun d => negb (Ascii.eqb d c)) s = true) ps → Split c (str_join (String c "") ps) = ps.
Proof.
  induction ps as [|p ps IH]; [done|]. intros _ [Hp Hps]%Forall_cons. destruct ps as [|q ps]; [by apply Split_without|].
  change (str_join (String c "") (p :: q :: ps)) with (p +:+ (String c "" +:+ str_join (String c "") (q :: ps))).
  rewrite str_app_cons, str_app_nil, Split_first by done. by rewrite IH.
Qed.

Lemma Cut_pair a b : all_bytes (fun d => negb (Ascii.eqb d "=")) a = true → Cut (a +:+ "=" +:+ b) "=" = Some (a, b).
Proof.
  intros Ha. apply (Cut_char a "="). induction a as [|d a IH]; [apply Forall_nil_2|]. cbn [all_bytes] in Ha. apply andb_true_iff in Ha as [Hd Ha].
  cbn [Names.chars]. apply Forall_cons_2; [by intros ->|by apply IH].
Qed.

Lemma among_without c s : among s c = negb (all_bytes (fun d => negb (Ascii.eqb d c)) s).
Proof.
  induction s as [|d s IH]; [done|]. cbn. rewrite IH, negb_andb, negb_involutive. f_equal. rewrite Ascii.eqb_sym. done.
Qed.

(** What a fold of pairs leaves under a key. *)
Lemma add_values_lookup ps q k : foldl add_value q ps !! k =
  match ((fun kv => kv.2) <$> List.filter (fun kv => (kv.1 =? k)%string) ps) with [] => q !! k | vs => Some (default [] (q !! k) ++ vs) end.
Proof.
  revert q. induction ps as [|[k' v] ps IH]; intros q; [done|]. cbn [foldl List.filter fst]. rewrite IH.
  unfold add_value. cbn [fst snd]. destruct (String.eqb_spec k' k) as [->|Hne].
  - rewrite lookup_insert_eq. cbn [fmap list_fmap snd default]. unfold id. set (vs := _ <$> _). destruct vs as [|v' vs]; [done|].
    by rewrite <- app_assoc.
  - by rewrite lookup_insert_ne.
Qed.

(** A query whose keys have values. *)
Definition proper_values (q : Values) : Prop := ∀ k, q !! k ≠ Some [].

Lemma filter_pairs (q : Values) ks k : NoDup ks →
  (fun kv => kv.2) <$> List.filter (fun kv => (kv.1 =? k)%string) (flat_map (fun k => pair k <$> default [] (q !! k)) ks) =
  if bool_decide (k ∈ ks) then default [] (q !! k) else [].
Proof.
  assert (Hone : ∀ k' vs, (fun kv : string * string => kv.2) <$> List.filter (fun kv => (kv.1 =? k)%string) (pair k' <$> vs) = if (k' =? k)%string then vs else []).
  { intros k' vs. induction vs as [|v vs IH]; [by destruct (k' =? k)%string|]. cbn [fmap list_fmap List.filter fst]. destruct (k' =? k)%string; cbn; by rewrite ?IH. }
  induction 1 as [|k' ks Hk' Hnd IH]; [done|]. cbn [flat_map]. rewrite List.filter_app, fmap_app, Hone, IH. clear IH Hone.
  destruct (String.eqb_spec k' k) as [->|Hne].
  - rewrite (bool_decide_eq_true_2 (k ∈ k :: ks)) by apply list_elem_of_here. rewrite bool_decide_eq_false_2 by done. by rewrite app_nil_r.
  - rewrite app_nil_l. apply (f_equal (fun b : bool => if b then _ else _)). apply bool_decide_ext. rewrite elem_of_cons. naive_solver.
Qed.

Lemma pairs_read_back q : proper_values q → foldl add_value ∅ (pairs q) = q.
Proof.
  intros Hq. apply map_eq. intros k. rewrite add_values_lookup. unfold pairs. rewrite filter_pairs by apply sorted_keys_NoDup. rewrite lookup_empty.
  case_bool_decide as Hk.
  - apply sorted_keys_elem in Hk as [vs Hvs]. rewrite Hvs. cbn. destruct vs as [|v vs]; [by apply Hq in Hvs|done].
  - destruct (q !! k) as [vs|] eqn:E; [|done]. exfalso. apply Hk, sorted_keys_elem. by rewrite E.
Qed.

Lemma parse_encoded acc kv : parse_step acc (encode_pair kv) = (add_value acc.1 kv, acc.2).
Proof.
  destruct kv as [k v]. unfold parse_step. cbn [encode_pair fst snd]. unfold encode_pair, QueryEscape. cbn [fst snd].
  rewrite among_without, !all_bytes_app, (escape_bytes _ _ k), (escape_bytes _ _ v) by (vm_compute; reflexivity). cbn [negb andb all_bytes].
  replace (negb _) with false by (vm_compute; reflexivity).
  destruct (String.eqb_spec (escape k encodeQueryComponent +:+ "=" +:+ escape v encodeQueryComponent) "") as [E|_].
  { destruct (escape k encodeQueryComponent); discriminate E. }
  unfold parse_pair. rewrite Cut_pair by (apply escape_bytes; vm_compute; reflexivity). cbn [default]. unfold id, QueryUnescape.
  by rewrite !unescape_escape.
Qed.

Theorem ParseQuery_Encode q : proper_values q → ParseQuery (Encode q) = (q, None).
Proof.
  intros Hq. unfold ParseQuery, Encode. destruct (pairs q) as [|kv kvs] eqn:Ep.
  { rewrite <- (pairs_read_back q Hq), Ep. done. }
  rewrite Split_joined; [|done|].
  - rewrite <- Ep. cut (∀ ps (acc : Values * option string), foldl parse_step acc (encode_pair <$> ps) = (foldl add_value acc.1 ps, acc.2)).
    { intros Hc. rewrite Hc. cbn [fst snd]. by rewrite pairs_read_back. }
    induction ps as [|p ps IH]; intros [m e]; [done|]. cbn [fmap list_fmap foldl]. by rewrite parse_encoded, IH.
  - apply Forall_fmap, Forall_forall. intros [k v] _. cbn [compose]. unfold encode_pair, QueryEscape. cbn [fst snd].
    rewrite !all_bytes_app, (escape_bytes _ _ k), (escape_bytes _ _ v) by (vm_compute; reflexivity). done.
Qed.

(** ** Paths sent as they are *)

Lemma validEncoded_bytes s : validEncoded s = all_bytes (fun c => among "!$&'()*+,;=:@[]%" c || negb (shouldEscape c encodePath)) s.
Proof. induction s as [|c s IH]; [done|]. cbn [validEncoded all_bytes]. by rewrite IH. Qed.
Lemma validEncoded_app a b : validEncoded (a +:+ b) = validEncoded a && validEncoded b.
Proof. by rewrite !validEncoded_bytes, all_bytes_app. Qed.
Lemma validEncoded_PathEscape s : validEncoded (PathEscape s) = true.
Proof. rewrite validEncoded_bytes. apply escape_bytes; vm_compute; reflexivity. Qed.

Lemma unescape_paths s : unescape s encodePath = PathUnescape s.
Proof.
  unfold PathUnescape. cut (∀ n s, String.length s ≤ n → unescape s encodePath = unescape s encodePathSegment); [intros Hc; by eapply Hc|].
  induction n as [|n IH]; intros [|c t] Hl; cbn [String.length] in Hl; [done|lia|done|]. cbn [unescape is_query]. destruct (Ascii.eqb c "%").
  - destruct t as [|a [|b t]]; [done..|]. cbn [String.length] in Hl. destruct (unhex a), (unhex b); [|done..]. by rewrite IH by lia.
  - by rewrite IH by lia.
Qed.

Lemma unescape_app a b x y mode : unescape a mode = Ok x → unescape b mode = Ok y → unescape (a +:+ b) mode = Ok (x +:+ y).
Proof.
  cut (∀ n a x, String.length a ≤ n → unescape a mode = Ok x → unescape b mode = Ok y → unescape (a +:+ b) mode = Ok (x +:+ y)); [intros Hc; by eapply Hc|].
  clear a x. induction n as [|n IH]; intros [|c t] x Hl; cbn [String.length] in Hl; [by intros [= <-]|lia|by intros [= <-]|].
  rewrite str_app_cons. cbn [unescape]. destruct (Ascii.eqb c "%").
  - destruct t as [|a1 [|a2 t]]; [done..|]. rewrite !str_app_cons. destruct (unhex a1), (unhex a2); [|done..]. cbn [String.length] in Hl.
    destruct (unescape t mode) as [r|] eqn:E; [|done]. intros [= <-] Hb. by rewrite (IH t r) by (done || lia).
  - destruct (unescape t mode) as [r|] eqn:E; [|done]. intros [= <-] Hb. by rewrite (IH t r) by (done || lia).
Qed.

Lemma EscapedPath_as_is raw path : raw ≠ "" → validEncoded raw = true → PathUnescape raw = Ok path → EscapedPath raw path = raw.
Proof.
  intros Hne Hv Hu. unfold EscapedPath. rewrite (proj2 (String.eqb_neq raw "") Hne), Hv, unescape_paths, Hu. cbn [negb andb].
  by rewrite bool_decide_eq_true_2.
Qed.

End Urls.
