(* ===== verification/Retention.v ===== *)
(** * Retention of run history: internal/retention and internal/store/partition.go

    The monthly partitions of the run table, and the pass that removes the ones
    older than the retention window, with the runs' objects, as a program over
    the store, the bucket and the clock.  The ticker loop of [Start] is left out. *)
From S2P Require Import Prelude GoLib Keys Calendar Effects.

Module Retention.
Import Calendar.

(** ** Partitions *)

Record Partition := mkPartition { pt_Name : string; pt_Start : time; pt_End : time }.

Definition day_ns : duration := (86400 * second)%Z.

Definition partitionName (month : Z * Z) : string :=
  "test_runs_" +:+ itoa_pad 4 month.1 +:+ "_" +:+ itoa_pad 2 month.2.

(** The partition of a month: [start], [start.AddDate(0, 1, 0)]. *)
Definition partition_of (month : Z * Z) : Partition :=
  mkPartition (partitionName month) (first_day month * day_ns)%Z (first_day (next_month month) * day_ns)%Z.

Definition month_of (t : time) : Z * Z := month_of_day (t / day_ns)%Z.

Definition PartitionForTime (t : time) : Partition := partition_of (month_of t).

(** The loop of [PartitionsToCreate], at most [fuel] months. *)
Fixpoint create_months (fuel : nat) (month last : Z * Z) : list Partition :=
  match fuel with
  | O => []
  | S fuel =>
      if time_after (first_day month * day_ns)%Z (first_day last * day_ns)%Z then []
      else partition_of month :: create_months fuel (next_month month) last
  end.

Definition months_fuel (first last : Z * Z) : nat := S (Z.to_nat (month_index last - month_index first + 1)).

Definition PartitionsToCreate (now : time) (retention lookahead : duration) : list Partition :=
  let retention := if (retention <? 0)%Z then 0%Z else retention in
  let lookahead := if (lookahead <? 0)%Z then 0%Z else lookahead in
  let firstMonth := month_of (now - retention)%Z in
  let lastMonth := month_of (now + lookahead)%Z in
  create_months (months_fuel firstMonth lastMonth) firstMonth lastMonth.

Definition PartitionsToDrop (existing : list Partition) (now : time) (retention : duration) : list Partition :=
  let cutoff := (now - retention)%Z in
  List.filter (fun p => negb (time_after (pt_End p) cutoff)) existing.

(** ** A pass *)

Record RunRef := mkRunRef { rf_Namespace : string; rf_UID : string }.

Inductive RetOp : Type → Type :=
| Now : RetOp time
| ExistingPartitions : RetOp (result string (list Partition))
| RunsIn (p : Partition) : RetOp (result string (list RunRef))
| RemovePrefix (bucket prefix : string) : RetOp (option string)
| DropPartitions (ps : list Partition) : RetOp (option string)
| PruneAudit (before : time) : RetOp (Z * option string).

(** [jb_Objects]: a remover is configured. *)
Record Job := mkJob { jb_Objects : bool; jb_Bucket : string; jb_Retention : duration }.

Record PassResult := mkPass { ps_Dropped : list string; ps_RemovedRuns : Z; ps_PrunedAudit : Z }.

Section Pass.
Context (j : Job).

Fixpoint remove_objects (part : Partition) (i : Z) (runs : list RunRef) : prog RetOp (option (Z * string)) :=
  match runs with
  | [] => Ret None
  | r :: runs =>
      let keys := Keys.ForRun (rf_Namespace r) (rf_UID r) in
      if negb (Keys.Valid keys) then remove_objects part (i + 1) runs
      else
        e ← perform (RemovePrefix (jb_Bucket j) (Keys.Prefix keys));
        match e with
        | Some e =>
            Ret (Some (i, "retention: " +:+ pt_Name part +:+ ": remove objects of run " +:+ rf_Namespace r +:+ "/" +:+ rf_UID r
                          +:+ " (partition kept for the next pass): " +:+ e))
        | None => remove_objects part (i + 1) runs
        end
  end.

Definition drop_table (part : Partition) (n : Z) : prog RetOp (Z * option string) :=
  e ← perform (DropPartitions [part]);
  match e with
  | Some e => Ret (n, Some ("retention: drop " +:+ pt_Name part +:+ ": " +:+ e))
  | None => Ret (n, None)
  end.

Definition dropPartition (part : Partition) : prog RetOp (Z * option string) :=
  if jb_Objects j && negb (str_is_empty (jb_Bucket j)) then
    r ← perform (RunsIn part);
    match r with
    | Err e => Ret (0%Z, Some e)
    | Ok runs =>
        o ← remove_objects part 0 runs;
        match o with
        | Some (i, e) => Ret (i, Some e)
        | None => drop_table part (Z.of_nat (length runs))
        end
    end
  else drop_table part 0.

Fixpoint drop_all (parts : list Partition) (res : PassResult) (errs : list string) : prog RetOp (PassResult * list string) :=
  match parts with
  | [] => Ret (res, errs)
  | part :: parts =>
      '(n, e) ← dropPartition part;
      let removed := (ps_RemovedRuns res + n)%Z in
      match e with
      | Some e => drop_all parts (mkPass (ps_Dropped res) removed (ps_PrunedAudit res)) (errs ++ [e])
      | None => drop_all parts (mkPass (ps_Dropped res ++ [pt_Name part]) removed (ps_PrunedAudit res)) errs
      end
  end.

(** The errors joined are their list. *)
Definition RunOnce : prog RetOp (PassResult * list string) :=
  let res := mkPass [] 0 0 in
  if (jb_Retention j <=? 0)%Z then Ret (res, ["retention: Retention must be positive"])
  else
    now ← perform Now;
    ex ← perform ExistingPartitions;
    match ex with
    | Err e => Ret (res, ["retention: list partitions: " +:+ e])
    | Ok existing =>
        '(res, errs) ← drop_all (PartitionsToDrop existing now (jb_Retention j)) res [];
        '(pruned, e) ← perform (PruneAudit (now - jb_Retention j)%Z);
        Ret (mkPass (ps_Dropped res) (ps_RemovedRuns res) pruned, match e with Some e => errs ++ [e] | None => errs end)
    end.

End Pass.

(** ** Partitions: lemmas *)

Definition in_partition (t : time) (p : Partition) : Prop := (pt_Start p <= t < pt_End p)%Z.

Lemma day_ns_div t d : (d * day_ns <= t ↔ d <= t / day_ns)%Z.
Proof.
  assert (Hd : (0 < day_ns)%Z) by done. split; intros H.
  - apply Z.div_le_lower_bound; lia.
  - pose proof (Z.mul_div_le t day_ns Hd). nia.
Qed.

Lemma in_partition_of t month : valid_month month →
  in_partition t (partition_of month) ↔ month = month_of t.
Proof.
  intros Hv. unfold in_partition, partition_of, month_of. cbn [pt_Start pt_End].
  rewrite day_ns_div, Z.lt_nge, day_ns_div. split.
  - intros [H1 H2]. apply month_of_day_unique; [done|]. lia.
  - intros ->. destruct (month_of_day_bounds (t / day_ns)) as [_ H]. lia.
Qed.

Lemma month_of_valid t : valid_month (month_of t).
Proof. apply month_of_day_bounds. Qed.

Lemma month_of_mono t u : (t <= u)%Z → (month_index (month_of t) <= month_index (month_of u))%Z.
Proof. intros H. apply month_of_day_mono, Z.div_le_mono; done. Qed.

Lemma first_day_after a b : valid_month a → valid_month b →
  time_after (first_day a * day_ns) (first_day b * day_ns) = (month_index b <? month_index a)%Z.
Proof.
  intros Ha Hb. unfold time_after. pose proof (first_day_lt b a Hb Ha) as H.
  assert (Hd : (0 < day_ns)%Z) by done.
  destruct (Z.ltb_spec (month_index b) (month_index a)); [apply Z.ltb_lt|apply Z.ltb_ge]; nia.
Qed.

(** With enough fuel the loop lists every month from the first to the last. *)
Lemma create_months_eq fuel first last : valid_month first → valid_month last →
  (Z.to_nat (month_index last - month_index first + 1) < fuel)%nat →
  create_months fuel first last =
    (fun i => partition_of (months_later i first)) <$> seq 0 (Z.to_nat (month_index last - month_index first + 1)).
Proof.
  revert first. induction fuel as [|fuel IH]; intros first Hf Hl Hfuel; [lia|].
  cbn [create_months]. rewrite first_day_after by done.
  destruct (Z.ltb_spec (month_index last) (month_index first)) as [Hlt|Hge].
  { by replace (Z.to_nat _) with 0%nat by lia. }
  rewrite IH; [|by apply next_month_valid|done|rewrite next_month_index by done; lia].
  rewrite next_month_index by done.
  replace (Z.to_nat (month_index last - month_index first + 1))
    with (S (Z.to_nat (month_index last - (month_index first + 1) + 1))) by lia.
  cbn [seq fmap list_fmap]. f_equal. rewrite <- seq_shift, <- list_fmap_compose.
  apply list_fmap_ext. intros k x _. unfold compose, months_later. by rewrite Nat.iter_succ_r.
Qed.

(** The partitions created for a window: one for every instant in it, each the
    month's half-open interval, in order and without gaps; and the loop ends by its
    own test (more iterations allowed would change nothing). *)
Theorem PartitionsToCreate_cover now retention lookahead :
  let ret := Z.max 0 retention in let look := Z.max 0 lookahead in
  let ps := PartitionsToCreate now retention lookahead in
  (∀ t, (now - ret <= t <= now + look)%Z → PartitionForTime t ∈ ps ∧ in_partition t (PartitionForTime t)) ∧
  (∀ p t, p ∈ ps → in_partition t p → p = PartitionForTime t) ∧
  (∀ i p q, ps !! i = Some p → ps !! S i = Some q → pt_End p = pt_Start q) ∧
  (∀ more, create_months (months_fuel (month_of (now - ret)) (month_of (now + look)) + more)
             (month_of (now - ret)) (month_of (now + look)) = ps).
Proof.
  intros ret look ps.
  assert (Hret : (if (retention <? 0)%Z then 0%Z else retention) = ret) by (unfold ret; destruct (Z.ltb_spec retention 0); lia).
  assert (Hlook : (if (lookahead <? 0)%Z then 0%Z else lookahead) = look) by (unfold look; destruct (Z.ltb_spec lookahead 0); lia).
  set (first := month_of (now - ret)). set (lastm := month_of (now + look)).
  assert (Hf : valid_month first) by apply month_of_valid. assert (Hl : valid_month lastm) by apply month_of_valid.
  assert (Hps : ps = (fun i => partition_of (months_later i first)) <$> seq 0 (Z.to_nat (month_index lastm - month_index first + 1))).
  { unfold ps, PartitionsToCreate. rewrite Hret, Hlook. apply create_months_eq; [done..|]. unfold months_fuel; fold first lastm; lia. }
  split_and!.
  - intros t [Ht1 Ht2]. pose proof (month_of_mono _ _ Ht1) as H1. pose proof (month_of_mono _ _ Ht2) as H2.
    fold first in H1. fold lastm in H2. split; [|by apply in_partition_of; [apply month_of_valid|]].
    rewrite Hps. apply list_elem_of_fmap. exists (Z.to_nat (month_index (month_of t) - month_index first)). split.
    + unfold PartitionForTime. f_equal. apply months_between; [done|apply month_of_valid|done].
    + apply elem_of_seq. lia.
  - intros p t Hp Ht. rewrite Hps in Hp. apply list_elem_of_fmap in Hp as (i & -> & _).
    apply in_partition_of in Ht; [|by apply months_later_spec]. unfold PartitionForTime. by rewrite <- Ht.
  - intros i p q Hp Hq. rewrite Hps in Hp, Hq. apply list_lookup_fmap_Some in Hp as (a & -> & Ha), Hq as (b & -> & Hb).
    apply lookup_seq in Ha as [-> _], Hb as [-> _]. cbn [partition_of pt_End pt_Start Nat.add]. unfold months_later. by rewrite Nat.iter_succ.
  - intros more. rewrite Hps. apply create_months_eq; [done..|]. unfold months_fuel; fold first lastm; lia.
Qed.

Lemma PartitionsToDrop_spec existing now retention p :
  p ∈ PartitionsToDrop existing now retention ↔ p ∈ existing ∧ (pt_End p <= now - retention)%Z.
Proof.
  unfold PartitionsToDrop. rewrite list_elem_of_In, List.filter_In, <- list_elem_of_In.
  unfold time_after. by rewrite negb_true_iff, Z.ltb_ge.
Qed.

(** ** A pass: what is removed, and when *)

Section PassSpec.
Context (j : Job).

Definition has_bucket : bool := jb_Objects j && negb (str_is_empty (jb_Bucket j)).

(** The objects of every run stored in the partition were removed. *)
Definition emptied (tr : list (event RetOp)) (p : Partition) : Prop :=
  has_bucket = true → ∃ runs, Ev (RunsIn p) (Ok runs) ∈ tr ∧
    ∀ r, r ∈ runs → Keys.Valid (Keys.ForRun (rf_Namespace r) (rf_UID r)) = true →
      Ev (RemovePrefix (jb_Bucket j) (Keys.ForRun (rf_Namespace r) (rf_UID r))) None ∈ tr.

Lemma emptied_mono tr tr' p : tr ⊆ tr' → emptied tr p → emptied tr' p.
Proof. intros Hsub He Hb. destruct (He Hb) as (runs & ? & Hr). exists runs. split; [set_solver|]. intros. apply Hsub. by apply Hr. Qed.

(** Operations on the objects of one partition's runs. *)
Definition object_event (p : Partition) (e : event RetOp) : Prop :=
  match e with Ev (RunsIn q) _ => q = p | Ev (RemovePrefix b _) _ => b = jb_Bucket j | _ => False end.

Lemma remove_objects_inv part i runs tr o :
  exec (remove_objects j part i runs) tr o →
  Forall (object_event part) tr ∧
  (o = None → ∀ r, r ∈ runs → Keys.Valid (Keys.ForRun (rf_Namespace r) (rf_UID r)) = true →
     Ev (RemovePrefix (jb_Bucket j) (Keys.ForRun (rf_Namespace r) (rf_UID r))) None ∈ tr).
Proof.
  revert i tr. induction runs as [|r runs IH]; intros i tr Hex; cbn [remove_objects] in Hex.
  { apply exec_ret_inv in Hex as [-> ->]. split; [done|]. intros _ r. by rewrite elem_of_nil. }
  destruct (Keys.Valid _) eqn:Hv; cbn [negb] in Hex.
  - apply exec_perform_bind_inv in Hex as (e & tr1 & -> & Hex). destruct e as [e|].
    { apply exec_ret_inv in Hex as [-> ->]. split; [by repeat constructor|done]. }
    apply IH in Hex as [Hall Hrem]. split; [by constructor|].
    intros Ho r' [->|Hr]%elem_of_cons Hv'; [left|]. right. by apply Hrem.
  - apply IH in Hex as [Hall Hrem]. split; [done|].
    intros Ho r' [->|Hr]%elem_of_cons Hv'; [congruence|]. by apply Hrem.
Qed.

(** Cleaning a partition: its runs' objects first, its table last and only when
    every one of them is gone. *)
Lemma dropPartition_inv part tr n e :
  exec (dropPartition j part) tr (n, e) →
  (∃ tr0 r, tr = tr0 ++ [Ev (DropPartitions [part]) r] ∧ Forall (object_event part) tr0 ∧ emptied tr0 part ∧ (e = None ↔ r = None))
  ∨ (Forall (object_event part) tr ∧ is_Some e).
Proof.
  assert (Htable : ∀ m t, exec (drop_table part m) t (n, e) → ∃ r, t = [Ev (DropPartitions [part]) r] ∧ (e = None ↔ r = None)).
  { intros m t (r & t' & -> & Hex)%exec_perform_bind_inv. exists r. destruct r; apply exec_ret_inv in Hex as [-> [= -> ->]]; done. }
  unfold dropPartition. fold has_bucket. destruct has_bucket eqn:Hb.
  - intros (r & tr1 & -> & Hex)%exec_perform_bind_inv. destruct r as [runs|err].
    2: { apply exec_ret_inv in Hex as [-> [= -> ->]]. right. split; [by repeat constructor|done]. }
    apply exec_bind_inv in Hex as (t1 & t2 & o & -> & Hrem & Hex). apply remove_objects_inv in Hrem as [Hall Hdone].
    destruct o as [[i err]|].
    { apply exec_ret_inv in Hex as [-> [= -> ->]]. right. rewrite app_nil_r. split; [by constructor|done]. }
    apply Htable in Hex as (r & -> & He). left. exists (Ev (RunsIn part) (Ok runs) :: t1), r. split_and!; [done|by constructor| |done].
    intros _. exists runs. split; [left|]. intros r' Hr Hv. right. by apply Hdone.
  - intros (r & -> & He)%Htable. left. exists [], r. split_and!; [done..| |done]. by unfold emptied; rewrite Hb.
Qed.

(** What a pass may do to partitions [ps]. *)
Definition clean_pass (ps : list Partition) (tr : list (event RetOp)) : Prop :=
  ∀ tr1 qs r tr2, tr = tr1 ++ Ev (DropPartitions qs) r :: tr2 → ∃ p, qs = [p] ∧ p ∈ ps ∧ emptied tr1 p.

Definition dropped (e : event RetOp) : list Partition := match e with Ev (DropPartitions qs) _ => qs | _ => [] end.

Lemma object_no_drop p tr qs r : Forall (object_event p) tr → Ev (DropPartitions qs) r ∉ tr.
Proof. intros H Hin. rewrite Forall_forall in H. by apply H in Hin. Qed.

Lemma drop_all_inv parts res errs tr out :
  exec (drop_all j parts res errs) tr out → clean_pass parts tr.
Proof.
  revert res errs tr. induction parts as [|part parts IH]; intros res errs tr Hex; cbn [drop_all] in Hex.
  { apply exec_ret_inv in Hex as [-> _]. by intros [|??] ????. }
  apply exec_bind_inv in Hex as (t1 & t2 & [n e] & -> & Hdrop & Hex).
  assert (Hrest : clean_pass parts t2) by (destruct e; by eapply IH).
  apply dropPartition_inv in Hdrop. intros tr1 qs r tr2 Heq. apply app_eq_inv in Heq as [(k & Hk1 & Hk2)|(k & Hk1 & Hk2)].
  - destruct k as [|ev k]; cbn in Hk2.
    + rewrite app_nil_r in Hk1. subst t1. destruct (Hrest [] qs r tr2) as (p & -> & Hp & He); [done|].
      exists p. split_and!; [done|by right|]. eapply emptied_mono; [|exact He]. set_solver.
    + injection Hk2 as <- Hk2. destruct Hdrop as [(tr0 & r' & Ht1 & Hobj & Hem & _)|[Hobj _]].
      * rewrite Hk1 in Ht1. destruct (decide (k = [])) as [->|Hne].
        -- apply app_inj_tail in Ht1 as [-> Hev]. exists part. split_and!; [exact (f_equal dropped Hev)|by left|done].
        -- exfalso. destruct (exists_last Hne) as (k' & x & ->).
           rewrite app_comm_cons, app_assoc in Ht1. apply app_inj_tail in Ht1 as [Ht1 _].
           eapply (object_no_drop part tr0 qs r); [done|]. rewrite <- Ht1. set_solver.
      * exfalso. eapply (object_no_drop part t1 qs r); [done|]. rewrite Hk1. set_solver.
  - subst tr1. destruct (Hrest k qs r tr2 Hk2) as (p & -> & Hp & He). exists p. split_and!; [done|by right|].
    eapply emptied_mono; [|exact He]. set_solver.
Qed.

End PassSpec.

(** A retention pass drops a partition only when all of it is older than the window
    and, with a bucket, after it has listed the runs stored in it and removed the
    objects of every one of them: history that is still wanted stays, and no object
    is orphaned by a failure on the way. *)
Theorem RunOnce_safe j tr out tr1 qs r tr2 :
  exec (RunOnce j) tr out → tr = tr1 ++ Ev (DropPartitions qs) r :: tr2 →
  ∃ p now existing, qs = [p] ∧ Ev Now now ∈ tr ∧ Ev ExistingPartitions (Ok existing) ∈ tr ∧
    p ∈ existing ∧ (∀ t, in_partition t p → (t < now - jb_Retention j)%Z) ∧ (0 < jb_Retention j)%Z ∧ emptied j tr1 p.
Proof.
  unfold RunOnce. destruct (Z.leb_spec (jb_Retention j) 0) as [|Hpos]; intros Hex Heq.
  { apply exec_ret_inv in Hex as [-> _]. by destruct tr1. }
  apply exec_perform_bind_inv in Hex as (now & t1 & -> & Hex).
  apply exec_perform_bind_inv in Hex as (ex & t2 & -> & Hex).
  destruct ex as [existing|e]; [|apply exec_ret_inv in Hex as [-> _]; by destruct tr1 as [|? [|? [|??]]]].
  apply exec_bind_inv in Hex as (t3 & t4 & [res errs] & -> & Hdrop & Hex).
  apply exec_perform_bind_inv in Hex as ([pruned e] & t5 & -> & [-> _]%exec_ret_inv).
  destruct tr1 as [|a [|b tr1]]; cbn in Heq; [done..|]. injection Heq as <- <- Heq.
  assert (Hin : ∃ k, t3 = tr1 ++ Ev (DropPartitions qs) r :: k).
  { apply app_eq_inv in Heq as [(k & -> & Hk)|(k & -> & Hk)]; [|by destruct k as [|? [|??]]].
    destruct k as [|x k]; [done|]. injection Hk as <- _. by exists k. }
  destruct Hin as [k Hk]. destruct (drop_all_inv j _ _ _ _ _ Hdrop tr1 qs r k Hk) as (p & -> & Hp & Hem).
  apply PartitionsToDrop_spec in Hp as [Hp Hend]. exists p, now, existing. split_and!; [done|by left|right; by left|done| |done|].
  - unfold in_partition. lia.
  - eapply emptied_mono; [|exact Hem]. set_solver.
Qed.

(** *** A pass over two partitions *)

Definition demo_now : time := (20000 * 86400 * second)%Z.
Definition demo_old : Partition := PartitionForTime (demo_now - 100 * 24 * hour)%Z.
Definition demo_recent : Partition := PartitionForTime demo_now.
Definition demo_job : Job := mkJob true "bucket" (30 * 24 * hour)%Z.

Example demo_old_month : (pt_Name demo_old, pt_Name demo_recent) = ("test_runs_2024_06", "test_runs_2024_10").
Proof. vm_compute. reflexivity. Qed.

Definition demo_store : ∀ R, RetOp R → unit → R * unit := fun R o w =>
  (match o in RetOp R return R with
   | Now => demo_now
   | ExistingPartitions => Ok [demo_old; demo_recent]
   | RunsIn _ => Ok [mkRunRef "ns" "u1"; mkRunRef "" "u2"]
   | RemovePrefix _ _ | DropPartitions _ => None
   | PruneAudit _ => (3%Z, None)
   end, w).

Definition demo_pass := Effects.run demo_store (RunOnce demo_job) tt.

Definition demo_before : list (event RetOp) :=
  [Ev Now demo_now; Ev ExistingPartitions (Ok [demo_old; demo_recent]);
   Ev (RunsIn demo_old) (Ok [mkRunRef "ns" "u1"; mkRunRef "" "u2"]);
   Ev (RemovePrefix "bucket" "runs/ns/u1/") None].

Lemma demo_pass_trace :
  demo_pass.2 = demo_before ++ Ev (DropPartitions [demo_old]) None :: [Ev (PruneAudit (demo_now - 30 * 24 * hour)%Z) (3%Z, None)].
Proof. vm_compute. reflexivity. Qed.

Lemma RunOnce_safe_witness : emptied demo_job demo_before demo_old ∧ ps_Dropped demo_pass.1.1.1 = ["test_runs_2024_06"].
Proof.
  split; [|vm_compute; reflexivity].
  destruct (RunOnce_safe demo_job demo_pass.2 demo_pass.1.1 _ _ _ _ (run_exec demo_store _ tt) demo_pass_trace)
    as (p & now & existing & Hp & _ & _ & _ & _ & _ & Hem).
  assert (E : demo_old = p) by (apply (f_equal head) in Hp; by injection Hp). rewrite E. exact Hem.
Defined.

End Retention.
