(* ===== verification/Store.v ===== *)
(** * internal/store: run history in Postgres

    row.go: what of a finished TestRun is kept.  postgres.go, testcases.go, audit.go,
    stats.go: the statements, with their numbered arguments, as programs over the
    connection pool, whose every call may fail; and what the statements mean, over
    the tables the migrations create, with their partitions and primary keys. *)
From S2P Require Import Prelude Api GoLib Keys Objects Effects Calendar Retention Verdicts Termination Sorting.

Module Store.
Import Objects Termination Retention.

(** ** Rows (store.go) *)

Record StoreStage := mkStoreStage {
  ss_Kind : string; ss_Name : string; ss_Phase : string; ss_StartedAt : option time; ss_FinishedAt : option time; ss_Message : string }.
#[export] Instance StoreStage_eq_dec : EqDecision StoreStage.
Proof. solve_decision. Defined.

Record Comment := mkComment { cm_Text : string; cm_By : string; cm_At : time }.
#[export] Instance Comment_eq_dec : EqDecision Comment.
Proof. solve_decision. Defined.

(** A step as history keeps it: a key the map does not have is empty here. *)
Record RowStep := mkRowStep {
  wp_phase : string; wp_queuedAt : option time; wp_startedAt : option time; wp_finishedAt : option time; wp_message : string;
  wp_stages : list StoreStage; wp_params : strmap }.
#[export] Instance RowStep_eq_dec : EqDecision RowStep.
Proof. solve_decision. Defined.

(** [rw_ResolvedSpec]: the snapshot's JSON, as the spec it encodes.  No code writes
    [status.logsRef], so a row has none. *)
Record Row := mkRow {
  rw_UID : string; rw_Name : string; rw_Namespace : string; rw_TestRef : string; rw_Phase : string; rw_Source : string;
  rw_QueuedAt : option time; rw_StartedAt : option time; rw_FinishedAt : time; rw_DurationMs : Z;
  rw_ResolvedSpec : option TestSpec; rw_Steps : gmap string RowStep; rw_Stages : list StoreStage; rw_Metrics : gmap string spec_float;
  rw_TestCounts : option TestCounts; rw_ArtifactRefs : list ArtifactRef; rw_Message : string; rw_Tags : strmap; rw_Config : strmap;
  rw_Tool : string; rw_ParentRun : string; rw_GitRevision : string; rw_GitCommit : string; rw_Comment : option Comment }.

Record Filter := mkRowFilter {
  fl_TestRef : string; fl_Namespace : string; fl_Phase : string; fl_Source : string; fl_ParentRun : string;
  fl_SinceInclusive : option time; fl_UntilExclusive : option time }.
Record Page := mkPage { pg_Limit : Z; pg_After : string; pg_AfterFinishedAt : option time }.

Definition DefaultPageLimit : Z := 50.
Definition MaxPageLimit : Z := 500.
Definition ErrNotTerminal : string := "store: TestRun phase is not terminal".
Definition ErrNotFound : string := "store: row not found".

(** ** row.go *)

Definition LabelTool : string := "kubetest.io/tool".
Definition LabelParentRun : string := "kubetest.io/parent-run".

Definition IsTerminal (p : Phase) : bool :=
  match p with PhasePassed | PhaseFailed | PhaseAborted | PhaseError => true | _ => false end.

Definition kind_text (k : StageKind) : string :=
  match k with StageQueue => "queue" | StageFetch => "fetch" | StageRun => "run" | StageCollect => "collect" end.
Definition stagesOf (stages : list Stage) : list StoreStage :=
  (fun st => mkStoreStage (kind_text (sg_Kind st)) (sg_Name st) (phase_string (sg_Phase st)) (sg_StartedAt st) (sg_FinishedAt st) (sg_Message st)) <$> stages.

Definition EffectiveConfig (declared : gmap string ConfigParameter) (overrides : strmap) : strmap :=
  if bool_decide (declared = ∅) && bool_decide (overrides = ∅) then ∅
  else overrides ∪ omap (fun p => if negb (pm_Default p =? "")%string then Some (pm_Default p) else None) declared.

Section Rows.
Context `{MapOrder, Floats}.

(** The warnings: the name and the text of each metric that is not a number. *)
Definition parse_metric (acc : gmap string spec_float * list (string * string)) (kv : string * string) : gmap string spec_float * list (string * string) :=
  let '(out, warnings) := acc in
  match ParseFloat kv.2 with Ok f => (<[kv.1 := f]> out, warnings) | Err _ => (out, warnings ++ [kv]) end.
Definition parseMetrics (m : strmap) : gmap string spec_float * list (string * string) := foldl parse_metric (∅, []) (range m).

Definition row_step (s : StepResult) : RowStep :=
  mkRowStep (phase_string (sr_Phase s)) (sr_QueuedAt s) (sr_StartedAt s) (sr_FinishedAt s) (sr_Message s) (stagesOf (sr_Stages s)) (sr_Params s).

Definition RowFromRun (run : option TestRun) : result string (Row * list (string * string)) :=
  match run with
  | None => Err "store: nil TestRun"
  | Some run =>
      let sp := r_Spec run in
      let st := r_Status run in
      let id := run_ns run +:+ "/" +:+ run_name run in
      if (run_uid run =? "")%string then Err ("store: TestRun " +:+ id +:+ " has empty UID")
      else
        match st_FinishedAt st with
        | None => Err ("store: TestRun " +:+ id +:+ " has no FinishedAt")
        | Some finished =>
            let tool := if (st_Tool st =? "")%string then default "" (om_Labels (r_Meta run) !! LabelTool) else st_Tool st in
            let '(metrics, warnings) := if bool_decide (st_Metrics st = ∅) then (∅, []) else parseMetrics (st_Metrics st) in
            let spec := unmarshal_spec (st_ResolvedSpec st) in
            Ok (mkRow (run_uid run) (run_name run) (run_ns run) (rs_TestRef sp) (phase_string (st_Phase st)) (rs_Source sp)
                  (st_QueuedAt st) (st_StartedAt st) finished (st_DurationMs st)
                  spec (row_step <$> st_Steps st) (stagesOf (st_Stages st)) metrics (st_TestCounts st) (st_ArtifactRefs st) (st_Message st)
                  (rs_Tags sp) (from_option (fun s => EffectiveConfig (ts_Config s) (rs_Config sp)) ∅ spec) tool
                  (default "" (om_Labels (r_Meta run) !! LabelParentRun))
                  (from_option cs_GitRevision "" (st_Content st)) (from_option cs_GitCommit "" (st_Content st)) None, warnings)
        end
  end.
End Rows.

(** ** Columns

    NULL is [None].  A timestamptz has microseconds; a jsonb number has no negative
    zero. *)

Definition pg_time (t : time) : time := (t / 1000 * 1000)%Z.
Definition jsonb_float (f : spec_float) : spec_float := match f with S754_zero _ => S754_zero false | f => f end.

Definition nullIfEmpty (s : string) : option string := if (s =? "")%string then None else Some s.
Definition nullIfZero (i : Z) : option Z := if (i =? 0)%Z then None else Some i.

(** jsonbOrNil: NULL for an empty value, and for one encoding/json refuses — a map of
    floats with one that is not finite. *)
Definition jsonbOrNil {A} (empty : bool) (marshals : bool) (v : A) : option A := if empty then None else if marshals then Some v else None.

Record RunColumns := mkRunColumns {
  c_uid : string; c_name : string; c_namespace : string; c_test_ref : string; c_phase : string; c_source : option string;
  c_queued_at : option time; c_started_at : option time; c_finished_at : time; c_duration_ms : option Z;
  c_resolved_spec : option TestSpec; c_steps : option (gmap string RowStep); c_metrics : option (gmap string spec_float);
  c_test_counts : option TestCounts; c_artifact_refs : option (list ArtifactRef); c_message : option string;
  c_tags : option strmap; c_config : option strmap; c_tool : option string; c_parent_run : option string;
  c_git_revision : option string; c_git_commit : option string; c_stages : option (list StoreStage);
  c_comment : option string; c_comment_by : option string; c_comment_at : option time }.

(** What SaveFinished sends. *)
Definition columns_of (r : Row) : RunColumns :=
  mkRunColumns (rw_UID r) (rw_Name r) (rw_Namespace r) (rw_TestRef r) (rw_Phase r) (nullIfEmpty (rw_Source r))
    (rw_QueuedAt r) (rw_StartedAt r) (rw_FinishedAt r) (nullIfZero (rw_DurationMs r))
    (rw_ResolvedSpec r) (jsonbOrNil (bool_decide (rw_Steps r = ∅)) true (rw_Steps r))
    (jsonbOrNil (bool_decide (rw_Metrics r = ∅)) (finite_metrics (rw_Metrics r)) (rw_Metrics r))
    (rw_TestCounts r) (jsonbOrNil (length (rw_ArtifactRefs r) =? 0)%nat true (rw_ArtifactRefs r)) (nullIfEmpty (rw_Message r))
    (jsonbOrNil (bool_decide (rw_Tags r = ∅)) true (rw_Tags r)) (jsonbOrNil (bool_decide (rw_Config r = ∅)) true (rw_Config r))
    (nullIfEmpty (rw_Tool r)) (nullIfEmpty (rw_ParentRun r)) (nullIfEmpty (rw_GitRevision r)) (nullIfEmpty (rw_GitCommit r))
    (jsonbOrNil (length (rw_Stages r) =? 0)%nat true (rw_Stages r)) None None None.

(** One row of scanRows. *)
Definition scan_row (c : RunColumns) : Row :=
  mkRow (c_uid c) (c_name c) (c_namespace c) (c_test_ref c) (c_phase c) (default "" (c_source c))
    (c_queued_at c) (c_started_at c) (c_finished_at c) (default 0%Z (c_duration_ms c))
    (c_resolved_spec c) (default ∅ (c_steps c)) (default [] (c_stages c)) (default ∅ (c_metrics c)) (c_test_counts c)
    (default [] (c_artifact_refs c)) (default "" (c_message c)) (default ∅ (c_tags c)) (default ∅ (c_config c))
    (default "" (c_tool c)) (default "" (c_parent_run c)) (default "" (c_git_revision c)) (default "" (c_git_commit c))
    (match c_comment c, c_comment_at c with Some text, Some at_ => Some (mkComment text (default "" (c_comment_by c)) at_) | _, _ => None end).
Definition scanRows (rows : list RunColumns) : list Row := scan_row <$> rows.

(** A test case of a run (testcases.go); [cc_idx]: its place in the reports. *)
Record CaseColumns := mkCaseColumns {
  cc_run_uid : string; cc_finished_at : time; cc_idx : Z; cc_namespace : string; cc_test_ref : string; cc_case_key : string;
  cc_suite : option string; cc_class : option string; cc_name : string; cc_status : string; cc_duration_ms : Z;
  cc_message : option string; cc_details : option string; cc_file : option string }.

(** ** Statements *)

Inductive text_col := ColTestRef | ColNamespace | ColPhase | ColParentRun | ColSource.

(** A clause names its arguments by number, from 1. *)
Inductive cond :=
| EqText (c : text_col) (n : nat)
| FinishedFrom (n : nat)
| FinishedBefore (n : nat)
| Keyset (n m : nat).
Inductive arg := TextArg (s : string) | TimeArg (t : time).

Inductive stmt :=
| CreatePartition (name parent : string) (from to : time)
| DropTable (name : string)
| UpsertRun (c : RunColumns)
| DeleteRun (uid : string)
| DeleteCases (uid : string)
| UpdateComment (uid : string) (text by_ : option string) (at_ : option time).

Inductive query : Type → Type :=
| SelectByUID (uid : string) : query RunColumns
| SelectByName (namespace name : string) : query RunColumns
| SelectRuns (where_ : list cond) (args : list arg) (limit : Z) : query RunColumns
| SelectRunsIn (from to : time) : query RunRef
| SelectCases (uid : string) (failedOnly : bool) : query CaseColumns.

Inductive DOp : Type → Type :=
| Exec (s : stmt) : DOp (result string Z)
| Query {A} (q : query A) : DOp (result string (list A))
| Begin : DOp (option string)
| TxExec (s : stmt) : DOp (result string Z)
| TxCopy (rows : list CaseColumns) : DOp (option string)
| Commit : DOp (option string)
| Rollback : DOp unit.

Abbreviation M := (prog DOp).

Definition partitionedTables : list string := ["test_runs"; "test_cases"].
Definition tablePartition (table : string) (part : Partition) : string := table +:+ TrimPrefix (pt_Name part) "test_runs".

(** A statement for each table, up to the first that fails. *)
Fixpoint exec_each (stmts : list stmt) : M (option string) :=
  match stmts with
  | [] => Ret None
  | s :: stmts => r ← perform (Exec s); match r with Err e => Ret (Some e) | Ok _ => exec_each stmts end
  end.
Definition ensurePartition (part : Partition) : M (option string) :=
  exec_each ((fun table => CreatePartition (tablePartition table part) table (pt_Start part) (pt_End part)) <$> partitionedTables).
Definition dropPartition (part : Partition) : M (option string) :=
  exec_each ((fun table => DropTable (tablePartition table part)) <$> reverse partitionedTables).
Fixpoint each_partition (f : Partition → M (option string)) (ps : list Partition) : M (option string) :=
  match ps with
  | [] => Ret None
  | p :: ps => e ← f p; match e with Some e => Ret (Some e) | None => each_partition f ps end
  end.
Definition EnsurePartitions : list Partition → M (option string) := each_partition ensurePartition.
Definition DropPartitions : list Partition → M (option string) := each_partition dropPartition.

Definition clampLimit (limit : Z) : Z := if (limit <=? 0)%Z then DefaultPageLimit else Z.min limit MaxPageLimit.

(** google/uuid's Parse, and Postgres' cast to uuid. *)
Class Uuids := { uuid_Parse : string → bool; pg_uuid : string → option string }.

(** [defer tx.Rollback], which does nothing after a commit. *)
Definition in_tx {A} (fail : string → A) (body : M A) : M A :=
  e ← perform Begin;
  match e with
  | Some e => Ret (fail e)
  | None => a ← body; _ ← perform Rollback; Ret a
  end.

Section Postgres.
Context `{MapOrder, Floats, Uuids}.

Definition SaveFinished (run : option TestRun) : M (option string) :=
  match run with
  | None => Ret (Some ErrNotTerminal)
  | Some r =>
      if negb (IsTerminal (run_phase r)) then Ret (Some ErrNotTerminal)
      else
        match RowFromRun run with
        | Err e => Ret (Some ("store: map row: " +:+ e))
        | Ok (row, _) =>
            let part := PartitionForTime (rw_FinishedAt row) in
            e ← ensurePartition part;
            match e with
            | Some e => Ret (Some ("store: ensure partition " +:+ pt_Name part +:+ ": " +:+ e))
            | None =>
                u ← perform (Exec (UpsertRun (columns_of row)));
                match u with Err e => Ret (Some ("store: upsert " +:+ rw_UID row +:+ ": " +:+ e)) | Ok _ => Ret None end
            end
        end
  end.

Definition first_row (r : result string (list RunColumns)) : result string Row :=
  match r with
  | Err e => Err e
  | Ok rows => match scanRows rows with [] => Err ErrNotFound | row :: _ => Ok row end
  end.
Definition Get (uid : string) : M (result string Row) := r ← perform (Query (SelectByUID uid)); Ret (first_row r).
Definition GetByName (namespace name : string) : M (result string Row) := r ← perform (Query (SelectByName namespace name)); Ret (first_row r).

Definition Delete (uid : string) : M (option string) :=
  if negb (uuid_Parse uid) then Ret (Some ErrNotFound)
  else
    in_tx Some (
      r ← perform (TxExec (DeleteRun uid));
      match r with
      | Err e => Ret (Some e)
      | Ok n =>
          if (n =? 0)%Z then Ret (Some ErrNotFound)
          else
            c ← perform (TxExec (DeleteCases uid));
            match c with
            | Err e => Ret (Some ("store: delete cases " +:+ uid +:+ ": " +:+ e))
            | Ok _ => perform Commit
            end
      end).

Definition SetComment (uid : string) (c : option Comment) : M (option string) :=
  if negb (uuid_Parse uid) then Ret (Some ErrNotFound)
  else
    r ← perform (Exec (UpdateComment uid (cm_Text <$> c) (c ≫= nullIfEmpty ∘ cm_By) (cm_At <$> c)));
    match r with
    | Err e => Ret (Some ("store: comment " +:+ uid +:+ ": " +:+ e))
    | Ok n => Ret (if (n =? 0)%Z then Some ErrNotFound else None)
    end.

(** The clauses and the arguments so far; a clause's number is its argument's. *)
Definition add_eq (c : text_col) (v : string) (ca : list cond * list arg) : list cond * list arg :=
  if (v =? "")%string then ca else (ca.1 ++ [EqText c (length ca.2 + 1)], ca.2 ++ [TextArg v]).
Definition add_time (f : nat → cond) (v : option time) (ca : list cond * list arg) : list cond * list arg :=
  match v with None => ca | Some t => (ca.1 ++ [f (length ca.2 + 1)], ca.2 ++ [TimeArg t]) end.
Definition add_keyset (p : Page) (ca : list cond * list arg) : list cond * list arg :=
  match pg_AfterFinishedAt p with
  | Some t => if (pg_After p =? "")%string then ca
              else (ca.1 ++ [Keyset (length ca.2 + 1) (length ca.2 + 2)], ca.2 ++ [TimeArg t; TextArg (pg_After p)])
  | None => ca
  end.
Definition list_clauses (f : Filter) (p : Page) : list cond * list arg :=
  add_keyset p (add_time FinishedBefore (fl_UntilExclusive f) (add_time FinishedFrom (fl_SinceInclusive f)
    (add_eq ColSource (fl_Source f) (add_eq ColParentRun (fl_ParentRun f) (add_eq ColPhase (fl_Phase f)
      (add_eq ColNamespace (fl_Namespace f) (add_eq ColTestRef (fl_TestRef f) ([], [])))))))).

Definition List (f : Filter) (p : Page) : M (result string (list Row)) :=
  r ← perform (Query (SelectRuns (list_clauses f p).1 (list_clauses f p).2 (clampLimit (pg_Limit p))));
  Ret (match r with Err e => Err e | Ok rows => Ok (scanRows rows) end).

Definition RunsIn (part : Partition) : M (result string (list RunRef)) :=
  r ← perform (Query (SelectRunsIn (pt_Start part) (pt_End part)));
  Ret (match r with Err e => Err ("store: runs in " +:+ pt_Name part +:+ ": " +:+ e) | Ok rows => Ok rows end).

(** *** testcases.go *)

Definition case_columns (run : TestRun) (finished : time) (i : nat) (c : TestCase) : CaseColumns :=
  mkCaseColumns (run_uid run) finished (Z.of_nat i) (run_ns run) (rs_TestRef (r_Spec run)) (Verdicts.CaseKey c) (nullIfEmpty (k_Suite c))
    (nullIfEmpty (k_Class c)) (k_CaseName c) (k_Status c) (k_DurationMs c) (nullIfEmpty (k_Message c)) (nullIfEmpty (k_Details c))
    (nullIfEmpty (k_File c)).

Definition SaveTestCases (run : TestRun) (cases : list TestCase) : M (option string) :=
  match st_FinishedAt (r_Status run) with
  | Some finished =>
      if (run_uid run =? "")%string then Ret (Some "store: SaveTestCases needs a finished run with a UID")
      else
        e ← ensurePartition (PartitionForTime finished);
        match e with
        | Some e => Ret (Some ("store: ensure partition: " +:+ e))
        | None =>
            in_tx Some (
              d ← perform (TxExec (DeleteCases (run_uid run)));
              match d with
              | Err e => Ret (Some ("store: clear cases " +:+ run_uid run +:+ ": " +:+ e))
              | Ok _ =>
                  c ← perform (TxCopy (imap (case_columns run finished) cases));
                  match c with Some e => Ret (Some ("store: save cases " +:+ run_uid run +:+ ": " +:+ e)) | None => perform Commit end
              end)
        end
  | None => Ret (Some "store: SaveTestCases needs a finished run with a UID")
  end.

Record CaseRow := mkCaseRow { ca_Case : TestCase; ca_Key : string; ca_RunUID : string; ca_FinishedAt : time }.
Definition scan_case (c : CaseColumns) : CaseRow :=
  mkCaseRow (mkTestCase (default "" (cc_suite c)) (default "" (cc_class c)) (cc_name c) (cc_status c) (cc_duration_ms c)
               (default "" (cc_message c)) (default "" (cc_details c)) (default "" (cc_file c))) (cc_case_key c) (cc_run_uid c) (cc_finished_at c).
Definition scan_cases (rows : list CaseColumns) : list CaseRow := scan_case <$> rows.

Definition RunCases (uid : string) (failedOnly : bool) : M (result string (list CaseRow)) :=
  if negb (uuid_Parse uid) then Ret (Ok [])
  else r ← perform (Query (SelectCases uid failedOnly));
       Ret (match r with Err e => Err ("store: run cases: " +:+ e) | Ok rows => Ok (scan_cases rows) end).
End Postgres.
End Store.
