(* ===== verification/StoreSpec.v ===== *)
(** * What run history promises

    What the statements of the store mean over tables with primary keys and monthly
    partitions, and from it: a saved run is read back as it was projected, saving it
    again changes nothing, its comment outlives the save; a listing walked page by
    page has every run that stays in history once, newest first, whatever is added
    or removed between the pages; and metrics that are not finite take all others
    with them. *)
From stdpp Require Import sorting.
From S2P Require Import Prelude Api GoLib Names Keys Objects Effects Calendar Retention Verdicts Termination Sorting Store.

Module StoreSpec.
Import Objects Termination Calendar Retention Store.

(** ** The tables *)

(** [db_partitions]: the partitions' tables, with their parent and bounds. *)
Record DB := mkDB {
  db_partitions : gmap string (string * time * time);
  db_runs : gmap (time * string) RunColumns;
  db_cases : gmap (string * Z * time) CaseColumns }.

Definition covers (db : DB) (table : string) (t : time) : bool :=
  existsb (fun p => let '(parent, from, to) := (p : string * time * time) in (parent =? table)%string && (from <=? t)%Z && (t <? to)%Z)
    (snd <$> map_to_list (db_partitions db)).
Definition overlaps (db : DB) (parent : string) (from to : time) : bool :=
  existsb (fun p => let '(parent', from', to') := (p : string * time * time) in (parent' =? parent)%string && (from' <? to)%Z && (from <? to')%Z)
    (snd <$> map_to_list (db_partitions db)).

(** A row as the columns' types keep it. *)
Definition stored (uid : string) (c : RunColumns) : RunColumns :=
  mkRunColumns uid (c_name c) (c_namespace c) (c_test_ref c) (c_phase c) (c_source c)
    (pg_time <$> c_queued_at c) (pg_time <$> c_started_at c) (pg_time (c_finished_at c)) (c_duration_ms c)
    (c_resolved_spec c) (c_steps c) ((fun m : gmap string spec_float => jsonb_float <$> m) <$> c_metrics c) (c_test_counts c) (c_artifact_refs c) (c_message c)
    (c_tags c) (c_config c) (c_tool c) (c_parent_run c) (c_git_revision c) (c_git_commit c) (c_stages c)
    (c_comment c) (c_comment_by c) (pg_time <$> c_comment_at c).
(** ON CONFLICT (uid, finished_at) DO UPDATE: every column but the comment's. *)
Definition with_comment (text by_ : option string) (at_ : option time) (c : RunColumns) : RunColumns :=
  mkRunColumns (c_uid c) (c_name c) (c_namespace c) (c_test_ref c) (c_phase c) (c_source c) (c_queued_at c) (c_started_at c) (c_finished_at c)
    (c_duration_ms c) (c_resolved_spec c) (c_steps c) (c_metrics c) (c_test_counts c) (c_artifact_refs c) (c_message c) (c_tags c) (c_config c)
    (c_tool c) (c_parent_run c) (c_git_revision c) (c_git_commit c) (c_stages c) text by_ at_.
Definition upserted (old : option RunColumns) (c : RunColumns) : RunColumns :=
  match old with Some o => with_comment (c_comment o) (c_comment_by o) (c_comment_at o) c | None => c end.

Definition bad_uuid : string := "invalid input syntax for type uuid".

Section Meaning.
Context `{Uuids}.

Definition of_uid (u : string) (c : RunColumns) : bool := (c_uid c =? u)%string.

Definition exec_stmt (s : stmt) (db : DB) : result string Z * DB :=
  match s with
  | CreatePartition name parent from to =>
      match db_partitions db !! name with
      | Some _ => (Ok 0%Z, db)
      | None =>
          if overlaps db parent from to then (Err ("partition would overlap: " +:+ name), db)
          else (Ok 0%Z, mkDB (<[name := (parent, from, to)]> (db_partitions db)) (db_runs db) (db_cases db))
      end
  | DropTable name =>
      match db_partitions db !! name with
      | None => (Ok 0%Z, db)
      | Some (parent, from, to) =>
          let out (t : time) := negb ((from <=? t)%Z && (t <? to)%Z) in
          (Ok 0%Z,
           mkDB (delete name (db_partitions db))
             (if (parent =? "test_runs")%string then filter (fun kc => out (kc.1.1) = true) (db_runs db) else db_runs db)
             (if (parent =? "test_cases")%string then filter (fun kc => out (kc.1.2) = true) (db_cases db) else db_cases db))
      end
  | UpsertRun c =>
      match pg_uuid (c_uid c) with
      | None => (Err bad_uuid, db)
      | Some u =>
          let c := stored u c in
          let k := (c_finished_at c, u) in
          if covers db "test_runs" (c_finished_at c) then
            (Ok 1%Z, mkDB (db_partitions db) (<[k := upserted (db_runs db !! k) c]> (db_runs db)) (db_cases db))
          else (Err "no partition of relation found for row", db)
      end
  | DeleteRun uid =>
      match pg_uuid uid with
      | None => (Err bad_uuid, db)
      | Some u => (Ok (Z.of_nat (size (filter (fun kc => kc.1.2 = u) (db_runs db)))),
                   mkDB (db_partitions db) (filter (fun kc => kc.1.2 ≠ u) (db_runs db)) (db_cases db))
      end
  | DeleteCases uid =>
      match pg_uuid uid with
      | None => (Err bad_uuid, db)
      | Some u => (Ok (Z.of_nat (size (filter (fun kc => kc.1.1.1 = u) (db_cases db)))),
                   mkDB (db_partitions db) (db_runs db) (filter (fun kc => kc.1.1.1 ≠ u) (db_cases db)))
      end
  | UpdateComment uid text by_ at_ =>
      match pg_uuid uid with
      | None => (Err bad_uuid, db)
      | Some u => (Ok (Z.of_nat (size (filter (fun kc => kc.1.2 = u) (db_runs db)))),
                   mkDB (db_partitions db)
                     (map_imap (fun k c => Some (if (k.2 =? u)%string then with_comment text by_ (pg_time <$> at_) c else c)) (db_runs db))
                     (db_cases db))
      end
  end.

(** A clause of a listing; a comparison with NULL is not true. *)
Definition col_text (k : text_col) (c : RunColumns) : option string :=
  match k with
  | ColTestRef => Some (c_test_ref c) | ColNamespace => Some (c_namespace c) | ColPhase => Some (c_phase c)
  | ColParentRun => c_parent_run c | ColSource => c_source c
  end.
Definition text_arg (args : list arg) (n : nat) : option string := match args !! (n - 1) with Some (TextArg s) => Some s | _ => None end.
Definition time_arg (args : list arg) (n : nat) : option time := match args !! (n - 1) with Some (TimeArg t) => Some (pg_time t) | _ => None end.

Definition holds (args : list arg) (c : RunColumns) (cd : cond) : bool :=
  match cd with
  | EqText k n => bool_decide (is_Some (text_arg args n) ∧ col_text k c = text_arg args n)
  | FinishedFrom n => match time_arg args n with Some t => (t <=? c_finished_at c)%Z | None => false end
  | FinishedBefore n => match time_arg args n with Some t => (c_finished_at c <? t)%Z | None => false end
  | Keyset n m =>
      match time_arg args n, text_arg args m ≫= pg_uuid with
      | Some t, Some u => newest (t, u) (c_finished_at c, c_uid c)
      | _, _ => false
      end
  end.

Definition row_key (c : RunColumns) : time * string := (c_finished_at c, c_uid c).
Definition rows (db : DB) : list RunColumns := snd <$> map_to_list (db_runs db).
Definition case_rows (db : DB) : list CaseColumns := snd <$> map_to_list (db_cases db).
Definition bad_case (c : CaseColumns) : bool := (cc_status c =? "failed")%string || (cc_status c =? "error")%string.

Definition exec_query {A} (q : query A) (db : DB) : result string (list A) :=
  match q with
  | SelectByUID uid => match pg_uuid uid with None => Err bad_uuid | Some u => Ok (List.filter (of_uid u) (rows db)) end
  | SelectByName ns name =>
      Ok (take 1 (sort_by (by_key row_key) (List.filter (fun c => (c_namespace c =? ns)%string && (c_name c =? name)%string) (rows db))))
  | SelectRuns conds args limit =>
      if existsb (fun cd => match cd with Keyset _ m => bool_decide (text_arg args m ≫= pg_uuid = None) | _ => false end) conds then Err bad_uuid
      else Ok (take (Z.to_nat limit) (sort_by (by_key row_key) (List.filter (fun c => forallb (holds args c) conds) (rows db))))
  | SelectRunsIn from to =>
      Ok ((fun c => mkRunRef (c_namespace c) (c_uid c)) <$> List.filter (fun c => (from <=? c_finished_at c)%Z && (c_finished_at c <? to)%Z) (rows db))
  | SelectCases uid failedOnly =>
      match pg_uuid uid with
      | None => Err bad_uuid
      | Some u =>
          Ok (sort_by (fun a b => (cc_idx a <? cc_idx b)%Z)
                (List.filter (fun c => (cc_run_uid c =? u)%string && (negb failedOnly || bad_case c)) (case_rows db)))
      end
  end.

Definition stored_case (u : string) (c : CaseColumns) : CaseColumns :=
  mkCaseColumns u (pg_time (cc_finished_at c)) (cc_idx c) (cc_namespace c) (cc_test_ref c) (cc_case_key c) (cc_suite c) (cc_class c) (cc_name c)
    (cc_status c) (cc_duration_ms c) (cc_message c) (cc_details c) (cc_file c).

(** COPY: every row or none. *)
Fixpoint copy_cases (cs : list CaseColumns) (db : DB) : result string DB :=
  match cs with
  | [] => Ok db
  | c :: cs =>
      match pg_uuid (cc_run_uid c) with
      | None => Err bad_uuid
      | Some u =>
          let c := stored_case u c in
          let k := (u, cc_idx c, cc_finished_at c) in
          if negb (covers db "test_cases" (cc_finished_at c)) then Err "no partition of relation found for row"
          else match db_cases db !! k with
               | Some _ => Err "duplicate key value violates unique constraint"
               | None => copy_cases cs (mkDB (db_partitions db) (db_runs db) (<[k := c]> (db_cases db)))
               end
      end
  end.

(** A database that never fails by itself: what is committed, and a transaction's
    view while there is one. *)
Definition pg (R : Type) (o : DOp R) (w : DB * option DB) : R * (DB * option DB) :=
  match o in DOp R return R * (DB * option DB) with
  | Exec s => let '(r, db) := exec_stmt s w.1 in (r, (db, w.2))
  | Query q => (exec_query q w.1, w)
  | Begin => (None, (w.1, Some w.1))
  | TxExec s =>
      match w.2 with
      | Some t => let '(r, t) := exec_stmt s t in (r, (w.1, Some t))
      | None => (Err "no transaction", w)
      end
  | TxCopy cs =>
      match w.2 with
      | Some t => match copy_cases cs t with Ok t => (None, (w.1, Some t)) | Err e => (Some e, w) end
      | None => (Some "no transaction", w)
      end
  | Commit => match w.2 with Some t => (None, (t, None)) | None => (Some "no transaction", w) end
  | Rollback => (tt, (w.1, None))
  end.

(** What a program answers and leaves when it starts, and ends, outside a transaction. *)
Definition does {A} (p : M A) (db : DB) (a : A) (db' : DB) : Prop := (Effects.run pg p (db, None)).1 = (a, (db', None)).

Lemma does_bind {A B} (p : M A) (f : A → M B) db a db' b db'' :
  does p db a db' → does (f a) db' b db'' → does (p ≫= f) db b db''.
Proof. unfold does. intros Hp Hf. rewrite run_bind, Hp. exact Hf. Qed.
Lemma does_exec {A} s (f : _ → M A) db a db' :
  does (f (exec_stmt s db).1) (exec_stmt s db).2 a db' → does (perform (Exec s) ≫= f) db a db'.
Proof. intros Hf. eapply does_bind; [|exact Hf]. unfold does. cbn. by destruct (exec_stmt s db). Qed.
Lemma does_query {A B} (q : query A) (f : _ → M B) db b db' :
  does (f (exec_query q db)) db b db' → does (perform (Query q) ≫= f) db b db'.
Proof. intros Hf. eapply does_bind; [|exact Hf]. done. Qed.

(** The tables the store itself has made: months, in both tables, and rows under
    their keys. *)
Record well_kept (db : DB) : Prop := {
  wk_parts : ∀ name p, db_partitions db !! name = Some p →
    ∃ table t, table ∈ partitionedTables ∧ (0 <= (month_of t).1)%Z ∧ name = tablePartition table (PartitionForTime t) ∧
      p = (table, pt_Start (PartitionForTime t), pt_End (PartitionForTime t));
  wk_cases : ∀ k c, db_cases db !! k = Some c → k = (cc_run_uid c, cc_idx c, cc_finished_at c);
  wk_keys : ∀ k c, db_runs db !! k = Some c → k = row_key c ∧ pg_uuid (c_uid c) = Some (c_uid c) ∧ c_uid c ≠ "" ∧ pg_time (c_finished_at c) = c_finished_at c;
}.
End Meaning.
(** ** Partitions *)

Lemma covered t : in_partition t (PartitionForTime t).
Proof. by apply in_partition_of; [apply month_of_valid|]. Qed.

Lemma in_partition_same t u : in_partition u (PartitionForTime t) → PartitionForTime t = PartitionForTime u.
Proof. intros Hu. apply in_partition_of in Hu; [|apply month_of_valid]. unfold PartitionForTime. by rewrite Hu. Qed.

Lemma pg_time_le t : (pg_time t <= t < pg_time t + 1000)%Z.
Proof. unfold pg_time. pose proof (Z.div_mod t 1000 ltac:(lia)). pose proof (Z.mod_pos_bound t 1000 ltac:(lia)). lia. Qed.
Lemma pg_time_idem t : pg_time (pg_time t) = pg_time t.
Proof. unfold pg_time. by rewrite Z.div_mul. Qed.
Lemma pg_time_mono_mult n t : (n * 1000 <= t → n * 1000 <= pg_time t)%Z.
Proof. unfold pg_time. intros Hn. apply Z.mul_le_mono_nonneg_r; [lia|]. apply Z.div_le_lower_bound; lia. Qed.

Lemma pg_time_covered t : in_partition (pg_time t) (PartitionForTime t).
Proof.
  pose proof (covered t) as [H1 H2]. pose proof (pg_time_le t). split; [|lia]. unfold PartitionForTime, partition_of in *. cbn [pt_Start] in *.
  set (d := first_day _) in *. replace (d * day_ns)%Z with (d * 86400000000 * 1000)%Z in * by (unfold day_ns, second; lia).
  by apply pg_time_mono_mult.
Qed.

(** *** Their names *)

Lemma digits_pad w z : (0 <= z)%Z → Forall (fun c => Names.is_digit c = true) (Names.chars (itoa_pad w z)).
Proof.
  intros Hz. unfold itoa_pad, pad_zeros. induction (w - _) as [|n IH]; cbn; [by apply Names.digits_itoa|by constructor].
Qed.

Definition dated (m : Z * Z) : Prop := (0 <= m.1)%Z ∧ (0 <= m.2)%Z.

Lemma tablePartition_month table m : tablePartition table (partition_of m) = table +:+ "_" +:+ itoa_pad 4 m.1 +:+ "_" +:+ itoa_pad 2 m.2.
Proof. reflexivity. Qed.

Lemma tablePartition_inj t1 t2 m1 m2 : t1 ∈ partitionedTables → t2 ∈ partitionedTables → dated m1 → dated m2 →
  tablePartition t1 (partition_of m1) = tablePartition t2 (partition_of m2) → t1 = t2 ∧ m1 = m2.
Proof.
  intros H1 H2 [Hy1 Hm1] [Hy2 Hm2]. rewrite !tablePartition_month. intros He.
  assert (t1 = t2) as <-.
  { unfold partitionedTables in *. rewrite !elem_of_cons, elem_of_nil in *. by destruct_or!; subst. }
  split; [done|]. apply (f_equal Names.chars) in He. rewrite !Names.chars_app in He. apply app_inv_head in He. cbn in He. injection He as He.
  apply Names.split_last in He as [Hy Hm].
  - apply Names.chars_inj in Hy, Hm. apply Keys.itoa_pad_inj in Hy, Hm; [|done..]. destruct m1, m2; cbn in *; congruence.
  - intros Hin. pose proof (digits_pad 2 _ Hm1) as Hf. rewrite Forall_forall in Hf. by specialize (Hf _ Hin).
  - intros Hin. pose proof (digits_pad 2 _ Hm2) as Hf. rewrite Forall_forall in Hf. by specialize (Hf _ Hin).
Qed.

Lemma elem_values `{Countable K} {A} (m : gmap K A) (f : A → bool) :
  existsb f (snd <$> map_to_list m) = true ↔ ∃ k v, m !! k = Some v ∧ f v = true.
Proof.
  rewrite existsb_elem. split.
  - intros (v & ((k & v') & -> & Hin)%list_elem_of_fmap & Hf). apply elem_of_map_to_list in Hin. by exists k, v'.
  - intros (k & v & Hk & Hf). exists v. split; [|done]. apply list_elem_of_fmap. exists (k, v). split; [done|]. by apply elem_of_map_to_list.
Qed.

Lemma covers_iff db table u : covers db table u = true ↔
  ∃ name from to, db_partitions db !! name = Some (table, from, to) ∧ (from <= u < to)%Z.
Proof.
  unfold covers. rewrite elem_values. split.
  - intros (k & [[parent from] to] & Hk & Hc). breflect. subst. exists k, from, to. split; [done|lia].
  - intros (k & from & to & Hk & Hu). exists k, (table, from, to). split; [done|]. rewrite String.eqb_refl. cbn. apply andb_true_intro. split; [apply Z.leb_le; lia|apply Z.ltb_lt; lia].
Qed.

Lemma overlaps_none `{Uuids} db table t name p : well_kept db → table ∈ partitionedTables → (0 <= (month_of t).1)%Z → p = PartitionForTime t →
  name = tablePartition table p → db_partitions db !! name = None → overlaps db table (pt_Start p) (pt_End p) = false.
Proof.
  intros [Hp _ _] Ht Hy -> -> Hno. apply not_true_iff_false. unfold overlaps. rewrite elem_values. intros (k & [[parent from] to] & Hk & Ho). breflect.
  destruct (Hp _ _ Hk) as (tb & u & Htb & Hyu & -> & Heq). rewrite !pair_equal_spec in Heq. destruct Heq as [[-> ->] ->]. subst tb.
  assert (PartitionForTime u = PartitionForTime t) as He; [|by rewrite He, Hno in Hk].
  set (v := Z.max (pt_Start (PartitionForTime u)) (pt_Start (PartitionForTime t))).
  assert (Hu : in_partition v (PartitionForTime u)) by (pose proof (covered u) as []; unfold in_partition, v in *; lia).
  assert (Hv : in_partition v (PartitionForTime t)) by (pose proof (covered t) as []; unfold in_partition, v in *; lia).
  apply in_partition_same in Hu, Hv. congruence.
Qed.

Lemma runs_table : "test_runs" ∈ partitionedTables.
Proof. apply list_elem_of_here. Qed.
Lemma cases_table : "test_cases" ∈ partitionedTables.
Proof. apply list_elem_of_further, list_elem_of_here. Qed.

(** Making sure of a month's table. *)
Lemma create_ok `{Uuids} db table t p : well_kept db → table ∈ partitionedTables → (0 <= (month_of t).1)%Z → p = PartitionForTime t →
  ∃ db', exec_stmt (CreatePartition (tablePartition table p) table (pt_Start p) (pt_End p)) db = (Ok 0%Z, db') ∧ well_kept db' ∧
    db_runs db' = db_runs db ∧ db_cases db' = db_cases db ∧
    db_partitions db ⊆ db_partitions db' ∧ db_partitions db' !! tablePartition table p = Some (table, pt_Start p, pt_End p).
Proof.
  intros Hk Ht Hy Hpt. cbn [exec_stmt]. destruct (db_partitions db !! tablePartition table p) as [q|] eqn:E.
  - exists db. split_and!; try done. destruct (wk_parts _ Hk _ _ E) as (tb & u & Htb & Hyu & Hn & ->).
    assert (Hm : ∀ x, (0 <= (month_of x).2)%Z) by (intros x; pose proof (month_of_valid x) as []; lia).
    rewrite Hpt in E, Hn |- *. apply tablePartition_inj in Hn as [<- Hn]; [|done|done|by split|by split]. unfold PartitionForTime in *. by rewrite E, <- Hn.
  - rewrite (overlaps_none db table t _ p Hk Ht Hy Hpt eq_refl E). eexists. split; [reflexivity|]. cbn [db_partitions db_runs db_cases]. split_and!; try done.
    + destruct Hk as [Hp Hcs Hkeys]. split; [|done|done]. cbn [db_partitions]. intros name q. rewrite lookup_insert_Some. intros [[<- <-]|[_ Hq]]; [|by apply Hp]. exists table, t. by rewrite Hpt.
    + by apply insert_subseteq.
    + by rewrite lookup_insert_eq.
Qed.

Lemma exec_two `{Uuids} s1 s2 db db1 db2 a b : exec_stmt s1 db = (Ok a, db1) → exec_stmt s2 db1 = (Ok b, db2) → does (exec_each [s1; s2]) db None db2.
Proof. intros H1 H2. cbn [exec_each]. apply does_exec. rewrite H1. cbn [fst snd]. apply does_exec. by rewrite H2. Qed.
Lemma ensurePartition_both p :
  ensurePartition p = exec_each [CreatePartition (tablePartition "test_runs" p) "test_runs" (pt_Start p) (pt_End p);
                                 CreatePartition (tablePartition "test_cases" p) "test_cases" (pt_Start p) (pt_End p)].
Proof. reflexivity. Qed.

Lemma ensure_ok `{Uuids} db t p : well_kept db → (0 <= (month_of t).1)%Z → p = PartitionForTime t →
  ∃ db', does (ensurePartition p) db None db' ∧ well_kept db' ∧ db_runs db' = db_runs db ∧ db_cases db' = db_cases db ∧
    (∀ table u, table ∈ partitionedTables → in_partition u p → covers db' table u = true) ∧
    db_partitions db ⊆ db_partitions db'.
Proof.
  intros Hk Hy Hp. destruct (create_ok db "test_runs" t p Hk runs_table Hy Hp) as (db1 & He1 & Hk1 & Hr1 & Hc1 & Hs1 & Hl1).
  destruct (create_ok db1 "test_cases" t p Hk1 cases_table Hy Hp) as (db2 & He2 & Hk2 & Hr2 & Hc2 & Hs2 & Hl2).
  exists db2. split_and!; [|exact Hk2|by rewrite Hr2|by rewrite Hc2| |by etrans].
  - rewrite ensurePartition_both. by eapply exec_two.
  - intros table u Ht Hu. apply covers_iff. unfold partitionedTables in Ht. rewrite !elem_of_cons, elem_of_nil in Ht. destruct Ht as [->|[->|[]]].
    + eexists _, _, _. split; [|exact Hu]. eapply lookup_weaken; [exact Hl1|done].
    + eexists _, _, _. split; [exact Hl2|exact Hu].
Qed.

(** ** Saving a run *)

Section Saved.
Context `{MapOrder, Floats, Uuids}.

(** What history remembers of a row: times to the microsecond, metrics only when all
    are finite, and the comment there was. *)
Definition remembered (old : option RunColumns) (r : Row) : Row :=
  mkRow (rw_UID r) (rw_Name r) (rw_Namespace r) (rw_TestRef r) (rw_Phase r) (rw_Source r) (pg_time <$> rw_QueuedAt r) (pg_time <$> rw_StartedAt r)
    (pg_time (rw_FinishedAt r)) (rw_DurationMs r) (rw_ResolvedSpec r) (rw_Steps r) (rw_Stages r)
    (if finite_metrics (rw_Metrics r) then jsonb_float <$> rw_Metrics r else ∅) (rw_TestCounts r) (rw_ArtifactRefs r) (rw_Message r) (rw_Tags r)
    (rw_Config r) (rw_Tool r) (rw_ParentRun r) (rw_GitRevision r) (rw_GitCommit r) (old ≫= rw_Comment ∘ scan_row).

Lemma default_nullIfEmpty s : default "" (nullIfEmpty s) = s.
Proof. unfold nullIfEmpty. by destruct (String.eqb_spec s ""). Qed.
Lemma default_jsonb {A} (e : A) b v : (b = true → v = e) → default e (jsonbOrNil b true v) = v.
Proof. unfold jsonbOrNil. destruct b; [|done]. cbn. intros Hb. by rewrite Hb. Qed.
Lemma default_jsonb_map `{Countable K} {A} (m : gmap K A) (D : Decision (m = ∅)) : default ∅ (jsonbOrNil (bool_decide (m = ∅)) true m) = m.
Proof. apply default_jsonb. by intros ?%bool_decide_eq_true. Qed.
Lemma default_jsonb_list {A} (l : list A) : default [] (jsonbOrNil (length l =? 0)%nat true l) = l.
Proof. apply default_jsonb. intros ?%Nat.eqb_eq. by apply nil_length_inv. Qed.

Definition commented (c : option Comment) (x : Row) : Row :=
  mkRow (rw_UID x) (rw_Name x) (rw_Namespace x) (rw_TestRef x) (rw_Phase x) (rw_Source x) (rw_QueuedAt x) (rw_StartedAt x) (rw_FinishedAt x)
    (rw_DurationMs x) (rw_ResolvedSpec x) (rw_Steps x) (rw_Stages x) (rw_Metrics x) (rw_TestCounts x) (rw_ArtifactRefs x) (rw_Message x) (rw_Tags x)
    (rw_Config x) (rw_Tool x) (rw_ParentRun x) (rw_GitRevision x) (rw_GitCommit x) c.
Lemma scan_with_comment o c :
  scan_row (with_comment (c_comment o) (c_comment_by o) (c_comment_at o) c) = commented (rw_Comment (scan_row o)) (scan_row c).
Proof. destruct c. reflexivity. Qed.

Lemma scan_plain r : scan_row (stored (rw_UID r) (columns_of r)) = remembered None r.
Proof.
  destruct r as [uid name ns ref phase source queued started finished dur spec steps stages metrics counts arts msg tags config tool parent rev commit cm].
  unfold remembered, stored, columns_of. cbn [rw_UID rw_Name rw_Namespace rw_TestRef rw_Phase rw_Source rw_QueuedAt rw_StartedAt rw_FinishedAt rw_DurationMs
    rw_ResolvedSpec rw_Steps rw_Stages rw_Metrics rw_TestCounts rw_ArtifactRefs rw_Message rw_Tags rw_Config rw_Tool rw_ParentRun rw_GitRevision rw_GitCommit].
  cbn [c_uid c_name c_namespace c_test_ref c_phase c_source c_queued_at c_started_at c_finished_at c_duration_ms c_resolved_spec c_steps c_metrics
    c_test_counts c_artifact_refs c_message c_tags c_config c_tool c_parent_run c_git_revision c_git_commit c_stages c_comment c_comment_by c_comment_at].
  unfold scan_row.
  cbn [c_uid c_name c_namespace c_test_ref c_phase c_source c_queued_at c_started_at c_finished_at c_duration_ms c_resolved_spec c_steps c_metrics
    c_test_counts c_artifact_refs c_message c_tags c_config c_tool c_parent_run c_git_revision c_git_commit c_stages c_comment c_comment_by c_comment_at].
  rewrite !default_nullIfEmpty, !default_jsonb_map, !default_jsonb_list.
  assert (Hd : default 0%Z (nullIfZero dur) = dur) by (unfold nullIfZero; by destruct (Z.eqb_spec dur 0)).
  assert (Hm : default ∅ ((fun m : gmap string spec_float => jsonb_float <$> m) <$> jsonbOrNil (bool_decide (metrics = ∅)) (finite_metrics metrics) metrics)
    = if finite_metrics metrics then jsonb_float <$> metrics else ∅).
  { unfold jsonbOrNil. case_bool_decide as He; [rewrite He; by destruct (finite_metrics ∅)|]. by destruct (finite_metrics metrics). }
  rewrite Hd, Hm. reflexivity.
Qed.

(** Columns and back. *)
Lemma scan_stored old r : rw_Comment r = None →
  scan_row (upserted old (stored (rw_UID r) (columns_of r))) = remembered old r.
Proof.
  intros Hc. pose proof (scan_plain r) as Hplain.
  destruct old as [o|]; [|done]. cbn [upserted]. rewrite scan_with_comment, Hplain. reflexivity.
Qed.

Lemma RowFromRun_fields run row ws : RowFromRun (Some run) = Ok (row, ws) →
  rw_UID row = run_uid run ∧ rw_Comment row = None ∧ st_FinishedAt (r_Status run) = Some (rw_FinishedAt row) ∧ run_uid run ≠ "".
Proof.
  unfold RowFromRun. destruct (String.eqb_spec (run_uid run) ""); [done|]. destruct (st_FinishedAt _) as [f|]; [|done].
  destruct (if bool_decide _ then _ else _) as [metrics w]. intros [= <- <-]. done.
Qed.

(** The statements after the rows are computed. *)
Lemma save_does run row ws db :
  well_kept db → IsTerminal (run_phase run) = true → RowFromRun (Some run) = Ok (row, ws) → (0 <= (month_of (rw_FinishedAt row)).1)%Z →
  pg_uuid (run_uid run) = Some (run_uid run) →
  let c := stored (run_uid run) (columns_of row) in
  ∃ db', does (SaveFinished (Some run)) db None db' ∧ well_kept db' ∧ db_cases db' = db_cases db ∧
    db_runs db' = <[row_key c := upserted (db_runs db !! row_key c) c]> (db_runs db).
Proof.
  intros Hk Ht Hrow Hy Hu c. destruct (RowFromRun_fields run row ws Hrow) as (Huid & _ & _ & Hne).
  destruct (ensure_ok db _ _ Hk Hy eq_refl) as (db1 & Hens & Hk1 & Hr1 & Hc1 & Hcov & _).
  assert (Hup : exec_stmt (UpsertRun (columns_of row)) db1
    = (Ok 1%Z, mkDB (db_partitions db1) (<[row_key c := upserted (db_runs db !! row_key c) c]> (db_runs db)) (db_cases db))).
  { cbn [exec_stmt]. change (c_uid (columns_of row)) with (rw_UID row). rewrite Huid, Hu. fold c.
    rewrite (Hcov "test_runs" (c_finished_at c) runs_table (pg_time_covered _)). by rewrite Hr1, Hc1. }
  exists (mkDB (db_partitions db1) (<[row_key c := upserted (db_runs db !! row_key c) c]> (db_runs db)) (db_cases db)).
  split; [|split; [|done]].
  - unfold SaveFinished. rewrite Ht, Hrow. cbn beta iota zeta delta [negb]. eapply does_bind; [exact Hens|]. apply does_exec. rewrite Hup. done.
  - destruct Hk1 as [Hp Hcs Hkeys]. split; [done|cbn [db_cases]; by rewrite <- Hc1|]. cbn [db_runs]. intros k r. rewrite lookup_insert_Some. intros [[<- <-]|[_ Hr]].
    + destruct (db_runs db !! row_key c); cbn [upserted]; (split; [done|split; [exact Hu|split; [exact Hne|exact (pg_time_idem _)]]]).
    + apply Hkeys. by rewrite Hr1.
Qed.

Lemma filter_one {K A} `{Countable K} (m : gmap K A) (f : A → bool) k v :
  m !! k = Some v → f v = true → (∀ k' v', m !! k' = Some v' → f v' = true → k' = k) → List.filter f (snd <$> map_to_list m) = [v].
Proof.
  intros Hk Hf Hone. apply Permutation_singleton_r. rewrite <- (insert_delete_id m k v Hk).
  rewrite map_to_list_insert by (apply lookup_delete_eq). cbn. rewrite Hf. constructor.
  assert (Hnone : List.filter f (snd <$> map_to_list (delete k m)) = []); [|by rewrite Hnone].
  apply elem_of_nil_inv. intros x Hx. rewrite list_elem_of_In, List.filter_In, <- list_elem_of_In in Hx. destruct Hx as [Hx Hfx].
  apply list_elem_of_fmap in Hx as ([k' v'] & -> & Hin). apply elem_of_map_to_list in Hin. apply lookup_delete_Some in Hin as [Hne Hin].
  apply Hne. symmetry. by eapply Hone.
Qed.

Lemma stored_twice old c : upserted (Some (upserted old c)) c = upserted old c.
Proof. destruct old as [o|]; [reflexivity|]. by destruct c. Qed.

(** Saving, and Get after it. *)
Lemma save_get run row ws db :
  well_kept db → IsTerminal (run_phase run) = true → RowFromRun (Some run) = Ok (row, ws) → (0 <= (month_of (rw_FinishedAt row)).1)%Z →
  pg_uuid (run_uid run) = Some (run_uid run) →
  let k := (pg_time (rw_FinishedAt row), run_uid run) in
  (∀ k' c, db_runs db !! k' = Some c → c_uid c = run_uid run → k' = k) →
  ∃ db', does (SaveFinished (Some run)) db None db' ∧ well_kept db' ∧
    does (Get (run_uid run)) db' (Ok (remembered (db_runs db !! k) row)) db' ∧
    db_runs db' = <[k := upserted (db_runs db !! k) (stored (run_uid run) (columns_of row))]> (db_runs db).
Proof.
  intros Hk Ht Hrow Hy Hu k Hone. destruct (RowFromRun_fields run row ws Hrow) as (Huid & Hcm & _ & _).
  destruct (save_does run row ws db Hk Ht Hrow Hy Hu) as (db' & Hsave & Hk' & _ & Hr).
  set (c := stored (run_uid run) (columns_of row)) in *. change (row_key c) with k in Hr.
  exists db'. split; [done|]. split; [done|]. split; [|done].
  unfold Get. apply does_query. cbn [exec_query]. rewrite Hu. unfold rows.
  rewrite (filter_one (db_runs db') (of_uid (run_uid run)) k (upserted (db_runs db !! k) c)).
  - unfold does, first_row, scanRows. cbn [fmap list_fmap]. unfold c. rewrite <- Huid, scan_stored by done. done.
  - by rewrite Hr, lookup_insert_eq.
  - unfold of_uid. apply String.eqb_eq. by destruct (db_runs db !! k).
  - intros k' r'. rewrite Hr, lookup_insert_Some. intros [[<- _]|[_ Hr']]; [done|]. unfold of_uid. intros He%String.eqb_eq. by eapply Hone.
Qed.

(** C35: A finished run is saved and read back: in a database the store keeps, saving
    succeeds — its month's tables are made when they are not there — and Get
    returns the row it was projected to, times to the microsecond, with the comment
    the run had before; no other run's row changes; and saving it again changes
    nothing. *)
Theorem saved_run_read_back run row ws db :
  well_kept db → IsTerminal (run_phase run) = true → RowFromRun (Some run) = Ok (row, ws) → (0 <= (month_of (rw_FinishedAt row)).1)%Z →
  pg_uuid (run_uid run) = Some (run_uid run) →
  let k := (pg_time (rw_FinishedAt row), run_uid run) in
  (∀ k' c, db_runs db !! k' = Some c → c_uid c = run_uid run → k' = k) →
  ∃ db', does (SaveFinished (Some run)) db None db' ∧ well_kept db' ∧
    does (Get (run_uid run)) db' (Ok (remembered (db_runs db !! k) row)) db' ∧
    (∀ k', k' ≠ k → db_runs db' !! k' = db_runs db !! k') ∧
    ∃ db'', does (SaveFinished (Some run)) db' None db'' ∧ db_runs db'' = db_runs db'.
Proof.
  intros Hk Ht Hrow Hy Hu k Hone. destruct (save_get run row ws db Hk Ht Hrow Hy Hu Hone) as (db' & Hsave & Hk' & Hget & Hr). fold k in Hget, Hr.
  exists db'. split; [done|]. split; [done|]. split; [done|]. split.
  - intros k' Hne. by rewrite Hr, lookup_insert_ne.
  - destruct (save_does run row ws db' Hk' Ht Hrow Hy Hu) as (db'' & Hsave' & _ & _ & Hr''). set (c := stored (run_uid run) (columns_of row)) in *. change (row_key c) with k in Hr''.
    exists db''. split; [done|]. rewrite Hr'', Hr, lookup_insert_eq, stored_twice. by rewrite insert_insert_eq.
Qed.
End Saved.

(** ** Test cases *)

Section Cases.
Context `{MapOrder, Floats, Uuids}.

Definition case_key (c : CaseColumns) : string * Z * time := (cc_run_uid c, cc_idx c, cc_finished_at c).
Definition case_bad (c : TestCase) : bool := (k_Status c =? "failed")%string || (k_Status c =? "error")%string.

(** What history answers for a run's cases. *)
Definition case_row (run : TestRun) (finished : time) (c : TestCase) : CaseRow :=
  mkCaseRow c (Verdicts.CaseKey c) (run_uid run) (pg_time finished).

Lemma scan_case_stored run f i c : scan_case (stored_case (run_uid run) (case_columns run f i c)) = case_row run f c.
Proof.
  unfold scan_case, stored_case, case_columns, case_row.
  cbn [cc_suite cc_class cc_name cc_status cc_duration_ms cc_message cc_details cc_file cc_case_key cc_run_uid cc_finished_at].
  rewrite !default_nullIfEmpty. by destruct c.
Qed.

Lemma does_in_tx {A} (fail : string → A) (body : M A) db a w :
  (Effects.run pg body (db, Some db)).1 = (a, w) → does (in_tx fail body) db a w.1.
Proof.
  intros Hb. unfold in_tx, does. rewrite run_bind. cbn [Effects.run perform pg fst snd]. rewrite run_bind, Hb. reflexivity.
Qed.

(** COPY of rows whose keys are new. *)
Lemma copy_cases_ok cs : ∀ db u,
  Forall (fun c => cc_run_uid c = u ∧ covers db "test_cases" (pg_time (cc_finished_at c)) = true) cs → pg_uuid u = Some u →
  NoDup (cc_idx <$> cs) → (∀ i t, i ∈ cc_idx <$> cs → db_cases db !! (u, i, t) = None) →
  ∃ db', copy_cases cs db = Ok db' ∧ db_partitions db' = db_partitions db ∧ db_runs db' = db_runs db ∧
    ∀ k c, db_cases db' !! k = Some c ↔ db_cases db !! k = Some c ∨ (k = case_key c ∧ c ∈ stored_case u <$> cs).
Proof.
  induction cs as [|c cs IH]; intros db u Hc Hu Hnd Hnew; cbn [copy_cases].
  { exists db. split_and!; try done. intros k c. cbn. split; [by left|]. intros [?|[_ Hin]]; [done|by apply elem_of_nil in Hin]. }
  apply Forall_cons in Hc as [[Huid Hcov] Hc]. apply NoDup_cons in Hnd as [Hi Hnd]. rewrite Huid, Hu. cbv zeta. set (c' := stored_case u c).
  change (cc_finished_at c') with (pg_time (cc_finished_at c)). change (cc_idx c') with (cc_idx c). rewrite Hcov. cbn [negb].
  rewrite (Hnew _ _ (list_elem_of_here _ _)). set (k0 := (u, cc_idx c, pg_time (cc_finished_at c))).
  destruct (IH (mkDB (db_partitions db) (db_runs db) (<[k0:=c']> (db_cases db))) u) as (db' & Hcopy & Hp & Hr & Hl); [exact Hc|done|done| |].
  { intros i t Hin. cbn [db_cases]. rewrite lookup_insert_ne; [by apply Hnew, list_elem_of_further|]. unfold k0. intros [= <- _]. done. }
  exists db'. split_and!; [done|done|done|]. intros k x. rewrite Hl. cbn [db_cases]. rewrite lookup_insert_Some, fmap_cons, elem_of_cons.
  change k0 with (case_key c'). split.
  - intros [[[<- <-]|[_ ?]]|[? ?]]; auto.
  - intros [Hx|[-> [->|Hx]]]; [|by left; left|by right]. left. right. split; [|done]. intros <-.
    unfold case_key, c' in Hx. cbn in Hx. by rewrite (Hnew _ _ (list_elem_of_here _ _)) in Hx.
Qed.

Lemma case_rows_elem db c : c ∈ case_rows db ↔ ∃ k, db_cases db !! k = Some c.
Proof.
  unfold case_rows. rewrite list_elem_of_fmap. split.
  - intros ([k c'] & -> & Hin). exists k. by apply elem_of_map_to_list in Hin.
  - intros [k Hk]. exists (k, c). split; [done|]. by apply elem_of_map_to_list.
Qed.

Lemma filter_sorted {A} (R : A → A → Prop) (f : A → bool) xs : StronglySorted R xs → StronglySorted R (List.filter f xs).
Proof.
  induction 1 as [|x xs Hs IH Hx]; cbn; [constructor|]. destruct (f x); [|done]. constructor; [done|].
  rewrite Forall_forall in *. intros y Hy. apply Hx. rewrite list_elem_of_In, List.filter_In, <- list_elem_of_In in Hy. by destruct Hy.
Qed.

(** The rows a save leaves, in the reports' order. *)
Definition saved_columns (run : TestRun) (finished : time) (cases : list TestCase) : list CaseColumns :=
  stored_case (run_uid run) <$> imap (case_columns run finished) cases.

Lemma imap_sorted {A B} (R : B → B → Prop) (xs : list A) : ∀ g : nat → A → B,
  (∀ i j x y, i < j → R (g i x) (g j y)) → StronglySorted R (imap g xs).
Proof.
  induction xs as [|x xs IH]; intros g Hg; [constructor|]. cbn [imap]. constructor.
  - apply IH. intros i j y z Hij. apply Hg. lia.
  - apply Forall_forall. intros y (i & z & -> & _)%elem_of_lookup_imap. apply Hg. lia.
Qed.

Lemma sorted_weaken {A B} (f : A → B) (R : A → A → Prop) (R' : B → B → Prop) xs :
  (∀ x y, R x y → R' (f x) (f y)) → StronglySorted R xs → StronglySorted R' (f <$> xs).
Proof.
  intros Hr. induction 1 as [|x xs Hs IH Hx]; cbn; constructor; [done|]. apply Forall_fmap. eapply Forall_impl; [exact Hx|]. intros y. apply Hr.
Qed.

Lemma columns_sorted run f cases : StronglySorted (fun a b => (cc_idx a < cc_idx b)%Z) (imap (case_columns run f) cases).
Proof. apply imap_sorted. intros i j x y Hij. cbn. lia. Qed.

Lemma columns_nodup run f cases : NoDup (cc_idx <$> imap (case_columns run f) cases).
Proof.
  assert (Hs : StronglySorted Z.lt (cc_idx <$> imap (case_columns run f) cases)).
  { eapply sorted_weaken; [|apply columns_sorted]. done. }
  induction Hs as [|x xs Hs IH Hx]; constructor; [|done]. intros Hin. rewrite Forall_forall in Hx. specialize (Hx x Hin). lia.
Qed.

Lemma columns_of_run run f cases : Forall (fun c => cc_run_uid c = run_uid run ∧ cc_finished_at c = f) (imap (case_columns run f) cases).
Proof. apply Forall_forall. intros c (i & x & -> & _)%elem_of_lookup_imap. done. Qed.

Lemma filter_columns run f failedOnly cases : ∀ g : nat → nat,
  scan_case <$> List.filter (fun c => negb failedOnly || bad_case c) (stored_case (run_uid run) <$> imap (fun i => case_columns run f (g i)) cases)
  = case_row run f <$> List.filter (fun c => negb failedOnly || case_bad c) cases.
Proof.
  induction cases as [|c cs IH]; intros g; [done|]. cbn [imap]. specialize (IH (g ∘ S)).
  change (imap ((λ i, case_columns run f (g i)) ∘ S) cs) with (imap (fun i => case_columns run f ((g ∘ S) i)) cs).
  cbn [fmap list_fmap List.filter]. change (bad_case (stored_case (run_uid run) (case_columns run f (g 0) c))) with (case_bad c).
  destruct (_ || _); cbn [fmap list_fmap]; [|done]. rewrite scan_case_stored. by f_equal.
Qed.

Lemma strict_inj {A} (f : A → Z) xs x y : StronglySorted (fun a b => (f a < f b)%Z) xs → x ∈ xs → y ∈ xs → f x = f y → x = y.
Proof.
  induction 1 as [|z xs Hs IH Hz]; [by intros ?%elem_of_nil|]. rewrite Forall_forall in Hz. rewrite !elem_of_cons.
  intros [->|Hx] [->|Hy] He; [done|specialize (Hz _ Hy); lia|specialize (Hz _ Hx); lia|by apply IH].
Qed.
Lemma strict_nodup {A} (f : A → Z) xs : StronglySorted (fun a b => (f a < f b)%Z) xs → NoDup xs.
Proof. induction 1 as [|x xs Hs IH Hx]; constructor; [|done]. intros Hin. rewrite Forall_forall in Hx. specialize (Hx x Hin). lia. Qed.

(** A query sorts by the place in the reports; what a save left is in that order. *)
Lemma cases_in_order run f failedOnly cases db :
  (∀ c, cc_run_uid c = run_uid run → c ∈ case_rows db ↔ c ∈ saved_columns run f cases) → NoDup (case_rows db) →
  scan_cases (sort_by (fun a b => (cc_idx a <? cc_idx b)%Z)
    (List.filter (fun c => (cc_run_uid c =? run_uid run)%string && (negb failedOnly || bad_case c)) (case_rows db)))
  = case_row run f <$> List.filter (fun c => negb failedOnly || case_bad c) cases.
Proof.
  intros Hin Hnd. rewrite <- (filter_columns run f failedOnly cases id). unfold scan_cases. f_equal.
  change (stored_case (run_uid run) <$> imap (fun i => case_columns run f (id i)) cases) with (saved_columns run f cases).
  assert (Hstrict : StronglySorted (fun a b => (cc_idx a < cc_idx b)%Z) (saved_columns run f cases)) by (eapply sorted_weaken; [|apply columns_sorted]; done).
  assert (Hmine : ∀ c, c ∈ saved_columns run f cases → cc_run_uid c = run_uid run) by (intros c (c' & -> & _)%list_elem_of_fmap; done).
  assert (Hboth : ∀ c, c ∈ List.filter (fun c => (cc_run_uid c =? run_uid run)%string && (negb failedOnly || bad_case c)) (case_rows db)
    ↔ c ∈ List.filter (fun c => negb failedOnly || bad_case c) (saved_columns run f cases)).
  { intros c. rewrite !list_elem_of_In, !List.filter_In, <- !list_elem_of_In, andb_true_iff, String.eqb_eq. split.
    - intros (Hc & Hu & Hb). by rewrite <- Hin.
    - intros (Hc & Hb). pose proof (Hmine _ Hc). by rewrite Hin. }
  apply (StronglySorted_unique_strong (fun a b => (cc_idx b <? cc_idx a)%Z = false)).
  - intros x y Hx Hy Hxy Hyx. rewrite sort_by_elem, Hboth in Hx. rewrite list_elem_of_In, List.filter_In, <- list_elem_of_In in Hx, Hy.
    destruct Hx as [Hx _], Hy as [Hy _]. apply (strict_inj cc_idx _ _ _ Hstrict Hx Hy). lia.
  - apply sort_by_sorted. split; intros; lia.
  - apply filter_sorted. rewrite <- (list_fmap_id (saved_columns run f cases)). eapply sorted_weaken; [|exact Hstrict]. cbn. intros; lia.
  - rewrite sort_by_perm. apply NoDup_Permutation; [by apply NoDup_ListNoDup, List.NoDup_filter, NoDup_ListNoDup| |exact Hboth].
    apply NoDup_ListNoDup, List.NoDup_filter, NoDup_ListNoDup. by eapply strict_nodup.
Qed.

Lemma case_rows_nodup db : well_kept db → NoDup (case_rows db).
Proof.
  intros Hk. apply (NoDup_fmap_1 case_key). replace (case_key <$> case_rows db) with ((map_to_list (db_cases db)).*1); [apply NoDup_fst_map_to_list|].
  unfold case_rows. rewrite <- list_fmap_compose. apply list_fmap_ext. intros i [k c] Hin. cbn.
  apply list_elem_of_lookup_2, elem_of_map_to_list in Hin. by rewrite (wk_cases _ Hk _ _ Hin).
Qed.

Lemma save_cases_does run f cases db :
  well_kept db → st_FinishedAt (r_Status run) = Some f → run_uid run ≠ "" → (0 <= (month_of f).1)%Z → pg_uuid (run_uid run) = Some (run_uid run) →
  ∃ db', does (SaveTestCases run cases) db None db' ∧ well_kept db' ∧ db_runs db' = db_runs db ∧
    ∀ k c, db_cases db' !! k = Some c ↔
      (db_cases db !! k = Some c ∧ cc_run_uid c ≠ run_uid run) ∨ (k = case_key c ∧ c ∈ saved_columns run f cases).
Proof.
  intros Hk Hf Hne Hy Hu. destruct (ensure_ok db _ _ Hk Hy eq_refl) as (db1 & Hens & Hk1 & Hr1 & Hc1 & Hcov & _).
  set (db2 := mkDB (db_partitions db1) (db_runs db1) (filter (fun kc => kc.1.1.1 ≠ run_uid run) (db_cases db1))).
  destruct (copy_cases_ok (imap (case_columns run f) cases) db2 (run_uid run)) as (db3 & Hcopy & Hp3 & Hr3 & Hl3).
  - eapply Forall_impl; [apply columns_of_run|]. cbn. intros c [-> ->]. split; [done|].
    exact (Hcov "test_cases" (pg_time f) cases_table (pg_time_covered f)).
  - done.
  - apply columns_nodup.
  - intros i t _. cbn [db_cases db2]. apply map_lookup_filter_None_2. right. intros c _ Hn. by apply Hn.
  - exists db3. assert (Hl : ∀ k c, db_cases db3 !! k = Some c ↔
      (db_cases db !! k = Some c ∧ cc_run_uid c ≠ run_uid run) ∨ (k = case_key c ∧ c ∈ saved_columns run f cases)).
    { intros k c. rewrite Hl3. cbn [db_cases db2]. rewrite map_lookup_filter_Some, Hc1. cbn [fst snd]. split.
      - intros [[Hc Hn]|?]; [left|by right]. split; [done|]. by rewrite (wk_cases _ Hk _ _ Hc) in Hn.
      - intros [[Hc Hn]|?]; [left|by right]. split; [done|]. by rewrite (wk_cases _ Hk _ _ Hc). }
    split_and!; [| |by rewrite Hr3|exact Hl].
    + unfold SaveTestCases. rewrite Hf. destruct (String.eqb_spec (run_uid run) ""); [done|]. eapply does_bind; [exact Hens|]. cbn beta iota.
      apply (does_in_tx Some _ db1 None (db3, None)). rewrite run_bind. cbn [Effects.run perform pg fst snd exec_stmt]. rewrite Hu. fold db2.
      cbn [fst snd]. rewrite run_bind. cbn [Effects.run perform pg fst snd]. by rewrite Hcopy.
    + split.
      * rewrite Hp3. apply (wk_parts _ Hk1).
      * intros k c Hc. apply Hl in Hc as [[Hc _]|[-> _]]; [by apply (wk_cases _ Hk)|done].
      * rewrite Hr3. apply (wk_keys _ Hk1).
Qed.

(** A finished run's test cases, saved in whatever order of attempts, are read
    back: the cases last saved, all and only they, in the order of the reports, each
    as it was parsed; or, asked for the failed ones, those that failed.  Nothing of
    another run is touched. *)
Theorem cases_read_back run f earlier cases failedOnly db :
  well_kept db → st_FinishedAt (r_Status run) = Some f → run_uid run ≠ "" → (0 <= (month_of f).1)%Z →
  pg_uuid (run_uid run) = Some (run_uid run) → uuid_Parse (run_uid run) = true →
  ∃ db', does (_ ← SaveTestCases run earlier; SaveTestCases run cases) db None db' ∧ well_kept db' ∧ db_runs db' = db_runs db ∧
    does (RunCases (run_uid run) failedOnly) db' (Ok (case_row run f <$> List.filter (fun c => negb failedOnly || case_bad c) cases)) db' ∧
    (∀ k c, cc_run_uid c ≠ run_uid run → db_cases db' !! k = Some c ↔ db_cases db !! k = Some c).
Proof.
  intros Hk Hf Hne Hy Hu Hparse. destruct (save_cases_does run f earlier db Hk Hf Hne Hy Hu) as (db1 & Hs1 & Hk1 & Hr1 & Hl1).
  destruct (save_cases_does run f cases db1 Hk1 Hf Hne Hy Hu) as (db2 & Hs2 & Hk2 & Hr2 & Hl2).
  assert (Hmine : ∀ fs c, c ∈ saved_columns run f fs → cc_run_uid c = run_uid run) by (intros fs c (c' & -> & _)%list_elem_of_fmap; done).
  exists db2. split_and!; [by eapply does_bind|done|by rewrite Hr2| |].
  - unfold RunCases. rewrite Hparse. cbn [negb]. apply does_query. cbn [exec_query]. rewrite Hu. unfold does. cbn [Effects.run fst snd].
    rewrite (cases_in_order run f failedOnly cases db2); [done| |by apply case_rows_nodup].
    intros c Huid. rewrite case_rows_elem. split.
    + intros [k Hc]. by apply Hl2 in Hc as [[_ Hn]|[_ ?]].
    + intros Hc. exists (case_key c). apply Hl2. by right.
  - intros k c Hn. rewrite Hl2, Hl1. split.
    + intros [[[[? _]|[_ Hc]] _]|[_ Hc]]; [done|by apply Hmine in Hc..].
    + intros Hc. left. split; [|done]. by left.
Qed.
End Cases.

(** ** Listing history *)

Section Listing.
Context `{MapOrder, Floats, Uuids}.

(** What a filter asks of a row. *)
Definition text_ok (v : string) (col : option string) : bool := (v =? "")%string || bool_decide (col = Some v).
Definition time_ok (f : time → bool) (v : option time) : bool := match v with Some t => f (pg_time t) | None => true end.
Definition matches (f : Filter) (c : RunColumns) : bool :=
  text_ok (fl_TestRef f) (Some (c_test_ref c)) && text_ok (fl_Namespace f) (Some (c_namespace c)) && text_ok (fl_Phase f) (Some (c_phase c))
  && text_ok (fl_ParentRun f) (c_parent_run c) && text_ok (fl_Source f) (c_source c)
  && time_ok (fun t => (t <=? c_finished_at c)%Z) (fl_SinceInclusive f) && time_ok (fun t => (c_finished_at c <? t)%Z) (fl_UntilExclusive f).

(** Clauses that say [P] of a row, whatever arguments are appended. *)
Definition clauses_say (c : RunColumns) (ca : list cond * list arg) (P : bool) : Prop :=
  ∀ more, forallb (holds (ca.2 ++ more) c) ca.1 = P.

Lemma clause_lookup (args more : list arg) a : (args ++ a :: more) !! (length args + 1 - 1) = Some a.
Proof. rewrite Nat.add_sub, lookup_app_r, Nat.sub_diag by lia. done. Qed.

Lemma say_eq c col v ca P : clauses_say c ca P → clauses_say c (add_eq col v ca) (P && text_ok v (col_text col c)).
Proof.
  intros Hs more. unfold add_eq, text_ok. destruct (String.eqb_spec v "") as [|Hne]; cbn [orb]; [by rewrite andb_true_r|].
  cbn [fst snd]. rewrite <- app_assoc, forallb_app, Hs. f_equal. cbn [forallb app holds]. rewrite andb_true_r. unfold text_arg. rewrite clause_lookup.
  apply bool_decide_ext. split; [by intros [_ ?]|]. intros Hc. split; [by eexists|done].
Qed.

Lemma say_time c f g v ca P : clauses_say c ca P → (∀ args n, holds args c (f n) = match time_arg args n with Some t => g t | None => false end) →
  clauses_say c (add_time f v ca) (P && time_ok g v).
Proof.
  intros Hs Hf more. unfold add_time, time_ok. destruct v as [t|]; [|by rewrite andb_true_r].
  cbn [fst snd]. rewrite <- app_assoc, forallb_app, Hs. f_equal. cbn [forallb app]. rewrite andb_true_r, Hf. unfold time_arg. by rewrite clause_lookup.
Qed.

(** A cursor as the client sends it back. *)
Definition page_of (limit : Z) (cur : option (time * string)) : Page :=
  mkPage limit (from_option snd "" cur) (fst <$> cur).
(** A cursor taken from a row. *)
Definition good_cursor (cur : option (time * string)) : Prop :=
  match cur with Some (t, u) => pg_time t = t ∧ pg_uuid u = Some u ∧ u ≠ "" | None => True end.

Lemma list_clauses_say f limit cur c : good_cursor cur →
  forallb (holds (list_clauses f (page_of limit cur)).2 c) (list_clauses f (page_of limit cur)).1 = matches f c && after row_key cur c.
Proof.
  intros Hg. unfold list_clauses. set (ca := add_time _ _ _).
  assert (Hca : clauses_say c ca (matches f c)).
  { unfold ca, matches. apply say_time; [|done]. apply say_time; [|done]. do 4 (apply say_eq). unfold text_ok at 1. apply (say_eq c ColTestRef (fl_TestRef f) ([], []) true). done. }
  clearbody ca. unfold add_keyset, page_of. destruct cur as [[t u]|]; cbn [fmap option_fmap option_map pg_AfterFinishedAt pg_After from_option fst snd after].
  2: { specialize (Hca []). rewrite app_nil_r in Hca. by rewrite Hca, andb_true_r. }
  destruct Hg as (Ht & Hu & Hne). destruct (String.eqb_spec u "") as [|_]; [done|]. cbn [fst snd]. rewrite forallb_app, Hca. f_equal.
  cbn [forallb holds]. rewrite andb_true_r. unfold time_arg, text_arg. rewrite clause_lookup.
  replace (length ca.2 + 2 - 1) with (length ca.2 + 1) by lia.
  rewrite lookup_app_r, Nat.add_sub_swap, Nat.sub_diag by lia. cbn. by rewrite Hu, Ht.
Qed.

Lemma list_cursor_ok f limit cur : good_cursor cur →
  existsb (fun cd => match cd with Keyset _ m => bool_decide (text_arg (list_clauses f (page_of limit cur)).2 m ≫= pg_uuid = None) | _ => false end)
    (list_clauses f (page_of limit cur)).1 = false.
Proof.
  intros Hg. apply existsb_Forall. unfold list_clauses. set (ca := add_time _ _ _).
  assert (Hca : Forall (fun cd => match cd with Keyset _ _ => False | _ => True end) ca.1).
  { unfold ca, add_time, add_eq. repeat (case_match; cbn [fst snd]); repeat (apply Forall_app_2 || constructor); done. }
  clearbody ca. unfold add_keyset, page_of. destruct cur as [[t u]|]; cbn [fmap option_fmap option_map pg_AfterFinishedAt pg_After from_option fst snd].
  2: { eapply Forall_impl; [exact Hca|]. by intros []. }
  destruct Hg as (Ht & Hu & Hne). destruct (String.eqb_spec u "") as [|_]; [done|]. cbn [fst snd]. apply Forall_app_2; [eapply Forall_impl; [exact Hca|]; by intros []|].
  constructor; [|constructor]. apply bool_decide_eq_false. unfold text_arg. replace (length ca.2 + 2 - 1) with (length ca.2 + 1) by lia.
  rewrite lookup_app_r, Nat.add_sub_swap, Nat.sub_diag by lia. cbn. by rewrite Hu.
Qed.

Definition page_size (limit : Z) : nat := Z.to_nat (clampLimit limit).
Lemma page_size_pos limit : 0 < page_size limit.
Proof. unfold page_size, clampLimit, DefaultPageLimit, MaxPageLimit. destruct (Z.leb_spec limit 0); lia. Qed.

Definition listed (f : Filter) (db : DB) : list RunColumns := List.filter (matches f) (rows db).

Lemma list_does f limit cur db : good_cursor cur →
  does (Store.List f (page_of limit cur)) db (Ok (scanRows (page row_key (page_size limit) cur (listed f db)))) db.
Proof.
  intros Hg. unfold Store.List. apply does_query. cbn [exec_query]. rewrite list_cursor_ok by done. unfold does. cbn [Effects.run fst snd]. do 4 f_equal.
  unfold page. f_equal. f_equal. unfold listed. induction (rows db) as [|c cs IH]; [done|]. cbn [List.filter].
  rewrite list_clauses_say by done. destruct (matches f c); cbn [andb List.filter]; [|done]. destruct (after row_key cur c); by rewrite IH.
Qed.

(** A client walks the listing: the next page starts after the last row of this one,
    and a page that is not full ends it.  The database is what it is at each page. *)
Definition entry_key (r : Row) : time * string := (rw_FinishedAt r, rw_UID r).
Fixpoint list_walk (f : Filter) (limit : Z) (cur : option (time * string)) (dbs : list DB) : list (list Row) :=
  match dbs with
  | [] => []
  | db :: dbs =>
      match (Effects.run pg (Store.List f (page_of limit cur)) (db, None)).1.1 with
      | Err _ => []
      | Ok p => p :: if (length p <? page_size limit)%nat then [] else list_walk f limit (next_cursor entry_key cur p) dbs
      end
  end.

Lemma scanRows_key cs : entry_key <$> scanRows cs = row_key <$> cs.
Proof. unfold scanRows. by rewrite <- list_fmap_compose. Qed.
Lemma next_cursor_scan cur p : next_cursor entry_key cur (scanRows p) = next_cursor row_key cur p.
Proof. unfold next_cursor, scanRows. rewrite fmap_last. by destruct (last p). Qed.

Lemma rows_elem db c : c ∈ rows db ↔ ∃ k, db_runs db !! k = Some c.
Proof.
  unfold rows. rewrite list_elem_of_fmap. split.
  - intros ([k c'] & -> & Hin). exists k. by apply elem_of_map_to_list in Hin.
  - intros [k Hk]. exists (k, c). split; [done|]. by apply elem_of_map_to_list.
Qed.

Lemma kept_row db c : well_kept db → c ∈ rows db → good_cursor (Some (row_key c)).
Proof.
  intros Hk Hc. apply rows_elem in Hc as [k Hc]. destruct (wk_keys _ Hk _ _ Hc) as (-> & Hu & Hne & Ht). by split_and!.
Qed.

Lemma listed_elem f db c : c ∈ listed f db ↔ c ∈ rows db ∧ matches f c = true.
Proof. unfold listed. by rewrite list_elem_of_In, List.filter_In, <- list_elem_of_In. Qed.

Lemma listed_key f db k : well_kept db →
  k ∈ row_key <$> listed f db ↔ ∃ c, db_runs db !! k = Some c ∧ matches f c = true.
Proof.
  intros Hk. rewrite list_elem_of_fmap. setoid_rewrite listed_elem. setoid_rewrite rows_elem. split.
  - intros (c & -> & (k' & Hc) & Hm). destruct (wk_keys _ Hk _ _ Hc) as [-> _]. by exists c.
  - intros (c & Hc & Hm). exists c. destruct (wk_keys _ Hk _ _ Hc) as [Heq _]. eauto.
Qed.

Lemma listed_nodup f db : well_kept db → NoDup (row_key <$> listed f db).
Proof.
  intros Hk. assert (Hrows : NoDup (row_key <$> rows db)).
  { replace (row_key <$> rows db) with ((map_to_list (db_runs db)).*1); [apply NoDup_fst_map_to_list|].
    unfold rows. rewrite <- list_fmap_compose. apply list_fmap_ext. intros i [k c] Hin. cbn.
    apply list_elem_of_lookup_2, elem_of_map_to_list in Hin. by destruct (wk_keys _ Hk _ _ Hin) as [-> _]. }
  revert Hrows. unfold listed. induction (rows db) as [|c cs IH]; [done|]. cbn [List.filter fmap list_fmap].
  intros [Hn Hd]%NoDup_cons. destruct (matches f c); [|by apply IH]. cbn. constructor; [|by apply IH].
  intros (c' & He & Hin)%list_elem_of_fmap. apply Hn. rewrite He. apply list_elem_of_fmap_2.
  rewrite list_elem_of_In, List.filter_In, <- list_elem_of_In in Hin. by destruct Hin.
Qed.

Lemma next_good f db n cur : well_kept db → good_cursor cur → good_cursor (next_cursor row_key cur (page row_key n cur (listed f db))).
Proof.
  intros Hk Hg. unfold next_cursor. destruct (last _) as [c|] eqn:E; [|done]. apply last_Some in E as [xs E].
  apply (kept_row db); [done|]. assert (Hc : c ∈ page row_key n cur (listed f db)) by (rewrite E; apply elem_of_app; right; apply list_elem_of_here).
  by apply page_elem in Hc as [[Hc _]%listed_elem _].
Qed.

(** The walk over the API is the walk over the tables. *)
Lemma list_walk_pages f limit dbs : ∀ cur, good_cursor cur → Forall well_kept dbs →
  list_walk f limit cur dbs = scanRows <$> walk row_key (page_size limit) cur (listed f <$> dbs).
Proof.
  induction dbs as [|db dbs IH]; intros cur Hg Hk; [done|]. apply Forall_cons in Hk as [Hdb Hk]. cbn [list_walk].
  pose proof (list_does f limit cur db Hg) as Hd. unfold does in Hd. rewrite Hd. cbn [fst].
  rewrite next_cursor_scan. unfold scanRows at 2. rewrite length_fmap. cbn [fmap list_fmap walk]. f_equal. unfold clampLimit.
  destruct (_ <? _)%nat; [done|]. apply IH; [by apply next_good|done].
Qed.

Lemma entry_keys pages : entry_key <$> concat (scanRows <$> pages) = row_key <$> concat pages.
Proof.
  induction pages as [|p ps IH]; [done|]. cbn [fmap list_fmap concat]. rewrite !fmap_app. f_equal; [apply scanRows_key|exact IH].
Qed.

(** C37: A listing walked page by page, while runs are saved and removed between the
    pages: the entries of all pages come newest first with none twice; once a page is
    short, every run that was there and matched all along is on one; and
    over a history that does not change a short page comes within as many pages as
    there are matching runs, and one. *)
Theorem history_pages f limit dbs :
  dbs ≠ [] → Forall well_kept dbs →
  let pages := list_walk f limit None dbs in
  pages ≠ [] ∧ StronglySorted (fun a b => newest a b = true) (entry_key <$> concat pages) ∧
  (∀ k, (∃ p, last pages = Some p ∧ length p < page_size limit) →
     Forall (fun db => ∃ c, db_runs db !! k = Some c ∧ matches f c = true) dbs → k ∈ entry_key <$> concat pages) ∧
  (∀ db, dbs = replicate (S (length (listed f db))) db → ∃ p, last pages = Some p ∧ length p < page_size limit).
Proof.
  intros Hne Hk pages. unfold pages. rewrite list_walk_pages by done. set (ps := walk _ _ _ _).
  assert (Hnd : Forall (fun t => NoDup (row_key <$> t)) (listed f <$> dbs)).
  { apply Forall_fmap. eapply Forall_impl; [exact Hk|]. intros db. apply listed_nodup. }
  assert (Hlast : ∀ q, last ps = Some q → last (scanRows <$> ps) = Some (scanRows q)) by (intros q Hq; by rewrite fmap_last, Hq).
  split_and!.
  - destruct dbs; [done|]. by cbn.
  - rewrite entry_keys. pose proof (walk_strict row_key (page_size limit) _ None Hnd) as Hs. fold ps in Hs.
    induction Hs as [|x xs Hs IH Hx]; cbn; constructor; [done|]. apply Forall_fmap. exact Hx.
  - intros k (p & Hp & Hlen) Hin. rewrite entry_keys. rewrite fmap_last in Hp. destruct (last ps) as [q|] eqn:E; [|done]. injection Hp as <-.
    apply walk_complete; [apply page_size_pos| |done|exists q; split; [exact E|unfold scanRows in Hlen; by rewrite length_fmap in Hlen]].
    apply Forall_fmap. rewrite Forall_forall in *. intros db Hdb. cbn. split; [by apply listed_nodup, Hk|]. apply listed_key; auto.
  - intros db ->. assert (Hdb : well_kept db) by (by apply Forall_cons in Hk as [? _]).
    destruct (walk_ends row_key (page_size limit) (listed f db) None (page_size_pos _) (listed_nodup f db Hdb)) as (q & Hq & Hlen).
    exists (scanRows q). split; [apply Hlast; unfold ps; by rewrite fmap_replicate|]. unfold scanRows. by rewrite length_fmap.
Qed.
End Listing.

(** ** Deleting a run *)

Section Deleting.
Context `{MapOrder, Floats, Uuids}.

Definition without_run (uid : string) (db : DB) : DB :=
  mkDB (db_partitions db) (filter (fun kc => kc.1.2 ≠ uid) (db_runs db)) (filter (fun kc => kc.1.1.1 ≠ uid) (db_cases db)).
Definition has_run (uid : string) (db : DB) : Prop := ∃ c, c ∈ rows db ∧ c_uid c = uid.

Lemma without_run_kept uid db : well_kept db → well_kept (without_run uid db).
Proof.
  intros [Hp Hc Hk]. split; [exact Hp|intros k c Hin; apply map_lookup_filter_Some in Hin as [Hin _]; by apply Hc|].
  intros k c Hin. apply map_lookup_filter_Some in Hin as [Hin _]. by apply Hk.
Qed.

Lemma runs_counted uid db : well_kept db → (0 < size (filter (fun kc : (time * string) * RunColumns => kc.1.2 = uid) (db_runs db)))%nat ↔ has_run uid db.
Proof.
  intros Hk. split.
  - intros Hs. destruct (map_choose (filter (fun kc : (time * string) * RunColumns => kc.1.2 = uid) (db_runs db))) as (k & c & Hc).
    { intros He. rewrite He, map_size_empty in Hs. lia. }
    apply map_lookup_filter_Some in Hc as [Hc Hu]. exists c. rewrite rows_elem. split; [by exists k|]. by destruct (wk_keys _ Hk _ _ Hc) as [-> _].
  - intros (c & [k Hc]%rows_elem & Hu). apply Nat.neq_0_lt_0. rewrite map_size_empty_iff. intros He.
    assert (Hin : filter (fun kc : (time * string) * RunColumns => kc.1.2 = uid) (db_runs db) !! k = Some c); [|by rewrite He in Hin].
    apply map_lookup_filter_Some. split; [done|]. by destruct (wk_keys _ Hk _ _ Hc) as [-> _].
Qed.

Lemma without_get uid db : pg_uuid uid = Some uid → well_kept db → does (Get uid) (without_run uid db) (Err ErrNotFound) (without_run uid db).
Proof.
  intros Hu Hk. unfold Get. apply does_query. cbn [exec_query]. rewrite Hu.
  replace (List.filter (of_uid uid) (rows (without_run uid db))) with (@nil RunColumns); [done|]. symmetry. apply elem_of_nil_inv. intros c.
  rewrite list_elem_of_In, List.filter_In, <- list_elem_of_In, rows_elem. unfold of_uid. rewrite String.eqb_eq. intros [[k Hc] Huid].
  apply map_lookup_filter_Some in Hc as [Hc Hn]. apply Hn. by destruct (wk_keys _ Hk _ _ Hc) as [-> _].
Qed.

Lemma without_cases uid failedOnly db : pg_uuid uid = Some uid → uuid_Parse uid = true → well_kept db →
  does (RunCases uid failedOnly) (without_run uid db) (Ok []) (without_run uid db).
Proof.
  intros Hu Hparse Hk. unfold RunCases. rewrite Hparse. cbn [negb]. apply does_query. cbn [exec_query]. rewrite Hu.
  replace (List.filter (fun c => (cc_run_uid c =? uid)%string && (negb failedOnly || bad_case c)) (case_rows (without_run uid db))) with (@nil CaseColumns); [done|].
  symmetry. apply elem_of_nil_inv. intros c.
  rewrite list_elem_of_In, List.filter_In, <- list_elem_of_In, case_rows_elem, andb_true_iff, String.eqb_eq. intros [[k Hc] [Huid _]].
  apply map_lookup_filter_Some in Hc as [Hc Hn]. apply Hn. by rewrite (wk_cases _ Hk _ _ Hc).
Qed.

(** A run deleted from history is gone with its test cases, and nothing of another
    run is; one that is not there is reported, and nothing changes. *)
Theorem delete_forgets uid failedOnly db :
  uuid_Parse uid = true → pg_uuid uid = Some uid → well_kept db →
  (has_run uid db → ∃ db', does (Delete uid) db None db' ∧ well_kept db' ∧
     does (Get uid) db' (Err ErrNotFound) db' ∧ does (RunCases uid failedOnly) db' (Ok []) db' ∧
     (∀ k, k.2 ≠ uid → db_runs db' !! k = db_runs db !! k) ∧ (∀ k, k.1.1 ≠ uid → db_cases db' !! k = db_cases db !! k)) ∧
  (~ has_run uid db → does (Delete uid) db (Some ErrNotFound) db).
Proof.
  intros Hparse Hu Hk. pose proof (runs_counted uid db Hk) as Hcount. split; intros Hrun.
  - exists (without_run uid db). apply Hcount in Hrun. split_and!; [|by apply without_run_kept|by apply without_get|by apply without_cases| |].
    + unfold Delete. rewrite Hparse. cbn [negb]. apply (does_in_tx Some _ db None (without_run uid db, None)).
      rewrite run_bind. cbn [Effects.run perform pg fst snd exec_stmt]. rewrite Hu. cbn [fst snd].
      destruct (Z.eqb_spec (Z.of_nat (size (filter (fun kc : (time * string) * RunColumns => kc.1.2 = uid) (db_runs db)))) 0); [lia|].
      rewrite run_bind. cbn [Effects.run perform pg fst snd exec_stmt]. by rewrite Hu.
    + intros k Hn. apply option_eq. intros c. cbn [db_runs without_run]. rewrite map_lookup_filter_Some. split; [by intros [? _]|by split].
    + intros k Hn. apply option_eq. intros c. cbn [db_cases without_run]. rewrite map_lookup_filter_Some. split; [by intros [? _]|by split].
  - unfold Delete. rewrite Hparse. cbn [negb]. eapply (does_in_tx Some _ db (Some ErrNotFound) (db, _)).
    rewrite run_bind. cbn [Effects.run perform pg fst snd exec_stmt]. rewrite Hu. cbn [fst snd].
    destruct (Z.eqb_spec (Z.of_nat (size (filter (fun kc : (time * string) * RunColumns => kc.1.2 = uid) (db_runs db)))) 0); [reflexivity|].
    exfalso. apply Hrun, Hcount. lia.
Qed.
End Deleting.

(** ** A small history *)

Definition demo_floats : Floats := {| ParseFloat s := if (s =? "NaN")%string then Ok S754_nan else Ok (float_of_int 12); fmt_float _ := "12" |}.
Definition demo_uuids : Uuids := {| uuid_Parse _ := true; pg_uuid u := Some u |}.
Definition demo_finished (uid : string) (at_ : time) (metrics : strmap) : TestRun :=
  mkTestRun (mkMeta ("run-" +:+ uid) "ns" uid ∅ ∅ 1 None [] []) (mkRunSpec "t" ∅ None ∅ "cron" None None)
    (mkStatus PhasePassed None (Some 5%Z) (Some at_) 7 "" "k6" NoSnapshot ∅ [] [] metrics None "" None "").
Definition demo_row (run : TestRun) : Row :=
  match RowFromRun (H := list_order) (H0 := demo_floats) (Some run) with
  | Ok (row, _) => row
  | Err _ => scan_row (mkRunColumns "" "" "" "" "" None None None 0 None None None None None None None None None None None None None None None None None)
  end.
Definition demo_empty : DB := mkDB ∅ ∅ ∅.
Lemma demo_empty_kept : well_kept (H := demo_uuids) demo_empty.
Proof. by split. Qed.

Definition demo_smoke : TestRun := demo_finished "u1" 1700000000000000123 {[ "p95" := "12" ]}.

Lemma saved_run_read_back_witness :
  ∃ db', does (H := demo_uuids) (SaveFinished (H := list_order) (H0 := demo_floats) (Some demo_smoke)) demo_empty None db' ∧ well_kept (H := demo_uuids) db'.
Proof.
  destruct (saved_run_read_back (H := list_order) (H0 := demo_floats) (H1 := demo_uuids) demo_smoke (demo_row demo_smoke) [] demo_empty
    demo_empty_kept eq_refl eq_refl ltac:(vm_compute; discriminate) eq_refl) as (db' & Hs & Hk & _).
  - intros k c Hc. cbn [db_runs demo_empty] in Hc. by rewrite lookup_empty in Hc.
  - exists db'. exact (conj Hs Hk).
Defined.

(** Two runs of one test, in different months. *)
Definition demo_later : TestRun := demo_finished "u2" 1710000000000000000 {[ "p95" := "12" ]}.
Definition demo_reported : list TestCase := [mkTestCase "s" "" "a" "passed" 1 "" "" ""; mkTestCase "s" "" "b" "failed" 2 "no" "" ""].
Definition demo_saves : M (option string) :=
  _ ← SaveFinished (H := list_order) (H0 := demo_floats) (Some demo_smoke);
  _ ← SaveTestCases demo_smoke demo_reported;
  SaveFinished (H := list_order) (H0 := demo_floats) (Some demo_later).
Definition demo_db : DB := (Effects.run (pg (H := demo_uuids)) demo_saves (demo_empty, None)).1.2.1.

Lemma demo_db_kept : well_kept (H := demo_uuids) demo_db.
Proof.
  destruct (save_does (H := list_order) (H0 := demo_floats) (H1 := demo_uuids) demo_smoke (demo_row demo_smoke) [] demo_empty
    demo_empty_kept eq_refl eq_refl ltac:(vm_compute; discriminate) eq_refl) as (db1 & Hs1 & Hk1 & _).
  destruct (save_cases_does (H1 := demo_uuids) demo_smoke 1700000000000000123 demo_reported db1 Hk1 eq_refl ltac:(discriminate) ltac:(vm_compute; discriminate) eq_refl)
    as (db2 & Hs2 & Hk2 & _).
  destruct (save_does (H := list_order) (H0 := demo_floats) (H1 := demo_uuids) demo_later
    (demo_row demo_later) [] db2
    Hk2 eq_refl eq_refl ltac:(vm_compute; discriminate) eq_refl) as (db3 & Hs3 & Hk3 & _).
  assert (Hs : does (H := demo_uuids) demo_saves demo_empty None db3).
  { eapply does_bind; [exact Hs1|]. eapply does_bind; [exact Hs2|exact Hs3]. }
  assert (Hd : demo_db = db3) by exact (f_equal (fun x => x.2.1) Hs). by rewrite Hd.
Qed.
Definition demo_any : Filter := mkRowFilter "" "" "" "" "" None None.

Example demo_history :
  List.map (List.map entry_key) (list_walk (H1 := demo_uuids) demo_any 1 None [demo_db; demo_db; demo_db])
  = [[(1710000000000000000%Z, "u2")]; [(1700000000000000000%Z, "u1")]; []].
Proof. vm_compute. reflexivity. Qed.

Lemma history_pages_witness :
  (1700000000000000000%Z, "u1") ∈ entry_key <$> concat (list_walk (H1 := demo_uuids) demo_any 1 None [demo_db; demo_db; demo_db]).
Proof.
  apply (history_pages (H1 := demo_uuids) demo_any 1 [demo_db; demo_db; demo_db]).
  - discriminate.
  - do 3 (apply Forall_cons_2; [exact demo_db_kept|]). by apply Forall_nil_2.
  - exists []. split; [vm_compute; reflexivity|vm_compute; lia].
  - assert (Hrow : ∃ c, db_runs demo_db !! (1700000000000000000%Z, "u1") = Some c ∧ matches demo_any c = true); [|by do 3 (apply Forall_cons_2; [exact Hrow|]); apply Forall_nil_2].
    eexists. split; vm_compute; reflexivity.
Defined.

Definition demo_cases : list TestCase := [mkTestCase "s" "" "c" "passed" 1 "" "" ""; mkTestCase "s" "" "d" "error" 1 "" "" ""].
Lemma cases_read_back_witness : ∃ db',
  does (H := demo_uuids) (RunCases (H1 := demo_uuids) "u1" true) db' (Ok (case_row demo_smoke 1700000000000000123 <$> drop 1 demo_cases)) db'.
Proof.
  destruct (cases_read_back (H1 := demo_uuids) demo_smoke 1700000000000000123 [] demo_cases true demo_db demo_db_kept eq_refl
    ltac:(discriminate) ltac:(vm_compute; discriminate) eq_refl eq_refl) as (db' & _ & _ & _ & Hc & _).
  exists db'. exact Hc.
Defined.

Lemma demo_has_u1 : has_run "u1" demo_db.
Proof.
  assert (Hin : existsb (fun c => (c_uid c =? "u1")%string) (rows demo_db) = true) by (vm_compute; reflexivity).
  apply existsb_elem in Hin as (c & Hc & Hu). exists c. by apply String.eqb_eq in Hu.
Qed.
Lemma delete_forgets_witness : ∃ db', does (H := demo_uuids) (Delete (H1 := demo_uuids) "u1") demo_db None db' ∧
  does (H := demo_uuids) (Get "u1") db' (Err ErrNotFound) db'.
Proof.
  destruct (delete_forgets (H1 := demo_uuids) "u1" false demo_db eq_refl eq_refl demo_db_kept) as [Hd _].
  destruct (Hd demo_has_u1) as (db' & Hdel & _ & Hget & _). exists db'. exact (conj Hdel Hget).
Defined.
End StoreSpec.
