(* ===== verification/Triggers.v ===== *)
(** * Triggers: testtrigger_controller.go, _gate.go, _conditions.go, _informer.go,
    _selector.go, and api/v1alpha1/testtrigger_types.go

    A TestTrigger watches a kind of resource; an event on a matching object opens a
    gate, which fires a TestRun once its delay has passed and its conditions hold, or
    expires.  The event loop and the gates run in one goroutine ([triggerRunnable]),
    so the gate manager's state is passed from one step to the next; the informer
    manager's state is changed by the reconciler under its mutex.  A [range] over the
    map of gates takes its order as an argument.  [Lib] is what the code calls of
    regexp and of apimachinery's label selectors. *)
From S2P Require Import Prelude Api GoLib Calendar Ops Effects.

Module Triggers.
Import Ops Calendar.

(** ** Resources *)

Record TriggerResourceSelector := mkResSel {
  rsl_Name : string; rsl_NameRegex : string; rsl_Namespace : string; rsl_NamespaceRegex : string;
  rsl_LabelSelector : option k8s_value }.

Record TriggerCondition := mkCond { tcn_Type : string; tcn_Status : string; tcn_Reason : string; tcn_TTL : Z }.

Record TriggerConditionSpec := mkCondSpec {
  cds_Conditions : list TriggerCondition; cds_Timeout : Z; cds_Delay : Z }.

Record TriggerTestSelector := mkTestSel {
  tsl_Name : string; tsl_Namespace : string; tsl_LabelSelector : option k8s_value }.

Record TriggerActionParameters := mkActionParams { tap_Config : strmap; tap_Tags : strmap }.

Record TestTriggerSpec := mkTriggerSpec {
  tg_Resource : string;
  tg_ResourceSelector : option TriggerResourceSelector;
  tg_Event : string;
  tg_ConditionSpec : option TriggerConditionSpec;
  tg_Action : string;
  tg_Execution : string;
  tg_ConcurrencyPolicy : string;
  tg_TestSelector : option TriggerTestSelector;
  tg_ActionParameters : option TriggerActionParameters }.

Record TestTrigger := mkTrigger { tr_Meta : ObjectMeta; tr_Spec : TestTriggerSpec; tr_LastFiredAt : option time }.

Definition trigger_key (t : TestTrigger) : string * string := (om_Namespace (tr_Meta t), om_Name (tr_Meta t)).

(** group, version, kind *)
Abbreviation GVK := (string * string * string)%type (only parsing).
Definition GVK_String (g : GVK) : string := g.1.1 +:+ "/" +:+ g.1.2 +:+ ", Kind=" +:+ g.2.

(** A decoded JSON value ([any]). *)
Inductive json :=
| JNull | JBool (b : bool) | JNumber (n : string) | JString (s : string)
| JArray (xs : list json) | JObject (fields : list (string * json)).

(** unstructured.Unstructured: its accessors' answers and its content. *)
Record Unstructured := mkObj { un_GVK : GVK; un_Namespace : string; un_Name : string; un_Labels : strmap; un_Object : json }.

(** What is called of regexp ([MatchString]) and of
    [metav1.LabelSelectorAsSelector] with [Selector.Matches]. *)
Class Lib := {
  Lib_regexp :: Regexp;
  LabelSelectorAsSelector : k8s_value → result string (strmap → bool);
}.

(** ** Conditions *)

Record conditionEntry := mkEntry { ce_Type : string; ce_Status : string; ce_Reason : string; ce_LastTransitionTime : time }.

Definition field (k : string) (v : json) : option json :=
  match v with JObject fs => snd <$> List.find (fun f => (f.1 =? k)%string) fs | _ => None end.
Definition string_field (k : string) (v : json) : string :=
  match field k v with Some (JString s) => s | _ => "" end.

Definition condition_entry (item : json) : list conditionEntry :=
  match item with
  | JObject _ =>
      [mkEntry (string_field "type" item) (string_field "status" item) (string_field "reason" item)
         (match field "lastTransitionTime" item with
          | Some (JString v) => default zero_time (ParseRFC3339 v)
          | _ => zero_time
          end)]
  | _ => []
  end.

Definition extractConditions (obj : option Unstructured) : list conditionEntry :=
  match obj with
  | None => []
  | Some obj =>
      match field "status" (un_Object obj) ≫= field "conditions" with
      | Some (JArray raw) => flat_map condition_entry raw
      | _ => []
      end
  end.

Definition findCondition (cs : list conditionEntry) (typ : string) : option conditionEntry :=
  find_first (fun c => (ce_Type c =? typ)%string) cs.

Definition condition_met (got : list conditionEntry) (now : time) (want : TriggerCondition) : bool :=
  match findCondition got (tcn_Type want) with
  | None => false
  | Some c =>
      (ce_Status c =? tcn_Status want)%string
      && ((tcn_Reason want =? "")%string || (ce_Reason c =? tcn_Reason want)%string)
      && negb ((0 <? tcn_TTL want)%Z && (time_sub now (ce_LastTransitionTime c) <? tcn_TTL want * second)%Z)
  end.

Definition ConditionsMet (spec : option TriggerConditionSpec) (obj : option Unstructured) (now : time) : bool :=
  match spec with
  | None => true
  | Some spec => forallb (condition_met (extractConditions obj) now) (cds_Conditions spec)
  end.

(** ** The resource selector *)

Section Selector.
Context `{Lib}.

Definition match_regex (what re value : string) : result string bool :=
  if (re =? "")%string then Ok true
  else match MatchString re value with
       | Ok m => Ok m
       | Err e => Err (what +:+ " " +:+ quote re +:+ ": " +:+ e)
       end.

Definition match_exact (want got : string) : bool := (want =? "")%string || (got =? want)%string.

Definition match_labels (sel : option k8s_value) (labels : strmap) : result string bool :=
  match sel with
  | None => Ok true
  | Some s => match LabelSelectorAsSelector s with Ok f => Ok (f labels) | Err e => Err ("labelSelector: " +:+ e) end
  end.

(** The checks run in turn: the first that fails or does not match decides. *)
Fixpoint all_match (checks : list (result string bool)) : result string bool :=
  match checks with
  | [] => Ok true
  | Ok true :: checks => all_match checks
  | Ok false :: _ => Ok false
  | Err e :: _ => Err e
  end.

Definition SelectorMatches (sel : option TriggerResourceSelector) (obj : option Unstructured) : result string bool :=
  match sel, obj with
  | None, _ => Ok true
  | _, None => Ok false
  | Some sel, Some obj =>
      all_match
        [Ok (match_exact (rsl_Name sel) (un_Name obj));
         match_regex "nameRegex" (rsl_NameRegex sel) (un_Name obj);
         Ok (match_exact (rsl_Namespace sel) (un_Namespace obj));
         match_regex "namespaceRegex" (rsl_NamespaceRegex sel) (un_Namespace obj);
         match_labels (rsl_LabelSelector sel) (un_Labels obj)]
  end.
End Selector.

(** ** Operations *)

Inductive TOp : Type → Type :=
| GetTrigger (k : string * string) : TOp (result error TestTrigger)
| ListTriggers : TOp (result string (list TestTrigger))
| UpdateTriggerStatus (t : TestTrigger) : TOp (option error)
| KindsFor (resource : string) : TOp (result string (list GVK))
| ListTestNames (ns : string) (selector : strmap → bool) : TOp (result string (list string))
| ListRunsIn (ns : string) : TOp (result string (list TestRun))
| CreateGenerated (generateName : string) (run : TestRun) : TOp (result string string)
| StartInformer (g : GVK) : TOp (option string)
| StopInformer (g : GVK) : TOp unit
| Eventf (t : TestTrigger) (type reason message : string) : TOp unit
| ClockNow : TOp time
| TriggerFiresTotalInc (kind : string) : TOp unit.

Abbreviation T := (prog TOp) (only parsing).

(** ** The informer manager *)

Record InformerState := mkInformers {
  im_Started : bool;
  im_regs : gmap (string * string) GVK;
  im_refs : gmap GVK Z }.

Definition newInformers : InformerState := mkInformers false ∅ ∅.

Definition releaseLocked (g : GVK) (s : InformerState) : T InformerState :=
  match im_refs s !! g with
  | None => Ret s
  | Some n =>
      if (n - 1 <=? 0)%Z then
        _ ← perform (StopInformer g);
        Ret (mkInformers (im_Started s) (im_regs s) (delete g (im_refs s)))
      else Ret (mkInformers (im_Started s) (im_regs s) (<[g := (n - 1)%Z]> (im_refs s)))
  end.

Definition startInformerLocked (g : GVK) (s : InformerState) : T (result string InformerState) :=
  if negb (im_Started s) then Ret (Err "informerManager: Start not called before Register")
  else
    e ← perform (StartInformer g);
    match e with
    | Some e => Ret (Err e)
    | None => Ret (Ok (mkInformers (im_Started s) (im_regs s) (<[g := 0%Z]> (im_refs s))))
    end.

(** The new registration, counted: [im.gvkRuns[gvk].refs++]. *)
Definition attach (k : string * string) (g : GVK) (s : InformerState) : InformerState :=
  mkInformers (im_Started s) (<[k := g]> (im_regs s)) (alter (Z.add 1) g (im_refs s)).

Definition Register (k : string * string) (g : GVK) (s : InformerState) : T (InformerState * option string) :=
  let registered (s : InformerState) :=
    match im_refs s !! g with
    | Some _ => Ret (attach k g s, None)
    | None =>
        r ← startInformerLocked g s;
        match r with
        | Err e => Ret (s, Some e)
        | Ok s => Ret (attach k g s, None)
        end
    end in
  match im_regs s !! k with
  | Some prev =>
      if bool_decide (prev = g) then Ret (s, None)
      else
        s ← releaseLocked prev s;
        registered (mkInformers (im_Started s) (delete k (im_regs s)) (im_refs s))
  | None => registered s
  end.

Definition Unregister (k : string * string) (s : InformerState) : T InformerState :=
  match im_regs s !! k with
  | None => Ret s
  | Some g => releaseLocked g (mkInformers (im_Started s) (delete k (im_regs s)) (im_refs s))
  end.

Definition Start (s : InformerState) : InformerState := mkInformers true (im_regs s) (im_refs s).

Fixpoint stop_all (gs : list GVK) : T unit :=
  match gs with [] => Ret tt | g :: gs => _ ← perform (StopInformer g); stop_all gs end.

Definition Stop (s : InformerState) : T InformerState :=
  _ ← stop_all (fst <$> map_to_list (im_refs s));
  Ret (mkInformers (im_Started s) ∅ ∅).

(** ** The reconciler of triggers *)

Definition shortcutDeploymentGVK : GVK := ("apps", "v1", "Deployment").
Definition shortcutPodGVK : GVK := ("", "v1", "Pod").

Definition resolveGVK (resource : string) : T (result string GVK) :=
  let s := ToLower (TrimSpace resource) in
  if (s =? "")%string then Ret (Err "spec.resource is empty")
  else if (s =? "deployment")%string || (s =? "deployments")%string then Ret (Ok shortcutDeploymentGVK)
  else if (s =? "pod")%string || (s =? "pods")%string then Ret (Ok shortcutPodGVK)
  else
    kinds ← perform (KindsFor s);
    match kinds with
    | Err e => Ret (Err e)
    | Ok [] => Ret (Err ("no GVK for " +:+ quote resource))
    | Ok (k :: _) => Ret (Ok k)
    end.

Definition triggerRetry : duration := (30 * second)%Z.

Definition Reconcile (req : string * string) (s : InformerState) : T (InformerState * result string Result) :=
  g ← perform (GetTrigger req);
  match g with
  | Err e =>
      if is_kind ENotFound e then s ← Unregister req s; Ret (s, Ok no_requeue)
      else Ret (s, Err (e_Text e))
  | Ok t =>
      match om_DeletionTimestamp (tr_Meta t) with
      | Some _ => s ← Unregister req s; Ret (s, Ok no_requeue)
      | None =>
          r ← resolveGVK (tg_Resource (tr_Spec t));
          match r with
          | Err e =>
              _ ← perform (Eventf t "Warning" "InvalidResource"
                             ("cannot resolve spec.resource " +:+ quote (tg_Resource (tr_Spec t)) +:+ ": " +:+ e));
              Ret (s, Ok (requeue_after triggerRetry))
          | Ok gvk =>
              '(s, e) ← Register req gvk s;
              match e with
              | Some e =>
                  _ ← perform (Eventf t "Warning" "InformerRegistration"
                                 ("cannot start informer for " +:+ GVK_String gvk +:+ ": " +:+ e));
                  Ret (s, Err e)
              | None => Ret (s, Ok no_requeue)
              end
          end
      end
  end.

(** ** The gates *)

Record gate := mkGate { gt_Trigger : TestTrigger; gt_Target : Unstructured; gt_EventTime : time }.

(** trigger, GVK, target *)
Abbreviation gateKey := ((string * string) * string * (string * string))%type (only parsing).

Definition gateKeyFor (g : gate) : gateKey :=
  (trigger_key (gt_Trigger g), GVK_String (un_GVK (gt_Target g)), (un_Namespace (gt_Target g), un_Name (gt_Target g))).

Inductive OutcomeKind := OutcomeFired | OutcomeFireError | OutcomeExpired | OutcomeSkipped.
Definition kind_string (k : OutcomeKind) : string :=
  match k with
  | OutcomeFired => "fired" | OutcomeFireError => "fired-error"
  | OutcomeExpired => "expired" | OutcomeSkipped => "skipped-concurrency"
  end.

Record gateOutcome := mkOutcome {
  go_Kind : OutcomeKind; go_Key : gateKey; go_Trigger : TestTrigger; go_EventTime : time; go_Message : string }.

Record gateManager := mkGates { gm_gates : gmap gateKey gate; gm_outcomes : list gateOutcome; gm_outcomeLimit : nat }.

Definition newGateManager : gateManager := mkGates ∅ [] 512.

Definition Enqueue (g : gate) (m : gateManager) : gateManager :=
  mkGates (<[gateKeyFor g := g]> (gm_gates m)) (gm_outcomes m) (gm_outcomeLimit m).

(** The history, its oldest half dropped when it outgrows the limit. *)
Definition append_outcome (limit : nat) (outcomes : list gateOutcome) (oc : gateOutcome) : list gateOutcome :=
  let out := outcomes ++ [oc] in
  if (limit <? length out)%nat then drop (length out / 2) out else out.

Definition appendOutcomeLocked (oc : gateOutcome) (m : gateManager) : T gateManager :=
  _ ← perform (TriggerFiresTotalInc (kind_string (go_Kind oc)));
  Ret (mkGates (gm_gates m) (append_outcome (gm_outcomeLimit m) (gm_outcomes m) oc) (gm_outcomeLimit m)).

Definition remove_gate (k : gateKey) (m : gateManager) : gateManager :=
  mkGates (delete k (gm_gates m)) (gm_outcomes m) (gm_outcomeLimit m).

Definition FireSkipped (k : gateKey) (t : TestTrigger) (eventTime : time) (reason : string) (m : gateManager) : T gateManager :=
  appendOutcomeLocked (mkOutcome OutcomeSkipped k t eventTime reason) (remove_gate k m).

Definition gateDelay (g : gate) : Z :=
  match tg_ConditionSpec (tr_Spec (gt_Trigger g)) with Some c => cds_Delay c | None => 0%Z end.
Definition gateTimeout (g : gate) : Z :=
  match tg_ConditionSpec (tr_Spec (gt_Trigger g)) with Some c => cds_Timeout c | None => 0%Z end.

(** ** Firing *)

Definition SourceTrigger : string := "trigger".
Definition TriggerConcurrencyForbid : string := "forbid".
Definition LabelTriggerName : string := "kubetest.io/trigger-name".
Definition LabelTriggerFor : string := "kubetest.io/triggered-for-test".
Definition AnnotationTriggerTarget : string := "kubetest.io/trigger-target".
Definition AnnotationTriggerEvent : string := "kubetest.io/trigger-event".

(** nil, [errGateAlreadyHandled], or another error *)
Inductive FireResult := FireOk | FireHandled | FireFailed (e : string).

Section Fire.
Context `{Lib}.

Definition resolveTestTarget (t : TestTrigger) : T (result string (string * string)) :=
  match tg_TestSelector (tr_Spec t) with
  | None => Ret (Err "spec.testSelector is required to fire a TestRun")
  | Some sel =>
      let ns := if (tsl_Namespace sel =? "")%string then om_Namespace (tr_Meta t) else tsl_Namespace sel in
      if negb (tsl_Name sel =? "")%string then Ret (Ok (tsl_Name sel, ns))
      else match tsl_LabelSelector sel with
           | None => Ret (Err "spec.testSelector must set name or labelSelector")
           | Some ls =>
               match LabelSelectorAsSelector ls with
               | Err e => Ret (Err ("testSelector.labelSelector: " +:+ e))
               | Ok f =>
                   l ← perform (ListTestNames ns f);
                   match l with
                   | Err e => Ret (Err ("list Tests: " +:+ e))
                   | Ok [] => Ret (Err ("no Tests match testSelector.labelSelector in namespace " +:+ quote ns))
                   | Ok (n :: _) => Ret (Ok (n, ns))
                   end
               end
           end
  end.

Definition active_for (testName : string) (run : TestRun) : bool :=
  (rs_TestRef (r_Spec run) =? testName)%string && negb (IsTerminalPhase (run_phase run)).

Definition hasActiveRunForTest (ns testName : string) : T (result string bool) :=
  l ← perform (ListRunsIn ns);
  match l with Err e => Ret (Err e) | Ok runs => Ret (Ok (existsb (active_for testName) runs)) end.

Definition buildTestRun (g : gate) (testName testNS : string) : TestRun :=
  let t := gt_Trigger g in
  let '(config, tags) := match tg_ActionParameters (tr_Spec t) with Some p => (tap_Config p, tap_Tags p) | None => (∅, ∅) end in
  mkTestRun
    (mkMeta "" testNS "" {[ LabelTriggerName := om_Name (tr_Meta t); LabelTriggerFor := testName ]}
       {[ AnnotationTriggerTarget := un_Namespace (gt_Target g) +:+ "/" +:+ un_Name (gt_Target g);
          AnnotationTriggerEvent := tg_Event (tr_Spec t) ]}
       zero_time None [] [])
    (mkRunSpec testName config None tags SourceTrigger None None)
    zeroStatus.

Definition updateTriggerLastFiredAt (t : TestTrigger) : T unit :=
  f ← perform (GetTrigger (trigger_key t));
  match f with
  | Err _ => Ret tt
  | Ok fresh =>
      now ← perform ClockNow;
      _ ← perform (UpdateTriggerStatus (mkTrigger (tr_Meta fresh) (tr_Spec fresh) (Some now)));
      Ret tt
  end.

(** The firing itself, once the concurrency policy allows it. *)
Definition create_run (g : gate) (testName testNS : string) : T FireResult :=
  let t := gt_Trigger g in
  r ← perform (CreateGenerated (testName +:+ "-trigger-") (buildTestRun g testName testNS));
  match r with
  | Err e => Ret (FireFailed ("create TestRun for trigger " +:+ om_Namespace (tr_Meta t) +:+ "/" +:+ om_Name (tr_Meta t) +:+ ": " +:+ e))
  | Ok name =>
      _ ← perform (Eventf t "Normal" "Fired"
                     ("TestTrigger fired: created TestRun " +:+ testNS +:+ "/" +:+ name +:+ " for Test " +:+ quote testName));
      _ ← updateTriggerLastFiredAt t;
      Ret FireOk
  end.

Definition fireTestRun (g : gate) (m : gateManager) : T (gateManager * FireResult) :=
  let t := gt_Trigger g in
  r ← resolveTestTarget t;
  match r with
  | Err e => _ ← perform (Eventf t "Warning" "TestSelectorError" e); Ret (m, FireFailed e)
  | Ok (testName, testNS) =>
      a ← (if (ToLower (tg_ConcurrencyPolicy (tr_Spec t)) =? TriggerConcurrencyForbid)%string
           then hasActiveRunForTest testNS testName else Ret (Ok false));
      match a with
      | Err e => Ret (m, FireFailed e)
      | Ok true =>
          m ← FireSkipped (gateKeyFor g) t (gt_EventTime g)
                ("concurrencyPolicy=forbid: prior active run for Test " +:+ quote testName) m;
          _ ← perform (Eventf t "Normal" "Skipped"
                         ("trigger fire skipped: prior active TestRun for Test " +:+ quote testName));
          Ret (m, FireHandled)
      | Ok false => r ← create_run g testName testNS; Ret (m, r)
      end
  end.

(** ** Evaluating the gates *)

Definition elapsed (g : gate) (now : time) : duration := time_sub now (gt_EventTime g).

Definition evaluate_gate (now : time) (k : gateKey) (g : gate) (m : gateManager) (results : list gateOutcome)
    : T (gateManager * list gateOutcome) :=
  let delay := (gateDelay g * second)%Z in
  let timeout := (gateTimeout g * second)%Z in
  let oc kind msg := mkOutcome kind k (gt_Trigger g) (gt_EventTime g) msg in
  if (elapsed g now <? delay)%Z then Ret (m, results)
  else if ConditionsMet (tg_ConditionSpec (tr_Spec (gt_Trigger g))) (Some (gt_Target g)) now then
    '(m, r) ← fireTestRun g m;
    match r with
    | FireHandled => Ret (m, results)
    | FireFailed e => m ← appendOutcomeLocked (oc OutcomeFireError e) m; Ret (m, results ++ [oc OutcomeFireError e])
    | FireOk => m ← appendOutcomeLocked (oc OutcomeFired "") (remove_gate k m); Ret (m, results ++ [oc OutcomeFired ""])
    end
  else if (0 <? timeout)%Z && (delay + timeout <? elapsed g now)%Z then
    let o := oc OutcomeExpired "conditions not met before timeout" in
    m ← appendOutcomeLocked o (remove_gate k m); Ret (m, results ++ [o])
  else Ret (m, results).

Fixpoint evaluate_gates (now : time) (snapshot : list (gateKey * gate)) (m : gateManager) (results : list gateOutcome)
    : T (gateManager * list gateOutcome) :=
  match snapshot with
  | [] => Ret (m, results)
  | (k, g) :: snapshot =>
      '(m, results) ← evaluate_gate now k g m results;
      evaluate_gates now snapshot m results
  end.

(** [order]: the pending gates in the order [range] happens to visit the map. *)
Definition Evaluate (order : list (gateKey * gate)) (m : gateManager) : T (gateManager * list gateOutcome) :=
  now ← perform ClockNow;
  evaluate_gates now order m [].

(** ** Events *)

Record informerEvent := mkEvent { ie_Kind : string; ie_GVK : GVK; ie_Obj : Unstructured }.

Fixpoint matching_triggers (gvk : GVK) (event : string) (ts : list TestTrigger) : T (list TestTrigger) :=
  match ts with
  | [] => Ret []
  | t :: ts =>
      if negb (tg_Event (tr_Spec t) =? event)%string then matching_triggers gvk event ts
      else
        r ← resolveGVK (tg_Resource (tr_Spec t));
        rest ← matching_triggers gvk event ts;
        Ret (match r with Ok g => if bool_decide (g = gvk) then t :: rest else rest | Err _ => rest end)
  end.

Definition listMatchingTriggers (gvk : GVK) (event : string) : T (result string (list TestTrigger)) :=
  l ← perform ListTriggers;
  match l with
  | Err e => Ret (Err e)
  | Ok ts => ts ← matching_triggers gvk event ts; Ret (Ok ts)
  end.

Fixpoint open_gates (ev : informerEvent) (now : time) (ts : list TestTrigger) (m : gateManager) : T gateManager :=
  match ts with
  | [] => Ret m
  | t :: ts =>
      match SelectorMatches (tg_ResourceSelector (tr_Spec t)) (Some (ie_Obj ev)) with
      | Err e => _ ← perform (Eventf t "Warning" "SelectorError" e); open_gates ev now ts m
      | Ok false => open_gates ev now ts m
      | Ok true => open_gates ev now ts (Enqueue (mkGate t (ie_Obj ev) now) m)
      end
  end.

Definition handleEvent (ev : informerEvent) (m : gateManager) : T gateManager :=
  l ← listMatchingTriggers (ie_GVK ev) (ie_Kind ev);
  match l with
  | Err _ => Ret m
  | Ok triggers => now ← perform ClockNow; open_gates ev now triggers m
  end.

End Fire.

End Triggers.
