(* ===== verification/TriggersSpec.v ===== *)
(** * Properties of the triggers

    What one evaluation of the gates does to each of them and which runs it
    creates; and the informers: one per watched kind, as long as some trigger uses
    it. *)
From S2P Require Import Prelude Api GoLib Ops Effects Triggers.

Module TriggersSpec.
Import Ops Triggers.

(** ** Gates *)

Section Gates.
Context `{L : Lib}.

(** A gate is waiting for its delay or its conditions, ready, or overdue. *)
Inductive gate_state := Waiting | Ready | Overdue.

Definition state_of (now : time) (g : gate) : gate_state :=
  if (elapsed g now <? gateDelay g * second)%Z then Waiting
  else if ConditionsMet (tg_ConditionSpec (tr_Spec (gt_Trigger g))) (Some (gt_Target g)) now then Ready
  else if (0 <? gateTimeout g * second)%Z && (gateDelay g * second + gateTimeout g * second <? elapsed g now)%Z
  then Overdue else Waiting.

(** What an evaluation makes of a gate. *)
Inductive fate := Kept | Fired (testName testNS : string) | Skipped | FailedFire (e : string) | Expired.

Definition fate_allowed (now : time) (g : gate) (f : fate) : Prop :=
  match state_of now g with
  | Waiting => f = Kept
  | Overdue => f = Expired
  | Ready => match f with Fired _ _ | Skipped | FailedFire _ => True | _ => False end
  end.

Definition stays (f : fate) : bool := match f with Kept | FailedFire _ => true | _ => false end.

Definition fate_runs (g : gate) (f : fate) : list TestRun :=
  match f with Fired n ns => [buildTestRun g n ns] | _ => [] end.

Definition fate_outcome (k : gateKey) (g : gate) (f : fate) : list gateOutcome :=
  let oc kind msg := mkOutcome kind k (gt_Trigger g) (gt_EventTime g) msg in
  match f with
  | Fired _ _ => [oc OutcomeFired ""]
  | FailedFire e => [oc OutcomeFireError e]
  | Expired => [oc OutcomeExpired "conditions not met before timeout"]
  | Kept | Skipped => []
  end.

(** The runs whose creation was accepted. *)
Definition created_by (e : event TOp) : list TestRun :=
  match e with Ev (CreateGenerated _ run) r => match r with Ok _ => [run] | Err _ => [] end | _ => [] end.
Definition created (tr : list (event TOp)) : list TestRun := flat_map created_by tr.

Lemma created_app tr1 tr2 : created (tr1 ++ tr2) = created tr1 ++ created tr2.
Proof. apply flat_map_app. Qed.

(** Operations that create nothing. *)
Definition creates_nothing (R : Type) (o : TOp R) : bool := match o with CreateGenerated _ _ => false | _ => true end.

Lemma creates_nothing_trace {A} (p : prog TOp A) tr a :
  guards (only creates_nothing) tt p (fun _ _ => True) → exec p tr a → created tr = [].
Proof.
  intros Hg Hex. destruct (only_sound _ p (fun _ => True) _ _ Hg Hex) as [Hall _].
  clear Hex. induction Hall as [|[R o r] tr' He _ IH]; [done|]. unfold created in *. cbn [flat_map]. rewrite IH, app_nil_r.
  clear -He. revert r He. by destruct o.
Qed.

Lemma updateTriggerLastFiredAt_quiet t : guards (only creates_nothing) tt (updateTriggerLastFiredAt t) (fun _ _ => True).
Proof. unfold updateTriggerLastFiredAt. repeat gstep. all: done. Qed.

Lemma resolveTestTarget_quiet t : guards (only creates_nothing) tt (resolveTestTarget t) (fun _ _ => True).
Proof. unfold resolveTestTarget. repeat gstep. all: done. Qed.

(** No run of the Test listed there is active. *)
Definition none_active (tr : list (event TOp)) (testName testNS : string) : Prop :=
  ∃ runs, Ev (ListRunsIn testNS) (Ok runs) ∈ tr ∧ Forall (fun r => active_for testName r = false) runs.

Definition forbids (g : gate) : bool :=
  (ToLower (tg_ConcurrencyPolicy (tr_Spec (gt_Trigger g))) =? TriggerConcurrencyForbid)%string.

Lemma create_run_inv g n ns tr r :
  exec (create_run g n ns) tr r →
  (r = FireOk ∧ created tr = [buildTestRun g n ns]) ∨ (∃ e, r = FireFailed e ∧ created tr = []).
Proof.
  unfold create_run. intros (c & tr1 & -> & Hex)%exec_perform_bind_inv. destruct c as [name|e].
  - apply exec_perform_bind_inv in Hex as ([] & tr2 & -> & Hex).
    apply exec_bind_inv in Hex as (t1 & t2 & [] & -> & Hq%creates_nothing_trace & [-> ->]%exec_ret_inv);
      [|apply updateTriggerLastFiredAt_quiet].
    left. split; [done|]. cbn. change (flat_map created_by (t1 ++ [])) with (created (t1 ++ [])). by rewrite app_nil_r, Hq.
  - apply exec_ret_inv in Hex as [-> ->]. right. by eexists.
Qed.

(** The result of a firing, as a fate. *)
Definition fire_fate (r : FireResult) (n ns : string) : fate :=
  match r with FireOk => Fired n ns | FireHandled => Skipped | FireFailed e => FailedFire e end.

Lemma fireTestRun_inv g m tr m' r :
  exec (fireTestRun g m) tr (m', r) →
  ∃ n ns, created tr = fate_runs g (fire_fate r n ns) ∧
    gm_gates m' = (match r with FireHandled => delete (gateKeyFor g) (gm_gates m) | _ => gm_gates m end) ∧
    (r = FireOk → forbids g = true → none_active tr n ns).
Proof.
  unfold fireTestRun. intros (t1 & t2 & rt & -> & Hq & Hex)%exec_bind_inv.
  apply creates_nothing_trace in Hq; [|apply resolveTestTarget_quiet]. rewrite created_app, Hq. cbn [app].
  destruct rt as [[n ns]|e].
  2: { apply exec_perform_bind_inv in Hex as ([] & tr2 & -> & [-> [= -> ->]]%exec_ret_inv). by exists "", "". }
  exists n, ns. apply exec_bind_inv in Hex as (t3 & t4 & a & -> & Ha & Hex).
  assert (Hact : created t3 = [] ∧ (a = Ok false → forbids g = true → none_active t3 n ns)).
  { fold (forbids g) in Ha. destruct (forbids g).
    - unfold hasActiveRunForTest in Ha. apply exec_perform_bind_inv in Ha as (l & t5 & -> & Ha).
      destruct l as [runs|e]; apply exec_ret_inv in Ha as [-> ->]; (split; [done|]); [|done].
      intros [= Hex'] _. exists runs. split; [by left|]. apply Forall_forall. intros run Hrun.
      apply not_true_is_false. intros Htrue. enough (existsb (active_for n) runs = true) by congruence.
      apply existsb_exists. exists run. by rewrite <- list_elem_of_In.
    - by apply exec_ret_inv in Ha as [-> ->]. }
  destruct Hact as [Hc Hnone]. rewrite created_app, Hc. cbn [app]. destruct a as [[]|e].
  - apply exec_bind_inv in Hex as (t5 & t6 & m1 & -> & Hs & Hex).
    unfold FireSkipped, appendOutcomeLocked in Hs. apply exec_perform_bind_inv in Hs as ([] & t7 & -> & [-> ->]%exec_ret_inv).
    apply exec_perform_bind_inv in Hex as ([] & t8 & -> & [-> [= -> ->]]%exec_ret_inv). done.
  - apply exec_bind_inv in Hex as (t5 & t6 & fr & -> & Hcr & [-> [= -> ->]]%exec_ret_inv).
    rewrite app_nil_r. apply create_run_inv in Hcr as [[-> ->]|(e & -> & ->)]; (split; [done|]); (split; [done|]); [|done].
    intros _ Hf. destruct (Hnone eq_refl Hf) as (runs & Hin & Hall). exists runs. split; [set_solver|done].
  - by apply exec_ret_inv in Hex as [-> [= -> ->]].
Qed.

(** A fate, with what it tells of the trace. *)
Definition fate_seen (tr : list (event TOp)) (g : gate) (f : fate) : Prop :=
  match f with Fired n ns => forbids g = true → none_active tr n ns | _ => True end.

Lemma fate_seen_mono tr tr' g f : tr ⊆ tr' → fate_seen tr g f → fate_seen tr' g f.
Proof.
  intros Hsub. destruct f; try done. cbn. intros H Hf. destruct (H Hf) as (runs & ? & ?). exists runs. set_solver.
Qed.

Lemma evaluate_gate_inv now g m results tr m' results' :
  exec (evaluate_gate now (gateKeyFor g) g m results) tr (m', results') →
  ∃ f, fate_allowed now g f ∧ fate_seen tr g f ∧ created tr = fate_runs g f ∧
    gm_gates m' = (if stays f then gm_gates m else delete (gateKeyFor g) (gm_gates m)) ∧
    results' = results ++ fate_outcome (gateKeyFor g) g f.
Proof.
  unfold evaluate_gate, fate_allowed, state_of.
  destruct (elapsed g now <? gateDelay g * second)%Z.
  { intros [-> [= -> ->]]%exec_ret_inv. exists Kept. by rewrite app_nil_r. }
  destruct (ConditionsMet _ _ _).
  - intros (t1 & t2 & [m1 r] & -> & (n & ns & Hc & Hg & Hnone)%fireTestRun_inv & Hex)%exec_bind_inv.
    exists (fire_fate r n ns). split; [by destruct r|].
    assert (Hs : ∀ t, fate_seen (t1 ++ t) g (fire_fate r n ns)).
    { intros t. destruct r; try done. cbn. intros Hf. destruct (Hnone eq_refl Hf) as (runs & ? & ?). exists runs. set_solver. }
    rewrite created_app, Hc. destruct r; cbn [fire_fate stays fate_outcome] in *.
    + apply exec_bind_inv in Hex as (t3 & t4 & m2 & -> & Ha & [-> [= -> ->]]%exec_ret_inv).
      unfold appendOutcomeLocked in Ha. apply exec_perform_bind_inv in Ha as ([] & t5 & -> & [-> ->]%exec_ret_inv).
      cbn. rewrite Hg. split; [first [done|exact (Hs _)]|done].
    + apply exec_ret_inv in Hex as [-> [= -> ->]]. cbn. rewrite app_nil_r. split; [first [done|exact (Hs _)]|done].
    + apply exec_bind_inv in Hex as (t3 & t4 & m2 & -> & Ha & [-> [= -> ->]]%exec_ret_inv).
      unfold appendOutcomeLocked in Ha. apply exec_perform_bind_inv in Ha as ([] & t5 & -> & [-> ->]%exec_ret_inv).
      cbn. split; [done|]. by rewrite Hg.
  - destruct (_ && _).
    + intros (t3 & t4 & m2 & -> & Ha & [-> [= -> ->]]%exec_ret_inv)%exec_bind_inv.
      unfold appendOutcomeLocked in Ha. apply exec_perform_bind_inv in Ha as ([] & t5 & -> & [-> ->]%exec_ret_inv).
      by exists Expired.
    + intros [-> [= -> ->]]%exec_ret_inv. exists Kept. by rewrite app_nil_r.
Qed.

Definition fate_of (kg : gateKey * gate) (f : fate) (now : time) (tr : list (event TOp)) : Prop :=
  fate_allowed now kg.2 f ∧ fate_seen tr kg.2 f.

(** The pending gates after their fates. *)
Definition settle (gates : gmap gateKey gate) (kf : (gateKey * gate) * fate) : gmap gateKey gate :=
  if stays kf.2 then gates else delete kf.1.1 gates.

Lemma evaluate_gates_inv now order m results tr m' results' :
  Forall (fun kg => gateKeyFor kg.2 = kg.1) order →
  exec (evaluate_gates now order m results) tr (m', results') →
  ∃ fs, Forall2 (fun kg f => fate_of kg f now tr) order fs ∧
    created tr = flat_map (fun kf => fate_runs kf.1.2 kf.2) (zip order fs) ∧
    gm_gates m' = foldl settle (gm_gates m) (zip order fs) ∧
    results' = results ++ flat_map (fun kf => fate_outcome kf.1.1 kf.1.2 kf.2) (zip order fs).
Proof.
  intros Hwf. revert m results tr. induction Hwf as [|[k g] order Hk _ IH]; intros m results tr Hex; cbn [evaluate_gates] in Hex.
  { apply exec_ret_inv in Hex as [-> [= -> ->]]. exists []. by rewrite app_nil_r. }
  cbn in Hk. subst k. apply exec_bind_inv in Hex as (t1 & t2 & [m1 r1] & -> & (f & Hfa & Hfs & Hc & Hg & Hr)%evaluate_gate_inv & Hex).
  apply IH in Hex as (fs & Hfs2 & Hc2 & Hg2 & Hr2). exists (f :: fs). split_and!.
  - constructor; [split; [done|eapply fate_seen_mono; [|done]; set_solver]|].
    eapply Forall2_impl; [exact Hfs2|]. intros kg f' [? ?]. split; [done|]. eapply fate_seen_mono; [|done]. set_solver.
  - rewrite created_app, Hc, Hc2. done.
  - rewrite Hg2, Hg. done.
  - rewrite Hr2, Hr, <- app_assoc. done.
Qed.

Lemma settle_lookup kfs gates k :
  NoDup (fst <$> (fst <$> kfs)) → foldl settle gates kfs !! k =
    match List.find (fun kf => bool_decide (kf.1.1 = k)) kfs with
    | Some kf => if stays kf.2 then gates !! k else None
    | None => gates !! k
    end.
Proof.
  revert gates. induction kfs as [|[[k' g] f] kfs IH]; intros gates Hnd; [done|].
  cbn in Hnd. apply NoDup_cons in Hnd as [Hnot Hnd]. cbn [foldl List.find fst]. rewrite IH by done.
  case_bool_decide as Hk.
  - subst k'. assert (Hnone : List.find (fun kf => bool_decide (kf.1.1 = k)) kfs = None).
    { destruct (List.find _ kfs) as [[[k2 g2] f2]|] eqn:Hf; [|done]. apply List.find_some in Hf as [Hin Hk%bool_decide_eq_true]. cbn in Hk. subst k2.
      exfalso. apply Hnot. apply list_elem_of_fmap. exists (k, g2). split; [done|]. apply list_elem_of_fmap.
      exists ((k, g2), f2). split; [done|]. by apply list_elem_of_In. }
    rewrite Hnone. unfold settle. cbn. destruct (stays f); [done|]. by rewrite lookup_delete_eq.
  - unfold settle. cbn. destruct (stays f); [done|]. by rewrite lookup_delete_ne by done.
Qed.

End Gates.

(** Gates are kept under their own keys. *)
Definition gates_wf (m : gateManager) : Prop := ∀ k g, gm_gates m !! k = Some g → gateKeyFor g = k.

Lemma Enqueue_wf g m : gates_wf m → gates_wf (Enqueue g m).
Proof. intros H k g'. cbn. intros [[<- <-]|[_ Hk]]%lookup_insert_Some; [done|by apply H]. Qed.

(** One evaluation of the gates, in whatever order the map is visited.  Every pending
    gate has one fate: it is kept while it waits (for its delay or for its
    conditions); when its conditions hold after the delay it is fired, skipped for an
    active run, or kept because firing failed, however late it is; it expires only
    when its conditions do not hold past delay and timeout.  The runs created are
    those of the fired gates, one each, and under [forbid] only after listing no
    active run of the Test; fired, skipped and expired gates are gone, all others
    are left as they were, and the outcomes are recorded in order. *)
Theorem Evaluate_fates `{Lib} order m tr m' results :
  gates_wf m → order ≡ₚ map_to_list (gm_gates m) →
  exec (Evaluate order m) tr (m', results) →
  ∃ now fs, Ev ClockNow now ∈ tr ∧ Forall2 (fun kg f => fate_of kg f now tr) order fs ∧
    created tr = flat_map (fun kf => fate_runs kf.1.2 kf.2) (zip order fs) ∧
    results = flat_map (fun kf => fate_outcome kf.1.1 kf.1.2 kf.2) (zip order fs) ∧
    gates_wf m' ∧
    ∀ k, gm_gates m' !! k =
      match List.find (fun kf => bool_decide (kf.1.1 = k)) (zip order fs) with
      | Some kf => if stays kf.2 then gm_gates m !! k else None
      | None => None
      end.
Proof.
  intros Hwf Hperm. unfold Evaluate. intros (now & tr1 & -> & Hex)%exec_perform_bind_inv.
  assert (Hkeys : Forall (fun kg => gateKeyFor kg.2 = kg.1) order).
  { apply Forall_forall. intros [k g] Hin. rewrite Hperm in Hin. apply elem_of_map_to_list in Hin. by apply Hwf. }
  apply evaluate_gates_inv in Hex as (fs & Hfs & Hc & Hg & Hr); [|done].
  assert (Hzip : fst <$> zip order fs = order) by (apply fst_zip; apply Forall2_length in Hfs; lia).
  assert (Hlook : ∀ k, gm_gates m' !! k =
      match List.find (fun kf => bool_decide (kf.1.1 = k)) (zip order fs) with
      | Some kf => if stays kf.2 then gm_gates m !! k else None
      | None => gm_gates m !! k
      end).
  { intros k. rewrite Hg. apply settle_lookup. rewrite Hzip, Hperm. apply NoDup_fst_map_to_list. }
  exists now, fs. split_and!; [by left| |done|done|..].
  - eapply Forall2_impl; [exact Hfs|]. intros kg f [? ?]. split; [done|]. eapply fate_seen_mono; [|done]. set_solver.
  - intros k g Hk. apply Hwf. rewrite Hlook in Hk. destruct (List.find _ _); [by destruct (stays _)|done].
  - intros k. rewrite Hlook. destruct (List.find _ _) eqn:Hf; [done|].
    destruct (gm_gates m !! k) as [g|] eqn:Hk; [exfalso|done].
    assert (Hin : (k, g) ∈ order) by (rewrite Hperm; by apply elem_of_map_to_list).
    rewrite <- Hzip in Hin. apply list_elem_of_fmap in Hin as ([kg f] & Heq & Hin). cbn in Heq. subst kg.
    apply list_elem_of_In in Hin. apply (List.find_none _ _ Hf) in Hin. by rewrite bool_decide_eq_true_2 in Hin.
Qed.

(** The history of outcomes stays within its limit. *)
Lemma append_outcome_bounded limit outcomes oc :
  (1 ≤ limit)%nat → (length outcomes ≤ limit)%nat →
  (length (append_outcome limit outcomes oc) ≤ limit)%nat ∧ last (append_outcome limit outcomes oc) = Some oc.
Proof.
  intros H1 H2. unfold append_outcome. rewrite length_app. cbn [length].
  destruct (Nat.ltb_spec limit (length outcomes + 1)) as [Hlt|Hge].
  - rewrite length_drop, length_app. cbn [length]. split.
    + pose proof (Nat.Div0.div_mod (length outcomes + 1) 2). pose proof (Nat.mod_upper_bound (length outcomes + 1) 2). lia.
    + pose proof (Nat.div_lt (length outcomes + 1) 2). rewrite drop_app_le by lia. by rewrite last_snoc.
  - rewrite length_app, last_snoc. cbn. split; [lia|done].
Qed.


(** ** Informers *)

(** How many triggers are registered for a kind. *)
Definition users (g : GVK) (regs : gmap (string * string) GVK) : nat := size (filter (fun kv => kv.2 = g) regs).

(** The reference counts are the numbers of registered triggers. *)
Definition refs_ok (regs : gmap (string * string) GVK) (refs : gmap GVK Z) : Prop :=
  ∀ g, refs !! g = if decide (users g regs = 0%nat) then None else Some (Z.of_nat (users g regs)).

(** The informers running after some operations. *)
Definition run_step (R : gset GVK) (e : event TOp) : gset GVK :=
  match e with
  | Ev (StartInformer g) r => match r with None => {[g]} ∪ R | Some _ => R end
  | Ev (StopInformer g) _ => R ∖ {[g]}
  | _ => R
  end.
Definition running_after (R : gset GVK) (tr : list (event TOp)) : gset GVK := foldl run_step R tr.

Definition inf_inv (R : gset GVK) (s : InformerState) : Prop := refs_ok (im_regs s) (im_refs s) ∧ R = dom (im_refs s).

Lemma users_insert g g' k regs : regs !! k = None →
  users g' (<[k := g]> regs) = (users g' regs + if decide (g' = g) then 1 else 0)%nat.
Proof.
  intros Hk. unfold users. destruct (decide (g' = g)) as [->|Hne].
  - rewrite map_filter_insert_True by done. rewrite map_size_insert_None; [lia|]. by rewrite map_lookup_filter_None; left.
  - rewrite map_filter_insert_False by (cbn; congruence). rewrite delete_id by done. lia.
Qed.

Lemma users_delete g g' k regs : regs !! k = Some g →
  users g' regs = (users g' (delete k regs) + if decide (g' = g) then 1 else 0)%nat.
Proof.
  intros Hk. rewrite <- (insert_delete_id regs k g Hk) at 1. apply users_insert, lookup_delete_eq.
Qed.

(** What releasing a kind makes of the counts. *)
Definition release_refs (g : GVK) (refs : gmap GVK Z) : gmap GVK Z :=
  match refs !! g with
  | None => refs
  | Some n => if (n - 1 <=? 0)%Z then delete g refs else <[g := (n - 1)%Z]> refs
  end.

Lemma releaseLocked_inv g s tr s' R :
  exec (releaseLocked g s) tr s' → R = dom (im_refs s) →
  s' = mkInformers (im_Started s) (im_regs s) (release_refs g (im_refs s)) ∧ running_after R tr = dom (im_refs s').
Proof.
  unfold releaseLocked, release_refs. intros Hex ->. destruct (im_refs s !! g) as [n|] eqn:Hg.
  - destruct (n - 1 <=? 0)%Z.
    + apply exec_perform_bind_inv in Hex as ([] & tr1 & -> & [-> ->]%exec_ret_inv). split; [done|]. cbn.
      by rewrite dom_delete_L.
    + apply exec_ret_inv in Hex as [-> ->]. split; [done|]. cbn.
      rewrite dom_insert_L. assert (g ∈ dom (im_refs s)) by (apply elem_of_dom; eauto). set_solver.
  - apply exec_ret_inv in Hex as [-> ->]. by destruct s.
Qed.

Lemma release_refs_ok k g regs refs :
  refs_ok regs refs → regs !! k = Some g → refs_ok (delete k regs) (release_refs g refs).
Proof.
  intros Hok Hk h. pose proof (users_delete g h k regs Hk) as Hh. pose proof (users_delete g g k regs Hk) as Hg.
  rewrite decide_True in Hg by done. unfold release_refs. rewrite (Hok g), decide_False by lia.
  destruct (Z.leb_spec (Z.of_nat (users g regs) - 1) 0).
  - destruct (decide (h = g)) as [->|Hne].
    + rewrite lookup_delete_eq, decide_True by lia. done.
    + rewrite lookup_delete_ne, (Hok h) by done. by replace (users h (delete k regs)) with (users h regs) by lia.
  - destruct (decide (h = g)) as [->|Hne].
    + rewrite lookup_insert_eq, decide_False by lia. f_equal. lia.
    + rewrite lookup_insert_ne, (Hok h) by done. by replace (users h (delete k regs)) with (users h regs) by lia.
Qed.

(** The new registration, when the kind's informer runs already or was just started
    (with a count of zero). *)
Lemma attach_inv k g s R n :
  im_regs s !! k = None → im_refs s !! g = Some n → n = Z.of_nat (users g (im_regs s)) →
  (∀ h, h ≠ g → im_refs s !! h = if decide (users h (im_regs s) = 0%nat) then None else Some (Z.of_nat (users h (im_regs s)))) →
  R = dom (im_refs s) → inf_inv R (attach k g s).
Proof.
  intros Hk Hg Hn Hoth ->. split.
  - intros h. cbn. rewrite users_insert by done. destruct (decide (h = g)) as [->|Hne].
    + rewrite lookup_alter_eq, Hg, decide_False by lia. cbn. f_equal. lia.
    + rewrite lookup_alter_ne, Hoth, Nat.add_0_r by done. done.
  - cbn. by rewrite dom_alter_L.
Qed.

Lemma Register_inv k g s tr s' e R :
  exec (Register k g s) tr (s', e) → inf_inv R s →
  inf_inv (running_after R tr) s' ∧ (e = None → im_regs s' !! k = Some g).
Proof.
  set (registered := fun s : InformerState => match im_refs s !! g with
    | Some _ => Ret (attach k g s, None)
    | None => r ← startInformerLocked g s; match r with Err e => Ret (s, Some e) | Ok s => Ret (attach k g s, None) end end : prog TOp (InformerState * option string)).
  assert (Hreg : ∀ s0 R0 t, im_regs s0 !! k = None → inf_inv R0 s0 → exec (registered s0) t (s', e) →
            inf_inv (running_after R0 t) s' ∧ (e = None → im_regs s' !! k = Some g)).
  { intros s0 R0 t Hk [Hok ->] Hex. unfold registered in Hex. destruct (im_refs s0 !! g) as [n|] eqn:Hg.
    - apply exec_ret_inv in Hex as [-> [= -> ->]]. split; [|intros _; apply lookup_insert_eq].
      pose proof (Hok g) as Hu. rewrite Hg in Hu. case_decide; [done|]. injection Hu as Hu.
      eapply attach_inv; [done|exact Hg|done|by intros; apply Hok|done].
    - apply exec_bind_inv in Hex as (t1 & t2 & r & -> & Hs & Hex). unfold startInformerLocked in Hs.
      destruct (negb (im_Started s0)).
      { apply exec_ret_inv in Hs as [-> ->]. apply exec_ret_inv in Hex as [-> [= -> ->]]. done. }
      apply exec_perform_bind_inv in Hs as (es & t3 & -> & Hs). destruct es as [es|];
        apply exec_ret_inv in Hs as [-> ->]; apply exec_ret_inv in Hex as [-> [= -> ->]]; [done|].
      split; [|intros _; apply lookup_insert_eq].
      pose proof (Hok g) as Hu. rewrite Hg in Hu. case_decide as Hz; [|done].
      eapply attach_inv; [done|apply lookup_insert_eq|cbn; lia| |].
      + intros h Hne. cbn. rewrite lookup_insert_ne by done. apply Hok.
      + cbn. by rewrite dom_insert_L. }
  unfold Register. fold registered. intros Hex [Hok HR]. destruct (im_regs s !! k) as [prev|] eqn:Hk; [|by apply (Hreg s)].
  case_bool_decide as Hsame.
  { apply exec_ret_inv in Hex as [-> [= -> ->]]. subst. done. }
  apply exec_bind_inv in Hex as (t1 & t2 & s1 & -> & Hrel & Hex). apply (releaseLocked_inv _ _ _ _ R) in Hrel as [-> Hrun]; [|done].
  unfold running_after. rewrite foldl_app. apply (Hreg _ (running_after R t1)) in Hex; [done|apply lookup_delete_eq|].
  split; [by apply release_refs_ok|done].
Qed.

Lemma Unregister_inv k s tr s' R :
  exec (Unregister k s) tr s' → inf_inv R s → inf_inv (running_after R tr) s' ∧ im_regs s' !! k = None.
Proof.
  unfold Unregister. intros Hex [Hok HR]. destruct (im_regs s !! k) as [g|] eqn:Hk.
  - apply (releaseLocked_inv _ _ _ _ R) in Hex as [-> Hrun]; [|done]. split; [|apply lookup_delete_eq].
    split; [by apply release_refs_ok|done].
  - by apply exec_ret_inv in Hex as [-> ->].
Qed.

Lemma stop_all_running gs tr R : exec (stop_all gs) tr tt → running_after R tr = R ∖ list_to_set gs.
Proof.
  revert R tr. induction gs as [|g gs IH]; intros R tr Hex; cbn [stop_all] in Hex.
  - apply exec_ret_inv in Hex as [-> _]. set_solver.
  - apply exec_perform_bind_inv in Hex as ([] & tr1 & -> & Hex). change (running_after R (Ev (StopInformer g) tt :: tr1)) with (running_after (R ∖ {[g]}) tr1).
    rewrite (IH _ _ Hex). set_solver.
Qed.

Lemma resolveGVK_inv res tr r R : exec (resolveGVK res) tr r → running_after R tr = R.
Proof. unfold resolveGVK. intros Hex. repeat exec_step; done. Qed.

Lemma running_after_app R tr1 tr2 : running_after R (tr1 ++ tr2) = running_after (running_after R tr1) tr2.
Proof. apply foldl_app. Qed.

(** A reconcile keeps the invariant, and registers the trigger for the kind its
    resource resolved to, or for none when it is gone. *)
Lemma Reconcile_inv req s tr s' r R :
  exec (Reconcile req s) tr (s', r) → inf_inv R s → inf_inv (running_after R tr) s'.
Proof.
  unfold Reconcile. intros (g & t1 & -> & Hex)%exec_perform_bind_inv Hinv.
  change (running_after R (Ev (GetTrigger req) g :: t1)) with (running_after R t1).
  assert (Hun : ∀ t, exec (s0 ← Unregister req s; Ret (s0, Ok no_requeue)) t (s', r) → inf_inv (running_after R t) s').
  { intros t (t2 & t3 & s1 & -> & [Hu _]%(Unregister_inv _ _ _ _ R) & [-> [= -> ->]]%exec_ret_inv)%exec_bind_inv; [|done].
    by rewrite app_nil_r. }
  destruct g as [t|e].
  2: { destruct (is_kind ENotFound e); [by apply Hun|]. by apply exec_ret_inv in Hex as [-> [= -> ->]]. }
  destruct (om_DeletionTimestamp _); [by apply Hun|].
  apply exec_bind_inv in Hex as (t2 & t3 & gvk & -> & Hres & Hex). rewrite running_after_app, (resolveGVK_inv _ _ _ R Hres).
  destruct gvk as [gvk|e].
  - apply exec_bind_inv in Hex as (t4 & t5 & [s1 e] & -> & [Hreg _]%(Register_inv _ _ _ _ _ _ R) & Hex); [|done].
    rewrite running_after_app. destruct e as [e|].
    + apply exec_perform_bind_inv in Hex as ([] & t6 & -> & [-> [= -> ->]]%exec_ret_inv). done.
    + by apply exec_ret_inv in Hex as [-> [= -> ->]].
  - apply exec_perform_bind_inv in Hex as ([] & t6 & -> & [-> [= -> ->]]%exec_ret_inv). done.
Qed.

(** The informer manager's life: started once, then any reconciles of any triggers,
    whatever the API server, the REST mapper and the informers answer. *)
Inductive informers_reach : list (event TOp) → InformerState → Prop :=
| ir_new : informers_reach [] newInformers
| ir_start tr s : informers_reach tr s → im_Started s = false → informers_reach tr (Start s)
| ir_reconcile tr s req tr' s' r :
    informers_reach tr s → exec (Reconcile req s) tr' (s', r) → informers_reach (tr ++ tr') s'.

Lemma informers_reach_inv tr s : informers_reach tr s → inf_inv (running_after ∅ tr) s.
Proof.
  induction 1 as [|tr s _ IH _|tr s req tr' s' r _ IH Hex]; [|done|].
  - split; [|done]. intros g. cbn. unfold users. by rewrite map_filter_empty, map_size_empty.
  - rewrite running_after_app. by eapply Reconcile_inv.
Qed.

Lemma Stop_running s tr s' R : exec (Stop s) tr s' → R = dom (im_refs s) → running_after R tr = ∅.
Proof.
  intros (t1 & t2 & [] & -> & Hst & [-> ->]%exec_ret_inv)%exec_bind_inv ->. rewrite app_nil_r, (stop_all_running _ _ _ Hst).
  apply set_eq. intros g. rewrite elem_of_difference, elem_of_list_to_set, list_elem_of_fmap.
  split; [intros [[n Hn]%elem_of_dom H]|set_solver]. exfalso. apply H. exists (g, n). split; [done|].
  by apply elem_of_map_to_list.
Qed.

(** C20: There is one informer per watched kind and none besides: at every point, an
    informer runs for a kind exactly when some trigger is registered for it, its
    reference count is the number of those triggers, and stopping the manager stops
    every one. *)
Theorem one_informer_per_kind tr s :
  informers_reach tr s →
  (∀ g, g ∈ running_after ∅ tr ↔ ∃ k, im_regs s !! k = Some g) ∧ refs_ok (im_regs s) (im_refs s) ∧
  (∀ tr' s', exec (Stop s) tr' s' → running_after ∅ (tr ++ tr') = ∅).
Proof.
  intros [Hok HR]%informers_reach_inv. split_and!; [|done|].
  - intros g. rewrite HR, elem_of_dom, (Hok g). unfold users. destruct (decide _) as [Hz|Hz].
    + split; [by intros []|]. intros [k Hk]. apply map_size_empty_inv in Hz.
      assert (Hf : filter (fun kv => kv.2 = g) (im_regs s) !! k = Some g) by (by apply map_lookup_filter_Some).
      by rewrite Hz, lookup_empty in Hf.
    + split; [intros _|by eexists].
      destruct (map_choose (filter (fun kv => kv.2 = g) (im_regs s))) as (k & h & Hk).
      { intros E. apply Hz. by rewrite E, map_size_empty. }
      apply map_lookup_filter_Some in Hk as [Hk Hh]. cbn in Hh. subst. by exists k.
  - intros tr' s' Hex. rewrite running_after_app. by eapply Stop_running.
Qed.

(** ** A cluster with one trigger, for the witnesses *)

#[local] Instance demo_lib : Lib := {
  Lib_regexp := fun re s => Ok (re =? s)%string;
  LabelSelectorAsSelector _ := Ok (fun _ => true);
}.

Definition demo_trigger : TestTrigger :=
  mkTrigger (mkMeta "on-deploy" "ns" "g1" ∅ ∅ 1 None [] [])
    (mkTriggerSpec "deployment" None "modified"
       (Some (mkCondSpec [mkCond "Available" "True" "" 0] 60 5)) "run" "test" "forbid"
       (Some (mkTestSel "smoke" "" None)) None) None.

Definition demo_deployment (available : string) : Unstructured :=
  mkObj ("apps", "v1", "Deployment") "ns" "web" ∅
    (JObject [("status", JObject [("conditions", JArray [JObject [("type", JString "Available"); ("status", JString available)]])])]).

(** Answers with success at [now]; the runs listed are [runs]. *)
Definition trigger_env (now : time) (runs : list TestRun) : ∀ R, TOp R → unit → R * unit := fun R o w =>
  (match o in TOp R return R with
   | GetTrigger _ => Ok demo_trigger
   | ListTriggers => Ok [demo_trigger]
   | UpdateTriggerStatus _ => None
   | KindsFor _ => Ok []
   | ListTestNames _ _ => Ok ["smoke"]
   | ListRunsIn _ => Ok runs
   | CreateGenerated n _ => Ok (n +:+ "x")
   | StartInformer _ => None
   | StopInformer _ => tt
   | Eventf _ _ _ _ => tt
   | ClockNow => now
   | TriggerFiresTotalInc _ => tt
   end, w).

(** An event on an available deployment at second 100, evaluated at second 110. *)
Definition demo_gates : gateManager :=
  (Effects.run (trigger_env (100 * second) []) (handleEvent (mkEvent "modified" ("apps", "v1", "Deployment") (demo_deployment "True")) newGateManager) tt).1.1.

Definition demo_evaluation : gateManager * list gateOutcome * unit * list (event TOp) :=
  Effects.run (trigger_env (110 * second) []) (Evaluate (map_to_list (gm_gates demo_gates)) demo_gates) tt.

Lemma demo_gates_wf : gates_wf demo_gates.
Proof.
  intros k g Hk. assert (Hg : gm_gates demo_gates = {[ gateKeyFor (mkGate demo_trigger (demo_deployment "True") (100 * second)%Z)
                                := mkGate demo_trigger (demo_deployment "True") (100 * second)%Z ]}) by reflexivity.
  rewrite Hg in Hk. by apply lookup_singleton_Some in Hk as [<- <-].
Qed.

Example demo_evaluation_fires :
  (rs_TestRef ∘ r_Spec) <$> created demo_evaluation.2 = ["smoke"] ∧ gm_gates demo_evaluation.1.1.1 = ∅.
Proof. vm_compute. done. Qed.

Lemma Evaluate_fates_witness :
  ∃ fs, created demo_evaluation.2 = flat_map (fun kf => fate_runs kf.1.2 kf.2) (zip (map_to_list (gm_gates demo_gates)) fs).
Proof.
  assert (Hex : exec (Evaluate (map_to_list (gm_gates demo_gates)) demo_gates) demo_evaluation.2
                  (demo_evaluation.1.1.1, demo_evaluation.1.1.2)) by (rewrite <- surjective_pairing; apply run_exec).
  destruct (Evaluate_fates (map_to_list (gm_gates demo_gates)) demo_gates _ _ _ demo_gates_wf (reflexivity _) Hex)
    as (now & fs & _ & _ & Hc & _).
  exists fs. exact Hc.
Defined.

(** The trigger is reconciled after the start: one informer. *)
Definition demo_register := Effects.run (trigger_env 0 []) (Reconcile ("ns", "on-deploy") (Start newInformers)) tt.

Lemma one_informer_per_kind_witness :
  ("apps", "v1", "Deployment") ∈ running_after ∅ demo_register.2.
Proof.
  assert (Hr : informers_reach ([] ++ demo_register.2) demo_register.1.1.1).
  { eapply ir_reconcile; [apply ir_start; [apply ir_new|done]|].
    instantiate (1 := demo_register.1.1.2). instantiate (1 := ("ns", "on-deploy")).
    rewrite <- surjective_pairing. apply run_exec. }
  destruct (one_informer_per_kind _ _ Hr) as [H _]. apply H. exists ("ns", "on-deploy"). reflexivity.
Defined.

End TriggersSpec.
