(* ===== verification/ApiRuns.v ===== *)
(** * internal/apiserver: runs on the wire

    handlers_runs.go without its handlers: the run a client sees, from the cluster or
    from history; the cursor; the query of a listing, and the merge of live runs,
    finished runs of the cluster and rows of history into a page. *)
From S2P Require Import Prelude Api GoLib Keys Objects Phases Calendar Logstream Termination Sorting Store Urls.

Module ApiRuns.
Import Objects Termination Calendar Phases Base64 Store.

(** ** The run on the wire (pkg/apiclient) *)

Record ApiStep := mkApiStep {
  as_Phase : string; as_StartedAt : option time; as_FinishedAt : option time; as_Message : string; as_Stages : list StoreStage;
  as_Params : strmap; as_Report : string }.
#[export] Instance ApiStep_eq_dec : EqDecision ApiStep.
Proof. solve_decision. Defined.

Record GitCheckout := mkGitCheckout { gc_URI : string; gc_Revision : string; gc_Commit : string }.
#[export] Instance GitCheckout_eq_dec : EqDecision GitCheckout.
Proof. solve_decision. Defined.

Definition OriginCluster : string := "cluster".
Definition OriginArchive : string := "archive".

Record Run := mkRun {
  e_UID : string; e_Name : string; e_Namespace : string; e_TestRef : string; e_Phase : string; e_Source : string;
  e_QueuedAt : option time; e_StartedAt : option time; e_FinishedAt : option time; e_DurationMs : Z; e_Message : string; e_Origin : string;
  e_Tool : string; e_ParentRun : string; e_Tags : strmap; e_Config : strmap; e_TestCounts : option TestCounts;
  e_Metrics : gmap string spec_float; e_Steps : gmap string ApiStep; e_Stages : list StoreStage; e_Abort : option AbortRequest;
  e_NotBefore : option time; e_Comment : option Comment; e_Git : option GitCheckout; e_LiveView : string; e_Report : string }.

Definition with_Comment (c : option Comment) (e : Run) : Run :=
  mkRun (e_UID e) (e_Name e) (e_Namespace e) (e_TestRef e) (e_Phase e) (e_Source e) (e_QueuedAt e) (e_StartedAt e) (e_FinishedAt e) (e_DurationMs e)
    (e_Message e) (e_Origin e) (e_Tool e) (e_ParentRun e) (e_Tags e) (e_Config e) (e_TestCounts e) (e_Metrics e) (e_Steps e) (e_Stages e) (e_Abort e)
    (e_NotBefore e) c (e_Git e) (e_LiveView e) (e_Report e).

(** doublestar's Match (false for a pattern it refuses too), and net/url: a URL without
    its user info, when it has one. *)
Class WebLib := { glob_Match : string → string → bool; url_without_user : string → option string }.

Section Wire.
Context `{MapOrder, Floats, WebLib}.

Definition stripUserinfo (uri : string) : string := default uri (url_without_user uri).
Definition gitCheckout (uri revision commit : string) : GitCheckout := mkGitCheckout (stripUserinfo uri) revision commit.

(** ** Reports *)

(** The path an artifact has in its own worker's directory. *)
Definition worker_relative (p : string) : string :=
  if HasPrefix p "workers/" then match Keys.Cut (TrimPrefix p "workers/") "/artifacts/" with Some (_, after) => after | None => p end else p.
Definition reportArtifact (pattern : string) (paths : list string) : string :=
  if (pattern =? "")%string then ""
  else default "" (find_first (fun p => glob_Match pattern (worker_relative p)) (str_sort paths)).

Definition with_report (st : ApiStep) (report : string) : ApiStep :=
  mkApiStep (as_Phase st) (as_StartedAt st) (as_FinishedAt st) (as_Message st) (as_Stages st) (as_Params st) report.
Definition worker_report (pattern : string) (paths : list string) (k : string) (st : ApiStep) : ApiStep :=
  if HasPrefix k "worker-" then
    let prefix := "workers/" +:+ TrimPrefix k "worker-" +:+ "/" in
    let report := reportArtifact pattern (List.filter (fun p => HasPrefix p prefix) paths) in
    if (report =? "")%string then st else with_report st report
  else st.
Definition workerReports (steps : gmap string ApiStep) (pattern : string) (paths : list string) : gmap string ApiStep :=
  map_imap (fun k st => Some (worker_report pattern paths k st)) steps.

(** ** From the cluster *)

Definition apiStages (stages : list Stage) : list StoreStage := stagesOf stages.
Definition crTool (cr : TestRun) : string :=
  if (st_Tool (r_Status cr) =? "")%string then default "" (om_Labels (r_Meta cr) !! Store.LabelTool) else st_Tool (r_Status cr).

Definition api_step (s : StepResult) : ApiStep :=
  mkApiStep (phase_string (sr_Phase s)) (sr_StartedAt s) (sr_FinishedAt s) (sr_Message s) (apiStages (sr_Stages s)) (sr_Params s) "".

(** The values that are not numbers are left out, unmentioned. *)
Definition cr_metrics (m : strmap) : gmap string spec_float :=
  omap (fun v => match ParseFloat v with Ok f => Some f | Err _ => None end) m.

Definition report_pattern (spec : option TestSpec) : string :=
  from_option (fun s => from_option af_Report "" (ts_Artifacts s)) "" spec.
Definition cr_git (spec : option TestSpec) (content : option ContentStatus) : option GitCheckout :=
  match spec, content with
  | Some s, Some c => (fun g => gitCheckout (git_URI g) (cs_GitRevision c) (cs_GitCommit c)) <$> ct_Git (ts_Content s)
  | _, _ => None
  end.
Definition live_view (spec : option TestSpec) (p : Phase) : string :=
  match spec ≫= ts_LiveView with
  | Some lv => if IsTerminalPhase p then "" else if (lv_Path lv =? "")%string then "/" else lv_Path lv
  | None => ""
  end.

Definition runEnvelopeFromCR (cr : TestRun) : Run :=
  let sp := r_Spec cr in
  let st := r_Status cr in
  let spec := unmarshal_spec (st_ResolvedSpec st) in
  let paths := ar_Path <$> st_ArtifactRefs st in
  let pattern := report_pattern spec in
  mkRun (run_uid cr) (run_name cr) (run_ns cr) (rs_TestRef sp) (phase_string (st_Phase st)) (rs_Source sp)
    (st_QueuedAt st) (st_StartedAt st) (st_FinishedAt st) (st_DurationMs st) (st_Message st) OriginCluster
    (crTool cr) (default "" (om_Labels (r_Meta cr) !! Store.LabelParentRun)) (rs_Tags sp)
    (if snapshot_is_empty (st_ResolvedSpec st) then EffectiveConfig ∅ (rs_Config sp)
     else from_option (fun s => EffectiveConfig (ts_Config s) (rs_Config sp)) ∅ spec)
    (st_TestCounts st) (cr_metrics (st_Metrics st)) (workerReports (api_step <$> st_Steps st) pattern paths) (apiStages (st_Stages st))
    (rs_Abort sp) (rs_NotBefore sp) None (cr_git spec (st_Content st)) (live_view spec (st_Phase st)) (reportArtifact pattern paths).

(** ** From history *)

(** The stored step's JSON, read again as a step on the wire. *)
Definition step_of_row (s : RowStep) : ApiStep :=
  mkApiStep (wp_phase s) (wp_startedAt s) (wp_finishedAt s) (wp_message s) (wp_stages s) (wp_params s) "".
Definition row_git (row : Row) : option GitCheckout :=
  if negb (rw_GitCommit row =? "")%string || negb (rw_GitRevision row =? "")%string then
    Some (gitCheckout (from_option (fun s => from_option git_URI "" (ct_Git (ts_Content s))) "" (rw_ResolvedSpec row)) (rw_GitRevision row) (rw_GitCommit row))
  else None.

Definition runEnvelopeFromRow (row : Row) : Run :=
  let paths := ar_Path <$> rw_ArtifactRefs row in
  let pattern := report_pattern (rw_ResolvedSpec row) in
  mkRun (rw_UID row) (rw_Name row) (rw_Namespace row) (rw_TestRef row) (rw_Phase row) (rw_Source row)
    (rw_QueuedAt row) (rw_StartedAt row) (Some (rw_FinishedAt row)) (rw_DurationMs row) (rw_Message row) OriginArchive
    (rw_Tool row) (rw_ParentRun row) (rw_Tags row) (rw_Config row) (rw_TestCounts row) (rw_Metrics row)
    (workerReports (step_of_row <$> rw_Steps row) pattern paths) (rw_Stages row) None None (rw_Comment row) (row_git row) "" (reportArtifact pattern paths).
End Wire.

(** ** The cursor *)

Record runCursor := mkCursor { rc_FinishedAt : time; rc_UID : string }.

Definition before (c : option runCursor) (e : Run) : bool :=
  match c with
  | None => true
  | Some c =>
      match e_FinishedAt e with
      | None => false
      | Some ft => (ft <? rc_FinishedAt c)%Z || ((ft =? rc_FinishedAt c)%Z && String.ltb (e_UID e) (rc_UID c))
      end
  end.

Definition encodeRunCursor (finishedAt : time) (uid : string) : string := EncodeToString (RFC3339Nano finishedAt +:+ "|" +:+ uid).

Definition malformed_cursor : string := "after: malformed cursor".
Definition decodeRunCursor `{Uuids} (s : string) : result string (option runCursor) :=
  if (s =? "")%string then Ok None
  else
    match DecodeString s with
    | None => Err malformed_cursor
    | Some raw =>
        match Keys.Cut raw "|" with
        | None => Err malformed_cursor
        | Some (ts, uid) =>
            match ParseRFC3339 ts with
            | None => Err malformed_cursor
            | Some t => if uuid_Parse uid then Ok (Some (mkCursor t uid)) else Err malformed_cursor
            end
        end
    end.

(** ** The query *)

(** An empty limit is the default as well. *)
Definition parseLimitOrDefault (s : string) : Z :=
  if (s =? "")%string then 50
  else match Keys.Atoi s with
       | Some n => if (n <=? 0)%Z then 50 else if (500 <? n)%Z then 500 else n
       | None => 50
       end.

Record listRunsQuery := mkQuery {
  lq_ns : string; lq_testRef : string; lq_phase : string; lq_source : string; lq_parent : string; lq_limit : Z;
  lq_finishedAfter : option time; lq_cursor : option runCursor; lq_wantLive : bool; lq_wantFinished : bool }.

Definition given (want got : string) : bool := (want =? "")%string || (got =? want)%string.
Definition query_matches (q : listRunsQuery) (cr : TestRun) : bool :=
  given (lq_testRef q) (rs_TestRef (r_Spec cr)) && given (lq_phase q) (phase_string (run_phase cr)) && given (lq_source q) (rs_Source (r_Spec cr))
  && given (lq_parent q) (default "" (om_Labels (r_Meta cr) !! Store.LabelParentRun)).

Definition terminal_text (phase : string) : bool := existsb (fun p => (phase_string p =? phase)%string) [PhasePassed; PhaseFailed; PhaseAborted; PhaseError].

(** The query's parameters by name, absent ones empty; the namespace is the server's
    business. *)
Definition parseListRunsQuery `{Uuids} (q : string → string) (ns : string) : result string listRunsQuery :=
  let phase := q "phase" in
  match (if (q "finishedAfter" =? "")%string then Ok None
         else match ParseRFC3339 (q "finishedAfter") with Some t => Ok (Some t) | None => Err "finishedAfter: want RFC 3339" end) with
  | Err e => Err e
  | Ok finishedAfter =>
      match decodeRunCursor (q "after") with
      | Err e => Err e
      | Ok cursor =>
          let terminal := negb (phase =? "")%string && terminal_text phase in
          Ok (mkQuery ns (q "test") phase (q "source") (q "parent") (parseLimitOrDefault (q "limit")) finishedAfter cursor
                (bool_decide (cursor = None) && bool_decide (finishedAfter = None) && negb terminal) ((phase =? "")%string || terminal))
      end
  end.

(** ** The merge *)

Definition finishedAfterOK (e : Run) (after : option time) : bool :=
  match after with None => true | Some a => match e_FinishedAt e with Some f => negb (f <? a)%Z | None => false end end.

(** [compareNewestFirst a b < 0]. *)
Definition newer (ta tb : option time) (ua ub : string) : bool :=
  match ta, tb with
  | None, None => String.ltb ub ua
  | None, Some _ => false
  | Some _, None => true
  | Some ta, Some tb => (tb <? ta)%Z || ((ta =? tb)%Z && String.ltb ub ua)
  end.

Section Merge.
Context `{MapOrder, Floats, WebLib}.

(** What is taken of the cluster's runs: live runs for the page, finished runs by UID,
    the UIDs of live runs. *)
Record collected := mkCollected { cl_live : list Run; cl_finished : gmap string Run; cl_liveUIDs : gset string }.

Definition collect_run (lq : listRunsQuery) (acc : collected) (cr : TestRun) : collected :=
  if negb (query_matches lq cr) then acc
  else
    let env := runEnvelopeFromCR cr in
    if negb (IsTerminalPhase (run_phase cr)) then
      mkCollected (if lq_wantLive lq then cl_live acc ++ [env] else cl_live acc) (cl_finished acc) ({[e_UID env]} ∪ cl_liveUIDs acc)
    else if lq_wantFinished lq && finishedAfterOK env (lq_finishedAfter lq) && before (lq_cursor lq) env then
      mkCollected (cl_live acc) (<[e_UID env := env]> (cl_finished acc)) (cl_liveUIDs acc)
    else acc.
Definition collect_runs (lq : listRunsQuery) (crs : list TestRun) : collected := foldl (collect_run lq) (mkCollected [] ∅ ∅) crs.

(** The store's filter and page of a query. *)
Definition store_filter (lq : listRunsQuery) : Filter :=
  mkRowFilter (lq_testRef lq) (lq_ns lq) (lq_phase lq) (lq_source lq) (lq_parent lq) (lq_finishedAfter lq) None.
Definition store_page (lq : listRunsQuery) : Page :=
  mkPage (lq_limit lq) (from_option rc_UID "" (lq_cursor lq)) (rc_FinishedAt <$> lq_cursor lq).

Definition merge_row (liveUIDs : gset string) (finished : gmap string Run) (row : Row) : gmap string Run :=
  match finished !! rw_UID row with
  | Some env => <[rw_UID row := with_Comment (rw_Comment row) env]> finished
  | None => if bool_decide (rw_UID row ∈ liveUIDs) then finished else <[rw_UID row := runEnvelopeFromRow row]> finished
  end.
Definition merge_rows (liveUIDs : gset string) (finished : gmap string Run) (rows : list Row) : gmap string Run :=
  foldl (merge_row liveUIDs) finished rows.

(** A page and its next cursor; [None]: the run the cursor is taken from has no
    finishing time, and the handler panics. *)
Definition newest_finished (a b : Run) : bool := newer (e_FinishedAt a) (e_FinishedAt b) (e_UID a) (e_UID b).
Definition newest_started (a b : Run) : bool := newer (e_StartedAt a) (e_StartedAt b) (e_UID a) (e_UID b).
Definition page_out (limit : Z) (live : list Run) (finished : gmap string Run) (storeFull : bool) : option (list Run * option string) :=
  let liveOut := sort_by newest_started live in
  let sorted := sort_by newest_finished (snd <$> range finished) in
  let more := storeFull || (limit <? Z.of_nat (length sorted))%Z in
  let finishedOut := take (Z.to_nat limit) sorted in
  match (if more then last finishedOut else None) with
  | None => Some (liveOut ++ finishedOut, None)
  | Some e =>
      match e_FinishedAt e with
      | Some t => Some (liveOut ++ finishedOut, Some (encodeRunCursor t (e_UID e)))
      | None => None
      end
  end.
End Merge.
End ApiRuns.
