(* ===== verification/ApiServer.v ===== *)
(** * internal/apiserver: the handlers

    Each handler is a program over what it calls — the Kubernetes client, run history,
    the object store, the clock, the client's connection — that ends in an answer.  A
    request's body is what its decoder makes of it. *)
From S2P Require Import Prelude Api GoLib Names Keys Objects Phases Effects Ops Webhooks Calendar Durations Verdicts Termination Logstream Sorting Store Parallel Resolver Triggers ApiRuns.

Module ApiServer.
Import Objects Termination Phases Ops Store ApiRuns.

(** ** Requests and answers *)

(** [rq_query]: [r.URL.Query().Get]; [rq_id], [rq_name], [rq_path]: the path's values;
    [rq_user], [rq_token]: the headers. *)
Record Request := mkRequest {
  rq_query : strmap; rq_id : string; rq_name : string; rq_path : string; rq_user : string; rq_token : string }.
Definition query (r : Request) (k : string) : string := default "" (rq_query r !! k).

Record RunEvent := mkRunEvent { ev_Time : time; ev_Type : string; ev_Reason : string; ev_Object : string; ev_Message : string; ev_Count : Z }.
(** corev1.Event, what is read of it: a zero time is none. *)
Record Event := mkEvent {
  ee_Kind : string; ee_Name : string; ee_Type : string; ee_Reason : string; ee_Message : string; ee_Count : Z;
  ee_Series : option time; ee_EventTime : time; ee_LastTimestamp : time; ee_FirstTimestamp : time; ee_CreationTimestamp : time }.
Record ArtifactEntry := mkArtifact { af_Path : string; af_SizeBytes : Z; af_ContentType : string }.
Record AuditEntry := mkAudit {
  ad_ID : Z; ad_At : time; ad_Actor : string; ad_Action : string; ad_Namespace : string; ad_Target : string; ad_Details : strmap }.
Record AuditFilter := mkAuditFilter { af_Namespace : string; af_Actor : string; af_Action : string; af_BeforeID : Z }.
(** Statistics over run history (internal/store). *)
Record StatsFilter := mkStatsFilter { sf_Namespace : string; sf_Since : time; sf_RecentSince : time; sf_Recent : Z }.
Record RecentRun := mkRecentRun { rc_run_UID : string; rc_run_Name : string; rc_run_Phase : string; rc_run_DurationMs : Z; rc_run_FinishedAt : time }.
Record TestStats := mkTestStats {
  tt_Namespace : string; tt_TestRef : string; tt_Total : Z; tt_Passed : Z; tt_Failed : Z; tt_Errored : Z; tt_Aborted : Z; tt_P50Ms : Z; tt_P95Ms : Z;
  tt_Recent : list RecentRun }.
Record CaseStats := mkCaseStats {
  cz_Key : string; cz_Suite : string; cz_Class : string; cz_Name : string; cz_Runs : Z; cz_Passed : Z; cz_Failed : Z; cz_Skipped : Z;
  cz_AvgMs : Z; cz_MaxMs : Z; cz_LastStatus : string; cz_LastAt : time; cz_Flips : Z }.
Record CaseRun := mkCaseRun { cu_RunUID : string; cu_RunName : string; cu_FinishedAt : time; cu_Status : string; cu_DurationMs : Z; cu_Message : string }.
Record ResolvedTest := mkResolved {
  rt_Name : string; rt_Namespace : string; rt_Labels : strmap; rt_Tool : string; rt_Locked : bool; rt_Templates : list string; rt_Spec : TestSpec }.

Inductive Body :=
| NoBody
| BError (reason message : string)
| BRun (e : Run) | BRuns (es : list Run) | BTestRun (r : TestRun)
| BTest (t : Test) | BTests (ts : list Test) | BTemplates (ts : list TestTemplate) | BResolved (t : ResolvedTest)
| BComment (c : Comment) | BCases (cs : list CaseRow) | BAudit (es : list AuditEntry)
| BTestStats (ts : list (TestStats * option spec_float)) | BCaseStats (cs : list (CaseStats * bool)) | BCaseRuns (cs : list CaseRun)
| BArtifacts (xs : list ArtifactEntry) | BURL (url : string) (expires : Z) | BEvents (es : list RunEvent).

(** [Answer]: status, the next page's cursor, body.  [Streamed]: the bytes written
    before are the answer.  [Panicked]: the connection is cut. *)
Inductive Reply := Answer (status : Z) (next : option string) (body : Body) | Streamed | Panicked.

Definition ReasonNotFound : string := "NotFound".
Definition ReasonBadRequest : string := "BadRequest".
Definition ReasonConflict : string := "Conflict".
Definition ReasonManagedByGitOps : string := "ManagedByGitOps".
Definition ReasonInternal : string := "Internal".
Definition ReasonServiceUnavail : string := "ServiceUnavailable".
Definition ReasonGone : string := "Gone".
Definition ReasonUnauthorized : string := "Unauthorized".

Definition writeJSON (status : Z) (b : Body) : Reply := Answer status None b.
Definition writeError (status : Z) (reason message : string) : Reply := Answer status None (BError reason message).

Definition writeAPIError (e : error) : Reply :=
  match e_Kind e with
  | ENotFound => writeError 404 ReasonNotFound (e_Text e)
  | EAlreadyExists => writeError 409 ReasonConflict (e_Text e)
  | EInvalid | EBadRequest => writeError 400 ReasonBadRequest (e_Text e)
  | EConflict => writeError 409 ReasonConflict (e_Text e)
  | ERowNotFound => writeError 404 ReasonNotFound (e_Text e)
  | _ => writeError 500 ReasonInternal (e_Text e)
  end.

(** ** What the handlers call *)

Inductive AOp : Type → Type :=
| ANow : AOp time
(* Kubernetes; an empty namespace is all of them *)
| AGetRun (ns name : string) : AOp (result error TestRun)
| AListRuns (ns : string) : AOp (result error (list TestRun))
| ACreateRun (run : TestRun) : AOp (result error TestRun)
| APatchAbort (run : TestRun) (req : AbortRequest) : AOp (result error TestRun)
| ADeleteRun (run : TestRun) : AOp (option error)
| AGetTest (ns name : string) : AOp (result error Test)
| AListTests (ns : string) : AOp (result error (list Test))
| ACreateTest (dry : bool) (t : Test) : AOp (result error Test)
| APatchTest (dry : bool) (t : Test) (patch : Triggers.json) : AOp (result error Test)
| ADeleteTest (t : Test) : AOp (option error)
| AGetTemplate (ns name : string) : AOp (result error TestTemplate)
| AListTemplates (ns : string) : AOp (result error (list TestTemplate))
| AListEvents (ns : string) : AOp (result error (list Event))
(* Run history *)
| AStoreGet (uid : string) : AOp (result error Row)
| AStoreGetByName (ns name : string) : AOp (result error Row)
| AStoreList (f : Filter) (p : Page) : AOp (result error (list Row))
| AStoreDelete (uid : string) : AOp (option error)
| ASetComment (uid : string) (c : option Comment) : AOp (option error)
| ARunCases (uid : string) (failedOnly : bool) : AOp (result error (list CaseRow))
| ATestStats (f : StatsFilter) : AOp (result error (list TestStats))
| ACaseStats (ns test : string) (window : Z) : AOp (result error (list CaseStats))
| ACaseHistory (ns test key : string) (limit : Z) : AOp (result error (list CaseRun))
| AAppendAudit (e : AuditEntry) : AOp (option error)
| AListAudit (f : AuditFilter) (limit : Z) : AOp (result error (list AuditEntry))
(* The object store *)
| ARemovePrefix (bucket prefix : string) : AOp (option error)
| AListKeys (bucket prefix : string) : AOp (result error (list string))
| AGetObject (bucket key : string) : AOp (result error string)
| APresign (bucket key : string) (expiry : duration) : AOp (result error string)
(* The client: the head of an answer, a WebSocket upgrade, whether what is written
   still reaches it; a proxied request; waiting, and whether the request has ended *)
| AHead (headers : list (string * string)) : AOp unit
| AAccept : AOp bool
| AWrite (chunk : string) : AOp bool
| AProxy (target path : string) (query : strmap) : AOp unit
| AWait (d : duration) : AOp bool
| AEnded : AOp bool.

Abbreviation M := (prog AOp).

(** The server: what is wired, and its settings; the token and the namespace it is
    scoped to, empty for none. *)
Record Server := mkServer {
  sv_AuthToken : string; sv_Namespace : string; sv_Bucket : string;
  sv_Store : bool; sv_Downloader : bool; sv_Lister : bool; sv_Presigner : bool; sv_Remover : bool; sv_Deleter : bool; sv_Commenter : bool;
  sv_Audit : bool; sv_Cases : bool; sv_Stats : bool;
  sv_PresignedURLExpiry : duration; sv_LogPollInterval : duration; sv_LogPollDeadline : duration }.

(** What [Handler] sets where nothing is set. *)
Definition with_defaults (s : Server) : Server :=
  let or_else (v d : duration) := if (v =? 0)%Z then d else v in
  mkServer (sv_AuthToken s) (sv_Namespace s) (sv_Bucket s) (sv_Store s) (sv_Downloader s) (sv_Lister s) (sv_Presigner s) (sv_Remover s) (sv_Deleter s)
    (sv_Commenter s) (sv_Audit s) (sv_Cases s) (sv_Stats s)
    (or_else (sv_PresignedURLExpiry s) (15 * minute)%Z) (or_else (sv_LogPollInterval s) second) (or_else (sv_LogPollDeadline s) (5 * minute)%Z).

(** ** Namespaces (namespace.go) *)

Inductive lookup_error := BadReq (msg : string) | RunNotFound | ApiErr (e : error).

Definition writeLookupError (e : lookup_error) : Reply :=
  match e with
  | BadReq msg => writeError 400 ReasonBadRequest msg
  | RunNotFound => writeError 404 ReasonNotFound "run not found"
  | ApiErr e => writeAPIError e
  end.

Definition scoped_message (ns got : string) : string := "this API server is scoped to namespace " +:+ quote ns +:+ "; got " +:+ quote got.
Definition QueryNamespace : string := "namespace".
Definition QueryWorker : string := "worker".

Definition targetNamespace (s : Server) (r : Request) (payloadNS : string) : result lookup_error string :=
  let queryNS := query r QueryNamespace in
  if negb (sv_Namespace s =? "")%string then
    match find_first (fun c => negb (c =? "")%string && negb (c =? sv_Namespace s)%string) [queryNS; payloadNS] with
    | Some c => Err (BadReq (scoped_message (sv_Namespace s) c))
    | None => Ok (sv_Namespace s)
    end
  else if negb (queryNS =? "")%string && negb (payloadNS =? "")%string && negb (queryNS =? payloadNS)%string then
    Err (BadReq ("?namespace=" +:+ quote queryNS +:+ " disagrees with metadata.namespace " +:+ quote payloadNS))
  else if negb (queryNS =? "")%string then Ok queryNS
  else if negb (payloadNS =? "")%string then Ok payloadNS
  else Err (BadReq "namespace is required: this API server is cluster-wide, pass ?namespace=").

Definition listNamespace (s : Server) (r : Request) : result lookup_error string :=
  let queryNS := query r QueryNamespace in
  if negb (sv_Namespace s =? "")%string && negb (queryNS =? "")%string && negb (queryNS =? sv_Namespace s)%string then
    Err (BadReq (scoped_message (sv_Namespace s) queryNS))
  else if negb (sv_Namespace s =? "")%string then Ok (sv_Namespace s)
  else Ok queryNS.

(** A run of the cluster, or of history only. *)
Inductive found := InCluster (cr : TestRun) | InHistory (row : Row).
Record runRef := mkRef { rf_Namespace : string; rf_Name : string; rf_UID : string; rf_Found : found }.
Definition keys (ref : runRef) : Keys.RunKeys := Keys.ForRun (rf_Namespace ref) (rf_UID ref).
Definition rf_CR (ref : runRef) : option TestRun := match rf_Found ref with InCluster cr => Some cr | InHistory _ => None end.
Definition rf_Row (ref : runRef) : option Row := match rf_Found ref with InCluster _ => None | InHistory row => Some row end.
Definition ref_of_cr (cr : TestRun) : runRef := mkRef (run_ns cr) (run_name cr) (run_uid cr) (InCluster cr).
Definition ref_of_row (row : Row) : runRef := mkRef (rw_Namespace row) (rw_Name row) (rw_UID row) (InHistory row).

Section Handlers.
Context `{MapOrder, Floats, Uuids, WebLib}.

Definition findRun (s : Server) (ns id : string) : M (result lookup_error runRef) :=
  r ← perform (AGetRun ns id);
  match r with
  | Ok cr => Ret (Ok (ref_of_cr cr))
  | Err e =>
      if negb (is_kind ENotFound e) then Ret (Err (ApiErr e))
      else if negb (sv_Store s) then Ret (Err RunNotFound)
      else
        r ← (if uuid_Parse id then perform (AStoreGet id) else perform (AStoreGetByName ns id));
        match r with
        | Err e => Ret (Err (if is_kind ERowNotFound e then RunNotFound else ApiErr e))
        | Ok row => Ret (if (rw_Namespace row =? ns)%string then Ok (ref_of_row row) else Err RunNotFound)
        end
  end.

(** The namespace of a request for one run, and the run. *)
Definition with_run (s : Server) (r : Request) (k : runRef → M Reply) : M Reply :=
  match targetNamespace s r "" with
  | Err e => Ret (writeLookupError e)
  | Ok ns => ref ← findRun s ns (rq_id r); match ref with Err e => Ret (writeLookupError e) | Ok ref => k ref end
  end.

(** ** Attribution and audit *)

Definition maxUserLen : nat := 256.
Definition requestUser (r : Request) : string := str_take maxUserLen (TrimSpace (rq_user r)).

Definition recordAudit (s : Server) (r : Request) (action ns target : string) (details : strmap) : M unit :=
  if negb (sv_Audit s) then Ret tt
  else now ← perform ANow; _ ← perform (AAppendAudit (mkAudit 0 now (requestUser r) action ns target details)); Ret tt.

(** ** Runs (handlers_runs.go) *)

Definition sourceUI : string := "ui".
Definition sourceAPI : string := "api".
Definition sourceCLI : string := "cli".
Definition TagCreatedBy : string := "kubetest.io/created-by".

Definition with_source (v : string) (sp : TestRunSpec) : TestRunSpec :=
  mkRunSpec (rs_TestRef sp) (rs_Config sp) (rs_Pod sp) (rs_Tags sp) v (rs_Abort sp) (rs_NotBefore sp).
Definition with_tags (v : strmap) (sp : TestRunSpec) : TestRunSpec :=
  mkRunSpec (rs_TestRef sp) (rs_Config sp) (rs_Pod sp) v (rs_Source sp) (rs_Abort sp) (rs_NotBefore sp).
Definition in_namespace (ns : string) (m : ObjectMeta) : ObjectMeta :=
  mkMeta (om_Name m) ns (om_UID m) (om_Labels m) (om_Annotations m) (om_CreationTimestamp m) (om_DeletionTimestamp m) (om_Finalizers m) (om_OwnerReferences m).

Definition stamp_source (src : string) : option string :=
  if (src =? "")%string then Some sourceUI
  else if existsb (String.eqb src) [sourceUI; sourceAPI; sourceCLI] then Some src
  else None.

Definition createRun (s : Server) (r : Request) (body : result string TestRun) : M Reply :=
  match body with
  | Err e => Ret (writeError 400 ReasonBadRequest ("decode: " +:+ e))
  | Ok run =>
      match stamp_source (rs_Source (r_Spec run)) with
      | None => Ret (writeError 400 ReasonBadRequest ("payload sets source=" +:+ quote (rs_Source (r_Spec run)) +:+ "; API callers may only say ui, api or cli"))
      | Some src =>
          let u := requestUser r in
          let sp := with_source src (r_Spec run) in
          let sp := if (u =? "")%string then sp else with_tags (<[TagCreatedBy := u]> (rs_Tags sp)) sp in
          match targetNamespace s r (run_ns run) with
          | Err e => Ret (writeLookupError e)
          | Ok ns =>
              c ← perform (ACreateRun (mkTestRun (in_namespace ns (r_Meta run)) sp (r_Status run)));
              match c with
              | Err e => Ret (writeAPIError e)
              | Ok run =>
                  let details := {["test" := rs_TestRef (r_Spec run); "uid" := run_uid run]} in
                  let details := match rs_NotBefore (r_Spec run) with Some t => <["notBefore" := RFC3339 t]> details | None => details end in
                  _ ← recordAudit s r "run.create" (run_ns run) (run_name run) details;
                  Ret (writeJSON 201 (BTestRun run))
              end
          end
      end
  end.

Definition historyComment (s : Server) (cr : TestRun) : M (option Comment) :=
  if negb (sv_Store s) || negb (IsTerminalPhase (run_phase cr)) then Ret None
  else r ← perform (AStoreGet (run_uid cr)); Ret (match r with Ok row => rw_Comment row | Err _ => None end).

Definition getRun (s : Server) (r : Request) : M Reply :=
  if (rq_id r =? "")%string then Ret (writeError 400 ReasonBadRequest "run id is required")
  else
    with_run s r (fun ref =>
      match rf_Found ref with
      | InCluster cr => c ← historyComment s cr; Ret (writeJSON 200 (BRun (with_Comment c (runEnvelopeFromCR cr))))
      | InHistory row => Ret (writeJSON 200 (BRun (runEnvelopeFromRow row)))
      end).

Definition mergeStoreRuns (s : Server) (lq : listRunsQuery) (c : collected) : M (result error (gmap string Run * bool)) :=
  if negb (lq_wantFinished lq) || negb (sv_Store s) then Ret (Ok (cl_finished c, false))
  else
    r ← perform (AStoreList (store_filter lq) (store_page lq));
    match r with
    | Err e => Ret (Err e)
    | Ok rows => Ret (Ok (merge_rows (cl_liveUIDs c) (cl_finished c) rows, (lq_limit lq <=? Z.of_nat (length rows))%Z))
    end.

Definition listRuns (s : Server) (r : Request) : M Reply :=
  match listNamespace s r with
  | Err e => Ret (writeLookupError e)
  | Ok ns =>
      match parseListRunsQuery (query r) ns with
      | Err e => Ret (writeLookupError (BadReq e))
      | Ok lq =>
          crs ← perform (AListRuns (lq_ns lq));
          match crs with
          | Err e => Ret (writeAPIError e)
          | Ok crs =>
              let c := collect_runs lq crs in
              m ← mergeStoreRuns s lq c;
              match m with
              | Err e => Ret (writeAPIError e)
              | Ok (finished, storeFull) =>
                  Ret (match page_out (lq_limit lq) (cl_live c) finished storeFull with
                       | Some (out, next) => Answer 200 next (BRuns out)
                       | None => Panicked
                       end)
              end
          end
      end
  end.

(** ** Aborting and deleting runs (handlers_abort.go, handlers_delete_run.go) *)

Definition maxAbortMessageLen : nat := 512.

(** The body's message, empty without a body. *)
Definition abortRun (s : Server) (r : Request) (body : result string string) : M Reply :=
  if (rq_id r =? "")%string then Ret (writeError 400 ReasonBadRequest "run id is required")
  else
    match targetNamespace s r "" with
    | Err e => Ret (writeLookupError e)
    | Ok ns =>
        match body with
        | Err e => Ret (writeError 400 ReasonBadRequest ("decode: " +:+ e))
        | Ok message =>
            if (maxAbortMessageLen <? String.length message)%nat then Ret (writeError 400 ReasonBadRequest "message longer than 512 characters")
            else
              ref ← findRun s ns (rq_id r);
              match ref with
              | Err e => Ret (writeLookupError e)
              | Ok ref =>
                  match rf_Found ref with
                  | InHistory _ => Ret (writeError 409 ReasonConflict ("run " +:+ quote (rq_id r) +:+ " is archived and already finished"))
                  | InCluster run =>
                      if IsTerminalPhase (run_phase run) then
                        Ret (writeError 409 ReasonConflict ("run " +:+ quote (run_name run) +:+ " already finished (" +:+ phase_string (run_phase run) +:+ ")"))
                      else
                        match rs_Abort (r_Spec run) with
                        | Some _ => Ret (writeJSON 202 (BRun (runEnvelopeFromCR run)))
                        | None =>
                            p ← perform (APatchAbort run (mkAbort AbortReasonUser message (requestUser r)));
                            match p with
                            | Err e => Ret (writeAPIError e)
                            | Ok run =>
                                _ ← recordAudit s r "run.abort" (run_ns run) (run_name run)
                                      {["uid" := run_uid run; "test" := rs_TestRef (r_Spec run); "message" := message]};
                                Ret (writeJSON 202 (BRun (runEnvelopeFromCR run)))
                            end
                        end
                  end
              end
        end
    end.

Definition still_message (name : string) (p : Phase) (rest : string) : string := "run " +:+ quote name +:+ " is still " +:+ phase_string p +:+ rest.

Definition delete_history (s : Server) (r : Request) (ref : runRef) : M Reply :=
  d ← (if sv_Deleter s then perform (AStoreDelete (rf_UID ref)) else Ret None);
  match d with
  | Some e =>
      if is_kind ERowNotFound e then _ ← recordAudit s r "run.delete" (rf_Namespace ref) (rf_Name ref) {["uid" := rf_UID ref]}; Ret (writeJSON 204 NoBody)
      else Ret (writeError 500 ReasonInternal ("delete history row: " +:+ e_Text e))
  | None => _ ← recordAudit s r "run.delete" (rf_Namespace ref) (rf_Name ref) {["uid" := rf_UID ref]}; Ret (writeJSON 204 NoBody)
  end.

Definition delete_refused (s : Server) (ref : runRef) : option Reply :=
  match rf_CR ref with
  | Some cr =>
      if negb (IsTerminalPhase (run_phase cr)) then
        Some (writeError 409 ReasonConflict (still_message (rf_Name ref) (run_phase cr) " — abort it before deleting"))
      else None
  | None => if negb (sv_Deleter s) then Some (writeError 503 ReasonServiceUnavail "run history store is not configured for deletes") else None
  end.

Definition deleteRun (s : Server) (r : Request) : M Reply :=
  with_run s r (fun ref =>
    match delete_refused s ref with
    | Some o => Ret o
    | None =>
        o ← (if sv_Remover s && negb (sv_Bucket s =? "")%string then perform (ARemovePrefix (sv_Bucket s) (Keys.Prefix (keys ref))) else Ret None);
        match o with
        | Some e => Ret (writeError 500 ReasonInternal ("remove objects: " +:+ e_Text e))
        | None =>
            d ← match rf_CR ref with Some cr => perform (ADeleteRun cr) | None => Ret None end;
            match IgnoreNotFound d with Some e => Ret (writeAPIError e) | None => delete_history s r ref end
        end
    end).

(** ** Comments (handlers_comment.go) *)

Definition MaxCommentLen : nat := 500.

Definition commentTarget (s : Server) (r : Request) (k : runRef → M Reply) : M Reply :=
  if negb (sv_Commenter s) then Ret (writeError 503 ReasonServiceUnavail "run history store is not configured")
  else
    with_run s r (fun ref =>
      match rf_CR ref with
      | Some cr =>
          if negb (IsTerminalPhase (run_phase cr)) then
            Ret (writeError 409 ReasonConflict (still_message (rf_Name ref) (run_phase cr) " — comment once it has finished"))
          else k ref
      | None => k ref
      end).

Definition writeCommentError (ref : runRef) (e : error) : Reply :=
  if is_kind ERowNotFound e then
    writeError 409 ReasonConflict ("run " +:+ quote (rf_Name ref) +:+ " is not in run history yet — retry in a moment")
  else writeAPIError e.

(** [RuneCountInString]: its runes. *)
Definition putComment (s : Server) (r : Request) (RuneCountInString : string → nat) (body : result string string) : M Reply :=
  match body with
  | Err e => Ret (writeError 400 ReasonBadRequest ("decode: " +:+ e))
  | Ok text =>
      let text := TrimSpace text in
      if (text =? "")%string then Ret (writeError 400 ReasonBadRequest "text is required (DELETE removes a comment)")
      else if (MaxCommentLen <? RuneCountInString text)%nat then Ret (writeError 400 ReasonBadRequest "text longer than 500 characters")
      else
        commentTarget s r (fun ref =>
          now ← perform ANow;
          let c := mkComment text (requestUser r) now in
          e ← perform (ASetComment (rf_UID ref) (Some c));
          match e with
          | Some e => Ret (writeCommentError ref e)
          | None =>
              _ ← recordAudit s r "run.comment" (rf_Namespace ref) (rf_Name ref) {["uid" := rf_UID ref; "text" := text]};
              Ret (writeJSON 200 (BComment c))
          end)
  end.

Definition deleteComment (s : Server) (r : Request) : M Reply :=
  commentTarget s r (fun ref =>
    e ← perform (ASetComment (rf_UID ref) None);
    match e with
    | Some e =>
        if is_kind ERowNotFound e then _ ← recordAudit s r "run.uncomment" (rf_Namespace ref) (rf_Name ref) {["uid" := rf_UID ref]}; Ret (writeJSON 204 NoBody)
        else Ret (writeAPIError e)
    | None => _ ← recordAudit s r "run.uncomment" (rf_Namespace ref) (rf_Name ref) {["uid" := rf_UID ref]}; Ret (writeJSON 204 NoBody)
    end).

Definition listRunCases (s : Server) (r : Request) : M Reply :=
  if negb (sv_Cases s) then Ret (writeError 503 ReasonServiceUnavail "run history store is not configured")
  else
    with_run s r (fun ref =>
      rows ← perform (ARunCases (rf_UID ref) (query r "status" =? "failed")%string);
      Ret (match rows with Err e => writeAPIError e | Ok cs => writeJSON 200 (BCases cs) end)).

(** *** Test cases of a Test (handlers_testcases.go) *)

Definition defaultCaseWindow : Z := 30.
Definition MaxCaseWindow : Z := 200.
Definition Flaky (c : CaseStats) : bool := (0 <? cz_Passed c)%Z && (0 <? cz_Failed c)%Z.
(** A parameter that is a number from 1 on, to a highest. *)
Definition count_param (v : string) (dflt highest : Z) : option Z :=
  if (v =? "")%string then Some dflt
  else match Keys.Atoi v with Some n => if (n <? 1)%Z || (highest <? n)%Z then None else Some n | None => None end.

Definition listTestCaseStats (s : Server) (r : Request) : M Reply :=
  if negb (sv_Cases s) then Ret (writeError 503 ReasonServiceUnavail "run history store is not configured")
  else
    match targetNamespace s r "" with
    | Err e => Ret (writeLookupError e)
    | Ok ns =>
        match count_param (query r "runs") defaultCaseWindow MaxCaseWindow with
        | None => Ret (writeError 400 ReasonBadRequest "runs: want 1-200")
        | Some window =>
            stats ← perform (ACaseStats ns (rq_name r) window);
            Ret (match stats with Err e => writeAPIError e | Ok cs => writeJSON 200 (BCaseStats ((fun c => (c, Flaky c)) <$> cs)) end)
        end
    end.

(** Atoi's number, whatever its error: zero where a digit is missing, the nearest int64
    where the digits up to there do not fit. *)
Fixpoint uint_value (acc : Z) (s : string) : option Z :=
  match s with
  | EmptyString => Some acc
  | String c s =>
      match Keys.digit_value c with
      | Some d => if (2 ^ 64 - 1 <? acc * 10 + d)%Z then Some (2 ^ 64 - 1)%Z else uint_value (acc * 10 + d)%Z s
      | None => None
      end
  end.
Definition atoi_value (v : string) : Z :=
  let '(neg, digits) :=
    match v with
    | String c rest => if Ascii.eqb c "-" then (true, rest) else if Ascii.eqb c "+" then (false, rest) else (false, v)
    | EmptyString => (false, v)
    end in
  if str_is_empty digits then 0%Z
  else match uint_value 0 digits with Some n => sat64 (if (neg : bool) then (- n)%Z else n) | None => 0%Z end.
Definition listTestCaseHistory (s : Server) (r : Request) : M Reply :=
  if negb (sv_Cases s) then Ret (writeError 503 ReasonServiceUnavail "run history store is not configured")
  else
    match targetNamespace s r "" with
    | Err e => Ret (writeLookupError e)
    | Ok ns =>
        if (query r "case" =? "")%string then Ret (writeError 400 ReasonBadRequest "case is required (a test case key)")
        else
          runs ← perform (ACaseHistory ns (rq_name r) (query r "case") (atoi_value (query r "limit")));
          Ret (match runs with Err e => writeAPIError e | Ok cs => writeJSON 200 (BCaseRuns cs) end)
    end.

(** *** Statistics (handlers_stats.go) *)

Definition defaultStatsWindow : duration := (7 * 24 * hour)%Z.
Definition maxStatsWindow : duration := (90 * 24 * hour)%Z.
Definition defaultRecentRuns : Z := 10.
Definition MaxRecentRuns : Z := 30.

Definition has_suffix (s suffix : string) : bool :=
  (String.length suffix <=? String.length s)%nat && (str_drop (String.length s - String.length suffix) s =? suffix)%string.

(** A product of int64s. *)
Definition parseWindow (v : string) : option duration :=
  if has_suffix v "d" then
    match Keys.Atoi (str_take (String.length v - 1) v) with
    | Some n => if (0 <? n)%Z then Some (wrap64 (wrap64 (n * 24) * hour)) else None
    | None => None
    end
  else match Durations.ParseDuration v with Some d => if (0 <? d)%Z then Some d else None | None => None end.
Definition stats_window (v : string) : option duration :=
  if (v =? "")%string then Some defaultStatsWindow
  else match parseWindow v with Some d => if (maxStatsWindow <? d)%Z then None else Some d | None => None end.

Definition pass_ratio (t : TestStats) : option spec_float :=
  let verdicts := (tt_Passed t + tt_Failed t + tt_Errored t)%Z in
  if (0 <? verdicts)%Z then Some (float_div (float_of_int (tt_Passed t)) (float_of_int verdicts)) else None.

Definition listTestStats (s : Server) (r : Request) : M Reply :=
  if negb (sv_Stats s) then Ret (writeError 503 ReasonServiceUnavail "run history store is not configured")
  else
    match listNamespace s r with
    | Err e => Ret (writeLookupError e)
    | Ok ns =>
        match stats_window (query r "since") with
        | None => Ret (writeError 400 ReasonBadRequest "since: a duration up to 90d (24h, 7d, …)")
        | Some window =>
            match count_param (query r "recent") defaultRecentRuns MaxRecentRuns with
            | None => Ret (writeError 400 ReasonBadRequest "recent: want 1-30")
            | Some recent =>
                now ← perform ANow;
                stats ← perform (ATestStats (mkStatsFilter ns (now + wrap64 (- window))%Z (now - maxStatsWindow)%Z recent));
                Ret (match stats with Err e => writeAPIError e | Ok ts => writeJSON 200 (BTestStats ((fun t => (t, pass_ratio t)) <$> ts)) end)
            end
        end
    end.

Definition listAudit (s : Server) (r : Request) : M Reply :=
  if negb (sv_Audit s) then Ret (writeError 503 ReasonServiceUnavail "run history store is not configured")
  else
    match listNamespace s r with
    | Err e => Ret (writeLookupError e)
    | Ok ns =>
        match (if (query r "before" =? "")%string then Some 0%Z
               else match Keys.Atoi (query r "before") with Some n => if (n <=? 0)%Z then None else Some n | None => None end) with
        | None => Ret (writeError 400 ReasonBadRequest "before: want a positive audit entry id")
        | Some id =>
            let limit := parseLimitOrDefault (query r "limit") in
            entries ← perform (AListAudit (mkAuditFilter ns (query r "actor") (query r "action") id) limit);
            Ret (match entries with
                 | Err e => writeAPIError e
                 | Ok es =>
                     Answer 200 (if (Z.of_nat (length es) =? limit)%Z then (itoa ∘ ad_ID) <$> last es else None) (BAudit es)
                 end)
        end
    end.

(** ** Artifacts (handlers_artifacts.go) *)

Definition runArtifacts (ref : runRef) : list ArtifactEntry :=
  (fun a => mkArtifact (ar_Path a) (ar_SizeBytes a) (ar_ContentType a)) <$>
  match rf_Found ref with InCluster cr => st_ArtifactRefs (r_Status cr) | InHistory row => rw_ArtifactRefs row end.

Definition key_artifacts (prefix : string) (ks : list string) : list ArtifactEntry := (fun k => mkArtifact (TrimPrefix k prefix) 0 "") <$> ks.
Definition listRunArtifacts (s : Server) (r : Request) : M Reply :=
  with_run s r (fun ref =>
    let out := runArtifacts ref in
    if (length out =? 0)%nat && sv_Lister s && negb (sv_Bucket s =? "")%string then
      let prefix := Keys.Artifacts (keys ref) in
      ks ← perform (AListKeys (sv_Bucket s) prefix);
      Ret (match ks with
           | Err e => writeError 500 ReasonInternal ("list artifacts: " +:+ e_Text e)
           | Ok ks => writeJSON 200 (BArtifacts (key_artifacts prefix ks))
           end)
    else Ret (writeJSON 200 (BArtifacts out))).

Definition validateArtifactPath (p : string) : option string :=
  if (p =? "")%string then Some "artifact path is empty"
  else if HasPrefix p "/" then Some ("artifact path must be relative (got " +:+ quote p +:+ ")")
  else if GoLib.Contains p "\" then Some "artifact path must not contain backslashes"
  else if existsb (fun seg => (seg =? "")%string || (seg =? ".")%string || (seg =? "..")%string) (Split slash p) then
    Some ("artifact path contains an empty or traversal segment (got " +:+ quote p +:+ ")")
  else if negb (Clean p =? p)%string then Some ("artifact path is not canonical (got " +:+ quote p +:+ ")")
  else None.

(** [path.Base] of a path [validateArtifactPath] accepts. *)
Definition Base (p : string) : string := default "." (last (Split slash p)).

Definition plain_byte (c : ascii) : bool := negb (Ascii.eqb c dquote || Ascii.eqb c "\" || (nat_of_ascii c <? 32)%nat || (nat_of_ascii c =? 127)%nat).
Fixpoint str_filter (f : ascii → bool) (s : string) : string :=
  match s with EmptyString => "" | String c s => if f c then String c (str_filter f s) else str_filter f s end.
Definition safeFilename (relPath : string) : string := str_filter plain_byte (Base relPath).

(** mime's type of an extension, empty when it has none. *)
Definition artifactContentType (TypeByExtension : string → string) (ref : runRef) (relPath : string) : string :=
  match find_first (fun a => (af_Path a =? relPath)%string && negb (af_ContentType a =? "")%string) (runArtifacts ref) with
  | Some a => af_ContentType a
  | None => let ct := TypeByExtension (Keys.Ext (Base relPath)) in if (ct =? "")%string then "application/octet-stream" else ct
  end.

Definition artifact_head (TypeByExtension : string → string) (ref : runRef) (r : Request) : list (string * string) :=
  [("Content-Type", artifactContentType TypeByExtension ref (rq_path r)); ("X-Content-Type-Options", "nosniff"); ("Content-Security-Policy", "sandbox");
   ("Content-Disposition", (if (query r "download" =? "1")%string then "attachment" else "inline") +:+ "; filename=" +:+ quote (safeFilename (rq_path r)))].

Definition getRunArtifact (s : Server) (r : Request) (TypeByExtension : string → string) : M Reply :=
  if (rq_id r =? "")%string || (rq_path r =? "")%string then Ret (writeError 400 ReasonBadRequest "run id and artifact path are required")
  else
    let presign := (query r "presign" =? "1")%string in
    if (sv_Bucket s =? "")%string || (presign && negb (sv_Presigner s)) || (negb presign && negb (sv_Downloader s)) then
      Ret (writeError 503 ReasonServiceUnavail "artifact storage is not configured")
    else
      match validateArtifactPath (rq_path r) with
      | Some e => Ret (writeError 400 ReasonBadRequest e)
      | None =>
          with_run s r (fun ref =>
            let key := Keys.Artifact (keys ref) (rq_path r) in
            if presign then
              u ← perform (APresign (sv_Bucket s) key (sv_PresignedURLExpiry s));
              Ret (match u with
                   | Err e => writeError 500 ReasonInternal ("presign: " +:+ e_Text e)
                   | Ok url => writeJSON 200 (BURL url (Z.quot (sv_PresignedURLExpiry s) second))
                   end)
            else
              o ← perform (AGetObject (sv_Bucket s) key);
              match o with
              | Err e =>
                  Ret (if is_kind EObjectNotFound e then
                         writeError 404 ReasonNotFound ("artifact " +:+ quote (rq_path r) +:+ " not found for run " +:+ quote (rf_Name ref))
                       else writeError 500 ReasonInternal ("get artifact: " +:+ e_Text e))
              | Ok bytes => _ ← perform (AHead (artifact_head TypeByExtension ref r)); _ ← perform (AWrite bytes); Ret Streamed
              end)
      end.

(** ** Events (handlers_events.go) *)

Definition maxRunEvents : nat := 200.

(** A zero time is none. *)
Definition eventTime (e : Event) : time :=
  match ee_Series e with
  | Some t => if negb (time_is_zero t) then t else
      if negb (time_is_zero (ee_EventTime e)) then ee_EventTime e else if negb (time_is_zero (ee_LastTimestamp e)) then ee_LastTimestamp e
      else if negb (time_is_zero (ee_FirstTimestamp e)) then ee_FirstTimestamp e else ee_CreationTimestamp e
  | None =>
      if negb (time_is_zero (ee_EventTime e)) then ee_EventTime e else if negb (time_is_zero (ee_LastTimestamp e)) then ee_LastTimestamp e
      else if negb (time_is_zero (ee_FirstTimestamp e)) then ee_FirstTimestamp e else ee_CreationTimestamp e
  end.

(** Named after a run: its name, or its name and a dash in front. *)
Definition named_after (run name : string) : bool := (name =? run)%string || HasPrefix name (run +:+ "-").
Definition others (run : string) (names : list string) : list string := List.filter (fun n => negb (n =? run)%string && HasPrefix n (run +:+ "-")) names.
Definition owns (run : string) (names : list string) (name : string) : bool :=
  named_after run name && negb (existsb (fun o => named_after o name) (others run names)).

Definition run_event (e : Event) : RunEvent :=
  mkRunEvent (eventTime e) (ee_Type e) (ee_Reason e) (ee_Kind e +:+ "/" +:+ ee_Name e) (ee_Message e) (ee_Count e).
Definition run_events (run : string) (names : list string) (es : list Event) : list RunEvent :=
  let out := sort_by (fun a b => (ev_Time a <? ev_Time b)%Z)
    (run_event <$> List.filter (fun e => owns run names (ee_Name e) && negb (ee_Kind e =? "TestRun")%string) es) in
  drop (length out - maxRunEvents) out.

Definition listRunEvents (s : Server) (r : Request) : M Reply :=
  with_run s r (fun ref =>
    es ← perform (AListEvents (rf_Namespace ref));
    match es with
    | Err e => Ret (writeAPIError e)
    | Ok es =>
        runs ← perform (AListRuns (rf_Namespace ref));
        Ret (match runs with Err e => writeAPIError e | Ok runs => writeJSON 200 (BEvents (run_events (rf_Name ref) (run_name <$> runs) es)) end)
    end).

(** ** The live view (handlers_live.go) *)

Definition JoinHostPort (host port : string) : string :=
  if GoLib.Contains host ":" then "[" +:+ host +:+ "]:" +:+ port else host +:+ ":" +:+ port.

(** The address a running run's view is at, or the refusal. *)
Definition live_target (r : Request) (cr : TestRun) (spec : TestSpec) (lv : LiveViewSpec) : Reply + string :=
  let ip :=
    if (query r QueryWorker =? "")%string then inr (st_PodIP (r_Status cr))
    else
      match Keys.Atoi (query r QueryWorker) with
      | Some n =>
          if (n <? 0)%Z then inl (writeError 400 ReasonBadRequest "worker: a worker's index (0, 1, …)")
          else
            let step := st_Steps (r_Status cr) !! Parallel.WorkerStepKey n in
            if bool_decide (step = None) && bool_decide (ts_Parallel spec = None) then inl (writeError 404 ReasonNotFound "this run has no workers")
            else if from_option (fun st => IsTerminalPhase (sr_Phase st)) false step then
              inl (writeError 410 ReasonGone "the worker has finished — its live view is gone; see the run's report and artifacts")
            else inr (from_option sr_PodIP "" step)
      | None => inl (writeError 400 ReasonBadRequest "worker: a worker's index (0, 1, …)")
      end in
  match ip with
  | inl o => inl o
  | inr ip =>
      if negb (bool_decide (run_phase cr = PhaseRunning)) || (ip =? "")%string then inl (writeError 503 ReasonServiceUnavail "the run hasn't started yet")
      else inr (JoinHostPort ip (itoa (lv_Port lv)))
  end.

Definition liveView (s : Server) (r : Request) : M Reply :=
  with_run s r (fun ref =>
    match rf_Found ref with
    | InHistory _ => Ret (writeError 410 ReasonGone "the run has finished — its live view is gone; see its report and artifacts")
    | InCluster cr =>
        if IsTerminalPhase (run_phase cr) then Ret (writeError 410 ReasonGone "the run has finished — its live view is gone; see its report and artifacts")
        else
          match unmarshal_spec (st_ResolvedSpec (r_Status cr)) with
          | Some spec =>
              match ts_LiveView spec with
              | Some lv =>
                  match live_target r cr spec lv with
                  | inl o => Ret o
                  | inr target => _ ← perform (AProxy target ("/" +:+ rq_path r) (delete QueryNamespace (delete QueryWorker (rq_query r)))); Ret Streamed
                  end
              | None => Ret (writeError 404 ReasonNotFound "this run's Test declares no live view (spec.liveView)")
              end
          | None => Ret (writeError 404 ReasonNotFound "this run's Test declares no live view (spec.liveView)")
          end
    end).

(** ** Log chunks (chunk_reader.go)

    The emitter has a state of its own and says whether the client is still there. *)

Record chunkStream := mkStream {
  cs_Bucket : string; cs_Prefix : string; cs_KeepPolling : bool; cs_PollInterval : duration; cs_PollDeadline : duration;
  cs_IsTerminal : option (M bool) }.

Inductive drained (E : Type) :=
| Drained (emitted : bool) (sent : gset string) (e : E)
| ClientGone (e : E)
| DrainFailed (msg : string) (e : E).
#[global] Arguments Drained {E}.
#[global] Arguments ClientGone {E}.
#[global] Arguments DrainFailed {E}.

Section Stream.
Context {E : Type} (emit : E → string → M (bool * E)) (c : chunkStream).

Fixpoint drain_keys (ks : list string) (emitted : bool) (sent : gset string) (e : E) : M (drained E) :=
  match ks with
  | [] => Ret (Drained emitted sent e)
  | k :: ks =>
      if bool_decide (k ∈ sent) then drain_keys ks emitted sent e
      else
        o ← perform (AGetObject (cs_Bucket c) k);
        match o with
        | Err err => Ret (DrainFailed ("read " +:+ k +:+ ": " +:+ e_Text err) e)
        | Ok body => w ← emit e body; if (w : bool * E).1 then drain_keys ks true ({[k]} ∪ sent) w.2 else Ret (ClientGone w.2)
        end
  end.

Definition drainOnce (sent : gset string) (e : E) : M (drained E) :=
  ks ← perform (AListKeys (cs_Bucket c) (cs_Prefix c));
  match ks with
  | Err err => Ret (DrainFailed ("list chunks: " +:+ e_Text err) e)
  | Ok ks => drain_keys ks false sent e
  end.

(** What a stream keeps between its rounds; how it ends: by itself ([None]) or with
    an error. *)
Record rounds := mkRounds { rd_sent : gset string; rd_lastProgressAt : time; rd_terminalSeen : bool; rd_emit : E }.

Definition context_ended : string := "context ended".

(** One turn of the loop: the state for the next, or the end. *)
Definition stream_round (st : rounds) : M (rounds + option string * E) :=
  over ← perform AEnded;
  if (over : bool) then Ret (inr (Some context_ended, rd_emit st))
  else
    d ← drainOnce (rd_sent st) (rd_emit st);
    match d with
    | ClientGone e => Ret (inr (None, e))
    | DrainFailed msg e => Ret (inr (Some msg, e))
    | Drained emitted sent e =>
        last ← (if emitted then perform ANow else Ret (rd_lastProgressAt st));
        if negb (cs_KeepPolling c) || rd_terminalSeen st then Ret (inr (None, e))
        else
          terminal ← match cs_IsTerminal c with Some p => p | None => Ret false end;
          if (terminal : bool) then Ret (inl (mkRounds sent last true e))
          else
            now ← perform ANow;
            if negb emitted && (cs_PollDeadline c <? time_sub now last)%Z then Ret (inr (None, e))
            else
              over ← perform (AWait (cs_PollInterval c));
              if (over : bool) then Ret (inr (Some context_ended, e)) else Ret (inl (mkRounds sent last (rd_terminalSeen st) e))
    end.

(** At most [fuel] turns; [None]: it goes on. *)
Fixpoint stream_rounds (fuel : nat) (st : rounds) : M (option (option string * E)) :=
  match fuel with
  | O => Ret None
  | S fuel => r ← stream_round st; match r with inl st => stream_rounds fuel st | inr out => Ret (Some out) end
  end.
End Stream.

(** Zero durations are the defaults. *)
Definition stream_defaults (c : chunkStream) : chunkStream :=
  mkStream (cs_Bucket c) (cs_Prefix c) (cs_KeepPolling c) (if (cs_PollInterval c =? 0)%Z then second else cs_PollInterval c)
    (if (cs_PollDeadline c =? 0)%Z then (5 * minute)%Z else cs_PollDeadline c) (cs_IsTerminal c).
Definition stream {E} (emit : E → string → M (bool * E)) (c : chunkStream) (fuel : nat) (e : E) : M (option (option string * E)) :=
  now ← perform ANow; stream_rounds emit (stream_defaults c) fuel (mkRounds ∅ now false e).

(** ** Logs (handlers_logs.go) *)

(** Two seconds for an answer about the run; without one it counts as live. *)
Definition run_over (ref : runRef) : M bool :=
  r ← perform (AGetRun (rf_Namespace ref) (rf_Name ref));
  Ret (match r with Ok cr => IsTerminalPhase (run_phase cr) | Err e => is_kind ENotFound e end).

Definition log_stream (s : Server) (ref : runRef) : chunkStream :=
  let live := from_option (fun cr => negb (IsTerminalPhase (run_phase cr))) false (rf_CR ref) in
  mkStream (sv_Bucket s) (Keys.Logs (keys ref)) live (sv_LogPollInterval s) (sv_LogPollDeadline s) (if live then Some (run_over ref) else None).

Definition emit_ws (_ : unit) (chunk : string) : M (bool * unit) := there ← perform (AWrite chunk); Ret (there, tt).

(** [None]: after [fuel] rounds the stream goes on. *)
Definition getRunLogs (s : Server) (r : Request) (fuel : nat) : M (option Reply) :=
  if (rq_id r =? "")%string then Ret (Some (writeError 400 ReasonBadRequest "run id is required"))
  else if negb (sv_Downloader s) || negb (sv_Lister s) || (sv_Bucket s =? "")%string then
    Ret (Some (writeError 503 ReasonServiceUnavail "log storage is not configured"))
  else
    match targetNamespace s r "" with
    | Err e => Ret (Some (writeLookupError e))
    | Ok ns =>
        ref ← findRun s ns (rq_id r);
        match ref with
        | Err e => Ret (Some (writeLookupError e))
        | Ok ref =>
            up ← perform AAccept;
            if negb (up : bool) then Ret (Some Streamed)
            else
              out ← stream emit_ws (log_stream s ref) fuel tt;
              Ret (match out with Some _ => Some Streamed | None => None end)
        end
    end.

Definition workerOfStage (stage : string) : option Z :=
  if HasPrefix stage "worker-" then
    match Keys.Atoi (TrimPrefix stage "worker-") with Some i => if (0 <=? i)%Z && (i <? 10000)%Z then Some i else None | None => None end
  else None.

(** The log a stage names; [None]: no such stage. *)
Definition stage_prefix (k : Keys.RunKeys) (stage : string) : option string :=
  let fetch := has_suffix stage "/fetch" in
  let workerStage := if fetch then str_take (String.length stage - 6) stage else stage in
  match workerOfStage workerStage with
  | Some i => Some (if fetch then Keys.Logs (Keys.Stage (Keys.Worker k i) "fetch") else Keys.Logs (Keys.Worker k i))
  | None => if (stage =? "")%string then Some (Keys.Logs k) else if (stage =? "fetch")%string then Some (Keys.Logs (Keys.Stage k stage)) else None
  end.

(** What is still to be skipped, and whether bytes have been written. *)
Definition emit_text (st : Z * bool) (chunk : string) : M (bool * (Z * bool)) :=
  let '(skip, wrote) := st in
  let n := Z.min skip (Z.of_nat (String.length chunk)) in
  let rest := if (0 <? skip)%Z then str_drop (Z.to_nat n) chunk else chunk in
  let skip' := if (0 <? skip)%Z then (skip - n)%Z else skip in
  if (0 <? skip)%Z && (rest =? "")%string then Ret (true, (skip', wrote))
  else there ← perform (AWrite rest); Ret (there, (skip', true)).

Definition text_stream (s : Server) (prefix : string) : chunkStream := mkStream (sv_Bucket s) prefix false second (5 * minute) None.

Definition text_head (r : Request) (ref : runRef) : list (string * string) :=
  [("Content-Type", "text/plain; charset=utf-8"); ("X-Content-Type-Options", "nosniff")] ++
  (if (query r "download" =? "1")%string then [("Content-Disposition", "attachment; filename=" +:+ quote (safeFilename (rf_Name ref +:+ ".log")))] else []).

Definition getRunLogsText (s : Server) (r : Request) : M Reply :=
  if negb (sv_Downloader s) || negb (sv_Lister s) || (sv_Bucket s =? "")%string then Ret (writeError 503 ReasonServiceUnavail "log storage is not configured")
  else
    match targetNamespace s r "" with
    | Err e => Ret (writeLookupError e)
    | Ok ns =>
        match (if (query r "offset" =? "")%string then Some 0%Z
               else match Keys.Atoi (query r "offset") with Some n => if (n <? 0)%Z then None else Some n | None => None end) with
        | None => Ret (writeError 400 ReasonBadRequest "offset: want a byte count >= 0")
        | Some skip =>
            match stage_prefix "" (query r "stage") with
            | None => Ret (writeError 400 ReasonBadRequest "stage: fetch, worker-N or worker-N/fetch")
            | Some _ =>
                ref ← findRun s ns (rq_id r);
                match ref with
                | Err e => Ret (writeLookupError e)
                | Ok ref =>
                    let prefix := default "" (stage_prefix (keys ref) (query r "stage")) in
                    _ ← perform (AHead (text_head r ref));
                    out ← stream emit_text (text_stream s prefix) 1 (skip, false);
                    match out with
                    | Some (Some msg, (_, false)) => Ret (writeError 500 ReasonInternal ("read logs: " +:+ msg))
                    | _ => Ret Streamed
                    end
                end
            end
        end
    end.

(** ** Tests (handlers_tests.go, managed_by.go, handlers_resolved.go, handlers_templates.go) *)

Definition LabelManagedBy : string := "app.kubernetes.io/managed-by".
Definition ManagedByUI : string := "ui".
Definition isLockedForUI (labels : strmap) : bool := negb (default "" (labels !! LabelManagedBy) =? ManagedByUI)%string.
Definition lockedMessage (name : string) (labels : strmap) (verb : string) : string :=
  match labels !! LabelManagedBy with
  | None => "Test " +:+ quote name +:+ " was not created through the API (no " +:+ LabelManagedBy +:+ " label) — " +:+ verb +:+ " it where it is defined (git or kubectl)"
  | Some v => "Test " +:+ quote name +:+ " is managed by " +:+ v +:+ " (" +:+ LabelManagedBy +:+ "=" +:+ v +:+ ") — " +:+ verb +:+ " it in the source repo"
  end.

Definition dryRun (r : Request) : bool := (query r "dry-run" =? "true")%string.

Definition listTests (s : Server) (r : Request) : M Reply :=
  match listNamespace s r with
  | Err e => Ret (writeLookupError e)
  | Ok ns => ts ← perform (AListTests ns); Ret (match ts with Err e => writeAPIError e | Ok ts => writeJSON 200 (BTests ts) end)
  end.
Definition listTemplates (s : Server) (r : Request) : M Reply :=
  match listNamespace s r with
  | Err e => Ret (writeLookupError e)
  | Ok ns => ts ← perform (AListTemplates ns); Ret (match ts with Err e => writeAPIError e | Ok ts => writeJSON 200 (BTemplates ts) end)
  end.

(** The Test a request names. *)
Definition with_test (s : Server) (r : Request) (k : Test → M Reply) : M Reply :=
  match targetNamespace s r "" with
  | Err e => Ret (writeLookupError e)
  | Ok ns => t ← perform (AGetTest ns (rq_name r)); match t with Err e => Ret (writeAPIError e) | Ok t => k t end
  end.

Definition getTest (s : Server) (r : Request) : M Reply :=
  if (rq_name r =? "")%string then Ret (writeError 400 ReasonBadRequest "test name is required")
  else with_test s r (fun t => Ret (writeJSON 200 (BTest t))).

Definition with_labels (labels annotations : strmap) (ns : string) (m : ObjectMeta) : ObjectMeta :=
  mkMeta (om_Name m) ns (om_UID m) labels annotations (om_CreationTimestamp m) (om_DeletionTimestamp m) (om_Finalizers m) (om_OwnerReferences m).

Definition create_owned (s : Server) (r : Request) (t : Test) : M Reply :=
  let u := requestUser r in
  let labels := <[LabelManagedBy := ManagedByUI]> (om_Labels (t_Meta t)) in
  let annotations := if (u =? "")%string then om_Annotations (t_Meta t) else <[TagCreatedBy := u]> (om_Annotations (t_Meta t)) in
  match targetNamespace s r (om_Namespace (t_Meta t)) with
  | Err e => Ret (writeLookupError e)
  | Ok ns =>
      c ← perform (ACreateTest (dryRun r) (mkTest (with_labels labels annotations ns (t_Meta t)) (t_Spec t) (t_LatestRun t)));
      match c with
      | Err e => Ret (writeAPIError e)
      | Ok t =>
          if dryRun r then Ret (writeJSON 200 (BTest t))
          else _ ← recordAudit s r "test.create" (om_Namespace (t_Meta t)) (om_Name (t_Meta t)) ∅; Ret (writeJSON 201 (BTest t))
      end
  end.

Definition createTest (s : Server) (r : Request) (body : result string Test) : M Reply :=
  match body with
  | Err e => Ret (writeError 400 ReasonBadRequest ("decode: " +:+ e))
  | Ok t =>
      if from_option (fun v => negb (v =? ManagedByUI)%string) false (om_Labels (t_Meta t) !! LabelManagedBy) then
        Ret (writeError 400 ReasonBadRequest ("payload sets " +:+ LabelManagedBy +:+ "=" +:+ quote (default "" (om_Labels (t_Meta t) !! LabelManagedBy)) +:+
          "; the API server owns this label — omit it"))
      else create_owned s r t
  end.

(** *** PATCH

    [json.Unmarshal] into the probe: names match without regard to case, fields are
    taken in order, null leaves a struct as it is and empties a map. *)

Definition fold_byte (c : ascii) : ascii := if Names.is_lower c then ascii_of_nat (nat_of_ascii c - 32) else c.
(** encoding/json's foldName; the long s and the Kelvin sign fold to letters. *)
Fixpoint fold_name (s : string) : string :=
  match s with
  | String "197" (String "191" s) => String "S" (fold_name s)
  | String "226" (String "132" (String "170" s)) => String "K" (fold_name s)
  | String c s => String (fold_byte c) (fold_name s)
  | EmptyString => ""
  end.
Definition names_field (field key : string) : bool := (fold_name key =? fold_name field)%string.

(** metadata.labels as [map[string]*string]. *)
Abbreviation probe := (gmap string (option string)).
Fixpoint probe_labels (fields : list (string * Triggers.json)) (acc : probe) : option probe :=
  match fields with
  | [] => Some acc
  | (k, Triggers.JNull) :: fs => probe_labels fs (<[k := None]> acc)
  | (k, Triggers.JString v) :: fs => probe_labels fs (<[k := Some v]> acc)
  | _ :: _ => None
  end.
Fixpoint probe_metadata (fields : list (string * Triggers.json)) (acc : probe) : option probe :=
  match fields with
  | [] => Some acc
  | (k, v) :: fs =>
      if names_field "labels" k then
        match v with
        | Triggers.JNull => probe_metadata fs ∅
        | Triggers.JObject ls => acc ← probe_labels ls acc; probe_metadata fs acc
        | _ => None
        end
      else probe_metadata fs acc
  end.
Fixpoint probe_body (fields : list (string * Triggers.json)) (acc : probe) : option probe :=
  match fields with
  | [] => Some acc
  | (k, v) :: fs =>
      if names_field "metadata" k then
        match v with
        | Triggers.JNull => probe_body fs acc
        | Triggers.JObject ms => acc ← probe_metadata ms acc; probe_body fs acc
        | _ => None
        end
      else probe_body fs acc
  end.
Definition probe_patch (body : Triggers.json) : option probe :=
  match body with Triggers.JObject fs => probe_body fs ∅ | Triggers.JNull => Some ∅ | _ => None end.
Definition probe_refuses (p : probe) : bool :=
  match p !! LabelManagedBy with Some None => true | Some (Some v) => negb (v =? ManagedByUI)%string | None => false end.

Definition maxPatchBytes : Z := 2097152.

(** The body: its size, and the JSON it decodes to if it is any. *)
Definition patchTest (s : Server) (r : Request) (size : Z) (body : option Triggers.json) : M Reply :=
  if (rq_name r =? "")%string then Ret (writeError 400 ReasonBadRequest "test name is required")
  else
    match targetNamespace s r "" with
    | Err e => Ret (writeLookupError e)
    | Ok ns =>
        if (maxPatchBytes <? size)%Z then Ret (writeError 413 ReasonBadRequest "patch larger than 2097152 bytes")
        else
          match body with
          | None => Ret (writeError 400 ReasonBadRequest "decode: body must be a JSON merge patch object")
          | Some patch =>
              match probe_patch patch with
              | None => Ret (writeError 400 ReasonBadRequest "decode: body must be a JSON merge patch object")
              | Some p =>
                  if probe_refuses p then
                    Ret (writeError 400 ReasonBadRequest ("cannot change or remove " +:+ LabelManagedBy +:+ " via PATCH — leave it out of the payload"))
                  else
                    c ← perform (AGetTest ns (rq_name r));
                    match c with
                    | Err e => Ret (writeAPIError e)
                    | Ok current =>
                        if isLockedForUI (om_Labels (t_Meta current)) then
                          Ret (writeError 409 ReasonManagedByGitOps (lockedMessage (rq_name r) (om_Labels (t_Meta current)) "edit"))
                        else
                          t ← perform (APatchTest (dryRun r) current patch);
                          match t with
                          | Err e => Ret (writeAPIError e)
                          | Ok t =>
                              if dryRun r then Ret (writeJSON 200 (BTest t))
                              else _ ← recordAudit s r "test.update" (om_Namespace (t_Meta t)) (om_Name (t_Meta t)) ∅; Ret (writeJSON 200 (BTest t))
                          end
                    end
              end
          end
    end.

Definition deleteTest (s : Server) (r : Request) : M Reply :=
  if (rq_name r =? "")%string then Ret (writeError 400 ReasonBadRequest "test name is required")
  else
    with_test s r (fun current =>
      if isLockedForUI (om_Labels (t_Meta current)) then
        Ret (writeError 409 ReasonManagedByGitOps (lockedMessage (rq_name r) (om_Labels (t_Meta current)) "delete"))
      else
        d ← perform (ADeleteTest current);
        match d with
        | Some e => Ret (writeAPIError e)
        | None => _ ← recordAudit s r "test.delete" (om_Namespace (t_Meta current)) (om_Name (t_Meta current)) ∅; Ret (writeJSON 204 NoBody)
        end).

Definition templateStore : Resolver.TemplateStore AOp := fun ns name =>
  t ← perform (AGetTemplate ns name);
  Ret (match t with Ok tmpl => Ok (Some tmpl) | Err e => if is_kind ENotFound e then Ok None else Err e end).

Definition getResolvedTest (s : Server) (r : Request) : M Reply :=
  with_test s r (fun t =>
    m ← Resolver.MergeTemplates templateStore t;
    Ret (match m with
         | Err e => writeError 422 ReasonBadRequest (e_Text e)
         | Ok (spec, tool) =>
             writeJSON 200 (BResolved (mkResolved (om_Name (t_Meta t)) (om_Namespace (t_Meta t)) (om_Labels (t_Meta t)) tool
               (isLockedForUI (om_Labels (t_Meta t))) (ts_Use (t_Spec t)) spec))
         end)).

(** ** The token (server.go) *)

Definition openPaths : list string := ["/healthz"; "/readyz"; "/metrics"].
Definition refused (s : Server) (r : Request) (url_path : string) : bool :=
  negb (sv_AuthToken s =? "")%string && negb (existsb (String.eqb url_path) openPaths || (rq_token r =? sv_AuthToken s)%string).
Definition unauthorized : Reply := writeError 401 ReasonUnauthorized "missing or wrong API token (X-Kubetest-Token)".

(** ** The routes (server.go)

    A request by its pattern, with what its body decodes to; [rq_id], [rq_name] and
    [rq_path] are the pattern's values.  The OpenAPI document and the metrics are
    not calls here: they are the same for every request. *)
Inductive Call :=
| ListTests | CreateTest (body : result string Test) | GetTest | GetResolvedTest | ListTestCaseStats | ListTestStats | ListTestCaseHistory
| PatchTest (size : Z) (body : option Triggers.json) | DeleteTest | ListTemplates
| CreateRun (body : result string TestRun) | ListRuns | LiveView | ListRunEvents | GetRun | AbortRun (body : result string string) | ListRunCases
| PutComment (body : result string string) | DeleteComment | ListAudit
| DeleteRun | GetRunLogs | GetRunLogsText | ListRunArtifacts | GetRunArtifact | Healthz.

(** [runes]: RuneCountInString; [mime]: TypeByExtension; [rounds]: of the log stream,
    the one call that may go on ([None]). *)
Definition handle (runes : string → nat) (mime : string → string) (rounds : nat) (s : Server) (r : Request) (c : Call) : M (option Reply) :=
  let once (p : M Reply) : M (option Reply) := o ← p; Ret (Some o) in
  match c with
  | ListTests => once (listTests s r)
  | CreateTest body => once (createTest s r body)
  | GetTest => once (getTest s r)
  | GetResolvedTest => once (getResolvedTest s r)
  | ListTestCaseStats => once (listTestCaseStats s r)
  | ListTestStats => once (listTestStats s r)
  | ListTestCaseHistory => once (listTestCaseHistory s r)
  | PatchTest size body => once (patchTest s r size body)
  | DeleteTest => once (deleteTest s r)
  | ListTemplates => once (listTemplates s r)
  | CreateRun body => once (createRun s r body)
  | ListRuns => once (listRuns s r)
  | LiveView => once (liveView s r)
  | ListRunEvents => once (listRunEvents s r)
  | GetRun => once (getRun s r)
  | AbortRun body => once (abortRun s r body)
  | ListRunCases => once (listRunCases s r)
  | PutComment body => once (putComment s r runes body)
  | DeleteComment => once (deleteComment s r)
  | ListAudit => once (listAudit s r)
  | DeleteRun => once (deleteRun s r)
  | GetRunLogs => getRunLogs s r rounds
  | GetRunLogsText => once (getRunLogsText s r)
  | ListRunArtifacts => once (listRunArtifacts s r)
  | GetRunArtifact => once (getRunArtifact s r mime)
  | Healthz => once (Ret (writeJSON 200 NoBody))
  end.

Definition serve_call (runes : string → nat) (mime : string → string) (rounds : nat) (s : Server) (r : Request) (url_path : string) (c : Call) : M (option Reply) :=
  let s := with_defaults s in
  if refused s r url_path then Ret (Some unauthorized) else handle runes mime rounds s r c.
End Handlers.
End ApiServer.
