(* ===== verification/Routes.v ===== *)
(** * internal/apiserver/server.go: the routes

    The patterns [Handler] registers, and which of them net/http's ServeMux gives a
    request to, with the values of its wildcards; what a handler then reads of the
    request.  The decoders of the bodies are encoding/json's. *)
From S2P Require Import Prelude Api GoLib Keys Urls Effects Triggers ApiRuns ApiServer.

Module Routes.
Import Keys Urls ApiServer.

(** ** net/http's ServeMux *)

Inductive segment_pattern := Literal (s : string) | Wildcard (name : string) | Rest (name : string).

(** A segment of a pattern's text. *)
Definition parse_segment (s : string) : segment_pattern :=
  if HasPrefix s "{" then
    let name := str_take (String.length s - 2) (str_drop 1 s) in
    match Cut name "..." with Some (n, _) => Rest n | None => Wildcard name end
  else Literal s.

(** The segments of a path, after its first slash. *)
Definition segments (path : string) : list string := Split slash (str_drop 1 path).

(** A segment that cannot be unescaped is taken as it is. *)
Definition pathUnescape (s : string) : string := match PathUnescape s with Ok s => s | Err _ => s end.

Fixpoint match_segments (ps : list segment_pattern) (ss : list string) : option (list (string * string)) :=
  match ps, ss with
  | [], [] => Some []
  | Rest n :: _, _ :: _ => Some [(n, pathUnescape (str_join "/" ss))]
  | Literal l :: ps, s :: ss => if (pathUnescape s =? l)%string then match_segments ps ss else None
  | Wildcard n :: ps, s :: ss =>
      if (s =? "")%string then None
      else vs ← match_segments ps ss; Some ((n, pathUnescape s) :: vs)
  | _, _ => None
  end.

Definition Pattern : Set := string * string.

(** A GET pattern answers HEAD too. *)
Definition match_method (m method : string) : bool := (m =? method)%string || ((m =? "GET")%string && (method =? "HEAD")%string).
Definition match_pattern (method path : string) (p : Pattern) : option (Pattern * list (string * string)) :=
  if match_method p.1 method then vs ← match_segments (parse_segment <$> segments p.2) (segments path); Some (p, vs) else None.

Definition find_pattern (patterns : list Pattern) (method path : string) : option (Pattern * list (string * string)) :=
  head (omap (match_pattern method path) patterns).

Definition cleanPath (p : string) : string :=
  let p := if HasPrefix p "/" then p else "/" +:+ p in
  let np := Clean p in
  if HasSuffixSlash p && negb (np =? "/")%string then np +:+ "/" else np.

Definition ends_in_rest (p : Pattern) : bool := match last (parse_segment <$> segments p.2) with Some (Rest _) => true | _ => false end.
Definition exactMatch (m : option (Pattern * list (string * string))) (path : string) : bool :=
  match m with
  | None => false
  | Some (p, _) =>
      if negb (HasSuffixSlash path) then negb (ends_in_rest p)
      else (length (segments p.2) =? count_byte slash path)%nat
  end.

Inductive Routed := Serve (pattern : Pattern) (values : list (string * string)) | Redirect (to_ : string) | Unrouted.

Definition findHandler (patterns : list Pattern) (method escapedPath : string) : Routed :=
  let path := cleanPath escapedPath in
  let n := find_pattern patterns method path in
  let slashed := path +:+ "/" in
  if negb (exactMatch n path) && negb (HasSuffixSlash path) && exactMatch (find_pattern patterns method slashed) slashed then Redirect slashed
  else if negb (path =? escapedPath)%string then Redirect path
  else match n with Some (p, vs) => Serve p vs | None => Unrouted end.

(** ** Handler *)

Definition patterns : list Pattern :=
  [("GET", "/tests"); ("POST", "/tests"); ("GET", "/tests/{name}"); ("GET", "/tests/{name}/resolved");
   ("GET", "/tests/{name}/testcases"); ("GET", "/stats/tests"); ("GET", "/tests/{name}/testcases/history");
   ("PATCH", "/tests/{name}"); ("DELETE", "/tests/{name}"); ("GET", "/templates");
   ("POST", "/runs"); ("GET", "/runs"); ("GET", "/runs/{id}/live/{path...}"); ("GET", "/runs/{id}/events");
   ("GET", "/runs/{id}"); ("POST", "/runs/{id}/abort"); ("GET", "/runs/{id}/testcases");
   ("PUT", "/runs/{id}/comment"); ("DELETE", "/runs/{id}/comment"); ("GET", "/audit");
   ("DELETE", "/runs/{id}"); ("GET", "/runs/{id}/logs"); ("GET", "/runs/{id}/logs.txt"); ("GET", "/runs/{id}/artifacts");
   ("GET", "/runs/{id}/artifacts/{path...}"); ("GET", "/openapi.json"); ("GET", "/healthz"); ("GET", "/metrics")].

(** What the handlers decode bodies with. *)
Class Decoders := {
  decode_Test : string → result string Test;
  decode_TestRun : string → result string TestRun;
  decode_AbortOptions : string → result string string;
  decode_CommentOptions : string → result string string;
  decode_patch : string → option Triggers.json }.

(** The call of a pattern; the OpenAPI document and the metrics are not calls. *)
Definition call_of `{Decoders} (p : Pattern) (body : string) : option Call :=
  let '(method, path) := p in
  match find_first (fun e : string * string * Call => (e.1.1 =? method)%string && (e.1.2 =? path)%string)
    [("GET", "/tests", ListTests); ("POST", "/tests", CreateTest (decode_Test body)); ("GET", "/tests/{name}", GetTest);
     ("GET", "/tests/{name}/resolved", GetResolvedTest); ("GET", "/tests/{name}/testcases", ListTestCaseStats); ("GET", "/stats/tests", ListTestStats);
     ("GET", "/tests/{name}/testcases/history", ListTestCaseHistory);
     ("PATCH", "/tests/{name}", PatchTest (Z.of_nat (String.length body)) (decode_patch body)); ("DELETE", "/tests/{name}", DeleteTest);
     ("GET", "/templates", ListTemplates); ("POST", "/runs", CreateRun (decode_TestRun body)); ("GET", "/runs", ListRuns);
     ("GET", "/runs/{id}/live/{path...}", LiveView); ("GET", "/runs/{id}/events", ListRunEvents); ("GET", "/runs/{id}", GetRun);
     ("POST", "/runs/{id}/abort", AbortRun (decode_AbortOptions body)); ("GET", "/runs/{id}/testcases", ListRunCases);
     ("PUT", "/runs/{id}/comment", PutComment (decode_CommentOptions body)); ("DELETE", "/runs/{id}/comment", DeleteComment);
     ("GET", "/audit", ListAudit); ("DELETE", "/runs/{id}", DeleteRun); ("GET", "/runs/{id}/logs", GetRunLogs);
     ("GET", "/runs/{id}/logs.txt", GetRunLogsText); ("GET", "/runs/{id}/artifacts", ListRunArtifacts);
     ("GET", "/runs/{id}/artifacts/{path...}", GetRunArtifact); ("GET", "/healthz", Healthz)] with
  | Some (_, c) => Some c
  | None => None
  end.

(** A request as it is sent: its path is escaped; the headers are the two the API reads. *)
Record HTTPRequest := mkHTTP {
  hr_Method : string; hr_EscapedPath : string; hr_RawQuery : string; hr_User : string; hr_Token : string; hr_JSON : bool; hr_Body : string }.

(** r.PathValue *)
Definition PathValue (values : list (string * string)) (name : string) : string :=
  match find_first (fun kv => (kv.1 =? name)%string) values with Some (_, v) => v | None => "" end.

(** What a handler reads of the request. *)
Definition request_of (h : HTTPRequest) (values : list (string * string)) : Request :=
  mkRequest (omap head (ParseQuery (hr_RawQuery h)).1) (PathValue values "id") (PathValue values "name") (PathValue values "path")
    (hr_User h) (hr_Token h).

Example route_examples :
  findHandler patterns "GET" "/runs/a%2Fb/artifacts/x/y%20z.xml" = Serve ("GET", "/runs/{id}/artifacts/{path...}") [("id", "a/b"); ("path", "x/y z.xml")] ∧
  findHandler patterns "GET" "/runs/r1/live" = Redirect "/runs/r1/live/" ∧
  findHandler patterns "GET" "/runs/../tests" = Redirect "/tests" ∧
  findHandler patterns "GET" "/runs/" = Unrouted ∧ findHandler patterns "PUT" "/runs" = Unrouted.
Proof. vm_compute. split_and!; reflexivity. Qed.

End Routes.
