(* ===== verification/Client.v ===== *)
(** * pkg/apiclient/client.go: the API's client

    Each method builds one request — an escaped path, a query, a body — sends it and
    decodes the answer, or makes an error of it.  A program over the one operation of
    the HTTP client; the JSON of the values is encoding/json's, a class. *)
From Stdlib Require Import SpecFloat.
From S2P Require Import Prelude Api GoLib Names Keys Objects Effects Urls Store Triggers ApiRuns ApiServer Routes.

Module Client.
Import Keys Urls Store ApiRuns ApiServer Routes.

(** ** Requests and answers *)

Record HTTPResponse := mkResponse { rs_Status : Z; rs_NextCursor : string; rs_ContentType : string; rs_Length : Z; rs_Body : string }.

Inductive HOp : Type → Type := HTTPDo (h : HTTPRequest) : HOp (result string HTTPResponse).

Abbreviation M := (prog HOp).

(** [cl_base]: the escaped path of the base URL. *)
Record Client := mkClient { cl_base : string; cl_user : string; cl_token : string }.

(** url.Parse: the scheme and the escaped path. *)
Class ParseURL := url_Parse : string → result string (string * string).

Definition New `{ParseURL} (baseURL : string) : result string Client :=
  match url_Parse (Names.TrimRight (Ascii.eqb slash) baseURL) with
  | Err e => Err ("apiclient: base URL: " +:+ e)
  | Ok (scheme, path) =>
      if negb (scheme =? "http")%string && negb (scheme =? "https")%string then Err ("apiclient: base URL " +:+ quote baseURL +:+ " must be http(s)")
      else Ok (mkClient path "" "")
  end.

Definition ServiceProxyURL (k8sServer namespace service : string) (port : Z) : string :=
  Names.TrimRight (Ascii.eqb slash) k8sServer +:+ "/api/v1/namespaces/" +:+ PathEscape namespace +:+ "/services/http:" +:+ PathEscape service +:+
  ":" +:+ itoa port +:+ "/proxy".

Definition WithToken (c : Client) (token : string) : Client := mkClient (cl_base c) (cl_user c) token.
Definition AsUser (c : Client) (user : string) : Client := mkClient (cl_base c) user (cl_token c).

(** ** Errors *)

Inductive client_error :=
| APIError (status : Z) (reason message : string)
| OtherError (text : string).

Definition Error (e : client_error) : string :=
  match e with
  | APIError status reason message =>
      if negb (reason =? "")%string then "kubetest API " +:+ itoa status +:+ " " +:+ reason +:+ ": " +:+ message
      else "kubetest API " +:+ itoa status +:+ ": " +:+ message
  | OtherError text => text
  end.

Definition statusIs (e : client_error) (status : Z) : bool := match e with APIError s _ _ => (s =? status)%Z | OtherError _ => false end.
Definition IsNotFound (e : client_error) : bool := statusIs e 404.
Definition IsConflict (e : client_error) : bool := statusIs e 409.
Definition IsUnavailable (e : client_error) : bool := statusIs e 503.

(** ** Plumbing *)

(** encoding/json of a type: its text, and what is decoded of one. *)
Class JSON (A : Type) := { Marshal : A → string; Unmarshal : string → result string A }.

Definition ns (namespace : string) : Values := if negb (namespace =? "")%string then Set_ QueryNamespace namespace ∅ else ∅.

Definition maxErrorBody : nat := Z.to_nat 65536.

(** The error of an answer that is not a success: the API's, or the text it has. *)
Definition answer_error `{JSON (string * string)} (resp : HTTPResponse) : client_error :=
  let b := str_take maxErrorBody (rs_Body resp) in
  match Unmarshal (A := string * string) b with
  | Ok (reason, message) =>
      if negb (message =? "")%string then APIError (rs_Status resp) reason message else APIError (rs_Status resp) "" (TrimSpace b)
  | Err _ => APIError (rs_Status resp) "" (TrimSpace b)
  end.

Section Methods.
Context `{JSON (string * string)} (c : Client).

Definition do_ (method path : string) (q : Values) (body : option string) : M (result client_error HTTPResponse) :=
  let raw := cl_base c +:+ path in
  match PathUnescape raw with
  | Err e => Ret (Err (OtherError ("apiclient: path " +:+ quote path +:+ ": " +:+ e)))
  | Ok unescaped =>
      resp ← perform (HTTPDo (mkHTTP method (EscapedPath raw unescaped) (Encode q) (cl_user c) (cl_token c) (bool_decide (is_Some body)) (default "" body)));
      match resp with
      | Err e => Ret (Err (OtherError ("apiclient: " +:+ method +:+ " " +:+ path +:+ ": " +:+ e)))
      | Ok resp =>
          if (200 <=? rs_Status resp)%Z && (rs_Status resp <? 300)%Z then Ret (Ok resp)
          else Ret (Err (answer_error resp))
      end
  end.

Definition sendJSON {A} `{JSON A} (method path : string) (q : Values) (in_ : option string) : M (result client_error A) :=
  resp ← do_ method path q in_;
  match resp with
  | Err e => Ret (Err e)
  | Ok resp =>
      match Unmarshal (rs_Body resp) with
      | Err e => Ret (Err (OtherError ("apiclient: decode " +:+ method +:+ " " +:+ path +:+ ": " +:+ e)))
      | Ok out => Ret (Ok out)
      end
  end.

Definition getJSON {A} `{JSON A} (path : string) (q : Values) : M (result client_error A) := sendJSON "GET" path q None.

(** A call whose answer has no body to read; closing it does not fail. *)
Definition send (method path : string) (q : Values) : M (option client_error) :=
  resp ← do_ method path q None;
  Ret (match resp with Err e => Some e | Ok _ => None end).

(** ** Tests *)

Definition ListTests `{JSON (list Test)} (namespace : string) : M (result client_error (list Test)) := getJSON "/tests" (ns namespace).

(** A Test, with the version and the generation of its metadata. *)
Record VersionedTest := mkVersioned { vt_Test : Test; vt_ResourceVersion : string; vt_Generation : Z }.
Definition GetTest `{JSON VersionedTest} (namespace name : string) : M (result client_error VersionedTest) := getJSON ("/tests/" +:+ PathEscape name) (ns namespace).

Definition QueryDryRun : string := "dry-run".
Record WriteOptions := mkWrite { wo_DryRun : bool }.
Definition write_query (o : WriteOptions) (namespace : string) : Values :=
  let q := ns namespace in if wo_DryRun o then Set_ QueryDryRun "true" q else q.

Definition CreateTest `{JSON Test} (t : Test) (o : WriteOptions) : M (result client_error Test) :=
  sendJSON "POST" "/tests" (write_query o (om_Namespace (t_Meta t))) (Some (Marshal t)).

Definition PatchTestWith `{JSON Test} `{JSON Triggers.json} (namespace name : string) (patch : Triggers.json) (o : WriteOptions) : M (result client_error Test) :=
  sendJSON "PATCH" ("/tests/" +:+ PathEscape name) (write_query o namespace) (Some (Marshal patch)).
Definition PatchTest `{JSON Test} `{JSON Triggers.json} (namespace name : string) (patch : Triggers.json) : M (result client_error Test) :=
  PatchTestWith namespace name patch (mkWrite false).

Definition DeleteTest (namespace name : string) : M (option client_error) := send "DELETE" ("/tests/" +:+ PathEscape name) (ns namespace).

Definition ListTemplates `{JSON (list TestTemplate)} (namespace : string) : M (result client_error (list TestTemplate)) := getJSON "/templates" (ns namespace).

(** An empty schedule is null: it removes the field. *)
Definition SetTestSchedule `{JSON Test} `{JSON Triggers.json} (namespace name schedule : string) : M (result client_error Test) :=
  let value := if negb (schedule =? "")%string then Triggers.JString schedule else Triggers.JNull in
  PatchTest namespace name (Triggers.JObject [("spec", Triggers.JObject [("schedule", value)])]).

Definition GetResolvedTest `{JSON ResolvedTest} (namespace name : string) : M (result client_error ResolvedTest) :=
  getJSON ("/tests/" +:+ PathEscape name +:+ "/resolved") (ns namespace).

(** ** Runs *)

Record ListRunsOptions := mkListRuns {
  lo_Namespace : string; lo_Test : string; lo_Phase : string; lo_Source : string; lo_Parent : string; lo_Limit : Z; lo_After : string;
  lo_FinishedAfter : option time }.
Record RunPage := mkRunPage { rp_Runs : list ApiRuns.Run; rp_NextCursor : string }.

Definition set_some (k v : string) (q : Values) : Values := if negb (v =? "")%string then Set_ k v q else q.
Definition set_limit (k : string) (n : Z) (q : Values) : Values := if (0 <? n)%Z then Set_ k (itoa n) q else q.

Definition list_query (o : ListRunsOptions) : Values :=
  let q := set_some "after" (lo_After o) (set_some "parent" (lo_Parent o) (set_some "source" (lo_Source o)
             (set_some "phase" (lo_Phase o) (set_some "test" (lo_Test o) (ns (lo_Namespace o)))))) in
  let q := set_limit "limit" (lo_Limit o) q in
  match lo_FinishedAfter o with Some t => Set_ "finishedAfter" (RFC3339 t) q | None => q end.

Definition ListRuns `{JSON (list ApiRuns.Run)} (o : ListRunsOptions) : M (result client_error RunPage) :=
  resp ← do_ "GET" "/runs" (list_query o) None;
  match resp with
  | Err e => Ret (Err e)
  | Ok resp =>
      match Unmarshal (rs_Body resp) with
      | Err e => Ret (Err (OtherError ("apiclient: decode runs: " +:+ e)))
      | Ok runs => Ret (Ok (mkRunPage runs (rs_NextCursor resp)))
      end
  end.

Definition GetRun `{JSON ApiRuns.Run} (namespace id : string) : M (result client_error ApiRuns.Run) := getJSON ("/runs/" +:+ PathEscape id) (ns namespace).

(** The run's metadata.generateName, which [ObjectMeta] does not have, comes with it. *)
Definition CreateRun `{JSON TestRun} `{JSON (string * TestRun)} (namespace generateName : string) (run : TestRun) : M (result client_error TestRun) :=
  sendJSON "POST" "/runs" (ns namespace) (Some (Marshal (generateName, run))).

(** AbortOptions and CommentOptions: one text. *)
Record AbortOptions := mkAbortOptions { ao_Message : string }.
Record CommentOptions := mkCommentOptions { co_Text : string }.

Definition AbortRun `{JSON ApiRuns.Run} `{JSON AbortOptions} (namespace name message : string) : M (result client_error ApiRuns.Run) :=
  sendJSON "POST" ("/runs/" +:+ PathEscape name +:+ "/abort") (ns namespace) (Some (Marshal (mkAbortOptions message))).

Definition DeleteRun (namespace id : string) : M (option client_error) := send "DELETE" ("/runs/" +:+ PathEscape id) (ns namespace).

Definition SetComment `{JSON Comment} `{JSON CommentOptions} (namespace id text : string) : M (result client_error Comment) :=
  sendJSON "PUT" ("/runs/" +:+ PathEscape id +:+ "/comment") (ns namespace) (Some (Marshal (mkCommentOptions text))).

Definition DeleteComment (namespace id : string) : M (option client_error) := send "DELETE" ("/runs/" +:+ PathEscape id +:+ "/comment") (ns namespace).

(** ** Test cases *)

Definition RunTestCases `{JSON (list CaseRow)} (namespace id : string) (failedOnly : bool) : M (result client_error (list CaseRow)) :=
  let q := if failedOnly then Set_ "status" "failed" (ns namespace) else ns namespace in
  getJSON ("/runs/" +:+ PathEscape id +:+ "/testcases") q.

(** With the ratio of the Test's runs that passed. *)
Definition TestStats `{JSON (list (ApiServer.TestStats * option spec_float))} (namespace since : string) (recent : Z) : M (result client_error (list (ApiServer.TestStats * option spec_float))) :=
  getJSON "/stats/tests" (set_limit "recent" recent (set_some "since" since (ns namespace))).

(** With whether the case is flaky. *)
Definition TestCaseStats `{JSON (list (CaseStats * bool))} (namespace test : string) (runs : Z) : M (result client_error (list (CaseStats * bool))) :=
  getJSON ("/tests/" +:+ PathEscape test +:+ "/testcases") (set_limit "runs" runs (ns namespace)).

Definition TestCaseHistory `{JSON (list CaseRun)} (namespace test caseKey : string) (limit : Z) : M (result client_error (list CaseRun)) :=
  getJSON ("/tests/" +:+ PathEscape test +:+ "/testcases/history") (set_limit "limit" limit (Set_ "case" caseKey (ns namespace))).

(** ** Audit *)

Record ListAuditOptions := mkListAudit { la_Namespace : string; la_Actor : string; la_Action : string; la_Limit : Z; la_Before : string }.
Record AuditPage := mkAuditPage { au_Entries : list AuditEntry; au_NextCursor : string }.

(** The order of the map of options does not matter: they are distinct keys. *)
Definition audit_query (o : ListAuditOptions) : Values :=
  set_limit "limit" (la_Limit o) (set_some "before" (la_Before o) (set_some "action" (la_Action o) (set_some "actor" (la_Actor o) (ns (la_Namespace o))))).

Definition ListAudit `{JSON (list AuditEntry)} (o : ListAuditOptions) : M (result client_error AuditPage) :=
  resp ← do_ "GET" "/audit" (audit_query o) None;
  match resp with
  | Err e => Ret (Err e)
  | Ok resp =>
      match Unmarshal (rs_Body resp) with
      | Err e => Ret (Err (OtherError ("apiclient: decode audit: " +:+ e)))
      | Ok entries => Ret (Ok (mkAuditPage entries (rs_NextCursor resp)))
      end
  end.

(** ** Logs and artifacts *)

Definition OpenStageLogsFrom (namespace id stage : string) (offset : Z) : M (result client_error string) :=
  resp ← do_ "GET" ("/runs/" +:+ PathEscape id +:+ "/logs.txt") (set_limit "offset" offset (set_some "stage" stage (ns namespace))) None;
  match resp with Err e => Ret (Err e) | Ok resp => Ret (Ok (rs_Body resp)) end.
Definition OpenLogsFrom (namespace id : string) (offset : Z) : M (result client_error string) := OpenStageLogsFrom namespace id "" offset.
Definition OpenLogs (namespace id : string) : M (result client_error string) := OpenLogsFrom namespace id 0.

Definition ListArtifacts `{JSON (list ArtifactEntry)} (namespace id : string) : M (result client_error (list ArtifactEntry)) :=
  getJSON ("/runs/" +:+ PathEscape id +:+ "/artifacts") (ns namespace).

(** Every segment of a path, escaped. *)
Definition escape_segments (path : string) : string := str_join "/" (PathEscape <$> Split slash path).

Record ArtifactStream := mkStream { as_Body : string; as_ContentType : string; as_Length : Z }.

Definition OpenArtifact (namespace id path : string) : M (result client_error ArtifactStream) :=
  resp ← do_ "GET" ("/runs/" +:+ PathEscape id +:+ "/artifacts/" +:+ escape_segments path) (ns namespace) None;
  match resp with Err e => Ret (Err e) | Ok resp => Ret (Ok (mkStream (rs_Body resp) (rs_ContentType resp) (rs_Length resp))) end.

Definition live_query (q : Values) (namespace worker : string) : Values :=
  let q := delete QueryWorker (ns namespace ∪ q) in
  if negb (worker =? "")%string then Set_ QueryWorker worker q else q.

Definition OpenLiveView (namespace id worker path rawQuery : string) : M (result client_error HTTPResponse) :=
  match ParseQuery rawQuery with
  | (_, Some e) => Ret (Err (OtherError ("apiclient: live view query: " +:+ e)))
  | (q, None) => do_ "GET" ("/runs/" +:+ PathEscape id +:+ "/live/" +:+ escape_segments path) (live_query q namespace worker) None
  end.

Definition RunEvents `{JSON (list RunEvent)} (namespace id : string) : M (result client_error (list RunEvent)) :=
  getJSON ("/runs/" +:+ PathEscape id +:+ "/events") (ns namespace).

Definition Healthz : M (option client_error) := send "GET" "/healthz" ∅.

End Methods.

End Client.
