(* ===== verification/ClientSpec.v ===== *)
(** * What the client and the server promise each other

    Every request a client's method sends is one the server's routes give to the
    handler of that method, with the names, the namespace and the options that were
    asked for: whatever characters they have.  An error the server answers with is
    the error the client returns. *)
From Stdlib Require Import SpecFloat.
From S2P Require Import Prelude Api GoLib Names Keys Paths Objects Effects Urls Store Triggers ApiRuns ApiServer Routes Client.

Module ClientSpec.
Import Keys Paths Urls Store ApiRuns ApiServer Routes Client.

(** ** Routing an escaped path *)

(** A segment a cleaned path keeps. *)
Definition nameable (s : string) : Prop := s ≠ "" ∧ s ≠ "." ∧ s ≠ "..".

Lemma PathEscape_id_dots s : all_bytes (Ascii.eqb ".") s = true → PathEscape s = s.
Proof.
  unfold PathEscape. induction s as [|c s IH]; [done|]. cbn [all_bytes]. intros [<-%Ascii.eqb_eq Hs]%andb_true_iff. cbn [escape]. by rewrite IH.
Qed.

Lemma PathEscape_proper s : nameable s → proper (PathEscape s).
Proof.
  intros (H1 & H2 & H3). apply proper_iff. split; [apply PathEscape_no_slash|].
  assert (Hinj : ∀ t, all_bytes (Ascii.eqb ".") t = true → PathEscape s = t → s = t).
  { intros t Ht Hs. rewrite <- (PathEscape_id_dots t Ht) in Hs. apply (f_equal PathUnescape) in Hs. unfold PathUnescape, PathEscape in Hs.
    rewrite !unescape_escape in Hs. by injection Hs. }
  split_and!; intros E; [apply H1|apply H2|apply H3]; by apply Hinj.
Qed.

Lemma Clean_of_proper ss : Forall proper ss → Clean (rooted ss) = rooted ss.
Proof. intros Hs. rewrite Clean_rooted by done. by rewrite clean_elems_rooted. Qed.

Lemma HasSuffixSlash_app a b : b ≠ "" → HasSuffixSlash (a +:+ b) = HasSuffixSlash b.
Proof.
  intros Hb. unfold HasSuffixSlash. f_equal. rewrite str_drop_app, str_length_app. assert (0 < String.length b) by (destruct b; [done|cbn; lia]).
  rewrite str_drop_all by lia. by replace (String.length a + String.length b - 1 - String.length a) with (String.length b - 1) by lia.
Qed.
Lemma HasSuffixSlash_no_slash s : s ≠ "" → no_slash s = true → HasSuffixSlash s = false.
Proof.
  induction s as [|c s IH]; [done|]. intros _ [Hc Hs]%andb_true_iff. destruct s as [|d s].
  - unfold HasSuffixSlash. cbn [String.length str_drop]. apply String.eqb_neq. intros [= ->]. done.
  - change (String c (String d s)) with (String c "" +:+ String d s). rewrite HasSuffixSlash_app by done. by apply IH.
Qed.

Lemma join_not_empty ss : Forall proper ss → ss ≠ [] → str_join "/" ss ≠ "".
Proof.
  destruct ss as [|s [|t ss]]; [done| |]; intros [(_ & Hs & _)%proper_iff _]%Forall_cons _; [done|].
  change (str_join "/" (s :: t :: ss)) with (s +:+ "/" +:+ str_join "/" (t :: ss)). by destruct s.
Qed.
Lemma join_suffix ss : Forall proper ss → ss ≠ [] → HasSuffixSlash (str_join "/" ss) = false.
Proof.
  induction ss as [|s ss IH]; [done|]. intros [Hs Hss]%Forall_cons _. destruct ss as [|t ss].
  - apply proper_iff in Hs as (H1 & H2 & _). by apply HasSuffixSlash_no_slash.
  - change (str_join "/" (s :: t :: ss)) with (s +:+ ("/" +:+ str_join "/" (t :: ss))).
    rewrite !HasSuffixSlash_app by (done || by apply join_not_empty). by apply IH.
Qed.
Lemma rooted_suffix ss : Forall proper ss → ss ≠ [] → HasSuffixSlash (rooted ss) = false.
Proof. intros Hs Hne. unfold rooted. rewrite HasSuffixSlash_app by (by apply join_not_empty). by apply join_suffix. Qed.

Lemma segments_rooted ss : Forall proper ss → ss ≠ [] → segments (rooted ss) = ss.
Proof. intros Hs Hne. unfold segments. apply Split_join; [by apply proper_no_slash|done]. Qed.

Lemma cleanPath_rooted ss : Forall proper ss → ss ≠ [] → cleanPath (rooted ss) = rooted ss.
Proof. intros Hs Hne. unfold cleanPath. change (HasPrefix (rooted ss) "/") with true. cbn iota zeta. by rewrite rooted_suffix, Clean_of_proper. Qed.

Lemma unescape_joined us : PathUnescape (str_join "/" (PathEscape <$> us)) = Ok (str_join "/" us).
Proof.
  unfold PathUnescape. induction us as [|u us IH]; [done|]. destruct us as [|v us]; [apply unescape_escape|].
  change (str_join "/" (PathEscape <$> u :: v :: us)) with (PathEscape u +:+ ("/" +:+ str_join "/" (PathEscape <$> v :: us))).
  apply unescape_app; [apply unescape_escape|]. by apply unescape_app.
Qed.

(** Matching a pattern with the names themselves. *)
Fixpoint match_names (ps : list segment_pattern) (us : list string) : option (list (string * string)) :=
  match ps, us with
  | [], [] => Some []
  | Rest n :: _, _ :: _ => Some [(n, str_join "/" us)]
  | Literal l :: ps, u :: us => if (u =? l)%string then match_names ps us else None
  | Wildcard n :: ps, u :: us => if (u =? "")%string then None else vs ← match_names ps us; Some ((n, u) :: vs)
  | _, _ => None
  end.

Lemma match_escaped ps us : match_segments ps (PathEscape <$> us) = match_names ps us.
Proof.
  revert us. induction ps as [|p ps IH]; intros [|u us]; [done| |destruct p; done|]; [done|].
  assert (Hp : pathUnescape (PathEscape u) = u) by (unfold pathUnescape, PathUnescape, PathEscape; by rewrite unescape_escape).
  destruct p as [l|n|n]; cbn [fmap list_fmap match_segments match_names].
  - rewrite Hp. destruct (u =? l)%string; [|done]. by apply IH.
  - rewrite Hp. change (list_fmap string string PathEscape us) with (PathEscape <$> us). rewrite IH.
    destruct (String.eqb_spec u "") as [->|Hne]; [done|]. destruct (String.eqb_spec (PathEscape u) "") as [E|_]; [|done]. by apply escape_nil in E.
  - do 3 f_equal. unfold pathUnescape. pose proof (unescape_joined (u :: us)) as E. cbn [fmap list_fmap] in E. by rewrite E.
Qed.

Lemma count_byte_app c a b : count_byte c (a +:+ b) = count_byte c a + count_byte c b.
Proof. induction a as [|d a IH]; [done|]. rewrite str_app_cons. cbn [count_byte]. rewrite IH. lia. Qed.
Lemma count_no_slash s : no_slash s = true → count_byte slash s = 0.
Proof. induction s as [|d s IH]; [done|]. cbn [no_slash count_byte]. rewrite Ascii.eqb_sym. intros [Hd Hs]%andb_true_iff. apply negb_true_iff in Hd. by rewrite Ascii.eqb_sym, Ascii.eqb_sym, Hd, IH. Qed.

Lemma count_joined ss : Forall (fun e => no_slash e = true) ss → ss ≠ [] → S (count_byte slash (str_join "/" ss)) = length ss.
Proof.
  induction ss as [|s ss IH]; [done|]. intros [Hs Hss]%Forall_cons _. destruct ss as [|t ss]; [cbn; by rewrite count_no_slash|].
  change (str_join "/" (s :: t :: ss)) with (s +:+ ("/" +:+ str_join "/" (t :: ss))). rewrite !count_byte_app, count_no_slash by done.
  change (count_byte slash "/") with 1. specialize (IH Hss ltac:(done)). cbn [length] in *. lia.
Qed.

(** The first pattern that names match. *)
Definition route_names (method : string) (us : list string) : option (Pattern * list (string * string)) :=
  head (omap (fun p => if match_method p.1 method then vs ← match_names (parse_segment <$> segments p.2) us; Some (p, vs) else None) patterns).

Lemma escaped_proper us : Forall nameable us → Forall proper (PathEscape <$> us).
Proof. intros Hu. apply Forall_fmap. eapply Forall_impl; [exact Hu|]. intros u. apply PathEscape_proper. Qed.
Lemma escaped_not_nil us : us ≠ [] → PathEscape <$> us ≠ [].
Proof. by destruct us. Qed.

Lemma omap_ext_all {A B} (f g : A → option B) (xs : list A) : (∀ x, f x = g x) → omap f xs = omap g xs.
Proof. intros Hf. induction xs as [|x xs IH]; [done|]. cbn. by rewrite Hf, IH. Qed.

Lemma find_names method path us : segments path = PathEscape <$> us → find_pattern patterns method path = route_names method us.
Proof.
  intros Hs. unfold find_pattern, route_names. apply (f_equal head), omap_ext_all. intros p. unfold match_pattern.
  rewrite Hs, match_escaped. reflexivity.
Qed.

Lemma patterns_short_check : forallb (fun p : Pattern => (length (segments p.2) <=? 4)%nat) patterns = true.
Proof. vm_compute. reflexivity. Qed.

Lemma pattern_short q : q ∈ patterns → length (segments q.2) ≤ 4.
Proof. intros Hq%list_elem_of_In. apply Nat.leb_le. exact (proj1 (forallb_forall _ _) patterns_short_check q Hq). Qed.
Lemma find_pattern_elem pats method path q ws : find_pattern pats method path = Some (q, ws) → q ∈ pats.
Proof.
  unfold find_pattern. intros (x & Hx & Hm)%head_Some_elem_of%list_elem_of_omap. unfold match_pattern in Hm.
  destruct (match_method _ _); [|done]. destruct (match_segments _ _); [|done]. cbn in Hm. by injection Hm as <- _.
Qed.

(** The path of some names, and of a directory: with a slash at its end. *)
Definition path_of (us : list string) : string := rooted (PathEscape <$> us).
Definition dir_of (us : list string) : string := path_of us +:+ "/".

Section Paths.
Context (us : list string) (Hu : Forall nameable us) (Hne : us ≠ []).

Lemma segments_path : segments (path_of us) = PathEscape <$> us.
Proof. apply segments_rooted; [by apply escaped_proper|by apply escaped_not_nil]. Qed.
Lemma segments_dir : segments (dir_of us) = PathEscape <$> us ++ [""].
Proof.
  unfold dir_of, path_of, rooted, segments. rewrite str_app_assoc. change (str_drop 1 ("/" +:+ (str_join "/" (PathEscape <$> us) +:+ "/"))) with (str_join "/" (PathEscape <$> us) +:+ "/" +:+ "").
  rewrite Split_app, Split_join, fmap_app; [done|apply proper_no_slash; by apply escaped_proper|by apply escaped_not_nil].
Qed.
Lemma suffix_path : HasSuffixSlash (path_of us) = false.
Proof. apply rooted_suffix; [by apply escaped_proper|by apply escaped_not_nil]. Qed.
Lemma suffix_dir : HasSuffixSlash (dir_of us) = true.
Proof. unfold dir_of. by rewrite HasSuffixSlash_app. Qed.
Lemma clean_path : cleanPath (path_of us) = path_of us.
Proof. apply cleanPath_rooted; [by apply escaped_proper|by apply escaped_not_nil]. Qed.
Lemma Clean_dir : Clean (dir_of us) = path_of us.
Proof.
  rewrite Clean_rooted by done. unfold path_of, dir_of. f_equal. unfold path_of.
  change (rooted (PathEscape <$> us) +:+ "/") with (rooted (PathEscape <$> us) +:+ "/" +:+ ""). rewrite clean_elems_app by done.
  rewrite clean_elems_rooted by (by apply escaped_proper). change (foldl (clean_step true) (reverse (PathEscape <$> us)) (Split slash "")) with (reverse (PathEscape <$> us)).
  by rewrite reverse_involutive.
Qed.
Lemma clean_dir : cleanPath (dir_of us) = dir_of us.
Proof.
  unfold cleanPath. change (HasPrefix (dir_of us) "/") with true. cbn iota zeta. rewrite suffix_dir, Clean_dir.
  destruct (String.eqb_spec (path_of us) "/") as [E|_]; [|done]. pose proof suffix_path as Hs. rewrite E in Hs. discriminate Hs.
Qed.
Lemma slashes_dir : count_byte slash (dir_of us) = S (length us).
Proof.
  unfold dir_of, path_of, rooted. rewrite !count_byte_app. change (count_byte slash "/") with 1.
  pose proof (count_joined (PathEscape <$> us) (proper_no_slash _ (escaped_proper us Hu)) (escaped_not_nil us Hne)) as Hc. rewrite length_fmap in Hc. lia.
Qed.

(** A path of names is given to the pattern they match, if it does not end in a rest. *)
Lemma route_path method p vs :
  route_names method us = Some (p, vs) → ends_in_rest p = false → findHandler patterns method (path_of us) = Serve p vs.
Proof.
  intros Hr Hp. unfold findHandler. rewrite clean_path, (find_names _ _ us segments_path), Hr.
  cbn [exactMatch]. rewrite suffix_path. cbn [negb]. rewrite Hp. cbn [negb andb]. by rewrite String.eqb_refl.
Qed.

(** A path that is cleaned to it is redirected to it. *)
Lemma route_redirect method path p vs :
  cleanPath path = path_of us → path ≠ path_of us → route_names method us = Some (p, vs) → ends_in_rest p = false →
  findHandler patterns method path = Redirect (path_of us).
Proof.
  intros Hc Hd Hr Hp. unfold findHandler. rewrite Hc, (find_names _ _ us segments_path), Hr.
  cbn [exactMatch]. rewrite suffix_path. cbn [negb]. rewrite Hp. cbn [negb andb]. by rewrite (proj2 (String.eqb_neq _ _)) by done.
Qed.

(** As well when it does, and there are as many names. *)
Lemma route_long method p vs :
  route_names method us = Some (p, vs) → 4 ≤ length us → findHandler patterns method (path_of us) = Serve p vs.
Proof.
  intros Hr Hl. unfold findHandler. rewrite clean_path, (find_names _ _ us segments_path), Hr. fold (dir_of us).
  assert (exactMatch (find_pattern patterns method (dir_of us)) (dir_of us) = false) as ->.
  { destruct (find_pattern patterns method (dir_of us)) as [[q ws]|] eqn:Eq; [|done]. cbn [exactMatch]. rewrite suffix_dir, slashes_dir. cbn [negb].
    apply Nat.eqb_neq. pose proof (pattern_short q (find_pattern_elem _ _ _ _ _ Eq)). lia. }
  rewrite !andb_false_r. by rewrite String.eqb_refl.
Qed.

(** And of a directory, to the pattern of its names and the empty rest. *)
Lemma route_dir method p vs : route_names method (us ++ [""]) = Some (p, vs) → findHandler patterns method (dir_of us) = Serve p vs.
Proof.
  intros Hr. unfold findHandler. rewrite clean_dir, (find_names _ _ (us ++ [""]) segments_dir), Hr, suffix_dir.
  rewrite !andb_false_r. by rewrite String.eqb_refl.
Qed.
End Paths.

(** ** What a query's reader sees *)

(** The options that were given, by their keys. *)
Definition asked (kvs : list (string * option string)) : strmap :=
  foldr (fun kv m => match kv.2 with Some v => <[kv.1 := v]> m | None => m end) ∅ kvs.
(** A text that is given when it is not empty, a number when it is positive. *)
Definition given_text (v : string) : option string := if (v =? "")%string then None else Some v.
Definition given_number (n : Z) : option string := if (0 <? n)%Z then Some (itoa n) else None.

Definition firsts (q : Values) : strmap := omap head q.

Lemma firsts_Set k v q : firsts (Set_ k v q) = <[k := v]> (firsts q).
Proof. unfold firsts, Set_. by rewrite omap_insert. Qed.
Lemma firsts_set_some k v q kvs : firsts q = asked kvs → firsts (set_some k v q) = asked ((k, given_text v) :: kvs).
Proof. intros Hq. unfold set_some, given_text. destruct (v =? "")%string; cbn; [done|]. by rewrite firsts_Set, Hq. Qed.
Lemma firsts_set_limit k n q kvs : firsts q = asked kvs → firsts (set_limit k n q) = asked ((k, given_number n) :: kvs).
Proof. intros Hq. unfold set_limit, given_number. destruct (0 <? n)%Z; cbn; [|done]. by rewrite firsts_Set, Hq. Qed.
Lemma firsts_Set_asked k v q kvs : firsts q = asked kvs → firsts (Set_ k v q) = asked ((k, Some v) :: kvs).
Proof. intros Hq. by rewrite firsts_Set, Hq. Qed.
Lemma firsts_empty : firsts ∅ = asked [].
Proof. apply omap_empty. Qed.
Lemma firsts_ns namespace : firsts (ns namespace) = asked [(QueryNamespace, given_text namespace)].
Proof. unfold ns, given_text. destruct (namespace =? "")%string; [done|]. apply firsts_Set. Qed.

Lemma proper_Set k v q : proper_values q → proper_values (Set_ k v q).
Proof. intros Hq k'. unfold Set_. destruct (decide (k = k')) as [->|Hne]; [by rewrite lookup_insert_eq|]. by rewrite lookup_insert_ne. Qed.
Lemma proper_empty : proper_values ∅.
Proof. intros k. by rewrite lookup_empty. Qed.
Lemma proper_set_some k v q : proper_values q → proper_values (set_some k v q).
Proof. unfold set_some. destruct (negb _); [apply proper_Set|done]. Qed.
Lemma proper_set_limit k n q : proper_values q → proper_values (set_limit k n q).
Proof. unfold set_limit. destruct (0 <? n)%Z; [apply proper_Set|done]. Qed.
Lemma proper_ns namespace : proper_values (ns namespace).
Proof. unfold ns. destruct (negb _); [apply proper_Set|]; apply proper_empty. Qed.
Lemma proper_write_query o namespace : proper_values (write_query o namespace).
Proof. unfold write_query. destruct (wo_DryRun o); [apply proper_Set|]; apply proper_ns. Qed.
Lemma firsts_write_query o namespace :
  firsts (write_query o namespace) = asked [(QueryDryRun, if wo_DryRun o then Some "true" else None); (QueryNamespace, given_text namespace)].
Proof. unfold write_query. destruct (wo_DryRun o); [apply firsts_Set_asked|]; apply firsts_ns. Qed.
Lemma proper_list_query o : proper_values (list_query o).
Proof. unfold list_query. destruct (lo_FinishedAfter o); [apply proper_Set|]; apply proper_set_limit; do 5 apply proper_set_some; apply proper_ns. Qed.
Lemma firsts_list_query o : firsts (list_query o) =
  asked [("finishedAfter", RFC3339 <$> lo_FinishedAfter o); ("limit", given_number (lo_Limit o)); ("after", given_text (lo_After o));
    ("parent", given_text (lo_Parent o)); ("source", given_text (lo_Source o)); ("phase", given_text (lo_Phase o)); ("test", given_text (lo_Test o));
    (QueryNamespace, given_text (lo_Namespace o))].
Proof. unfold list_query. destruct (lo_FinishedAfter o); [apply firsts_Set_asked|]; apply firsts_set_limit; do 5 apply firsts_set_some; apply firsts_ns. Qed.
Lemma proper_audit_query o : proper_values (audit_query o).
Proof. unfold audit_query. apply proper_set_limit. do 3 apply proper_set_some. apply proper_ns. Qed.
Lemma firsts_audit_query o : firsts (audit_query o) =
  asked [("limit", given_number (la_Limit o)); ("before", given_text (la_Before o)); ("action", given_text (la_Action o)); ("actor", given_text (la_Actor o));
    (QueryNamespace, given_text (la_Namespace o))].
Proof. unfold audit_query. apply firsts_set_limit. do 3 apply firsts_set_some. apply firsts_ns. Qed.
Lemma proper_live_query namespace worker : proper_values (live_query ∅ namespace worker).
Proof.
  assert (Hd : proper_values (delete QueryWorker (ns namespace ∪ ∅))).
  { intros k. rewrite map_union_empty. destruct (decide (k = QueryWorker)) as [->|Hne]; [by rewrite lookup_delete_eq|]. rewrite lookup_delete_ne by done. apply proper_ns. }
  unfold live_query. destruct (negb _); [apply proper_Set|]; exact Hd.
Qed.
Lemma firsts_live_query namespace worker :
  firsts (live_query ∅ namespace worker) = asked [(QueryWorker, given_text worker); (QueryNamespace, given_text namespace)].
Proof.
  assert (Hd : firsts (delete QueryWorker (ns namespace ∪ ∅)) = asked [(QueryNamespace, given_text namespace)]).
  { rewrite map_union_empty, delete_id; [apply firsts_ns|]. unfold ns. destruct (negb _); [|done]. unfold Set_. by rewrite lookup_insert_ne. }
  unfold live_query, given_text. destruct (worker =? "")%string; cbn [negb]; [exact Hd|]. by rewrite firsts_Set, Hd.
Qed.
Create HintDb values.
#[local] Hint Resolve proper_write_query firsts_write_query proper_list_query firsts_list_query proper_audit_query firsts_audit_query
  proper_live_query firsts_live_query : values.
#[local] Hint Resolve proper_Set proper_empty proper_set_some proper_set_limit proper_ns firsts_set_some firsts_set_limit firsts_Set_asked firsts_ns firsts_empty : values.

(** ** One request, and the handler it reaches *)

Definition reaches (c : Client) {A} (p : prog HOp A) (pat : Pattern) (r : Request) (body : string) : Prop :=
  ∃ h k path vs, p = Do (HTTPDo h) k ∧ (∀ resp, ∃ a, k resp = Ret a) ∧ hr_EscapedPath h = cl_base c +:+ path ∧
    findHandler patterns (hr_Method h) path = Serve pat vs ∧ request_of h vs = r ∧ hr_Body h = body.

Lemma reaches_bind c {A B} (p : prog HOp A) (f : A → prog HOp B) pat r body :
  reaches c p pat r body → (∀ a, ∃ b, f a = Ret b) → reaches c (p ≫= f) pat r body.
Proof.
  intros (h & k & path & vs & -> & Hk & Hrest) Hf. exists h, (fun x => k x ≫= f), path, vs. split; [done|]. split; [|done].
  intros resp. destruct (Hk resp) as [a ->]. apply Hf.
Qed.

(** A base URL's path as url.URL.EscapedPath gives it. *)
Definition good_base (c : Client) : Prop := validEncoded (cl_base c) = true ∧ is_ok (PathUnescape (cl_base c)) = true.

Lemma validEncoded_path us : validEncoded (path_of us) = true.
Proof.
  unfold path_of, rooted. rewrite validEncoded_app. cbn [andb]. induction us as [|u [|v us] IH]; [done|apply validEncoded_PathEscape|].
  change (str_join "/" (PathEscape <$> u :: v :: us)) with (PathEscape u +:+ ("/" +:+ str_join "/" (PathEscape <$> v :: us))).
  by rewrite !validEncoded_app, validEncoded_PathEscape, IH.
Qed.
Lemma unescape_path us : PathUnescape (path_of us) = Ok ("/" +:+ str_join "/" us).
Proof. unfold path_of, rooted. apply unescape_app; [done|]. apply unescape_joined. Qed.

(** The same of names that are not empty, which a wildcard always takes. *)
Fixpoint match_nonempty (ps : list segment_pattern) (us : list string) : option (list (string * string)) :=
  match ps, us with
  | [], [] => Some []
  | Rest n :: _, _ :: _ => Some [(n, str_join "/" us)]
  | Literal l :: ps, u :: us => if (u =? l)%string then match_nonempty ps us else None
  | Wildcard n :: ps, u :: us => vs ← match_nonempty ps us; Some ((n, u) :: vs)
  | _, _ => None
  end.
Definition route_nonempty (method : string) (us : list string) : option (Pattern * list (string * string)) :=
  head (omap (fun p => if match_method p.1 method then vs ← match_nonempty (parse_segment <$> segments p.2) us; Some (p, vs) else None) patterns).
Lemma match_nonempty_ok ps us : Forall nameable us → match_names ps us = match_nonempty ps us.
Proof.
  revert us. induction ps as [|p ps IH]; intros [|u us] Hu; [done..|]. pose proof Hu as [(Hne & _) Hus]%Forall_cons.
  destruct p; cbn [match_names match_nonempty]; rewrite ?(IH us Hus), ?(proj2 (String.eqb_neq u "") Hne); done.
Qed.
Lemma route_nonempty_ok method us : Forall nameable us → route_names method us = route_nonempty method us.
Proof. intros Hu. unfold route_names, route_nonempty. apply (f_equal head), omap_ext_all. intros p. by rewrite (match_nonempty_ok _ _ Hu). Qed.

Section Sends.
Context `{JSON (string * string)} (c : Client) (Hbase : good_base c).

(** What is sent: the path as it is, after the base's. *)
Lemma do_sends method path q body us : path = path_of us ∨ path = dir_of us →
  ∃ k, do_ c method path q body =
         Do (HTTPDo (mkHTTP method (cl_base c +:+ path) (Encode q) (cl_user c) (cl_token c) (bool_decide (is_Some body)) (default "" body))) k ∧
       ∀ resp, ∃ a, k resp = Ret a.
Proof.
  intros Hp. destruct Hbase as [Hv Hu].
  assert (Hpath : validEncoded path = true ∧ is_ok (PathUnescape path) = true ∧ path ≠ "").
  { pose proof (validEncoded_path us) as Hvp. pose proof (unescape_path us) as Hup.
    destruct Hp as [->| ->]; [by rewrite Hvp, Hup|]. unfold dir_of. rewrite validEncoded_app, Hvp. split; [done|].
    unfold PathUnescape in *. by rewrite (unescape_app _ _ _ "/" _ Hup). }
  destruct Hpath as (Hvp & Hup & Hne). destruct (PathUnescape (cl_base c)) as [b|] eqn:Eb; [|done]. destruct (PathUnescape path) as [p'|] eqn:Ep; [|done].
  unfold do_. assert (Eraw : PathUnescape (cl_base c +:+ path) = Ok (b +:+ p')) by (by apply unescape_app). rewrite Eraw.
  assert (Hraw : cl_base c +:+ path ≠ "") by (destruct (cl_base c); [done|discriminate]).
  rewrite (EscapedPath_as_is (cl_base c +:+ path) (b +:+ p')); [|done|by rewrite validEncoded_app, Hv, Hvp|done].
  eexists. split; [reflexivity|]. intros [resp|e]; [|by eexists]. cbn. destruct (_ && _); by eexists.
Qed.

Lemma do_reaches method path q body us pat vs :
  path = path_of us ∨ path = dir_of us → proper_values q → findHandler patterns method path = Serve pat vs →
  reaches c (do_ c method path q body) pat
    (mkRequest (firsts q) (PathValue vs "id") (PathValue vs "name") (PathValue vs "path") (cl_user c) (cl_token c)) (default "" body).
Proof.
  intros Hp Hq Hf. destruct (do_sends method path q body us Hp) as (k & -> & Hk). eexists _, _, path, vs. split; [reflexivity|]. split; [done|].
  split; [done|]. split; [exact Hf|]. split; [|done]. unfold request_of. cbn [hr_RawQuery hr_User hr_Token]. by rewrite ParseQuery_Encode.
Qed.

Lemma sendJSON_reaches {A} `{JSON A} method path q body pat r : 
  ∀ b, reaches c (do_ c method path q body) pat r b → reaches c (sendJSON c method path q body : prog HOp (result client_error A)) pat r b.
Proof. intros b Hr. apply reaches_bind; [done|]. intros [resp|e]; [|by eexists]. destruct (Unmarshal _); by eexists. Qed.

Lemma reaches_names method us pat vs q kvs body r b :
  Forall nameable us → us ≠ [] → route_nonempty method us = Some (pat, vs) → ends_in_rest pat = false → proper_values q → firsts q = asked kvs →
  r = mkRequest (asked kvs) (PathValue vs "id") (PathValue vs "name") (PathValue vs "path") (cl_user c) (cl_token c) → b = default "" body →
  reaches c (do_ c method (path_of us) q body) pat r b.
Proof. intros Hu Hne Hr Hp Hq <- -> ->. rewrite <- route_nonempty_ok in Hr by done. apply (do_reaches _ _ _ _ us); [by left|done|by apply route_path]. Qed.

Lemma reaches_rest method us pat vs q kvs body r b :
  Forall nameable us → 4 ≤ length us → route_nonempty method us = Some (pat, vs) → proper_values q → firsts q = asked kvs →
  r = mkRequest (asked kvs) (PathValue vs "id") (PathValue vs "name") (PathValue vs "path") (cl_user c) (cl_token c) → b = default "" body →
  reaches c (do_ c method (path_of us) q body) pat r b.
Proof. intros Hu Hl Hr Hq <- -> ->. rewrite <- route_nonempty_ok in Hr by done. apply (do_reaches _ _ _ _ us); [by left|done|apply route_long; [done|intros ->; cbn in Hl; lia|done..]]. Qed.
End Sends.

(** Names that are literals, or known to be nameable. *)
Ltac names := repeat (apply Forall_cons_2; [first [assumption|by split_and!]|]); apply Forall_nil_2.

(** A request to the path of some names. *)
Ltac sends names_ :=
  lazymatch goal with
  | |- reaches _ (sendJSON _ _ _ _ _) _ _ _ => apply sendJSON_reaches; sends names_
  | |- reaches _ (getJSON _ _ _) _ _ _ => apply sendJSON_reaches; sends names_
  | |- reaches _ (mbind _ _) _ _ _ => apply reaches_bind; [sends names_|intros [?|?]; try destruct (Unmarshal _); by eexists]
  | |- reaches _ (do_ _ ?m ?p ?q ?b) _ _ _ =>
      change p with (path_of names_);
      eapply reaches_names with (us := names_); [assumption|names|discriminate|reflexivity|reflexivity|eauto 9 with values|eauto 9 with values|reflexivity|reflexivity]
  end.

Lemma join_Split s : str_join "/" (Split slash s) = s.
Proof.
  induction s as [|c s IH]; [done|]. cbn [Split]. pose proof (Split_not_nil s) as Hne. destruct (Ascii.eqb_spec c slash) as [->|Hc].
  - destruct (Split slash s) as [|x xs]; [done|]. change (str_join "/" ("" :: x :: xs)) with ("/" +:+ str_join "/" (x :: xs)). by rewrite IH.
  - destruct (Split slash s) as [|x xs]; [done|]. rewrite <- IH. by destruct xs.
Qed.

Section Arrivals.
Context `{JSON (string * string)} `{JSON (list Test)} `{JSON Test} `{JSON VersionedTest} `{JSON Triggers.json} `{JSON (list TestTemplate)} `{JSON ResolvedTest} `{JSON ApiRuns.Run}
  `{JSON (list ApiRuns.Run)} `{JSON TestRun} `{JSON (string * TestRun)} `{JSON AbortOptions} `{JSON CommentOptions} `{JSON Comment} `{JSON (list CaseRow)} `{JSON (list (ApiServer.TestStats * option spec_float))}
  `{JSON (list (CaseStats * bool))} `{JSON (list CaseRun)} `{JSON (list AuditEntry)} `{JSON (list ArtifactEntry)} `{JSON (list RunEvent)}.
Context (c : Client).

(** The request with some options and the values of its path. *)
Definition with_options (kvs : list (string * option string)) (id name path : string) : Request := mkRequest (asked kvs) id name path (cl_user c) (cl_token c).
Definition of_ns (namespace : string) : string * option string := (QueryNamespace, given_text namespace).
Definition of_run (namespace id : string) : Request := with_options [of_ns namespace] id "" "".
Definition of_test (namespace name : string) : Request := with_options [of_ns namespace] "" name "".

Definition with_dry (o : WriteOptions) : string * option string := (QueryDryRun, if wo_DryRun o then Some "true" else None).

(** C9: whatever characters names, paths and options have, each of the client's methods sends
    one request, and the server's routes give it to the handler of that method with the
    same namespace, name or identifier, path and options, the user, the token and the
    body it was given. *)
Theorem requests_arrive namespace name id path worker text generate t run patch schedule wo lo since recent runs failedOnly case_ limit lao stage offset :
  good_base c → nameable name → nameable id → Forall nameable (Split slash path) →
  reaches c (ListTests c namespace) ("GET", "/tests") (with_options [of_ns namespace] "" "" "") "" ∧
  reaches c (GetTest c namespace name) ("GET", "/tests/{name}") (of_test namespace name) "" ∧
  reaches c (CreateTest c t wo) ("POST", "/tests") (with_options [with_dry wo; of_ns (om_Namespace (t_Meta t))] "" "" "") (Marshal t) ∧
  reaches c (PatchTestWith c namespace name patch wo) ("PATCH", "/tests/{name}") (with_options [with_dry wo; of_ns namespace] "" name "") (Marshal patch) ∧
  reaches c (SetTestSchedule c namespace name schedule) ("PATCH", "/tests/{name}") (of_test namespace name)
    (Marshal (Triggers.JObject [("spec", Triggers.JObject [("schedule", if (schedule =? "")%string then Triggers.JNull else Triggers.JString schedule)])])) ∧
  reaches c (DeleteTest c namespace name) ("DELETE", "/tests/{name}") (of_test namespace name) "" ∧
  reaches c (ListTemplates c namespace) ("GET", "/templates") (with_options [of_ns namespace] "" "" "") "" ∧
  reaches c (GetResolvedTest c namespace name) ("GET", "/tests/{name}/resolved") (of_test namespace name) "" ∧
  reaches c (ListRuns c lo) ("GET", "/runs")
    (with_options [("finishedAfter", RFC3339 <$> lo_FinishedAfter lo); ("limit", given_number (lo_Limit lo)); ("after", given_text (lo_After lo));
       ("parent", given_text (lo_Parent lo)); ("source", given_text (lo_Source lo)); ("phase", given_text (lo_Phase lo)); ("test", given_text (lo_Test lo));
       of_ns (lo_Namespace lo)] "" "" "") "" ∧
  reaches c (GetRun c namespace id) ("GET", "/runs/{id}") (of_run namespace id) "" ∧
  reaches c (CreateRun c namespace generate run) ("POST", "/runs") (with_options [of_ns namespace] "" "" "") (Marshal (generate, run)) ∧
  reaches c (AbortRun c namespace id text) ("POST", "/runs/{id}/abort") (of_run namespace id) (Marshal (mkAbortOptions text)) ∧
  reaches c (DeleteRun c namespace id) ("DELETE", "/runs/{id}") (of_run namespace id) "" ∧
  reaches c (SetComment c namespace id text) ("PUT", "/runs/{id}/comment") (of_run namespace id) (Marshal (mkCommentOptions text)) ∧
  reaches c (DeleteComment c namespace id) ("DELETE", "/runs/{id}/comment") (of_run namespace id) "" ∧
  reaches c (RunTestCases c namespace id failedOnly) ("GET", "/runs/{id}/testcases")
    (with_options [("status", if failedOnly then Some "failed" else None); of_ns namespace] id "" "") "" ∧
  reaches c (TestStats c namespace since recent) ("GET", "/stats/tests")
    (with_options [("recent", given_number recent); ("since", given_text since); of_ns namespace] "" "" "") "" ∧
  reaches c (TestCaseStats c namespace name runs) ("GET", "/tests/{name}/testcases") (with_options [("runs", given_number runs); of_ns namespace] "" name "") "" ∧
  reaches c (TestCaseHistory c namespace name case_ limit) ("GET", "/tests/{name}/testcases/history")
    (with_options [("limit", given_number limit); ("case", Some case_); of_ns namespace] "" name "") "" ∧
  reaches c (ListAudit c lao) ("GET", "/audit")
    (with_options [("limit", given_number (la_Limit lao)); ("before", given_text (la_Before lao)); ("action", given_text (la_Action lao));
       ("actor", given_text (la_Actor lao)); of_ns (la_Namespace lao)] "" "" "") "" ∧
  reaches c (OpenStageLogsFrom c namespace id stage offset) ("GET", "/runs/{id}/logs.txt")
    (with_options [("offset", given_number offset); ("stage", given_text stage); of_ns namespace] id "" "") "" ∧
  reaches c (ListArtifacts c namespace id) ("GET", "/runs/{id}/artifacts") (of_run namespace id) "" ∧
  reaches c (OpenArtifact c namespace id path) ("GET", "/runs/{id}/artifacts/{path...}") (with_options [of_ns namespace] id "" path) "" ∧
  reaches c (OpenLiveView c namespace id worker path "") ("GET", "/runs/{id}/live/{path...}")
    (with_options [(QueryWorker, given_text worker); of_ns namespace] id "" path) "" ∧
  reaches c (RunEvents c namespace id) ("GET", "/runs/{id}/events") (of_run namespace id) "" ∧
  reaches c (Healthz c) ("GET", "/healthz") (with_options [] "" "" "") "".
Proof.
  intros Hbase Hn Hi Hpath.
  assert (Hsegs : ∃ seg segs, Split slash path = seg :: segs ∧ path = str_join "/" (seg :: segs)).
  { pose proof (Split_not_nil path) as Hne. pose proof (join_Split path) as Hj. destruct (Split slash path) as [|seg segs]; [done|]. by exists seg, segs. }
  destruct Hsegs as (seg & segs & Hsplit & Hjoin). rewrite Hsplit in Hpath.
  assert (Hus : ∀ word, nameable word → Forall nameable ("runs" :: id :: word :: seg :: segs)) by (intros word Hw; repeat (apply Forall_cons_2; [first [assumption|by split_and!]|]); exact Hpath).
  split_and!.
  - unfold ListTests. sends ["tests"].
  - unfold GetTest. sends ["tests"; name].
  - unfold CreateTest. sends ["tests"].
  - unfold PatchTestWith. sends ["tests"; name].
  - unfold SetTestSchedule, PatchTest, PatchTestWith. destruct (schedule =? "")%string; sends ["tests"; name].
  - unfold DeleteTest, send. sends ["tests"; name].
  - unfold ListTemplates. sends ["templates"].
  - unfold GetResolvedTest. sends ["tests"; name; "resolved"].
  - unfold ListRuns. sends ["runs"].
  - unfold GetRun. sends ["runs"; id].
  - unfold CreateRun. sends ["runs"].
  - unfold AbortRun. sends ["runs"; id; "abort"].
  - unfold DeleteRun, send. sends ["runs"; id].
  - unfold SetComment. sends ["runs"; id; "comment"].
  - unfold DeleteComment, send. sends ["runs"; id; "comment"].
  - unfold RunTestCases. destruct failedOnly; sends ["runs"; id; "testcases"].
  - unfold TestStats. sends ["stats"; "tests"].
  - unfold TestCaseStats. sends ["tests"; name; "testcases"].
  - unfold TestCaseHistory. sends ["tests"; name; "testcases"; "history"].
  - unfold ListAudit. sends ["audit"].
  - unfold OpenStageLogsFrom. sends ["runs"; id; "logs.txt"].
  - unfold ListArtifacts. sends ["runs"; id; "artifacts"].
  - unfold OpenArtifact, escape_segments. apply reaches_bind; [|intros [?|?]; by eexists]. rewrite Hsplit.
    eapply (reaches_rest _ Hbase "GET" ("runs" :: id :: "artifacts" :: seg :: segs) _ [("id", id); ("path", str_join "/" (seg :: segs))]);
      [by apply Hus|cbn; lia|reflexivity|eauto with values|eauto with values|by rewrite Hjoin|reflexivity].
  - unfold OpenLiveView, escape_segments. change (ParseQuery "") with (∅ : Values, @None string). cbn iota beta. rewrite Hsplit.
    eapply (reaches_rest _ Hbase "GET" ("runs" :: id :: "live" :: seg :: segs) _ [("id", id); ("path", str_join "/" (seg :: segs))]);
      [by apply Hus|cbn; lia|reflexivity|eauto with values|eauto with values|by rewrite Hjoin|reflexivity].
  - unfold RunEvents. sends ["runs"; id; "events"].
  - unfold Healthz, send. sends ["healthz"].
Qed.
End Arrivals.

(** Names, options and a path with the characters a URL gives a meaning. *)
Lemma requests_arrive_witness :
  let c := mkClient "/api/v1/namespaces/kt/services/http:api:80/proxy" "ana@example.org" "s3cret" in
  let json := (fun A => Build_JSON A (fun _ => "{}") (fun _ => Err "unexpected end of JSON input")) : ∀ A, JSON A in
  good_base c ∧ nameable "a/b 1?" ∧ nameable "..." ∧
  reaches c (OpenArtifact c (H := json _) "ns&x=1" "a/b 1?" "out/50%.txt") ("GET", "/runs/{id}/artifacts/{path...}")
    (mkRequest (asked [("namespace", Some "ns&x=1")]) "a/b 1?" "" "out/50%.txt" "ana@example.org" "s3cret") "".
Proof.
  intros c json. assert (Hb : good_base c) by (split; vm_compute; reflexivity). assert (Hn : nameable "...") by (split_and!; discriminate).
  assert (Hi : nameable "a/b 1?") by (split_and!; discriminate).
  assert (Hp : Forall nameable (Split slash "out/50%.txt")) by (cbn; repeat apply Forall_cons_2; [split_and!; discriminate..|apply Forall_nil_2]).
  split; [exact Hb|]. split; [exact Hi|]. split; [exact Hn|].
  pose proof (requests_arrive c "ns&x=1" "..." "a/b 1?" "out/50%.txt" "" "" ""
    (mkTest (mkMeta "t" "ns" "u" ∅ ∅ 1 None [] []) zeroTestSpec None)
    (mkTestRun (mkMeta "t" "ns" "u" ∅ ∅ 1 None [] []) (mkRunSpec "t" ∅ None ∅ "api" None None) zeroStatus)
    Triggers.JNull "" (mkWrite true) (mkListRuns "" "" "" "" "" 0 "" None) "" 0 0 false "" 0 (mkListAudit "" "" "" 0 "") "" 0 Hb Hn Hi Hp) as Hall.
  decompose [and] Hall. eassumption.
Defined.

End ClientSpec.
