(* ===== verification/Pools.v ===== *)
(** * Goroutines: programs that run side by side

    A pool runs threads — programs over the same operations — at most so many at a
    time: a thread starts when there is room, any running one makes the next step, and
    one that returns leaves its result.  Nothing is said of the schedule; what holds
    does of every interleaving: each thread ran as it would alone. *)
From S2P Require Import Prelude Effects.

Module Pools.

(** ** Counting *)

Lemma sum_counts {B} (f : B → bool) (g : nat → nat) xs : (∀ i x, xs !! i = Some x → g i = if f x then 1 else 0) →
  sum_list_with g (seq 0 (length xs)) = countb f xs.
Proof.
  intros Hg. assert (Hk : ∀ k, (∀ i x, xs !! i = Some x → g (k + i) = if f x then 1 else 0) → sum_list_with g (seq k (length xs)) = countb f xs); [|by apply Hk].
  clear Hg. induction xs as [|x xs IH]; intros k Hg; [done|]. cbn [seq length sum_list_with]. rewrite countb_cons, (IH (S k)).
  - rewrite <- (Hg 0 x eq_refl). by rewrite Nat.add_0_r.
  - intros i y Hy. rewrite <- (Hg (S i) y Hy). f_equal. lia.
Qed.

(** ** Pools *)

Section Pool.
Context {Op : Type → Type} {A : Type}.

Record pool := mkPool { po_waiting : list (nat * prog Op A); po_running : list (nat * prog Op A); po_finished : list (nat * A) }.

Definition begin (threads : list (prog Op A)) : pool := mkPool (enumerate threads) [] [].
Definition complete (po : pool) : Prop := po_waiting po = [] ∧ po_running po = [].

(** The operations, each with the thread that performed it. *)
Definition trace : Type := list (nat * event Op).

Inductive step (slots : nat) : pool → trace → pool → Prop :=
| step_start t w r f : length r < slots → step slots (mkPool (t :: w) r f) [] (mkPool w (r ++ [t]) f)
| step_perform w r1 i R (o : Op R) k a r2 f :
    step slots (mkPool w (r1 ++ (i, Do o k) :: r2) f) [(i, Ev o a)] (mkPool w (r1 ++ (i, k a) :: r2) f)
| step_return w r1 i a r2 f : step slots (mkPool w (r1 ++ (i, Ret a) :: r2) f) [] (mkPool w (r1 ++ r2) (f ++ [(i, a)])).

Inductive steps (slots : nat) : pool → trace → pool → Prop :=
| steps_refl po : steps slots po [] po
| steps_then po tr po' tr' po'' : steps slots po tr po' → step slots po' tr' po'' → steps slots po (tr ++ tr') po''.

(** What thread [i] performed. *)
Definition of_thread (i : nat) (tr : trace) : list (event Op) := snd <$> List.filter (fun e => (e.1 =? i)%nat) tr.

Lemma of_thread_app i tr tr' : of_thread i (tr ++ tr') = of_thread i tr ++ of_thread i tr'.
Proof. unfold of_thread. by rewrite List.filter_app, fmap_app. Qed.
Lemma of_thread_nil_iff i tr : of_thread i tr = [] ↔ i ∉ tr.*1.
Proof.
  unfold of_thread. split.
  - intros Hf (e & -> & He)%list_elem_of_fmap. apply fmap_nil_inv in Hf. rewrite list_elem_of_In in He.
    assert (In e (List.filter (fun e' => (e'.1 =? e.1)%nat) tr)) as Hin by (apply filter_In; split; [done|apply Nat.eqb_refl]). by rewrite Hf in Hin.
  - induction tr as [|[j e] tr IH]; [done|]. cbn. intros Hi. destruct (Nat.eqb_spec j i) as [->|_]; [set_solver|]. apply IH. set_solver.
Qed.

(** ** Each thread runs as it would alone *)

Definition ids (po : pool) : list nat := (po_waiting po).*1 ++ (po_running po).*1 ++ (po_finished po).*1.

(** [p] is what thread [i] has left to do. *)
Definition continues (threads : list (prog Op A)) (tr : trace) (i : nat) (p : prog Op A) : Prop :=
  ∃ p0, threads !! i = Some p0 ∧ ∀ tr' a, exec p tr' a → exec p0 (of_thread i tr ++ tr') a.

Record accounted (threads : list (prog Op A)) (tr : trace) (po : pool) : Prop := {
  ac_ids : ids po ≡ₚ seq 0 (length threads);
  ac_events : Forall (fun e => e.1 < length threads) tr;
  ac_waiting : Forall (fun t => continues threads tr t.1 t.2) (po_waiting po);
  ac_running : Forall (fun t => continues threads tr t.1 t.2) (po_running po);
  ac_finished : Forall (fun t => ∃ p0, threads !! t.1 = Some p0 ∧ exec p0 (of_thread t.1 tr) t.2) (po_finished po) }.

Lemma ids_enumerate {B} (xs : list B) : (enumerate xs).*1 = seq 0 (length xs).
Proof.
  apply list_eq. intros i. rewrite list_lookup_fmap, lookup_enumerate. destruct (decide (i < length xs)) as [Hi|Hi].
  - destruct (lookup_lt_is_Some_2 xs i Hi) as [x ->]. by rewrite lookup_seq_lt by done.
  - rewrite (lookup_ge_None_2 xs i) by lia. by rewrite lookup_seq_ge by lia.
Qed.

Lemma accounted_begin threads : accounted threads [] (begin threads).
Proof.
  constructor; cbn; [| |  |  |]; try by apply Forall_nil_2.
  - unfold ids. cbn. by rewrite !app_nil_r, ids_enumerate.
  - apply Forall_forall. intros [i p] Hi. apply list_elem_of_lookup in Hi as [j Hj]. rewrite lookup_enumerate in Hj.
    destruct (threads !! j) as [q|] eqn:Eq; [|done]. cbn in Hj. injection Hj as <- <-. exists q. split; [done|]. by intros.
Qed.

Lemma of_thread_quiet (threads : list (prog Op A)) tr tr' i p : of_thread i tr' = [] → continues threads tr i p → continues threads (tr ++ tr') i p.
Proof. intros Hq (p0 & Hp & Hex). exists p0. split; [done|]. intros. rewrite of_thread_app, Hq, app_nil_r. by apply Hex. Qed.

(** A thread's event leaves the others as they were. *)
Lemma others_quiet {B} i e (xs : list (nat * B)) : i ∉ xs.*1 → Forall (fun t => of_thread t.1 [(i, e)] = []) xs.
Proof. intros Hi. apply Forall_forall. intros t Ht. apply of_thread_nil_iff. cbn. intros Hin%list_elem_of_singleton. apply Hi. rewrite <- Hin. by apply list_elem_of_fmap_2. Qed.

Lemma continues_quiet (threads : list (prog Op A)) tr tr' xs : Forall (fun t : nat * prog Op A => of_thread t.1 tr' = []) xs →
  Forall (fun t => continues threads tr t.1 t.2) xs → Forall (fun t => continues threads (tr ++ tr') t.1 t.2) xs.
Proof. intros Hq Hc. apply Forall_forall. intros t Ht. rewrite Forall_forall in Hq, Hc. by apply of_thread_quiet; auto. Qed.
Lemma finished_quiet (threads : list (prog Op A)) tr tr' (xs : list (nat * A)) : Forall (fun t => of_thread t.1 tr' = []) xs →
  Forall (fun t => ∃ p0, threads !! t.1 = Some p0 ∧ exec p0 (of_thread t.1 tr) t.2) xs →
  Forall (fun t => ∃ p0, threads !! t.1 = Some p0 ∧ exec p0 (of_thread t.1 (tr ++ tr')) t.2) xs.
Proof. intros Hq Hc. apply Forall_forall. intros t Ht. rewrite Forall_forall in Hq, Hc. rewrite of_thread_app, (Hq t Ht), app_nil_r. by apply Hc. Qed.

Lemma accounted_step slots threads tr po tr' po' : step slots po tr' po' → accounted threads tr po → accounted threads (tr ++ tr') po'.
Proof.
  intros Hs [Hids Hev Hw Hr Hf]. unfold ids in Hids. destruct Hs as [[j q] w r f Hlen|w r1 i R o k a r2 f|w r1 i a r2 f]; cbn in *.
  - rewrite app_nil_r. apply Forall_cons in Hw as [Hj Hw]. constructor; cbn; [|done|done| |done].
    + unfold ids. cbn. rewrite <- Hids, !fmap_app. cbn. by rewrite <- app_assoc, (Permutation_middle w.*1), (Permutation_middle r.*1).
    + apply Forall_app. split; [done|]. by apply Forall_singleton.
  - assert (Hnd : NoDup (w.*1 ++ (r1 ++ (i, Do o k) :: r2).*1 ++ f.*1)) by (rewrite Hids; apply NoDup_seq).
    assert (Hout : i ∉ w.*1 ∧ i ∉ r1.*1 ∧ i ∉ r2.*1 ∧ i ∉ f.*1).
    { rewrite fmap_app in Hnd. cbn in Hnd. rewrite <- app_assoc in Hnd. cbn in Hnd. rewrite <- (Permutation_middle r1.*1), <- (Permutation_middle w.*1) in Hnd.
      apply NoDup_cons in Hnd as [Hni _]. set_solver. }
    destruct Hout as (Ow & O1 & O2 & Of). apply Forall_app in Hr as [H1 (Hi & H2)%Forall_cons].
    constructor; cbn.
    + unfold ids. cbn. rewrite <- Hids, !fmap_app. done.
    + apply Forall_app. split; [done|]. apply Forall_singleton. cbn. destruct Hi as (p0 & Hp & _). by eapply lookup_lt_Some.
    + apply continues_quiet; [by apply others_quiet|done].
    + apply Forall_app. split; [apply continues_quiet; [by apply others_quiet|done]|]. apply Forall_cons. split; [|apply continues_quiet; [by apply others_quiet|done]].
      destruct Hi as (p0 & Hp & Hex). exists p0. split; [done|]. intros tr' b Hb. cbn [fst snd] in *. rewrite of_thread_app.
      assert (Hone : of_thread i [(i, Ev o a)] = [Ev o a]) by (unfold of_thread; cbn; by rewrite Nat.eqb_refl). rewrite Hone, <- app_assoc. apply Hex. by constructor.
    + apply finished_quiet; [by apply others_quiet|done].
  - rewrite app_nil_r. apply Forall_app in Hr as [H1 (Hi & H2)%Forall_cons]. constructor; cbn; [|done|done| |].
    + unfold ids. cbn. rewrite <- Hids, !fmap_app. cbn. rewrite <- !app_assoc. cbn. apply Permutation_app_head, Permutation_app_head.
      rewrite (Permutation_app_comm f.*1). cbn. by rewrite <- Permutation_middle.
    + by apply Forall_app.
    + apply Forall_app. split; [done|]. apply Forall_singleton. destruct Hi as (p0 & Hp & Hex). exists p0. split; [done|].
      cbn [fst snd]. rewrite <- (app_nil_r (of_thread i tr)). apply Hex. constructor.
Qed.

Lemma accounted_steps slots threads tr po : steps slots (begin threads) tr po → accounted threads tr po.
Proof.
  remember (begin threads) as po0 eqn:E. induction 1 as [|po tr po' tr' po'' Hs IH Hstep]; subst; [apply accounted_begin|].
  eapply accounted_step; [done|by apply IH].
Qed.

(** A pool that is complete has the result of every thread, once. *)
Lemma complete_results slots threads tr po : steps slots (begin threads) tr po → complete po →
  (po_finished po).*1 ≡ₚ seq 0 (length threads) ∧
  (∀ i a, (i, a) ∈ po_finished po → ∃ p, threads !! i = Some p ∧ exec p (of_thread i tr) a) ∧
  (∀ e, e ∈ tr → e.1 < length threads ∧ e.2 ∈ of_thread e.1 tr).
Proof.
  intros [Hids Hev _ _ Hf]%accounted_steps [Hw Hr]. unfold ids in Hids. rewrite Hw, Hr in Hids. cbn in Hids. split; [done|]. split.
  - intros i a Hi. rewrite Forall_forall in Hf. by apply (Hf (i, a)).
  - intros e He. rewrite Forall_forall in Hev. split; [by apply Hev|]. unfold of_thread. apply list_elem_of_fmap. exists e. split; [done|].
    apply list_elem_of_In, filter_In. split; [by apply list_elem_of_In|apply Nat.eqb_refl].
Qed.

(** ** Sums over the threads *)

(** Results of every thread, once: some results in the order of the threads. *)
Lemma results_enumerate {B} (results : list (nat * B)) n : results.*1 ≡ₚ seq 0 n → ∃ xs, length xs = n ∧ results ≡ₚ enumerate xs.
Proof.
  intros Hp. destruct (Permutation_map_inv fst results (Permutation_sym Hp)) as (ordered & Eo & Hperm).
  assert (Hlen : length ordered = n) by (pose proof (f_equal length Eo) as El; by rewrite length_seq, length_map in El). exists ordered.*2. split; [by rewrite length_fmap|].
  etrans; [exact Hperm|]. apply eq_subrelation; [apply _|]. apply list_eq. intros i. rewrite lookup_enumerate, list_lookup_fmap. destruct (ordered !! i) as [[j b]|] eqn:Ei; [|done]. cbn. f_equal.
  assert (Hj : seq 0 n !! i = Some j) by (rewrite Eo; etrans; [apply (list_lookup_fmap fst)|by rewrite Ei]).
  apply lookup_seq in Hj as [-> _]. done.
Qed.

Lemma of_thread_cons i j e tr : of_thread i ((j, e) :: tr) = (if (j =? i)%nat then [e] else []) ++ of_thread i tr.
Proof. unfold of_thread. cbn. by destruct (_ =? _)%nat. Qed.

(** The events that count, thread by thread. *)
Lemma count_threads (f : event Op → bool) n tr : Forall (fun e : nat * event Op => e.1 < n) tr →
  countb f (snd <$> tr) = sum_list_with (fun i => countb f (of_thread i tr)) (seq 0 n).
Proof.
  induction 1 as [|[j e] tr Hj Htr IH]; cbn [fst] in *.
  - induction (seq 0 n) as [|i ks IH]; cbn; [done|exact IH].
  - assert (Hone : ∀ ks, NoDup ks → sum_list_with (fun i => countb f (of_thread i ((j, e) :: tr))) ks
        = (if bool_decide (j ∈ ks) then countb f [e] else 0) + sum_list_with (fun i => countb f (of_thread i tr)) ks).
    { induction 1 as [|i ks Hi Hnd IHis]; [done|]. cbn [sum_list_with]. rewrite IHis, of_thread_cons, countb_app. clear IHis. destruct (Nat.eqb_spec j i) as [->|Hne].
      - rewrite (bool_decide_eq_false_2 (i ∈ ks)), bool_decide_eq_true_2 by (done || by left). lia.
      - assert (Eb : bool_decide (j ∈ i :: ks) = bool_decide (j ∈ ks)) by (apply bool_decide_ext; rewrite elem_of_cons; naive_solver). rewrite Eb. change (countb f []) with 0. lia. }
    rewrite Hone by apply NoDup_seq. rewrite bool_decide_eq_true_2 by (apply elem_of_seq; lia). change (snd <$> (j, e) :: tr) with ([e] ++ tr.*2). rewrite countb_app. lia.
Qed.

(** What a thread did before one of its events. *)
Lemma of_thread_split i pre e post : of_thread i (pre ++ (i, e) :: post) = of_thread i pre ++ e :: of_thread i post.
Proof. rewrite of_thread_app. unfold of_thread at 2. cbn. by rewrite Nat.eqb_refl. Qed.
Lemma of_thread_elem i e tr : e ∈ of_thread i tr → e ∈ snd <$> tr.
Proof. intros (e' & -> & He%list_elem_of_In%filter_In)%list_elem_of_fmap. apply list_elem_of_fmap_2, list_elem_of_In, He. Qed.

End Pool.
Arguments pool : clear implicits.

End Pools.
