(* ===== verification/Natural.v ===== *)
(** * internal/controlcenter/api/view.go: the natural order of names

    [NaturalCompare] compares runs of digits by their length and then byte by byte,
    other bytes one by one.  A string's key is that comparison's reading of it; the
    sign of the comparison is the lexicographic order of the keys, so that it is a
    strict total order, and numbers without leading zeros come by value. *)
From S2P Require Import Prelude Names Keys Sorting.

Module Natural.
Import Names Keys.
Local Open Scope Z_scope.

Fixpoint digitsPrefix (s : string) : string :=
  match s with
  | String c s => if is_digit c then String c (digitsPrefix s) else ""
  | EmptyString => ""
  end.

Definition len (s : string) : Z := Z.of_nat (String.length s).
Definition byte_value (c : ascii) : Z := Z.of_nat (nat_of_ascii c).
(** strings.Compare *)
Definition Compare (a b : string) : Z := match String.compare a b with Lt => -1 | Eq => 0 | Gt => 1 end.

(** The loop; every iteration takes a byte at least. *)
Fixpoint natural_loop (fuel : nat) (a b : string) : Z :=
  match fuel with
  | O => len a - len b
  | S fuel =>
      match a, b with
      | String ca a', String cb b' =>
          let da := digitsPrefix a in
          let db := digitsPrefix b in
          if negb (da =? "")%string && negb (db =? "")%string then
            if negb (len da =? len db) then len da - len db
            else if negb (Compare da db =? 0) then Compare da db
            else natural_loop fuel (str_drop (String.length da) a) (str_drop (String.length db) b)
          else if negb (Ascii.eqb ca cb) then byte_value ca - byte_value cb
          else natural_loop fuel a' b'
      | _, _ => len a - len b
      end
  end.

Definition NaturalCompare (a b : string) : Z := natural_loop (String.length a) a b.

Example natural_workers : NaturalCompare "worker-2" "worker-10" < 0 ∧ 0 < NaturalCompare "worker-10" "worker-2" ∧ NaturalCompare "s1" "s1" = 0.
Proof. by vm_compute. Qed.
(** With leading zeros numbers do not come by value. *)
Example natural_zeros : NaturalCompare "worker-9" "worker-08" < 0.
Proof. by vm_compute. Qed.

(** ** Lexicographic order *)

Fixpoint lex_lt (xs ys : list Z) : bool :=
  match xs, ys with
  | _, [] => false
  | [], _ :: _ => true
  | x :: xs, y :: ys => (x <? y) || ((x =? y) && lex_lt xs ys)
  end.
#[export] Program Instance lex_order : KeyOrder (list Z) := {| key_lt := lex_lt |}.
Next Obligation. intros xs. induction xs as [|x xs IH]; cbn; [done|]. by rewrite Z.ltb_irrefl, Z.eqb_refl, IH. Qed.
Next Obligation.
  intros xs. induction xs as [|x xs IH]; intros [|y ys] [|z zs]; cbn; [done..|]. rewrite !orb_true_iff, !andb_true_iff, !Z.ltb_lt, !Z.eqb_eq.
  intros [|[-> H1]] [|[-> H2]]; [left; lia..|]. right. split; [done|]. by eapply IH.
Qed.
Next Obligation.
  intros xs. induction xs as [|x xs IH]; intros [|y ys]; cbn; [done..|]. rewrite !orb_false_iff, !Z.ltb_ge. intros [Hl1 H1] [Hl2 H2].
  assert (x = y) as <- by lia. rewrite Z.eqb_refl in *. cbn in *. f_equal. by apply IH.
Qed.

Lemma lex_lt_irrefl xs : lex_lt xs xs = false.
Proof. exact (key_lt_irrefl xs). Qed.
Lemma lex_lt_app xs ys zs : lex_lt (xs ++ ys) (xs ++ zs) = lex_lt ys zs.
Proof. induction xs as [|x xs IH]; cbn; [done|]. by rewrite Z.ltb_irrefl, Z.eqb_refl, IH. Qed.
(** Parts of the same length are compared first. *)
Lemma lex_lt_parts xs ys zs ws : length xs = length ys → lex_lt (xs ++ zs) (ys ++ ws) = lex_lt xs ys || (bool_decide (xs = ys) && lex_lt zs ws).
Proof.
  revert ys. induction xs as [|x xs IH]; intros [|y ys] Hl; try done. cbn in *. injection Hl as Hl. rewrite IH by done.
  destruct (Z.ltb_spec x y) as [Hlt|Hge]; [done|]. cbn. destruct (Z.eqb_spec x y) as [->|Hne]; cbn.
  - f_equal. f_equal. apply bool_decide_ext. naive_solver.
  - rewrite bool_decide_eq_false_2 by naive_solver. done.
Qed.

(** ** The key of a string *)

Definition codes (s : string) : list Z := byte_value <$> chars s.

Fixpoint key_loop (fuel : nat) (s : string) : list Z :=
  match fuel, s with
  | S fuel, String c s' =>
      let ds := digitsPrefix s in
      if negb (ds =? "")%string then 48 :: len ds :: codes ds ++ key_loop fuel (str_drop (String.length ds) s)
      else byte_value c :: key_loop fuel s'
  | _, _ => []
  end.
Definition natural_key (s : string) : list Z := key_loop (String.length s) s.

Lemma key_loop_more n : ∀ m s, (String.length s <= n)%nat → (String.length s <= m)%nat → key_loop n s = key_loop m s.
Proof.
  induction n as [|n IH]; intros [|m] [|c s]; cbn [String.length]; try lia; try done. intros Hn Hm. cbn [key_loop]. cbv zeta.
  destruct (_ =? _)%string eqn:E; cbn [negb]; [by rewrite (IH m) by lia|]. do 3 f_equal.
  assert (0 < String.length (digitsPrefix (String c s)))%nat by (destruct (digitsPrefix (String c s)); [done|cbn; lia]).
  apply IH; rewrite str_length_drop; cbn [String.length]; lia.
Qed.

Lemma natural_key_cons c s :
  natural_key (String c s) =
    if is_digit c then 48 :: len (digitsPrefix (String c s)) :: codes (digitsPrefix (String c s)) ++ natural_key (str_drop (String.length (digitsPrefix (String c s))) (String c s))
    else byte_value c :: natural_key s.
Proof.
  unfold natural_key. cbn [key_loop String.length]. cbv zeta. cbn [digitsPrefix]. destruct (is_digit c); cbn [String.eqb negb]; [|done].
  do 3 f_equal. apply key_loop_more; rewrite str_length_drop; cbn [String.length]; lia.
Qed.

(** ** The comparison and the keys *)

Lemma byte_value_inj c d : byte_value c = byte_value d → c = d.
Proof. unfold byte_value. intros H. rewrite <- (ascii_nat_embedding c), <- (ascii_nat_embedding d). f_equal. lia. Qed.

Lemma is_digit_value c : is_digit c = true ↔ 48 <= byte_value c <= 57.
Proof. unfold is_digit, between, byte_value, nat_of_ascii. rewrite andb_true_iff, !N.leb_le. cbn. lia. Qed.

Lemma digits_take s : s = digitsPrefix s +:+ str_drop (String.length (digitsPrefix s)) s.
Proof. induction s as [|c s IH]; [done|]. cbn [digitsPrefix]. destruct (is_digit c); [|done]. cbn [String.length str_drop]. by rewrite str_app_cons, <- IH. Qed.

Lemma ascii_compare_value c d : Ascii.compare c d = (byte_value c ?= byte_value d).
Proof.
  unfold Ascii.compare, byte_value, nat_of_ascii. by rewrite !N_nat_Z, N2Z.inj_compare.
Qed.

Lemma compare_codes a b : Compare a b < 0 ↔ lex_lt (codes a) (codes b) = true.
Proof.
  unfold Compare. revert b. induction a as [|c a IH]; intros [|d b]; try by cbn.
  cbn [String.compare]. rewrite ascii_compare_value. unfold codes. cbn [chars fmap list_fmap]. cbn [lex_lt].
  specialize (IH b). unfold codes in IH. destruct (Z.compare_spec (byte_value c) (byte_value d)) as [Heq|Hlt|Hgt].
  - rewrite Heq, Z.ltb_irrefl, Z.eqb_refl. cbn. exact IH.
  - apply Z.ltb_lt in Hlt. rewrite Hlt. done.
  - rewrite (proj2 (Z.ltb_ge _ _)), (proj2 (Z.eqb_neq _ _)) by lia. done.
Qed.
Lemma compare_zero a b : Compare a b = 0 ↔ a = b.
Proof.
  unfold Compare. destruct (String.compare a b) eqn:E; split; try done; [by intros _; apply String.compare_eq_iff|intros ->..];
    pose proof (String.compare_antisym b b) as Ha; rewrite E in Ha; done.
Qed.

Lemma codes_inj a b : codes a = codes b → a = b.
Proof.
  revert b. induction a as [|c a IH]; intros [|d b]; try done. unfold codes. cbn. intros [= Hc Hs]. apply byte_value_inj in Hc as ->. f_equal. by apply IH.
Qed.
Lemma length_codes s : length (codes s) = String.length s.
Proof. unfold codes. rewrite length_fmap. induction s; cbn; auto. Qed.

(** What one step of the loop decides, as the keys do. *)
Definition agrees (z : Z) (a b : string) : Prop := (z < 0 ↔ lex_lt (natural_key a) (natural_key b) = true) ∧ (z = 0 ↔ a = b).

Lemma agrees_empty a b : a = "" ∨ b = "" → agrees (len a - len b) a b.
Proof.
  assert (Hne : ∀ c s, natural_key (String c s) ≠ []) by (intros c s; rewrite natural_key_cons; by destruct (is_digit c)).
  unfold agrees, len. intros [->| ->].
  - destruct b as [|c b]; [done|]. cbn [String.length]. specialize (Hne c b). destruct (natural_key (String c b)); [done|]. cbn [lex_lt natural_key key_loop]. split; [split; [done|lia]|]. split; [lia|done].
  - destruct a as [|c a]; [done|]. cbn [String.length]. change (natural_key "") with (@nil Z). destruct (natural_key (String c a)); cbn [lex_lt]; (split; [split; [lia|done]|split; [lia|done]]).
Qed.

Lemma agrees_numbers c a d b z :
  is_digit c = true → is_digit d = true →
  let da := digitsPrefix (String c a) in let db := digitsPrefix (String d b) in
  agrees z (str_drop (String.length da) (String c a)) (str_drop (String.length db) (String d b)) →
  agrees (if negb (len da =? len db) then len da - len db else if negb (Compare da db =? 0) then Compare da db else z) (String c a) (String d b).
Proof.
  intros Hc Hd da db [Hlt Heq]. pose proof (digits_take (String c a)) as Ta. pose proof (digits_take (String d b)) as Tb. fold da in Ta. fold db in Tb.
  unfold agrees. rewrite !natural_key_cons, Hc, Hd. fold da db. cbn [lex_lt]. rewrite Z.ltb_irrefl, Z.eqb_refl. cbn [orb andb].
  destruct (Z.eqb_spec (len da) (len db)) as [El|Nl]; cbn [negb].
  - rewrite El, Z.ltb_irrefl. cbn [orb andb]. rewrite lex_lt_parts by (rewrite !length_codes; unfold len in El; lia).
    pose proof (compare_codes da db) as Hcc. destruct (Z.eqb_spec (Compare da db) 0) as [Ec|Nc]; cbn [negb].
    + pose proof (proj1 (compare_zero _ _) Ec) as Eab. rewrite Eab. rewrite bool_decide_eq_true_2 by done. rewrite lex_lt_irrefl. cbn [orb andb].
      rewrite Eab in Hlt, Heq, Ta. split; [exact Hlt|]. rewrite Heq. split.
      * intros E. etrans; [exact Ta|]. rewrite E. symmetry. exact Tb.
      * intros E. apply (inj (String.append db)). etrans; [symmetry; exact Ta|]. etrans; [exact E|exact Tb].
    + assert (Hda : da ≠ db) by (intros E; by apply Nc, compare_zero). rewrite bool_decide_eq_false_2 by (intros E; by apply Hda, codes_inj). rewrite andb_false_l, orb_false_r.
      split; [exact Hcc|]. split; [done|]. intros E. exfalso. apply Hda. unfold da, db. by rewrite E.
  - rewrite andb_false_l, orb_false_r, Z.ltb_lt. split; [lia|]. split; [lia|]. intros E. exfalso. apply Nl. unfold da, db. by rewrite E.
Qed.

Lemma agrees_bytes c a d b z :
  is_digit c && is_digit d = false → agrees z a b → agrees (if negb (Ascii.eqb c d) then byte_value c - byte_value d else z) (String c a) (String d b).
Proof.
  intros Hcd [Hlt Heq]. unfold agrees. rewrite !natural_key_cons. destruct (Ascii.eqb_spec c d) as [->|Hne]; cbn [negb].
  - destruct (is_digit d); [done|]. cbn [lex_lt]. rewrite Z.ltb_irrefl, Z.eqb_refl. cbn [orb andb]. split; [exact Hlt|]. rewrite Heq. naive_solver.
  - assert (Hv : byte_value c ≠ byte_value d) by (intros E; by apply Hne, byte_value_inj). pose proof (is_digit_value c) as Dc. pose proof (is_digit_value d) as Dd.
    split; [|split; [lia|congruence]].
    destruct (is_digit c), (is_digit d); cbn [lex_lt]; try done; rewrite orb_true_iff, andb_true_iff, Z.ltb_lt, Z.eqb_eq; destruct Dc as [Dc Dc'], Dd as [Dd Dd'].
    + assert (¬ 48 <= byte_value d <= 57) by (intros E; by specialize (Dd' E)). specialize (Dc eq_refl). lia.
    + assert (¬ 48 <= byte_value c <= 57) by (intros E; by specialize (Dc' E)). specialize (Dd eq_refl). lia.
    + lia.
Qed.

Lemma natural_loop_agrees n : ∀ a b, (String.length a <= n)%nat → agrees (natural_loop n a b) a b.
Proof.
  induction n as [|n IH]; intros [|c a] b Hl; cbn [String.length] in Hl; try lia; try (apply agrees_empty; by left).
  destruct b as [|d b]; [apply (agrees_empty (String c a) ""); by right|]. cbn [natural_loop]. cbv zeta.
  assert (Hp : ∀ e s, (digitsPrefix (String e s) =? "")%string = negb (is_digit e)) by (intros e s; cbn [digitsPrefix]; by destruct (is_digit e)).
  rewrite !Hp, !negb_involutive. destruct (is_digit c && is_digit d) eqn:E.
  - apply andb_true_iff in E as [Ec Ed]. apply agrees_numbers; [done..|]. apply IH. rewrite str_length_drop. cbn [digitsPrefix]. rewrite Ec. cbn [String.length]. lia.
  - apply agrees_bytes; [done|]. apply IH. lia.
Qed.

(** The comparison is the order of the keys, and two strings are equal for it when they are equal. *)
Lemma NaturalCompare_key a b : agrees (NaturalCompare a b) a b.
Proof. by apply natural_loop_agrees. Qed.

Lemma Compare_opp a b : Compare b a = - Compare a b.
Proof. unfold Compare. rewrite String.compare_antisym. by destruct (String.compare a b). Qed.
Lemma natural_loop_opp n : ∀ a b, natural_loop n b a = - natural_loop n a b.
Proof.
  induction n as [|n IH]; intros [|c a] [|d b]; cbn [natural_loop]; try (unfold len; lia). cbv zeta.
  rewrite (andb_comm (negb (digitsPrefix (String d b) =? "")%string)), (Z.eqb_sym (len (digitsPrefix (String d b)))), (Ascii.eqb_sym d c), (Compare_opp (digitsPrefix (String c a))), IH, (IH a b).
  destruct (_ && _).
  - destruct (negb _); [lia|]. destruct (Z.eqb_spec (Compare (digitsPrefix (String c a)) (digitsPrefix (String d b))) 0) as [->|Hn]; cbn [negb]; [done|].
    by rewrite (proj2 (Z.eqb_neq _ _)) by lia.
  - destruct (negb _); lia.
Qed.

Lemma natural_key_inj a b : natural_key a = natural_key b → a = b.
Proof.
  intros Hk. set (n := (String.length a + String.length b)%nat). pose proof (lex_lt_irrefl (natural_key b)) as Hi.
  destruct (natural_loop_agrees n a b) as [H1 H2]; [lia|]. destruct (natural_loop_agrees n b a) as [H3 _]; [lia|]. rewrite Hk, Hi in H1, H3. rewrite natural_loop_opp in H3.
  apply H2. lia.
Qed.

(** ** The order *)

Definition natural_lt (a b : string) : bool := NaturalCompare a b <? 0.

Lemma natural_lt_key a b : natural_lt a b = by_key natural_key a b.
Proof.
  unfold natural_lt, by_key. destruct (NaturalCompare_key a b) as [H _]. cbn. apply eq_bool_prop_intro.
  rewrite !Is_true_true, Z.ltb_lt. exact H.
Qed.

#[local] Program Instance natural_order : KeyOrder string := {| key_lt := natural_lt |}.
Next Obligation. intros k. rewrite natural_lt_key. exact (key_lt_irrefl (natural_key k)). Qed.
Next Obligation. intros a b c. rewrite !natural_lt_key. exact (key_lt_trans _ _ _). Qed.
Next Obligation. intros a b. rewrite !natural_lt_key. intros H1 H2. apply natural_key_inj. exact (key_lt_total _ _ H1 H2). Qed.

(** [slices.SortFunc(names, NaturalCompare)] *)
Definition sort_natural (names : list string) : list string := sort_by natural_lt names.

(** ** Numbers come by value *)

Lemma atoi_bounds s : ∀ acc z, 0 <= acc → atoi_loop acc s = Some z → acc * 10 ^ len s <= z < (acc + 1) * 10 ^ len s.
Proof.
  induction s as [|c s IH]; intros acc z Ha; cbn [atoi_loop]; [intros [= ->]; unfold len; cbn; lia|].
  destruct (digit_value c) as [d|] eqn:Ed; [|done]. intros Hz. assert (0 <= d < 10).
  { unfold digit_value in Ed. destruct (_ && _) eqn:E; [|done]. apply andb_true_iff in E as [E1 E2]. rewrite Nat.leb_le in E1, E2. injection Ed as <-. lia. }
  apply IH in Hz; [|lia]. assert (Hp : 10 ^ len (String c s) = 10 * 10 ^ len s) by (unfold len; cbn [String.length]; rewrite Nat2Z.inj_succ, Z.pow_succ_r by lia; done).
  rewrite Hp. assert (0 < 10 ^ len s) by (apply Z.pow_pos_nonneg; unfold len; lia). nia.
Qed.

Lemma digit_byte c d : digit_value c = Some d → d = byte_value c - 48.
Proof. unfold digit_value, byte_value. destruct (_ && _) eqn:E; [|done]. apply andb_true_iff in E as [E1 E2]. rewrite Nat.leb_le in E1, E2. intros [= <-]. lia. Qed.

Lemma same_length_by_value a : ∀ b acc x y, 0 <= acc → String.length a = String.length b →
  atoi_loop acc a = Some x → atoi_loop acc b = Some y → x < y → lex_lt (codes a) (codes b) = true.
Proof.
  induction a as [|c a IH]; intros [|d b] acc x y Ha Hl; try done; cbn [atoi_loop].
  - intros [= ->] [= ->]. lia.
  - destruct (digit_value c) as [n|] eqn:Ec; [|done]. destruct (digit_value d) as [m|] eqn:Ed; [|done]. intros Hx Hy Hlt. cbn in Hl. injection Hl as Hl.
    pose proof (digit_byte _ _ Ec) as En. pose proof (digit_byte _ _ Ed) as Em. unfold codes. cbn [chars fmap list_fmap lex_lt].
    destruct (Z.ltb_spec (byte_value c) (byte_value d)) as [|Hge]; [done|]. cbn [orb].
    assert (Hn : 0 <= n) by (unfold digit_value in Ec; destruct (_ && _); [|done]; injection Ec as <-; lia).
    assert (Hm : 0 <= m) by (unfold digit_value in Ed; destruct (_ && _); [|done]; injection Ed as <-; lia).
    assert (byte_value c = byte_value d) as E.
    { pose proof (atoi_bounds a (acc * 10 + n) x ltac:(lia) Hx). pose proof (atoi_bounds b (acc * 10 + m) y ltac:(lia) Hy). assert (Hll : len a = len b) by (unfold len; lia). rewrite Hll in *.
      assert (0 < 10 ^ len b) by (apply Z.pow_pos_nonneg; unfold len; lia). nia. }
    rewrite E, Z.eqb_refl. cbn [andb]. assert (n = m) as -> by lia. by eapply (IH b (acc * 10 + m)); [lia| | | |].
Qed.

Lemma pretty_N_go_length x s : (0 < x)%N → ∃ k, String.length (pretty_N_go x s) = (S k + String.length s)%nat ∧ 10 ^ Z.of_nat k <= Z.of_N x < 10 ^ Z.of_nat (S k).
Proof.
  revert s. induction (N.lt_wf_0 x) as [x _ IH]. intros s Hx. rewrite pretty_N_go_step by done.
  pose proof (N.div_mod x 10 ltac:(done)) as Hd. pose proof (N.mod_lt x 10 ltac:(done)) as Hm. destruct (N.eq_0_gt_0_cases (x `div` 10)) as [Hz|Hp].
  - rewrite Hz, pretty_N_go_0. exists 0%nat. split; [done|]. cbn. rewrite Hz in Hd. lia.
  - destruct (IH (x `div` 10)%N (N.div_lt x 10 Hx ltac:(done)) (String (pretty_N_char (x `mod` 10)) s) Hp) as (k & Hk & Hb). exists (S k). rewrite Hk. cbn [String.length]. split; [lia|].
    rewrite !Nat2Z.inj_succ, !Z.pow_succ_r in * by lia. set (q := (x `div` 10)%N) in *. set (m := (x `mod` 10)%N) in *. clearbody q m. lia.
Qed.

Lemma itoa_length z : 0 < z → ∃ k, String.length (itoa z) = S k ∧ 10 ^ Z.of_nat k <= z < 10 ^ Z.of_nat (S k).
Proof.
  intros Hz. destruct z as [|p|p]; [done| |done]. destruct (pretty_N_go_length (N.pos p) "" ltac:(done)) as (k & Hk & Hb). exists k. split; [|exact Hb].
  change (itoa (Z.pos p)) with (pretty (N.pos p)). unfold pretty, pretty_N. case_decide; [done|]. rewrite Hk. cbn [String.length]. lia.
Qed.

Lemma itoa_length_mono i j : 0 <= i <= j → (String.length (itoa i) <= String.length (itoa j))%nat.
Proof.
  intros Hij. destruct (decide (i = 0)) as [->|Hi].
  - destruct (decide (j = 0)) as [->|Hj]; [done|]. destruct (itoa_length j) as (k & -> & _); [lia|]. change (String.length (itoa 0)) with 1%nat. lia.
  - destruct (itoa_length i) as (k & -> & Hk1 & _); [lia|]. destruct (itoa_length j) as (m & -> & _ & Hm2); [lia|].
    destruct (decide (k <= m)%nat); [lia|]. exfalso. assert (10 ^ Z.of_nat (S m) <= 10 ^ Z.of_nat k) by (apply Z.pow_le_mono_r; lia). lia.
Qed.

Lemma digitsPrefix_all s : Forall (fun c => is_digit c = true) (chars s) → digitsPrefix s = s.
Proof. induction s as [|c s IH]; [done|]. cbn. intros [-> Hs]%Forall_cons. by rewrite IH. Qed.

Lemma natural_key_plain p s : Forall (fun c => is_digit c = false) (chars p) → natural_key (p +:+ s) = codes p ++ natural_key s.
Proof.
  induction p as [|c p IH]; [done|]. cbn [chars]. intros [Hc Hp]%Forall_cons. rewrite str_app_cons, natural_key_cons, Hc, IH by done. done.
Qed.

(** Names that end in a number come in the order of the numbers. *)
Lemma natural_numbers p i j : Forall (fun c => is_digit c = false) (chars p) → 0 <= i < j → NaturalCompare (p +:+ itoa i) (p +:+ itoa j) < 0.
Proof.
  intros Hp Hij. apply (NaturalCompare_key (p +:+ itoa i) (p +:+ itoa j)). rewrite !natural_key_plain, lex_lt_app by done.
  assert (Hkey : ∀ z, 0 <= z → natural_key (itoa z) = 48 :: len (itoa z) :: codes (itoa z)).
  { intros z Hz. pose proof (digits_itoa z Hz) as Hd. pose proof (digitsPrefix_all _ Hd) as Hall. pose proof (atoi_itoa z Hz) as Ha. destruct (itoa z) as [|c s] eqn:E.
    - exfalso. destruct (decide (z = 0)) as [->|Hn]; [done|]. destruct (itoa_length z) as (k & Hk & _); [lia|]. by rewrite E in Hk.
    - rewrite natural_key_cons, Hall. cbn [chars] in Hd. apply Forall_cons in Hd as [-> _]. rewrite str_drop_all by lia. change (natural_key "") with (@nil Z). by rewrite app_nil_r. }
  rewrite !Hkey by lia. cbn [lex_lt]. rewrite Z.ltb_irrefl, Z.eqb_refl. cbn [orb andb]. pose proof (itoa_length_mono i j ltac:(lia)) as Hl. unfold len.
  destruct (Z.ltb_spec (Z.of_nat (String.length (itoa i))) (Z.of_nat (String.length (itoa j)))) as [|Hge]; [done|]. cbn [orb].
  rewrite (proj2 (Z.eqb_eq _ _)) by lia. cbn [andb]. eapply (same_length_by_value _ _ 0); [done|lia|by apply atoi_itoa; lia..|lia].
Qed.

End Natural.
