(* ===== verification/Views.v ===== *)
(** * internal/controlcenter/api: what is shown of runs and Tests

    view.go, format.go, media.go, and the parts of cases.go, cleanup.go, overview.go,
    schedules.go and analytics.go that compute: functions of what the clusters' APIs
    answered and of the clock.  The natural order of names is shown to be a total
    order here; the handlers are in ControlCenter. *)
From Stdlib Require Import SpecFloat.
From S2P Require Import Prelude Api GoLib Names Keys Objects Sorting Verdicts Calendar Durations Urls Store ApiRuns ApiServer Scheduler Natural.

Module Views.
Import Names Objects Calendar Verdicts Keys Urls Store ApiRuns Natural.
Local Open Scope Z_scope.

(** ** Phases *)

Definition phasePassed : string := phase_string PhasePassed.
Definition phaseQueued : string := phase_string PhaseQueued.
Definition phaseFailed : string := phase_string PhaseFailed.
Definition phaseError : string := phase_string PhaseError.
Definition phaseAborted : string := phase_string PhaseAborted.

Definition Finished (phase : string) : bool := bool_decide (phase ∈ [phasePassed; phaseFailed; phaseError; phaseAborted]).

(** ** Tests *)

Definition LabelTool : string := "kubetest.io/tool".
Definition LabelManagedBy : string := "app.kubernetes.io/managed-by".
Definition ManagedByUI : string := "ui".
Definition TagCreatedBy : string := "kubetest.io/created-by".

(** A map's value, empty when it has none. *)
Definition value_of (m : strmap) (k : string) : string := default "" (m !! k).

Definition Locked (labels : strmap) : bool := negb (value_of labels LabelManagedBy =? ManagedByUI)%string.

Record Param := mkParam {
  pr_Name : string; pr_Type : string; pr_Default : string; pr_Pattern : string; pr_Enum : list string; pr_Required : bool; pr_Description : string }.

Definition ParamsOf (spec : TestSpec) : list Param :=
  (fun name => let p := default (mkParameter "" "" [] "" "" "") (ts_Config spec !! name) in
     mkParam name (pm_Type p) (pm_Default p) (pm_Pattern p) (pm_Enum p) (pm_Default p =? "")%string (pm_Description p)) <$> sorted_keys (ts_Config spec).

Definition GeneratePrefix (test : string) : string :=
  let test := if (50 <? Z.of_nat (String.length test)) then TrimRight is_dash_or_dot (str_take 50 test) else test in
  test +:+ "-".

(** ** Schedules *)

(** What the parser says of an expression it refuses. *)
Class CronErrors := parse_error : string → string.

Record Schedule := mkSchedule { sd_Expr : string; sd_Next : list time; sd_Error : string }.

Definition NextFiresShown : nat := 3.

Section Crons.
Context `{Scheduler.Cron, CronErrors}.

Fixpoint next_fires (sched : Scheduler.Schedule) (t : time) (n : nat) : list time :=
  match n with
  | O => []
  | S n => let t := Scheduler.Next sched t in if time_is_zero t then [] else t :: next_fires sched t n
  end.

Definition NextFires (expr : string) (now : time) (n : nat) : result string (list time) :=
  match Scheduler.Parse expr with
  | None => Err (parse_error expr)
  | Some sched => Ok (next_fires sched now n)
  end.

Definition ScheduleOf (expr : string) (now : time) : option Schedule :=
  if (expr =? "")%string then None
  else Some (match NextFires expr now NextFiresShown with
             | Ok next => mkSchedule expr next ""
             | Err e => mkSchedule expr [] e
             end).
End Crons.

(** Broken schedules go last. *)
Definition firstFire (s : Schedule) : time := match sd_Next s with t :: _ => t | [] => days_from_civil 9999 1 1 * 86400 * second end.

(** Times that are [Some]: nil is not compared. *)
Definition scheduledRuns (runs : list Run) (now : time) : list Run :=
  sort_by (fun a b => match e_NotBefore a, e_NotBefore b with Some s, Some t => s <? t | _, _ => false end)
    (List.filter (fun run => (e_Phase run =? phaseQueued)%string &&
       match e_NotBefore run with Some t => time_after t now | None => false end && bool_decide (e_Abort run = None)) runs).

(** ** Runs *)

Definition RunID (r : Run) : string :=
  if (e_Origin r =? OriginArchive)%string && negb (e_UID r =? "")%string then e_UID r else e_Name r.

(** url.Parse of a repository's URI: its scheme, host, the host without its port, and path. *)
Record URI := mkURI { u_Scheme : string; u_Host : string; u_Hostname : string; u_Path : string }.
Class URIs := uri_Parse : string → option URI.

(** strings.TrimSuffix *)
Definition TrimSuffix (s suffix : string) : string :=
  let n := (String.length s - String.length suffix)%nat in
  if (String.length suffix <=? String.length s)%nat && (str_drop n s =? suffix)%string then str_take n s else s.
(** strings.Trim with one byte *)
Definition Trim (c : ascii) (s : string) : string := TrimRight (Ascii.eqb c) (TrimLeft (Ascii.eqb c) s).

(** strings.Fields *)
Definition fields (text : string) : list string :=
  List.filter (fun w => negb (w =? "")%string) (Split " " (str_map (fun c => if is_space c then " "%char else c) text)).

Section Links.
Context `{URIs}.

(** The host and path a repository's address names, in either form. *)
Definition repository (repo : string) : option (string * string) :=
  let scp := match Cut repo "@" with
             | Some (before, after) => if Contains before ":" then None else Cut after ":"
             | None => None
             end in
  match uri_Parse repo with
  | Some u =>
      if negb (u_Host u =? "")%string then
        if (u_Scheme u =? "https")%string || (u_Scheme u =? "http")%string || (u_Scheme u =? "ssh")%string then Some (u_Hostname u, u_Path u) else None
      else scp
  | None => scp
  end.

Definition CommitURL (repo sha : string) : string :=
  if (sha =? "")%string then ""
  else match repository repo with
       | None => ""
       | Some (host, path) =>
           let path := TrimSuffix (Trim slash path) ".git" in
           if (host =? "")%string || (count_byte slash path <? 1)%nat then ""
           else let base := "https://" +:+ host +:+ "/" +:+ path in
                let h := ToLower host in
                if Contains h "github" then base +:+ "/commit/" +:+ PathEscape sha
                else if Contains h "gitlab" then base +:+ "/-/commit/" +:+ PathEscape sha
                else if Contains h "bitbucket" then base +:+ "/commits/" +:+ PathEscape sha
                else ""
       end.

Record Commit := mkCommit { ci_SHA : string; ci_URL : string }.
Record RunRow := mkRunRow {
  ro_ID : string; ro_Name : string; ro_Phase : string; ro_StartedAt : option time; ro_NotBefore : option time; ro_FinishedAt : option time;
  ro_DurationMs : Z; ro_Commit : option Commit; ro_Source : string; ro_CreatedBy : string; ro_Comment : string; ro_Waiting : string }.

Definition commit_of (git : option GitCheckout) : option Commit :=
  match git with
  | Some g => if negb (gc_Commit g =? "")%string then Some (mkCommit (gc_Commit g) (CommitURL (gc_URI g) (gc_Commit g))) else None
  | None => None
  end.

Definition runRow (run : Run) : RunRow :=
  mkRunRow (RunID run) (e_Name run) (e_Phase run) (e_StartedAt run) (e_NotBefore run) (e_FinishedAt run) (e_DurationMs run) (commit_of (e_Git run))
    (e_Source run) (value_of (e_Tags run) TagCreatedBy) (match e_Comment run with Some c => cm_Text c | None => "" end)
    (if (e_Phase run =? phaseQueued)%string then e_Message run else "").

(** ** Summaries *)

Record Summary := mkSummary {
  su_Finished : Z; su_Passed : Z; su_Failed : Z; su_Errored : Z; su_Aborted : Z; su_PassRate : string; su_AvgMs : Z; su_P95Ms : Z;
  su_LastFailure : option RunRow }.

Definition count_phase (phase : string) (runs : list Run) : Z := Z.of_nat (countb (fun run => (e_Phase run =? phase)%string) runs).
Definition verdict (run : Run) : bool := (e_Phase run =? phasePassed)%string || (e_Phase run =? phaseFailed)%string.
(** The durations of the runs that produced a verdict. *)
Definition durations_of (runs : list Run) : list Z := e_DurationMs <$> List.filter (fun run => verdict run && (0 <? e_DurationMs run)) runs.
Definition sum64 (xs : list Z) : Z := foldl (fun a x => wrap64 (a + x)) 0 xs.
(** The [n]th of the sorted values. *)
Definition at_rank (n : Z) (xs : list Z) : Z := default 0 (sort_by Z.ltb xs !! Z.to_nat n).

Definition summarize (runs : list Run) : Summary :=
  let passed := count_phase phasePassed runs in
  let failed := count_phase phaseFailed runs in
  let errored := count_phase phaseError runs in
  let verdicts := passed + failed + errored in
  let durations := durations_of runs in
  let n := Z.of_nat (length durations) in
  mkSummary (Z.of_nat (length runs)) passed failed errored (count_phase phaseAborted runs)
    (if 0 <? verdicts then itoa ((passed * 100 + verdicts / 2) / verdicts) +:+ "%" else "")
    (if 0 <? n then Z.quot (sum64 durations) n else 0)
    (if 0 <? n then at_rank ((n * 95 + 99) / 100 - 1) durations else 0)
    (runRow <$> last (List.filter (fun run => (e_Phase run =? phaseFailed)%string || (e_Phase run =? phaseError)%string) runs)).
End Links.

(** ** Test cases *)

Definition Windows : list Z := [10; 30; 100].
Definition defaultWindow : Z := 30.
(** [?runs=], when it is one of the windows. *)
Definition window (runs : string) : Z := let n := default 0 (Atoi runs) in if bool_decide (n ∈ Windows) then n else defaultWindow.

Definition failing (status : string) : bool := (status =? CaseFailed)%string || (status =? CaseError)%string.

Record CaseDiff := mkCaseDiff { cd_Key : string; cd_Before : string; cd_Now : string; cd_DurationDiffMs : Z; cd_Message : string }.
#[export] Instance CaseDiff_eq_dec : EqDecision CaseDiff.
Proof. solve_decision. Defined.

Record CaseDiffs := mkCaseDiffs {
  df_StartedFailing : list CaseDiff; df_StillFailing : list CaseDiff; df_Fixed : list CaseDiff; df_Added : list CaseDiff; df_Removed : list CaseDiff;
  df_Unchanged : Z }.
Definition no_diffs : CaseDiffs := mkCaseDiffs [] [] [] [] [] 0.

(** Of several cases of one key the last is kept. *)
Definition cases_by_key (base : list CaseRow) : gmap string CaseRow := foldl (fun m c => <[ca_Key c := c]> m) ∅ base.

(** The row of a case and what it had before. *)
Definition diff_row (before : option CaseRow) (now : CaseRow) : CaseDiff :=
  mkCaseDiff (ca_Key now) (match before with Some old => k_Status (ca_Case old) | None => "" end) (k_Status (ca_Case now))
    (match before with Some old => wrap64 (k_DurationMs (ca_Case now) - k_DurationMs (ca_Case old)) | None => 0 end) (k_Message (ca_Case now)).

Definition diff_case (before : gmap string CaseRow) (d : CaseDiffs) (now : CaseRow) : CaseDiffs :=
  let old := before !! ca_Key now in
  let row := diff_row old now in
  let 'mkCaseDiffs started still fixed added removed unchanged := d in
  match old with
  | None => mkCaseDiffs started still fixed (added ++ [row]) removed unchanged
  | Some old =>
      if failing (k_Status (ca_Case now)) && negb (failing (k_Status (ca_Case old))) then mkCaseDiffs (started ++ [row]) still fixed added removed unchanged
      else if failing (k_Status (ca_Case now)) then mkCaseDiffs started (still ++ [row]) fixed added removed unchanged
      else if failing (k_Status (ca_Case old)) then mkCaseDiffs started still (fixed ++ [row]) added removed unchanged
      else mkCaseDiffs started still fixed added removed (unchanged + 1)
  end.

Definition diff_removed (acc : CaseDiffs * gset string) (old : CaseRow) : CaseDiffs * gset string :=
  let '(d, seen) := acc in
  if bool_decide (ca_Key old ∈ seen) then acc
  else let 'mkCaseDiffs started still fixed added removed unchanged := d in
       (mkCaseDiffs started still fixed added (removed ++ [mkCaseDiff (ca_Key old) (k_Status (ca_Case old)) "" 0 ""]) unchanged, seen ∪ {[ca_Key old]}).

Definition diffCases (run base : list CaseRow) : CaseDiffs :=
  (foldl diff_removed (foldl (diff_case (cases_by_key base)) no_diffs run, list_to_set (ca_Key <$> run)) base).1.

(** ** Cleanup *)

Definition MaxCleanup : nat := 200.
Definition cleanupScanPages : nat := 20.
Definition cleanupPageSize : Z := 500.
Definition cleanupParallel : nat := 4.
Definition DefaultOlderThanDays : Z := 30.
Definition maxOlderThanDays : Z := 3650.
Definition modeOlder : string := "older".
Definition modeRange : string := "range".

(** [cc_from], [cc_to]: the zero time is no bound. *)
Record cleanupCriteria := mkCriteria { cc_Mode : string; cc_Days : Z; cc_RawFrom : string; cc_RawTo : string; cc_from : time; cc_to : time }.

Definition errNoBound : string :=
  "give a From or To date (or both): a date range without either would match every run of this Test — use “older than” to clear old runs".

(** time.Parse("2006-01-02", s) *)
Definition ParseDate (s : string) : option time :=
  '(y, s) ← take_digits 4 0 s; s ← expect "-" s;
  '(m, s) ← take_digits 2 0 s; s ← expect "-" s;
  '(d, s) ← take_digits 2 0 s;
  if negb (str_is_empty s) then None
  else if (m <? 1) || (12 <? m) || (d <? 1) || (days_in y m <? d) then None
  else Some (days_from_civil y m d * 86400 * second).

(** A bound that was given, or none. *)
Definition parse_bound (what raw : string) : result string time :=
  if (raw =? "")%string then Ok zero_time
  else match ParseDate raw with
       | Some t => Ok t
       | None => Err ("the " +:+ what +:+ " date " +:+ quote raw +:+ " is not a date (YYYY-MM-DD)")
       end.

(** Bounds in the wrong order are swapped, with a note. *)
Definition swap_bounds (c : cleanupCriteria) : cleanupCriteria * string :=
  if negb (time_is_zero (cc_from c)) && negb (time_is_zero (cc_to c)) && time_after (cc_from c) (cc_to c)
  then (mkCriteria (cc_Mode c) (cc_Days c) (cc_RawTo c) (cc_RawFrom c) (cc_to c) (cc_from c), "From was after To — swapped.")
  else (c, "").

(** The whole To day. *)
Definition whole_day (c : cleanupCriteria) : cleanupCriteria :=
  if time_is_zero (cc_to c) then c
  else mkCriteria (cc_Mode c) (cc_Days c) (cc_RawFrom c) (cc_RawTo c) (cc_from c) (cc_to c + (24 * hour - nanosecond)).

Definition parse_range (rawFrom rawTo : string) : result string (cleanupCriteria * string) :=
  match parse_bound "From" rawFrom, parse_bound "To" rawTo with
  | Err e, _ => Err e
  | _, Err e => Err e
  | Ok from, Ok to_ =>
      if time_is_zero from && time_is_zero to_ then Err errNoBound
      else let '(c, note) := swap_bounds (mkCriteria modeRange DefaultOlderThanDays rawFrom rawTo from to_) in Ok (whole_day c, note)
  end.

Definition parse_days (raw : string) : result string Z :=
  if (raw =? "")%string then Ok DefaultOlderThanDays
  else match Atoi raw with
       | Some d => if (d <? 1) || (maxOlderThanDays <? d) then Err ("days must be a whole number from 1 to " +:+ itoa maxOlderThanDays) else Ok d
       | None => Err ("days must be a whole number from 1 to " +:+ itoa maxOlderThanDays)
       end.

Definition parseCleanup (q : string → string) (now : time) : result string (cleanupCriteria * string) :=
  let rawFrom := TrimSpace (q "from") in
  let rawTo := TrimSpace (q "to") in
  if (q "mode" =? modeRange)%string then parse_range rawFrom rawTo
  else match parse_days (TrimSpace (q "days")) with
       | Err e => Err e
       | Ok d => Ok (mkCriteria modeOlder d rawFrom rawTo zero_time (now - d * 24 * hour), "")
       end.

Definition matches (c : cleanupCriteria) (run : Run) : bool :=
  match e_FinishedAt run with
  | Some t => Finished (e_Phase run) && (time_is_zero (cc_from c) || negb (time_before t (cc_from c))) && (time_is_zero (cc_to c) || negb (time_after t (cc_to c)))
  | None => false
  end.

(** A run that finished before the criteria begin. *)
Definition older_than_from (c : cleanupCriteria) (run : Run) : bool :=
  negb (time_is_zero (cc_from c)) && match e_FinishedAt run with Some t => time_before t (cc_from c) | None => false end.

(** The distinct names of a request, without spaces around them. *)
Definition add_distinct (ids : list string) (n : string) : list string :=
  let n := TrimSpace n in if (n =? "")%string || bool_decide (n ∈ ids) then ids else ids ++ [n].
Definition distinct_names (names : list string) : list string := foldl add_distinct [] names.

(** ** Comparing runs *)

Definition MaxCompared : nat := 10.
Definition selectedRuns (runs : list string) : list string := take MaxCompared (distinct_names runs).

(** ** Media *)

Definition MaxMedia : nat := 24.
Definition MediaTypes : gmap string string :=
  list_to_map [(".png", "image/png"); (".jpg", "image/jpeg"); (".jpeg", "image/jpeg"); (".gif", "image/gif"); (".webp", "image/webp"); (".mp4", "video/mp4"); (".webm", "video/webm")].

Definition mediaType (p recorded : string) : string :=
  if HasPrefix recorded "image/" && negb (recorded =? "image/svg+xml")%string || HasPrefix recorded "video/" then recorded
  else default "" (MediaTypes !! ToLower (Ext p)).

Record Media := mkMedia { md_Path : string; md_Type : string; md_Video : bool }.
Definition media_of (path contentType : string) : option Media :=
  let t := mediaType path contentType in if (t =? "")%string then None else Some (mkMedia path t (HasPrefix t "video/")).
(** The first [MaxMedia] of them, and how many more there are. *)
Definition mediaOf (arts : list ApiServer.ArtifactEntry) : list Media * Z :=
  let all := omap (fun a => media_of (ApiServer.af_Path a) (ApiServer.af_ContentType a)) arts in (take MaxMedia all, Z.of_nat (length all - MaxMedia)).

(** ** Overview *)

Definition OverviewLimit : Z := 500.
Record Range := mkRange { rg_Span : duration; rg_Bucket : duration }.
Definition Ranges : gmap string Range :=
  list_to_map [("24h", mkRange (24 * hour) hour); ("7d", mkRange (7 * 24 * hour) (24 * hour)); ("30d", mkRange (30 * 24 * hour) (24 * hour))].
Definition defaultRange : string := "7d".
(** [?range=], when it is one of them. *)
Definition range_name (name : string) : string := if bool_decide (is_Some (Ranges !! name)) then name else defaultRange.
Definition range_of (name : string) : Range := default (mkRange 0 0) (Ranges !! name).

Record OverviewBucket := mkBucket { bk_Start : time; bk_Total : Z; bk_Passed : Z; bk_Failed : Z; bk_AvgMs : Z }.
Record TestOverview := mkOverview {
  ow_Range : string; ow_Since : time; ow_Summary : Summary; ow_P50Ms : Z; ow_Buckets : list OverviewBucket; ow_Capped : bool }.

(** time.Truncate: down to a multiple since the zero time. *)
Definition Truncate (t : time) (d : duration) : time := if d <=? 0 then t else t - (t - zero_time) mod d.

(** The loop over the starts; a range has at most one bucket more than its span holds. *)
Fixpoint bucket_starts (fuel : nat) (bucket : duration) (now t : time) : list time :=
  match fuel with
  | O => []
  | S fuel => if time_after t now then [] else t :: bucket_starts fuel bucket now (t + bucket)
  end.
Definition starts_of (r : Range) (start now : time) : list time := bucket_starts (Z.to_nat (rg_Span r / rg_Bucket r) + 2) (rg_Bucket r) now start.

(** A finished run of the range. *)
Definition in_range (since : time) (run : Run) : bool :=
  match e_FinishedAt run with Some t => negb (time_before t since) && Finished (e_Phase run) | None => false end.
Definition bucket_index (r : Range) (start : time) (run : Run) : Z := Z.quot (time_sub (default zero_time (e_FinishedAt run)) start) (rg_Bucket r).
(** The runs of one bucket, and of all of them. *)
Definition in_bucket (r : Range) (start : time) (i : Z) (run : Run) : bool := bucket_index r start run =? i.
Definition in_buckets (r : Range) (start : time) (n : Z) (run : Run) : bool :=
  let i := bucket_index r start run in negb ((i <? 0) || (n <=? i)).

Definition bucket_of (r : Range) (start : time) (runs : list Run) (i : nat) (t : time) : OverviewBucket :=
  let mine := List.filter (in_bucket r start (Z.of_nat i)) runs in
  let durations := durations_of mine in
  mkBucket t (Z.of_nat (length mine)) (count_phase phasePassed mine) (count_phase phaseFailed mine + count_phase phaseError mine)
    (if (length durations =? 0)%nat then 0 else Z.quot (sum64 durations) (Z.of_nat (length durations))).

Section Overviews.
Context `{URIs}.

Definition without_failure (s : Summary) : Summary :=
  mkSummary (su_Finished s) (su_Passed s) (su_Failed s) (su_Errored s) (su_Aborted s) (su_PassRate s) (su_AvgMs s) (su_P95Ms s) None.

Definition overviewOf (rangeName : string) (runs : list Run) (now : time) : TestOverview :=
  let r := range_of rangeName in
  let since := now - rg_Span r in
  let start := Truncate since (rg_Bucket r) in
  let starts := starts_of r start now in
  let in_ := List.filter (in_range since) runs in
  let durations := durations_of (List.filter (in_buckets r start (Z.of_nat (length starts))) in_) in
  let n := Z.of_nat (length durations) in
  mkOverview rangeName since (without_failure (summarize in_)) (if 0 <? n then at_rank ((n + 1) / 2 - 1) durations else 0)
    (imap (bucket_of r start in_) starts) false.
End Overviews.

(** ** Trends *)

Record Trend := mkTrend {
  tr_Label : string; tr_Unit : string; tr_Values : list spec_float; tr_Latest : spec_float; tr_Min : spec_float; tr_Avg : spec_float; tr_Max : spec_float;
  tr_Delta : string }.

(** The digits of [n / 10^k]. *)
Definition decimal (k : nat) (n : Z) : string :=
  let s := itoa_pad (S k) n in
  let i := (String.length s - k)%nat in
  if (k =? 0)%nat then s else str_take i s +:+ "." +:+ str_drop i s.
(** [n / d] to the nearest, halves to even. *)
Definition half_even (n d : Z) : Z :=
  let q := n / d in
  let r := n mod d in
  if (2 * r <? d) || (2 * r =? d) && Z.even q then q else q + 1.
(** fmt's [%.nf] of the magnitude of a number: its exact value, rounded to [k] decimals. *)
Definition fmt_abs (k : nat) (v : spec_float) : string :=
  match v with
  | S754_zero _ => decimal k 0
  | S754_finite _ m e =>
      let n := Z.pos m * 10 ^ Z.of_nat k in
      decimal k (if 0 <=? e then n * 2 ^ e else half_even n (2 ^ (- e)))
  | S754_infinity _ => "Inf"
  | S754_nan => "NaN"
  end.
Definition is_negative (v : spec_float) : bool := match v with S754_zero s | S754_infinity s | S754_finite s _ _ => s | S754_nan => false end.
(** [%.nf] and [%+.nf] *)
Definition fmt_fixed (k : nat) (v : spec_float) : string := (if is_negative v then "-" else match v with S754_infinity _ => "+" | _ => "" end) +:+ fmt_abs k v.
Definition fmt_signed (k : nat) (v : spec_float) : string := (if is_negative v then "-" else "+") +:+ fmt_abs k v.

Example fmt_halves : (fmt_fixed 1 (float_div (float_of_int 5) (float_of_int 100)), fmt_fixed 0 (float_div float_one (float_of_int 2)), fmt_fixed 1 (float_div (float_of_int (-115)) (float_of_int 100)),
  fmt_signed 0 (float_div (float_of_int 123) (float_of_int 10))) = ("0.1", "0", "-1.1", "+12").
Proof. vm_compute. reflexivity. Qed.

Definition float_sub (a b : spec_float) : spec_float := SFsub 53 1024 a b.
(** The built-in min and max: NaN if either is, and -0 before 0. *)
Definition float_pick (before : spec_float → spec_float → bool) (negative : bool) (a b : spec_float) : spec_float :=
  match a, b with
  | S754_nan, _ => S754_nan
  | _, S754_nan => S754_nan
  | S754_zero s, S754_zero _ => if Bool.eqb s negative then a else b
  | _, _ => if before b a then b else a
  end.
Definition float_min : spec_float → spec_float → spec_float := float_pick SFltb true.
Definition float_max : spec_float → spec_float → spec_float := float_pick (fun a b => SFltb b a) false.
Definition pick_of (f : spec_float → spec_float → spec_float) (xs : list spec_float) : spec_float :=
  match xs with [] => S754_nan | x :: xs => foldl f x xs end.
Definition float_sum (xs : list spec_float) : spec_float := foldl float_add float_zero xs.
Definition float_avg (xs : list spec_float) : spec_float := float_div (float_sum xs) (float_of_int (Z.of_nat (length xs))).

(** 0.05: the nearest binary64. *)
Definition five_hundredths : spec_float := float_div (float_of_int 5) (float_of_int 100).

Definition relChange (v base : spec_float) : string :=
  if SFeqb base float_zero || SFeqb v base then ""
  else let p := Durations.float_mul (float_div (float_sub v base) (SFabs base)) (float_of_int 100) in
       if SFltb (SFabs p) five_hundredths then ""
       else if SFleb (float_of_int 10) (SFabs p) then fmt_signed 0 p +:+ "%"
       else fmt_signed 1 p +:+ "%".

Definition newTrend (label unit : string) (vals : list spec_float) : Trend :=
  let latest := default float_zero (last vals) in
  mkTrend label unit vals latest (pick_of float_min vals) (float_avg vals) (pick_of float_max vals)
    (if (1 <? length vals)%nat then relChange latest (float_avg (take (length vals - 1) vals)) else "").

Definition add_trend (runs : list Run) (label unit : string) (value : Run → option spec_float) : list Trend :=
  let vals := omap value runs in if (length vals =? 0)%nat then [] else [newTrend label unit vals].

Definition is_number (v : spec_float) : bool := match v with S754_nan | S754_infinity _ => false | _ => true end.

Definition trends (runs : list Run) : list Trend :=
  add_trend runs "Duration" "ms" (fun run => if verdict run && (0 <? e_DurationMs run) then Some (float_of_int (e_DurationMs run)) else None) ++
  add_trend runs "Tests failed" "" (fun run => (fun tc => float_of_int (tc_Failed tc)) <$> e_TestCounts run) ++
  add_trend runs "Tests total" "" (fun run => (fun tc => float_of_int (tc_Total tc)) <$> e_TestCounts run) ++
  (k ← sort_natural (elements (foldl (fun keys run => keys ∪ dom (e_Metrics run)) (∅ : gset string) runs));
   add_trend runs k "" (fun run => v ← e_Metrics run !! k; if verdict run && is_number v then Some v else None)).
End Views.
