(* ===== verification/YamlView.v ===== *)
(** * internal/controlcenter/yamlview: YAML for people

    A value's YAML tree tidied (format.go): keys in reading order, strings of several lines
    as blocks, no empty mappings.  The tree is go.yaml.in/yaml's, without the aliases and
    documents that JSON has not; reading JSON into one and writing one out are the library's.
    Tidying keeps every scalar and every sequence where it was. *)
From S2P Require Import Prelude Names GoLib Sorting Urls.

Module YamlView.
Import Urls.

(** ** Trees *)

Inductive style := PlainStyle | DoubleQuotedStyle | LiteralStyle | FlowStyle.
(** A mapping's keys come with their style, in their order. *)
Inductive node :=
| ScalarNode (Tag Value : string) (Style : style)
| MappingNode (Content : list ((string * style) * node)) (Style : style)
| SequenceNode (Content : list node) (Style : style).

Inductive Root := Manifest | Spec.

Definition specKey : string := "spec".

Definition keyOrder : gmap string (list string) :=
  list_to_map [("", ["apiVersion"; "kind"; "metadata"; "spec"; "status"]); ("metadata", ["name"; "namespace"; "labels"; "annotations"]);
    ("spec", ["use"; "steps"; "config"; "content"; "container"; "pod"; "timeout"; "schedule"]);
    ("spec.config.*", ["type"; "default"; "path"; "description"; "enum"; "pattern"]); ("spec.content", ["git"; "files"; "tarball"; "testData"]);
    ("spec.container", ["image"; "command"; "args"; "workingDir"; "env"; "envFrom"; "resources"]); ("spec.content.git", ["uri"; "revision"; "paths"]);
    ("spec.content.files[]", ["path"; "content"])].

Definition joinPath (path key : string) : string := if (path =? "")%string then key else path +:+ "." +:+ key.

(** strings.LastIndexByte: what is before the last of a byte. *)
Fixpoint before_last (c : ascii) (s : string) : option string :=
  match s with
  | EmptyString => None
  | String d s =>
      match before_last c s with
      | Some before => Some (String d before)
      | None => if Ascii.eqb d c then Some "" else None
      end
  end.
Definition wildcard (path : string) : string := match before_last "." path with Some before => before +:+ ".*" | None => path end.

(** A block keeps the string: no line ends in a space or has a tab or a carriage return. *)
Fixpoint ends_in_space (l : string) : bool := match l with EmptyString => false | String c "" => Ascii.eqb c " " | String _ l => ends_in_space l end.
Definition block_byte (c : ascii) : bool := negb (Ascii.eqb c (ascii_of_nat 9) || Ascii.eqb c (ascii_of_nat 13)).
Definition blockable (s : string) : bool := forallb (fun line => negb (ends_in_space line) && all_bytes block_byte line) (Split newline s).
Definition several_lines (s : string) : bool := Contains (Names.TrimRight (Ascii.eqb newline) s) (String newline "").

Definition scalar_style (Tag Value : string) : style :=
  if (Tag =? "!!str")%string && several_lines Value && blockable Value then LiteralStyle else PlainStyle.

(** The key's place in an order; behind all of it, when it is not there. *)
Fixpoint rank (order : list string) (key : string) : nat :=
  match order with [] => 0 | k :: order => if (k =? key)%string then 0 else S (rank order key) end.
Definition by_rank (order : list string) (a b : (string * style) * node) : bool := (rank order a.1.1 <? rank order b.1.1)%nat.
Definition reorder (order : list string) (pairs : list ((string * style) * node)) : list ((string * style) * node) := sort_by (by_rank order) pairs.

(** ** Tidying *)

(** [tidy] of a field, which says whether it is empty; [tidyItem] of a list's mapping. *)
Inductive mode := Field (keepEmpty : bool) | Item.

Definition plain_key (k : string * style) : string * style := (k.1, PlainStyle).

Fixpoint tidy_as (m : mode) (path : string) (n : node) : node * bool :=
  match n with
  | ScalarNode Tag Value _ => (ScalarNode Tag Value (scalar_style Tag Value), false)
  | SequenceNode items _ =>
      (SequenceNode (List.map (fun item => (tidy_as (match item with MappingNode _ _ => Item | _ => Field true end) (path +:+ "[]") item).1) items) PlainStyle, false)
  | MappingNode pairs _ =>
      match m with
      | Field keepEmpty =>
          let kept := List.flat_map (fun kv => let '(v, empty) := tidy_as (Field false) (joinPath path kv.1.1) kv.2 in if (empty : bool) then [] else [(plain_key kv.1, v)]) pairs in
          let order := match keyOrder !! path with Some order => order | None => default [] (keyOrder !! wildcard path) end in
          (MappingNode (reorder order kept) PlainStyle, (length kept =? 0)%nat && negb keepEmpty)
      | Item =>
          let fields := List.map (fun kv => (plain_key kv.1, match kv.2 with
                                       | MappingNode [] _ => MappingNode [] FlowStyle
                                       | _ => (tidy_as (Field true) (joinPath path kv.1.1) kv.2).1
                                       end)) pairs in
          (MappingNode (match keyOrder !! path with Some order => reorder order fields | None => fields end) PlainStyle, false)
      end
  end.
Definition tidy (n : node) (path : string) (keepEmpty : bool) : node * bool := tidy_as (Field keepEmpty) path n.
Definition tidyItem (n : node) (path : string) : node := (tidy_as Item path n).1.

(** yaml.Unmarshal into a node, [None] without a document; the encoder, with an indent of two. *)
Class YAML := { yaml_Unmarshal : string → result string (option node); yaml_Encode : node → result string string }.

(** Of what encoding/json made of a value. *)
Definition Format `{YAML} (json : result string string) (root : Root) : result string string :=
  b ← json;
  doc ← yaml_Unmarshal b;
  match doc with
  | None => Ok ""
  | Some top => yaml_Encode (match root with Spec => tidy top specKey true | Manifest => tidy top "" false end).1
  end.

(** ** Examples *)

Definition text (s : string) : node := ScalarNode "!!str" s DoubleQuotedStyle.
Definition mapping (pairs : list (string * node)) : node := MappingNode ((fun kv => ((kv.1, DoubleQuotedStyle), kv.2)) <$> pairs) FlowStyle.

Example tidy_manifest :
  (tidy (mapping [("kind", text "Test"); ("metadata", mapping [("namespace", text "team-a"); ("name", text "load")]);
    ("spec", mapping [("resources", mapping []); ("content", mapping [("files", SequenceNode [mapping [("content", text (String newline "a"))]] FlowStyle)])]); ("apiVersion", text "v1")]) "" false).1 =
  (MappingNode [(("apiVersion", PlainStyle), ScalarNode "!!str" "v1" PlainStyle); (("kind", PlainStyle), ScalarNode "!!str" "Test" PlainStyle);
    (("metadata", PlainStyle), MappingNode [(("name", PlainStyle), ScalarNode "!!str" "load" PlainStyle); (("namespace", PlainStyle), ScalarNode "!!str" "team-a" PlainStyle)] PlainStyle);
    (("spec", PlainStyle), MappingNode [(("content", PlainStyle), MappingNode [(("files", PlainStyle), SequenceNode [MappingNode
      [(("content", PlainStyle), ScalarNode "!!str" (String newline "a") LiteralStyle)] PlainStyle] PlainStyle)] PlainStyle)] PlainStyle)] PlainStyle).
Proof. vm_compute. reflexivity. Qed.

(** ** What is kept *)

Inductive place := Key (k : string) | At (i : nat).
(** The scalars, and the sequences, with the way to each. *)
Inductive thing := Scalar (Tag Value : string) | Items (n : nat).

Definition under (s : place) (ts : list (list place * thing)) : list (list place * thing) := (fun t => (s :: t.1, t.2)) <$> ts.
Fixpoint things (n : node) : list (list place * thing) :=
  match n with
  | ScalarNode Tag Value _ => [([], Scalar Tag Value)]
  | MappingNode pairs _ => List.flat_map (fun kv => under (Key kv.1.1) (things kv.2)) pairs
  | SequenceNode items _ => ([], Items (length items)) :: (fix go i items := match items with [] => [] | item :: items => under (At i) (things item) ++ go (S i) items end) 0 items
  end.

Section Induction.
Context (P : node → Prop) (Hs : ∀ Tag Value st, P (ScalarNode Tag Value st)) (Hm : ∀ pairs st, Forall (fun kv => P kv.2) pairs → P (MappingNode pairs st))
  (Hq : ∀ items st, Forall P items → P (SequenceNode items st)).
Fixpoint node_nested_ind (n : node) : P n :=
  match n with
  | ScalarNode Tag Value st => Hs Tag Value st
  | MappingNode pairs st =>
      Hm pairs st ((fix go (pairs : list ((string * style) * node)) : Forall (fun kv => P kv.2) pairs :=
        match pairs with [] => Forall_nil_2 _ | kv :: pairs => Forall_cons_2 _ kv pairs (node_nested_ind kv.2) (go pairs) end) pairs)
  | SequenceNode items st =>
      Hq items st ((fix go (items : list node) : Forall P items :=
        match items with [] => Forall_nil_2 _ | n :: items => Forall_cons_2 _ n items (node_nested_ind n) (go items) end) items)
  end.
End Induction.

Definition pair_things (kv : (string * style) * node) : list (list place * thing) := under (Key kv.1.1) (things kv.2).

Lemma pairs_perm xs ys : xs ≡ₚ ys → List.flat_map pair_things xs ≡ₚ List.flat_map pair_things ys.
Proof.
  intros Hp. induction Hp as [|x xs ys _ IH|x y xs|xs ys zs _ IH1 _ IH2]; cbn [List.flat_map]; [done|by rewrite IH| |by rewrite IH1].
  rewrite !(assoc_L (++)). f_equiv. apply Permutation_app_comm.
Qed.
Lemma reorder_things order pairs st : things (MappingNode (reorder order pairs) st) ≡ₚ List.flat_map pair_things pairs.
Proof. apply (pairs_perm (reorder order pairs) pairs), sort_by_perm. Qed.

(** What was found empty has nothing. *)
Lemma kept_nothing m path n : (tidy_as m path n).2 = true → things (tidy_as m path n).1 = [].
Proof.
  destruct n as [Tag Value st|pairs st|items st]; cbn [tidy_as]; [discriminate| |discriminate]. destruct m as [keepEmpty|]; [|discriminate]. cbv zeta. cbn [fst snd].
  intros [Hl _]%andb_true_iff. apply Nat.eqb_eq, length_zero_iff_nil in Hl. rewrite Hl. reflexivity.
Qed.

Definition same_things (n : node) : Prop := ∀ m path, things (tidy_as m path n).1 ≡ₚ things n.

Lemma fields_same (f : (string * style) * node → list ((string * style) * node)) pairs :
  Forall (fun kv => List.flat_map pair_things (f kv) ≡ₚ pair_things kv) pairs → List.flat_map pair_things (List.flat_map f pairs) ≡ₚ List.flat_map pair_things pairs.
Proof.
  intros Hf. induction Hf as [|kv pairs Hkv Hf IH]; [done|]. cbn [List.flat_map]. by rewrite flat_map_app, Hkv, IH.
Qed.
Lemma under_perm k xs ys : xs ≡ₚ ys → under k xs ≡ₚ under k ys.
Proof. intros Hp. unfold under. by rewrite Hp. Qed.

Lemma items_same (g : node → node) items : Forall (fun n => things (g n) ≡ₚ things n) items → ∀ st st', things (SequenceNode (List.map g items) st) ≡ₚ things (SequenceNode items st').
Proof.
  intros Hg st st'. cbn [things]. rewrite List.length_map. constructor. generalize 0. induction Hg as [|n items Hn Hg IH]; intros i; [done|]. cbn [List.map].
  f_equiv; [by apply under_perm|apply IH].
Qed.

(** C16: tidying a tree for people keeps every scalar, with its tag and value, and every sequence,
    with its length, at the place where it was; nothing else is added. *)
Theorem tidy_keeps n m path : things (tidy_as m path n).1 ≡ₚ things n.
Proof.
  revert m path. change (same_things n). induction n as [Tag Value st|pairs st IH|items st IH] using node_nested_ind; intros m path; [done| |].
  - cbn [tidy_as]. destruct m as [keepEmpty|]; cbv zeta; cbn [fst].
    + etrans; [apply reorder_things|]. apply fields_same. eapply Forall_impl; [exact IH|]. intros [[k kst] v] Hv. cbn in Hv |- *.
      specialize (Hv (Field false) (joinPath path k)). pose proof (kept_nothing (Field false) (joinPath path k) v) as Hn. destruct (tidy_as _ _ v) as [v' empty]. cbn in Hv, Hn.
      destruct empty; cbn; unfold pair_things; cbn.
      * rewrite (Hn eq_refl) in Hv. apply Permutation_nil in Hv. by rewrite Hv.
      * rewrite app_nil_r. by apply under_perm.
    + assert (Hf : List.flat_map pair_things (List.map (fun kv => (plain_key kv.1, match kv.2 with MappingNode [] _ => MappingNode [] FlowStyle | _ => (tidy_as (Field true) (joinPath path kv.1.1) kv.2).1 end)) pairs)
        ≡ₚ List.flat_map pair_things pairs).
      { induction IH as [|[[k kst] v] pairs Hv IH IH']; [done|]. cbn [List.map List.flat_map]. f_equiv; [|exact IH']. unfold pair_things. cbn [fst snd plain_key]. apply under_perm.
        destruct v as [Tag Value vst|[|kv vs] vst|items vst]; [apply Hv|done|apply Hv|apply Hv]. }
      destruct (keyOrder !! path); [etrans; [apply reorder_things|exact Hf]|exact Hf].
  - cbn [tidy_as fst]. apply items_same. eapply Forall_impl; [exact IH|]. intros n Hn. apply Hn.
Qed.

(** ** What is lost *)

Definition Fields (n : node) : list ((string * style) * node) := match n with MappingNode pairs _ => pairs | _ => [] end.

Lemma in_item_order order pairs x : x ∈ pairs → x ∈ match order with Some order => reorder order pairs | None => pairs end.
Proof. destruct order; [|done]. intros Hx. by apply sort_by_elem. Qed.

(** An empty mapping two levels below a list's item is lost, as a preferred affinity's
    podAffinityTerm.labelSelector, where empty selects every pod and absent selects none. *)
Theorem nested_empty_lost path pairs st k sk sub st' k' :
  ((k, sk), MappingNode sub st') ∈ pairs → sub ≠ [] → Forall (fun kv => kv.1.1 = k' → ∃ st, kv.2 = MappingNode [] st) sub →
  ∃ sub', ((k, PlainStyle), MappingNode sub' PlainStyle) ∈ Fields (tidyItem (MappingNode pairs st) path) ∧ Forall (fun kv => kv.1.1 ≠ k') sub'.
Proof.
  intros Hin Hne Hk'. assert (Ht : ∃ sub', (tidy_as (Field true) (joinPath path k) (MappingNode sub st')).1 = MappingNode sub' PlainStyle ∧ Forall (fun kv => kv.1.1 ≠ k') sub').
  { cbn [tidy_as]. eexists. split; [reflexivity|]. unfold reorder. rewrite sort_by_perm. apply Forall_forall. intros kv [x [Hx Hkv]]%list_elem_of_In%in_flat_map.
    rewrite Forall_forall in Hk'. apply list_elem_of_In in Hx. specialize (Hk' x Hx). destruct (tidy_as _ _ x.2) as [v empty] eqn:E. destruct empty; [destruct Hkv|].
    destruct Hkv as [<-|[]]. cbn. intros Ek. destruct (Hk' Ek) as [s0 Es]. rewrite Es in E. discriminate E. }
  destruct Ht as (sub' & Et & Hf). exists sub'. split; [|exact Hf]. apply in_item_order. rewrite <- Et. apply list_elem_of_In, in_map_iff.
  exists ((k, sk), MappingNode sub st'). split; [|by apply list_elem_of_In]. cbn [fst snd]. by destruct sub.
Qed.

Lemma nested_empty_lost_witness :
  ∃ sub', Forall (fun kv : (string * style) * node => kv.1.1 ≠ "labelSelector") sub' ∧
    (("podAffinityTerm", PlainStyle), MappingNode sub' PlainStyle) ∈
      Fields (tidyItem (mapping [("podAffinityTerm", mapping [("labelSelector", mapping []); ("topologyKey", text "zone")]); ("weight", text "1")]) "spec.pod.affinity[]").
Proof.
  destruct (nested_empty_lost "spec.pod.affinity[]" _ FlowStyle "podAffinityTerm" DoubleQuotedStyle
    [(("labelSelector", DoubleQuotedStyle), mapping []); (("topologyKey", DoubleQuotedStyle), text "zone")] FlowStyle "labelSelector" (list_elem_of_here _ [(("weight", DoubleQuotedStyle), text "1")]))
    as (sub' & Hin & Hf); [discriminate| |exists sub'; split; [exact Hf|exact Hin]].
  repeat apply Forall_cons_2; [intros _; by exists FlowStyle|discriminate|apply Forall_nil_2].
Defined.

End YamlView.
