(* ===== verification/Reports.v ===== *)
(** * pkg/report: the tools' reports as metrics

    A report in one of seven formats (Formats, report.go) as a map from the names of
    docs/metrics.md to numbers.  The JSON and CSV of a report are decoded by the
    libraries, what is made of them is here; so is the choice of the file (ParseFile).
    Whatever a report says, its metrics have names of the vocabulary. *)
From Stdlib Require Import SpecFloat.
From S2P Require Import Prelude Api GoLib Names Keys Sorting Verdicts Wrapper Durations Views.

Module Reports.
Import Names Keys Verdicts Wrapper Views.

(** ** The names (names.go) *)

Definition RPS : string := "rps".
Definition LatencyAvgMs : string := "latency_avg_ms".
Definition LatencyMinMs : string := "latency_min_ms".
Definition LatencyMedMs : string := "latency_med_ms".
Definition LatencyP90Ms : string := "latency_p90_ms".
Definition LatencyP95Ms : string := "latency_p95_ms".
Definition LatencyP99Ms : string := "latency_p99_ms".
Definition LatencyMaxMs : string := "latency_max_ms".
Definition ChecksPassed : string := "checks_passed".
Definition ChecksFailed : string := "checks_failed".
Definition Iterations : string := "iterations".
Definition DataReceivedBytes : string := "data_received_bytes".
Definition DataSentBytes : string := "data_sent_bytes".
Definition VUsMax : string := "vus_max".
Definition AlertsHigh : string := "alerts_high".
Definition AlertsMedium : string := "alerts_medium".
Definition AlertsLow : string := "alerts_low".
Definition AlertsInfo : string := "alerts_info".
Definition AlertsTotal : string := "alerts_total".
Definition DeprecatedAPIs : string := "deprecated_apis".
Definition DeletedAPIs : string := "deleted_apis".
Definition AffectedObjects : string := "affected_objects".

Abbreviation metrics := (gmap string spec_float).

(** Requests above zero, and their errors. *)
Definition SetErrorRate (m : metrics) : metrics :=
  match m !! Requests, m !! Errors with
  | Some req, Some errs => if SFltb float_zero req then <[ErrorRateKey := float_div errs req]> m else m
  | _, _ => m
  end.

(** A metric, when the report has it. *)
Definition put (key : string) (v : option spec_float) (m : metrics) : metrics := match v with Some v => <[key := v]> m | None => m end.
Definition put_all (fields : list (string * string)) (value : string → option spec_float) (m : metrics) : metrics :=
  foldl (fun m fk => put fk.2 (value fk.1) m) m fields.

(** ** What the libraries decode *)

Record ArtilleryAggregate := mkArtillery { aa_Counters : metrics; aa_Rates : metrics; aa_Summaries : gmap string metrics }.
Record GatlingStat := mkGatling { gs_Total : option spec_float; gs_KO : option spec_float }.
(** How many objects each of its two lists has. *)
Record KubepugAPI := mkKubepugAPI { ka_DeletedItems : nat; ka_DeprecatedItems : nat }.

(** encoding/json's Decode, per report; [json.RawMessage]s are texts that are decoded on their own. *)
Class ReportDocs := {
  decode_k6 : string → result string (gmap string metrics);
  decode_artillery : string → result string (option ArtilleryAggregate);
  decode_gatling : string → result string strmap;
  decode_gatling_stat : string → option GatlingStat;
  decode_zap : string → result string (option (list (list string)));
  decode_kubepug : string → result string strmap;
  decode_kubepug_apis : string → result string (list KubepugAPI);
  read_csv : string → list (result csv_error (list string)) }.

Section Parsers.
Context `{ReportDocs, Floats, MapOrder}.

Definition or_error {A} (text : string) (r : result string A) : result string A := match r with Ok a => Ok a | Err e => Err (text +:+ ": " +:+ e) end.
Definition parsed (s : string) : option spec_float := match ParseFloat s with Ok v => Some v | Err _ => None end.

(** ** k6.go *)

Definition k6_fields : list (string * string * string) :=
  [("http_reqs", "count", Requests); ("http_reqs", "rate", RPS); ("http_req_failed", "passes", Errors); ("http_req_failed", "value", ErrorRateKey);
   ("http_req_duration", "avg", LatencyAvgMs); ("http_req_duration", "min", LatencyMinMs); ("http_req_duration", "med", LatencyMedMs);
   ("http_req_duration", "p(90)", LatencyP90Ms); ("http_req_duration", "p(95)", LatencyP95Ms); ("http_req_duration", "p(99)", LatencyP99Ms);
   ("http_req_duration", "max", LatencyMaxMs); ("checks", "passes", ChecksPassed); ("checks", "fails", ChecksFailed); ("iterations", "count", Iterations);
   ("data_received", "count", DataReceivedBytes); ("data_sent", "count", DataSentBytes); ("vus_max", "max", VUsMax)].

Definition k6_metrics (s : gmap string metrics) : metrics := foldl (fun m mfk => put mfk.2 (fields ← s !! mfk.1.1; fields !! mfk.1.2) m) ∅ k6_fields.
Definition parseK6 (data : string) : result string metrics :=
  s ← or_error "k6 summary" (decode_k6 data);
  if (size s =? 0)%nat then Err "k6 summary: no metrics"
  else
    let out := k6_metrics s in
    Ok (if bool_decide (out !! ErrorRateKey = None) then SetErrorRate out else out).

(** ** artillery.go *)

Definition artillery_latency : list (string * string) :=
  [("mean", LatencyAvgMs); ("min", LatencyMinMs); ("median", LatencyMedMs); ("p90", LatencyP90Ms); ("p95", LatencyP95Ms); ("p99", LatencyP99Ms); ("max", LatencyMaxMs)].

(** No response, or a status from 400 on; whether a counter speaks of either. *)
Definition artillery_error (acc : spec_float * bool) (kv : string * spec_float) : spec_float * bool :=
  let '(k, v) := kv in
  if HasPrefix k "errors." then (float_add acc.1 v, true)
  else if HasPrefix k "http.codes." then
    (match Atoi (TrimPrefix k "http.codes.") with Some code => if (400 <=? code)%Z then float_add acc.1 v else acc.1 | None => acc.1 end, true)
  else acc.

Definition parseArtillery (data : string) : result string metrics :=
  rep ← or_error "artillery report" (decode_artillery data);
  match rep with
  | None => Err "artillery report: no aggregate block"
  | Some a =>
      let '(errs, sawErrors) := foldl artillery_error (float_zero, false) (range (aa_Counters a)) in
      let rt := default ∅ (aa_Summaries a !! "http.response_time") in
      let out := put Requests (aa_Counters a !! "http.requests") ∅ in
      let out := put Errors (if sawErrors then Some errs else None) out in
      let out := put RPS (aa_Rates a !! "http.request_rate") out in
      Ok (SetErrorRate (put_all artillery_latency (fun field => rt !! field) out))
  end.

(** ** gatling.go *)

Definition gatling_fields : list (string * string) :=
  [("meanNumberOfRequestsPerSecond", RPS); ("meanResponseTime", LatencyAvgMs); ("minResponseTime", LatencyMinMs); ("percentiles1", LatencyMedMs);
   ("percentiles3", LatencyP95Ms); ("percentiles4", LatencyP99Ms); ("maxResponseTime", LatencyMaxMs)].

Definition parseGatling (data : string) : result string metrics :=
  s ← or_error "gatling stats" (decode_gatling data);
  if (size s =? 0)%nat then Err "gatling stats: no global stats block"
  else
    let stat name := raw ← s !! name; decode_gatling_stat raw in
    let n := stat "numberOfRequests" in
    let out := put Errors (n ≫= gs_KO) (put Requests (n ≫= gs_Total) ∅) in
    Ok (SetErrorRate (put_all gatling_fields (fun field => stat field ≫= gs_Total) out)).

(** ** kubepug.go *)

Definition unmarshalNullable (raw : string) : result string (list KubepugAPI) := if (raw =? "null")%string then Ok [] else decode_kubepug_apis raw.
Definition objects_of (apis : list KubepugAPI) : nat := sum_list ((fun api => ka_DeletedItems api + ka_DeprecatedItems api) <$> apis).

Definition parseKubepug (data : string) : result string metrics :=
  raw ← or_error "kubepug report" (decode_kubepug data);
  match raw !! "deprecated_apis", raw !! "deleted_apis" with
  | Some rawDeprecated, Some rawDeleted =>
      deprecated ← or_error "kubepug report: deprecated_apis" (unmarshalNullable rawDeprecated);
      deleted ← or_error "kubepug report: deleted_apis" (unmarshalNullable rawDeleted);
      Ok ({[ DeprecatedAPIs := float_of_int (Z.of_nat (length deprecated)); DeletedAPIs := float_of_int (Z.of_nat (length deleted));
             AffectedObjects := float_of_int (Z.of_nat (objects_of deprecated + objects_of deleted)) ]})
  | _, _ => Err "kubepug report: no deprecated_apis/deleted_apis"
  end.

(** ** zap.go *)

Definition byRisk (riskcode : string) : option string :=
  if (riskcode =? "3")%string then Some AlertsHigh else if (riskcode =? "2")%string then Some AlertsMedium
  else if (riskcode =? "1")%string then Some AlertsLow else if (riskcode =? "0")%string then Some AlertsInfo else None.
Definition increment (key : string) (m : metrics) : metrics := <[key := float_add (default float_zero (m !! key)) float_one]> m.
Definition zap_alert (out : result string metrics) (riskcode : string) : result string metrics :=
  out ← out;
  match byRisk riskcode with
  | Some key => Ok (increment AlertsTotal (increment key out))
  | None => Err ("zap report: unknown riskcode " +:+ quote riskcode)
  end.
Definition no_alerts : metrics :=
  {[ AlertsHigh := float_zero; AlertsMedium := float_zero; AlertsLow := float_zero; AlertsInfo := float_zero; AlertsTotal := float_zero ]}.

Definition parseZAP (data : string) : result string metrics :=
  rep ← or_error "zap report" (decode_zap data);
  match rep with
  | None => Err "zap report: no site block"
  | Some sites => foldl zap_alert (Ok no_alerts) (mjoin sites)
  end.

(** ** locust.go *)

Definition columns : list (string * string) :=
  [("Request Count", Requests); ("Failure Count", Errors); ("Requests/s", RPS); ("Average Response Time", LatencyAvgMs); ("Min Response Time", LatencyMinMs);
    ("Median Response Time", LatencyMedMs); ("90%", LatencyP90Ms); ("95%", LatencyP95Ms); ("99%", LatencyP99Ms); ("Max Response Time", LatencyMaxMs)].
Definition column_key (header : string) : option string := (list_to_map columns : gmap string string) !! TrimSpace header.

(** The last column of a name. *)
Definition column_of (name : string) (header : list string) : option nat :=
  foldl (fun col ih => if (TrimSpace ih.2 =? name)%string then Some ih.1 else col) None (enumerate header).

Definition locust_cell (row : list string) (m : metrics) (ih : nat * string) : metrics :=
  match column_key ih.2, row !! ih.1 with
  | Some key, Some cell => put key (parsed (TrimSpace cell)) m
  | _, _ => m
  end.
Definition is_aggregated (nameCol : nat) (row : list string) : bool :=
  match row !! nameCol with Some name => (TrimSpace name =? "Aggregated")%string | None => false end.
Fixpoint locust_rows (header : list string) (nameCol : nat) (rows : list (result csv_error (list string))) : result string metrics :=
  match rows with
  | [] => Err "locust: no Aggregated row"
  | Err (CsvError e) :: _ => Err ("locust: read row: " +:+ e)
  | Ok row :: rows =>
      if is_aggregated nameCol row then Ok (SetErrorRate (foldl (locust_cell row) ∅ (enumerate header))) else locust_rows header nameCol rows
  end.

Definition parseLocust (data : string) : result string metrics :=
  match read_csv data with
  | [] => Err "locust: read header: EOF"
  | Err (CsvError e) :: _ => Err ("locust: read header: " +:+ e)
  | Ok header :: rows =>
      match column_of "Name" header with
      | None => Err "locust: header lacks Name (not a *_stats.csv?)"
      | Some nameCol => locust_rows header nameCol rows
      end
  end.

(** ** jtl.go *)

(** math.Min and math.Max: an infinity of the side that wins comes before a NaN. *)
Definition math_Min (a b : spec_float) : spec_float :=
  match a, b with S754_infinity true, _ | _, S754_infinity true => S754_infinity true | _, _ => float_min a b end.
Definition math_Max (a b : spec_float) : spec_float :=
  match a, b with S754_infinity false, _ | _, S754_infinity false => S754_infinity false | _, _ => float_max a b end.
Definition MaxFloat64 : spec_float := S754_finite false (2 ^ 53 - 1) 971.

(** The elapsed times, newest row first, how many failed, the first start and the last end. *)
Record Samples := mkSamples { sp_elapsed : list spec_float; sp_errs : nat; sp_first : spec_float; sp_lastEnd : spec_float }.

(** A row without its columns, or without numbers in them, is skipped. *)
Definition jtl_sample (tsCol elCol okCol : nat) (s : Samples) (row : list string) : Samples :=
  match row !! tsCol, row !! elCol, row !! okCol with
  | Some ts, Some el, Some success =>
      match parsed ts, parsed el with
      | Some ts, Some el =>
          mkSamples (el :: sp_elapsed s) (if EqualFold (TrimSpace success) "true" then sp_errs s else S (sp_errs s)) (math_Min (sp_first s) ts)
            (math_Max (sp_lastEnd s) (float_add ts el))
      | _, _ => s
      end
  | _, _, _ => s
  end.
Fixpoint jtl_samples (tsCol elCol okCol : nat) (s : Samples) (rows : list (result csv_error (list string))) : result string Samples :=
  match rows with
  | [] => Ok s
  | Err (CsvError e) :: _ => Err ("jtl: read row: " +:+ e)
  | Ok row :: rows => jtl_samples tsCol elCol okCol (jtl_sample tsCol elCol okCol s row) rows
  end.

(** slices.Sort of floats: NaNs first. *)
Definition float_less (a b : spec_float) : bool := match a, b with S754_nan, S754_nan => false | S754_nan, _ => true | _, _ => SFltb a b end.

(** int(math.Ceil(v)) of a finite float. *)
Definition ceil (v : spec_float) : Z :=
  match v with
  | S754_finite s m e => let m := if s then Z.neg m else Z.pos m in if (0 <=? e)%Z then (m * 2 ^ e)%Z else (- (- m / 2 ^ (- e)))%Z
  | _ => 0%Z
  end.
(** The rank is one of the samples'. *)
Definition nearestRank (sorted : list spec_float) (p : Z) : spec_float :=
  let rank := ceil (Durations.float_mul (float_div (float_of_int p) (float_of_int 100)) (float_of_int (Z.of_nat (length sorted)))) in
  default float_zero (sorted !! (Z.to_nat (Z.max rank 1) - 1)%nat).

Definition jtl_report (s : Samples) : metrics :=
  let elapsed := sort_by float_less (reverse (sp_elapsed s)) in
  let n := float_of_int (Z.of_nat (length elapsed)) in
  let out : metrics :=
    {[ Requests := n; Errors := float_of_int (Z.of_nat (sp_errs s)); LatencyAvgMs := float_div (foldl float_add float_zero elapsed) n;
       LatencyMinMs := default float_zero (head elapsed); LatencyMedMs := nearestRank elapsed 50; LatencyP90Ms := nearestRank elapsed 90;
       LatencyP95Ms := nearestRank elapsed 95; LatencyP99Ms := nearestRank elapsed 99; LatencyMaxMs := default float_zero (last elapsed) ]} in
  let span := float_sub (sp_lastEnd s) (sp_first s) in
  SetErrorRate (if SFltb float_zero span then <[RPS := float_div n (float_div span (float_of_int 1000))]> out else out).

Definition parseJTL (data : string) : result string metrics :=
  match read_csv data with
  | [] => Err "jtl: read header: EOF"
  | Err (CsvError e) :: _ => Err ("jtl: read header: " +:+ e)
  | Ok header :: rows =>
      match column_of "timeStamp" header, column_of "elapsed" header, column_of "success" header with
      | Some tsCol, Some elCol, Some okCol =>
          s ← jtl_samples tsCol elCol okCol (mkSamples [] 0 MaxFloat64 float_zero) rows;
          if (length (sp_elapsed s) =? 0)%nat then Err "jtl: no samples" else Ok (jtl_report s)
      | _, _, _ => Err "jtl: header lacks timeStamp/elapsed/success (not a CSV JTL?)"
      end
  end.

(** ** report.go *)

Definition parsers : gmap string (string → result string metrics) :=
  list_to_map [("k6Summary", parseK6); ("jtl", parseJTL); ("locustCsv", parseLocust); ("gatlingStats", parseGatling); ("artilleryJson", parseArtillery);
    ("zapJson", parseZAP); ("kubepugJson", parseKubepug)].
Definition Formats : list string := ["k6Summary"; "jtl"; "locustCsv"; "gatlingStats"; "artilleryJson"; "zapJson"; "kubepugJson"].

Definition Parse (from data : string) : result string metrics :=
  match parsers !! from with Some p => p data | None => Err ("unknown report format " +:+ quote from) end.

(** doublestar and the disk: whether a pattern is one, its matches, and a file's bytes. *)
Class ReportFiles := {
  ValidatePattern : string → bool;
  Glob : string → string → result string (list string);
  read_file : string → string → result string string }.

(** The last match in the order of names, when there are several. *)
Definition ParseFile `{ReportFiles} (from workingDir pathGlob : string) : result string metrics * string :=
  if negb (ValidatePattern pathGlob) || IsAbs pathGlob then (Err ("invalid report path " +:+ quote pathGlob), "")
  else
    match Glob workingDir pathGlob with
    | Err e => (Err ("glob " +:+ quote pathGlob +:+ ": " +:+ e), "")
    | Ok matches =>
        match last (str_sort matches) with
        | None => (Err ("report file not found: " +:+ pathGlob), "")
        | Some rel => (data ← read_file workingDir rel; Parse from data, rel)
        end
    end.

(** ** The vocabulary *)

Definition vocabulary : list string :=
  [Requests; Errors; ErrorRateKey; RPS; LatencyAvgMs; LatencyMinMs; LatencyMedMs; LatencyP90Ms; LatencyP95Ms; LatencyP99Ms; LatencyMaxMs; ChecksPassed; ChecksFailed;
   Iterations; DataReceivedBytes; DataSentBytes; VUsMax; AlertsHigh; AlertsMedium; AlertsLow; AlertsInfo; AlertsTotal; DeprecatedAPIs; DeletedAPIs; AffectedObjects].
(** errors / requests, where there are requests. *)
Definition quotient (m : metrics) : option spec_float :=
  match m !! Requests, m !! Errors with Some req, Some errs => if SFltb float_zero req then Some (float_div errs req) else None | _, _ => None end.

(** The names are among some. *)
Definition named (names : list string) (m : metrics) : Prop := ∀ k, is_Some (m !! k) → k ∈ names.
(** Those of the parsers, but for the error rate. *)
Definition plain : list string := List.filter (fun k => negb (k =? ErrorRateKey)%string) vocabulary.

(** Without simplifying what is in it. *)
Lemma Ok_eq {E A} (a b : A) : (Ok a : result E A) = Ok b → b = a.
Proof. congruence. Qed.
Lemma named_empty names : named names ∅.
Proof. intros k [v Hv]. by rewrite lookup_empty in Hv. Qed.
Lemma named_insert names k v m : k ∈ names → named names m → named names (<[k := v]> m).
Proof. intros Hk Hm j. destruct (decide (k = j)) as [->|Hne]; [done|]. rewrite lookup_insert_ne by done. apply Hm. Qed.
Lemma named_put names k v m : k ∈ names → named names m → named names (put k v m).
Proof. destruct v; [apply named_insert|done]. Qed.
Lemma named_fold {X} names (f : metrics → X → metrics) xs : Forall (fun x => ∀ m, named names m → named names (f m x)) xs → ∀ m, named names m → named names (foldl f m xs).
Proof. intros Hf. induction Hf as [|x xs Hx Hf IH]; intros m Hm; [done|]. apply IH, Hx, Hm. Qed.
Lemma named_put_all names fields value m : Forall (fun fk => fk.2 ∈ names) fields → named names m → named names (put_all fields value m).
Proof. intros Hf. apply named_fold. eapply Forall_impl; [exact Hf|]. intros fk Hk m'. by apply named_put. Qed.

Lemma filtered_elem (f : string → bool) ks k : k ∈ List.filter f ks → k ∈ ks ∧ f k = true.
Proof. rewrite !list_elem_of_In. apply filter_In. Qed.
Lemma plain_elem k : k ∈ plain → k ∈ vocabulary ∧ (k =? ErrorRateKey)%string = false.
Proof. unfold plain. intros [Hk Hf%negb_true_iff]%filtered_elem. by split. Qed.
Lemma SetErrorRate_named m : named plain m → named vocabulary (SetErrorRate m) ∧ SetErrorRate m !! ErrorRateKey = quotient (SetErrorRate m).
Proof.
  intros Hm. assert (Hv : named vocabulary m) by (intros k Hk; exact (proj1 (plain_elem k (Hm k Hk)))).
  assert (Hn : m !! ErrorRateKey = None).
  { apply eq_None_not_Some. intros Hs. pose proof (proj2 (plain_elem _ (Hm _ Hs))) as E. rewrite String.eqb_refl in E. discriminate E. }
  clear Hm. unfold SetErrorRate. destruct (m !! Requests) as [req|] eqn:Er; [destruct (m !! Errors) as [errs|] eqn:Ee; [destruct (SFltb float_zero req) eqn:El|]|].
  - split; [apply named_insert; [apply list_elem_of_further, list_elem_of_further, list_elem_of_here|exact Hv]|].
    unfold quotient. rewrite lookup_insert_eq, !lookup_insert_ne, Er, Ee, El by discriminate. reflexivity.
  - split; [exact Hv|]. unfold quotient. rewrite Er, Ee, El. exact Hn.
  - split; [exact Hv|]. unfold quotient. rewrite Er, Ee. exact Hn.
  - split; [exact Hv|]. unfold quotient. rewrite Er. exact Hn.
Qed.

Definition good (m : metrics) : Prop := named vocabulary m ∧ m !! ErrorRateKey = quotient m.

Ltac member := refine (bool_decide_unpack _ _); vm_compute; exact I.
(** Metrics without requests have no error rate. *)
Lemma few_good names m : named names m → Forall (fun k => k ∈ vocabulary) names → Requests ∉ names → ErrorRateKey ∉ names → good m.
Proof.
  intros Hm Hv Hr He. rewrite Forall_forall in Hv. split; [intros k Hk; exact (Hv k (Hm k Hk))|].
  assert (Hnone : ∀ k, k ∉ names → m !! k = None) by (intros k Hk; apply eq_None_not_Some; intros Hs; exact (Hk (Hm k Hs))).
  unfold quotient. rewrite (Hnone _ Hr), (Hnone _ He). reflexivity.
Qed.

Lemma parseK6_named data m : parseK6 data = Ok m → named vocabulary m.
Proof.
  unfold parseK6. destruct (or_error _ _) as [s|e]; [|discriminate]. cbn [mbind result_bind]. destruct (size s =? 0)%nat; [discriminate|]. intros ->%Ok_eq.
  assert (Hout : named vocabulary (k6_metrics s)).
  { apply named_fold; [|apply named_empty]. assert (Hf : Forall (fun mfk : string * string * string => mfk.2 ∈ vocabulary) k6_fields) by member.
    eapply Forall_impl; [exact Hf|]. intros mfk Hk m'. apply named_put, Hk. }
  case_bool_decide; [|exact Hout]. unfold SetErrorRate. destruct (k6_metrics s !! Requests); [|exact Hout]. destruct (k6_metrics s !! Errors); [|exact Hout]. destruct (SFltb _ _); [|exact Hout].
  apply named_insert; [member|exact Hout].
Qed.
Lemma parseArtillery_good data m : parseArtillery data = Ok m → good m.
Proof.
  unfold parseArtillery. destruct (or_error _ _) as [[a|]|e]; [|discriminate..]. cbn [mbind result_bind]. destruct (foldl _ _ _) as [errs saw]. intros ->%Ok_eq.
  apply SetErrorRate_named, named_put_all; [member|]. repeat (apply named_put; [member|]). apply named_empty.
Qed.
Lemma parseGatling_good data m : parseGatling data = Ok m → good m.
Proof.
  unfold parseGatling. destruct (or_error _ _) as [s|e]; [|discriminate]. cbn [mbind result_bind]. destruct (size s =? 0)%nat; [discriminate|]. intros ->%Ok_eq.
  apply SetErrorRate_named, named_put_all; [member|]. repeat (apply named_put; [member|]). apply named_empty.
Qed.
Lemma parseKubepug_good data m : parseKubepug data = Ok m → good m.
Proof.
  unfold parseKubepug. destruct (or_error _ _) as [raw|e]; [|discriminate]. cbn [mbind result_bind]. destruct (raw !! _); [|discriminate]. destruct (raw !! _); [|discriminate].
  destruct (or_error "kubepug report: deprecated_apis" _) as [deprecated|e]; [|discriminate]. cbn [mbind result_bind]. destruct (or_error _ _) as [deleted|e]; [|discriminate]. cbn [mbind result_bind]. intros ->%Ok_eq.
  apply (few_good [DeprecatedAPIs; DeletedAPIs; AffectedObjects]); [|member..]. repeat (apply named_insert; [member|]). apply named_empty.
Qed.

Definition alerts : list string := [AlertsHigh; AlertsMedium; AlertsLow; AlertsInfo; AlertsTotal].
Lemma byRisk_alert code key : byRisk code = Some key → key ∈ alerts.
Proof. unfold byRisk. repeat (destruct (_ =? _)%string; [intros E; injection E as <-; member|]). discriminate. Qed.
Lemma zap_alerts_named codes : ∀ out m, (∀ m, out = Ok m → named alerts m) → foldl zap_alert out codes = Ok m → named alerts m.
Proof.
  induction codes as [|code codes IH]; intros out m Hout; [apply Hout|]. cbn [foldl]. apply IH. intros m'. unfold zap_alert. destruct out as [m0|e]; [|discriminate].
  cbn [mbind result_bind]. destruct (byRisk code) as [key|] eqn:Ek; [|discriminate]. intros ->%Ok_eq. apply named_insert; [member|].
  apply named_insert; [exact (byRisk_alert _ _ Ek)|exact (Hout _ eq_refl)].
Qed.
Lemma parseZAP_good data m : parseZAP data = Ok m → good m.
Proof.
  unfold parseZAP. destruct (or_error _ _) as [[sites|]|e]; [|discriminate..]. cbn [mbind result_bind]. intros E.
  apply (few_good alerts); [|member..]. eapply zap_alerts_named; [|exact E]. intros m' ->%Ok_eq. repeat (apply named_insert; [member|]). apply named_empty.
Qed.

Lemma column_key_plain h key : column_key h = Some key → key ∈ plain.
Proof.
  intros Hk. apply (elem_of_list_to_map_2 (M := gmap string) columns (TrimSpace h)) in Hk. assert (Hf : Forall (fun hk : string * string => hk.2 ∈ plain) columns) by member.
  rewrite Forall_forall in Hf. exact (Hf _ Hk).
Qed.
Lemma locust_cells_named row header m : named plain m → named plain (foldl (locust_cell row) m header).
Proof.
  apply named_fold, Forall_true. intros ih m' Hm'. unfold locust_cell. destruct (column_key ih.2) as [key|] eqn:Ek; [|exact Hm']. destruct (row !! ih.1); [|exact Hm'].
  apply named_put; [exact (column_key_plain _ _ Ek)|exact Hm'].
Qed.
Lemma locust_rows_good header nameCol rows m : locust_rows header nameCol rows = Ok m → good m.
Proof.
  induction rows as [|[row|[e]] rows IH]; cbn [locust_rows]; [discriminate| |discriminate]. destruct (is_aggregated _ _); [|exact IH]. intros ->%Ok_eq.
  apply SetErrorRate_named, locust_cells_named, named_empty.
Qed.
Lemma parseLocust_good data m : parseLocust data = Ok m → good m.
Proof. unfold parseLocust. destruct (read_csv data) as [|[header|[e]] rows]; [discriminate| |discriminate]. destruct (column_of _ _); [apply locust_rows_good|discriminate]. Qed.

Lemma parseJTL_good data m : parseJTL data = Ok m → good m.
Proof.
  unfold parseJTL. destruct (read_csv data) as [|[header|[e]] rows]; [discriminate| |discriminate]. do 3 (destruct (column_of _ _); [|discriminate]).
  destruct (jtl_samples _ _ _ _ _) as [s|e]; [|discriminate]. cbn [mbind result_bind]. destruct (_ =? 0)%nat; [discriminate|]. intros ->%Ok_eq. unfold jtl_report. cbv zeta.
  apply SetErrorRate_named. destruct (SFltb _ _); repeat (apply named_insert; [member|]); apply named_empty.
Qed.


End Parsers.

(** An Artillery report in which requests that were answered with 500 also failed a check. *)
Definition sample_docs : ReportDocs := Build_ReportDocs (fun _ => Err "EOF")
  (fun _ => Ok (Some (mkArtillery {[ "http.requests" := float_of_int 10; "http.codes.500" := float_of_int 8; "errors.Failed expectations" := float_of_int 8 ]} ∅ ∅)))
  (fun _ => Err "EOF") (fun _ => None) (fun _ => Err "EOF") (fun _ => Err "EOF") (fun _ => Err "EOF") (fun _ => []).
Definition sample_floats : Floats := Build_Floats (fun _ => Err "syntax") (fun _ => "0").
Definition sample_parse : string → string → result string metrics := @Parse sample_docs sample_floats list_order.


End Reports.
