(* ===== verification/Comparison.v ===== *)
(** * internal/controlcenter/api: runs side by side

    format.go, and of analytics.go the comparison of several runs: facts, metrics and
    parameters as rows, one column per run, and its Markdown.  Then (ComparisonSpec) a
    line of the table read back as GitHub reads one, cut at the bars no backslash stands
    before: whatever the runs hold, the lines are those of one table. *)
From Stdlib Require Import SpecFloat.
From S2P Require Import Prelude Sorting Api Names GoLib Keys Durations Urls Store ApiRuns ApiServer Natural Views.

Module Comparison.
Import Names Keys Urls Store ApiRuns Natural Views.

(** ** format.go *)

(** strconv.FormatFloat(v, 'f', -1, 64): the fewest digits that are read back as [v]. *)
Class ShortestDecimals := shortest : spec_float → string.

(** math.Round: halves away from zero. *)
Definition Round (v : spec_float) : spec_float :=
  match v with
  | S754_finite s m e =>
      if (0 <=? e)%Z then v
      else let d := (2 ^ (- e))%Z in
           let q := ((2 * Z.pos m + d) / (2 * d))%Z in
           if (q =? 0)%Z then S754_zero s else float_of_int (if s then - q else q)%Z
  | _ => v
  end.

(** An integer below 1e15, as it is. *)
Definition is_integer (v : spec_float) : bool := SFltb (SFabs v) (float_of_int (10 ^ 15)) && SFeqb v (float_of_int (int64_of_float v)).

Definition FormatNumber `{ShortestDecimals} (v : spec_float) : string :=
  if is_integer v then fmt_fixed 0 v else shortest (float_div (Round (Durations.float_mul v (float_of_int 1000))) (float_of_int 1000)).

Definition FormatDuration (ms : Z) : string :=
  if (ms <=? 0)%Z then ""
  else let d := wrap64 (ms * millisecond) in
       if (d <? minute)%Z then fmt_fixed 1 (Duration_Seconds d) +:+ "s"
       else if (d <? hour)%Z then itoa (Z.quot d minute) +:+ "m " +:+ itoa (Z.rem (Z.quot d second) 60) +:+ "s"
       else itoa (Z.quot d hour) +:+ "h " +:+ itoa (Z.rem (Z.quot d minute) 60) +:+ "m".

Example FormatDuration_cases : (FormatDuration 5600, FormatDuration 184000, FormatDuration 3720000, FormatDuration 0, FormatDuration 59960) =
  ("5.6s", "3m 4s", "1h 2m", "", "60.0s").
Proof. vm_compute. reflexivity. Qed.

Definition ShortSHA (sha : string) : string := if (7 <? String.length sha)%nat then str_take 7 sha else sha.

(** ** The comparison *)

Record CompareCell := mkCell { cc_Value : string; cc_Delta : string }.
Record CompareRow := mkCompareRow { cw_Label : string; cw_Cells : list CompareCell }.
Record Comparison := mkComparison {
  cn_Runs : list RunRow; cn_Facts : list CompareRow; cn_Metrics : list CompareRow; cn_Params : list CompareRow; cn_Missing : list string; cn_Markdown : string }.

(** Started, else queued, else finished. *)
Definition runTime (run : Run) : Z :=
  match e_StartedAt run with
  | Some t => t
  | None => match e_QueuedAt run with Some t => t | None => default 0%Z (e_FinishedAt run) end
  end.

(** "2006-01-02 15:04 UTC" *)
Definition minute_text (t : time) : string := date_part t +:+ " " +:+ str_take 5 (clock_part t) +:+ " UTC".

Section Rows.
Context `{URIs, ShortestDecimals}.

(** A row of facts, when a run has one. *)
Definition fact (runs : list Run) (label : string) (value : Run → string) : list CompareRow :=
  if existsb (fun run => negb (value run =? "")%string) runs then [mkCompareRow label ((fun run => mkCell (value run) "") <$> runs)] else [].

Definition commit_text (run : Run) : string :=
  match e_Git run with
  | Some g =>
      if (gc_Commit g =? "")%string then ""
      else ShortSHA (gc_Commit g) +:+ (if negb (gc_Revision g =? "")%string then " (" +:+ gc_Revision g +:+ ")" else "")
  | None => ""
  end.
Definition counts_text (run : Run) : string :=
  match e_TestCounts run with
  | Some tc => itoa (tc_Passed tc) +:+ " passed · " +:+ itoa (tc_Failed tc) +:+ " failed · " +:+ itoa (tc_Skipped tc) +:+ " skipped"
  | None => ""
  end.

Definition facts (runs : list Run) : list CompareRow :=
  fact runs "Status" e_Phase ++ fact runs "Started" (fun run => match e_StartedAt run with Some t => minute_text t | None => "" end) ++
  fact runs "Duration" (fun run => FormatDuration (e_DurationMs run)) ++ fact runs "Commit" commit_text ++ fact runs "Tests" counts_text ++
  fact runs "Started by" (fun run => value_of (e_Tags run) TagCreatedBy).

(** The keys of the runs' maps, each once. *)
Definition keys_of {A} (get : Run → gmap string A) (runs : list Run) : list string :=
  sort_natural (elements (foldl (fun (ks : gset string) run => ks ∪ dom (get run)) ∅ runs)).

(** A metric against the first run's, when that has it. *)
Definition metric_cell (k : string) (base : option spec_float) (i : nat) (run : Run) : CompareCell :=
  match e_Metrics run !! k with
  | None => mkCell "" ""
  | Some v => mkCell (FormatNumber v) (match i, base with S _, Some base => relChange v base | _, _ => "" end)
  end.
Definition metric_row (runs : list Run) (k : string) : CompareRow :=
  mkCompareRow k (imap (metric_cell k (run ← head runs; e_Metrics run !! k)) runs).
Definition param_row (runs : list Run) (k : string) : CompareRow := mkCompareRow k ((fun run => mkCell (value_of (e_Config run) k) "") <$> runs).

Definition fillComparison (missing : list string) (runs : list Run) : Comparison :=
  mkComparison (runRow <$> runs) (facts runs) (metric_row runs <$> keys_of e_Metrics runs) (param_row runs <$> keys_of e_Config runs) missing "".
End Rows.

(** ** Markdown *)

(** strings.NewReplacer of single bytes. *)
Definition backslash : ascii := "\"%char.
Definition bar : ascii := "|"%char.
Definition cell_byte (c : ascii) : string :=
  if Ascii.eqb c (ascii_of_nat 13) || Ascii.eqb c newline then " " else if Ascii.eqb c bar then String backslash (String bar "") else String c "".
Definition text_byte (c : ascii) : string :=
  if Ascii.eqb c "*" || Ascii.eqb c "_" then String backslash (String c "") else if Ascii.eqb c "`" then "'" else String c "".
Fixpoint replace_bytes (f : ascii → string) (s : string) : string := match s with EmptyString => "" | String c s => f c +:+ replace_bytes f s end.

Definition mdCell (s : string) : string := TrimSpace (replace_bytes cell_byte s).
Definition mdText (s : string) : string := mdCell (replace_bytes text_byte s).
Definition mdCode (s : string) : string := str_map (fun c => if Ascii.eqb c "`" then "'"%char else c) (mdCell s).

Definition endline : string := String newline "".
Definition row_line (cells : list string) : string := "| " +:+ str_join " | " cells +:+ " |" +:+ endline.

Definition cell_text (c : CompareCell) : string :=
  mdCell ((if (cc_Value c =? "")%string then "—" else cc_Value c) +:+ (if negb (cc_Delta c =? "")%string then " (" +:+ cc_Delta c +:+ ")" else "")).
(** A section's title on a line of its own, then its rows. *)
Definition section (columns : nat) (title : string) (rows : list CompareRow) : list (list string) :=
  match rows with
  | [] => []
  | _ => (("**" +:+ title +:+ "**") :: replicate columns "") :: ((fun r => mdCell (cw_Label r) :: (cell_text <$> cw_Cells r)) <$> rows)
  end.

(** The lines of the table, cell by cell. *)
Definition table (c : Comparison) : list (list string) :=
  let n := length (cn_Runs c) in
  ["Run" :: ((fun run => mdCell (ro_Name run)) <$> cn_Runs c); replicate (S n) "---"] ++
  section n "Run" (cn_Facts c) ++ section n "Metrics" (cn_Metrics c) ++ section n "Parameters" (cn_Params c).

Definition str_concat (xs : list string) : string := foldr (fun a b => a +:+ b) "" xs.

Definition comparisonMarkdown (cluster ns test : string) (c : Comparison) (now : time) : string :=
  "## Test comparison: " +:+ mdText test +:+ endline +:+ endline +:+
  "- Cluster: `" +:+ mdCode cluster +:+ "`, namespace `" +:+ mdCode ns +:+ "`" +:+ endline +:+
  "- Generated: " +:+ minute_text now +:+ endline +:+ endline +:+
  (if (length (cn_Runs c) =? 0)%nat then "No runs to compare." +:+ endline
   else str_concat (row_line <$> table c) +:+
        (if (0 <? length (cn_Metrics c))%nat && (1 <? length (cn_Runs c))%nat then endline +:+ "Changes in brackets are against the first run." +:+ endline else "")).

Definition with_Markdown (md : string) (c : Comparison) : Comparison :=
  mkComparison (cn_Runs c) (cn_Facts c) (cn_Metrics c) (cn_Params c) (cn_Missing c) md.

End Comparison.

Module ComparisonSpec.
Import Names Keys Urls Store ApiRuns Natural Views Comparison.

(** The parts between the bars; [p] is the byte before. *)
Definition add_byte (c : ascii) (parts : list string) : list string :=
  match parts with [] => [String c ""] | part :: parts => String c part :: parts end.
Fixpoint parts_after (p : ascii) (s : string) : list string :=
  match s with
  | EmptyString => [""]
  | String c s => if Ascii.eqb c bar && negb (Ascii.eqb p backslash) then "" :: parts_after c s else add_byte c (parts_after c s)
  end.
Definition read_row (l : string) : list string := TrimSpace <$> parts_after " " l.

Definition text_char (c : ascii) : bool := negb (Ascii.eqb c newline || Ascii.eqb c (ascii_of_nat 13)).

Example read_row_1 : read_row (row_line [mdCell "a|b"; "**Run**"; ""; mdCell "|"]) = [""; "a\|b"; "**Run**"; ""; "\|"; ""].
Proof. reflexivity. Qed.

(** ** A cell *)

(** No bar of [s], after [p], ends it. *)
Fixpoint closed (p : ascii) (s : string) : bool :=
  match s with EmptyString => true | String c s => (negb (Ascii.eqb c bar) || Ascii.eqb p backslash) && closed c s end.
Definition cell (s : string) : Prop := closed " " s = true ∧ all_bytes text_char s = true ∧ trimmed s = true.

Lemma closed_prev p q s : Ascii.eqb p backslash = false → Ascii.eqb q backslash = false → closed p s = closed q s.
Proof. destruct s; [done|]. cbn. by intros -> ->. Qed.

Lemma replaced_closed s : ∀ p, closed p (replace_bytes cell_byte s) = true.
Proof.
  induction s as [|c s IH]; [done|]. intros p. cbn [replace_bytes]. unfold cell_byte. destruct (_ || _); [|destruct (Ascii.eqb c bar) eqn:Eb].
  - rewrite str_app_cons, str_app_nil. cbn [closed]. apply IH.
  - rewrite !str_app_cons, str_app_nil. cbn [closed]. rewrite IH. reflexivity.
  - rewrite str_app_cons, str_app_nil. cbn [closed]. by rewrite Eb, IH.
Qed.
Lemma replaced_line s : all_bytes text_char (replace_bytes cell_byte s) = true.
Proof.
  induction s as [|c s IH]; [done|]. cbn [replace_bytes]. rewrite all_bytes_app, IH, andb_true_r. unfold cell_byte. destruct (_ || _) eqn:E; [reflexivity|].
  destruct (Ascii.eqb c bar); [reflexivity|]. cbn. unfold text_char. by rewrite orb_comm, E.
Qed.
Lemma TrimLeft_closed s : closed " " s = true → closed " " (TrimLeft is_space s) = true.
Proof.
  induction s as [|c s IH]; [done|]. cbn [TrimLeft]. destruct (is_space c) eqn:Ec; [|done]. cbn [closed]. intros [_ Hs]%andb_true_iff. apply IH.
  rewrite (closed_prev " " c); [done..|]. destruct (Ascii.eqb_spec c backslash) as [->|]; [discriminate Ec|done].
Qed.
Lemma TrimRight_closed cut s : ∀ p, closed p s = true → closed p (Names.TrimRight cut s) = true.
Proof.
  induction s as [|c s IH]; [done|]. intros p. cbn [closed Names.TrimRight]. intros [Hc Hs]%andb_true_iff. specialize (IH _ Hs).
  destruct (Names.TrimRight cut s); [destruct (cut c); [done|]|]; cbn [closed] in *; by rewrite Hc.
Qed.

Lemma mdCell_cell s : cell (mdCell s).
Proof.
  split_and!; [apply TrimRight_closed, TrimLeft_closed, replaced_closed|apply TrimRight_bytes, TrimLeft_bytes, replaced_line|apply TrimSpace_trimmed].
Qed.
Lemma const_cell s : closed " " s && all_bytes text_char s && trimmed s = true → cell s.
Proof. rewrite !andb_true_iff. by intros [[? ?] ?]. Qed.

(** ** A line *)

Lemma parts_closed a rest : ∀ p, closed p a = true → parts_after p (a +:+ " |" +:+ rest) = (a +:+ " ") :: parts_after bar rest.
Proof.
  induction a as [|c a IH]; intros p.
  - intros _. rewrite str_app_nil, !str_app_cons, str_app_nil. reflexivity.
  - cbn [closed]. intros [Hc Ha]%andb_true_iff. rewrite !(str_app_cons c). cbn [parts_after]. rewrite (IH c Ha).
    destruct (Ascii.eqb c bar); cbn [negb orb andb] in *; [by rewrite Hc|done].
Qed.

Definition padded (c : string) : string := " " +:+ c +:+ " ".
Lemma padded_closed c rest : closed " " c = true → parts_after bar (" " +:+ c +:+ " |" +:+ rest) = padded c :: parts_after bar rest.
Proof.
  intros Hc. unfold padded. rewrite (str_app_cons " " "" (c +:+ _)), (str_app_cons " " "" (c +:+ " ")), !str_app_nil. cbn [parts_after]. by rewrite parts_closed.
Qed.

Lemma joined_parts cells : Forall cell cells → cells ≠ [] →
  parts_after bar (" " +:+ str_join " | " cells +:+ " |" +:+ endline) = (padded <$> cells) ++ [endline].
Proof.
  intros Hc Hne. induction Hc as [|c cells (Hc & _) Hcs IH]; [done|]. destruct cells as [|d cells].
  - cbn [str_join]. by rewrite padded_closed.
  - change (str_join " | " (c :: d :: cells)) with (c +:+ " | " +:+ str_join " | " (d :: cells)). rewrite !str_app_assoc.
    change (" | " +:+ ?x) with (" |" +:+ (" " +:+ x)). rewrite padded_closed by done. rewrite IH by done. done.
Qed.

Lemma TrimRight_blank s : Names.TrimRight is_space (s +:+ " ") = Names.TrimRight is_space s.
Proof. induction s as [|c s IH]; [done|]. rewrite str_app_cons. cbn [Names.TrimRight]. by rewrite IH. Qed.
Lemma TrimSpace_padded c : trimmed c = true → TrimSpace (padded c) = c.
Proof.
  intros [Hh Hr]%trimmed_iff. unfold TrimSpace, padded. rewrite (str_app_cons " "), str_app_nil. cbn [TrimLeft]. change (is_space " ") with true. cbn match.
  destruct c as [|d c]; [done|]. rewrite str_app_cons, TrimLeft_head, <- str_app_cons by done. by rewrite TrimRight_blank.
Qed.

Lemma read_row_line cells : Forall cell cells → cells ≠ [] → read_row (row_line cells) = "" :: cells ++ [""].
Proof.
  intros Hc Hne. unfold read_row, row_line. change ("| " +:+ ?x) with ("|" +:+ (" " +:+ x)). rewrite (str_app_cons "|"), str_app_nil. cbn [parts_after].
  rewrite joined_parts by done. change (("|" =? bar)%char && negb (" " =? backslash)%char) with true. cbn match. rewrite fmap_cons, fmap_app. f_equal. f_equal. rewrite <- list_fmap_compose. clear Hne.
  induction Hc as [|c cells (_ & _ & Ht) Hcs IH]; [done|]. cbn [fmap list_fmap compose]. rewrite IH. f_equal. by apply TrimSpace_padded.
Qed.

(** One line, and no more. *)
Lemma join_text cells : Forall cell cells → all_bytes text_char (str_join " | " cells) = true.
Proof.
  intros Hc. induction Hc as [|c cells (_ & Hc & _) Hcs IH]; [done|]. destruct cells as [|d cells]; [done|].
  change (str_join " | " (c :: d :: cells)) with (c +:+ " | " +:+ str_join " | " (d :: cells)). by rewrite !all_bytes_app, Hc, IH.
Qed.

(** ** The table *)

Section Table.
Context `{URIs, ShortestDecimals}.

Definition row_fits (runs : list Run) (row : CompareRow) : Prop := length (cw_Cells row) = length runs.
Lemma fact_fits runs label value : Forall (row_fits runs) (fact runs label value).
Proof. unfold fact. destruct (existsb _ _); [|done]. apply Forall_singleton. unfold row_fits. cbn. by rewrite length_fmap. Qed.
Lemma facts_fit runs : Forall (row_fits runs) (facts runs).
Proof. unfold facts. repeat (apply Forall_app; split); apply fact_fits. Qed.
Lemma metric_row_fits runs k : row_fits runs (metric_row runs k).
Proof. unfold row_fits, metric_row. cbn. by rewrite length_imap. Qed.
Lemma param_row_fits runs k : row_fits runs (param_row runs k).
Proof. unfold row_fits, param_row. cbn. by rewrite length_fmap. Qed.

(** The cells of a line of a table of [n] runs. *)
Definition line_fits (n : nat) (cells : list string) : Prop := length cells = S n ∧ Forall cell cells.
Lemma section_fits runs title rows : cell ("**" +:+ title +:+ "**") → Forall (row_fits runs) rows → Forall (line_fits (length runs)) (section (length runs) title rows).
Proof.
  intros Ht Hrows. unfold section. destruct rows as [|row rows]; [done|]. apply Forall_cons. split.
  - split; [cbn; by rewrite length_replicate|]. constructor; [done|]. apply Forall_replicate, const_cell. reflexivity.
  - apply Forall_fmap. eapply Forall_impl; [exact Hrows|]. intros r Hr. split; [cbn; by rewrite length_fmap, Hr|]. constructor; [apply mdCell_cell|].
    apply Forall_fmap, Forall_true. intros c. apply mdCell_cell.
Qed.

Lemma table_fits missing runs : Forall (line_fits (length runs)) (table (fillComparison missing runs)).
Proof.
  unfold table. cbn [cn_Runs cn_Facts cn_Metrics cn_Params fillComparison]. rewrite length_fmap. repeat (apply Forall_app; split).
  - repeat apply Forall_cons_2; [split|split|constructor].
    + cbn. by rewrite !length_fmap.
    + constructor; [by apply const_cell|]. apply Forall_fmap, Forall_true. intros run. apply mdCell_cell.
    + by rewrite length_replicate.
    + by apply Forall_replicate, const_cell.
  - apply section_fits; [by apply const_cell|apply facts_fit].
  - apply section_fits; [by apply const_cell|]. apply Forall_fmap, Forall_true. intros k. apply metric_row_fits.
  - apply section_fits; [by apply const_cell|]. apply Forall_fmap, Forall_true. intros k. apply param_row_fits.
Qed.

(** C17: Whatever runs are compared — whatever bars, line breaks and backslashes their names,
    metrics and parameters hold — the comparison's Markdown is one table: every line is one
    line of text, and read back it has its cells and no others, one for the label and one
    for each run. *)
Theorem comparison_is_a_table missing runs :
  Forall (fun cells => length cells = S (length runs) ∧ read_row (row_line cells) = "" :: cells ++ [""] ∧
            ∃ text, row_line cells = text +:+ endline ∧ all_bytes text_char text = true)
    (table (fillComparison missing runs)).
Proof.
  eapply Forall_impl; [apply table_fits|]. intros cells [Hn Hc]. split; [done|]. split; [apply read_row_line; [done|by destruct cells]|].
  exists ("| " +:+ str_join " | " cells +:+ " |"). unfold row_line. rewrite !str_app_assoc. split; [done|]. by rewrite !all_bytes_app, join_text.
Qed.
End Table.

End ComparisonSpec.
