(* ===== verification/Access.v ===== *)
(** * internal/controlcenter: configuration, roles and clusters

    config/config.go, auth/auth.go and clusters/clusters.go: the configuration with its
    defaults and checks, the role of the signed-in user, and the registry of the
    clusters' clients.  Credentials, files and the YAML of the configuration are the
    environment's. *)
From S2P Require Import Prelude GoLib Names Keys Effects Urls ApiServer Client.

Module Access.
Import Names Keys Urls Client.

(** ** config.go *)

Definition EnvDevelopment : string := "development".
Definition EnvProduction : string := "production".
Definition AuthGCP : string := "gcp".
Definition AuthServiceAccount : string := "serviceaccount".
Definition AuthKubeconfig : string := "kubeconfig".

Record RBAC := mkRBAC { rb_Admins : list string; rb_Developers : list string }.
Record ClusterAuth := mkClusterAuth { cu_Type : string; cu_Kubeconfig : string; cu_Context : string }.
Record APIServerRef := mkAPIServer { as_Namespace : string; as_Service : string; as_Port : Z; as_TokenFile : string }.
Record ClusterConfig := mkClusterConfig {
  cf_Name : string; cf_DisplayName : string; cf_Auth : ClusterAuth; cf_Server : string; cf_CAFile : string; cf_APIServer : APIServerRef }.
Record Config := mkConfig { co_Environment : string; co_RBAC : RBAC; co_Clusters : list ClusterConfig }.

Definition DefaultAPIServerNamespace : string := "kubetest-alt".
Definition DefaultAPIServerService : string := "kubetest-alt-apiserver".
Definition DefaultAPIServerPort : Z := 8080.

Definition DisplayNameOrName (c : ClusterConfig) : string := if negb (cf_DisplayName c =? "")%string then cf_DisplayName c else cf_Name c.

Definition normalize_email (e : string) : string := ToLower (TrimSpace e).
Definition normalizeEmails (in_ : list string) : list string := List.filter (fun e => negb (e =? "")%string) (normalize_email <$> in_).

Definition or_default (s default_ : string) : string := if (s =? "")%string then default_ else s.
Definition default_ref (a : APIServerRef) : APIServerRef :=
  mkAPIServer (or_default (as_Namespace a) DefaultAPIServerNamespace) (or_default (as_Service a) DefaultAPIServerService)
    (if (as_Port a =? 0)%Z then DefaultAPIServerPort else as_Port a) (as_TokenFile a).
Definition default_cluster (c : ClusterConfig) : ClusterConfig :=
  mkClusterConfig (cf_Name c) (cf_DisplayName c) (cf_Auth c) (cf_Server c) (cf_CAFile c) (default_ref (cf_APIServer c)).
Definition setDefaults (c : Config) : Config :=
  mkConfig (or_default (co_Environment c) EnvProduction) (mkRBAC (normalizeEmails (rb_Admins (co_RBAC c))) (normalizeEmails (rb_Developers (co_RBAC c))))
    (default_cluster <$> co_Clusters c).

(** [clusterNameRE]: 1 to 63 of a-z, 0-9 and -, not - at either end. *)
Definition cluster_name_ok (s : string) : bool :=
  (1 <=? String.length s)%nat && (String.length s <=? 63)%nat && all_bytes label_char s &&
  match chars s, last_char s with c :: _, Some d => alnum c && alnum d | _, _ => false end.

(** The problems of one cluster; [seen]: the names of those before it. *)
Definition cluster_problems (environment : string) (seen : list string) (i : nat) (cl : ClusterConfig) : list string :=
  let at_ := "clusters[" +:+ itoa (Z.of_nat i) +:+ "] (" +:+ cf_Name cl +:+ ")" in
  let a := cf_Auth cl in
  let problem (b : bool) (text : string) := if b then [at_ +:+ ": " +:+ text] else [] in
  problem (negb (cluster_name_ok (cf_Name cl))) "name must be a DNS label" ++
  problem (bool_decide (cf_Name cl ∈ seen)) "duplicate name" ++
  (if (cu_Type a =? AuthGCP)%string then problem ((cf_Server cl =? "")%string || (cf_CAFile cl =? "")%string) "auth gcp needs server and caFile"
   else if (cu_Type a =? AuthServiceAccount)%string then []
   else if (cu_Type a =? AuthKubeconfig)%string then problem (environment =? EnvProduction)%string "auth kubeconfig is for development only"
   else problem true ("auth.type " +:+ quote (cu_Type a) +:+ ": must be gcp, serviceaccount or kubeconfig")) ++
  problem (negb (cu_Type a =? AuthKubeconfig)%string && (negb (cu_Kubeconfig a =? "")%string || negb (cu_Context a =? "")%string))
    "auth.kubeconfig/context only apply to auth kubeconfig" ++
  problem (negb (cf_Server cl =? "")%string && negb (HasPrefix (cf_Server cl) "https://")) "server must be https://" ++
  problem ((as_Port (cf_APIServer cl) <? 1)%Z || (65535 <? as_Port (cf_APIServer cl))%Z)
    ("apiServer.port " +:+ itoa (as_Port (cf_APIServer cl)) +:+ " out of range").

Fixpoint clusters_problems (environment : string) (seen : list string) (i : nat) (cls : list ClusterConfig) : list string :=
  match cls with
  | [] => []
  | cl :: cls => cluster_problems environment seen i cl ++ clusters_problems environment (cf_Name cl :: seen) (S i) cls
  end.

(** Every problem; errors.Join of none is no error. *)
Definition Validate (c : Config) : list string :=
  (if negb (co_Environment c =? EnvDevelopment)%string && negb (co_Environment c =? EnvProduction)%string
   then ["environment " +:+ quote (co_Environment c) +:+ ": must be development or production"] else []) ++
  (if (length (co_Clusters c) =? 0)%nat then ["clusters: at least one cluster is required"] else []) ++
  clusters_problems (co_Environment c) [] 0 (co_Clusters c).

(** sigs.k8s.io/yaml, strict. *)
Class Yaml := UnmarshalStrict : string → result string Config.

Definition Parse `{Yaml} (b : string) : result string Config :=
  match UnmarshalStrict b with
  | Err e => Err ("config: " +:+ e)
  | Ok c =>
      let c := setDefaults c in
      match Validate c with [] => Ok c | problems => Err (str_join (String newline "") problems) end
  end.

(** ** auth.go *)

Inductive Role := RoleViewer | RoleDeveloper | RoleAdmin.
#[export] Instance Role_eq_dec : EqDecision Role.
Proof. solve_decision. Defined.

Definition role_level (r : Role) : nat := match r with RoleViewer => 0 | RoleDeveloper => 1 | RoleAdmin => 2 end.
Definition Role_String (r : Role) : string := match r with RoleAdmin => "admin" | RoleDeveloper => "developer" | RoleViewer => "viewer" end.

Record User := mkUser { us_Email : string; us_Role : Role }.
Definition Can (u : User) (min : Role) : bool := (role_level min <=? role_level (us_Role u))%nat.

Definition HeaderEmail : string := "X-Auth-Request-Email".
Record Resolver := mkResolver { rv_admins : list string; rv_developers : list string; rv_devUser : string; rv_EmailHeader : string }.

Definition NewResolver (cfg : Config) (devUser : string) : result string Resolver :=
  let devUser := normalize_email devUser in
  if negb (devUser =? "")%string && (co_Environment cfg =? EnvProduction)%string then Err "auth: a development user override is refused in production"
  else Ok (mkResolver (rb_Admins (co_RBAC cfg)) (rb_Developers (co_RBAC cfg)) devUser "").

Definition Resolve (r : Resolver) (email : string) : User :=
  let email := normalize_email email in
  if (email =? "")%string then mkUser "" RoleViewer
  else if bool_decide (email ∈ rv_admins r) then mkUser email RoleAdmin
  else if bool_decide (email ∈ rv_developers r) then mkUser email RoleDeveloper
  else mkUser email RoleViewer.

(** The user of a request, from its headers. *)
Definition user_of (r : Resolver) (header : string → string) : User :=
  let email := header (or_default (rv_EmailHeader r) HeaderEmail) in
  Resolve r (if (email =? "")%string then rv_devUser r else email).

(** ** clusters.go *)

Record RestConfig := mkRest { rs_Host : string; rs_CAFile : string; rs_Insecure : bool }.

(** Where credentials come from, the transport they give, and files. *)
Class Credentials := {
  gcp_token_source : result string unit;
  InClusterConfig : result string RestConfig;
  kubeconfig : string → string → result string RestConfig;
  http_client_error : RestConfig → option string;
  ReadFile : string → result string string }.

Record Cluster := mkCluster { cl_Config : ClusterConfig; cl_API : Client }.

Section Registry.
Context `{Credentials, ParseURL}.

Definition auth_config (c : ClusterConfig) : result string RestConfig :=
  if (cu_Type (cf_Auth c) =? AuthGCP)%string then
    match gcp_token_source with Err e => Err ("google credentials: " +:+ e) | Ok _ => Ok (mkRest (cf_Server c) (cf_CAFile c) false) end
  else if (cu_Type (cf_Auth c) =? AuthServiceAccount)%string then
    match InClusterConfig with Err e => Err ("in-cluster config: " +:+ e) | Ok rc => Ok rc end
  else if (cu_Type (cf_Auth c) =? AuthKubeconfig)%string then
    match kubeconfig (cu_Kubeconfig (cf_Auth c)) (cu_Context (cf_Auth c)) with Err e => Err ("kubeconfig: " +:+ e) | Ok rc => Ok rc end
  else Err ("unknown auth type " +:+ quote (cu_Type (cf_Auth c))).

Definition restConfig (c : ClusterConfig) : result string RestConfig :=
  rc ← auth_config c;
  let rc := mkRest (or_default (cf_Server c) (rs_Host rc)) (or_default (cf_CAFile c) (rs_CAFile rc)) (rs_Insecure rc) in
  if rs_Insecure rc then Err "TLS verification is disabled in the cluster credentials; refusing" else Ok rc.

Definition cluster_client (c : ClusterConfig) : result string Cluster :=
  rc ← restConfig c;
  match http_client_error rc with
  | Some e => Err ("http client: " +:+ e)
  | None =>
      let a := cf_APIServer c in
      api ← New (ServiceProxyURL (rs_Host rc) (as_Namespace a) (as_Service a) (as_Port a));
      if negb (as_TokenFile a =? "")%string then
        match ReadFile (as_TokenFile a) with
        | Err e => Err ("API token: " +:+ e)
        | Ok b => Ok (mkCluster c (WithToken api (TrimSpace b)))
        end
      else Ok (mkCluster c api)
  end.

(** [New]: the clients in the order of the configuration. *)
Fixpoint new_registry (cls : list ClusterConfig) : result string (list Cluster) :=
  match cls with
  | [] => Ok []
  | c :: cls =>
      match cluster_client c with
      | Err e => Err ("cluster " +:+ cf_Name c +:+ ": " +:+ e)
      | Ok cl => rest ← new_registry cls; Ok (cl :: rest)
      end
  end.
End Registry.

(** [byName]: of clusters with the same name the last. *)
Definition Get (clusters : list Cluster) (name : string) : option Cluster :=
  last (List.filter (fun c => (cf_Name (cl_Config c) =? name)%string) clusters).

(** ** What the checks give *)

Lemma can_developer_of_admin u : Can u RoleAdmin = true → Can u RoleDeveloper = true.
Proof. unfold Can. by destruct (us_Role u). Qed.
Lemma can_viewer u : Can u RoleViewer = true.
Proof. unfold Can. by destruct (us_Role u). Qed.

(** A role above viewer is only of an email the configuration lists, as it was signed in with. *)
Lemma Resolve_role r email : us_Role (Resolve r email) ≠ RoleViewer →
  us_Email (Resolve r email) = normalize_email email ∧ normalize_email email ≠ "" ∧ (normalize_email email ∈ rv_admins r ∨ normalize_email email ∈ rv_developers r).
Proof. unfold Resolve. destruct (String.eqb_spec (normalize_email email) ""); [done|]. case_bool_decide; [auto|]. case_bool_decide; [auto|done]. Qed.

End Access.
