(* ===== verification/Editor.v ===== *)
(** * internal/controlcenter/api/editor.go: the Test a form describes

    The editor's form of a Test, what the form is for an existing one, and the Test a
    form describes: the one being edited with the fields the form owns replaced.  Then
    the YAML mode: the manifest of a Test, and the merge patch of an edit.  The checks
    of names and quantities, the parts of an EnvVarSource, the YAML of a manifest and
    the JSON of a spec belong to libraries, and are classes here.  A Test's apiVersion
    and kind are constants and are left out. *)
From S2P Require Import Prelude Api GoLib Names Keys Paths Durations Scheduler Triggers ApiServer Expr Resolver Natural Views.

Module Editor.
Import Names Keys Paths Durations Expr Resolver Natural Views.

Definition ModeForm : string := "form".
Definition ModeYAML : string := "yaml".

(** One inline file, and one row of the test data. *)
Record FileField := mkFileField { ff_Path : string; ff_Content : string }.
Record TestDataField := mkDataField { tf_Kind : string; tf_Name : string; tf_Where : string; tf_MountPath : string; tf_Items : string }.

Record TestForm := mkForm {
  fm_Namespace : string; fm_Name : string; fm_Template : string; fm_Tool : string; fm_Image : string; fm_Command : string; fm_Args : string;
  fm_Source : string; fm_UseGit : bool; fm_GitURI : string; fm_GitRevision : string; fm_GitPath : string; fm_GitPaths : string; fm_GitSecret : string;
  fm_GitSecretKey : string; fm_UseFiles : bool; fm_Files : list FileField; fm_TestData : list TestDataField; fm_Params : strmap; fm_Env : string;
  fm_CPURequest : string; fm_MemoryRequest : string; fm_CPULimit : string; fm_MemoryLimit : string; fm_ServiceAccount : string;
  fm_PodAnnotations : string; fm_PodLabels : string; fm_Timeout : string; fm_Schedule : string; fm_Mode : string; fm_YAML : string;
  fm_ResourceVersion : string; fm_Generation : Z }.

Definition SourceGit : string := "git".
Definition SourceInline : string := "inline".
Definition KindConfigMap : string := "configMap".
Definition KindSecret : string := "secret".
Definition WhereDir : string := "dir".
Definition WhereFiles : string := "files".

(** ** Text *)

(** strings.ReplaceAll of CR LF *)
Fixpoint unix_newlines (s : string) : string :=
  match s with
  | EmptyString => ""
  | String c rest => if Ascii.eqb c (ascii_of_nat 13) && HasPrefix rest (String newline "") then unix_newlines rest else String c (unix_newlines rest)
  end.

(** A textarea's lines: not empty, without the spaces around them. *)
Definition lines (s : string) : list string := List.filter (fun l => negb (l =? "")%string) (TrimSpace <$> Split newline s).
Definition join_lines (ls : list string) : string := str_join (String newline "") ls.

(** The key and the value of a line. *)
Definition kv_of (l : string) : option (string * string) :=
  match Cut l "=" with
  | Some (k, v) => if (TrimSpace k =? "")%string then None else Some (TrimSpace k, TrimSpace v)
  | None => None
  end.
Definition kv_step (field : string) (out : result string strmap) (l : string) : result string strmap :=
  out ← out;
  match kv_of l with
  | Some (k, v) => Ok (<[k := v]> out)
  | None => Err (field +:+ ": " +:+ quote l +:+ " is not key=value")
  end.
Definition kvLines (field s : string) : result string strmap := foldl (kv_step field) (Ok ∅) (lines s).
Definition kvText (m : strmap) : string := join_lines ((fun k => k +:+ "=" +:+ value_of m k) <$> sorted_keys m).

(** ** Normalize *)

Definition normalize_file (file : FileField) : FileField := mkFileField (TrimSpace (ff_Path file)) (unix_newlines (ff_Content file)).
Definition normalize_data (td : TestDataField) : TestDataField :=
  mkDataField (TrimSpace (tf_Kind td)) (TrimSpace (tf_Name td)) (TrimSpace (tf_Where td)) (TrimSpace (tf_MountPath td)) (TrimSpace (tf_Items td)).

Definition Normalize (f : TestForm) : TestForm :=
  mkForm (TrimSpace (fm_Namespace f)) (TrimSpace (fm_Name f)) (fm_Template f) (TrimSpace (fm_Tool f)) (TrimSpace (fm_Image f)) (fm_Command f) (fm_Args f)
    (fm_Source f) (fm_Source f =? SourceGit)%string (TrimSpace (fm_GitURI f)) (TrimSpace (fm_GitRevision f)) (Trim slash (TrimSpace (fm_GitPath f)))
    (fm_GitPaths f) (TrimSpace (fm_GitSecret f)) (TrimSpace (fm_GitSecretKey f)) (fm_Source f =? SourceInline)%string
    (List.filter (fun file => negb (ff_Path file =? "")%string || negb (TrimSpace (ff_Content file) =? "")%string) (normalize_file <$> fm_Files f))
    (List.filter (fun td => negb (tf_Name td =? "")%string) (normalize_data <$> fm_TestData f)) (TrimSpace <$> fm_Params f) (fm_Env f)
    (TrimSpace (fm_CPURequest f)) (TrimSpace (fm_MemoryRequest f)) (TrimSpace (fm_CPULimit f)) (TrimSpace (fm_MemoryLimit f))
    (TrimSpace (fm_ServiceAccount f)) (fm_PodAnnotations f) (fm_PodLabels f) (TrimSpace (fm_Timeout f)) (str_join " " (fields (fm_Schedule f)))
    (if (fm_Mode f =? ModeYAML)%string then ModeYAML else ModeForm) (fm_YAML f) (fm_ResourceVersion f) (fm_Generation f).

(** ** The form of a Test *)

Definition FormUnsupported (t : Test) : string :=
  let s := t_Spec t in
  if (0 <? length (ts_Steps s))%nat then "A composite Test (spec.steps) is edited as YAML."
  else if (1 <? length (ts_Use s))%nat then "This Test uses more than one template; it is edited as YAML."
  else if (0 <? length (ct_Tarball (ts_Content s)))%nat then "This Test's code is a tarball; it is edited as YAML."
  else "".

(** The path without the slashes at its ends. *)
Definition inner (p : string) : string := Trim slash (Clean p).

Definition sparseFor (p : string) : list string :=
  let p := inner (TrimSpace p) in
  if (p =? "")%string || (p =? ".")%string then []
  else if negb (Ext (ApiServer.Base p) =? "")%string then (if (Dir p =? ".")%string then [] else [Dir p])
  else [p].

(** The Secret and the key of an EnvVarSource, and the source of these. *)
Class EnvVarSources := { secret_key_ref : k8s_value → option (string * string); secret_source : string → string → k8s_value }.

Definition ResourceCPU : string := "cpu".
Definition ResourceMemory : string := "memory".

Definition FirstOf (s : list string) : string := default "" (head s).

(** A row of the test data. *)
Definition data_row (d : TestDataSource) : TestDataField :=
  mkDataField (if negb (td_Secret d =? "")%string then KindSecret else KindConfigMap) (if negb (td_Secret d =? "")%string then td_Secret d else td_ConfigMap d)
    (if (0 <? length (td_Items d))%nat then WhereFiles else if negb (td_MountPath d =? "")%string then WhereDir else "") (td_MountPath d)
    (join_lines ((fun it => tdi_Key it +:+ "=" +:+ tdi_Path it) <$> td_Items d)).

(** The path in the repository: the main parameter's own value, or the first path of the checkout. *)
Definition git_path (s : TestSpec) (tmpl : option TestTemplate) (g : GitContent) : string :=
  let main := match tmpl with Some tmpl => (Resolver.MainPathParam (tms_Config (tm_Spec tmpl))).1 | None => "" end in
  match (if (main =? "")%string then None else ts_Config s !! main) with
  | Some own => pm_Default own
  | None => FirstOf (git_Paths g)
  end.

(** A template parameter's value: the Test's own, or the default. *)
Definition own_values (s : TestSpec) (config : gmap string ConfigParameter) : strmap :=
  map_imap (fun name p => Some (match ts_Config s !! name with Some own => pm_Default own | None => pm_Default p end)) config.
(** The main path that is the path in the repository is left to follow it. *)
Definition form_params (s : TestSpec) (tmpl : option TestTemplate) (gitPath : option string) : strmap :=
  match tmpl with
  | None => ∅
  | Some tmpl =>
      let main := (Resolver.MainPathParam (tms_Config (tm_Spec tmpl))).1 in
      let params := own_values s (tms_Config (tm_Spec tmpl)) in
      match gitPath with
      | Some p => if negb (main =? "")%string && (value_of params main =? p)%string then <[main := ""]> params else params
      | None => params
      end
  end.

(** The files the form shows. *)
Definition file_fields (files : list FileContent) : list FileField :=
  omap (fun file => match fc_ContentFrom file with None => Some (mkFileField (Resolver.InlineFilePath (fc_Path file)) (fc_Content file)) | Some _ => None end) files.

Definition FormFromTest `{EnvVarSources} (t : Test) (version : string) (generation : Z) (tmpl : option TestTemplate) : TestForm :=
  let s := t_Spec t in
  let c := ts_Container s in
  let git := ct_Git (ts_Content s) in
  let gitPath := git_path s tmpl <$> git in
  let files := file_fields (ct_Files (ts_Content s)) in
  let useFiles := (0 <? length files)%nat in
  let secret := g ← git; v ← git_TokenFrom g; secret_key_ref v in
  let of_git {A} (d : A) (f : GitContent → A) := match git with Some g => f g | None => d end in
  let of_pod {A} (d : A) (f : PodConfig → A) := match ts_Pod s with Some p => f p | None => d end in
  mkForm (om_Namespace (t_Meta t)) (om_Name (t_Meta t)) (FirstOf (ts_Use s)) (value_of (om_Labels (t_Meta t)) Views.LabelTool) (cc_Image c)
    (join_lines (cc_Command c)) (join_lines (cc_Args c)) (if bool_decide (is_Some git) then SourceGit else if useFiles then SourceInline else "")
    (bool_decide (is_Some git)) (of_git "" git_URI) (of_git "" git_Revision) (default "" gitPath)
    (of_git "" (fun g => if bool_decide (git_Paths g = sparseFor (default "" gitPath)) then "" else join_lines (git_Paths g)))
    (match secret with Some (n, _) => n | None => "" end) (match secret with Some (_, k) => k | None => "" end) useFiles files
    (data_row <$> ct_TestData (ts_Content s)) (form_params s tmpl gitPath)
    (join_lines (omap (fun e => match ev_ValueFrom e with None => Some (ev_Name e +:+ "=" +:+ ev_Value e) | Some _ => None end) (cc_Env c)))
    (value_of (cc_Requests c) ResourceCPU) (value_of (cc_Requests c) ResourceMemory) (value_of (cc_Limits c) ResourceCPU) (value_of (cc_Limits c) ResourceMemory)
    (of_pod "" pc_ServiceAccountName) (of_pod "" (fun p => kvText (pc_Annotations p))) (of_pod "" (fun p => kvText (pc_Labels p)))
    (match ts_Timeout s with Some d => Duration_String d | None => "" end) (ts_Schedule s) ModeForm "" version generation.

(** ** The Test a form describes *)

(** What is asked of libraries: the names Kubernetes takes, and resource.ParseQuantity with its String. *)
Class EditorChecks := { IsDNS1123Subdomain : string → list string; IsDNS1123Label : string → list string; ParseQuantity : string → option string }.

(** The problems of one build are collected on the way. *)
Record builder := mkBuilder { b_form : TestForm; b_t : Test; b_errs : list string; b_warns : list string }.

Definition fail (msg : string) (b : builder) : builder := mkBuilder (b_form b) (b_t b) (b_errs b ++ [msg]) (b_warns b).
Definition warn (msg : string) (b : builder) : builder := mkBuilder (b_form b) (b_t b) (b_errs b) (b_warns b ++ [msg]).
Definition fail_if (c : bool) (msg : string) (b : builder) : builder := if c then fail msg b else b.
Definition check (err : option string) (b : builder) : builder := match err with Some e => fail e b | None => b end.
(** The Test, or its spec, changed. *)
Definition on_test (f : Test → Test) (b : builder) : builder := mkBuilder (b_form b) (f (b_t b)) (b_errs b) (b_warns b).
Definition with_spec (f : TestSpec → TestSpec) (t : Test) : Test := mkTest (t_Meta t) (f (t_Spec t)) (t_LatestRun t).
Definition on_spec (f : TestSpec → TestSpec) : builder → builder := on_test (with_spec f).

Definition with_names (name namespace : string) (m : ObjectMeta) : ObjectMeta :=
  mkMeta name namespace (om_UID m) (om_Labels m) (om_Annotations m) (om_CreationTimestamp m) (om_DeletionTimestamp m) (om_Finalizers m) (om_OwnerReferences m).
Definition with_marks (labels annotations : strmap) (m : ObjectMeta) : ObjectMeta :=
  mkMeta (om_Name m) (om_Namespace m) (om_UID m) labels annotations (om_CreationTimestamp m) (om_DeletionTimestamp m) (om_Finalizers m) (om_OwnerReferences m).
Definition with_meta (f : ObjectMeta → ObjectMeta) (t : Test) : Test := mkTest (f (t_Meta t)) (t_Spec t) (t_LatestRun t).

Definition with_Use (use : list string) (s : TestSpec) : TestSpec :=
  mkTestSpec (ts_Content s) (ts_Container s) use (ts_Pod s) (ts_Config s) (ts_Artifacts s) (ts_Timeout s) (ts_Retry s) (ts_Schedule s) (ts_Services s)
    (ts_Parallel s) (ts_ConcurrencyPolicy s) (ts_Verdict s) (ts_Metrics s) (ts_LiveView s) (ts_Steps s).
Definition with_Container (c : ContainerConfig) (s : TestSpec) : TestSpec :=
  mkTestSpec (ts_Content s) c (ts_Use s) (ts_Pod s) (ts_Config s) (ts_Artifacts s) (ts_Timeout s) (ts_Retry s) (ts_Schedule s) (ts_Services s)
    (ts_Parallel s) (ts_ConcurrencyPolicy s) (ts_Verdict s) (ts_Metrics s) (ts_LiveView s) (ts_Steps s).
Definition with_Content (c : Content) (s : TestSpec) : TestSpec :=
  mkTestSpec c (ts_Container s) (ts_Use s) (ts_Pod s) (ts_Config s) (ts_Artifacts s) (ts_Timeout s) (ts_Retry s) (ts_Schedule s) (ts_Services s)
    (ts_Parallel s) (ts_ConcurrencyPolicy s) (ts_Verdict s) (ts_Metrics s) (ts_LiveView s) (ts_Steps s).
Definition with_Pod (p : option PodConfig) (s : TestSpec) : TestSpec :=
  mkTestSpec (ts_Content s) (ts_Container s) (ts_Use s) p (ts_Config s) (ts_Artifacts s) (ts_Timeout s) (ts_Retry s) (ts_Schedule s) (ts_Services s)
    (ts_Parallel s) (ts_ConcurrencyPolicy s) (ts_Verdict s) (ts_Metrics s) (ts_LiveView s) (ts_Steps s).
Definition with_Timing (timeout : option duration) (schedule : string) (s : TestSpec) : TestSpec :=
  mkTestSpec (ts_Content s) (ts_Container s) (ts_Use s) (ts_Pod s) (ts_Config s) (ts_Artifacts s) timeout (ts_Retry s) schedule (ts_Services s)
    (ts_Parallel s) (ts_ConcurrencyPolicy s) (ts_Verdict s) (ts_Metrics s) (ts_LiveView s) (ts_Steps s).

(** An empty label goes. *)
Definition setLabel (key value : string) (labels : strmap) : strmap := if (value =? "")%string then delete key labels else <[key := value]> labels.
Definition set_label (key value : string) (m : ObjectMeta) : ObjectMeta := with_marks (setLabel key value (om_Labels m)) (om_Annotations m) m.

(** spec.use and the tool. *)
Definition template (tmpl : option TestTemplate) (b : builder) : builder :=
  let f := b_form b in
  let tool := match tmpl with
              | Some tmpl => let own := value_of (om_Labels (tm_Meta tmpl)) Views.LabelTool in if negb (own =? "")%string then own else fm_Tool f
              | None => fm_Tool f
              end in
  on_test (with_meta (set_label Views.LabelTool tool))
    (on_spec (with_Use (if negb (fm_Template f =? "")%string then [fm_Template f] else []))
      (fail_if (negb (fm_Template f =? "")%string && bool_decide (tmpl = None))
        ("Template " +:+ quote (fm_Template f) +:+ " does not exist in namespace " +:+ fm_Namespace f +:+ ".") b)).

Section Build.
Context `{EnvVarSources, EditorChecks, FloatSyntax, Regexp, Scheduler.Cron, CronErrors}.

(** One resource: set, removed when empty; the others stay. *)
Definition setQuantity (l : strmap) (name field value : string) : strmap * option string :=
  if (value =? "")%string then (delete name l, None)
  else match ParseQuantity value with
       | None => (l, Some (field +:+ ": " +:+ quote value +:+ " is not a quantity like 500m, 2 or 1Gi"))
       | Some q => (<[name := q]> l, None)
       end.

Definition or_empty {A} (r : result string (gmap string A)) : gmap string A := match r with Ok m => m | Err _ => ∅ end.
Definition error_of {E A} (r : result E A) : option E := match r with Ok _ => None | Err e => Some e end.

(** The environment: the form's, sorted, then what is not in the form. *)
Definition env_of (env : strmap) (was : list EnvVar) : list EnvVar :=
  ((fun name => mkEnvVar name (value_of env name) None) <$> sorted_keys env) ++ List.filter (fun e => bool_decide (is_Some (ev_ValueFrom e))) was.

Definition container (b : builder) : builder :=
  let f := b_form b in
  let c := ts_Container (t_Spec (b_t b)) in
  let command := lines (fm_Command f) in
  let args := lines (fm_Args f) in
  let env := kvLines "Environment" (fm_Env f) in
  let '(requests, e1) := setQuantity (cc_Requests c) ResourceCPU "CPU request" (fm_CPURequest f) in
  let '(requests, e2) := setQuantity requests ResourceMemory "Memory request" (fm_MemoryRequest f) in
  let '(limits, e3) := setQuantity (cc_Limits c) ResourceCPU "CPU limit" (fm_CPULimit f) in
  let '(limits, e4) := setQuantity limits ResourceMemory "Memory limit" (fm_MemoryLimit f) in
  let b := fail_if ((fm_Template f =? "")%string && (fm_Image f =? "")%string) "Image: required without a template." b in
  let b := fail_if ((fm_Template f =? "")%string && (length command =? 0)%nat && (length args =? 0)%nat)
             "Command or arguments: at least one is required without a template." b in
  let b := check e4 (check e3 (check e2 (check e1 (check (error_of env) b)))) in
  on_spec (with_Container (mkContainer (fm_Image f) (cc_ImagePullPolicy c) (cc_WorkingDir c) command args (env_of (or_empty env) (cc_Env c)) (cc_EnvFrom c)
    requests limits (cc_SecurityContext c) (cc_VolumeMounts c))) b.

(** ** Content *)

(** The checkout a form asks for, with what it does not show of the one before. *)
Definition git_of (f : TestForm) (was : option GitContent) : GitContent :=
  let paths := lines (fm_GitPaths f) in
  let kept {A} (get : GitContent → A) (d : A) := match was with Some g => get g | None => d end in
  mkGit (fm_GitURI f) (fm_GitRevision f) (if (length paths =? 0)%nat then sparseFor (fm_GitPath f) else paths) (kept git_MountPath "") (kept git_AuthType "")
    (kept git_UsernameFrom None)
    (if negb (fm_GitSecret f =? "")%string then Some (secret_source (fm_GitSecret f) (if (fm_GitSecretKey f =? "")%string then "token" else fm_GitSecretKey f)) else None)
    (kept git_SSHKeyFrom None).

Definition add_file (acc : list FileContent * builder) (file : FileField) : list FileContent * builder :=
  let '(files, b) := acc in
  let p := Trim slash (TrimSpace (ff_Path file)) in
  if (p =? "")%string then (files, fail "Files: every file needs a path." b) else (files ++ [mkFile p (ff_Content file) None None], b).

(** The items of a row: key=/path lines. *)
Definition item_of (l : string) : option TestDataItem :=
  match Cut l "=" with
  | Some (k, p) => if (TrimSpace k =? "")%string || negb (HasPrefix (TrimSpace p) "/") then None else Some (mkTestDataItem (TrimSpace k) (TrimSpace p))
  | None => None
  end.
Definition bad_items (row : TestDataField) : list string :=
  omap (fun l => match item_of l with None => Some ("Test data " +:+ tf_Name row +:+ ": " +:+ quote l +:+ " is not key=/absolute/path.") | Some _ => None end)
    (lines (tf_Items row)).
Definition data_source (row : TestDataField) : TestDataSource :=
  let secret := (tf_Kind row =? KindSecret)%string in
  mkTestData (if secret then "" else tf_Name row) (if secret then tf_Name row else "")
    (if (tf_Where row =? WhereDir)%string then tf_MountPath row else "")
    (if (tf_Where row =? WhereFiles)%string then omap item_of (lines (tf_Items row)) else []).
Definition data_errors (row : TestDataField) : list string :=
  if (tf_Where row =? WhereDir)%string then
    (if HasPrefix (tf_MountPath row) "/" then [] else ["Test data " +:+ tf_Name row +:+ ": the directory must be an absolute path, e.g. /data/repo/e2e/data."])
  else if (tf_Where row =? WhereFiles)%string then
    bad_items row ++
    (if (length (omap item_of (lines (tf_Items row))) =? 0)%nat then ["Test data " +:+ tf_Name row +:+ ": list the files, one key=/path per line."] else [])
  else [].

Definition testData (b : builder) : builder :=
  let rows := fm_TestData (b_form b) in
  let c := ts_Content (t_Spec (b_t b)) in
  foldl (fun b e => fail e b) (on_spec (with_Content (mkContent (ct_Git c) (ct_Files c) (ct_Tarball c) (data_source <$> rows))) b) (rows ≫= data_errors).

Definition pathRequired : string :=
  "Path in the repository: required — where the tests are, a file or a directory (e.g. perf/checkout.js, e2e/web; " +:+ quote "." +:+ " for the whole repository).".

Definition content (was : option GitContent) (b : builder) : builder :=
  let f := b_form b in
  let git := if fm_UseGit f then Some (git_of f was) else None in
  let b := fail_if (fm_UseGit f && (fm_GitPath f =? "")%string) pathRequired b in
  let b := fail_if (fm_UseGit f && (fm_GitURI f =? "")%string) "Git repository: required when the content comes from git." b in
  let '(files, b) := if fm_UseFiles f then foldl add_file ([], b) (fm_Files f) else ([], b) in
  let b := fail_if (fm_UseFiles f && (length files =? 0)%nat) "Inline files: add at least one file." b in
  testData (on_spec (fun s => with_Content (mkContent git files [] (ct_TestData (ts_Content s))) s) b).

(** ** Parameters *)

Definition mainPathValue (f : TestForm) (p : ConfigParameter) (v : string) : string :=
  if negb (v =? "")%string && negb (v =? pm_Default p)%string then v
  else if fm_UseGit f then Or v (fm_GitPath f)
  else v.

Definition in_checkout (v sp : string) : bool := let sp := inner sp in (sp =? ".")%string || (v =? sp)%string || HasPrefix v (sp +:+ "/").

Definition checkInCheckout (name v : string) (b : builder) : builder :=
  match ct_Git (ts_Content (t_Spec (b_t b))) with
  | Some g =>
      let v := inner v in
      if (length (git_Paths g) =? 0)%nat || existsb (in_checkout v) (git_Paths g) then b
      else warn (name +:+ " is " +:+ v +:+ ", which the sparse checkout (" +:+ str_join ", " (git_Paths g) +:+ ") leaves out — the tool won't find it.") b
  | None => b
  end.

(** One parameter of the template: kept where its value is not the default. *)
Definition set_param (name : string) (p : ConfigParameter) (v : string) (b : builder) : builder :=
  if (v =? "")%string || (v =? pm_Default p)%string then on_spec (fun s => with_Config (delete name (ts_Config s)) s) b
  else match CoerceParam name v p with
       | Err e => fail e b
       | Ok v => on_spec (fun s => with_Config (<[name := with_Default v p]> (ts_Config s)) s) b
       end.

Definition param_step (config : gmap string ConfigParameter) (main : string) (b : builder) (name : string) : builder :=
  let p := default (mkParameter "" "" [] "" "" "") (config !! name) in
  let v := value_of (fm_Params (b_form b)) name in
  if (name =? main)%string then
    let v := mainPathValue (b_form b) p v in
    if (v =? "")%string && negb (fm_UseFiles (b_form b)) then fail (name +:+ ": required — " +:+ Or (pm_Description p) "where the Test's files are." ) b
    else set_param name p v (checkInCheckout name v b)
  else set_param name p v b.

Definition params (tmpl : TestTemplate) (changed : bool) (b : builder) : builder :=
  let config := tms_Config (tm_Spec tmpl) in
  let b := if changed then on_spec (fun s => with_Config (filter (fun kv => is_Some (config !! kv.1)) (ts_Config s)) s) b else b in
  let '(main, kind) := MainPathParam config in
  let b := fail_if ((kind =? PathDirectory)%string && fm_UseFiles (b_form b))
             (om_Name (tm_Meta tmpl) +:+ " runs a project: its code comes from git (choose Git as the source) — inline files are for single-file tools.") b in
  foldl (param_step config main) b (sorted_keys config).

(** ** The pod, the timeout and the schedule *)

Definition zeroPod : PodConfig := mkPodConfig ∅ ∅ "" None None None None None None.

Definition pod (b : builder) : builder :=
  let f := b_form b in
  let was := default zeroPod (ts_Pod (t_Spec (b_t b))) in
  let annotations := kvLines "Pod annotations" (fm_PodAnnotations f) in
  let labels := kvLines "Pod labels" (fm_PodLabels f) in
  let p := mkPodConfig (or_empty labels) (or_empty annotations) (fm_ServiceAccount f) (pc_NodeSelector was) (pc_Tolerations was) (pc_Affinity was)
             (pc_SecurityContext was) (pc_Volumes was) (pc_ImagePullSecrets was) in
  on_spec (with_Pod (if bool_decide (p = zeroPod) then None else Some p)) (check (error_of labels) (check (error_of annotations) b)).

Definition timeout_of (text : string) : option duration :=
  match ParseDuration text with Some d => if (0 <? d)%Z then Some d else None | None => None end.

Definition timing (now : time) (b : builder) : builder :=
  let f := b_form b in
  let timeout := if (fm_Timeout f =? "")%string then None else timeout_of (fm_Timeout f) in
  let b := on_spec (with_Timing timeout (fm_Schedule f)) b in
  let b := fail_if (negb (fm_Timeout f =? "")%string && bool_decide (timeout = None)) ("Timeout: " +:+ quote (fm_Timeout f) +:+ " is not a duration like 10m or 1h30m.") b in
  if (fm_Schedule f =? "")%string then b
  else match NextFires (fm_Schedule f) now 1 with Err e => fail ("Schedule: " +:+ e) b | Ok _ => b end.

(** The names of a new Test, and what is wrong with them. *)
Definition named (b : builder) : builder :=
  let f := b_form b in
  if (om_Name (t_Meta (b_t b)) =? "")%string then
    let b := on_test (with_meta (with_names (fm_Name f) (fm_Namespace f))) b in
    let b := foldl (fun b msg => fail ("Name: " +:+ msg) b) b (IsDNS1123Subdomain (fm_Name f)) in
    foldl (fun b msg => fail ("Namespace: " +:+ msg) b) b (IsDNS1123Label (fm_Namespace f))
  else b.

Definition Build (f : TestForm) (base : Test) (tmpl : option TestTemplate) (now : time) : Test * list string * list string :=
  let b := named (mkBuilder f base [] []) in
  let previous := FirstOf (ts_Use (t_Spec (b_t b))) in
  let b := content (ct_Git (ts_Content (t_Spec base))) (container (template tmpl b)) in
  let b := match tmpl with Some tmpl => params tmpl (negb (previous =? fm_Template f)%string) b | None => b end in
  let b := timing now (pod b) in
  (b_t b, b_errs b, b_warns b).
End Build.

(** ** YAML mode *)

(** The manifest's metadata; its kind and apiVersion, when it gives them. *)
Record manifest := mkManifest {
  mf_APIVersion : string; mf_Kind : string; mf_Name : string; mf_Namespace : string; mf_Labels : strmap; mf_Annotations : strmap; mf_Spec : TestSpec }.

Definition GroupVersion : string := "tests.kubetest.io/v1alpha1".
Definition KindTest : string := "Test".
Definition LastApplied : string := "kubectl.kubernetes.io/last-applied-configuration".
Definition serverAnnotations : list string := [TagCreatedBy; LastApplied].

Definition manifestOf (t : Test) : manifest :=
  let m := t_Meta t in
  mkManifest GroupVersion KindTest (om_Name m) (om_Namespace m) (delete Views.LabelManagedBy (om_Labels m))
    (foldl (fun a k => delete k a) (om_Annotations m) serverAnnotations) (t_Spec t).

(** yamlview.Format of a manifest; sigs.k8s.io/yaml's strict reading of one. *)
Class Manifests := { FormatManifest : manifest → result string string; UnmarshalManifest : string → result string manifest }.

Definition ManifestYAML `{Manifests} (t : Test) : string := match FormatManifest (manifestOf t) with Ok y => y | Err e => e end.

Section Parse.
Context `{Manifests, EditorChecks}.

Definition manifest_names (m : manifest) (base : Test) : Test * list string :=
  let was := t_Meta base in
  if (om_Name was =? "")%string then
    (with_meta (with_names (mf_Name m) (mf_Namespace m)) base,
     ((fun msg => "metadata.name: " +:+ msg) <$> IsDNS1123Subdomain (mf_Name m)) ++ ((fun msg => "metadata.namespace: " +:+ msg) <$> IsDNS1123Label (mf_Namespace m)))
  else
    (base,
     if negb (mf_Name m =? om_Name was)%string || negb (mf_Namespace m =? "")%string && negb (mf_Namespace m =? om_Namespace was)%string
     then ["YAML: this editor saves " +:+ om_Namespace was +:+ "/" +:+ om_Name was +:+ "; to make a copy under another name, use Duplicate."] else []).

Definition keep_annotation (was : strmap) (out : strmap) (k : string) : strmap := match was !! k with Some v => <[k := v]> out | None => out end.

Definition ParseManifest (text : string) (base : Test) : option Test * list string :=
  match UnmarshalManifest text with
  | Err e => (None, ["YAML: " +:+ e])
  | Ok m =>
      let '(t, names) := manifest_names m base in
      let labels := let managed := value_of (om_Labels (t_Meta t)) Views.LabelManagedBy in
                    if negb (managed =? "")%string then setLabel Views.LabelManagedBy managed (mf_Labels m) else mf_Labels m in
      let annotations := foldl (keep_annotation (om_Annotations (t_Meta t))) (mf_Annotations m) serverAnnotations in
      (Some (mkTest (with_marks labels annotations (t_Meta t)) (mf_Spec m) (t_LatestRun t)),
       (if negb (mf_Kind m =? "")%string && negb (mf_Kind m =? KindTest)%string then ["YAML: kind is " +:+ quote (mf_Kind m) +:+ "; this editor writes a Test."] else []) ++
       (if negb (mf_APIVersion m =? "")%string && negb (mf_APIVersion m =? GroupVersion)%string
        then ["YAML: apiVersion is " +:+ quote (mf_APIVersion m) +:+ ", not " +:+ GroupVersion +:+ "."] else []) ++
       names ++
       (match mf_Labels m !! Views.LabelManagedBy with
        | Some v => if (v =? Views.ManagedByUI)%string then [] else ["YAML: leave out the " +:+ Views.LabelManagedBy +:+ " label; the API server sets it."]
        | None => []
        end))
  end.
End Parse.

(** ** The patch of an edit *)

(** encoding/json of labels, annotations and a spec as one document; the merge patch
    between two documents; their fields. *)
Class Documents := {
  patch_document : strmap → strmap → TestSpec → result string Triggers.json;
  CreateMergePatch : Triggers.json → Triggers.json → result string (list (string * Triggers.json)) }.

Definition edit_document `{Documents} (t : Test) : result string Triggers.json :=
  patch_document (delete Views.LabelManagedBy (om_Labels (t_Meta t))) (om_Annotations (t_Meta t)) (t_Spec t).

(** A field of an object set, or added. *)
Fixpoint set_field (k : string) (v : Triggers.json) (fields : list (string * Triggers.json)) : list (string * Triggers.json) :=
  match fields with
  | [] => [(k, v)]
  | (k', v') :: fields => if (k' =? k)%string then (k, v) :: fields else (k', v') :: set_field k v fields
  end.
Definition metadata_of (patch : list (string * Triggers.json)) : list (string * Triggers.json) :=
  match find_first (fun kv => (kv.1 =? "metadata")%string) patch with Some (_, Triggers.JObject meta) => meta | _ => [] end.

Definition EditPatch `{Documents} (old : Test) (resourceVersion : string) (updated : Test) : result string Triggers.json :=
  a ← edit_document old;
  b ← edit_document updated;
  patch ← CreateMergePatch a b;
  let meta := set_field "resourceVersion" (Triggers.JString resourceVersion) (metadata_of patch) in
  Ok (Triggers.JObject (set_field "metadata" (Triggers.JObject meta) patch)).

End Editor.
