(* ===== verification/EditorSpec.v ===== *)
(** * The editor's form and the Test it came from

    A Test the form can show, opened and saved as it is, stays as it is; and what the
    form does not show of some others is lost without a word (editor.go). *)
From S2P Require Import Prelude Api GoLib Names Keys Paths Urls Durations Sorting Scheduler Triggers ApiServer Expr Resolver Natural Views Editor.

Module EditorSpec.
Import Names Keys Urls Paths Durations Expr Resolver Natural Views Editor.

(** ** Text without spaces around it *)

Definition one_line (s : string) : bool := all_bytes (fun c => negb (Ascii.eqb c newline)) s.
(** What [lines] gives back. *)
Definition line (l : string) : bool := negb (l =? "")%string && trimmed l && one_line l.
(** A key and a value of a key=value line. *)
Definition key (k : string) : bool := line k && all_bytes (fun c => negb (Ascii.eqb c "=")) k.
Definition value (v : string) : bool := trimmed v && one_line v.

Lemma TrimRight_equals b : trimmed b = true → TrimRight is_space ("=" +:+ b) = "=" +:+ b.
Proof. rewrite trimmed_iff. intros [_ Eb]. destruct b as [|c b]; [done|]. by apply TrimRight_app. Qed.

Lemma line_spec l : line l = true → l ≠ "" ∧ trimmed l = true ∧ one_line l = true.
Proof. unfold line. intros [[Hn Ht]%andb_true_iff Ho]%andb_true_iff. split_and!; [|done|done]. intros ->. done. Qed.

Lemma kv_line k v : key k = true → value v = true → line (k +:+ "=" +:+ v) = true.
Proof.
  intros [(Hk & Ht & Ho)%line_spec _]%andb_true_iff [Htv Hov]%andb_true_iff. unfold line. rewrite !andb_true_iff. split_and!.
  - destruct k; [done|]. by rewrite str_app_cons.
  - apply trimmed_app; [done|done|by apply TrimRight_equals|by rewrite str_app_cons].
  - unfold one_line in *. by rewrite !all_bytes_app, Ho, Hov.
Qed.
Lemma kv_of_line k v : key k = true → value v = true → kv_of (k +:+ "=" +:+ v) = Some (k, v).
Proof.
  intros [(Hk & Ht & _)%line_spec He]%andb_true_iff [Htv _]%andb_true_iff. unfold kv_of. rewrite Cut_pair by done.
  rewrite (trimmed_eq _ Ht), (trimmed_eq _ Htv). by rewrite (proj2 (String.eqb_neq _ _)).
Qed.

(** *** Lines, joined and split *)

Lemma lines_join ls : Forall (fun l => line l = true) ls → lines (join_lines ls) = ls.
Proof.
  intros Hls. unfold lines, join_lines. destruct ls as [|l ls]; [reflexivity|]. rewrite Urls.Split_joined; [|done|].
  - induction Hls as [|l' ls' Hl Hls IH]; [done|]. destruct (line_spec _ Hl) as (Hne & Ht & _). cbn [fmap list_fmap]. rewrite (trimmed_eq _ Ht). cbn [List.filter].
    rewrite (proj2 (String.eqb_neq _ _) Hne). cbn [negb]. f_equal. exact IH.
  - eapply Forall_impl; [exact Hls|]. by intros x (_ & _ & Ho)%line_spec.
Qed.
Lemma join_trimmed ls : Forall (fun l => line l = true) ls → trimmed (join_lines ls) = true.
Proof.
  intros Hls. unfold join_lines. induction Hls as [|l ls Hl Hls IH]; [done|]. destruct (line_spec _ Hl) as (Hne & Ht & _). destruct ls as [|l' ls]; [done|].
  change (str_join (String newline "") (l :: l' :: ls)) with (l +:+ (String newline "" +:+ str_join (String newline "") (l' :: ls))).
  assert (Hj : str_join (String newline "") (l' :: ls) ≠ "").
  { apply Forall_cons in Hls as [(Hne' & _)%line_spec _]. destruct ls; cbn [str_join]; [done|]. destruct l'; [done|]. by rewrite str_app_cons. }
  apply trimmed_app; [done|done| |by rewrite str_app_cons]. apply TrimRight_app; [done|]. by apply trimmed_iff in IH as [_ ?].
Qed.

(** *** key=value lines of a map *)

Definition kv_ok (m : strmap) : Prop := ∀ k v, m !! k = Some v → key k = true ∧ value v = true.

Lemma kv_fold field ks m out : kv_ok m → Forall (fun k => is_Some (m !! k)) ks →
  foldl (kv_step field) (Ok out) ((fun k => k +:+ "=" +:+ value_of m k) <$> ks) = Ok (foldl (fun (o : strmap) k => <[k := value_of m k]> o) out ks).
Proof.
  intros Hm Hks. revert out. induction Hks as [|k ks [v Hv] Hks IH]; intros out; [done|]. destruct (Hm k v Hv) as [Hk Hval]. cbn [fmap list_fmap foldl].
  assert (Ev : value_of m k = v) by (unfold value_of; by rewrite Hv). unfold kv_step at 2. cbn [mbind result_bind]. rewrite Ev, kv_of_line by done. apply IH.
Qed.
Lemma fold_insert_keys (m : strmap) ks (out : strmap) k : foldl (fun (o : strmap) k => <[k := value_of m k]> o) out ks !! k = if bool_decide (k ∈ ks) then Some (value_of m k) else out !! k.
Proof.
  revert out. induction ks as [|k' ks IH]; intros out; [done|]. cbn [foldl]. rewrite IH. destruct (decide (k ∈ ks)) as [Hin|Hin].
  - rewrite !bool_decide_eq_true_2; [done|by right|done].
  - rewrite bool_decide_eq_false_2 by done. destruct (decide (k = k')) as [->|Hne]; [rewrite lookup_insert_eq, bool_decide_eq_true_2; [done|by left]|].
    rewrite lookup_insert_ne by done. rewrite bool_decide_eq_false_2; [done|]. by intros [?|?]%elem_of_cons.
Qed.
Lemma kv_lines m : kv_ok m → Forall (fun l => line l = true) ((fun k => k +:+ "=" +:+ value_of m k) <$> sorted_keys m).
Proof.
  intros Hm. apply Forall_fmap, Forall_forall. intros k [v Hv]%sorted_keys_elem. destruct (Hm k v Hv) as [Hk Hval]. unfold value_of. cbn. rewrite Hv. by apply kv_line.
Qed.
Lemma kvLines_kvText field m : kv_ok m → kvLines field (kvText m) = Ok m.
Proof.
  intros Hm. unfold kvLines, kvText. rewrite lines_join by by apply kv_lines. rewrite kv_fold; [|done|].
  - f_equal. apply map_eq. intros k. rewrite fold_insert_keys. destruct (m !! k) as [v|] eqn:Ek.
    + rewrite bool_decide_eq_true_2 by (apply sorted_keys_elem; by rewrite Ek). unfold value_of. by rewrite Ek.
    + rewrite bool_decide_eq_false_2; [done|]. rewrite sorted_keys_elem, Ek. by intros [? ?].
  - apply Forall_forall. intros k Hk. by apply sorted_keys_elem.
Qed.

(** ** Steps that change nothing *)

Lemma on_spec_id f b : f (t_Spec (b_t b)) = t_Spec (b_t b) → on_spec f b = b.
Proof. intros E. destruct b as [fm [m s r] es ws]. unfold on_spec, on_test, with_spec. cbn in *. by rewrite E. Qed.
Lemma on_meta_id f b : f (t_Meta (b_t b)) = t_Meta (b_t b) → on_test (with_meta f) b = b.
Proof. intros E. destruct b as [fm [m s r] es ws]. unfold on_test, with_meta. cbn in *. by rewrite E. Qed.
Lemma fail_if_false c msg b : c = false → fail_if c msg b = b.
Proof. by intros ->. Qed.

Lemma setLabel_id k (labels : strmap) : labels !! k ≠ Some "" → setLabel k (value_of labels k) labels = labels.
Proof.
  intros Hk. unfold setLabel, value_of. destruct (labels !! k) as [v|] eqn:El; unfold default, from_option, id.
  - destruct (String.eqb_spec v "") as [->|_]; [done|]. by apply insert_id.
  - by apply delete_id.
Qed.

Section RoundTrip.
Context `{EnvVarSources, EditorChecks, FloatSyntax, Regexp, Scheduler.Cron, CronErrors}.

(** ** The Tests the form can show *)

Definition shown_quantity (m : strmap) (name : string) : Prop :=
  match m !! name with Some q => q ≠ "" ∧ trimmed q = true ∧ ParseQuantity q = Some q | None => True end.

(** The plain variables, sorted, come before the others. *)
Definition shown_env (env : list EnvVar) : Prop := ∃ plain, kv_ok plain ∧ env = env_of plain env.

Record shown_container (own_image : bool) (c : ContainerConfig) : Prop := {
  sc_image : trimmed (cc_Image c) = true;
  sc_command : Forall (fun l => line l = true) (cc_Command c);
  sc_args : Forall (fun l => line l = true) (cc_Args c);
  sc_env : shown_env (cc_Env c);
  sc_quantities : shown_quantity (cc_Requests c) ResourceCPU ∧ shown_quantity (cc_Requests c) ResourceMemory ∧
    shown_quantity (cc_Limits c) ResourceCPU ∧ shown_quantity (cc_Limits c) ResourceMemory;
  sc_runnable : own_image = true → cc_Image c ≠ "" ∧ (cc_Command c ≠ [] ∨ cc_Args c ≠ []) }.

(** A path that is not trimmed further. *)
Definition plain_path (p : string) : Prop := p ≠ "" ∧ Trim slash (TrimSpace p) = p.

Record shown_git (s : TestSpec) (tmpl : option TestTemplate) (g : GitContent) : Prop := {
  sg_uri : git_URI g ≠ "" ∧ trimmed (git_URI g) = true;
  sg_revision : trimmed (git_Revision g) = true;
  sg_path : plain_path (git_path s tmpl g);
  sg_paths : git_Paths g = sparseFor (git_path s tmpl g) ∨ git_Paths g ≠ [] ∧ Forall (fun l => line l = true) (git_Paths g);
  sg_token : match git_TokenFrom g with
             | None => True
             | Some v => ∃ n k, secret_key_ref v = Some (n, k) ∧ secret_source n k = v ∧ n ≠ "" ∧ k ≠ "" ∧ trimmed n = true ∧ trimmed k = true
             end }.

Definition shown_file (file : FileContent) : Prop :=
  fc_ContentFrom file = None ∧ fc_Mode file = None ∧ plain_path (fc_Path file) ∧ trimmed (fc_Path file) = true ∧
  InlineFilePath (fc_Path file) = fc_Path file ∧ unix_newlines (fc_Content file) = fc_Content file.

Definition shown_item (it : TestDataItem) : Prop := key (tdi_Key it) = true ∧ value (tdi_Path it) = true ∧ HasPrefix (tdi_Path it) "/" = true.

Record shown_data (d : TestDataSource) : Prop := {
  sd_one : (td_Secret d = "" ∧ td_ConfigMap d ≠ "" ∧ trimmed (td_ConfigMap d) = true) ∨ (td_ConfigMap d = "" ∧ td_Secret d ≠ "" ∧ trimmed (td_Secret d) = true);
  sd_mount : td_MountPath d = "" ∨ td_Items d = [] ∧ HasPrefix (td_MountPath d) "/" = true ∧ trimmed (td_MountPath d) = true;
  sd_items : Forall shown_item (td_Items d) }.

Definition shown_content (s : TestSpec) (tmpl : option TestTemplate) : Prop :=
  ct_Tarball (ts_Content s) = [] ∧ Forall shown_data (ct_TestData (ts_Content s)) ∧
  match ct_Git (ts_Content s) with
  | Some g => ct_Files (ts_Content s) = [] ∧ shown_git s tmpl g
  | None => Forall shown_file (ct_Files (ts_Content s))
  end.

(** A parameter of the template: the Test has none of its own, or one with another value that is of its type. *)
Definition shown_param (s : TestSpec) (name : string) (p : ConfigParameter) : Prop :=
  match ts_Config s !! name with
  | None => trimmed (pm_Default p) = true
  | Some own => own = with_Default (pm_Default own) p ∧ pm_Default own ≠ "" ∧ pm_Default own ≠ pm_Default p ∧ trimmed (pm_Default own) = true ∧
      CoerceParam name (pm_Default own) p = Ok (pm_Default own)
  end.

Record shown_params (s : TestSpec) (tmpl : TestTemplate) : Prop := {
  sp_each : ∀ name p, tms_Config (tm_Spec tmpl) !! name = Some p → shown_param s name p;
  sp_named : tms_Config (tm_Spec tmpl) !! "" = None;
  (** A main path without a value is only for inline files. *)
  sp_main : ∀ name p, name = (MainPathParam (tms_Config (tm_Spec tmpl))).1 → tms_Config (tm_Spec tmpl) !! name = Some p →
    ts_Config s !! name = None → pm_Default p ≠ "" ∨ ct_Git (ts_Content s) = None ∧ ct_Files (ts_Content s) ≠ [];
  sp_project : (MainPathParam (tms_Config (tm_Spec tmpl))).2 = PathDirectory → ct_Files (ts_Content s) = [] }.

Definition shown_pod (p : option PodConfig) : Prop :=
  match p with Some p => p ≠ zeroPod ∧ kv_ok (pc_Labels p) ∧ kv_ok (pc_Annotations p) ∧ trimmed (pc_ServiceAccountName p) = true | None => True end.

Definition shown_timeout (d : option duration) : Prop :=
  match d with Some d => (0 < d)%Z ∧ trimmed (Duration_String d) = true ∧ Duration_String d ≠ "" ∧ ParseDuration (Duration_String d) = Some d | None => True end.

Definition shown_schedule (schedule : string) (now : time) : Prop :=
  str_join " " (fields schedule) = schedule ∧ (schedule = "" ∨ is_ok (NextFires schedule now 1) = true).

(** The Test's template, and its tool. *)
Definition shown_template (t : Test) (tmpl : option TestTemplate) : Prop :=
  match tmpl with
  | Some tm => (∃ u, ts_Use (t_Spec t) = [u] ∧ u ≠ "") ∧ (value_of (om_Labels (tm_Meta tm)) Views.LabelTool = "" ∨
                 value_of (om_Labels (tm_Meta tm)) Views.LabelTool = value_of (om_Labels (t_Meta t)) Views.LabelTool)
  | None => ts_Use (t_Spec t) = []
  end ∧
  om_Labels (t_Meta t) !! Views.LabelTool ≠ Some "" ∧ trimmed (value_of (om_Labels (t_Meta t)) Views.LabelTool) = true.

Record shown (t : Test) (tmpl : option TestTemplate) (now : time) : Prop := {
  sh_name : om_Name (t_Meta t) ≠ "";
  sh_template : shown_template t tmpl;
  sh_container : shown_container (bool_decide (tmpl = None)) (ts_Container (t_Spec t));
  sh_content : shown_content (t_Spec t) tmpl;
  sh_params : match tmpl with Some tm => shown_params (t_Spec t) tm | None => True end;
  sh_pod : shown_pod (ts_Pod (t_Spec t));
  sh_timeout : shown_timeout (ts_Timeout (t_Spec t));
  sh_schedule : shown_schedule (ts_Schedule (t_Spec t)) now }.

(** ** Each step *)

Context (t : Test) (version : string) (generation : Z) (tmpl : option TestTemplate) (now : time).
Let s := t_Spec t.
Let F := Normalize (FormFromTest t version generation tmpl).
Abbreviation B w := (mkBuilder F t [] w).

Lemma named_id w : om_Name (t_Meta t) ≠ "" → named (B w) = B w.
Proof. intros Hn. unfold named. cbn [b_t]. by rewrite (proj2 (String.eqb_neq _ _)). Qed.

Lemma template_id w : shown_template t tmpl → template tmpl (B w) = B w.
Proof.
  intros (Htm & Hlab & Htrim). unfold template. cbn [b_form]. change (fm_Template F) with (FirstOf (ts_Use s)).
  change (fm_Tool F) with (TrimSpace (value_of (om_Labels (t_Meta t)) Views.LabelTool)). rewrite (trimmed_eq _ Htrim).
  set (tool := match tmpl with Some _ => _ | None => _ end).
  assert (Et : tool = value_of (om_Labels (t_Meta t)) Views.LabelTool).
  { unfold tool. destruct tmpl as [tm|]; [|done]. destruct Htm as [_ [->| ->]]; [done|]. destruct (String.eqb_spec (value_of (om_Labels (t_Meta t)) Views.LabelTool) ""); cbn; congruence. }
  assert (Euse : (if negb (FirstOf (ts_Use s) =? "")%string then [FirstOf (ts_Use s)] else []) = ts_Use s ∧ negb (FirstOf (ts_Use s) =? "")%string && bool_decide (tmpl = None) = false).
  { unfold s. destruct tmpl as [tm|]; [destruct Htm as [(u & -> & Hu) _]|by rewrite Htm]. unfold FirstOf. cbn [head default]. by rewrite (proj2 (String.eqb_neq _ _)). }
  destruct Euse as [Euse Efail]. rewrite fail_if_false by done. rewrite (on_spec_id (with_Use _)) by (cbn [b_t]; fold s; rewrite Euse; by destruct s).
  apply on_meta_id. cbn [b_t]. rewrite Et. unfold set_label, with_marks. rewrite setLabel_id by done. by destruct (t_Meta t).
Qed.

Lemma setQuantity_id m name field : shown_quantity m name → setQuantity m name field (TrimSpace (value_of m name)) = (m, None).
Proof.
  unfold shown_quantity, setQuantity, value_of. destruct (m !! name) as [q|] eqn:Eq; unfold default, from_option, id.
  - intros (Hq & Ht & Hp). rewrite (trimmed_eq _ Ht), (proj2 (String.eqb_neq _ _) Hq), Hp. by rewrite insert_id.
  - intros _. cbn. by rewrite delete_id.
Qed.

(** What the form shows of the environment is the plain variables. *)
Lemma env_text plain was :
  omap (fun e => match ev_ValueFrom e with None => Some (ev_Name e +:+ "=" +:+ ev_Value e) | Some _ => None end) (env_of plain was) =
  (fun k => k +:+ "=" +:+ value_of plain k) <$> sorted_keys plain.
Proof.
  unfold env_of. rewrite omap_app. rewrite <- (app_nil_r ((fun k => k +:+ "=" +:+ value_of plain k) <$> sorted_keys plain)). f_equal.
  - induction (sorted_keys plain) as [|k ks IH]; [done|]. cbn. f_equal. exact IH.
  - induction was as [|e was IH]; [done|]. cbn [List.filter]. case_bool_decide as Hv; [|exact IH]. cbn. destruct (ev_ValueFrom e); [exact IH|by destruct Hv].
Qed.

Lemma container_id w : shown_container (bool_decide (tmpl = None)) (ts_Container s) → FirstOf (ts_Use s) = "" ↔ tmpl = None → container (B w) = B w.
Proof.
  intros [Him Hcmd Hargs (plain & Hplain & Henv) (Q1 & Q2 & Q3 & Q4) Hrun] Huse. unfold container. cbn [b_form b_t]. fold s. set (c := ts_Container s) in *.
  change (fm_Command F) with (join_lines (cc_Command c)). change (fm_Args F) with (join_lines (cc_Args c)). rewrite !lines_join by done.
  change (fm_CPURequest F) with (TrimSpace (value_of (cc_Requests c) ResourceCPU)). change (fm_MemoryRequest F) with (TrimSpace (value_of (cc_Requests c) ResourceMemory)).
  change (fm_CPULimit F) with (TrimSpace (value_of (cc_Limits c) ResourceCPU)). change (fm_MemoryLimit F) with (TrimSpace (value_of (cc_Limits c) ResourceMemory)).
  rewrite !setQuantity_id by done. change (fm_Image F) with (TrimSpace (cc_Image c)). rewrite (trimmed_eq _ Him).
  assert (Eenv : kvLines "Environment" (fm_Env F) = Ok plain).
  { transitivity (kvLines "Environment" (kvText plain)); [|by apply kvLines_kvText]. f_equal.
    change (fm_Env F) with (join_lines (omap (fun e => match ev_ValueFrom e with None => Some (ev_Name e +:+ "=" +:+ ev_Value e) | Some _ => None end) (cc_Env c))).
    rewrite Henv, env_text. done. }
  rewrite Eenv. cbn [error_of or_empty check]. rewrite <- Henv. change (fm_Template F) with (FirstOf (ts_Use s)).
  rewrite !fail_if_false.
  - apply on_spec_id. cbn [b_t]. fold s. by destruct s as [ct [] ? ? ? ? ? ? ? ? ? ? ? ? ? ?].
  - destruct (String.eqb_spec (FirstOf (ts_Use s)) "") as [Hu%Huse|]; [|done]. destruct (Hrun (bool_decide_eq_true_2 _ Hu)) as [Hi _]. by rewrite (proj2 (String.eqb_neq _ _) Hi).
  - destruct (String.eqb_spec (FirstOf (ts_Use s)) "") as [Hu%Huse|]; [|done]. destruct (Hrun (bool_decide_eq_true_2 _ Hu)) as [_ [Hc|Hc]]; destruct (cc_Command c), (cc_Args c); done.
Qed.

Lemma pod_id w : shown_pod (ts_Pod s) → pod (B w) = B w.
Proof.
  intros Hp. unfold pod. cbn [b_form b_t]. fold s.
  change (fm_PodAnnotations F) with (match ts_Pod s with Some p => kvText (pc_Annotations p) | None => "" end).
  change (fm_PodLabels F) with (match ts_Pod s with Some p => kvText (pc_Labels p) | None => "" end).
  change (fm_ServiceAccount F) with (TrimSpace (match ts_Pod s with Some p => pc_ServiceAccountName p | None => "" end)).
  destruct (ts_Pod s) as [p|] eqn:Ep.
  - destruct Hp as (Hne & Hl & Ha & Ht). rewrite !kvLines_kvText by done. rewrite (trimmed_eq _ Ht). cbn [error_of or_empty check default].
    apply on_spec_id. cbn [b_t]. fold s. unfold default, from_option, id. replace (mkPodConfig _ _ _ _ _ _ _ _ _) with p by (by destruct p).
    rewrite bool_decide_eq_false_2 by done. rewrite <- Ep. by destruct s.
  - cbn [default from_option]. change (kvLines _ "") with (@Ok string strmap ∅). cbn [error_of or_empty check]. apply on_spec_id. cbn [b_t]. fold s. rewrite bool_decide_eq_true_2 by done.
    rewrite <- Ep. by destruct s.
Qed.

Lemma timing_id w : shown_timeout (ts_Timeout s) → shown_schedule (ts_Schedule s) now → timing now (B w) = B w.
Proof.
  intros Ht [Hs Hn]. unfold timing. cbn [b_form b_t]. fold s. change (fm_Schedule F) with (str_join " " (fields (ts_Schedule s))). rewrite Hs.
  change (fm_Timeout F) with (TrimSpace (match ts_Timeout s with Some d => Duration_String d | None => "" end)).
  assert (Et : ∃ x, TrimSpace (match ts_Timeout s with Some d => Duration_String d | None => "" end) = x ∧ (if (x =? "")%string then None else timeout_of x) = ts_Timeout s ∧
    negb (x =? "")%string && bool_decide ((if (x =? "")%string then None else timeout_of x) = None) = false).
  { destruct (ts_Timeout s) as [d|]; [|by exists ""]. destruct Ht as (Hd & Htr & Hne & Hp). exists (Duration_String d). rewrite (trimmed_eq _ Htr), (proj2 (String.eqb_neq _ _) Hne).
    unfold timeout_of. rewrite Hp, (proj2 (Z.ltb_lt _ _) Hd). done. }
  destruct Et as (x & -> & Et & Ef). rewrite fail_if_false by exact Ef. rewrite on_spec_id by (cbn [b_t]; fold s; rewrite Et; by destruct s).
  destruct (String.eqb_spec (ts_Schedule s) ""); [done|]. destruct Hn as [?|Hn]; [done|]. by destruct (NextFires _ _ _).
Qed.

(** *** Test data *)

Lemma item_back it : shown_item it → line (tdi_Key it +:+ "=" +:+ tdi_Path it) = true ∧ item_of (tdi_Key it +:+ "=" +:+ tdi_Path it) = Some it.
Proof.
  intros (Hk & Hv & Hp). split; [by apply kv_line|]. pose proof Hk as [(Hne & Ht & _)%line_spec He]%andb_true_iff. pose proof Hv as [Htv _]%andb_true_iff.
  unfold item_of. rewrite Cut_pair by done. rewrite (trimmed_eq _ Ht), (trimmed_eq _ Htv), (proj2 (String.eqb_neq _ _) Hne), Hp. by destruct it.
Qed.
Lemma items_back items : Forall shown_item items →
  lines (TrimSpace (join_lines ((fun it => tdi_Key it +:+ "=" +:+ tdi_Path it) <$> items))) = (fun it => tdi_Key it +:+ "=" +:+ tdi_Path it) <$> items ∧
  omap item_of ((fun it => tdi_Key it +:+ "=" +:+ tdi_Path it) <$> items) = items.
Proof.
  intros Hi. assert (Hl : Forall (fun l => line l = true) ((fun it => tdi_Key it +:+ "=" +:+ tdi_Path it) <$> items)) by (apply Forall_fmap; eapply Forall_impl; [exact Hi|]; intros it Hit; by apply item_back).
  rewrite (trimmed_eq _ (join_trimmed _ Hl)). split; [by apply lines_join|]. induction Hi as [|it items Hit Hi IH]; [done|].
  cbn [fmap list_fmap omap list_omap]. rewrite (proj2 (item_back it Hit)). f_equal. apply IH. by apply Forall_cons in Hl as [_ ?].
Qed.

(** Where the keys of a row land. *)
Definition where_of (d : TestDataSource) : string := if (0 <? length (td_Items d))%nat then WhereFiles else if negb (td_MountPath d =? "")%string then WhereDir else "".
Definition item_lines (d : TestDataSource) : list string := (fun it => tdi_Key it +:+ "=" +:+ tdi_Path it) <$> td_Items d.

Lemma normal_row d : shown_data d → ∃ kind nm,
  normalize_data (data_row d) = mkDataField kind nm (where_of d) (td_MountPath d) (TrimSpace (join_lines (item_lines d))) ∧ nm ≠ "" ∧
  (if (kind =? KindSecret)%string then "" else nm) = td_ConfigMap d ∧ (if (kind =? KindSecret)%string then nm else "") = td_Secret d.
Proof.
  intros [Hone Hmount _]. unfold normalize_data, data_row. cbn [tf_Kind tf_Name tf_Where tf_MountPath tf_Items]. fold (where_of d) (item_lines d).
  assert (Hm : TrimSpace (td_MountPath d) = td_MountPath d) by (destruct Hmount as [->|(_ & _ & Ht)]; [done|by apply trimmed_eq]). rewrite Hm.
  assert (Hw : TrimSpace (where_of d) = where_of d) by (unfold where_of; destruct (0 <? length (td_Items d))%nat, (negb (td_MountPath d =? "")%string); reflexivity). rewrite Hw.
  destruct Hone as [(-> & Hc & Ht)|(-> & Hc & Ht)].
  - exists KindConfigMap, (td_ConfigMap d). cbn [negb]. change (("" =? "")%string) with true. cbn [negb]. by rewrite (trimmed_eq _ Ht).
  - exists KindSecret, (td_Secret d). rewrite (proj2 (String.eqb_neq _ _) Hc). cbn [negb]. by rewrite (trimmed_eq _ Ht).
Qed.

Lemma bad_items_none row items : Forall shown_item items → lines (tf_Items row) = (fun it => tdi_Key it +:+ "=" +:+ tdi_Path it) <$> items → bad_items row = [].
Proof.
  intros Hi Hl. unfold bad_items. rewrite Hl. clear Hl. induction Hi as [|it items Hit Hi IH]; [done|]. cbn [fmap list_fmap omap list_omap]. rewrite (proj2 (item_back it Hit)). exact IH.
Qed.

Lemma data_back d : shown_data d →
  tf_Name (normalize_data (data_row d)) ≠ "" ∧ data_source (normalize_data (data_row d)) = d ∧ data_errors (normalize_data (data_row d)) = [].
Proof.
  intros Hd. destruct (normal_row d Hd) as (kind & nm & -> & Hn & Hc & Hs). destruct Hd as [_ Hmount Hitems]. destruct (items_back _ Hitems) as [Hl Ho].
  split; [done|]. pose proof (bad_items_none (mkDataField kind nm (where_of d) (td_MountPath d) (TrimSpace (join_lines (item_lines d)))) _ Hitems Hl) as Hb.
  unfold data_source, data_errors. rewrite Hb. clear Hb. cbn [tf_Kind tf_Name tf_Where tf_MountPath tf_Items]. unfold item_lines. rewrite Hl, Ho, Hc, Hs. clear Hl Ho Hc Hs Hn Hitems.
  unfold where_of. destruct d as [cm sec mp items]. cbn [td_ConfigMap td_Secret td_MountPath td_Items] in *. destruct items as [|it items].
  - destruct Hmount as [->|(_ & Hp & _)]; [done|]. destruct (String.eqb_spec mp "") as [->|]; [done|]. cbn [length negb]. change (0 <? 0)%nat with false. cbn iota.
    change ((WhereDir =? WhereDir)%string) with true. change ((WhereDir =? WhereFiles)%string) with false. by rewrite Hp.
  - destruct Hmount as [->|(? & _)]; done.
Qed.

Lemma rows_back ds : Forall shown_data ds →
  let rows := List.filter (fun td => negb (tf_Name td =? "")%string) (normalize_data <$> (data_row <$> ds)) in data_source <$> rows = ds ∧ rows ≫= data_errors = [].
Proof.
  intros Hds. induction Hds as [|d ds Hd Hds IH]; [done|]. destruct (data_back d Hd) as (Hn & Hs & He). cbn [fmap list_fmap List.filter]. rewrite (proj2 (String.eqb_neq _ _) Hn). cbn [negb].
  cbn [fmap list_fmap mbind list_bind]. rewrite Hs, He. destruct IH as [IH1 IH2]. split; [f_equal; exact IH1|exact IH2].
Qed.

Lemma testData_id w ct : Forall shown_data (ct_TestData ct) → fm_TestData F = List.filter (fun td => negb (tf_Name td =? "")%string) (normalize_data <$> (data_row <$> ct_TestData ct)) →
  ∀ b, b = on_spec (with_Content ct) (B w) → testData b = b.
Proof.
  intros Hd Hf b ->. unfold testData. cbn [b_form b_t on_spec on_test]. rewrite Hf. destruct (rows_back _ Hd) as [-> ->]. cbn [foldl]. apply on_spec_id. cbn. by destruct ct.
Qed.

(** *** Files and git *)

Lemma files_back files b : Forall shown_file files →
  foldl add_file ([], b) (List.filter (fun file => negb (ff_Path file =? "")%string || negb (TrimSpace (ff_Content file) =? "")%string) (normalize_file <$> file_fields files)) = (files, b).
Proof.
  intros Hf. revert b. assert (Hgen : ∀ acc b, foldl add_file (acc, b) (List.filter (fun file => negb (ff_Path file =? "")%string || negb (TrimSpace (ff_Content file) =? "")%string) (normalize_file <$> file_fields files)) = (acc ++ files, b)); [|exact (Hgen [])].
  induction Hf as [|file files (Hc & Hm & (Hp & Htp) & Ht & Hi & Hn) Hf IH]; intros acc b; [by rewrite app_nil_r|].
  unfold file_fields in *. cbn [omap list_omap]. rewrite Hc. cbn [fmap list_fmap].
  assert (En : normalize_file (mkFileField (InlineFilePath (fc_Path file)) (fc_Content file)) = mkFileField (fc_Path file) (fc_Content file)).
  { unfold normalize_file. cbn [ff_Path ff_Content]. by rewrite Hi, (trimmed_eq _ Ht), Hn. }
  rewrite En. cbn [List.filter ff_Path]. rewrite (proj2 (String.eqb_neq _ _) Hp). cbn [negb orb foldl]. unfold add_file at 2. cbn [ff_Path ff_Content].
  rewrite Htp, (proj2 (String.eqb_neq _ _) Hp). rewrite IH, <- app_assoc. cbn [app]. destruct file; cbn in *; subst. done.
Qed.

(** The form's source is what the Test has. *)
Lemma form_uses : fm_UseGit F = bool_decide (is_Some (ct_Git (ts_Content s))) ∧
  fm_UseFiles F = negb (bool_decide (is_Some (ct_Git (ts_Content s)))) && (0 <? length (file_fields (ct_Files (ts_Content s))))%nat.
Proof.
  change (fm_UseGit F) with ((if bool_decide (is_Some (ct_Git (ts_Content s))) then SourceGit else if (0 <? length (file_fields (ct_Files (ts_Content s))))%nat then SourceInline else "") =? SourceGit)%string.
  change (fm_UseFiles F) with ((if bool_decide (is_Some (ct_Git (ts_Content s))) then SourceGit else if (0 <? length (file_fields (ct_Files (ts_Content s))))%nat then SourceInline else "") =? SourceInline)%string.
  destruct (bool_decide _); [done|]. by destruct (0 <? _)%nat.
Qed.

Lemma form_git_path : fm_GitPath F = Trim slash (TrimSpace (default "" (git_path s tmpl <$> ct_Git (ts_Content s)))).
Proof. done. Qed.

Lemma git_back g : ct_Git (ts_Content s) = Some g → shown_git s tmpl g → git_of F (Some g) = g ∧ fm_GitPath F ≠ "" ∧ fm_GitURI F ≠ "".
Proof.
  intros Eg [[Hu Htu] Hr [Hp Hpp] Hpaths Htok].
  assert (Ep : fm_GitPath F = git_path s tmpl g) by (rewrite form_git_path, Eg; exact Hpp).
  assert (Eu : fm_GitURI F = git_URI g) by (change (fm_GitURI F) with (TrimSpace (match ct_Git (ts_Content s) with Some g => git_URI g | None => "" end)); rewrite Eg; by apply trimmed_eq).
  split; [|by rewrite Ep, Eu]. unfold git_of. rewrite Ep, Eu.
  change (fm_GitRevision F) with (TrimSpace (match ct_Git (ts_Content s) with Some g => git_Revision g | None => "" end)). rewrite Eg, (trimmed_eq _ Hr).
  assert (Epaths : (if (length (lines (fm_GitPaths F)) =? 0)%nat then sparseFor (git_path s tmpl g) else lines (fm_GitPaths F)) = git_Paths g).
  { change (fm_GitPaths F) with (match ct_Git (ts_Content s) with
      Some g => if bool_decide (git_Paths g = sparseFor (default "" (git_path s tmpl <$> ct_Git (ts_Content s)))) then "" else join_lines (git_Paths g) | None => "" end).
    rewrite Eg. change (default "" (git_path s tmpl <$> Some g)) with (git_path s tmpl g). case_bool_decide as Hs; [by rewrite Hs|]. destruct Hpaths as [?|[Hne Hl]]; [done|].
    rewrite lines_join by done. by destruct (git_Paths g). }
  rewrite Epaths.
  assert (Etok : (if negb (fm_GitSecret F =? "")%string then Some (secret_source (fm_GitSecret F) (if (fm_GitSecretKey F =? "")%string then "token" else fm_GitSecretKey F)) else None) = git_TokenFrom g).
  { change (fm_GitSecret F) with (TrimSpace (match (g ← ct_Git (ts_Content s); v ← git_TokenFrom g; secret_key_ref v) with Some (n, _) => n | None => "" end)).
    change (fm_GitSecretKey F) with (TrimSpace (match (g ← ct_Git (ts_Content s); v ← git_TokenFrom g; secret_key_ref v) with Some (_, k) => k | None => "" end)).
    rewrite Eg. cbn [mbind option_bind]. destruct (git_TokenFrom g) as [v|]; [|done]. destruct Htok as (n & k & Hk & <- & Hn & Hkn & Htn & Htk). cbn [mbind option_bind]. rewrite Hk.
    by rewrite (trimmed_eq _ Htn), (trimmed_eq _ Htk), !(proj2 (String.eqb_neq _ _)). }
  rewrite Etok. by destruct g.
Qed.

Lemma content_id w : shown_content s tmpl → content (ct_Git (ts_Content s)) (B w) = B w.
Proof.
  intros (Htar & Hdata & Hcode). unfold content. cbn [b_form]. destruct form_uses as [-> ->].
  assert (Hend : ∀ b, b = B w → testData (on_spec (fun s' => with_Content (mkContent (ct_Git (ts_Content s)) (ct_Files (ts_Content s)) [] (ct_TestData (ts_Content s'))) s') b) = B w).
  { intros b ->. assert (Eid : on_spec (fun s' => with_Content (mkContent (ct_Git (ts_Content s)) (ct_Files (ts_Content s)) [] (ct_TestData (ts_Content s'))) s') (B w) = B w).
    { apply on_spec_id. cbn [b_t]. fold s. rewrite <- Htar. by destruct s as [[] ? ? ? ? ? ? ? ? ? ? ? ? ? ? ?]. }
    rewrite Eid. apply (testData_id w (ts_Content s)); [done|done|]. symmetry. apply on_spec_id. cbn [b_t]. fold s. by destruct s. }
  destruct (ct_Git (ts_Content s)) as [g|] eqn:Eg.
  - destruct Hcode as [Hfiles Hg]. destruct (git_back g Eg Hg) as (Eb & Hp & Hu). rewrite bool_decide_eq_true_2 by done. cbn [negb andb].
    rewrite (proj2 (String.eqb_neq _ _) Hp), (proj2 (String.eqb_neq _ _) Hu), Eb. cbn [fail_if]. rewrite Hfiles in Hend. by apply Hend.
  - rewrite bool_decide_eq_false_2 by (by intros [? ?]). cbn [negb andb fail_if].
    change (fm_Files F) with (List.filter (fun file => negb (ff_Path file =? "")%string || negb (TrimSpace (ff_Content file) =? "")%string) (normalize_file <$> file_fields (ct_Files (ts_Content s)))).
    rewrite (files_back _ (B w) Hcode).
    assert (Hlen : length (file_fields (ct_Files (ts_Content s))) = length (ct_Files (ts_Content s))).
    { clear -Hcode. induction Hcode as [|file files (Hc & _) Hf IH]; [done|]. unfold file_fields in *. cbn [omap list_omap]. rewrite Hc. cbn [length]. by rewrite IH. }
    rewrite Hlen. destruct (ct_Files (ts_Content s)) as [|file files] eqn:Ef; cbn [length]; [by apply Hend|]. change (0 <? S (length files))%nat with true. cbn iota. cbn [length Nat.eqb andb fail_if]. by apply Hend.
Qed.

(** *** Parameters *)

(** The value the Test has of a template's parameter. *)
Definition own_value (name : string) (p : ConfigParameter) : string := match ts_Config s !! name with Some own => pm_Default own | None => pm_Default p end.

Lemma own_trimmed name p : shown_param s name p → trimmed (own_value name p) = true.
Proof. unfold shown_param, own_value. destruct (ts_Config s !! name); [by intros (_ & _ & _ & ? & _)|done]. Qed.

Lemma set_param_id name p w : shown_param s name p → set_param name p (own_value name p) (B w) = B w.
Proof.
  unfold shown_param, own_value, set_param. intros Hp. destruct (ts_Config s !! name) as [own|] eqn:Ec.
  - destruct Hp as (Eo & Hne & Hnd & _ & Hc). rewrite !(proj2 (String.eqb_neq _ _)) by done. cbn [orb]. rewrite Hc, <- Eo. apply on_spec_id. cbn [b_t]. fold s. rewrite insert_id by done. by destruct s.
  - rewrite String.eqb_refl, orb_true_r. apply on_spec_id. cbn [b_t]. fold s. rewrite delete_id by done. by destruct s.
Qed.

Lemma check_in_checkout_warns name v w : ∃ w', checkInCheckout name v (B w) = B w'.
Proof. unfold checkInCheckout. destruct (ct_Git _); [|by eexists]. destruct (_ || _); by eexists. Qed.

Section Template.
Context (tm : TestTemplate) (Htm : tmpl = Some tm) (Hcontent : shown_content s tmpl) (Hparams : shown_params s tm).
Let config := tms_Config (tm_Spec tm).
Let main := (MainPathParam config).1.

Lemma form_value name p : config !! name = Some p →
  value_of (fm_Params F) name = TrimSpace (match ct_Git (ts_Content s) with
    | Some g => if bool_decide (name = main) && (own_value name p =? git_path s tmpl g)%string then "" else own_value name p
    | None => own_value name p end).
Proof.
  intros Hc. assert (Hname : name ≠ "") by (intros ->; pose proof (sp_named _ _ Hparams : config !! "" = None); congruence).
  assert (Hown : own_values s config !! name = Some (own_value name p)) by (unfold own_values, own_value; rewrite map_lookup_imap, Hc; cbn; by destruct (ts_Config s !! name)).
  change (fm_Params F) with (TrimSpace <$> form_params s tmpl (git_path s tmpl <$> ct_Git (ts_Content s))). unfold value_of at 1. rewrite lookup_fmap.
  assert (Hf : form_params s tmpl (git_path s tmpl <$> ct_Git (ts_Content s)) !! name = Some (match ct_Git (ts_Content s) with
    | Some g => if bool_decide (name = main) && (own_value name p =? git_path s tmpl g)%string then "" else own_value name p
    | None => own_value name p end)); [|by rewrite Hf].
  unfold form_params. rewrite Htm. fold config. fold main. destruct (ct_Git (ts_Content s)) as [g|]; cbn [fmap option_fmap option_map]; [|done].
  case_bool_decide as Hm; cbn [andb].
  - subst name. rewrite (proj2 (String.eqb_neq _ _) Hname). cbn [negb andb]. unfold value_of. rewrite Hown. unfold default, from_option, id.
    destruct (_ =? _)%string; [by rewrite lookup_insert_eq|done].
  - destruct (_ && _); [by rewrite lookup_insert_ne|done].
Qed.

Lemma main_value p : config !! main = Some p → mainPathValue F p (value_of (fm_Params F) main) = own_value main p ∧ (own_value main p = "" → fm_UseFiles F = true).
Proof.
  intros Hc. pose proof (sp_each _ _ Hparams _ _ Hc) as Hp. pose proof (own_trimmed _ _ Hp) as Ht. destruct form_uses as [Hug Huf]. rewrite (form_value _ _ Hc). unfold mainPathValue. rewrite Hug.
  destruct Hcontent as (_ & _ & Hcode). destruct (ct_Git (ts_Content s)) as [g|] eqn:Eg.
  - destruct Hcode as [_ Hg]. assert (Ep : fm_GitPath F = git_path s tmpl g) by (rewrite form_git_path, Eg; exact (proj2 (sg_path _ _ _ Hg))).
    assert (Hne : own_value main p ≠ "").
    { unfold own_value, shown_param in *. destruct (ts_Config s !! main) as [own|] eqn:Eo; [by destruct Hp as (_ & ? & _)|]. destruct (sp_main _ _ Hparams main p eq_refl Hc Eo) as [?|[? _]]; [done|congruence]. }
    split; [|done]. rewrite bool_decide_eq_true_2 by done. cbn [andb]. rewrite Ep. destruct (String.eqb_spec (own_value main p) (git_path s tmpl g)) as [Eo|Hno].
    + cbn. by rewrite Eo.
    + rewrite (trimmed_eq _ Ht), (proj2 (String.eqb_neq _ _) Hne). cbn [negb andb].
      assert (Ed : own_value main p = pm_Default p).
      { unfold own_value in *. destruct (ts_Config s !! main) as [own|] eqn:Eo; [|done]. exfalso. apply Hno. unfold git_path. rewrite Htm. fold config main.
        destruct (String.eqb_spec main "") as [Em|]; [|by rewrite Eo]. rewrite Em in Hc. pose proof (sp_named _ _ Hparams : config !! "" = None). congruence. }
      rewrite Ed, String.eqb_refl. cbn [negb]. unfold Or. rewrite <- Ed. by rewrite (proj2 (String.eqb_neq _ _) Hne).
  - rewrite (trimmed_eq _ Ht). rewrite bool_decide_eq_false_2 by (by intros [? ?]). split; [by destruct (negb (own_value main p =? "")%string && negb (own_value main p =? pm_Default p)%string)|]. intros He. rewrite Huf. rewrite bool_decide_eq_false_2 by (by intros [? ?]). cbn [negb andb].
    assert (Hfiles : ct_Files (ts_Content s) ≠ []).
    { unfold own_value, shown_param in *. destruct (ts_Config s !! main) as [own|] eqn:Eo; [by destruct Hp as (_ & ? & _)|]. by destruct (sp_main _ _ Hparams main p eq_refl Hc Eo) as [?|[_ ?]]. }
    destruct (ct_Files (ts_Content s)) as [|file files]; [done|]. apply Forall_cons in Hcode as [(Hcf & _) _]. unfold file_fields. cbn [omap list_omap]. by rewrite Hcf.
Qed.

Lemma param_step_id name w : name ∈ sorted_keys config → ∃ w', param_step config main (B w) name = B w'.
Proof.
  intros [p Hc]%sorted_keys_elem. pose proof (sp_each _ _ Hparams _ _ Hc) as Hp. unfold param_step. rewrite Hc. unfold default, from_option, id. cbn [b_form].
  destruct (String.eqb_spec name main) as [->|Hnm].
  - destruct (main_value p Hc) as [-> Hfiles].
    assert (Hok : (own_value main p =? "")%string && negb (fm_UseFiles F) = false) by (destruct (String.eqb_spec (own_value main p) ""); [by rewrite Hfiles|done]).
    rewrite Hok. destruct (check_in_checkout_warns main (own_value main p) w) as [w' ->]. exists w'. by apply set_param_id.
  - rewrite (form_value _ _ Hc), bool_decide_eq_false_2 by done. cbn [andb].
    assert (Eo : TrimSpace (match ct_Git (ts_Content s) with Some _ => own_value name p | None => own_value name p end) = own_value name p).
    { destruct (ct_Git (ts_Content s)); by apply trimmed_eq, own_trimmed. }
    rewrite Eo. exists w. by apply set_param_id.
Qed.

Lemma params_id w : ∃ w', params tm false (B w) = B w'.
Proof.
  unfold params. destruct (MainPathParam (tms_Config (tm_Spec tm))) as [m kind] eqn:Em. cbn [b_form].
  assert (Ef : (kind =? PathDirectory)%string && fm_UseFiles F = false).
  { destruct (String.eqb_spec kind PathDirectory) as [->|]; [|done]. destruct form_uses as [_ ->]. rewrite (sp_project _ _ Hparams); [by rewrite andb_false_r|]. by rewrite Em. }
  rewrite fail_if_false by exact Ef. assert (Hm : m = main) by (unfold main, config; by rewrite Em). rewrite Hm. fold config.
  assert (Hgo : ∀ ks w, (∀ k, k ∈ ks → k ∈ sorted_keys config) → ∃ w', foldl (param_step config main) (B w) ks = B w'); [|by apply Hgo].
  clear w. induction ks as [|k ks IH]; intros w Hks; [by exists w|]. destruct (param_step_id k w) as [w' E]; [apply Hks; by left|]. cbn [foldl]. rewrite E. apply IH. intros k' Hk'. apply Hks. by right.
Qed.
End Template.

(** ** The form of a Test describes the Test *)

Lemma build_shown : shown t tmpl now → ∃ warns, Build F t tmpl now = (t, [], warns).
Proof.
  intros [Hn Htmpl Hc Hct Hp Hpod Htime Hsched]. unfold Build. rewrite (named_id [] Hn). cbn [b_t]. fold s. rewrite (template_id [] Htmpl).
  assert (Huse : FirstOf (ts_Use s) = "" ↔ tmpl = None).
  { destruct Htmpl as [Htm _]. fold s in Htm. destruct tmpl as [tm|]; [destruct Htm as [(u & -> & Hu) _]; by split|by rewrite Htm]. }
  rewrite (container_id [] Hc Huse), (content_id [] Hct).
  change (fm_Template F) with (FirstOf (ts_Use s)). rewrite String.eqb_refl. cbn [negb].
  assert (Hparams : ∃ w, match tmpl with Some tm => params tm false (B []) | None => B [] end = B w).
  { assert (Hall : ∀ tm, tmpl = Some tm → ∃ w, params tm false (B []) = B w) by (intros tm Et; rewrite Et in Hp; by apply (params_id tm Et)).
    assert (Hany : ∀ o, o = tmpl → ∃ w, match o with Some tm => params tm false (B []) | None => B [] end = B w) by (intros [tm|] Eo; [by apply Hall|by exists []]).
    by apply Hany. }
  destruct Hparams as [w Ew]. exists w. rewrite Ew, (pod_id w Hpod), (timing_id w Htime Hsched). done.
Qed.
End RoundTrip.

(** ** What the form loses *)

Lemma Split_bytes c s : Forall (fun x => all_bytes (fun d => negb (Ascii.eqb d c)) x = true) (Split c s).
Proof.
  induction s as [|d s IH]; cbn [Split]; [by repeat constructor|]. destruct (Ascii.eqb d c) eqn:E; [by constructor|].
  destruct (Split c s) as [|x xs]; [by repeat constructor; cbn; rewrite E|]. apply Forall_cons in IH as [Hx Hxs]. constructor; [|done]. cbn. by rewrite E, Hx.
Qed.
Lemma lines_are_lines s : Forall (fun l => line l = true) (lines s).
Proof.
  unfold lines. apply Forall_forall. intros l Hl. apply list_elem_of_In, filter_In in Hl as [Hin Hne]. apply list_elem_of_In, list_elem_of_fmap in Hin as (x & -> & Hx).
  unfold line. rewrite Hne, TrimSpace_trimmed. unfold one_line, TrimSpace. apply TrimRight_bytes, TrimLeft_bytes.
  pose proof (Split_bytes newline s) as Hs. rewrite Forall_forall in Hs. by apply Hs.
Qed.

(** The steps after the container's and the content's leave these as they are. *)
Definition code_of (b : builder) : ContainerConfig * Content := (ts_Container (t_Spec (b_t b)), ts_Content (t_Spec (b_t b))).

Section Losses.
Context `{EnvVarSources, EditorChecks, FloatSyntax, Regexp, Scheduler.Cron, CronErrors}.

Lemma fail_code msg b : code_of (fail msg b) = code_of b ∧ b_form (fail msg b) = b_form b.
Proof. done. Qed.
Lemma fail_if_code c msg b : code_of (fail_if c msg b) = code_of b ∧ b_form (fail_if c msg b) = b_form b.
Proof. by destruct c. Qed.
Lemma check_code e b : code_of (check e b) = code_of b.
Proof. by destruct e. Qed.
Lemma set_param_code name p v b : code_of (set_param name p v b) = code_of b ∧ b_form (set_param name p v b) = b_form b.
Proof. unfold set_param. destruct (_ || _); [done|]. by destruct (CoerceParam _ _ _). Qed.
Lemma param_step_code config main b name : code_of (param_step config main b name) = code_of b ∧ b_form (param_step config main b name) = b_form b.
Proof.
  unfold param_step. destruct (name =? main)%string; [|apply set_param_code]. destruct (_ && _); [done|]. unfold checkInCheckout. destruct (ct_Git _); [|apply set_param_code].
  destruct (_ || _); [apply set_param_code|]. apply (set_param_code name _ _ (warn _ b)).
Qed.
Lemma params_code tm changed b : code_of (params tm changed b) = code_of b.
Proof.
  unfold params. destruct (MainPathParam _) as [main kind]. set (b1 := if changed then _ else b).
  assert (E1 : code_of b1 = code_of b) by (unfold b1; by destruct changed). rewrite <- E1. clear E1.
  rewrite <- (proj1 (fail_if_code ((kind =? PathDirectory)%string && fm_UseFiles (b_form b1))
    (om_Name (tm_Meta tm) +:+ " runs a project: its code comes from git (choose Git as the source) — inline files are for single-file tools.") b1)).
  generalize (fail_if ((kind =? PathDirectory)%string && fm_UseFiles (b_form b1)) (om_Name (tm_Meta tm) +:+ " runs a project: its code comes from git (choose Git as the source) — inline files are for single-file tools.") b1) as b2.
  induction (sorted_keys _) as [|k ks IH]; intros b2; [done|]. cbn [foldl]. rewrite IH. apply param_step_code.
Qed.
Lemma pod_code b : code_of (pod b) = code_of b.
Proof. unfold pod. by destruct (kvLines _ _), (kvLines _ _). Qed.
Lemma timing_code now b : code_of (timing now b) = code_of b.
Proof.
  unfold timing. set (b1 := on_spec _ b). assert (E1 : code_of b1 = code_of b) by done. rewrite <- E1. generalize (fm_Timeout (b_form b)) as x. intros x.
  rewrite <- (proj1 (fail_if_code (negb (x =? "")%string && bool_decide ((if (x =? "")%string then None else timeout_of x) = None)) ("Timeout: " +:+ quote x +:+ " is not a duration like 10m or 1h30m.") b1)).
  destruct (fm_Schedule (b_form b) =? "")%string; [done|]. by destruct (NextFires _ _ _).
Qed.

Definition plain_file (file : FileContent) : Prop := fc_ContentFrom file = None ∧ fc_Mode file = None.
Lemma add_files_plain fs acc b : Forall plain_file acc → Forall plain_file (foldl add_file (acc, b) fs).1 ∧ code_of (foldl add_file (acc, b) fs).2 = code_of b ∧ b_form (foldl add_file (acc, b) fs).2 = b_form b.
Proof.
  revert acc b. induction fs as [|f fs IH]; intros acc b Ha; [done|]. cbn [foldl]. unfold add_file at 2 4 6. destruct (_ =? "")%string.
  - destruct (IH acc (fail "Files: every file needs a path." b) Ha) as (? & ? & ?). done.
  - apply IH. apply Forall_app. split; [done|]. by repeat constructor.
Qed.

Lemma fails_code msgs b : code_of (foldl (fun b e => fail e b) b msgs) = code_of b.
Proof. revert b. induction msgs as [|m ms IH]; intros b; [done|]. cbn [foldl]. by rewrite IH. Qed.

Lemma content_code was b : ∃ files, Forall plain_file files ∧ (fm_UseFiles (b_form b) = false → files = []) ∧
  code_of (content was b) = ((code_of b).1, mkContent (if fm_UseGit (b_form b) then Some (git_of (b_form b) was) else None) files [] (data_source <$> fm_TestData (b_form b))).
Proof.
  unfold content. set (f := b_form b). set (b1 := fail_if _ pathRequired b). set (b2 := fail_if _ _ b1).
  assert (E2 : code_of b2 = code_of b ∧ b_form b2 = f) by (unfold b2, b1; rewrite !(proj1 (fail_if_code _ _ _)), !(proj2 (fail_if_code _ _ _)); done). destruct E2 as [E2 F2]. clearbody b2. clear b1.
  assert (Hf : ∃ files b3, (if fm_UseFiles f then foldl add_file ([], b2) (fm_Files f) else ([], b2)) = (files, b3) ∧ Forall plain_file files ∧ (fm_UseFiles f = false → files = []) ∧ code_of b3 = code_of b2 ∧ b_form b3 = b_form b2).
  { destruct (fm_UseFiles f); [|by exists [], b2; split_and!]. destruct (add_files_plain (fm_Files f) [] b2 (Forall_nil_2 _)) as (Hp & Hc & Hb). destruct (foldl add_file ([], b2) (fm_Files f)) as [files b3]. by exists files, b3. }
  destruct Hf as (files & b3 & -> & Hp & Hn & E3 & F3). exists files. split; [done|]. split; [done|].
  set (b4 := fail_if _ _ b3). assert (E4 : code_of b4 = code_of b ∧ b_form b4 = f) by (unfold b4; rewrite (proj1 (fail_if_code _ _ _)), (proj2 (fail_if_code _ _ _)), E3, F3; done). destruct E4 as [E4 F4]. clearbody b4.
  unfold testData. rewrite fails_code. cbn [b_form b_t on_spec on_test]. rewrite F4. rewrite <- E4. done.
Qed.

Lemma container_code b : cc_Command (code_of (container b)).1 = lines (fm_Command (b_form b)) ∧ cc_Args (code_of (container b)).1 = lines (fm_Args (b_form b)) ∧ b_form (container b) = b_form b.
Proof.
  unfold container. destruct (setQuantity _ ResourceCPU "CPU request" _) as [r1 e1]. destruct (setQuantity r1 _ _ _) as [r2 e2].
  destruct (setQuantity _ ResourceCPU "CPU limit" _) as [l1 e3]. destruct (setQuantity l1 _ _ _) as [l2 e4]. split_and!; [done|done|].
  assert (Hc : ∀ e b', b_form (check e b') = b_form b') by (by intros []). cbn [b_form on_spec on_test]. rewrite !Hc, !(proj2 (fail_if_code _ _ _)). done.
Qed.

Lemma template_form tmpl b : b_form (template tmpl b) = b_form b.
Proof. unfold template. cbn [b_form on_spec on_test]. apply fail_if_code. Qed.
Lemma fails_form (f : string → string) msgs b : b_form (foldl (fun b m => fail (f m) b) b msgs) = b_form b.
Proof. revert b. induction msgs as [|m ms IH]; intros b; [done|]. cbn [foldl]. by rewrite IH. Qed.
Lemma named_form b : b_form (named b) = b_form b.
Proof. unfold named. destruct (_ =? "")%string; [|done]. by rewrite !(fails_form (fun m => _ +:+ m)). Qed.

(** What code a form gives the Test, whatever the Test had. *)
Lemma build_code f base tmpl now : ∃ c files, let s' := t_Spec (Build f base tmpl now).1.1 in
  ts_Container s' = c ∧ cc_Command c = lines (fm_Command f) ∧ cc_Args c = lines (fm_Args f) ∧ Forall plain_file files ∧ (fm_UseFiles f = false → files = []) ∧
  ts_Content s' = mkContent (if fm_UseGit f then Some (git_of f (ct_Git (ts_Content (t_Spec base)))) else None) files [] (data_source <$> fm_TestData f).
Proof.
  unfold Build. set (b0 := named _). assert (F0 : b_form b0 = f) by (unfold b0; by rewrite named_form). set (b1 := template tmpl b0). assert (F1 : b_form b1 = f) by (unfold b1; by rewrite template_form).
  destruct (container_code b1) as (Hcmd & Hargs & F2). rewrite F1 in *. destruct (content_code (ct_Git (ts_Content (t_Spec base))) (container b1)) as (files & Hp & Hn & Hc). rewrite F2 in Hc, Hn.
  exists (code_of (container b1)).1, files. set (b3 := content _ _) in *. set (b4 := match tmpl with Some _ => _ | None => _ end).
  assert (E4 : code_of (timing now (pod b4)) = code_of b3) by (rewrite timing_code, pod_code; unfold b4; destruct tmpl; [apply params_code|done]).
  rewrite Hc in E4. injection E4 as E5 E6. cbn [fst]. cbn zeta. split_and!; done.
Qed.

Lemma lines_same ls : lines (join_lines ls) = ls ↔ Forall (fun l => line l = true) ls.
Proof. split; [intros <-; apply lines_are_lines|apply lines_join]. Qed.

(** A path whose directory is the top of the repository. *)
Definition at_top (p : string) : Prop :=
  let p := inner (TrimSpace p) in p = "" ∨ p = "." ∨ (Ext (ApiServer.Base p) ≠ "" ∧ Dir p = ".").

Lemma sparseFor_top p : sparseFor p = [] ↔ at_top p.
Proof.
  unfold sparseFor, at_top. set (q := inner (TrimSpace p)).
  destruct (String.eqb_spec q "") as [E|E]; cbn [orb]; [tauto|]. destruct (String.eqb_spec q ".") as [E'|E']; [tauto|].
  destruct (String.eqb_spec (Ext (ApiServer.Base q)) "") as [Ee|Ee]; cbn [negb]; [split; [discriminate|tauto]|].
  destruct (String.eqb_spec (Dir q) ".") as [Ed|Ed]; [tauto|]. split; [discriminate|tauto].
Qed.

(** C31: what the editor's form does not show of a Test is lost by a save: for every Test
    that opens in the form, when the form as it was opened has no errors, the Test it
    builds has as command and arguments their lines, trimmed and not empty, so they
    are as before exactly when each was such a line (a script of several lines becomes
    several arguments); its files have neither a mode nor a Secret or ConfigMap as
    their source, and a Test with a checkout has no files at all; and a checkout of
    the whole repository becomes one of the main path's directory, which is the whole
    one only when that path is at the top. *)
Theorem form_loses t version generation tmpl now :
  let built := Build (Normalize (FormFromTest t version generation tmpl)) t tmpl now in
  let s := t_Spec t in let s' := t_Spec built.1.1 in
  FormUnsupported t = "" → built.1.2 = [] →
  (cc_Command (ts_Container s') = lines (join_lines (cc_Command (ts_Container s))) ∧
   cc_Args (ts_Container s') = lines (join_lines (cc_Args (ts_Container s)))) ∧
  (cc_Command (ts_Container s') = cc_Command (ts_Container s) ↔ Forall (fun l => line l = true) (cc_Command (ts_Container s))) ∧
  (cc_Args (ts_Container s') = cc_Args (ts_Container s) ↔ Forall (fun l => line l = true) (cc_Args (ts_Container s))) ∧
  Forall plain_file (ct_Files (ts_Content s')) ∧ (is_Some (ct_Git (ts_Content s)) → ct_Files (ts_Content s') = []) ∧
  ∀ g, ct_Git (ts_Content s) = Some g → git_Paths g = [] →
    let main := Trim slash (TrimSpace (git_path s tmpl g)) in
    ∃ g', ct_Git (ts_Content s') = Some g' ∧ git_Paths g' = sparseFor main ∧ (git_Paths g' = [] ↔ at_top main).
Proof.
  intros built s s' _ _. set (F := Normalize (FormFromTest t version generation tmpl)) in *. destruct (build_code F t tmpl now) as (c & files & Hc & Hcmd & Hargs & Hp & Hn & Hct).
  fold built s' in Hc, Hct. rewrite Hc, Hct, Hcmd, Hargs. destruct (form_uses t version generation tmpl) as [Hug Huf]. fold F s in Hug, Huf.
  change (fm_Command F) with (join_lines (cc_Command (ts_Container s))). change (fm_Args F) with (join_lines (cc_Args (ts_Container s))).
  split_and!; [done..|apply lines_same|apply lines_same|done| |].
  - intros Hg. apply Hn. by rewrite Huf, bool_decide_eq_true_2.
  - intros g Eg Hpaths. cbn [ct_Git]. rewrite Hug, bool_decide_eq_true_2 by (by rewrite Eg). eexists. split; [reflexivity|]. rewrite <- sparseFor_top.
    assert (E : git_Paths (git_of F (ct_Git (ts_Content (t_Spec t)))) = sparseFor (Trim slash (TrimSpace (git_path s tmpl g)))); [|by rewrite E].
    unfold git_of. cbn [git_Paths].
    change (fm_GitPaths F) with (match ct_Git (ts_Content (t_Spec t)) with
      Some g => if bool_decide (git_Paths g = sparseFor (default "" (git_path (t_Spec t) tmpl <$> ct_Git (ts_Content (t_Spec t))))) then "" else join_lines (git_Paths g) | None => "" end).
    rewrite (form_git_path t version generation tmpl). fold s. rewrite Eg, Hpaths. change (join_lines []) with "".
    assert (E : ∀ b : bool, (if b then "" else "") = "") by (by intros []). rewrite !E. reflexivity.
Qed.

(** C36: a Test the form can show, opened in the editor and saved as it is, stays as it is,
    and nothing is found wrong with it: the form, from the page or back from it, and
    then the Test built of it give the Test, with its template's parameters, code, test
    data, environment, resources, pod, timeout and schedule. *)
Theorem form_roundtrip t version generation tmpl now : shown t tmpl now →
  FormUnsupported t = "" → ∃ warns, Build (Normalize (FormFromTest t version generation tmpl)) t tmpl now = (t, [], warns).
Proof. intros Hs _. by apply build_shown. Qed.
End Losses.

(** ** A Test the form can show, and one it cannot *)

Lemma kv_ok_check m : bool_decide (map_Forall (fun k v => key k && value v = true) m) = true → kv_ok m.
Proof. intros Hm%bool_decide_eq_true k v Hv. by apply andb_true_iff, (Hm k v Hv). Qed.

Definition sample_sources : EnvVarSources := {| secret_key_ref v := Cut v "/"; secret_source n k := n +:+ "/" +:+ k |}.
Definition sample_checks : EditorChecks := {| IsDNS1123Subdomain _ := []; IsDNS1123Label _ := []; ParseQuantity q := Some q |}.
Definition script (d : string) : ConfigParameter := mkParameter "string" d [] "" "The k6 script." "file".
Definition vus : ConfigParameter := mkParameter "integer" "10" [] "" "" "".
Definition sample_template : TestTemplate :=
  mkTemplate (mkMeta "k6" "team-a" "" {[Views.LabelTool := "k6"]} ∅ zero_time None [] [])
    (mkTemplateSpec (mkContent None [] [] []) zeroContainer None {["script" := script ""; "vus" := vus]} None None None ∅ None None None None).
(** A k6 test of a repository, with this checkout and these arguments. *)
Definition sample_test (paths args : list string) : Test :=
  mkTest (mkMeta "checkout" "team-a" "" {[Views.LabelTool := "k6"; Views.LabelManagedBy := "ui"]} ∅ zero_time None [] [])
    (mkTestSpec (mkContent (Some (mkGit "https://git.example.com/shop.git" "main" paths "" "" None (Some "git-token/token") None)) [] []
                  [mkTestData "users" "" "" [mkTestDataItem "users.csv" "/data/users.csv"]])
       (mkContainer "" "" "" [] args [mkEnvVar "BASE_URL" "https://shop" None; mkEnvVar "PASSWORD" "" (Some "secretKeyRef")] [] {["cpu" := "500m"]} ∅ None [])
       ["k6"] (Some (mkPodConfig {["team" := "a"]} ∅ "runner" None None None None None None)) {["script" := script "perf/checkout.js"]} None (Some (10 * minute)%Z) None "" ∅ None "" None
       None None []) None.
Definition sample_cron : Scheduler.Cron := Scheduler.Build_Cron unit (fun _ => None) (fun _ t => t).

Lemma form_roundtrip_witness :
  let floats : FloatSyntax := fun _ => false in
  let regexps : Regexp := fun _ _ => Ok true in
  let errors : CronErrors := fun e => e in
  let t := sample_test ["perf"] ["run"; "--out json"] in
  ∃ warns, @Build sample_sources sample_checks floats regexps sample_cron errors
    (Normalize (@FormFromTest sample_sources t "7" 2 (Some sample_template))) t (Some sample_template) 0 = (t, [], warns).
Proof.
  intros floats regexps errors t. apply form_roundtrip; [|reflexivity]. constructor.
  - discriminate.
  - split; [split; [by exists "k6"|by right]|]. split; [discriminate|reflexivity].
  - constructor; [reflexivity|apply Forall_nil_2|repeat (apply Forall_cons_2; [reflexivity|]); apply Forall_nil_2| |split_and!; vm_compute; try exact I; by split_and!|discriminate].
    exists {["BASE_URL" := "https://shop"]}. split; [apply kv_ok_check; vm_compute; reflexivity|vm_compute; reflexivity].
  - split; [reflexivity|]. split.
    + apply Forall_cons_2; [|apply Forall_nil_2]. constructor; [by left|by left|]. apply Forall_cons_2; [by split_and!|apply Forall_nil_2].
    + split; [reflexivity|]. constructor; [split; [discriminate|vm_compute; reflexivity]|vm_compute; reflexivity|split; [vm_compute; discriminate|vm_compute; reflexivity]|left; vm_compute; reflexivity|].
      exists "git-token", "token". split_and!; [vm_compute; reflexivity..|discriminate|discriminate|vm_compute; reflexivity|vm_compute; reflexivity].
  - constructor.
    + intros name p Hp. change (tms_Config (tm_Spec sample_template)) with ({["script" := script ""; "vus" := vus]} : gmap string ConfigParameter) in Hp.
      apply lookup_insert_Some in Hp as [[<- <-]|[_ Hp]]; [refine (conj _ (conj _ (conj _ (conj _ _)))); vm_compute; try reflexivity; discriminate|]. apply lookup_singleton_Some in Hp as [<- <-]. reflexivity.
    + reflexivity.
    + intros name p -> _ Hown. vm_compute in Hown. discriminate Hown.
    + vm_compute. discriminate.
  - split; [discriminate|]. split; [apply kv_ok_check; vm_compute; reflexivity|]. split; [apply kv_ok_check; vm_compute; reflexivity|reflexivity].
  - split_and!; [vm_compute; reflexivity|vm_compute; reflexivity|vm_compute; discriminate|vm_compute; reflexivity].
  - split; [reflexivity|by left].
Defined.

(** The whole repository is checked out, and one argument is a script of two lines:
    the form has no errors, and both are lost. *)
Lemma form_loses_witness :
  let floats : FloatSyntax := fun _ => false in
  let regexps : Regexp := fun _ _ => Ok true in
  let errors : CronErrors := fun e => e in
  let t := sample_test [] ["setup" +:+ String newline "run"] in
  let t' := (@Build sample_sources sample_checks floats regexps sample_cron errors (Normalize (@FormFromTest sample_sources t "7" 2 (Some sample_template))) t (Some sample_template) 0).1.1 in
  cc_Args (ts_Container (t_Spec t')) = ["setup"; "run"] ∧ ∃ g', ct_Git (ts_Content (t_Spec t')) = Some g' ∧ git_Paths g' = ["perf"].
Proof.
  intros floats regexps errors t t'.
  assert (He : (@Build sample_sources sample_checks floats regexps sample_cron errors (Normalize (@FormFromTest sample_sources t "7" 2 (Some sample_template))) t (Some sample_template) 0).1.2 = []) by (vm_compute; reflexivity).
  destruct (@form_loses sample_sources sample_checks floats regexps sample_cron errors t "7" 2 (Some sample_template) 0%Z eq_refl He) as ((_ & Ha) & _ & _ & _ & _ & Hg).
  split; [exact Ha|]. destruct (Hg _ eq_refl eq_refl) as (g' & Hg' & Hp & _). exists g'. split; [exact Hg'|exact Hp].
Defined.

End EditorSpec.
