(* ===== verification/ControlCenter.v ===== *)
(** * internal/controlcenter/api: the handlers of the UI's API

    api.go, tests.go, runs.go, run.go, cases.go, cleanup.go, overview.go, schedules.go
    and analytics.go: each handler as a program over the clusters' APIs (the methods of
    Client), the clock and the metric of a probe, with the goroutines it starts.  The
    editor's handlers are in EditorApi, the routes in UiRoutes; the YAML of a definition
    is a class. *)
From Stdlib Require Import SpecFloat.
From S2P Require Import Prelude Api GoLib Names Keys Objects Verdicts Sorting Effects Pools Urls Store Triggers ApiRuns ApiServer Routes Client Scheduler Natural Views Comparison Access Editor.

Module ControlCenter.
Import Names Keys Urls Objects Verdicts Store ApiRuns ApiServer Client Natural Views Comparison Access Editor.

(** ** Programs *)

(** What one goroutine does. *)
Inductive TOp : Type → Type :=
| Http {A} (o : HOp A) : TOp A
| Now : TOp time
| OnProbe (cluster : string) (up : bool) : TOp unit.

(** What a handler does: [Go] runs goroutines, so many at a time, and waits for them;
    their results come in the order in which they ended. *)
Inductive COp : Type → Type :=
| Seq {A} (o : TOp A) : COp A
| Go {A} (slots : nat) (threads : list (prog TOp A)) : COp (list (nat * A)).

Abbreviation M := (prog COp).

(** A call of a cluster's API. *)
Definition call {A} : prog HOp A → prog TOp A := translate (fun _ o => Http o).
Definition inline {A} : prog TOp A → M A := translate (fun _ o => Seq o).
Definition api {A} (p : prog HOp A) : M A := inline (call p).
Definition now : M time := perform (Seq Now).

(** The executions: what the goroutines of a handler perform interleaves. *)
Definition performs {R} (o : COp R) : list (event TOp) → R → Prop :=
  match o in COp R return list (event TOp) → R → Prop with
  | Seq o => fun tr r => tr = [Ev o r]
  | Go slots threads => fun tr r =>
      ∃ po tr', Pools.steps slots (Pools.begin threads) tr' po ∧ Pools.complete po ∧ tr = snd <$> tr' ∧ r = Pools.po_finished po
  end.
Fixpoint runs {A} (p : M A) (tr : list (event TOp)) (a : A) : Prop :=
  match p with
  | Ret b => tr = [] ∧ a = b
  | Do o k => ∃ r tr1 tr2, tr = tr1 ++ tr2 ∧ performs o tr1 r ∧ runs (k r) tr2 a
  end.

(** ** Requests and answers *)

Record Me := mkMe { me_Email : string; me_Role : string; me_Run : bool; me_Delete : bool }.
Record ClusterState := mkClusterState { ct_Name : string; ct_DisplayName : string; ct_Reachable : bool; ct_Error : string }.

Record RecentRun := mkRecent { rn_ID : string; rn_Phase : string; rn_DurationMs : Z; rn_FinishedAt : time }.
Record TestStats := mkStats {
  sx_Total : Z; sx_Passed : Z; sx_Failed : Z; sx_Errored : Z; sx_Aborted : Z; sx_PassRatio : option spec_float; sx_P50Ms : Z; sx_P95Ms : Z;
  sx_Recent : list RecentRun }.
Record RunRef := mkRef { rf_Name : string; rf_Phase : string; rf_FinishedAt : option time }.
(** Without [problem]: the conditions of a Test are not on the wire here. *)
Record TestSummary := mkTestSummary {
  sm_Name : string; sm_Namespace : string; sm_Tool : string; sm_Locked : bool; sm_LatestRun : option RunRef; sm_Stats : option TestStats }.
Record TestList := mkTestList { tl_Tests : list TestSummary; tl_Range : string; tl_StatsUnavailable : string }.
Record TestDetail := mkTestDetail {
  dt_Name : string; dt_Namespace : string; dt_Tool : string; dt_Locked : bool; dt_Templates : list string; dt_Params : list Param;
  dt_Schedule : option Schedule; dt_Definition : string }.
Record RunPage := mkPage { pg_Runs : list RunRow; pg_Next : string }.
Record RunRequest := mkRunRequest { rq_Config : strmap; rq_NotBefore : option time }.
Record StartedRun := mkStarted { sr_Name : string; sr_Namespace : string; sr_NotBefore : option time }.
Record RecurringSchedule := mkRecurring {
  rg_Name : string; rg_Namespace : string; rg_Tool : string; rg_Locked : bool; rg_Schedule : Schedule; rg_LatestRun : option RunRef }.
Record ScheduledRun := mkScheduled {
  sc_ID : string; sc_Name : string; sc_Namespace : string; sc_TestRef : string; sc_NotBefore : time; sc_CreatedBy : string }.
Record ScheduleList := mkScheduleList { sl_Recurring : list RecurringSchedule; sl_OneTime : list ScheduledRun; sl_OneTimeError : string }.
Record CleanupPreview := mkPreview {
  cp_Mode : string; cp_Days : Z; cp_From : string; cp_To : string; cp_Note : string; cp_Matches : list RunRow; cp_More : Z; cp_Scanned : Z;
  cp_ScanCapped : bool; cp_Max : Z }.
Record CleanupResult := mkCleaned { cr_Deleted : Z; cr_Requested : Z; cr_Failures : list string }.

Record CaseStat := mkCaseStat { cx_Stats : CaseStats; cx_Flaky : bool }.
Record CaseList := mkCaseList { ck_Window : Z; ck_Cases : list CaseStat; ck_Flaky : Z; ck_FailingNow : Z; ck_Unavailable : string }.
Record CaseHistory := mkCaseHistory { ch_Key : string; ch_Runs : list CaseRun; ch_Passed : Z; ch_Failed : Z; ch_Skipped : Z; ch_Unavailable : string }.
Record RunCaseDiff := mkRunDiff {
  rd_Run : RunRow; rd_TestRef : string; rd_Candidates : list RunRow; rd_Base : option RunRow; rd_CasesError : string; rd_RunCases : Z; rd_BaseCases : Z;
  rd_Diffs : CaseDiffs }.
Record CasesSummary := mkCasesSummary { cs_Flaky : Z; cs_FailingNow : Z; cs_Error : string }.
Record Analytics := mkAnalytics { an_Window : Z; an_Runs : list RunRow; an_Summary : Summary; an_Trends : list Trend; an_Cases : option CasesSummary }.

Record StepView := mkStepView {
  sv_Key : string; sv_Kind : string; sv_Phase : string; sv_StartedAt : option time; sv_FinishedAt : option time; sv_Message : string;
  sv_Stages : list StoreStage; sv_Params : strmap; sv_LiveView : string; sv_Report : string }.
Record ChildRun := mkChild { cd_ID : string; cd_Name : string; cd_TestRef : string; cd_Phase : string; cd_StartedAt : option time; cd_DurationMs : Z }.
Record GitInfo := mkGitInfo { gi_Repository : string; gi_Revision : string; gi_Commit : Commit }.
Record RunDetail := mkDetail {
  rd_ID : string; rd_Name : string; rd_Namespace : string; rd_Test : string; rd_Phase : string; rd_Finished : bool; rd_Tool : string; rd_Message : string;
  rd_Archived : bool; rd_ParentRun : string; rd_Source : string; rd_CreatedBy : string; rd_NotBefore : option time; rd_QueuedAt : option time;
  rd_StartedAt : option time; rd_FinishedAt : option time; rd_DurationMs : Z; rd_Git : option GitInfo; rd_TestCounts : option TestCounts;
  rd_Abort : option AbortRequest; rd_Config : strmap; rd_Metrics : list (string * spec_float); rd_Steps : list StepView; rd_Stages : list StoreStage;
  rd_Children : list ChildRun; rd_Report : string; rd_LiveView : string; rd_Comment : option Comment; rd_Artifacts : list ArtifactEntry;
  rd_ArtifactsError : string; rd_Media : list Media; rd_MoreMedia : Z; rd_Events : list RunEvent; rd_EventsError : string;
  rd_FailedCases : list CaseRow }.

(** The editor's (editor_api.go). *)
Record ToolTemplate := mkToolTemplate {
  tl_Name : string; tl_Tool : string; tl_Image : string; tl_Command : string; tl_Args : string; tl_Params : list Param; tl_MainParam : string; tl_MainKind : string }.
Record TemplateList := mkTemplateList { tp_Templates : list ToolTemplate; tp_Error : string }.
Record TestFormOf := mkFormOf { fo_Form : TestForm; fo_YAMLOnly : string; fo_Locked : bool }.
Record Preview := mkEditPreview { pv_YAML : string; pv_Errors : list string; pv_Warnings : list string }.
Record SavedTest := mkSaved { sd_Namespace : string; sd_Name : string; sd_DryRun : bool; sd_YAML : string }.
Record FormError := mkFormError { fe_Error : string; fe_Errors : list string }.

Inductive CBody :=
| BError (message : string) | BMe (m : Me) | BClusters (cs : list ClusterState) | BTests (l : TestList) | BTest (t : TestDetail)
| BRunPage (p : RunPage) | BStarted (r : StartedRun) | BSchedules (l : ScheduleList) | BSchedule (s : option Schedule) | BPreview (p : CleanupPreview)
| BCleaned (r : CleanupResult) | BCases (l : CaseList) | BCaseHistory (h : CaseHistory) | BDiff (d : RunCaseDiff) | BOverview (o : TestOverview)
| BAnalytics (a : Analytics) | BComparison (c : Comparison) | BRun (r : RunDetail) | BComment (c : Comment) | BNamespaces (ns : list string)
| BTemplates (l : TemplateList) | BForm (f : TestFormOf) | BEdit (p : Preview) | BSaved (t : SavedTest) | BFormError (e : FormError).

(** [LogText]: the run's phase, the next offset, whether there is more right away. *)
Inductive CReply := Json (status : Z) (b : CBody) | NoContent | LogText (phase : string) (next : Z) (more : bool) (text : string).

Definition writeJSON (status : Z) (b : CBody) : CReply := Json status b.
Definition writeError (status : Z) (msg : string) : CReply := Json status (BError msg).

Record Req := mkReq { q_Values : list (string * string); q_Query : Values; q_Body : string; q_User : User }.
Definition path_value (r : Req) (name : string) : string := Routes.PathValue (q_Values r) name.
Definition query (r : Req) (key : string) : string := Urls.Get (q_Query r) key.

Record Server := mkServer {
  s_Clusters : list Cluster;
  s_LiveURL : option (string → string → string → string → string → prog TOp string) }.

(** encoding/json of what the client sends and reads, and the strict reading of the bodies of requests. *)
Class Wire := {
  w_error :: JSON (string * string); w_tests :: JSON (list Test); w_test :: JSON Test; w_versioned :: JSON VersionedTest; w_templates :: JSON (list TestTemplate); w_patch :: JSON Triggers.json; w_resolved :: JSON ResolvedTest;
  w_run :: JSON ApiRuns.Run; w_runs :: JSON (list ApiRuns.Run); w_testrun :: JSON TestRun; w_newrun :: JSON (string * TestRun); w_abort :: JSON AbortOptions;
  w_comment_options :: JSON CommentOptions; w_comment :: JSON Comment; w_caserows :: JSON (list CaseRow);
  w_stats :: JSON (list (ApiServer.TestStats * option spec_float)); w_casestats :: JSON (list (CaseStats * bool)); w_caseruns :: JSON (list CaseRun);
  w_artifacts :: JSON (list ArtifactEntry); w_events :: JSON (list RunEvent) }.
Class Bodies := {
  decode_RunRequest : string → result string RunRequest;
  decode_text : string → string → result string string;
  decode_CleanupRequest : string → result string (list string);
  decode_TestForm : string → result string TestForm }.
(** pkg yamlview of a spec. *)
Class Yamlview := Format : TestSpec → result string string.

Section Handlers.
Context `{Wire, Bodies, Yamlview, Scheduler.Cron, CronErrors, URIs, MapOrder, ShortestDecimals}.
Context (s : Server) (r : Req).

(** ** Plumbing (tests.go) *)

Definition maxBody : nat := Z.to_nat 65536.

Definition messageOf (e : client_error) : string := match e with APIError _ _ message => message | OtherError text => text end.

Definition apiError (c : Cluster) (e : client_error) : CReply :=
  match e with
  | APIError status _ message =>
      if (400 <=? status)%Z && (status <? 500)%Z then writeError status message
      else writeError 502 ("The kubetest API of " +:+ DisplayNameOrName (cl_Config c) +:+ " answered: " +:+ message)
  | OtherError _ => writeError 502 ("Cannot reach the kubetest API of " +:+ DisplayNameOrName (cl_Config c) +:+ ".")
  end.

(** [clusterOf], and the rest of the handler. *)
Definition with_cluster (k : Cluster → Client → M CReply) : M CReply :=
  match Access.Get (s_Clusters s) (path_value r "cluster") with
  | None => Ret (writeError 404 ("No cluster named " +:+ quote (path_value r "cluster") +:+ " is configured."))
  | Some c => k c (AsUser (cl_API c) (us_Email (q_User r)))
  end.

Definition with_body {A} (decode : string → result string A) (k : A → M CReply) : M CReply :=
  match decode (str_take maxBody (q_Body r)) with
  | Err e => Ret (writeError 400 ("Could not read the request: " +:+ e))
  | Ok v => k v
  end.

(** A call whose failure ends the handler. *)
Definition try_ {A} (c : Cluster) (p : prog HOp (result client_error A)) (k : A → M CReply) : M CReply :=
  x ← api p;
  match x with Err e => Ret (apiError c e) | Ok a => k a end.
Definition try_done (c : Cluster) (p : prog HOp (option client_error)) : M CReply :=
  x ← api p;
  Ret (match x with Some e => apiError c e | None => NoContent end).

Definition ns : string := path_value r "ns".
Definition name : string := path_value r "name".
Definition id : string := path_value r "id".

(** ** The signed-in user and the clusters (api.go) *)

Definition me : M CReply :=
  let u := q_User r in Ret (writeJSON 200 (BMe (mkMe (us_Email u) (Role_String (us_Role u)) (Can u RoleDeveloper) (Can u RoleAdmin)))).

(** One probe; the metric hears its outcome. *)
Definition probe (c : Cluster) : prog TOp ClusterState :=
  e ← call (Client.Healthz (cl_API c));
  let reachable := match e with None => true | Some _ => false end in
  _ ← perform (OnProbe (cf_Name (cl_Config c)) reachable);
  Ret (mkClusterState (cf_Name (cl_Config c)) (DisplayNameOrName (cl_Config c)) reachable (match e with Some e => Client.Error e | None => "" end)).

(** The results of the threads, in the order of the threads. *)
Definition in_thread_order {A} (results : list (nat * A)) : list A := snd <$> sort_by (fun a b => (a.1 <? b.1)%nat) results.

Definition clusters : M CReply :=
  let threads := probe <$> s_Clusters s in
  out ← perform (Go (length threads) threads);
  Ret (writeJSON 200 (BClusters (in_thread_order out))).

(** ** Tests (tests.go) *)

Definition RecentRuns : Z := 10.

Definition recent_of (rr : ApiServer.RecentRun) : RecentRun := mkRecent (rc_run_Name rr) (rc_run_Phase rr) (rc_run_DurationMs rr) (rc_run_FinishedAt rr).
Definition statsOut (st : ApiServer.TestStats * option spec_float) : TestStats :=
  let '(st, ratio) := st in
  mkStats (tt_Total st) (tt_Passed st) (tt_Failed st) (tt_Errored st) (tt_Aborted st) ratio (tt_P50Ms st) (tt_P95Ms st) (recent_of <$> reverse (tt_Recent st)).

Definition latest_of (lr : option RunReference) : option RunRef := (fun lr => mkRef (rr_Name lr) (phase_string (rr_Phase lr)) (rr_FinishedAt lr)) <$> lr.

Definition test_summary (byTest : gmap string TestStats) (t : Test) : TestSummary :=
  let m := t_Meta t in
  mkTestSummary (om_Name m) (om_Namespace m) (value_of (om_Labels m) LabelTool) (Locked (om_Labels m)) (latest_of (t_LatestRun t))
    (byTest !! (om_Namespace m +:+ "/" +:+ om_Name m)).

(** strings.Compare of the namespaces, then of the names. *)
Definition by_namespace_name (nsname : TestSummary → string * string) (a b : TestSummary) : bool :=
  String.ltb (nsname a).1 (nsname b).1 || ((nsname a).1 =? (nsname b).1)%string && String.ltb (nsname a).2 (nsname b).2.

(** Why there are no statistics. *)
Definition stats_unavailable (e : client_error) : string := if IsUnavailable e then messageOf e else "run statistics failed: " +:+ messageOf e.

Definition test_list (rangeName : string) (tests : list Test) (stats : result client_error (list (ApiServer.TestStats * option spec_float))) : TestList :=
  let byTest := match stats with
                | Ok stats => foldl (fun m st => <[tt_Namespace st.1 +:+ "/" +:+ tt_TestRef st.1 := statsOut st]> m) ∅ stats
                | Err _ => ∅
                end in
  mkTestList (sort_by (by_namespace_name (fun t => (sm_Namespace t, sm_Name t))) (test_summary byTest <$> tests)) rangeName
    (match stats with Err e => stats_unavailable e | Ok _ => "" end).

(** The statistics are read alongside the Tests. *)
Definition listTests : M CReply :=
  with_cluster (fun c client =>
    let rangeName := range_name (query r "range") in
    out ← perform (Go 2 [(stats ← call (Client.TestStats client "" rangeName RecentRuns); Ret (inl stats)); (tests ← call (Client.ListTests client ""); Ret (inr tests))]);
    match in_thread_order out with
    | [inl stats; inr (Ok tests)] => Ret (writeJSON 200 (BTests (test_list rangeName tests stats)))
    | [inl _; inr (Err e)] => Ret (apiError c e)
    | _ => Ret (writeError 500 "")
    end).

Definition getTest : M CReply :=
  with_cluster (fun c client =>
    try_ c (Client.GetResolvedTest client ns name) (fun t =>
      t0 ← now;
      Ret (writeJSON 200 (BTest (mkTestDetail (rt_Name t) (rt_Namespace t) (rt_Tool t) (rt_Locked t) (rt_Templates t) (ParamsOf (rt_Spec t))
        (ScheduleOf (ts_Schedule (rt_Spec t)) t0)
        (match Format (rt_Spec t) with Ok y => y | Err e => "# cannot show the definition: " +:+ e end)))))).

Definition deleteTest : M CReply := with_cluster (fun c client => try_done c (Client.DeleteTest client ns name)).

Definition setSchedule : M CReply :=
  with_cluster (fun c client => with_body (decode_text "schedule") (fun schedule =>
    let expr := str_join " " (fields schedule) in
    let save :=
      x ← api (Client.SetTestSchedule client ns name expr);
      match x with
      | Err e => Ret (if Client.IsConflict e then writeError 409 "This Test is managed in Git: change spec.schedule there." else apiError c e)
      | Ok _ => t ← now; Ret (writeJSON 200 (BSchedule (ScheduleOf expr t)))
      end in
    if negb (expr =? "")%string then
      t ← now;
      match NextFires expr t 1 with
      | Err e => Ret (writeError 400 ("Not a valid cron expression: " +:+ e))
      | Ok _ => save
      end
    else save)).

(** ** Starting runs (runs.go, run.go) *)

Definition RunsPerPage : Z := 25.

Definition listTestRuns : M CReply :=
  with_cluster (fun c client =>
    try_ c (Client.ListRuns client (mkListRuns ns name (query r "phase") "" "" RunsPerPage (query r "after") None)) (fun page =>
      Ret (writeJSON 200 (BRunPage (mkPage (runRow <$> rp_Runs page) (rp_NextCursor page)))))).

(** The parameters that differ from their defaults; the error names a required one without a value. *)
Definition add_override (config : strmap) (acc : result string strmap) (p : Param) : result string strmap :=
  overrides ← acc;
  let v := TrimSpace (value_of config (pr_Name p)) in
  if (v =? "")%string && pr_Required p then Err ("Parameter " +:+ pr_Name p +:+ " is required.")
  else Ok (if negb (v =? "")%string && negb (v =? pr_Default p)%string then <[pr_Name p := v]> overrides else overrides).
Definition overrides_of (params : list Param) (config : strmap) : result string strmap :=
  overrides ← foldl (add_override config) (Ok ∅) params;
  match find_first (fun kv => negb (existsb (fun p => pr_Name p =? kv.1)%string params)) (range config) with
  | Some (k, _) => Err ("The Test has no parameter " +:+ k +:+ ".")
  | None => Ok overrides
  end.

(** A TestRun of the Test with these parameters. *)
Definition new_run (test : string) (config : strmap) (notBefore : option time) : TestRun :=
  mkTestRun (mkMeta "" "" "" ∅ ∅ zero_time None [] []) (mkRunSpec test config None ∅ "" None notBefore) zeroStatus.

Definition startRun : M CReply :=
  with_cluster (fun c client => with_body decode_RunRequest (fun in_ =>
    try_ c (Client.GetResolvedTest client ns name) (fun t =>
      match overrides_of (ParamsOf (rt_Spec t)) (rq_Config in_) with
      | Err e => Ret (writeError 400 e)
      | Ok overrides =>
          try_ c (Client.CreateRun client ns (GeneratePrefix name) (new_run name overrides (rq_NotBefore in_))) (fun created =>
            Ret (writeJSON 201 (BStarted (mkStarted (run_name created) ns (rq_NotBefore in_)))))
      end))).

(** The parameters an earlier run used, those that still differ from the defaults. *)
Definition add_again (config : strmap) (acc : result string strmap) (p : Param) : result string strmap :=
  overrides ← acc;
  match config !! pr_Name p with
  | Some v => Ok (if negb (v =? pr_Default p)%string then <[pr_Name p := v]> overrides else overrides)
  | None => if pr_Required p then Err ("The Test now requires parameter " +:+ pr_Name p +:+ " — start it from the Test page.") else Ok overrides
  end.

Definition rerun : M CReply :=
  with_cluster (fun c client =>
    try_ c (Client.GetRun client ns id) (fun old =>
      t ← api (Client.GetResolvedTest client ns (e_TestRef old));
      match t with
      | Err e => Ret (if Client.IsNotFound e then writeError 409 ("Test " +:+ e_TestRef old +:+ " no longer exists.") else apiError c e)
      | Ok t =>
          match foldl (add_again (e_Config old)) (Ok ∅) (ParamsOf (rt_Spec t)) with
          | Err e => Ret (writeError 409 e)
          | Ok overrides =>
              try_ c (Client.CreateRun client ns (GeneratePrefix (e_TestRef old)) (new_run (e_TestRef old) overrides None)) (fun created =>
                Ret (writeJSON 201 (BStarted (mkStarted (run_name created) ns None))))
          end
      end)).

(** ** Changing runs (run.go) *)

Definition abortRun : M CReply :=
  with_cluster (fun c client => with_body (decode_text "message") (fun message =>
    try_ c (Client.AbortRun client ns id (TrimSpace message)) (fun _ => Ret NoContent))).

Definition setComment : M CReply :=
  with_cluster (fun c client => with_body (decode_text "text") (fun text =>
    let text := TrimSpace text in
    if (text =? "")%string then Ret (writeError 400 "The comment is empty; delete it instead.")
    else try_ c (Client.SetComment client ns id text) (fun cm => Ret (writeJSON 200 (BComment cm))))).

Definition deleteComment : M CReply := with_cluster (fun c client => try_done c (Client.DeleteComment client ns id)).
Definition deleteRun : M CReply := with_cluster (fun c client => try_done c (Client.DeleteRun client ns id)).

(** ** Schedules (schedules.go) *)

Definition maxQueuedListed : Z := 200.

Definition recurring_of (t0 : time) (t : Test) : option RecurringSchedule :=
  let m := t_Meta t in
  sched ← ScheduleOf (ts_Schedule (t_Spec t)) t0;
  Some (mkRecurring (om_Name m) (om_Namespace m) (value_of (om_Labels m) LabelTool) (Locked (om_Labels m)) sched (latest_of (t_LatestRun t))).
Definition by_first_fire (a b : RecurringSchedule) : bool :=
  let fa := firstFire (rg_Schedule a) in let fb := firstFire (rg_Schedule b) in
  (fa <? fb)%Z || (fa =? fb)%Z && (String.ltb (rg_Namespace a) (rg_Namespace b) ||
    (rg_Namespace a =? rg_Namespace b)%string && String.ltb (rg_Name a) (rg_Name b)).
Definition scheduled_of (run : ApiRuns.Run) : ScheduledRun :=
  mkScheduled (RunID run) (e_Name run) (e_Namespace run) (e_TestRef run) (default zero_time (e_NotBefore run)) (value_of (e_Tags run) TagCreatedBy).

Definition listSchedules : M CReply :=
  with_cluster (fun c client =>
    try_ c (Client.ListTests client "") (fun tests =>
      t0 ← now;
      let recurring := sort_by by_first_fire (omap (recurring_of t0) tests) in
      page ← api (Client.ListRuns client (mkListRuns "" "" phaseQueued "" "" maxQueuedListed "" None));
      Ret (writeJSON 200 (BSchedules (match page with
        | Err e => mkScheduleList recurring [] (messageOf e)
        | Ok page => mkScheduleList recurring (scheduled_of <$> scheduledRuns (rp_Runs page) t0) ""
        end))))).

(** ** Test cases (cases.go) *)

Definition count_flaky (stats : list (CaseStats * bool)) : Z := Z.of_nat (countb (fun st => st.2) stats).
Definition count_failing (stats : list (CaseStats * bool)) : Z := Z.of_nat (countb (fun st => failing (cz_LastStatus st.1)) stats).

Definition listCases : M CReply :=
  with_cluster (fun c client =>
    let n := window (query r "runs") in
    stats ← api (Client.TestCaseStats client ns name n);
    Ret (match stats with
         | Err e => if IsUnavailable e then writeJSON 200 (BCases (mkCaseList n [] 0 0 (messageOf e))) else apiError c e
         | Ok stats => writeJSON 200 (BCases (mkCaseList n ((fun st => mkCaseStat st.1 st.2) <$> stats) (count_flaky stats) (count_failing stats) ""))
         end)).

Definition caseHistoryRuns : Z := 100.

Definition caseHistory : M CReply :=
  with_cluster (fun c client =>
    let key := query r "case" in
    if (key =? "")%string then Ret (writeError 400 "Which test case? (?case= is missing)")
    else
      hist ← api (Client.TestCaseHistory client ns name key caseHistoryRuns);
      Ret (match hist with
           | Err e => if IsUnavailable e then writeJSON 200 (BCaseHistory (mkCaseHistory key [] 0 0 0 (messageOf e))) else apiError c e
           | Ok hist =>
               let count f := Z.of_nat (countb f hist) in
               writeJSON 200 (BCaseHistory (mkCaseHistory key hist
                 (count (fun run => cu_Status run =? CasePassed)%string)
                 (count (fun run => negb (cu_Status run =? CasePassed)%string && negb (cu_Status run =? CaseSkipped)%string))
                 (count (fun run => cu_Status run =? CaseSkipped)%string) ""))
           end)).

Definition compareCandidates : Z := 30.

Definition candidates_of (run : ApiRuns.Run) (recent : result client_error Client.RunPage) : list RunRow :=
  match recent with
  | Err _ => []
  | Ok page => runRow <$> List.filter (fun cand => negb (e_UID cand =? e_UID run)%string && Finished (e_Phase cand)) (rp_Runs page)
  end.

Definition compareRun : M CReply :=
  with_cluster (fun c client =>
    try_ c (Client.GetRun client ns id) (fun run =>
      recent ← api (Client.ListRuns client (mkListRuns ns (e_TestRef run) "" "" "" compareCandidates "" None));
      let out base err n m d := mkRunDiff (runRow run) (e_TestRef run) (candidates_of run recent) base err n m d in
      let with_ := query r "with" in
      if (with_ =? "")%string then Ret (writeJSON 200 (BDiff (out None "" 0%Z 0%Z no_diffs)))
      else try_ c (Client.GetRun client ns with_) (fun base =>
        nowCases ← api (Client.RunTestCases client ns id false);
        baseCases ← api (Client.RunTestCases client ns with_ false);
        Ret (writeJSON 200 (BDiff (match nowCases, baseCases with
          | Err e, _ => out (Some (runRow base)) (messageOf e) 0%Z 0%Z no_diffs
          | _, Err e => out (Some (runRow base)) (messageOf e) 0%Z 0%Z no_diffs
          | Ok nowCases, Ok baseCases =>
              out (Some (runRow base)) "" (Z.of_nat (length nowCases)) (Z.of_nat (length baseCases)) (diffCases nowCases baseCases)
          end)))))).

(** ** Cleanup (cleanup.go) *)

(** The loop over the pages: [pages] are left; the matches are newest first. *)
Fixpoint find_pages (client : Client) (ns test : string) (crit : cleanupCriteria) (pages : nat) (after : string) (found : list ApiRuns.Run) (scanned : Z) :
    M (result client_error (list ApiRuns.Run * Z * bool)) :=
  match pages with
  | O => Ret (Ok (found, scanned, true))
  | S pages =>
      res ← api (Client.ListRuns client (mkListRuns ns test "" "" "" cleanupPageSize after None));
      match res with
      | Err e => Ret (Err e)
      | Ok res =>
          let found := found ++ List.filter (matches crit) (rp_Runs res) in
          let scanned := (scanned + Z.of_nat (length (rp_Runs res)))%Z in
          if (rp_NextCursor res =? "")%string || existsb (older_than_from crit) (rp_Runs res) then Ret (Ok (found, scanned, false))
          else find_pages client ns test crit pages (rp_NextCursor res) found scanned
      end
  end.

Definition findCleanup (client : Client) (ns test : string) (crit : cleanupCriteria) : M (result client_error (list ApiRuns.Run * Z * bool)) :=
  res ← find_pages client ns test crit cleanupScanPages "" [] 0;
  Ret (match res with Ok (found, scanned, capped) => Ok (reverse found, scanned, capped) | Err e => Err e end).

Definition preview_of (crit : cleanupCriteria) (note : string) (found : list ApiRuns.Run) (scanned : Z) (capped : bool) : CleanupPreview :=
  let older := (cc_Mode crit =? modeOlder)%string in
  mkPreview (cc_Mode crit) (if older then cc_Days crit else 0%Z) (if older then "" else cc_RawFrom crit) (if older then "" else cc_RawTo crit) note
    (runRow <$> take MaxCleanup found) (Z.of_nat (length found - MaxCleanup)) scanned capped (Z.of_nat MaxCleanup).

Definition previewCleanup : M CReply :=
  with_cluster (fun c client =>
    t ← now;
    match parseCleanup (query r) t with
    | Err e => Ret (writeError 400 e)
    | Ok (crit, note) =>
        res ← findCleanup client ns name crit;
        Ret (match res with
             | Err e => apiError c e
             | Ok (found, scanned, capped) => writeJSON 200 (BPreview (preview_of crit note found scanned capped))
             end)
    end).

Definition errNotThisTest : client_error := OtherError "not a finished run of this Test".

Definition deleteFinishedRun (client : Client) (ns test id : string) : prog HOp (option client_error) :=
  run ← Client.GetRun client ns id;
  match run with
  | Err e => Ret (Some e)
  | Ok run =>
      if negb (e_TestRef run =? test)%string || negb (Finished (e_Phase run)) then Ret (Some errNotThisTest)
      else Client.DeleteRun client ns (RunID run)
  end.

(** What the goroutines left, in the order in which they ended. *)
Definition failure_of (ids : list string) (result : nat * option client_error) : option string :=
  match result with (i, Some e) => Some (default "" (ids !! i) +:+ ": " +:+ messageOf e) | (_, None) => None end.
Definition cleanup_result (ids : list string) (results : list (nat * option client_error)) : CleanupResult :=
  mkCleaned (Z.of_nat (countb (fun res => match res.2 with None => true | Some _ => false end) results)) (Z.of_nat (length ids))
    (str_sort (omap (failure_of ids) results)).

Definition cleanup : M CReply :=
  with_cluster (fun c client => with_body decode_CleanupRequest (fun names =>
    let ids := distinct_names names in
    if (length ids =? 0)%nat then Ret (writeError 400 "No runs selected — nothing deleted.")
    else if (MaxCleanup <? length ids)%nat then Ret (writeError 400 ("At most " +:+ itoa (Z.of_nat MaxCleanup) +:+ " runs per cleanup — nothing deleted."))
    else
      results ← perform (Go cleanupParallel ((fun id => call (deleteFinishedRun client ns name id)) <$> ids));
      Ret (writeJSON 200 (BCleaned (cleanup_result ids results))))).

(** ** Overview and analytics (overview.go, analytics.go) *)

Definition with_capped (capped : bool) (o : TestOverview) : TestOverview :=
  mkOverview (ow_Range o) (ow_Since o) (ow_Summary o) (ow_P50Ms o) (ow_Buckets o) capped.

Definition overview : M CReply :=
  with_cluster (fun c client =>
    let rangeName := range_name (query r "range") in
    t ← now;
    try_ c (Client.ListRuns client (mkListRuns ns name "" "" "" OverviewLimit "" (Some (t - rg_Span (range_of rangeName))%Z))) (fun page =>
      Ret (writeJSON 200 (BOverview (with_capped (negb (rp_NextCursor page =? "")%string) (overviewOf rangeName (rp_Runs page) t)))))).

Definition analytics : M CReply :=
  with_cluster (fun c client =>
    let n := window (query r "runs") in
    try_ c (Client.ListRuns client (mkListRuns ns name "" "" "" n "" None)) (fun page =>
      let finished := List.filter (fun run => Finished (e_Phase run)) (rp_Runs page) in
      let oldestFirst := reverse finished in
      let out cases := writeJSON 200 (BAnalytics (mkAnalytics n (runRow <$> finished) (summarize oldestFirst) (trends oldestFirst) cases)) in
      if existsb (fun run => bool_decide (is_Some (e_TestCounts run))) finished then
        stats ← api (Client.TestCaseStats client ns name n);
        Ret (out (Some (match stats with
                        | Err e => mkCasesSummary 0 0 (messageOf e)
                        | Ok stats => mkCasesSummary (count_flaky stats) (count_failing stats) ""
                        end)))
      else Ret (out None))).

(** The runs by name, in the order asked for; those that are not the Test's are missing. *)
Fixpoint compared_runs (client : Client) (ns test : string) (names : list string) : M (result client_error (list ApiRuns.Run * list string)) :=
  match names with
  | [] => Ret (Ok ([], []))
  | n :: names =>
      run ← api (Client.GetRun client ns n);
      match run with
      | Err e => if Client.IsNotFound e then rest ← compared_runs client ns test names; Ret ('(runs, missing) ← rest; Ok (runs, n :: missing)) else Ret (Err e)
      | Ok run =>
          rest ← compared_runs client ns test names;
          Ret ('(runs, missing) ← rest; Ok (if (e_TestRef run =? test)%string then (run :: runs, missing) else (runs, n :: missing)))
      end
  end.

Definition buildComparison (client : Client) (ns test : string) (names : list string) : M (result client_error Comparison) :=
  res ← compared_runs client ns test names;
  Ret ('(runs, missing) ← res; Ok (fillComparison missing (sort_by (fun a b => (runTime a <? runTime b)%Z) runs))).

Definition compareRuns : M CReply :=
  with_cluster (fun c client =>
    let names := selectedRuns (default [] (q_Query r !! "run")) in
    if (length names =? 0)%nat then Ret (writeError 400 "Pick the runs to compare (?run= is missing).")
    else
      out ← buildComparison client ns name names;
      match out with
      | Err e => Ret (apiError c e)
      | Ok out =>
          t ← now;
          Ret (writeJSON 200 (BComparison (with_Markdown (comparisonMarkdown (DisplayNameOrName (cl_Config c)) ns name out t) out)))
      end).

(** ** A run's page (run.go) *)

Definition MaxChildren : Z := 200.
Definition MaxLogChunk : nat := Z.to_nat 1048576.

Definition stepKind (key : string) : string :=
  if HasPrefix key "attempt-" then "Try" else if HasPrefix key "worker-" then "Worker" else "Step".

(** A composite run's status has per-step aggregates s0, s1, … *)
Definition composite_key (k : string) : bool :=
  match k with String c (String d rest) => Ascii.eqb c "s" && all_bytes is_digit (String d rest) | _ => false end.
Definition isComposite (steps : gmap string ApiStep) : bool := existsb composite_key (sorted_keys steps).

Definition stagesOut (stages : list StoreStage) : list StoreStage :=
  (fun st => mkStoreStage (ss_Kind st) (ss_Name st) (or_default (ss_Phase st) "queued") (ss_StartedAt st) (ss_FinishedAt st) (ss_Message st)) <$> stages.

Definition step_view (steps : gmap string ApiStep) (k : string) : StepView :=
  let st := default (mkApiStep "" None None "" [] ∅ "") (steps !! k) in
  mkStepView k (stepKind k) (as_Phase st) (as_StartedAt st) (as_FinishedAt st) (as_Message st) (stagesOut (as_Stages st)) (as_Params st) "" (as_Report st).
Definition steps_of (steps : gmap string ApiStep) : list StepView := step_view steps <$> sort_natural (fst <$> map_to_list steps).

Definition with_link (url : string) (st : StepView) : StepView :=
  mkStepView (sv_Key st) (sv_Kind st) (sv_Phase st) (sv_StartedAt st) (sv_FinishedAt st) (sv_Message st) (sv_Stages st) (sv_Params st) url (sv_Report st).
Definition is_worker (st : StepView) : bool := (sv_Kind st =? "Worker")%string.

(** The links of the workers that are not finished. *)
Fixpoint link_workers (link : string → prog TOp string) (steps : list StepView) : M (list StepView) :=
  match steps with
  | [] => Ret []
  | st :: steps =>
      st' ← (if is_worker st && negb (Finished (sv_Phase st)) then url ← inline (link (TrimPrefix (sv_Key st) "worker-")); Ret (with_link url st) else Ret st);
      steps ← link_workers link steps;
      Ret (st' :: steps)
  end.

(** The live view of a run that is not finished: its workers', or its own. *)
Definition live_links (c : Cluster) (run : ApiRuns.Run) (steps : list StepView) : M (list StepView * string) :=
  match s_LiveURL s with
  | Some liveURL =>
      if negb (e_LiveView run =? "")%string && negb (Finished (e_Phase run)) then
        let link worker := liveURL (cf_Name (cl_Config c)) ns (RunID run) worker (e_LiveView run) in
        steps ← link_workers link steps;
        if existsb is_worker steps then Ret (steps, "")
        else url ← inline (link ""); Ret (steps, url)
      else Ret (steps, "")
  | None => Ret (steps, "")
  end.

Definition child_of (ch : ApiRuns.Run) : ChildRun := mkChild (RunID ch) (e_Name ch) (e_TestRef ch) (e_Phase ch) (e_StartedAt ch) (e_DurationMs ch).
Definition git_info (g : option GitCheckout) : option GitInfo :=
  match g with
  | Some g => if negb (gc_Commit g =? "")%string then Some (mkGitInfo (gc_URI g) (gc_Revision g) (mkCommit (gc_Commit g) (CommitURL (gc_URI g) (gc_Commit g)))) else None
  | None => None
  end.

Definition children_of (client : Client) (run : ApiRuns.Run) : M (list ChildRun) :=
  if isComposite (e_Steps run) then
    page ← api (Client.ListRuns client (mkListRuns ns "" "" "" (e_Name run) MaxChildren "" None));
    Ret (match page with
         | Ok page => sort_by (fun a b => natural_lt (cd_Name a) (cd_Name b)) (child_of <$> rp_Runs page)
         | Err _ => []
         end)
  else Ret [].

(** Best effort: without run history there are only the counts. *)
Definition failed_cases (client : Client) (run : ApiRuns.Run) : M (list CaseRow) :=
  match e_TestCounts run with
  | Some tc =>
      if Finished (e_Phase run) && (0 <? tc_Failed tc)%Z then
        cases ← api (Client.RunTestCases client ns id true);
        Ret (match cases with Ok cases => cases | Err _ => [] end)
      else Ret []
  | None => Ret []
  end.

Definition or_message {A} (x : result client_error A) : string := match x with Ok _ => "" | Err e => messageOf e end.
Definition or_nothing {A} (x : result client_error (list A)) : list A := match x with Ok xs => xs | Err _ => [] end.

Definition getRun : M CReply :=
  with_cluster (fun c client =>
    try_ c (Client.GetRun client ns id) (fun run =>
      '(steps, liveView) ← live_links c run (steps_of (e_Steps run));
      artifacts ← api (Client.ListArtifacts client ns id);
      events ← api (Client.RunEvents client ns id);
      children ← children_of client run;
      failed ← failed_cases client run;
      let '(media, more) := mediaOf (or_nothing artifacts) in
      Ret (writeJSON 200 (BRun (mkDetail (RunID run) (e_Name run) (e_Namespace run) (e_TestRef run) (e_Phase run) (Finished (e_Phase run)) (e_Tool run) (e_Message run)
        (e_Origin run =? OriginArchive)%string (e_ParentRun run) (e_Source run) (value_of (e_Tags run) TagCreatedBy) (e_NotBefore run) (e_QueuedAt run)
        (e_StartedAt run) (e_FinishedAt run) (e_DurationMs run) (git_info (e_Git run)) (e_TestCounts run) (e_Abort run) (e_Config run)
        ((fun k => (k, default float_zero (e_Metrics run !! k))) <$> sorted_keys (e_Metrics run)) steps (stagesOut (e_Stages run)) children (e_Report run)
        liveView (e_Comment run) (or_nothing artifacts) (or_message artifacts) media more (or_nothing events) (or_message events) failed))))).

(** [stageLog]: fetch, worker-N, worker-N/fetch. *)
Definition stage_log_ok (stage : string) : bool :=
  (stage =? "fetch")%string ||
  HasPrefix stage "worker-" &&
    let n := TrimSuffix (TrimPrefix stage "worker-") "/fetch" in negb (n =? "")%string && all_bytes is_digit n.

Definition runLog : M CReply :=
  with_cluster (fun c client =>
    let offset := Z.max 0 (default 0 (Atoi (query r "offset")))%Z in
    try_ c (Client.GetRun client ns id) (fun run =>
      let stage := query r "stage" in
      if negb (stage =? "")%string && negb (stage_log_ok stage) then Ret (writeError 400 "stage: fetch, worker-N or worker-N/fetch")
      else try_ c (Client.OpenStageLogsFrom client ns id stage offset) (fun body =>
        let chunk := str_take MaxLogChunk body in
        Ret (LogText (e_Phase run) (wrap64 (offset + Z.of_nat (String.length chunk))) (MaxLogChunk <? String.length body)%nat chunk)))).

End Handlers.

(** A handler behind a role. *)
Definition requireRole (r : Req) (min : Role) (h : M CReply) : M CReply :=
  if negb (Can (q_User r) min) then
    Ret (writeError 403 ("This action requires the " +:+ Role_String min +:+ " role; you are " +:+ Role_String (us_Role (q_User r)) +:+ "."))
  else h.

End ControlCenter.
