(* ===== verification/EditorApi.v ===== *)
(** * internal/controlcenter/api/editor_api.go: the editor's handlers

    The namespaces and the tool catalog, a Test's form, and the Test a form describes:
    the same build for the preview, the dry run and the save, and the write — a Test
    created, or a merge patch that holds only on the version it was made from. *)
From S2P Require Import Prelude Api GoLib Names Keys Objects Sorting Effects Pools Urls Store Triggers ApiRuns ApiServer Routes Client Scheduler Expr Resolver Natural Views Comparison Access Editor ControlCenter.

Module EditorApi.
Import Names Keys Urls ApiRuns Client Expr Resolver Natural Views Access Editor ControlCenter.

(** ** The catalog *)

Definition tool_template (t : TestTemplate) : ToolTemplate :=
  let c := tms_Container (tm_Spec t) in
  let '(main, kind) := MainPathParam (tms_Config (tm_Spec t)) in
  mkToolTemplate (om_Name (tm_Meta t)) (value_of (om_Labels (tm_Meta t)) Views.LabelTool) (cc_Image c) (str_join " " (cc_Command c)) (str_join " " (cc_Args c))
    (ParamsOf (with_Config (tms_Config (tm_Spec t)) zeroTestSpec)) main kind.
Definition ToolTemplates (l : list TestTemplate) : list ToolTemplate := sort_by (fun a b => String.ltb (tl_Name a) (tl_Name b)) (tool_template <$> l).

Definition FindTemplate (l : list TestTemplate) (name : string) : option TestTemplate := find_first (fun t => om_Name (tm_Meta t) =? name)%string l.

(** ** A form, built *)

Definition emptyTest : Test := mkTest (mkMeta "" "" "" ∅ ∅ zero_time None [] []) zeroTestSpec None.

(** [eb_t] is [None] when the form cannot be built. *)
Record editorBuild := mkBuild {
  eb_base : Test; eb_t : option Test; eb_errors : list string; eb_warnings : list string; eb_resourceVersion : string; eb_changed : bool }.

(** The form of an edit: of the path's Test, whatever it says. *)
Definition rename (ns name : string) (f : TestForm) : TestForm :=
  mkForm ns name (fm_Template f) (fm_Tool f) (fm_Image f) (fm_Command f) (fm_Args f) (fm_Source f) (fm_UseGit f) (fm_GitURI f) (fm_GitRevision f) (fm_GitPath f)
    (fm_GitPaths f) (fm_GitSecret f) (fm_GitSecretKey f) (fm_UseFiles f) (fm_Files f) (fm_TestData f) (fm_Params f) (fm_Env f) (fm_CPURequest f) (fm_MemoryRequest f)
    (fm_CPULimit f) (fm_MemoryLimit f) (fm_ServiceAccount f) (fm_PodAnnotations f) (fm_PodLabels f) (fm_Timeout f) (fm_Schedule f) (fm_Mode f) (fm_YAML f)
    (fm_ResourceVersion f) (fm_Generation f).
Definition with_mode (mode yaml : string) (f : TestForm) : TestForm :=
  mkForm (fm_Namespace f) (fm_Name f) (fm_Template f) (fm_Tool f) (fm_Image f) (fm_Command f) (fm_Args f) (fm_Source f) (fm_UseGit f) (fm_GitURI f) (fm_GitRevision f)
    (fm_GitPath f) (fm_GitPaths f) (fm_GitSecret f) (fm_GitSecretKey f) (fm_UseFiles f) (fm_Files f) (fm_TestData f) (fm_Params f) (fm_Env f) (fm_CPURequest f)
    (fm_MemoryRequest f) (fm_CPULimit f) (fm_MemoryLimit f) (fm_ServiceAccount f) (fm_PodAnnotations f) (fm_PodLabels f) (fm_Timeout f) (fm_Schedule f) mode yaml
    (fm_ResourceVersion f) (fm_Generation f).

(** What a save is conditional on, and whether the definition changed since the form was
    opened: with generations it is the definition that counts, without them the form's version. *)
Definition version_of (f : TestForm) (current : VersionedTest) : string * bool :=
  if (0 <? fm_Generation f)%Z && (0 <? vt_Generation current)%Z then (vt_ResourceVersion current, negb (fm_Generation f =? vt_Generation current)%Z)
  else (fm_ResourceVersion f, false).

Definition testChanged : string := "The Test changed since you opened it. Reload it to start from the current version.".

(** The keys of a map with these keys. *)
Definition distinct (names : list string) : list string := elements (list_to_set names : gset string).

Section Handlers.
Context `{Wire, Bodies, Scheduler.Cron, CronErrors, EnvVarSources, EditorChecks, FloatSyntax, Regexp, Manifests, Documents}.
Context (s : Server) (r : Req).
Abbreviation ns := (ControlCenter.ns r).
Abbreviation name := (ControlCenter.name r).

Definition NamespacesOf (client : Client) : M (list string) :=
  tests ← api (Client.ListTests client "");
  templates ← api (Client.ListTemplates client "");
  let names : list string := ((fun t => om_Namespace (t_Meta t)) <$> or_nothing tests) ++ ((fun t => om_Namespace (tm_Meta t)) <$> or_nothing templates) in
  Ret (str_sort (distinct names)).

Definition listNamespaces : M CReply :=
  with_cluster s r (fun c client => namespaces ← NamespacesOf client; Ret (writeJSON 200 (BNamespaces namespaces))).

Definition listTemplates : M CReply :=
  with_cluster s r (fun c client =>
    let ns := TrimSpace (query r "namespace") in
    if (ns =? "")%string then Ret (writeError 400 "Which namespace's catalog? (?namespace= is missing)")
    else
      l ← api (Client.ListTemplates client ns);
      Ret (writeJSON 200 (BTemplates (mkTemplateList (ToolTemplates (or_nothing l)) (or_message l))))).

(** The form of a Test, and why it opens as YAML. *)
Definition FormOf (client : Client) (t : VersionedTest) : M (TestForm * string) :=
  let test := vt_Test t in
  tmpl ← (match ts_Use (t_Spec test) with
          | [use] => l ← api (Client.ListTemplates client (om_Namespace (t_Meta test))); Ret (FindTemplate (or_nothing l) use)
          | _ => Ret None
          end);
  let f := FormFromTest test (vt_ResourceVersion t) (vt_Generation t) tmpl in
  let reason := FormUnsupported test in
  Ret (with_mode (if negb (reason =? "")%string then ModeYAML else fm_Mode f) (ManifestYAML test) f, reason).

Definition testForm : M CReply :=
  with_cluster s r (fun c client =>
    try_ c (Client.GetTest client ns name) (fun t =>
      '(form, yamlOnly) ← FormOf client t;
      Ret (writeJSON 200 (BForm (mkFormOf form yamlOnly (Locked (om_Labels (t_Meta (vt_Test t))))))))).

(** The form's Test, once what it edits is known. *)
Definition build_form (client : Client) (f : TestForm) (base : Test) (resourceVersion : string) (changed : bool) : M editorBuild :=
  if (fm_Mode f =? ModeYAML)%string then
    let '(t, errs) := ParseManifest (fm_YAML f) base in Ret (mkBuild base t errs [] resourceVersion changed)
  else
    templates ← (if negb (fm_Namespace f =? "")%string then api (Client.ListTemplates client (fm_Namespace f)) else Ret (Ok []));
    t0 ← (if (fm_Schedule f =? "")%string then Ret zero_time else now);
    let unread := match templates with Err e => ["The tool catalog couldn't be read: " +:+ messageOf e] | Ok _ => [] end in
    let '(t, errs, warns) := Build f base (FindTemplate (or_nothing templates) (fm_Template f)) t0 in
    Ret (mkBuild base (Some t) errs (unread ++ warns) resourceVersion changed).

(** [build], and the rest of the handler. *)
Definition with_build (edit : bool) (k : Client → editorBuild → M CReply) : M CReply :=
  with_cluster s r (fun c client => with_body r decode_TestForm (fun f =>
    let f := Normalize f in
    if edit then
      try_ c (Client.GetTest client ns name) (fun current =>
        let '(version, changed) := version_of f current in
        b ← build_form client (rename ns name f) (vt_Test current) version changed;
        k client b)
    else b ← build_form client f emptyTest (fm_ResourceVersion f) false; k client b)).

Definition preview (edit : bool) : M CReply :=
  with_build edit (fun _ b =>
    Ret (writeJSON 200 (BEdit (mkEditPreview (match eb_t b with Some t => ManifestYAML t | None => "" end) (eb_errors b) (eb_warnings b))))).

(** A refused write. *)
Definition write_refused (e : client_error) (edit : bool) : CReply :=
  match e with
  | APIError status _ message => if (status =? 409)%Z && edit && Contains message "modified" then writeError 409 testChanged else writeError status message
  | OtherError _ => writeError 502 (messageOf e)
  end.

Definition WriteTest (client : Client) (edit : bool) (base t : Test) (resourceVersion : string) (dryRun : bool) : M (result client_error Test) :=
  if negb edit then api (Client.CreateTest client t (mkWrite dryRun))
  else match EditPatch base resourceVersion t with
       | Err e => Ret (Err (OtherError e))
       | Ok patch => api (Client.PatchTestWith client (om_Namespace (t_Meta t)) (om_Name (t_Meta t)) patch (mkWrite dryRun))
       end.

Definition write (edit : bool) : M CReply :=
  with_build edit (fun client b =>
    let refused := Ret (writeJSON 400 (BFormError (mkFormError (str_join " " (eb_errors b)) (eb_errors b)))) in
    match eb_t b with
    | None => refused
    | Some t =>
        if (0 <? length (eb_errors b))%nat then refused
        else if eb_changed b then Ret (writeError 409 testChanged)
        else
          let dryRun := (query r "dry-run" =? "true")%string in
          written ← WriteTest client edit (eb_base b) t (eb_resourceVersion b) dryRun;
          Ret (match written with
               | Err e => write_refused e edit
               | Ok w =>
                   writeJSON (if negb edit && negb dryRun then 201 else 200)
                     (BSaved (mkSaved (om_Namespace (t_Meta w)) (om_Name (t_Meta w)) dryRun (ManifestYAML t)))
               end)
    end).
End Handlers.

End EditorApi.
