(* ===== verification/UiRoutes.v ===== *)
(** * internal/controlcenter/api/openapi.go: the routes of the UI's API

    The table of the routes with their roles, and the handler a request gets.  The
    documentation of the table (OpenAPISpec) is generated from it and is not here. *)
From S2P Require Import Prelude Api GoLib Names Keys Effects Urls Store ApiRuns ApiServer Routes Client Scheduler Natural Views Comparison Access Editor ControlCenter EditorApi.

Module UiRoutes.
Import Names Keys Urls Client Natural Views Comparison Access Editor ControlCenter EditorApi.

Record Route := mkRoute { rt_Method : string; rt_Path : string; rt_Role : Role; rt_handler : M CReply }.

Definition Prefix : string := "/api/v1".
Definition clusterPath : string := Prefix +:+ "/clusters/{cluster}".
Definition testPath : string := clusterPath +:+ "/tests/{ns}/{name}".
Definition runPath : string := clusterPath +:+ "/runs/{ns}/{id}".

(** What the handlers ask of libraries. *)
Class Libraries := {
  l_wire :: Wire; l_bodies :: Bodies; l_yamlview :: Yamlview; l_cron :: Scheduler.Cron; l_cron_errors :: CronErrors; l_uris :: URIs; l_order :: MapOrder;
  l_decimals :: ShortestDecimals; l_sources :: EnvVarSources; l_checks :: EditorChecks; l_floats :: FloatSyntax; l_regexp :: Regexp; l_manifests :: Manifests;
  l_documents :: Documents }.

Section Table.
Context `{Libraries} (s : Server) (r : Req).

(** In the table's order. *)
Definition routes : list Route :=
  [mkRoute "GET" (Prefix +:+ "/me") RoleViewer (me r);
   mkRoute "GET" (Prefix +:+ "/clusters") RoleViewer (clusters s);
   mkRoute "GET" (clusterPath +:+ "/schedules") RoleViewer (listSchedules s r);
   mkRoute "GET" (clusterPath +:+ "/namespaces") RoleViewer (listNamespaces s r);
   mkRoute "GET" (clusterPath +:+ "/templates") RoleViewer (listTemplates s r);
   mkRoute "POST" (clusterPath +:+ "/tests/preview") RoleViewer (preview s r false);
   mkRoute "POST" (clusterPath +:+ "/tests") RoleDeveloper (write s r false);
   mkRoute "GET" (clusterPath +:+ "/tests") RoleViewer (listTests s r);
   mkRoute "GET" testPath RoleViewer (getTest s r);
   mkRoute "GET" (testPath +:+ "/form") RoleViewer (testForm s r);
   mkRoute "POST" (testPath +:+ "/preview") RoleViewer (preview s r true);
   mkRoute "PUT" testPath RoleDeveloper (write s r true);
   mkRoute "DELETE" testPath RoleAdmin (deleteTest s r);
   mkRoute "PUT" (testPath +:+ "/schedule") RoleDeveloper (setSchedule s r);
   mkRoute "GET" (testPath +:+ "/overview") RoleViewer (overview s r);
   mkRoute "GET" (testPath +:+ "/analytics") RoleViewer (analytics s r);
   mkRoute "GET" (testPath +:+ "/analytics/compare") RoleViewer (compareRuns s r);
   mkRoute "GET" (testPath +:+ "/cases") RoleViewer (listCases s r);
   mkRoute "GET" (testPath +:+ "/cases/history") RoleViewer (caseHistory s r);
   mkRoute "GET" (runPath +:+ "/compare") RoleViewer (compareRun s r);
   mkRoute "GET" (testPath +:+ "/cleanup") RoleDeveloper (previewCleanup s r);
   mkRoute "POST" (testPath +:+ "/cleanup") RoleAdmin (cleanup s r);
   mkRoute "GET" (testPath +:+ "/runs") RoleViewer (listTestRuns s r);
   mkRoute "POST" (testPath +:+ "/runs") RoleDeveloper (startRun s r);
   mkRoute "GET" runPath RoleViewer (getRun s r);
   mkRoute "GET" (runPath +:+ "/log") RoleViewer (runLog s r);
   mkRoute "POST" (runPath +:+ "/abort") RoleDeveloper (abortRun s r);
   mkRoute "POST" (runPath +:+ "/rerun") RoleDeveloper (rerun s r);
   mkRoute "PUT" (runPath +:+ "/comment") RoleDeveloper (setComment s r);
   mkRoute "DELETE" (runPath +:+ "/comment") RoleDeveloper (deleteComment s r);
   mkRoute "DELETE" runPath RoleAdmin (deleteRun s r)].

(** A route as it is registered: viewers need no check. *)
Definition serve_route (rt : Route) : M CReply :=
  if bool_decide (rt_Role rt = RoleViewer) then rt_handler rt else requireRole r (rt_Role rt) (rt_handler rt).

(** The handler of the pattern the mux chose. *)
Definition serve (method pattern : string) : option (M CReply) :=
  serve_route <$> find_first (fun rt => (rt_Method rt =? method)%string && (rt_Path rt =? pattern)%string) routes.
End Table.

End UiRoutes.
