(* ===== verification/LiveLinks.v ===== *)
(** * internal/controlcenter/server/live.go: links to a run's live view

    The tokens — claims signed with HMAC-SHA256 — and the handler of the route that
    needs no sign-in, GET /live/{token}/{path...}, as a program over the clusters' APIs
    and the clock.  The JSON of the claims is encoding/json's.

    Then (LiveSpec) what such a link opens: with a path with dots in escaped form, which
    gets through both routers' cleaning, it leads out of its run. *)
From S2P Require Import Prelude Sha256 Names GoLib Keys Paths Effects Scheduler Urls Store ApiRuns ApiServer Routes Client ClientSpec Access ControlCenter.

Module LiveLinks.
Import Keys Client Access ControlCenter.

(** ** crypto/hmac with SHA-256 *)

Definition of_bytes (bs : list Z) : string := String.string_of_list_ascii ((fun b => ascii_of_nat (Z.to_nat b)) <$> bs).

Definition block_size : nat := 64.
Definition key_block (key : list Z) : list Z :=
  let key := if (block_size <? length key)%nat then Sha256.sum256 key else key in
  key ++ replicate (block_size - length key) 0%Z.
Definition hmac (key msg : list Z) : list Z :=
  let k := key_block key in
  Sha256.sum256 ((Z.lxor 92 <$> k) ++ Sha256.sum256 ((Z.lxor 54 <$> k) ++ msg)).

Example hmac_fox : Sha256.hex (hmac (Sha256.bytes_of "key") (Sha256.bytes_of "The quick brown fox jumps over the lazy dog")) =
  "f7bc83f430538424b13298e6aa6fb143ef4d59a14946175997479dbc2d1a3cd8".
Proof. vm_compute. reflexivity. Qed.

(** ** Tokens *)

Definition liveTokenTTL : duration := (12 * hour)%Z.
Definition errBadLiveToken : string := "invalid or expired live-view link".

Record liveClaims := mkClaims { lc_Cluster : string; lc_Namespace : string; lc_Run : string; lc_Worker : string; lc_Exp : Z }.

Section Tokens.
Context `{JSON liveClaims} (key : string).

Definition mac (payload : string) : string := Base64.EncodeToString (of_bytes (hmac (Sha256.bytes_of key) (Sha256.bytes_of payload))).

Definition sign (c : liveClaims) : string :=
  let payload := Base64.EncodeToString (Marshal c) in payload +:+ "." +:+ mac payload.

Definition verify (token : string) (now : time) : result string liveClaims :=
  match Cut token "." with
  | None => Err errBadLiveToken
  | Some (payload, sig) =>
      if negb (sig =? mac payload)%string then Err errBadLiveToken
      else match Base64.DecodeString payload with
           | None => Err errBadLiveToken
           | Some b =>
               match Unmarshal b with
               | Err _ => Err errBadLiveToken
               | Ok c => if (lc_Exp c <? Scheduler.time_Unix now)%Z then Err errBadLiveToken else Ok c
               end
           end
  end.

Definition liveURL (cluster ns run worker entry : string) (now : time) : string :=
  let tok := sign (mkClaims cluster ns run worker (Scheduler.time_Unix (now + liveTokenTTL))) in
  "/live/" +:+ tok +:+ "/" +:+ TrimPrefix entry "/".

(** The function the API's server is given. *)
Definition LiveURL (cluster ns run worker entry : string) : prog TOp string := now ← perform Now; Ret (liveURL cluster ns run worker entry now).

(** ** The handler *)

(** A message page, or the answer of the run's live UI. *)
Inductive LiveReply := LivePage (status : Z) (msg : string) (retry : bool) | LiveStream (resp : HTTPResponse).

Definition live_failed (e : client_error) : LiveReply :=
  if statusIs e 503 then LivePage 200 "Waiting for the run to start…" true
  else if statusIs e 410 then LivePage 200 "The run has finished, so its live view is gone. Its report and artifacts are on the run page." false
  else LivePage 502 ("Live view unavailable: " +:+ messageOf e) false.

Definition liveView `{JSON (string * string)} (clusters : list Cluster) (token path rawQuery : string) : prog TOp LiveReply :=
  t ← perform Now;
  match verify token t with
  | Err _ => Ret (LivePage 403 "This live-view link is invalid or has expired. Open the run in Control Center again." false)
  | Ok claims =>
      match Access.Get clusters (lc_Cluster claims) with
      | None => Ret (LivePage 404 "The cluster of this run is no longer configured." false)
      | Some c =>
          resp ← call (OpenLiveView (cl_API c) (lc_Namespace claims) (lc_Run claims) (lc_Worker claims) path rawQuery);
          Ret (match resp with Err e => live_failed e | Ok resp => LiveStream resp end)
      end
  end.

(** The pattern the handler is registered with. *)
Definition live_pattern : Routes.Pattern := ("GET", "/live/{token}/{path...}").
End Tokens.

(** ** Tokens, signed and verified *)

Section Laws.
Context `{JSON liveClaims} (key : string).

Lemma encoded_no_dot s : Forall (fun c => c ≠ "."%char) (Names.chars (Base64.EncodeToString s)).
Proof.
  eapply Forall_impl; [apply (Base64.encoded_letters (fun c => negb (Ascii.eqb c ".")))|]; [vm_compute; reflexivity|]. cbn. intros c Hc ->. done.
Qed.

(** A token is good until its time is over. *)
Lemma verify_sign c now : Unmarshal (Marshal c) = Ok c → (Scheduler.time_Unix now <= lc_Exp c)%Z → verify key (sign key c) now = Ok c.
Proof.
  intros Hj Ht. unfold verify, sign. set (p := Base64.EncodeToString (Marshal c)).
  assert (Hc : Cut (p +:+ "." +:+ mac key p) "." = Some (p, mac key p)) by (apply (Cut_char p "."%char (mac key p)), encoded_no_dot).
  rewrite Hc, String.eqb_refl. cbn [negb]. unfold p.
  rewrite Base64.decode_encode, Hj. by rewrite (proj2 (Z.ltb_ge _ _)).
Qed.

(** Only what was signed with the key is accepted, and only as long as it says. *)
Lemma verify_inv token now c : verify key token now = Ok c →
  ∃ payload b, token = payload +:+ "." +:+ mac key payload ∧ Base64.DecodeString payload = Some b ∧ Unmarshal b = Ok c ∧ (Scheduler.time_Unix now <= lc_Exp c)%Z.
Proof.
  unfold verify. destruct (Cut token ".") as [[payload sig]|] eqn:Ec; [|done]. apply Cut_spec in Ec as ->.
  destruct (String.eqb_spec sig (mac key payload)) as [->|]; [|done]. cbn [negb]. destruct (Base64.DecodeString payload) as [b|] eqn:Eb; [|done].
  destruct (Unmarshal b) as [c'|] eqn:Eu; [|done]. destruct (Z.ltb_spec (lc_Exp c') (Scheduler.time_Unix now)) as [|Ht]; [done|]. intros [= <-]. by exists payload, b.
Qed.

End Laws.

End LiveLinks.

Module LiveSpec.
Import Keys Paths Urls Routes Client ClientSpec Access ControlCenter LiveLinks.

(** The path of another run's log, seen from a run's live view. *)
Definition way_out (run other : string) : list string := ["runs"; run; "live"; ".."; ".."; other; "logs.txt"].
Definition log_of (other : string) : list string := ["runs"; other; "logs.txt"].

Lemma clean_step_name kept e : proper e → clean_step true kept e = e :: kept.
Proof. intros (Hs & H1 & H2 & H3)%proper_iff. unfold clean_step. by rewrite !(proj2 (String.eqb_neq _ _)) by done. Qed.

Lemma app_not_empty a b : b ≠ "" → a +:+ b ≠ "".
Proof. by destruct a. Qed.

Lemma way_out_clean run other : nameable run → nameable other → cleanPath (path_of (way_out run other)) = path_of (log_of other).
Proof.
  intros Hr Ho. pose proof (PathEscape_proper _ Hr) as Pr. pose proof (PathEscape_proper _ Ho) as Po.
  assert (Hns : Forall (fun e => no_slash e = true) (PathEscape <$> way_out run other)).
  { apply proper_iff in Pr as [Nr _], Po as [No _]. cbn. repeat (apply Forall_cons_2; [done|]). apply Forall_nil_2. }
  unfold cleanPath. change (HasPrefix (path_of (way_out run other)) "/") with true. cbn iota zeta.
  assert (Hsuf : HasSuffixSlash (path_of (way_out run other)) = false).
  { unfold path_of, rooted, way_out. cbn [fmap list_fmap].
    change (str_join "/" [PathEscape "runs"; PathEscape run; PathEscape "live"; PathEscape ".."; PathEscape ".."; PathEscape other; PathEscape "logs.txt"])
      with ("runs/" +:+ (PathEscape run +:+ ("/live/../../" +:+ (PathEscape other +:+ "/logs.txt")))).
    rewrite !HasSuffixSlash_app by (repeat apply app_not_empty; discriminate). reflexivity. }
  rewrite Hsuf. cbn [andb]. rewrite Clean_rooted by done. unfold path_of at 2. f_equal. unfold clean_elems, path_of, rooted.
  change ("/" +:+ str_join "/" (PathEscape <$> way_out run other)) with (str_join "/" ("" :: (PathEscape <$> way_out run other))).
  rewrite Split_join; [|by apply Forall_cons_2|done]. change (IsAbs _) with true. unfold way_out. cbn [fmap list_fmap foldl].
  change (clean_step true [] "") with (@nil string). change (clean_step true [] (PathEscape "runs")) with ["runs"]. rewrite (clean_step_name _ _ Pr).
  change (clean_step true [PathEscape run; "runs"] (PathEscape "live")) with ["live"; PathEscape run; "runs"].
  change (clean_step true ["live"; PathEscape run; "runs"] (PathEscape "..")) with [PathEscape run; "runs"].
  change (clean_step true [PathEscape run; "runs"] (PathEscape "..")) with (if (PathEscape run =? "..")%string then [".."; PathEscape run; "runs"] else ["runs"]).
  rewrite (proj2 (String.eqb_neq (PathEscape run) "..")) by (by apply proper_iff in Pr as (_ & _ & _ & Hd)).
  rewrite (clean_step_name _ _ Po). reflexivity.
Qed.

Lemma way_out_differs run other : nameable run → nameable other → path_of (way_out run other) ≠ path_of (log_of other).
Proof.
  intros Hr Ho E. apply (f_equal segments) in E. pose proof (PathEscape_proper _ Hr) as Pr. pose proof (PathEscape_proper _ Ho) as Po.
  apply proper_iff in Pr as [Nr _], Po as [No _]. unfold segments, path_of, rooted in E.
  change (str_drop 1 ("/" +:+ str_join "/" (PathEscape <$> way_out run other))) with (str_join "/" (PathEscape <$> way_out run other)) in E.
  change (str_drop 1 ("/" +:+ str_join "/" (PathEscape <$> log_of other))) with (str_join "/" (PathEscape <$> log_of other)) in E.
  rewrite !Split_join in E; [done| |done| |done]; cbn; repeat (apply Forall_cons_2; [done|]); apply Forall_nil_2.
Qed.

(** The API's routes give the way out to the log of the other run. *)
Lemma way_out_route run other : nameable run → nameable other →
  findHandler patterns "GET" (path_of (way_out run other)) = Redirect (path_of (log_of other)) ∧
  findHandler patterns "GET" (path_of (log_of other)) = Serve ("GET", "/runs/{id}/logs.txt") [("id", other)].
Proof.
  intros Hr Ho. assert (Hl : Forall nameable (log_of other)) by (repeat (apply Forall_cons_2; [first [assumption|by split_and!]|]); apply Forall_nil_2).
  assert (Hroute : route_names "GET" (log_of other) = Some (("GET", "/runs/{id}/logs.txt"), [("id", other)])) by (rewrite route_nonempty_ok by done; reflexivity).
  split.
  - eapply route_redirect; [done|done|by apply way_out_clean|by apply way_out_differs|exact Hroute|reflexivity].
  - by apply route_path.
Qed.

(** ** The address of a link *)

(** What a browser asks for: the dots escaped, so that they are not cleaned away. *)
Definition link_path (token other : string) : string := "/live/" +:+ token +:+ "/%2e%2e/%2e%2e/" +:+ PathEscape other +:+ "/logs.txt".
Definition out_path (other : string) : string := "../../" +:+ other +:+ "/logs.txt".

Section Tokens.
Context `{JSON liveClaims} (key : string).

Lemma mac_shape payload : ∃ c s, mac key payload = String c s ∧ Forall (fun c => c ≠ "."%char) (Names.chars (mac key payload)).
Proof.
  pose proof (encoded_no_dot (of_bytes (hmac (Sha256.bytes_of key) (Sha256.bytes_of payload)))) as Hd. fold (mac key payload) in Hd.
  destruct (mac key payload) as [|c s] eqn:E; [|by exists c, s]. exfalso. unfold mac in E. assert (Hl : ∀ s, Base64.EncodeToString s = "" → s = "") by (intros [|a [|b [|c s]]]; done).
  apply Hl in E. apply (f_equal String.length) in E. unfold of_bytes, hmac in E. cbn [String.length] in E.
  assert (Hlen : ∀ xs, String.length (String.string_of_list_ascii xs) = length xs) by (induction xs as [|x xs IH]; cbn; [done|by rewrite IH]).
  rewrite Hlen, length_fmap, Sha256.length_sum256 in E. done.
Qed.

(** A token has no byte that is escaped, and is a name. *)
Definition plain (c : ascii) : bool := negb (shouldEscape c encodePathSegment).
Lemma token_plain c : Forall (fun c => plain c = true) (Names.chars (sign key c)).
Proof.
  unfold sign. rewrite !Names.chars_app. repeat apply Forall_app_2; [|by apply Forall_singleton|]; apply Base64.encoded_letters; vm_compute; reflexivity.
Qed.
Lemma plain_escape s : Forall (fun c => plain c = true) (Names.chars s) → PathEscape s = s.
Proof.
  unfold PathEscape. induction s as [|c s IH]; [done|]. cbn [Names.chars]. intros [Hc Hs]%Forall_cons. cbn [escape]. rewrite (IH Hs).
  unfold plain in Hc. apply negb_true_iff in Hc. unfold escape_byte. rewrite Hc. destruct (Ascii.eqb c " ") eqn:E; [apply Ascii.eqb_eq in E as ->; done|done].
Qed.
Lemma token_nameable c : nameable (sign key c).
Proof.
  destruct (mac_shape (Base64.EncodeToString (Marshal c))) as (d & m & Em & Hm). pose proof (encoded_no_dot (Marshal c)) as Hp. unfold sign. cbv zeta.
  rewrite Em in *. destruct (Base64.EncodeToString (Marshal c)) as [|a p].
  - cbn [Names.chars] in Hm. apply Forall_cons in Hm as [Hd _]. split_and!; [done..|]. intros [= -> _]. done.
  - cbn [Names.chars] in Hp. apply Forall_cons in Hp as [Ha _]. split_and!; [done| |]; intros E; injection E as -> _; done.
Qed.
End Tokens.

(** Control Center's routes give the address to the handler, with the dots. *)
Lemma link_route token other : nameable token → PathEscape token = token → nameable other →
  findHandler [live_pattern] "GET" (link_path token other) = Serve live_pattern [("token", token); ("path", out_path other)].
Proof.
  intros Ht Hplain Ho. set (segs := ["live"; token; "%2e%2e"; "%2e%2e"; PathEscape other; "logs.txt"]).
  assert (Hp : Forall proper segs).
  { pose proof (PathEscape_proper _ Ho) as Po. pose proof (PathEscape_proper _ Ht) as Pt. rewrite Hplain in Pt.
    unfold segs. repeat (apply Forall_cons_2; [done|]). apply Forall_nil_2. }
  change (link_path token other) with (rooted segs). unfold findHandler. rewrite cleanPath_rooted by done.
  assert (Hfind : find_pattern [live_pattern] "GET" (rooted segs) = Some (live_pattern, [("token", token); ("path", out_path other)])).
  { unfold find_pattern. cbn [omap list_omap]. unfold match_pattern. rewrite segments_rooted by done. change (match_method live_pattern.1 "GET") with true. cbn iota.
    change (parse_segment <$> segments live_pattern.2) with [Literal "live"; Wildcard "token"; Rest "path"]. unfold segs. cbn [match_segments].
    change (pathUnescape "live" =? "live")%string with true. cbn iota. destruct Ht as [Hne _]. rewrite (proj2 (String.eqb_neq _ _)) by done.
    assert (pathUnescape token = token) as ->.
    { unfold pathUnescape, PathUnescape. pose proof (unescape_escape token encodePathSegment) as E. unfold PathEscape in Hplain. by rewrite Hplain in E; rewrite E. }
    assert (pathUnescape (str_join "/" ["%2e%2e"; "%2e%2e"; PathEscape other; "logs.txt"]) = out_path other) as ->; [|done].
    change (str_join "/" ["%2e%2e"; "%2e%2e"; PathEscape other; "logs.txt"]) with ("%2e%2e/%2e%2e/" +:+ (PathEscape other +:+ "/logs.txt")).
    unfold pathUnescape, PathUnescape, PathEscape. rewrite (unescape_app "%2e%2e/%2e%2e/" _ "../../" (other +:+ "/logs.txt")); [done|done|].
    apply unescape_app; [apply unescape_escape|done]. }
  rewrite Hfind. cbn [exactMatch]. rewrite rooted_suffix by done. cbn [negb]. change (ends_in_rest live_pattern) with true. cbn [negb andb].
  assert (Hslashed : exactMatch (find_pattern [live_pattern] "GET" (rooted segs +:+ "/")) (rooted segs +:+ "/") = false).
  { destruct (find_pattern [live_pattern] "GET" (rooted segs +:+ "/")) as [[q ws]|] eqn:Eq; [|done]. apply find_pattern_elem in Eq as ->%list_elem_of_singleton. cbn [exactMatch].
    rewrite HasSuffixSlash_app by done. change (negb (HasSuffixSlash "/")) with false. cbn iota. apply Nat.eqb_neq.
    pose proof (count_joined segs (proper_no_slash _ Hp) ltac:(done)) as Hc. unfold rooted. rewrite !count_byte_app. change (count_byte slash "/") with 1. cbn [length segs] in Hc.
    change (length (segments live_pattern.2)) with 3. unfold segs in *. cbn [length] in Hc. lia. }
  rewrite Hslashed, String.eqb_refl. reflexivity.
Qed.

Lemma escape_out_path other : no_slash other = true → escape_segments (out_path other) = str_join "/" (PathEscape <$> [".."; ".."; other; "logs.txt"]).
Proof.
  intros Ho. unfold escape_segments. f_equal. f_equal. change (out_path other) with (str_join "/" [".."; ".."; other; "logs.txt"]).
  rewrite Split_join; [done| |done]. repeat (apply Forall_cons_2; [done|]). apply Forall_nil_2.
Qed.

Section Links.
Context `{JSON liveClaims} `{JSON (string * string)} (key : string) (clusters : list Cluster) (c : Cluster) (claims : liveClaims) (t : time).
Context (Hbase : good_base (cl_API c)) (Hget : Access.Get clusters (lc_Cluster claims) = Some c).
Context (Hjson : Unmarshal (Marshal claims) = Ok claims) (Htime : (Scheduler.time_Unix t <= lc_Exp claims)%Z).

(** The one request the handler makes for a token: the claims' run, and the path it was asked for. *)
Lemma liveView_asks path us : us ≠ [] → escape_segments path = str_join "/" (PathEscape <$> us) →
  ∃ K k, liveView key clusters (sign key claims) path "" = Do Now K ∧
    K t = Do (Http (HTTPDo (mkHTTP "GET" (cl_base (cl_API c) +:+ path_of ("runs" :: lc_Run claims :: "live" :: us))
      (Encode (live_query ∅ (lc_Namespace claims) (lc_Worker claims))) (cl_user (cl_API c)) (cl_token (cl_API c)) false ""))) k ∧
    ∀ resp, ∃ a, k resp = Ret a.
Proof.
  intros Hus Hesc. destruct (do_sends (cl_API c) Hbase "GET" (path_of ("runs" :: lc_Run claims :: "live" :: us)) (live_query ∅ (lc_Namespace claims) (lc_Worker claims)) None
    ("runs" :: lc_Run claims :: "live" :: us)) as (k & Hdo & Hk); [by left|].
  assert (Hopen : OpenLiveView (cl_API c) (lc_Namespace claims) (lc_Run claims) (lc_Worker claims) path "" =
    do_ (cl_API c) "GET" (path_of ("runs" :: lc_Run claims :: "live" :: us)) (live_query ∅ (lc_Namespace claims) (lc_Worker claims)) None).
  { unfold OpenLiveView. change (ParseQuery "") with (∅ : Values, @None string). cbn iota beta. rewrite Hesc. f_equal. destruct us; [done|reflexivity]. }
  eexists _, _. split; [reflexivity|]. cbn [prog_bind]. cbn beta. rewrite (verify_sign key claims t Hjson Htime). cbn iota beta. rewrite Hget, Hopen, Hdo. split; [reflexivity|].
  intros resp. destruct (Hk resp) as [a Ha]. eexists. cbn. rewrite Ha. reflexivity.
Qed.
End Links.

(** C30: a link to one run's live view opens more than that: asked for with escaped
    dots in its path, it passes Control Center's routes and the check of its token, and
    makes Control Center ask — with the cluster's token, for nobody — for a path the
    API's routes lead out of the run: to the log of any other run, say. *)
Theorem live_link_escapes `{JSON liveClaims} `{JSON (string * string)} key clusters c claims t other :
  good_base (cl_API c) → Access.Get clusters (lc_Cluster claims) = Some c → Unmarshal (Marshal claims) = Ok claims →
  (Scheduler.time_Unix t <= lc_Exp claims)%Z → nameable (lc_Run claims) → nameable other → no_slash other = true →
  let token := sign key claims in
  findHandler [live_pattern] "GET" (link_path token other) = Serve live_pattern [("token", token); ("path", out_path other)] ∧
  (∃ K k, liveView key clusters token (out_path other) "" = Do Now K ∧
    K t = Do (Http (HTTPDo (mkHTTP "GET" (cl_base (cl_API c) +:+ path_of (way_out (lc_Run claims) other))
      (Encode (live_query ∅ (lc_Namespace claims) (lc_Worker claims))) (cl_user (cl_API c)) (cl_token (cl_API c)) false ""))) k ∧
    ∀ resp, ∃ a, k resp = Ret a) ∧
  findHandler patterns "GET" (path_of (way_out (lc_Run claims) other)) = Redirect (path_of (log_of other)) ∧
  findHandler patterns "GET" (path_of (log_of other)) = Serve ("GET", "/runs/{id}/logs.txt") [("id", other)].
Proof.
  intros Hb Hg Hj Ht Hr Ho Hs token. split.
  { apply link_route; [apply token_nameable|apply plain_escape, token_plain|done]. }
  split; [|by apply way_out_route].
  apply (liveView_asks key clusters c claims t Hb Hg Hj Ht (out_path other) [".."; ".."; other; "logs.txt"]); [done|by apply escape_out_path].
Qed.

Lemma live_link_escapes_witness :
  let claims := mkClaims "prod" "team-a" "load-1" "" 43200 in
  let json := Build_JSON liveClaims (fun _ => "{}") (fun _ => Ok claims) in
  let errors := Build_JSON (string * string) (fun _ => "{}") (fun _ => Err "unexpected end of JSON input") in
  let c := mkCluster (mkClusterConfig "prod" "" (mkClusterAuth "gcp" "" "") "https://k8s" "ca.pem" (mkAPIServer "kt" "api" 8080 "")) (mkClient "/proxy" "" "s3cret") in
  findHandler patterns "GET" (path_of (way_out "load-1" "secret-run")) = Redirect "/runs/secret-run/logs.txt" ∧
  path_of (way_out "load-1" "secret-run") = "/runs/load-1/live/../../secret-run/logs.txt".
Proof.
  intros claims json errors c. split; [|reflexivity].
  refine (proj1 (proj2 (proj2 (live_link_escapes (H := json) (H0 := errors) "k" [c] c claims 0 "secret-run" _ _ _ _ _ _ _)))); try done; by split_and!.
Defined.

End LiveSpec.
