(* ===== verification/ControlCenterSpec.v ===== *)
(** * What Control Center does for whom

    The requests of a handler are those of its route: in the signed-in user's name, and
    changing nothing that the user's role does not allow.  A cleanup, whatever the
    schedule of its goroutines, deletes only finished runs of its Test, and says of
    every run it was given what became of it. *)
From Stdlib Require Import SpecFloat.
From S2P Require Import Prelude Api GoLib Names Keys Objects Verdicts Sorting Effects Pools Urls Store Triggers ApiRuns ApiServer Routes Client ClientSpec Scheduler Expr Resolver Natural Views Comparison Access Editor ControlCenter EditorApi UiRoutes.

Module ControlCenterSpec.
Import Keys Urls Store ApiRuns ApiServer Routes Client ClientSpec Natural Views Comparison Access Editor ControlCenter EditorApi UiRoutes.

(** ** Every request of a handler *)

Section Always.
Context (P : ∀ R, TOp R → Prop).

Definition every R (o : COp R) : Prop :=
  match o with
  | Seq o => P _ o
  | Go _ threads => Forall (fun t => always P t (fun _ => True)) threads
  end.

Lemma every_performs {R} (o : COp R) tr r : every R o → performs o tr r → Forall (event_sat P) tr.
Proof.
  destruct o as [A o|A slots threads]; cbn.
  - intros Ho ->. by apply Forall_singleton.
  - intros Hf (po & tr' & Hs & Hc & -> & _). destruct (Pools.complete_results _ _ _ _ Hs Hc) as (Hids & Hres & Hev). apply Forall_forall. intros e (e' & -> & He)%list_elem_of_fmap.
    destruct (Hev e' He) as [Hlt Hin]. assert (Hi : e'.1 ∈ (Pools.po_finished po).*1) by (rewrite Hids; apply elem_of_seq; lia).
    apply list_elem_of_fmap in Hi as ([i a] & Ei & Hia). cbn in Ei. destruct (Hres i a Hia) as (p & Hp & Hex). rewrite <- Ei in Hex.
    rewrite Forall_forall in Hf. destruct (always_sound _ _ _ _ _ (Hf p (list_elem_of_lookup_2 _ _ _ Hp)) Hex) as [Hall _].
    rewrite Forall_forall in Hall. by apply Hall.
Qed.

Lemma every_sound {A} (p : M A) Q tr a : always every p Q → runs p tr a → Forall (event_sat P) tr ∧ Q a.
Proof.
  revert tr. induction p as [b|R o k IH]; intros tr; cbn.
  - intros Hq [-> ->]. split; [apply Forall_nil_2|done].
  - intros [Ho Hk] (r & tr1 & tr2 & -> & Hp & Hr). destruct (IH r tr2 (Hk r) Hr) as [Htr Hq]. split; [|done]. apply Forall_app. split; [by eapply every_performs|done].
Qed.

Lemma every_inline {A} (p : prog TOp A) : always P p (fun _ => True) → always every (inline p) (fun _ => True).
Proof. exact (always_translate (fun R o => Seq o) every p _). Qed.

Lemma always_true_seq {Op : Type → Type} (P' : ∀ R, Op R → Prop) {A B} (p : prog Op A) (f : A → prog Op B) :
  always P' p (fun _ => True) → (∀ a, always P' (f a) (fun _ => True)) → always P' (p ≫= f) (fun _ => True).
Proof. intros Hp Hf. eapply always_seq; [exact Hp|]. intros a _. apply Hf. Qed.
End Always.

(** Requests with one of some methods, in one user's name. *)
Definition sends (methods : list string) (user : string → Prop) R (o : TOp R) : Prop :=
  match o with
  | Http o => match o with HTTPDo h => hr_Method h ∈ methods ∧ user (hr_User h) end
  | _ => True
  end.
Definition requests (methods : list string) (user : string → Prop) R (o : HOp R) : Prop :=
  match o with HTTPDo h => hr_Method h ∈ methods ∧ user (hr_User h) end.

Section Requests.
Context `{Wire} (methods : list string) (user : string → Prop) (c : Client) (Huser : user (cl_user c)).
Abbreviation quiet p := (always (requests methods user) p (fun _ => True)).

Lemma do_requests method path q body : method ∈ methods → quiet (do_ c method path q body).
Proof.
  intros Hm. unfold do_. destruct (PathUnescape _); [|done]. split; [done|]. intros [resp|e]; cbn; [|done]. by destruct (_ && _).
Qed.
Lemma sendJSON_requests {A} `{JSON A} method path q body : method ∈ methods → quiet (sendJSON c method path q body : prog HOp (result client_error A)).
Proof. intros Hm. eapply always_true_seq; [by apply do_requests|]. intros [resp|e]; [|done]. by destruct (Unmarshal _). Qed.
Lemma send_requests method path q : method ∈ methods → quiet (Client.send c method path q).
Proof. intros Hm. eapply always_true_seq; [by apply do_requests|]. by intros [resp|e]. Qed.
Lemma pages_requests {A B} `{JSON A} path q (f : A → HTTPResponse → B) (e : string → client_error) : "GET" ∈ methods →
  quiet (resp ← do_ c "GET" path q None; match resp with Err e => Ret (Err e) | Ok resp => match Unmarshal (rs_Body resp) with Err e' => Ret (Err (e e')) | Ok x => Ret (Ok (f x resp)) end end).
Proof. intros Hm. eapply always_true_seq; [by apply do_requests|]. intros [resp|e']; [|done]. by destruct (Unmarshal _). Qed.
End Requests.

(** What a call's requests satisfy, its handler's do. *)
Lemma call_sends methods user {A} (p : prog HOp A) : always (requests methods user) p (fun _ => True) → always (sends methods user) (call p) (fun _ => True).
Proof. intros Hp. apply (always_translate (fun R o => Http o) (sends methods user) p). eapply always_weaken; [exact Hp|]. by intros R [h]. Qed.

Section Gates.
Context `{Libraries}.
Context (s : Server) (r : Req) (methods : list string) (user : string → Prop) (Huser : user (us_Email (q_User r))).
Abbreviation gated p := (always (every (sends methods user)) p (fun _ => True)).

Lemma with_cluster_gated k : (∀ c client, user (cl_user client) → gated (k c client)) → gated (with_cluster s r k).
Proof. intros Hk. unfold with_cluster. destruct (Access.Get _ _) as [c|]; [|done]. by apply Hk. Qed.
Lemma with_body_gated {A} (decode : string → result string A) k : (∀ v, gated (k v)) → gated (with_body r decode k).
Proof. intros Hk. unfold with_body. by destruct (decode _). Qed.
Lemma api_gated {A} (p : prog HOp A) : always (requests methods user) p (fun _ => True) → gated (api p).
Proof. intros Hp. by apply every_inline, call_sends. Qed.
Lemma try_gated {A} c (p : prog HOp (result client_error A)) k : always (requests methods user) p (fun _ => True) → (∀ a, gated (k a)) → gated (try_ c p k).
Proof. intros Hp Hk. apply always_true_seq; [by apply api_gated|]. by intros [a|e]. Qed.
Lemma try_done_gated c p : always (requests methods user) p (fun _ => True) → gated (try_done c p).
Proof. intros Hp. apply always_true_seq; [by apply api_gated|done]. Qed.
Lemma now_gated {A} (k : time → M A) : (∀ t, gated (k t)) → gated (now ≫= k).
Proof. intros Hk. split; [done|exact Hk]. Qed.


(** A method that is allowed. *)
Ltac allowed := first [assumption|by repeat (first [left|right])|set_solver].
(** The requests of a method of the client. *)
Ltac asks :=
  unfold Client.GetRun, Client.ListRuns, Client.ListTests, Client.GetResolvedTest, Client.TestStats, Client.TestCaseStats, Client.TestCaseHistory, Client.RunTestCases,
    Client.ListArtifacts, Client.RunEvents, Client.DeleteTest, Client.DeleteRun, Client.DeleteComment, Client.SetComment, Client.AbortRun, Client.CreateRun,
    Client.SetTestSchedule, Client.GetTest, Client.CreateTest, Client.ListTemplates, Client.PatchTest, Client.PatchTestWith, Client.OpenStageLogsFrom, Client.Healthz, Client.getJSON in *;
  first [apply sendJSON_requests | apply send_requests | apply pages_requests | (apply always_true_seq; [apply do_requests|by intros [?|?]])]; allowed.
(** One step of a handler. *)
Ltac gate_step :=
  lazymatch goal with
  | |- always _ (Ret _) _ => exact I
  | |- always _ (with_cluster _ _ _) _ => apply with_cluster_gated; intros ? ? ?
  | |- always _ (with_body _ _ _) _ => apply with_body_gated; intros ?
  | |- always _ (try_ _ _ _) _ => apply try_gated; [asks|intros ?]
  | |- always _ (try_done _ _) _ => apply try_done_gated; asks
  | |- always _ (now ≫= _) _ => apply now_gated; intros ?
  | |- always _ (api _ ≫= _) _ => apply always_true_seq; [apply api_gated; asks|intros ?]
  | |- always _ (if ?b then _ else _) _ => destruct b
  | |- always _ (match ?x with _ => _ end) _ => destruct x
  | |- always _ (let _ := _ in _) _ => cbv zeta
  end.
Ltac gate := repeat gate_step.

(** The handlers that read. *)
Lemma me_gated : gated (me r).
Proof. unfold me. gate. Qed.
Lemma getTest_gated : "GET" ∈ methods → gated (getTest s r).
Proof. intros Hg. unfold getTest. gate. Qed.
Lemma listTestRuns_gated : "GET" ∈ methods → gated (listTestRuns s r).
Proof. intros Hg. unfold listTestRuns. gate. Qed.
Lemma listSchedules_gated : "GET" ∈ methods → gated (listSchedules s r).
Proof. intros Hg. unfold listSchedules. gate. Qed.
Lemma listCases_gated : "GET" ∈ methods → gated (listCases s r).
Proof. intros Hg. unfold listCases. gate. Qed.
Lemma caseHistory_gated : "GET" ∈ methods → gated (caseHistory s r).
Proof. intros Hg. unfold caseHistory. gate. Qed.
Lemma compareRun_gated : "GET" ∈ methods → gated (compareRun s r).
Proof. intros Hg. unfold compareRun. gate. Qed.
Lemma overview_gated : "GET" ∈ methods → gated (overview s r).
Proof. intros Hg. unfold overview. gate. Qed.
Lemma analytics_gated : "GET" ∈ methods → gated (analytics s r).
Proof. intros Hg. unfold analytics. gate. Qed.
Lemma runLog_gated : "GET" ∈ methods → gated (runLog s r).
Proof. intros Hg. unfold runLog. gate. Qed.

Lemma compared_runs_gated client ns test names : "GET" ∈ methods → user (cl_user client) → gated (compared_runs client ns test names).
Proof.
  intros Hg Hu. induction names as [|n names IH]; cbn [compared_runs]; [exact I|]. apply always_true_seq; [apply api_gated; asks|].
  intros [run|e]; [|destruct (Client.IsNotFound e); [|exact I]]; by apply always_true_seq.
Qed.
Lemma compareRuns_gated : "GET" ∈ methods → gated (compareRuns s r).
Proof.
  intros Hg. unfold compareRuns. gate. apply always_true_seq; [|intros ?; gate]. unfold buildComparison. apply always_true_seq; [by apply compared_runs_gated|done].
Qed.

(** The editor's. *)
Lemma listNamespaces_gated : "GET" ∈ methods → gated (listNamespaces s r).
Proof. intros Hg. unfold listNamespaces. gate. apply always_true_seq; [unfold NamespacesOf; gate|done]. Qed.
Lemma listTemplates_gated : "GET" ∈ methods → gated (listTemplates s r).
Proof. intros Hg. unfold listTemplates. gate. Qed.
Lemma testForm_gated : "GET" ∈ methods → gated (testForm s r).
Proof.
  intros Hg. unfold testForm. gate. apply always_true_seq; [|by intros [form yaml]]. unfold FormOf. apply always_true_seq; [gate|done].
Qed.
Lemma build_form_gated client f base version changed : "GET" ∈ methods → user (cl_user client) → gated (build_form client f base version changed).
Proof.
  intros Hg Hu. unfold build_form. destruct (_ =? _)%string; [by destruct (ParseManifest _ _)|]. apply always_true_seq; [destruct (negb _); [by apply api_gated; asks|exact I]|].
  intros templates. apply always_true_seq; [destruct (_ =? _)%string; [exact I|by split]|]. intros t0. cbv zeta. by destruct (Build _ _ _ _) as [[t errs] warns].
Qed.
Lemma with_build_gated edit k : "GET" ∈ methods → (∀ client b, user (cl_user client) → gated (k client b)) → gated (with_build s r edit k).
Proof.
  intros Hg Hk. unfold with_build. gate_step. gate_step. cbv zeta. destruct edit.
  - gate_step. destruct (version_of _ _) as [version changed]. apply always_true_seq; [by apply build_form_gated|]. intros b. by apply Hk.
  - apply always_true_seq; [by apply build_form_gated|]. intros b. by apply Hk.
Qed.
Lemma preview_gated edit : "GET" ∈ methods → gated (preview s r edit).
Proof. intros Hg. by apply with_build_gated. Qed.
Lemma write_gated (edit : bool) : "GET" ∈ methods → (if edit then "PATCH" else "POST") ∈ methods → gated (write s r edit).
Proof.
  intros Hg Hm. apply with_build_gated; [done|]. intros client b Hu. destruct (eb_t b) as [t|]; [|exact I]. cbv zeta. destruct (_ <? _)%nat; [exact I|].
  destruct (eb_changed b); [exact I|]. apply always_true_seq; [|done]. unfold WriteTest. destruct edit; cbn [negb]; [destruct (EditPatch _ _ _); [|exact I]|]; apply api_gated; asks.
Qed.

(** The handlers that change something. *)
Lemma deleteTest_gated : "DELETE" ∈ methods → gated (deleteTest s r).
Proof. intros Hg. unfold deleteTest. gate. Qed.
Lemma setSchedule_gated : "PATCH" ∈ methods → gated (setSchedule s r).
Proof. intros Hg. unfold setSchedule. gate. Qed.
Lemma startRun_gated : "GET" ∈ methods → "POST" ∈ methods → gated (startRun s r).
Proof. intros Hg Hp. unfold startRun. gate. Qed.
Lemma rerun_gated : "GET" ∈ methods → "POST" ∈ methods → gated (rerun s r).
Proof. intros Hg Hp. unfold rerun. gate. Qed.
Lemma abortRun_gated : "POST" ∈ methods → gated (abortRun s r).
Proof. intros Hg. unfold abortRun. gate. Qed.
Lemma setComment_gated : "PUT" ∈ methods → gated (setComment s r).
Proof. intros Hg. unfold setComment. gate. Qed.
Lemma deleteComment_gated : "DELETE" ∈ methods → gated (deleteComment s r).
Proof. intros Hg. unfold deleteComment. gate. Qed.
Lemma deleteRun_gated : "DELETE" ∈ methods → gated (deleteRun s r).
Proof. intros Hg. unfold deleteRun. gate. Qed.

(** Those with goroutines, or with helpers. *)
Lemma find_pages_gated client ns test crit pages : "GET" ∈ methods → user (cl_user client) → ∀ after found scanned, gated (find_pages client ns test crit pages after found scanned).
Proof. intros Hg Hu. induction pages as [|n IH]; intros after found scanned; cbn [find_pages]; gate. apply IH. Qed.
Lemma previewCleanup_gated : "GET" ∈ methods → gated (previewCleanup s r).
Proof.
  intros Hg. unfold previewCleanup. gate. apply always_true_seq; [|intros ?; gate]. unfold findCleanup. apply always_true_seq; [by apply find_pages_gated|intros ?; gate].
Qed.

Lemma deleteFinishedRun_requests client ns test id : "GET" ∈ methods → "DELETE" ∈ methods → user (cl_user client) →
  always (requests methods user) (deleteFinishedRun client ns test id) (fun _ => True).
Proof. intros Hg Hd Hu. unfold deleteFinishedRun. apply always_true_seq; [asks|]. intros [run|e]; [|done]. lazymatch goal with |- context [if ?b then _ else _] => destruct b end; [done|asks]. Qed.
Lemma cleanup_gated : "GET" ∈ methods → "DELETE" ∈ methods → gated (cleanup s r).
Proof.
  intros Hg Hd. unfold cleanup. gate. split; [|intros ?; exact I]. apply Forall_fmap, Forall_true. intros id. by apply call_sends, deleteFinishedRun_requests.
Qed.
Lemma listTests_gated : "GET" ∈ methods → gated (listTests s r).
Proof.
  intros Hg. unfold listTests. gate. split.
  - repeat apply Forall_cons_2; [apply always_true_seq; [apply call_sends; asks|done]..|apply Forall_nil_2].
  - intros results. cbv beta iota delta [mbind prog_mbind prog_bind]. gate.
Qed.

(** The links are made without asking anyone. *)
Context (Hlive : ∀ f, s_LiveURL s = Some f → ∀ cluster ns run worker entry, always (sends methods user) (f cluster ns run worker entry) (fun _ => True)).

Lemma link_workers_gated link steps : (∀ worker, always (sends methods user) (link worker) (fun _ => True)) → gated (link_workers link steps).
Proof.
  intros Hl. induction steps as [|st steps IH]; [exact I|]. cbn [link_workers]. apply always_true_seq.
  - destruct (_ && _); [|exact I]. apply always_true_seq; [by apply every_inline|by intros].
  - intros st'. by apply always_true_seq.
Qed.
Lemma live_links_gated c run steps : gated (live_links s r c run steps).
Proof.
  unfold live_links. destruct (s_LiveURL s) as [f|] eqn:Ef; [|exact I]. destruct (_ && _); [|exact I]. cbv zeta. apply always_true_seq.
  - apply link_workers_gated. intros worker. by apply Hlive.
  - intros steps'. destruct (existsb _ _); [exact I|]. apply always_true_seq; [by apply every_inline, Hlive|by intros].
Qed.
Lemma getRun_gated : "GET" ∈ methods → gated (getRun s r).
Proof.
  intros Hg. unfold getRun. gate. apply always_true_seq; [apply live_links_gated|]. intros [steps live]. gate.
  apply always_true_seq; [unfold children_of; gate|intros children]. apply always_true_seq; [unfold failed_cases; gate|intros failed]. gate.
Qed.

Lemma clusters_gated : (∀ u, user u) → "GET" ∈ methods → gated (clusters s).
Proof.
  intros Hu Hg. unfold clusters. cbv zeta. split; [|by intros]. apply Forall_fmap, Forall_true. intros c. unfold probe. cbn beta.
  apply always_true_seq; [apply call_sends|intros e; by split]. assert (user (cl_user (cl_API c))) as Hc by apply Hu. asks.
Qed.

End Gates.

(** ** The routes *)

(** The methods of the requests of a route with a method and a role. *)
Definition methods_of (method : string) (role : Role) : list string :=
  if (method =? "POST")%string then match role with RoleViewer => ["GET"] | RoleDeveloper => ["GET"; "POST"] | RoleAdmin => ["GET"; "DELETE"] end
  else if (method =? "PUT")%string then ["GET"; "PUT"; "PATCH"] else [method].
(** The probes of the clusters are nobody's. *)
Definition probes : string := Prefix +:+ "/clusters".
Definition user_of_path (r : Req) (path : string) (u : string) : Prop := u = us_Email (q_User r) ∨ path = probes.

Section Routed.
Context `{Libraries}.
Context (s : Server) (r : Req).

Definition live_quiet : Prop :=
  ∀ f, s_LiveURL s = Some f → ∀ cluster ns run worker entry, always (sends [] (fun _ => False)) (f cluster ns run worker entry) (fun _ => True).

(** What is so of every route of the table. *)
Definition route_gated (rt : Route) : Prop :=
  always (every (sends (methods_of (rt_Method rt) (rt_Role rt)) (user_of_path r (rt_Path rt)))) (rt_handler rt) (fun _ => True).

Lemma route_gated_intro method path role h :
  always (every (sends (methods_of method role) (user_of_path r path))) h (fun _ => True) → route_gated (mkRoute method path role h).
Proof. done. Qed.

Lemma own path : user_of_path r path (us_Email (q_User r)).
Proof. by left. Qed.

Ltac member := refine (bool_decide_unpack _ _); vm_compute; exact I.
Ltac route lem := apply Forall_cons_2; [apply route_gated_intro, lem; [apply own|member..]|].

Lemma routes_gated : live_quiet → Forall route_gated (routes s r).
Proof.
  intros Hlive. assert (Hl : ∀ methods user f, s_LiveURL s = Some f → ∀ cluster ns run worker entry, always (sends methods user) (f cluster ns run worker entry) (fun _ => True)).
  { intros methods user f Hf cluster ns run worker entry. eapply always_weaken; [by apply Hlive|]. intros R [A [h]| |]; cbn; [|done..]. by intros [Hin%elem_of_nil _]. }
  unfold routes.
  apply Forall_cons_2; [apply route_gated_intro, me_gated|].
  apply Forall_cons_2; [apply route_gated_intro, clusters_gated; [intros u; by right|member]|].
  route listSchedules_gated. route listNamespaces_gated. route listTemplates_gated. route preview_gated. route write_gated. route listTests_gated. route getTest_gated.
  route testForm_gated. route preview_gated. route write_gated. route deleteTest_gated. route setSchedule_gated. route overview_gated.
  route analytics_gated. route compareRuns_gated. route listCases_gated. route caseHistory_gated. route compareRun_gated. route previewCleanup_gated. route cleanup_gated.
  route listTestRuns_gated. route startRun_gated.
  apply Forall_cons_2; [apply route_gated_intro, getRun_gated; [apply own|apply Hl|member]|].
  route runLog_gated. route abortRun_gated. route rerun_gated. route setComment_gated. route deleteComment_gated. route deleteRun_gated. apply Forall_nil_2.
Qed.

(** What the table says of a route: only what is not a viewer's changes anything, and only an admin's deletes, comments apart. *)
Definition entry_ok (method path : string) (role : Role) : bool :=
  (bool_decide (methods_of method role = ["GET"]) || negb (bool_decide (role = RoleViewer))) &&
  (negb (bool_decide ("DELETE" ∈ methods_of method role)) || bool_decide (role = RoleAdmin) || (path =? runPath +:+ "/comment")%string).
Definition route_entry_ok (rt : Route) : Prop := entry_ok (rt_Method rt) (rt_Path rt) (rt_Role rt) = true.
Lemma entry_ok_intro method path role h : entry_ok method path role = true → route_entry_ok (mkRoute method path role h).
Proof. done. Qed.
Lemma routes_entry_ok : Forall route_entry_ok (routes s r).
Proof. unfold routes. repeat (apply Forall_cons_2; [apply entry_ok_intro; vm_compute; reflexivity|]). apply Forall_nil_2. Qed.

Lemma serve_route_inv rt tr reply : runs (serve_route r rt) tr reply →
  (Can (q_User r) (rt_Role rt) = false ∧ tr = [] ∧ ∃ msg, reply = writeError 403 msg) ∨ (Can (q_User r) (rt_Role rt) = true ∧ runs (rt_handler rt) tr reply).
Proof.
  unfold serve_route, requireRole. case_bool_decide as Ev.
  - intros Hr. right. rewrite Ev. by split; [destruct (us_Role (q_User r))|].
  - destruct (Can _ _) eqn:Ec; cbn [negb]; [by right|]. intros [-> ->]. left. eauto.
Qed.

(** C10: a route does for a user what the user's role allows, and in the user's name:
    below the route's role nothing is asked of a cluster and the answer is 403; a
    request that is not a GET is only made for developers, and a DELETE for admins but
    for a run's comment; and but for the probes of the clusters, every request carries
    the email the user signed in with. *)
Theorem requests_gated rt tr reply : live_quiet → rt ∈ routes s r → runs (serve_route r rt) tr reply →
  (Can (q_User r) (rt_Role rt) = false → tr = [] ∧ ∃ msg, reply = writeError 403 msg) ∧
  ∀ h resp, Ev (Http (HTTPDo h)) resp ∈ tr →
    (hr_User h = us_Email (q_User r) ∨ rt_Path rt = probes) ∧
    (hr_Method h = "GET" ∨ Can (q_User r) RoleDeveloper = true) ∧
    (hr_Method h = "DELETE" → Can (q_User r) RoleAdmin = true ∨ rt_Path rt = runPath +:+ "/comment").
Proof.
  intros Hlive Hin Hruns. pose proof (routes_gated Hlive) as Hall. rewrite Forall_forall in Hall. specialize (Hall rt Hin).
  pose proof routes_entry_ok as Hok. rewrite Forall_forall in Hok. specialize (Hok rt Hin). unfold route_entry_ok, entry_ok in Hok. apply andb_true_iff in Hok as [Hview Hdel].
  destruct (serve_route_inv _ _ _ Hruns) as [(Hc & -> & Hmsg)|[Hc Hrun]].
  { split; [done|]. intros h resp Hin'%elem_of_nil. done. }
  split; [congruence|]. destruct (every_sound _ _ _ _ _ Hall Hrun) as [Hev _]. rewrite Forall_forall in Hev. intros h resp Hh. destruct (Hev _ Hh) as [Hm Hu].
  split; [exact Hu|]. assert (Hmono : ∀ a b, Can (q_User r) a = true → (role_level b <= role_level a)%nat → Can (q_User r) b = true).
  { unfold Can. intros a b Ha Hb. apply Nat.leb_le in Ha. apply Nat.leb_le. lia. }
  split.
  - apply orb_true_iff in Hview as [Hg%bool_decide_eq_true|Hr]; [left; rewrite Hg in Hm; by apply list_elem_of_singleton in Hm|].
    right. apply (Hmono _ _ Hc). destruct (rt_Role rt); cbn in *; [done|lia..].
  - intros Hd. rewrite Hd in Hm. apply orb_true_iff in Hdel as [Hdel|Hp%String.eqb_eq]; [left|by right].
    apply orb_true_iff in Hdel as [Hn|Ha%bool_decide_eq_true]; [|by rewrite <- Ha]. apply negb_true_iff, bool_decide_eq_false in Hn. contradiction.
Qed.
End Routed.

(** ** Sample parameters *)

Definition no_json {A} : JSON A := Build_JSON A (fun _ => "{}") (fun _ => Err "unexpected end of JSON input").
(** Every GET of a run answers [run]. *)
Definition sample_wire (run : ApiRuns.Run) : Wire :=
  Build_Wire no_json no_json no_json no_json no_json no_json no_json (Build_JSON ApiRuns.Run (fun _ => "{}") (fun _ => Ok run)) no_json no_json no_json no_json no_json
    no_json no_json no_json no_json no_json no_json no_json.
Definition sample_bodies (runs : list string) : Bodies := Build_Bodies (fun _ => Err "EOF") (fun _ _ => Err "EOF") (fun _ => Ok runs) (fun _ => Err "EOF").
Definition sample_libraries (run : ApiRuns.Run) : Libraries :=
  Build_Libraries (sample_wire run) (sample_bodies []) (fun _ => Ok "") (Scheduler.Build_Cron unit (fun _ => None) (fun _ t => t)) (fun _ => "") (fun _ => None) list_order
    (fun _ => "0") (Build_EnvVarSources (fun _ => None) (fun name key => name +:+ "/" +:+ key)) (Build_EditorChecks (fun _ => []) (fun _ => []) Some) (fun _ => true) (fun _ _ => Ok true)
    (Build_Manifests (fun _ => Ok "") (fun _ => Err "EOF")) (Build_Documents (fun _ _ _ => Ok Triggers.JNull) (fun _ _ => Ok [])).
Definition sample_run (id test phase : string) : ApiRuns.Run :=
  mkRun id id "team-a" test phase "" None None None 0 "" "" "" "" ∅ ∅ None ∅ ∅ [] None None None None "" "".
Definition sample_cluster : Cluster :=
  mkCluster (mkClusterConfig "prod" "" (mkClusterAuth "gcp" "" "") "https://k8s" "ca.pem" (mkAPIServer "kt" "api" 8080 "")) (mkClient "/proxy" "" "s3cret").
Definition sample_server : Server := mkServer [sample_cluster] None.
Definition sample_request (name : string) : Req :=
  mkReq [("cluster", "prod"); ("ns", "team-a"); ("name", name); ("id", name)] ∅ "" (mkUser "ops@example.com" RoleAdmin).
(** A request for a run in the sample user's name. *)
Definition sample_asks (method id : string) : HTTPRequest :=
  mkHTTP method ("/proxy/runs/" +:+ id) "namespace=team-a" "ops@example.com" "s3cret" false "".

Lemma requests_gated_witness :
  let r := sample_request "load-1" in
  Can (q_User r) RoleAdmin = true.
Proof.
  intros r. pose (o := Http (HTTPDo (sample_asks "DELETE" "load-1"))).
  pose (libraries := sample_libraries (sample_run "load-1" "load" "passed")). pose (rt := mkRoute "DELETE" runPath RoleAdmin (deleteRun sample_server r)).
  assert (Hin : rt ∈ routes sample_server r) by (apply list_elem_of_lookup_2 with 30; reflexivity).
  cut (Can (q_User r) RoleAdmin = true ∨ runPath = runPath +:+ "/comment"); [intros [Hc|Hc]; [exact Hc|discriminate Hc]|].
  refine (proj2 (proj2 (proj2 (requests_gated _ _ rt [Ev o (Ok (mkResponse 200 "" "" 0 ""))] NoContent _ Hin _) (sample_asks "DELETE" "load-1") (Ok (mkResponse 200 "" "" 0 "")) _)) eq_refl).
  - intros f Hf. discriminate Hf.
  - eexists _, [_], []. split; [reflexivity|]. split; [reflexivity|]. by split.
  - left.
Defined.

End ControlCenterSpec.
