(* ===== verification/EditorApiSpec.v ===== *)
(** * What a save of the editor asks for

    An edit (editor_api.go) is read, built and sent back as one merge patch: of the Test
    that was read, on the version it was read at or the form was opened at, and only while
    the definition is the one the form was opened with. *)
From Stdlib Require Import SpecFloat.
From S2P Require Import Prelude Api GoLib Names Keys Objects Sorting Effects Pools Urls Store Triggers ApiRuns ApiServer Routes Client ClientSpec Scheduler Expr Resolver Natural Views Comparison Access Editor ControlCenter EditorApi UiRoutes ControlCenterSpec.

Module EditorApiSpec.
Import Keys Urls ApiRuns Routes Client Expr Resolver Natural Views Access Editor ControlCenter EditorApi UiRoutes ControlCenterSpec.

(** ** Executions of a handler *)

Lemma runs_bind_inv {A B} (p : M A) (f : A → M B) tr b : runs (p ≫= f) tr b → ∃ tr1 tr2 a, tr = tr1 ++ tr2 ∧ runs p tr1 a ∧ runs (f a) tr2 b.
Proof.
  revert tr. induction p as [a|R o k IH]; intros tr.
  - intros Hr. by exists [], tr, a.
  - intros (r & tr1 & tr2 & -> & Hp & (tr3 & tr4 & a & -> & H1 & H2)%IH). exists (tr1 ++ tr3), tr4, a. rewrite app_assoc. split_and!; [done| |done]. by exists r, tr1, tr3.
Qed.

(** The event of a request in a handler's trace. *)
Definition in_handler (e : event HOp) : event TOp := translate_event (fun _ o => Http o) e.
Lemma runs_api {A} (p : prog HOp A) tr a : runs (api p) tr a → ∃ tr0, tr = in_handler <$> tr0 ∧ exec p tr0 a.
Proof.
  revert tr. induction p as [b|R o k IH]; intros tr.
  - intros [-> ->]. exists []. split; [done|constructor].
  - intros (r & tr1 & tr2 & -> & Hp & (tr0 & -> & Hex)%IH). cbn in Hp. subst tr1. exists (Ev o r :: tr0). split; [done|by constructor].
Qed.

(** ** Requests *)

(** [h] is what the client asks with. *)
Definition asked_with (c : Client) (method path : string) (q : Values) (body : option string) (h : HTTPRequest) : Prop :=
  ∃ u, PathUnescape (cl_base c +:+ path) = Ok u ∧
    h = mkHTTP method (EscapedPath (cl_base c +:+ path) u) (Encode q) (cl_user c) (cl_token c) (bool_decide (is_Some body)) (default "" body).

(** All the requests of a program, or of a handler, satisfy [P]. *)
Definition asking (P : HTTPRequest → Prop) R (o : HOp R) : Prop := match o with HTTPDo h => P h end.
Definition guarded (P : HTTPRequest → Prop) R (o : TOp R) : Prop := match o with Http o => asking P _ o | _ => True end.

Section Calls.
Context `{Wire} (c : Client) (P : HTTPRequest → Prop).

Lemma do_asking method path q body : (∀ h, asked_with c method path q body h → P h) → always (asking P) (do_ c method path q body) (fun _ => True).
Proof.
  intros HP. unfold do_. destruct (PathUnescape _) as [u|e] eqn:Eu; [|done]. split; [apply HP; by exists u|]. intros [resp|e]; cbn; [|done]. by destruct (_ && _).
Qed.
Lemma sendJSON_asking {A} `{JSON A} method path q body : (∀ h, asked_with c method path q body h → P h) →
  always (asking P) (sendJSON c method path q body : prog HOp (result client_error A)) (fun _ => True).
Proof. intros HP. eapply always_true_seq; [by apply do_asking|]. intros [resp|e]; [|done]. by destruct (Unmarshal _). Qed.

Lemma api_guarded {A} (p : prog HOp A) : always (asking P) p (fun _ => True) → always (every (guarded P)) (api p) (fun _ => True).
Proof. intros Hp. by apply every_inline, (always_translate (fun R o => Http o) (guarded P) p). Qed.

(** A value that was read was in the answer of its request. *)
Lemma sendJSON_read {A} `{JSON A} method path q body tr (a : A) : exec (sendJSON c method path q body) tr (Ok a) →
  ∃ h resp, tr = [Ev (HTTPDo h) (Ok resp)] ∧ asked_with c method path q body h ∧ Unmarshal (rs_Body resp) = Ok a.
Proof.
  intros (tr1 & tr2 & x & -> & Hd & Hk)%exec_bind_inv. unfold do_ in Hd. destruct (PathUnescape _) as [u|e] eqn:Eu.
  2:{ apply exec_ret_inv in Hd as [-> ->]. by apply exec_ret_inv in Hk as [_ ?]. }
  apply exec_do_inv in Hd as (res & tr' & -> & Hex). cbn in Hex. destruct res as [resp|e]; [destruct (_ && _)|]; apply exec_ret_inv in Hex as [-> ->];
    [|by apply exec_ret_inv in Hk as [_ ?]..].
  destruct (Unmarshal (rs_Body resp)) as [out|e] eqn:Ebody; apply exec_ret_inv in Hk as [-> Eout]; [|done]. injection Eout as ->.
  eexists _, resp. split_and!; [reflexivity|by exists u|exact Ebody].
Qed.
End Calls.

(** ** The Test a form builds is the one that is edited *)

Definition same_names (a b : Test) : Prop := om_Name (t_Meta a) = om_Name (t_Meta b) ∧ om_Namespace (t_Meta a) = om_Namespace (t_Meta b).

Section Names.
Context `{EnvVarSources, EditorChecks, FloatSyntax, Regexp, Scheduler.Cron, CronErrors, Manifests}.

Lemma fail_if_test cond msg b : b_t (fail_if cond msg b) = b_t b.
Proof. by destruct cond. Qed.
Lemma check_test e b : b_t (check e b) = b_t b.
Proof. by destruct e. Qed.
Lemma folded_meta {X} (f : builder → X → builder) xs : (∀ b x, t_Meta (b_t (f b x)) = t_Meta (b_t b)) → ∀ b, t_Meta (b_t (foldl f b xs)) = t_Meta (b_t b).
Proof. intros Hf. induction xs as [|x xs IH]; intros b; [done|]. cbn. by rewrite IH, Hf. Qed.

Lemma container_meta b : t_Meta (b_t (container b)) = t_Meta (b_t b).
Proof. unfold container. repeat destruct (setQuantity _ _ _ _) as [? ?]. cbn. by rewrite !check_test, !fail_if_test. Qed.
Lemma add_files_meta files acc : t_Meta (b_t (foldl add_file acc files).2) = t_Meta (b_t acc.2).
Proof. revert acc. induction files as [|x files IH]; intros [fs b]; [done|]. cbn [foldl]. rewrite IH. unfold add_file. by destruct (_ =? _)%string. Qed.
Lemma content_meta was b : t_Meta (b_t (content was b)) = t_Meta (b_t b).
Proof.
  unfold content. cbv zeta. destruct (if fm_UseFiles (b_form b) then _ else _) as [files b'] eqn:E. unfold testData. rewrite folded_meta by done. cbn. rewrite fail_if_test.
  destruct (fm_UseFiles (b_form b)); [|injection E as _ <-; by rewrite !fail_if_test].
  replace b' with (foldl add_file ([], fail_if (fm_UseGit (b_form b) && (fm_GitURI (b_form b) =? "")%string) "Git repository: required when the content comes from git."
    (fail_if (fm_UseGit (b_form b) && (fm_GitPath (b_form b) =? "")%string) pathRequired b)) (fm_Files (b_form b))).2 by by rewrite E.
  rewrite add_files_meta. cbn. by rewrite !fail_if_test.
Qed.
Lemma set_param_meta name p v b : t_Meta (b_t (set_param name p v b)) = t_Meta (b_t b).
Proof. unfold set_param. destruct (_ || _); [done|]. by destruct (CoerceParam _ _ _). Qed.
Lemma checkInCheckout_test name v b : b_t (checkInCheckout name v b) = b_t b.
Proof. unfold checkInCheckout. destruct (ct_Git _); [|done]. by destruct (_ || _). Qed.
Lemma params_meta tmpl changed b : t_Meta (b_t (params tmpl changed b)) = t_Meta (b_t b).
Proof.
  unfold params. cbv zeta. destruct (MainPathParam _) as [main kind]. rewrite folded_meta.
  - rewrite fail_if_test. by destruct changed.
  - intros b' n. unfold param_step. cbv zeta. destruct (n =? main)%string; [|apply set_param_meta]. destruct (_ && _); [done|]. by rewrite set_param_meta, checkInCheckout_test.
Qed.
Lemma pod_meta b : t_Meta (b_t (pod b)) = t_Meta (b_t b).
Proof. unfold pod. cbn. by rewrite !check_test. Qed.
Lemma timing_meta t0 b : t_Meta (b_t (timing t0 b)) = t_Meta (b_t b).
Proof. unfold timing. cbv zeta. destruct (_ =? "")%string; cbn; [by rewrite fail_if_test|]. destruct (NextFires _ _ _); cbn; by rewrite fail_if_test. Qed.

Lemma Build_names f base tmpl t0 : om_Name (t_Meta base) ≠ "" → same_names (Build f base tmpl t0).1.1 base.
Proof.
  intros Hn. unfold Build. cbv zeta. cbn [fst]. assert (Hm : t_Meta (b_t (timing t0 (pod match tmpl with
    | Some tmpl => params tmpl (negb (FirstOf (ts_Use (t_Spec (b_t (named (mkBuilder f base [] []))))) =? fm_Template f)%string)
        (content (ct_Git (ts_Content (t_Spec base))) (container (template (Some tmpl) (named (mkBuilder f base [] [])))))
    | None => content (ct_Git (ts_Content (t_Spec base))) (container (template None (named (mkBuilder f base [] [])))) end))) =
    t_Meta (b_t (template tmpl (named (mkBuilder f base [] []))))).
  { rewrite timing_meta, pod_meta. destruct tmpl; [rewrite params_meta|]; by rewrite content_meta, container_meta. }
  unfold same_names. destruct tmpl; rewrite Hm; unfold named; cbn [b_t]; rewrite (proj2 (String.eqb_neq _ _) Hn); unfold template; cbn; by rewrite fail_if_test.
Qed.

Lemma ParseManifest_names text base t errs : om_Name (t_Meta base) ≠ "" → ParseManifest text base = (Some t, errs) → same_names t base.
Proof.
  intros Hn. unfold ParseManifest, manifest_names. destruct (UnmarshalManifest text) as [m|e]; [|done]. rewrite (proj2 (String.eqb_neq _ _) Hn). intros E. injection E as <- _. done.
Qed.
End Names.

(** ** The patch *)

Definition field (k : string) (j : Triggers.json) : option Triggers.json :=
  match j with Triggers.JObject fields => snd <$> find_first (fun kv => kv.1 =? k)%string fields | _ => None end.
(** What a patch says the Test's version must be. *)
Definition conditional_on (j : Triggers.json) : option Triggers.json := m ← field "metadata" j; field "resourceVersion" m.

Lemma set_field_first k v fields : find_first (fun kv => kv.1 =? k)%string (set_field k v fields) = Some (k, v).
Proof. induction fields as [|[k' v'] fields IH]; cbn; [by rewrite String.eqb_refl|]. destruct (k' =? k)%string eqn:E; cbn; [by rewrite String.eqb_refl|]. by rewrite E. Qed.
Lemma EditPatch_conditional `{Documents} old version updated doc : EditPatch old version updated = Ok doc → conditional_on doc = Some (Triggers.JString version).
Proof.
  unfold EditPatch. destruct (edit_document old) as [a|e]; [|done]. cbn. destruct (edit_document updated) as [b|e]; [|done]. cbn. destruct (CreateMergePatch a b) as [p|e]; [|done]. cbn.
  intros E. injection E as <-. unfold conditional_on, field. rewrite set_field_first. cbn. by rewrite set_field_first.
Qed.

(** ** The course of an edit *)

Section Edits.
Context `{Libraries} (s : Server) (r : Req).

Definition reads (h : HTTPRequest) : Prop := hr_Method h = "GET".

(** The Test that was read, and the form's claims on it: the definition is the one the
    form was opened with, where both have one. *)
Definition same_definition (f : TestForm) (current : VersionedTest) : Prop :=
  (0 < fm_Generation f)%Z → (0 < vt_Generation current)%Z → fm_Generation f = vt_Generation current.
(** The version a save needs: the one that was read, or, of a form without a generation, the form's. *)
Definition saved_on (f : TestForm) (current : VersionedTest) : string :=
  if (0 <? fm_Generation f)%Z && (0 <? vt_Generation current)%Z then vt_ResourceVersion current else fm_ResourceVersion f.

(** [h] is a merge patch of a Test, conditional on a version. *)
Definition patches (c : Client) (name namespace version : string) (h : HTTPRequest) : Prop :=
  ∃ doc, conditional_on doc = Some (Triggers.JString version) ∧
    asked_with c "PATCH" ("/tests/" +:+ PathEscape name) (write_query (mkWrite (query r "dry-run" =? "true")%string) namespace) (Some (Marshal doc)) h.

Lemma version_of_spec f current : version_of f current = (saved_on f current, (version_of f current).2) ∧ ((version_of f current).2 = false → same_definition f current).
Proof.
  unfold version_of, saved_on, same_definition. destruct ((0 <? fm_Generation f)%Z && (0 <? vt_Generation current)%Z) eqn:E; cbn.
  - split; [done|]. intros Hg%negb_false_iff%Z.eqb_eq. done.
  - split; [done|]. intros _ Hf Hc. apply andb_false_iff in E as [E|E]; apply Z.ltb_ge in E; lia.
Qed.

Lemma build_form_course P client f base version changed : (∀ h, reads h → P h) → om_Name (t_Meta base) ≠ "" →
  always (every (guarded P)) (build_form client f base version changed)
    (fun b => eb_resourceVersion b = version ∧ eb_changed b = changed ∧ ∀ t, eb_t b = Some t → same_names t base).
Proof.
  intros HP Hn. unfold build_form. destruct (_ =? _)%string.
  - destruct (ParseManifest (fm_YAML f) base) as [t errs] eqn:E. split_and!; [done..|]. cbn. intros t' ->. by eapply ParseManifest_names.
  - eapply always_seq with (Q' := fun _ => True).
    + destruct (negb _); [|exact I]. apply api_guarded, sendJSON_asking. intros h (u & _ & ->). by apply HP.
    + intros templates _. eapply always_seq with (Q' := fun _ => True); [destruct (_ =? _)%string; [exact I|by split]|]. intros t0 _. cbv zeta.
      pose proof (Build_names f base (FindTemplate (or_nothing templates) (fm_Template f)) t0 Hn) as Hb. destruct (Build _ _ _ _) as [[t errs] warns].
      split_and!; [done..|]. intros t' E. by injection E as <-.
Qed.

(** What is asked once the Test was read. *)
Definition after_read (f : TestForm) (client : Client) (current : VersionedTest) (h : HTTPRequest) : Prop :=
  reads h ∨ same_definition f current ∧ patches client (om_Name (t_Meta (vt_Test current))) (om_Namespace (t_Meta (vt_Test current))) (saved_on f current) h.

Lemma WriteTest_course f client current base t : same_definition f current → same_names t (vt_Test current) →
  always (every (guarded (after_read f client current))) (WriteTest client true base t (saved_on f current) (query r "dry-run" =? "true")%string) (fun _ => True).
Proof.
  intros Hd [Hn Hns]. unfold WriteTest. cbn [negb]. destruct (EditPatch _ _ _) as [doc|e] eqn:E; [|exact I]. apply api_guarded, sendJSON_asking.
  intros h Hh. right. split; [done|]. exists doc. split; [by eapply EditPatch_conditional|]. by rewrite <- Hn, <- Hns.
Qed.

(** What [write] does with a built form. *)
Definition writing (edit : bool) (client : Client) (b : editorBuild) : M CReply :=
  let refused := Ret (writeJSON 400 (BFormError (mkFormError (str_join " " (eb_errors b)) (eb_errors b)))) in
  match eb_t b with
  | None => refused
  | Some t =>
      if (0 <? length (eb_errors b))%nat then refused
      else if eb_changed b then Ret (writeError 409 testChanged)
      else
        let dryRun := (query r "dry-run" =? "true")%string in
        written ← WriteTest client edit (eb_base b) t (eb_resourceVersion b) dryRun;
        Ret (match written with
             | Err e => write_refused e edit
             | Ok w => writeJSON (if negb edit && negb dryRun then 201 else 200) (BSaved (mkSaved (om_Namespace (t_Meta w)) (om_Name (t_Meta w)) dryRun (ManifestYAML t)))
             end)
  end.
Lemma write_writing edit : write s r edit = with_build s r edit (writing edit).
Proof. done. Qed.

Lemma writing_course f client current b : eb_resourceVersion b = saved_on f current → (eb_changed b = false → same_definition f current) →
  (∀ t, eb_t b = Some t → same_names t (vt_Test current)) → always (every (guarded (after_read f client current))) (writing true client b) (fun _ => True).
Proof.
  intros Hv Hd Hn. unfold writing. destruct (eb_t b) as [t|]; [|exact I]. cbv zeta. destruct (_ <? _)%nat; [exact I|]. destruct (eb_changed b) eqn:Ec; [exact I|].
  rewrite Hv. apply always_true_seq; [|done]. apply WriteTest_course; [by apply Hd|by apply Hn].
Qed.

(** What an edit asks for after the Test was read, the name of which is not empty. *)
Lemma after_read_course f client current : om_Name (t_Meta (vt_Test current)) ≠ "" →
  always (every (guarded (after_read f client current)))
    (let '(version, changed) := version_of f current in b ← build_form client (rename (ControlCenter.ns r) (ControlCenter.name r) f) (vt_Test current) version changed; writing true client b)
    (fun _ => True).
Proof.
  intros Hn. destruct (version_of_spec f current) as [E Hd]. destruct (version_of f current) as [version changed]. injection E as ->. cbn in Hd.
  eapply always_seq; [apply build_form_course; [by left|done]|]. intros b (Hv & Hc & Ht). apply writing_course; [done|by rewrite Hc|done].
Qed.

(** The Test of the path, as the API answered it. *)
Definition was_read (c : Client) (current : VersionedTest) (e : event TOp) : Prop :=
  ∃ h resp, e = Ev (Http (HTTPDo h)) (Ok resp) ∧ asked_with c "GET" ("/tests/" +:+ PathEscape (ControlCenter.name r)) (Client.ns (ControlCenter.ns r)) None h ∧
    Unmarshal (rs_Body resp) = Ok current.

(** C11: saving an edit overwrites nothing it was not made from.  When the Tests of the cluster
    have names, all that a save asks for is to read, but for one kind of request: a merge patch,
    in the user's name, of the Test that was read just before, which the API takes only at one
    version of it.  Where the form and the Test have generations they are the same one, and the
    version is the one that was read; else it is the version the form was opened with. *)
Theorem edit_is_conditional form tr reply h resp :
  decode_TestForm (str_take maxBody (q_Body r)) = Ok form → runs (write s r true) tr reply →
  (∀ c current, Exists (was_read c current) tr → om_Name (t_Meta (vt_Test current)) ≠ "") →
  Ev (Http (HTTPDo h)) resp ∈ tr → hr_Method h ≠ "GET" →
  ∃ cluster current, Access.Get (s_Clusters s) (path_value r "cluster") = Some cluster ∧
    let c := AsUser (cl_API cluster) (us_Email (q_User r)) in
    (∃ before after, tr = before ++ after ∧ Exists (was_read c current) before ∧ Ev (Http (HTTPDo h)) resp ∈ after) ∧ same_definition (Normalize form) current ∧
    patches c (om_Name (t_Meta (vt_Test current))) (om_Namespace (t_Meta (vt_Test current))) (saved_on (Normalize form) current) h.
Proof.
  intros Hform Hruns Hnamed Hin Hm. rewrite write_writing in Hruns. unfold with_build, with_cluster in Hruns. destruct (Access.Get _ _) as [cl|].
  2:{ destruct Hruns as [-> _]. by apply elem_of_nil in Hin. }
  exists cl. unfold with_body in Hruns. rewrite Hform in Hruns. cbv zeta in Hruns. set (c := AsUser _ _) in *. unfold try_ in Hruns.
  apply runs_bind_inv in Hruns as (tr1 & tr2 & x & -> & Hread & Hrest).
  assert (H1 : Forall (event_sat (guarded reads)) tr1).
  { refine (proj1 (every_sound _ _ _ _ _ (api_guarded reads _ _) Hread)). apply sendJSON_asking. by intros h' (u & _ & ->). }
  assert (Hin2 : Ev (Http (HTTPDo h)) resp ∈ tr2).
  { apply elem_of_app in Hin as [Hin|Hin]; [|done]. rewrite Forall_forall in H1. by specialize (H1 _ Hin). }
  destruct x as [current|e]; [|destruct Hrest as [-> _]; by apply elem_of_nil in Hin2].
  apply runs_api in Hread as (tr0 & -> & (g & got & -> & Hg & Hu)%sendJSON_read).
  assert (Hex : Exists (was_read c current) ((in_handler <$> [Ev (HTTPDo g) (Ok got)]) ++ tr2)) by (apply Exists_app; left; apply Exists_cons_hd; by exists g, got).
  exists current. split; [done|]. cbv zeta. split; [eexists _, tr2; split; [reflexivity|]; split; [|done]; apply Exists_cons_hd; by exists g, got|].
  destruct (every_sound _ _ _ _ _ (after_read_course (Normalize form) c current (Hnamed _ _ Hex)) Hrest) as [Hall _]. rewrite Forall_forall in Hall.
  by destruct (Hall _ Hin2) as [Hr|[Hd Hp]].
Qed.
End Edits.

(** An edit as YAML of a Test read at version 41, in its third generation. *)
Definition edited_test : Test := mkTest (mkMeta "load" "team-a" "u" ∅ ∅ 1 None [] []) zeroTestSpec None.
Definition edited : VersionedTest := mkVersioned edited_test "41" 3.
Definition edit_form (generation : Z) : TestForm :=
  mkForm "team-a" "load" "" "" "" "" "" "" false "" "" "" "" "" "" false [] [] ∅ "" "" "" "" "" "" "" "" "" "" ModeYAML "spec: {}" "40" generation.
Definition edit_libraries (generation : Z) : Libraries :=
  let wire := Build_Wire no_json no_json (Build_JSON Test (fun _ => "{}") (fun _ => Ok edited_test)) (Build_JSON VersionedTest (fun _ => "{}") (fun _ => Ok edited)) no_json
    no_json no_json no_json no_json no_json no_json no_json no_json no_json no_json no_json no_json no_json no_json no_json in
  let bodies := Build_Bodies (fun _ => Err "EOF") (fun _ _ => Err "EOF") (fun _ => Ok []) (fun _ => Ok (edit_form generation)) in
  let sample := sample_libraries (sample_run "load-1" "load" "passed") in
  Build_Libraries wire bodies l_yamlview l_cron l_cron_errors l_uris l_order l_decimals l_sources l_checks l_floats l_regexp
    (Build_Manifests (fun _ => Ok "") (fun _ => Ok (mkManifest "" "" "load" "team-a" ∅ ∅ zeroTestSpec))) l_documents.
Definition answered : result string HTTPResponse := Ok (mkResponse 200 "" "" 2 "{}").

Lemma edit_is_conditional_witness :
  let libraries := edit_libraries 3 in let r := sample_request "load" in
  ∃ current, same_definition (Normalize (edit_form 3)) current ∧ saved_on (Normalize (edit_form 3)) current = "41".
Proof.
  intros libraries r. pose (ask method json body := Ev (Http (HTTPDo (mkHTTP method "/proxy/tests/load" "namespace=team-a" "ops@example.com" "s3cret" json body))) answered).
  destruct (edit_is_conditional sample_server r (edit_form 3) [ask "GET" false ""; ask "PATCH" true "{}"] (writeJSON 200 (BSaved (mkSaved "team-a" "load" false "")))
    (mkHTTP "PATCH" "/proxy/tests/load" "namespace=team-a" "ops@example.com" "s3cret" true "{}") answered) as (cluster & current & _ & (before & after & Htr & Hread & _) & Hd & _).
  - reflexivity.
  - eexists answered, [_], [_]. split; [reflexivity|]. split; [reflexivity|]. eexists answered, [_], []. split; [reflexivity|]. split; [reflexivity|]. split; reflexivity.
  - intros c current (e & _ & (h & resp & _ & _ & E))%Exists_exists. injection E as <-. discriminate.
  - right. left.
  - discriminate.
  - exists current. split; [exact Hd|]. apply Exists_exists in Hread as (e & _ & (h & resp & _ & _ & E)). injection E as <-. reflexivity.
Defined.

End EditorApiSpec.
