(* ===== verification/BulkDeleteSpec.v ===== *)
(** * What a cleanup deletes

    Control Center's cleanup of a Test (cleanup.go), whatever the schedule of its
    goroutines and the answers of the API: it deletes only runs that were read just
    before and were finished runs of the Test, and it says of every run it was given
    what became of it. *)
From Stdlib Require Import SpecFloat.
From S2P Require Import Prelude Api GoLib Names Keys Objects Verdicts Sorting Effects Pools Urls Store Triggers ApiRuns ApiServer Routes Client Scheduler Natural Views Access ControlCenter ControlCenterSpec.

Module BulkDelete.
Import Keys Urls Store ApiRuns ApiServer Routes Client Views Access ControlCenter ControlCenterSpec.

(** ** The courses of one call *)

Section Calls.
Context `{Wire} (c : Client).

(** [h] is the client's request with a method for a run. *)
Definition asks (method namespace id : string) (h : HTTPRequest) : Prop :=
  ∃ u, PathUnescape (cl_base c +:+ "/runs/" +:+ PathEscape id) = Ok u ∧
    h = mkHTTP method (EscapedPath (cl_base c +:+ "/runs/" +:+ PathEscape id) u) (Encode (Client.ns namespace)) (cl_user c) (cl_token c) false "".

Definition accepted (resp : HTTPResponse) : bool := (200 <=? rs_Status resp)%Z && (rs_Status resp <? 300)%Z.

Lemma do_course method namespace id tr res : exec (do_ c method ("/runs/" +:+ PathEscape id) (Client.ns namespace) None) tr res →
  (tr = [] ∧ ∃ e, res = Err e) ∨
  ∃ h a, tr = [Ev (HTTPDo h) a] ∧ asks method namespace id h ∧
    match a with Ok resp => if accepted resp then res = Ok resp else ∃ e, res = Err e | Err _ => ∃ e, res = Err e end.
Proof.
  unfold do_. destruct (PathUnescape _) as [u|e] eqn:Eu; [|intros [-> ->]%exec_ret_inv; left; eauto].
  intros (a & tr' & -> & Hex)%exec_do_inv. right. exists (mkHTTP method (EscapedPath (cl_base c +:+ "/runs/" +:+ PathEscape id) u) (Encode (Client.ns namespace)) (cl_user c) (cl_token c) false ""), a.
  cbn in Hex. destruct a as [resp|e].
  - unfold accepted. destruct (_ && _); apply exec_ret_inv in Hex as [-> ->]; (split_and!; [done|by exists u|eauto]).
  - apply exec_ret_inv in Hex as [-> ->]. split_and!; [done|by exists u|eauto].
Qed.

Lemma GetRun_course namespace id tr res : exec (GetRun c namespace id) tr res →
  (tr = [] ∧ ∃ e, res = Err e) ∨
  ∃ h a, tr = [Ev (HTTPDo h) a] ∧ asks "GET" namespace id h ∧
    ((∃ e, res = Err e) ∨ ∃ resp run, a = Ok resp ∧ Unmarshal (rs_Body resp) = Ok run ∧ res = Ok run).
Proof.
  intros (tr1 & tr2 & x & -> & Hd & Hk)%exec_bind_inv. destruct (do_course _ _ _ _ _ Hd) as [[-> [e ->]]|(h & a & -> & Hh & Ha)].
  - apply exec_ret_inv in Hk as [-> ->]. left. eauto.
  - right. exists h, a. destruct a as [resp|e']; [destruct (accepted resp)|].
    + subst x. destruct (Unmarshal (rs_Body resp)) as [run|e] eqn:Eu; apply exec_ret_inv in Hk as [-> ->]; (split_and!; [done|done|]); [right; eauto|left; eauto].
    + destruct Ha as [e ->]. apply exec_ret_inv in Hk as [-> ->]. split_and!; [done|done|left; eauto].
    + destruct Ha as [e ->]. apply exec_ret_inv in Hk as [-> ->]. split_and!; [done|done|left; eauto].
Qed.

Lemma DeleteRun_course namespace id tr res : exec (DeleteRun c namespace id) tr res →
  (tr = [] ∧ is_Some res) ∨
  ∃ h a, tr = [Ev (HTTPDo h) a] ∧ asks "DELETE" namespace id h ∧
    (res = None ↔ match a with Ok resp => accepted resp = true | Err _ => False end).
Proof.
  intros (tr1 & tr2 & x & -> & Hd & Hk)%exec_bind_inv. apply exec_ret_inv in Hk as [-> ->].
  destruct (do_course _ _ _ _ _ Hd) as [[-> [e ->]]|(h & a & -> & Hh & Ha)]; [left; by split; [|eexists]|right].
  exists h, a. split_and!; [done|done|]. destruct a as [resp|e']; [destruct (accepted resp)|].
  - by subst x.
  - destruct Ha as [e ->]. done.
  - destruct Ha as [e ->]. done.
Qed.

(** The run was read, and was a finished run of the Test. *)
Definition read_finished (namespace test id : string) (run : ApiRuns.Run) (e : event HOp) : Prop :=
  ∃ h resp, e = Ev (HTTPDo h) (Ok resp) ∧ asks "GET" namespace id h ∧ Unmarshal (rs_Body resp) = Ok run ∧ e_TestRef run = test ∧ Finished (e_Phase run) = true.

(** Nothing is deleted, and there is an error; or one thing, after it was read. *)
Lemma deletion_course namespace test id tr res : exec (deleteFinishedRun c namespace test id) tr res →
  (is_Some res ∧ Forall (fun e => ∃ h a, e = Ev (HTTPDo h) a ∧ hr_Method h = "GET") tr) ∨
  ∃ run e h a, tr = [e; Ev (HTTPDo h) a] ∧ read_finished namespace test id run e ∧ asks "DELETE" namespace (RunID run) h ∧
    (res = None ↔ match a with Ok resp => accepted resp = true | Err _ => False end).
Proof.
  intros (tr1 & tr2 & x & -> & Hg & Hk)%exec_bind_inv.
  assert (Hread : Forall (fun e => ∃ h a, e = Ev (HTTPDo h) a ∧ hr_Method h = "GET") tr1).
  { destruct (GetRun_course _ _ _ _ Hg) as [[-> _]|(h & a & -> & (u & _ & ->) & _)]; [apply Forall_nil_2|]. apply Forall_singleton. by eexists _, _. }
  destruct x as [run|e]; [|apply exec_ret_inv in Hk as [-> ->]; left; rewrite app_nil_r; by split; [eexists|]].
  destruct (negb _ || negb _) eqn:Eb; [apply exec_ret_inv in Hk as [-> ->]; left; rewrite app_nil_r; by split; [eexists|]|].
  apply orb_false_iff in Eb as [Et%negb_false_iff%String.eqb_eq Ef%negb_false_iff].
  destruct (DeleteRun_course _ _ _ _ Hk) as [[-> Hs]|(h & a & -> & Hh & Hres)]; [left; by rewrite app_nil_r|right].
  destruct (GetRun_course _ _ _ _ Hg) as [[-> [e ?]]|(g & b & -> & Hgh & [[e ?]|(resp & run' & -> & Hu & [= <-])])]; [done|done|].
  exists run, (Ev (HTTPDo g) (Ok resp)), h, a. split_and!; [done|by exists g, resp|done|done].
Qed.
End Calls.

(** ** The whole cleanup *)

(** The answer to a DELETE that was accepted. *)
Definition deletes {R} (o : HOp R) : R → bool :=
  match o in HOp R return R → bool with HTTPDo h => fun a => match a with Ok resp => (hr_Method h =? "DELETE")%string && accepted resp | Err _ => false end end.
Definition is_deletion (e : event TOp) : bool :=
  match e with Ev o a => match o in TOp R return R → bool with Http o => deletes o | _ => fun _ => false end a end.

(** An event of a goroutine that calls the API. *)
Abbreviation Sent e := (@translate_event HOp TOp (fun R o => Http o) e).

Section Cleanup.
Context `{Wire}.
Context (client : Client) (namespace test : string) (ids : list string).

Definition threads : list (prog TOp (option client_error)) := (fun id => call (deleteFinishedRun client namespace test id)) <$> ids.

(** Each outcome is that of a course of the run's deletion, and every event is of such a course. *)
Lemma thread_course i p tr res : threads !! i = Some p → exec p tr res →
  ∃ id (tr0 : list (event HOp)), ids !! i = Some id ∧ tr = (fun e : event HOp => Sent e) <$> tr0 ∧ exec (deleteFinishedRun client namespace test id) tr0 res.
Proof.
  unfold threads. rewrite list_lookup_fmap. intros (id & Hid & ->)%fmap_Some Hex. apply exec_translate in Hex as (tr0 & -> & Hex). eauto.
Qed.

Lemma course_deletions id tr res : exec (deleteFinishedRun client namespace test id) tr res →
  countb is_deletion ((fun e : event HOp => Sent e) <$> tr) = (if bool_decide (res = None) then 1 else 0).
Proof.
  intros [[[e ->] Hf]|(run & e & h & a & -> & (g & resp & -> & (u & _ & ->) & _) & (u' & _ & ->) & Hres)]%deletion_course.
  - cbn. apply countb_zero, Forall_fmap. eapply Forall_impl; [exact Hf|]. intros e' (h & a & -> & Hm). cbn. rewrite Hm. by destruct a.
  - unfold countb. cbn. destruct a as [resp'|e']; cbn; [destruct (accepted resp') eqn:Ea|]; cbn.
    + by rewrite (proj2 Hres).
    + rewrite bool_decide_eq_false_2; [done|]. intros Hn%Hres. done.
    + rewrite bool_decide_eq_false_2; [done|]. by intros Hn%Hres.
Qed.

Lemma pool_outcomes po (tr : Pools.trace (Op := TOp)) : Pools.steps cleanupParallel (Pools.begin threads) tr po → Pools.complete po →
  ∃ outcomes, length outcomes = length ids ∧ Pools.po_finished po ≡ₚ enumerate outcomes ∧
    (∀ i id o, ids !! i = Some id → outcomes !! i = Some o →
       ∃ tr0 : list (event HOp), Pools.of_thread i tr = (fun e : event HOp => Sent e) <$> tr0 ∧ exec (deleteFinishedRun client namespace test id) tr0 o) ∧
    (∀ e, e ∈ tr → ∃ id, ids !! e.1 = Some id).
Proof.
  intros Hs Hc. destruct (Pools.complete_results _ _ _ _ Hs Hc) as (Hids & Hres & Hev).
  assert (Hlen : length threads = length ids) by apply length_fmap. rewrite Hlen in *.
  destruct (Pools.results_enumerate _ _ Hids) as (outcomes & Ho & Hperm). exists outcomes. split_and!; [done|done| |].
  - intros i id o Hid Hoi. assert (Hin : (i, o) ∈ Pools.po_finished po) by (rewrite Hperm; apply (list_elem_of_lookup_2 _ i); by rewrite lookup_enumerate, Hoi).
    destruct (Hres i o Hin) as (p & Hp & Hex). destruct (thread_course _ _ _ _ Hp Hex) as (id' & tr0 & Hid' & Htr & Hex'). simplify_eq. eauto.
  - intros e He. destruct (Hev e He) as [Hlt _]. by apply lookup_lt_is_Some_2.
Qed.


(** The order in which the goroutines ended does not show. *)
Lemma cleanup_result_order results outcomes : results ≡ₚ enumerate outcomes →
  cleanup_result ids results =
  mkCleaned (Z.of_nat (countb (fun o => bool_decide (o = None)) outcomes)) (Z.of_nat (length ids)) (str_sort (omap (failure_of ids) (enumerate outcomes))).
Proof.
  intros Hp. unfold cleanup_result. f_equal.
  - f_equal. rewrite <- (countb_enumerate _ outcomes), (countb_perm _ _ _ Hp). apply countb_ext. intros [i []]; reflexivity.
  - apply str_sort_unique. by rewrite Hp.
Qed.

Lemma failures_length outcomes : length (omap (failure_of ids) (enumerate outcomes)) + countb (fun o => bool_decide (o = None)) outcomes = length outcomes.
Proof.
  rewrite <- (countb_enumerate _ outcomes). assert (Hl : length (enumerate outcomes) = length outcomes) by apply length_imap. rewrite <- Hl. clear Hl.
  induction (enumerate outcomes) as [|[i [e|]] es IH]; [done|..]; rewrite countb_cons; cbn in *; lia.
Qed.

Lemma pool_deletions (tr : Pools.trace (Op := TOp)) outcomes : length outcomes = length ids →
  (∀ i id o, ids !! i = Some id → outcomes !! i = Some o →
     ∃ tr0 : list (event HOp), Pools.of_thread i tr = (fun e : event HOp => Sent e) <$> tr0 ∧ exec (deleteFinishedRun client namespace test id) tr0 o) →
  (∀ e, e ∈ tr → ∃ id, ids !! e.1 = Some id) →
  countb is_deletion (snd <$> tr) = countb (fun o => bool_decide (o = None)) outcomes.
Proof.
  intros Hlen Hcourse Hev. rewrite (Pools.count_threads _ (length ids)).
  2:{ apply Forall_forall. intros e [id He]%Hev. by eapply lookup_lt_Some. }
  rewrite <- Hlen. apply Pools.sum_counts. intros i o Ho. cbv beta.
  destruct (lookup_lt_is_Some_2 ids i) as [id Hid]; [rewrite <- Hlen; by eapply lookup_lt_Some|].
  destruct (Hcourse i id o Hid Ho) as (tr0 & -> & Hex). rewrite (course_deletions _ _ _ Hex). by case_bool_decide.
Qed.

(** A DELETE of the pool comes after the reading of its run. *)
Definition read_before (pre : list (event TOp)) (h : HTTPRequest) : Prop :=
  ∃ id run get resp, id ∈ ids ∧ Ev (Http (HTTPDo get)) (Ok resp) ∈ pre ∧ asks client "GET" namespace id get ∧ Unmarshal (rs_Body resp) = Ok run ∧
    e_TestRef run = test ∧ Finished (e_Phase run) = true ∧ asks client "DELETE" namespace (RunID run) h.

Lemma course_read id tr0 o pre h a post : exec (deleteFinishedRun client namespace test id) tr0 o →
  (fun e : event HOp => Sent e) <$> tr0 = pre ++ Ev (Http (HTTPDo h)) a :: post → hr_Method h = "DELETE" → id ∈ ids → read_before pre h.
Proof.
  intros [[_ Hf]|(run & e & d & b & -> & (g & resp & -> & Hg & Hu & Ht & Hfin) & Hd & _)]%deletion_course Htr Hm Hid.
  - assert (Hin : Ev (Http (HTTPDo h)) a ∈ (fun e : event HOp => Sent e) <$> tr0) by (rewrite Htr; set_solver). apply list_elem_of_fmap in Hin as (e & Ee & He).
    rewrite Forall_forall in Hf. destruct (Hf e He) as (h' & a' & -> & Hm'). cbn in Ee. injection Ee as <- _. congruence.
  - destruct Hg as (u & Hu1 & Eg). destruct pre as [|e1 [|e2 pre]]; cbn in Htr.
    + injection Htr as Eh _ _. subst g. rewrite <- Eh in Hm. done.
    + injection Htr as <- Eh _ _. subst d. exists id, run, g, resp. split_and!; try done; [by left|by exists u].
    + injection Htr as _ _ Hnil. by destruct pre.
Qed.

End Cleanup.

(** Where the client, the names and the runs of a cleanup come from. *)
Definition cleanup_of `{Bodies} (s : Server) (r : Req) (client : Client) (ids : list string) : Prop :=
  ∃ c names, Access.Get (s_Clusters s) (path_value r "cluster") = Some c ∧ client = AsUser (cl_API c) (us_Email (q_User r)) ∧
    decode_CleanupRequest (str_take maxBody (q_Body r)) = Ok names ∧ ids = distinct_names names ∧ 0 < length ids ≤ MaxCleanup.

(** C12: whatever the schedule of its goroutines and the API's answers, a cleanup either
    asks nothing of the API and answers an error, or deletes for at most 200 distinct
    runs: each DELETE comes after a GET of a requested run that was answered with a
    finished run of the Test, and is of that run; the count of the answer is that of
    the DELETEs the API accepted, and with the failures it accounts for every run: the
    failures, sorted, are of the outcomes of the runs one by one, so the order in which
    the goroutines ended does not show. *)
Theorem cleanup_deletes_finished `{Wire, Bodies} s r tr reply : runs (cleanup s r) tr reply →
  (tr = [] ∧ ∃ status msg, reply = writeError status msg) ∨
  ∃ client ids outcomes failures, cleanup_of s r client ids ∧
    (∀ pre h a post, tr = pre ++ Ev (Http (HTTPDo h)) a :: post → hr_Method h = "DELETE" → read_before client (ns r) (name r) ids pre h) ∧
    reply = writeJSON 200 (BCleaned (mkCleaned (Z.of_nat (countb is_deletion tr)) (Z.of_nat (length ids)) failures)) ∧
    countb is_deletion tr + length failures = length ids ∧
    failures = str_sort (omap (failure_of ids) (enumerate outcomes)) ∧
    Forall2 (fun id o => ∃ course, exec (deleteFinishedRun client (ns r) (name r) id) course o ∧ ∀ e, e ∈ course → Sent e ∈ tr) ids outcomes.
Proof.
  unfold cleanup, with_cluster. destruct (Access.Get _ _) as [c|] eqn:Ec; [|intros [-> ->]; left; eauto].
  unfold with_body. destruct (decode_CleanupRequest _) as [names|e] eqn:Ed; [|intros [-> ->]; left; eauto].
  set (client := AsUser _ _). set (ids := distinct_names names). destruct (Nat.eqb_spec (length ids) 0) as [|Hne]; [intros [-> ->]; left; eauto|].
  destruct (Nat.ltb_spec MaxCleanup (length ids)) as [|Hle]; [intros [-> ->]; left; eauto|].
  intros (results & tr1 & tr2 & -> & (po & trp & Hs & Hc & -> & ->) & [-> ->]). right.
  change ((fun id => call (deleteFinishedRun client (ns r) (name r) id)) <$> ids) with (threads client (ns r) (name r) ids) in Hs.
  destruct (pool_outcomes _ _ _ _ _ _ Hs Hc) as (outcomes & Hlen & Hperm & Hcourse & Hev). rewrite app_nil_r.
  pose proof (pool_deletions _ _ _ _ _ _ Hlen Hcourse Hev) as Hdel.
  exists client, ids, outcomes, (str_sort (omap (failure_of ids) (enumerate outcomes))). split_and!.
  - exists c, names. split_and!; [done|done|done|done|lia|done].
  - intros pre h a post Etr Hm. apply fmap_app_inv in Etr as (trpre & trpost & -> & Epost & ->). symmetry in Epost.
    apply fmap_cons_inv in Epost as ([i e] & trpost' & Ee & -> & ->). cbn in Ee. subst e.
    destruct (Hev (i, Ev (Http (HTTPDo h)) a)) as [id Hid]; [apply elem_of_app; right; left|]. cbn in Hid.
    destruct (lookup_lt_is_Some_2 outcomes i) as [o Ho]; [rewrite Hlen; by eapply lookup_lt_Some|].
    destruct (Hcourse i id o Hid Ho) as (tr0 & Etr0 & Hex). rewrite Pools.of_thread_split in Etr0.
    destruct (course_read _ _ _ _ _ _ _ _ _ _ _ Hex (eq_sym Etr0) Hm (list_elem_of_lookup_2 _ _ _ Hid)) as (id' & run & get & resp & Hin & Hget & Hrest).
    exists id', run, get, resp. split; [done|]. split; [by eapply Pools.of_thread_elem|done].
  - rewrite Hdel. f_equal. f_equal. by apply cleanup_result_order.
  - rewrite Hdel, (Permutation_length (str_sort_perm _)), <- Hlen. rewrite Nat.add_comm. apply failures_length.
  - done.
  - apply Forall2_same_length_lookup_2; [done|]. intros i id o Hid Ho. destruct (Hcourse i id o Hid Ho) as (tr0 & Etr0 & Hex). exists tr0. split; [done|].
    intros e He. eapply Pools.of_thread_elem. rewrite Etr0. by apply list_elem_of_fmap_2.
Qed.

(** One run, of the Test and finished: it is read, and deleted. *)
Lemma cleanup_deletes_finished_witness :
  let wire := sample_wire (sample_run "load-1" "load" "passed") in
  let client := AsUser (cl_API sample_cluster) "ops@example.com" in
  ∃ ids, @read_before wire client "team-a" "load" ids [Ev (Http (HTTPDo (sample_asks "GET" "load-1"))) (Ok (mkResponse 200 "" "" 2 "{}"))] (sample_asks "DELETE" "load-1").
Proof.
  intros wire client. pose (bodies := sample_bodies [" load-1"; "load-1"]). pose (get := Ev (Http (HTTPDo (sample_asks "GET" "load-1"))) (Ok (mkResponse 200 "" "" 2 "{}"))).
  pose (del := @Ev TOp _ (Http (HTTPDo (sample_asks "DELETE" "load-1"))) (Ok (mkResponse 200 "" "" 0 ""))).
  destruct (@cleanup_deletes_finished wire bodies sample_server (sample_request "load") [get; del] (writeJSON 200 (BCleaned (mkCleaned 1 1 [])))) as [[Hnil _]|(client' & ids & os & fs & Hof & Hread & _)].
  - exists [(0, None)], [get; del], []. split; [reflexivity|]. split; [|by split].
    eexists (Pools.mkPool [] [] [(0, None)]), [(0, get); (0, del)]. split; [|by split_and!].
    change [(0, get); (0, del)] with (((([] ++ []) ++ [(0, get)]) ++ [(0, del)]) ++ []).
    eapply Pools.steps_then; [eapply Pools.steps_then; [eapply Pools.steps_then; [eapply Pools.steps_then; [apply Pools.steps_refl|]|]|]|].
    + apply Pools.step_start. cbn. unfold cleanupParallel. lia.
    + apply (Pools.step_perform _ [] []).
    + apply (Pools.step_perform _ [] []).
    + exact (Pools.step_return _ [] [] 0 None [] []).
  - discriminate Hnil.
  - destruct Hof as (c & names & Hc & Hcl & _). injection Hc as <-. subst client'. exists ids. exact (Hread [get] _ _ [] eq_refl eq_refl).
Defined.
End BulkDelete.
