(* ===== verification/ApiListSpec.v ===== *)
(** * What GET /runs promises

    The listing of runs over the cluster and run history, walked by a client from
    cursor to cursor, through the store's program and what its statement means: each
    page is a page of one table, the finished runs of both, newest first.  It is one
    only while no stored run still looks live in the cluster: a page with such a run
    can hide others for good. *)
From stdpp Require Import sorting.
From S2P Require Import Prelude Api GoLib Names Keys Objects Phases Effects Ops Calendar Termination Logstream Sorting Retention Store StoreSpec ApiRuns ApiServer Urls.

Module ApiListSpec.
Import Objects Phases Calendar Store StoreSpec Ops ApiRuns ApiServer.

(** ** The cursor *)

Definition no_pipe (s : string) : Prop := Forall (fun x => x ≠ "|"%char) (Names.chars s).
Lemma no_pipe_app a b : no_pipe a → no_pipe b → no_pipe (a +:+ b).
Proof. unfold no_pipe. rewrite Names.chars_app. apply Forall_app_2. Qed.
Lemma no_pipe_pad w z : (0 <= z)%Z → no_pipe (itoa_pad w z).
Proof.
  intros Hz. pose proof (digits_pad w z Hz) as Hd. eapply Forall_impl; [exact Hd|]. intros c Hc ->. done.
Qed.
Lemma no_pipe_fraction n : ∀ v, (0 <= v < 10 ^ Z.of_nat n)%Z → no_pipe (fraction_text n v).
Proof.
  induction n as [|n IH]; intros v Hv; cbn [fraction_text]; [constructor|]. destruct (v =? 0)%Z; [constructor|].
  assert (Hp : (10 ^ Z.of_nat (S n) = 10 * 10 ^ Z.of_nat n)%Z) by (rewrite Nat2Z.inj_succ, Z.pow_succ_r; lia).
  assert (0 < 10 ^ Z.of_nat n)%Z by (apply Z.pow_pos_nonneg; lia).
  cbn. constructor; [|by apply IH, Z.mod_pos_bound].
  intros Hd. apply (f_equal digit) in Hd. rewrite digit_of_char in Hd; [done|]. split; [apply Z.div_pos; lia|apply Z.div_lt_upper_bound; lia].
Qed.

Lemma no_pipe_time t : formattable t → no_pipe (RFC3339Nano t).
Proof.
  intros Hy. unfold RFC3339Nano, date_part, clock_part. destruct (month_of_day_spec (t / second / 86400)%Z) as (Hv & Hb & Hd).
  assert (Hym : month_of_day (t / second / 86400)%Z = (civil_from_days (t / second / 86400)%Z).1) by (unfold month_of_day; by destruct (civil_from_days _) as [[]]).
  unfold formattable in Hy. rewrite Hym in *. destruct (civil_from_days (t / second / 86400)%Z) as [[y m] d]. unfold valid_month in Hv. cbn [fst snd] in *.
  pose proof (Z.mod_pos_bound (t / second)%Z 86400 ltac:(lia)) as Hs. pose proof (Z.mod_pos_bound t second ltac:(done)) as Hn. set (secs := ((t / second) mod 86400)%Z) in *.
  assert (no_pipe "-" ∧ no_pipe "T" ∧ no_pipe ":" ∧ no_pipe "Z" ∧ no_pipe "." ∧ no_pipe "") as (? & ? & ? & ? & ? & ?) by (split_and!; repeat constructor; discriminate).
  repeat apply no_pipe_app; try done; try (apply no_pipe_pad; first [lia|apply Z.div_pos; lia|apply Z.mod_pos_bound; lia]).
  destruct (_ =? 0)%Z; [done|]. apply no_pipe_app; [done|by apply no_pipe_fraction].
Qed.

(** A cursor decodes to the position it was made of, to the nanosecond. *)
Lemma cursor_decoded `{Uuids} t uid : formattable t → uuid_Parse uid = true → decodeRunCursor (encodeRunCursor t uid) = Ok (Some (mkCursor t uid)).
Proof.
  intros Ht Hu. unfold decodeRunCursor, encodeRunCursor.
  destruct (String.eqb_spec (Base64.EncodeToString (RFC3339Nano t +:+ "|" +:+ uid)) "") as [He|_].
  { pose proof (Base64.decode_encode (RFC3339Nano t +:+ "|" +:+ uid)) as Hd. rewrite He in Hd. cbn in Hd. injection Hd as Hd.
    apply (f_equal Names.chars) in Hd. rewrite !Names.chars_app in Hd. cbn in Hd. symmetry in Hd. by apply app_nil in Hd as [_ [=]]. }
  rewrite Base64.decode_encode. change ("|" +:+ uid) with (String "|" uid). rewrite Keys.Cut_char by (by apply no_pipe_time).
  by rewrite RFC3339Nano_read, Hu.
Qed.

(** ** The clusters' runs *)

Section Listing.
Context `{MapOrder, Floats, Uuids, WebLib}.

Definition entry_place (e : Run) : time * string := (default 0%Z (e_FinishedAt e), e_UID e).
Definition env := runEnvelopeFromCR.

(** A finished run of the cluster the query asks for, at whatever page. *)
Definition asked (lq : listRunsQuery) (cr : TestRun) : bool :=
  query_matches lq cr && IsTerminalPhase (run_phase cr) && finishedAfterOK (env cr) (lq_finishedAfter lq).
Definition shown (lq : listRunsQuery) (cr : TestRun) : bool := asked lq cr && before (lq_cursor lq) (env cr).
Definition live_in (lq : listRunsQuery) (crs : list TestRun) (uid : string) : Prop :=
  ∃ cr, cr ∈ crs ∧ query_matches lq cr = true ∧ IsTerminalPhase (run_phase cr) = false ∧ run_uid cr = uid.

Lemma collect_snoc lq crs cr : collect_runs lq (crs ++ [cr]) = collect_run lq (collect_runs lq crs) cr.
Proof. unfold collect_runs. by rewrite foldl_app. Qed.

Lemma collect_spec lq crs : lq_wantFinished lq = true → NoDup (run_uid <$> crs) →
  (∀ uid e, cl_finished (collect_runs lq crs) !! uid = Some e ↔ ∃ cr, cr ∈ crs ∧ run_uid cr = uid ∧ shown lq cr = true ∧ e = env cr) ∧
  (∀ uid, uid ∈ cl_liveUIDs (collect_runs lq crs) ↔ live_in lq crs uid) ∧
  Forall (fun e => ∃ cr, cr ∈ crs ∧ e = env cr ∧ IsTerminalPhase (run_phase cr) = false) (cl_live (collect_runs lq crs)).
Proof.
  intros Hw. induction crs as [|cr crs IH] using rev_ind; intros Hnd.
  { split_and!; [|intros uid; cbn; split; [set_solver|intros (? & ?%elem_of_nil & _); done]|constructor].
    intros uid e. cbn. rewrite lookup_empty. split; [done|]. intros (? & ?%elem_of_nil & _). done. }
  rewrite fmap_app, NoDup_app in Hnd. destruct Hnd as (Hnd & Hdis & _). destruct (IH Hnd) as (Hf & Hl & Hlive). rewrite collect_snoc. unfold collect_run.
  assert (Hnew : ∀ x, x ∈ crs → run_uid x ≠ run_uid cr).
  { intros x Hx He. apply (Hdis (run_uid x)); [by apply list_elem_of_fmap_2|]. rewrite He. apply list_elem_of_here. }
  assert (Hweak : Forall (fun e => ∃ c, c ∈ crs ++ [cr] ∧ e = env c ∧ IsTerminalPhase (run_phase c) = false) (cl_live (collect_runs lq crs))).
  { eapply Forall_impl; [exact Hlive|]. intros e (c & Hc & ?). exists c. rewrite elem_of_app. auto. }
  assert (Hkeep : shown lq cr = false → ∀ uid e, cl_finished (collect_runs lq crs) !! uid = Some e ↔
    ∃ c, c ∈ crs ++ [cr] ∧ run_uid c = uid ∧ shown lq c = true ∧ e = env c).
  { intros Hs uid e. rewrite Hf. split; intros (c & Hc & Hrest); exists c; rewrite elem_of_app in *; [by split; [left|]|].
    destruct Hc as [Hc|Hc%list_elem_of_singleton]; [done|]. subst c. destruct Hrest as (_ & Ht & _). congruence. }
  assert (Hlkeep : query_matches lq cr = false ∨ IsTerminalPhase (run_phase cr) = true → ∀ uid, uid ∈ cl_liveUIDs (collect_runs lq crs) ↔ live_in lq (crs ++ [cr]) uid).
  { intros Hs uid. rewrite Hl. split; intros (c & Hc & Hm & Ht & Hu); exists c; rewrite elem_of_app in *; [by split; [left|]|].
    destruct Hc as [Hc|Hc%list_elem_of_singleton]; [done|]. subst c. destruct Hs; congruence. }
  destruct (query_matches lq cr) eqn:Em; cbn [negb].
  2: { split_and!; [apply Hkeep; unfold shown, asked; by rewrite Em|apply Hlkeep; by left|done]. }
  destruct (IsTerminalPhase (run_phase cr)) eqn:Et; cbn [negb].
  - rewrite Hw. cbn [andb]. change (runEnvelopeFromCR cr) with (env cr).
    assert (Hs : finishedAfterOK (env cr) (lq_finishedAfter lq) && before (lq_cursor lq) (env cr) = shown lq cr) by (unfold shown, asked; by rewrite Em, Et).
    rewrite Hs. destruct (shown lq cr) eqn:Es; cbn [cl_finished cl_liveUIDs cl_live]; split_and!; try (by apply Hkeep); try (apply Hlkeep; by right); try done.
    intros uid e. change (e_UID (env cr)) with (run_uid cr). rewrite lookup_insert_Some, Hf. split.
    + intros [[<- <-]|[Hne (c & Hc & Hrest)]]; [exists cr|exists c]; rewrite elem_of_app; (split; [|done]); [right; apply list_elem_of_here|by left].
    + intros (c & Hc & <- & Hsc & ->). rewrite elem_of_app in Hc. destruct Hc as [Hc|Hc%list_elem_of_singleton]; [right|subst c; by left].
      split; [intros Heq; by apply (Hnew c)|]. by exists c.
  - cbn [cl_finished cl_liveUIDs cl_live]. split_and!.
    + apply Hkeep. unfold shown, asked. by rewrite Em, Et.
    + intros uid. change (e_UID (runEnvelopeFromCR cr)) with (run_uid cr). rewrite elem_of_union, elem_of_singleton, Hl. split.
      * intros [->|(c & Hc & ?)]; [exists cr|exists c]; rewrite elem_of_app; [|by split; [left|]]. split; [right; apply list_elem_of_here|done].
      * intros (c & Hc & Hm & Ht & <-). rewrite elem_of_app in Hc. destruct Hc as [Hc|Hc%list_elem_of_singleton]; [right; by exists c|subst c; by left].
    + destruct (lq_wantLive lq); [|done]. apply Forall_app_2; [done|]. constructor; [|constructor]. exists cr. rewrite elem_of_app, list_elem_of_singleton. auto.
Qed.

(** ** The merge *)

Definition own_uid (m : gmap string Run) : Prop := ∀ uid e, m !! uid = Some e → e_UID e = uid.

Lemma merge_spec live rows : ∀ fin, own_uid fin → (∀ r, r ∈ rows → rw_UID r ∉ live) → NoDup (rw_UID <$> rows) →
  own_uid (merge_rows live fin rows) ∧
  ∀ uid k, entry_place <$> merge_rows live fin rows !! uid = Some k ↔
    entry_place <$> fin !! uid = Some k ∨ (fin !! uid = None ∧ ∃ r, r ∈ rows ∧ rw_UID r = uid ∧ entry_key r = k).
Proof.
  induction rows as [|r rows IH] using rev_ind; intros fin Hfin Hlive Hnd.
  { split; [done|]. intros uid k. cbn. split; [by left|]. intros [?|(_ & ? & ?%elem_of_nil & _)]; done. }
  rewrite fmap_app, NoDup_app in Hnd. destruct Hnd as (Hnd & Hdis & _).
  destruct (IH fin Hfin) as [Hown Hkeys]; [intros x Hx; apply Hlive; rewrite elem_of_app; by left|done|].
  assert (Hnot : rw_UID r ∉ rw_UID <$> rows) by (intros Hin; by apply (Hdis _ Hin), list_elem_of_here).
  assert (Hstep : merge_rows live fin (rows ++ [r]) = merge_row live (merge_rows live fin rows) r) by (unfold merge_rows; by rewrite foldl_app).
  rewrite Hstep. clear Hstep. unfold merge_row. destruct (merge_rows live fin rows !! rw_UID r) as [e|] eqn:E.
  - assert (Hf : is_Some (fin !! rw_UID r)).
    { specialize (Hkeys (rw_UID r) (entry_place e)). rewrite E in Hkeys. destruct (proj1 Hkeys eq_refl) as [Hin|(_ & x & Hx & Hu & _)].
      - destruct (fin !! rw_UID r); [by eexists|done].
      - exfalso. apply Hnot. rewrite <- Hu. by apply list_elem_of_fmap_2. }
    split.
    + intros uid x. rewrite lookup_insert_Some. intros [[<- <-]|[_ Hx]]; [|by apply Hown]. cbn. by apply Hown in E.
    + intros uid k. destruct (decide (uid = rw_UID r)) as [->|Hne].
      * rewrite lookup_insert_eq. cbn [fmap option_fmap option_map]. change (entry_place (with_Comment (rw_Comment r) e)) with (entry_place e).
        specialize (Hkeys (rw_UID r) k). rewrite E in Hkeys. cbn [fmap option_fmap option_map] in Hkeys. rewrite Hkeys. destruct Hf as [x Hf]. rewrite Hf. split.
        -- intros [?|[? _]]; [by left|done].
        -- intros [?|[? _]]; [by left|done].
      * rewrite lookup_insert_ne, Hkeys by done. split; (intros [?|(Hn & x & Hx & Hu & Hk)]; [by left|right; split; [done|]; exists x; rewrite elem_of_app in *]).
        -- by split; [left|].
        -- destruct Hx as [Hx|Hx%list_elem_of_singleton]; [done|subst x; congruence].
  - rewrite bool_decide_eq_false_2 by (apply Hlive; rewrite elem_of_app; right; apply list_elem_of_here).
    assert (Hf : fin !! rw_UID r = None).
    { destruct (fin !! rw_UID r) as [x|] eqn:Ef; [|done]. specialize (Hkeys (rw_UID r) (entry_place x)). rewrite E, Ef in Hkeys. pose proof (proj2 Hkeys (or_introl eq_refl)) as Hno. discriminate. }
    split.
    + intros uid x. rewrite lookup_insert_Some. intros [[<- <-]|[_ Hx]]; [done|by apply Hown].
    + intros uid k. destruct (decide (uid = rw_UID r)) as [->|Hne].
      * rewrite lookup_insert_eq, Hf. cbn [fmap option_fmap option_map]. split.
        -- intros [= <-]. right. split; [done|]. exists r. split; [rewrite elem_of_app; right; apply list_elem_of_here|done].
        -- intros [?|(_ & x & Hx & Hu & <-)]; [done|]. rewrite elem_of_app in Hx. destruct Hx as [Hx|Hx%list_elem_of_singleton]; [|by subst x].
           exfalso. apply Hnot. rewrite <- Hu. by apply list_elem_of_fmap_2.
      * rewrite lookup_insert_ne, Hkeys by done. split; (intros [?|(Hn & x & Hx & Hu & Hk)]; [by left|right; split; [done|]; exists x; rewrite elem_of_app in *]).
        -- by split; [left|].
        -- destruct Hx as [Hx|Hx%list_elem_of_singleton]; [done|subst x; congruence].
Qed.

(** The keys of a map of runs by their UIDs. *)
Definition keys_of (m : gmap string Run) : list (time * string) := entry_place <$> (snd <$> range m).
Lemma keys_of_elem m k : k ∈ keys_of m ↔ ∃ uid, entry_place <$> m !! uid = Some k.
Proof.
  unfold keys_of. rewrite !list_elem_of_fmap. split.
  - intros (e & -> & ([uid e'] & -> & Hin)%list_elem_of_fmap). rewrite range_perm in Hin. apply elem_of_map_to_list in Hin. exists uid. by rewrite Hin.
  - intros (uid & Hk). destruct (m !! uid) as [e|] eqn:E; [|done]. injection Hk as <-. exists e. split; [done|].
    apply list_elem_of_fmap. exists (uid, e). split; [done|]. rewrite range_perm. by apply elem_of_map_to_list.
Qed.
Lemma keys_of_nodup m : own_uid m → NoDup (keys_of m).
Proof.
  intros Hown. apply (NoDup_fmap_1 snd). unfold keys_of. rewrite range_perm. replace (snd <$> (entry_place <$> (map_to_list m).*2)) with ((map_to_list m).*1); [apply NoDup_fst_map_to_list|].
  rewrite <- !list_fmap_compose. apply list_fmap_ext. intros i [uid e] Hin. apply list_elem_of_lookup_2, elem_of_map_to_list in Hin. cbn. by rewrite (Hown _ _ Hin).
Qed.

(** ** One table *)

Record moment := mkSnapshot { sn_runs : list TestRun; sn_db : DB }.
Definition runs_in (ns : string) (sn : moment) : list TestRun := List.filter (fun cr => given ns (run_ns cr)) (sn_runs sn).

(** A row is the finished run of the cluster with its uid, when there is one. *)
Definition same_run (cr : TestRun) (c : RunColumns) : Prop :=
  IsTerminalPhase (run_phase cr) = true ∧ st_FinishedAt (r_Status cr) = Some (c_finished_at c) ∧
  c_namespace c = run_ns cr ∧ c_test_ref c = rs_TestRef (r_Spec cr) ∧ c_phase c = phase_string (run_phase cr) ∧
  default "" (c_source c) = rs_Source (r_Spec cr) ∧ default "" (c_parent_run c) = default "" (om_Labels (r_Meta cr) !! Store.LabelParentRun).

(** What can be in a cursor. *)
Definition cursor_ok (k : time * string) : Prop := good_cursor (Some k) ∧ uuid_Parse k.2 = true ∧ formattable k.1.

Record consistent (sn : moment) : Prop := {
  cn_kept : well_kept (sn_db sn);
  cn_uids : NoDup (run_uid <$> sn_runs sn);
  cn_one : ∀ c c', c ∈ rows (sn_db sn) → c' ∈ rows (sn_db sn) → c_uid c = c_uid c' → c = c';
  cn_times : ∀ cr, cr ∈ sn_runs sn → IsTerminalPhase (run_phase cr) = true → ∃ t, st_FinishedAt (r_Status cr) = Some t ∧ cursor_ok (t, run_uid cr);
  cn_rows : ∀ c, c ∈ rows (sn_db sn) → cursor_ok (row_key c) ∧ terminal_text (c_phase c) = true;
  cn_same : ∀ cr c, cr ∈ sn_runs sn → c ∈ rows (sn_db sn) → c_uid c = run_uid cr → same_run cr c }.

(** The finished runs a query asks for, by finishing time and uid: the cluster's, and
    those only history has. *)
Definition archived (sn : moment) (lq : listRunsQuery) (c : RunColumns) : bool :=
  matches (store_filter lq) c && negb (bool_decide (c_uid c ∈ run_uid <$> runs_in (lq_ns lq) sn)).
Definition history (sn : moment) (lq : listRunsQuery) : list (time * string) :=
  (entry_place ∘ env <$> List.filter (asked lq) (runs_in (lq_ns lq) sn)) ++ (row_key <$> List.filter (archived sn lq) (rows (sn_db sn))).

Definition cursor_key (c : option runCursor) : option (time * string) := (fun c => (rc_FinishedAt c, rc_UID c)) <$> c.

Lemma runs_in_elem ns sn cr : cr ∈ runs_in ns sn ↔ cr ∈ sn_runs sn ∧ given ns (run_ns cr) = true.
Proof. unfold runs_in. by rewrite list_elem_of_In, List.filter_In, <- list_elem_of_In. Qed.
Lemma lfilter_elem {A} (f : A → bool) xs x : x ∈ List.filter f xs ↔ x ∈ xs ∧ f x = true.
Proof. by rewrite list_elem_of_In, List.filter_In, <- list_elem_of_In. Qed.
Lemma lfilter_nodup {A} (f : A → bool) xs : NoDup xs → NoDup (List.filter f xs).
Proof. intros Hd. by apply NoDup_ListNoDup, List.NoDup_filter, NoDup_ListNoDup. Qed.

Lemma runs_in_uids ns sn : consistent sn → NoDup (run_uid <$> runs_in ns sn).
Proof.
  intros Hc. pose proof (cn_uids _ Hc) as Hnd. unfold runs_in. induction (sn_runs sn) as [|cr crs IH]; [constructor|].
  apply NoDup_cons in Hnd as [Hn Hnd]. cbn [List.filter]. destruct (given _ _); [|by apply IH]. cbn. constructor; [|by apply IH].
  intros (x & He & Hx)%list_elem_of_fmap. apply lfilter_elem in Hx as [Hx _]. apply Hn. rewrite He. by apply list_elem_of_fmap_2.
Qed.

Lemma before_after lq cr t : st_FinishedAt (r_Status cr) = Some t → before (lq_cursor lq) (env cr) = after id (cursor_key (lq_cursor lq)) (entry_place (env cr)).
Proof.
  intros Ht. unfold before, entry_place. change (e_FinishedAt (env cr)) with (st_FinishedAt (r_Status cr)). rewrite Ht. destruct (lq_cursor lq) as [c|]; [|done].
  cbn. unfold newest. cbn. by rewrite (Z.eqb_sym (rc_FinishedAt c)).
Qed.

Lemma text_ok_given v col got : default "" col = got → text_ok v col = given v got.
Proof.
  intros <-. unfold text_ok, given. destruct (String.eqb_spec v "") as [|Hne]; [done|]. cbn [orb]. destruct col as [x|]; cbn [default from_option id].
  - destruct (String.eqb_spec x v) as [->|Hx]; [by apply bool_decide_eq_true_2|]. apply bool_decide_eq_false_2. by intros [= ->].
  - rewrite bool_decide_eq_false_2 by done. destruct (String.eqb_spec "" v); [by subst|done].
Qed.

Definition whole_micros (lq : listRunsQuery) : Prop := from_option (fun t => pg_time t = t) True (lq_finishedAfter lq).

(** A run of both is asked for in both. *)
Lemma same_asked lq cr c : whole_micros lq → same_run cr c →
  matches (store_filter lq) c = given (lq_ns lq) (run_ns cr) && asked lq cr.
Proof.
  intros Hw (Ht & Hf & Hns & Href & Hp & Hs & Hpar). unfold matches, asked, query_matches, store_filter.
  cbn [fl_TestRef fl_Namespace fl_Phase fl_ParentRun fl_Source fl_SinceInclusive fl_UntilExclusive].
  rewrite (text_ok_given _ _ _ Hs), (text_ok_given _ _ _ Hpar), (text_ok_given (lq_testRef lq) (Some (c_test_ref c)) _ Href),
    (text_ok_given (lq_ns lq) (Some (c_namespace c)) _ Hns), (text_ok_given (lq_phase lq) (Some (c_phase c)) _ Hp), Ht.
  assert (Htime : time_ok (fun t => (t <=? c_finished_at c)%Z) (lq_finishedAfter lq) = finishedAfterOK (env cr) (lq_finishedAfter lq)).
  { unfold time_ok, finishedAfterOK. change (e_FinishedAt (env cr)) with (st_FinishedAt (r_Status cr)). rewrite Hf. unfold whole_micros in Hw.
    destruct (lq_finishedAfter lq) as [t|]; [|done]. cbn in Hw. rewrite Hw. by rewrite Z.leb_antisym. }
  rewrite Htime. cbn [time_ok]. rewrite !andb_true_r.
  destruct (given (lq_testRef lq) _), (given (lq_ns lq) _), (given (lq_phase lq) _), (given (lq_parent lq) _), (given (lq_source lq) _); cbn; try done; by rewrite ?andb_false_r.
Qed.

(** ** A page of the two is a page of the one *)

Section Page.
Context (sn : moment) (lq : listRunsQuery) (Hc : consistent sn) (Hw : lq_wantFinished lq = true) (Hm : whole_micros lq).
Context (Hlim : (1 <= lq_limit lq <= 500)%Z).

Let crs : list TestRun := runs_in (lq_ns lq) sn.
Let limit : nat := Z.to_nat (lq_limit lq).
Let cur : option (time * string) := cursor_key (lq_cursor lq).
Let table : list RunColumns := listed (store_filter lq) (sn_db sn).
(** The store's answer, and what comes of it. *)
Definition answered : list RunColumns := page row_key limit cur table.
Definition merged : gmap string Run := merge_rows (cl_liveUIDs (collect_runs lq crs)) (cl_finished (collect_runs lq crs)) (scanRows answered).

Lemma cr_of_row c : c ∈ table → c_uid c ∈ run_uid <$> crs → ∃ cr, cr ∈ crs ∧ run_uid cr = c_uid c ∧ asked lq cr = true ∧ same_run cr c.
Proof.
  intros [Hrow Hma]%listed_elem (cr & Hu & Hcr)%list_elem_of_fmap. exists cr. split; [done|]. split; [done|].
  apply runs_in_elem in Hcr as [Hcr Hns]. pose proof (cn_same _ Hc _ _ Hcr Hrow Hu) as Hsame. split; [|done].
  rewrite (same_asked lq cr c Hm Hsame), Hns in Hma. done.
Qed.
Lemma same_key cr c : same_run cr c → run_uid cr = c_uid c → entry_place (env cr) = row_key c.
Proof. intros (_ & Hf & _) Hu. unfold entry_place. change (e_FinishedAt (env cr)) with (st_FinishedAt (r_Status cr)). rewrite Hf. cbn. by rewrite Hu. Qed.

Lemma answered_elem c : c ∈ answered → c ∈ table ∧ after id cur (row_key c) = true.
Proof. intros [Ht Ha]%page_elem. split; [done|]. by destruct cur. Qed.

Lemma rows_not_live r : r ∈ scanRows answered → rw_UID r ∉ cl_liveUIDs (collect_runs lq crs).
Proof.
  intros (c & -> & Hin)%list_elem_of_fmap. destruct (collect_spec lq crs Hw (runs_in_uids _ _ Hc)) as (_ & Hl & _). rewrite Hl.
  intros (cr & Hcr & _ & Hlive & Hu). apply answered_elem in Hin as [[Hrow _]%listed_elem _]. apply runs_in_elem in Hcr as [Hcr _].
  destruct (cn_same _ Hc cr c Hcr Hrow) as [Ht _]; [by rewrite Hu|]. congruence.
Qed.

Lemma table_uids : NoDup (c_uid <$> table).
Proof.
  pose proof (listed_nodup (store_filter lq) (sn_db sn) (cn_kept _ Hc)) as Hnd. fold table in Hnd.
  assert (Hone : ∀ c c', c ∈ table → c' ∈ table → c_uid c = c_uid c' → c = c').
  { intros c c' [Hr _]%listed_elem [Hr' _]%listed_elem. by apply (cn_one _ Hc). }
  induction table as [|c cs IH]; [constructor|]. apply NoDup_cons in Hnd as [Hn Hnd]. cbn. constructor.
  - intros (c' & He & Hin)%list_elem_of_fmap. apply Hn. rewrite (Hone c c'); [by apply list_elem_of_fmap_2|apply list_elem_of_here|by apply list_elem_of_further|done].
  - apply IH; [done|]. intros x y Hx Hy. apply Hone; by apply list_elem_of_further.
Qed.

Lemma history_elem k : k ∈ history sn lq ↔
  (∃ cr, cr ∈ crs ∧ asked lq cr = true ∧ k = entry_place (env cr)) ∨ (∃ c, c ∈ table ∧ c_uid c ∉ run_uid <$> crs ∧ k = row_key c).
Proof.
  unfold history. rewrite elem_of_app, !list_elem_of_fmap. setoid_rewrite lfilter_elem. unfold archived. setoid_rewrite andb_true_iff. setoid_rewrite negb_true_iff. split.
  - intros [(cr & -> & ? & ?)|(c & -> & Hr & Hma & Hu)]; [left; by exists cr|right]. exists c. unfold table. rewrite listed_elem. split; [done|]. split; [by apply bool_decide_eq_false in Hu|done].
  - intros [(cr & ? & ? & ->)|(c & [Hr Hma]%listed_elem & Hu & ->)]; [left; by exists cr|right]. exists c. split_and!; [done|done|done|by apply bool_decide_eq_false].
Qed.

Lemma history_nodup : NoDup (history sn lq).
Proof.
  apply (NoDup_fmap_1 snd). unfold history. rewrite fmap_app, <- !list_fmap_compose. apply NoDup_app. split_and!.
  - change (snd ∘ (entry_place ∘ env)) with run_uid. pose proof (runs_in_uids (lq_ns lq) sn Hc) as Hnd. fold crs in Hnd |- *.
    induction crs as [|cr rs IH]; [constructor|]. apply NoDup_cons in Hnd as [Hn Hnd]. cbn [List.filter]. destruct (asked lq cr); [|by apply IH]. cbn. constructor; [|by apply IH].
    intros (x & He & [Hx _]%lfilter_elem)%list_elem_of_fmap. apply Hn. rewrite He. by apply list_elem_of_fmap_2.
  - intros uid (cr & -> & [Hcr _]%lfilter_elem)%list_elem_of_fmap (c & He & [_ Ha]%lfilter_elem)%list_elem_of_fmap.
    unfold archived in Ha. apply andb_true_iff in Ha as [_ Ha]. apply negb_true_iff, bool_decide_eq_false in Ha. apply Ha.
    change (run_uid cr = c_uid c) in He. rewrite <- He. by apply list_elem_of_fmap_2.
  - pose proof table_uids as Hnd. change (snd ∘ row_key) with c_uid. unfold table, listed in Hnd. clear -Hnd.
    induction (rows (sn_db sn)) as [|c cs IH]; [constructor|]. cbn [List.filter] in *. unfold archived at 1. destruct (matches (store_filter lq) c); cbn [andb]; [|by apply IH].
    apply NoDup_cons in Hnd as [Hn Hnd]. destruct (negb _); [|by apply IH]. cbn. constructor; [|by apply IH].
    intros (x & He & [Hx Ha]%lfilter_elem)%list_elem_of_fmap. apply Hn. rewrite He. apply list_elem_of_fmap_2. apply lfilter_elem. split; [done|].
    unfold archived in Ha. by apply andb_true_iff in Ha as [? _].
Qed.

Lemma fin_own : own_uid (cl_finished (collect_runs lq crs)).
Proof. intros uid e. destruct (collect_spec lq crs Hw (runs_in_uids _ _ Hc)) as (Hf & _). rewrite Hf. by intros (cr & _ & <- & _ & ->). Qed.
Lemma scan_uids : NoDup (rw_UID <$> scanRows answered).
Proof.
  unfold scanRows. rewrite <- list_fmap_compose. change (rw_UID ∘ scan_row) with c_uid. unfold answered, page. rewrite fmap_take. eapply sublist_NoDup; [|apply sublist_take].
  rewrite sort_by_perm. pose proof table_uids as Hnd. revert Hnd. generalize table as t. induction t as [|c cs IH]; intros Hnd; [constructor|]. apply NoDup_cons in Hnd as [Hn Hnd].
  cbn [List.filter]. destruct (after _ _ _); [|by apply IH]. cbn. constructor; [|by apply IH].
  intros (x & He & [Hx _]%lfilter_elem)%list_elem_of_fmap. apply Hn. rewrite He. by apply list_elem_of_fmap_2.
Qed.

Lemma shown_after cr : cr ∈ crs → asked lq cr = true → shown lq cr = after id cur (entry_place (env cr)).
Proof.
  intros Hcr Ha. unfold shown. rewrite Ha. cbn [andb]. apply runs_in_elem in Hcr as [Hcr _]. unfold asked in Ha. rewrite !andb_true_iff in Ha. destruct Ha as [[_ Ht] _].
  destruct (cn_times _ Hc cr Hcr Ht) as (t & Hf & _). by eapply before_after.
Qed.

Lemma merged_keys k : k ∈ keys_of merged ↔ after id cur k = true ∧
  ((∃ cr, cr ∈ crs ∧ asked lq cr = true ∧ k = entry_place (env cr)) ∨ (∃ c, c ∈ answered ∧ c_uid c ∉ run_uid <$> crs ∧ k = row_key c)).
Proof.
  rewrite keys_of_elem. unfold merged. destruct (merge_spec (cl_liveUIDs (collect_runs lq crs)) (scanRows answered) _ fin_own rows_not_live scan_uids) as [_ Hk].
  setoid_rewrite Hk. clear Hk. destruct (collect_spec lq crs Hw (runs_in_uids _ _ Hc)) as (Hf & _). split.
  - intros (uid & [Hin|(Hn & r & (c & -> & Hin)%list_elem_of_fmap & Hu & <-)]).
    + destruct (cl_finished (collect_runs lq crs) !! uid) as [e|] eqn:E; [|done]. injection Hin as <-. apply Hf in E as (cr & Hcr & _ & Hs & ->).
      assert (Ha : asked lq cr = true) by (unfold shown in Hs; by apply andb_true_iff in Hs as [? _]). rewrite (shown_after cr Hcr Ha) in Hs. split; [done|]. left. by exists cr.
    + destruct (answered_elem c Hin) as [Htab Hafter]. split; [exact Hafter|]. right. exists c. split_and!; [done| |done]. intros Hu'.
      destruct (cr_of_row c Htab Hu') as (cr & Hcr & Huid & Ha & Hsame). rewrite <- (same_key cr c Hsame Huid), <- (shown_after cr Hcr Ha) in Hafter.
      assert (Hsome : cl_finished (collect_runs lq crs) !! uid = Some (env cr)); [|congruence]. apply Hf. exists cr. cbn in Hu. by rewrite Huid.
  - intros [Hafter [(cr & Hcr & Ha & ->)|(c & Hin & Hu & ->)]].
    + exists (run_uid cr). left. assert (Hsome : cl_finished (collect_runs lq crs) !! run_uid cr = Some (env cr)); [|by rewrite Hsome].
      apply Hf. exists cr. split_and!; try done. by rewrite (shown_after cr Hcr Ha).
    + exists (c_uid c). right. split.
      * destruct (cl_finished (collect_runs lq crs) !! c_uid c) as [e|] eqn:E; [|done]. apply Hf in E as (cr & Hcr & Huid & _). exfalso. apply Hu. rewrite <- Huid. by apply list_elem_of_fmap_2.
      * exists (scan_row c). split; [by apply list_elem_of_fmap_2|done].
Qed.

(** The rows the store's page leaves out. *)
Definition left_out : list (time * string) :=
  row_key <$> List.filter (fun c => negb (bool_decide (c_uid c ∈ run_uid <$> crs)) && after id cur (row_key c) && negb (bool_decide (row_key c ∈ row_key <$> answered))) table.

Lemma after_row c : after row_key cur c = after id cur (row_key c).
Proof. by destruct cur. Qed.
Lemma table_nodup : NoDup (row_key <$> table).
Proof. apply listed_nodup, Hc. Qed.
Lemma limit_pos : 0 < limit.
Proof. unfold limit. lia. Qed.

Lemma left_out_elem k : k ∈ left_out ↔ ∃ c, c ∈ table ∧ c_uid c ∉ run_uid <$> crs ∧ after id cur (row_key c) = true ∧ row_key c ∉ row_key <$> answered ∧ k = row_key c.
Proof.
  unfold left_out. rewrite list_elem_of_fmap. setoid_rewrite lfilter_elem. split.
  - intros (c & -> & Ht & Hb). rewrite !andb_true_iff, !negb_true_iff, !bool_decide_eq_false in Hb. destruct Hb as [[Hu Ha] Hn]. by exists c.
  - intros (c & Ht & Hu & Ha & Hn & ->). exists c. split_and!; [done|done|]. by rewrite !andb_true_iff, !negb_true_iff, !bool_decide_eq_false.
Qed.

Lemma keys_split : List.filter (after id cur) (history sn lq) ≡ₚ keys_of merged ++ left_out.
Proof.
  apply NoDup_Permutation.
  - apply lfilter_nodup, history_nodup.
  - apply NoDup_app. split_and!.
    + apply keys_of_nodup. by destruct (merge_spec (cl_liveUIDs (collect_runs lq crs)) (scanRows answered) _ fin_own rows_not_live scan_uids) as [? _].
    + intros k [_ [(cr & Hcr & _ & Hk)|(c & Hin & _ & Hk)]]%merged_keys (c' & Ht & Hu & _ & Hn & Hk')%left_out_elem.
      * apply Hu. rewrite Hk in Hk'. apply (f_equal snd) in Hk'. change (run_uid cr = c_uid c') in Hk'. rewrite <- Hk'. by apply list_elem_of_fmap_2.
      * apply Hn. rewrite <- Hk', Hk. by apply list_elem_of_fmap_2.
    + unfold left_out. pose proof table_nodup as Hnd. revert Hnd. generalize table as t. induction t as [|c cs IH]; intros Hnd; [constructor|].
      apply NoDup_cons in Hnd as [Hn Hnd]. cbn [List.filter]. destruct (_ && _); [|by apply IH]. cbn. constructor; [|by apply IH].
      intros (x & He & [Hx _]%lfilter_elem)%list_elem_of_fmap. apply Hn. rewrite He. by apply list_elem_of_fmap_2.
  - intros k. rewrite lfilter_elem, history_elem, elem_of_app, merged_keys, left_out_elem. split.
    + intros [[(cr & Hcr & Ha & ->)|(c & Ht & Hu & ->)] Hafter]; [left; split; [done|left; by exists cr]|].
      destruct (decide (row_key c ∈ row_key <$> answered)) as [(c' & He & Hin)%list_elem_of_fmap|Hn]; [left|right; by exists c].
      split; [done|]. right. exists c'. destruct (answered_elem c' Hin) as [Ht' _]. assert (c = c') as <-; [|done].
      apply list_elem_of_lookup in Ht as [a Ha], Ht' as [b Hb]. assert (a = b) as ->; [|congruence].
      eapply (NoDup_lookup _ _ _ (row_key c) table_nodup); rewrite list_lookup_fmap, ?Ha, ?Hb; cbn; by rewrite ?He.
    + intros [[Hafter [(cr & Hcr & Ha & ->)|(c & Hin & Hu & ->)]]|(c & Ht & Hu & Hafter & _ & ->)]; (split; [|done]); [left; by exists cr|right..]; exists c; [|done].
      by destruct (answered_elem c Hin).
Qed.

Lemma left_out_late r : r ∈ left_out → limit <= length (List.filter (fun x => newest x r) (keys_of merged)) ∧ length answered = limit.
Proof.
  intros (c & Ht & _ & Hafter & Hn & ->)%left_out_elem.
  destruct (on_page_or_after row_key limit cur table c table_nodup Ht) as [Hin|[Hfull Hnext]]; [by rewrite after_row|apply limit_pos| |].
  { exfalso. apply Hn. by apply list_elem_of_fmap_2. }
  fold answered in Hfull, Hnext. split; [|done].
  destruct (next_cursor_after row_key cur answered c Hnext (page_order _ _ _ _) (page_after _ _ _ _)) as [_ Hlt].
  rewrite <- Hfull. rewrite <- (length_fmap row_key answered). apply submseteq_length, NoDup_submseteq.
  { pose proof scan_uids as Hs. unfold scanRows in Hs. rewrite <- list_fmap_compose in Hs. apply (NoDup_fmap_1 snd). by rewrite <- list_fmap_compose. }
  intros k (c' & -> & Hin)%list_elem_of_fmap. apply lfilter_elem. rewrite Forall_forall in Hlt. split; [|by apply Hlt].
  apply merged_keys. destruct (answered_elem c' Hin) as [Ht' Ha']. split; [done|].
  destruct (decide (c_uid c' ∈ run_uid <$> crs)) as [Hu|Hu]; [left|right; by exists c'].
  destruct (cr_of_row c' Ht' Hu) as (cr & Hcr & Huid & Ha & Hsame). exists cr. split_and!; [done|done|by rewrite (same_key cr c')].
Qed.

Lemma keys_nodup : NoDup (keys_of merged ++ left_out).
Proof. rewrite <- keys_split. apply lfilter_nodup, history_nodup. Qed.

(** The first of what was merged are the first of the one table. *)
Lemma merged_page : take limit (sort_by newest (keys_of merged)) = page id limit cur (history sn lq).
Proof.
  unfold page. change (sort_by newest) with (sort_by (by_key (K := time * string) id)).
  rewrite (sort_by_perm_eq id _ _ (eq_ind_r (fun l => NoDup l) (lfilter_nodup _ _ history_nodup) (list_fmap_id _)) keys_split).
  symmetry. apply take_of_part.
  - rewrite list_fmap_id. apply keys_nodup.
  - intros r Hr. by apply left_out_late.
Qed.

(** What every finished run of a page is. *)
Definition finished_run (e : Run) : Prop := (∃ t, e_FinishedAt e = Some t ∧ cursor_ok (t, e_UID e)) ∧ terminal_text (e_Phase e) = true.

Lemma terminal_phase p : terminal_text (phase_string p) = IsTerminalPhase p.
Proof. by destruct p. Qed.

Lemma env_finished cr : cr ∈ sn_runs sn → IsTerminalPhase (run_phase cr) = true → finished_run (env cr).
Proof.
  intros Hcr Ht. split; [|change (e_Phase (env cr)) with (phase_string (run_phase cr)); by rewrite terminal_phase].
  destruct (cn_times _ Hc cr Hcr Ht) as (t & Hf & Hok). by exists t.
Qed.

Lemma merge_finished live rs : ∀ fin, (∀ uid e, fin !! uid = Some e → finished_run e) → (∀ r, r ∈ rs → finished_run (runEnvelopeFromRow r)) →
  ∀ uid e, merge_rows live fin rs !! uid = Some e → finished_run e.
Proof.
  induction rs as [|r rs IH]; intros fin Hf Hr; [done|]. apply IH; [|intros x Hx; by apply Hr, list_elem_of_further].
  intros uid e. unfold merge_row. destruct (fin !! rw_UID r) as [e'|] eqn:E.
  - rewrite lookup_insert_Some. intros [[<- <-]|[_ Hin]]; [exact (Hf _ _ E)|by eapply Hf].
  - destruct (bool_decide _); [apply Hf|]. rewrite lookup_insert_Some. intros [[<- <-]|[_ Hin]]; [apply Hr, list_elem_of_here|by eapply Hf].
Qed.

Lemma merged_finished uid e : merged !! uid = Some e → finished_run e.
Proof.
  unfold merged. apply merge_finished.
  - intros u x Hx. destruct (collect_spec lq crs Hw (runs_in_uids _ _ Hc)) as (Hf & _). apply Hf in Hx as (cr & Hcr & _ & Hs & ->).
    apply runs_in_elem in Hcr as [Hcr _]. apply env_finished; [done|]. unfold shown, asked in Hs. rewrite !andb_true_iff in Hs. by destruct Hs as [[[_ ?] _] _].
  - intros r (c & -> & Hin)%list_elem_of_fmap. apply answered_elem in Hin as [[Hrow _]%listed_elem _]. destruct (cn_rows _ Hc c Hrow) as [Hok Hph].
    split; [|done]. by exists (c_finished_at c).
Qed.

Lemma values_finished e : e ∈ snd <$> range merged → finished_run e.
Proof. intros ([uid x] & -> & Hin)%list_elem_of_fmap. rewrite range_perm in Hin. apply elem_of_map_to_list in Hin. by eapply merged_finished. Qed.

Definition finished_out : list Run := take limit (sort_by newest_finished (snd <$> range merged)).

Lemma sorted_keys : entry_place <$> sort_by newest_finished (snd <$> range merged) = sort_by newest (keys_of merged).
Proof.
  apply sort_by_fmap. intros x y [(tx & Hx & _) _]%values_finished [(ty & Hy & _) _]%values_finished.
  unfold newest_finished, entry_place, newest, newer. rewrite Hx, Hy. done.
Qed.
Lemma finished_out_page : entry_place <$> finished_out = page id limit cur (history sn lq).
Proof. unfold finished_out. by rewrite fmap_take, sorted_keys, merged_page. Qed.

Definition claims_more : bool := (lq_limit lq <=? Z.of_nat (length answered))%Z || (lq_limit lq <? Z.of_nat (length (keys_of merged)))%Z.

Lemma answered_merged : length answered <= length (keys_of merged).
Proof.
  rewrite <- (length_fmap row_key answered). apply submseteq_length, NoDup_submseteq.
  { pose proof scan_uids as Hs. unfold scanRows in Hs. rewrite <- list_fmap_compose in Hs. apply (NoDup_fmap_1 snd). by rewrite <- list_fmap_compose. }
  intros k (c & -> & Hin)%list_elem_of_fmap. apply merged_keys. destruct (answered_elem c Hin) as [Ht Ha]. split; [done|].
  destruct (decide (c_uid c ∈ run_uid <$> crs)) as [Hu|Hu]; [left|right; by exists c].
  destruct (cr_of_row c Ht Hu) as (cr & Hcr & Huid & Has & Hsame). exists cr. split_and!; [done|done|by rewrite (same_key cr c)].
Qed.

Lemma no_more_rest k : claims_more = false → k ∈ history sn lq → after id cur k = true → k ∈ page id limit cur (history sn lq).
Proof.
  unfold claims_more. rewrite orb_false_iff, Z.leb_gt, Z.ltb_ge. intros [Hrows Hlen] Hk Ha. rewrite <- merged_page, take_ge.
  - rewrite sort_by_elem. assert (Hin : k ∈ List.filter (after id cur) (history sn lq)) by (by apply lfilter_elem). rewrite keys_split, elem_of_app in Hin.
    destruct Hin as [?|Hout]; [done|]. destruct (left_out_late k Hout) as [_ Hfull]. unfold limit in Hfull. lia.
  - rewrite length_sort_by. unfold limit. lia.
Qed.
Lemma more_full : claims_more = true → length (page id limit cur (history sn lq)) = limit.
Proof.
  unfold claims_more. rewrite orb_true_iff, Z.leb_le, Z.ltb_lt. intros Hor. rewrite <- merged_page, length_take, length_sort_by. apply Nat.min_l.
  pose proof answered_merged. unfold limit. lia.
Qed.

Lemma out_finished e : e ∈ finished_out → finished_run e.
Proof.
  unfold finished_out. intros (n & Hn & _)%elem_of_take. apply list_elem_of_lookup_2 in Hn. rewrite sort_by_elem in Hn. by apply values_finished.
Qed.

(** The handler's page: live runs first, then the finished ones; a cursor exactly when
    it claims more, at the last of them. *)
Lemma page_out_spec :
  page_out (lq_limit lq) (cl_live (collect_runs lq crs)) merged (lq_limit lq <=? Z.of_nat (length (scanRows answered)))%Z
  = Some (sort_by newest_started (cl_live (collect_runs lq crs)) ++ finished_out,
          if claims_more then (fun k => encodeRunCursor k.1 k.2) <$> last (page id limit cur (history sn lq)) else None).
Proof.
  unfold page_out. fold limit. fold finished_out. unfold claims_more. unfold scanRows. rewrite length_fmap.
  replace (length (sort_by newest_finished (snd <$> range merged))) with (length (keys_of merged)) by (unfold keys_of; by rewrite length_sort_by, !length_fmap).
  destruct (_ || _); [|done]. rewrite <- finished_out_page, fmap_last. destruct (last finished_out) as [e|] eqn:E; [|done].
  assert (Hin : e ∈ finished_out) by (apply last_Some in E as [xs ->]; rewrite elem_of_app; right; apply list_elem_of_here).
  destruct (out_finished e Hin) as [(t & Ht & _) _]. cbn [fmap option_fmap option_map]. unfold entry_place. by rewrite Ht.
Qed.

(** Live runs are not taken for finished ones. *)
Definition finished_part (es : list Run) : list Run := List.filter (fun e => terminal_text (e_Phase e)) es.
Lemma finished_part_page : finished_part (sort_by newest_started (cl_live (collect_runs lq crs)) ++ finished_out) = finished_out.
Proof.
  unfold finished_part. rewrite List.filter_app. replace (List.filter _ (sort_by _ _)) with (@nil Run).
  - cbn [app]. assert (Hall : ∀ e, e ∈ finished_out → terminal_text (e_Phase e) = true) by (intros e He; by apply out_finished in He as [_ ?]).
    revert Hall. generalize finished_out as out. induction out as [|e out IH]; intros Hall; [done|]. cbn [List.filter]. rewrite (Hall e) by apply list_elem_of_here. f_equal. apply IH.
    intros x Hx. by apply Hall, list_elem_of_further.
  - symmetry. apply elem_of_nil_inv. intros e [He Ht]%lfilter_elem. rewrite sort_by_elem in He.
    destruct (collect_spec lq crs Hw (runs_in_uids _ _ Hc)) as (_ & _ & Hlive). rewrite Forall_forall in Hlive. destruct (Hlive e He) as (cr & _ & -> & Hp).
    change (terminal_text (phase_string (run_phase cr)) = true) in Ht. rewrite terminal_phase in Ht. congruence.
Qed.
End Page.

(** ** The handler over a cluster and a database *)

Definition no_answer : error := mkError EOther "not asked".

Definition api (R : Type) (o : AOp R) (sn : moment) : R * moment :=
  match o in AOp R return R * moment with
  | AListRuns ns => (Ok (runs_in ns sn), sn)
  | AStoreList f p => (match (Effects.run pg (Store.List f p) (sn_db sn, None)).1.1 with Ok rs => Ok rs | Err e => Err (mkError EOther e) end, sn)
  | ANow => (0%Z, sn)
  | AGetRun ns name =>
      (match find_first (fun cr => (run_ns cr =? ns)%string && (run_name cr =? name)%string) (sn_runs sn) with
       | Some cr => Ok cr
       | None => Err (mkError ENotFound "not found")
       end, sn)
  | AStoreGet uid =>
      (match (Effects.run pg (Store.Get uid) (sn_db sn, None)).1.1 with
       | Ok row => Ok row
       | Err e => Err (mkError (if (e =? ErrNotFound)%string then ERowNotFound else EOther) e)
       end, sn)
  | ACreateRun _ | APatchAbort _ _ => (Err no_answer, sn)
  | AGetTest _ _ | ACreateTest _ _ | APatchTest _ _ _ => (Err no_answer, sn)
  | AListTests _ | AGetTemplate _ _ | AListTemplates _ | AListEvents _ => (Err no_answer, sn)
  | AStoreGetByName _ _ => (Err no_answer, sn)
  | ATestStats _ | ACaseStats _ _ _ | ACaseHistory _ _ _ _ => (Err no_answer, sn)
  | ARunCases _ _ | AListAudit _ _ | AListKeys _ _ | AGetObject _ _ | APresign _ _ _ => (Err no_answer, sn)
  | ADeleteRun _ | ADeleteTest _ | AStoreDelete _ | ASetComment _ _ | AAppendAudit _ | ARemovePrefix _ _ => (Some no_answer, sn)
  | AHead _ | AProxy _ _ _ => (tt, sn)
  | AAccept | AWrite _ => (true, sn)
  | AWait _ | AEnded => (false, sn)
  end.

(** A client goes on with the cursor it was given, while it is given one. *)
Definition with_query (q : strmap) (r : Request) : Request := mkRequest q (rq_id r) (rq_name r) (rq_path r) (rq_user r) (rq_token r).
Definition page_request (base : Request) (next : option string) : Request :=
  match next with Some c => with_query (<["after" := c]> (rq_query base)) base | None => base end.

Fixpoint api_walk (s : Server) (base : Request) (next : option string) (sns : list moment) : list (list Run) * bool :=
  match sns with
  | [] => ([], false)
  | sn :: sns =>
      match (Effects.run api (listRuns s (page_request base next)) sn).1.1 with
      | Answer 200 (Some c) (BRuns es) => let '(pages, ended) := api_walk s base (Some c) sns in (es :: pages, ended)
      | Answer 200 None (BRuns es) => ([es], true)
      | _ => ([], false)
      end
  end.

(** The query of a later page. *)
Definition at_cursor (lq : listRunsQuery) (k : option (time * string)) : listRunsQuery :=
  match k with
  | None => lq
  | Some k => mkQuery (lq_ns lq) (lq_testRef lq) (lq_phase lq) (lq_source lq) (lq_parent lq) (lq_limit lq) (lq_finishedAfter lq)
                (Some (mkCursor k.1 k.2)) false (lq_wantFinished lq)
  end.

Lemma parseLimit_range v : (1 <= parseLimitOrDefault v <= 500)%Z.
Proof. unfold parseLimitOrDefault. destruct (v =? "")%string; [lia|]. destruct (Keys.Atoi v) as [n|]; [|lia]. destruct (Z.leb_spec n 0), (Z.ltb_spec 500 n); lia. Qed.

Lemma parse_at base ns lq k : query base "after" = "" → parseListRunsQuery (query base) ns = Ok lq →
  formattable k.1 → uuid_Parse k.2 = true →
  parseListRunsQuery (query (page_request base (Some (encodeRunCursor k.1 k.2)))) ns = Ok (at_cursor lq (Some k)).
Proof.
  intros Ha Hp Ht Hu. unfold page_request. set (r' := with_query _ _).
  assert (Hother : ∀ n, n ≠ "after" → query r' n = query base n) by (intros n Hn; unfold query, r'; cbn; by rewrite lookup_insert_ne).
  assert (Hafter : query r' "after" = encodeRunCursor k.1 k.2) by (unfold query, r'; cbn; by rewrite lookup_insert_eq).
  unfold parseListRunsQuery in *. rewrite (Hother "phase"), (Hother "finishedAfter"), (Hother "test"), (Hother "source"), (Hother "parent"), (Hother "limit"), Hafter, cursor_decoded by done.
  destruct (if (query base "finishedAfter" =? "")%string then _ else _) as [fa|e]; [|done].
  rewrite Ha in Hp. cbn [decodeRunCursor String.eqb] in Hp. injection Hp as <-. unfold at_cursor.
  cbn [lq_ns lq_testRef lq_phase lq_source lq_parent lq_limit lq_finishedAfter lq_wantFinished].
  rewrite (bool_decide_eq_false_2 (Some (mkCursor k.1 k.2) = None)) by done. reflexivity.
Qed.

Lemma parse_limit base ns lq : parseListRunsQuery (query base) ns = Ok lq → (1 <= lq_limit lq <= 500)%Z ∧ lq_ns lq = ns.
Proof.
  unfold parseListRunsQuery. destruct (if (query base "finishedAfter" =? "")%string then _ else _) as [fa|e]; [|done].
  destruct (decodeRunCursor _) as [c|e]; [|done]. intros [= <-]. split; [apply parseLimit_range|done].
Qed.

Section Walk.
Context (s : Server) (base : Request) (lq : listRunsQuery).
Context (Hstore : sv_Store s = true) (Hns : listNamespace s base = Ok (lq_ns lq)) (Hfirst : query base "after" = "")
  (Hparse : parseListRunsQuery (query base) (lq_ns lq) = Ok lq) (Hw : lq_wantFinished lq = true) (Hm : whole_micros lq).

Lemma first_cursor : lq_cursor lq = None.
Proof.
  revert Hparse. unfold parseListRunsQuery. rewrite Hfirst. destruct (if (query base "finishedAfter" =? "")%string then _ else _) as [fa|e]; [|done].
  cbn. by intros [= <-].
Qed.

Let limit : nat := Z.to_nat (lq_limit lq).

(** Where a client can be. *)
Definition place_ok (k : option (time * string)) : Prop := match k with Some k => cursor_ok k | None => True end.
Definition place (k : option (time * string)) : option string := (fun k => encodeRunCursor k.1 k.2) <$> k.

Lemma at_place k : place_ok k → listNamespace s (page_request base (place k)) = Ok (lq_ns lq) ∧
  parseListRunsQuery (query (page_request base (place k))) (lq_ns lq) = Ok (at_cursor lq k).
Proof.
  intros Hk. destruct k as [k|]; [|done]. destruct Hk as (_ & Hu & Ht). split.
  - cbn [place fmap option_fmap option_map page_request]. unfold listNamespace in *. replace (query (with_query _ base) QueryNamespace) with (query base QueryNamespace); [done|].
    unfold query. cbn. by rewrite lookup_insert_ne.
  - exact (parse_at base (lq_ns lq) lq k Hfirst Hparse Ht Hu).
Qed.

Lemma at_cursor_key k : cursor_key (lq_cursor (at_cursor lq k)) = k.
Proof. destruct k as [[t u]|]; [done|]. cbn. by rewrite first_cursor. Qed.

Lemma limits : (1 <= lq_limit lq <= 500)%Z.
Proof. by eapply parse_limit. Qed.

Lemma page_size_limit : page_size (lq_limit lq) = limit.
Proof. unfold page_size, clampLimit, MaxPageLimit, limit. pose proof limits. destruct (Z.leb_spec (lq_limit lq) 0); [lia|]. f_equal. lia. Qed.

Lemma store_page_of q : store_page q = page_of (lq_limit q) (cursor_key (lq_cursor q)).
Proof. unfold store_page, page_of. by destruct (lq_cursor q). Qed.

Lemma store_answer sn q : lq_limit q = lq_limit lq → match cursor_key (lq_cursor q) with Some k => good_cursor (Some k) | None => True end →
  (Effects.run api (perform (AStoreList (store_filter q) (store_page q))) sn).1 = (Ok (scanRows (answered sn q)), sn).
Proof.
  intros Hl Hg. cbn [Effects.run perform api]. rewrite store_page_of. pose proof (list_does (store_filter q) (lq_limit q) (cursor_key (lq_cursor q)) (sn_db sn)) as Hd.
  unfold does in Hd. rewrite Hd by (by destruct (cursor_key _)). cbn [fst snd]. unfold answered. by rewrite Hl, page_size_limit.
Qed.

(** One page. *)
Lemma one_page sn k : consistent sn → place_ok k →
  ∃ es, (Effects.run api (listRuns s (page_request base (place k))) sn).1.1
    = Answer 200 (if claims_more sn (at_cursor lq k) then place (last (page id limit k (history sn lq))) else None) (BRuns es) ∧
    entry_place <$> finished_part es = page id limit k (history sn lq).
Proof.
  intros Hc Hk. destruct (at_place k Hk) as [Hn Hp]. unfold listRuns. rewrite Hn, Hp.
  set (q := at_cursor lq k). assert (Hq : lq_wantFinished q = true ∧ whole_micros q ∧ lq_limit q = lq_limit lq ∧ lq_ns q = lq_ns lq ∧ history sn q = history sn lq
    ∧ store_filter q = store_filter lq) by (unfold q; destruct k; done).
  destruct Hq as (Hqw & Hqm & Hql & Hqn & Hqh & Hqf). rewrite run_bind. cbn [Effects.run perform api fst snd].
  unfold mergeStoreRuns. rewrite Hqw, Hstore. cbn [negb orb]. rewrite run_bind. cbn [fst snd].
  assert (Hcur : cursor_key (lq_cursor q) = k) by apply at_cursor_key.
  rewrite run_bind, store_answer; [|done|rewrite Hcur; destruct k as [k|]; [by destruct Hk|done]]. cbn [fst snd Effects.run].
  pose proof (page_out_spec sn q Hc Hqw Hqm) as Hout. rewrite Hql in Hout. specialize (Hout limits). unfold merged in Hout. rewrite Hql, Hout.
  rewrite Hcur, Hqh. eexists. split; [reflexivity|].
  rewrite (finished_part_page sn q Hc Hqw).
  pose proof (finished_out_page sn q Hc Hqw Hqm) as Hpage. rewrite Hql, Hcur, Hqh in Hpage. apply Hpage, limits.
Qed.

Lemma claims_hold : Claims id (fun sn => history sn lq) limit (fun k sn => claims_more sn (at_cursor lq k)) consistent.
Proof.
  assert (Hq : ∀ sn k, lq_wantFinished (at_cursor lq k) = true ∧ whole_micros (at_cursor lq k) ∧ lq_limit (at_cursor lq k) = lq_limit lq ∧
    history sn (at_cursor lq k) = history sn lq) by (intros sn [k|]; done).
  split.
  - intros sn Hc. rewrite list_fmap_id. by apply history_nodup.
  - intros k sn x Hc Hmore Hx Ha. destruct (Hq sn k) as (Hqw & Hqm & Hql & Hqh).
    pose proof (no_more_rest sn _ Hc Hqw Hqm) as Hrest. rewrite Hql, Hqh, at_cursor_key in Hrest. by apply Hrest; [exact limits| | |].
  - intros k sn Hc Hmore. destruct (Hq sn k) as (Hqw & Hqm & Hql & Hqh).
    pose proof (more_full sn _ Hc Hqw Hqm) as Hfull. rewrite Hql, Hqh, at_cursor_key in Hfull. by apply Hfull; [exact limits|].
Qed.

Lemma history_cursors sn k : consistent sn → k ∈ history sn lq → cursor_ok k.
Proof.
  intros Hc. unfold history. rewrite elem_of_app, !list_elem_of_fmap. intros [(cr & -> & [Hcr Ha]%lfilter_elem)|(c & -> & [Hin _]%lfilter_elem)].
  - apply runs_in_elem in Hcr as [Hcr _]. unfold asked in Ha. rewrite !andb_true_iff in Ha. destruct Ha as [[_ Ht] _]. destruct (cn_times _ Hc cr Hcr Ht) as (t & Hf & Hok).
    cbn. unfold entry_place. change (e_FinishedAt (env cr)) with (st_FinishedAt (r_Status cr)). rewrite Hf. exact Hok.
  - by destruct (cn_rows _ Hc c Hin).
Qed.

Lemma next_place k sn : consistent sn → place_ok k → place_ok (next_cursor id k (page id limit k (history sn lq))).
Proof.
  intros Hc Hk. unfold next_cursor. destruct (last _) as [x|] eqn:E; [|done]. apply last_Some in E as [xs E].
  assert (Hx : x ∈ page id limit k (history sn lq)) by (rewrite E, elem_of_app; right; apply list_elem_of_here). apply page_elem in Hx as [Hx _]. by eapply history_cursors.
Qed.

(** The client's walk is a walk of the one table. *)
Lemma api_walk_pages sns : ∀ k, place_ok k → Forall consistent sns →
  let w := walk_while id (fun sn => history sn lq) limit (fun k sn => claims_more sn (at_cursor lq k)) k sns in
  (λ es, entry_place <$> finished_part es) <$> (api_walk s base (place k) sns).1 = w.1 ∧ (api_walk s base (place k) sns).2 = w.2.
Proof.
  induction sns as [|sn sns IH]; intros k Hk Hc; [done|]. apply Forall_cons in Hc as [Hsn Hc]. cbn [api_walk walk_while].
  destruct (one_page sn k Hsn Hk) as (es & He & Hpage). rewrite He.
  pose proof (claims_full id _ _ _ _ (Claims := claims_hold) k sn Hsn) as Hfull. cbv beta in Hfull.
  destruct (claims_more sn (at_cursor lq k)) eqn:Em.
  - specialize (Hfull eq_refl). specialize (IH (next_cursor id k (page id limit k (history sn lq))) (next_place k sn Hsn Hk) Hc).
    unfold next_cursor in IH |- *. destruct (last (page id limit k (history sn lq))) as [x|] eqn:E.
    2: { apply last_None in E. rewrite E in Hfull. pose proof limits. unfold limit in Hfull. cbn in Hfull. lia. }
    cbn [place fmap option_fmap option_map] in IH |- *. change (id x) with x in *. cbn zeta in IH.
    destruct (api_walk s base (Some (encodeRunCursor x.1 x.2)) sns) as [ps e], (walk_while _ _ _ _ (Some x) sns) as [ws w]. cbn [fst snd fmap list_fmap] in *.
    destruct IH as [<- <-]. by rewrite Hpage.
  - cbn [fst snd fmap list_fmap]. by rewrite Hpage.
Qed.
End Walk.

(** C8: GET /runs, walked by cursor over the cluster and run history while both change:
    the finished runs of all pages come newest first, none twice; once a page carries
    no cursor, every run that was there all along — in the cluster, in history, or
    first in one and then in the other — was on one; and over runs that do not change
    such a page comes.  Provided that a stored run whose CR is still there is finished
    there too. *)
Theorem runs_pages s base lq sns :
  sv_Store s = true → listNamespace s base = Ok (lq_ns lq) → query base "after" = "" →
  parseListRunsQuery (query base) (lq_ns lq) = Ok lq → lq_wantFinished lq = true → whole_micros lq → Forall consistent sns →
  let '(pages, ended) := api_walk s base None sns in
  let entries := entry_place <$> concat (finished_part <$> pages) in
  StronglySorted (fun a b => newest a b = true) entries ∧
  (ended = true → ∀ k, Forall (fun sn => k ∈ history sn lq) sns → k ∈ entries) ∧
  (∀ sn, sns = replicate (S (length (history sn lq))) sn → ended = true).
Proof.
  intros Hstore Hns Hfirst Hparse Hw Hm Hc.
  pose proof (claims_hold base lq Hfirst Hparse Hw Hm) as Hclaims.
  destruct (api_walk_pages s base lq Hstore Hns Hfirst Hparse Hw Hm sns None I Hc) as [Hp He].
  change (place None) with (@None string) in *. destruct (api_walk s base None sns) as [pages ended]. cbn [fst snd] in *.
  assert (Hentries : entry_place <$> concat (finished_part <$> pages) = concat (walk_while id (fun sn => history sn lq) (Z.to_nat (lq_limit lq)) (fun k sn => claims_more sn (at_cursor lq k)) None sns).1).
  { rewrite <- Hp. clear. induction pages as [|es ps IH]; [done|]. cbn [fmap list_fmap concat]. rewrite fmap_app. by f_equal. }
  rewrite Hentries. pose proof (parse_limit _ _ _ Hparse) as [Hlim _]. split_and!.
  - apply (walk_while_strict (H := newest_order) id (fun sn => history sn lq) (Z.to_nat (lq_limit lq)) (fun k sn => claims_more sn (at_cursor lq k)) consistent sns None Hc).
  - intros Hend k Hk. rewrite Hend in He. pose proof (walk_while_complete (H := newest_order) id (fun sn => history sn lq) (Z.to_nat (lq_limit lq)) (fun k sn => claims_more sn (at_cursor lq k)) consistent sns None k) as Hcomp. rewrite list_fmap_id in Hcomp. apply Hcomp; [lia| |done|done].
    rewrite Forall_forall in *. intros sn Hsn. split; [by apply Hc|]. rewrite list_fmap_id. by apply Hk.
  - intros sn ->. apply Forall_cons in Hc as [Hsn _]. rewrite He. apply (walk_while_ends (H := newest_order) id (fun sn => history sn lq) (Z.to_nat (lq_limit lq)) (fun k sn => claims_more sn (at_cursor lq k)) consistent); [lia|done].
Qed.

End Listing.

(** ** Small clusters *)

Definition demo_web : WebLib := {| glob_Match p q := (p =? q)%string; url_without_user _ := None |}.
Definition demo_server : Server := mkServer "" "ns" "bucket" true true true true true true true true true true minute second minute.
Definition demo_query (limit : string) : Request := mkRequest {["limit" := limit]} "" "" "" "" "".
Definition demo_asked (limit : Z) : listRunsQuery := mkQuery "ns" "" "" "" "" limit None None true true.
Definition demo_run (uid : string) (p : Phase) (finished : option time) : TestRun :=
  mkTestRun (mkMeta ("run-" +:+ uid) "ns" uid ∅ ∅ 1 None [] []) (mkRunSpec "t" ∅ None ∅ "cron" None None)
    (mkStatus p None (Some 5%Z) finished 7 "" "k6" NoSnapshot ∅ [] [] ∅ None "" None "").
Definition walk_demo (limit : string) (sns : list moment) : list (list string) * bool :=
  let w := api_walk (H := list_order) (H0 := demo_floats) (H1 := demo_uuids) (H2 := demo_web) demo_server (demo_query limit) None sns in
  (List.map (List.map e_UID) w.1, w.2).

(** One run in history only, one in both, one in the cluster only, a run that goes on. *)
Definition demo_cluster : moment :=
  mkSnapshot [demo_later; demo_run "u3" PhaseFailed (Some 1705000000000000000%Z); demo_run "u4" PhaseRunning None] demo_db.
Example demo_pages : walk_demo "1" [demo_cluster; demo_cluster; demo_cluster; demo_cluster] = ([["u4"; "u2"]; ["u3"]; ["u1"]; []], true).
Proof. vm_compute. reflexivity. Qed.

Lemma existsb_none {A} (f : A → bool) xs : forallb (fun x => negb (f x)) xs = true → ∀ x, x ∈ xs → f x = false.
Proof. rewrite forallb_forall. intros Hf x Hx%list_elem_of_In. specialize (Hf x Hx). by apply negb_true_iff. Qed.
Lemma forallb_elem {A} (f : A → bool) xs : forallb f xs = true → ∀ x, x ∈ xs → f x = true.
Proof. rewrite forallb_forall. intros Hf x Hx%list_elem_of_In. by apply Hf. Qed.

Definition cursor_check (k : time * string) : bool :=
  (pg_time k.1 =? k.1)%Z && negb (k.2 =? "")%string && (0 <=? (month_of_day (k.1 / second / 86400)).1)%Z && ((month_of_day (k.1 / second / 86400)).1 <? 10000)%Z.
Lemma cursor_checked k : cursor_check k = true → cursor_ok (H1 := demo_uuids) k.
Proof.
  destruct k as [t u]. unfold cursor_check. cbn [fst snd]. rewrite !andb_true_iff, negb_true_iff, Z.eqb_eq, Z.leb_le, Z.ltb_lt. intros [[[Ht Hu] Hy] Hy'].
  split; [split; [done|split; [done|by apply String.eqb_neq]]|split; [done|by split]].
Qed.

Lemma demo_rows_checked : forallb (fun c => cursor_check (row_key c) && terminal_text (c_phase c)) (rows demo_db) = true.
Proof. vm_compute. reflexivity. Qed.

Lemma demo_one : bool_decide (NoDup (c_uid <$> rows demo_db)) = true.
Proof. vm_compute. reflexivity. Qed.
Lemma nodup_key {A B} (f : A → B) xs x y : NoDup (f <$> xs) → x ∈ xs → y ∈ xs → f x = f y → x = y.
Proof.
  intros Hnd (i & Hi)%list_elem_of_lookup (j & Hj)%list_elem_of_lookup He. assert (i = j) as ->; [|congruence].
  eapply NoDup_lookup; [exact Hnd| |]; rewrite list_lookup_fmap; [by rewrite Hi|by rewrite Hj, He].
Qed.

Definition same_check (cr : TestRun) (c : RunColumns) : bool :=
  IsTerminalPhase (run_phase cr) && bool_decide (st_FinishedAt (r_Status cr) = Some (c_finished_at c)) &&
  (c_namespace c =? run_ns cr)%string && (c_test_ref c =? rs_TestRef (r_Spec cr))%string && (c_phase c =? phase_string (run_phase cr))%string &&
  (default "" (c_source c) =? rs_Source (r_Spec cr))%string && (default "" (c_parent_run c) =? default "" (om_Labels (r_Meta cr) !! Store.LabelParentRun))%string.
Lemma same_checked cr c : same_check cr c = true → same_run cr c.
Proof. unfold same_check. rewrite !andb_true_iff, !String.eqb_eq, bool_decide_eq_true. intros [[[[[[? ?] ?] ?] ?] ?] ?]. by split_and!. Qed.
Lemma demo_same_checked : forallb (fun cr => forallb (fun c => negb (c_uid c =? run_uid cr)%string || same_check cr c) (rows demo_db)) (sn_runs demo_cluster) = true.
Proof. vm_compute. reflexivity. Qed.
Lemma demo_times_checked :
  forallb (fun cr => negb (IsTerminalPhase (run_phase cr)) || from_option (fun t => cursor_check (t, run_uid cr)) false (st_FinishedAt (r_Status cr))) (sn_runs demo_cluster) = true.
Proof. vm_compute. reflexivity. Qed.

Lemma demo_consistent : consistent (H1 := demo_uuids) demo_cluster.
Proof.
  split.
  - exact demo_db_kept.
  - apply (bool_decide_eq_true_1 (NoDup (run_uid <$> sn_runs demo_cluster))). vm_compute. reflexivity.
  - intros c c'. exact (nodup_key c_uid (rows demo_db) c c' (bool_decide_eq_true_1 _ demo_one)).
  - intros cr Hcr Ht. pose proof (forallb_elem _ _ demo_times_checked cr Hcr) as Hok. cbv beta in Hok. rewrite Ht in Hok.
    destruct (st_FinishedAt (r_Status cr)) as [t|]; [|done]. exists t. split; [done|by apply cursor_checked].
  - intros c Hc. pose proof (forallb_elem _ _ demo_rows_checked c Hc) as Hok. cbv beta in Hok. apply andb_true_iff in Hok as [Hk Ht]. split; [by apply cursor_checked|done].
  - intros cr c Hcr Hc He. pose proof (forallb_elem _ _ demo_same_checked cr Hcr) as Hok. cbv beta in Hok. pose proof (forallb_elem _ _ Hok c Hc) as Hs. cbv beta in Hs.
    rewrite He, String.eqb_refl in Hs. by apply same_checked.
Qed.

Lemma runs_pages_witness :
  (1705000000000000000%Z, "u3") ∈ entry_place <$> concat (finished_part <$> (api_walk (H := list_order) (H0 := demo_floats) (H1 := demo_uuids) (H2 := demo_web)
    demo_server (demo_query "1") None [demo_cluster; demo_cluster; demo_cluster; demo_cluster]).1).
Proof.
  pose proof (runs_pages (H := list_order) (H0 := demo_floats) (H1 := demo_uuids) (H2 := demo_web) demo_server (demo_query "1") (demo_asked 1)
    [demo_cluster; demo_cluster; demo_cluster; demo_cluster] eq_refl eq_refl eq_refl eq_refl eq_refl I) as Hpages.
  specialize (Hpages ltac:(repeat (apply Forall_cons_2; [exact demo_consistent|]); apply Forall_nil_2)).
  assert (Hended : (api_walk (H := list_order) (H0 := demo_floats) (H1 := demo_uuids) (H2 := demo_web) demo_server (demo_query "1") None
    [demo_cluster; demo_cluster; demo_cluster; demo_cluster]).2 = true) by (vm_compute; reflexivity).
  revert Hpages Hended. destruct (api_walk _ _ _ _) as [pages ended]. cbn [fst snd]. intros (_ & Hall & _) ->. apply (Hall eq_refl).
  assert (Hin : (1705000000000000000%Z, "u3") ∈ history (H0 := demo_floats) (H2 := demo_web) demo_cluster (demo_asked 1)).
  { apply (bool_decide_eq_true_1 ((1705000000000000000%Z, "u3") ∈ history (H0 := demo_floats) (H2 := demo_web) demo_cluster (demo_asked 1))). vm_compute. reflexivity. }
  repeat (apply Forall_cons_2; [exact Hin|]). apply Forall_nil_2.
Defined.

(** *** A page that hides a run

    Three runs are finished: [u2] and [u1] in history, the oldest, [u0], in the cluster
    only; the cluster's cache still shows [u2] running.  The store's page of one is
    [u2], left out as live; the page shows [u0] and its cursor lies past [u1], which is
    on no page. *)
Definition stale_cluster : moment := mkSnapshot [demo_run "u2" PhaseRunning None; demo_run "u0" PhaseFailed (Some 1690000000000000000%Z)] demo_db.
Example listing_hides_run :
  walk_demo "1" [stale_cluster; stale_cluster] = ([["u2"; "u0"]; []], true) ∧
  List.map entry_key (scanRows (rows demo_db)) = [(1700000000000000000%Z, "u1"); (1710000000000000000%Z, "u2")].
Proof. vm_compute. split; reflexivity. Qed.

End ApiListSpec.
