(* ===== verification/ApiSpec.v ===== *)
(** * What the API server promises

    A request for one namespace stays in it, whatever it calls; a live log reaches
    its reader whole, once and in order, and ends with the run; a run is deleted
    objects first, history last; a patch leaves the owner's label alone; a run
    reads the same from the cluster and from history. *)
From S2P Require Import Prelude Api GoLib Names Keys Objects Phases Effects Ops Calendar Durations Termination Logstream Sorting Retention Store StoreSpec Resolver Triggers ApiRuns ApiServer ApiListSpec.

Module ApiSpec.
Import Objects Phases Ops Store Termination ApiRuns ApiServer.

(** ** One namespace

    [promised]: what the Kubernetes API, run history and the object store say of their
    answers — an object asked for in a namespace, or written in one, is in it; rows are
    those of the filter; keys have the prefix listed. *)

Definition on_ok {A E} (P : A → bool) (r : result E A) : bool := match r with Ok x => P x | Err _ => true end.
Definition test_ns (t : Test) : string := om_Namespace (t_Meta t).
Definition tmpl_ns (t : TestTemplate) : string := om_Namespace (tm_Meta t).

Definition promised {R} (o : AOp R) : R → bool :=
  match o with
  | AGetRun ns _ => on_ok (fun cr => run_ns cr =? ns)%string
  | AListRuns ns => on_ok (forallb (fun cr => run_ns cr =? ns)%string)
  | ACreateRun run => on_ok (fun cr => run_ns cr =? run_ns run)%string
  | APatchAbort run _ => on_ok (fun cr => run_ns cr =? run_ns run)%string
  | AGetTest ns _ => on_ok (fun t => test_ns t =? ns)%string
  | AListTests ns => on_ok (forallb (fun t => test_ns t =? ns)%string)
  | ACreateTest _ t => on_ok (fun t' => test_ns t' =? test_ns t)%string
  | APatchTest _ t _ => on_ok (fun t' => test_ns t' =? test_ns t)%string
  | AListTemplates ns => on_ok (forallb (fun t => tmpl_ns t =? ns)%string)
  | AStoreGetByName ns _ => on_ok (fun row => rw_Namespace row =? ns)%string
  | AStoreList f _ => on_ok (forallb (fun row => rw_Namespace row =? fl_Namespace f)%string)
  | AListAudit f _ => on_ok (forallb (fun e => ad_Namespace e =? af_Namespace f)%string)
  | ATestStats f => on_ok (forallb (fun t => tt_Namespace t =? sf_Namespace f)%string)
  | AListKeys _ prefix => on_ok (forallb (fun k => HasPrefix k prefix))
  | _ => fun _ => true
  end.

(** A run's objects, of one of the runs. *)
Definition of_a_run (ns : string) (uids : gset string) (key : string) : bool := existsb (fun u => HasPrefix key (Keys.ForRun ns u)) (elements uids).

(** What may be asked with the runs of the namespace known so far: a row by its UID is
    looked at before it is believed; all that is changed, and all objects, are the
    namespace's. *)
Definition inside (ns : string) (uids : gset string) {R} (o : AOp R) : bool :=
  match o with
  | AGetRun n _ | AListRuns n | AGetTest n _ | AListTests n | AGetTemplate n _ | AListTemplates n | AListEvents n => (n =? ns)%string
  | AStoreGetByName n _ | ACaseStats n _ _ | ACaseHistory n _ _ _ => (n =? ns)%string
  | ACreateRun run => (run_ns run =? ns)%string
  | APatchAbort run _ | ADeleteRun run => (run_ns run =? ns)%string
  | ACreateTest _ t | APatchTest _ t _ | ADeleteTest t => (test_ns t =? ns)%string
  | AStoreList f _ => (fl_Namespace f =? ns)%string
  | AListAudit f _ => (af_Namespace f =? ns)%string
  | ATestStats f => (sf_Namespace f =? ns)%string
  | AAppendAudit e => (ad_Namespace e =? ns)%string
  | AStoreDelete uid | ASetComment uid _ | ARunCases uid _ => bool_decide (uid ∈ uids)
  | ARemovePrefix _ key | AListKeys _ key | AGetObject _ key | APresign _ key _ => of_a_run ns uids key
  | AStoreGet _ | ANow | AHead _ | AAccept | AWrite _ | AProxy _ _ _ | AWait _ | AEnded => true
  end.

(** The runs known after an answer. *)
Definition learn (ns : string) {R} (o : AOp R) : R → gset string → gset string :=
  match o with
  | AGetRun _ _ => fun r uids => match r with Ok cr => {[run_uid cr]} ∪ uids | Err _ => uids end
  | AStoreGet _ => fun r uids => match r with Ok row => if (rw_Namespace row =? ns)%string then {[rw_UID row]} ∪ uids else uids | Err _ => uids end
  | AStoreGetByName _ _ => fun r uids => match r with Ok row => {[rw_UID row]} ∪ uids | Err _ => uids end
  | _ => fun _ uids => uids
  end.

(** [None]: a promise was broken. *)
Definition fence (ns : string) : monitor AOp (option (gset string)) := fun R st o =>
  match st with
  | None => Some (fun _ => None)
  | Some uids => if inside ns uids o then Some (fun r => if promised o r then Some (learn ns o r uids) else None) else None
  end.

(** An answer that tells of the namespace only. *)
Definition told (ns : string) (o : Reply) : bool :=
  match o with
  | Answer _ _ b =>
      match b with
      | BRun e => (e_Namespace e =? ns)%string
      | BRuns es => forallb (fun e => e_Namespace e =? ns)%string es
      | BTestRun cr => (run_ns cr =? ns)%string
      | BTest t => (test_ns t =? ns)%string
      | BTests ts => forallb (fun t => test_ns t =? ns)%string ts
      | BTemplates ts => forallb (fun t => tmpl_ns t =? ns)%string ts
      | BResolved t => (rt_Namespace t =? ns)%string
      | BAudit es => forallb (fun e => ad_Namespace e =? ns)%string es
      | BTestStats ts => forallb (fun t => tt_Namespace t.1 =? ns)%string ts
      | _ => true
      end
  | _ => true
  end.

Section Fence.
Context `{MapOrder, Floats, Uuids, WebLib} (ns : string).

Definition within {A} (u : gset string) (p : M A) (Q : A → gset string → Prop) : Prop :=
  guards (fence ns) (Some u) p (fun a st => match st with Some u' => u ⊆ u' ∧ Q a u' | None => True end).

Lemma learn_more {R} (o : AOp R) r u : u ⊆ learn ns o r u.
Proof. destruct o; cbn; try done; destruct r; try case_match; set_solver. Qed.

Lemma broken {A} (p : M A) Q : (∀ a, Q a None) → guards (fence ns) None p Q.
Proof. intros Hq. induction p as [a|R o k IH]; cbn; [apply Hq|]. intros r. apply IH. Qed.

Lemma within_ret {A} u (a : A) (Q : A → gset string → Prop) : Q a u → within u (Ret a) Q.
Proof. intros Hq. unfold within. cbn. by split. Qed.
Lemma within_bind {A B} u (p : M A) (f : A → M B) (P : A → gset string → Prop) Q :
  within u p P → (∀ a u', u ⊆ u' → P a u' → within u' (f a) Q) → within u (p ≫= f) Q.
Proof.
  intros Hp Hf. unfold within. eapply guards_seq; [exact Hp|]. intros a [u'|]; cbn beta iota.
  - intros [Hs HP]. eapply guards_mono; [apply (Hf a u' Hs HP)|]. intros b [u''|]; [|done]. intros [? ?]. split; [by etrans|done].
  - intros _. by apply broken.
Qed.
Lemma within_perform {R} u (o : AOp R) (Q : R → gset string → Prop) :
  inside ns u o = true → (∀ r, promised o r = true → Q r (learn ns o r u)) → within u (perform o) Q.
Proof.
  intros Hi Hq. unfold within. cbn. rewrite Hi. intros r. destruct (promised o r) eqn:E; [|done]. split; [apply learn_more|by apply Hq].
Qed.
Lemma within_do {R B} u (o : AOp R) (f : R → M B) Q :
  inside ns u o = true → (∀ r, promised o r = true → within (learn ns o r u) (f r) Q) → within u (perform o ≫= f) Q.
Proof.
  intros Hi Hf. eapply (within_bind _ _ _ (fun r u' => promised o r = true ∧ u' = learn ns o r u)); [apply within_perform; [done|by intros]|].
  intros r u' _ [Hr ->]. by apply Hf.
Qed.
Lemma within_mono {A} u (p : M A) (Q Q' : A → gset string → Prop) : within u p Q → (∀ a u', u ⊆ u' → Q a u' → Q' a u') → within u p Q'.
Proof. intros Hp Hq. eapply guards_mono; [exact Hp|]. intros a [u'|]; [|done]. intros [? ?]. split; [done|by apply Hq]. Qed.

(** An answer of the namespace. *)
Definition fenced (u : gset string) (p : M Reply) : Prop := within u p (fun o _ => told ns o = true).

Lemma fenced_bind {A} u (p : M A) (f : A → M Reply) (P : A → Prop) :
  within u p (fun a _ => P a) → (∀ a u', u ⊆ u' → P a → fenced u' (f a)) → fenced u (p ≫= f).
Proof. intros Hp Hf. eapply within_bind; [exact Hp|]. intros a u' ? ?. by apply Hf. Qed.

Lemma fenced_do {R} u (o : AOp R) (f : R → M Reply) :
  inside ns u o = true → (∀ r, promised o r = true → fenced (learn ns o r u) (f r)) → fenced u (perform o ≫= f).
Proof. apply within_do. Qed.

Lemma told_lookup e : told ns (writeLookupError e) = true.
Proof. destruct e as [|?|e]; [done|done|]. cbn. unfold writeAPIError. by destruct (e_Kind e). Qed.
Lemma told_api e : told ns (writeAPIError e) = true.
Proof. unfold writeAPIError. by destruct (e_Kind e). Qed.

(** One step: a return, a branch, an operation. *)
Ltac fstep :=
  lazymatch goal with
  | |- fenced _ (Ret _) => apply within_ret
  | |- within _ (Ret _) _ => apply within_ret
  | |- told _ (writeLookupError _) = true => apply told_lookup
  | |- told _ (writeAPIError _) = true => apply told_api
  | |- told _ (match ?x with _ => _ end) = true => destruct x eqn:?
  | |- fenced _ (mbind _ (perform _)) => apply fenced_do; [|intros ? ?; cbn [learn]]
  | |- within _ (mbind _ (perform _)) _ => apply within_do; [|intros ? ?; cbn [learn]]
  | |- fenced _ (match ?x with _ => _ end) => destruct x eqn:?
  | |- within _ (match ?x with _ => _ end) _ => destruct x eqn:?
  end.

(** The server's namespace, or the one asked for. *)
Definition confined_to (s : Server) (r : Request) : Prop :=
  ns ≠ "" ∧ (sv_Namespace s = ns ∨ (sv_Namespace s = "" ∧ query r QueryNamespace = ns)).

Section Requests.
Context (s : Server) (r : Request) (Hc : confined_to s r).

Lemma target_ns payload n : targetNamespace s r payload = Ok n → n = ns.
Proof.
  destruct Hc as [Hne [Hs|[Hs Hq]]]; unfold targetNamespace; rewrite Hs.
  - apply String.eqb_neq in Hne. rewrite Hne. cbn [negb]. destruct (find_first _ _); [done|by intros [= <-]].
  - rewrite Hq. cbn [String.eqb negb]. apply String.eqb_neq in Hne. rewrite Hne. cbn [negb andb]. destruct (_ && _); [done|by intros [= <-]].
Qed.
Lemma list_ns n : listNamespace s r = Ok n → n = ns.
Proof.
  destruct Hc as [Hne [Hs|[Hs Hq]]]; unfold listNamespace; rewrite Hs.
  - apply String.eqb_neq in Hne. rewrite Hne. cbn [negb andb]. destruct (_ && _); [done|by intros [= <-]].
  - cbn [String.eqb negb andb]. rewrite Hq. by intros [= <-].
Qed.

(** *** The run a request is for *)

Definition ref_in (u : gset string) (ref : runRef) : Prop :=
  rf_Namespace ref = ns ∧ rf_UID ref ∈ u ∧
  match rf_Found ref with InCluster cr => run_ns cr = ns | InHistory row => rw_Namespace row = ns end.

Lemma find_within u id : within u (findRun s ns id) (fun x u' => match x with Ok ref => ref_in u' ref | Err _ => True end).
Proof.
  unfold findRun. apply within_do; [apply String.eqb_refl|]. intros [cr|e] Hp; cbn [learn].
  { apply within_ret. cbn in Hp. apply String.eqb_eq in Hp. split; [done|]. split; [set_solver|done]. }
  destruct (negb _); [by apply within_ret|]. destruct (negb _); [by apply within_ret|]. destruct (uuid_Parse id).
  - apply within_do; [done|]. intros [row|e'] _; cbn [learn]; [|by apply within_ret]. destruct (String.eqb_spec (rw_Namespace row) ns) as [Hn|Hn]; [|by apply within_ret].
    apply within_ret. split; [done|]. split; [set_solver|done].
  - apply within_do; [apply String.eqb_refl|]. intros [row|e'] Hp'; cbn [learn]; [|by apply within_ret]. cbn in Hp'. rewrite Hp'. apply String.eqb_eq in Hp'.
    apply within_ret. split; [done|]. split; [set_solver|done].
Qed.

Lemma find_fenced u id (f : result lookup_error runRef → M Reply) :
  (∀ ref u', ref_in u' ref → fenced u' (f (Ok ref))) → (∀ e u', fenced u' (f (Err e))) → fenced u (findRun s ns id ≫= f).
Proof. intros Hok Herr. eapply within_bind; [apply find_within|]. intros [ref|e] u' _ Hr; [by apply Hok|apply Herr]. Qed.
Lemma with_run_fenced u (k : runRef → M Reply) : (∀ ref u', ref_in u' ref → fenced u' (k ref)) → fenced u (with_run s r k).
Proof.
  intros Hk. unfold with_run. destruct (targetNamespace s r "") as [n|e] eqn:E; [|apply within_ret, told_lookup]. apply target_ns in E as ->.
  apply find_fenced; [done|]. intros. apply within_ret, told_lookup.
Qed.

Lemma audit_within u action n target details : n = ns → within u (recordAudit s r action n target details) (fun _ _ => True).
Proof. intros ->. unfold recordAudit. repeat fstep; try done. cbn. apply String.eqb_refl. Qed.
Lemma after_audit u action n target details (f : unit → M Reply) : n = ns → (∀ u', u ⊆ u' → fenced u' (f tt)) → fenced u (recordAudit s r action n target details ≫= f).
Proof. intros Hn Hf. eapply fenced_bind; [by apply (audit_within u action n target details)|]. intros [] u' Hu _. by apply Hf. Qed.

Lemma elem_run (u : gset string) (uid : string) : uid ∈ u → bool_decide (uid ∈ u) = true.
Proof. apply bool_decide_eq_true_2. Qed.
Lemma of_a_run_key u uid key : uid ∈ u → HasPrefix key (Keys.ForRun ns uid) = true → of_a_run ns u key = true.
Proof. intros Hu Hk. apply existsb_exists. exists uid. split; [by apply list_elem_of_In, elem_of_elements|done]. Qed.
(** *** Each handler *)

Ltac same_ns := repeat match goal with Hp : promised _ _ = true |- _ => cbn in Hp; try apply String.eqb_eq in Hp end.
Ltac istep :=
  cbn zeta;
  lazymatch goal with
  | |- fenced _ (match targetNamespace s r ?p with _ => _ end) =>
      let E := fresh "E" in destruct (targetNamespace s r p) eqn:E; [apply target_ns in E as ->|apply within_ret, told_lookup]
  | |- fenced _ (match listNamespace s r with _ => _ end) =>
      let E := fresh "E" in destruct (listNamespace s r) eqn:E; [apply list_ns in E as ->|apply within_ret, told_lookup]
  | |- fenced _ (with_run s r _) => apply with_run_fenced; intros ? ? (? & ? & ?)
  | |- fenced _ (mbind _ (recordAudit _ _ _ _ _ _)) => apply after_audit; [|intros ? ?]
  | |- inside _ _ _ = true => cbn [inside]; try apply String.eqb_refl; try (apply elem_run; done); try done
  | |- _ => fstep
  end.

Lemma forallb_fmap {A B} (f : B → bool) (g : A → B) xs : forallb f (g <$> xs) = forallb (fun x => f (g x)) xs.
Proof. induction xs as [|x xs IH]; [done|]. cbn. by rewrite <- IH. Qed.

Ltac served := repeat istep; same_ns; cbn; try done; try (apply String.eqb_eq; congruence); unfold test_ns in *; try congruence.

Lemma createRun_fenced u body : fenced u (createRun s r body).
Proof. unfold createRun. served. Qed.

Lemma historyComment_within u cr : within u (historyComment s cr) (fun _ _ => True).
Proof. unfold historyComment. repeat fstep; done. Qed.
Lemma getRun_fenced u : fenced u (getRun s r).
Proof.
  unfold getRun. repeat istep; try done; [|by apply String.eqb_eq]. eapply fenced_bind; [apply historyComment_within|]. intros c ? ? _. apply within_ret. by apply String.eqb_eq.
Qed.

Lemma abortRun_fenced u body : fenced u (abortRun s r body).
Proof.
  unfold abortRun. repeat istep; try done. apply find_fenced; [|intros; apply within_ret, told_lookup].
  intros ref u' (? & ? & Hin). destruct (rf_Found ref) as [cr|row]; [|by apply within_ret]. served.
Qed.

Lemma delete_history_fenced u ref : ref_in u ref → fenced u (delete_history s r ref).
Proof.
  intros (? & ? & ?). unfold delete_history. eapply fenced_bind with (P := fun _ => True); [|intros d u' Hu _; served].
  destruct (sv_Deleter s); [|by apply within_ret]. apply within_perform; [by apply elem_run|done].
Qed.
Lemma deleteRun_fenced u : fenced u (deleteRun s r).
Proof.
  unfold deleteRun. apply with_run_fenced. intros ref u' Href. destruct (delete_refused s ref) as [o|] eqn:E.
  { apply within_ret. revert E. unfold delete_refused. repeat case_match; intros [= <-]; done. }
  destruct Href as (Hn & Hu & Hin). eapply fenced_bind with (P := fun _ => True).
  { destruct (_ && _); [|by apply within_ret]. apply within_perform; [|done]. cbn [inside]. apply (of_a_run_key _ (rf_UID ref)); [done|].
    unfold keys. rewrite Hn. apply Keys.HasPrefix_refl. }
  intros [e|] u2 Hu2 _; [by apply within_ret|]. eapply fenced_bind with (P := fun _ => True).
  { unfold rf_CR. destruct (rf_Found ref); [|by apply within_ret]. apply within_perform; [cbn; by apply String.eqb_eq|done]. }
  intros d u3 Hu3 _. destruct (IgnoreNotFound d); [apply within_ret, told_api|]. apply delete_history_fenced. split_and!; [done|set_solver|done].
Qed.

Lemma commentTarget_fenced u k : (∀ ref u', ref_in u' ref → fenced u' (k ref)) → fenced u (commentTarget s r k).
Proof. intros Hk. unfold commentTarget, rf_CR. served; apply Hk; done. Qed.
Lemma putComment_fenced u runes body : fenced u (putComment s r runes body).
Proof. unfold putComment. repeat istep; try done. apply commentTarget_fenced. intros ref u' (? & ? & ?). served. unfold writeCommentError. served. Qed.
Lemma deleteComment_fenced u : fenced u (deleteComment s r).
Proof. unfold deleteComment. apply commentTarget_fenced. intros ref u' (? & ? & ?). served. Qed.

Lemma listRunCases_fenced u : fenced u (listRunCases s r).
Proof. unfold listRunCases. served. Qed.
Lemma listTestCaseStats_fenced u : fenced u (listTestCaseStats s r).
Proof. unfold listTestCaseStats. served. Qed.
Lemma listTestCaseHistory_fenced u : fenced u (listTestCaseHistory s r).
Proof. unfold listTestCaseHistory. served. Qed.
Lemma listTestStats_fenced u : fenced u (listTestStats s r).
Proof. unfold listTestStats. served. by rewrite forallb_fmap. Qed.
Lemma listAudit_fenced u : fenced u (listAudit s r).
Proof. unfold listAudit. served. Qed.
Lemma listTests_fenced u : fenced u (listTests s r).
Proof. unfold listTests. served. Qed.
Lemma listTemplates_fenced u : fenced u (listTemplates s r).
Proof. unfold listTemplates. served. Qed.
Lemma listRunEvents_fenced u : fenced u (listRunEvents s r).
Proof. unfold listRunEvents. served. Qed.
Lemma with_test_fenced u k : (∀ t u', test_ns t = ns → fenced u' (k t)) → fenced u (with_test s r k).
Proof. intros Hk. unfold with_test. repeat istep; try done. apply Hk. same_ns. done. Qed.
Lemma getTest_fenced u : fenced u (getTest s r).
Proof. unfold getTest. istep; [by istep|]. apply with_test_fenced. intros. served. Qed.
Lemma createTest_fenced u body : fenced u (createTest s r body).
Proof. unfold createTest, create_owned. served. Qed.
Lemma deleteTest_fenced u : fenced u (deleteTest s r).
Proof. unfold deleteTest. istep; [by istep|]. apply with_test_fenced. intros. served. Qed.
Lemma patchTest_fenced u size body : fenced u (patchTest s r size body).
Proof. unfold patchTest. served. Qed.
Lemma getResolvedTest_fenced u : fenced u (getResolvedTest s r).
Proof.
  unfold getResolvedTest. apply with_test_fenced. intros t u' Ht. eapply fenced_bind with (P := fun _ => True).
  - unfold Resolver.MergeTemplates. eapply within_bind with (P := fun _ _ => True); [|intros [[]|] ? ? ?; by apply within_ret].
    fold (test_ns t). rewrite Ht. generalize (zeroTestSpec, ""). revert u'. induction (ts_Use (t_Spec t)) as [|name uses IH]; intros u' acc; cbn [Resolver.merge_uses]; [by apply within_ret|].
    eapply within_bind with (P := fun _ _ => True); [|intros [[tmpl|]|e] u2 _ _; [apply IH|by apply within_ret..]].
    unfold templateStore. apply within_do; [apply String.eqb_refl|]. intros [tmpl|e] _; [by apply within_ret|]. destruct (is_kind _ _); by apply within_ret.
  - intros [[spec tool]|e] u2 _ _; apply within_ret; [|done]. by apply String.eqb_eq.
Qed.

Lemma liveView_fenced u : fenced u (liveView s r).
Proof.
  unfold liveView. apply with_run_fenced. intros ref u' Href. repeat istep; try done.
  revert Heqs0. unfold live_target. repeat case_match; intros; simplify_eq; done.
Qed.

Lemma run_keys_prefix u ref key : ref_in u ref → HasPrefix key (keys ref) = true → of_a_run ns u key = true.
Proof. intros (Hn & Hu & _) Hk. apply (of_a_run_key _ (rf_UID ref)); [done|]. unfold keys in Hk. by rewrite Hn in Hk. Qed.

Lemma listRunArtifacts_fenced u : fenced u (listRunArtifacts s r).
Proof.
  unfold listRunArtifacts. apply with_run_fenced. intros ref u' Href. cbn zeta. destruct (_ && _); [|by apply within_ret].
  apply fenced_do; [apply (run_keys_prefix _ ref); [done|apply Keys.HasPrefix_self]|]. intros [ks|e] _; by apply within_ret.
Qed.
Lemma getRunArtifact_fenced u mime : fenced u (getRunArtifact s r mime).
Proof.
  unfold getRunArtifact. destruct (_ || _); [by apply within_ret|]. cbn zeta. destruct (_ || _); [by apply within_ret|]. destruct (validateArtifactPath _); [by apply within_ret|].
  apply with_run_fenced. intros ref u' Href.
  assert (Hk : of_a_run ns u' (Keys.Artifact (keys ref) (rq_path r)) = true).
  { apply (run_keys_prefix _ ref); [done|]. unfold Keys.Artifact, Keys.Artifacts. rewrite str_app_assoc. apply Keys.HasPrefix_self. }
  destruct (query r "presign" =? "1")%string; apply fenced_do; [done| |done|].
  - intros [url|e] _; by apply within_ret.
  - intros [bytes|e] _; [|apply within_ret; by destruct (is_kind _ _)]. repeat istep; done.
Qed.

(** *** Listing runs *)

Definition run_in (e : Run) : Prop := e_Namespace e = ns.
Definition all_in (live : list Run) (fin : gmap string Run) : Prop := Forall run_in live ∧ map_Forall (fun _ => run_in) fin.

Lemma collect_in lq crs : Forall (fun cr => run_ns cr = ns) crs → all_in (cl_live (collect_runs lq crs)) (cl_finished (collect_runs lq crs)).
Proof.
  induction crs as [|cr crs IH] using rev_ind; intros Hf; [split; [constructor|apply map_Forall_empty]|].
  apply Forall_app in Hf as [Hf Hcr]. apply Forall_cons_1 in Hcr as [Hcr _]. unfold collect_runs. rewrite foldl_app. cbn [foldl]. fold (collect_runs lq crs). specialize (IH Hf). destruct IH as [Hl Hm].
  unfold collect_run. destruct (negb (query_matches lq cr)); [done|]. cbn zeta. destruct (negb (IsTerminalPhase _)).
  - split; [|done]. cbn [cl_live]. destruct (lq_wantLive lq); [|done]. apply Forall_app_2; [done|]. constructor; [exact Hcr|constructor].
  - destruct (_ && _); [|done]. split; [done|]. apply map_Forall_insert_2; [exact Hcr|done].
Qed.
Lemma merge_in live fin rows : map_Forall (fun _ => run_in) fin → Forall (fun row => rw_Namespace row = ns) rows → map_Forall (fun _ => run_in) (merge_rows live fin rows).
Proof.
  intros Hm. induction rows as [|row rows IH] using rev_ind; intros Hf; [done|]. apply Forall_app in Hf as [Hf Hrow]. apply Forall_cons_1 in Hrow as [Hrow _].
  unfold merge_rows. rewrite foldl_app. cbn [foldl]. fold (merge_rows live fin rows). specialize (IH Hf). unfold merge_row.
  destruct (merge_rows live fin rows !! rw_UID row) as [e|] eqn:E; [|case_bool_decide; [done|apply map_Forall_insert_2; [exact Hrow|done]]].
  apply map_Forall_insert_2; [|done]. exact (IH _ _ E).
Qed.
Lemma page_in limit live fin full out next : all_in live fin → page_out limit live fin full = Some (out, next) → Forall run_in out.
Proof.
  intros [Hl Hm] Ho. assert (out = sort_by newest_started live ++ take (Z.to_nat limit) (sort_by newest_finished (snd <$> range fin))) as ->.
  { revert Ho. unfold page_out. destruct (if _ : bool then _ else _) as [e|]; [destruct (e_FinishedAt e); [|done]|]; by intros [= <- _]. }
  apply Forall_app_2.
  - rewrite Forall_forall in *. intros e. rewrite sort_by_elem. apply Hl.
  - apply Forall_take. rewrite Forall_forall. intros e. rewrite sort_by_elem. intros ([k e'] & -> & Hin)%list_elem_of_fmap.
    rewrite range_perm in Hin. apply elem_of_map_to_list in Hin. exact (Hm _ _ Hin).
Qed.

Lemma ns_forall {A} (f : A → string) xs : forallb (fun x => f x =? ns)%string xs = true ↔ Forall (fun x => f x = ns) xs.
Proof. rewrite forallb_forall, Forall_forall. setoid_rewrite String.eqb_eq. by setoid_rewrite list_elem_of_In. Qed.

Lemma listRuns_fenced u : fenced u (listRuns s r).
Proof.
  unfold listRuns. istep. destruct (parseListRunsQuery _ _) as [lq|e] eqn:Ep; [|by apply within_ret].
  apply ApiListSpec.parse_limit in Ep as [_ Hns]. apply fenced_do; [cbn; by apply String.eqb_eq|]. intros [crs|e] Hp; [|apply within_ret, told_api]. cbn zeta.
  assert (Hall : all_in (cl_live (collect_runs lq crs)) (cl_finished (collect_runs lq crs))) by (apply collect_in, ns_forall; cbn in Hp; by rewrite Hns in Hp).
  eapply fenced_bind with (P := fun m => match m with Ok (fin, _) => map_Forall (fun _ => run_in) fin | Err _ => True end).
  - unfold mergeStoreRuns. destruct (_ || _); [apply within_ret, Hall|]. apply within_do; [cbn; by apply String.eqb_eq|].
    intros [rows|e] Hr; [|by apply within_ret]. apply within_ret. apply merge_in; [apply Hall|]. apply ns_forall. cbn in Hr. by rewrite Hns in Hr.
  - intros [[fin full]|e] u' _ Hm; [|apply within_ret, told_api]. apply within_ret. destruct (page_out _ _ _ _) as [[out next]|] eqn:E; [|done].
    cbn. apply ns_forall. eapply page_in; [|exact E]. split; [apply Hall|done].
Qed.

(** *** Logs *)

Section Chunks.
Context {E : Type} (emit : E → string → M (bool * E)) (c : chunkStream) (uid : string).
Context (Hemit : ∀ u e body, within u (emit e body) (fun _ _ => True)).
Context (Hprefix : HasPrefix (cs_Prefix c) (Keys.ForRun ns uid) = true).
Context (Hterminal : ∀ u p, cs_IsTerminal c = Some p → within u p (fun _ _ => True)).

Lemma prefix_trans a b p : HasPrefix a b = true → HasPrefix b p = true → HasPrefix a p = true.
Proof. intros ->%Keys.HasPrefix_drop Hb. by apply Keys.HasPrefix_app. Qed.

Lemma drain_keys_within ks : ∀ u emitted sent e, uid ∈ u → Forall (fun k => HasPrefix k (cs_Prefix c) = true) ks →
  within u (drain_keys emit c ks emitted sent e) (fun _ _ => True).
Proof.
  induction ks as [|k ks IH]; intros u emitted sent e Hu Hks; cbn [drain_keys]; [by apply within_ret|]. apply Forall_cons in Hks as [Hk Hks].
  case_bool_decide; [by apply IH|]. apply within_do; [apply (of_a_run_key _ uid); [done|by eapply prefix_trans]|]. intros [body|err] _; [|by apply within_ret].
  eapply within_bind; [apply Hemit|]. intros w u' Hu' _. destruct (w.1); [apply IH; [set_solver|done]|by apply within_ret].
Qed.

Lemma drain_within u sent e : uid ∈ u → within u (drainOnce emit c sent e) (fun _ _ => True).
Proof.
  intros Hu. unfold drainOnce. apply within_do; [by apply (of_a_run_key _ uid)|]. intros [ks|err] Hp; [|by apply within_ret].
  apply drain_keys_within; [done|]. cbn in Hp. rewrite forallb_forall in Hp. rewrite Forall_forall. intros k Hk%list_elem_of_In. by apply Hp.
Qed.

Lemma round_within u st : uid ∈ u → within u (stream_round emit c st) (fun _ _ => True).
Proof.
  intros Hu. unfold stream_round. apply within_do; [done|]. intros over _. cbn [learn]. destruct over; [by apply within_ret|].
  eapply within_bind; [by apply drain_within|]. intros [emitted sent e|e|msg e] u1 Hu1 _; [|by apply within_ret..].
  eapply within_bind with (P := fun _ _ => True); [destruct emitted; [by apply within_perform|by apply within_ret]|]. intros last u2 Hu2 _.
  destruct (_ || _); [by apply within_ret|]. eapply within_bind with (P := fun _ _ => True).
  { destruct (cs_IsTerminal c) as [p|] eqn:E0; [by apply Hterminal|by apply within_ret]. }
  intros terminal u3 Hu3 _. destruct terminal; [by apply within_ret|]. apply within_do; [done|]. intros now _. cbn [learn].
  destruct (_ && _); [by apply within_ret|]. apply within_do; [done|]. intros o _. cbn [learn]. destruct o; by apply within_ret.
Qed.

Lemma rounds_within fuel : ∀ u st, uid ∈ u → within u (stream_rounds emit c fuel st) (fun _ _ => True).
Proof.
  induction fuel as [|fuel IH]; intros u st Hu; cbn [stream_rounds]; [by apply within_ret|].
  eapply within_bind; [by apply round_within|]. intros [st'|out] u' Hu' _; [apply IH; set_solver|by apply within_ret].
Qed.
End Chunks.

Lemma stream_within {E} (emit : E → string → M (bool * E)) c uid u fuel e :
  (∀ u e body, within u (emit e body) (fun _ _ => True)) → HasPrefix (cs_Prefix c) (Keys.ForRun ns uid) = true →
  (∀ u p, cs_IsTerminal c = Some p → within u p (fun _ _ => True)) → uid ∈ u → within u (stream emit c fuel e) (fun _ _ => True).
Proof. intros He Hp Ht Hu. unfold stream. apply within_do; [done|]. intros now _. by apply (rounds_within emit (stream_defaults c) uid). Qed.

Lemma emit_ws_within u e body : within u (emit_ws e body) (fun _ _ => True).
Proof. unfold emit_ws. repeat fstep; done. Qed.
Lemma emit_text_within u e body : within u (emit_text e body) (fun _ _ => True).
Proof. unfold emit_text. destruct e as [skip wrote]. cbn zeta. repeat fstep; done. Qed.

(** A call that ends in an answer, or may go on. *)
Definition fenced_opt (u : gset string) (p : M (option Reply)) : Prop := within u p (fun o _ => from_option (told ns) true o = true).

Lemma getRunLogs_fenced u fuel : fenced_opt u (getRunLogs s r fuel).
Proof.
  unfold getRunLogs. destruct (_ =? _)%string; [by apply within_ret|]. destruct (_ || _); [by apply within_ret|].
  destruct (targetNamespace s r "") as [n|e] eqn:E; [apply target_ns in E as ->|apply within_ret, told_lookup].
  eapply within_bind; [apply find_within|]. intros [ref|e] u' _ Href; [|apply within_ret, told_lookup].
  apply within_do; [done|]. intros up _. cbn [learn]. destruct up; [cbn [negb]|by apply within_ret].
  eapply within_bind with (P := fun _ _ => True); [|intros [out|] ? _ _; by apply within_ret].
  destruct Href as (Hn & Hu & _). apply (stream_within _ _ (rf_UID ref)); [apply emit_ws_within| | |done].
  - cbn [log_stream cs_Prefix]. unfold keys, Keys.Logs. rewrite Hn. apply Keys.HasPrefix_self.
  - intros u2 p. cbn [log_stream cs_IsTerminal]. destruct (from_option _ _ _); [|done]. intros [= <-]. unfold run_over. rewrite Hn.
    apply within_do; [apply String.eqb_refl|]. intros [cr|e] _; by apply within_ret.
Qed.

Lemma stage_prefix_of k stage p : stage_prefix k stage = Some p → HasPrefix p k = true.
Proof.
  unfold stage_prefix, Keys.Logs, Keys.Stage, Keys.Worker, Keys.Artifacts.
  repeat case_match; intros [= <-]; rewrite ?str_app_assoc; apply Keys.HasPrefix_self.
Qed.
Lemma stage_prefix_any k k' stage : stage_prefix k stage = None → stage_prefix k' stage = None.
Proof. unfold stage_prefix. by repeat case_match. Qed.

Lemma getRunLogsText_fenced u : fenced u (getRunLogsText s r).
Proof.
  unfold getRunLogsText. destruct (_ || _); [by apply within_ret|]. istep. destruct (if _ : bool then _ else _) as [skip|]; [|by apply within_ret].
  destruct (stage_prefix "" (query r "stage")) as [p0|] eqn:E0; [|by apply within_ret].
  apply find_fenced; [|intros; apply within_ret, told_lookup]. intros ref u' (Hn & Hu & _).
  destruct (stage_prefix (keys ref) (query r "stage")) as [p|] eqn:Ep; [|by rewrite (stage_prefix_any _ "" _ Ep) in E0].
  cbn zeta. apply fenced_do; [done|]. intros [] _. cbn [learn].
  eapply fenced_bind with (P := fun _ => True); [|intros [[[msg|] [sk []]]|] ? ? _; by apply within_ret].
  apply (stream_within _ _ (rf_UID ref)); [apply emit_text_within| |done|done]. cbn [text_stream cs_Prefix default from_option]. apply stage_prefix_of in Ep. unfold keys in Ep. by rewrite Hn in Ep.
Qed.

Lemma handle_fenced runes mime fuel u c : fenced_opt u (handle runes mime fuel s r c).
Proof.
  assert (Honce : ∀ p, fenced u p → fenced_opt u (o ← p; Ret (Some o))).
  { intros p Hp. eapply within_bind; [exact Hp|]. intros o u' _ Ho. by apply within_ret. }
  destruct c; cbn [handle]; try apply Honce.
  - apply listTests_fenced.
  - apply createTest_fenced.
  - apply getTest_fenced.
  - apply getResolvedTest_fenced.
  - apply listTestCaseStats_fenced.
  - apply listTestStats_fenced.
  - apply listTestCaseHistory_fenced.
  - apply patchTest_fenced.
  - apply deleteTest_fenced.
  - apply listTemplates_fenced.
  - apply createRun_fenced.
  - apply listRuns_fenced.
  - apply liveView_fenced.
  - apply listRunEvents_fenced.
  - apply getRun_fenced.
  - apply abortRun_fenced.
  - apply listRunCases_fenced.
  - apply putComment_fenced.
  - apply deleteComment_fenced.
  - apply listAudit_fenced.
  - apply deleteRun_fenced.
  - apply getRunLogs_fenced.
  - apply getRunLogsText_fenced.
  - apply listRunArtifacts_fenced.
  - apply getRunArtifact_fenced.
  - by apply within_ret.
Qed.
End Requests.

(** Every answer kept its promise. *)
Definition promises_kept (tr : list (event AOp)) : bool := forallb (fun e => match e with Ev o r => promised o r end) tr.
Lemma fence_whole tr : ∀ u st, promises_kept tr = true → watch (fence ns) (Some u) tr = Some st → ∃ u', st = Some u'.
Proof.
  induction tr as [|[R o x] tr IH]; intros u st Hk Hw; cbn in *; [by injection Hw as <-; exists u|]. apply andb_true_iff in Hk as [Ho Hk].
  destruct (inside ns u o); [|done]. cbn in Hw. rewrite Ho in Hw. by eapply IH.
Qed.
End Fence.

(** C7: A server scoped to a namespace, or a request for one, stays in it: whatever the
    call, every object, row and key it reads or changes is the namespace's — a run's
    objects, rows and comments only once the run has been found there — and the
    answer tells of nothing else, whatever else its UIDs, names and paths may say. *)
Theorem requests_confined `{MapOrder, Floats, Uuids, WebLib} ns runes mime fuel s r path c tr out :
  confined_to ns s r → exec (serve_call runes mime fuel s r path c) tr out → promises_kept tr = true →
  ∃ uids, watch (fence ns) (Some ∅) tr = Some (Some uids) ∧ from_option (told ns) true out = true.
Proof.
  intros Hc Hex Hk. assert (Hc' : confined_to ns (with_defaults s) r) by exact Hc.
  assert (Hg : fenced_opt ns ∅ (serve_call runes mime fuel s r path c)).
  { unfold serve_call. destruct (refused _ _ _); [by apply within_ret|]. by apply handle_fenced. }
  destruct (guards_sound _ _ _ _ _ _ Hg Hex) as (st & Hw & Hq). destruct (fence_whole _ _ _ _ Hk Hw) as [u' ->]. exists u'. by destruct Hq.
Qed.

(** ** Small servers *)

Definition no_mime (ext : string) : string := "".
Definition demo_list : M (option Reply) :=
  serve_call (H := list_order) (H0 := StoreSpec.demo_floats) (H1 := StoreSpec.demo_uuids) (H2 := ApiListSpec.demo_web)
    String.length no_mime 9 ApiListSpec.demo_server (ApiListSpec.demo_query "1") "/runs" ListRuns.
Definition demo_listed : option Reply * ApiListSpec.moment * list (event AOp) :=
  Effects.run (ApiListSpec.api (H1 := StoreSpec.demo_uuids)) demo_list ApiListSpec.demo_cluster.

Lemma requests_confined_witness : exec demo_list demo_listed.2 demo_listed.1.1 ∧ from_option (told "ns") true demo_listed.1.1 = true.
Proof.
  assert (Hex : exec demo_list demo_listed.2 demo_listed.1.1) by apply run_exec.
  split; [exact Hex|].
  destruct (requests_confined (H := list_order) (H0 := StoreSpec.demo_floats) (H1 := StoreSpec.demo_uuids) (H2 := ApiListSpec.demo_web) "ns"
    String.length no_mime 9 ApiListSpec.demo_server (ApiListSpec.demo_query "1") "/runs" ListRuns demo_listed.2 demo_listed.1.1) as (u & _ & Ht).
  - split; [discriminate|left; reflexivity].
  - exact Hex.
  - vm_compute. reflexivity.
  - exact Ht.
Defined.

(** ** The owner's label under a patch

    A JSON merge patch sets what its fields say, the last of those with a name; what it
    says of the label is at metadata, labels, by their exact names. *)

Definition last_field (k : string) (fs : list (string * Triggers.json)) : option Triggers.json :=
  last (omap (fun f : string * Triggers.json => if (f.1 =? k)%string then Some f.2 else None) fs).
Lemma last_field_cons k k' v fs : last_field k ((k', v) :: fs) = match last_field k fs with Some x => Some x | None => if (k' =? k)%string then Some v else None end.
Proof.
  unfold last_field. cbn [omap list_omap fst snd]. destruct (k' =? k)%string; [|by destruct (last _)]. rewrite last_cons. by destruct (last _).
Qed.

Definition label_set (patch : Triggers.json) : option Triggers.json :=
  match patch with
  | Triggers.JObject fs =>
      match last_field "metadata" fs with
      | Some (Triggers.JObject ms) => match last_field "labels" ms with Some (Triggers.JObject ls) => last_field LabelManagedBy ls | _ => None end
      | _ => None
      end
  | _ => None
  end.

(** Names in their own case, and no null for the labels or the metadata. *)
Definition plain_metadata (ms : list (string * Triggers.json)) : Prop :=
  ∀ k v, (k, v) ∈ ms → names_field "labels" k = true → k = "labels" ∧ v ≠ Triggers.JNull.
Definition plain_patch (patch : Triggers.json) : Prop :=
  match patch with
  | Triggers.JObject fs => ∀ k v, (k, v) ∈ fs → names_field "metadata" k = true →
      k = "metadata" ∧ v ≠ Triggers.JNull ∧ match v with Triggers.JObject ms => plain_metadata ms | _ => True end
  | _ => True
  end.

Definition label_read (v : Triggers.json) : option string := match v with Triggers.JString s => Some s | _ => None end.

Lemma probe_labels_at ls : ∀ acc p, probe_labels ls acc = Some p →
  p !! LabelManagedBy = match last_field LabelManagedBy ls with Some v => Some (label_read v) | None => acc !! LabelManagedBy end.
Proof.
  induction ls as [|[k v] ls IH]; intros acc p Hp; [by injection Hp as ->|]. rewrite last_field_cons. cbn [probe_labels] in Hp.
  destruct v; try done; apply IH in Hp; rewrite Hp; destruct (last_field LabelManagedBy ls); try done;
    (destruct (String.eqb_spec k LabelManagedBy) as [->|Hne]; [by rewrite lookup_insert_eq|by rewrite lookup_insert_ne]).
Qed.

Lemma probe_metadata_at ms : ∀ acc p ls v, plain_metadata ms → probe_metadata ms acc = Some p →
  (last_field "labels" ms = None → p = acc) ∧
  (last_field "labels" ms = Some (Triggers.JObject ls) → last_field LabelManagedBy ls = Some v → p !! LabelManagedBy = Some (label_read v)).
Proof.
  induction ms as [|[k x] ms IH]; intros acc p ls v Hplain Hp; [by injection Hp as ->|]. rewrite last_field_cons.
  assert (Hrest : plain_metadata ms) by (intros k' v' Hin; by apply Hplain, list_elem_of_further). pose proof (Hplain k x (list_elem_of_here _ _)) as Hhead.
  cbn [probe_metadata] in Hp. destruct (names_field "labels" k) eqn:En.
  - destruct (Hhead eq_refl) as [-> Hnull]. rewrite String.eqb_refl. destruct x as [| | | | |fs']; try done.
    destruct (probe_labels fs' acc) as [acc'|] eqn:El; [|done]. cbn [mbind option_bind] in Hp. destruct (IH acc' p ls v Hrest Hp) as [Hnone Hsome].
    destruct (last_field "labels" ms) as [y|] eqn:Ey; [split; [done|]; intros [= ->]; by apply Hsome|]. split; [done|]. intros [= ->] Hv. rewrite (Hnone eq_refl).
    rewrite (probe_labels_at _ _ _ El). by rewrite Hv.
  - assert (Hk : (k =? "labels")%string = false) by (destruct (String.eqb_spec k "labels") as [->|]; [done|done]). rewrite Hk.
    destruct (IH acc p ls v Hrest Hp) as [Hnone Hsome]. destruct (last_field "labels" ms); [split; [done|]; intros [= ->]; by apply Hsome|]. by split; [intros _; apply Hnone|].
Qed.
Lemma probe_body_at fs : ∀ acc p ms ls v, plain_patch (Triggers.JObject fs) → probe_body fs acc = Some p →
  last_field "metadata" fs = Some (Triggers.JObject ms) → last_field "labels" ms = Some (Triggers.JObject ls) → last_field LabelManagedBy ls = Some v →
  p !! LabelManagedBy = Some (label_read v).
Proof.
  induction fs as [|[k x] fs IH]; intros acc p ms ls v Hplain Hp Hms Hls Hv; [done|]. rewrite last_field_cons in Hms.
  assert (Hrest : plain_patch (Triggers.JObject fs)) by (intros k' v' Hin; by apply Hplain, list_elem_of_further). pose proof (Hplain k x (list_elem_of_here _ _)) as Hhead.
  cbn [probe_body] in Hp. destruct (names_field "metadata" k) eqn:En.
  - destruct (Hhead eq_refl) as (-> & Hnull & Hmeta). rewrite String.eqb_refl in Hms. destruct x as [| | | | |ms']; try done.
    destruct (probe_metadata ms' acc) as [acc'|] eqn:Em; [|done]. cbn [mbind option_bind] in Hp.
    destruct (last_field "metadata" fs) as [y|] eqn:Ey; [injection Hms as ->; by eapply IH|]. injection Hms as ->.
    assert (Hsame : p = acc'); [|subst p; by apply (probe_metadata_at ms acc acc' ls v Hmeta Em)].
    clear -Hp Ey Hrest. revert acc' Hp. induction fs as [|[k x] fs IH]; intros acc' Hp; [by injection Hp|]. rewrite last_field_cons in Ey.
    destruct (last_field "metadata" fs) as [z|] eqn:Ez; [done|]. destruct (String.eqb_spec k "metadata") as [->|Hne]; [done|]. cbn [probe_body] in Hp.
    destruct (names_field "metadata" k) eqn:En; [by destruct (Hrest k x (list_elem_of_here _ _) En)|].
    apply IH; [done|intros k' v' Hin; by apply Hrest, list_elem_of_further|done].
  - assert (Hk : (k =? "metadata")%string = false) by (destruct (String.eqb_spec k "metadata") as [->|]; [done|done]). rewrite Hk in Hms.
    destruct (last_field "metadata" fs) as [y|] eqn:Ey; [injection Hms as ->; by eapply IH|done].
Qed.

Definition patches (tr : list (event AOp)) : list (Test * Triggers.json) :=
  flat_map (fun e => match e with Ev o _ => match o with APatchTest _ t patch => [(t, patch)] | _ => [] end end) tr.

(** C39: A patch leaves a Test with its owner: what PATCH /tests/{name} sends on is the
    body it was given, for a Test the API owns, and — in a body that names metadata
    and labels in their own case and nulls neither — says nothing of the managed-by
    label, or that it is the API's. *)
Theorem patch_keeps_owner s r size body tr o t patch :
  exec (patchTest s r size body) tr o → (t, patch) ∈ patches tr →
  body = Some patch ∧ isLockedForUI (om_Labels (t_Meta t)) = false ∧
  (plain_patch patch → ∀ v, label_set patch = Some v → v = Triggers.JString ManagedByUI).
Proof.
  unfold patchTest. intros Hex Hin. destruct (_ =? _)%string; [by apply exec_ret_inv in Hex as [-> _]; apply elem_of_nil in Hin|].
  destruct (targetNamespace s r "") as [ns|e]; [|by apply exec_ret_inv in Hex as [-> _]; apply elem_of_nil in Hin].
  destruct (_ <? _)%Z; [by apply exec_ret_inv in Hex as [-> _]; apply elem_of_nil in Hin|]. destruct body as [b|]; [|by apply exec_ret_inv in Hex as [-> _]; apply elem_of_nil in Hin].
  destruct (probe_patch b) as [p|] eqn:Ep; [|by apply exec_ret_inv in Hex as [-> _]; apply elem_of_nil in Hin].
  destruct (probe_refuses p) eqn:Er; [by apply exec_ret_inv in Hex as [-> _]; apply elem_of_nil in Hin|].
  apply exec_perform_bind_inv in Hex as ([current|e] & tr1 & -> & Hex); [|by apply exec_ret_inv in Hex as [-> _]; apply elem_of_nil in Hin].
  cbn [patches flat_map app] in Hin. destruct (isLockedForUI _) eqn:El; [by apply exec_ret_inv in Hex as [-> _]; apply elem_of_nil in Hin|].
  apply exec_perform_bind_inv in Hex as (x & tr2 & -> & Hex). cbn [patches flat_map app] in Hin.
  assert (Hrest : flat_map (fun e => match e with Ev o _ => match o with APatchTest _ t patch => [(t, patch)] | _ => [] end end) tr2 = []).
  { destruct x as [t'|e]; [|by apply exec_ret_inv in Hex as [-> _]]. destruct (dryRun r); [by apply exec_ret_inv in Hex as [-> _]|].
    unfold recordAudit in Hex. destruct (negb (sv_Audit s)); cbn [mbind prog_mbind prog_bind] in Hex; [by apply exec_ret_inv in Hex as [-> _]|].
    repeat exec_step. done. }
  rewrite Hrest in Hin. apply list_elem_of_singleton in Hin as [= -> ->]. split; [done|]. split; [done|].
  intros Hplain v Hv. destruct b as [| | | | |fs]; try done. cbn [label_set] in Hv. destruct (last_field "metadata" fs) as [[| | | | |ms]|] eqn:Em; try done.
  destruct (last_field "labels" ms) as [[| | | | |ls]|] eqn:Els; try done. cbn [probe_patch] in Ep. pose proof (probe_body_at fs ∅ p ms ls v Hplain Ep Em Els Hv) as Hp.
  unfold probe_refuses in Er. rewrite Hp in Er. destruct v; cbn [label_read] in Er; try done. apply negb_false_iff, String.eqb_eq in Er. by rewrite Er.
Qed.

(** *** The other patches

    A null for the labels, and a name in another case after the label, pass the check. *)
Definition demo_server_tests : Server := ApiListSpec.demo_server.
Definition demo_test : Test := mkTest (mkMeta "t" "ns" "u" {[LabelManagedBy := ManagedByUI]} ∅ 1 None [] []) zeroTestSpec None.
Definition demo_tests (R : Type) (o : AOp R) (n : nat) : R * nat :=
  match o in AOp R return R * nat with
  | AGetTest _ _ => (Ok demo_test, n)
  | APatchTest _ t _ => (Ok t, n)
  | o => ((ApiListSpec.api (H1 := StoreSpec.demo_uuids) _ o ApiListSpec.demo_cluster).1, n)
  end.
Definition demo_patch_request : Request := mkRequest ∅ "" "t" "" "" "".
Definition sent_on (patch : Triggers.json) : list Triggers.json :=
  snd <$> patches (Effects.run demo_tests (patchTest demo_server_tests demo_patch_request 99 (Some patch)) 0).2.

Definition null_labels : Triggers.json := Triggers.JObject [("metadata", Triggers.JObject [("labels", Triggers.JNull)])].
Definition set_label (v : string) : Triggers.json := Triggers.JObject [("labels", Triggers.JObject [(LabelManagedBy, Triggers.JString v)])].
Definition other_case : Triggers.json := Triggers.JObject [("metadata", set_label "argocd"); ("Metadata", Triggers.JObject [("Labels", Triggers.JNull)])].
Example patches_that_pass : sent_on null_labels = [null_labels] ∧ sent_on other_case = [other_case] ∧ label_set other_case = Some (Triggers.JString "argocd") ∧
  sent_on (Triggers.JObject [("metadata", set_label "argocd")]) = [].
Proof. vm_compute. done. Qed.

Definition renaming : Triggers.json := Triggers.JObject [("spec", Triggers.JObject [("timeout", Triggers.JString "5m")])].
Lemma patch_keeps_owner_witness : isLockedForUI (om_Labels (t_Meta demo_test)) = false.
Proof.
  set (w := Effects.run demo_tests (patchTest demo_server_tests demo_patch_request 99 (Some renaming)) 0).
  assert (Hex : exec (patchTest demo_server_tests demo_patch_request 99 (Some renaming)) w.2 w.1.1) by apply run_exec.
  destruct (patch_keeps_owner demo_server_tests demo_patch_request 99 (Some renaming) w.2 w.1.1 demo_test renaming Hex) as (_ & Hl & _).
  - vm_compute. apply list_elem_of_here.
  - exact Hl.
Defined.

(** ** The window of statistics *)

Lemma Atoi_itoa n : (0 <= n <= int64_max)%Z → Keys.Atoi (itoa n) = Some n.
Proof.
  intros Hn. pose proof (Keys.atoi_itoa n ltac:(lia)) as Hd. unfold Keys.Atoi. destruct (itoa n) as [|c rest] eqn:E.
  { exfalso. injection Hd as <-. discriminate. }
  destruct (Ascii.eqb_spec c "-") as [->|_]; [done|]. destruct (Ascii.eqb_spec c "+") as [->|_]; [done|]. cbn [str_is_empty]. rewrite Hd. cbv zeta.
  destruct (Z.leb_spec int64_min n), (Z.leb_spec n int64_max); unfold int64_min, int64_max in *; try lia. done.
Qed.

Lemma suffix_d s : has_suffix (s +:+ "d") "d" = true ∧ str_take (String.length (s +:+ "d") - 1) (s +:+ "d") = s.
Proof.
  unfold has_suffix. rewrite str_length_app. cbn [String.length]. replace (String.length s + 1 - 1) with (String.length s) by lia.
  rewrite str_drop_app, str_drop_all, Nat.sub_diag by done. split; [by destruct (Nat.leb_spec 1 (String.length s + 1)); [|lia]|].
  induction s as [|c s IH]; [done|]. rewrite str_app_cons. cbn [str_take String.length]. by rewrite IH.
Qed.

Lemma wrap64_range z : (int64_min <= wrap64 z <= int64_max)%Z.
Proof. unfold wrap64, int64_min, int64_max. pose proof (Z.mod_pos_bound (z + 2 ^ 63) (2 ^ 64) ltac:(lia)). lia. Qed.

Lemma parseWindow_range v d : parseWindow v = Some d → (int64_min <= d <= int64_max)%Z.
Proof.
  unfold parseWindow. destruct (has_suffix v "d").
  - destruct (Keys.Atoi _) as [n|]; [|done]. destruct (0 <? n)%Z; [|done]. intros [= <-]. apply wrap64_range.
  - destruct (Durations.ParseDuration v) as [x|] eqn:E; [|done]. destruct (0 <? x)%Z; [|done]. intros [= <-]. by apply Durations.ParseDuration_range in E.
Qed.

(** C40: The statistics' window: what GET /stats/tests asks history for starts no more
    than 90 days back; a count of days up to 106751 is that many days, and more
    than 90 of them are refused; but a larger count is multiplied out of the range
    of a duration, and one that then looks small is accepted. *)
Theorem stats_window_bounded :
  (∀ v d, stats_window v = Some d → (int64_min <= d <= maxStatsWindow)%Z) ∧
  (∀ n, (0 < n <= 106751)%Z → parseWindow (itoa n +:+ "d") = Some (n * 24 * hour)%Z ∧ (stats_window (itoa n +:+ "d") = None ↔ (90 < n)%Z)) ∧
  stats_window "213504d" = Some 1526290448384%Z ∧ stats_window "110000d" = Some (-8942744073709551616)%Z.
Proof.
  split_and!; [| |vm_compute; reflexivity|vm_compute; reflexivity].
  - intros v d. unfold stats_window. destruct (v =? "")%string; [intros [= <-]; by vm_compute|]. destruct (parseWindow v) as [x|] eqn:E; [|done].
    destruct (Z.ltb_spec maxStatsWindow x); [done|]. intros [= <-]. apply parseWindow_range in E. lia.
  - intros n Hn. assert (Hw : parseWindow (itoa n +:+ "d") = Some (n * 24 * hour)%Z).
    { unfold parseWindow. destruct (suffix_d (itoa n)) as [-> ->]. rewrite Atoi_itoa by (unfold int64_max; lia). destruct (Z.ltb_spec 0 n); [|lia].
      rewrite (wrap64_small (n * 24)), wrap64_small; [done| |]; unfold int64_min, int64_max, hour, minute, second; lia. }
    split; [exact Hw|]. unfold stats_window. destruct (String.eqb_spec (itoa n +:+ "d") "") as [He|_].
    { apply (f_equal String.length) in He. rewrite str_length_app in He. cbn in He. lia. }
    rewrite Hw. unfold maxStatsWindow, hour, minute, second. destruct (Z.ltb_spec (90 * 24 * (60 * (60 * 1000000000))) (n * 24 * (60 * (60 * 1000000000)))); split; intros; try done; try lia.
Qed.

(** ** Deleting a run *)

Inductive change := Objects (bucket prefix : string) | RunObject (cr : TestRun) | HistoryRow (uid : string).

(** What a deletion tried, each with its answer. *)
Definition changes (tr : list (event AOp)) : list (change * option error) :=
  flat_map (fun e => match e with Ev o r =>
    match o in AOp R return R → list (change * option error) with
    | ARemovePrefix b p => fun e => [(Objects b p, e)] | ADeleteRun cr => fun e => [(RunObject cr, e)] | AStoreDelete uid => fun e => [(HistoryRow uid, e)]
    | _ => fun _ => []
    end r end) tr.
Lemma changes_app tr1 tr2 : changes (tr1 ++ tr2) = changes tr1 ++ changes tr2.
Proof. apply flat_map_app. Qed.

(** By its answer a thing is gone: it was removed, or was not there; removing no
    objects is no error. *)
Definition gone (c : change * option error) : bool :=
  match c with
  | (_, None) => true
  | (Objects _ _, Some _) => false
  | (RunObject _, Some e) => is_kind ENotFound e
  | (HistoryRow _, Some e) => is_kind ERowNotFound e
  end.

(** A plan carried out to its end, and one that stops at the first thing that is not gone. *)
Definition carried_out (plan : list change) (cs : list (change * option error)) : Prop :=
  cs.*1 = plan ∧ Forall (fun c => gone c = true) cs.
Definition stopped (plan : list change) (cs : list (change * option error)) : Prop :=
  ∃ before cs0 c after, plan = before ++ c.1 :: after ∧ carried_out before cs0 ∧ cs = cs0 ++ [c] ∧ gone c = false.

Lemma carried_out_app p1 p2 cs1 cs2 : carried_out p1 cs1 → carried_out p2 cs2 → carried_out (p1 ++ p2) (cs1 ++ cs2).
Proof. intros [<- H1] [<- H2]. split; [apply fmap_app|by apply Forall_app]. Qed.
Lemma stopped_l p1 p2 cs : stopped p1 cs → stopped (p1 ++ p2) cs.
Proof. intros (b & cs0 & c & a & -> & H). exists b, cs0, c, (a ++ p2). by rewrite <- app_assoc. Qed.
Lemma stopped_r p1 p2 cs1 cs2 : carried_out p1 cs1 → stopped p2 cs2 → stopped (p1 ++ p2) (cs1 ++ cs2).
Proof.
  intros H1 (b & cs0 & c & a & -> & H2 & -> & Hc). exists (p1 ++ b), (cs1 ++ cs0), c, a.
  rewrite <- !app_assoc. split_and!; [done|by apply carried_out_app|done|done].
Qed.
Lemma one_change c : if gone c then carried_out [c.1] [c] else stopped [c.1] [c].
Proof.
  destruct (gone c) eqn:E; [by split; [|constructor]|]. exists [], [], c, []. split_and!; [done|by split|done|done].
Qed.
Lemma carried_out_nil : carried_out [] [].
Proof. by split. Qed.

(** What deleting a run takes. *)
Definition planned (s : Server) (ref : runRef) : list change :=
  (if sv_Remover s && negb (sv_Bucket s =? "")%string then [Objects (sv_Bucket s) (Keys.Prefix (keys ref))] else []) ++
  match rf_CR ref with Some cr => [RunObject cr] | None => [] end ++
  (if sv_Deleter s then [HistoryRow (rf_UID ref)] else []).

(** The end of a deletion. *)
Definition course (plan : list change) (cs : list (change * option error)) (o : Reply) : Prop :=
  (o = writeJSON 204 NoBody ∧ carried_out plan cs) ∨ (o ≠ writeJSON 204 NoBody ∧ stopped plan cs).

Lemma course_after p1 p2 cs1 cs2 o : carried_out p1 cs1 → course p2 cs2 o → course (p1 ++ p2) (cs1 ++ cs2) o.
Proof. intros H1 [[Ho H2]|[Ho H2]]; [left; split; [done|by apply carried_out_app]|right; split; [done|by apply stopped_r]]. Qed.
Lemma course_ends p1 p2 cs o : o ≠ writeJSON 204 NoBody → stopped p1 cs → course (p1 ++ p2) (cs ++ []) o.
Proof. intros Ho Hs. right. split; [done|]. rewrite app_nil_r. by apply stopped_l. Qed.

Lemma find_changes `{Uuids} s ns id tr x : exec (findRun s ns id) tr x → changes tr = [].
Proof. unfold findRun. intros Hex. repeat exec_step; done. Qed.
Lemma audit_changes s r action ns target details tr x : exec (recordAudit s r action ns target details) tr x → changes tr = [].
Proof. unfold recordAudit. intros Hex. repeat exec_step; done. Qed.

Lemma history_course s r ref tr o : exec (delete_history s r ref) tr o →
  course (if sv_Deleter s then [HistoryRow (rf_UID ref)] else []) (changes tr) o.
Proof.
  unfold delete_history. intros (t1 & t2 & d & -> & Hd & Hex)%exec_bind_inv. rewrite changes_app.
  assert (H1 : changes t1 = if sv_Deleter s then [(HistoryRow (rf_UID ref), d)] else []).
  { destruct (sv_Deleter s); [by apply exec_perform_inv in Hd as ->|by apply exec_ret_inv in Hd as [-> _]]. }
  assert (Hnone : sv_Deleter s = false → d = None) by (intros E; rewrite E in Hd; by apply exec_ret_inv in Hd as [_ ->]).
  assert (Hend : ∀ t, exec (_ ← recordAudit s r "run.delete" (rf_Namespace ref) (rf_Name ref) {["uid" := rf_UID ref]}; Ret (writeJSON 204 NoBody)) t o →
    changes t = [] ∧ o = writeJSON 204 NoBody).
  { intros t (u1 & u2 & [] & -> & Ha%audit_changes & [-> ->]%exec_ret_inv)%exec_bind_inv. by rewrite changes_app, Ha. }
  rewrite H1. destruct d as [e|].
  - destruct (sv_Deleter s); [|by specialize (Hnone eq_refl)]. pose proof (one_change (HistoryRow (rf_UID ref), Some e)) as Hone. cbn [gone] in Hone.
    destruct (is_kind ERowNotFound e).
    + destruct (Hend _ Hex) as [-> ->]. left. by rewrite app_nil_r.
    + apply exec_ret_inv in Hex as [-> ->]. right. by rewrite app_nil_r.
  - destruct (Hend _ Hex) as [-> ->]. left. rewrite app_nil_r. split; [done|]. destruct (sv_Deleter s); [by split; [|constructor]|apply carried_out_nil].
Qed.

Lemma api_error_no_204 e : writeAPIError e ≠ writeJSON 204 NoBody.
Proof. unfold writeAPIError. by destruct (e_Kind e). Qed.

Lemma lookup_no_204 e : writeLookupError e ≠ writeJSON 204 NoBody.
Proof. destruct e as [| |e]; cbn; try done. unfold writeAPIError. by destruct (e_Kind e). Qed.

(** C38: A run is deleted in three steps, its stored objects, its object in the cluster, its
    row of history, each tried only when everything before it is gone by its answer —
    removed, or not there — so that what is left of a deletion that fails is still
    found and can be deleted again; never while it runs; and the answer is 204 exactly
    when all of them are gone. *)
Theorem delete_order `{Uuids} s r tr o : exec (deleteRun s r) tr o →
  (changes tr = [] ∧ o ≠ writeJSON 204 NoBody) ∨
  ∃ ref, course (planned s ref) (changes tr) o ∧ (∀ cr, rf_CR ref = Some cr → IsTerminalPhase (run_phase cr) = true) ∧
    ∃ ns tr1, targetNamespace s r "" = Ok ns ∧ tr1 `prefix_of` tr ∧ exec (findRun s ns (rq_id r)) tr1 (Ok ref).
Proof.
  unfold deleteRun, with_run. destruct (targetNamespace s r "") as [ns|e]; [|intros [-> ->]%exec_ret_inv; left; split; [done|apply lookup_no_204]].
  intros (t1 & t2 & found & -> & Hf & Hex)%exec_bind_inv. pose proof (find_changes _ _ _ _ _ Hf) as H1. rewrite changes_app, H1. cbn [app].
  destruct found as [ref|e]; [|apply exec_ret_inv in Hex as [-> ->]; left; split; [done|apply lookup_no_204]].
  destruct (delete_refused s ref) as [out|] eqn:Er.
  { apply exec_ret_inv in Hex as [-> ->]. left. split; [done|]. revert Er. unfold delete_refused. repeat case_match; intros [= <-]; done. }
  right. exists ref. split_and!; [|intros cr Hcr; revert Er; unfold delete_refused; rewrite Hcr; by destruct (IsTerminalPhase _)|exists ns, t1; split_and!; [done|by apply prefix_app_r|done]].
  unfold planned. apply exec_bind_inv in Hex as (t3 & t4 & x & -> & Ho & Hex). rewrite changes_app.
  set (objects := Objects (sv_Bucket s) (Keys.Prefix (keys ref))) in *.
  assert (H3 : match x with None => carried_out (if sv_Remover s && negb (sv_Bucket s =? "")%string then [objects] else []) (changes t3)
    | Some _ => stopped (if sv_Remover s && negb (sv_Bucket s =? "")%string then [objects] else []) (changes t3) end).
  { destruct (_ && _); [apply exec_perform_inv in Ho as ->|by apply exec_ret_inv in Ho as [-> ->]]. pose proof (one_change (objects, x)). by destruct x. }
  destruct x as [e|]; [apply exec_ret_inv in Hex as [-> ->]; by apply course_ends|]. apply course_after; [exact H3|].
  apply exec_bind_inv in Hex as (t5 & t6 & d & -> & Hd & Hex). rewrite changes_app.
  assert (H5 : match IgnoreNotFound d with None => carried_out (match rf_CR ref with Some cr => [RunObject cr] | None => [] end) (changes t5)
    | Some _ => stopped (match rf_CR ref with Some cr => [RunObject cr] | None => [] end) (changes t5) end).
  { destruct (rf_CR ref) as [cr|]; [apply exec_perform_inv in Hd as ->|by apply exec_ret_inv in Hd as [-> ->]].
    pose proof (one_change (RunObject cr, d)) as Hone. destruct d as [e|]; [|done]. cbn [gone IgnoreNotFound] in *. by destruct (is_kind ENotFound e). }
  destruct (IgnoreNotFound d) as [e|]; [apply exec_ret_inv in Hex as [-> ->]; apply course_ends; [apply api_error_no_204|done]|].
  apply course_after; [exact H5|]. by apply history_course in Hex.
Qed.

(** An object store, an API server and a history that carry out what they are told;
    without the row, which is not there. *)
Definition deleting : ∀ R, AOp R → ApiListSpec.moment → R * ApiListSpec.moment := fun R o w =>
  match o in AOp R return R * ApiListSpec.moment with
  | ARemovePrefix _ _ | ADeleteRun _ => (None, w)
  | AStoreDelete _ => (Some (mkError ERowNotFound "no such run"), w)
  | o => ApiListSpec.api (H1 := StoreSpec.demo_uuids) _ o w
  end.
Lemma delete_order_witness :
  let w := Effects.run deleting (deleteRun (H1 := StoreSpec.demo_uuids) ApiListSpec.demo_server (mkRequest ∅ "run-u3" "" "" "" "")) ApiListSpec.demo_cluster in
  w.1.1 = writeJSON 204 NoBody ∧ length (changes w.2) = 3 ∧ ∃ ref, carried_out (planned ApiListSpec.demo_server ref) (changes w.2).
Proof.
  intros w. assert (Ho : w.1.1 = writeJSON 204 NoBody) by (vm_compute; reflexivity). assert (Hl : length (changes w.2) = 3) by (vm_compute; reflexivity).
  split; [exact Ho|]. split; [exact Hl|].
  destruct (@delete_order StoreSpec.demo_uuids _ _ w.2 w.1.1 (run_exec _ _ _)) as [[_ Hn]|(ref & Hc & _)]; [destruct (Hn Ho)|].
  destruct Hc as [[_ Hc]|[Hn _]]; [|destruct (Hn Ho)].
  exists ref. exact Hc.
Defined.
End ApiSpec.
