(* ===== verification/ChunksSpec.v ===== *)
(** * What the reading of logs promises

    A log's chunks are listed, fetched and sent round after round: while chunks are only
    ever added at the end, a reader gets each once, in order, up to the last listing —
    made after the run was over — and a text from an offset goes on where one stopped. *)
From S2P Require Import Prelude Api GoLib Keys Objects Phases Effects Ops Termination Store StoreSpec ApiRuns ApiServer ApiListSpec.

Module ChunksSpec.
Import Objects Phases Ops Termination ApiServer.

(** ** What a trace shows *)

Abbreviation view := (Effects.view AOp).

Definition listings : view (list string) := fun R o =>
  match o in AOp R return R → list (list string) with AListKeys _ _ => fun r => match r with Ok ks => [ks] | Err _ => [] end | _ => fun _ => [] end.
Definition chunks : view (string * string) := fun R o =>
  match o in AOp R return R → list (string * string) with AGetObject _ k => fun r => match r with Ok body => [(k, body)] | Err _ => [] end | _ => fun _ => [] end.
Definition written : view string := fun R o => match o in AOp R return R → list string with AWrite b => fun _ => [b] | _ => fun _ => [] end.
Definition hangups : view unit := fun R o => match o in AOp R return R → list unit with AWrite _ => fun there : bool => if there then [] else [tt] | _ => fun _ => [] end.
(** Whether the run was over, when asked. *)
Definition overs : view bool := fun R o =>
  match o in AOp R return R → list bool with
  | AGetRun _ _ => fun r => [match r with Ok cr => IsTerminalPhase (run_phase cr) | Err e => is_kind ENotFound e end]
  | _ => fun _ => []
  end.
Definition clocks : view time := fun R o => match o in AOp R return R → list time with ANow => fun t => [t] | _ => fun _ => [] end.

(** Each listing is the one before with chunks added at the end. *)
Fixpoint grows (l : list string) (ls : list (list string)) : Prop :=
  match ls with [] => True | x :: ls => l `prefix_of` x ∧ NoDup x ∧ grows x ls end.

(** ** One round *)

(** An emitter, and what it has written of the bodies it got. *)
Class Emits {E} (emit : E → string → M (bool * E)) (I : E → list string → list string → Prop) :=
  emits e b tr ok e' bs ws : exec (emit e b) tr (ok, e') → I e bs ws →
    seen listings tr = [] ∧ seen chunks tr = [] ∧ seen overs tr = [] ∧
    if ok then I e' (bs ++ [b]) (ws ++ seen written tr) else seen hangups tr ≠ [].

Definition fresh (sent : gset string) (ks : list string) : list string := filter (fun k => k ∉ sent) ks.
Lemma fresh_key sent k ks : fresh sent (k :: ks) = if bool_decide (k ∈ sent) then fresh sent ks else k :: fresh sent ks.
Proof. unfold fresh. rewrite filter_cons. by destruct (decide (k ∉ sent)), (bool_decide_reflect (k ∈ sent)). Qed.
Lemma fresh_ext sent sent' ks : (∀ k, k ∈ ks → k ∈ sent ↔ k ∈ sent') → fresh sent ks = fresh sent' ks.
Proof.
  induction ks as [|k ks IH]; intros Hs; [done|]. rewrite !fresh_key, (bool_decide_ext _ _ (Hs k (list_elem_of_here _ _))), IH; [done|].
  intros x Hx. by apply Hs, list_elem_of_further.
Qed.
Lemma fresh_all sent ks : (∀ k, k ∈ ks → k ∈ sent) → fresh sent ks = [].
Proof. induction ks as [|k ks IH]; intros Hs; [done|]. rewrite fresh_key, bool_decide_eq_true_2 by (apply Hs, list_elem_of_here). apply IH. intros x Hx. by apply Hs, list_elem_of_further. Qed.
Lemma fresh_none sent ks : (∀ k, k ∈ ks → k ∉ sent) → fresh sent ks = ks.
Proof. induction ks as [|k ks IH]; intros Hs; [done|]. rewrite fresh_key, bool_decide_eq_false_2 by (apply Hs, list_elem_of_here). f_equal. apply IH. intros x Hx. by apply Hs, list_elem_of_further. Qed.
Lemma fresh_after l l' : NoDup (l ++ l') → fresh (list_to_set l) (l ++ l') = l'.
Proof.
  intros (_ & Hd & _)%NoDup_app. unfold fresh. rewrite filter_app. fold (fresh (list_to_set l) l) (fresh (list_to_set l) l').
  rewrite fresh_all, fresh_none; [done| |]; intros k Hk; rewrite elem_of_list_to_set; [|done]. intros Hl. by apply (Hd k).
Qed.

Section Reading.
Context `{E : Type, emit : E → string → M (bool * E), I : E → list string → list string → Prop, !Emits emit I}.
Context (c : chunkStream) (over : M bool).
Context (Hover : cs_IsTerminal c = if cs_KeepPolling c then Some over else None).
Context (Hasked : cs_KeepPolling c = true → ∀ tr b, exec over tr b → seen listings tr = [] ∧ seen chunks tr = [] ∧ seen written tr = [] ∧ seen hangups tr = [] ∧ seen overs tr = [b]).

Lemma drain_keys_trace ks : ∀ emitted sent e tr r bs ws,
  exec (drain_keys emit c ks emitted sent e) tr r → NoDup ks → I e bs ws → seen hangups tr = [] →
  seen listings tr = [] ∧ seen overs tr = [] ∧
  match r with
  | Drained emitted' sent' e' =>
      (seen chunks tr).*1 = fresh sent ks ∧ sent' = sent ∪ list_to_set ks ∧ I e' (bs ++ (seen chunks tr).*2) (ws ++ seen written tr) ∧
      emitted' = emitted || negb (bool_decide (seen chunks tr = []))
  | ClientGone _ => False
  | DrainFailed _ e' => (seen chunks tr).*1 `prefix_of` fresh sent ks ∧ I e' (bs ++ (seen chunks tr).*2) (ws ++ seen written tr)
  end.
Proof.
  induction ks as [|k ks IH]; intros emitted sent e tr r bs ws Hex Hnd HI Hh; cbn [drain_keys] in Hex.
  { apply exec_ret_inv in Hex as [-> ->]. cbn. rewrite !app_nil_r, orb_false_r. split_and!; try done. set_solver. }
  rewrite fresh_key. case_bool_decide as Hk.
  { apply NoDup_cons in Hnd as [_ Hnd]. destruct (IH _ _ _ _ _ bs ws Hex Hnd HI Hh) as (Hl & Ho & Hr). split_and!; try done.
    destruct r as [em' sent' e'|e'|msg e']; [|done|done]. destruct Hr as (? & -> & ? & ?). split_and!; try done. set_solver. }
  apply exec_perform_bind_inv in Hex as ([body|err] & tr' & -> & Hex).
  2: { apply exec_ret_inv in Hex as [-> ->]. cbn. rewrite !app_nil_r. split_and!; try done. apply prefix_nil. }
  apply exec_bind_inv in Hex as (t1 & t2 & [ok e1] & -> & Hemit & Hex). rewrite seen_cons, seen_app in Hh. cbn [hangups app] in Hh. apply app_nil in Hh as [Hh1 Hh2].
  destruct (emits e body t1 ok e1 bs ws Hemit HI) as (Hl1 & Hc1 & Ho1 & Hok). destruct ok; cbn [fst snd] in Hex; [|done].
  apply NoDup_cons in Hnd as [Hn Hnd]. destruct (IH _ _ _ _ _ (bs ++ [body]) (ws ++ seen written t1) Hex Hnd Hok Hh2) as (Hl & Ho & Hr).
  rewrite !seen_cons, !seen_app, Hl1, Hc1, Ho1, Hl, Ho. cbn [listings chunks overs written app]. split_and!; [done|done|].
  assert (Hf : fresh ({[k]} ∪ sent) ks = fresh sent ks) by (apply fresh_ext; set_solver). rewrite Hf in Hr. cbn [fmap list_fmap fst snd].
  rewrite <- !app_assoc in Hr. cbn [app] in Hr. destruct r as [em' sent' e'|e'|msg e']; [|done|].
  - destruct Hr as (-> & -> & HI' & Hem). split_and!; [done|set_solver|done|]. by rewrite Hem, orb_true_r.
  - destruct Hr as (Hpre & HI'). split; [by apply prefix_cons|done].
Qed.

Lemma grows_app l ls ls' : grows l (ls ++ ls') → grows l ls.
Proof. revert l. induction ls as [|x ls IH]; intros l; [done|]. cbn. intros (? & ? & ?). split_and!; [done|done|by apply IH]. Qed.

(** What has been fetched and sent stands to the listings. *)
Definition fetched_of (tr : list (event AOp)) : list string := (seen chunks tr).*1.

Lemma drain_trace st L tr d bs ws :
  exec (drainOnce emit c (rd_sent st) (rd_emit st)) tr d → rd_sent st = list_to_set L → grows L (seen listings tr) → I (rd_emit st) bs ws → seen hangups tr = [] →
  seen overs tr = [] ∧
  match d with
  | Drained emitted sent e' =>
      seen listings tr = [L ++ fetched_of tr] ∧ sent = list_to_set (L ++ fetched_of tr) ∧ I e' (bs ++ (seen chunks tr).*2) (ws ++ seen written tr) ∧
      emitted = negb (bool_decide (seen chunks tr = []))
  | ClientGone _ => False
  | DrainFailed _ e' => L ++ fetched_of tr `prefix_of` default L (last (seen listings tr)) ∧ I e' (bs ++ (seen chunks tr).*2) (ws ++ seen written tr)
  end.
Proof.
  intros Hex Hs Hg HI Hh. unfold drainOnce in Hex. apply exec_perform_bind_inv in Hex as ([ks|err] & tr' & -> & Hex).
  2: { apply exec_ret_inv in Hex as [-> ->]. cbn. rewrite !app_nil_r. done. }
  rewrite seen_cons in Hg. rewrite seen_cons in Hh. cbn [listings hangups app] in Hg, Hh. destruct Hg as ([L' ->] & Hnd & _).
  destruct (drain_keys_trace _ _ _ _ _ _ bs ws Hex Hnd HI Hh) as (Hl & Ho & Hr). unfold fetched_of. rewrite !seen_cons. cbn [listings overs chunks written app]. rewrite Hl, Ho.
  rewrite Hs, fresh_after in Hr by done. split; [done|]. destruct d as [em' sent' e'|e'|msg e']; [|done|].
  - destruct Hr as (Hc & -> & HI' & Hem). rewrite Hc. split_and!; [done|set_solver|done|done].
  - destruct Hr as (Hc & HI'). cbn [last default from_option id]. split; [by apply prefix_app|done].
Qed.

Definition quiet (since : time) (tr : list (event AOp)) : Prop :=
  seen chunks tr = [] ∧ ∃ now, now ∈ seen clocks tr ∧ (cs_PollDeadline c < time_sub now since)%Z.

Lemma round_trace st L tr r bs ws :
  exec (stream_round emit c st) tr r → rd_sent st = list_to_set L → grows L (seen listings tr) → I (rd_emit st) bs ws → seen hangups tr = [] →
  let sent e' := I e' (bs ++ (seen chunks tr).*2) (ws ++ seen written tr) in
  match r with
  | inl st' => seen listings tr = [L ++ fetched_of tr] ∧ rd_sent st' = list_to_set (L ++ fetched_of tr) ∧ sent (rd_emit st') ∧
      rd_terminalSeen st = false ∧ cs_KeepPolling c = true ∧ seen overs tr = [rd_terminalSeen st'] ∧
      (rd_lastProgressAt st' = rd_lastProgressAt st ∨ rd_lastProgressAt st' ∈ seen clocks tr)
  | inr (None, e') => seen listings tr = [L ++ fetched_of tr] ∧ sent e' ∧
      (cs_KeepPolling c = false ∨ rd_terminalSeen st = true ∧ seen overs tr = [] ∨ quiet (rd_lastProgressAt st) tr)
  | inr (Some _, e') => L ++ fetched_of tr `prefix_of` default L (last (seen listings tr)) ∧ sent e'
  end.
Proof.
  intros Hex Hs Hg HI Hh sent. unfold stream_round in Hex. apply exec_perform_bind_inv in Hex as (over1 & tr1 & -> & Hex).
  assert (Hskip : ∀ A (f : view A), f bool AEnded over1 = [] → seen f (Ev AEnded over1 :: tr1) = seen f tr1) by (intros A f Hf; by rewrite seen_cons, Hf).
  unfold fetched_of, sent, quiet. rewrite !Hskip in * by done. clear sent. destruct over1.
  { apply exec_ret_inv in Hex as [-> ->]. cbn. by rewrite !app_nil_r. }
  apply exec_bind_inv in Hex as (td & t2 & d & -> & Hd & Hex). rewrite !seen_app in *. apply grows_app in Hg. apply app_nil in Hh as [Hhd Hh2].
  destruct (drain_trace st L td d bs ws Hd Hs Hg HI Hhd) as (Ho & Hr). rewrite Ho. unfold fetched_of in Hr. destruct d as [emitted sent e|e|msg e]; [|done|].
  2: { apply exec_ret_inv in Hex as [-> ->]. cbn. by rewrite !app_nil_r. }
  destruct Hr as (Hl & Hsent & HI' & Hem). rewrite Hl.
  apply exec_bind_inv in Hex as (tc & t3 & lastp & -> & Hc & Hex). rewrite !seen_app.
  assert (Hclock : seen listings tc = [] ∧ seen chunks tc = [] ∧ seen overs tc = [] ∧ seen written tc = [] ∧
    if emitted then lastp ∈ seen clocks tc else lastp = rd_lastProgressAt st).
  { destruct emitted; [apply exec_perform_inv in Hc as ->|apply exec_ret_inv in Hc as [-> ->]]; cbn; split_and!; try done. apply list_elem_of_here. }
  destruct Hclock as (Hc1 & Hc2 & Hc3 & Hc4 & Hlast). rewrite Hc1, Hc2, Hc3, Hc4. cbn [app].
  assert (Hend : ∀ t, seen listings t = [] → seen chunks t = [] → seen written t = [] →
    (L ++ (seen chunks td).*1) :: seen listings t = [L ++ (seen chunks td ++ seen chunks t).*1] ∧
    I e (bs ++ (seen chunks td ++ seen chunks t).*2) (ws ++ seen written td ++ seen written t)).
  { intros t -> -> ->. by rewrite !app_nil_r. }
  destruct (negb (cs_KeepPolling c) || rd_terminalSeen st) eqn:Estop.
  { apply exec_ret_inv in Hex as [-> ->]. destruct (Hend [] eq_refl eq_refl eq_refl) as [-> ?]. split_and!; [done|done|].
    apply orb_true_iff in Estop as [Hk|Ht]; [left; by apply negb_true_iff|right; left; by split]. }
  apply orb_false_iff in Estop as [Hk Ht]. apply negb_false_iff in Hk.
  apply exec_bind_inv in Hex as (to & t4 & terminal & -> & Hto & Hex). rewrite Hover, Hk in Hto. destruct (Hasked Hk _ _ Hto) as (Ha1 & Ha2 & Ha3 & Ha4 & Ha5).
  rewrite !seen_app, Ha1, Ha2, Ha3, Ha5. cbn [app]. destruct terminal.
  { apply exec_ret_inv in Hex as [-> ->]. cbn. rewrite !app_nil_r. split_and!; try done. destruct emitted; [right; set_solver|by left]. }
  apply exec_perform_bind_inv in Hex as (now & t5 & -> & Hex). rewrite !seen_cons. cbn [listings chunks written overs clocks app].
  destruct (negb emitted && _) eqn:Eq.
  { apply exec_ret_inv in Hex as [-> ->]. destruct (Hend [] eq_refl eq_refl eq_refl) as [-> ?]. split_and!; [done|done|]. right. right.
    apply andb_true_iff in Eq as [Hne Hd']. apply negb_true_iff in Hne. rewrite Hne in Hlast, Hem. symmetry in Hem. apply negb_false_iff, bool_decide_eq_true in Hem. rewrite Hem. split; [done|].
    subst lastp. exists now. split; [set_solver|by apply Z.ltb_lt]. }
  apply exec_perform_bind_inv in Hex as (over2 & t6 & -> & Hex). rewrite !seen_cons. cbn [listings chunks written overs clocks app].
  destruct over2; apply exec_ret_inv in Hex as [-> ->]; cbn; rewrite !app_nil_r.
  - done.
  - split_and!; try done; [by rewrite Ht|]. destruct emitted; [right; set_solver|by left].
Qed.

(** ** All rounds *)

(** A log has been read to the end of a listing: made after the run was over, or with
    nothing new for longer than the deadline. *)
Definition last_after_over (tr : list (event AOp)) : Prop :=
  ∃ tr1 tr2, tr = tr1 ++ tr2 ∧ last (seen overs tr1) = Some true ∧ length (seen listings tr2) = 1 ∧ seen overs tr2 = [].
Definition gone_quiet (tr : list (event AOp)) : Prop :=
  ∃ since now, since ∈ seen clocks tr ∧ now ∈ seen clocks tr ∧ (cs_PollDeadline c < time_sub now since)%Z.

Definition last_listing (L : list string) (tr : list (event AOp)) : list string := default L (last (seen listings tr)).

Lemma rounds_trace fuel : ∀ st L tr out bs ws,
  exec (stream_rounds emit c fuel st) tr out → rd_sent st = list_to_set L → grows L (seen listings tr) → I (rd_emit st) bs ws → seen hangups tr = [] →
  match out with
  | Some (None, e') => L ++ fetched_of tr = last_listing L tr ∧ I e' (bs ++ (seen chunks tr).*2) (ws ++ seen written tr) ∧
      (cs_KeepPolling c = false ∨ rd_terminalSeen st = true ∧ length (seen listings tr) = 1 ∧ seen overs tr = [] ∨ last_after_over tr
       ∨ ∃ since now, (since = rd_lastProgressAt st ∨ since ∈ seen clocks tr) ∧ now ∈ seen clocks tr ∧ (cs_PollDeadline c < time_sub now since)%Z)
  | Some (Some _, e') => L ++ fetched_of tr `prefix_of` last_listing L tr ∧ I e' (bs ++ (seen chunks tr).*2) (ws ++ seen written tr)
  | None => L ++ fetched_of tr = last_listing L tr ∧ (∃ e', I e' (bs ++ (seen chunks tr).*2) (ws ++ seen written tr)) ∧
      length (seen listings tr) = fuel ∧ (0 < fuel → cs_KeepPolling c = true ∧ rd_terminalSeen st = false) ∧
      ∃ b, seen overs tr = match fuel with O => [] | S n => replicate n false ++ [b] end
  end.
Proof.
  induction fuel as [|fuel IH]; intros st L tr out bs ws Hex Hs Hg HI Hh; cbn [stream_rounds] in Hex.
  { apply exec_ret_inv in Hex as [-> ->]. cbn. rewrite !app_nil_r. split_and!; [done|by eexists|done|lia|by exists true]. }
  apply exec_bind_inv in Hex as (t1 & t2 & r & -> & Hr & Hex). rewrite seen_app in Hg. rewrite seen_app in Hh. apply app_nil in Hh as [Hh1 Hh2].
  pose proof (round_trace st L t1 r bs ws Hr Hs (grows_app _ _ _ Hg) HI Hh1) as Hround. cbn zeta in Hround. destruct r as [st'|[[msg|] e]].
  2: { apply exec_ret_inv in Hex as [-> ->]. by rewrite !app_nil_r. }
  2: { apply exec_ret_inv in Hex as [-> ->]. rewrite !app_nil_r. destruct Hround as (Hl & HI' & Hend). unfold last_listing. rewrite Hl. split_and!; [done|done|].
       destruct Hend as [?|[[? ?]|(_ & now & ? & ?)]]; [by left|right; left; done|]. right. right. right. exists (rd_lastProgressAt st), now. auto. }
  destruct Hround as (Hl & Hs' & HI' & Hterm & Hkeep & Ho & Hprog). rewrite Hl in Hg. destruct Hg as (_ & _ & Hg).
  specialize (IH st' (L ++ fetched_of t1) t2 out _ _ Hex Hs' Hg HI' Hh2).
  assert (Hlast : last_listing L (t1 ++ t2) = last_listing (L ++ fetched_of t1) t2).
  { unfold last_listing. rewrite seen_app, Hl, last_app. cbn [last]. by destruct (last (seen listings t2)). }
  unfold fetched_of in *. rewrite Hlast, !seen_app, !fmap_app, Hl, Ho. rewrite <- !app_assoc in IH. destruct out as [[[msg|] e']|].
  - exact IH.
  - destruct IH as (Hall & HI2 & Hend). split_and!; [done|done|]. right. right. destruct Hend as [?|[(Ht & Hone & Hno)|[(u1 & u2 & -> & Hu & Hone & Hno)|(since & now & Hsince & Hnow & Hq)]]].
    + congruence.
    + left. exists t1, t2. rewrite Ho, Ht. done.
    + left. exists (t1 ++ u1), u2. rewrite app_assoc, seen_app, last_app, Hu. done.
    + right. exists since, now. rewrite !elem_of_app. split_and!; [|by right|done]. destruct Hsince as [->|Hsince]; [|by right; right]. destruct Hprog as [->|?]; [by left|by right; left].
  - destruct IH as (Hall & HI2 & Hlen & Hlive & b & Hb). split_and!; [done|done|cbn; lia|done|]. destruct fuel as [|n].
    + exists (rd_terminalSeen st'). by rewrite Hb.
    + destruct (Hlive ltac:(lia)) as [_ Hlive']. exists b. by rewrite Hb, Hlive'.
Qed.
End Reading.

(** ** The two readers *)

#[export] Instance emits_ws : Emits emit_ws (fun _ bs ws => ws = bs).
Proof.
  intros e b tr ok e' bs ws Hex ->. apply exec_perform_bind_inv in Hex as (there & tr' & -> & [-> [= -> ->]]%exec_ret_inv). destruct there; cbn; done.
Qed.

Definition text (bs : list string) : string := foldr String.append "" bs.
Lemma text_snoc bs b : text (bs ++ [b]) = text bs +:+ b.
Proof.
  induction bs as [|x bs IH]; [exact (str_app_nil_r b)|]. change (x +:+ text (bs ++ [b]) = (x +:+ text bs) +:+ b). by rewrite IH, str_app_assoc.
Qed.

Lemma text_app a b : text (a ++ b) = text a +:+ text b.
Proof. induction a as [|x a IH]; [done|]. change (x +:+ text (a ++ b) = (x +:+ text a) +:+ text b). by rewrite IH, str_app_assoc. Qed.

(** What is sent is the rest of the text; what is left to skip. *)
Definition rest_sent (skip : nat) (st : Z * bool) (bs ws : list string) : Prop :=
  text ws = str_drop skip (text bs) ∧ st.1 = Z.of_nat (skip - String.length (text bs)).
#[export] Instance emits_text skip : Emits emit_text (rest_sent skip).
Proof.
  intros [left_ wrote] b tr ok e' bs ws Hex [Ht Hs]. cbn [fst] in Hs. unfold emit_text in Hex. cbn zeta in Hex.
  set (rest := if (0 <? left_)%Z then str_drop _ b else b) in Hex.
  assert (Hrest : rest = str_drop (skip - String.length (text bs)) b).
  { unfold rest. destruct (Z.ltb_spec 0 left_) as [Hl|Hl]; [|by replace (skip - String.length (text bs)) with 0 by lia].
    destruct (Z.le_gt_cases left_ (Z.of_nat (String.length b))).
    - rewrite Z.min_l by done. f_equal. lia.
    - rewrite Z.min_r by lia. rewrite Nat2Z.id, !str_drop_all; [done|lia|lia]. }
  assert (Hleft : (if (0 <? left_)%Z then left_ - Z.min left_ (Z.of_nat (String.length b)) else left_)%Z = Z.of_nat (skip - String.length (text (bs ++ [b])))).
  { rewrite text_snoc, str_length_app. destruct (Z.ltb_spec 0 left_); lia. }
  rewrite Hleft in Hex. destruct ((0 <? left_)%Z && (rest =? "")%string) eqn:E.
  - apply exec_ret_inv in Hex as [-> [= -> ->]]. split_and!; try done. cbn [seen flat_map]. rewrite app_nil_r. split; [|done].
    apply andb_true_iff in E as [_ Hr%String.eqb_eq]. by rewrite text_snoc, str_drop_app, <- Hrest, Hr, str_app_nil_r.
  - apply exec_perform_bind_inv in Hex as (there & tr' & -> & [-> [= -> ->]]%exec_ret_inv). destruct there; [|by cbn]. split_and!; try done. cbn [seen flat_map written app].
    split; [|done]. by rewrite !text_snoc, str_drop_app, <- Hrest, Ht.
Qed.

Lemma stream_trace {E : Type} {emit : E → string → M (bool * E)} {I : E → list string → list string → Prop} `{!Emits emit I} c over fuel e tr out bs ws :
  cs_IsTerminal c = (if cs_KeepPolling c then Some over else None) →
  (cs_KeepPolling c = true → ∀ tr b, exec over tr b → seen listings tr = [] ∧ seen chunks tr = [] ∧ seen written tr = [] ∧ seen hangups tr = [] ∧ seen overs tr = [b]) →
  exec (stream emit c fuel e) tr out → grows [] (seen listings tr) → I e bs ws → seen hangups tr = [] →
  match out with
  | Some (None, e') => fetched_of tr = last_listing [] tr ∧ I e' (bs ++ (seen chunks tr).*2) (ws ++ seen written tr) ∧
      (cs_KeepPolling c = false ∨ last_after_over tr ∨ gone_quiet (stream_defaults c) tr)
  | Some (Some _, e') => fetched_of tr `prefix_of` last_listing [] tr ∧ I e' (bs ++ (seen chunks tr).*2) (ws ++ seen written tr)
  | None => fetched_of tr = last_listing [] tr ∧ (∃ e', I e' (bs ++ (seen chunks tr).*2) (ws ++ seen written tr)) ∧ length (seen listings tr) = fuel ∧
      ∃ b, seen overs tr = match fuel with O => [] | S n => replicate n false ++ [b] end
  end.
Proof.
  intros Hover Hasked Hex Hg HI Hh. unfold stream in Hex. apply exec_perform_bind_inv in Hex as (start & t & -> & Hex).
  pose proof (rounds_trace (stream_defaults c) over Hover Hasked fuel _ [] t out bs ws Hex eq_refl Hg HI Hh) as Htrace.
  unfold fetched_of, last_listing, last_after_over, gone_quiet in *. rewrite !seen_cons. cbn [listings chunks written overs clocks app] in *. destruct out as [[[msg|] e']|].
  - exact Htrace.
  - destruct Htrace as (Hall & HI' & Hend). split_and!; [done|done|]. destruct Hend as [?|[[? _]|[(u1 & u2 & -> & Hend)|(since & now & Hsince & Hnow & Hq)]]]; [by left|done| |].
    + right. left. exists (Ev ANow start :: u1), u2. done.
    + right. right. exists since, now. cbn [rd_lastProgressAt] in Hsince. rewrite !elem_of_cons. split_and!; [destruct Hsince; auto|auto|done].
  - destruct Htrace as (Hall & HI' & Hlen & _ & Hb). done.
Qed.

(** C34: A run's log reaches a reader who stays: while chunks are only ever added at the
    end of the listing, it sends every chunk's bytes once and in the listing's order —
    up to the last listing when it ends by itself, which it does only for a run that
    was over when it began, after a listing made once the run was seen to be over, or
    when nothing came for longer than the deadline — and goes on for another round
    only while the run is not over. *)
Theorem live_log_delivers s ref fuel tr out :
  exec (stream emit_ws (log_stream s ref) fuel tt) tr out → grows [] (seen listings tr) → seen hangups tr = [] →
  seen written tr = (seen chunks tr).*2 ∧
  match out with
  | Some (None, _) => fetched_of tr = last_listing [] tr ∧
      (cs_KeepPolling (log_stream s ref) = false ∨ last_after_over tr ∨ gone_quiet (stream_defaults (log_stream s ref)) tr)
  | Some (Some _, _) => fetched_of tr `prefix_of` last_listing [] tr
  | None => fetched_of tr = last_listing [] tr ∧ length (seen listings tr) = fuel ∧
      ∃ b, seen overs tr = match fuel with O => [] | S n => replicate n false ++ [b] end
  end.
Proof.
  intros Hex Hg Hh. pose proof (stream_trace (I := fun _ bs ws => ws = bs) (log_stream s ref) (run_over ref) fuel tt tr out [] [] eq_refl) as Ht.
  specialize (Ht ltac:(intros _ t b Hr; apply exec_perform_bind_inv in Hr as (r & t' & -> & [-> ->]%exec_ret_inv); by destruct r) Hex Hg eq_refl Hh).
  destruct out as [[[msg|] e']|].
  - by destruct Ht.
  - by destruct Ht as (? & ? & ?).
  - by destruct Ht as (? & [_ ?] & ? & ?).
Qed.

Lemma text_read s prefix skip tr e' : exec (stream emit_text (text_stream s prefix) 1 (Z.of_nat skip, false)) tr (Some (None, e')) →
  grows [] (seen listings tr) → seen hangups tr = [] →
  fetched_of tr = last_listing [] tr ∧ text (seen written tr) = str_drop skip (text (seen chunks tr).*2).
Proof.
  intros Hex Hg Hh. assert (Hstart : rest_sent skip (Z.of_nat skip, false) [] []) by (split; [by destruct skip|cbn; by rewrite Nat.sub_0_r]).
  pose proof (stream_trace (I := rest_sent skip) (text_stream s prefix) (Ret true) 1 _ tr _ [] [] eq_refl ltac:(discriminate) Hex Hg Hstart Hh) as (Hall & [Ht _] & _). done.
Qed.

(** A log read as text and then followed from where that ended is the log: over
    chunks that are only added to, what the first answer had and what the second
    sends from that offset are, end to end, all the bytes of the last listing. *)
Theorem log_text_followed s prefix tr1 tr2 e1 e2 :
  exec (stream emit_text (text_stream s prefix) 1 (0%Z, false)) tr1 (Some (None, e1)) →
  exec (stream emit_text (text_stream s prefix) 1 (Z.of_nat (String.length (text (seen written tr1))), false)) tr2 (Some (None, e2)) →
  grows [] (seen listings tr1) → grows [] (seen listings tr2) → seen hangups tr1 = [] → seen hangups tr2 = [] →
  seen chunks tr1 `prefix_of` seen chunks tr2 →
  fetched_of tr2 = last_listing [] tr2 ∧ text (seen written tr1) +:+ text (seen written tr2) = text (seen chunks tr2).*2.
Proof.
  intros H1 H2 Hg1 Hg2 Hh1 Hh2 [new Hnew]. apply (text_read s prefix 0) in H1 as [_ Ht1]; [|done..]. apply text_read in H2 as [Hf Ht2]; [|done..].
  split; [done|]. rewrite Ht2, Hnew, fmap_app. cbn [str_drop] in Ht1. rewrite Ht1, text_app, str_drop_app, str_drop_all, Nat.sub_diag by done. done.
Qed.

(** ** A log that grows *)

Definition demo_ref : runRef := ref_of_cr (ApiListSpec.demo_run "u" PhaseRunning None).
Definition demo_chunk (n : nat) : string := Keys.LogChunk (keys demo_ref) (Z.of_nat n).
(** A chunk more at each listing; the run is over after the second. *)
Definition demo_log (R : Type) (o : AOp R) (n : nat) : R * nat :=
  match o in AOp R return R * nat with
  | AListKeys _ _ => (Ok (demo_chunk <$> seq 0 (S n)), S n)
  | AGetObject _ k => (Ok ("<" +:+ k +:+ ">"), n)
  | AGetRun _ _ => (Ok (ApiListSpec.demo_run "u" (if (n <? 2)%nat then PhaseRunning else PhasePassed) None), n)
  | o => ((ApiListSpec.api (H1 := StoreSpec.demo_uuids) _ o ApiListSpec.demo_cluster).1, n)
  end.
Definition demo_follow : M (option (option string * unit)) := stream emit_ws (log_stream ApiListSpec.demo_server demo_ref) 5 tt.
Definition demo_followed : option (option string * unit) * nat * list (event AOp) := Effects.run demo_log demo_follow 0.

Fixpoint grows_check (l : list string) (ls : list (list string)) : bool :=
  match ls with [] => true | x :: ls => bool_decide (l `prefix_of` x) && bool_decide (NoDup x) && grows_check x ls end.
Lemma grows_checked l ls : grows_check l ls = true → grows l ls.
Proof. revert l. induction ls as [|x ls IH]; intros l; cbn; [done|]. rewrite !andb_true_iff, !bool_decide_eq_true. intros [[? ?] ?]. split_and!; auto. Qed.

Example demo_rounds : (length (seen listings demo_followed.2), seen overs demo_followed.2, demo_followed.1.1) = (3, [false; true], Some (None, tt)).
Proof. vm_compute. reflexivity. Qed.

Lemma live_log_delivers_witness : exec demo_follow demo_followed.2 demo_followed.1.1 ∧ seen written demo_followed.2 = (seen chunks demo_followed.2).*2.
Proof.
  assert (Hex : exec demo_follow demo_followed.2 demo_followed.1.1) by apply run_exec. split; [exact Hex|].
  destruct (live_log_delivers ApiListSpec.demo_server demo_ref 5 demo_followed.2 demo_followed.1.1) as [Hw _].
  - exact Hex.
  - apply grows_checked. vm_compute. reflexivity.
  - vm_compute. reflexivity.
  - exact Hw.
Defined.

Definition demo_read (skip : Z) (n : nat) : option (option string * (Z * bool)) * nat * list (event AOp) :=
  Effects.run demo_log (stream emit_text (text_stream ApiListSpec.demo_server "logs/") 1 (skip, false)) n.
Definition demo_first := demo_read 0 1.
Definition demo_second := demo_read (Z.of_nat (String.length (text (seen written demo_first.2)))) 3.

Lemma log_text_followed_witness : text (seen written demo_first.2) +:+ text (seen written demo_second.2) = text (seen chunks demo_second.2).*2.
Proof.
  destruct (log_text_followed ApiListSpec.demo_server "logs/" demo_first.2 demo_second.2 (0%Z, true) (0%Z, true)) as [_ Ht].
  - assert (Ho : demo_first.1.1 = Some (None, (0%Z, true))) by (vm_compute; reflexivity). rewrite <- Ho. apply run_exec.
  - assert (Ho : demo_second.1.1 = Some (None, (0%Z, true))) by (vm_compute; reflexivity). rewrite <- Ho. apply run_exec.
  - apply grows_checked. vm_compute. reflexivity.
  - apply grows_checked. vm_compute. reflexivity.
  - vm_compute. reflexivity.
  - vm_compute. reflexivity.
  - apply (bool_decide_eq_true_1 (seen chunks demo_first.2 `prefix_of` seen chunks demo_second.2)). vm_compute. reflexivity.
  - exact Ht.
Defined.
End ChunksSpec.
