(* ===== verification/ArchiveSpec.v ===== *)
(** * A run in the cluster and in history

    What a client is shown of a finished run is the same whether it is read from the
    cluster or, once its object is gone, from what was saved of it: but for what only a
    live run has, and for the precision of the columns. *)
From S2P Require Import Prelude Api GoLib Keys Objects Phases Effects Ops Calendar Retention Termination Sorting Store StoreSpec ApiRuns ApiServer ApiListSpec.

Module ArchiveSpec.
Import Objects Phases Ops Termination Calendar Retention Store StoreSpec ApiRuns ApiServer ApiListSpec.

Section Archive.
Context `{MapOrder, Floats, Uuids, WebLib}.

(** What history shows of a run. *)
Definition as_archived (comment : option Comment) (e : Run) : Run :=
  mkRun (e_UID e) (e_Name e) (e_Namespace e) (e_TestRef e) (e_Phase e) (e_Source e)
    (pg_time <$> e_QueuedAt e) (pg_time <$> e_StartedAt e) (pg_time <$> e_FinishedAt e) (e_DurationMs e) (e_Message e) OriginArchive
    (e_Tool e) (e_ParentRun e) (e_Tags e) (e_Config e) (e_TestCounts e)
    (if finite_metrics (e_Metrics e) then jsonb_float <$> e_Metrics e else ∅)
    (e_Steps e) (e_Stages e) None None comment (e_Git e) "" (e_Report e).

(** Its spec was taken when it started, and of a git checkout the revision or the
    commit is known. *)
Definition git_known (run : TestRun) : Prop :=
  ∀ c, st_Content (r_Status run) = Some c →
    is_Some (unmarshal_spec (st_ResolvedSpec (r_Status run)) ≫= fun s => ct_Git (ts_Content s)) ↔ (cs_GitRevision c ≠ "" ∨ cs_GitCommit c ≠ "").
Definition was_resolved (run : TestRun) : Prop := snapshot_is_empty (st_ResolvedSpec (r_Status run)) = false.

Lemma parse_metrics_spec m : (parseMetrics m).1 = cr_metrics m.
Proof.
  unfold parseMetrics. assert (Hgen : ∀ xs acc, NoDup (xs.*1) → ∀ k, (foldl parse_metric acc xs).1 !! k =
    match list_to_map (M := strmap) xs !! k with Some v => match ParseFloat v with Ok f => Some f | Err _ => acc.1 !! k end | None => acc.1 !! k end).
  { induction xs as [|[k0 v0] xs IH]; intros acc Hnd k; [done|]. apply NoDup_cons in Hnd as [Hn Hnd]. cbn [foldl]. rewrite list_to_map_cons.
    rewrite IH by done. unfold parse_metric. destruct acc as [out ws]. cbn [fst snd]. destruct (decide (k = k0)) as [->|Hne].
    - rewrite lookup_insert_eq, not_elem_of_list_to_map_1 by done. destruct (ParseFloat v0); cbn [fst]; [by rewrite lookup_insert_eq|done].
    - rewrite (lookup_insert_ne _ k0 k) by done. destruct (ParseFloat v0); cbn [fst]; [rewrite lookup_insert_ne by done|]; done. }
  apply map_eq. intros k. rewrite Hgen.
  - assert (Hm : list_to_map (M := strmap) (range m) = m) by (trans (list_to_map (M := strmap) (map_to_list m)); [apply list_to_map_proper; [rewrite range_perm; apply NoDup_fst_map_to_list|apply range_perm]|apply list_to_map_to_list]).
    rewrite Hm. unfold cr_metrics. rewrite lookup_omap. cbn [fst]. rewrite lookup_empty. destruct (m !! k) as [v|]; [|done]. cbn. by destruct (ParseFloat v).
  - rewrite range_perm. apply NoDup_fst_map_to_list.
Qed.

Lemma same_step s : step_of_row (row_step s) = api_step s.
Proof. by destruct s. Qed.

Lemma same_git run row ws : RowFromRun (Some run) = Ok (row, ws) → git_known run →
  row_git row = cr_git (unmarshal_spec (st_ResolvedSpec (r_Status run))) (st_Content (r_Status run)).
Proof.
  intros Hrow Hg.
  assert (Hfields : rw_ResolvedSpec row = unmarshal_spec (st_ResolvedSpec (r_Status run)) ∧
    rw_GitRevision row = from_option cs_GitRevision "" (st_Content (r_Status run)) ∧ rw_GitCommit row = from_option cs_GitCommit "" (st_Content (r_Status run))).
  { revert Hrow. unfold RowFromRun. destruct (run_uid run =? "")%string; [done|]. destruct (st_FinishedAt _); [|done]. destruct (if bool_decide _ then _ else _). by intros [= <- _]. }
  destruct Hfields as (Hspec & Hrev & Hcommit). unfold row_git, cr_git. rewrite Hspec, Hrev, Hcommit. unfold git_known in Hg.
  destruct (st_Content (r_Status run)) as [c|]; cbn [from_option]; [|by destruct (unmarshal_spec _)]. specialize (Hg c eq_refl).
  assert (Hb : negb (cs_GitCommit c =? "")%string || negb (cs_GitRevision c =? "")%string = bool_decide (cs_GitRevision c ≠ "" ∨ cs_GitCommit c ≠ "")).
  { apply eq_bool_prop_intro. rewrite bool_decide_spec. destruct (String.eqb_spec (cs_GitCommit c) ""), (String.eqb_spec (cs_GitRevision c) ""); cbn; naive_solver. }
  rewrite Hb. destruct (unmarshal_spec _) as [s|]; cbn [mbind option_bind] in Hg.
  - destruct (ct_Git (ts_Content s)) as [g|] eqn:Eg.
    + rewrite bool_decide_eq_true_2 by (apply Hg; by eexists). cbn [from_option]. by rewrite Eg.
    + rewrite bool_decide_eq_false_2 by (intros [x Hx]%Hg; done). done.
  - rewrite bool_decide_eq_false_2 by (intros [x Hx]%Hg; done). done.
Qed.

(** The row's envelope and the run's. *)
Lemma envelope_remembered run row ws old : RowFromRun (Some run) = Ok (row, ws) → git_known run → was_resolved run →
  runEnvelopeFromRow (remembered old row) = as_archived (old ≫= rw_Comment ∘ scan_row) (runEnvelopeFromCR run).
Proof.
  intros Hrow Hg Hres. pose proof (same_git run row ws Hrow Hg) as Hgit. unfold was_resolved in Hres.
  unfold runEnvelopeFromRow. change (row_git (remembered old row)) with (row_git row). rewrite Hgit. clear Hgit Hg.
  revert Hrow. unfold RowFromRun. destruct (run_uid run =? "")%string; [done|]. destruct (st_FinishedAt (r_Status run)) as [f|] eqn:Ef; [|done].
  destruct (if bool_decide _ then _ else _) as [metrics w] eqn:Em. intros [= <- _].
  assert (Hm : metrics = cr_metrics (st_Metrics (r_Status run))).
  { case_bool_decide as He; [|rewrite <- parse_metrics_spec; by rewrite Em]. rewrite He. injection Em as <- _. unfold cr_metrics. by rewrite omap_empty. }
  unfold as_archived, runEnvelopeFromCR, remembered.
  cbn [rw_UID rw_Name rw_Namespace rw_TestRef rw_Phase rw_Source rw_QueuedAt rw_StartedAt rw_FinishedAt rw_DurationMs rw_ResolvedSpec rw_Steps rw_Stages rw_Metrics
    rw_TestCounts rw_ArtifactRefs rw_Message rw_Tags rw_Config rw_Tool rw_ParentRun rw_Comment
    e_UID e_Name e_Namespace e_TestRef e_Phase e_Source e_QueuedAt e_StartedAt e_FinishedAt e_DurationMs e_Message e_Tool e_ParentRun e_Tags e_Config e_TestCounts
    e_Metrics e_Steps e_Stages e_Git e_Report].
  rewrite Hres, Ef, Hm. cbn [fmap option_fmap option_map].
  assert (Hs : step_of_row <$> (row_step <$> st_Steps (r_Status run)) = api_step <$> st_Steps (r_Status run)).
  { rewrite <- map_fmap_compose. apply map_fmap_ext. intros k s _. apply same_step. }
  rewrite Hs. reflexivity.
Qed.

(** The handler over a cluster and a database. *)
Definition served (s : Server) (r : Request) (sn : moment) : Reply := (Effects.run api (getRun s r) sn).1.1.

Lemma api_store_get uid sn x : does (Get uid) (sn_db sn) x (sn_db sn) →
  (Effects.run api (perform (AStoreGet uid)) sn).1 =
  (match x with Ok row => Ok row | Err e => Err (mkError (if (e =? ErrNotFound)%string then ERowNotFound else EOther) e) end, sn).
Proof. intros Hd. cbn [Effects.run perform api]. unfold does in Hd. rewrite Hd. reflexivity. Qed.

(** By name while the object is there, with the comment history has. *)
Lemma served_in_cluster s r cr row sn : sv_Store s = true → targetNamespace s r "" = Ok (run_ns cr) → rq_id r = run_name cr → run_name cr ≠ "" →
  IsTerminalPhase (run_phase cr) = true →
  find_first (fun x => (run_ns x =? run_ns cr)%string && (run_name x =? run_name cr)%string) (sn_runs sn) = Some cr →
  does (Get (run_uid cr)) (sn_db sn) (Ok row) (sn_db sn) →
  served s r sn = Answer 200 None (BRun (with_Comment (rw_Comment row) (runEnvelopeFromCR cr))).
Proof.
  intros Hst Hns Hid Hne Ht Hf Hget. unfold served, getRun, with_run. rewrite Hid, Hns. apply String.eqb_neq in Hne. rewrite Hne.
  cbn beta iota. rewrite run_bind.
  assert (Hfind : (Effects.run api (findRun s (run_ns cr) (run_name cr)) sn).1 = (Ok (ref_of_cr cr), sn)) by (cbn [findRun Effects.run perform mbind prog_mbind prog_bind api]; by rewrite Hf).
  rewrite Hfind. cbn [fst snd ref_of_cr rf_Found]. rewrite run_bind. unfold historyComment. rewrite Hst. change (IsTerminalPhase (run_phase cr)) with (IsTerminalPhase (run_phase cr)). rewrite Ht. cbn [negb orb].
  rewrite run_bind, (api_store_get _ _ _ Hget). reflexivity.
Qed.

(** By UID once it is gone. *)
Lemma served_from_history s r ns uid row sn : sv_Store s = true → targetNamespace s r "" = Ok ns → rq_id r = uid → uid ≠ "" → uuid_Parse uid = true → rw_Namespace row = ns →
  find_first (fun x => (run_ns x =? ns)%string && (run_name x =? uid)%string) (sn_runs sn) = None →
  does (Get uid) (sn_db sn) (Ok row) (sn_db sn) →
  served s r sn = Answer 200 None (BRun (runEnvelopeFromRow row)).
Proof.
  intros Hst Hns Hid Hne Hu Hrow Hf Hget. unfold served, getRun, with_run. rewrite Hid, Hns. apply String.eqb_neq in Hne. rewrite Hne. cbn beta iota. rewrite run_bind.
  assert (Hfind : (Effects.run api (findRun s ns uid) sn).1 = (Ok (ref_of_row row), sn)).
  { unfold findRun. rewrite run_bind. cbn [Effects.run perform api fst snd]. rewrite Hf. cbn [is_kind e_Kind negb]. rewrite Hst, Hu. cbn [negb].
    change (negb (is_kind ENotFound (mkError ENotFound "not found"))) with false. cbn iota.
    rewrite run_bind, (api_store_get _ _ _ Hget). cbn [fst snd Effects.run]. by rewrite Hrow, String.eqb_refl. }
  rewrite Hfind. reflexivity.
Qed.

(** C13: A finished run reads the same from the cluster and from history, when its spec was
    resolved before it ended and what is known of its checkout is kept with it: once it
    has been saved, GET /runs/{name} shows it with the comment history has, and when
    its object is gone GET /runs/{uid} shows it again — every field as before, but that
    it is archived: times to the microsecond, metrics as the column keeps them (none
    when one is not finite), no abort request, start time or live view. *)
Theorem archived_as_in_cluster s r r' run row ws db crs :
  well_kept db → IsTerminal (run_phase run) = true → RowFromRun (Some run) = Ok (row, ws) → (0 <= (month_of (rw_FinishedAt row)).1)%Z →
  pg_uuid (run_uid run) = Some (run_uid run) → uuid_Parse (run_uid run) = true →
  (∀ k' c, db_runs db !! k' = Some c → c_uid c = run_uid run → k' = (pg_time (rw_FinishedAt row), run_uid run)) →
  git_known run → was_resolved run → sv_Store s = true → run_name run ≠ "" → (∀ cr, cr ∈ crs → run_name cr ≠ run_uid run) →
  targetNamespace s r "" = Ok (run_ns run) → rq_id r = run_name run →
  targetNamespace s r' "" = Ok (run_ns run) → rq_id r' = run_uid run →
  ∃ db' comment, does (SaveFinished (Some run)) db None db' ∧
    served s r (mkSnapshot (run :: crs) db') = Answer 200 None (BRun (with_Comment comment (runEnvelopeFromCR run))) ∧
    served s r' (mkSnapshot crs db') = Answer 200 None (BRun (as_archived comment (runEnvelopeFromCR run))).
Proof.
  intros Hk Ht Hrow Hy Hu Hp Hone Hg Hres Hst Hname Hcrs Hns Hid Hns' Hid'. destruct (RowFromRun_fields run row ws Hrow) as (Huid & _ & _ & Hne).
  destruct (save_get run row ws db Hk Ht Hrow Hy Hu Hone) as (db' & Hsave & _ & Hget & _). set (old := db_runs db !! _) in Hget.
  assert (Hrns : rw_Namespace row = run_ns run).
  { revert Hrow. unfold RowFromRun. destruct (run_uid run =? "")%string; [done|]. destruct (st_FinishedAt _); [|done]. destruct (if bool_decide _ then _ else _). by intros [= <- _]. }
  assert (Hterm : IsTerminalPhase (run_phase run) = true) by (by destruct (run_phase run)).
  exists db', (old ≫= rw_Comment ∘ scan_row). split; [exact Hsave|]. split.
  - apply (served_in_cluster s r run (remembered old row) (mkSnapshot (run :: crs) db')); try done. cbn [sn_runs]. unfold find_first. cbn [List.find]. by rewrite !String.eqb_refl.
  - rewrite <- (envelope_remembered run row ws old Hrow Hg Hres).
    apply (served_from_history s r' (run_ns run) (run_uid run) (remembered old row) (mkSnapshot crs db')); try done.
    cbn [sn_runs]. destruct (find_first _ crs) as [x|] eqn:E; [|done]. apply find_first_Some in E as [Hx Hb]. apply andb_true_iff in Hb as [_ Hb%String.eqb_eq].
    by destruct (Hcrs x Hx).
Qed.
End Archive.

(** ** A run of a repository *)

Definition demo_checkout : TestSpec :=
  mkTestSpec (mkContent (Some (mkGit "https://git.example/t" "main" [] "" "" None None None)) [] [] []) zeroContainer [] None ∅ None None None "" ∅ None "" None None None [].
Definition demo_built : TestRun :=
  mkTestRun (mkMeta "built" "ns" "u9" ∅ ∅ 1 None [] []) (mkRunSpec "t" {["env" := "dev"]} None ∅ "cron" None None)
    (mkStatus PhasePassed None (Some 5%Z) (Some 1700000000000000123%Z) 7 "" "k6" (SnapshotOf demo_checkout) ∅ [] [] {["p95" := "12"]} None "" (Some (mkContentStatus "main" "0f3a")) "").
Definition demo_get (id : string) : Request := mkRequest ∅ id "" "" "" "".

Lemma archived_as_in_cluster_witness : ∃ db' comment,
  served (H0 := demo_floats) (H1 := demo_uuids) (H2 := demo_web) demo_server (demo_get "u9") (mkSnapshot [] db')
  = Answer 200 None (BRun (as_archived comment (runEnvelopeFromCR (H0 := demo_floats) (H1 := demo_web) demo_built))).
Proof.
  destruct (archived_as_in_cluster (H := list_order) (H0 := demo_floats) (H1 := demo_uuids) (H2 := demo_web) demo_server (demo_get "built") (demo_get "u9")
    demo_built (demo_row demo_built) [] demo_empty []) as (db' & comment & _ & _ & Hserved).
  - exact demo_empty_kept.
  - reflexivity.
  - reflexivity.
  - vm_compute. discriminate.
  - reflexivity.
  - reflexivity.
  - intros k c Hc. cbn [db_runs demo_empty] in Hc. by rewrite lookup_empty in Hc.
  - intros c [= <-]. split; [intros _; left; discriminate|intros _; by eexists].
  - reflexivity.
  - reflexivity.
  - discriminate.
  - intros cr Hcr. by apply elem_of_nil in Hcr.
  - reflexivity.
  - reflexivity.
  - reflexivity.
  - reflexivity.
  - exists db', comment. exact Hserved.
Defined.
End ArchiveSpec.
